(* ===== verification/_CoqProject ===== *)
-Q . S2P
Prelude.v
Order.v
Collections.v
OrderedMap.v
Text.v
Canonical.v
Protect.v
ProtectFacts.v
SpoolFrame.v
Ids.v
Digests.v
Lane.v
Journal.v
Objects.v
Attempt.v
AttemptOps.v
JournalRows.v
JournalAdmission.v
JournalWriter.v
JournalLog.v
JournalWriterTheorems.v
Repository.v
RepositoryStore.v
Work.v
WorkOps.v
Constraint.v
Atom.v
Evidence.v
SessionImport.v
Watermark.v
Recovery.v
RecoveryStore.v
RecoveryFacts.v
CaptureBody.v
GapMarker.v
Fs.v
Spool.v
SpoolFacts.v
SpoolOpsFacts.v
SpoolReading.v
SpoolTheorems.v
Normalize.v
NormalizeFacts.v
NormalizeStable.v
Episode.v
Segmentation.v
SegmentationFacts.v
EpisodeOps.v
EpisodeWitnesses.v
Recall.v
RecallFacts.v
RecallLedger.v
RecallTheorems.v
RecallContexts.v
RecallEngine.v
RecallEngineFacts.v
RecallEngineTheorems.v
RuntimeSnapshot.v
Admission.v
AdmissionFacts.v
Autoresearch.v
Usage.v
AutoresearchStore.v
ControlledRuns.v
ControlledRunsFacts.v
Procedure.v
Effect.v
EffectFacts.v
ProcedureFacts.v
