(* ===== verification/Prelude.v ===== *)
(** * EverTrace: a verification library

    EverTrace records what coding agents do and turns it into memory that is recalled
    later.  A synchronous hook protects an observation and appends it to a spool; a
    daemon ingests the spool, normalises observations into operations, folds them into
    bursts and episodes, derives semantic atoms and recalls them; everything the daemon
    decides goes through one journal, from which every other state is a projection.
    This library models the parts of the program that carry that logic, in the order
    of the data flow, and proves what they promise.  Paths are relative to src/crates;
    a definition has the name of the function or type it models, in a Module with the
    name of the Rust type where the function is a method.

    ** How the files are built

    The foundation: this file (results, the [?] operator, generic lemmas), [Order]
    (total orders, sorting, the ordered collections of the standard library),
    [Collections], [OrderedMap] (BTreeMap), [Text] (bytes, big-endian integers, UTF-8).
    Rust's [Result] is [result]; a panic is a value of its own where absence of panics is
    a claim; machine integers are N or Z with their checked, saturating or wrapping
    operations written out; identifiers are strings or digests.  Code outside src/ is an
    interface with its laws: SHA-256 and its length ([Attempt.Sha256], [Sha256Length]),
    the uuid crate ([Ids.UuidLib], [UuidLaws]), serde_json (arguments [to_vec],
    [from_slice], or the JSON fields of an interface class); each is instantiated by a
    concrete function in the witnesses.

    ** Identity and encoding

    [Canonical] is domain/canonical.rs (the encoding under every digest), [Digests] the
    digests built on it, [Ids] domain/ids.rs.  Theorem: equal encodings come from equal
    values.

    ** Capture: from the hook to the daemon (crate evertrace-capture)

    [Protect], [ProtectFacts]: detection and redaction of secrets (protect.rs).
    [SpoolFrame]: the frames of a segment (frame.rs), writer and scanner; [CaptureBody]:
    the record body inside a frame.  [GapMarker]: the marker left when a
    record cannot be kept.  [Fs]: the file system below, and its weakest
    precondition.  [Spool]: the durable spool (spool.rs), every operation as its sequence
    of system calls.  [SpoolFacts], [SpoolOpsFacts]: what files hold, the invariant, one
    specification per operation, and the bounds.  [SpoolReading], [SpoolTheorems]: the
    theorems.

    A system call of [Fs] succeeds, fails with an error kind, stops halfway through a
    write, or is the point of a crash, as an oracle list says; statements over all oracles
    cover every fault and crash point.  Assumed of the system: a directory change is
    atomic; directory changes reach the disk in order, and syncing a directory forces all
    changes up to the last one that touches it; of unforced file contents some prefix
    survives a power loss, forced contents all; operations that hold the lock of a
    directory do not interleave; [Path::exists] does not fail for a file that is there;
    the umask leaves the modes 0600 and 0700 alone.  Under these the theorems say: a record acknowledged by an
    append that did not meet a segment whose entry an earlier crash left unforced is found
    in every state any trace of operations, faults, crashes and power losses can lead to
    ([acknowledged_record_survives]), and one acknowledged by an append that did can be
    lost ([unforced_entry_lost]); recovery keeps exactly the complete frames; pages
    tile a segment; the buffered check is the one-pass check; the directory stays within
    its limits; the marker format is exact.

    [RuntimeSnapshot]: what the daemon tells the hook
    (runtime_snapshot.rs), and that the hook decodes what the daemon encodes.  [Admission],
    [AdmissionFacts]: the hook's side (admission.rs), composed from
    [Protect], [CaptureBody], [GapMarker] and [Spool].  Theorems: with the same
    exception, a capture that says [Durable] has left a record that is owed, reads back to its body and fits a page
    ([capture_durable]); whatever faults it meets, a capture changes nothing, is durable,
    leaves a whole marker or says that completeness is lost ([capture_never_silent]);
    opening for admission changes no file; a torn marker stops captures for good, unless
    something is quarantined ([torn_marker_stops_capture]).
    Fuel: [SpoolFrame.scan_frames] takes one round per byte, [Spool.active_loop] one per 64
    KiB buffer and one more, [SpoolReading.read_pages] one page per record; each is proved
    enough.

    ** The journal (crate evertrace-store)

    [Journal]: the command envelope (command.rs).  [Objects]: object rows and payload blocks
    (objects.rs).  [JournalRows]: rows of the journal (journal.rs).
    [JournalAdmission]: the spine of the reducer of projections.rs,
    the single components being the interface [AdmissionParts].  [JournalWriter]: writer.rs, opening and committing with the faults of the storage
    as arguments.  [JournalLog]: the abstract specification, an append-only log of
    commands.  [JournalWriterTheorems]: the writer refines it: a commit, whatever fails, is a
    step of the log, and the table is a log at all times; commits are idempotent; the store
    opens exactly when the replay accepts the log, which it need not, since the replay makes
    checks the admission does not ([acknowledged_then_opens]) and a lost sibling lock leaves
    the admission behind the table ([lock_lost_diverges]); where it opens, a lost
    acknowledgement is repaired by resubmission.  [persists] is what holds of a writer and
    its log at all times, [represents] what holds of a writer in step with it.

    ** Records of the domain and their operations

    [Lane] (work.rs: lanes, receipts, the resolver), [Attempt] and [AttemptOps]
    (work/attempt.rs of domain and engine), [Work] and [WorkOps] (tasks, workstreams,
    bindings), [Repository] and [RepositoryStore] (repository.rs, the repository
    projection), [Evidence] (evidence.rs), [Constraint] and [Atom] (semantic/), [Recovery],
    [RecoveryStore], [RecoveryFacts] (recovery of work before
    destructive operations).  Each has the records, the validators as the code's
    conditions in the code's order, and the successor relations; the theorems are about
    chains of accepted revisions (what never changes, only grows, or is final), about
    the decision functions (exact conditions), and about the projections (rebuilding
    from the journal gives what the reducer kept).

    ** Ingestion

    [SessionImport] (store/session_import.rs): the state of an imported
    session and its permissions.  [Watermark] (projections.rs): the
    receipts of a source tile what its watermark confirms.  [Normalize],
    [NormalizeFacts], [NormalizeStable] (engine/normalize.rs):
    observations are partitioned into occurrences; a second run over the observations of a
    first one, or over observations without source-local evidence, changes nothing, whatever
    identifiers it would draw.

    ** Segmentation

    [Episode] (domain records), [Segmentation] (token, burst folder, boundary detector,
    incremental segmenter of engine/segmentation), [SegmentationFacts], [EpisodeOps] (the
    engine's operations and the store's projection), [EpisodeWitnesses].  Theorems:
    folding conserves members, a boundary is confirmed twice, the command built for a
    prepared step is accepted by the reducer and acknowledged by the segmenter.

    ** Recall

    [Recall], [RecallFacts] (domain/recall.rs), [RecallLedger],
    [RecallTheorems] (the store's ledger), [RecallContexts] (its inputs and rows),
    [RecallEngine], [RecallEngineFacts], [RecallEngineTheorems] (detection, settlement, the worker's batch).  Theorems: an
    attempt is claimed and concluded at most once, a restored ledger simulates the
    uninterrupted one, the events of a batch are accepted by the ledger they were made
    for exactly when each passes its own validation, the field index finds exactly the due cues.

    ** Experiment runs and procedures

    [Autoresearch] (work/autoresearch.rs and the results of semantic.rs): runs, results and
    artifacts.  [AutoresearchStore], [ControlledRuns], [ControlledRunsFacts]
    (store/projections/autoresearch.rs): recording, rebuilding and relations, and the
    admission of controlled runs.  Theorems: a run keeps its contract through all its
    revisions, a controlled run is one declaration and at most one completion, the
    rebuilt runs are the current ones.

    [Usage] (procedure/usage.rs), [Procedure] (procedure.rs) and [Effect]
    (procedure/effect.rs): what a learned procedure says, how it is published, how its uses
    are followed and what they show.  [EffectFacts], [ProcedureFacts]: a use never loses
    what it found, metrics are compared as the rational numbers they denote, the effects
    describe exactly the usages observed, and a hold of a stable publication cannot be
    lifted.

    ** How the parts meet

    The frames of [SpoolFrame] are the contents of the files of [Spool]; records of
    [CaptureBody] use [Evidence] and [Lane].  Commands of the engine modules
    ([AttemptOps], [WorkOps], [EpisodeOps], [Normalize], [RecallEngine]) are event drafts of
    [Journal]; the reducers ([RepositoryStore], [Segmentation], [RecallLedger],
    [SessionImport], [Watermark], [RecoveryStore]) accept or refuse them, and the journal
    theorems are about any reducer that satisfies [AdmissionParts].  The composition is
    proved where both sides are modelled: [commit_then_acknowledge], [batch_accepted],
    [applications_rebuilt], [watermark_tiles].

    ** Not modelled

    Input and output beyond the spool's file system (SQLite, LanceDB, sockets, Git, the
    provider's HTTP), text user interfaces, command-line front ends and the host adapter;
    the parsing of stored rows into the inputs of the relation checks; the payload
    variants of the journal that have no module here (inventory, purge, semantic
    proposals, synthesis); configuration; queries and search;
    jobs, maintenance, service and governance of the engine, which are asynchronous
    drivers around the operations above.  PROJECT.json lists them one by one with the
    reason. *)

From Stdlib Require Export NArith ZArith Lia Sorted Permutation.
From stdpp Require Export base tactics list sets strings gmap.

(** ** Fallible computations

    Rust's [Result<A, E>].  [let? x := m in k] is the [?] operator, [guard]
    is the shape [if bad { return Err(e); }], [map_err] is the method of the
    same name. *)

Inductive result (E A : Type) : Type :=
| Ok (a : A)
| Err (e : E).
Arguments Ok {E A} _.
Arguments Err {E A} _.

Definition rbind {E A B} (m : result E A) (k : A -> result E B) : result E B :=
  match m with Ok a => k a | Err e => Err e end.

Definition map_err {E F A} (f : E -> F) (m : result E A) : result F A :=
  match m with Ok a => Ok a | Err e => Err (f e) end.

Definition ok_or {E A} (o : option A) (e : E) : result E A :=
  match o with Some a => Ok a | None => Err e end.

Definition guard {E} (bad : bool) (e : E) : result E unit :=
  if bad then Err e else Ok tt.

Definition is_ok {E A} (m : result E A) : bool :=
  match m with Ok _ => true | Err _ => false end.

Definition is_err {E A} (m : result E A) : bool := negb (is_ok m).

Declare Scope res_scope.
Delimit Scope res_scope with res.
Notation "'let?' x ':=' m 'in' k" := (rbind m (fun x => k))
  (at level 10, x name, m at level 100, k at level 200) : res_scope.
Notation "'do?' m 'in' k" := (rbind m (fun _ => k))
  (at level 10, m at level 100, k at level 200) : res_scope.
Notation "x ==? y" := (bool_decide (x = y)) (at level 70, no associativity) : res_scope.
Notation "x !=? y" := (negb (bool_decide (x = y))) (at level 70, no associativity) : res_scope.
Open Scope res_scope.

(** Computations that can also panic ([expect], [unwrap], indexing): the panic
    is a value of its own, so that its absence can be proved. *)
Inductive fault (E : Type) : Type :=
| Raise (e : E)
| Panicked.
Arguments Raise {E} _.
Arguments Panicked {E}.

(** Every [for x in xs { f(x)?; }] loop of a validator. *)
Fixpoint for_each {E A} (f : A -> result E unit) (l : list A) : result E unit :=
  match l with
  | [] => Ok tt
  | x :: r => do? f x in for_each f r
  end.

(** [iter().map(f).collect::<Result<Vec<_>, _>>()]. *)
Fixpoint try_map {E A B} (f : A -> result E B) (l : list A) : result E (list B) :=
  match l with
  | [] => Ok []
  | x :: r => let? y := f x in let? ys := try_map f r in Ok (y :: ys)
  end.

Lemma rbind_ok {E A B} (m : result E A) (k : A -> result E B) b :
  rbind m k = Ok b <-> exists a, m = Ok a /\ k a = Ok b.
Proof. destruct m; simpl; naive_solver. Qed.

Lemma guard_ok {E} (bad : bool) (e : E) u : guard bad e = Ok u <-> bad = false.
Proof. destruct bad, u; simpl; naive_solver. Qed.

Lemma map_err_ok {E F A} (f : E -> F) (m : result E A) a :
  map_err f m = Ok a <-> m = Ok a.
Proof. destruct m; simpl; naive_solver. Qed.

Lemma ok_or_ok {E A} (o : option A) (e : E) a : ok_or o e = Ok a <-> o = Some a.
Proof. destruct o; simpl; naive_solver. Qed.

Lemma is_err_false {E} (m : result E unit) : is_err m = false <-> m = Ok tt.
Proof. destruct m as [[]|]; unfold is_err; simpl; naive_solver. Qed.

Lemma is_ok_true {E} (m : result E unit) : is_ok m = true <-> m = Ok tt.
Proof. destruct m as [[]|]; simpl; naive_solver. Qed.

Lemma for_each_ok {E A} (f : A -> result E unit) l u :
  for_each f l = Ok u <-> Forall (fun x => f x = Ok tt) l.
Proof.
  destruct u. induction l as [|x l IH]; simpl; [by split|].
  rewrite rbind_ok, Forall_cons. setoid_rewrite IH.
  split; [intros ([] & ? & ?); naive_solver | intros [? ?]; exists tt; naive_solver].
Qed.

(** ** Booleans of the guards

    A validator is a disjunction of defects; [guards] turns the success of a
    validator into the list of its negated defects. *)

Create Rewrite HintDb guards.
#[export] Hint Rewrite orb_false_iff andb_true_iff negb_false_iff negb_true_iff
  @rbind_ok @guard_ok @map_err_ok @ok_or_ok @is_err_false @is_ok_true @for_each_ok
  : guards.

Lemma bool_decide_false {P : Prop} `{!Decision P} : bool_decide P = false <-> ~ P.
Proof. apply bool_decide_eq_false. Qed.
Lemma bool_decide_true {P : Prop} `{!Decision P} : bool_decide P = true <-> P.
Proof. apply bool_decide_eq_true. Qed.
#[export] Hint Rewrite @bool_decide_false @bool_decide_true : guards.

Ltac guards_in H := autorewrite with guards in H; destruct_and? H.
Ltac guards := autorewrite with guards in *; destruct_and?.

(** Runs a successful chain of [?] steps backwards: one hypothesis per step,
    the guards turned into the conditions they establish. *)
Ltac ok_step H :=
  lazymatch type of H with
  | rbind (guard _ _) _ = Ok _ =>
      let G := fresh "G" in apply rbind_ok in H as ([] & G & H); cbv beta in H; guards_in G
  | rbind ?m _ = Ok _ =>
      let x := fresh "x" in let G := fresh "G" in apply rbind_ok in H as (x & G & H); cbv beta in H;
      let T := type of x in
      lazymatch T with unit => destruct x; try guards_in G | _ => idtac end
  | guard _ _ = Ok _ => guards_in H
  end.
Ltac ok_steps H := repeat ok_step H.

Lemma cons_inv {A} (x y : A) l m : x :: l = y :: m -> x = y /\ l = m.
Proof. by inversion 1. Qed.

(** ** Unsigned machine integers *)

Definition U8_MAX : N := 255.
Definition U16_MAX : N := 65535.
Definition U32_MAX : N := 4294967295.
Definition U64_MAX : N := 18446744073709551615.

Definition checked_add_u64 (a b : N) : option N :=
  if (a + b <=? U64_MAX)%N then Some (a + b)%N else None.
Definition checked_add_u32 (a b : N) : option N :=
  if (a + b <=? U32_MAX)%N then Some (a + b)%N else None.
Definition checked_add_u8 (a b : N) : option N :=
  if (a + b <=? U8_MAX)%N then Some (a + b)%N else None.

Definition checked_mul_u64 (a b : N) : option N :=
  if (a * b <=? U64_MAX)%N then Some (a * b)%N else None.

Lemma checked_add_u64_Some a b c :
  checked_add_u64 a b = Some c <-> c = (a + b)%N /\ (a + b <= U64_MAX)%N.
Proof. unfold checked_add_u64. destruct (N.leb_spec (a + b) U64_MAX); split; intros; simplify_eq; try lia; naive_solver. Qed.

Lemma checked_add_u32_Some a b c :
  checked_add_u32 a b = Some c <-> c = (a + b)%N /\ (a + b <= U32_MAX)%N.
Proof. unfold checked_add_u32. destruct (N.leb_spec (a + b) U32_MAX); split; intros; simplify_eq; try lia; naive_solver. Qed.
