(* ===== verification/Order.v ===== *)
(** * Total orders and the ordered collections of the Rust standard library

    [Ord] is Rust's trait of the same name with the laws its documentation
    demands.  The files of the development use it for the four collection
    idioms of the code: [windows(2)] order checks, [BTreeSet] collection,
    [sort]/[dedup] on vectors and [binary_search]. *)

From S2P Require Import Prelude.

Class Ord (A : Type) := {
  cmp : A -> A -> comparison;
  cmp_eq x y : cmp x y = Eq <-> x = y;
  cmp_opp x y : cmp y x = CompOpp (cmp x y);
  cmp_lt_trans x y z : cmp x y = Lt -> cmp y z = Lt -> cmp x z = Lt;
}.

Definition lt_ord {A} `{!Ord A} (x y : A) : Prop := cmp x y = Lt.
Definition ltb_ord {A} `{!Ord A} (x y : A) : bool := match cmp x y with Lt => true | _ => false end.
Definition leb_ord {A} `{!Ord A} (x y : A) : bool := match cmp x y with Gt => false | _ => true end.

Section ord_laws.
Context {A : Type} `{!Ord A}.
Implicit Types x y z : A.

Lemma cmp_refl x : cmp x x = Eq.
Proof. by apply cmp_eq. Qed.

Lemma lt_ord_irrefl x : ~ lt_ord x x.
Proof. unfold lt_ord. rewrite cmp_refl. discriminate. Qed.

Lemma lt_ord_trans x y z : lt_ord x y -> lt_ord y z -> lt_ord x z.
Proof. apply cmp_lt_trans. Qed.

Lemma cmp_gt x y : cmp x y = Gt <-> lt_ord y x.
Proof. unfold lt_ord. rewrite (cmp_opp x y). destruct (cmp x y); naive_solver. Qed.

Lemma ltb_ord_true x y : ltb_ord x y = true <-> lt_ord x y.
Proof. unfold ltb_ord, lt_ord. destruct (cmp x y); naive_solver. Qed.

Lemma leb_ord_true x y : leb_ord x y = true <-> lt_ord x y \/ x = y.
Proof.
  unfold leb_ord. destruct (cmp x y) eqn:E; unfold lt_ord; rewrite E.
  - apply cmp_eq in E. naive_solver.
  - naive_solver.
  - split; [done|]. intros [?| ->]; [done|]. by rewrite cmp_refl in E.
Qed.

Lemma leb_ord_false x y : leb_ord x y = false <-> lt_ord y x.
Proof. unfold leb_ord. rewrite <-cmp_gt. destruct (cmp x y); naive_solver. Qed.

Lemma leb_ord_total x y : leb_ord x y = true \/ leb_ord y x = true.
Proof.
  destruct (leb_ord x y) eqn:E; [by left|]. right.
  apply leb_ord_false in E. apply leb_ord_true. by left.
Qed.

Lemma leb_ord_trans x y z : leb_ord x y = true -> leb_ord y z = true -> leb_ord x z = true.
Proof.
  rewrite !leb_ord_true. intros [?| ->] [?| ->]; eauto using lt_ord_trans.
Qed.

Lemma leb_ord_antisym x y : leb_ord x y = true -> leb_ord y x = true -> x = y.
Proof.
  rewrite !leb_ord_true. intros [Hxy|?] [Hyx|?]; try done.
  exfalso. exact (lt_ord_irrefl x (lt_ord_trans _ _ _ Hxy Hyx)).
Qed.

Lemma ord_dec x y : {x = y} + {x <> y}.
Proof.
  destruct (cmp x y) eqn:E.
  - left. by apply cmp_eq.
  - right. intros ->. by rewrite cmp_refl in E.
  - right. intros ->. by rewrite cmp_refl in E.
Defined.
End ord_laws.

(** An order pulled back along an injection: how [derive(Ord)] orders an
    enumeration (by variant index) and a newtype (by its field). *)
Program Definition Ord_by {A B} `{!Ord B} (f : A -> B)
    (inj : forall x y, f x = f y -> x = y) : Ord A :=
  {| cmp x y := cmp (f x) (f y) |}.
Next Obligation. intros A B ? f inj x y; simpl. rewrite cmp_eq. naive_solver. Qed.
Next Obligation. intros A B ? f inj x y; simpl. apply cmp_opp. Qed.
Next Obligation. intros A B ? f inj x y z; simpl. apply cmp_lt_trans. Qed.

#[export] Program Instance Ord_N : Ord N := {| cmp := N.compare |}.
Next Obligation. apply N.compare_eq_iff. Qed.
Next Obligation. intros x y. apply N.compare_antisym. Qed.
Next Obligation. intros x y z. rewrite !N.compare_lt_iff. lia. Qed.

(** Lexicographic product: the order of a derived struct or tuple. *)
Definition cmp_lex (c d : comparison) : comparison := match c with Eq => d | _ => c end.

#[export] Program Instance Ord_prod {A B} `{!Ord A, !Ord B} : Ord (A * B) :=
  {| cmp p q := cmp_lex (cmp p.1 q.1) (cmp p.2 q.2) |}.
Next Obligation.
  intros A B ? ? [a b] [a' b']; simpl. unfold cmp_lex.
  destruct (cmp a a') eqn:E.
  - apply cmp_eq in E as ->. rewrite cmp_eq. naive_solver.
  - split; [done|]. intros [= -> _]. by rewrite cmp_refl in E.
  - split; [done|]. intros [= -> _]. by rewrite cmp_refl in E.
Qed.
Next Obligation.
  intros A B ? ? [a b] [a' b']; simpl. unfold cmp_lex. rewrite (cmp_opp a a'), (cmp_opp b b').
  by destruct (cmp a a').
Qed.
Next Obligation.
  intros A B ? ? [a b] [a' b'] [a'' b'']; simpl. unfold cmp_lex.
  destruct (cmp a a') eqn:E1; try done; destruct (cmp a' a'') eqn:E2; try done; intros H1 H2.
  - apply cmp_eq in E1 as ->. apply cmp_eq in E2 as ->. rewrite cmp_refl. eauto using cmp_lt_trans.
  - apply cmp_eq in E1 as ->. by rewrite E2.
  - apply cmp_eq in E2 as ->. by rewrite E1.
  - by rewrite (cmp_lt_trans _ _ _ E1 E2).
Qed.

(** Lexicographic order on sequences: slices, arrays and vectors. *)
Fixpoint cmp_list {A} `{!Ord A} (l m : list A) : comparison :=
  match l, m with
  | [], [] => Eq
  | [], _ :: _ => Lt
  | _ :: _, [] => Gt
  | x :: l, y :: m => cmp_lex (cmp x y) (cmp_list l m)
  end.

#[export] Program Instance Ord_list {A} `{!Ord A} : Ord (list A) := {| cmp := cmp_list |}.
Next Obligation.
  intros A ? l. induction l as [|x l IH]; intros [|y m]; simpl; try done.
  unfold cmp_lex. destruct (cmp x y) eqn:E.
  - apply cmp_eq in E as ->. rewrite IH. naive_solver.
  - split; [done|]. intros [= -> _]. by rewrite cmp_refl in E.
  - split; [done|]. intros [= -> _]. by rewrite cmp_refl in E.
Qed.
Next Obligation.
  intros A ? l. induction l as [|x l IH]; intros [|y m]; simpl; try done.
  rewrite (cmp_opp x y), IH. by destruct (cmp x y).
Qed.
Next Obligation.
  intros A ? l. induction l as [|x l IH]; intros [|y m] [|z n]; simpl; try done.
  unfold cmp_lex.
  destruct (cmp x y) eqn:E1; try done; destruct (cmp y z) eqn:E2; try done; intros H1 H2.
  - apply cmp_eq in E1 as ->. apply cmp_eq in E2 as ->. rewrite cmp_refl. eauto.
  - apply cmp_eq in E1 as ->. by rewrite E2.
  - apply cmp_eq in E2 as ->. by rewrite E1.
  - by rewrite (cmp_lt_trans _ _ _ E1 E2).
Qed.

#[export] Program Instance Ord_option {A} `{!Ord A} : Ord (option A) :=
  {| cmp o p := match o, p with
                | None, None => Eq
                | None, Some _ => Lt
                | Some _, None => Gt
                | Some x, Some y => cmp x y
                end |}.
Next Obligation. intros A ? [x|] [y|]; rewrite ?cmp_eq; naive_solver. Qed.
Next Obligation. intros A ? [x|] [y|]; simpl; auto using cmp_opp. Qed.
Next Obligation. intros A ? [x|] [y|] [z|]; simpl; try done. apply cmp_lt_trans. Qed.
