(* ===== verification/Collections.v ===== *)
(** * Ordered collections

    Executable models of the slice and collection operations the code uses
    ([windows(2)], [BTreeSet], [sort], [dedup], [binary_search]) and the facts
    about them that the component files share. *)

From S2P Require Import Prelude Order.

(** ** [windows(2)] *)

(** [values.windows(2).all(|pair| f(pair[0], pair[1]))]. *)
Fixpoint windows2_all {A} (f : A -> A -> bool) (l : list A) : bool :=
  match l with
  | x :: ((y :: _) as r) => f x y && windows2_all f r
  | _ => true
  end.

(** [values.windows(2).any(|pair| f(pair[0], pair[1]))]. *)
Fixpoint windows2_any {A} (f : A -> A -> bool) (l : list A) : bool :=
  match l with
  | x :: ((y :: _) as r) => f x y || windows2_any f r
  | _ => false
  end.

Definition any {A} (f : A -> bool) (l : list A) : bool := existsb f l.
Definition all {A} (f : A -> bool) (l : list A) : bool := forallb f l.

(** [slice.contains(&x)]. *)
Definition contains {A} `{!EqDecision A} (x : A) (l : list A) : bool :=
  any (fun y => x ==? y) l.

(** Every required value is among [values]: the fold the record validators write. *)
Definition contains_all {A} `{!EqDecision A} (values required : list A) : bool :=
  all (fun value => contains value values) required.

Definition is_empty {A} (l : list A) : bool := match l with [] => true | _ => false end.

Definition is_some {A} (o : option A) : bool := match o with Some _ => true | None => false end.
Definition is_none {A} (o : option A) : bool := negb (is_some o).
Definition is_some_and {A} (o : option A) (f : A -> bool) : bool :=
  match o with Some x => f x | None => false end.
Definition is_none_or {A} (o : option A) (f : A -> bool) : bool :=
  match o with Some x => f x | None => true end.

Lemma any_false {A} (f : A -> bool) l : any f l = false <-> Forall (fun x => f x = false) l.
Proof.
  unfold any. induction l as [|x l IH]; simpl; [by split|].
  by rewrite orb_false_iff, Forall_cons, IH.
Qed.

Lemma any_true {A} (f : A -> bool) l : any f l = true <-> exists x, x ∈ l /\ f x = true.
Proof.
  unfold any. rewrite existsb_exists. setoid_rewrite list_elem_of_In. naive_solver.
Qed.

Lemma all_true {A} (f : A -> bool) l : all f l = true <-> Forall (fun x => f x = true) l.
Proof.
  unfold all. induction l as [|x l IH]; simpl; [by split|].
  by rewrite andb_true_iff, Forall_cons, IH.
Qed.

(** [iter.filter(f)]. *)
Lemma elem_of_List_filter {A} (f : A -> bool) l x : x ∈ List.filter f l <-> f x = true /\ x ∈ l.
Proof. rewrite !list_elem_of_In, filter_In. tauto. Qed.

Lemma contains_true {A} `{!EqDecision A} (x : A) l : contains x l = true <-> x ∈ l.
Proof.
  unfold contains. rewrite any_true. setoid_rewrite bool_decide_eq_true. naive_solver.
Qed.

Lemma contains_all_subset {A} `{!EqDecision A} (values required : list A) :
  contains_all values required = true <-> required ⊆ values.
Proof.
  unfold contains_all. rewrite all_true, Forall_forall. setoid_rewrite contains_true. done.
Qed.

Lemma contains_false {A} `{!EqDecision A} (x : A) l : contains x l = false <-> x ∉ l.
Proof. rewrite <-contains_true. destruct (contains x l); naive_solver. Qed.

Lemma is_empty_true {A} (l : list A) : is_empty l = true <-> l = [].
Proof. by destruct l. Qed.
Lemma is_empty_false {A} (l : list A) : is_empty l = false <-> l <> [].
Proof. by destruct l. Qed.
Lemma is_some_true {A} (o : option A) : is_some o = true <-> exists x, o = Some x.
Proof. destruct o; naive_solver. Qed.
Lemma is_some_false {A} (o : option A) : is_some o = false <-> o = None.
Proof. by destruct o. Qed.
Lemma is_none_true {A} (o : option A) : is_none o = true <-> o = None.
Proof. by destruct o. Qed.
Lemma is_none_false {A} (o : option A) : is_none o = false <-> exists x, o = Some x.
Proof. destruct o; naive_solver. Qed.

#[export] Hint Rewrite @any_false @all_true @contains_true @contains_false
  @is_empty_true @is_empty_false @is_some_true @is_some_false @is_none_true @is_none_false
  : guards.

(** ** Strictly increasing sequences *)

(** ** Permutations *)

Lemma filter_perm {A} (p : A -> bool) l l' : l ≡ₚ l' -> List.filter p l ≡ₚ List.filter p l'.
Proof.
  induction 1 as [|x l l' _ IH|x y l|l1 l2 l3 _ IH1 _ IH2]; simpl; [done|by destruct (p x); rewrite ?IH| |by rewrite IH1].
  destruct (p x), (p y); done || constructor.
Qed.
Lemma any_perm {A} (p : A -> bool) l l' : l ≡ₚ l' -> any p l = any p l'.
Proof. intros Hp. apply eq_true_iff_eq. rewrite !any_true. by setoid_rewrite Hp. Qed.

Section strict.
Context {A : Type} `{!Ord A}.
Implicit Types (x y : A) (l m : list A).

Definition sorted_lt l : Prop := StronglySorted lt_ord l.

Lemma windows2_lt_sorted l : windows2_all ltb_ord l = true <-> sorted_lt l.
Proof.
  unfold sorted_lt. induction l as [|x l IH]; simpl; [split; [constructor|done]|].
  destruct l as [|y l]; simpl in *.
  { split; [|done]. intros _. repeat constructor. }
  rewrite andb_true_iff, IH, ltb_ord_true. split.
  - intros [Hxy Hs]. constructor; [done|]. inversion Hs as [|? ? Hs' Hy]; subst.
    constructor; [done|]. eapply Forall_impl; [exact Hy|]. intros z Hz. eauto using lt_ord_trans.
  - inversion 1 as [|? ? Hs Hx]; subst. by inversion Hx; subst.
Qed.

(** [BTreeSet], as the strictly increasing list of its elements. *)
Fixpoint bset_insert x l : list A :=
  match l with
  | [] => [x]
  | y :: r => match cmp x y with
              | Lt => x :: l
              | Eq => l
              | Gt => y :: bset_insert x r
              end
  end.

Definition bset_of_list l : list A := foldr bset_insert [] l.

Lemma elem_of_bset_insert x y l : y ∈ bset_insert x l <-> y = x \/ y ∈ l.
Proof.
  induction l as [|z l IH]; simpl; [set_solver|].
  destruct (cmp x z) eqn:E; [apply cmp_eq in E as ->|..]; set_solver.
Qed.

Lemma bset_insert_sorted x l : sorted_lt l -> sorted_lt (bset_insert x l).
Proof.
  unfold sorted_lt. induction 1 as [|y l Hs IH Hy]; simpl; [repeat constructor|].
  destruct (cmp x y) eqn:E.
  - by constructor.
  - constructor; [by constructor|]. constructor; [done|].
    eapply Forall_impl; [exact Hy|]. intros z. by apply lt_ord_trans.
  - constructor; [done|]. apply Forall_forall. intros z.
    rewrite elem_of_bset_insert. intros [->|Hz].
    + by apply cmp_gt.
    + rewrite Forall_forall in Hy. eauto.
Qed.

Lemma bset_sorted l : sorted_lt (bset_of_list l).
Proof. induction l; simpl; [constructor|by apply bset_insert_sorted]. Qed.

Lemma elem_of_bset x l : x ∈ bset_of_list l <-> x ∈ l.
Proof.
  induction l as [|y l IH]; simpl; [done|]. rewrite elem_of_bset_insert, IH. set_solver.
Qed.

Lemma sorted_lt_NoDup l : sorted_lt l -> NoDup l.
Proof.
  induction 1 as [|x l Hs IH Hx]; constructor; [|done].
  rewrite Forall_forall in Hx. intros Hin. exact (lt_ord_irrefl x (Hx _ Hin)).
Qed.

Lemma sorted_lt_tail x l : sorted_lt (x :: l) -> sorted_lt l.
Proof. by inversion 1. Qed.

Lemma sorted_lt_head x y l : sorted_lt (x :: l) -> y ∈ l -> lt_ord x y.
Proof. inversion 1 as [|? ? _ Hf]; subst. rewrite Forall_forall in Hf. auto. Qed.

(** A strictly increasing list is determined by its elements. *)
Lemma sorted_lt_ext l m :
  sorted_lt l -> sorted_lt m -> (forall x, x ∈ l <-> x ∈ m) -> l = m.
Proof.
  revert m. induction l as [|x l IH]; intros [|y m] Hl Hm Heq.
  - done.
  - exfalso. apply (not_elem_of_nil y), Heq. left.
  - exfalso. apply (not_elem_of_nil x), Heq. left.
  - assert (x = y) as ->.
    { assert (x ∈ y :: m) as [-> |Hx]%elem_of_cons by (apply Heq; left); [done|].
      assert (y ∈ x :: l) as [-> |Hy]%elem_of_cons by (apply Heq; left); [done|].
      exfalso. apply (lt_ord_irrefl x).
      eapply lt_ord_trans; [exact (sorted_lt_head _ _ _ Hl Hy)|exact (sorted_lt_head _ _ _ Hm Hx)]. }
    f_equal. apply IH; [by eapply sorted_lt_tail..|]. intros z.
    pose proof (sorted_lt_NoDup _ Hl) as Nl. pose proof (sorted_lt_NoDup _ Hm) as Nm.
    apply NoDup_cons in Nl as [Nl _]. apply NoDup_cons in Nm as [Nm _].
    specialize (Heq z). set_solver.
Qed.

Lemma bset_of_sorted l : sorted_lt l -> bset_of_list l = l.
Proof. intros Hl. apply sorted_lt_ext; [apply bset_sorted|done|intros; apply elem_of_bset]. Qed.

(** [evertrace-domain::work::task::strictly_ordered_unique]. *)
Definition strictly_ordered_unique l : bool :=
  windows2_all ltb_ord l && (length (bset_of_list l) =? length l)%nat.

Lemma strictly_ordered_unique_true l : strictly_ordered_unique l = true <-> sorted_lt l.
Proof.
  unfold strictly_ordered_unique. rewrite andb_true_iff, windows2_lt_sorted, Nat.eqb_eq.
  split; [by intros []|]. intros Hl. by rewrite bset_of_sorted.
Qed.

Lemma bset_length_le l : (length (bset_of_list l) <= length l)%nat.
Proof.
  assert (Hi : forall x m, (length (bset_insert x m) <= S (length m))%nat).
  { intros x m. induction m as [|y m IH]; simpl; [lia|]. destruct (cmp x y); simpl; lia. }
  induction l as [|x l IH]; simpl; [lia|]. specialize (Hi x (bset_of_list l)). lia.
Qed.

(** [values.iter().collect::<BTreeSet<_>>().len() == values.len()]. *)
Definition all_unique l : bool := (length (bset_of_list l) =? length l)%nat.

Lemma bset_insert_fresh x l : x ∉ l -> length (bset_insert x l) = S (length l).
Proof.
  induction l as [|y l IH]; simpl; [done|]. rewrite not_elem_of_cons. intros [Hxy Hx].
  destruct (cmp x y) eqn:E; simpl; [by apply cmp_eq in E|done|by rewrite IH].
Qed.

Lemma all_unique_true l : all_unique l = true <-> NoDup l.
Proof.
  unfold all_unique. rewrite Nat.eqb_eq. split.
  - induction l as [|x l IH]; simpl; [constructor|]. intros Hlen.
    assert (Hx : x ∉ l).
    { intros Hin. apply (elem_of_bset x) in Hin. revert Hlen.
      pose proof (bset_length_le l). assert (length (bset_insert x (bset_of_list l))
        = length (bset_of_list l)); [|lia].
      f_equal. apply sorted_lt_ext; [apply bset_insert_sorted, bset_sorted|apply bset_sorted|].
      intros y. rewrite elem_of_bset_insert. naive_solver. }
    constructor; [done|]. apply IH. rewrite bset_insert_fresh in Hlen by by rewrite elem_of_bset.
    lia.
  - induction 1 as [|x l Hx _ IH]; simpl; [done|].
    rewrite bset_insert_fresh by by rewrite elem_of_bset. by rewrite IH.
Qed.
End strict.
#[export] Hint Rewrite @strictly_ordered_unique_true @all_unique_true : guards.

(** ** [sort] and [dedup] *)

(** A stable sort by a total preorder: [slice::sort_by].  Insertion sort; the
    element inserted goes in front of the elements equal to it. *)
Fixpoint insert_by {A} (le : A -> A -> bool) (x : A) (l : list A) : list A :=
  match l with
  | [] => [x]
  | y :: r => if le x y then x :: l else y :: insert_by le x r
  end.

Definition sort_by {A} (le : A -> A -> bool) (l : list A) : list A := foldr (insert_by le) [] l.

(** [vec.sort()]. *)
Definition vec_sort {A} `{!Ord A} (l : list A) : list A := sort_by leb_ord l.

(** [vec.dedup()]: drops consecutive repetitions. *)
Fixpoint dedup {A} `{!EqDecision A} (l : list A) : list A :=
  match l with
  | x :: ((y :: _) as r) => if x ==? y then dedup r else x :: dedup r
  | _ => l
  end.

(** [values.sort(); values.dedup();] *)
Definition sort_unique {A} `{!Ord A, !EqDecision A} (l : list A) : list A := dedup (vec_sort l).

Section sort_by.
Context {A : Type} (le : A -> A -> bool).
Hypothesis le_total : forall x y, le x y = true \/ le y x = true.
Hypothesis le_trans : forall x y z, le x y = true -> le y z = true -> le x z = true.

Definition sorted_le (l : list A) : Prop := StronglySorted (fun x y => le x y = true) l.

Lemma insert_by_perm x l : insert_by le x l ≡ₚ x :: l.
Proof.
  induction l as [|y l IH]; simpl; [done|]. destruct (le x y); [done|].
  rewrite IH. apply Permutation_swap.
Qed.

Lemma sort_by_perm l : sort_by le l ≡ₚ l.
Proof. induction l as [|x l IH]; simpl; [done|]. by rewrite insert_by_perm, IH. Qed.

Lemma insert_by_sorted x l : sorted_le l -> sorted_le (insert_by le x l).
Proof.
  unfold sorted_le. induction 1 as [|y l Hs IH Hy]; simpl; [repeat constructor|].
  destruct (le x y) eqn:E.
  - constructor; [by constructor|]. constructor; [done|].
    eapply Forall_impl; [exact Hy|]. simpl; eauto.
  - assert (le y x = true) by (destruct (le_total x y); congruence).
    constructor; [done|]. rewrite insert_by_perm. by constructor.
Qed.

Lemma sort_by_sorted l : sorted_le (sort_by le l).
Proof. induction l; simpl; [constructor|by apply insert_by_sorted]. Qed.

Lemma sort_by_id l : sorted_le l -> sort_by le l = l.
Proof.
  induction 1 as [|x l Hs IH Hx]; simpl; [done|]. rewrite IH.
  destruct l as [|y l]; simpl; [done|]. inversion Hx; subst. by rewrite H1.
Qed.
End sort_by.

(** After sorting by a key, a repeated key is adjacent to its repetition. *)
Lemma adjacent_NoDup {A B} `{!EqDecision B, !Ord B} (key : A -> B) (l : list A) :
  sorted_le (fun x y => leb_ord (key x) (key y)) l ->
  windows2_any (fun x y => bool_decide (key x = key y)) l = false <-> NoDup (key <$> l).
Proof.
  intros Hl. induction Hl as [|x l Hs IH Hx]; [split; [constructor|done]|]. destruct l as [|y l].
  { split; [intros _; apply NoDup_singleton|done]. }
  change (windows2_any ?f (x :: y :: l)) with (f x y || windows2_any f (y :: l)).
  rewrite orb_false_iff, IH, bool_decide_eq_false, (fmap_cons key x), (NoDup_cons (key x)).
  split; [|intros [Hn ?]; split; [intros E; apply Hn; rewrite E; apply list_elem_of_here|done]].
  intros [Hxy Hnd]. split; [|done]. intros (z & Ez & Hin)%list_elem_of_fmap.
  apply elem_of_cons in Hin as [->|Hin]; [done|]. apply Hxy, leb_ord_antisym.
  - by inversion Hx.
  - rewrite Ez. inversion Hs as [|? ? _ Hy]; subst. rewrite Forall_forall in Hy. by apply Hy.
Qed.

Section vec_sort.
Context {A : Type} `{!Ord A}.
Implicit Types (x y : A) (l m : list A).

Lemma vec_sort_perm l : vec_sort l ≡ₚ l.
Proof. apply sort_by_perm. Qed.

Lemma elem_of_vec_sort x l : x ∈ vec_sort l <-> x ∈ l.
Proof. by rewrite vec_sort_perm. Qed.

Lemma vec_sort_sorted l : sorted_le leb_ord (vec_sort l).
Proof. apply sort_by_sorted; [apply leb_ord_total|intros ???; apply leb_ord_trans]. Qed.

Lemma sorted_lt_le l : sorted_lt l -> sorted_le leb_ord l.
Proof.
  induction 1 as [|x l Hs IH Hx]; constructor; [done|].
  eapply Forall_impl; [exact Hx|]. intros y Hy. apply leb_ord_true. by left.
Qed.

Lemma vec_sort_id l : sorted_lt l -> vec_sort l = l.
Proof. intros. by apply sort_by_id, sorted_lt_le. Qed.

(** Sorting forgets the order of its input. *)
Lemma vec_sort_Permutation l m : l ≡ₚ m -> vec_sort l = vec_sort m.
Proof.
  intros Hlm. assert (H : vec_sort l ≡ₚ vec_sort m) by by rewrite !vec_sort_perm.
  pose proof (vec_sort_sorted l) as Hl. pose proof (vec_sort_sorted m) as Hm.
  revert H Hl Hm. generalize (vec_sort l) (vec_sort m). clear.
  intros l. induction l as [|x l IH]; intros m Hp Hl Hm.
  { symmetry. by apply Permutation_nil. }
  destruct m as [|y m]; [by apply symmetry, Permutation_nil in Hp|].
  inversion Hl as [|? ? Hl' Hx]; inversion Hm as [|? ? Hm' Hy]; subst.
  rewrite Forall_forall in Hx, Hy.
  assert (x = y) as ->.
  { assert (x ∈ y :: m) as [-> |Hxm]%elem_of_cons by (rewrite <-Hp; left); [done|].
    assert (y ∈ x :: l) as [-> |Hyl]%elem_of_cons by (rewrite Hp; left); [done|].
    apply leb_ord_antisym; eauto. }
  f_equal. apply IH; [by apply Permutation_cons_inv in Hp|done|done].
Qed.

Context `{!EqDecision A}.

Lemma elem_of_dedup x l : x ∈ dedup l <-> x ∈ l.
Proof.
  induction l as [|y l IH]; [done|]. destruct l as [|z l]; [done|].
  change (dedup (y :: z :: l)) with (if y ==? z then dedup (z :: l) else y :: dedup (z :: l)).
  case_bool_decide as E; [subst|]; set_solver.
Qed.

Lemma dedup_sorted l : sorted_le leb_ord l -> sorted_lt (dedup l).
Proof.
  induction l as [|y l IH]; [constructor|]. destruct l as [|z l]; [repeat constructor|].
  inversion 1 as [|? ? Hs Hy]; subst.
  change (dedup (y :: z :: l)) with (if y ==? z then dedup (z :: l) else y :: dedup (z :: l)).
  case_bool_decide as E; [by apply IH|]. constructor; [by apply IH|].
  apply Forall_forall. intros w. rewrite elem_of_dedup. intros Hw.
  assert (Hyz : lt_ord y z).
  { inversion Hy as [|? ? Hz]; subst. apply leb_ord_true in Hz as [|]; done. }
  apply elem_of_cons in Hw as [->|Hw]; [done|].
  inversion Hs as [|? ? _ Hz]; subst. rewrite Forall_forall in Hz.
  destruct (proj1 (leb_ord_true z w) (Hz _ Hw)) as [Hzw| <-]; [|done].
  by eapply lt_ord_trans.
Qed.

Lemma sort_unique_sorted l : sorted_lt (sort_unique l).
Proof. apply dedup_sorted, vec_sort_sorted. Qed.

Lemma elem_of_sort_unique x l : x ∈ sort_unique l <-> x ∈ l.
Proof. unfold sort_unique. by rewrite elem_of_dedup, elem_of_vec_sort. Qed.

(** [sort] then [dedup] on a vector is collection into a [BTreeSet]. *)
Lemma sort_unique_bset l : sort_unique l = bset_of_list l.
Proof.
  apply sorted_lt_ext; [apply sort_unique_sorted|apply bset_sorted|].
  intros x. by rewrite elem_of_sort_unique, elem_of_bset.
Qed.

Lemma sort_unique_ext l m : (forall x, x ∈ l <-> x ∈ m) -> sort_unique l = sort_unique m.
Proof.
  intros H. apply sorted_lt_ext; [apply sort_unique_sorted..|].
  intros x. by rewrite !elem_of_sort_unique.
Qed.

Lemma sort_unique_id l : sorted_lt l -> sort_unique l = l.
Proof. intros. by rewrite sort_unique_bset, bset_of_sorted. Qed.

Lemma sort_unique_nil l : sort_unique l = [] <-> l = [].
Proof.
  split; [|by intros ->]. intros H. destruct l as [|x l]; [done|].
  exfalso. apply (not_elem_of_nil x). rewrite <-H. apply elem_of_sort_unique. left.
Qed.
End vec_sort.

(** ** [slice::binary_search] *)

(** The loop of [binary_search_by]: [while size > 1 { let half = size / 2;
    let mid = base + half; base = if f(mid) == Greater { base } else { mid };
    size -= half; }].  Each round removes at least one element from [size], so
    the length of the slice is enough fuel. *)
Fixpoint bs_loop {A} `{!Ord A} (fuel : nat) (l : list A) (x : A) (base size : nat) : nat :=
  match fuel with
  | O => base
  | S fuel =>
      if (size <=? 1)%nat then base
      else
        let half := Nat.div size 2 in
        let mid := (base + half)%nat in
        match l !! mid with
        | None => base
        | Some y =>
            let base := match cmp y x with Gt => base | _ => mid end in
            bs_loop fuel l x base (size - half)
        end
  end.

(** [values.binary_search(&x).is_ok()]. *)
Definition binary_search_ok {A} `{!Ord A} (l : list A) (x : A) : bool :=
  match l !! bs_loop (length l) l x 0 (length l) with
  | Some y => match cmp y x with Eq => true | _ => false end
  | None => false
  end.

Section binary_search.
Context {A : Type} `{!Ord A}.
Implicit Types (x y : A) (l : list A).

Lemma sorted_lt_lookup l i j x y :
  sorted_lt l -> l !! i = Some x -> l !! j = Some y -> (i < j)%nat -> lt_ord x y.
Proof.
  intros Hs. revert i j. induction Hs as [|z l Hs IH Hz]; intros i j Hi Hj Hij; [done|].
  destruct j as [|j]; [lia|]. destruct i as [|i]; simplify_eq/=.
  - rewrite Forall_forall in Hz. apply Hz. by eapply list_elem_of_lookup_2.
  - apply (IH i j); [done|done|lia].
Qed.

Lemma bs_loop_finds l x i fuel base size :
  sorted_lt l -> l !! i = Some x -> (base <= i < base + size)%nat ->
  (base + size <= length l)%nat -> (size <= fuel)%nat -> bs_loop fuel l x base size = i.
Proof.
  intros Hs Hi. revert base size. induction fuel as [|fuel IH]; intros base size Hb Hl Hf; cbn [bs_loop].
  { lia. }
  destruct (Nat.leb_spec size 1) as [|Hsz]; [lia|].
  pose proof (Nat.div_le_lower_bound size 2 1 ltac:(lia) ltac:(lia)) as Hh1.
  pose proof (Nat.Div0.mul_div_le size 2) as Hh2.
  set (half := (size / 2)%nat) in *.
  destruct (lookup_lt_is_Some_2 l (base + half)) as [y Hy]; [lia|]. rewrite Hy.
  destruct (cmp y x) eqn:E.
  - apply cmp_eq in E as ->. assert (i = base + half)%nat as ->; [|apply IH; lia].
    by eapply NoDup_lookup; [apply sorted_lt_NoDup|..].
  - apply IH; [|lia|lia]. destruct (decide (i < base + half)%nat) as [Hlt|]; [|lia].
    exfalso. apply (lt_ord_irrefl x). eapply lt_ord_trans; [|exact E].
    by apply (sorted_lt_lookup l i (base + half)).
  - apply IH; [|lia|lia]. apply cmp_gt in E.
    destruct (decide (base + half <= i)%nat) as [Hle|]; [|lia]. exfalso.
    destruct (decide (i = base + half)%nat) as [->|].
    { assert (y = x) as -> by congruence. by apply (lt_ord_irrefl x). }
    apply (lt_ord_irrefl x). eapply lt_ord_trans; [exact E|].
    apply (sorted_lt_lookup l (base + half) i); [done|done|done|lia].
Qed.

Lemma binary_search_ok_true l x : sorted_lt l -> binary_search_ok l x = true <-> x ∈ l.
Proof.
  intros Hs. unfold binary_search_ok. split.
  - destruct (l !! _) as [y|] eqn:E; [|done]. destruct (cmp y x) eqn:Hc; try done.
    intros _. apply cmp_eq in Hc as ->. by eapply list_elem_of_lookup_2.
  - intros [i Hi]%list_elem_of_lookup.
    rewrite (bs_loop_finds l x i); [|done|done|..].
    + by rewrite Hi, cmp_refl.
    + apply lookup_lt_Some in Hi. lia.
    + lia.
    + lia.
Qed.

(** [old.iter().all(|item| new.binary_search(item).is_ok())]. *)
Definition retains (old new : list A) : bool := all (binary_search_ok new) old.

Lemma retains_true old new : sorted_lt new -> retains old new = true <-> old ⊆ new.
Proof.
  intros Hs. unfold retains. rewrite all_true, Forall_forall.
  setoid_rewrite binary_search_ok_true; [|done]. done.
Qed.
End binary_search.
