(* ===== verification/OrderedMap.v ===== *)
(** * Ordered maps

    Executable model of [BTreeMap], as the list of its entries by increasing key,
    with the entry API the code uses ([entry(..).or_default().push(..)]) and the
    facts about look-ups, keys and grouping that the component files share. *)

From S2P Require Import Prelude Order Collections.

Section ordered_map.
Context {K : Type} `{!Ord K}.
Implicit Types (k : K).

Fixpoint bmap_get {V} k (m : list (K * V)) : option V :=
  match m with
  | [] => None
  | (k', v) :: r => match cmp k k' with Eq => Some v | _ => bmap_get k r end
  end.

(** The entry API: [f] makes the new value from the old one, if there is one. *)
Fixpoint bmap_alter {V} (f : option V -> V) k (m : list (K * V)) : list (K * V) :=
  match m with
  | [] => [(k, f None)]
  | (k', v) :: r =>
      match cmp k k' with
      | Lt => (k, f None) :: m
      | Eq => (k', f (Some v)) :: r
      | Gt => (k', v) :: bmap_alter f k r
      end
  end.

(** [m.insert(k, v)] *)
Definition bmap_insert {V} k (v : V) (m : list (K * V)) : list (K * V) := bmap_alter (fun _ => v) k m.

(** [m.entry(k).or_default().push(x)] *)
Definition bmap_push {A} k (x : A) (m : list (K * list A)) : list (K * list A) :=
  bmap_alter (fun members => default [] members ++ [x]) k m.

(** [iter.map(|x| (key(x), x)).collect::<BTreeMap<_, _>>()]: the last of equal keys wins. *)
Definition bmap_by {V} (key : V -> K) (l : list V) : list (K * V) :=
  foldl (fun m x => bmap_insert (key x) x m) [] l.

Definition bmap_sorted {V} (m : list (K * V)) : Prop := sorted_lt m.*1.

Lemma bmap_get_alter_eq {V} (f : option V -> V) k m :
  bmap_sorted m -> bmap_get k (bmap_alter f k m) = Some (f (bmap_get k m)).
Proof.
  induction m as [|[k' v] m IH]; simpl; intros Hs; [by rewrite cmp_refl|].
  destruct (cmp k k') eqn:E; simpl.
  - by rewrite E.
  - rewrite cmp_refl. do 2 f_equal. apply sorted_lt_tail in Hs as Hs'.
    clear IH. induction m as [|[k'' w] m IH]; simpl; [done|].
    assert (Hlt : lt_ord k k'').
    { eapply lt_ord_trans; [exact E|]. eapply sorted_lt_head; [exact Hs|]. simpl. left. }
    unfold lt_ord in Hlt. rewrite Hlt. apply IH.
    + inversion Hs as [|? ? Hs1 Hs2]; subst. simpl in *. constructor.
      * by inversion Hs1.
      * by inversion Hs2.
    + by eapply sorted_lt_tail.
  - rewrite E. apply IH. by eapply sorted_lt_tail.
Qed.

Lemma bmap_get_alter_ne {V} (f : option V -> V) k k' m :
  k <> k' -> bmap_get k' (bmap_alter f k m) = bmap_get k' m.
Proof.
  intros Hne. assert (Hc : cmp k' k <> Eq) by (intros H%cmp_eq; by subst).
  induction m as [|[k'' v] m IH]; simpl.
  - destruct (cmp k' k); done.
  - destruct (cmp k k'') eqn:E; simpl.
    + apply cmp_eq in E as <-. destruct (cmp k' k); done.
    + destruct (cmp k' k); done.
    + by rewrite IH.
Qed.

Lemma elem_of_bmap_alter_keys {V} (f : option V -> V) k m x :
  x ∈ (bmap_alter f k m).*1 <-> x = k \/ x ∈ m.*1.
Proof.
  induction m as [|[k' v] m IH]; simpl; [by rewrite list_elem_of_singleton, elem_of_nil; naive_solver|].
  destruct (cmp k k') eqn:E; simpl; rewrite !elem_of_cons; rewrite ?IH; [apply cmp_eq in E as <-|..]; tauto.
Qed.

Lemma bmap_alter_sorted {V} (f : option V -> V) k m : bmap_sorted m -> bmap_sorted (bmap_alter f k m).
Proof.
  unfold bmap_sorted, sorted_lt. induction m as [|[k' v] m IH]; simpl; intros Hs; [repeat constructor|].
  inversion Hs as [|? ? Hs' Hk]; subst. destruct (cmp k k') eqn:E; simpl.
  - by constructor.
  - constructor; [done|]. constructor; [done|]. eapply Forall_impl; [exact Hk|].
    intros z. by apply lt_ord_trans.
  - constructor; [by apply IH|]. apply Forall_forall. intros z Hz%elem_of_bmap_alter_keys.
    destruct Hz as [-> |Hz]; [by apply cmp_gt|]. rewrite Forall_forall in Hk. auto.
Qed.

(** In an ordered map the entries are what the look-ups find. *)
Lemma elem_of_bmap {V} (m : list (K * V)) k v :
  bmap_sorted m -> (k, v) ∈ m <-> bmap_get k m = Some v.
Proof.
  induction m as [|[k' w] m IH]; simpl; intros Hs; [set_solver|].
  pose proof (sorted_lt_tail _ _ Hs) as Hs'. rewrite elem_of_cons, (IH Hs').
  destruct (cmp k k') eqn:E.
  - apply cmp_eq in E as ->. split.
    + intros [[= ->]|H]; [done|]. exfalso. apply (IH Hs') in H.
      apply (lt_ord_irrefl k'), (sorted_lt_head _ _ _ Hs).
      by apply (list_elem_of_fmap_2 fst) in H.
    + intros [= ->]. by left.
  - split; [intros [[= -> ->]|]; [|done]|by right]. by rewrite cmp_refl in E.
  - split; [intros [[= -> ->]|]; [|done]|by right]. by rewrite cmp_refl in E.
Qed.

Lemma bmap_get_None {V} (m : list (K * V)) k : bmap_get k m = None <-> k ∉ m.*1.
Proof.
  induction m as [|[k' w] m IH]; simpl; [by split; [intros _; apply not_elem_of_nil|]|].
  rewrite not_elem_of_cons. destruct (cmp k k') eqn:E.
  - apply cmp_eq in E as ->. split; [done|]. by intros [].
  - rewrite IH. split; [|by intros []]. split; [|done]. intros ->. by rewrite cmp_refl in E.
  - rewrite IH. split; [|by intros []]. split; [|done]. intros ->. by rewrite cmp_refl in E.
Qed.

Lemma elem_of_bmap_keys {V} (m : list (K * V)) k : k ∈ m.*1 <-> exists v, bmap_get k m = Some v.
Proof.
  induction m as [|[k' w] m IH]; simpl; [rewrite elem_of_nil; naive_solver|].
  rewrite elem_of_cons, IH. destruct (cmp k k') eqn:E; [apply cmp_eq in E as ->; naive_solver|..];
    (split; [intros [->|?]; [by rewrite cmp_refl in E|done]|by right]).
Qed.

(** An ordered map is determined by its look-ups. *)
Lemma bmap_ext {V} (m n : list (K * V)) :
  bmap_sorted m -> bmap_sorted n -> (forall k, bmap_get k m = bmap_get k n) -> m = n.
Proof.
  intros Hm Hn Heq.
  assert (Hk : m.*1 = n.*1).
  { apply sorted_lt_ext; [done..|]. intros k. by rewrite !elem_of_bmap_keys, Heq. }
  revert n Hm Hn Heq Hk. induction m as [|[k v] m IH]; intros [|[k' w] n] Hm Hn Heq Hk; try done.
  apply cons_inv in Hk as [Hk1 Hk2]. simpl in Hk1, Hk2. subst k'.
  pose proof (Heq k) as Hv. simpl in Hv. rewrite cmp_refl in Hv. injection Hv as <-. f_equal.
  apply IH; [by eapply sorted_lt_tail..| |done]. intros k'. pose proof (Heq k') as H. simpl in H.
  destruct (cmp k' k) eqn:E; [|done..]. apply cmp_eq in E as ->.
  pose proof (sorted_lt_NoDup _ Hm) as Nm. pose proof (sorted_lt_NoDup _ Hn) as Nn.
  apply NoDup_cons in Nm as [Nm _]. apply NoDup_cons in Nn as [Nn _].
  by rewrite (proj2 (bmap_get_None m k)), (proj2 (bmap_get_None n k)).
Qed.
End ordered_map.

(** ** Collecting *)

Section collect.
Context {K V : Type} `{!Ord K} (key : V -> K).
Implicit Types (l : list V) (m : list (K * V)).

Let step m x := bmap_insert (key x) x m.

Lemma foldl_insert_sorted l m : bmap_sorted m -> bmap_sorted (foldl step m l).
Proof. revert m. induction l as [|x l IH]; intros m Hm; [done|]. by apply IH, bmap_alter_sorted. Qed.

Lemma bmap_by_sorted l : bmap_sorted (bmap_by key l).
Proof. apply foldl_insert_sorted. constructor. Qed.

Lemma elem_of_foldl_insert k l m : k ∈ (foldl step m l).*1 <-> k ∈ key <$> l \/ k ∈ m.*1.
Proof.
  revert m. induction l as [|x l IH]; intros m; simpl; [by rewrite elem_of_nil; naive_solver|].
  rewrite IH, elem_of_cons. unfold step, bmap_insert. rewrite elem_of_bmap_alter_keys. tauto.
Qed.

Lemma bmap_by_keys l : (bmap_by key l).*1 = bset_of_list (key <$> l).
Proof.
  apply sorted_lt_ext; [apply bmap_by_sorted|apply bset_sorted|]. intros k.
  change (bmap_by key l) with (foldl step [] l). rewrite elem_of_foldl_insert, elem_of_bset. simpl. rewrite elem_of_nil. tauto.
Qed.

(** [map.len() == values.len()]: the keys are distinct. *)
Lemma bmap_by_unique l : (length (bmap_by key l) =? length l)%nat = true <-> NoDup (key <$> l).
Proof.
  rewrite <-all_unique_true. unfold all_unique. by rewrite <-bmap_by_keys, !length_fmap.
Qed.

Lemma get_foldl_insert l m k :
  bmap_sorted m -> NoDup (key <$> l) -> k ∉ key <$> l -> bmap_get k (foldl step m l) = bmap_get k m.
Proof.
  revert m. induction l as [|x l IH]; intros m Hm Hl Hk; [done|]. simpl in *.
  apply NoDup_cons in Hl as [_ Hl]. apply not_elem_of_cons in Hk as [Hkx Hk].
  rewrite IH; [|by apply bmap_alter_sorted|done|done]. by apply bmap_get_alter_ne.
Qed.

(** With distinct keys the map holds the values themselves. *)
Lemma bmap_by_get l k x : NoDup (key <$> l) -> bmap_get k (bmap_by key l) = Some x <-> x ∈ l /\ key x = k.
Proof.
  intros Hl. change (bmap_by key l) with (foldl step [] l). assert (Hm : bmap_sorted (@nil (K * V))) by constructor.
  assert (Hd : forall k', k' ∈ (@nil (K * V)).*1 -> k' ∉ key <$> l) by (intros k'; simpl; by rewrite elem_of_nil).
  assert (Hn : bmap_get k (@nil (K * V)) = Some x <-> False) by done.
  revert Hm Hd Hn. generalize (@nil (K * V)) as m. intros m Hm Hd Hn.
  assert (H : bmap_get k (foldl step m l) = Some x <-> (x ∈ l /\ key x = k) \/ bmap_get k m = Some x); [|tauto].
  clear Hn. revert m Hm Hd. induction l as [|y l IH]; intros m Hm Hd; simpl; [by rewrite elem_of_nil; tauto|].
  simpl in Hl. apply NoDup_cons in Hl as [Hy Hl]. rewrite IH; [|done|by apply bmap_alter_sorted|].
  - rewrite elem_of_cons. unfold step, bmap_insert. destruct (ord_dec (key y) k) as [<-|Hne].
    + rewrite bmap_get_alter_eq by done. split.
      * intros [|[= ->]]; tauto.
      * intros [[[-> |?] ?]|Hg]; [by right|by left|]. exfalso.
        destruct (bmap_get_None m (key y)) as [_ HN]. rewrite HN in Hg; [done|].
        intros Hin. by apply (Hd (key y)); [|left].
    + rewrite bmap_get_alter_ne by done. split; [tauto|]. intros [[[-> |?] ?]|?]; tauto.
  - intros k' Hk'. unfold step, bmap_insert in Hk'. rewrite elem_of_bmap_alter_keys in Hk'.
    destruct Hk' as [-> |Hk']; [done|]. intros Hin. apply (Hd k' Hk'). simpl. by right.
Qed.

Lemma bmap_by_None l k : bmap_get k (bmap_by key l) = None <-> k ∉ key <$> l.
Proof. by rewrite bmap_get_None, bmap_by_keys, elem_of_bset. Qed.
End collect.

(** ** Grouping *)

Section group.
Context {K A : Type} `{!Ord K}.
Implicit Types (m : list (K * list A)).

Lemma bmap_push_perm k x m : concat (bmap_push k x m).*2 ≡ₚ x :: concat m.*2.
Proof.
  unfold bmap_push. induction m as [|[k' members] m IH]; simpl; [done|].
  destruct (cmp k k'); simpl; [|done|].
  - rewrite <-app_assoc. symmetry. apply Permutation_middle.
  - rewrite IH. symmetry. apply Permutation_middle.
Qed.

Context (key : A -> option K).
Let step m x := match key x with Some k => bmap_push k x m | None => m end.

Definition group_by (l : list A) : list (K * list A) := foldl step [] l.

Definition members_of (k : K) (l : list A) : list A :=
  List.filter (fun x => match key x with Some k' => match cmp k' k with Eq => true | _ => false end | None => false end) l.

Lemma members_of_perm k l l' : l ≡ₚ l' -> members_of k l ≡ₚ members_of k l'.
Proof. apply filter_perm. Qed.

Lemma elem_of_members k x l : x ∈ members_of k l <-> x ∈ l /\ key x = Some k.
Proof.
  unfold members_of. rewrite !list_elem_of_In, filter_In. destruct (key x) as [k'|]; [|naive_solver].
  destruct (cmp k' k) eqn:E; [apply cmp_eq in E as ->; naive_solver|..];
    (split; [by intros []|intros [? [= ->]]; by rewrite cmp_refl in E]).
Qed.

Lemma step_sorted m x : bmap_sorted m -> bmap_sorted (step m x).
Proof. intros. unfold step, bmap_push. destruct (key x); [by apply bmap_alter_sorted|done]. Qed.

Lemma group_by_sorted l : bmap_sorted (group_by l).
Proof.
  unfold group_by. assert (Hm : bmap_sorted (@nil (K * list A))) by constructor. revert Hm.
  generalize (@nil (K * list A)) as m. induction l as [|x l IH]; intros m Hm; [done|].
  by apply IH, step_sorted.
Qed.

Lemma foldl_step_get l m k :
  bmap_sorted m ->
  bmap_get k (foldl step m l)
  = if is_empty (members_of k l) then bmap_get k m else Some (default [] (bmap_get k m) ++ members_of k l).
Proof.
  revert m. induction l as [|x l IH]; intros m Hm; [done|]. simpl foldl. rewrite IH by by apply step_sorted.
  unfold step. simpl. destruct (key x) as [k'|]; [|done]. destruct (ord_dec k' k) as [->|Hne].
  - rewrite cmp_refl. cbn [is_empty]. unfold bmap_push. rewrite bmap_get_alter_eq by done. cbn [default].
    destruct (members_of k l); cbn [is_empty from_option]; [done|]. unfold default, id.
    by rewrite <-app_assoc.
  - unfold bmap_push. rewrite bmap_get_alter_ne by done.
    destruct (cmp k' k) eqn:E; [by apply cmp_eq in E|done|done].
Qed.

Lemma group_by_get l k members :
  bmap_get k (group_by l) = Some members <-> members = members_of k l /\ members <> [].
Proof.
  unfold group_by. rewrite foldl_step_get by constructor. cbn.
  destruct (members_of k l) as [|x r]; cbn; naive_solver.
Qed.

Lemma elem_of_group_by l k members :
  (k, members) ∈ group_by l <-> members = members_of k l /\ members <> [].
Proof. rewrite elem_of_bmap by apply group_by_sorted. apply group_by_get. Qed.

Lemma group_by_perm l :
  concat (group_by l).*2 ≡ₚ List.filter (fun x => is_some (key x)) l.
Proof.
  assert (H : forall m, concat (foldl step m l).*2 ≡ₚ List.filter (fun x => is_some (key x)) l ++ concat m.*2).
  { induction l as [|x l IH]; intros m; [done|]. simpl foldl. rewrite IH. unfold step. simpl.
    destruct (key x); simpl; [|done]. rewrite bmap_push_perm. symmetry. apply Permutation_middle. }
  unfold group_by. rewrite H. simpl. by rewrite app_nil_r.
Qed.
End group.

Section values.
Context {K V : Type} `{!Ord K} (key : V -> K).

Lemma bmap_insert_perm k (x : V) m : bmap_get k m = None -> (bmap_insert k x m).*2 ≡ₚ x :: m.*2.
Proof.
  unfold bmap_insert. induction m as [|[k' y] m IH]; simpl; [done|].
  destruct (cmp k k'); simpl; [done|done|]. intros H. rewrite IH by done. apply Permutation_swap.
Qed.

(** With distinct keys no value is lost. *)
Lemma bmap_by_perm l : NoDup (key <$> l) -> (bmap_by key l).*2 ≡ₚ l.
Proof.
  intros Hl. induction l as [|x l IH] using rev_ind; [done|].
  rewrite fmap_app in Hl. apply NoDup_app in Hl as (Hl & Hd & _).
  unfold bmap_by. rewrite foldl_app. simpl. fold (bmap_by key l). rewrite bmap_insert_perm.
  - rewrite IH by done. apply Permutation_cons_append.
  - apply bmap_by_None. intros Hin. apply (Hd _ Hin). by left.
Qed.
End values.

Section more_values.
Context {K : Type} `{!Ord K}.

Lemma bmap_insert_elem {V} k (x : V) m e : e ∈ bmap_insert k x m -> e = (k, x) \/ e ∈ m.
Proof.
  unfold bmap_insert. induction m as [|[k' y] m IH]; simpl.
  - intros ->%list_elem_of_singleton. by left.
  - destruct (cmp k k') eqn:E; rewrite !elem_of_cons; [apply cmp_eq in E as ->|..]; tauto.
Qed.

Lemma bmap_get_elem {V} k (x : V) m : bmap_get k m = Some x -> (k, x) ∈ m.
Proof.
  induction m as [|[k' y] m IH]; simpl; [done|].
  destruct (cmp k k') eqn:E; [|right; by apply IH..]. apply cmp_eq in E as ->. intros [= ->]. left.
Qed.

(** A collected value is one of the values, under its key. *)
Lemma bmap_by_elem {V} (key : V -> K) l k x :
  bmap_get k (bmap_by key l) = Some x -> x ∈ l /\ key x = k.
Proof.
  intros H. apply bmap_get_elem in H. revert H. unfold bmap_by.
  cut (forall r m, r ⊆ l -> (forall e, e ∈ m -> e.2 ∈ l /\ key e.2 = e.1) ->
    forall e, e ∈ foldl (fun m x => bmap_insert (key x) x m) m r -> e.2 ∈ l /\ key e.2 = e.1).
  { intros Hc H. apply (Hc l [] ltac:(done)) in H; [done|]. intros e He. by apply elem_of_nil in He. }
  induction r as [|y r IH]; intros m Hs Hm; [done|]. simpl. apply IH; [set_solver|].
  intros e [-> |He]%bmap_insert_elem; [|by apply Hm]. split; [apply Hs; left|done].
Qed.

(** A map that sends every key to the same value. *)
Lemma bmap_const {V} (v : V) (l : list (K * V)) :
  Forall (fun e => e.2 = v) l ->
  foldl (fun m e => bmap_insert e.1 e.2 m) [] l = (fun k => (k, v)) <$> bset_of_list l.*1.
Proof.
  intros Hl.
  assert (H : forall m, bmap_sorted m -> Forall (fun e : K * V => e.2 = v) m ->
    bmap_sorted (foldl (fun m e => bmap_insert e.1 e.2 m) m l) /\
    Forall (fun e => e.2 = v) (foldl (fun m e => bmap_insert e.1 e.2 m) m l) /\
    (forall k, k ∈ (foldl (fun m e => bmap_insert e.1 e.2 m) m l).*1 <-> k ∈ l.*1 \/ k ∈ m.*1)).
  { induction Hl as [|[k w] l Hw Hl IH]; intros m Hm Hv; [split_and!; [done..|set_solver]|].
    simpl in *. destruct (IH (bmap_insert k w m)) as (H1 & H2 & H3).
    - by apply bmap_alter_sorted.
    - apply Forall_forall. intros e [-> |He]%bmap_insert_elem; [done|].
      rewrite Forall_forall in Hv. by apply Hv.
    - split_and!; [done..|]. intros k'. rewrite H3. unfold bmap_insert.
      rewrite elem_of_bmap_alter_keys, elem_of_cons. tauto. }
  destruct (H []) as (H1 & H2 & H3); [constructor..|].
  set (r := foldl _ [] l) in *. clearbody r.
  assert (r.*1 = bset_of_list l.*1) as <-.
  { apply sorted_lt_ext; [done|apply bset_sorted|]. intros k. rewrite H3, elem_of_bset. simpl.
    rewrite elem_of_nil. tauto. }
  clear -H2. induction H2 as [|[k w] r Hw _ IH]; [done|]. simpl in *. subst. by f_equal.
Qed.
End more_values.
