(* ===== verification/Text.v ===== *)
(** * Bytes, big-endian integers and UTF-8 text

    [u8] is [Byte.byte]; a Rust [String]/[&str] is a [string] whose characters
    are the bytes of its UTF-8 encoding, so [len()] counts bytes and the order
    is the order of the bytes, as in Rust. *)

From S2P Require Import Prelude Order Collections.
From Stdlib Require Export Strings.Byte.

Abbreviation byte := Init.Byte.byte.

Definition byte_N (b : byte) : N := Byte.to_N b.
Definition N_byte (n : N) : byte :=
  match Byte.of_N (n mod 256) with Some b => b | None => x00 end.

Lemma N_byte_N n : byte_N (N_byte n) = (n mod 256)%N.
Proof.
  unfold byte_N, N_byte. destruct (Byte.of_N (n mod 256)) as [b|] eqn:E.
  - by apply Byte.to_of_N in E.
  - apply Byte.of_N_None_iff in E. pose proof (N.mod_lt n 256). lia.
Qed.

Lemma byte_N_lt b : (byte_N b < 256)%N.
Proof. pose proof (Byte.to_N_bounded b). unfold byte_N. lia. Qed.

Lemma byte_N_byte b : N_byte (byte_N b) = b.
Proof.
  unfold N_byte. rewrite N.mod_small by apply byte_N_lt.
  unfold byte_N. by rewrite Byte.of_to_N.
Qed.

Lemma byte_N_inj b c : byte_N b = byte_N c -> b = c.
Proof. intros H. by rewrite <-(byte_N_byte b), H, byte_N_byte. Qed.

#[export] Instance byte_eq_dec : EqDecision byte := Byte.byte_eq_dec.
#[export] Instance Ord_byte : Ord byte := Ord_by byte_N byte_N_inj.

(** ** Big-endian integers: [to_be_bytes], [from_be_bytes] *)

Fixpoint to_be_bytes (width : nat) (n : N) : list byte :=
  match width with
  | O => []
  | S w => to_be_bytes w (n / 256) ++ [N_byte n]
  end.

Definition from_be_bytes (l : list byte) : N := foldl (fun acc b => acc * 256 + byte_N b)%N 0%N l.

Lemma length_to_be_bytes w n : length (to_be_bytes w n) = w.
Proof. revert n. induction w; intros n; simpl; [done|]. rewrite length_app, IHw. simpl. lia. Qed.

Lemma from_be_bytes_snoc l b : from_be_bytes (l ++ [b]) = (from_be_bytes l * 256 + byte_N b)%N.
Proof. unfold from_be_bytes. by rewrite foldl_app. Qed.

Lemma from_to_be_bytes w n : (n < 256 ^ N.of_nat w)%N -> from_be_bytes (to_be_bytes w n) = n.
Proof.
  revert n. induction w as [|w IH]; intros n Hn; simpl.
  { simpl in Hn. unfold from_be_bytes; simpl. lia. }
  rewrite from_be_bytes_snoc, IH, N_byte_N.
  - pose proof (N.div_mod n 256). lia.
  - rewrite Nat2N.inj_succ, N.pow_succ_r' in Hn. apply N.Div0.div_lt_upper_bound. lia.
Qed.

Lemma from_be_bytes_lt l : (from_be_bytes l < 256 ^ N.of_nat (length l))%N.
Proof.
  induction l as [|b l IH] using rev_ind; simpl.
  { unfold from_be_bytes; simpl. lia. }
  rewrite from_be_bytes_snoc, length_app; simpl.
  replace (length l + 1)%nat with (S (length l)) by lia.
  rewrite Nat2N.inj_succ, N.pow_succ_r'. pose proof (byte_N_lt b). nia.
Qed.

Lemma to_from_be_bytes w l : length l = w -> to_be_bytes w (from_be_bytes l) = l.
Proof.
  revert l. induction w as [|w IH]; intros l Hl.
  { by destruct l. }
  destruct l as [|b l _] using rev_ind; [done|].
  rewrite length_app in Hl; simpl in Hl. simpl. rewrite from_be_bytes_snoc. f_equal.
  - rewrite N.add_comm, N.div_add, N.div_small, N.add_0_l by (lia || apply byte_N_lt).
    apply IH. lia.
  - f_equal. apply byte_N_inj. rewrite N_byte_N.
    rewrite N.add_comm, N.Div0.mod_add. apply N.mod_small, byte_N_lt.
Qed.

Lemma to_be_bytes_inj w n m :
  (n < 256 ^ N.of_nat w)%N -> (m < 256 ^ N.of_nat w)%N ->
  to_be_bytes w n = to_be_bytes w m -> n = m.
Proof. intros Hn Hm H. by rewrite <-(from_to_be_bytes w n), H, from_to_be_bytes. Qed.

(** ** UTF-8 *)

Definition is_cont (b : N) : bool := (128 <=? b)%N && (b <? 192)%N.
Definition is_surrogate (c : N) : bool := (0xD800 <=? c)%N && (c <=? 0xDFFF)%N.

(** The decoder of RFC 3629, which is what [str::from_utf8] accepts: no
    overlong forms, no surrogates, nothing above U+10FFFF. *)
Fixpoint utf8_chars (l : list N) : option (list N) :=
  match l with
  | [] => Some []
  | b0 :: r0 =>
      if (b0 <? 128)%N then cons b0 <$> utf8_chars r0
      else match r0 with
      | [] => None
      | b1 :: r1 =>
          if (0xC2 <=? b0)%N && (b0 <=? 0xDF)%N then
            if is_cont b1 then cons ((b0 - 0xC0) * 64 + (b1 - 128))%N <$> utf8_chars r1 else None
          else match r1 with
          | [] => None
          | b2 :: r2 =>
              if (0xE0 <=? b0)%N && (b0 <=? 0xEF)%N then
                let c := ((b0 - 0xE0) * 4096 + (b1 - 128) * 64 + (b2 - 128))%N in
                if is_cont b1 && is_cont b2 && (0x800 <=? c)%N && negb (is_surrogate c)
                then cons c <$> utf8_chars r2 else None
              else match r2 with
              | [] => None
              | b3 :: r3 =>
                  let c := ((b0 - 0xF0) * 262144 + (b1 - 128) * 4096
                            + (b2 - 128) * 64 + (b3 - 128))%N in
                  if (0xF0 <=? b0)%N && (b0 <=? 0xF4)%N && is_cont b1 && is_cont b2 && is_cont b3
                     && (0x10000 <=? c)%N && (c <=? 0x10FFFF)%N
                  then cons c <$> utf8_chars r3 else None
              end
          end
      end
  end.

Definition utf8_valid (l : list byte) : bool := is_some (utf8_chars (byte_N <$> l)).

(** ** Strings *)

Definition as_bytes (s : string) : list byte := String.list_byte_of_string s.
Definition of_bytes (l : list byte) : string := String.string_of_list_byte l.

Lemma of_as_bytes s : of_bytes (as_bytes s) = s.
Proof. apply String.string_of_list_byte_of_string. Qed.
Lemma as_of_bytes l : as_bytes (of_bytes l) = l.
Proof. apply String.list_byte_of_string_of_list_byte. Qed.
Lemma as_bytes_inj s t : as_bytes s = as_bytes t -> s = t.
Proof. intros H. by rewrite <-(of_as_bytes s), H, of_as_bytes. Qed.

#[export] Instance Ord_string : Ord string := Ord_by as_bytes as_bytes_inj.

(** A Rust string is valid UTF-8: the invariant of the type. *)
Definition str_ok (s : string) : Prop := utf8_valid (as_bytes s) = true.

(** [str::from_utf8]. *)
Definition from_utf8 (l : list byte) : option string :=
  if utf8_valid l then Some (of_bytes l) else None.

Definition chars (s : string) : list N :=
  match utf8_chars (byte_N <$> as_bytes s) with Some cs => cs | None => [] end.

Definition str_len (s : string) : N := N.of_nat (length (as_bytes s)).
Definition str_is_empty (s : string) : bool := is_empty (as_bytes s).

(** [char::is_whitespace]: the Unicode property [White_Space]. *)
Definition is_whitespace (c : N) : bool :=
  ((9 <=? c) && (c <=? 13) || (c =? 32) || (c =? 0x85) || (c =? 0xA0) || (c =? 0x1680)
   || (0x2000 <=? c) && (c <=? 0x200A) || (c =? 0x2028) || (c =? 0x2029) || (c =? 0x202F)
   || (c =? 0x205F) || (c =? 0x3000))%N.

(** [char::is_control]: the general category Cc. *)
Definition is_control (c : N) : bool := ((c <=? 0x1F) || (0x7F <=? c) && (c <=? 0x9F))%N.

Fixpoint drop_while {A} (f : A -> bool) (l : list A) : list A :=
  match l with
  | x :: r => if f x then drop_while f r else l
  | [] => []
  end.

(** [str::trim], on the characters of the string. *)
Definition trim (s : string) : list N :=
  reverse (drop_while is_whitespace (reverse (drop_while is_whitespace (chars s)))).

(** [!value.trim().is_empty() && value.len() <= max]: the test most reference
    fields of the domain objects must pass. *)
Definition bounded_text (max : N) (s : string) : bool :=
  negb (is_empty (trim s)) && (str_len s <=? max)%N.

Definition is_ascii_digit (b : byte) : bool := ((48 <=? byte_N b) && (byte_N b <=? 57))%N.
Definition is_hex_lower (b : byte) : bool := ((97 <=? byte_N b) && (byte_N b <=? 102))%N.
Definition is_ascii_alphanumeric (b : byte) : bool :=
  (is_ascii_digit b || ((65 <=? byte_N b) && (byte_N b <=? 90))
   || ((97 <=? byte_N b) && (byte_N b <=? 122)))%N.
Definition is_ascii_control (b : byte) : bool := ((byte_N b <=? 31) || (byte_N b =? 127))%N.

(** [slice.starts_with(prefix)]. *)
Fixpoint starts_with {A} `{!EqDecision A} (l prefix : list A) {struct prefix} : bool :=
  match prefix, l with
  | [], _ => true
  | _ :: _, [] => false
  | x :: p, y :: r => (x ==? y) && starts_with r p
  end.

Lemma starts_with_true {A} `{!EqDecision A} (l p : list A) :
  starts_with l p = true <-> exists k, l = p ++ k.
Proof.
  revert l. induction p as [|x p IH]; intros l; simpl; [split; [intros _; by exists l|done]|].
  destruct l as [|y l]; [split; [done|by intros [k ?]]|].
  rewrite andb_true_iff, bool_decide_eq_true, IH. naive_solver.
Qed.
#[export] Hint Rewrite @starts_with_true : guards.

(** [str::strip_prefix]. *)
Definition strip_prefix (value prefix : string) : option string :=
  if starts_with (as_bytes value) (as_bytes prefix)
  then Some (of_bytes (drop (length (as_bytes prefix)) (as_bytes value))) else None.

Lemma as_bytes_append s t : as_bytes (s +:+ t)%string = as_bytes s ++ as_bytes t.
Proof.
  unfold as_bytes, String.list_byte_of_string. induction s as [|c s IH]; [done|].
  change (String c s +:+ t)%string with (String c (s +:+ t)). simpl. by rewrite IH.
Qed.

Lemma from_utf8_as_bytes s : str_ok s -> from_utf8 (as_bytes s) = Some s.
Proof. intros H. unfold from_utf8. by rewrite H, of_as_bytes. Qed.

Lemma from_utf8_Some l s : from_utf8 l = Some s <-> utf8_valid l = true /\ as_bytes s = l.
Proof.
  unfold from_utf8. destruct (utf8_valid l) eqn:E.
  - split; [|by intros [_ <-]; rewrite of_as_bytes]. intros [= <-]. by rewrite as_of_bytes.
  - naive_solver.
Qed.

Lemma str_is_empty_false s : str_is_empty s = false <-> s <> ""%string.
Proof. by destruct s. Qed.

(** Pure ASCII bytes are valid UTF-8, one character each. *)
Lemma utf8_ascii l : Forall (fun b => (b < 128)%N) l -> utf8_chars l = Some l.
Proof.
  induction 1 as [|b l Hb _ IH]; simpl; [done|]. rewrite IH.
  destruct (N.ltb_spec b 128); [done|lia].
Qed.

Lemma ascii_valid l : Forall (fun b => (byte_N b < 128)%N) l -> utf8_valid l = true.
Proof. intros H. unfold utf8_valid. rewrite utf8_ascii; [done|]. by apply Forall_fmap. Qed.

Arguments to_be_bytes : simpl never.
Arguments from_be_bytes : simpl never.
