(* ===== verification/Canonical.v ===== *)
(** * Canonical value encoding (crates/evertrace-domain/src/canonical.rs)

    The tagged, length-prefixed byte encoding under every digest of the
    system (strategy fingerprints, observation identities).  A digest identifies
    a value only if the encoding does: [encode] is proved to identify the schema
    tag, the schema version and the value up to the order of map entries, and to
    forget that order. *)

From S2P Require Import Prelude Order Collections Text.

Inductive CanonicalValue : Type :=
| Null
| Bool (boolean : bool)
| Integer (integer : Z)
| CString (text : string)
| Bytes (bytes : list byte)
| Sequence (items : list CanonicalValue)
| Map (entries : list (string * CanonicalValue)).

Inductive CanonicalError : Type := EmptySchemaTag | DuplicateMapKey | LengthOverflow.
#[export] Instance CanonicalError_eq_dec : EqDecision CanonicalError.
Proof. solve_decision. Defined.

Definition FORMAT_MAGIC : list byte := as_bytes "ETC1".

Definition push_len (length : N) : result CanonicalError (list byte) :=
  if (length <=? U64_MAX)%N then Ok (to_be_bytes 8 length) else Err LengthOverflow.

(** [i128::to_be_bytes]: two's complement in 16 bytes. *)
Definition i128_to_be_bytes (z : Z) : list byte := to_be_bytes 16 (Z.to_N (z mod 2 ^ 128)).

Definition len {A} (l : list A) : N := N.of_nat (length l).

(** Concatenates the encoded items of a sequence, stopping at the first error. *)
Fixpoint concat_ok {E} (l : list (result E (list byte))) : result E (list byte) :=
  match l with
  | [] => Ok []
  | r :: l => let? b := r in let? bs := concat_ok l in Ok (b ++ bs)
  end.

Definition key_le {A} (left right : string * A) : bool := leb_ord left.1 right.1.
Definition same_key {A} (left right : string * A) : bool := left.1 ==? right.1.

(** One entry of a map: the length-prefixed key, then the value. *)
Definition encode_entry (entry : string * result CanonicalError (list byte))
    : result CanonicalError (list byte) :=
  let? n := push_len (str_len entry.1) in
  let? v := entry.2 in
  Ok (n ++ as_bytes entry.1 ++ v).

Fixpoint encode_value (value : CanonicalValue) : result CanonicalError (list byte) :=
  match value with
  | Null => Ok ["N"%byte]
  | Bool boolean => Ok ["B"%byte; N_byte (if boolean then 1 else 0)]
  | Integer integer => Ok ("I"%byte :: i128_to_be_bytes integer)
  | CString text =>
      let? n := push_len (str_len text) in Ok ("S"%byte :: n ++ as_bytes text)
  | Bytes bytes =>
      let? n := push_len (len bytes) in Ok ("Y"%byte :: n ++ bytes)
  | Sequence items =>
      let? n := push_len (len items) in
      let? body := concat_ok (List.map encode_value items) in
      Ok ("Q"%byte :: n ++ body)
  | Map entries =>
      let? n := push_len (len entries) in
      let sorted := sort_by key_le (List.map (fun e => (e.1, encode_value e.2)) entries) in
      do? guard (windows2_any same_key sorted) DuplicateMapKey in
      let? body := concat_ok (List.map encode_entry sorted) in
      Ok ("M"%byte :: n ++ body)
  end.

Definition encode (schema_tag : string) (schema_version : N) (value : CanonicalValue)
    : result CanonicalError (list byte) :=
  do? guard (str_is_empty schema_tag) EmptySchemaTag in
  let? n := push_len (str_len schema_tag) in
  let? body := encode_value value in
  Ok (FORMAT_MAGIC ++ n ++ as_bytes schema_tag ++ to_be_bytes 4 schema_version ++ body).

(** [sha256] and [hmac_sha256] over the encoding; the digest functions are the
    code of the [sha2] and [hmac] crates. *)
Section digests.
Context (digest : list byte -> list byte) (mac : list byte -> list byte -> list byte).

Definition sha256 (schema_tag : string) (schema_version : N) (value : CanonicalValue) :=
  let? encoded := encode schema_tag schema_version value in
  Ok (E := CanonicalError) (digest encoded).

Definition hmac_sha256 (key : list byte) (schema_tag : string) (schema_version : N)
    (value : CanonicalValue) :=
  let? encoded := encode schema_tag schema_version value in
  Ok (E := CanonicalError) (mac key encoded).
End digests.

(** ** Specification vocabulary *)

(** Induction that reaches the values inside sequences and maps. *)
Section induction.
Context (P : CanonicalValue -> Prop)
  (Hnull : P Null) (Hbool : forall b, P (Bool b)) (Hint : forall z, P (Integer z))
  (Hstr : forall s, P (CString s)) (Hbytes : forall b, P (Bytes b))
  (Hseq : forall l, Forall P l -> P (Sequence l))
  (Hmap : forall l, Forall (fun e => P e.2) l -> P (Map l)).

Fixpoint value_ind (v : CanonicalValue) : P v :=
  match v with
  | Null => Hnull | Bool b => Hbool b | Integer z => Hint z
  | CString s => Hstr s | Bytes b => Hbytes b
  | Sequence l => Hseq l
      ((fix go l : Forall P l := match l with
        | [] => Forall_nil_2 P
        | x :: r => Forall_cons_2 P x r (value_ind x) (go r) end) l)
  | Map l => Hmap l
      ((fix go l : Forall (fun e => P e.2) l := match l with
        | [] => Forall_nil_2 _
        | x :: r => Forall_cons_2 _ x r (value_ind x.2) (go r) end) l)
  end.
End induction.

(** Equality up to the order of map entries. *)
Inductive same_value : CanonicalValue -> CanonicalValue -> Prop :=
| same_null : same_value Null Null
| same_bool b : same_value (Bool b) (Bool b)
| same_integer z : same_value (Integer z) (Integer z)
| same_string s : same_value (CString s) (CString s)
| same_bytes b : same_value (Bytes b) (Bytes b)
| same_sequence l m : Forall2 same_value l m -> same_value (Sequence l) (Sequence m)
| same_map l l' m m' :
    l ≡ₚ l' -> Forall2 (fun e f => e.1 = f.1 /\ same_value e.2 f.2) l' m' -> m' ≡ₚ m ->
    same_value (Map l) (Map m).

(** Integers within [i128]: the invariant of the Rust type. *)
Inductive value_ok : CanonicalValue -> Prop :=
| ok_null : value_ok Null
| ok_bool b : value_ok (Bool b)
| ok_integer z : (- 2 ^ 127 <= z < 2 ^ 127)%Z -> value_ok (Integer z)
| ok_string s : value_ok (CString s)
| ok_bytes b : value_ok (Bytes b)
| ok_sequence l : Forall value_ok l -> value_ok (Sequence l)
| ok_map l : Forall (fun e => value_ok e.2) l -> value_ok (Map l).

(** Every length is a [u64]: true of every value in memory. *)
Inductive value_fits : CanonicalValue -> Prop :=
| fits_null : value_fits Null
| fits_bool b : value_fits (Bool b)
| fits_integer z : value_fits (Integer z)
| fits_string s : (str_len s <= U64_MAX)%N -> value_fits (CString s)
| fits_bytes b : (len b <= U64_MAX)%N -> value_fits (Bytes b)
| fits_sequence l :
    (len l <= U64_MAX)%N -> Forall value_fits l -> value_fits (Sequence l)
| fits_map l :
    (len l <= U64_MAX)%N -> Forall (fun e => (str_len e.1 <= U64_MAX)%N /\ value_fits e.2) l ->
    value_fits (Map l).

(** No map of the value, at any depth, repeats a key. *)
Inductive unique_keys : CanonicalValue -> Prop :=
| unique_null : unique_keys Null
| unique_bool b : unique_keys (Bool b)
| unique_integer z : unique_keys (Integer z)
| unique_string s : unique_keys (CString s)
| unique_bytes b : unique_keys (Bytes b)
| unique_sequence l : Forall unique_keys l -> unique_keys (Sequence l)
| unique_map l :
    NoDup l.*1 -> Forall (fun e => unique_keys e.2) l -> unique_keys (Map l).

(** ** Lemmas *)

#[local] Opaque to_be_bytes N_byte.

Lemma push_len_ok n b : push_len n = Ok b <-> (n <= U64_MAX)%N /\ b = to_be_bytes 8 n.
Proof. unfold push_len. destruct (N.leb_spec n U64_MAX); naive_solver lia. Qed.

Lemma be8_prefix n m r s :
  (n <= U64_MAX)%N -> (m <= U64_MAX)%N ->
  to_be_bytes 8 n ++ r = to_be_bytes 8 m ++ s -> n = m /\ r = s.
Proof.
  intros Hn Hm H. apply app_inj_1 in H as [H ->]; [|by rewrite !length_to_be_bytes].
  apply to_be_bytes_inj in H; [done|..]; unfold U64_MAX in *; simpl; lia.
Qed.

Lemma blob_prefix (a b r s : list byte) :
  (len a <= U64_MAX)%N -> (len b <= U64_MAX)%N ->
  to_be_bytes 8 (len a) ++ a ++ r = to_be_bytes 8 (len b) ++ b ++ s -> a = b /\ r = s.
Proof.
  intros Ha Hb H. apply be8_prefix in H as [Hl H]; [|done..].
  apply app_inj_1 in H; [done|]. unfold len in Hl. lia.
Qed.

Lemma i128_inj z1 z2 :
  (- 2 ^ 127 <= z1 < 2 ^ 127)%Z -> (- 2 ^ 127 <= z2 < 2 ^ 127)%Z ->
  i128_to_be_bytes z1 = i128_to_be_bytes z2 -> z1 = z2.
Proof.
  intros H1 H2 H. unfold i128_to_be_bytes in H.
  assert (Hb : forall z, (Z.to_N (z mod 2 ^ 128) < 256 ^ N.of_nat 16)%N).
  { intros z. pose proof (Z.mod_pos_bound z (2 ^ 128) ltac:(lia)). simpl. lia. }
  apply to_be_bytes_inj in H; [|apply Hb..].
  apply Z2N.inj in H; [|apply Z.mod_pos_bound; lia..].
  rewrite (Z.div_mod z1 (2 ^ 128)), (Z.div_mod z2 (2 ^ 128)) by lia. rewrite H.
  assert (Hd : forall z, (- 2 ^ 127 <= z < 2 ^ 127)%Z ->
    (z / 2 ^ 128 = 0 /\ z mod 2 ^ 128 < 2 ^ 127 \/
     z / 2 ^ 128 = -1 /\ 2 ^ 127 <= z mod 2 ^ 128)%Z).
  { intros z Hz. pose proof (Z.div_mod z (2 ^ 128) ltac:(lia)) as E.
    pose proof (Z.mod_pos_bound z (2 ^ 128) ltac:(lia)) as Hm.
    assert (z / 2 ^ 128 = 0 \/ z / 2 ^ 128 = -1)%Z as [D|D] by nia; rewrite D in *; lia. }
  destruct (Hd z1 H1) as [[D1 ?]|[D1 ?]], (Hd z2 H2) as [[D2 ?]|[D2 ?]]; rewrite D1, D2; lia.
Qed.

Lemma length_i128 z : length (i128_to_be_bytes z) = 16%nat.
Proof. apply length_to_be_bytes. Qed.
#[local] Opaque i128_to_be_bytes.

Section sort_map.
Context {A B : Type} (f : A -> B) (le : A -> A -> bool) (le' : B -> B -> bool).
Hypothesis Hle : forall x y, le' (f x) (f y) = le x y.

Lemma sort_by_map l : sort_by le' (List.map f l) = List.map f (sort_by le l).
Proof.
  assert (Hi : forall x m, insert_by le' (f x) (List.map f m) = List.map f (insert_by le x m)).
  { intros x m. induction m as [|y m IH]; simpl; [done|]. rewrite Hle.
    destruct (le x y); simpl; [done|by rewrite IH]. }
  induction l as [|x l IH]; simpl; [done|]. unfold sort_by in *. by rewrite IH, Hi.
Qed.

Lemma windows2_any_map g h l :
  (forall x y, g (f x) (f y) = h x y) -> windows2_any g (List.map f l) = windows2_any h l.
Proof.
  intros Hg. induction l as [|x l IH]; [done|]. destruct l as [|y l]; [done|].
  simpl in *. by rewrite Hg, IH.
Qed.
End sort_map.

(** The entries of a map in key order: what the encoder walks. *)
Definition by_key {A} (l : list (string * A)) : list (string * A) := sort_by key_le l.

Lemma by_key_perm {A} (l : list (string * A)) : by_key l ≡ₚ l.
Proof. apply sort_by_perm. Qed.

Lemma by_key_keys {A} (l : list (string * A)) : List.map fst (by_key l) = vec_sort (List.map fst l).
Proof. symmetry. by apply sort_by_map. Qed.

(** After sorting, a repeated key is adjacent to its repetition. *)
Lemma same_key_NoDup {A} (l : list (string * A)) :
  windows2_any same_key (by_key l) = false <-> NoDup l.*1.
Proof.
  rewrite <-(windows2_any_map fst (fun x y => x ==? y)) by done.
  rewrite by_key_keys, (adjacent_NoDup id) by apply vec_sort_sorted. by rewrite list_fmap_id, vec_sort_perm.
Qed.

Definition encode_entry_value (e : string * CanonicalValue) := encode_entry (e.1, encode_value e.2).

Lemma encode_map_eq l :
  encode_value (Map l) =
    let? n := push_len (len l) in
    do? guard (windows2_any same_key (by_key l)) DuplicateMapKey in
    let? body := concat_ok (List.map encode_entry_value (by_key l)) in
    Ok ("M"%byte :: n ++ body).
Proof.
  simpl. destruct (push_len (len l)) as [n|e]; simpl; [|done].
  rewrite (sort_by_map _ key_le) by done.
  rewrite (windows2_any_map _ _ same_key) by done.
  by rewrite List.map_map.
Qed.

(** The shape of a successful encoding. *)
Lemma encode_value_ok v b :
  encode_value v = Ok b ->
  match v with
  | Null => b = ["N"%byte]
  | Bool x => b = ["B"%byte; N_byte (if x then 1 else 0)]
  | Integer z => b = "I"%byte :: i128_to_be_bytes z
  | CString s => (str_len s <= U64_MAX)%N /\ b = "S"%byte :: to_be_bytes 8 (str_len s) ++ as_bytes s
  | Bytes l => (len l <= U64_MAX)%N /\ b = "Y"%byte :: to_be_bytes 8 (len l) ++ l
  | Sequence l => (len l <= U64_MAX)%N /\ exists body,
      concat_ok (List.map encode_value l) = Ok body /\ b = "Q"%byte :: to_be_bytes 8 (len l) ++ body
  | Map l => (len l <= U64_MAX)%N /\ NoDup l.*1 /\ exists body,
      concat_ok (List.map encode_entry_value (by_key l)) = Ok body /\
      b = "M"%byte :: to_be_bytes 8 (len l) ++ body
  end.
Proof.
  destruct v; [..|rewrite encode_map_eq]; cbn [encode_value]; rewrite ?rbind_ok; try naive_solver.
  - intros (n & [? ->]%push_len_ok & [= <-]). done.
  - intros (n & [? ->]%push_len_ok & [= <-]). done.
  - intros (n & [? ->]%push_len_ok & (body & Hb & [= <-])%rbind_ok). eauto.
  - intros (n & [? ->]%push_len_ok & ([] & Hg%guard_ok & (body & Hb & [= <-])%rbind_ok)%rbind_ok).
    apply same_key_NoDup in Hg. eauto.
Qed.

Section concat_prefix.
Context {A : Type} (enc : A -> result CanonicalError (list byte)) (Q : A -> Prop)
  (R : A -> A -> Prop).

(** [x] is recognised at the front of a byte string. *)
Definition parses (x : A) : Prop := forall y b c r s,
  Q y -> enc x = Ok b -> enc y = Ok c -> b ++ r = c ++ s -> R x y /\ r = s.

Lemma concat_ok_cons x l b :
  concat_ok (List.map enc (x :: l)) = Ok b ->
  exists b1 b2, enc x = Ok b1 /\ concat_ok (List.map enc l) = Ok b2 /\ b = b1 ++ b2.
Proof.
  cbn [List.map concat_ok]. intros (b1 & H1 & (b2 & H2 & [= <-])%rbind_ok)%rbind_ok. eauto.
Qed.

Lemma concat_prefix l : Forall parses l -> forall m b c r s,
  Forall Q m -> length l = length m ->
  concat_ok (List.map enc l) = Ok b -> concat_ok (List.map enc m) = Ok c ->
  b ++ r = c ++ s -> Forall2 R l m /\ r = s.
Proof.
  induction 1 as [|x l Hx _ IH]; intros [|y m] b c r s HQ Hlen Hb Hc Heq; try done.
  { simpl in Hb, Hc. simplify_eq/=. by split; [constructor|]. }
  apply concat_ok_cons in Hb as (b1 & b2 & Hb1 & Hb2 & ->).
  apply concat_ok_cons in Hc as (c1 & c2 & Hc1 & Hc2 & ->).
  rewrite <-!app_assoc in Heq. inversion HQ; subst.
  edestruct Hx as [Hxy Heq']; [done|exact Hb1|exact Hc1|exact Heq|].
  edestruct IH as [Hlm ->]; [done| |exact Hb2|exact Hc2|exact Heq'|]; [simpl in Hlen; lia|].
  split; [by constructor|done].
Qed.
End concat_prefix.

Lemma len_eq {A B} (l : list A) (m : list B) : len l = len m -> length l = length m.
Proof. unfold len. lia. Qed.

Lemma entry_parses e :
  parses encode_value value_ok same_value e.2 ->
  parses encode_entry_value (fun f => value_ok f.2) (fun e f => e.1 = f.1 /\ same_value e.2 f.2) e.
Proof.
  intros He f b c r s Hf Hb Hc Heq. unfold encode_entry_value, encode_entry in Hb, Hc.
  simpl in Hb, Hc.
  apply rbind_ok in Hb as (n & [Hn ->]%push_len_ok & (v & Hv & [= <-])%rbind_ok).
  apply rbind_ok in Hc as (m & [Hm ->]%push_len_ok & (w & Hw & [= <-])%rbind_ok).
  rewrite <-!app_assoc in Heq. apply blob_prefix in Heq as [Hk Heq]; [|done..].
  destruct (He f.2 v w r s) as [? ->]; [done..|]. split; [|done]. split; [|done].
  by apply as_bytes_inj.
Qed.

Definition value_tag (v : CanonicalValue) : byte :=
  match v with
  | Null => "N" | Bool _ => "B" | Integer _ => "I" | CString _ => "S"
  | Bytes _ => "Y" | Sequence _ => "Q" | Map _ => "M"
  end%byte.

Lemma encode_value_tag v w b c r s :
  encode_value v = Ok b -> encode_value w = Ok c -> b ++ r = c ++ s -> value_tag v = value_tag w.
Proof.
  assert (Ht : forall v b, encode_value v = Ok b -> exists t, b = value_tag v :: t).
  { clear. intros v b Hb. apply encode_value_ok in Hb.
    destruct v; destruct_and?; repeat match goal with
      | H : exists body, _ |- _ => destruct H as (? & ? & ->) end; subst; simpl; eauto. }
  intros [t ->]%Ht [u ->]%Ht H. cbn [app] in H. by apply cons_inv in H as [? _].
Qed.

Lemma value_parses v : value_ok v -> parses encode_value value_ok same_value v.
Proof.
  induction v as [|x|z|t|l|l IH|l IH] using value_ind; intros Hv w b c r s Hw Hb Hc Heq;
    pose proof (encode_value_tag _ _ _ _ _ _ Hb Hc Heq) as Htag;
    apply encode_value_ok in Hb; apply encode_value_ok in Hc;
    destruct w as [|y|z'|t'|m|m|m]; try discriminate Htag; clear Htag;
    destruct_and?; repeat match goal with
    | H : exists body, _ |- _ => destruct H as (? & ? & ->) end; subst; cbn [app] in Heq;
    apply cons_inv in Heq as [_ Heq].
  - split; [constructor|done].
  - apply cons_inv in Heq as [Heq ->]. apply (f_equal byte_N) in Heq. rewrite !N_byte_N in Heq.
    destruct x, y; try done; (split; [constructor|done]).
  - apply app_inj_1 in Heq as [Hz ->]; [|by rewrite !length_i128].
    inversion Hv; inversion Hw; subst. apply i128_inj in Hz as ->; [|done..]. split; [constructor|done].
  - rewrite <-!app_assoc in Heq. apply blob_prefix in Heq as [->%as_bytes_inj ->]; [|done..].
    split; [constructor|done].
  - rewrite <-!app_assoc in Heq. apply blob_prefix in Heq as [-> ->]; [|done..].
    split; [constructor|done].
  - rewrite <-!app_assoc in Heq. apply be8_prefix in Heq as [Hl Heq]; [|done..].
    inversion Hv as [| | | | |? Hvs|]; inversion Hw; subst.
    eapply concat_prefix in Heq as [? ->]; [split; [by constructor|done]| |done|by apply len_eq|done|done].
    rewrite Forall_forall in *. eauto.
  - rewrite <-!app_assoc in Heq. apply be8_prefix in Heq as [Hl Heq]; [|done..].
    inversion Hv as [| | | | | |? Hvs]; inversion Hw as [| | | | | |? Hws]; subst.
    eapply concat_prefix in Heq as [? ->]; [split; [|done]| | | |done|done].
    + apply (same_map l (by_key l) m (by_key m)); [by rewrite by_key_perm|done|apply by_key_perm].
    + rewrite by_key_perm, Forall_forall in *. eauto using entry_parses.
    + by rewrite by_key_perm.
    + rewrite !by_key_perm. by apply len_eq.
Qed.

(** Values equal up to map order have the same encoding, errors included. *)
Lemma concat_ok_ext {A} (f g : A -> result CanonicalError (list byte)) l m :
  Forall2 (fun x y => f x = g y) l m -> concat_ok (List.map f l) = concat_ok (List.map g m).
Proof. induction 1 as [|x y l m Hxy _ IH]; simpl; [done|]. by rewrite Hxy, IH. Qed.

Lemma by_key_Permutation {A} (l m : list (string * A)) :
  NoDup l.*1 -> l ≡ₚ m -> by_key l = by_key m.
Proof.
  intros Hnd Hlm.
  assert (Hs : forall k : list (string * A), sorted_le key_le (by_key k)).
  { intros k. apply sort_by_sorted; [intros ??; apply leb_ord_total|intros ???; apply leb_ord_trans]. }
  assert (H : by_key l ≡ₚ by_key m) by by rewrite !by_key_perm.
  assert (Hn : NoDup (by_key l).*1) by by rewrite by_key_perm.
  pose proof (Hs l) as Hl. pose proof (Hs m) as Hm.
  revert H Hn Hl Hm. generalize (by_key l) (by_key m). clear. intros l.
  induction l as [|x l IH]; intros m Hp Hn Hl Hm.
  { symmetry. by apply Permutation_nil. }
  destruct m as [|y m]; [by apply symmetry, Permutation_nil in Hp|].
  inversion Hl as [|? ? Hl' Hx]; inversion Hm as [|? ? Hm' Hy]; subst.
  rewrite Forall_forall in Hx, Hy. apply NoDup_cons in Hn as [Hxn Hn].
  assert (x = y) as ->.
  { assert (x ∈ y :: m) as [-> |Hxm]%elem_of_cons by (rewrite <-Hp; left); [done|].
    assert (y ∈ x :: l) as [-> |Hyl]%elem_of_cons by (rewrite Hp; left); [done|].
    exfalso. apply Hxn. rewrite (leb_ord_antisym x.1 y.1); [|by apply Hx|by apply Hy].
    by apply list_elem_of_fmap_2. }
  f_equal. apply IH; [by apply Permutation_cons_inv in Hp|done..].
Qed.

Lemma by_key_Forall2 (l m : list (string * CanonicalValue)) :
  Forall2 (fun e f => e.1 = f.1 /\ encode_value e.2 = encode_value f.2) l m ->
  Forall2 (fun e f => encode_entry_value e = encode_entry_value f) (by_key l) (by_key m).
Proof.
  intros H.
  assert (Hk : Forall2 (fun e f => e.1 = f.1 /\ encode_value e.2 = encode_value f.2)
    (by_key l) (by_key m)).
  { unfold by_key, sort_by. induction H as [|e f l m Hef _ IH]; simpl; [constructor|].
    revert IH. generalize (foldr (insert_by key_le) [] l) (foldr (insert_by key_le) [] m).
    clear l m. induction 1 as [|x y l m Hxy Hlm IH]; simpl; [by constructor; [|constructor]|].
    unfold key_le. destruct Hef as [He ?], Hxy as [Hx ?]. rewrite He, Hx.
    destruct (leb_ord f.1 y.1); constructor; auto. }
  eapply Forall2_impl; [exact Hk|]. intros e f [H1 H2].
  unfold encode_entry_value. by rewrite H1, H2.
Qed.

Lemma encode_value_same v w : same_value v w -> encode_value v = encode_value w.
Proof.
  revert w. induction v as [|x|z|t|l|l IH|l IH] using value_ind; intros w Hs;
    inversion Hs as [| | | | |? m Hf|? l' m m' Hl Hf Hm]; subst; try done.
  - cbn [encode_value]. unfold len. rewrite (Forall2_length _ _ _ Hf).
    erewrite concat_ok_ext; [done|].
    clear Hs. induction Hf; inversion IH; subst; constructor; auto.
  - rewrite !encode_map_eq. unfold len.
    assert (Hlen : length l = length m) by by rewrite Hl, (Forall2_length _ _ _ Hf), Hm.
    assert (Hkeys : l'.*1 = m'.*1).
    { clear -Hf. induction Hf as [|? ? ? ? [? _] _ IH]; [done|]. by rewrite !fmap_cons, H, IH. }
    assert (Hf' : Forall2 (fun e f => e.1 = f.1 /\ encode_value e.2 = encode_value f.2) l' m').
    { assert (IH' : Forall (fun e => forall w, same_value e.2 w -> encode_value e.2 = encode_value w) l')
        by by rewrite <-Hl.
      clear -Hf IH'. induction Hf as [|? ? ? ? [? ?] _ IH]; inversion IH'; subst; constructor; auto. }
    assert (Hdup : windows2_any same_key (by_key l) = windows2_any same_key (by_key m)).
    { apply eq_bool_prop_intro. rewrite !Is_true_true, <-!not_false_iff_true, !same_key_NoDup.
      by rewrite Hl, Hkeys, Hm. }
    rewrite Hlen, Hdup. destruct (push_len _); simpl; [|done].
    destruct (windows2_any same_key (by_key m)) eqn:E; simpl; [done|].
    assert (Hnd : NoDup l.*1) by (apply same_key_NoDup; congruence).
    rewrite (by_key_Permutation l l'), <-(by_key_Permutation m' m); try done.
    + by erewrite concat_ok_ext by by apply by_key_Forall2.
    + rewrite <-Hkeys. by rewrite <-Hl.
Qed.

(** On values that fit in memory a repeated map key is the only failure. *)
Lemma concat_ok_cases {A} (f : A -> result CanonicalError (list byte)) (P : A -> Prop) l :
  Forall (fun x => P x /\ (exists b, f x = Ok b) \/ ~ P x /\ f x = Err DuplicateMapKey) l ->
  Forall P l /\ (exists b, concat_ok (List.map f l) = Ok b) \/
  ~ Forall P l /\ concat_ok (List.map f l) = Err DuplicateMapKey.
Proof.
  induction 1 as [|x l Hx _ IH]; simpl; [left; eauto|].
  destruct Hx as [[Hx [b ->]]|[Hx ->]]; simpl.
  - destruct IH as [[Hl [c ->]]|[Hl ->]]; simpl; [left; eauto|right].
    split; [|done]. by rewrite Forall_cons; intros [_ ?].
  - right. split; [|done]. by rewrite Forall_cons; intros [? _].
Qed.

Lemma push_len_fits n : (n <= U64_MAX)%N -> push_len n = Ok (to_be_bytes 8 n).
Proof. intros H. by apply push_len_ok. Qed.

Lemma encode_value_cases v :
  value_fits v ->
  unique_keys v /\ (exists b, encode_value v = Ok b) \/
  ~ unique_keys v /\ encode_value v = Err DuplicateMapKey.
Proof.
  induction v as [|x|z|t|l|l IH|l IH] using value_ind; intros Hf;
    try (left; split; [constructor|]; cbn; inversion Hf; subst; rewrite ?push_len_fits by done; by eauto).
  - inversion Hf as [| | | | |? Hl Hfs|]; subst. cbn [encode_value].
    rewrite push_len_fits by done. cbn [rbind].
    destruct (concat_ok_cases encode_value unique_keys l) as [[Hu [b ->]]|[Hu ->]]; simpl.
    + rewrite Forall_forall in *. eauto.
    + left. split; [by constructor|eauto].
    + right. split; [|done]. by inversion 1.
  - inversion Hf as [| | | | | |? Hl Hfs]; subst. rewrite encode_map_eq, push_len_fits by done.
    cbn [rbind]. destruct (windows2_any same_key (by_key l)) eqn:Ed; simpl.
    { right. split; [|done]. inversion 1; subst.
      assert (windows2_any same_key (by_key l) = false) by by apply same_key_NoDup. congruence. }
    apply same_key_NoDup in Ed.
    destruct (concat_ok_cases encode_entry_value (fun e => unique_keys e.2) (by_key l))
      as [[Hu [b ->]]|[Hu ->]]; simpl.
    + rewrite by_key_perm, Forall_forall in *. intros e He. destruct (Hfs _ He) as [Hk Hv].
      unfold encode_entry_value, encode_entry; simpl. rewrite push_len_fits by done. simpl.
      destruct (IH _ He Hv) as [[? [b ->]]|[? ->]]; simpl; eauto.
    + left. rewrite by_key_perm in Hu. split; [by constructor|eauto].
    + right. rewrite by_key_perm in Hu. split; [|done]. by inversion 1.
Qed.

Lemma encode_unique_ok t n v :
  t <> ""%string -> (str_len t <= U64_MAX)%N -> value_fits v -> unique_keys v ->
  exists b, encode t n v = Ok b.
Proof.
  intros Hne Ht Hv Hu. unfold encode. rewrite push_len_fits by done.
  apply str_is_empty_false in Hne. rewrite Hne. simpl.
  destruct (encode_value_cases v Hv) as [[? [b ->]]|[? _]]; simpl; [eauto|done].
Qed.

(** The entry of a key is determined when no key repeats. *)
Lemma same_map_entry l m k v w :
  same_value (Map l) (Map m) -> NoDup m.*1 -> (k, v) ∈ l -> (k, w) ∈ m -> same_value v w.
Proof.
  intros H Hm Hv Hw. inversion H as [| | | | | |l0 l' m0 m' Hl Hf Hp]; subst.
  rewrite Hl in Hv. apply list_elem_of_lookup in Hv as [i Hi].
  destruct (Forall2_lookup_l _ _ _ _ _ Hf Hi) as ([k' v'] & Hi' & Hk & Hs). simpl in *. subst k'.
  apply list_elem_of_lookup_2 in Hi'. rewrite Hp in Hi'.
  apply list_elem_of_lookup in Hi' as [a Ha], Hw as [b Hb].
  assert (a = b) as ->.
  { eapply NoDup_lookup; [exact Hm| |]; rewrite list_lookup_fmap; [by rewrite Ha|by rewrite Hb]. }
  congruence.
Qed.

Lemma encode_inj t1 n1 v1 t2 n2 v2 b :
  value_ok v1 -> value_ok v2 -> (n1 <= U32_MAX)%N -> (n2 <= U32_MAX)%N ->
  encode t1 n1 v1 = Ok b -> encode t2 n2 v2 = Ok b ->
  t1 = t2 /\ n1 = n2 /\ same_value v1 v2.
Proof.
  intros Hv1 Hv2 Hn1 Hn2 H1 H2. unfold encode in H1, H2.
  apply rbind_ok in H1 as (? & _ & (p1 & [Hp1 ->]%push_len_ok & (c1 & Hc1 & H1)%rbind_ok)%rbind_ok).
  apply rbind_ok in H2 as (? & _ & (p2 & [Hp2 ->]%push_len_ok & (c2 & Hc2 & H2)%rbind_ok)%rbind_ok).
  rewrite <-H1 in H2. clear H1. assert (H : forall x y : list byte, Ok (E := CanonicalError) x = Ok y -> x = y)
    by congruence.
  apply H, app_inv_head, blob_prefix in H2 as [->%as_bytes_inj H2]; [|done..].
  apply app_inj_1 in H2 as [Hn H2]; [|by rewrite !length_to_be_bytes].
  apply to_be_bytes_inj in Hn as ->; [|unfold U32_MAX in *; simpl; lia..].
  destruct (value_parses v2 Hv2 v1 c2 c1 [] []) as [Hs _]; [done..|by rewrite !app_nil_r|].
  destruct (value_parses v1 Hv1 v2 c1 c2 [] []) as [Hs' _]; [done..|by rewrite !app_nil_r|done].
Qed.

(** ** Theorems *)

(** The canonical encoding identifies its input.  Two calls of [encode]
    that produce the same bytes were given the same schema tag, the same schema
    version and values that differ at most in the order of map entries.  So the
    digests built on it separate every two distinct inputs that SHA-256
    separates. *)
Theorem encode_injective t1 n1 v1 t2 n2 v2 b :
  value_ok v1 -> value_ok v2 -> (n1 <= U32_MAX)%N -> (n2 <= U32_MAX)%N ->
  encode t1 n1 v1 = Ok b -> encode t2 n2 v2 = Ok b ->
  t1 = t2 /\ n1 = n2 /\ same_value v1 v2.
Proof. apply encode_inj. Qed.

Definition sample_value : CanonicalValue :=
  Map [("b"%string, Sequence [Integer (-7); Bool true]); ("a"%string, CString "x")].
Definition sample_value' : CanonicalValue :=
  Map [("a"%string, CString "x"); ("b"%string, Sequence [Integer (-7); Bool true])].

Lemma sample_value_ok : value_ok sample_value /\ value_ok sample_value'.
Proof. split; repeat (constructor; simpl; try lia). Qed.

Lemma encode_injective_witness :
  exists b, encode "t" 1 sample_value = Ok b /\ encode "t" 1 sample_value' = Ok b /\
    same_value sample_value sample_value'.
Proof.
  destruct (encode "t" 1 sample_value) as [b|] eqn:E; [|by vm_compute in E].
  assert (E' : encode "t" 1 sample_value' = Ok b) by (rewrite <-E; vm_compute; reflexivity).
  exists b. split; [done|split; [done|]].
  refine (proj2 (proj2 (encode_injective "t" 1 sample_value "t" 1 sample_value' b _ _ _ _ E E'))).
  - apply sample_value_ok.
  - apply sample_value_ok.
  - vm_compute; discriminate.
  - vm_compute; discriminate.
Defined.

(** The encoding is canonical: values that differ only in the order of map
    entries, at any depth, are encoded alike, errors included. *)
Theorem encode_same t n v w : same_value v w -> encode t n v = encode t n w.
Proof. intros H. unfold encode. by rewrite (encode_value_same v w H). Qed.

Lemma encode_same_witness : encode "t" 1 sample_value = encode "t" 1 sample_value'.
Proof.
  apply encode_same. refine (same_map _ _ _ _ (Permutation_swap _ _ []) _ (Permutation_refl _)).
  repeat constructor.
Defined.

(** Every outcome of [encode] on values whose lengths are machine integers.
    An empty schema tag is refused; otherwise the value is encoded exactly when
    no map in it, at any depth, repeats a key, and refused with
    [DuplicateMapKey] when one does.  [LengthOverflow] never happens. *)
Theorem encode_outcome t n v :
  (str_len t <= U64_MAX)%N -> value_fits v ->
  (t = ""%string -> encode t n v = Err EmptySchemaTag) /\
  (t <> ""%string -> unique_keys v -> exists b, encode t n v = Ok b) /\
  (t <> ""%string -> ~ unique_keys v -> encode t n v = Err DuplicateMapKey).
Proof.
  intros Ht Hv. split; [by intros ->|]. unfold encode. rewrite push_len_fits by done.
  split; intros Hne; apply str_is_empty_false in Hne; rewrite Hne; simpl;
    destruct (encode_value_cases v Hv) as [[? [b ->]]|[? ->]]; simpl; naive_solver.
Qed.

Lemma sample_value_fits : value_fits sample_value /\ unique_keys sample_value.
Proof.
  split; repeat match goal with
  | |- (_ <= _)%N => vm_compute; discriminate
  | |- NoDup _ => apply (bool_decide_unpack _); vm_compute; exact I
  | |- _ => constructor; cbn [fst snd]
  end.
Qed.

Lemma encode_outcome_witness : exists b, encode "t" 1 sample_value = Ok b.
Proof.
  apply encode_outcome; [vm_compute; discriminate|apply sample_value_fits|discriminate|
    apply sample_value_fits].
Defined.
