(* ===== verification/ProtectFacts.v ===== *)
(** * What redaction guarantees

    Bounds of the scanners, equivalence of the assignment scanner with a scan of
    every position, the selection among overlapping candidates and the shape of
    the protected bytes. *)

From S2P Require Import Prelude Order Collections Text Canonical Protect.

(** ** Slices and searches *)

Lemma slice_from_fits {A} (l : list A) i : (i <= length l)%nat -> slice_from l i = Ok (drop i l).
Proof. intros H. unfold slice_from. by rewrite (proj2 (Nat.leb_le _ _) H). Qed.

Lemma slice_fits {A} (l : list A) i j :
  (i <= j <= length l)%nat -> slice l i j = Ok (take (j - i) (drop i l)).
Proof. intros [H1 H2]. unfold slice. by rewrite (proj2 (Nat.leb_le _ _) H1), (proj2 (Nat.leb_le _ _) H2). Qed.

Lemma count_while_le {A} (f : A -> bool) l : (count_while f l <= length l)%nat.
Proof. induction l as [|x l IH]; simpl; [lia|]. destruct (f x); lia. Qed.

Lemma skip_while_bounds {A} (f : A -> bool) l i :
  (i <= length l)%nat -> (i <= skip_while f l i <= length l)%nat.
Proof.
  intros H. unfold skip_while. pose proof (count_while_le f (drop i l)) as Hc.
  rewrite length_drop in Hc. lia.
Qed.

Lemma count_while_app {A} (f : A -> bool) l m :
  Forall (fun x => f x = true) l -> is_some_and (head m) f = false ->
  count_while f (l ++ m) = length l.
Proof.
  induction 1 as [|x l Hx Hl IH]; intros Hm; simpl.
  - destruct m as [|y m]; simpl in *; [done|]. by rewrite Hm.
  - rewrite Hx. by rewrite IH.
Qed.

Lemma skip_while_app {A} (f : A -> bool) p l m :
  Forall (fun x => f x = true) l -> is_some_and (head m) f = false ->
  skip_while f (p ++ l ++ m) (length p) = (length p + length l)%nat.
Proof. intros Hl Hm. unfold skip_while. by rewrite drop_app_length, count_while_app. Qed.

Lemma find_window_spec {A} (f : list A -> bool) n l :
  (0 < n)%nat ->
  match find_window f n l with
  | Some k => (k + n <= length l)%nat /\ f (take n (drop k l)) = true /\
              forall j, (j < k)%nat -> f (take n (drop j l)) = false
  | None => forall j, (j + n <= length l)%nat -> f (take n (drop j l)) = false
  end.
Proof.
  intros Hn. induction l as [|x l IH].
  - simpl. destruct (Nat.leb_spec n 0) as [?|_]; [lia|]. simpl. intros; lia.
  - cbn [find_window]. destruct (Nat.leb_spec n (length (x :: l))) as [Hle|Hgt].
    + destruct (f (take n (x :: l))) eqn:E; [split; [simpl in *; lia|]; split; [done|intros; lia]|].
      destruct (find_window f n l) as [k|]; cbn -[take].
      * destruct IH as (H1 & H2 & H3). split; [simpl; lia|]. split; [done|].
        intros [|j] Hj; [done|]. apply (H3 j). lia.
      * intros [|j] Hj; [done|]. apply (IH j). simpl in Hj. lia.
    + intros j Hj. simpl in *. lia.
Qed.

(** Whether the name occurs at a position, in any case. *)
Definition found_at (input name : list byte) (i : nat) : bool :=
  eq_ignore_ascii_case (take (length name) (drop i input)) name.

Lemma found_at_fits input name i :
  name <> [] -> found_at input name i = true -> (i + length name <= length input)%nat.
Proof.
  unfold found_at, eq_ignore_ascii_case. rewrite bool_decide_eq_true. intros Hn H.
  apply (f_equal length) in H. rewrite !length_fmap, length_take, length_drop in H.
  assert (0 < length name)%nat by (destruct name; [done|simpl; lia]). lia.
Qed.

Lemma find_name input name cursor :
  name <> [] -> (cursor <= length input)%nat ->
  exists found, find_ascii_case_insensitive (drop cursor input) name = Ok found /\
  match found with
  | Some k => (cursor + k + length name <= length input)%nat /\ found_at input name (cursor + k) = true /\
              forall j, (cursor <= j < cursor + k)%nat -> found_at input name j = false
  | None => forall j, (cursor <= j)%nat -> found_at input name j = false
  end.
Proof.
  intros Hn Hc. unfold find_ascii_case_insensitive, find_by.
  destruct (is_empty name) eqn:En; [by apply is_empty_true in En|]. cbn [guard rbind].
  assert (0 < length name)%nat as Hl by (destruct name; [done|simpl; lia]).
  pose proof (find_window_spec (fun w => eq_ignore_ascii_case w name) _ (drop cursor input) Hl) as H.
  eexists. split; [done|]. destruct find_window as [k|]; rewrite length_drop in H.
  - destruct H as (H1 & H2 & H3). rewrite drop_drop in H2.
    split; [lia|]. split; [done|]. intros j Hj. unfold found_at.
    replace j with (cursor + (j - cursor))%nat by lia. rewrite <-drop_drop. apply H3. lia.
  - intros j Hj. destruct (found_at input name j) eqn:E; [|done].
    pose proof (found_at_fits input name j Hn E) as Hf.
    replace j with (cursor + (j - cursor))%nat in E by lia. unfold found_at in E.
    rewrite <-drop_drop in E. rewrite H in E; [done|lia].
Qed.

(** No proper prefix of the name is a suffix of it, so that two occurrences of it
    never overlap. *)
Definition no_border (name : list byte) : bool :=
  all (fun k => negb (eq_ignore_ascii_case (take (length name - k) name) (drop k name)))
    (seq 1 (length name - 1)).

Lemma found_apart input name i j :
  no_border name = true -> found_at input name i = true -> found_at input name j = true ->
  (i < j)%nat -> (i + length name <= j)%nat.
Proof.
  unfold found_at, no_border, eq_ignore_ascii_case. rewrite all_true, !bool_decide_eq_true.
  intros Hb Hi Hj Hlt. destruct (decide (i + length name <= j)%nat) as [|Hno]; [done|]. exfalso.
  set (k := (j - i)%nat). rewrite Forall_forall in Hb. specialize (Hb k).
  rewrite negb_true_iff, bool_decide_eq_false in Hb. apply Hb; [apply elem_of_seq; lia|].
  rewrite fmap_take, fmap_drop in Hi, Hj. rewrite fmap_take, fmap_drop.
  remember (length name) as n eqn:En. remember (to_ascii_lowercase <$> name) as N eqn:EN.
  remember (to_ascii_lowercase <$> input) as L eqn:EL. clear Hb En EN EL.
  transitivity (take (n - k) (drop j L)).
  - rewrite <-Hj, take_take. f_equal. lia.
  - rewrite <-Hi. replace n with (k + (n - k))%nat at 2 by lia.
    rewrite <-take_drop_commute, drop_drop. by replace (i + k)%nat with j by lia.
Qed.

(** ** Scanners *)

Lemma at_is_eq f input i : at_is f input i = Ok (is_some_and (input !! i) f).
Proof.
  unfold at_is, index. destruct (Nat.ltb_spec i (length input)) as [H|H].
  - apply lookup_lt_is_Some in H as [b ->]. done.
  - by rewrite lookup_ge_None_2.
Qed.

Lemma before_is_eq f input start :
  (start <= length input)%nat ->
  before_is f input start
  = Ok (match start with O => false | S p => is_some_and (input !! p) f end).
Proof.
  intros H. unfold before_is, index. destruct start as [|p]; [done|]. simpl. rewrite Nat.sub_0_r.
  assert (p < length input)%nat as [b ->]%lookup_lt_is_Some by lia. done.
Qed.

Definition fits (input : list byte) (c : Candidate) : Prop :=
  (Candidate.start c < Candidate.end_ c <= length input)%nat.

(** What a scanner yields at one position: no panic, and a candidate in bounds. *)
Definition yields (input : list byte) (m : checked (option Candidate)) : Prop :=
  exists o, m = Ok o /\ forall c, o = Some c -> fits input c.

Lemma yields_none input : yields input (Ok None).
Proof. by eexists. Qed.

Lemma yields_span input from to kind :
  (to <= length input)%nat ->
  yields input (Ok (if (8 <=? to - from)%nat then Some (Candidate.mk from to kind) else None)).
Proof.
  intros H. eexists. split; [done|]. intros c. destruct (Nat.leb_spec 8 (to - from)); intros [= <-].
  unfold fits. simpl. lia.
Qed.

#[local] Hint Resolve yields_none yields_span : core.

Lemma lookup_fits {A} (l : list A) i x : l !! i = Some x -> (i + 1 <= length l)%nat.
Proof. intros H%lookup_lt_Some. lia. Qed.

Lemma assignment_at_yields input name kind start :
  (start + length name <= length input)%nat -> yields input (assignment_at input name kind start).
Proof.
  intros H. unfold assignment_at. rewrite before_is_eq, !at_is_eq by lia. cbn [rbind].
  destruct (_ || _); [done|].
  set (v := skip_while is_blank input _). destruct (input !! v) as [b|] eqn:E; [|done].
  apply lookup_fits in E. cbn [is_some_and]. destruct (contains _ _); [cbn [negb]|done].
  pose proof (skip_while_bounds is_blank input (v + 1) E) as Hw.
  set (w := skip_while is_blank input (v + 1)) in *. apply yields_span, skip_while_bounds.
  destruct (input !! w) as [q|] eqn:Eq; [|cbn; lia]. apply lookup_fits in Eq.
  destruct (contains _ _); cbn; lia.
Qed.

Lemma bearer_at_yields input start :
  (start + length AUTHORIZATION <= length input)%nat -> yields input (bearer_at input start).
Proof.
  intros H. unfold bearer_at. rewrite before_is_eq by lia. cbn [rbind].
  destruct (match start with O => _ | S p => _ end); [done|].
  set (v := skip_while is_blank input _). destruct (bool_decide _) eqn:E; [|done].
  apply bool_decide_eq_true, lookup_fits in E.
  pose proof (skip_while_bounds is_blank input (v + 1) E) as Hw.
  set (w := skip_while is_blank input (v + 1)) in *.
  destruct (Nat.ltb_spec (length input) (w + length BEARER)) as [?|Hb]; [done|].
  rewrite slice_fits by lia. cbn [rbind]. destruct (eq_ignore_ascii_case _ _); [cbn [negb]|done].
  destruct (input !! (w + length BEARER)%nat) as [b|] eqn:Eb; [|done]. cbn [is_some_and].
  destruct (is_ascii_whitespace b); [|done]. apply yields_span.
  by apply skip_while_bounds, skip_while_bounds.
Qed.

(** The candidates of the assignment scanner when every position is tried. *)
Definition assignment_of (input name : list byte) (kind : SecretKind) (i : nat) : option Candidate :=
  if found_at input name i
  then match assignment_at input name kind i with Ok o => o | Err _ => None end else None.

Definition assignments (input name : list byte) (kind : SecretKind) (cursor : nat) : list Candidate :=
  omap (assignment_of input name kind) (seq cursor (length input - cursor)).

Lemma omap_seq_none {A} (f : nat -> option A) i n :
  (forall j, (i <= j < i + n)%nat -> f j = None) -> omap f (seq i n) = [].
Proof.
  revert i. induction n as [|n IH]; intros i H; simpl; [done|].
  rewrite H by lia. apply IH. intros j Hj. apply H. lia.
Qed.

Lemma assignments_skip input name kind i j :
  (i <= j)%nat -> (forall k, (i <= k < j)%nat -> found_at input name k = false) ->
  assignments input name kind i = assignments input name kind j.
Proof.
  intros Hij H. unfold assignments. destruct (decide (j <= length input)%nat) as [Hj|Hj].
  - replace (length input - i)%nat with ((j - i) + (length input - j))%nat by lia.
    rewrite seq_app, omap_app, omap_seq_none; [by replace (i + (j - i))%nat with j by lia|].
    intros k Hk. unfold assignment_of. by rewrite H by lia.
  - rewrite !omap_seq_none; [done|intros k Hk; lia|].
    intros k Hk. unfold assignment_of. by rewrite H by lia.
Qed.

Lemma assignments_cons input name kind i :
  (i < length input)%nat ->
  assignments input name kind i
  = option_list (assignment_of input name kind i) ++ assignments input name kind (S i).
Proof.
  intros H. unfold assignments. replace (length input - i)%nat with (S (length input - S i)) by lia.
  simpl. by destruct (assignment_of input name kind i).
Qed.

Lemma assignment_loop_eq input name kind fuel cursor output :
  name <> [] -> no_border name = true -> (cursor <= length input)%nat ->
  (length input - cursor < fuel)%nat ->
  assignment_loop fuel input name kind cursor output
  = Ok (output ++ assignments input name kind cursor).
Proof.
  intros Hn Hb. revert cursor output. induction fuel as [|fuel IH]; intros cursor output Hc Hf; [lia|].
  assert (0 < length name)%nat as Hl by (destruct name; [done|simpl; lia]).
  cbn [assignment_loop]. rewrite slice_from_fits by done. cbn [rbind].
  destruct (find_name input name cursor Hn Hc) as (found & -> & H). cbn [rbind].
  destruct found as [k|].
  - destruct H as (H1 & H2 & H3).
    destruct (assignment_at_yields input name kind (cursor + k) H1) as (o & Ho & _).
    rewrite Ho. cbn [rbind]. rewrite IH by lia. f_equal. rewrite <-app_assoc. f_equal.
    rewrite (assignments_skip _ _ _ cursor (cursor + k)) by (auto with lia).
    rewrite (assignments_cons _ _ _ (cursor + k)) by lia. unfold assignment_of at 1. rewrite H2, Ho. f_equal.
    symmetry. apply assignments_skip; [lia|]. intros j Hj.
    destruct (found_at input name j) eqn:Ej; [|done].
    pose proof (found_apart input name (cursor + k) j Hb H2 Ej). lia.
  - f_equal. rewrite (assignments_skip _ _ _ cursor (length input) Hc) by (intros; apply H; lia).
    unfold assignments. rewrite Nat.sub_diag. by rewrite app_nil_r.
Qed.

Lemma assignment_of_fits input name kind i c :
  name <> [] -> assignment_of input name kind i = Some c -> fits input c.
Proof.
  intros Hn. unfold assignment_of. destruct (found_at input name i) eqn:E; [|done].
  apply found_at_fits in E; [|done].
  destruct (assignment_at_yields input name kind i E) as (o & -> & H). apply H.
Qed.

Lemma bearer_loop_fits input fuel cursor output :
  (cursor <= length input)%nat -> (length input - cursor < fuel)%nat ->
  Forall (fits input) output ->
  exists found, bearer_loop fuel input cursor output = Ok found /\ Forall (fits input) found.
Proof.
  revert cursor output. induction fuel as [|fuel IH]; intros cursor output Hc Hf Ho; [lia|].
  cbn [bearer_loop]. rewrite slice_from_fits by done. cbn [rbind].
  destruct (find_name input AUTHORIZATION cursor ltac:(done) Hc) as (found & -> & H). cbn [rbind].
  destruct found as [k|]; [|eauto]. destruct H as (H1 & _).
  destruct (bearer_at_yields input (cursor + k) H1) as (o & -> & Hy). cbn [rbind].
  assert (0 < length AUTHORIZATION)%nat by (vm_compute; lia). apply IH; [lia|lia|].
  apply Forall_app. split; [done|]. destruct o; [|constructor]. by repeat constructor; apply Hy.
Qed.

Lemma find_bytes_fits input needle cursor :
  needle <> [] -> (cursor <= length input)%nat ->
  exists found, find_bytes (drop cursor input) needle = Ok found /\
  forall k, found = Some k -> (cursor + k + length needle <= length input)%nat.
Proof.
  intros Hn Hc. unfold find_bytes, find_by. destruct (is_empty needle) eqn:En; [by apply is_empty_true in En|].
  cbn [guard rbind]. assert (0 < length needle)%nat as Hl by (destruct needle; [done|simpl; lia]).
  pose proof (find_window_spec (fun window => window ==? needle) _ (drop cursor input) Hl) as H.
  eexists. split; [done|]. intros k Hk. rewrite Hk, length_drop in H. lia.
Qed.

Lemma pem_loop_fits input fuel cursor output :
  (cursor <= length input)%nat -> (length input - cursor < fuel)%nat ->
  Forall (fits input) output ->
  exists found, pem_loop fuel input cursor output = Ok found /\ Forall (fits input) found.
Proof.
  revert cursor output. induction fuel as [|fuel IH]; intros cursor output Hc Hf Ho; [lia|].
  assert (0 < length BEGIN)%nat by (vm_compute; lia).
  assert (length PRIVATE = 16)%nat as HP by done.
  cbn [pem_loop]. rewrite slice_from_fits by done. cbn [rbind].
  destruct (find_bytes_fits input BEGIN cursor ltac:(done) Hc) as (found & -> & H1). cbn [rbind].
  destruct found as [k|]; [|eauto]. specialize (H1 k eq_refl).
  rewrite slice_from_fits by lia. cbn [rbind].
  destruct (find_bytes_fits input PRIVATE _ ltac:(done) H1) as (found & -> & H2). cbn [rbind].
  destruct found as [k'|]; [|eauto]. specialize (H2 k' eq_refl).
  rewrite slice_fits by lia. cbn [rbind]. rewrite slice_from_fits by done. cbn [rbind].
  set (marker := END_PREFIX ++ _ ++ DASHES).
  assert (marker <> []) as Hm by done.
  destruct (find_bytes_fits input marker _ Hm H2) as (found & -> & H3). cbn [rbind].
  destruct found as [e|]; [|apply IH; [done|lia|done]]. specialize (H3 e eq_refl).
  apply IH; [done|lia|]. apply Forall_app. split; [done|].
  apply Forall_singleton. unfold fits. cbn [Candidate.start Candidate.end_]. lia.
Qed.

Lemma ASSIGNMENTS_names :
  Forall (fun n => n.1 <> [] /\ no_border n.1 = true) ASSIGNMENTS.
Proof. repeat constructor; done. Qed.

Lemma detect_assignments_eq input names output :
  Forall (fun n => n.1 <> [] /\ no_border n.1 = true) names ->
  detect_assignments input names output
  = Ok (output ++ (names ≫= fun n => assignments input n.1 n.2 0)).
Proof.
  intros H. revert output. induction H as [|[name kind] names [Hn Hb] _ IH]; intros output; simpl.
  - by rewrite app_nil_r.
  - unfold detect_assignment. rewrite assignment_loop_eq by (done || lia). cbn [rbind].
    rewrite IH. by rewrite <-app_assoc.
Qed.

Lemma detect_candidates_fits input :
  exists found, detect_candidates input = Ok found /\ Forall (fits input) found /\
  forall name kind i c, (name, kind) ∈ ASSIGNMENTS -> assignment_of input name kind i = Some c ->
    c ∈ found.
Proof.
  unfold detect_candidates, detect_pem, detect_bearer.
  destruct (pem_loop_fits input (S (length input)) 0 []) as (f1 & -> & H1); [lia|lia|done|]. cbn [rbind].
  destruct (bearer_loop_fits input (S (length input)) 0 f1) as (f2 & -> & H2); [lia|lia|done|]. cbn [rbind].
  rewrite detect_assignments_eq by apply ASSIGNMENTS_names. eexists. split; [done|].
  pose proof ASSIGNMENTS_names as HA. rewrite Forall_forall in HA. split.
  - apply Forall_app. split; [done|]. apply Forall_forall. intros c Hc.
    apply list_elem_of_bind in Hc as ([name kind] & Hc & Hin). apply list_elem_of_omap in Hc as (i & _ & Hc).
    eapply assignment_of_fits; [apply (HA _ Hin)|exact Hc].
  - intros name kind i c Hin Hc. apply elem_of_app. right. apply list_elem_of_bind.
    exists (name, kind). split; [|done]. apply list_elem_of_omap. exists i. split; [|done].
    apply elem_of_seq. unfold assignment_of in Hc. destruct (found_at input name i) eqn:E; [|done].
    destruct (HA _ Hin) as [Hn _]. apply found_at_fits in E; [|done].
    assert (0 < length name)%nat by (destruct name; [done|simpl; lia]). lia.
Qed.

(** ** Overlaps *)

Lemma candidate_le_total a b : candidate_le a b = true \/ candidate_le b a = true.
Proof.
  unfold candidate_le. rewrite (N.compare_antisym (_ (_ a)) (_ (_ b))), (Nat.compare_antisym (size a) (size b)).
  destruct (N.compare _ _), (Nat.compare _ _); cbn; auto. rewrite !Nat.leb_le. lia.
Qed.

Lemma candidate_le_spec a b :
  candidate_le a b = true <->
  let pa := SecretKind.priority (Candidate.kind a) in
  let pb := SecretKind.priority (Candidate.kind b) in
  (pb < pa)%N \/ pa = pb /\ ((size b < size a)%nat \/
                            size a = size b /\ (Candidate.start a <= Candidate.start b)%nat).
Proof.
  unfold candidate_le. cbv zeta.
  destruct (N.compare_spec (SecretKind.priority (Candidate.kind b)) (SecretKind.priority (Candidate.kind a)));
    [|split; [by left|done]|split; [done|lia]].
  destruct (Nat.compare_spec (size b) (size a)); rewrite ?Nat.leb_le; split; try done; lia.
Qed.

Lemma candidate_le_trans a b c :
  candidate_le a b = true -> candidate_le b c = true -> candidate_le a c = true.
Proof. rewrite !candidate_le_spec. cbv zeta. lia. Qed.

Lemma apart_false a b :
  apart a b = false <-> (Candidate.start b < Candidate.end_ a)%nat /\ (Candidate.start a < Candidate.end_ b)%nat.
Proof. unfold apart. rewrite orb_false_iff, !Nat.leb_gt. done. Qed.

(** Selected candidates: no two of them share a byte. *)
Definition separate (l : list Candidate) : Prop :=
  NoDup l /\ forall a b, a ∈ l -> b ∈ l -> a = b \/ apart a b = true.

Lemma select_separate input acc c :
  fits input c -> separate acc -> separate (select acc c).
Proof.
  intros Hc [Hn Hp]. unfold select. destruct (all (apart c) acc) eqn:E; [|done].
  rewrite all_true, Forall_forall in E. split.
  - apply NoDup_app. split; [done|]. split; [|apply NoDup_singleton].
    intros x Hx ->%list_elem_of_singleton. specialize (E c Hx).
    assert (apart c c = false) by (apply apart_false; destruct Hc; lia). congruence.
  - assert (forall a b, apart a b = apart b a) as Hs.
    { intros a b. unfold apart. apply orb_comm. }
    intros a b. rewrite !elem_of_app, !list_elem_of_singleton.
    intros [Ha| ->] [Hb| ->]; [auto|right; rewrite Hs; auto|right; auto|by left].
Qed.

Lemma foldl_select input l acc :
  Forall (fits input) l -> sorted_le candidate_le l -> separate acc ->
  separate (foldl select acc l) /\
  (forall c, c ∈ foldl select acc l -> c ∈ acc \/ c ∈ l) /\
  (forall s, s ∈ acc -> s ∈ foldl select acc l) /\
  (forall c, c ∈ l -> exists s, s ∈ foldl select acc l /\ apart c s = false /\
     (s ∈ acc \/ candidate_le s c = true)).
Proof.
  intros Hf Hs. revert acc. induction Hs as [|x l Hs IH Hx]; intros acc Ha; simpl.
  { split_and!; [done|by left|done|]. intros c Hc. by apply not_elem_of_nil in Hc. }
  apply Forall_cons in Hf as [Hfx Hf].
  destruct (IH Hf (select acc x) ltac:(by eapply select_separate)) as (H1 & H2 & H3 & H4).
  assert (forall s, s ∈ select acc x -> s ∈ acc \/ s = x) as Hsel.
  { intros s. unfold select. destruct (all _ _); [|auto].
    rewrite elem_of_app, list_elem_of_singleton. done. }
  assert (forall s, s ∈ acc -> s ∈ select acc x) as Hkeep.
  { intros s Hin. unfold select. destruct (all _ _); [|done]. apply elem_of_app. by left. }
  split_and!; [done| |auto|].
  - intros c Hc. rewrite elem_of_cons. destruct (H2 c Hc) as [Hc'|?]; [|auto]. destruct (Hsel c Hc'); auto.
  - intros c [->|Hc]%elem_of_cons.
    + destruct (all (apart x) acc) eqn:E.
      * exists x. split; [apply H3; unfold select; rewrite E; apply elem_of_app; right; by left|].
        split; [apply apart_false; destruct Hfx; lia|right]. destruct (candidate_le_total x x); done.
      * assert (exists s, s ∈ acc /\ apart x s = false) as (s & Hin & Hap).
        { unfold all in E. clear -E. induction acc as [|a acc IHa]; simpl in E; [done|].
          apply andb_false_iff in E as [E|E]; [exists a; split; [by left|done]|].
          destruct (IHa E) as (s & ? & ?). exists s. split; [by right|done]. }
        exists s. auto.
    + destruct (H4 c Hc) as (s & Hin & Hap & Hor). exists s. split; [done|]. split; [done|].
      destruct Hor as [Hin'|?]; [|by right]. destruct (Hsel s Hin') as [?| ->]; [by left|right].
      rewrite Forall_forall in Hx. by apply Hx.
Qed.

(** Spans from left to right, from [cursor] on and within the input. *)
Inductive laid_out (input : list byte) : nat -> list RedactionSpan -> Prop :=
| laid_nil cursor : (cursor <= length input)%nat -> laid_out input cursor []
| laid_cons cursor span spans :
    (cursor <= RedactionSpan.start span < RedactionSpan.end_ span)%nat ->
    laid_out input (RedactionSpan.end_ span) spans -> laid_out input cursor (span :: spans).

Lemma separate_laid_out input l cursor :
  (cursor <= length input)%nat -> Forall (fits input) l -> separate l ->
  sorted_le (fun a b => (Candidate.start a <=? Candidate.start b)%nat) l ->
  Forall (fun c => cursor <= Candidate.start c)%nat l -> laid_out input cursor (span_of <$> l).
Proof.
  intros Hc Hf Hp Hs. revert cursor Hc Hf Hp. induction Hs as [|x l Hs IH Hx]; intros cursor Hc Hf [Hn Hp] Hl; simpl.
  { by constructor. }
  apply Forall_cons in Hf as [Hfx Hf], Hl as [Hlx Hl]. apply NoDup_cons in Hn as [Hni Hn].
  constructor; [destruct Hfx; cbn; lia|]. apply IH; [apply Hfx|done| |].
  - split; [done|]. intros a b Ha Hb. apply Hp; by right.
  - rewrite Forall_forall in Hx, Hf |- *. intros y Hy. specialize (Hx y Hy). apply Nat.leb_le in Hx.
    destruct (Hp x y ltac:(by left) ltac:(by right)) as [->|Hap]; [done|].
    unfold apart in Hap. apply orb_true_iff in Hap. rewrite !Nat.leb_le in Hap.
    destruct (Hf y Hy), Hap; cbn; lia.
Qed.

Lemma resolve_overlaps_spec input l :
  Forall (fits input) l ->
  laid_out input 0 (span_of <$> resolve_overlaps l) /\
  (forall c, c ∈ resolve_overlaps l -> c ∈ l) /\
  (forall c, c ∈ l -> exists s, s ∈ resolve_overlaps l /\ apart c s = false /\ candidate_le s c = true).
Proof.
  intros Hf. unfold resolve_overlaps.
  destruct (foldl_select input (sort_by candidate_le l) []) as (H1 & H2 & _ & H4).
  { by rewrite sort_by_perm. }
  { apply sort_by_sorted; [apply candidate_le_total|apply candidate_le_trans]. }
  { split; [constructor|]. intros a b Ha. by apply not_elem_of_nil in Ha. }
  set (sel := foldl select [] (sort_by candidate_le l)) in *.
  assert (forall c, c ∈ sel -> c ∈ l) as Hin.
  { intros c Hc. destruct (H2 c Hc) as [H|H]; [by apply not_elem_of_nil in H|by rewrite sort_by_perm in H]. }
  set (le := fun a b => (Candidate.start a <=? Candidate.start b)%nat).
  pose proof (sort_by_perm le sel) as Hperm. split_and!.
  - apply separate_laid_out; [lia| | | |].
    + rewrite Hperm, Forall_forall. rewrite Forall_forall in Hf. auto.
    + destruct H1 as [Hn Hp]. split; [by rewrite Hperm|]. intros a b. rewrite Hperm. apply Hp.
    + apply sort_by_sorted; intros; unfold le in *; rewrite ?Nat.leb_le in *; lia.
    + apply Forall_true. intros; lia.
  - intros c. rewrite Hperm. apply Hin.
  - intros c Hc. destruct (H4 c) as (s & Hs & Hap & [Hno|Hle]); [by rewrite sort_by_perm| |].
    + by apply not_elem_of_nil in Hno.
    + exists s. by rewrite Hperm.
Qed.

(** ** Redaction *)

(** An input cut into gaps, each followed by a secret, and what is left. *)
Definition pieces_input (pieces : list (list byte * list byte)) (tail : list byte) : list byte :=
  (pieces ≫= fun p => p.1 ++ p.2) ++ tail.
Definition pieces_output (pieces : list (list byte * list byte)) (tail : list byte) : list byte :=
  (pieces ≫= fun p => p.1 ++ REDACTION_TOKEN) ++ tail.

(** The start and end of each secret, the first gap starting at [offset]. *)
Fixpoint positions (offset : nat) (pieces : list (list byte * list byte)) : list (nat * nat) :=
  match pieces with
  | [] => []
  | (gap, secret) :: pieces =>
      let start := (offset + length gap)%nat in
      (start, (start + length secret)%nat) :: positions (start + length secret) pieces
  end.

Definition span_range (s : RedactionSpan) : nat * nat := (RedactionSpan.start s, RedactionSpan.end_ s).

Lemma laid_out_length input cursor spans :
  laid_out input cursor spans -> (length spans + cursor <= length input)%nat.
Proof. induction 1; simpl; lia. Qed.

Lemma redact_from_pieces input cursor spans :
  laid_out input cursor spans ->
  exists pieces tail, redact_from input cursor spans = Ok (pieces_output pieces tail) /\
  drop cursor input = pieces_input pieces tail /\
  positions cursor pieces = span_range <$> spans /\ Forall (fun p => p.2 <> []) pieces.
Proof.
  induction 1 as [cursor H|cursor s spans H Hl (pieces & tail & Ho & Hi & Hp & Hne)].
  { exists [], (drop cursor input). cbn [redact_from]. by rewrite slice_from_fits. }
  assert (RedactionSpan.end_ s <= length input)%nat as Hend by (apply laid_out_length in Hl; lia).
  exists ((take (RedactionSpan.start s - cursor) (drop cursor input),
      take (RedactionSpan.end_ s - RedactionSpan.start s) (drop (RedactionSpan.start s) input)) :: pieces), tail.
  cbn [redact_from]. rewrite slice_fits, Ho by lia. cbn [rbind].
  unfold pieces_input, pieces_output in *. cbn [mbind list_bind fst snd]. split_and!.
  - by rewrite <-!app_assoc.
  - rewrite <-!app_assoc, <-Hi.
    rewrite <-(take_drop (RedactionSpan.start s - cursor) (drop cursor input)) at 1. f_equal.
    rewrite drop_drop. replace (cursor + (RedactionSpan.start s - cursor))%nat with (RedactionSpan.start s) by lia.
    rewrite <-(take_drop (RedactionSpan.end_ s - RedactionSpan.start s) (drop (RedactionSpan.start s) input)) at 1.
    f_equal. rewrite drop_drop. f_equal. lia.
  - cbn [positions fmap list_fmap]. rewrite !length_take, !length_drop.
    replace (cursor + _ `min` _)%nat with (RedactionSpan.start s) by lia.
    replace (RedactionSpan.start s + _ `min` _)%nat with (RedactionSpan.end_ s) by lia. by rewrite Hp.
  - constructor; [|done]. intros He%(f_equal length). cbn in He.
    rewrite length_take, length_drop in He. lia.
Qed.

Lemma digest_span_ok input cursor spans :
  laid_out input cursor spans -> (len input <= U64_MAX)%N ->
  exists l, try_map (digest_span input) spans = Ok l /\ length l = length spans /\
  Forall value_fits l /\ Forall unique_keys l.
Proof.
  intros H Hlen. induction H as [cursor H|cursor s spans H Hl (l & Hm & Hn & Hf & Hu)]; [by exists []|].
  assert (RedactionSpan.end_ s <= length input)%nat as Hend by (apply laid_out_length in Hl; lia).
  cbn [try_map]. unfold digest_span at 1. rewrite slice_fits by lia. cbn [rbind]. rewrite Hm. cbn [rbind].
  eexists. split; [done|]. split; [cbn; by rewrite Hn|]. split; constructor; try done.
  - constructor; [done|].
    repeat constructor; try done; cbn [snd]; [by destruct (RedactionSpan.kind s)|].
    unfold len in *. rewrite length_take, length_drop. lia.
  - constructor; [|by repeat constructor]. by apply (bool_decide_unpack _).
Qed.

Section protect.
Context (mac : list byte -> list byte -> list byte).

Lemma protect_ok input key :
  (len input <= U64_MAX)%N ->
  exists cs p, detect_candidates input = Ok cs /\ protect mac input key = Ok p /\
  ProtectedPayload.spans p = span_of <$> resolve_overlaps cs /\
  ProtectedPayload.raw_length p = len input /\ ProtectedPayload.key_generation p = DeviceKey.generation key /\
  redact_from input 0 (ProtectedPayload.spans p) = Ok (ProtectedPayload.protected_bytes p) /\
  (ProtectedPayload.protected_secret_digest p = None <-> ProtectedPayload.spans p = []).
Proof.
  intros Hlen. destruct (detect_candidates_fits input) as (cs & Hcs & Hf & _).
  destruct (resolve_overlaps_spec input cs Hf) as (Hl & _).
  exists cs. unfold protect. rewrite (proj2 (N.ltb_ge _ _) Hlen). cbn [guard rbind]. rewrite Hcs. cbn [rbind].
  cbv zeta. set (spans := span_of <$> resolve_overlaps cs) in *.
  destruct (redact_from_pieces _ _ _ Hl) as (pieces & tail & Hr & Hi & _).
  destruct (is_empty spans) eqn:E.
  - apply is_empty_true in E. cbn [rbind]. eexists. split; [done|]. split; [done|]. cbn. split_and!; try done.
    rewrite E. cbn [redact_from]. by rewrite slice_from_fits by lia.
  - apply is_empty_false in E. unfold redact. rewrite Hr. cbn [rbind].
    destruct (digest_span_ok _ _ _ Hl Hlen) as (l & -> & Hn & Hvf & Hu). cbn [rbind].
    unfold hmac_sha256. destruct (encode_unique_ok "evertrace.protected_secret" REDACTION_REVISION
      (secrets_value (len input) l)) as [b ->].
    + done.
    + done.
    + apply laid_out_length in Hl. constructor; [done|]. repeat constructor; try done.
      unfold len in *. rewrite Hn. lia.
    + constructor; [by apply (bool_decide_unpack _)|]. by repeat constructor.
    + cbn [rbind map_err]. eexists. split; [done|]. split; [done|]. cbn. by split_and!.
Qed.

Lemma protect_fits input key p : protect mac input key = Ok p -> (len input <= U64_MAX)%N.
Proof. intros H. unfold protect in H. ok_step H. by apply N.ltb_ge. Qed.

(** Every candidate shares a byte with a span that is at least as important. *)
Lemma covered input key p cs c :
  protect mac input key = Ok p -> detect_candidates input = Ok cs -> c ∈ cs ->
  exists s, span_of s ∈ ProtectedPayload.spans p /\ apart c s = false /\ candidate_le s c = true.
Proof.
  intros H Hcs Hc. destruct (protect_ok input key (protect_fits _ _ _ H)) as (cs' & p' & Hcs' & Hp' & Hs & _).
  rewrite H in Hp'. injection Hp' as <-. rewrite Hcs in Hcs'. injection Hcs' as <-.
  destruct (detect_candidates_fits input) as (cf & Hcf & Hf & _). rewrite Hcs in Hcf. injection Hcf as <-.
  destruct (resolve_overlaps_spec input _ Hf) as (_ & _ & Hcov).
  destruct (Hcov c Hc) as (s & Hin & Ha & Hle). exists s. split; [|done].
  rewrite Hs. by apply list_elem_of_fmap_2.
Qed.
End protect.

(** ** A plain assignment *)

(** [name = value], in any case of the name, with blanks around the sign, the
    value bare or quoted, up to the end of the value. *)
Record plain_assignment (pre name spelled gap1 : list byte) (sign : byte) (gap2 : list byte)
    (quote : option byte) (value post : list byte) : Prop := {
  plain_name : eq_ignore_ascii_case spelled name = true;
  plain_before : is_some_and (last pre) is_name_byte = false;
  plain_gap1 : Forall (fun b => is_blank b = true) gap1;
  plain_sign : contains (byte_N sign) [61; 58]%N = true;
  plain_gap2 : Forall (fun b => is_blank b = true) gap2;
  plain_quote : match quote with
                | Some q => contains (byte_N q) [39; 34]%N = true
                | None => is_some_and (head value) (fun b => contains (byte_N b) [39; 34]%N) = false
                end;
  plain_length : (8 <= length value)%nat;
  plain_value : Forall (fun b => in_value quote b = true) value;
  plain_after : is_some_and (head post) (in_value quote) = false;
}.

Definition plain_input (pre spelled gap1 : list byte) (sign : byte) (gap2 : list byte)
    (quote : option byte) (value post : list byte) : list byte :=
  pre ++ spelled ++ gap1 ++ sign :: gap2 ++ option_list quote ++ value ++ post.

Definition plain_start (pre spelled gap1 gap2 : list byte) (quote : option byte) : nat :=
  (length pre + length spelled + length gap1 + 1 + length gap2 + length (option_list quote))%nat.

Lemma eq_ignore_length l m : eq_ignore_ascii_case l m = true -> length l = length m.
Proof.
  unfold eq_ignore_ascii_case. rewrite bool_decide_eq_true. intros H%(f_equal length).
  by rewrite !length_fmap in H.
Qed.

Lemma byte_classes b :
  (contains (byte_N b) [61; 58]%N = true -> is_blank b = false /\ is_name_byte b = false) /\
  (is_blank b = true -> is_name_byte b = false) /\
  (contains (byte_N b) [39; 34]%N = true -> is_blank b = false) /\
  (in_value None b = true -> is_blank b = false).
Proof. destruct b; vm_compute; auto. Qed.

Lemma lookup_middle_app {A} (p : list A) x r : (p ++ x :: r) !! length p = Some x.
Proof. by apply list_lookup_middle. Qed.

Section plain.
Context (pre name spelled gap1 : list byte) (sign : byte) (gap2 : list byte)
  (quote : option byte) (value post : list byte) (kind : SecretKind).
Hypothesis H : plain_assignment pre name spelled gap1 sign gap2 quote value post.

#[local] Abbreviation input := (plain_input pre spelled gap1 sign gap2 quote value post).

(** The bytes from the name, the sign and the value on. *)
Lemma plain_found : found_at input name (length pre) = true.
Proof.
  unfold found_at, plain_input. rewrite drop_app_length.
  rewrite <-(eq_ignore_length _ _ (plain_name _ _ _ _ _ _ _ _ _ H)), take_app_length. apply H.
Qed.

Lemma plain_after_gap2 :
  is_some_and (head (option_list quote ++ value ++ post)) is_blank = false.
Proof.
  pose proof (plain_quote _ _ _ _ _ _ _ _ _ H) as Hq. pose proof (plain_value _ _ _ _ _ _ _ _ _ H) as Hv.
  pose proof (plain_length _ _ _ _ _ _ _ _ _ H) as Hl.
  destruct quote as [q|]; [by apply byte_classes in Hq|].
  destruct value as [|v value']; [simpl in Hl; lia|]. cbn. apply Forall_cons in Hv as [Hv _].
  by apply byte_classes in Hv.
Qed.

Lemma plain_before_false :
  match length pre with O => false | S p => is_some_and (input !! p) is_name_byte end = false.
Proof.
  pose proof (plain_before _ _ _ _ _ _ _ _ _ H) as Hb.
  destruct pre as [|b l _] using rev_ind; [done|]. rewrite last_snoc in Hb. rewrite length_app, Nat.add_1_r.
  unfold plain_input. rewrite <-app_assoc. simpl. by rewrite lookup_middle_app.
Qed.

Lemma plain_longer_false :
  is_some_and (input !! (length pre + length name)%nat) is_name_byte = false.
Proof.
  rewrite <-(eq_ignore_length _ _ (plain_name _ _ _ _ _ _ _ _ _ H)). unfold plain_input.
  rewrite app_assoc, <-length_app.
  destruct gap1 as [|b l] eqn:E; simpl; rewrite lookup_middle_app; cbn.
  - pose proof (plain_sign _ _ _ _ _ _ _ _ _ H) as Hs. by apply byte_classes in Hs as [_ ?].
  - pose proof (plain_gap1 _ _ _ _ _ _ _ _ _ H) as Hg. apply Forall_cons in Hg as [Hg _].
    by apply byte_classes in Hg.
Qed.

Lemma plain_candidate :
  assignment_of input name kind (length pre)
  = Some (Candidate.mk (plain_start pre spelled gap1 gap2 quote)
            (plain_start pre spelled gap1 gap2 quote + length value) kind).
Proof.
  pose proof (eq_ignore_length _ _ (plain_name _ _ _ _ _ _ _ _ _ H)) as Hn.
  unfold assignment_of. rewrite plain_found. unfold assignment_at.
  rewrite before_is_eq by (unfold plain_input; rewrite length_app; lia). rewrite plain_before_false.
  rewrite !at_is_eq, plain_longer_false. cbn [rbind orb]. rewrite <-Hn.
  destruct (byte_classes sign) as [Hs _]. destruct (Hs (plain_sign _ _ _ _ _ _ _ _ _ H)) as [Hsb _].
  assert (skip_while is_blank input (length pre + length spelled) = length (pre ++ spelled ++ gap1)) as ->.
  { unfold plain_input. rewrite app_assoc, <-length_app, skip_while_app; [|apply H|done].
    rewrite !length_app. lia. }
  assert (input !! length (pre ++ spelled ++ gap1) = Some sign) as ->.
  { unfold plain_input. rewrite !app_assoc. apply lookup_middle_app. }
  cbn [is_some_and]. rewrite (plain_sign _ _ _ _ _ _ _ _ _ H). cbn [negb].
  assert (input = (pre ++ spelled ++ gap1 ++ [sign]) ++ gap2 ++ option_list quote ++ value ++ post) as Hi.
  { unfold plain_input. by rewrite <-!app_assoc. }
  assert (skip_while is_blank input (length (pre ++ spelled ++ gap1) + 1)
          = length (pre ++ spelled ++ gap1 ++ [sign] ++ gap2)) as ->.
  { rewrite Hi. replace (length (pre ++ spelled ++ gap1) + 1)%nat with (length (pre ++ spelled ++ gap1 ++ [sign]))
      by (rewrite !length_app; simpl; lia).
    rewrite skip_while_app; [rewrite !length_app; simpl; lia|apply H|apply plain_after_gap2]. }
  set (p := pre ++ spelled ++ gap1 ++ [sign] ++ gap2).
  assert (input = p ++ option_list quote ++ value ++ post) as Hi'.
  { unfold plain_input, p. by rewrite <-!app_assoc. }
  assert (match input !! length p with
          | Some b => if contains (byte_N b) [39; 34]%N then Some b else None
          | None => None end = quote) as ->.
  { rewrite Hi'. pose proof (plain_quote _ _ _ _ _ _ _ _ _ H) as Hq. destruct quote as [q|].
    - change (option_list (Some q)) with [q]. cbn [app]. rewrite lookup_middle_app. by rewrite Hq.
    - change (option_list (@None byte)) with (@nil byte). cbn [app].
      pose proof (plain_length _ _ _ _ _ _ _ _ _ H) as Hl. destruct value as [|v value']; [simpl in Hl; lia|].
      cbn [app]. rewrite lookup_middle_app. cbn [head is_some_and] in Hq. by rewrite Hq. }
  assert ((if is_some quote then length p + 1 else length p)%nat = length (p ++ option_list quote)) as ->.
  { rewrite length_app. destruct quote; simpl; lia. }
  assert (plain_start pre spelled gap1 gap2 quote = length (p ++ option_list quote)) as ->.
  { unfold plain_start, p. rewrite !length_app. simpl. lia. }
  rewrite Hi', app_assoc, skip_while_app by apply H.
  replace (length (p ++ option_list quote) + length value - length (p ++ option_list quote))%nat
    with (length value) by lia.
  by rewrite (proj2 (Nat.leb_le _ _) (plain_length _ _ _ _ _ _ _ _ _ H)).
Qed.
End plain.

(** ** Tags *)

Lemma one_u32 : (1 <= U32_MAX)%N.
Proof. by vm_compute. Qed.

Lemma encode_bytes_ok t b : t <> ""%string -> (str_len t <= U64_MAX)%N -> (len b <= U64_MAX)%N ->
  exists e, encode t 1 (Bytes b) = Ok e.
Proof. intros Ht Hl Hb. apply encode_unique_ok; [done|done|by constructor|constructor]. Qed.

Lemma keyed_tag_encoded mac purpose claims key tag :
  keyed_tag mac purpose claims key = Ok tag ->
  exists e, encode purpose 1 claims = Ok e /\ mac (DeviceKey.bytes key) e = tag.
Proof.
  unfold keyed_tag, hmac_sha256. rewrite map_err_ok, rbind_ok.
  intros (e & He & [= <-]). by exists e.
Qed.

Lemma tag_purpose mac key purpose purpose' claims claims' tag e :
  (forall m m', mac (DeviceKey.bytes key) m = mac (DeviceKey.bytes key) m' -> m = m') ->
  keyed_tag mac purpose claims key = Ok tag -> value_ok claims -> value_ok claims' ->
  encode purpose' 1 claims' = Ok e -> mac (DeviceKey.bytes key) e = tag -> purpose = purpose'.
Proof.
  intros Hinj (e' & He' & <-)%keyed_tag_encoded Hv Hv' He Hm%Hinj. subst e'.
  by destruct (encode_inj _ _ _ _ _ _ _ Hv Hv' one_u32 one_u32 He' He).
Qed.

(** Redaction piece by piece. *)
Lemma protect_pieces mac input key :
  (len input <= U64_MAX)%N ->
  exists p pieces tail, protect mac input key = Ok p /\
  input = pieces_input pieces tail /\
  ProtectedPayload.protected_bytes p = pieces_output pieces tail /\
  positions 0 pieces = span_range <$> ProtectedPayload.spans p /\
  Forall (fun piece => piece.2 <> []) pieces /\
  ProtectedPayload.raw_length p = len input /\
  (ProtectedPayload.protected_secret_digest p = None <-> ProtectedPayload.spans p = []).
Proof.
  intros Hlen. destruct (protect_ok mac input key Hlen) as (cs & p & Hcs & Hp & Hs & Hr & _ & Ho & Hd).
  destruct (detect_candidates_fits input) as (cf & Hcf & Hf & _). rewrite Hcs in Hcf. injection Hcf as <-.
  destruct (resolve_overlaps_spec input cs Hf) as (Hl & _). rewrite <-Hs in Hl.
  destruct (redact_from_pieces _ _ _ Hl) as (pieces & tail & Ho' & Hi & Hpos & Hne).
  rewrite Ho in Ho'. injection Ho' as Ho'. by exists p, pieces, tail.
Qed.

(** ** Theorems *)

(** Redaction never fails and touches nothing but the secrets.  Every payload
    whose length is a machine integer is protected, without panic; it is a
    sequence of gaps and non-empty secrets at the recorded spans, the protected
    bytes are the same gaps with the token in place of each secret, the raw
    length is kept, and a keyed digest is made exactly when something was
    replaced. *)
Theorem redaction_exact mac input key :
  (len input <= U64_MAX)%N ->
  exists p pieces tail, protect mac input key = Ok p /\
  input = pieces_input pieces tail /\
  ProtectedPayload.protected_bytes p = pieces_output pieces tail /\
  positions 0 pieces = span_range <$> ProtectedPayload.spans p /\
  Forall (fun piece => piece.2 <> []) pieces /\
  ProtectedPayload.raw_length p = len input /\
  (ProtectedPayload.protected_secret_digest p = None <-> ProtectedPayload.spans p = []).
Proof. apply protect_pieces. Qed.

(** The assignment scanner misses no position.  For every name of the table
    the loop, which jumps over each match, returns what trying every position of
    the payload returns, in order. *)
Theorem assignment_scan_complete input name kind output :
  (name, kind) ∈ ASSIGNMENTS ->
  detect_assignment input name kind output = Ok (output ++ assignments input name kind 0).
Proof.
  intros H. pose proof ASSIGNMENTS_names as HA. rewrite Forall_forall in HA.
  destruct (HA _ H) as [Hn Hb]. apply assignment_loop_eq; [done|done|lia|lia].
Qed.

(** No plain assignment is overlooked.  When a payload holds a name of the
    table, in any case and not inside a longer word, a sign and a value of at
    least eight bytes, bare or quoted, then some span shares a byte with the
    value; the span is at least as important as an assignment, and when it is
    not more important it is at least as long as the value. *)
Theorem plain_assignment_covered mac key pre name spelled gap1 sign gap2 quote value post kind p :
  (name, kind) ∈ ASSIGNMENTS ->
  plain_assignment pre name spelled gap1 sign gap2 quote value post ->
  protect mac (plain_input pre spelled gap1 sign gap2 quote value post) key = Ok p ->
  let start := plain_start pre spelled gap1 gap2 quote in
  exists s, s ∈ ProtectedPayload.spans p /\
  (RedactionSpan.start s < start + length value)%nat /\ (start < RedactionSpan.end_ s)%nat /\
  (SecretKind.priority kind <= SecretKind.priority (RedactionSpan.kind s))%N /\
  (SecretKind.priority kind = SecretKind.priority (RedactionSpan.kind s) ->
   length value <= RedactionSpan.end_ s - RedactionSpan.start s)%nat.
Proof.
  intros Hin Hplain Hp. cbv zeta. destruct (detect_candidates_fits
    (plain_input pre spelled gap1 sign gap2 quote value post)) as (cs & Hcs & _ & Hall).
  specialize (Hall _ _ _ _ Hin (plain_candidate _ _ _ _ _ _ _ _ _ kind Hplain)).
  destruct (covered _ _ _ _ _ _ Hp Hcs Hall) as (s & Hs & Ha & Hle).
  exists (span_of s). split; [done|]. apply apart_false in Ha. apply candidate_le_spec in Hle. cbv zeta in Hle.
  unfold size in Hle. cbn in *. lia.
Qed.

(** A call tag authenticates one call and nothing else.  If the MAC under the
    device key separates messages, the tag of an MCP call verifies for exactly
    that call, never as the tag of a recovery ticket, and is never the token of
    a recovery path or of recovered content, although one key makes them all. *)
Theorem call_tag_separated mac key input tag :
  (forall m m', mac (DeviceKey.bytes key) m = mac (DeviceKey.bytes key) m' -> m = m') ->
  mcp_call_auth_tag mac input key = Ok tag ->
  (forall other, (len other <= U64_MAX)%N ->
     verify_mcp_call_auth_tag mac other key tag = Ok (other ==? input)) /\
  (forall claims, value_ok claims -> verify_recovery_ticket_auth_tag mac claims key tag <> Ok true) /\
  (forall other, recovery_path_token mac other key <> Ok tag /\
     recovery_content_token mac other key <> Ok tag) /\
  (forall claims, value_ok claims -> recovery_ticket_auth_tag mac claims key <> Ok tag).
Proof.
  intros Hinj Htag. split; [|split; [|split]].
  - intros other Hlen. destruct (encode_bytes_ok "evertrace.mcp_canonical_call" other) as [e He]; [done..|].
    unfold verify_mcp_call_auth_tag, verify_tag. rewrite He. cbn. f_equal.
    apply bool_decide_ext. split.
    + intros <-. destruct (keyed_tag_encoded _ _ _ _ _ Htag) as (e' & He' & Hm).
      apply Hinj in Hm as <-.
      destruct (encode_inj _ _ _ _ _ _ _ (ok_bytes _) (ok_bytes _) one_u32 one_u32 He He') as (_ & _ & Hs).
      by inversion Hs.
    + intros ->. destruct (keyed_tag_encoded _ _ _ _ _ Htag) as (e' & He' & Hm). congruence.
  - intros claims Hv H. unfold verify_recovery_ticket_auth_tag, verify_tag in H.
    apply rbind_ok in H as (e & He%map_err_ok & [= Hm%bool_decide_eq_true_1]).
    discriminate (tag_purpose mac key _ _ _ _ _ e Hinj Htag (ok_bytes _) Hv He Hm).
  - intros other; split; intros H; destruct (keyed_tag_encoded _ _ _ _ _ H) as (e & He & Hm);
      discriminate (tag_purpose mac key _ _ _ _ _ e Hinj Htag (ok_bytes _) (ok_bytes other) He Hm).
  - intros claims Hv H. destruct (keyed_tag_encoded _ _ _ _ _ H) as (e & He & Hm).
    discriminate (tag_purpose mac key _ _ _ _ _ e Hinj Htag (ok_bytes _) Hv He Hm).
Qed.

(** ** Witnesses *)

Definition sample_key : DeviceKey := DeviceKey.mk 1 [].
Definition zero_mac (key message : list byte) : list byte := replicate 32 x00.
Definition sample_payload : list byte := as_bytes "user=me; Password : 'correct horse'; done".

Lemma redaction_exact_witness :
  exists p pieces tail, protect zero_mac sample_payload sample_key = Ok p /\
  sample_payload = pieces_input pieces tail /\
  ProtectedPayload.protected_bytes p = pieces_output pieces tail /\
  positions 0 pieces = span_range <$> ProtectedPayload.spans p /\
  Forall (fun piece => piece.2 <> []) pieces /\
  ProtectedPayload.raw_length p = len sample_payload /\
  (ProtectedPayload.protected_secret_digest p = None <-> ProtectedPayload.spans p = []).
Proof. apply redaction_exact. vm_compute. discriminate. Defined.

Lemma password_named : (as_bytes "password", SecretKind.Credential) ∈ ASSIGNMENTS.
Proof. apply (bool_decide_unpack _). by vm_compute. Qed.

Lemma assignment_scan_complete_witness :
  detect_assignment sample_payload (as_bytes "password") SecretKind.Credential []
  = Ok ([] ++ assignments sample_payload (as_bytes "password") SecretKind.Credential 0).
Proof. exact (assignment_scan_complete _ _ _ [] password_named). Defined.

Definition sample_protected : ProtectedPayload :=
  ProtectedPayload.mk (as_bytes "user=me; Password : '[REDACTED]'; done") 41
    [RedactionSpan.mk 21 34 SecretKind.Credential] 1 1 1 (Some (replicate 32 x00)).

Lemma plain_assignment_covered_witness :
  exists s, s ∈ ProtectedPayload.spans sample_protected /\
  (RedactionSpan.start s < 21 + 13)%nat /\ (21 < RedactionSpan.end_ s)%nat /\
  (1 <= SecretKind.priority (RedactionSpan.kind s))%N /\
  (1%N = SecretKind.priority (RedactionSpan.kind s) ->
   13 <= RedactionSpan.end_ s - RedactionSpan.start s)%nat.
Proof.
  apply (plain_assignment_covered zero_mac sample_key (as_bytes "user=me; ") (as_bytes "password")
    (as_bytes "Password") (as_bytes " ") ":"%byte (as_bytes " ") (Some "'"%byte) (as_bytes "correct horse")
    (as_bytes "'; done") SecretKind.Credential).
  - apply password_named.
  - by split; try (apply (bool_decide_unpack _); by vm_compute); vm_compute; auto with lia.
  - by vm_compute.
Defined.

Lemma call_tag_separated_witness :
  verify_mcp_call_auth_tag (fun _ message => message) (as_bytes "call") sample_key
    (match mcp_call_auth_tag (fun _ message => message) (as_bytes "call") sample_key with
     | Ok tag => tag | Err _ => [] end) = Ok true /\
  verify_mcp_call_auth_tag (fun _ message => message) (as_bytes "cell") sample_key
    (match mcp_call_auth_tag (fun _ message => message) (as_bytes "call") sample_key with
     | Ok tag => tag | Err _ => [] end) = Ok false.
Proof.
  destruct (call_tag_separated (fun _ message => message) sample_key (as_bytes "call")
    (match mcp_call_auth_tag (fun _ message => message) (as_bytes "call") sample_key with
     | Ok tag => tag | Err _ => [] end)) as [H _]; [done|by vm_compute|].
  split; [rewrite (H (as_bytes "call"))|rewrite (H (as_bytes "cell"))]; by vm_compute.
Defined.

(** A secret that is only partly overlapped by a more important one is dropped as
    a whole, so that the rest of it stays in the clear. *)
Definition leaking_payload : list byte :=
  as_bytes "password='my hunter2 Authorization: Bearer abcdefgh1234 tail of it'".

Lemma overlapped_secret_leaks mac key :
  Candidate.mk 10 66 SecretKind.Credential ∈
    assignments leaking_payload (as_bytes "password") SecretKind.Credential 0 /\
  exists p, protect mac leaking_payload key = Ok p /\
  ProtectedPayload.protected_bytes p
  = as_bytes "password='my hunter2 Authorization: Bearer [REDACTED] tail of it'".
Proof.
  split; [apply (bool_decide_unpack _); by vm_compute|]. eexists. split; by vm_compute.
Qed.
