(* ===== verification/SpoolFrame.v ===== *)
(** * Spool frames (crates/evertrace-capture/src/frame.rs)

    The durable record format between the hook process, which appends frames to
    a spool segment, and the daemon, which scans the segment after a crash.
    [encode_frame] is the writer, [scan_frames] the reader.  The theorems are
    the crash contract of the format: a segment that ends in a torn write is
    read back as exactly the complete frames, and whatever the reader accepts is
    byte for byte what the writer produces. *)

From S2P Require Import Prelude Order Collections Text.

Definition MAGIC : list byte := as_bytes "ETSPL001".
Definition COMMIT_TRAILER : list byte := as_bytes "ETCOMMIT".
Definition SPOOL_FRAME_VERSION : N := 1.
Definition MAX_RECORD_BODY : N := 1048576.
Definition PREFIX_LENGTH : N := 8 + 2 + 4 + 8 + 32.

Record SpoolRecord := mkSpoolRecord {
  spool_generation : N;
  spool_record_id : string;
  source_observation_id : string;
  cas_refs : list string;
  record_body : list byte;
}.

#[export] Instance SpoolRecord_eq_dec : EqDecision SpoolRecord.
Proof. solve_decision. Defined.

Record DecodedFrame := mkDecodedFrame {
  record : SpoolRecord;
  frame_length : N;
}.

Record FrameScan := mkFrameScan {
  frames : list DecodedFrame;
  complete_length : N;
  incomplete_tail : bool;
}.

Inductive SpoolFrameError := Invalid | Corrupt | Oversize | Serialization | LegacyUnsupported.

Definition blen (l : list byte) : N := N.of_nat (length l).

(** [slice[from..from + count]]. *)
Definition sub_bytes (from count : N) (l : list byte) : list byte :=
  take (N.to_nat count) (drop (N.to_nat from) l).

Definition valid_digest (value : string) : bool :=
  (str_len value =? 64)%N && all (fun b => is_ascii_digit b || is_hex_lower b) (as_bytes value).

Definition valid_text (value : string) : bool :=
  negb (str_is_empty value) && (str_len value <=? 256)%N
  && all (fun b => negb (byte_N b =? 0)%N && negb (is_ascii_control b)) (as_bytes value).

Definition validate_record (r : SpoolRecord) : result SpoolFrameError unit :=
  guard ((spool_generation r =? 0)%N
    || str_is_empty (spool_record_id r)
    || (256 <? str_len (spool_record_id r))%N
    || str_is_empty (source_observation_id r)
    || (256 <? str_len (source_observation_id r))%N
    || (MAX_RECORD_BODY <? blen (record_body r))%N
    || negb (all_unique (cas_refs r))
    || any (fun value => negb (str_len value =? 64)%N
         || negb (all (fun b => is_ascii_digit b || is_hex_lower b) (as_bytes value))) (cas_refs r))
    Invalid.

Definition put_string (value : string) : result SpoolFrameError (list byte) :=
  if (str_len value <=? U16_MAX)%N
  then Ok (to_be_bytes 2 (str_len value) ++ as_bytes value) else Err Oversize.

(** ** The header cursor *)

Definition cursor_take (length : N) (remaining : list byte)
    : result SpoolFrameError (list byte * list byte) :=
  if (blen remaining <? length)%N then Err Corrupt
  else Ok (take (N.to_nat length) remaining, drop (N.to_nat length) remaining).

Definition cursor_uint (width : N) (remaining : list byte)
    : result SpoolFrameError (N * list byte) :=
  let? p := cursor_take width remaining in Ok (from_be_bytes p.1, p.2).

Definition cursor_u16 := cursor_uint 2.
Definition cursor_u64 := cursor_uint 8.

Definition cursor_string (remaining : list byte) : result SpoolFrameError (string * list byte) :=
  let? n := cursor_u16 remaining in
  let? p := cursor_take n.1 n.2 in
  let? s := ok_or (from_utf8 p.1) Corrupt in
  Ok (s, p.2).

(** [for _ in 0..ref_count { let raw = cursor.take(64)?; ... }]. *)
Fixpoint cursor_refs (count : nat) (remaining : list byte)
    : result SpoolFrameError (list string * list byte) :=
  match count with
  | O => Ok ([], remaining)
  | S count =>
      let? p := cursor_take 64 remaining in
      let? s := ok_or (from_utf8 p.1) Corrupt in
      let? q := cursor_refs count p.2 in
      Ok (s :: q.1, q.2)
  end.

Record Header := mkHeader {
  protocol_version : N;
  header_generation : N;
  header_record_id : string;
  header_observation_id : string;
  header_cas_refs : list string;
  payload_length : N;
}.

Definition decode_header (bytes : list byte) : result SpoolFrameError Header :=
  let? v := cursor_u16 bytes in
  let? g := cursor_u64 v.2 in
  let? r := cursor_string g.2 in
  let? o := cursor_string r.2 in
  let? n := cursor_u16 o.2 in
  let? c := cursor_refs (N.to_nat n.1) n.2 in
  let? p := cursor_u64 c.2 in
  do? guard (negb (is_empty p.2)) Corrupt in
  Ok (mkHeader v.1 g.1 r.1 o.1 c.1 p.1).

(** ** Writer and reader *)

Section frames.
(** SHA-256 (crate [sha2]). *)
Context (digest : list byte -> list byte).

Definition checksum (header body : list byte) : list byte :=
  digest (as_bytes "evertrace.spool.frame.v1"
    ++ to_be_bytes 8 (blen header) ++ header ++ to_be_bytes 8 (blen body) ++ body).

Definition encode_header (r : SpoolRecord) (payload_length : N)
    : result SpoolFrameError (list byte) :=
  let? id := put_string (spool_record_id r) in
  let? obs := put_string (source_observation_id r) in
  let? refs := (if (N.of_nat (length (cas_refs r)) <=? U16_MAX)%N
    then Ok (to_be_bytes 2 (N.of_nat (length (cas_refs r)))) else Err Oversize) in
  Ok (to_be_bytes 2 SPOOL_FRAME_VERSION ++ to_be_bytes 8 (spool_generation r)
      ++ id ++ obs ++ refs ++ concat (as_bytes <$> cas_refs r) ++ to_be_bytes 8 payload_length).

Definition encode_frame (r : SpoolRecord) : result SpoolFrameError (list byte) :=
  do? validate_record r in
  let payload_length := blen (record_body r) in
  do? guard (U64_MAX <? payload_length)%N Oversize in
  let? header := encode_header r payload_length in
  do? guard (U32_MAX <? blen header)%N Oversize in
  Ok (MAGIC ++ to_be_bytes 2 SPOOL_FRAME_VERSION ++ to_be_bytes 4 (blen header)
      ++ to_be_bytes 8 payload_length ++ checksum header (record_body r)
      ++ header ++ record_body r ++ COMMIT_TRAILER).

(** One round of the scanning loop: [Ok None] is the torn tail. *)
Definition scan_one (remaining : list byte) : result SpoolFrameError (option DecodedFrame) :=
  if (blen remaining <? PREFIX_LENGTH)%N then
    if negb (starts_with MAGIC (take (Nat.min (length remaining) (length MAGIC)) remaining))
    then Err Corrupt else Ok None
  else
    do? guard (sub_bytes 0 8 remaining !=? MAGIC) Corrupt in
    do? guard (negb (from_be_bytes (sub_bytes 8 2 remaining) =? SPOOL_FRAME_VERSION)%N) Corrupt in
    let header_length := from_be_bytes (sub_bytes 10 4 remaining) in
    let body_length := from_be_bytes (sub_bytes 14 8 remaining) in
    do? guard (MAX_RECORD_BODY <? body_length)%N Oversize in
    let? a := ok_or (checked_add_u64 PREFIX_LENGTH header_length) Oversize in
    let? b := ok_or (checked_add_u64 a body_length) Oversize in
    let? frame_length := ok_or (checked_add_u64 b (blen COMMIT_TRAILER)) Oversize in
    if (blen remaining <? frame_length)%N then Ok None
    else
      let header_bytes := sub_bytes PREFIX_LENGTH header_length remaining in
      let body := sub_bytes (PREFIX_LENGTH + header_length) body_length remaining in
      let trailer := sub_bytes (PREFIX_LENGTH + header_length + body_length)
        (blen COMMIT_TRAILER) remaining in
      do? guard ((trailer !=? COMMIT_TRAILER)
        || (sub_bytes 22 32 remaining !=? checksum header_bytes body)) Corrupt in
      let? h := decode_header header_bytes in
      let record := mkSpoolRecord (header_generation h) (header_record_id h)
        (header_observation_id h) (header_cas_refs h) body in
      do? guard (negb (protocol_version h =? SPOOL_FRAME_VERSION)%N
        || negb (payload_length h =? body_length)%N
        || is_err (validate_record record)) Corrupt in
      Ok (Some (mkDecodedFrame record frame_length)).

(** The loop, on the bytes from [offset] on.  [None] is running out of fuel. *)
Fixpoint scan_loop (fuel : nat) (offset : N) (remaining : list byte) (acc : list DecodedFrame)
    : option (result SpoolFrameError FrameScan) :=
  match fuel with
  | O => None
  | S fuel =>
      match remaining with
      | [] => Some (Ok (mkFrameScan acc offset false))
      | _ :: _ =>
          match scan_one remaining with
          | Err e => Some (Err e)
          | Ok None => Some (Ok (mkFrameScan acc offset true))
          | Ok (Some f) =>
              scan_loop fuel (offset + frame_length f)
                (drop (N.to_nat (frame_length f)) remaining) (acc ++ [f])
          end
      end
  end.

(** Every accepted frame is at least one byte long, so one round per byte is
    enough; [scan_total] shows that the fuel never runs out. *)
Definition scan_frames (bytes : list byte) : result SpoolFrameError FrameScan :=
  match scan_loop (S (length bytes)) 0 bytes [] with
  | Some r => r
  | None => Err Corrupt
  end.
End frames.

(** ** Byte-slice lemmas *)

(** Goals [n < 256 ^ w] for a machine integer [n]. *)
Ltac width_lia := unfold U64_MAX, U32_MAX, U16_MAX, SPOOL_FRAME_VERSION in *; simpl in *; lia.

#[local] Opaque to_be_bytes N_byte.

Lemma blen_app a b : blen (a ++ b) = (blen a + blen b)%N.
Proof. unfold blen. rewrite length_app. lia. Qed.
Lemma blen_be w n : blen (to_be_bytes w n) = N.of_nat w.
Proof. unfold blen. by rewrite length_to_be_bytes. Qed.
Lemma blen_as_bytes s : blen (as_bytes s) = str_len s.
Proof. done. Qed.

Lemma take_N_app n (a b : list byte) : blen a = n -> take (N.to_nat n) (a ++ b) = a.
Proof. intros <-. unfold blen. rewrite Nat2N.id. by rewrite take_app_length. Qed.
Lemma drop_N_app n (a b : list byte) : blen a = n -> drop (N.to_nat n) (a ++ b) = b.
Proof. intros <-. unfold blen. rewrite Nat2N.id. by rewrite drop_app_length. Qed.

Lemma sub_bytes_app from count a b c :
  blen a = from -> blen b = count -> sub_bytes from count (a ++ b ++ c) = b.
Proof. intros. unfold sub_bytes. rewrite drop_N_app by done. by apply take_N_app. Qed.

(** Reading a slice and going on behind it. *)
Lemma drop_sub from count l :
  drop (N.to_nat from) l = sub_bytes from count l ++ drop (N.to_nat (from + count)) l.
Proof.
  unfold sub_bytes. rewrite N2Nat.inj_add, <-drop_drop. by rewrite take_drop.
Qed.

Lemma blen_sub from count l : (from + count <= blen l)%N -> blen (sub_bytes from count l) = count.
Proof.
  intros H. unfold blen, sub_bytes in *. rewrite length_take, length_drop. lia.
Qed.

Lemma from_be_bytes_bound w l : blen l = N.of_nat w -> (from_be_bytes l < 256 ^ N.of_nat w)%N.
Proof. intros H. rewrite <-H. apply from_be_bytes_lt. Qed.

Lemma to_from_be w l : blen l = N.of_nat w -> to_be_bytes w (from_be_bytes l) = l.
Proof. intros H. apply to_from_be_bytes. unfold blen in H. lia. Qed.

(** ** Cursor lemmas: each reader inverts its writer, in both directions *)

Lemma cursor_take_app n a b : blen a = n -> cursor_take n (a ++ b) = Ok (a, b).
Proof.
  intros H. unfold cursor_take. rewrite blen_app.
  destruct (N.ltb_spec (blen a + blen b) n); [lia|]. by rewrite take_N_app, drop_N_app.
Qed.

Lemma cursor_take_ok n l a b : cursor_take n l = Ok (a, b) -> l = a ++ b /\ blen a = n.
Proof.
  unfold cursor_take. destruct (N.ltb_spec (blen l) n); [done|]. intros [= <- <-].
  split; [by rewrite take_drop|]. unfold blen in *. rewrite length_take. lia.
Qed.

Lemma cursor_uint_app w n l :
  (n < 256 ^ N.of_nat w)%N -> cursor_uint (N.of_nat w) (to_be_bytes w n ++ l) = Ok (n, l).
Proof.
  intros H. unfold cursor_uint. rewrite cursor_take_app by apply blen_be. simpl.
  by rewrite from_to_be_bytes.
Qed.

Lemma cursor_uint_ok w l n r :
  cursor_uint (N.of_nat w) l = Ok (n, r) -> l = to_be_bytes w n ++ r /\ (n < 256 ^ N.of_nat w)%N.
Proof.
  unfold cursor_uint. intros ([a b] & [-> Hl]%cursor_take_ok & [= <- <-])%rbind_ok. simpl.
  rewrite to_from_be by done. split; [done|]. by apply from_be_bytes_bound.
Qed.

Lemma cursor_string_app s bs l :
  str_ok s -> put_string s = Ok bs -> cursor_string (bs ++ l) = Ok (s, l).
Proof.
  unfold put_string. intros Hs. destruct (N.leb_spec (str_len s) U16_MAX) as [Hle|]; [|done].
  intros H. assert (bs = to_be_bytes 2 (str_len s) ++ as_bytes s) as -> by congruence.
  unfold cursor_string, cursor_u16. change 2%N with (N.of_nat 2). rewrite <-app_assoc, cursor_uint_app.
  - simpl. rewrite cursor_take_app by done. simpl. by rewrite from_utf8_as_bytes.
  - unfold U16_MAX in *. simpl. lia.
Qed.

Lemma cursor_string_ok l s r :
  cursor_string l = Ok (s, r) -> exists bs, put_string s = Ok bs /\ l = bs ++ r /\ str_ok s.
Proof.
  unfold cursor_string, cursor_u16. change 2%N with (N.of_nat 2).
  intros ([n l1] & [-> Hn]%cursor_uint_ok & H)%rbind_ok.
  apply rbind_ok in H as ([a b] & Ht & H). simpl in Ht. apply cursor_take_ok in Ht as [-> Ha].
  apply rbind_ok in H as (s' & Hs & [= <- <-]). apply ok_or_ok, from_utf8_Some in Hs as [Hv Hs].
  simpl in *. assert (Hlen : str_len s' = n) by (unfold str_len; rewrite Hs; done).
  exists (to_be_bytes 2 n ++ a). unfold put_string. rewrite Hlen, Hs, <-app_assoc.
  destruct (N.leb_spec n U16_MAX); [|unfold U16_MAX in *; simpl in Hn; lia].
  split; [done|]. split; [done|]. unfold str_ok. by rewrite Hs.
Qed.

Definition ref_ok (s : string) : Prop := str_len s = 64%N /\ str_ok s.

Lemma cursor_refs_app refs l :
  Forall ref_ok refs ->
  cursor_refs (length refs) (concat (as_bytes <$> refs) ++ l) = Ok (refs, l).
Proof.
  induction 1 as [|s refs [Hl Hs] _ IH]; [done|].
  rewrite fmap_cons. cbn [length cursor_refs concat].
  rewrite <-app_assoc, cursor_take_app by done. cbn [rbind fst snd].
  rewrite from_utf8_as_bytes by done. cbn [rbind ok_or]. by rewrite IH.
Qed.

Lemma cursor_refs_ok count l refs r :
  cursor_refs count l = Ok (refs, r) ->
  l = concat (as_bytes <$> refs) ++ r /\ length refs = count /\ Forall ref_ok refs.
Proof.
  revert l refs r. induction count as [|count IH]; intros l refs r; simpl.
  { intros [= <- <-]. repeat split; constructor. }
  intros ([a b] & [-> Ha]%cursor_take_ok & H)%rbind_ok.
  apply rbind_ok in H as (s & [Hv Hs]%ok_or_ok%from_utf8_Some & H).
  apply rbind_ok in H as ([qs q] & (Hq & Hlen & Hok)%IH & [= <- <-]). simpl in *.
  rewrite Hs, Hq, <-app_assoc, Hlen. repeat split; [constructor; [|done]].
  split; [unfold str_len; by rewrite Hs|unfold str_ok; by rewrite Hs].
Qed.

(** ** Header and frame lemmas *)

(** What the Rust types of a record guarantee. *)
Definition record_ok (r : SpoolRecord) : Prop :=
  (spool_generation r <= U64_MAX)%N /\ str_ok (spool_record_id r) /\ str_ok (source_observation_id r).

Lemma hex_valid s :
  all (fun b => is_ascii_digit b || is_hex_lower b) (as_bytes s) = true -> str_ok s.
Proof.
  rewrite all_true. intros H. apply ascii_valid. eapply Forall_impl; [exact H|].
  unfold is_ascii_digit, is_hex_lower. intros b Hb.
  rewrite orb_true_iff, !andb_true_iff, !N.leb_le in Hb. simpl. lia.
Qed.

Lemma validate_record_refs r : validate_record r = Ok tt -> Forall ref_ok (cas_refs r).
Proof.
  unfold validate_record. rewrite guard_ok, !orb_false_iff, any_false. intros [_ H].
  eapply Forall_impl; [exact H|]. intros s. simpl. rewrite orb_false_iff, !negb_false_iff, N.eqb_eq.
  intros [Hl Hh]. split; [done|by apply hex_valid].
Qed.

Lemma encode_header_ok r p h :
  encode_header r p = Ok h <-> exists id obs,
    put_string (spool_record_id r) = Ok id /\ put_string (source_observation_id r) = Ok obs /\
    (N.of_nat (length (cas_refs r)) <= U16_MAX)%N /\
    h = to_be_bytes 2 SPOOL_FRAME_VERSION ++ to_be_bytes 8 (spool_generation r)
      ++ id ++ obs ++ to_be_bytes 2 (N.of_nat (length (cas_refs r)))
      ++ concat (as_bytes <$> cas_refs r) ++ to_be_bytes 8 p.
Proof.
  unfold encode_header. split.
  - intros (id & Hid & (obs & Ho & (refs & Hr & H)%rbind_ok)%rbind_ok)%rbind_ok.
    destruct (N.leb_spec (N.of_nat (length (cas_refs r))) U16_MAX); [|done].
    exists id, obs. repeat split; [done..|]. congruence.
  - intros (id & obs & -> & -> & Hr & ->). cbn [rbind].
    destruct (N.leb_spec (N.of_nat (length (cas_refs r))) U16_MAX); [done|lia].
Qed.

Lemma decode_encode_header r p h :
  record_ok r -> Forall ref_ok (cas_refs r) -> (p <= U64_MAX)%N -> encode_header r p = Ok h ->
  decode_header h = Ok (mkHeader SPOOL_FRAME_VERSION (spool_generation r) (spool_record_id r)
    (source_observation_id r) (cas_refs r) p).
Proof.
  intros (Hg & Hid & Hobs) Hrefs Hp (id & obs & Ei & Eo & Hn & ->)%encode_header_ok.
  unfold decode_header, cursor_u16, cursor_u64.
  change 2%N with (N.of_nat 2). change 8%N with (N.of_nat 8).
  rewrite cursor_uint_app by width_lia. cbn [rbind fst snd].
  rewrite cursor_uint_app by width_lia. cbn [rbind fst snd].
  rewrite (cursor_string_app _ _ _ Hid Ei). cbn [rbind fst snd].
  rewrite (cursor_string_app _ _ _ Hobs Eo). cbn [rbind fst snd].
  rewrite cursor_uint_app by width_lia. cbn [rbind fst snd]. rewrite Nat2N.id.
  rewrite cursor_refs_app by done. cbn [rbind fst snd].
  rewrite <-(app_nil_r (to_be_bytes 8 p)), cursor_uint_app by width_lia. done.
Qed.

Lemma encode_decode_header h hd body :
  decode_header h = Ok hd -> protocol_version hd = SPOOL_FRAME_VERSION ->
  let r := mkSpoolRecord (header_generation hd) (header_record_id hd)
    (header_observation_id hd) (header_cas_refs hd) body in
  encode_header r (payload_length hd) = Ok h /\ record_ok r.
Proof.
  unfold decode_header, cursor_u16, cursor_u64.
  change 2%N with (N.of_nat 2). change 8%N with (N.of_nat 8).
  intros ([v l0] & [-> Hv]%cursor_uint_ok & H)%rbind_ok; cbn [fst snd] in H.
  apply rbind_ok in H as ([g l1] & [-> Hg]%cursor_uint_ok & H); cbn [fst snd] in H.
  apply rbind_ok in H as ([id l2] & (ib & Hib & -> & Hid)%cursor_string_ok & H); cbn [fst snd] in H.
  apply rbind_ok in H as ([obs l3] & (ob & Hob & -> & Hobs)%cursor_string_ok & H); cbn [fst snd] in H.
  apply rbind_ok in H as ([n l4] & [-> Hn]%cursor_uint_ok & H); cbn [fst snd] in H.
  apply rbind_ok in H as ([refs l5] & (-> & Hlen & Hrefs)%cursor_refs_ok & H); cbn [fst snd] in H.
  apply rbind_ok in H as ([p l6] & [-> Hp]%cursor_uint_ok & H); cbn [fst snd] in H.
  apply rbind_ok in H as ([] & Hnil & H). apply guard_ok, negb_false_iff, is_empty_true in Hnil as ->.
  intros Hver. inversion H; subst hd; clear H. simpl in *. subst v.
  assert (Hrl : N.of_nat (length refs) = n) by lia.
  split.
  - apply encode_header_ok. exists ib, ob. simpl. rewrite Hrl.
    split_and!; [done|done|width_lia|by rewrite app_nil_r].
  - split_and!; [width_lia|done..].
Qed.

Lemma sub_bytes_eq l from count a b c :
  l = a ++ b ++ c -> blen a = from -> blen b = count -> sub_bytes from count l = b.
Proof. intros ->. apply sub_bytes_app. Qed.

Lemma read_slices a b c d e rest :
  blen a = 8%N -> blen b = 2%N -> blen c = 4%N -> blen d = 8%N -> blen e = 32%N ->
  let l := a ++ b ++ c ++ d ++ e ++ rest in
  sub_bytes 0 8 l = a /\ sub_bytes 8 2 l = b /\ sub_bytes 10 4 l = c /\
  sub_bytes 14 8 l = d /\ sub_bytes 22 32 l = e.
Proof.
  intros Ha Hb Hc Hd He l. split_and!.
  - by apply (sub_bytes_eq l 0 8 [] a (b ++ c ++ d ++ e ++ rest)).
  - by apply (sub_bytes_eq l 8 2 a b (c ++ d ++ e ++ rest)).
  - apply (sub_bytes_eq l 10 4 (a ++ b) c (d ++ e ++ rest)); [by rewrite <-app_assoc| |done].
    rewrite blen_app. lia.
  - apply (sub_bytes_eq l 14 8 (a ++ b ++ c) d (e ++ rest)); [by rewrite <-!app_assoc| |done].
    rewrite !blen_app. lia.
  - apply (sub_bytes_eq l 22 32 (a ++ b ++ c ++ d) e rest); [by rewrite <-!app_assoc| |done].
    rewrite !blen_app. lia.
Qed.

Section frame_lemmas.
Context (digest : list byte -> list byte).
Hypothesis digest_length : forall l, length (digest l) = 32%nat.

Definition frame_prefix (h body : list byte) : list byte :=
  MAGIC ++ to_be_bytes 2 SPOOL_FRAME_VERSION ++ to_be_bytes 4 (blen h)
  ++ to_be_bytes 8 (blen body) ++ checksum digest h body.

Definition frame_bytes (h body : list byte) : list byte :=
  frame_prefix h body ++ h ++ body ++ COMMIT_TRAILER.

Lemma blen_checksum h body : blen (checksum digest h body) = 32%N.
Proof. unfold blen, checksum. by rewrite digest_length. Qed.

Lemma blen_prefix h body : blen (frame_prefix h body) = PREFIX_LENGTH.
Proof. unfold frame_prefix. by rewrite !blen_app, !blen_be, blen_checksum. Qed.

Lemma blen_frame h body : blen (frame_bytes h body) = (PREFIX_LENGTH + blen h + blen body + 8)%N.
Proof.
  unfold frame_bytes. rewrite !blen_app, blen_prefix. change (blen COMMIT_TRAILER) with 8%N. lia.
Qed.

Lemma encode_frame_ok r f :
  encode_frame digest r = Ok f <-> validate_record r = Ok tt /\ exists h,
    encode_header r (blen (record_body r)) = Ok h /\ (blen h <= U32_MAX)%N /\
    (blen (record_body r) <= U64_MAX)%N /\ f = frame_bytes h (record_body r).
Proof.
  unfold encode_frame, frame_bytes, frame_prefix. split.
  - intros ([] & Hv & ([] & Hp%guard_ok & (h & Hh & ([] & Hl%guard_ok & H)%rbind_ok)%rbind_ok)%rbind_ok)%rbind_ok.
    apply N.ltb_ge in Hp, Hl. split; [done|]. exists h. split_and!; [done..|].
    rewrite <-!app_assoc. congruence.
  - intros (-> & h & -> & Hl & Hp & ->). cbn [rbind].
    unfold guard. destruct (N.ltb_spec U64_MAX (blen (record_body r))); [lia|]. cbn [rbind].
    destruct (N.ltb_spec U32_MAX (blen h)); [lia|]. by rewrite <-!app_assoc.
Qed.

Lemma validate_record_body r :
  validate_record r = Ok tt -> (blen (record_body r) <= MAX_RECORD_BODY)%N.
Proof.
  unfold validate_record. rewrite guard_ok, !orb_false_iff. intros (((((((_ & _) & _) & _) & _) & H) & _) & _).
  by apply N.ltb_ge in H.
Qed.

(** The fields of the fixed prefix, read back from any byte string that
    starts with it. *)
Lemma read_prefix h body rest :
  let l := frame_prefix h body ++ rest in
  (blen h <= U32_MAX)%N -> (blen body <= U64_MAX)%N ->
  sub_bytes 0 8 l = MAGIC /\ from_be_bytes (sub_bytes 8 2 l) = SPOOL_FRAME_VERSION /\
  from_be_bytes (sub_bytes 10 4 l) = blen h /\ from_be_bytes (sub_bytes 14 8 l) = blen body /\
  sub_bytes 22 32 l = checksum digest h body.
Proof.
  intros l Hh Hb. unfold l, frame_prefix. rewrite <-!app_assoc.
  destruct (read_slices MAGIC (to_be_bytes 2 SPOOL_FRAME_VERSION) (to_be_bytes 4 (blen h))
    (to_be_bytes 8 (blen body)) (checksum digest h body) rest) as (-> & -> & -> & -> & ->);
    [done|apply blen_be..|apply blen_checksum|].
  rewrite !from_to_be_bytes by width_lia. done.
Qed.

(** The part of [scan_one] behind the length checks. *)
Definition scan_payload (l : list byte) (header_length body_length : N)
    : result SpoolFrameError (option DecodedFrame) :=
  let header_bytes := sub_bytes PREFIX_LENGTH header_length l in
  let body := sub_bytes (PREFIX_LENGTH + header_length) body_length l in
  let trailer := sub_bytes (PREFIX_LENGTH + header_length + body_length) 8 l in
  do? guard ((trailer !=? COMMIT_TRAILER)
    || (sub_bytes 22 32 l !=? checksum digest header_bytes body)) Corrupt in
  let? h := decode_header header_bytes in
  let record := mkSpoolRecord (header_generation h) (header_record_id h)
    (header_observation_id h) (header_cas_refs h) body in
  do? guard (negb (protocol_version h =? SPOOL_FRAME_VERSION)%N
    || negb (payload_length h =? body_length)%N || is_err (validate_record record)) Corrupt in
  Ok (Some (mkDecodedFrame record (PREFIX_LENGTH + header_length + body_length + 8))).

Lemma scan_one_prefix h body rest :
  let l := frame_prefix h body ++ rest in
  (blen h <= U32_MAX)%N -> (blen body <= MAX_RECORD_BODY)%N ->
  scan_one digest l =
    if (blen l <? PREFIX_LENGTH + blen h + blen body + 8)%N then Ok None
    else scan_payload l (blen h) (blen body).
Proof.
  intros l Hh Hb. unfold scan_one.
  assert (Hp : (PREFIX_LENGTH <= blen l)%N) by (unfold l; rewrite blen_app, blen_prefix; lia).
  destruct (N.ltb_spec (blen l) PREFIX_LENGTH); [lia|].
  destruct (read_prefix h body rest) as (E1 & E2 & E3 & E4 & E5);
    [done|unfold MAX_RECORD_BODY, U64_MAX in *; lia|]. fold l in E1, E2, E3, E4, E5.
  rewrite E1, E2, E3, E4. rewrite bool_decide_eq_true_2 by done. cbn [guard negb rbind].
  change (SPOOL_FRAME_VERSION =? SPOOL_FRAME_VERSION)%N with true. cbn [guard negb rbind].
  unfold guard at 1. destruct (N.ltb_spec MAX_RECORD_BODY (blen body)); [lia|]. cbn [rbind].
  change (blen COMMIT_TRAILER) with 8%N.
  unfold MAX_RECORD_BODY, U32_MAX, PREFIX_LENGTH in *.
  rewrite !(proj2 (checked_add_u64_Some _ _ _)) by (split; [reflexivity|unfold U64_MAX; lia]).
  cbn [ok_or rbind].
  rewrite !(proj2 (checked_add_u64_Some _ _ _)) by (split; [reflexivity|unfold U64_MAX; lia]).
  cbn [ok_or rbind].
  rewrite !(proj2 (checked_add_u64_Some _ _ _)) by (split; [reflexivity|unfold U64_MAX; lia]).
  cbn [ok_or rbind]. reflexivity.
Qed.

Lemma scan_one_frame r f rest :
  record_ok r -> encode_frame digest r = Ok f ->
  scan_one digest (f ++ rest) = Ok (Some (mkDecodedFrame r (blen f))).
Proof.
  intros Hr (Hv & h & Hh & Hl & Hp & ->)%encode_frame_ok.
  pose proof (validate_record_body r Hv) as Hb. rewrite blen_frame.
  unfold frame_bytes. rewrite <-!app_assoc. rewrite scan_one_prefix by done.
  rewrite !blen_app, blen_prefix. change (blen COMMIT_TRAILER) with 8%N.
  destruct (N.ltb_spec (PREFIX_LENGTH + (blen h + (blen (record_body r) + (8 + blen rest))))
    (PREFIX_LENGTH + blen h + blen (record_body r) + 8)); [lia|].
  unfold scan_payload. set (body := record_body r) in *.
  destruct (read_prefix h body (h ++ body ++ COMMIT_TRAILER ++ rest)) as (_ & _ & _ & _ & ->); [done..|].
  rewrite (sub_bytes_eq _ PREFIX_LENGTH (blen h) (frame_prefix h body) h (body ++ COMMIT_TRAILER ++ rest))
    by (done || apply blen_prefix).
  rewrite (sub_bytes_eq _ (PREFIX_LENGTH + blen h) (blen body) (frame_prefix h body ++ h) body
    (COMMIT_TRAILER ++ rest)) by (rewrite ?blen_app, ?blen_prefix, <-?app_assoc; done).
  rewrite (sub_bytes_eq _ (PREFIX_LENGTH + blen h + blen body) 8 (frame_prefix h body ++ h ++ body)
    COMMIT_TRAILER rest) by (rewrite ?blen_app, ?blen_prefix, <-?app_assoc; (done || lia)).
  rewrite !bool_decide_eq_true_2 by done. cbn [guard negb orb rbind].
  rewrite (decode_encode_header r (blen body) h) by (done || by apply validate_record_refs).
  cbn [rbind]. simpl payload_length. simpl protocol_version. rewrite !N.eqb_refl.
  replace (mkSpoolRecord _ _ _ _ _) with r by by destruct r.
  assert (Hv' : is_err (validate_record r) = false) by by rewrite Hv. rewrite Hv'. done.
Qed.

Lemma scan_one_torn r f p q :
  encode_frame digest r = Ok f -> f = p ++ q -> q <> [] -> scan_one digest p = Ok None.
Proof.
  intros (Hv & h & Hh & Hl & Hp & ->)%encode_frame_ok Hpq Hq.
  pose proof (validate_record_body r Hv) as Hb. set (body := record_body r) in *.
  assert (Hlen : (blen p < PREFIX_LENGTH + blen h + blen body + 8)%N).
  { rewrite <-blen_frame, Hpq, blen_app. destruct q; [done|]. unfold blen; simpl. lia. }
  destruct (N.ltb_spec (blen p) PREFIX_LENGTH) as [Hs|Hs].
  - unfold scan_one. destruct (N.ltb_spec (blen p) PREFIX_LENGTH); [|lia].
    assert (starts_with MAGIC (take (Nat.min (length p) (length MAGIC)) p) = true) as ->; [|done].
    apply starts_with_true. exists (drop (Nat.min (length p) (length MAGIC)) MAGIC).
    assert (Htake : take (Nat.min (length p) (length MAGIC)) p
      = take (Nat.min (length p) (length MAGIC)) MAGIC).
    { transitivity (take (Nat.min (length p) (length MAGIC)) (frame_bytes h body)).
      - rewrite Hpq, take_app_le by lia. done.
      - unfold frame_bytes, frame_prefix. rewrite <-!app_assoc, take_app_le by lia. done. }
    rewrite Htake. by rewrite take_drop.
  - assert (exists rest, p = frame_prefix h body ++ rest) as [rest ->].
    { exists (drop (length (frame_prefix h body)) p).
      rewrite <-(take_drop (length (frame_prefix h body)) p) at 1. f_equal.
      transitivity (take (length (frame_prefix h body)) (frame_bytes h body)).
      - rewrite Hpq, take_app_le; [done|]. pose proof (blen_prefix h body). unfold blen in *. lia.
      - unfold frame_bytes. by rewrite take_app_length. }
    rewrite scan_one_prefix by done.
    destruct (N.ltb_spec (blen (frame_prefix h body ++ rest))
      (PREFIX_LENGTH + blen h + blen body + 8)); [done|lia].
Qed.

Lemma decompose l hl bl :
  l = sub_bytes 0 8 l ++ sub_bytes 8 2 l ++ sub_bytes 10 4 l ++ sub_bytes 14 8 l ++ sub_bytes 22 32 l
    ++ sub_bytes PREFIX_LENGTH hl l ++ sub_bytes (PREFIX_LENGTH + hl) bl l
    ++ sub_bytes (PREFIX_LENGTH + hl + bl) 8 l ++ drop (N.to_nat (PREFIX_LENGTH + hl + bl + 8)) l.
Proof.
  rewrite <-(drop_sub (PREFIX_LENGTH + hl + bl) 8), <-(drop_sub (PREFIX_LENGTH + hl) bl),
    <-(drop_sub PREFIX_LENGTH hl).
  change PREFIX_LENGTH with (22 + 32)%N. rewrite <-(drop_sub 22 32).
  change 22%N with (14 + 8)%N at 1. rewrite <-(drop_sub 14 8).
  change 14%N with (10 + 4)%N at 1. rewrite <-(drop_sub 10 4).
  change 10%N with (8 + 2)%N at 1. rewrite <-(drop_sub 8 2).
  change 8%N with (0 + 8)%N at 2. rewrite <-(drop_sub 0 8). done.
Qed.

(** What passes the checks of [scan_one] is a frame of the writer. *)
Lemma scan_one_sound l d :
  scan_one digest l = Ok (Some d) ->
  exists f rest, l = f ++ rest /\ blen f = frame_length d /\
    encode_frame digest (record d) = Ok f /\ record_ok (record d).
Proof.
  unfold scan_one. destruct (N.ltb_spec (blen l) PREFIX_LENGTH) as [|Hlen]; [by destruct (negb _)|].
  intros ([] & Hm%guard_ok & H)%rbind_ok. apply negb_false_iff, bool_decide_eq_true in Hm.
  apply rbind_ok in H as ([] & Hver%guard_ok & H). apply negb_false_iff, N.eqb_eq in Hver.
  apply rbind_ok in H as ([] & Hmax%guard_ok & H). apply N.ltb_ge in Hmax.
  set (hl := from_be_bytes (sub_bytes 10 4 l)) in *. set (bl := from_be_bytes (sub_bytes 14 8 l)) in *.
  apply rbind_ok in H as (a & [-> _]%ok_or_ok%checked_add_u64_Some & H).
  apply rbind_ok in H as (b & [-> _]%ok_or_ok%checked_add_u64_Some & H).
  apply rbind_ok in H as (fl & [-> _]%ok_or_ok%checked_add_u64_Some & H).
  change (blen COMMIT_TRAILER) with 8%N in H.
  destruct (N.ltb_spec (blen l) (PREFIX_LENGTH + hl + bl + 8)) as [|Hfl]; [done|].
  apply rbind_ok in H as ([] & Hg%guard_ok & H). apply orb_false_iff in Hg as [Ht Hc].
  apply negb_false_iff, bool_decide_eq_true in Ht, Hc.
  apply rbind_ok in H as (hd & Hd & H). apply rbind_ok in H as ([] & Hg%guard_ok & H).
  rewrite !orb_false_iff, !negb_false_iff, !N.eqb_eq, is_err_false in Hg. destruct Hg as [[Hpv Hpl] Hvr].
  assert (Hbh : blen (sub_bytes PREFIX_LENGTH hl l) = hl) by (apply blen_sub; lia).
  assert (Hbb : blen (sub_bytes (PREFIX_LENGTH + hl) bl l) = bl) by (apply blen_sub; lia).
  assert (E10 : to_be_bytes 4 hl = sub_bytes 10 4 l)
    by (apply to_from_be, blen_sub; unfold PREFIX_LENGTH in *; lia).
  assert (E14 : to_be_bytes 8 bl = sub_bytes 14 8 l)
    by (apply to_from_be, blen_sub; unfold PREFIX_LENGTH in *; lia).
  pose proof (decompose l hl bl) as Hl.
  set (h := sub_bytes PREFIX_LENGTH hl l) in *. set (body := sub_bytes (PREFIX_LENGTH + hl) bl l) in *.
  inversion H; subst d; clear H. simpl.
  destruct (encode_decode_header h hd body Hd Hpv) as [He Hok]. rewrite Hpl in He.
  exists (frame_bytes h body), (drop (N.to_nat (PREFIX_LENGTH + hl + bl + 8)) l). split_and!.
  - rewrite Hl at 1. rewrite Hm, Ht, Hc. unfold frame_bytes, frame_prefix. rewrite <-!app_assoc, Hbh, Hbb.
    rewrite <-Hver, to_from_be by (apply blen_sub; unfold PREFIX_LENGTH in *; lia).
    by rewrite E10, E14.
  - by rewrite blen_frame, Hbh, Hbb.
  - apply encode_frame_ok. split; [done|]. exists h. simpl. rewrite Hbb. split_and!; [done| |..|done].
    + rewrite Hbh. assert (hl < 256 ^ N.of_nat 4)%N; [|width_lia].
      apply from_be_bytes_bound, blen_sub. unfold PREFIX_LENGTH in *. lia.
    + unfold MAX_RECORD_BODY, U64_MAX in *. lia.
  - done.
Qed.
End frame_lemmas.

Section scan.
Context (digest : list byte -> list byte).
Hypothesis digest_length : forall l, length (digest l) = 32%nat.

(** [r] is a record the writer accepts and [f] its frame. *)
Definition written (r : SpoolRecord) (f : list byte) : Prop :=
  record_ok r /\ encode_frame digest r = Ok f.

(** What a crash during an append leaves behind the last complete frame. *)
Definition torn (tail : list byte) : Prop :=
  tail = [] \/ exists r f q, encode_frame digest r = Ok f /\ f = tail ++ q /\ q <> [].

Definition decoded (r : SpoolRecord) (f : list byte) : DecodedFrame := mkDecodedFrame r (blen f).

Lemma written_nonempty r f : written r f -> f <> [].
Proof.
  intros [_ (_ & h & _ & _ & _ & ->)%encode_frame_ok]. intros Hnil.
  pose proof (blen_frame digest digest_length h (record_body r)) as H. rewrite Hnil in H.
  unfold blen, PREFIX_LENGTH in H. simpl in H. lia.
Qed.

Lemma scan_loop_frames rs fs tail fuel off acc :
  Forall2 written rs fs ->
  scan_loop digest (length fs + fuel) off (concat fs ++ tail) acc =
    scan_loop digest fuel (off + blen (concat fs)) tail (acc ++ zip_with decoded rs fs).
Proof.
  intros H. revert off acc. induction H as [|r f rs fs Hw _ IH]; intros off acc; simpl.
  { unfold blen; simpl. by rewrite N.add_0_r, app_nil_r. }
  rewrite <-app_assoc. pose proof (written_nonempty r f Hw) as Hne.
  destruct Hw as [Hok He]. rewrite (scan_one_frame digest digest_length r f) by done.
  destruct (f ++ concat fs ++ tail) as [|b l] eqn:E; [by destruct f|].
  rewrite <-E. simpl. rewrite drop_N_app by done. rewrite IH, blen_app.
  f_equal; [lia|]. by rewrite <-app_assoc.
Qed.

Lemma scan_loop_total fuel off l acc :
  (length l < fuel)%nat -> scan_loop digest fuel off l acc <> None.
Proof.
  revert off l acc. induction fuel as [|fuel IH]; intros off l acc Hl; [lia|]. simpl.
  destruct l as [|b l]; [done|].
  destruct (scan_one digest (b :: l)) as [[d|]|e] eqn:E; [|done..].
  apply IH. destruct (scan_one_sound digest digest_length _ _ E) as (f & rest & Hf & Hlen & He & Hok).
  pose proof (written_nonempty _ _ (conj Hok He)) as Hne.
  rewrite Hf, drop_N_app by done. rewrite Hf, length_app in Hl. destruct f; [done|]. simpl in Hl. lia.
Qed.

Lemma scan_loop_sound fuel off l acc s :
  scan_loop digest fuel off l acc = Some (Ok s) ->
  exists ds fs tail, l = concat fs ++ tail /\ frames s = acc ++ ds /\
    Forall2 (fun d f => written (record d) f /\ frame_length d = blen f) ds fs /\
    complete_length s = (off + blen (concat fs))%N /\ incomplete_tail s = negb (is_empty tail).
Proof.
  revert off l acc. induction fuel as [|fuel IH]; intros off l acc H; simpl in H; [done|].
  assert (Hstop : forall b t, s = mkFrameScan acc off b -> b = negb (is_empty t) ->
    exists ds fs tail, t = concat fs ++ tail /\ frames s = acc ++ ds /\
    Forall2 (fun d f => written (record d) f /\ frame_length d = blen f) ds fs /\
    complete_length s = (off + blen (concat fs))%N /\ incomplete_tail s = negb (is_empty tail)).
  { intros b t -> ->. exists [], [], t. simpl. rewrite app_nil_r. unfold blen; simpl.
    rewrite N.add_0_r. split_and!; by try constructor. }
  destruct l as [|b l]; [by apply (Hstop false); [inversion H|]|].
  destruct (scan_one digest (b :: l)) as [[d|]|e] eqn:E.
  - destruct (scan_one_sound digest digest_length _ _ E) as (f & rest & Hf & Hlen & He & Hok).
    rewrite Hf, drop_N_app in H by done. apply IH in H as (ds & fs & tail & -> & Hfr & Hds & Hcl & Hit).
    exists (d :: ds), (f :: fs), tail. simpl. rewrite Hf, <-app_assoc, Hfr, <-app_assoc.
    rewrite blen_app, Hlen, Hit, Hcl. split_and!; [done..| |lia|done]. constructor; done.
  - by apply (Hstop true); [inversion H|].
  - done.
Qed.
End scan.

Lemma scan_written digest rs fs tail :
  (forall l, length (digest l) = 32%nat) ->
  Forall2 (written digest) rs fs -> torn digest tail ->
  scan_frames digest (concat fs ++ tail) =
    Ok (mkFrameScan (zip_with decoded rs fs) (blen (concat fs)) (negb (is_empty tail))).
Proof.
  intros Hd Hw Ht. unfold scan_frames.
  assert (Hfuel : exists n, S (length (concat fs ++ tail)) = (length fs + S n)%nat).
  { assert (length fs <= length (concat fs))%nat.
    { clear Ht. induction Hw as [|r f rs fs Hf _ IH]; simpl; [lia|]. rewrite length_app.
      pose proof (written_nonempty digest Hd r f Hf). destruct f; [done|]. simpl. lia. }
    exists (length (concat fs ++ tail) - length fs)%nat. rewrite length_app. lia. }
  destruct Hfuel as [n ->]. rewrite (scan_loop_frames digest Hd rs) by done. simpl. destruct tail as [|b t]; [done|].
  destruct Ht as [?|(r & f & q & He & Hf & Hq)]; [done|].
  by rewrite (scan_one_torn digest Hd r f (b :: t) q).
Qed.

Lemma scan_frames_sound digest bytes s :
  (forall l, length (digest l) = 32%nat) -> scan_frames digest bytes = Ok s ->
  exists fs tail, bytes = concat fs ++ tail /\
    Forall2 (fun d f => written digest (record d) f /\ frame_length d = blen f) (frames s) fs /\
    complete_length s = blen (concat fs) /\ incomplete_tail s = negb (is_empty tail).
Proof.
  intros Hd. unfold scan_frames. destruct (scan_loop _ _ _ _ _) as [r|] eqn:E; [|done].
  intros ->. apply scan_loop_sound in E as (ds & fs & tail & -> & Hf & Hds & Hc & Ht); [|done].
  exists fs, tail. simpl in Hf. rewrite Hf. done.
Qed.

(** ** Theorems *)

(** C7: crash recovery of a spool segment.  A segment that holds the frames of
    any accepted records, followed by nothing or by a proper prefix of one more
    frame, is scanned as exactly those records in order; [complete_length] is
    the end of the last complete frame and the torn tail is reported. *)
Theorem scan_recovers digest rs fs tail :
  (forall l, length (digest l) = 32%nat) ->
  Forall2 (written digest) rs fs -> torn digest tail ->
  scan_frames digest (concat fs ++ tail) =
    Ok (mkFrameScan (zip_with decoded rs fs) (blen (concat fs)) (negb (is_empty tail))).
Proof. apply scan_written. Qed.

Definition zero_digest (l : list byte) : list byte := replicate 32 x00.
Definition sample_record : SpoolRecord :=
  mkSpoolRecord 1 "rec-1" "obs-1" [String.concat "" (replicate 16 "0af9")] [x01; x02].
Definition sample_frame : list byte :=
  match encode_frame zero_digest sample_record with Ok f => f | Err _ => [] end.

Lemma scan_recovers_witness :
  scan_frames zero_digest (concat [sample_frame; sample_frame] ++ take 60 sample_frame) =
    Ok (mkFrameScan (zip_with decoded [sample_record; sample_record] [sample_frame; sample_frame])
      (blen (concat [sample_frame; sample_frame])) true).
Proof.
  assert (Hw : written zero_digest sample_record sample_frame).
  { split; [split_and!; vm_compute; (discriminate || reflexivity)|vm_compute; reflexivity]. }
  refine (scan_recovers zero_digest [sample_record; sample_record] [sample_frame; sample_frame]
    (take 60 sample_frame) _ _ _).
  - intros l. reflexivity.
  - repeat constructor; apply Hw.
  - right. exists sample_record, sample_frame, (drop 60 sample_frame).
    split; [apply Hw|]. split; [by rewrite take_drop|vm_compute; discriminate].
Defined.

(** The reader accepts nothing but what the writer produces.  When a scan
    succeeds, the scanned bytes up to [complete_length] are the concatenation of
    the writer's frames of the returned records, each of which passes
    [validate_record], and the tail flag says whether bytes are left over. *)
Theorem scan_sound digest bytes s :
  (forall l, length (digest l) = 32%nat) -> scan_frames digest bytes = Ok s ->
  exists fs tail, bytes = concat fs ++ tail /\
    Forall2 (fun d f => encode_frame digest (record d) = Ok f /\ frame_length d = blen f)
      (frames s) fs /\
    complete_length s = blen (concat fs) /\ incomplete_tail s = negb (is_empty tail).
Proof.
  intros Hd (fs & tail & -> & Hds & Hc & Ht)%scan_frames_sound; [|done].
  exists fs, tail. split_and!; [done| |done|done].
  eapply Forall2_impl; [exact Hds|]. intros d f [[_ ?] ?]. done.
Qed.

Lemma scan_sound_witness :
  exists fs tail, sample_frame ++ [x45] = concat fs ++ tail /\
    Forall2 (fun d f => encode_frame zero_digest (record d) = Ok f /\ frame_length d = blen f)
      [decoded sample_record sample_frame] fs /\
    blen sample_frame = blen (concat fs) /\ true = negb (is_empty tail).
Proof.
  exact (scan_sound zero_digest (sample_frame ++ [x45])
    (mkFrameScan [decoded sample_record sample_frame] (blen sample_frame) true)
    (fun l => eq_refl) ltac:(vm_compute; reflexivity)).
Defined.

(** Scanning terminates: on every byte string the loop of [scan_frames]
    reaches a result within one round per byte, so the fuel of the model never
    decides the outcome. *)
Theorem scan_terminates digest bytes :
  (forall l, length (digest l) = 32%nat) ->
  exists r, scan_loop digest (S (length bytes)) 0 bytes [] = Some r /\ scan_frames digest bytes = r.
Proof.
  intros Hd. unfold scan_frames.
  pose proof (scan_loop_total digest Hd (S (length bytes)) 0 bytes [] ltac:(lia)).
  destruct (scan_loop _ _ _ _ _); [eauto|done].
Qed.

Lemma scan_terminates_witness :
  exists r, scan_loop zero_digest (S (length (as_bytes "ETSPL"))) 0 (as_bytes "ETSPL") [] = Some r /\
    scan_frames zero_digest (as_bytes "ETSPL") = r.
Proof. exact (scan_terminates zero_digest (as_bytes "ETSPL") (fun l => eq_refl)). Defined.
