(* ===== verification/Ids.v ===== *)
(** * Object and revision identifiers

    [evertrace-domain/src/ids.rs] and the identifier part of [revision.rs]:
    the families of UUIDv7 and digest identifiers, their text forms, the
    dispatch of [AnyPublicId] over the family prefix, and [OrganizeTarget].
    The [uuid] crate is a parameter: the class [UuidLib] holds the four
    functions the code calls, [UuidLaws] what it relies on. *)

From S2P Require Import Prelude Order Collections Text.
From Stdlib Require Import Ascii.

(** ** UUIDs

    A [Uuid] is its sixteen bytes read as a 128-bit integer; the derived order
    of the bytes is the order of these integers. *)

Record Uuid := mk_uuid { as_u128 : N }.
#[export] Instance Uuid_eq_dec : EqDecision Uuid.
Proof. solve_decision. Defined.
Lemma as_u128_inj u v : as_u128 u = as_u128 v -> u = v.
Proof. destruct u, v; simpl; congruence. Qed.
#[export] Instance Ord_Uuid : Ord Uuid := Ord_by as_u128 as_u128_inj.

Definition uuid_wf (u : Uuid) : Prop := (as_u128 u < 256 ^ 16)%N.

Class UuidLib := {
  parse_str : string -> option Uuid;
  hyphenated : Uuid -> string;
  get_version_num : Uuid -> N;
  variant_is_rfc4122 : Uuid -> bool;
}.

(** What the [uuid] crate documents: parsing yields sixteen bytes, the
    hyphenated form of a UUID is not empty and parses back to the UUID. *)
Class UuidLaws (L : UuidLib) := {
  parse_str_wf s u : parse_str s = Some u -> uuid_wf u;
  parse_hyphenated u : uuid_wf u -> parse_str (hyphenated u) = Some u;
  hyphenated_not_empty u : str_is_empty (hyphenated u) = false;
}.

(** ** Identifier families *)

Inductive IdParseError :=
| MissingSeparator
| EmptyPayload
| WrongFamily
| UnknownFamily
| InvalidUuid
| WrongUuidVersion
| WrongUuidVariant
| NonCanonicalUuid
| InvalidDigest
| ProjectionNotOrganizable.

(** The families declared with [uuid_id!], [digest_id!] and [internal_uuid_id!]. *)
Inductive family :=
| FCaptureReceipt
| FCaptureOutageInterval
| FOperation
| FScopeEffect
| FWorkBindingRevision
| FProcedureUsage
| FProcedureNegativeEvidence
| FSemanticDigest
| FSemanticDerivationRun
| FRepository
| FWorktree
| FWorktreeSnapshot
| FWorktreeTransition
| FIntegrationEvent
| FRecoveryCaptureRequest
| FRecoveryBundle
| FRecoveryApplication
| FTask
| FWorkstream
| FExecutionLane
| FWorkEpisode
| FOperationBurst
| FAttempt
| FCompetingAttemptGroup
| FExperimentRun
| FResultEvidence
| FAtom
| FProcedure
| FRevisionProposal
| FCoreMembership
| FWorkArtifact
| FDuplicateGroup
| FRecallNeed
| FPresentationAttempt.
#[export] Instance family_eq_dec : EqDecision family.
Proof. solve_decision. Defined.

Definition FAMILY (f : family) : string :=
  match f with
  | FCaptureReceipt => "cap"
  | FCaptureOutageInterval => "outage"
  | FOperation => "op"
  | FScopeEffect => "se"
  | FWorkBindingRevision => "wb"
  | FProcedureUsage => "puse"
  | FProcedureNegativeEvidence => "pneg"
  | FSemanticDigest => "sdig"
  | FSemanticDerivationRun => "srun"
  | FRepository => "repo"
  | FWorktree => "wt"
  | FWorktreeSnapshot => "wts"
  | FWorktreeTransition => "wtt"
  | FIntegrationEvent => "int"
  | FRecoveryCaptureRequest => "recreq"
  | FRecoveryBundle => "rec"
  | FRecoveryApplication => "recapp"
  | FTask => "task"
  | FWorkstream => "ws"
  | FExecutionLane => "lane"
  | FWorkEpisode => "ep"
  | FOperationBurst => "burst"
  | FAttempt => "att"
  | FCompetingAttemptGroup => "cmp"
  | FExperimentRun => "run"
  | FResultEvidence => "result"
  | FAtom => "atom"
  | FProcedure => "proc"
  | FRevisionProposal => "proposal"
  | FCoreMembership => "coremem"
  | FWorkArtifact => "art"
  | FDuplicateGroup => "dup"
  | FRecallNeed => "need"
  | FPresentationAttempt => "present"
  end.

Inductive dfamily :=
| DSourceObservation
| DHostOccurrence
| DSourceReceipt
| DWikiProjection
| DCoreProjection
| DScenario
| DCas.
#[export] Instance dfamily_eq_dec : EqDecision dfamily.
Proof. solve_decision. Defined.

Definition DFAMILY (f : dfamily) : string :=
  match f with
  | DSourceObservation => "obs"
  | DHostOccurrence => "occ"
  | DSourceReceipt => "src"
  | DWikiProjection => "wiki"
  | DCoreProjection => "core"
  | DScenario => "scenario"
  | DCas => "cas"
  end.

Inductive ifamily :=
| ICommand
| IJob
| IRequest.
#[export] Instance ifamily_eq_dec : EqDecision ifamily.
Proof. solve_decision. Defined.

(** An identifier carries its family as a phantom index, so that identifiers
    of two families cannot be confused, as with the newtypes of the source. *)
Record Id (f : family) := mk_id { as_uuid : Uuid }.
Arguments mk_id {f} _.
Arguments as_uuid {f} _.
Record DigestId (f : dfamily) := from_digest { as_digest : list byte }.
Arguments from_digest {f} _.
Arguments as_digest {f} _.
Record InternalId (f : ifamily) := mk_iid { iid_as_uuid : Uuid }.
Arguments mk_iid {f} _.
Arguments iid_as_uuid {f} _.

#[export] Instance Id_eq_dec {f} : EqDecision (Id f).
Proof. solve_decision. Defined.
#[export] Instance DigestId_eq_dec {f} : EqDecision (DigestId f).
Proof. solve_decision. Defined.
#[export] Instance InternalId_eq_dec {f} : EqDecision (InternalId f).
Proof. solve_decision. Defined.

Lemma as_uuid_inj {f} (x y : Id f) : as_uuid x = as_uuid y -> x = y.
Proof. destruct x, y; simpl; congruence. Qed.
Lemma as_digest_inj {f} (x y : DigestId f) : as_digest x = as_digest y -> x = y.
Proof. destruct x, y; simpl; congruence. Qed.
Lemma iid_as_uuid_inj {f} (x y : InternalId f) : iid_as_uuid x = iid_as_uuid y -> x = y.
Proof. destruct x, y; simpl; congruence. Qed.
#[export] Instance Ord_Id {f} : Ord (Id f) := Ord_by as_uuid as_uuid_inj.
#[export] Instance Ord_DigestId {f} : Ord (DigestId f) := Ord_by as_digest as_digest_inj.
#[export] Instance Ord_InternalId {f} : Ord (InternalId f) := Ord_by iid_as_uuid iid_as_uuid_inj.

(** [revision.rs]: the identifier of an immutable revision. *)
Record RevisionId := mk_rid { rid_as_uuid : Uuid }.
#[export] Instance RevisionId_eq_dec : EqDecision RevisionId.
Proof. solve_decision. Defined.
Lemma rid_as_uuid_inj x y : rid_as_uuid x = rid_as_uuid y -> x = y.
Proof. destruct x, y; simpl; congruence. Qed.
#[export] Instance Ord_RevisionId : Ord RevisionId := Ord_by rid_as_uuid rid_as_uuid_inj.

(** Keys of the maps of the store. *)
#[export] Program Instance Uuid_countable : Countable Uuid := inj_countable' as_u128 mk_uuid _.
Next Obligation. by intros []. Qed.
#[export] Program Instance Id_countable {f} : Countable (Id f) := inj_countable' as_uuid mk_id _.
Next Obligation. by intros ? []. Qed.
#[export] Program Instance byte_countable : Countable byte := inj_countable' byte_N N_byte _.
Next Obligation. apply byte_N_byte. Qed.
#[export] Program Instance DigestId_countable {f} : Countable (DigestId f) :=
  inj_countable' as_digest from_digest _.
Next Obligation. by intros ? []. Qed.
#[export] Program Instance RevisionId_countable : Countable RevisionId :=
  inj_countable' rid_as_uuid mk_rid _.
Next Obligation. by intros []. Qed.

Inductive RevisionIdError :=
| RevInvalidUuid
| RevWrongUuidVersion
| RevWrongUuidVariant.

Abbreviation CaptureReceiptId := (Id FCaptureReceipt).
Abbreviation CaptureOutageIntervalId := (Id FCaptureOutageInterval).
Abbreviation OperationId := (Id FOperation).
Abbreviation ScopeEffectId := (Id FScopeEffect).
Abbreviation WorkBindingRevisionId := (Id FWorkBindingRevision).
Abbreviation ProcedureUsageId := (Id FProcedureUsage).
Abbreviation ProcedureNegativeEvidenceId := (Id FProcedureNegativeEvidence).
Abbreviation SemanticDigestId := (Id FSemanticDigest).
Abbreviation SemanticDerivationRunId := (Id FSemanticDerivationRun).
Abbreviation RepositoryId := (Id FRepository).
Abbreviation WorktreeId := (Id FWorktree).
Abbreviation WorktreeSnapshotId := (Id FWorktreeSnapshot).
Abbreviation WorktreeTransitionId := (Id FWorktreeTransition).
Abbreviation IntegrationEventId := (Id FIntegrationEvent).
Abbreviation RecoveryCaptureRequestId := (Id FRecoveryCaptureRequest).
Abbreviation RecoveryBundleId := (Id FRecoveryBundle).
Abbreviation RecoveryApplicationId := (Id FRecoveryApplication).
Abbreviation TaskId := (Id FTask).
Abbreviation WorkstreamId := (Id FWorkstream).
Abbreviation ExecutionLaneId := (Id FExecutionLane).
Abbreviation WorkEpisodeId := (Id FWorkEpisode).
Abbreviation OperationBurstId := (Id FOperationBurst).
Abbreviation AttemptId := (Id FAttempt).
Abbreviation CompetingAttemptGroupId := (Id FCompetingAttemptGroup).
Abbreviation ExperimentRunId := (Id FExperimentRun).
Abbreviation ResultEvidenceId := (Id FResultEvidence).
Abbreviation AtomId := (Id FAtom).
Abbreviation ProcedureId := (Id FProcedure).
Abbreviation RevisionProposalId := (Id FRevisionProposal).
Abbreviation CoreMembershipId := (Id FCoreMembership).
Abbreviation WorkArtifactId := (Id FWorkArtifact).
Abbreviation DuplicateGroupId := (Id FDuplicateGroup).
Abbreviation RecallNeedId := (Id FRecallNeed).
Abbreviation PresentationAttemptId := (Id FPresentationAttempt).
Abbreviation SourceObservationId := (DigestId DSourceObservation).
Abbreviation HostOccurrenceId := (DigestId DHostOccurrence).
Abbreviation SourceReceiptId := (DigestId DSourceReceipt).
Abbreviation WikiProjectionId := (DigestId DWikiProjection).
Abbreviation CoreProjectionId := (DigestId DCoreProjection).
Abbreviation ScenarioId := (DigestId DScenario).
Abbreviation CasId := (DigestId DCas).
Abbreviation CommandId := (InternalId ICommand).
Abbreviation JobId := (InternalId IJob).
Abbreviation RequestId := (InternalId IRequest).

Inductive AnyPublicId :=
| AnySourceObservation (id : SourceObservationId)
| AnyHostOccurrence (id : HostOccurrenceId)
| AnySourceReceipt (id : SourceReceiptId)
| AnyCaptureReceipt (id : CaptureReceiptId)
| AnyCaptureOutageInterval (id : CaptureOutageIntervalId)
| AnyOperation (id : OperationId)
| AnyScopeEffect (id : ScopeEffectId)
| AnyWorkBindingRevision (id : WorkBindingRevisionId)
| AnyRepository (id : RepositoryId)
| AnyWorktree (id : WorktreeId)
| AnyWorktreeSnapshot (id : WorktreeSnapshotId)
| AnyWorktreeTransition (id : WorktreeTransitionId)
| AnyIntegrationEvent (id : IntegrationEventId)
| AnyRecoveryCaptureRequest (id : RecoveryCaptureRequestId)
| AnyRecoveryBundle (id : RecoveryBundleId)
| AnyRecoveryApplication (id : RecoveryApplicationId)
| AnyTask (id : TaskId)
| AnyWorkstream (id : WorkstreamId)
| AnyExecutionLane (id : ExecutionLaneId)
| AnyWorkEpisode (id : WorkEpisodeId)
| AnyOperationBurst (id : OperationBurstId)
| AnyAttempt (id : AttemptId)
| AnyCompetingAttemptGroup (id : CompetingAttemptGroupId)
| AnyExperimentRun (id : ExperimentRunId)
| AnyResultEvidence (id : ResultEvidenceId)
| AnyAtom (id : AtomId)
| AnyProcedure (id : ProcedureId)
| AnyRevisionProposal (id : RevisionProposalId)
| AnyCoreMembership (id : CoreMembershipId)
| AnySemanticDigest (id : SemanticDigestId)
| AnySemanticDerivationRun (id : SemanticDerivationRunId)
| AnyWikiProjection (id : WikiProjectionId)
| AnyCoreProjection (id : CoreProjectionId)
| AnyScenario (id : ScenarioId)
| AnyWorkArtifact (id : WorkArtifactId)
| AnyDuplicateGroup (id : DuplicateGroupId)
| AnyCas (id : CasId).

Definition any_family (v : AnyPublicId) : string :=
  match v with
  | AnySourceObservation _ => "obs"
  | AnyHostOccurrence _ => "occ"
  | AnySourceReceipt _ => "src"
  | AnyCaptureReceipt _ => "cap"
  | AnyCaptureOutageInterval _ => "outage"
  | AnyOperation _ => "op"
  | AnyScopeEffect _ => "se"
  | AnyWorkBindingRevision _ => "wb"
  | AnyRepository _ => "repo"
  | AnyWorktree _ => "wt"
  | AnyWorktreeSnapshot _ => "wts"
  | AnyWorktreeTransition _ => "wtt"
  | AnyIntegrationEvent _ => "int"
  | AnyRecoveryCaptureRequest _ => "recreq"
  | AnyRecoveryBundle _ => "rec"
  | AnyRecoveryApplication _ => "recapp"
  | AnyTask _ => "task"
  | AnyWorkstream _ => "ws"
  | AnyExecutionLane _ => "lane"
  | AnyWorkEpisode _ => "ep"
  | AnyOperationBurst _ => "burst"
  | AnyAttempt _ => "att"
  | AnyCompetingAttemptGroup _ => "cmp"
  | AnyExperimentRun _ => "run"
  | AnyResultEvidence _ => "result"
  | AnyAtom _ => "atom"
  | AnyProcedure _ => "proc"
  | AnyRevisionProposal _ => "proposal"
  | AnyCoreMembership _ => "coremem"
  | AnySemanticDigest _ => "sdig"
  | AnySemanticDerivationRun _ => "srun"
  | AnyWikiProjection _ => "wiki"
  | AnyCoreProjection _ => "core"
  | AnyScenario _ => "scenario"
  | AnyWorkArtifact _ => "art"
  | AnyDuplicateGroup _ => "dup"
  | AnyCas _ => "cas"
  end.

Inductive OrganizeTarget :=
| OrganizeAtom (id : AtomId)
| OrganizeProcedure (id : ProcedureId)
| OrganizeCoreMembership (id : CoreMembershipId).

(** ** Text forms *)

(** [str::split_once(c)]: the parts before and after the first [c]. *)
Fixpoint split_once (c : ascii) (s : string) : option (string * string) :=
  match s with
  | EmptyString => None
  | String a r =>
      if Ascii.eqb a c then Some (EmptyString, r)
      else match split_once c r with
           | Some (x, y) => Some (String a x, y)
           | None => None
           end
  end.

Definition split_family (value expected : string) : result IdParseError string :=
  let? p := ok_or (split_once ":"%char value) MissingSeparator in
  do? guard (p.1 !=? expected) WrongFamily in
  do? guard (str_is_empty p.2) EmptyPayload in
  Ok p.2.

(** [{byte:02x}] and [u8::from_str_radix(_, 16)] on two lower-case digits. *)
Definition hex_digit (n : N) : byte := N_byte (if (n <? 10)%N then 48 + n else 87 + n).
Definition hex_value (b : byte) : N :=
  (if is_ascii_digit b then byte_N b - 48 else byte_N b - 87)%N.
Definition is_hex (b : byte) : bool := is_ascii_digit b || is_hex_lower b.
Definition hex_byte (b : byte) : list byte :=
  [hex_digit (byte_N b / 16); hex_digit (byte_N b mod 16)].
Fixpoint hex_chunks (l : list byte) : list byte :=
  match l with
  | a :: b :: r => N_byte (hex_value a * 16 + hex_value b) :: hex_chunks r
  | _ => []
  end.

Definition parse_digest_payload (payload : string) : result IdParseError (list byte) :=
  do? guard ((str_len payload !=? 64%N) || negb (all is_hex (as_bytes payload))) InvalidDigest in
  Ok (hex_chunks (as_bytes payload)).

Definition write_digest (prefix : string) (digest : list byte) : string :=
  (prefix +:+ ":" +:+ of_bytes (digest ≫= hex_byte))%string.

Definition digest_from_str (f : dfamily) (value : string) : result IdParseError (DigestId f) :=
  let? payload := split_family value (DFAMILY f) in
  let? d := parse_digest_payload payload in Ok (from_digest d).

Definition digest_display {f} (id : DigestId f) : string := write_digest (DFAMILY f) (as_digest id).

Section uuids.
Context `{L : UuidLib}.

Definition validate_uuid (u : Uuid) : result IdParseError unit :=
  do? guard (get_version_num u !=? 7%N) WrongUuidVersion in
  guard (negb (variant_is_rfc4122 u)) WrongUuidVariant.

Definition parse_uuid_payload (payload : string) : result IdParseError Uuid :=
  let? u := ok_or (parse_str payload) InvalidUuid in
  do? validate_uuid u in
  do? guard (hyphenated u !=? payload) NonCanonicalUuid in
  Ok u.

(** [uuid_id!]: [from_uuid], [from_str], [fmt]. *)
Definition id_from_uuid (f : family) (u : Uuid) : result IdParseError (Id f) :=
  do? validate_uuid u in Ok (mk_id u).
Definition id_from_str (f : family) (value : string) : result IdParseError (Id f) :=
  let? payload := split_family value (FAMILY f) in
  let? u := parse_uuid_payload payload in Ok (mk_id u).
Definition id_display {f} (id : Id f) : string :=
  (FAMILY f +:+ ":" +:+ hyphenated (as_uuid id))%string.

(** [internal_uuid_id!]: the same without a prefix. *)
Definition iid_from_uuid (f : ifamily) (u : Uuid) : result IdParseError (InternalId f) :=
  do? validate_uuid u in Ok (mk_iid u).
Definition iid_from_str (f : ifamily) (value : string) : result IdParseError (InternalId f) :=
  let? u := parse_uuid_payload value in Ok (mk_iid u).
Definition iid_display {f} (id : InternalId f) : string := hyphenated (iid_as_uuid id).

Definition rid_from_uuid (u : Uuid) : result RevisionIdError RevisionId :=
  do? guard (get_version_num u !=? 7%N) RevWrongUuidVersion in
  do? guard (negb (variant_is_rfc4122 u)) RevWrongUuidVariant in
  Ok (mk_rid u).
Definition rid_from_str (value : string) : result RevisionIdError RevisionId :=
  let? u := ok_or (parse_str value) RevInvalidUuid in
  do? guard (hyphenated u !=? value) RevInvalidUuid in
  rid_from_uuid u.
Definition rid_display (id : RevisionId) : string := hyphenated (rid_as_uuid id).

Definition any_from_str (value : string) : result IdParseError AnyPublicId :=
  let? p := ok_or (split_once ":"%char value) MissingSeparator in
  if p.1 ==? "obs"%string then let? i := digest_from_str DSourceObservation value in Ok (AnySourceObservation i) else
  if p.1 ==? "occ"%string then let? i := digest_from_str DHostOccurrence value in Ok (AnyHostOccurrence i) else
  if p.1 ==? "src"%string then let? i := digest_from_str DSourceReceipt value in Ok (AnySourceReceipt i) else
  if p.1 ==? "cap"%string then let? i := id_from_str FCaptureReceipt value in Ok (AnyCaptureReceipt i) else
  if p.1 ==? "outage"%string then let? i := id_from_str FCaptureOutageInterval value in Ok (AnyCaptureOutageInterval i) else
  if p.1 ==? "op"%string then let? i := id_from_str FOperation value in Ok (AnyOperation i) else
  if p.1 ==? "se"%string then let? i := id_from_str FScopeEffect value in Ok (AnyScopeEffect i) else
  if p.1 ==? "wb"%string then let? i := id_from_str FWorkBindingRevision value in Ok (AnyWorkBindingRevision i) else
  if p.1 ==? "repo"%string then let? i := id_from_str FRepository value in Ok (AnyRepository i) else
  if p.1 ==? "wt"%string then let? i := id_from_str FWorktree value in Ok (AnyWorktree i) else
  if p.1 ==? "wts"%string then let? i := id_from_str FWorktreeSnapshot value in Ok (AnyWorktreeSnapshot i) else
  if p.1 ==? "wtt"%string then let? i := id_from_str FWorktreeTransition value in Ok (AnyWorktreeTransition i) else
  if p.1 ==? "int"%string then let? i := id_from_str FIntegrationEvent value in Ok (AnyIntegrationEvent i) else
  if p.1 ==? "recreq"%string then let? i := id_from_str FRecoveryCaptureRequest value in Ok (AnyRecoveryCaptureRequest i) else
  if p.1 ==? "rec"%string then let? i := id_from_str FRecoveryBundle value in Ok (AnyRecoveryBundle i) else
  if p.1 ==? "recapp"%string then let? i := id_from_str FRecoveryApplication value in Ok (AnyRecoveryApplication i) else
  if p.1 ==? "task"%string then let? i := id_from_str FTask value in Ok (AnyTask i) else
  if p.1 ==? "ws"%string then let? i := id_from_str FWorkstream value in Ok (AnyWorkstream i) else
  if p.1 ==? "lane"%string then let? i := id_from_str FExecutionLane value in Ok (AnyExecutionLane i) else
  if p.1 ==? "ep"%string then let? i := id_from_str FWorkEpisode value in Ok (AnyWorkEpisode i) else
  if p.1 ==? "burst"%string then let? i := id_from_str FOperationBurst value in Ok (AnyOperationBurst i) else
  if p.1 ==? "att"%string then let? i := id_from_str FAttempt value in Ok (AnyAttempt i) else
  if p.1 ==? "cmp"%string then let? i := id_from_str FCompetingAttemptGroup value in Ok (AnyCompetingAttemptGroup i) else
  if p.1 ==? "run"%string then let? i := id_from_str FExperimentRun value in Ok (AnyExperimentRun i) else
  if p.1 ==? "result"%string then let? i := id_from_str FResultEvidence value in Ok (AnyResultEvidence i) else
  if p.1 ==? "atom"%string then let? i := id_from_str FAtom value in Ok (AnyAtom i) else
  if p.1 ==? "proc"%string then let? i := id_from_str FProcedure value in Ok (AnyProcedure i) else
  if p.1 ==? "proposal"%string then let? i := id_from_str FRevisionProposal value in Ok (AnyRevisionProposal i) else
  if p.1 ==? "coremem"%string then let? i := id_from_str FCoreMembership value in Ok (AnyCoreMembership i) else
  if p.1 ==? "sdig"%string then let? i := id_from_str FSemanticDigest value in Ok (AnySemanticDigest i) else
  if p.1 ==? "srun"%string then let? i := id_from_str FSemanticDerivationRun value in Ok (AnySemanticDerivationRun i) else
  if p.1 ==? "wiki"%string then let? i := digest_from_str DWikiProjection value in Ok (AnyWikiProjection i) else
  if p.1 ==? "core"%string then let? i := digest_from_str DCoreProjection value in Ok (AnyCoreProjection i) else
  if p.1 ==? "scenario"%string then let? i := digest_from_str DScenario value in Ok (AnyScenario i) else
  if p.1 ==? "art"%string then let? i := id_from_str FWorkArtifact value in Ok (AnyWorkArtifact i) else
  if p.1 ==? "dup"%string then let? i := id_from_str FDuplicateGroup value in Ok (AnyDuplicateGroup i) else
  if p.1 ==? "cas"%string then let? i := digest_from_str DCas value in Ok (AnyCas i) else
  Err UnknownFamily.

Definition organize_try_from (value : AnyPublicId) : result IdParseError OrganizeTarget :=
  match value with
  | AnyAtom id => Ok (OrganizeAtom id)
  | AnyProcedure id => Ok (OrganizeProcedure id)
  | AnyCoreMembership id => Ok (OrganizeCoreMembership id)
  | AnyWikiProjection _ | AnyCoreProjection _ => Err ProjectionNotOrganizable
  | _ => Err WrongFamily
  end.

Definition organize_from_str (value : string) : result IdParseError OrganizeTarget :=
  let? v := any_from_str value in organize_try_from v.

(** The text of a public identifier: the [Display] of its payload. *)
Definition any_text (v : AnyPublicId) : string :=
  match v with
  | AnySourceObservation i => digest_display i
  | AnyHostOccurrence i => digest_display i
  | AnySourceReceipt i => digest_display i
  | AnyCaptureReceipt i => id_display i
  | AnyCaptureOutageInterval i => id_display i
  | AnyOperation i => id_display i
  | AnyScopeEffect i => id_display i
  | AnyWorkBindingRevision i => id_display i
  | AnyRepository i => id_display i
  | AnyWorktree i => id_display i
  | AnyWorktreeSnapshot i => id_display i
  | AnyWorktreeTransition i => id_display i
  | AnyIntegrationEvent i => id_display i
  | AnyRecoveryCaptureRequest i => id_display i
  | AnyRecoveryBundle i => id_display i
  | AnyRecoveryApplication i => id_display i
  | AnyTask i => id_display i
  | AnyWorkstream i => id_display i
  | AnyExecutionLane i => id_display i
  | AnyWorkEpisode i => id_display i
  | AnyOperationBurst i => id_display i
  | AnyAttempt i => id_display i
  | AnyCompetingAttemptGroup i => id_display i
  | AnyExperimentRun i => id_display i
  | AnyResultEvidence i => id_display i
  | AnyAtom i => id_display i
  | AnyProcedure i => id_display i
  | AnyRevisionProposal i => id_display i
  | AnyCoreMembership i => id_display i
  | AnySemanticDigest i => id_display i
  | AnySemanticDerivationRun i => id_display i
  | AnyWikiProjection i => digest_display i
  | AnyCoreProjection i => digest_display i
  | AnyScenario i => digest_display i
  | AnyWorkArtifact i => id_display i
  | AnyDuplicateGroup i => id_display i
  | AnyCas i => digest_display i
  end.

(** The type invariants of the identifiers: a UUID identifier holds a version 7
    UUID of the RFC variant, a digest identifier holds 32 bytes. *)
Definition uuid_v7 (u : Uuid) : Prop :=
  uuid_wf u /\ get_version_num u = 7%N /\ variant_is_rfc4122 u = true.
Definition id_ok {f} (id : Id f) : Prop := uuid_v7 (as_uuid id).
Definition digest_ok {f} (id : DigestId f) : Prop := length (as_digest id) = 32%nat.

Definition any_ok (v : AnyPublicId) : Prop :=
  match v with
  | AnySourceObservation i => digest_ok i
  | AnyHostOccurrence i => digest_ok i
  | AnySourceReceipt i => digest_ok i
  | AnyCaptureReceipt i => id_ok i
  | AnyCaptureOutageInterval i => id_ok i
  | AnyOperation i => id_ok i
  | AnyScopeEffect i => id_ok i
  | AnyWorkBindingRevision i => id_ok i
  | AnyRepository i => id_ok i
  | AnyWorktree i => id_ok i
  | AnyWorktreeSnapshot i => id_ok i
  | AnyWorktreeTransition i => id_ok i
  | AnyIntegrationEvent i => id_ok i
  | AnyRecoveryCaptureRequest i => id_ok i
  | AnyRecoveryBundle i => id_ok i
  | AnyRecoveryApplication i => id_ok i
  | AnyTask i => id_ok i
  | AnyWorkstream i => id_ok i
  | AnyExecutionLane i => id_ok i
  | AnyWorkEpisode i => id_ok i
  | AnyOperationBurst i => id_ok i
  | AnyAttempt i => id_ok i
  | AnyCompetingAttemptGroup i => id_ok i
  | AnyExperimentRun i => id_ok i
  | AnyResultEvidence i => id_ok i
  | AnyAtom i => id_ok i
  | AnyProcedure i => id_ok i
  | AnyRevisionProposal i => id_ok i
  | AnyCoreMembership i => id_ok i
  | AnySemanticDigest i => id_ok i
  | AnySemanticDerivationRun i => id_ok i
  | AnyWikiProjection i => digest_ok i
  | AnyCoreProjection i => digest_ok i
  | AnyScenario i => digest_ok i
  | AnyWorkArtifact i => id_ok i
  | AnyDuplicateGroup i => id_ok i
  | AnyCas i => digest_ok i
  end.

End uuids.

(** ** Lemmas on the text forms *)

Lemma split_once_app c s t :
  (forall a, In a (String.list_ascii_of_string s) -> a <> c) ->
  split_once c (s +:+ String c t)%string = Some (s, t).
Proof.
  induction s as [|a s IH]; intros H; simpl.
  - by rewrite Ascii.eqb_refl.
  - destruct (Ascii.eqb_spec a c) as [->|]; [by destruct (H c); [left|]|].
    rewrite IH; [done|]. intros b Hb. apply H. by right.
Qed.

Lemma split_once_Some c v s t : split_once c v = Some (s, t) -> v = (s +:+ String c t)%string.
Proof.
  revert s t. induction v as [|a v IH]; intros s t; simpl; [done|].
  destruct (Ascii.eqb_spec a c) as [->|]; [by intros [= <- <-]|].
  destruct (split_once c v) as [[x y]|]; [|done]. intros [= <- <-]. simpl. by rewrite (IH x y).
Qed.

(** A colon-free prefix: every family name is one. *)
Definition colon_free (s : string) : bool :=
  forallb (fun a => negb (Ascii.eqb a ":"%char)) (String.list_ascii_of_string s).

Lemma split_once_family s t :
  colon_free s = true -> split_once ":"%char (s +:+ ":" +:+ t)%string = Some (s, t).
Proof.
  intros H. apply (split_once_app ":"%char). intros a Ha ->.
  apply (proj1 (forallb_forall _ _) H) in Ha. done.
Qed.

Lemma split_family_ok value expected p :
  colon_free expected = true ->
  split_family value expected = Ok p <->
  value = (expected +:+ ":" +:+ p)%string /\ str_is_empty p = false.
Proof.
  intros Hc. unfold split_family. split.
  - intros H. ok_steps H. destruct x as [s t]. guards_in G. injection H as <-. simpl in *. subst s.
    split; [by apply split_once_Some in G|done].
  - intros [-> Hp]. rewrite (split_once_family _ _ Hc). simpl.
    rewrite bool_decide_eq_true_2 by done. simpl. by rewrite Hp.
Qed.

Lemma FAMILY_colon_free f : colon_free (FAMILY f) = true.
Proof. by destruct f. Qed.
Lemma DFAMILY_colon_free f : colon_free (DFAMILY f) = true.
Proof. by destruct f. Qed.
#[export] Hint Resolve FAMILY_colon_free DFAMILY_colon_free : core.

Lemma hex_byte_ok b :
  all is_hex (hex_byte b) = true /\ hex_chunks (hex_byte b) = [b].
Proof. destruct b; vm_compute; done. Qed.

Lemma hex_pair_ok a b :
  is_hex a = true -> is_hex b = true -> hex_byte (N_byte (hex_value a * 16 + hex_value b)) = [a; b].
Proof.
  intros Ha Hb.
  assert (forall c, is_hex c = true ->
    (hex_value c < 16)%N /\ hex_digit (hex_value c) = c) as D
    by (clear; intros c; destruct c; vm_compute; intros H; try discriminate H; done).
  destruct (D a Ha) as [La Ea], (D b Hb) as [Lb Eb]. unfold hex_byte.
  rewrite N_byte_N, N.mod_small by lia.
  rewrite N.div_add_l, (N.div_small (hex_value b)), N.add_0_r by lia.
  rewrite N.add_comm, N.Div0.mod_add, N.mod_small by lia. by rewrite Ea, Eb.
Qed.

Lemma hex_chunks_hex l : hex_chunks (l ≫= hex_byte) = l.
Proof.
  induction l as [|b l IH]; [done|]. change (hex_chunks (hex_byte b ++ (l ≫= hex_byte)) = b :: l).
  destruct (hex_byte_ok b) as [_ H]. unfold hex_byte in *. cbn [hex_chunks app] in *.
  rewrite IH. apply cons_inv in H as [-> _]. done.
Qed.

Lemma hex_hex_chunks l :
  Nat.Even (length l) -> Forall (fun x => is_hex x = true) l -> (hex_chunks l ≫= hex_byte) = l.
Proof.
  intros [n Hn]. revert l Hn. induction n as [|n IH]; intros l Hn H.
  - by destruct l.
  - destruct l as [|a [|b l]]; [simpl in Hn; lia..|]. cbn [hex_chunks].
    apply Forall_cons in H as [Ha H]. apply Forall_cons in H as [Hb Hl].
    change (hex_byte (N_byte (hex_value a * 16 + hex_value b)) ++ (hex_chunks l ≫= hex_byte)
            = a :: b :: l).
    rewrite hex_pair_ok, IH; [done| simpl in Hn; lia |done..].
Qed.

Lemma length_hex l : length (l ≫= hex_byte) = (2 * length l)%nat.
Proof.
  induction l as [|b l IH]; [done|].
  change (length (hex_byte b ++ (l ≫= hex_byte)) = (2 * length (b :: l))%nat).
  rewrite length_app, IH. simpl. lia.
Qed.

Lemma length_hex_chunks l n : length l = (2 * n)%nat -> length (hex_chunks l) = n.
Proof.
  revert l. induction n as [|n IH]; intros l Hl; [by destruct l|].
  destruct l as [|a [|b l]]; [simpl in Hl; lia..|]. cbn [hex_chunks length]. f_equal.
  apply IH. simpl in Hl. lia.
Qed.

Lemma is_hex_hex l : all is_hex (l ≫= hex_byte) = true.
Proof.
  apply all_true. induction l as [|b l IH]; [by constructor|].
  change (Forall (fun x => is_hex x = true) (hex_byte b ++ (l ≫= hex_byte))).
  apply Forall_app. split; [|done]. apply all_true. by destruct (hex_byte_ok b) as [-> _].
Qed.

Lemma parse_digest_ok p d :
  parse_digest_payload p = Ok d <-> length d = 32%nat /\ p = of_bytes (d ≫= hex_byte).
Proof.
  unfold parse_digest_payload. split.
  - intros H. ok_steps H. injection H as <-. destruct_and?. rename select (str_len _ = _) into Hl.
    rename select (Forall _ _) into Hh. unfold str_len in Hl. change 64%N with (N.of_nat 64) in Hl.
    apply Nat2N.inj in Hl. split; [by apply length_hex_chunks|].
    rewrite hex_hex_chunks by (done || exists 32%nat; lia). by rewrite of_as_bytes.
  - intros [Hd ->]. unfold str_len. rewrite as_of_bytes, length_hex, Hd. simpl.
    rewrite is_hex_hex. simpl. by rewrite hex_chunks_hex.
Qed.

Lemma digest_from_str_ok f s (id : DigestId f) :
  digest_from_str f s = Ok id <-> digest_ok id /\ s = digest_display id.
Proof.
  unfold digest_from_str, digest_display, write_digest, digest_ok. split.
  - intros H. apply rbind_ok in H as (p & Hp & H). apply rbind_ok in H as (d & Hd & [= <-]).
    apply split_family_ok in Hp as [-> _]; [|done]. by apply parse_digest_ok in Hd as [? ->].
  - destruct id as [d]; simpl. intros [Hd ->].
    rewrite (proj2 (split_family_ok _ (DFAMILY f) (of_bytes (d ≫= hex_byte)) (DFAMILY_colon_free f))).
    + cbn [rbind]. rewrite (proj2 (parse_digest_ok _ d)); done.
    + split; [done|]. unfold str_is_empty. rewrite as_of_bytes.
      destruct d; [done|]. done.
Qed.

Section uuid_lemmas.
Context `{L : UuidLib, !UuidLaws L}.

Lemma validate_uuid_ok u x :
  validate_uuid u = Ok x <-> get_version_num u = 7%N /\ variant_is_rfc4122 u = true.
Proof.
  destruct x. unfold validate_uuid. split.
  - intros H. ok_steps H. by destruct_and?.
  - intros [-> ->]. done.
Qed.

Lemma parse_uuid_payload_ok p u :
  parse_uuid_payload p = Ok u <-> uuid_v7 u /\ p = hyphenated u.
Proof.
  unfold parse_uuid_payload, uuid_v7. split.
  - intros H. apply rbind_ok in H as (v & Hv & H). apply rbind_ok in H as ([] & Hval & H).
    apply rbind_ok in H as ([] & Hh & H). injection H as ->. guards_in Hh. guards_in Hv.
    apply validate_uuid_ok in Hval. split; [split; [by eapply parse_str_wf|done]|done].
  - intros [(Hw & Hv) ->]. rewrite parse_hyphenated by done. cbn [ok_or rbind].
    rewrite (proj2 (validate_uuid_ok u tt) Hv). cbn [rbind].
    by rewrite bool_decide_eq_true_2.
Qed.

Lemma id_from_str_ok f s (id : Id f) :
  id_from_str f s = Ok id <-> id_ok id /\ s = id_display id.
Proof.
  unfold id_from_str, id_display, id_ok. split.
  - intros H. apply rbind_ok in H as (p & Hp & H). apply rbind_ok in H as (u & Hu & [= <-]).
    apply split_family_ok in Hp as [-> _]; [|done]. by apply parse_uuid_payload_ok in Hu as [? ->].
  - destruct id as [u]; simpl. intros [Hu ->].
    rewrite (proj2 (split_family_ok _ (FAMILY f) (hyphenated u) (FAMILY_colon_free f))).
    + cbn [rbind]. rewrite (proj2 (parse_uuid_payload_ok _ u)); done.
    + split; [done|]. apply hyphenated_not_empty.
Qed.

Lemma any_text_split v : exists p, split_once ":"%char (any_text v) = Some (any_family v, p).
Proof. destruct v; eexists; apply split_once_family; done. Qed.

Lemma any_from_str_ok (s : string) (v : AnyPublicId) :
  any_from_str s = Ok v <-> any_ok v /\ s = any_text v.
Proof.
  unfold any_from_str. split.
  - intros H. apply rbind_ok in H as (p & _ & H).
    repeat (destruct (bool_decide (p.1 = _)) in H;
      [apply rbind_ok in H as (i & Hi & H); injection H as <-;
       by (apply id_from_str_ok in Hi || apply digest_from_str_ok in Hi)|]).
    discriminate H.
  - intros [Hok ->]. destruct (any_text_split v) as [p Hp]. rewrite Hp. cbn [ok_or rbind fst].
    destruct v; cbn [any_family];
      repeat (rewrite bool_decide_eq_false_2 by discriminate);
      rewrite bool_decide_eq_true_2 by done;
      match goal with |- context [any_text (_ ?x)] =>
        first [rewrite (proj2 (id_from_str_ok _ (any_text _) x)) by done
              |rewrite (proj2 (digest_from_str_ok _ (any_text _) x)) by done]
      end; done.
Qed.

End uuid_lemmas.

(** ** A concrete UUID library

    The functions of the crate as its documentation describes them, on which
    the theorems below are instantiated: the 8-4-4-4-12 hexadecimal form, and a
    parser of 32 digits that ignores hyphens. *)

Definition hyphen : byte := x2d.

Definition ref_hyphenated (u : Uuid) : string :=
  let h := to_be_bytes 16 (as_u128 u) ≫= hex_byte in
  of_bytes (take 8 h ++ [hyphen] ++ take 4 (drop 8 h) ++ [hyphen] ++ take 4 (drop 12 h)
            ++ [hyphen] ++ take 4 (drop 16 h) ++ [hyphen] ++ drop 20 h).

Definition ref_parse_str (s : string) : option Uuid :=
  let l := filter (fun b => b <> hyphen) (as_bytes s) in
  if (length l =? 32)%nat && all is_hex l
  then Some (mk_uuid (from_be_bytes (hex_chunks l))) else None.

#[export] Instance RefUuid : UuidLib := {|
  parse_str := ref_parse_str;
  hyphenated := ref_hyphenated;
  get_version_num u := N.land (N.shiftr (as_u128 u) 76) 15;
  variant_is_rfc4122 u := (N.land (N.shiftr (as_u128 u) 62) 3 =? 2)%N;
|}.

Lemma filter_hex l : all is_hex l = true -> filter (fun b => b <> hyphen) l = l.
Proof.
  intros H%all_true. induction H as [|b l Hb _ IH]; [done|].
  rewrite filter_cons_True, IH; [done|]. intros ->. discriminate Hb.
Qed.

Lemma filter_hyphenated u :
  filter (fun b => b <> hyphen) (as_bytes (ref_hyphenated u)) = to_be_bytes 16 (as_u128 u) ≫= hex_byte.
Proof.
  unfold ref_hyphenated. rewrite as_of_bytes. set (h := _ ≫= hex_byte).
  assert (all is_hex h = true) as Hh by apply is_hex_hex.
  assert (forall n m, all is_hex (take n (drop m h)) = true) as Hp.
  { intros n m. apply all_true. apply Forall_take, Forall_drop. by apply all_true. }
  rewrite !filter_app. rewrite (filter_hex (take 8 h) (Hp 8%nat 0%nat)).
  rewrite !(filter_hex (take 4 _)) by apply Hp.
  rewrite (filter_hex (drop 20 h)) by (apply all_true, Forall_drop; by apply all_true).
  change (filter (fun b => b <> hyphen) [hyphen]) with (@nil byte). rewrite !app_nil_l.
  clearbody h. rewrite (eq_sym (drop_drop h 4 16) : drop 20 h = _), take_drop.
  rewrite (eq_sym (drop_drop h 4 12) : drop 16 h = _), take_drop.
  rewrite (eq_sym (drop_drop h 4 8) : drop 12 h = _), take_drop. apply take_drop.
Qed.

#[export] Instance RefUuid_laws : UuidLaws RefUuid.
Proof.
  split.
  - intros s u. cbn [parse_str RefUuid]. unfold ref_parse_str, uuid_wf.
    destruct (_ && _) eqn:E; [|done]. intros [= <-]. cbn [as_u128].
    apply andb_true_iff in E as [E _]. apply Nat.eqb_eq in E.
    pose proof (from_be_bytes_lt (hex_chunks (filter (fun b => b <> hyphen) (as_bytes s)))) as H.
    rewrite (length_hex_chunks _ 16) in H by done. exact H.
  - intros u Hu. cbn [parse_str hyphenated RefUuid]. unfold ref_parse_str.
    rewrite filter_hyphenated, length_hex, length_to_be_bytes, is_hex_hex. simpl andb. cbv iota.
    rewrite hex_chunks_hex, from_to_be_bytes by exact Hu. by destruct u.
  - intros u. cbn [hyphenated RefUuid]. unfold str_is_empty, ref_hyphenated.
    rewrite as_of_bytes. by destruct (take 8 _).
Qed.

(** A version 7 UUID of the RFC variant. *)
Definition sample_uuid : Uuid := mk_uuid 0x0190a3b17c2d7e4f8a9b0c1d2e3f4051.
Lemma sample_uuid_v7 : uuid_v7 sample_uuid.
Proof. by vm_compute. Qed.

(** ** Theorems *)

(** The public identifiers have one text form.  [AnyPublicId::from_str]
    accepts exactly the [Display] text of a well-formed identifier of one of
    its families, and returns that identifier: parsing and printing are inverse
    in both directions, and no other spelling (upper case, missing hyphens,
    another version or variant, an unknown family) is accepted. *)
Theorem any_from_str_iff `{L : UuidLib, !UuidLaws L} (s : string) (v : AnyPublicId) :
  any_from_str s = Ok v <-> any_ok v /\ s = any_text v.
Proof. apply any_from_str_ok. Qed.

(** Only atoms, procedures and core memberships can be organized.  The text
    of any other well-formed public identifier is refused, with
    [ProjectionNotOrganizable] exactly for the wiki and core projections. *)
Theorem organize_from_str_text `{L : UuidLib, !UuidLaws L} (v : AnyPublicId) :
  any_ok v ->
  organize_from_str (any_text v) = organize_try_from v /\
  match organize_try_from v with
  | Ok t => any_text v = match t with
                         | OrganizeAtom i => id_display i
                         | OrganizeProcedure i => id_display i
                         | OrganizeCoreMembership i => id_display i
                         end
  | Err e => (any_family v ∉ [FAMILY FAtom; FAMILY FProcedure; FAMILY FCoreMembership]) /\
             (e = ProjectionNotOrganizable <->
              any_family v ∈ [DFAMILY DWikiProjection; DFAMILY DCoreProjection])
  end.
Proof.
  intros Hok. split.
  - unfold organize_from_str. rewrite (proj2 (any_from_str_ok _ v)); done.
  - destruct v; cbn [organize_try_from any_family]; try done;
      (split; [set_solver|]; split; [try discriminate; set_solver | try set_solver; done]).
Qed.

Lemma organize_from_str_text_witness :
  organize_from_str (any_text (AnyAtom (mk_id sample_uuid)))
  = Ok (OrganizeAtom (mk_id sample_uuid)) /\
  organize_from_str "task:0190a3b1-7c2d-7e4f-8a9b-0c1d2e3f4051" = Err WrongFamily.
Proof.
  split.
  - exact (proj1 (organize_from_str_text (AnyAtom (mk_id sample_uuid)) sample_uuid_v7)).
  - exact (proj1 (organize_from_str_text (AnyTask (mk_id sample_uuid)) sample_uuid_v7)).
Defined.

Lemma any_from_str_iff_witness :
  any_ok (AnyTask (mk_id sample_uuid)) /\
  any_from_str "task:0190a3b1-7c2d-7e4f-8a9b-0c1d2e3f4051" = Ok (AnyTask (mk_id sample_uuid)).
Proof.
  split; [exact sample_uuid_v7|]. apply any_from_str_iff. split; [exact sample_uuid_v7|by vm_compute].
Defined.
