(* ===== verification/Digests.v ===== *)
(** * Digests of canonical values

    What the components that seal their records by a SHA-256 digest share: the
    canonical forms of optional and listed texts, the digest class, and the lemmas
    by which equal digests give equal fields. *)

From S2P Require Import Prelude Order Collections Text Canonical Ids.

(** [Result::ok]. *)
Definition ok {E A} (m : result E A) : option A := match m with Ok a => Some a | Err _ => None end.

Lemma ok_Some {E A} (m : result E A) a : ok m = Some a <-> m = Ok a.
Proof. destruct m; cbn; split; congruence. Qed.

(** [value.map_or(CanonicalValue::Null, |value| CanonicalValue::String(value.to_string()))]. *)
Definition null_or {A} (display : A -> string) (value : option A) : CanonicalValue :=
  match value with Some value => CString (display value) | None => Null end.

(** [values.iter().map(|value| CanonicalValue::String(value.to_string())).collect()]. *)
Definition texts {A} (display : A -> string) (values : list A) : CanonicalValue :=
  Sequence ((fun value => CString (display value)) <$> values).

Lemma texts_ok {A} (d : A -> string) l : value_ok (texts d l).
Proof. constructor. apply Forall_fmap, Forall_true. intros x. constructor. Qed.
Lemma null_or_ok {A} (d : A -> string) o : value_ok (null_or d o).
Proof. destruct o; constructor. Qed.
Lemma bytes_list_ok (l : list (list byte)) : value_ok (Sequence (Bytes <$> l)).
Proof. constructor. apply Forall_fmap, Forall_true. intros x. constructor. Qed.
Lemma u64_ok n : (n <= U64_MAX)%N -> value_ok (Integer (Z.of_N n)).
Proof. intros H. constructor. unfold U64_MAX in H. lia. Qed.

Create HintDb value_ok.
#[export] Hint Resolve texts_ok null_or_ok bytes_list_ok u64_ok : value_ok.
#[export] Hint Constructors value_ok : value_ok.

(** Short sequences and texts fit. *)
Lemma string_fits s : (str_len s <=? U64_MAX)%N = true -> value_fits (CString s).
Proof. intros H%N.leb_le. by constructor. Qed.
Lemma sequence_fits l :
  (length l <=? 1024)%nat = true -> Forall value_fits l -> value_fits (Sequence l).
Proof. intros Hl%Nat.leb_le H. constructor; [|done]. unfold len, U64_MAX. lia. Qed.

(** Sequences written out item by item. *)
Ltac sequence_ok :=
  apply ok_sequence; repeat apply Forall_cons_2; try apply Forall_nil_2; auto with value_ok.

(** Values without maps, the form of every sealed record but a few: equality up
    to the order of map entries is equality. *)
Fixpoint map_free (v : CanonicalValue) : bool :=
  match v with
  | Map _ => false
  | Sequence items => forallb map_free items
  | _ => true
  end.

Lemma same_map_free v : forall w, map_free v = true -> same_value v w -> v = w.
Proof.
  induction v using value_ind; intros w Hv Hw; inversion Hw; subst; try done.
  f_equal. cbn in Hv. clear Hw.
  match goal with F : Forall2 _ _ _ |- _ => revert F end.
  match goal with |- Forall2 _ ?l ?m -> _ => revert m; induction l as [|x l IHl]; intros m F end.
  - by inversion F.
  - apply Forall2_cons_inv_l in F as (y & m' & Hxy & F & ->). cbn in Hv.
    apply andb_true_iff in Hv as [Hx Hl].
    match goal with H : Forall _ (_ :: _) |- _ => apply Forall_cons in H as [H1 H2] end.
    f_equal; [by apply H1|by apply IHl].
Qed.

(** As far as the digest has no collision, it separates the tagged values. *)
Lemma sha256_separates digest t n v t' n' v' d :
  (forall x y, digest x = digest y -> x = y) -> value_ok v -> value_ok v' ->
  sha256 digest t n v = Ok d -> sha256 digest t' n' v' = Ok d ->
  (n <=? U32_MAX)%N = true -> (n' <=? U32_MAX)%N = true ->
  t = t' /\ n = n' /\ same_value v v'.
Proof.
  intros Hinj Hv Hv' H H' Hn%N.leb_le Hn'%N.leb_le. unfold sha256 in *.
  apply rbind_ok in H as (b & Hb & [= <-]). apply rbind_ok in H' as (b' & Hb' & [= E]).
  apply Hinj in E as ->. by eapply encode_inj.
Qed.

(** The same for two records sealed under one tag, whose values have no maps. *)
Lemma sha256_map_free digest t n v w d :
  (forall x y, digest x = digest y -> x = y) -> value_ok v -> value_ok w -> map_free v = true ->
  sha256 digest t n v = Ok d -> sha256 digest t n w = Ok d -> (n <=? U32_MAX)%N = true -> v = w.
Proof.
  intros Hinj Hv Hw F H H' Hn. apply same_map_free; [done|].
  exact (proj2 (proj2 (sha256_separates digest _ _ _ _ _ _ d Hinj Hv Hw H H' Hn Hn))).
Qed.

Lemma map_free_fmap {A} (f : A -> CanonicalValue) l :
  Forall (fun x => map_free (f x) = true) l -> forallb map_free (f <$> l) = true.
Proof. induction 1 as [|x l Hx _ IH]; [done|]. cbn. by rewrite Hx. Qed.
Lemma texts_map_free {A} (d : A -> string) l : map_free (texts d l) = true.
Proof. apply map_free_fmap, Forall_true. done. Qed.
Lemma bytes_map_free (l : list (list byte)) : map_free (Sequence (Bytes <$> l)) = true.
Proof. apply map_free_fmap, Forall_true. done. Qed.
Lemma null_or_map_free {A} (d : A -> string) o : map_free (null_or d o) = true.
Proof. by destruct o. Qed.

Lemma map_free_unique v : map_free v = true -> unique_keys v.
Proof.
  induction v as [| | | | |items IH|] using value_ind; intros Hv; try done; constructor.
  cbn in Hv. induction IH as [|v items Hx _ IHl]; [constructor|]. cbn in Hv.
  apply andb_true_iff in Hv as [? ?]. constructor; auto.
Qed.

(** Such a value is encoded whenever its lengths are machine integers. *)
Lemma sha256_total digest t n v :
  str_is_empty t = false -> (str_len t <=? U64_MAX)%N = true -> value_fits v -> map_free v = true ->
  exists d, sha256 digest t n v = Ok d.
Proof.
  intros Ht%str_is_empty_false Hl%N.leb_le Hv Hf.
  destruct (encode_unique_ok t n v Ht Hl Hv (map_free_unique v Hf)) as [b Hb].
  exists (digest b). unfold sha256. by rewrite Hb.
Qed.

(** The items of two equal sequences, one hypothesis each. *)
Lemma Sequence_inj l m : Sequence l = Sequence m -> l = m.
Proof. congruence. Qed.
Lemma CString_inj s t : CString s = CString t -> s = t.
Proof. congruence. Qed.
Lemma Integer_of_N_inj m n : Integer (Z.of_N m) = Integer (Z.of_N n) -> m = n.
Proof. intros [= H]. lia. Qed.
Ltac seq_fields E :=
  apply Sequence_inj in E;
  repeat (let F := fresh "F" in apply cons_inv in E as [F E]).

(** Fields are recovered from their canonical forms where the display of their
    type is injective. *)
Section fields.
Context {A : Type} (P : A -> Prop) (display : A -> string)
  (Hinj : forall x y, P x -> P y -> display x = display y -> x = y).

Lemma texts_inj l m : Forall P l -> Forall P m -> texts display l = texts display m -> l = m.
Proof.
  unfold texts. intros Hl. revert m. induction Hl as [|x l Hx _ IH]; intros m Hm E.
  - by destruct m.
  - destruct Hm as [|y m Hy Hm]; [done|]. cbn in E. injection E as E1 E2.
    f_equal; [by apply Hinj|]. apply IH; [done|]. by f_equal.
Qed.

Lemma null_or_inj o p :
  (forall x, o = Some x -> P x) -> (forall x, p = Some x -> P x) ->
  null_or display o = null_or display p -> o = p.
Proof. destruct o, p; cbn; intros Ho Hp [=]; f_equal; auto. Qed.
End fields.

Lemma strings_inj (l m : list string) : texts id l = texts id m -> l = m.
Proof. apply (texts_inj (fun _ => True)); [done|by apply Forall_true..]. Qed.

Lemma bytes_list_inj (l m : list (list byte)) : Bytes <$> l = Bytes <$> m -> l = m.
Proof. apply list_fmap_eq_inj. intros x y [=]; done. Qed.

(** ** Displays *)

Section displays.
Context `{L : UuidLib, !UuidLaws L}.

Definition rid_wf (id : RevisionId) : Prop := uuid_wf (rid_as_uuid id).
Definition id_wf {f} (id : Id f) : Prop := uuid_wf (as_uuid id).

Lemma hyphenated_inj u v : uuid_wf u -> uuid_wf v -> hyphenated u = hyphenated v -> u = v.
Proof. intros Hu%parse_hyphenated Hv%parse_hyphenated E. rewrite E in Hu. congruence. Qed.

Lemma rid_display_inj a b : rid_wf a -> rid_wf b -> rid_display a = rid_display b -> a = b.
Proof. intros Ha Hb E. apply rid_as_uuid_inj. by apply hyphenated_inj. Qed.

Lemma id_display_inj {f} (a b : Id f) : id_wf a -> id_wf b -> id_display a = id_display b -> a = b.
Proof.
  intros Ha Hb E. apply as_uuid_inj. apply hyphenated_inj; [done..|].
  unfold id_display in E. by repeat apply (inj (String.append _)) in E.
Qed.
End displays.
