(* ===== verification/Lane.v ===== *)
(** * Execution lanes and capture receipts

    [evertrace-domain/src/work.rs]: the work errors and reference checks every
    work object shares, the lifecycle evidence of a lane, the lane and receipt
    revisions with their validators, and [resolve_capture], which folds what was
    captured of a lane into its next revision.

    Each Rust type is a Module that holds the type, its equality and its
    methods, so that [LaneStatus::Active] reads [LaneStatus.Active] and a field
    [lane.status] reads [ExecutionLane.status lane]. *)

From S2P Require Import Prelude Order Collections Text Ids.

Module WorkError.
Inductive WorkError :=
| InvalidWorkIdentity
| InvalidReference
| Duplicate
| InvalidLifecycle
| InvalidLane
| InvalidReceipt
| FinalizedLaneCannotReopen
| InvalidAutoresearch
| InvalidAutoresearchSuccessor.
#[export] Instance eq_dec : EqDecision WorkError.
Proof. solve_decision. Defined.
End WorkError.
Abbreviation WorkError := WorkError.WorkError.
Export (hints) WorkError.

(** ** Checks shared by the work objects *)

Definition valid_ref (value : string) : result WorkError unit :=
  guard (str_is_empty value || (256 <? str_len value)%N || any is_control (chars value))
    WorkError.InvalidReference.

Definition require_unique {A} `{!Ord A} (values : list A) : result WorkError unit :=
  guard (negb (all_unique values)) WorkError.Duplicate.

Definition unique_sorted {A} `{!Ord A} (values : list A) : list A := bset_of_list values.

(** ** Enumerations *)

Module LaneStatus.
Inductive LaneStatus :=
| Active
| Returned
| Stopped
| Interrupted
| InterruptedUnconfirmed
| Unresolved.
#[export] Instance eq_dec : EqDecision LaneStatus.
Proof. solve_decision. Defined.
Definition rank (x : LaneStatus) : N :=
  match x with
  | Active => 0
  | Returned => 1
  | Stopped => 2
  | Interrupted => 3
  | InterruptedUnconfirmed => 4
  | Unresolved => 5
  end.
Lemma LaneStatus_rank_inj x y : rank x = rank y -> x = y.
Proof. by destruct x, y. Qed.
#[export] Instance ord : Ord LaneStatus := Ord_by rank LaneStatus_rank_inj.
End LaneStatus.
Abbreviation LaneStatus := LaneStatus.LaneStatus.
Export (hints) LaneStatus.

Module TerminalKind.
Inductive TerminalKind :=
| Normal
| Timeout
| Cancelled
| Crashed
| SourceClosedUnconfirmed.
#[export] Instance eq_dec : EqDecision TerminalKind.
Proof. solve_decision. Defined.
End TerminalKind.
Abbreviation TerminalKind := TerminalKind.TerminalKind.
Export (hints) TerminalKind.

Module LivenessState.
Inductive LivenessState :=
| Live
| Absent
| Unknown.
#[export] Instance eq_dec : EqDecision LivenessState.
Proof. solve_decision. Defined.
End LivenessState.
Abbreviation LivenessState := LivenessState.LivenessState.
Export (hints) LivenessState.

Module CoverageLevel.
Inductive CoverageLevel :=
| Full
| Partial
| Opaque.
#[export] Instance eq_dec : EqDecision CoverageLevel.
Proof. solve_decision. Defined.
End CoverageLevel.
Abbreviation CoverageLevel := CoverageLevel.CoverageLevel.
Export (hints) CoverageLevel.

Module SourceCoverage.
Inductive SourceCoverage :=
| Open
| Complete
| Partial
| Unavailable.
#[export] Instance eq_dec : EqDecision SourceCoverage.
Proof. solve_decision. Defined.
Definition rank (x : SourceCoverage) : N :=
  match x with
  | Open => 0
  | Complete => 1
  | Partial => 2
  | Unavailable => 3
  end.
Lemma SourceCoverage_rank_inj x y : rank x = rank y -> x = y.
Proof. by destruct x, y. Qed.
#[export] Instance ord : Ord SourceCoverage := Ord_by rank SourceCoverage_rank_inj.
End SourceCoverage.
Abbreviation SourceCoverage := SourceCoverage.SourceCoverage.
Export (hints) SourceCoverage.

Module PairingIntegrity.
Inductive PairingIntegrity :=
| Complete
| Unmatched
| Unavailable.
#[export] Instance eq_dec : EqDecision PairingIntegrity.
Proof. solve_decision. Defined.
Definition rank (x : PairingIntegrity) : N :=
  match x with
  | Complete => 0
  | Unmatched => 1
  | Unavailable => 2
  end.
Lemma PairingIntegrity_rank_inj x y : rank x = rank y -> x = y.
Proof. by destruct x, y. Qed.
#[export] Instance ord : Ord PairingIntegrity := Ord_by rank PairingIntegrity_rank_inj.
End PairingIntegrity.
Abbreviation PairingIntegrity := PairingIntegrity.PairingIntegrity.
Export (hints) PairingIntegrity.

Module PayloadIntegrity.
Inductive PayloadIntegrity :=
| Complete
| Redacted
| Truncated
| Corrupt
| Unavailable.
#[export] Instance eq_dec : EqDecision PayloadIntegrity.
Proof. solve_decision. Defined.
Definition rank (x : PayloadIntegrity) : N :=
  match x with
  | Complete => 0
  | Redacted => 1
  | Truncated => 2
  | Corrupt => 3
  | Unavailable => 4
  end.
Lemma PayloadIntegrity_rank_inj x y : rank x = rank y -> x = y.
Proof. by destruct x, y. Qed.
#[export] Instance ord : Ord PayloadIntegrity := Ord_by rank PayloadIntegrity_rank_inj.
End PayloadIntegrity.
Abbreviation PayloadIntegrity := PayloadIntegrity.PayloadIntegrity.
Export (hints) PayloadIntegrity.

Module OrderingIntegrity.
Inductive OrderingIntegrity :=
| Complete
| Gapped
| Raced
| BestEffort
| Unavailable.
#[export] Instance eq_dec : EqDecision OrderingIntegrity.
Proof. solve_decision. Defined.
Definition rank (x : OrderingIntegrity) : N :=
  match x with
  | Complete => 0
  | Gapped => 1
  | Raced => 2
  | BestEffort => 3
  | Unavailable => 4
  end.
Lemma OrderingIntegrity_rank_inj x y : rank x = rank y -> x = y.
Proof. by destruct x, y. Qed.
#[export] Instance ord : Ord OrderingIntegrity := Ord_by rank OrderingIntegrity_rank_inj.
End OrderingIntegrity.
Abbreviation OrderingIntegrity := OrderingIntegrity.OrderingIntegrity.
Export (hints) OrderingIntegrity.

Module ReasoningVisibility.
Inductive ReasoningVisibility :=
| Raw
| Summary
| ExplicitRationale.
#[export] Instance eq_dec : EqDecision ReasoningVisibility.
Proof. solve_decision. Defined.
Definition rank (x : ReasoningVisibility) : N :=
  match x with
  | Raw => 0
  | Summary => 1
  | ExplicitRationale => 2
  end.
Lemma ReasoningVisibility_rank_inj x y : rank x = rank y -> x = y.
Proof. by destruct x, y. Qed.
#[export] Instance ord : Ord ReasoningVisibility := Ord_by rank ReasoningVisibility_rank_inj.
End ReasoningVisibility.
Abbreviation ReasoningVisibility := ReasoningVisibility.ReasoningVisibility.
Export (hints) ReasoningVisibility.

Module AdmissionFailureObservability.
Inductive AdmissionFailureObservability :=
| Complete
| Reconcilable
| BestEffort
| Unavailable.
#[export] Instance eq_dec : EqDecision AdmissionFailureObservability.
Proof. solve_decision. Defined.
End AdmissionFailureObservability.
Abbreviation AdmissionFailureObservability := AdmissionFailureObservability.AdmissionFailureObservability.
Export (hints) AdmissionFailureObservability.

Module IdentityStrength.
Inductive IdentityStrength :=
| StableNative
| StableSourceSequence
| SynthesizedBestEffort.
#[export] Instance eq_dec : EqDecision IdentityStrength.
Proof. solve_decision. Defined.
End IdentityStrength.
Abbreviation IdentityStrength := IdentityStrength.IdentityStrength.
Export (hints) IdentityStrength.

Module SequenceGap.
Record SequenceGap := mk {
  first_sequence : N;
  last_sequence : N;
}.
#[export] Instance eq_dec : EqDecision SequenceGap.
Proof. solve_decision. Defined.
Lemma SequenceGap_key_inj x y :
  (first_sequence x, last_sequence x) = (first_sequence y, last_sequence y) -> x = y.
Proof. destruct x, y; simpl; congruence. Qed.
#[export] Instance ord : Ord SequenceGap :=
  Ord_by (fun g => (first_sequence g, last_sequence g)) SequenceGap_key_inj.

Definition validate (self : SequenceGap) : result WorkError unit :=
  guard (last_sequence self <? first_sequence self)%N WorkError.InvalidReceipt.
End SequenceGap.
Abbreviation SequenceGap := SequenceGap.SequenceGap.
Export (hints) SequenceGap.

(** ** Lifecycle evidence *)

Module LaneLifecycleEvidence.
Record LaneLifecycleEvidence := mk {
  host_session_id : string;
  agent_id : string;
  incarnation_ref : option string;
  child_session_id : option string;
  host_lane_key : string;
  parent_host_lane_key : option string;
  spawn_event_ref : option string;
  terminal_event_ref : option string;
  terminal_kind : option TerminalKind;
  host_final_return : bool;
  source_close_ref : option string;
  parent_session_end_ref : option string;
  liveness_probe_ref : option string;
  liveness_state : LivenessState;
  lane_sequence : N;
  adapter_manifest_ref : string;
  eligible_event_manifest_ref : string;
  delegated_goal_ref : option string;
  delegated_target_refs : list string;
  delegated_acceptance_refs : list string;
  reasoning_visibility : list ReasoningVisibility;
}.
#[export] Instance eq_dec : EqDecision LaneLifecycleEvidence.
Proof. solve_decision. Defined.

(** [[a, b, ..].into_iter().flatten()] over optional references. *)
Definition optional_refs (self : LaneLifecycleEvidence) : list string :=
  omap id
    [incarnation_ref self; parent_host_lane_key self; child_session_id self;
     spawn_event_ref self; terminal_event_ref self; source_close_ref self;
     parent_session_end_ref self; liveness_probe_ref self; delegated_goal_ref self].

Definition validate (self : LaneLifecycleEvidence) : result WorkError unit :=
  do? for_each valid_ref
        [host_session_id self; agent_id self; host_lane_key self;
         adapter_manifest_ref self; eligible_event_manifest_ref self] in
  do? for_each valid_ref (optional_refs self) in
  do? for_each valid_ref (delegated_target_refs self ++ delegated_acceptance_refs self) in
  do? require_unique (delegated_target_refs self) in
  do? require_unique (delegated_acceptance_refs self) in
  do? require_unique (reasoning_visibility self) in
  guard (xorb (is_some (terminal_kind self)) (is_some (terminal_event_ref self))
         || host_final_return self && (terminal_kind self !=? Some TerminalKind.Normal)
         || (terminal_kind self ==? Some TerminalKind.SourceClosedUnconfirmed))
    WorkError.InvalidLifecycle.
End LaneLifecycleEvidence.
Abbreviation LaneLifecycleEvidence := LaneLifecycleEvidence.LaneLifecycleEvidence.
Export (hints) LaneLifecycleEvidence.

(** ** Lane revisions *)

Definition terminal_reference_is_valid (kind : option TerminalKind) (event_ref : option string)
  : bool :=
  match kind with
  | Some TerminalKind.SourceClosedUnconfirmed => is_none event_ref
  | Some _ => is_some event_ref
  | None => is_none event_ref
  end.

Definition receipt_terminal_is_valid (kind : option TerminalKind) (event_ref : option string)
    (lifecycle_end_seen : bool) : bool :=
  match kind with
  | Some TerminalKind.SourceClosedUnconfirmed => is_none event_ref && negb lifecycle_end_seen
  | Some _ => is_some event_ref && lifecycle_end_seen
  | None => is_none event_ref && negb lifecycle_end_seen
  end.

Module ExecutionLane.
Record ExecutionLane := mk {
  execution_lane_id : ExecutionLaneId;
  lane_revision : N;
  predecessor_revision : option N;
  host_session_id : string;
  agent_id : string;
  host_lane_key : string;
  incarnation_ref : string;
  parent_lane_id : option ExecutionLaneId;
  parent_host_lane_key : option string;
  spawn_event_ref : option string;
  terminal_event_ref : option string;
  termination_evidence_refs : list string;
  delegated_goal_ref : option string;
  delegated_target_refs : list string;
  delegated_acceptance_refs : list string;
  status : LaneStatus;
  terminal_kind : option TerminalKind;
  liveness_state : LivenessState;
  liveness_probe_refs : list string;
  finalized : bool;
  event_watermark : N;
  adapter_manifest_ids : list string;
  active_capture_receipt_revision_id : CaptureReceiptId;
  coverage_level : CoverageLevel;
  source_coverage : SourceCoverage;
  pairing_integrity : PairingIntegrity;
  payload_integrity : PayloadIntegrity;
  ordering_integrity : OrderingIntegrity;
  reasoning_visibility : list ReasoningVisibility;
  operation_ids : list OperationId;
  correction_reason : option string;
}.
#[export] Instance eq_dec : EqDecision ExecutionLane.
Proof. solve_decision. Defined.
Definition with_operations (self : ExecutionLane)
    (v_operation_ids : list OperationId) : ExecutionLane :=
  mk
    (self.(execution_lane_id)) (self.(lane_revision)) (self.(predecessor_revision))
    (self.(host_session_id)) (self.(agent_id)) (self.(host_lane_key))
    (self.(incarnation_ref)) (self.(parent_lane_id)) (self.(parent_host_lane_key))
    (self.(spawn_event_ref)) (self.(terminal_event_ref)) (self.(termination_evidence_refs))
    (self.(delegated_goal_ref)) (self.(delegated_target_refs))
    (self.(delegated_acceptance_refs)) (self.(status)) (self.(terminal_kind))
    (self.(liveness_state)) (self.(liveness_probe_refs)) (self.(finalized))
    (self.(event_watermark)) (self.(adapter_manifest_ids))
    (self.(active_capture_receipt_revision_id)) (self.(coverage_level))
    (self.(source_coverage)) (self.(pairing_integrity)) (self.(payload_integrity))
    (self.(ordering_integrity)) (self.(reasoning_visibility)) v_operation_ids
    (self.(correction_reason)).

(** [lane_revision.checked_sub(1).filter(|_| lane_revision > 1)]. *)
Definition expected_predecessor (revision : N) : option N :=
  if (1 <? revision)%N then Some (revision - 1)%N else None.

Definition status_is_final (s : LaneStatus) : bool :=
  match s with
  | LaneStatus.Returned | LaneStatus.Stopped | LaneStatus.Interrupted
  | LaneStatus.InterruptedUnconfirmed => true
  | LaneStatus.Active | LaneStatus.Unresolved => false
  end.

Definition is_interruption (k : option TerminalKind) : bool :=
  match k with
  | Some (TerminalKind.Timeout | TerminalKind.Cancelled | TerminalKind.Crashed) => true
  | _ => false
  end.

Definition validate (self : ExecutionLane) : result WorkError unit :=
  do? guard
    ((lane_revision self =? 0)%N
     || (predecessor_revision self !=? expected_predecessor (lane_revision self))
     || xorb (finalized self) (status_is_final (status self))
     || contains (status self) [LaneStatus.Active; LaneStatus.Unresolved]
        && is_some (terminal_kind self)
     || (status self ==? LaneStatus.InterruptedUnconfirmed)
        && (terminal_kind self !=? Some TerminalKind.SourceClosedUnconfirmed)
     || contains (status self) [LaneStatus.Returned; LaneStatus.Stopped]
        && (terminal_kind self !=? Some TerminalKind.Normal)
     || (status self ==? LaneStatus.Interrupted) && negb (is_interruption (terminal_kind self))
     || negb (terminal_reference_is_valid (terminal_kind self) (terminal_event_ref self)))
    WorkError.InvalidLane in
  do? for_each valid_ref
        [host_session_id self; agent_id self; host_lane_key self; incarnation_ref self] in
  do? require_unique (adapter_manifest_ids self) in
  do? require_unique (termination_evidence_refs self) in
  do? require_unique (liveness_probe_refs self) in
  require_unique (operation_ids self).
End ExecutionLane.
Abbreviation ExecutionLane := ExecutionLane.ExecutionLane.
Export (hints) ExecutionLane.

(** ** Receipt revisions *)

Module CaptureReceipt.
Record CaptureReceipt := mk {
  capture_receipt_revision_id : CaptureReceiptId;
  execution_lane_id : ExecutionLaneId;
  predecessor_revision_id : option CaptureReceiptId;
  adapter_manifest_ids : list string;
  eligible_event_manifest_refs : list string;
  source_revision_refs : list string;
  source_close_watermark_refs : list string;
  source_close_reconciliation_refs : list string;
  admission_failure_evidence_refs : list string;
  admission_failure_observability : AdmissionFailureObservability;
  identity_strength : IdentityStrength;
  delegation_start_seen : bool;
  child_session_linked : bool;
  child_session_id : option string;
  parent_session_end_seen : bool;
  lifecycle_end_seen : bool;
  terminal_event_kind : option TerminalKind;
  terminal_event_ref : option string;
  termination_evidence_refs : list string;
  source_closed_refs : list string;
  liveness_probe_refs : list string;
  finalization_reason : option string;
  first_sequence : option N;
  last_sequence : option N;
  sequence_gaps : list SequenceGap;
  capture_gap_marker_refs : list string;
  capture_outage_interval_refs : list CaptureOutageIntervalId;
  tool_calls_seen : list string;
  tool_results_seen : list string;
  unmatched_tool_call_ids : list string;
  unmatched_tool_result_ids : list string;
  payload_truncations : list string;
  redaction_refs : list string;
  corrupt_payload_refs : list string;
  unsupported_record_types : list string;
  import_watermark : N;
  finalized : bool;
  coverage_level : CoverageLevel;
  source_coverage : SourceCoverage;
  pairing_integrity : PairingIntegrity;
  payload_integrity : PayloadIntegrity;
  ordering_integrity : OrderingIntegrity;
  reasoning_visibility : list ReasoningVisibility;
  exact_byte_replay : bool;
  resolver_version : N;
}.
#[export] Instance eq_dec : EqDecision CaptureReceipt.
Proof. solve_decision. Defined.
Definition validate (self : CaptureReceipt) : result WorkError unit :=
  do? guard
    ((resolver_version self =? 0)%N
     || (predecessor_revision_id self ==? Some (capture_receipt_revision_id self))
     || xorb (exact_byte_replay self) (payload_integrity self ==? PayloadIntegrity.Complete)
     || match first_sequence self, last_sequence self with
        | Some first, Some last => (last <? first)%N
        | _, _ => false
        end
     || xorb (child_session_linked self) (is_some (child_session_id self))
     || negb (receipt_terminal_is_valid (terminal_event_kind self) (terminal_event_ref self)
                (lifecycle_end_seen self)))
    WorkError.InvalidReceipt in
  do? require_unique (adapter_manifest_ids self) in
  do? require_unique (eligible_event_manifest_refs self) in
  do? require_unique (source_revision_refs self) in
  do? require_unique (capture_gap_marker_refs self) in
  do? require_unique (capture_outage_interval_refs self) in
  do? require_unique (sequence_gaps self) in
  do? require_unique (reasoning_visibility self) in
  do? for_each SequenceGap.validate (sequence_gaps self) in
  match child_session_id self with
  | Some child => valid_ref child
  | None => Ok tt
  end.
End CaptureReceipt.
Abbreviation CaptureReceipt := CaptureReceipt.CaptureReceipt.
Export (hints) CaptureReceipt.

(** ** The resolver *)

Definition CAPTURE_RESOLVER_VERSION : N := 1.

Module CaptureResolverInput.
Record CaptureResolverInput := mk {
  execution_lane_id : ExecutionLaneId;
  capture_receipt_revision_id : CaptureReceiptId;
  previous_lane : option ExecutionLane;
  previous_receipt : option CaptureReceipt;
  host_session_id : string;
  agent_id : string;
  host_lane_key : string;
  incarnation_ref : string;
  parent_lane_id : option ExecutionLaneId;
  parent_host_lane_key : option string;
  spawn_event_ref : option string;
  terminal_event_ref : option string;
  terminal_kind : option TerminalKind;
  host_final_return : bool;
  parent_session_end_seen : bool;
  liveness_state : LivenessState;
  liveness_probe_refs : list string;
  all_sources_closed : bool;
  source_closed_refs : list string;
  source_close_watermark_refs : list string;
  source_close_reconciliation_refs : list string;
  source_reconciliation_complete : bool;
  adapter_manifest_ids : list string;
  eligible_event_manifest_refs : list string;
  source_revision_refs : list string;
  manifest_coverage : list CoverageLevel;
  required_for_full : gset string;
  observed_capabilities : gset string;
  admission_failure_observability : AdmissionFailureObservability;
  independent_reconciliation : bool;
  admission_failure_evidence_refs : list string;
  identity_strength : IdentityStrength;
  child_session_id : option string;
  first_sequence : option N;
  last_sequence : option N;
  sequence_gaps : list SequenceGap;
  capture_gap_marker_refs : list string;
  unresolved_gap_marker_refs : list string;
  capture_outage_interval_refs : list CaptureOutageIntervalId;
  unresolved_outage_interval_refs : list CaptureOutageIntervalId;
  tool_calls_seen : list string;
  tool_results_seen : list string;
  unmatched_tool_call_ids : list string;
  unmatched_tool_result_ids : list string;
  payload_truncations : list string;
  redaction_refs : list string;
  corrupt_payload_refs : list string;
  unavailable_payload_refs : list string;
  unsupported_record_types : list string;
  causal_race : bool;
  ordering_best_effort : bool;
  reasoning_visibility : list ReasoningVisibility;
  import_watermark : N;
  delegated_goal_ref : option string;
  delegated_target_refs : list string;
  delegated_acceptance_refs : list string;
  operation_ids : list OperationId;
  correction_reason : option string;
}.
#[export] Instance eq_dec : EqDecision CaptureResolverInput.
Proof. solve_decision. Defined.
End CaptureResolverInput.
Abbreviation CaptureResolverInput := CaptureResolverInput.CaptureResolverInput.
Export (hints) CaptureResolverInput.

Module Resolver.
Import CaptureResolverInput.

(** [let coverage_level = ..], and the four integrity dimensions after it. *)
Definition coverage_of (input : CaptureResolverInput) : CoverageLevel :=
  if is_empty (manifest_coverage input)
     || contains CoverageLevel.Opaque (manifest_coverage input)
  then CoverageLevel.Opaque
  else if contains CoverageLevel.Partial (manifest_coverage input)
          || is_none (child_session_id input)
          || negb (bool_decide (required_for_full input ⊆ observed_capabilities input))
  then CoverageLevel.Partial
  else CoverageLevel.Full.

Definition source_coverage_of (input : CaptureResolverInput) : SourceCoverage :=
  if is_empty (source_revision_refs input) then SourceCoverage.Unavailable
  else if negb (all_sources_closed input) then SourceCoverage.Open
  else if is_empty (eligible_event_manifest_refs input)
          || negb (source_reconciliation_complete input)
          || negb (is_empty (unresolved_gap_marker_refs input))
          || negb (is_empty (unresolved_outage_interval_refs input))
          || negb (contains (admission_failure_observability input)
                     [AdmissionFailureObservability.Complete;
                      AdmissionFailureObservability.Reconcilable])
             && negb (independent_reconciliation input)
          || negb (is_empty (unsupported_record_types input))
  then SourceCoverage.Partial
  else SourceCoverage.Complete.

Definition pairing_of (input : CaptureResolverInput) : PairingIntegrity :=
  if is_empty (tool_calls_seen input) && is_empty (tool_results_seen input)
  then PairingIntegrity.Unavailable
  else if is_empty (unmatched_tool_call_ids input) && is_empty (unmatched_tool_result_ids input)
  then PairingIntegrity.Complete
  else PairingIntegrity.Unmatched.

Definition payload_of (input : CaptureResolverInput) : PayloadIntegrity :=
  if negb (is_empty (corrupt_payload_refs input)) then PayloadIntegrity.Corrupt
  else if negb (is_empty (unavailable_payload_refs input))
          || negb (is_empty (unresolved_gap_marker_refs input))
  then PayloadIntegrity.Unavailable
  else if negb (is_empty (payload_truncations input)) then PayloadIntegrity.Truncated
  else if negb (is_empty (redaction_refs input)) then PayloadIntegrity.Redacted
  else PayloadIntegrity.Complete.

Definition ordering_of (input : CaptureResolverInput) : OrderingIntegrity :=
  if is_empty (source_revision_refs input) then OrderingIntegrity.Unavailable
  else if negb (is_empty (sequence_gaps input))
          || negb (is_empty (unresolved_outage_interval_refs input))
  then OrderingIntegrity.Gapped
  else if causal_race input then OrderingIntegrity.Raced
  else if ordering_best_effort input then OrderingIntegrity.BestEffort
  else OrderingIntegrity.Complete.

(** The match that decides status, terminal kind, finality and its reason. *)
Definition decide_status (input : CaptureResolverInput) (previous_status : LaneStatus)
  : result WorkError (LaneStatus * option TerminalKind * bool * option string) :=
  match terminal_kind input with
  | Some TerminalKind.Normal =>
      Ok (if host_final_return input then LaneStatus.Returned else LaneStatus.Stopped,
          terminal_kind input, true,
          Some (if host_final_return input then "host_final_return" else "explicit_terminal")%string)
  | Some ((TerminalKind.Timeout | TerminalKind.Cancelled | TerminalKind.Crashed) as kind) =>
      Ok (LaneStatus.Interrupted, Some kind, true, Some "explicit_interruption"%string)
  | Some TerminalKind.SourceClosedUnconfirmed => Err WorkError.InvalidLifecycle
  | None =>
      if all_sources_closed input && (liveness_state input ==? LivenessState.Absent) then
        Ok (LaneStatus.InterruptedUnconfirmed, Some TerminalKind.SourceClosedUnconfirmed, true,
            Some "source_closed_liveness_absent"%string)
      else if all_sources_closed input then Ok (LaneStatus.Unresolved, None, false, None)
      else if parent_session_end_seen input then Ok (LaneStatus.Unresolved, None, false, None)
      else if contains previous_status [LaneStatus.Unresolved; LaneStatus.Active] then
        Ok (previous_status, None, false, None)
      else Err WorkError.FinalizedLaneCannotReopen
  end.

(** [lane.lane_revision + 1] in the release profile: the sum wraps. *)
Definition next_revision (r : N) : N := ((r + 1) mod 2 ^ 32)%N.

Definition identity_mismatch (input : CaptureResolverInput) (previous : ExecutionLane) : bool :=
  (ExecutionLane.execution_lane_id previous !=? execution_lane_id input)
  || (ExecutionLane.host_session_id previous !=? host_session_id input)
  || (ExecutionLane.agent_id previous !=? agent_id input)
  || (ExecutionLane.host_lane_key previous !=? host_lane_key input)
  || (ExecutionLane.incarnation_ref previous !=? incarnation_ref input)
  || match ExecutionLane.spawn_event_ref previous, spawn_event_ref input with
     | Some p, Some c => p !=? c
     | _, _ => false
     end.

Definition build_receipt (input : CaptureResolverInput) (kind : option TerminalKind)
    (finalized : bool) (reason : option string) : CaptureReceipt :=
  {| CaptureReceipt.capture_receipt_revision_id := capture_receipt_revision_id input;
     CaptureReceipt.execution_lane_id := execution_lane_id input;
     CaptureReceipt.predecessor_revision_id :=
       CaptureReceipt.capture_receipt_revision_id <$> previous_receipt input;
     CaptureReceipt.adapter_manifest_ids := adapter_manifest_ids input;
     CaptureReceipt.eligible_event_manifest_refs := eligible_event_manifest_refs input;
     CaptureReceipt.source_revision_refs := source_revision_refs input;
     CaptureReceipt.source_close_watermark_refs := source_close_watermark_refs input;
     CaptureReceipt.source_close_reconciliation_refs := source_close_reconciliation_refs input;
     CaptureReceipt.admission_failure_evidence_refs := admission_failure_evidence_refs input;
     CaptureReceipt.admission_failure_observability := admission_failure_observability input;
     CaptureReceipt.identity_strength := identity_strength input;
     CaptureReceipt.delegation_start_seen := is_some (spawn_event_ref input);
     CaptureReceipt.child_session_linked := is_some (child_session_id input);
     CaptureReceipt.child_session_id := child_session_id input;
     CaptureReceipt.parent_session_end_seen := parent_session_end_seen input;
     CaptureReceipt.lifecycle_end_seen := is_some (terminal_kind input);
     CaptureReceipt.terminal_event_kind := kind;
     CaptureReceipt.terminal_event_ref := terminal_event_ref input;
     CaptureReceipt.termination_evidence_refs :=
       option_list (terminal_event_ref input) ++ liveness_probe_refs input;
     CaptureReceipt.source_closed_refs := source_closed_refs input;
     CaptureReceipt.liveness_probe_refs := liveness_probe_refs input;
     CaptureReceipt.finalization_reason := reason;
     CaptureReceipt.first_sequence := first_sequence input;
     CaptureReceipt.last_sequence := last_sequence input;
     CaptureReceipt.sequence_gaps := sequence_gaps input;
     CaptureReceipt.capture_gap_marker_refs := capture_gap_marker_refs input;
     CaptureReceipt.capture_outage_interval_refs := capture_outage_interval_refs input;
     CaptureReceipt.tool_calls_seen := tool_calls_seen input;
     CaptureReceipt.tool_results_seen := tool_results_seen input;
     CaptureReceipt.unmatched_tool_call_ids := unmatched_tool_call_ids input;
     CaptureReceipt.unmatched_tool_result_ids := unmatched_tool_result_ids input;
     CaptureReceipt.payload_truncations := payload_truncations input;
     CaptureReceipt.redaction_refs := redaction_refs input;
     CaptureReceipt.corrupt_payload_refs := corrupt_payload_refs input;
     CaptureReceipt.unsupported_record_types := unsupported_record_types input;
     CaptureReceipt.import_watermark := import_watermark input;
     CaptureReceipt.finalized := finalized;
     CaptureReceipt.coverage_level := coverage_of input;
     CaptureReceipt.source_coverage := source_coverage_of input;
     CaptureReceipt.pairing_integrity := pairing_of input;
     CaptureReceipt.payload_integrity := payload_of input;
     CaptureReceipt.ordering_integrity := ordering_of input;
     CaptureReceipt.reasoning_visibility := unique_sorted (reasoning_visibility input);
     CaptureReceipt.exact_byte_replay := payload_of input ==? PayloadIntegrity.Complete;
     CaptureReceipt.resolver_version := CAPTURE_RESOLVER_VERSION |}.

Definition build_lane (input : CaptureResolverInput) (receipt : CaptureReceipt)
    (status : LaneStatus) (kind : option TerminalKind) (finalized : bool) : ExecutionLane :=
  {| ExecutionLane.execution_lane_id := execution_lane_id input;
     ExecutionLane.lane_revision :=
       match previous_lane input with
       | Some lane => next_revision (ExecutionLane.lane_revision lane)
       | None => 1%N
       end;
     ExecutionLane.predecessor_revision := ExecutionLane.lane_revision <$> previous_lane input;
     ExecutionLane.host_session_id := host_session_id input;
     ExecutionLane.agent_id := agent_id input;
     ExecutionLane.host_lane_key := host_lane_key input;
     ExecutionLane.incarnation_ref := incarnation_ref input;
     ExecutionLane.parent_lane_id := parent_lane_id input;
     ExecutionLane.parent_host_lane_key := parent_host_lane_key input;
     ExecutionLane.spawn_event_ref := spawn_event_ref input;
     ExecutionLane.terminal_event_ref := CaptureReceipt.terminal_event_ref receipt;
     ExecutionLane.termination_evidence_refs := CaptureReceipt.termination_evidence_refs receipt;
     ExecutionLane.delegated_goal_ref := delegated_goal_ref input;
     ExecutionLane.delegated_target_refs := delegated_target_refs input;
     ExecutionLane.delegated_acceptance_refs := delegated_acceptance_refs input;
     ExecutionLane.status := status;
     ExecutionLane.terminal_kind := kind;
     ExecutionLane.liveness_state := liveness_state input;
     ExecutionLane.liveness_probe_refs := liveness_probe_refs input;
     ExecutionLane.finalized := finalized;
     ExecutionLane.event_watermark := import_watermark input;
     ExecutionLane.adapter_manifest_ids := adapter_manifest_ids input;
     ExecutionLane.active_capture_receipt_revision_id := capture_receipt_revision_id input;
     ExecutionLane.coverage_level := coverage_of input;
     ExecutionLane.source_coverage := source_coverage_of input;
     ExecutionLane.pairing_integrity := pairing_of input;
     ExecutionLane.payload_integrity := payload_of input;
     ExecutionLane.ordering_integrity := ordering_of input;
     ExecutionLane.reasoning_visibility := CaptureReceipt.reasoning_visibility receipt;
     ExecutionLane.operation_ids := operation_ids input;
     ExecutionLane.correction_reason := correction_reason input |}.

Definition resolve_capture (input : CaptureResolverInput)
  : result WorkError (ExecutionLane * CaptureReceipt) :=
  do? guard (xorb (is_some (terminal_kind input)) (is_some (terminal_event_ref input)))
        WorkError.InvalidLifecycle in
  do? guard (xorb (is_some (previous_lane input)) (is_some (previous_receipt input)))
        WorkError.InvalidReceipt in
  do? guard (is_some_and (previous_lane input) (identity_mismatch input)) WorkError.InvalidLane in
  do? guard (is_some_and (previous_receipt input) (fun r =>
               (CaptureReceipt.execution_lane_id r !=? execution_lane_id input)
               || (CaptureReceipt.capture_receipt_revision_id r
                   ==? capture_receipt_revision_id input)))
        WorkError.InvalidReceipt in
  do? guard match previous_lane input, previous_receipt input with
            | Some l, Some r => ExecutionLane.active_capture_receipt_revision_id l
                                !=? CaptureReceipt.capture_receipt_revision_id r
            | _, _ => false
            end WorkError.InvalidReceipt in
  let previous_status :=
    match previous_lane input with
    | Some l => ExecutionLane.status l
    | None => LaneStatus.Active
    end in
  let? d := decide_status input previous_status in
  let '(status, kind, finalized, reason) := d in
  do? guard (is_some_and (previous_lane input)
               (fun l => ExecutionLane.finalized l && negb finalized))
        WorkError.FinalizedLaneCannotReopen in
  let receipt := build_receipt input kind finalized reason in
  let lane := build_lane input receipt status kind finalized in
  do? ExecutionLane.validate lane in
  do? CaptureReceipt.validate receipt in
  Ok (lane, receipt).

End Resolver.

(** ** Lemmas *)

Lemma valid_ref_ok s u :
  valid_ref s = Ok u <->
  s <> ""%string /\ (str_len s <= 256)%N /\ Forall (fun c => is_control c = false) (chars s).
Proof.
  unfold valid_ref. rewrite guard_ok, !orb_false_iff, str_is_empty_false, any_false, N.ltb_ge. tauto.
Qed.

Lemma require_unique_ok {A} `{!Ord A} (l : list A) u : require_unique l = Ok u <-> NoDup l.
Proof. unfold require_unique. by rewrite guard_ok, negb_false_iff, all_unique_true. Qed.

Lemma unique_sorted_NoDup {A} `{!Ord A} (l : list A) : NoDup (unique_sorted l).
Proof. apply sorted_lt_NoDup, bset_sorted. Qed.

Lemma bind_unit_ok {E B} (m : result E unit) (k : result E B) b :
  (do? m in k) = Ok b <-> m = Ok tt /\ k = Ok b.
Proof. destruct m as [[]|]; simpl; naive_solver. Qed.

Lemma xorb_false a b : xorb a b = false <-> a = b.
Proof. destruct a, b; simpl; naive_solver. Qed.
#[export] Hint Rewrite @require_unique_ok @xorb_false : guards.

Module ResolverFacts.
Import CaptureResolverInput Resolver.

(** The evidence that closes a lane: an explicit terminal event, or the closing
    of every source with the agent known to be gone. *)
Definition final_evidence (input : CaptureResolverInput) : Prop :=
  is_some (terminal_kind input) = true \/
  all_sources_closed input = true /\ liveness_state input = LivenessState.Absent.

(** What the decision guarantees of the revision it shapes: status, kind and
    finality agree, and the event reference has the presence the kind asks. *)
Record decision_ok (input : CaptureResolverInput) s k (f : bool) : Prop := {
  decision_final : f = ExecutionLane.status_is_final s;
  decision_evidence : f = true <-> final_evidence input;
  decision_kind :
    match s with
    | LaneStatus.Active | LaneStatus.Unresolved => k = None
    | LaneStatus.InterruptedUnconfirmed => k = Some TerminalKind.SourceClosedUnconfirmed
    | LaneStatus.Returned | LaneStatus.Stopped => k = Some TerminalKind.Normal
    | LaneStatus.Interrupted => ExecutionLane.is_interruption k = true
    end;
  decision_source : k = terminal_kind input \/
    k = Some TerminalKind.SourceClosedUnconfirmed /\ terminal_kind input = None;
  decision_explicit : terminal_kind input <> Some TerminalKind.SourceClosedUnconfirmed;
}.

Lemma decide_status_ok input ps s k f reason :
  decide_status input ps = Ok (s, k, f, reason) -> decision_ok input s k f.
Proof.
  unfold decide_status, final_evidence.
  destruct (terminal_kind input) as [[]|] eqn:Ek;
    [intros [= <- <- <- <-]; split; unfold final_evidence; rewrite ?Ek;
     destruct (host_final_return input); naive_solver..| | ];
    [discriminate|].
  destruct (all_sources_closed input) eqn:Ec; simpl.
  { destruct (liveness_state input) eqn:El; vm_compute bool_decide; cbv iota; intros [= <- <- <- <-];
      split; unfold final_evidence; rewrite ?Ek, ?Ec, ?El; naive_solver. }
  destruct (parent_session_end_seen input).
  { intros [= <- <- <- <-]; split; unfold final_evidence; rewrite ?Ek, ?Ec; naive_solver. }
  destruct ps; simpl; intros [=]; subst; split; unfold final_evidence; rewrite ?Ek, ?Ec; naive_solver.
Qed.

Lemma decide_status_iff input ps :
  (exists d, decide_status input ps = Ok d) <->
  terminal_kind input <> Some TerminalKind.SourceClosedUnconfirmed /\
  (final_evidence input \/ all_sources_closed input = true \/ parent_session_end_seen input = true
   \/ ps ∈ [LaneStatus.Unresolved; LaneStatus.Active]).
Proof.
  unfold decide_status, final_evidence. rewrite <-contains_true.
  destruct (terminal_kind input) as [[]|]; simpl; [naive_solver..|].
  destruct (all_sources_closed input); simpl.
  { destruct (bool_decide _); naive_solver. }
  destruct (parent_session_end_seen input); [naive_solver|].
  destruct ps; simpl; naive_solver.
Qed.

(** The previous revision the input continues, if any: the same lane, its
    current receipt, and a revision number that still has a successor. *)
Definition continues (input : CaptureResolverInput) : Prop :=
  match previous_lane input, previous_receipt input with
  | None, None => True
  | Some l, Some r =>
      identity_mismatch input l = false /\
      CaptureReceipt.execution_lane_id r = execution_lane_id input /\
      CaptureReceipt.capture_receipt_revision_id r <> capture_receipt_revision_id input /\
      ExecutionLane.active_capture_receipt_revision_id l = CaptureReceipt.capture_receipt_revision_id r /\
      (0 < ExecutionLane.lane_revision l < U32_MAX)%N /\
      (final_evidence input \/
       ExecutionLane.finalized l = false /\
       (all_sources_closed input = true \/ parent_session_end_seen input = true \/
        ExecutionLane.status l ∈ [LaneStatus.Unresolved; LaneStatus.Active]))
  | _, _ => False
  end.

Definition refs_ok (input : CaptureResolverInput) : Prop :=
  Forall (fun s => valid_ref s = Ok tt)
    ([host_session_id input; agent_id input; host_lane_key input; incarnation_ref input]
     ++ option_list (child_session_id input)).

Definition unique_ok (input : CaptureResolverInput) : Prop :=
  NoDup (adapter_manifest_ids input) /\
  NoDup (option_list (terminal_event_ref input) ++ liveness_probe_refs input) /\
  NoDup (operation_ids input) /\ NoDup (eligible_event_manifest_refs input) /\
  NoDup (source_revision_refs input) /\ NoDup (capture_gap_marker_refs input) /\
  NoDup (capture_outage_interval_refs input) /\ NoDup (sequence_gaps input).

Definition sequences_ok (input : CaptureResolverInput) : Prop :=
  Forall (fun g => (SequenceGap.first_sequence g <= SequenceGap.last_sequence g)%N)
    (sequence_gaps input) /\
  (forall a b, first_sequence input = Some a -> last_sequence input = Some b -> (a <= b)%N).

Lemma next_revision_ok r :
  (next_revision r =? 0)%N = false /\
  Some r = ExecutionLane.expected_predecessor (next_revision r) <-> (0 < r < U32_MAX)%N.
Proof.
  unfold next_revision, ExecutionLane.expected_predecessor, U32_MAX.
  set (k := ((r + 1) mod 2 ^ 32)%N). rewrite N.eqb_neq. split.
  - intros [Hk H]. destruct (N.ltb_spec 1 k); [|done]. injection H as H.
    assert (k < 2 ^ 32)%N by (subst k; apply N.mod_lt; lia). lia.
  - intros Hr. assert (k = r + 1)%N as -> by (subst k; apply N.mod_small; lia).
    split; [lia|]. destruct (N.ltb_spec 1 (r + 1)); [|lia]. f_equal. lia.
Qed.

Lemma lane_valid input s k f reason :
  decision_ok input s k f ->
  is_some (terminal_kind input) = is_some (terminal_event_ref input) ->
  ExecutionLane.validate (build_lane input (build_receipt input k f reason) s k f) = Ok tt <->
  match previous_lane input with
  | Some l => (0 < ExecutionLane.lane_revision l < U32_MAX)%N
  | None => True
  end /\
  Forall (fun v => valid_ref v = Ok tt)
    [host_session_id input; agent_id input; host_lane_key input; incarnation_ref input] /\
  NoDup (adapter_manifest_ids input) /\
  NoDup (option_list (terminal_event_ref input) ++ liveness_probe_refs input) /\
  NoDup (operation_ids input).
Proof.
  intros [Hf _ Hk Hs He] Ht. unfold ExecutionLane.validate. cbn -[valid_ref for_each contains].
  rewrite !bind_unit_ok, guard_ok, for_each_ok, !require_unique_ok, !orb_false_iff, xorb_false.
  assert (negb (terminal_reference_is_valid k (terminal_event_ref input)) = false) as ->.
  { destruct Hs as [->|[-> Hn]]; [destruct (terminal_kind input) as [[]|]|rewrite Hn in Ht];
      destruct (terminal_event_ref input); naive_solver. }
  assert (NoDup (option_list (terminal_event_ref input) ++ liveness_probe_refs input) ->
          NoDup (liveness_probe_refs input)) by (rewrite NoDup_app; naive_solver).
  assert (forall r, (bool_decide (Some r = ExecutionLane.expected_predecessor (next_revision r))) = true
    /\ (next_revision r =? 0)%N = false <-> (0 < r < U32_MAX)%N) as Hr.
  { intros r. rewrite bool_decide_eq_true, <-next_revision_ok. tauto. }
  destruct s; simpl in Hf, Hk |- *; subst;
    destruct (previous_lane input) as [l|]; simpl; rewrite ?negb_false_iff;
    try specialize (Hr (ExecutionLane.lane_revision l)); try rewrite Hk; simpl;
    repeat (rewrite bool_decide_eq_true_2 by done); tauto.
Qed.

Lemma gaps_valid l :
  Forall (fun g => SequenceGap.validate g = Ok tt) l <->
  Forall (fun g => (SequenceGap.first_sequence g <= SequenceGap.last_sequence g)%N) l.
Proof.
  apply Forall_iff. intros g. unfold SequenceGap.validate. by rewrite guard_ok, N.ltb_ge.
Qed.

Lemma receipt_valid input s k f reason :
  decision_ok input s k f ->
  is_some (terminal_kind input) = is_some (terminal_event_ref input) ->
  CaptureReceipt.validate (build_receipt input k f reason) = Ok tt <->
  (forall r, previous_receipt input = Some r ->
     CaptureReceipt.capture_receipt_revision_id r <> capture_receipt_revision_id input) /\
  sequences_ok input /\
  NoDup (adapter_manifest_ids input) /\ NoDup (eligible_event_manifest_refs input) /\
  NoDup (source_revision_refs input) /\ NoDup (capture_gap_marker_refs input) /\
  NoDup (capture_outage_interval_refs input) /\ NoDup (sequence_gaps input) /\
  Forall (fun v => valid_ref v = Ok tt) (option_list (child_session_id input)).
Proof.
  intros [Hf _ Hk Hs He] Ht. unfold CaptureReceipt.validate, sequences_ok.
  cbn -[valid_ref for_each require_unique].
  rewrite !bind_unit_ok, guard_ok, for_each_ok, gaps_valid, !require_unique_ok, !orb_false_iff.
  assert (negb (receipt_terminal_is_valid k (terminal_event_ref input)
                  (is_some (terminal_kind input))) = false) as ->.
  { destruct Hs as [->|[-> Hn]]; [destruct (terminal_kind input) as [[]|]|rewrite Hn in Ht |- *];
      destruct (terminal_event_ref input); naive_solver. }
  rewrite !xorb_nilpotent, bool_decide_eq_false.
  assert (match first_sequence input, last_sequence input with
          | Some a, Some b => (b <? a)%N | _, _ => false end = false <->
    (forall a b, first_sequence input = Some a -> last_sequence input = Some b -> (a <= b)%N)) as ->.
  { destruct (first_sequence input), (last_sequence input); rewrite ?N.ltb_ge; naive_solver. }
  assert ((match child_session_id input with Some c => valid_ref c | None => Ok tt end) = Ok tt <->
    Forall (fun v => valid_ref v = Ok tt) (option_list (child_session_id input))) as ->.
  { destruct (child_session_id input); simpl; rewrite ?Forall_singleton; [done|by split]. }
  assert (CaptureReceipt.capture_receipt_revision_id <$> previous_receipt input <>
          Some (capture_receipt_revision_id input) <->
    (forall r, previous_receipt input = Some r ->
     CaptureReceipt.capture_receipt_revision_id r <> capture_receipt_revision_id input)) as ->.
  { destruct (previous_receipt input) as [q|]; simpl; [|by split].
    split; [intros H r [= <-]; congruence|intros H [= E]; by apply (H q)]. }
  pose proof (unique_sorted_NoDup (reasoning_visibility input)). tauto.
Qed.

Lemma resolve_capture_inv input l r :
  resolve_capture input = Ok (l, r) ->
  exists s k f reason ps,
    ps = match previous_lane input with
         | Some l => ExecutionLane.status l | None => LaneStatus.Active end /\
    decide_status input ps = Ok (s, k, f, reason) /\
    r = build_receipt input k f reason /\ l = build_lane input r s k f /\
    ExecutionLane.validate l = Ok tt /\ CaptureReceipt.validate r = Ok tt /\
    is_some (terminal_kind input) = is_some (terminal_event_ref input) /\
    is_some (previous_lane input) = is_some (previous_receipt input) /\
    (forall p, previous_lane input = Some p ->
       identity_mismatch input p = false /\ (ExecutionLane.finalized p = true -> f = true)) /\
    (forall q, previous_receipt input = Some q ->
       CaptureReceipt.execution_lane_id q = execution_lane_id input /\
       CaptureReceipt.capture_receipt_revision_id q <> capture_receipt_revision_id input) /\
    (forall p q, previous_lane input = Some p -> previous_receipt input = Some q ->
       ExecutionLane.active_capture_receipt_revision_id p = CaptureReceipt.capture_receipt_revision_id q).
Proof.
  unfold resolve_capture. intros H.
  apply bind_unit_ok in H as [G1 H]. apply bind_unit_ok in H as [G2 H].
  apply bind_unit_ok in H as [G3 H]. apply bind_unit_ok in H as [G4 H].
  apply bind_unit_ok in H as [G5 H]. cbv zeta in H.
  apply rbind_ok in H as ([[[s k] f] reason] & Hd & H). cbv beta iota in H.
  apply bind_unit_ok in H as [G6 H]. cbv zeta in H.
  apply bind_unit_ok in H as [V1 H]. apply bind_unit_ok in H as [V2 H]. injection H as <- <-.
  rewrite guard_ok in G1, G2, G3, G4, G5, G6. rewrite xorb_false in G1, G2.
  exists s, k, f, reason. eexists. split; [reflexivity|]. split_and!; try done.
  - intros p Hp. rewrite Hp in G3, G6. simpl in G3, G6. split; [done|].
    intros Hfin. rewrite Hfin in G6. by destruct f.
  - intros q Hq. rewrite Hq in G4. simpl in G4. guards_in G4. done.
  - intros p q Hp Hq. rewrite Hp, Hq in G5. guards_in G5. done.
Qed.

(** When each integrity dimension is complete. *)
Ltac dimension :=
  rewrite <-?is_empty_true, <-?is_empty_false, <-?contains_true;
  repeat match goal with |- context [?b] =>
    lazymatch type of b with
    | bool => lazymatch b with
              | true => fail | false => fail | negb _ => fail | orb _ _ => fail | andb _ _ => fail
              | _ => destruct b; simpl
              end
    end
  end; intuition congruence.

Lemma source_coverage_complete input :
  source_coverage_of input = SourceCoverage.Complete <->
  source_revision_refs input <> [] /\ all_sources_closed input = true /\
  eligible_event_manifest_refs input <> [] /\ source_reconciliation_complete input = true /\
  unresolved_gap_marker_refs input = [] /\ unresolved_outage_interval_refs input = [] /\
  (independent_reconciliation input = true \/
    admission_failure_observability input ∈
      [AdmissionFailureObservability.Complete; AdmissionFailureObservability.Reconcilable]) /\
  unsupported_record_types input = [].
Proof. unfold source_coverage_of. dimension. Qed.

Lemma pairing_complete input :
  pairing_of input = PairingIntegrity.Complete <->
  (tool_calls_seen input <> [] \/ tool_results_seen input <> []) /\
  unmatched_tool_call_ids input = [] /\ unmatched_tool_result_ids input = [].
Proof. unfold pairing_of. dimension. Qed.

Lemma payload_complete input :
  payload_of input = PayloadIntegrity.Complete <->
  corrupt_payload_refs input = [] /\ unavailable_payload_refs input = [] /\
  unresolved_gap_marker_refs input = [] /\ payload_truncations input = [] /\
  redaction_refs input = [].
Proof. unfold payload_of. dimension. Qed.

Lemma ordering_complete input :
  ordering_of input = OrderingIntegrity.Complete <->
  source_revision_refs input <> [] /\ sequence_gaps input = [] /\
  unresolved_outage_interval_refs input = [] /\ causal_race input = false /\
  ordering_best_effort input = false.
Proof. unfold ordering_of. dimension. Qed.

Definition resolvable (input : CaptureResolverInput) : Prop :=
  is_some (terminal_kind input) = is_some (terminal_event_ref input) /\
  terminal_kind input <> Some TerminalKind.SourceClosedUnconfirmed /\
  continues input /\ refs_ok input /\ unique_ok input /\ sequences_ok input.

Lemma resolvable_of_ok input out : resolve_capture input = Ok out -> resolvable input.
Proof.
  destruct out as [l r]. intros H.
  apply resolve_capture_inv in H
    as (s & k & f & reason & ps & Hps & Hd & -> & -> & V1 & V2 & Ht & Hp & Hl & Hr & Hlr).
  assert (exists d, decide_status input ps = Ok d) as Hde by eauto.
  apply decide_status_iff in Hde. pose proof (decide_status_ok _ _ _ _ _ _ Hd) as D.
  apply lane_valid in V1; [|done..]. apply (receipt_valid _ s) in V2; [|done..].
  unfold resolvable, continues, refs_ok, unique_ok. rewrite Forall_app.
  split_and!; try tauto.
  destruct (previous_lane input) as [p|], (previous_receipt input) as [q|]; try done.
  destruct (Hl p eq_refl) as [Hi Hfin], (Hr q eq_refl). subst ps.
  split_and!; [done..|by apply Hlr|tauto|tauto|].
  destruct D as [_ De _ _ _]. destruct f; [left; tauto|].
  right. destruct (ExecutionLane.finalized p); [by specialize (Hfin eq_refl)|]. split; [done|].
  destruct Hde as [_ [?|?]]; [|tauto]. exfalso. destruct De as [_ De]. by specialize (De H1).
Qed.

Lemma ok_of_resolvable input : resolvable input -> exists out, resolve_capture input = Ok out.
Proof.
  intros (Ht & Hk & Hc & Hrefs & Hu & Hs). unfold refs_ok in Hrefs. apply Forall_app in Hrefs.
  set (ps := match previous_lane input with
             | Some l => ExecutionLane.status l | None => LaneStatus.Active end).
  assert (exists d, decide_status input ps = Ok d) as [[[[s k] f] reason] Hd].
  { apply decide_status_iff. split; [done|]. unfold continues, ps in *.
    destruct (previous_lane input), (previous_receipt input); try done; [tauto|].
    right; right; right. apply contains_true. reflexivity. }
  pose proof (decide_status_ok _ _ _ _ _ _ Hd) as D.
  exists (build_lane input (build_receipt input k f reason) s k f, build_receipt input k f reason).
  unfold resolve_capture. unfold continues, unique_ok in *.
  apply bind_unit_ok; split; [by rewrite Ht, xorb_nilpotent|].
  apply bind_unit_ok; split.
  { by destruct (previous_lane input), (previous_receipt input). }
  apply bind_unit_ok; split.
  { apply guard_ok. destruct (previous_lane input), (previous_receipt input); simpl; tauto. }
  apply bind_unit_ok; split.
  { apply guard_ok. destruct (previous_lane input), (previous_receipt input); simpl; try done.
    rewrite orb_false_iff, negb_false_iff, bool_decide_eq_true, bool_decide_eq_false. tauto. }
  apply bind_unit_ok; split.
  { apply guard_ok. destruct (previous_lane input), (previous_receipt input); simpl; try done.
    rewrite negb_false_iff, bool_decide_eq_true. tauto. }
  cbv zeta. fold ps. rewrite Hd. cbn [rbind].
  apply bind_unit_ok; split.
  { apply guard_ok. destruct D as [_ De _ _ _].
    destruct (previous_lane input) as [p|], (previous_receipt input); simpl; try done.
    destruct f; [by rewrite andb_false_r|]. destruct Hc as (_ & _ & _ & _ & _ & [Hf|[-> _]]); [|done].
    by apply De in Hf. }
  apply bind_unit_ok; split; [|apply bind_unit_ok; split; [|done]].
  - apply lane_valid; [done..|]. split_and!; try tauto.
    destruct (previous_lane input), (previous_receipt input); tauto.
  - eapply receipt_valid; [done..|]. split_and!; try tauto.
    intros q Hq. rewrite Hq in Hc. destruct (previous_lane input); tauto.
Qed.

(** ** Histories

    The revisions of one lane, latest first, as the importer grows them: the
    first capture has no previous revision, every other continues the latest. *)
Inductive history : list (ExecutionLane * CaptureReceipt) -> Prop :=
| history_first input out :
    previous_lane input = None -> previous_receipt input = None ->
    resolve_capture input = Ok out -> history [out]
| history_next input prev rest out :
    history (prev :: rest) ->
    previous_lane input = Some prev.1 -> previous_receipt input = Some prev.2 ->
    resolve_capture input = Ok out -> history (out :: prev :: rest).

Definition same_lane (a b : ExecutionLane) : Prop :=
  ExecutionLane.execution_lane_id a = ExecutionLane.execution_lane_id b /\
  ExecutionLane.host_session_id a = ExecutionLane.host_session_id b /\
  ExecutionLane.agent_id a = ExecutionLane.agent_id b /\
  ExecutionLane.host_lane_key a = ExecutionLane.host_lane_key b /\
  ExecutionLane.incarnation_ref a = ExecutionLane.incarnation_ref b.

(** One step of a history. *)
Lemma history_step input p q l r :
  previous_lane input = Some p -> previous_receipt input = Some q ->
  resolve_capture input = Ok (l, r) ->
  same_lane p l /\
  ExecutionLane.lane_revision l = (ExecutionLane.lane_revision p + 1)%N /\
  ExecutionLane.predecessor_revision l = Some (ExecutionLane.lane_revision p) /\
  CaptureReceipt.predecessor_revision_id r = Some (CaptureReceipt.capture_receipt_revision_id q) /\
  (ExecutionLane.finalized p = true -> ExecutionLane.finalized l = true).
Proof.
  intros Hp Hq H. pose proof (resolvable_of_ok _ _ H) as (_ & _ & Hc & _).
  apply resolve_capture_inv in H
    as (s & k & f & reason & ps & _ & _ & -> & -> & _ & _ & _ & _ & Hl & _).
  destruct (Hl p Hp) as [_ Hfin]. unfold continues in Hc. rewrite Hp, Hq in Hc.
  destruct Hc as (Hi & _ & _ & _ & Hr & _). unfold identity_mismatch in Hi.
  rewrite !orb_false_iff, !negb_false_iff, !bool_decide_eq_true in Hi. destruct_and! Hi.
  cbn. rewrite Hp, Hq. split_and!; try done.
  unfold next_revision, U32_MAX in *. apply N.mod_small. lia.
Qed.

End ResolverFacts.

(** ** Theorems *)

Module LaneTheorems.
Import CaptureResolverInput Resolver ResolverFacts.

(** Exactly when a capture resolves.  [resolve_capture] succeeds if and only
    if the terminal event is coherent, the input continues the current revision
    of the same lane (or starts one), a finalized lane brings final evidence
    again, the revision counter has room, and the references are valid and
    free of duplicates.  In particular the lane and the receipt it builds never
    fail their own lifecycle checks, and a revision counter at its maximum is
    refused instead of wrapping to zero. *)
Theorem resolve_capture_iff (input : CaptureResolverInput) :
  (exists out, resolve_capture input = Ok out) <-> resolvable input.
Proof.
  split; [intros [out H]; by eapply resolvable_of_ok|apply ok_of_resolvable].
Qed.

(** A lane is finalized on evidence only.  The resolved revision is final
    exactly when the input carries an explicit terminal event, or every source
    is closed and the liveness probe found the agent absent; the end of the
    parent session alone never finalizes a lane.  The lane and its receipt agree
    on finality, kind, integrity, watermark and identity. *)
Theorem finalized_on_evidence (input : CaptureResolverInput) lane receipt :
  resolve_capture input = Ok (lane, receipt) ->
  (ExecutionLane.finalized lane = true <-> final_evidence input) /\
  ExecutionLane.finalized lane = ExecutionLane.status_is_final (ExecutionLane.status lane) /\
  CaptureReceipt.finalized receipt = ExecutionLane.finalized lane /\
  CaptureReceipt.terminal_event_kind receipt = ExecutionLane.terminal_kind lane /\
  CaptureReceipt.import_watermark receipt = ExecutionLane.event_watermark lane /\
  CaptureReceipt.execution_lane_id receipt = ExecutionLane.execution_lane_id lane /\
  CaptureReceipt.capture_receipt_revision_id receipt
    = ExecutionLane.active_capture_receipt_revision_id lane /\
  (is_some (CaptureReceipt.finalization_reason receipt) = ExecutionLane.finalized lane).
Proof.
  intros H. apply resolve_capture_inv in H
    as (s & k & f & reason & ps & _ & Hd & -> & -> & _).
  pose proof (decide_status_ok _ _ _ _ _ _ Hd) as [Hf He _ _ _]. simpl. split_and!; try done.
  revert Hd. unfold decide_status. clear.
  destruct (terminal_kind input) as [[]|]; try (by intros [= _ _ <- <-]).
  repeat (destruct (_ : bool); try (by intros [= _ _ <- <-])). 
Qed.

(** Complete captures lost nothing.  A receipt is complete in all four
    dimensions exactly when its sources exist, are closed and reconciled, every
    tool call has its result and conversely (and there was at least one), no
    payload is missing, truncated, redacted or corrupt, and no sequence gap,
    outage, race or best-effort ordering was seen. *)
Theorem complete_receipt_iff (input : CaptureResolverInput) lane receipt :
  resolve_capture input = Ok (lane, receipt) ->
  (CaptureReceipt.source_coverage receipt = SourceCoverage.Complete /\
   CaptureReceipt.pairing_integrity receipt = PairingIntegrity.Complete /\
   CaptureReceipt.payload_integrity receipt = PayloadIntegrity.Complete /\
   CaptureReceipt.ordering_integrity receipt = OrderingIntegrity.Complete) <->
  (source_revision_refs input <> [] /\ eligible_event_manifest_refs input <> [] /\
   all_sources_closed input = true /\ source_reconciliation_complete input = true /\
   (tool_calls_seen input <> [] \/ tool_results_seen input <> []) /\
   unmatched_tool_call_ids input = [] /\ unmatched_tool_result_ids input = [] /\
   corrupt_payload_refs input = [] /\ unavailable_payload_refs input = [] /\
   payload_truncations input = [] /\ redaction_refs input = [] /\
   unresolved_gap_marker_refs input = [] /\ unresolved_outage_interval_refs input = [] /\
   sequence_gaps input = [] /\ unsupported_record_types input = [] /\
   causal_race input = false /\ ordering_best_effort input = false /\
   (independent_reconciliation input = true \/
    admission_failure_observability input ∈
      [AdmissionFailureObservability.Complete; AdmissionFailureObservability.Reconcilable])).
Proof.
  intros H. apply resolve_capture_inv in H as (s & k & f & reason & ps & _ & _ & -> & _).
  cbn [build_receipt CaptureReceipt.source_coverage CaptureReceipt.pairing_integrity
    CaptureReceipt.payload_integrity CaptureReceipt.ordering_integrity].
  rewrite source_coverage_complete, pairing_complete, payload_complete, ordering_complete. tauto.
Qed.

(** The invariant of a lane's history.  In every history of captures the
    revisions are numbered 1, 2, 3, .. without gap or wrap, all of them carry the
    identity of the first, each receipt names its predecessor, and every lane and
    receipt is valid. *)
Theorem history_invariant (h : list (ExecutionLane * CaptureReceipt)) lane receipt older :
  history h -> h = (lane, receipt) :: older ->
  ExecutionLane.lane_revision lane = N.of_nat (length h) /\
  (N.of_nat (length h) < 2 ^ 32)%N /\
  ExecutionLane.validate lane = Ok tt /\ CaptureReceipt.validate receipt = Ok tt /\
  Forall (fun p => same_lane p.1 lane) older /\
  CaptureReceipt.predecessor_revision_id receipt
    = CaptureReceipt.capture_receipt_revision_id <$> (snd <$> head older) /\
  CaptureReceipt.capture_receipt_revision_id receipt
    = ExecutionLane.active_capture_receipt_revision_id lane.
Proof.
  intros H. revert lane receipt older.
  induction H as [input out Hp Hq H|input [p q] rest [l r] Hh IH Hp Hq H];
    intros lane receipt older E; simplify_eq.
  - apply resolve_capture_inv in H
      as (s & k & f & reason & ps & _ & _ & -> & -> & V1 & V2 & _).
    split_and!; try done; cbn; rewrite ?Hp, ?Hq; by try constructor.
  - destruct (IH p q rest eq_refl) as (Hrev & _ & _ & _ & Hsame & _).
    destruct (history_step _ _ _ _ _ Hp Hq H) as (Hs & Hr & _ & Hpred & _).
    pose proof (resolvable_of_ok _ _ H) as (_ & _ & Hc & _).
    apply resolve_capture_inv in H
      as (s & k & f & reason & ps & _ & _ & -> & -> & V1 & V2 & _).
    unfold continues in Hc. rewrite Hp, Hq in Hc.
    destruct Hc as (_ & _ & _ & _ & Hlt & _). unfold U32_MAX in Hlt.
    cbn [length fst snd] in *. split_and!; try done; [lia|change (2 ^ 32)%N with 4294967296%N; lia|].
    constructor; [done|]. eapply Forall_impl; [exact Hsame|].
    intros x. unfold same_lane in *. intros. destruct_and!. split_and!; congruence.
Qed.

(** A finalized lane is never reopened: once a revision of a history is
    final, every later revision is. *)
Theorem finalized_absorbing newer lane receipt older :
  history (newer ++ (lane, receipt) :: older) ->
  ExecutionLane.finalized lane = true ->
  Forall (fun p => ExecutionLane.finalized p.1 = true) newer.
Proof.
  intros H Hf. remember (newer ++ (lane, receipt) :: older) as h eqn:E.
  revert newer E. induction H as [input out Hp Hq H|input [p q] rest [l r] Hh IH Hp Hq H];
    intros newer E.
  - destruct newer as [|x [|y newer]]; [by constructor| |]; simplify_eq/=.
  - destruct newer as [|x newer]; [by constructor|].
    apply cons_inv in E as [<- E]. specialize (IH newer E).
    destruct (history_step _ _ _ _ _ Hp Hq H) as (_ & _ & _ & _ & Hfin).
    constructor; [|done]. apply Hfin.
    destruct newer as [|y newer]; apply cons_inv in E as [-> E]; [done|].
    by apply Forall_cons in IH as [? _].
Qed.

(** ** A concrete capture *)

Definition lane_id : ExecutionLaneId := mk_id (mk_uuid 1).
Definition receipt_id (n : N) : CaptureReceiptId := mk_id (mk_uuid n).

(** A lane captured from one closed source, with a paired tool call. *)
Definition sample_input (receipt : N) (previous : option (ExecutionLane * CaptureReceipt))
    (terminal : option string) : CaptureResolverInput := {|
  execution_lane_id := lane_id; capture_receipt_revision_id := receipt_id receipt;
  previous_lane := fst <$> previous; previous_receipt := snd <$> previous;
  host_session_id := "session"; agent_id := "agent"; host_lane_key := "lane";
  incarnation_ref := "incarnation"; parent_lane_id := None; parent_host_lane_key := None;
  spawn_event_ref := Some "spawn"%string; terminal_event_ref := terminal;
  terminal_kind := (fun _ => TerminalKind.Normal) <$> terminal;
  host_final_return := true; parent_session_end_seen := true;
  liveness_state := LivenessState.Unknown; liveness_probe_refs := ["probe"%string];
  all_sources_closed := true; source_closed_refs := []; source_close_watermark_refs := [];
  source_close_reconciliation_refs := []; source_reconciliation_complete := true;
  adapter_manifest_ids := ["adapter"%string]; eligible_event_manifest_refs := ["manifest"%string];
  source_revision_refs := ["source"%string]; manifest_coverage := [CoverageLevel.Full];
  required_for_full := {["child"%string]}; observed_capabilities := {["child"%string]};
  admission_failure_observability := AdmissionFailureObservability.Complete;
  independent_reconciliation := false; admission_failure_evidence_refs := [];
  identity_strength := IdentityStrength.StableNative; child_session_id := Some "child"%string;
  first_sequence := Some 1%N; last_sequence := Some 9%N; sequence_gaps := [];
  capture_gap_marker_refs := []; unresolved_gap_marker_refs := [];
  capture_outage_interval_refs := []; unresolved_outage_interval_refs := [];
  tool_calls_seen := ["call"%string]; tool_results_seen := ["call"%string];
  unmatched_tool_call_ids := []; unmatched_tool_result_ids := [];
  payload_truncations := []; redaction_refs := []; corrupt_payload_refs := [];
  unavailable_payload_refs := []; unsupported_record_types := []; causal_race := false;
  ordering_best_effort := false;
  reasoning_visibility := [ReasoningVisibility.Summary; ReasoningVisibility.Raw];
  import_watermark := 9; delegated_goal_ref := None; delegated_target_refs := [];
  delegated_acceptance_refs := []; operation_ids := []; correction_reason := None |}.

(** The revision an input resolves to ([None] on an error). *)
Definition resolved (input : CaptureResolverInput) : option (ExecutionLane * CaptureReceipt) :=
  match resolve_capture input with Ok out => Some out | Err _ => None end.

Definition rev1 := Eval vm_compute in resolved (sample_input 10 None None).
Definition rev2 := Eval vm_compute in resolved (sample_input 11 rev1 (Some "terminal"%string)).
Definition rev3 := Eval vm_compute in resolved (sample_input 12 rev2 (Some "terminal"%string)).

(** Three revisions of the sample lane: unresolved, returned, corrected. *)
Definition sample_history : list (ExecutionLane * CaptureReceipt) :=
  Eval vm_compute in omap id [rev3; rev2; rev1].

Lemma sample_history_ok : history sample_history.
Proof.
  eapply (history_next (sample_input 12 rev2 (Some "terminal"%string)));
    [|reflexivity|reflexivity|vm_compute; reflexivity].
  eapply (history_next (sample_input 11 rev1 (Some "terminal"%string)));
    [|reflexivity|reflexivity|vm_compute; reflexivity].
  apply (history_first (sample_input 10 None None)); vm_compute; reflexivity.
Qed.

Lemma resolve_capture_iff_witness :
  resolvable (sample_input 10 None None) /\
  exists out, resolve_capture (sample_input 10 None None) = Ok out.
Proof.
  split; [apply resolve_capture_iff|]; eexists; vm_compute; reflexivity.
Defined.

Lemma finalized_on_evidence_witness :
  exists lane receipt,
    resolve_capture (sample_input 10 None None) = Ok (lane, receipt) /\
    (ExecutionLane.finalized lane = true <-> final_evidence (sample_input 10 None None)).
Proof.
  eexists _, _. split; [vm_compute; reflexivity|].
  eapply finalized_on_evidence. vm_compute. reflexivity.
Defined.

Lemma complete_receipt_iff_witness :
  exists lane receipt,
    resolve_capture (sample_input 10 None None) = Ok (lane, receipt) /\
    tool_calls_seen (sample_input 10 None None) = ["call"%string] /\
    corrupt_payload_refs (sample_input 10 None None) = [].
Proof.
  eexists _, _. split; [vm_compute; reflexivity|]. split; [reflexivity|].
  eapply (proj1 (complete_receipt_iff (sample_input 10 None None) _ _ ltac:(vm_compute; reflexivity))).
  vm_compute. done.
Defined.

Lemma history_invariant_witness :
  exists lane receipt older,
    sample_history = (lane, receipt) :: older /\ ExecutionLane.lane_revision lane = 3%N.
Proof.
  eexists _, _, _. split; [reflexivity|].
  exact (proj1 (history_invariant sample_history _ _ _ sample_history_ok eq_refl)).
Defined.

Lemma finalized_absorbing_witness :
  exists a b c, sample_history = [a; b; c] /\ ExecutionLane.finalized b.1 = true /\
  Forall (fun p => ExecutionLane.finalized p.1 = true) [a].
Proof.
  eexists _, (_, _), _. split; [reflexivity|]. split; [reflexivity|].
  exact (finalized_absorbing [_] _ _ [_] sample_history_ok eq_refl).
Defined.

End LaneTheorems.
