(* ===== verification/Journal.v ===== *)
(** * The command envelope

    The part of [evertrace-store/src/command.rs] the work engine goes through to
    record a revision, and the context and errors of [evertrace-engine/src/work.rs].
    The payload is a parameter: each component instantiates it with the events
    it records. *)

From S2P Require Import Prelude Order Collections Text Ids.

Module StoreError.
Inductive StoreError :=
| InvalidInput
| InvalidPath
| InvalidType
| WrongOwner
| InvalidPermissions
| WriterAlreadyRunning
| IdempotencyConflict
| StaleFrontier
| ReconciliationDependencyOverflow
| StoreCorrupt
| Migration
| UpgradeRequired
| Projection
| Serialization
| Arrow
| LanceDb
| Io.
#[export] Instance eq_dec : EqDecision StoreError.
Proof. solve_decision. Defined.
End StoreError.
Abbreviation StoreError := StoreError.StoreError.
Export (hints) StoreError.

Module WorkIdentityError.
Inductive WorkIdentityError :=
| InvalidInput
| ScopeUnresolved
| Conflict
| Store (_ : StoreError).
#[export] Instance eq_dec : EqDecision WorkIdentityError.
Proof. solve_decision. Defined.
End WorkIdentityError.
Abbreviation WorkIdentityError := WorkIdentityError.WorkIdentityError.
Export (hints) WorkIdentityError.

Module WorkCommandContext.
Record WorkCommandContext := mk {
  command_id : CommandId;
  occurred_at_us : Z;
  effective_config_hash : list byte;
  algorithm_revision : string;
}.
#[export] Instance eq_dec : EqDecision WorkCommandContext.
Proof. solve_decision. Defined.
End WorkCommandContext.
Abbreviation WorkCommandContext := WorkCommandContext.WorkCommandContext.
Export (hints) WorkCommandContext.

Module SourceKind.
Inductive SourceKind :=
| Hook
| Session
| Manual
| Import
| System
| Model.
#[export] Instance eq_dec : EqDecision SourceKind.
Proof. solve_decision. Defined.
End SourceKind.
Abbreviation SourceKind := SourceKind.SourceKind.
Export (hints) SourceKind.

Module EventScope.
Record EventScope := mk {
  project_id : option string;
  repository_id : option string;
  worktree_id : option string;
  task_id : option string;
  workstream_id : option string;
  session_id : option string;
  execution_lane_id : option string;
}.
#[export] Instance eq_dec : EqDecision EventScope.
Proof. solve_decision. Defined.
Definition default : EventScope := mk None None None None None None None.
End EventScope.
Abbreviation EventScope := EventScope.EventScope.
Export (hints) EventScope.

Module JournalEventDraft.
Record JournalEventDraft (P : Type) := mk {
  occurred_at_us : Z;
  source_kind : SourceKind;
  scope : EventScope;
  causation_id : option string;
  correlation_id : option string;
  effective_config_hash : list byte;
  algorithm_revision : string;
  payload : P;
}.
Arguments mk {P} _ _ _ _ _ _ _ _.
Arguments source_kind {P} _.
Arguments payload {P} _.

Definition runtime {P} (occurred_at_us : Z) (effective_config_hash : list byte)
    (algorithm_revision : string) (payload : P) : JournalEventDraft P :=
  mk occurred_at_us SourceKind.System EventScope.default None None effective_config_hash
     algorithm_revision payload.

(** [event.source_kind = source_kind;] *)
Definition with_source {P} (e : JournalEventDraft P) (k : SourceKind) : JournalEventDraft P :=
  match e with
  | mk t _ sc ca co h r p => mk t k sc ca co h r p
  end.
End JournalEventDraft.
Abbreviation JournalEventDraft := JournalEventDraft.JournalEventDraft.

Module JournalCommand.
Record JournalCommand (P : Type) := mk {
  command_id : CommandId;
  events : list (JournalEventDraft P);
}.
Arguments mk {P} _ _.
Arguments command_id {P} _.
Arguments events {P} _.

Definition new {P} (command_id : CommandId) (events : list (JournalEventDraft P))
  : result StoreError (JournalCommand P) :=
  do? guard (is_empty events || (U16_MAX <? N.of_nat (length events))%N) StoreError.InvalidInput in
  Ok (mk command_id events).
End JournalCommand.
Abbreviation JournalCommand := JournalCommand.JournalCommand.

(** The payloads a command records, in order. *)
Definition payloads {P} (c : JournalCommand P) : list P :=
  JournalEventDraft.payload <$> JournalCommand.events c.

(** A command of one runtime event: [runtime(..)], the source kind, [new(..)]. *)
Definition single_command {P} (context : WorkCommandContext) (kind : SourceKind) (payload : P)
  : result WorkIdentityError (JournalCommand P) :=
  let event := JournalEventDraft.with_source
    (JournalEventDraft.runtime (WorkCommandContext.occurred_at_us context)
       (WorkCommandContext.effective_config_hash context)
       (WorkCommandContext.algorithm_revision context) payload) kind in
  map_err WorkIdentityError.Store
    (JournalCommand.new (WorkCommandContext.command_id context) [event]).

Lemma single_command_ok {P} context kind (payload : P) :
  exists c, single_command context kind payload = Ok c /\ payloads c = [payload].
Proof. eexists. split; [reflexivity|done]. Qed.

Lemma single_command_payloads {P} context kind (payload : P) c :
  single_command context kind payload = Ok c -> payloads c = [payload].
Proof. intros [= <-]. done. Qed.

(** A command of several runtime events. *)
Definition runtime_command {P} (context : WorkCommandContext) (events : list P)
  : result WorkIdentityError (JournalCommand P) :=
  map_err WorkIdentityError.Store
    (JournalCommand.new (WorkCommandContext.command_id context)
       (JournalEventDraft.runtime (WorkCommandContext.occurred_at_us context)
          (WorkCommandContext.effective_config_hash context)
          (WorkCommandContext.algorithm_revision context) <$> events)).

Lemma runtime_command_payloads {P} context (events : list P) c :
  runtime_command context events = Ok c -> payloads c = events.
Proof.
  unfold runtime_command, JournalCommand.new, payloads. destruct (guard _ _); [|done].
  intros [= <-]. cbn. rewrite <-list_fmap_compose. apply list_fmap_id.
Qed.
