(* ===== verification/Objects.v ===== *)
(** * Object rows and their shared payloads (crates/evertrace-store/src/objects.rs)

    The row of the objects table with its closed checks, the checkpoint row, and
    the builder that packs the payload texts of rows decoded together into shared
    backing strings of bounded size.  A payload is a range of its backing; the
    file proves that packing loses and mixes nothing and that no backing grows
    beyond its bound. *)

From S2P Require Import Prelude Order Collections Text Ids Journal.

Definition OBJECTS_CHECKPOINT_ID : string := "checkpoint:evertrace_objects".
Definition OBJECT_ROW_PAYLOAD_BLOCK_BYTES : nat := 64 * 1024.
Definition OBJECT_ROW_PAYLOAD_BLOCK_ROWS : nat := 1024.
Arguments OBJECT_ROW_PAYLOAD_BLOCK_BYTES : simpl never.
Arguments OBJECT_ROW_PAYLOAD_BLOCK_ROWS : simpl never.

Module ObjectRowKind.
Inductive ObjectRowKind :=
| Data
| Checkpoint.
#[export] Instance eq_dec : EqDecision ObjectRowKind.
Proof. solve_decision. Defined.
End ObjectRowKind.
Abbreviation ObjectRowKind := ObjectRowKind.ObjectRowKind.
Export (hints) ObjectRowKind.

Definition ObjectRowKind_as_str (self : ObjectRowKind) : string :=
  match self with ObjectRowKind.Data => "data" | ObjectRowKind.Checkpoint => "checkpoint" end.

Definition ObjectRowKind_parse (value : string) : result StoreError ObjectRowKind :=
  if decide (value = "data"%string) then Ok ObjectRowKind.Data
  else if decide (value = "checkpoint"%string) then Ok ObjectRowKind.Checkpoint
  else Err StoreError.StoreCorrupt.

Module ObjectRowClass.
Inductive ObjectRowClass :=
| Object
| Runtime
| Projection.
#[export] Instance eq_dec : EqDecision ObjectRowClass.
Proof. solve_decision. Defined.
End ObjectRowClass.
Abbreviation ObjectRowClass := ObjectRowClass.ObjectRowClass.
Export (hints) ObjectRowClass.

Definition ObjectRowClass_as_str (self : ObjectRowClass) : string :=
  match self with
  | ObjectRowClass.Object => "object"
  | ObjectRowClass.Runtime => "runtime"
  | ObjectRowClass.Projection => "projection"
  end.

Definition ObjectRowClass_parse (value : string) : result StoreError ObjectRowClass :=
  if decide (value = "object"%string) then Ok ObjectRowClass.Object
  else if decide (value = "runtime"%string) then Ok ObjectRowClass.Runtime
  else if decide (value = "projection"%string) then Ok ObjectRowClass.Projection
  else Err StoreError.StoreCorrupt.

Module ObjectFamily.
Inductive ObjectFamily :=
| Evidence
| Work
| Atom
| Procedure
| RevisionProposal.
#[export] Instance eq_dec : EqDecision ObjectFamily.
Proof. solve_decision. Defined.
End ObjectFamily.
Abbreviation ObjectFamily := ObjectFamily.ObjectFamily.
Export (hints) ObjectFamily.

Definition ObjectFamily_as_str (self : ObjectFamily) : string :=
  match self with
  | ObjectFamily.Evidence => "evidence"
  | ObjectFamily.Work => "work"
  | ObjectFamily.Atom => "atom"
  | ObjectFamily.Procedure => "procedure"
  | ObjectFamily.RevisionProposal => "revision_proposal"
  end.

Definition ObjectFamily_parse (value : string) : result StoreError ObjectFamily :=
  if decide (value = "evidence"%string) then Ok ObjectFamily.Evidence
  else if decide (value = "work"%string) then Ok ObjectFamily.Work
  else if decide (value = "atom"%string) then Ok ObjectFamily.Atom
  else if decide (value = "procedure"%string) then Ok ObjectFamily.Procedure
  else if decide (value = "revision_proposal"%string) then Ok ObjectFamily.RevisionProposal
  else Err StoreError.StoreCorrupt.

(** ** Payloads *)

(** [str::is_char_boundary] on the bytes of a string. *)
Definition is_char_boundary (l : list byte) (index : nat) : bool :=
  (index =? 0)%nat
  || match l !! index with
     | Some b => negb (is_cont (byte_N b))
     | None => (index =? length l)%nat
     end.

(** A range of a backing string, which payloads may share. *)
Module RowPayload.
Record RowPayload := mk {
  backing : string;
  start : nat;
  end_ : nat;
}.
#[export] Instance eq_dec : EqDecision RowPayload.
Proof. solve_decision. Defined.
(** [&self.backing[self.start..self.end]]: [None] is the panic of a range that
    is out of bounds or cuts a character. *)
Definition as_str (self : RowPayload) : option string :=
  let l := as_bytes (backing self) in
  if (start self <=? end_ self)%nat && is_char_boundary l (start self) && is_char_boundary l (end_ self)
  then Some (of_bytes (take (end_ self - start self) (drop (start self) l))) else None.

Definition payload_len (self : RowPayload) : nat := end_ self - start self.

Definition from_shared (v_backing : string) (v_start v_end : nat) : RowPayload := mk v_backing v_start v_end.

(** [From<String>] and [From<&str>]. *)
Definition from (text : string) : RowPayload := from_shared text 0 (length (as_bytes text)).
End RowPayload.
Abbreviation RowPayload := RowPayload.RowPayload.
Export (hints) RowPayload.

(** ** Rows *)

Module ObjectRow.
Record ObjectRow := mk {
  row_id : string;
  row_kind : ObjectRowKind;
  row_class : option ObjectRowClass;
  object_family : option ObjectFamily;
  object_kind : option string;
  object_id : option string;
  current_revision_id : option string;
  lifecycle : option string;
  epistemic : option string;
  authority : option string;
  publication_state : option string;
  support_state : option string;
  project_id : option string;
  repository_id : option string;
  worktree_id : option string;
  task_id : option string;
  workstream_id : option string;
  session_id : option string;
  payload_json : option RowPayload;
  source_event_seq : N;
  projection_generation : N;
}.
#[export] Instance eq_dec : EqDecision ObjectRow.
Proof. solve_decision. Defined.
Definition set_payload (self : ObjectRow)
    (v_payload_json : option RowPayload) : ObjectRow :=
  mk
    (self.(row_id)) (self.(row_kind)) (self.(row_class)) (self.(object_family))
    (self.(object_kind)) (self.(object_id)) (self.(current_revision_id)) (self.(lifecycle))
    (self.(epistemic)) (self.(authority)) (self.(publication_state)) (self.(support_state))
    (self.(project_id)) (self.(repository_id)) (self.(worktree_id)) (self.(task_id))
    (self.(workstream_id)) (self.(session_id)) v_payload_json (self.(source_event_seq))
    (self.(projection_generation)).
Definition checkpoint (frontier generation : N) : ObjectRow :=
  mk OBJECTS_CHECKPOINT_ID ObjectRowKind.Checkpoint None None None None None None None None None None
    None None None None None None None frontier generation.

Definition validate (self : ObjectRow) : result StoreError unit :=
  do? guard (str_is_empty (row_id self) || (projection_generation self =? 0)%N) StoreError.StoreCorrupt in
  match row_kind self with
  | ObjectRowKind.Checkpoint =>
      guard ((row_id self !=? OBJECTS_CHECKPOINT_ID)
             || is_some (row_class self) || is_some (object_family self) || is_some (object_kind self)
             || is_some (object_id self) || is_some (current_revision_id self) || is_some (lifecycle self)
             || is_some (epistemic self) || is_some (authority self) || is_some (publication_state self)
             || is_some (support_state self) || is_some (project_id self) || is_some (repository_id self)
             || is_some (worktree_id self) || is_some (task_id self) || is_some (workstream_id self)
             || is_some (session_id self) || is_some (payload_json self))
        StoreError.StoreCorrupt
  | ObjectRowKind.Data =>
      let? class := ok_or (row_class self) StoreError.StoreCorrupt in
      do? guard (is_none (payload_json self)) StoreError.StoreCorrupt in
      match class with
      | ObjectRowClass.Object =>
          guard (is_none (object_family self) || is_none (object_id self)) StoreError.StoreCorrupt
      | ObjectRowClass.Runtime | ObjectRowClass.Projection =>
          guard (is_some (object_family self) || is_some (object_id self)) StoreError.StoreCorrupt
      end
  end.
End ObjectRow.
Abbreviation ObjectRow := ObjectRow.ObjectRow.
Export (hints) ObjectRow.

Definition checkpoint_from_rows (rows : list ObjectRow) : result StoreError N :=
  match List.filter (fun row => ObjectRow.row_id row ==? OBJECTS_CHECKPOINT_ID) rows with
  | [] => Err StoreError.StoreCorrupt
  | [checkpoint] =>
      do? guard (ObjectRow.row_kind checkpoint !=? ObjectRowKind.Checkpoint) StoreError.StoreCorrupt in
      Ok (ObjectRow.source_event_seq checkpoint)
  | _ => Err StoreError.StoreCorrupt
  end.

(** ** Packing payloads into blocks *)

Module PendingRowPayload.
Record PendingRowPayload := mk {
  row_index : nat;
  start : nat;
  end_ : nat;
}.
#[export] Instance eq_dec : EqDecision PendingRowPayload.
Proof. solve_decision. Defined.
End PendingRowPayload.
Abbreviation PendingRowPayload := PendingRowPayload.PendingRowPayload.
Export (hints) PendingRowPayload.

Module RowPayloadBlockBuilder.
Record RowPayloadBlockBuilder := mk {
  open : string;
  pending : list PendingRowPayload;
}.
#[export] Instance eq_dec : EqDecision RowPayloadBlockBuilder.
Proof. solve_decision. Defined.
Definition default : RowPayloadBlockBuilder := mk EmptyString [].
End RowPayloadBlockBuilder.
Abbreviation RowPayloadBlockBuilder := RowPayloadBlockBuilder.RowPayloadBlockBuilder.
Export (hints) RowPayloadBlockBuilder.

Section blocks.
Import RowPayloadBlockBuilder.

(** [seal]: the open text becomes the backing of the pending rows; a pending row
    that does not exist is refused. *)
Definition seal_pending (backing : string) (rows : list ObjectRow) (pending : PendingRowPayload)
  : result StoreError (list ObjectRow) :=
  let? row := ok_or (rows !! PendingRowPayload.row_index pending) StoreError.StoreCorrupt in
  Ok (<[PendingRowPayload.row_index pending :=
        ObjectRow.set_payload row (Some (RowPayload.from_shared backing
          (PendingRowPayload.start pending) (PendingRowPayload.end_ pending)))]> rows).

Fixpoint seal_all (backing : string) (l : list PendingRowPayload) (rows : list ObjectRow)
  : result StoreError (list ObjectRow) :=
  match l with
  | [] => Ok rows
  | pending :: l => let? rows := seal_pending backing rows pending in seal_all backing l rows
  end.

Definition seal (self : RowPayloadBlockBuilder) (rows : list ObjectRow)
  : result StoreError (RowPayloadBlockBuilder * list ObjectRow) :=
  if is_empty (pending self) then Ok (self, rows)
  else let? rows := seal_all (open self) (pending self) rows in Ok (default, rows).

Definition push_text_inner (self : RowPayloadBlockBuilder) (rows : list ObjectRow) (row : ObjectRow)
    (text : string) : result StoreError (RowPayloadBlockBuilder * list ObjectRow) :=
  let text_len := length (as_bytes text) in
  if (OBJECT_ROW_PAYLOAD_BLOCK_BYTES <? text_len)%nat then
    let? sealed := seal self rows in
    Ok (sealed.1, sealed.2 ++ [ObjectRow.set_payload row (Some (RowPayload.from text))])
  else
    let? current :=
      if (OBJECT_ROW_PAYLOAD_BLOCK_ROWS <=? length (pending self))%nat
         || (OBJECT_ROW_PAYLOAD_BLOCK_BYTES <? length (as_bytes (open self)) + text_len)%nat
      then seal self rows else Ok (self, rows) in
    let self := current.1 in
    let rows := current.2 in
    let start := length (as_bytes (open self)) in
    let open' := (open self +:+ text)%string in
    Ok (mk open' (pending self ++ [PendingRowPayload.mk (length rows) start (length (as_bytes open'))]),
        rows ++ [row]).

(** [push_payload] takes the payload out of the row before; reading it can panic. *)
Definition push_payload (self : RowPayloadBlockBuilder) (rows : list ObjectRow) (row : ObjectRow)
    (payload : RowPayload) : result (fault StoreError) (RowPayloadBlockBuilder * list ObjectRow) :=
  if (OBJECT_ROW_PAYLOAD_BLOCK_BYTES <? RowPayload.payload_len payload)%nat then
    let? sealed := map_err Raise (seal self rows) in
    Ok (sealed.1, sealed.2 ++ [ObjectRow.set_payload row (Some payload)])
  else
    let? text := ok_or (RowPayload.as_str payload) Panicked in
    map_err Raise (push_text_inner self rows row text).

Definition push_row (self : RowPayloadBlockBuilder) (rows : list ObjectRow) (row : ObjectRow)
  : result (fault StoreError) (RowPayloadBlockBuilder * list ObjectRow) :=
  do? map_err Raise (ObjectRow.validate row) in
  match ObjectRow.payload_json row with
  | None => Ok (self, rows ++ [row])
  | Some payload => push_payload self rows (ObjectRow.set_payload row None) payload
  end.

Definition push_text (self : RowPayloadBlockBuilder) (rows : list ObjectRow) (row : ObjectRow)
    (text : string) : result StoreError (RowPayloadBlockBuilder * list ObjectRow) :=
  push_text_inner self rows row text.

Definition finish (self : RowPayloadBlockBuilder) (rows : list ObjectRow) : result StoreError (list ObjectRow) :=
  let? sealed := seal self rows in Ok sealed.2.

(** How the callers use it: rows pushed one by one, then [finish]. *)
Fixpoint push_rows (self : RowPayloadBlockBuilder) (rows input : list ObjectRow)
  : result (fault StoreError) (RowPayloadBlockBuilder * list ObjectRow) :=
  match input with
  | [] => Ok (self, rows)
  | row :: input =>
      let? pushed := push_row self rows row in
      push_rows pushed.1 pushed.2 input
  end.

Definition pack (input : list ObjectRow) : result (fault StoreError) (list ObjectRow) :=
  let? pushed := push_rows default [] input in
  map_err Raise (finish pushed.1 pushed.2).
End blocks.

(** ** Facts *)

Module BlockFacts.
Import RowPayload.

(** A character does not begin with a continuation byte. *)
Lemma utf8_head b l : utf8_valid (b :: l) = true -> is_cont (byte_N b) = false.
Proof.
  unfold utf8_valid. cbn [fmap list_fmap]. generalize (byte_N <$> l) as r, (byte_N b) as n. intros r n H.
  unfold is_cont. apply andb_false_iff. rewrite N.leb_gt, N.ltb_ge.
  destruct (N.lt_ge_cases n 128) as [?|Hn]; [by left|right].
  destruct (N.le_gt_cases 192 n) as [?|Hc]; [done|exfalso].
  apply is_some_true in H as [cs H]. cbn [utf8_chars] in H.
  assert (F : forall a c, (192 <= a)%N -> (a <=? n)%N && c = false).
  { intros a c Ha. replace (a <=? n)%N with false; [done|]. symmetry. apply N.leb_gt. lia. }
  rewrite (proj2 (N.ltb_ge n 128) Hn) in H. rewrite <-?andb_assoc in H.
  destruct r as [|b1 [|b2 [|b3 r]]]; rewrite ?F in H by done; done.
Qed.

Lemma is_char_boundary_spec l i :
  is_char_boundary l i = true <->
  i = 0%nat \/ i = length l \/ exists b, l !! i = Some b /\ is_cont (byte_N b) = false.
Proof.
  unfold is_char_boundary. rewrite orb_true_iff, Nat.eqb_eq. destruct (l !! i) as [b|] eqn:E.
  - rewrite negb_true_iff. split; [naive_solver|]. intros [->|[->|(? & ? & ?)]]; [by left| |naive_solver].
    by rewrite lookup_ge_None_2 in E.
  - rewrite Nat.eqb_eq. naive_solver.
Qed.

Lemma boundary_le l i : is_char_boundary l i = true -> (i <= length l)%nat.
Proof.
  rewrite is_char_boundary_spec. intros [->|[->|(b & Hb & _)]]; [lia..|].
  apply lookup_lt_Some in Hb. lia.
Qed.

(** Appending text moves no boundary. *)
Lemma boundary_extend l r i :
  utf8_valid r = true -> is_char_boundary l i = true -> is_char_boundary (l ++ r) i = true.
Proof.
  intros Hr H. pose proof (boundary_le l i H) as Hle. apply is_char_boundary_spec.
  apply is_char_boundary_spec in H as [->|[->|(b & Hb & Hc)]]; [by left| |].
  - destruct r as [|b r].
    + right; left. by rewrite app_nil_r.
    + right; right. exists b. split; [|by eapply utf8_head].
      by rewrite lookup_app_r, Nat.sub_diag by lia.
  - right; right. exists b. split; [|done]. by apply lookup_app_l_Some.
Qed.

Lemma as_str_extend o t s e u :
  str_ok t -> as_str (from_shared o s e) = Some u -> as_str (from_shared (o +:+ t)%string s e) = Some u.
Proof.
  intros Ht. unfold as_str. cbn [backing start end_ from_shared]. rewrite as_bytes_append.
  destruct (_ && _) eqn:E in |- *; [|done]. rewrite !andb_true_iff, Nat.leb_le in E.
  destruct E as [[Hse Hs] He]. intros [= <-].
  rewrite (boundary_extend _ _ s Ht Hs), (boundary_extend _ _ e Ht He).
  rewrite (proj2 (Nat.leb_le s e) Hse). cbn. do 2 f_equal.
  pose proof (boundary_le _ _ He). rewrite drop_app_le by lia. apply take_app_le. rewrite length_drop. lia.
Qed.

Lemma as_str_appended o t :
  str_ok t ->
  as_str (from_shared (o +:+ t)%string (length (as_bytes o)) (length (as_bytes (o +:+ t)%string))) = Some t.
Proof.
  intros Ht. unfold as_str. cbn [backing start end_ from_shared]. rewrite as_bytes_append, length_app.
  assert (is_char_boundary (as_bytes o ++ as_bytes t) (length (as_bytes o)) = true) as ->.
  { apply boundary_extend; [done|]. apply is_char_boundary_spec. by right; left. }
  assert (is_char_boundary (as_bytes o ++ as_bytes t) (length (as_bytes o) + length (as_bytes t)) = true) as ->.
  { apply is_char_boundary_spec. right; left. by rewrite length_app. }
  replace (_ <=? _)%nat with true by (symmetry; apply Nat.leb_le; lia). cbn. f_equal.
  rewrite drop_app_length, Nat.add_comm, Nat.add_sub, firstn_all. apply of_as_bytes.
Qed.

Lemma as_str_from t : str_ok t -> as_str (from t) = Some t.
Proof. exact (as_str_appended EmptyString t). Qed.
End BlockFacts.

(** ** What packing preserves *)

Module BlockSpec.
Import RowPayload.

(** The payload of a packed row reads as the given one did, and what it keeps in
    memory is at most a block, or the payload it was given. *)
Definition payload_kept (p q : RowPayload) : Prop :=
  as_str q = as_str p /\
  ((length (as_bytes (backing q)) <= OBJECT_ROW_PAYLOAD_BLOCK_BYTES)%nat \/
   q = p /\ (OBJECT_ROW_PAYLOAD_BLOCK_BYTES < payload_len p)%nat).

Definition row_kept (row packed : ObjectRow) : Prop :=
  ObjectRow.set_payload packed None = ObjectRow.set_payload row None /\
  match ObjectRow.payload_json row, ObjectRow.payload_json packed with
  | None, None => True
  | Some p, Some q => payload_kept p q
  | _, _ => False
  end.

(** A row the store can hold: it validates, and its payload is text. *)
Definition row_ok (row : ObjectRow) : Prop :=
  ObjectRow.validate row = Ok tt /\
  forall p, ObjectRow.payload_json row = Some p -> exists t, as_str p = Some t /\ str_ok t.

(** While rows are pushed: a row is as it will be, or pending with its range of
    the open text. *)
Definition waiting (b : RowPayloadBlockBuilder) (i : nat) (p : RowPayload) : Prop :=
  exists d, d ∈ RowPayloadBlockBuilder.pending b /\ PendingRowPayload.row_index d = i /\
    is_some (as_str p) = true /\
    as_str (from_shared (RowPayloadBlockBuilder.open b) (PendingRowPayload.start d) (PendingRowPayload.end_ d))
      = as_str p.

Definition row_progress (b : RowPayloadBlockBuilder) (i : nat) (row current : ObjectRow) : Prop :=
  row_kept row current /\ i ∉ PendingRowPayload.row_index <$> RowPayloadBlockBuilder.pending b \/
  ObjectRow.set_payload current None = ObjectRow.set_payload row None /\
  ObjectRow.payload_json current = None /\
  exists p, ObjectRow.payload_json row = Some p /\ waiting b i p.

Record packing (b : RowPayloadBlockBuilder) (input rows : list ObjectRow) : Prop := {
  packing_length : length rows = length input;
  packing_row i row current : input !! i = Some row -> rows !! i = Some current -> row_progress b i row current;
  packing_index : Forall (fun d => PendingRowPayload.row_index d < length rows)%nat (RowPayloadBlockBuilder.pending b);
  packing_NoDup : NoDup (PendingRowPayload.row_index <$> RowPayloadBlockBuilder.pending b);
  packing_open : (length (as_bytes (RowPayloadBlockBuilder.open b)) <= OBJECT_ROW_PAYLOAD_BLOCK_BYTES)%nat;
  packing_empty : RowPayloadBlockBuilder.pending b = [] -> RowPayloadBlockBuilder.open b = EmptyString;
  packing_pending : (length (RowPayloadBlockBuilder.pending b) <= OBJECT_ROW_PAYLOAD_BLOCK_ROWS)%nat;
}.
End BlockSpec.

Module BlockProofs.
Import RowPayload BlockFacts BlockSpec.

Lemma set_payload_twice row p q :
  ObjectRow.set_payload (ObjectRow.set_payload row p) q = ObjectRow.set_payload row q.
Proof. done. Qed.

(** Sealing fills in the pending rows and touches no other. *)
Lemma seal_all_spec o l : forall rows,
  NoDup (PendingRowPayload.row_index <$> l) ->
  Forall (fun d => PendingRowPayload.row_index d < length rows)%nat l ->
  exists rows', seal_all o l rows = Ok rows' /\ length rows' = length rows /\
    (forall i row, rows !! i = Some row -> i ∉ PendingRowPayload.row_index <$> l -> rows' !! i = Some row) /\
    (forall d row, d ∈ l -> rows !! PendingRowPayload.row_index d = Some row ->
       rows' !! PendingRowPayload.row_index d = Some (ObjectRow.set_payload row
         (Some (from_shared o (PendingRowPayload.start d) (PendingRowPayload.end_ d))))).
Proof.
  induction l as [|d l IH]; intros rows Hnd Hidx.
  { exists rows. split_and!; try done. intros d row Hd. by apply elem_of_nil in Hd. }
  apply Forall_cons in Hidx as [Hd Hidx]. apply NoDup_cons in Hnd as [Hnin Hnd].
  destruct (lookup_lt_is_Some_2 rows _ Hd) as [r Hr].
  cbn [seal_all]. unfold seal_pending. rewrite Hr. cbn [ok_or rbind].
  destruct (IH (<[PendingRowPayload.row_index d := ObjectRow.set_payload r (Some (from_shared o
    (PendingRowPayload.start d) (PendingRowPayload.end_ d)))]> rows)) as (rows' & E & Hl & Ho & Hs); [done| |].
  { by rewrite length_insert. }
  exists rows'. rewrite length_insert in Hl. split_and!; [done..| |].
  - intros i row Hi Hni. rewrite fmap_cons, not_elem_of_cons in Hni. destruct Hni as [Hne Hni].
    apply Ho; [|done]. by rewrite list_lookup_insert_ne.
  - intros d' row [-> |Hin]%elem_of_cons Hi.
    + simplify_eq. apply Ho; [|done]. by apply list_lookup_insert_eq.
    + assert (PendingRowPayload.row_index d <> PendingRowPayload.row_index d') as Hne.
      { intros Heq. apply Hnin. rewrite Heq. by apply list_elem_of_fmap_2. }
      apply Hs; [done|]. by rewrite list_lookup_insert_ne.
Qed.

(** After sealing no row is pending and every row is as it will be. *)
Lemma seal_spec b input rows :
  packing b input rows ->
  exists b' rows', seal b rows = Ok (b', rows') /\ packing b' input rows' /\
    RowPayloadBlockBuilder.pending b' = [].
Proof.
  intros [Hlen Hrow Hidx Hnd Ho He0 Hp]. unfold seal.
  destruct (is_empty (RowPayloadBlockBuilder.pending b)) eqn:He.
  { apply is_empty_true in He. exists b, rows. by split_and!. }
  destruct (seal_all_spec (RowPayloadBlockBuilder.open b) _ rows Hnd Hidx) as (rows' & -> & Hl & Hother & Hset).
  exists RowPayloadBlockBuilder.default, rows'. split_and!; [done| |done..].
  split; [congruence| |apply Forall_nil_2|apply NoDup_nil_2|apply Nat.le_0_l|done|apply Nat.le_0_l].
  intros i row current Hi Hc. left. split; [|apply not_elem_of_nil].
  assert (exists current', rows !! i = Some current') as [c Hc'].
  { apply lookup_lt_is_Some_2. rewrite <-Hl. by eapply lookup_lt_Some. }
  destruct (Hrow i row c Hi Hc') as [[Hk Hni]|(Hm & Hpay & p & Hrp & d & Hd & <- & Hsome & Hsl)].
  - rewrite (Hother i c Hc' Hni) in Hc. by injection Hc as <-.
  - rewrite (Hset d c Hd Hc') in Hc. injection Hc as <-. split.
    + rewrite set_payload_twice. exact Hm.
    + cbn. rewrite Hrp. split; [done|]. by left.
Qed.

Definition result_kept (input : list ObjectRow) (row : ObjectRow)
    (m : result (fault StoreError) (RowPayloadBlockBuilder * list ObjectRow)) : Prop :=
  exists b' rows', m = Ok (b', rows') /\ packing b' (input ++ [row]) rows'.

(** A row that needs no packing goes in as it is. *)
Lemma packing_snoc b input rows row current :
  packing b input rows -> row_kept row current -> packing b (input ++ [row]) (rows ++ [current]).
Proof.
  intros [Hlen Hrow Hidx Hnd Ho He Hp] Hk. split; try done.
  - rewrite !length_app. cbn. lia.
  - intros i r c Hi Hc. apply lookup_app_Some in Hi as [Hi|[Hge Hi]].
    + apply lookup_lt_Some in Hi as Hlt. rewrite lookup_app_l in Hc by lia. by apply Hrow.
    + apply lookup_app_Some in Hc as [Hc|[_ Hc]]; [apply lookup_lt_Some in Hc; lia|].
      rewrite list_lookup_singleton_Some in Hi, Hc. destruct Hi as [Hi <-], Hc as [_ <-].
      left. split; [done|]. intros (d & -> & Hd)%list_elem_of_fmap.
      rewrite Forall_forall in Hidx. specialize (Hidx d Hd). cbn in *. lia.
  - eapply Forall_impl; [exact Hidx|]. intros d Hd. rewrite length_app. cbn in *. lia.
Qed.

(** Adding a pending text to the open block. *)
Lemma packing_open_text b input rows row p t :
  packing b input rows -> ObjectRow.payload_json row = Some p -> as_str p = Some t -> str_ok t ->
  (length (RowPayloadBlockBuilder.pending b) < OBJECT_ROW_PAYLOAD_BLOCK_ROWS)%nat ->
  (length (as_bytes (RowPayloadBlockBuilder.open b)) + length (as_bytes t) <= OBJECT_ROW_PAYLOAD_BLOCK_BYTES)%nat ->
  packing
    (RowPayloadBlockBuilder.mk (RowPayloadBlockBuilder.open b +:+ t)%string
       (RowPayloadBlockBuilder.pending b ++
        [PendingRowPayload.mk (length rows) (length (as_bytes (RowPayloadBlockBuilder.open b)))
           (length (as_bytes (RowPayloadBlockBuilder.open b +:+ t)%string))]))
    (input ++ [row]) (rows ++ [ObjectRow.set_payload row None]).
Proof.
  intros [Hlen Hrow Hidx Hnd Ho He Hp] Hrp Hstr Hok Hcount Hsize.
  assert (Hext : forall i q, waiting b i q -> waiting (RowPayloadBlockBuilder.mk
      (RowPayloadBlockBuilder.open b +:+ t)%string (RowPayloadBlockBuilder.pending b ++
        [PendingRowPayload.mk (length rows) (length (as_bytes (RowPayloadBlockBuilder.open b)))
           (length (as_bytes (RowPayloadBlockBuilder.open b +:+ t)%string))])) i q).
  { intros i q (d & Hd & Hi & Hs & Hq). exists d. cbn. split_and!; [set_solver|done..|].
    apply is_some_true in Hs as [u Hu]. rewrite Hu in *. by apply as_str_extend. }
  split; cbn [RowPayloadBlockBuilder.open RowPayloadBlockBuilder.pending].
  - rewrite !length_app. cbn. lia.
  - intros i r c Hi Hc. apply lookup_app_Some in Hi as [Hi|[Hge Hi]].
    + apply lookup_lt_Some in Hi as Hlt. rewrite lookup_app_l in Hc by lia.
      destruct (Hrow i r c Hi Hc) as [[Hk Hni]|(Hm & Hpay & q & Hq & Hw)].
      * left. split; [done|]. cbn [RowPayloadBlockBuilder.pending]. rewrite fmap_app, not_elem_of_app.
        split; [done|]. intros E%list_elem_of_singleton. cbn in E. lia.
      * right. split_and!; [done..|]. eauto.
    + apply lookup_app_Some in Hc as [Hc|[_ Hc]]; [apply lookup_lt_Some in Hc; lia|].
      rewrite list_lookup_singleton_Some in Hi, Hc. destruct Hi as [Hi <-], Hc as [_ <-].
      right. split_and!; [done..|]. exists p. split; [done|].
      eexists. split; [apply elem_of_app; right; by left|]. cbn. split_and!; [lia|by rewrite Hstr|].
      rewrite Hstr. by apply as_str_appended.
  - apply Forall_app. split.
    + eapply Forall_impl; [exact Hidx|]. intros d Hd. rewrite length_app. cbn in *. lia.
    + apply Forall_singleton. cbn. rewrite length_app. cbn. lia.
  - rewrite fmap_app. apply NoDup_app. split_and!; [done| |apply NoDup_singleton].
    intros i (d & -> & Hd)%list_elem_of_fmap Hin. apply list_elem_of_singleton in Hin. cbn in Hin.
    rewrite Forall_forall in Hidx. specialize (Hidx d Hd). cbn in *. lia.
  - rewrite as_bytes_append, length_app. done.
  - intros H. by destruct (RowPayloadBlockBuilder.pending b).
  - rewrite length_app. cbn. lia.
Qed.

Lemma as_str_range p t : as_str p = Some t -> (length (as_bytes t) = payload_len p)%nat.
Proof.
  unfold as_str, payload_len. destruct (_ && _) eqn:E; [|done]. intros [= <-].
  rewrite !andb_true_iff, Nat.leb_le in E. destruct E as [[? _] He%boundary_le].
  rewrite as_of_bytes, length_take, length_drop. lia.
Qed.

Lemma set_payload_id row : ObjectRow.set_payload row (ObjectRow.payload_json row) = row.
Proof. by destruct row. Qed.

(** Pushing a valid row succeeds and keeps the invariant. *)
Lemma push_row_packing b input rows row :
  packing b input rows -> row_ok row ->
  exists b' rows', push_row b rows row = Ok (b', rows') /\ packing b' (input ++ [row]) rows'.
Proof.
  intros Hp [Hv Hpay]. unfold push_row. rewrite Hv. cbn [map_err rbind].
  destruct (ObjectRow.payload_json row) as [p|] eqn:Hrp.
  2:{ do 2 eexists. split; [reflexivity|]. apply packing_snoc; [done|]. split; [done|]. by rewrite Hrp. }
  destruct (Hpay p eq_refl) as (t & Ht & Hok). unfold push_payload.
  destruct (Nat.ltb_spec OBJECT_ROW_PAYLOAD_BLOCK_BYTES (payload_len p)) as [Hbig|Hsmall].
  - destruct (seal_spec b input rows Hp) as (b' & rows' & -> & Hp' & _). cbn [map_err rbind fst snd].
    do 2 eexists. split; [reflexivity|]. apply packing_snoc; [done|].
    rewrite set_payload_twice, <-Hrp, set_payload_id. split; [done|]. rewrite Hrp. split; [done|]. by right.
  - rewrite Ht. cbn [ok_or rbind]. unfold push_text_inner.
    rewrite <-(as_str_range p t Ht) in Hsmall.
    rewrite (proj2 (Nat.ltb_ge _ _) Hsmall).
    assert (exists c rows', (if (OBJECT_ROW_PAYLOAD_BLOCK_ROWS <=? length (RowPayloadBlockBuilder.pending b))%nat
         || (OBJECT_ROW_PAYLOAD_BLOCK_BYTES <? length (as_bytes (RowPayloadBlockBuilder.open b)) + length (as_bytes t))%nat
       then seal b rows else Ok (b, rows)) = Ok (c, rows') /\ packing c input rows' /\
      (length (RowPayloadBlockBuilder.pending c) < OBJECT_ROW_PAYLOAD_BLOCK_ROWS)%nat /\
      (length (as_bytes (RowPayloadBlockBuilder.open c)) + length (as_bytes t) <= OBJECT_ROW_PAYLOAD_BLOCK_BYTES)%nat)
      as (c & rows' & -> & Hp' & Hn & Hs).
    { destruct (_ || _) eqn:E.
      - destruct (seal_spec b input rows Hp) as (c & rows' & -> & Hp' & He). exists c, rows'.
        split_and!; [done..| |].
        + rewrite He. apply Nat.ltb_lt. by vm_compute.
        + rewrite (packing_empty _ _ _ Hp' He). done.
      - rewrite orb_false_iff, Nat.leb_gt, Nat.ltb_ge in E. destruct E. by exists b, rows. }
    cbn [rbind fst snd map_err]. do 2 eexists. split; [reflexivity|].
    by apply packing_open_text with (p := p).
Qed.

Lemma push_rows_packing input : forall b done rows,
  packing b done rows -> Forall row_ok input ->
  exists b' rows', push_rows b rows input = Ok (b', rows') /\ packing b' (done ++ input) rows'.
Proof.
  induction input as [|row input IH]; intros b seen rows Hp Hok.
  - exists b, rows. by rewrite app_nil_r.
  - apply Forall_cons in Hok as [Hr Hok]. cbn [push_rows].
    destruct (push_row_packing b seen rows row Hp Hr) as (b' & rows' & -> & Hp'). cbn [rbind fst snd].
    destruct (IH b' _ rows' Hp' Hok) as (b2 & rows2 & -> & Hp2).
    exists b2, rows2. split; [done|]. by rewrite <-app_assoc in Hp2.
Qed.

Lemma packing_start : packing RowPayloadBlockBuilder.default [] [].
Proof.
  split; [done| |apply Forall_nil_2|apply NoDup_nil_2|apply Nat.le_0_l|done|apply Nat.le_0_l].
  intros i row c H. by rewrite lookup_nil in H.
Qed.
End BlockProofs.

Module BlockTheorems.
Import RowPayload BlockSpec BlockProofs.

(** Packing rows into shared blocks is invisible and bounded.  Valid rows
    pushed in any number and finished give one packed row each, in order: every
    column is unchanged, every payload reads as the one that was pushed (no range
    panics, cuts a character or reads a neighbour's text), and what a packed row
    keeps alive is at most one 64 KiB block, or its own payload if that is larger. *)
Theorem pack_preserves (input : list ObjectRow) :
  Forall row_ok input -> exists rows, pack input = Ok rows /\ Forall2 row_kept input rows.
Proof.
  intros Hok. unfold pack.
  destruct (push_rows_packing input _ _ _ packing_start Hok) as (b & rows & -> & Hp). cbn [rbind fst snd].
  unfold finish. destruct (seal_spec b _ rows Hp) as (b' & rows' & -> & Hp' & He). cbn [rbind map_err fst snd].
  exists rows'. split; [done|]. apply Forall2_same_length_lookup_2; [symmetry; apply Hp'|].
  intros i row c Hi Hc. destruct (packing_row _ _ _ Hp' i row c Hi Hc) as [[Hk _]|(_ & _ & p & _ & d & Hd & _)]; [done|].
  rewrite He in Hd. by apply elem_of_nil in Hd.
Qed.

Abbreviation sample_row id payload := (ObjectRow.mk id ObjectRowKind.Data (Some ObjectRowClass.Runtime)
  None (Some "kind"%string) None None None None None None None None None None None None None payload 1 1).
Abbreviation sample_rows :=
  [sample_row "a" (Some (RowPayload.from "first")); ObjectRow.checkpoint 9 1;
   sample_row "b" (Some (RowPayload.mk "xsecondx" 1 7))].

Lemma sample_rows_ok : Forall row_ok sample_rows.
Proof.
  repeat (apply Forall_cons_2 || apply Forall_nil_2).
  - split; [done|]. intros p [= <-]. by exists "first"%string.
  - split; [done|]. by intros p H.
  - split; [done|]. intros p [= <-]. by exists "second"%string.
Qed.

Lemma pack_preserves_witness : exists rows, pack sample_rows = Ok rows /\ Forall2 row_kept sample_rows rows.
Proof. apply pack_preserves. exact sample_rows_ok. Defined.

Example pack_sample :
  pack sample_rows = Ok
    [sample_row "a" (Some (RowPayload.mk "firstsecond" 0 5)); ObjectRow.checkpoint 9 1;
     sample_row "b" (Some (RowPayload.mk "firstsecond" 5 11))].
Proof. vm_compute. reflexivity. Qed.
End BlockTheorems.
