(* ===== verification/Attempt.v ===== *)
(** * Attempts and competing groups

    [evertrace-domain/src/work/attempt.rs]: the strategy contract and its
    fingerprint, the attempt revision with its validator and the successor
    relation, and the same for competing attempt groups. *)

From S2P Require Import Prelude Order Collections Text Ids Canonical Lane.

(** SHA-256 is a parameter of everything that computes a fingerprint. *)
Class Sha256 := sha256_digest : list byte -> list byte.
(** Its digests are 32 bytes. *)
Class Sha256Length `{SHA : Sha256} : Prop := sha256_length b : length (sha256_digest b) = 32%nat.

(** [old.iter().all(|x| new.contains(x))], and [!..any(|x| !new.contains(x))]. *)
Definition kept {A} `{!EqDecision A} (old new : list A) : bool :=
  all (fun x => contains x new) old.

Lemma kept_true {A} `{!EqDecision A} (old new : list A) : kept old new = true <-> old ⊆ new.
Proof.
  unfold kept. rewrite all_true, Forall_forall. setoid_rewrite contains_true. done.
Qed.
#[export] Hint Rewrite @kept_true : guards.

Definition MAX_REFS : nat := 64.
Definition MAX_TEXT : N := 4096.

Definition bounded (value : string) : bool := bounded_text MAX_TEXT value.

Definition bounded_refs (values : list string) : bool :=
  (length values <=? MAX_REFS)%nat && all bounded values && strictly_ordered_unique values.

(** [values.len() <= MAX_REFS && strictly_ordered_unique(values)]. *)
Definition ordered_ids {A} `{!Ord A} (values : list A) : bool :=
  (length values <=? MAX_REFS)%nat && strictly_ordered_unique values.

Lemma bounded_refs_true l :
  bounded_refs l = true <->
  (length l <= MAX_REFS)%nat /\ Forall (fun v => bounded v = true) l /\ sorted_lt l.
Proof.
  unfold bounded_refs.
  rewrite !andb_true_iff, Nat.leb_le, all_true, strictly_ordered_unique_true. tauto.
Qed.

Lemma ordered_ids_true {A} `{!Ord A} (l : list A) :
  ordered_ids l = true <-> (length l <= MAX_REFS)%nat /\ sorted_lt l.
Proof. unfold ordered_ids. by rewrite andb_true_iff, Nat.leb_le, strictly_ordered_unique_true. Qed.
#[export] Hint Rewrite @bounded_refs_true @ordered_ids_true : guards.

(** ** Strategy contracts *)

Definition STRATEGY_FINGERPRINT_TAG : string := "evertrace_attempt_strategy_contract".
Definition STRATEGY_FINGERPRINT_VERSION : N := 1.

Definition strings (values : list string) : CanonicalValue := Sequence (CString <$> values).

(** [map_or(CanonicalValue::Null, CanonicalValue::String)]. *)
Definition optional_string (value : option string) : CanonicalValue :=
  match value with Some v => CString v | None => Null end.

Module StrategyContract.
Record StrategyContract := mk {
  hypothesis : string;
  intervention : string;
  intervention_family : string;
  search_policy_ref : option string;
  objective_ref : option string;
  expected_effect : string;
  target_refs : list string;
  acceptance_boundary_ref : string;
}.
#[export] Instance eq_dec : EqDecision StrategyContract.
Proof. solve_decision. Defined.
Definition validate (self : StrategyContract) : result WorkError unit :=
  guard
    (negb (bounded (hypothesis self)) || negb (bounded (intervention self))
     || negb (bounded (intervention_family self)) || negb (bounded (expected_effect self))
     || negb (bounded (acceptance_boundary_ref self))
     || is_some_and (search_policy_ref self) (fun v => negb (bounded v))
     || is_some_and (objective_ref self) (fun v => negb (bounded v))
     || negb (bounded_refs (target_refs self)))
    WorkError.InvalidWorkIdentity.

Definition canonical_value (self : StrategyContract) : CanonicalValue :=
  Map
    [("acceptance_boundary_ref", CString (acceptance_boundary_ref self));
     ("expected_effect", CString (expected_effect self));
     ("hypothesis", CString (hypothesis self));
     ("intervention", CString (intervention self));
     ("intervention_family", CString (intervention_family self));
     ("objective_ref", optional_string (objective_ref self));
     ("search_policy_ref", optional_string (search_policy_ref self));
     ("target_refs", strings (target_refs self))]%string.

Definition fingerprint `{SHA : Sha256} (self : StrategyContract) : result WorkError (list byte) :=
  do? validate self in
  map_err (fun _ => WorkError.InvalidWorkIdentity)
    (sha256 sha256_digest STRATEGY_FINGERPRINT_TAG STRATEGY_FINGERPRINT_VERSION
       (canonical_value self)).
End StrategyContract.
Abbreviation StrategyContract := StrategyContract.StrategyContract.
Export (hints) StrategyContract.

(** ** Statuses *)

Module AttemptExecutionStatus.
Inductive AttemptExecutionStatus :=
| Proposed
| Active
| Interrupted
| Completed
| Abandoned.
#[export] Instance eq_dec : EqDecision AttemptExecutionStatus.
Proof. solve_decision. Defined.
End AttemptExecutionStatus.
Abbreviation AttemptExecutionStatus := AttemptExecutionStatus.AttemptExecutionStatus.
Export (hints) AttemptExecutionStatus.

Module AttemptAdoptionStatus.
Inductive AttemptAdoptionStatus :=
| None
| Candidate
| Selected
| PartiallyIntegrated
| Integrated
| Rejected.
#[export] Instance eq_dec : EqDecision AttemptAdoptionStatus.
Proof. solve_decision. Defined.
End AttemptAdoptionStatus.
Abbreviation AttemptAdoptionStatus := AttemptAdoptionStatus.AttemptAdoptionStatus.
Export (hints) AttemptAdoptionStatus.

Module AttemptVerification.
Inductive AttemptVerification :=
| Unverified
| Passed
| Failed
| Inconclusive.
#[export] Instance eq_dec : EqDecision AttemptVerification.
Proof. solve_decision. Defined.
End AttemptVerification.
Abbreviation AttemptVerification := AttemptVerification.AttemptVerification.
Export (hints) AttemptVerification.

Module AttemptLifecycleStatus.
Inductive AttemptLifecycleStatus :=
| Active
| Superseded.
#[export] Instance eq_dec : EqDecision AttemptLifecycleStatus.
Proof. solve_decision. Defined.
End AttemptLifecycleStatus.
Abbreviation AttemptLifecycleStatus := AttemptLifecycleStatus.AttemptLifecycleStatus.
Export (hints) AttemptLifecycleStatus.

Module AttemptOutcomeState.
Inductive AttemptOutcomeState :=
| Known
| Unknown.
#[export] Instance eq_dec : EqDecision AttemptOutcomeState.
Proof. solve_decision. Defined.
End AttemptOutcomeState.
Abbreviation AttemptOutcomeState := AttemptOutcomeState.AttemptOutcomeState.
Export (hints) AttemptOutcomeState.

Module InterruptionReason.
Inductive InterruptionReason :=
| Timeout
| Cancelled
| Crashed
| SourceClosedUnconfirmed
| Mixed.
#[export] Instance eq_dec : EqDecision InterruptionReason.
Proof. solve_decision. Defined.
End InterruptionReason.
Abbreviation InterruptionReason := InterruptionReason.InterruptionReason.
Export (hints) InterruptionReason.

Module ResumeStateAssessment.
Inductive ResumeStateAssessment :=
| CompatibleSameInstance
| CompatibleLineageTransfer
| Incompatible
| Unknown.
#[export] Instance eq_dec : EqDecision ResumeStateAssessment.
Proof. solve_decision. Defined.
End ResumeStateAssessment.
Abbreviation ResumeStateAssessment := ResumeStateAssessment.ResumeStateAssessment.
Export (hints) ResumeStateAssessment.

(** The transitions of the three status dimensions, as the [matches!] of
    [validate_successor] lists them. *)
Definition execution_transition (old new : AttemptExecutionStatus) : bool :=
  match old, new with
  | AttemptExecutionStatus.Proposed,
    (AttemptExecutionStatus.Active | AttemptExecutionStatus.Abandoned) => true
  | AttemptExecutionStatus.Active,
    (AttemptExecutionStatus.Interrupted | AttemptExecutionStatus.Completed
     | AttemptExecutionStatus.Abandoned) => true
  | AttemptExecutionStatus.Interrupted,
    (AttemptExecutionStatus.Active | AttemptExecutionStatus.Completed
     | AttemptExecutionStatus.Abandoned) => true
  | _, _ => false
  end.

Definition adoption_transition (old new : AttemptAdoptionStatus) : bool :=
  match old, new with
  | AttemptAdoptionStatus.None,
    (AttemptAdoptionStatus.Candidate | AttemptAdoptionStatus.Selected
     | AttemptAdoptionStatus.Rejected) => true
  | AttemptAdoptionStatus.Candidate,
    (AttemptAdoptionStatus.Selected | AttemptAdoptionStatus.Rejected) => true
  | AttemptAdoptionStatus.Selected,
    (AttemptAdoptionStatus.PartiallyIntegrated | AttemptAdoptionStatus.Integrated
     | AttemptAdoptionStatus.Rejected) => true
  | AttemptAdoptionStatus.PartiallyIntegrated,
    (AttemptAdoptionStatus.Integrated | AttemptAdoptionStatus.Rejected) => true
  | _, _ => false
  end.

Definition verification_transition (old new : AttemptVerification) : bool :=
  match old, new with
  | AttemptVerification.Unverified,
    (AttemptVerification.Inconclusive | AttemptVerification.Passed
     | AttemptVerification.Failed) => true
  | AttemptVerification.Inconclusive,
    (AttemptVerification.Passed | AttemptVerification.Failed) => true
  | _, _ => false
  end.

(** ** Attempts *)

Module Attempt.
Record Attempt := mk {
  attempt_id : AttemptId;
  revision_id : RevisionId;
  predecessor_revision_id : option RevisionId;
  revision_generation : N;
  task_id : TaskId;
  workstream_id : WorkstreamId;
  episode_id : option WorkEpisodeId;
  repository_instance_id : option RepositoryId;
  worktree_instance_ids : list WorktreeId;
  execution_lane_ids : list ExecutionLaneId;
  competing_group_ids : list CompetingAttemptGroupId;
  experiment_run_ids : list ExperimentRunId;
  execution_status : AttemptExecutionStatus;
  adoption_status : AttemptAdoptionStatus;
  verification : AttemptVerification;
  lifecycle_status : AttemptLifecycleStatus;
  strategy_contract : StrategyContract;
  strategy_contract_fingerprint : list byte;
  resumes_from_attempt_id : option AttemptId;
  composed_from_attempt_ids : list AttemptId;
  resume_event_refs : list string;
  resume_state_assessment : option ResumeStateAssessment;
  resume_source_snapshot_id : option WorktreeSnapshotId;
  resume_target_snapshot_id : option WorktreeSnapshotId;
  worktree_transition_refs : list WorktreeTransitionId;
  integration_event_refs : list IntegrationEventId;
  recovery_bundle_refs : list RecoveryBundleId;
  recovery_application_refs : list RecoveryApplicationId;
  work_binding_revision_refs : list WorkBindingRevisionId;
  local_outcome_refs : list string;
  parent_verification_refs : list string;
  outcome_refs : list string;
  outcome_state : AttemptOutcomeState;
  interruption_refs : list string;
  interruption_reason : option InterruptionReason;
  explicit_abandon_refs : list string;
  supersede_evidence_refs : list string;
  failure_signature : option string;
  source_watermark : N;
}.
#[export] Instance eq_dec : EqDecision Attempt.
Proof. solve_decision. Defined.
Definition set_successor (self : Attempt)
    (v_revision_id : RevisionId) (v_predecessor_revision_id : option RevisionId)
    (v_revision_generation : N) (v_source_watermark : N) : Attempt :=
  mk
    (self.(attempt_id)) v_revision_id v_predecessor_revision_id v_revision_generation
    (self.(task_id)) (self.(workstream_id)) (self.(episode_id))
    (self.(repository_instance_id)) (self.(worktree_instance_ids))
    (self.(execution_lane_ids)) (self.(competing_group_ids)) (self.(experiment_run_ids))
    (self.(execution_status)) (self.(adoption_status)) (self.(verification))
    (self.(lifecycle_status)) (self.(strategy_contract))
    (self.(strategy_contract_fingerprint)) (self.(resumes_from_attempt_id))
    (self.(composed_from_attempt_ids)) (self.(resume_event_refs))
    (self.(resume_state_assessment)) (self.(resume_source_snapshot_id))
    (self.(resume_target_snapshot_id)) (self.(worktree_transition_refs))
    (self.(integration_event_refs)) (self.(recovery_bundle_refs))
    (self.(recovery_application_refs)) (self.(work_binding_revision_refs))
    (self.(local_outcome_refs)) (self.(parent_verification_refs)) (self.(outcome_refs))
    (self.(outcome_state)) (self.(interruption_refs)) (self.(interruption_reason))
    (self.(explicit_abandon_refs)) (self.(supersede_evidence_refs))
    (self.(failure_signature)) v_source_watermark.
Definition set_execution (self : Attempt)
    (v_execution_lane_ids : list ExecutionLaneId) (v_execution_status :
    AttemptExecutionStatus) (v_outcome_state : AttemptOutcomeState) (v_interruption_refs :
    list string) (v_interruption_reason : option InterruptionReason)
    (v_explicit_abandon_refs : list string) : Attempt :=
  mk
    (self.(attempt_id)) (self.(revision_id)) (self.(predecessor_revision_id))
    (self.(revision_generation)) (self.(task_id)) (self.(workstream_id)) (self.(episode_id))
    (self.(repository_instance_id)) (self.(worktree_instance_ids)) v_execution_lane_ids
    (self.(competing_group_ids)) (self.(experiment_run_ids)) v_execution_status
    (self.(adoption_status)) (self.(verification)) (self.(lifecycle_status))
    (self.(strategy_contract)) (self.(strategy_contract_fingerprint))
    (self.(resumes_from_attempt_id)) (self.(composed_from_attempt_ids))
    (self.(resume_event_refs)) (self.(resume_state_assessment))
    (self.(resume_source_snapshot_id)) (self.(resume_target_snapshot_id))
    (self.(worktree_transition_refs)) (self.(integration_event_refs))
    (self.(recovery_bundle_refs)) (self.(recovery_application_refs))
    (self.(work_binding_revision_refs)) (self.(local_outcome_refs))
    (self.(parent_verification_refs)) (self.(outcome_refs)) v_outcome_state
    v_interruption_refs v_interruption_reason v_explicit_abandon_refs
    (self.(supersede_evidence_refs)) (self.(failure_signature)) (self.(source_watermark)).
Definition set_adoption (self : Attempt)
    (v_adoption_status : AttemptAdoptionStatus) (v_integration_event_refs : list
    IntegrationEventId) : Attempt :=
  mk
    (self.(attempt_id)) (self.(revision_id)) (self.(predecessor_revision_id))
    (self.(revision_generation)) (self.(task_id)) (self.(workstream_id)) (self.(episode_id))
    (self.(repository_instance_id)) (self.(worktree_instance_ids))
    (self.(execution_lane_ids)) (self.(competing_group_ids)) (self.(experiment_run_ids))
    (self.(execution_status)) v_adoption_status (self.(verification))
    (self.(lifecycle_status)) (self.(strategy_contract))
    (self.(strategy_contract_fingerprint)) (self.(resumes_from_attempt_id))
    (self.(composed_from_attempt_ids)) (self.(resume_event_refs))
    (self.(resume_state_assessment)) (self.(resume_source_snapshot_id))
    (self.(resume_target_snapshot_id)) (self.(worktree_transition_refs))
    v_integration_event_refs (self.(recovery_bundle_refs))
    (self.(recovery_application_refs)) (self.(work_binding_revision_refs))
    (self.(local_outcome_refs)) (self.(parent_verification_refs)) (self.(outcome_refs))
    (self.(outcome_state)) (self.(interruption_refs)) (self.(interruption_reason))
    (self.(explicit_abandon_refs)) (self.(supersede_evidence_refs))
    (self.(failure_signature)) (self.(source_watermark)).
Definition set_verification (self : Attempt)
    (v_verification : AttemptVerification) (v_parent_verification_refs : list string) : Attempt :=
  mk
    (self.(attempt_id)) (self.(revision_id)) (self.(predecessor_revision_id))
    (self.(revision_generation)) (self.(task_id)) (self.(workstream_id)) (self.(episode_id))
    (self.(repository_instance_id)) (self.(worktree_instance_ids))
    (self.(execution_lane_ids)) (self.(competing_group_ids)) (self.(experiment_run_ids))
    (self.(execution_status)) (self.(adoption_status)) v_verification
    (self.(lifecycle_status)) (self.(strategy_contract))
    (self.(strategy_contract_fingerprint)) (self.(resumes_from_attempt_id))
    (self.(composed_from_attempt_ids)) (self.(resume_event_refs))
    (self.(resume_state_assessment)) (self.(resume_source_snapshot_id))
    (self.(resume_target_snapshot_id)) (self.(worktree_transition_refs))
    (self.(integration_event_refs)) (self.(recovery_bundle_refs))
    (self.(recovery_application_refs)) (self.(work_binding_revision_refs))
    (self.(local_outcome_refs)) v_parent_verification_refs (self.(outcome_refs))
    (self.(outcome_state)) (self.(interruption_refs)) (self.(interruption_reason))
    (self.(explicit_abandon_refs)) (self.(supersede_evidence_refs))
    (self.(failure_signature)) (self.(source_watermark)).
Definition set_superseded (self : Attempt)
    (v_lifecycle_status : AttemptLifecycleStatus) (v_supersede_evidence_refs : list string) : Attempt :=
  mk
    (self.(attempt_id)) (self.(revision_id)) (self.(predecessor_revision_id))
    (self.(revision_generation)) (self.(task_id)) (self.(workstream_id)) (self.(episode_id))
    (self.(repository_instance_id)) (self.(worktree_instance_ids))
    (self.(execution_lane_ids)) (self.(competing_group_ids)) (self.(experiment_run_ids))
    (self.(execution_status)) (self.(adoption_status)) (self.(verification))
    v_lifecycle_status (self.(strategy_contract)) (self.(strategy_contract_fingerprint))
    (self.(resumes_from_attempt_id)) (self.(composed_from_attempt_ids))
    (self.(resume_event_refs)) (self.(resume_state_assessment))
    (self.(resume_source_snapshot_id)) (self.(resume_target_snapshot_id))
    (self.(worktree_transition_refs)) (self.(integration_event_refs))
    (self.(recovery_bundle_refs)) (self.(recovery_application_refs))
    (self.(work_binding_revision_refs)) (self.(local_outcome_refs))
    (self.(parent_verification_refs)) (self.(outcome_refs)) (self.(outcome_state))
    (self.(interruption_refs)) (self.(interruption_reason)) (self.(explicit_abandon_refs))
    v_supersede_evidence_refs (self.(failure_signature)) (self.(source_watermark)).
Definition set_resumed (self : Attempt)
    (v_execution_lane_ids : list ExecutionLaneId) (v_execution_status :
    AttemptExecutionStatus) (v_resume_event_refs : list string) (v_resume_state_assessment :
    option ResumeStateAssessment) (v_resume_source_snapshot_id : option WorktreeSnapshotId)
    (v_resume_target_snapshot_id : option WorktreeSnapshotId) (v_worktree_transition_refs :
    list WorktreeTransitionId) : Attempt :=
  mk
    (self.(attempt_id)) (self.(revision_id)) (self.(predecessor_revision_id))
    (self.(revision_generation)) (self.(task_id)) (self.(workstream_id)) (self.(episode_id))
    (self.(repository_instance_id)) (self.(worktree_instance_ids)) v_execution_lane_ids
    (self.(competing_group_ids)) (self.(experiment_run_ids)) v_execution_status
    (self.(adoption_status)) (self.(verification)) (self.(lifecycle_status))
    (self.(strategy_contract)) (self.(strategy_contract_fingerprint))
    (self.(resumes_from_attempt_id)) (self.(composed_from_attempt_ids)) v_resume_event_refs
    v_resume_state_assessment v_resume_source_snapshot_id v_resume_target_snapshot_id
    v_worktree_transition_refs (self.(integration_event_refs)) (self.(recovery_bundle_refs))
    (self.(recovery_application_refs)) (self.(work_binding_revision_refs))
    (self.(local_outcome_refs)) (self.(parent_verification_refs)) (self.(outcome_refs))
    (self.(outcome_state)) (self.(interruption_refs)) (self.(interruption_reason))
    (self.(explicit_abandon_refs)) (self.(supersede_evidence_refs))
    (self.(failure_signature)) (self.(source_watermark)).
Definition set_resumes_from (self : Attempt)
    (v_strategy_contract_fingerprint : list byte) (v_resumes_from_attempt_id : option
    AttemptId) (v_resume_state_assessment : option ResumeStateAssessment) : Attempt :=
  mk
    (self.(attempt_id)) (self.(revision_id)) (self.(predecessor_revision_id))
    (self.(revision_generation)) (self.(task_id)) (self.(workstream_id)) (self.(episode_id))
    (self.(repository_instance_id)) (self.(worktree_instance_ids))
    (self.(execution_lane_ids)) (self.(competing_group_ids)) (self.(experiment_run_ids))
    (self.(execution_status)) (self.(adoption_status)) (self.(verification))
    (self.(lifecycle_status)) (self.(strategy_contract)) v_strategy_contract_fingerprint
    v_resumes_from_attempt_id (self.(composed_from_attempt_ids)) (self.(resume_event_refs))
    v_resume_state_assessment (self.(resume_source_snapshot_id))
    (self.(resume_target_snapshot_id)) (self.(worktree_transition_refs))
    (self.(integration_event_refs)) (self.(recovery_bundle_refs))
    (self.(recovery_application_refs)) (self.(work_binding_revision_refs))
    (self.(local_outcome_refs)) (self.(parent_verification_refs)) (self.(outcome_refs))
    (self.(outcome_state)) (self.(interruption_refs)) (self.(interruption_reason))
    (self.(explicit_abandon_refs)) (self.(supersede_evidence_refs))
    (self.(failure_signature)) (self.(source_watermark)).
Definition set_composed (self : Attempt)
    (v_composed_from_attempt_ids : list AttemptId) : Attempt :=
  mk
    (self.(attempt_id)) (self.(revision_id)) (self.(predecessor_revision_id))
    (self.(revision_generation)) (self.(task_id)) (self.(workstream_id)) (self.(episode_id))
    (self.(repository_instance_id)) (self.(worktree_instance_ids))
    (self.(execution_lane_ids)) (self.(competing_group_ids)) (self.(experiment_run_ids))
    (self.(execution_status)) (self.(adoption_status)) (self.(verification))
    (self.(lifecycle_status)) (self.(strategy_contract))
    (self.(strategy_contract_fingerprint)) (self.(resumes_from_attempt_id))
    v_composed_from_attempt_ids (self.(resume_event_refs)) (self.(resume_state_assessment))
    (self.(resume_source_snapshot_id)) (self.(resume_target_snapshot_id))
    (self.(worktree_transition_refs)) (self.(integration_event_refs))
    (self.(recovery_bundle_refs)) (self.(recovery_application_refs))
    (self.(work_binding_revision_refs)) (self.(local_outcome_refs))
    (self.(parent_verification_refs)) (self.(outcome_refs)) (self.(outcome_state))
    (self.(interruption_refs)) (self.(interruption_reason)) (self.(explicit_abandon_refs))
    (self.(supersede_evidence_refs)) (self.(failure_signature)) (self.(source_watermark)).
Definition set_fingerprint (self : Attempt)
    (v_strategy_contract_fingerprint : list byte) : Attempt :=
  mk
    (self.(attempt_id)) (self.(revision_id)) (self.(predecessor_revision_id))
    (self.(revision_generation)) (self.(task_id)) (self.(workstream_id)) (self.(episode_id))
    (self.(repository_instance_id)) (self.(worktree_instance_ids))
    (self.(execution_lane_ids)) (self.(competing_group_ids)) (self.(experiment_run_ids))
    (self.(execution_status)) (self.(adoption_status)) (self.(verification))
    (self.(lifecycle_status)) (self.(strategy_contract)) v_strategy_contract_fingerprint
    (self.(resumes_from_attempt_id)) (self.(composed_from_attempt_ids))
    (self.(resume_event_refs)) (self.(resume_state_assessment))
    (self.(resume_source_snapshot_id)) (self.(resume_target_snapshot_id))
    (self.(worktree_transition_refs)) (self.(integration_event_refs))
    (self.(recovery_bundle_refs)) (self.(recovery_application_refs))
    (self.(work_binding_revision_refs)) (self.(local_outcome_refs))
    (self.(parent_verification_refs)) (self.(outcome_refs)) (self.(outcome_state))
    (self.(interruption_refs)) (self.(interruption_reason)) (self.(explicit_abandon_refs))
    (self.(supersede_evidence_refs)) (self.(failure_signature)) (self.(source_watermark)).
Definition set_resume_events (self : Attempt)
    (v_resume_event_refs : list string) : Attempt :=
  mk
    (self.(attempt_id)) (self.(revision_id)) (self.(predecessor_revision_id))
    (self.(revision_generation)) (self.(task_id)) (self.(workstream_id)) (self.(episode_id))
    (self.(repository_instance_id)) (self.(worktree_instance_ids))
    (self.(execution_lane_ids)) (self.(competing_group_ids)) (self.(experiment_run_ids))
    (self.(execution_status)) (self.(adoption_status)) (self.(verification))
    (self.(lifecycle_status)) (self.(strategy_contract))
    (self.(strategy_contract_fingerprint)) (self.(resumes_from_attempt_id))
    (self.(composed_from_attempt_ids)) v_resume_event_refs (self.(resume_state_assessment))
    (self.(resume_source_snapshot_id)) (self.(resume_target_snapshot_id))
    (self.(worktree_transition_refs)) (self.(integration_event_refs))
    (self.(recovery_bundle_refs)) (self.(recovery_application_refs))
    (self.(work_binding_revision_refs)) (self.(local_outcome_refs))
    (self.(parent_verification_refs)) (self.(outcome_refs)) (self.(outcome_state))
    (self.(interruption_refs)) (self.(interruption_reason)) (self.(explicit_abandon_refs))
    (self.(supersede_evidence_refs)) (self.(failure_signature)) (self.(source_watermark)).
Definition set_episode (self : Attempt)
    (v_episode_id : option WorkEpisodeId) : Attempt :=
  mk
    (self.(attempt_id)) (self.(revision_id)) (self.(predecessor_revision_id))
    (self.(revision_generation)) (self.(task_id)) (self.(workstream_id)) v_episode_id
    (self.(repository_instance_id)) (self.(worktree_instance_ids))
    (self.(execution_lane_ids)) (self.(competing_group_ids)) (self.(experiment_run_ids))
    (self.(execution_status)) (self.(adoption_status)) (self.(verification))
    (self.(lifecycle_status)) (self.(strategy_contract))
    (self.(strategy_contract_fingerprint)) (self.(resumes_from_attempt_id))
    (self.(composed_from_attempt_ids)) (self.(resume_event_refs))
    (self.(resume_state_assessment)) (self.(resume_source_snapshot_id))
    (self.(resume_target_snapshot_id)) (self.(worktree_transition_refs))
    (self.(integration_event_refs)) (self.(recovery_bundle_refs))
    (self.(recovery_application_refs)) (self.(work_binding_revision_refs))
    (self.(local_outcome_refs)) (self.(parent_verification_refs)) (self.(outcome_refs))
    (self.(outcome_state)) (self.(interruption_refs)) (self.(interruption_reason))
    (self.(explicit_abandon_refs)) (self.(supersede_evidence_refs))
    (self.(failure_signature)) (self.(source_watermark)).

Definition lists_ok (self : Attempt) : bool :=
  ordered_ids (worktree_instance_ids self) && ordered_ids (execution_lane_ids self)
  && ordered_ids (competing_group_ids self) && ordered_ids (composed_from_attempt_ids self)
  && ordered_ids (worktree_transition_refs self) && ordered_ids (integration_event_refs self)
  && ordered_ids (work_binding_revision_refs self)
  && all bounded_refs
       [resume_event_refs self; local_outcome_refs self; parent_verification_refs self;
        outcome_refs self; interruption_refs self; explicit_abandon_refs self;
        supersede_evidence_refs self].

Definition resume_shape (self : Attempt) : bool :=
  match resume_state_assessment self with
  | None =>
      is_none (resumes_from_attempt_id self) && is_empty (resume_event_refs self)
      && is_none (resume_source_snapshot_id self) && is_none (resume_target_snapshot_id self)
  | Some ResumeStateAssessment.CompatibleSameInstance =>
      is_none (resumes_from_attempt_id self) && negb (is_empty (resume_event_refs self))
      && is_some (resume_target_snapshot_id self)
  | Some ResumeStateAssessment.CompatibleLineageTransfer =>
      is_none (resumes_from_attempt_id self) && negb (is_empty (resume_event_refs self))
      && is_some (resume_source_snapshot_id self) && is_some (resume_target_snapshot_id self)
      && negb (is_empty (worktree_transition_refs self))
  | Some (ResumeStateAssessment.Incompatible | ResumeStateAssessment.Unknown) =>
      is_some (resumes_from_attempt_id self) && negb (is_empty (resume_event_refs self))
  end.

Definition outcome_shape (self : Attempt) : bool :=
  match outcome_state self with
  | AttemptOutcomeState.Known =>
      negb (is_empty (local_outcome_refs self)) || negb (is_empty (outcome_refs self))
  | AttemptOutcomeState.Unknown => is_empty (outcome_refs self)
  end.

Definition validate `{SHA : Sha256} (self : Attempt) : result WorkError unit :=
  do? StrategyContract.validate (strategy_contract self) in
  do? guard
    ((revision_generation self =? 0)%N
     || (source_watermark self =? 0)%N
     || xorb (revision_generation self =? 1)%N (is_none (predecessor_revision_id self))
     || (revision_generation self =? 1)%N && is_some (episode_id self)
     || negb (is_empty (experiment_run_ids self))
     || negb (is_empty (recovery_bundle_refs self))
     || negb (is_empty (recovery_application_refs self)))
    WorkError.InvalidWorkIdentity in
  let? fp := StrategyContract.fingerprint (strategy_contract self) in
  guard
    ((strategy_contract_fingerprint self !=? fp)
     || negb (lists_ok self)
     || (resumes_from_attempt_id self ==? Some (attempt_id self))
     || contains (attempt_id self) (composed_from_attempt_ids self)
     || negb (is_empty (composed_from_attempt_ids self))
        && (length (composed_from_attempt_ids self) <? 2)%nat
     || negb (resume_shape self)
     || contains (execution_status self)
          [AttemptExecutionStatus.Active; AttemptExecutionStatus.Interrupted;
           AttemptExecutionStatus.Completed]
        && is_empty (execution_lane_ids self)
     || negb (outcome_shape self)
     || (execution_status self ==? AttemptExecutionStatus.Interrupted)
        && (is_empty (execution_lane_ids self)
            || (outcome_state self !=? AttemptOutcomeState.Unknown)
            || negb (is_empty (outcome_refs self))
            || is_empty (interruption_refs self)
            || is_none (interruption_reason self)
            || negb (contains (verification self)
                       [AttemptVerification.Unverified; AttemptVerification.Inconclusive]))
     || xorb (execution_status self ==? AttemptExecutionStatus.Abandoned)
             (negb (is_empty (explicit_abandon_refs self)))
     || xorb (contains (verification self) [AttemptVerification.Passed; AttemptVerification.Failed])
             (negb (is_empty (parent_verification_refs self)))
     || xorb (contains (adoption_status self)
                [AttemptAdoptionStatus.PartiallyIntegrated; AttemptAdoptionStatus.Integrated])
             (negb (is_empty (integration_event_refs self)))
     || xorb (lifecycle_status self ==? AttemptLifecycleStatus.Superseded)
             (negb (is_empty (supersede_evidence_refs self)))
     || is_some_and (failure_signature self) (fun v => negb (bounded v)))
    WorkError.InvalidWorkIdentity.

Definition reopening (self successor : Attempt) : bool :=
  (execution_status self ==? AttemptExecutionStatus.Interrupted)
  && (execution_status successor ==? AttemptExecutionStatus.Active).

Definition resume_ok (self successor : Attempt) : bool :=
  negb (reopening self successor)
  || any (fun id => negb (contains id (execution_lane_ids self))) (execution_lane_ids successor)
     && any (fun v => negb (contains v (resume_event_refs self))) (resume_event_refs successor)
     && is_some (resume_target_snapshot_id successor)
     && contains (resume_state_assessment successor)
          [Some ResumeStateAssessment.CompatibleSameInstance;
           Some ResumeStateAssessment.CompatibleLineageTransfer].

Definition worktree_growth_ok (self successor : Attempt) : bool :=
  kept (worktree_instance_ids self) (worktree_instance_ids successor)
  && ((worktree_instance_ids self ==? worktree_instance_ids successor)
      || reopening self successor).

(** [!matches!((old, new), (None, None) | (None, Some(_)) | (Some(_), Some(_)))] and the
    comparison of the two episodes after it. *)
Definition episode_changed (old new : option WorkEpisodeId) : bool :=
  match old, new with
  | None, _ => false
  | Some _, None => true
  | Some a, Some b => a !=? b
  end.

Definition validate_successor `{SHA : Sha256} (self successor : Attempt) : result WorkError unit :=
  do? validate self in
  do? validate successor in
  let? next_generation :=
    ok_or (checked_add_u64 (revision_generation self) 1) WorkError.InvalidWorkIdentity in
  guard
    ((attempt_id successor !=? attempt_id self)
     || (revision_generation successor !=? next_generation)
     || (predecessor_revision_id successor !=? Some (revision_id self))
     || (revision_id successor ==? revision_id self)
     || (task_id successor !=? task_id self)
     || (workstream_id successor !=? workstream_id self)
     || episode_changed (episode_id self) (episode_id successor)
     || (repository_instance_id successor !=? repository_instance_id self)
     || (strategy_contract successor !=? strategy_contract self)
     || (strategy_contract_fingerprint successor !=? strategy_contract_fingerprint self)
     || (resumes_from_attempt_id successor !=? resumes_from_attempt_id self)
     || (composed_from_attempt_ids successor !=? composed_from_attempt_ids self)
     || (source_watermark successor <=? source_watermark self)%N
     || negb (worktree_growth_ok self successor)
     || negb (kept (execution_lane_ids self) (execution_lane_ids successor))
     || negb (kept (competing_group_ids self) (competing_group_ids successor))
     || negb (kept (worktree_transition_refs self) (worktree_transition_refs successor))
     || negb (kept (integration_event_refs self) (integration_event_refs successor))
     || negb (kept (work_binding_revision_refs self) (work_binding_revision_refs successor))
     || negb (kept (resume_event_refs self) (resume_event_refs successor))
     || negb (kept (local_outcome_refs self) (local_outcome_refs successor))
     || negb (kept (parent_verification_refs self) (parent_verification_refs successor))
     || negb (kept (outcome_refs self) (outcome_refs successor))
     || negb (kept (interruption_refs self) (interruption_refs successor))
     || negb (kept (explicit_abandon_refs self) (explicit_abandon_refs successor))
     || negb (kept (supersede_evidence_refs self) (supersede_evidence_refs successor))
     || negb ((execution_status self ==? execution_status successor)
              || execution_transition (execution_status self) (execution_status successor))
     || negb ((adoption_status self ==? adoption_status successor)
              || adoption_transition (adoption_status self) (adoption_status successor))
     || negb ((verification self ==? verification successor)
              || verification_transition (verification self) (verification successor))
     || negb ((lifecycle_status self ==? lifecycle_status successor)
              || (lifecycle_status self ==? AttemptLifecycleStatus.Active)
                 && (lifecycle_status successor ==? AttemptLifecycleStatus.Superseded))
     || negb (resume_ok self successor))
    WorkError.InvalidWorkIdentity.
End Attempt.
Abbreviation Attempt := Attempt.Attempt.
Export (hints) Attempt.

(** ** Competing attempt groups *)

Module CompetingConflictKind.
Inductive CompetingConflictKind :=
| OverlappingChange
| AlternativeStrategy
| IncompatibleResult
| SharedStateRace.
#[export] Instance eq_dec : EqDecision CompetingConflictKind.
Proof. solve_decision. Defined.
End CompetingConflictKind.
Abbreviation CompetingConflictKind := CompetingConflictKind.CompetingConflictKind.
Export (hints) CompetingConflictKind.

Module CompetingResolutionStatus.
Inductive CompetingResolutionStatus :=
| Open
| Selected
| PartiallyIntegrated
| RejectedAll
| Unresolved.
#[export] Instance eq_dec : EqDecision CompetingResolutionStatus.
Proof. solve_decision. Defined.
End CompetingResolutionStatus.
Abbreviation CompetingResolutionStatus := CompetingResolutionStatus.CompetingResolutionStatus.
Export (hints) CompetingResolutionStatus.

Module CandidateSnapshotRef.
Record CandidateSnapshotRef := mk {
  attempt_id : AttemptId;
  workstream_id : WorkstreamId;
  snapshot_id : WorktreeSnapshotId;
}.
#[export] Instance eq_dec : EqDecision CandidateSnapshotRef.
Proof. solve_decision. Defined.
Definition key (r : CandidateSnapshotRef) := (attempt_id r, (workstream_id r, snapshot_id r)).
Lemma CandidateSnapshotRef_key_inj x y : key x = key y -> x = y.
Proof. destruct x, y; unfold key; simpl; congruence. Qed.
#[export] Instance ord : Ord CandidateSnapshotRef := Ord_by key CandidateSnapshotRef_key_inj.
End CandidateSnapshotRef.
Abbreviation CandidateSnapshotRef := CandidateSnapshotRef.CandidateSnapshotRef.
Export (hints) CandidateSnapshotRef.

Module CompetingAttemptGroup.
Record CompetingAttemptGroup := mk {
  competing_group_id : CompetingAttemptGroupId;
  revision_id : RevisionId;
  predecessor_revision_id : option RevisionId;
  revision_generation : N;
  task_id : TaskId;
  decision_boundary_ref : string;
  comparison_contract_ref : option string;
  origin_workstream_id : option WorkstreamId;
  origin_episode_id : option WorkEpisodeId;
  member_workstream_ids : list WorkstreamId;
  member_attempt_ids : list AttemptId;
  candidate_snapshot_refs : list CandidateSnapshotRef;
  target_refs : list string;
  conflict_kind : CompetingConflictKind;
  resolution_status : CompetingResolutionStatus;
  selected_attempt_id : option AttemptId;
  partially_integrated_attempt_ids : list AttemptId;
  resolution_evidence_refs : list string;
  source_watermark : N;
}.
#[export] Instance eq_dec : EqDecision CompetingAttemptGroup.
Proof. solve_decision. Defined.
Definition set_resolution (self : CompetingAttemptGroup)
    (v_revision_id : RevisionId) (v_predecessor_revision_id : option RevisionId)
    (v_revision_generation : N) (v_resolution_status : CompetingResolutionStatus)
    (v_selected_attempt_id : option AttemptId) (v_partially_integrated_attempt_ids : list
    AttemptId) (v_resolution_evidence_refs : list string) (v_source_watermark : N) : CompetingAttemptGroup :=
  mk
    (self.(competing_group_id)) v_revision_id v_predecessor_revision_id
    v_revision_generation (self.(task_id)) (self.(decision_boundary_ref))
    (self.(comparison_contract_ref)) (self.(origin_workstream_id))
    (self.(origin_episode_id)) (self.(member_workstream_ids)) (self.(member_attempt_ids))
    (self.(candidate_snapshot_refs)) (self.(target_refs)) (self.(conflict_kind))
    v_resolution_status v_selected_attempt_id v_partially_integrated_attempt_ids
    v_resolution_evidence_refs v_source_watermark.

(** [let closed = match self.resolution_status ..]. *)
Definition closed (self : CompetingAttemptGroup) : bool :=
  match resolution_status self with
  | CompetingResolutionStatus.Open | CompetingResolutionStatus.Unresolved
  | CompetingResolutionStatus.RejectedAll =>
      is_none (selected_attempt_id self) && is_empty (partially_integrated_attempt_ids self)
      && Bool.eqb (resolution_status self ==? CompetingResolutionStatus.Open)
                  (is_empty (resolution_evidence_refs self))
  | CompetingResolutionStatus.Selected =>
      is_some (selected_attempt_id self) && is_empty (partially_integrated_attempt_ids self)
      && negb (is_empty (resolution_evidence_refs self))
  | CompetingResolutionStatus.PartiallyIntegrated =>
      is_none (selected_attempt_id self) && negb (is_empty (partially_integrated_attempt_ids self))
      && negb (is_empty (resolution_evidence_refs self))
  end.

Definition validate (self : CompetingAttemptGroup) : result WorkError unit :=
  guard
    ((revision_generation self =? 0)%N
     || (source_watermark self =? 0)%N
     || xorb (revision_generation self =? 1)%N (is_none (predecessor_revision_id self))
     || negb (bounded (decision_boundary_ref self))
     || is_some_and (comparison_contract_ref self) (fun v => negb (bounded v))
     || is_some (origin_episode_id self)
     || (length (member_attempt_ids self) <? 2)%nat
     || (MAX_REFS <? length (member_attempt_ids self))%nat
     || negb (strictly_ordered_unique (member_attempt_ids self))
     || (MAX_REFS <? length (member_workstream_ids self))%nat
     || negb (strictly_ordered_unique (member_workstream_ids self))
     || (MAX_REFS <? length (candidate_snapshot_refs self))%nat
     || negb (strictly_ordered_unique (candidate_snapshot_refs self))
     || negb (bounded_refs (target_refs self))
     || negb (bounded_refs (resolution_evidence_refs self))
     || negb (strictly_ordered_unique (partially_integrated_attempt_ids self))
     || negb (kept (partially_integrated_attempt_ids self) (member_attempt_ids self))
     || is_some_and (selected_attempt_id self) (fun id => negb (contains id (member_attempt_ids self)))
     || negb (closed self))
    WorkError.InvalidWorkIdentity.

Definition transition_ok (old new : CompetingResolutionStatus) : bool :=
  contains old [CompetingResolutionStatus.Open; CompetingResolutionStatus.Unresolved]
  && contains new [CompetingResolutionStatus.Unresolved;
                   CompetingResolutionStatus.PartiallyIntegrated;
                   CompetingResolutionStatus.Selected; CompetingResolutionStatus.RejectedAll]
  || (old ==? CompetingResolutionStatus.PartiallyIntegrated)
     && contains new [CompetingResolutionStatus.PartiallyIntegrated;
                      CompetingResolutionStatus.Selected; CompetingResolutionStatus.RejectedAll].

Definition partial_progress (self successor : CompetingAttemptGroup) : bool :=
  (resolution_status self !=? CompetingResolutionStatus.PartiallyIntegrated)
  || (resolution_status successor !=? CompetingResolutionStatus.PartiallyIntegrated)
  || kept (partially_integrated_attempt_ids self) (partially_integrated_attempt_ids successor)
     && ((length (partially_integrated_attempt_ids self)
          <? length (partially_integrated_attempt_ids successor))%nat
         || (length (resolution_evidence_refs self)
             <? length (resolution_evidence_refs successor))%nat).

Definition validate_successor (self successor : CompetingAttemptGroup) : result WorkError unit :=
  do? validate self in
  do? validate successor in
  let? generation :=
    ok_or (checked_add_u64 (revision_generation self) 1) WorkError.InvalidWorkIdentity in
  guard
    ((competing_group_id successor !=? competing_group_id self)
     || (revision_generation successor !=? generation)
     || (predecessor_revision_id successor !=? Some (revision_id self))
     || (revision_id successor ==? revision_id self)
     || (task_id successor !=? task_id self)
     || (decision_boundary_ref successor !=? decision_boundary_ref self)
     || (comparison_contract_ref successor !=? comparison_contract_ref self)
     || (origin_workstream_id successor !=? origin_workstream_id self)
     || (origin_episode_id successor !=? origin_episode_id self)
     || (member_workstream_ids successor !=? member_workstream_ids self)
     || (member_attempt_ids successor !=? member_attempt_ids self)
     || (candidate_snapshot_refs successor !=? candidate_snapshot_refs self)
     || (target_refs successor !=? target_refs self)
     || (conflict_kind successor !=? conflict_kind self)
     || (source_watermark successor <=? source_watermark self)%N
     || negb (kept (resolution_evidence_refs self) (resolution_evidence_refs successor))
     || negb (transition_ok (resolution_status self) (resolution_status successor))
     || negb (partial_progress self successor))
    WorkError.InvalidWorkIdentity.
End CompetingAttemptGroup.
Abbreviation CompetingAttemptGroup := CompetingAttemptGroup.CompetingAttemptGroup.
Export (hints) CompetingAttemptGroup.

(** ** Lemmas on strategy contracts *)

Lemma bounded_len s : bounded s = true -> (str_len s <= U64_MAX)%N.
Proof.
  unfold bounded, bounded_text, MAX_TEXT, U64_MAX. rewrite andb_true_iff, N.leb_le. lia.
Qed.

Lemma is_some_and_false {A} (o : option A) f :
  is_some_and o f = false <-> (forall x, o = Some x -> f x = false).
Proof. destruct o; simpl; naive_solver. Qed.

Module ContractFacts.
Import StrategyContract.

Lemma canonical_value_unique c : unique_keys (canonical_value c).
Proof.
  constructor; [apply (bool_decide_unpack _); by vm_compute|].
  repeat constructor; simpl; [by destruct (objective_ref c); constructor|
    by destruct (search_policy_ref c); constructor|].
  apply Forall_fmap, Forall_true. intros; constructor.
Qed.

Lemma canonical_value_ok c : value_ok (canonical_value c).
Proof.
  repeat constructor; simpl; [by destruct (objective_ref c); constructor|
    by destruct (search_policy_ref c); constructor|].
  apply Forall_fmap, Forall_true. intros; constructor.
Qed.

Lemma canonical_value_fits c : validate c = Ok tt -> value_fits (canonical_value c).
Proof.
  unfold validate. rewrite guard_ok, !orb_false_iff, !negb_false_iff, !is_some_and_false.
  intros H. destruct_and! H. rename select (bounded_refs _ = true) into Hr.
  apply bounded_refs_true in Hr as (Hl & Hr & _).
  assert (forall o, (forall v, o = Some v -> negb (bounded v) = false) ->
          value_fits (optional_string o)) as Ho.
  { intros [v|] Hv; constructor. apply bounded_len. specialize (Hv v eq_refl).
    by apply negb_false_iff in Hv. }
  constructor; [by vm_compute|].
  assert (forall v, bounded v = true -> value_fits (CString v)) as Hs
    by (intros; by apply fits_string, bounded_len).
  repeat (apply Forall_cons; split; [split; [by vm_compute|cbn [snd]; auto]|]); [|done].
  constructor.
  - unfold len. rewrite length_fmap. unfold MAX_REFS, U64_MAX in *. lia.
  - apply Forall_fmap. eapply Forall_impl; [exact Hr|]. intros v Hv. constructor. by apply bounded_len.
Qed.

Lemma same_string_inv s t : same_value (CString s) (CString t) -> s = t.
Proof. by inversion 1. Qed.

Lemma same_optional_inv a b : same_value (optional_string a) (optional_string b) -> a = b.
Proof. destruct a, b; simpl; inversion 1; by subst. Qed.

Lemma same_strings_inv l m : same_value (strings l) (strings m) -> l = m.
Proof.
  intros H. inversion H as [| | | | |? ? Hf|]; subst. clear H. revert m Hf.
  induction l as [|x l IH]; intros [|y m] Hf; [done|by inversion Hf..|].
  apply Forall2_cons in Hf as [Hxy Hf]. by rewrite (same_string_inv x y Hxy), (IH m Hf).
Qed.

Lemma canonical_value_inj c d : same_value (canonical_value c) (canonical_value d) -> c = d.
Proof.
  intros H. pose proof (canonical_value_unique d) as U. inversion U as [| | | | | |? Hn _]; subst.
  assert (forall k v w, (k, v) ∈ _ -> (k, w) ∈ _ -> same_value v w) as L
    by (intros k v w Hv Hw; exact (same_map_entry _ _ k v w H Hn Hv Hw)).
  destruct c, d; simpl in *. f_equal;
    first [eapply same_string_inv | eapply same_optional_inv | eapply same_strings_inv];
    eapply L; repeat first [apply list_elem_of_here | apply list_elem_of_further].
Qed.

Lemma fingerprint_total `{SHA : Sha256} c :
  validate c = Ok tt -> exists b, encode STRATEGY_FINGERPRINT_TAG STRATEGY_FINGERPRINT_VERSION
    (canonical_value c) = Ok b /\ fingerprint c = Ok (sha256_digest b).
Proof.
  intros Hc. unfold fingerprint, sha256. rewrite Hc. cbn [rbind].
  destruct (encode_unique_ok STRATEGY_FINGERPRINT_TAG STRATEGY_FINGERPRINT_VERSION
    (canonical_value c)) as [b Hb];
    [done|by vm_compute|by apply canonical_value_fits|apply canonical_value_unique|].
  exists b. by rewrite Hb.
Qed.

Lemma fingerprint_valid `{SHA : Sha256} c fp : fingerprint c = Ok fp -> validate c = Ok tt.
Proof. unfold fingerprint. intros Hc. by apply bind_unit_ok in Hc as [? _]. Qed.

End ContractFacts.

(** ** Lemmas on successors *)

Module AttemptFacts.
Import Attempt.

(** What never changes along the revisions of an attempt. *)
Record same_attempt (a b : Attempt) : Prop := {
  same_attempt_id : attempt_id b = attempt_id a;
  same_task : task_id b = task_id a;
  same_workstream : workstream_id b = workstream_id a;
  same_repository : repository_instance_id b = repository_instance_id a;
  same_contract : strategy_contract b = strategy_contract a;
  same_fingerprint : strategy_contract_fingerprint b = strategy_contract_fingerprint a;
  same_resumes_from : resumes_from_attempt_id b = resumes_from_attempt_id a;
  same_composed_from : composed_from_attempt_ids b = composed_from_attempt_ids a;
}.

(** What only grows. *)
Record evidence_grows (a b : Attempt) : Prop := {
  grow_worktrees : worktree_instance_ids a ⊆ worktree_instance_ids b;
  grow_lanes : execution_lane_ids a ⊆ execution_lane_ids b;
  grow_groups : competing_group_ids a ⊆ competing_group_ids b;
  grow_transitions : worktree_transition_refs a ⊆ worktree_transition_refs b;
  grow_integrations : integration_event_refs a ⊆ integration_event_refs b;
  grow_bindings : work_binding_revision_refs a ⊆ work_binding_revision_refs b;
  grow_resume : resume_event_refs a ⊆ resume_event_refs b;
  grow_local : local_outcome_refs a ⊆ local_outcome_refs b;
  grow_verification : parent_verification_refs a ⊆ parent_verification_refs b;
  grow_outcome : outcome_refs a ⊆ outcome_refs b;
  grow_interruption : interruption_refs a ⊆ interruption_refs b;
  grow_abandon : explicit_abandon_refs a ⊆ explicit_abandon_refs b;
  grow_supersede : supersede_evidence_refs a ⊆ supersede_evidence_refs b;
}.

Definition status_moves (a b : Attempt) : Prop :=
  (execution_status a = execution_status b \/
   execution_transition (execution_status a) (execution_status b) = true) /\
  (adoption_status a = adoption_status b \/
   adoption_transition (adoption_status a) (adoption_status b) = true) /\
  (verification a = verification b \/
   verification_transition (verification a) (verification b) = true) /\
  (lifecycle_status a = lifecycle_status b \/
   lifecycle_status a = AttemptLifecycleStatus.Active /\
   lifecycle_status b = AttemptLifecycleStatus.Superseded).

Definition numbered (a b : Attempt) : Prop :=
  revision_generation b = (revision_generation a + 1)%N /\
  (revision_generation b <= U64_MAX)%N /\
  predecessor_revision_id b = Some (revision_id a) /\ revision_id b <> revision_id a /\
  (source_watermark a < source_watermark b)%N.

Definition worktrees_move (a b : Attempt) : Prop :=
  worktree_instance_ids a = worktree_instance_ids b \/ reopening a b = true.

Lemma kept_negb {A} `{!EqDecision A} (l m : list A) : negb (kept l m) = false <-> l ⊆ m.
Proof. by rewrite negb_false_iff, kept_true. Qed.

(** The successor relation is exactly the conjunction of these parts. *)
Lemma validate_successor_ok `{SHA : Sha256} a b u :
  validate_successor a b = Ok u <->
  validate a = Ok tt /\ validate b = Ok tt /\ numbered a b /\ same_attempt a b /\
  evidence_grows a b /\ status_moves a b /\ worktrees_move a b /\
  episode_changed (episode_id a) (episode_id b) = false /\ resume_ok a b = true.
Proof.
  unfold validate_successor, numbered, status_moves, worktrees_move, worktree_growth_ok.
  rewrite !bind_unit_ok, rbind_ok. setoid_rewrite ok_or_ok. setoid_rewrite checked_add_u64_Some.
  setoid_rewrite guard_ok. setoid_rewrite orb_false_iff.
  split.
  - intros (Va & Vb & g & [-> Hg] & H). repeat setoid_rewrite orb_false_iff in H.
    rewrite !kept_negb, !negb_false_iff, !andb_true_iff, !orb_true_iff, !andb_true_iff,
      !bool_decide_eq_true, kept_true, N.leb_gt, bool_decide_eq_false in H.
    destruct_and! H. split_and!; try done; [lia|split; done..].
  - intros (Va & Vb & (Hg & Hm & Hp & Hr & Hw) & [] & [] & Hs & Hwt & He & Hres).
    split; [done|]. split; [done|]. exists (revision_generation a + 1)%N. split; [split; [done|lia]|].
    repeat setoid_rewrite orb_false_iff.
    rewrite !kept_negb, !negb_false_iff, !andb_true_iff, !orb_true_iff, !andb_true_iff,
      !bool_decide_eq_true, kept_true, N.leb_gt, bool_decide_eq_false.
    destruct_and! Hs. split_and!; done.
Qed.

Lemma validate_basics `{SHA : Sha256} a :
  validate a = Ok tt ->
  StrategyContract.validate (strategy_contract a) = Ok tt /\
  StrategyContract.fingerprint (strategy_contract a) = Ok (strategy_contract_fingerprint a) /\
  source_watermark a <> 0%N /\ lists_ok a = true.
Proof.
  unfold validate. intros H. apply bind_unit_ok in H as [Hc H]. apply bind_unit_ok in H as [Hg H].
  apply rbind_ok in H as (fp & Hfp & H). rewrite guard_ok, !orb_false_iff in Hg. rewrite guard_ok, !orb_false_iff in H.
  destruct_and! Hg. destruct_and! H.
    rename select ((strategy_contract_fingerprint a !=? fp) = false) into He.
  apply negb_false_iff, bool_decide_eq_true in He.
  split_and!; [done|congruence|by apply N.eqb_neq|by apply negb_false_iff].
Qed.

End AttemptFacts.

(** ** Chains of revisions

    [chain step n a b]: [b] is reached from [a] by [n] revisions, each accepted
    by the successor check [step]. *)

Inductive chain {E A} (step : A -> A -> result E unit) : nat -> A -> A -> Prop :=
| chain_refl a : chain step 0 a a
| chain_step n a b c : chain step n a b -> step b c = Ok tt -> chain step (S n) a c.

(** A property of every single step that is reflexive and transitive holds of
    the whole chain. *)
Lemma chain_preserves {E A} (step : A -> A -> result E unit) (R : A -> A -> Prop) `{!Reflexive R, !Transitive R} n (a b : A) :
  (forall x y, step x y = Ok tt -> R x y) -> chain step n a b -> R a b.
Proof.
  intros H. induction 1 as [|n a b c _ IH Hs]; [done|]. etransitivity; [exact IH|auto].
Qed.

#[export] Instance same_attempt_refl : Reflexive AttemptFacts.same_attempt.
Proof. by split. Qed.
#[export] Instance same_attempt_trans : Transitive AttemptFacts.same_attempt.
Proof. intros a b c [] []. split; congruence. Qed.
#[export] Instance evidence_grows_refl : Reflexive AttemptFacts.evidence_grows.
Proof. by split. Qed.
#[export] Instance evidence_grows_trans : Transitive AttemptFacts.evidence_grows.
Proof. intros a b c [] []. split; etransitivity; eassumption. Qed.

(** The states no revision leaves. *)
Definition terminal_kept (a b : Attempt) : Prop :=
  (Attempt.execution_status a ∈ [AttemptExecutionStatus.Completed; AttemptExecutionStatus.Abandoned] ->
   Attempt.execution_status b = Attempt.execution_status a) /\
  (Attempt.adoption_status a ∈ [AttemptAdoptionStatus.Integrated; AttemptAdoptionStatus.Rejected] ->
   Attempt.adoption_status b = Attempt.adoption_status a) /\
  (Attempt.verification a ∈ [AttemptVerification.Passed; AttemptVerification.Failed] ->
   Attempt.verification b = Attempt.verification a) /\
  (Attempt.lifecycle_status a = AttemptLifecycleStatus.Superseded ->
   Attempt.lifecycle_status b = AttemptLifecycleStatus.Superseded).

#[export] Instance terminal_kept_refl : Reflexive terminal_kept.
Proof. intros a. unfold terminal_kept. by split_and!. Qed.
#[export] Instance terminal_kept_trans : Transitive terminal_kept.
Proof.
  intros a b c (A1 & A2 & A3 & A4) (B1 & B2 & B3 & B4). split_and!; intros H.
  - rewrite B1; rewrite A1; auto.
  - rewrite B2; rewrite A2; auto.
  - rewrite B3; rewrite A3; auto.
  - auto.
Qed.

Lemma status_moves_terminal a b : AttemptFacts.status_moves a b -> terminal_kept a b.
Proof.
  unfold AttemptFacts.status_moves, terminal_kept. intros (E & A & V & L).
  rewrite <-!contains_true.
  split_and!; intros H.
  - destruct (Attempt.execution_status a), (Attempt.execution_status b); naive_solver.
  - destruct (Attempt.adoption_status a), (Attempt.adoption_status b); naive_solver.
  - destruct (Attempt.verification a), (Attempt.verification b); naive_solver.
  - destruct L as [<-|[L _]]; congruence.
Qed.

(** ** Lemmas on competing groups *)

Module GroupFacts.
Import CompetingAttemptGroup.

(** Steps left in the partially integrated state. *)
Definition progress (g : CompetingAttemptGroup) : nat :=
  length (partially_integrated_attempt_ids g) + length (resolution_evidence_refs g).

Lemma valid_sizes g : validate g = Ok tt ->
  NoDup (partially_integrated_attempt_ids g) /\ NoDup (resolution_evidence_refs g) /\
  (length (partially_integrated_attempt_ids g) <= 64)%nat /\
  (length (resolution_evidence_refs g) <= 64)%nat /\
  (resolution_status g = CompetingResolutionStatus.PartiallyIntegrated -> (2 <= progress g)%nat).
Proof.
  unfold validate. rewrite guard_ok, !orb_false_iff, !negb_false_iff. intros H. destruct_and! H.
  rewrite strictly_ordered_unique_true, bounded_refs_true, kept_true, Nat.ltb_ge in *.
  destruct_and?. assert (NoDup (partially_integrated_attempt_ids g)) by (by apply sorted_lt_NoDup).
  split; [done|]. split; [by apply sorted_lt_NoDup|]. split_and!.
  - transitivity (length (member_attempt_ids g)); [|done].
    apply submseteq_length, NoDup_submseteq; done.
  - done.
  - intros E. unfold closed in *. rewrite E in *.
    destruct (partially_integrated_attempt_ids g) eqn:E1, (resolution_evidence_refs g) eqn:E2;
      unfold progress; rewrite E1, E2; simpl in *; rewrite ?andb_false_r in *; try done; lia.
Qed.

Lemma partial_step g h :
  resolution_status g = CompetingResolutionStatus.PartiallyIntegrated ->
  resolution_status h = CompetingResolutionStatus.PartiallyIntegrated ->
  validate_successor g h = Ok tt -> (progress g < progress h)%nat.
Proof.
  intros Eg Eh H. unfold validate_successor in H. apply bind_unit_ok in H as [Vg H].
  apply bind_unit_ok in H as [Vh H]. apply rbind_ok in H as (n & _ & H).
  rewrite guard_ok, !orb_false_iff, !negb_false_iff in H. destruct_and! H.
  rename select (partial_progress _ _ = true) into Hp.
  rename select (kept (resolution_evidence_refs _) _ = true) into He.
  unfold partial_progress in Hp. rewrite Eg, Eh in Hp. simpl in Hp.
  rewrite andb_true_iff, orb_true_iff, !Nat.ltb_lt, kept_true in Hp. rewrite kept_true in He.
  destruct (valid_sizes g Vg) as (N1 & N2 & _).
  assert (length (partially_integrated_attempt_ids g) <= length (partially_integrated_attempt_ids h))%nat
    by (apply submseteq_length, NoDup_submseteq; tauto).
  assert (length (resolution_evidence_refs g) <= length (resolution_evidence_refs h))%nat
    by (by apply submseteq_length, NoDup_submseteq).
  unfold progress. lia.
Qed.

Lemma successor_transition g h :
  validate_successor g h = Ok tt ->
  transition_ok (resolution_status g) (resolution_status h) = true /\
  validate g = Ok tt /\ validate h = Ok tt.
Proof.
  intros H. unfold validate_successor in H. apply bind_unit_ok in H as [Vg H].
  apply bind_unit_ok in H as [Vh H]. apply rbind_ok in H as (n & _ & H).
  rewrite guard_ok, !orb_false_iff, !negb_false_iff in H. destruct_and! H. done.
Qed.

(** The states of a chain that ends partially integrated: once entered, the
    state is kept, and every revision in it makes progress. *)
Lemma partial_chain n g h :
  chain validate_successor n g h ->
  resolution_status g = CompetingResolutionStatus.PartiallyIntegrated ->
  resolution_status h = CompetingResolutionStatus.PartiallyIntegrated ->
  (progress g + n <= progress h)%nat.
Proof.
  intros H Eg. induction H as [g|n g b c Hc IH Hs]; intros Eh; [lia|].
  destruct (successor_transition b c Hs) as (Ht & _ & _). rewrite Eh in Ht.
  assert (resolution_status b = CompetingResolutionStatus.PartiallyIntegrated) as Eb.
  { clear IH Hs. revert Eg Ht. induction Hc as [x|m x y z Hxy IHc Hyz]; intros Eg Ht; [done|].
    destruct (successor_transition y z Hyz) as (Ht' & _ & _).
    destruct (resolution_status z) eqn:Ez; try done;
      destruct (resolution_status y) eqn:Ey; try done;
      specialize (IHc Eg eq_refl); congruence. }
  specialize (IH Eg Eb). pose proof (partial_step b c Eb Eh Hs). lia.
Qed.

End GroupFacts.

(** ** Theorems *)

(** The strategy fingerprint identifies the contract.  Every valid contract
    has a fingerprint, and, as far as SHA-256 has no collision, two contracts
    with the same fingerprint are equal in every field. *)
Theorem fingerprint_identifies `{SHA : Sha256} (c d : StrategyContract) :
  (forall x y, sha256_digest x = sha256_digest y -> x = y) ->
  StrategyContract.validate c = Ok tt -> StrategyContract.validate d = Ok tt ->
  is_ok (StrategyContract.fingerprint c) = true /\
  (StrategyContract.fingerprint c = StrategyContract.fingerprint d <-> c = d).
Proof.
  intros Hinj Hc Hd.
  destruct (ContractFacts.fingerprint_total c Hc) as (b & Hb & ->).
  destruct (ContractFacts.fingerprint_total d Hd) as (b' & Hb' & Hd').
  split; [done|]. split; [|by intros <-; congruence].
  rewrite Hd'. intros [= E%Hinj]. subst b'. apply ContractFacts.canonical_value_inj.
  assert (STRATEGY_FINGERPRINT_VERSION <= U32_MAX)%N as Hver by (by vm_compute).
  exact (proj2 (proj2 (encode_inj _ _ _ _ _ _ b (ContractFacts.canonical_value_ok c)
    (ContractFacts.canonical_value_ok d) Hver Hver Hb Hb'))).
Qed.

(** What the revisions of an attempt preserve.  Along any chain of accepted
    successors the attempt keeps its identity, task, workstream, strategy
    contract and provenance, loses no recorded evidence, is numbered without
    gap and carries strictly increasing source watermarks. *)
Theorem attempt_chain_invariant `{SHA : Sha256} n (a b : Attempt) :
  chain Attempt.validate_successor n a b ->
  AttemptFacts.same_attempt a b /\ AttemptFacts.evidence_grows a b /\
  Attempt.revision_generation b = (Attempt.revision_generation a + N.of_nat n)%N /\
  (Attempt.source_watermark a + N.of_nat n <= Attempt.source_watermark b)%N /\
  (0 < n -> Attempt.validate b = Ok tt)%nat.
Proof.
  intros H. split_and!.
  - apply (chain_preserves _ AttemptFacts.same_attempt n a b) in H; [done|]. intros x y.
    rewrite AttemptFacts.validate_successor_ok. tauto.
  - apply (chain_preserves _ AttemptFacts.evidence_grows n a b) in H; [done|]. intros x y.
    rewrite AttemptFacts.validate_successor_ok. tauto.
  - induction H as [a|n a b c _ IH Hs]; [lia|].
    apply AttemptFacts.validate_successor_ok in Hs as (_ & _ & Hn & _).
    unfold AttemptFacts.numbered in Hn. lia.
  - induction H as [a|n a b c _ IH Hs]; [lia|].
    apply AttemptFacts.validate_successor_ok in Hs as (_ & _ & Hn & _).
    unfold AttemptFacts.numbered in Hn. lia.
  - destruct H as [|? ? ? ? _ Hs]; [lia|]. intros _.
    apply AttemptFacts.validate_successor_ok in Hs. tauto.
Qed.

(** Settled states are final.  No chain of accepted revisions leaves a
    completed or abandoned execution, an integrated or rejected adoption, a
    passed or failed verification, or a superseded lifecycle. *)
Theorem attempt_terminal_absorbing `{SHA : Sha256} n (a b : Attempt) :
  chain Attempt.validate_successor n a b -> terminal_kept a b.
Proof.
  apply (chain_preserves _ terminal_kept). intros x y Hs.
  apply AttemptFacts.validate_successor_ok in Hs as (_ & _ & _ & _ & _ & Hs & _).
  by apply status_moves_terminal.
Qed.

(** The resolution of a competing group ends.  A selected or rejected group
    has no successor at all, and a group stays partially integrated for at most
    126 further revisions, since each of them must integrate a new attempt or
    add evidence, and both lists hold at most 64 entries. *)
Theorem group_resolution_bounded n (g h : CompetingAttemptGroup) :
  chain CompetingAttemptGroup.validate_successor n g h ->
  (CompetingAttemptGroup.resolution_status g ∈
     [CompetingResolutionStatus.Selected; CompetingResolutionStatus.RejectedAll] -> n = 0%nat) /\
  (CompetingAttemptGroup.resolution_status g = CompetingResolutionStatus.PartiallyIntegrated ->
   CompetingAttemptGroup.resolution_status h = CompetingResolutionStatus.PartiallyIntegrated ->
   (n <= 126)%nat).
Proof.
  intros H. split.
  - intros Hg. induction H as [|n g b c Hc IH Hs]; [done|]. specialize (IH Hg). subst n.
    inversion Hc; subst. destruct (GroupFacts.successor_transition _ _ Hs) as (Ht & _).
    apply contains_true in Hg.
    by destruct (CompetingAttemptGroup.resolution_status b), (CompetingAttemptGroup.resolution_status c).
  - intros Eg Eh. pose proof (GroupFacts.partial_chain n g h H Eg Eh) as Hp.
    destruct H as [|n g b c Hc Hs]; [lia|].
    assert (CompetingAttemptGroup.validate g = Ok tt) as Vg.
    { clear -Hc Hs. revert c Hs. induction Hc as [|m g b c Hc IH Hs']; intros d Hs.
      - apply GroupFacts.successor_transition in Hs. tauto.
      - by apply (IH c). }
    destruct (GroupFacts.successor_transition _ _ Hs) as (_ & _ & Vc).
    destruct (GroupFacts.valid_sizes g Vg) as (_ & _ & _ & _ & Lg).
    destruct (GroupFacts.valid_sizes c Vc) as (_ & _ & Lc1 & Lc2 & _).
    specialize (Lg Eg). unfold GroupFacts.progress in *. lia.
Qed.
