(* ===== verification/AttemptOps.v ===== *)
(** * Operations on attempts and competing groups

    [evertrace-engine/src/work/attempt.rs]: the operations that build, revise,
    resume, compose and supersede attempts and resolve competing groups.  An
    identifier the code draws with [new_v7()] is an argument [fresh] here.  The
    functions over the store's projections are parametric in the projection. *)

From S2P Require Import Prelude Order Collections Text Ids Canonical Lane Journal Attempt.

Module AttemptResolution.
Inductive AttemptResolution (T : Type) :=
| NoDelta
| Revision (next : T).
Arguments NoDelta {T}.
Arguments Revision {T} _.
End AttemptResolution.
Abbreviation AttemptResolution := AttemptResolution.AttemptResolution.

(** The events of this component among the constructors of [JournalPayload]. *)
Module AttemptPayload.
Inductive AttemptPayload :=
| AttemptRecorded (attempt : Attempt)
| CompetingAttemptGroupRecorded (group : CompetingAttemptGroup).
End AttemptPayload.
Abbreviation AttemptPayload := AttemptPayload.AttemptPayload.

Section operations.
Context `{SHA : Sha256}.

(** [.map_err(|_| WorkIdentityError::InvalidInput)]. *)
Definition invalid_input {A} (m : result WorkError A) : result WorkIdentityError A :=
  map_err (fun _ => WorkIdentityError.InvalidInput) m.

(** [v.extend(new); v.sort(); v.dedup();] *)
Definition extend_unique {A} `{!Ord A, !EqDecision A} (old new : list A) : list A :=
  sort_unique (old ++ new).

(** ** Commands *)

Definition attempt_command_with_source (context : WorkCommandContext) (attempt : Attempt)
    (source_kind : SourceKind) : result WorkIdentityError (JournalCommand AttemptPayload) :=
  do? invalid_input (Attempt.validate attempt) in
  single_command context source_kind (AttemptPayload.AttemptRecorded attempt).

Definition attempt_command (context : WorkCommandContext) (attempt : Attempt) :=
  attempt_command_with_source context attempt SourceKind.System.

Definition group_command_with_source (context : WorkCommandContext)
    (group : CompetingAttemptGroup) (source_kind : SourceKind)
  : result WorkIdentityError (JournalCommand AttemptPayload) :=
  do? invalid_input (CompetingAttemptGroup.validate group) in
  single_command context source_kind (AttemptPayload.CompetingAttemptGroupRecorded group).

Definition group_command (context : WorkCommandContext) (group : CompetingAttemptGroup) :=
  group_command_with_source context group SourceKind.System.

Definition create_attempt (context : WorkCommandContext) (attempt : Attempt)
  : result WorkIdentityError (JournalCommand AttemptPayload) :=
  do? guard ((Attempt.revision_generation attempt !=? 1%N)
             || is_some (Attempt.predecessor_revision_id attempt)
             || is_some (Attempt.episode_id attempt))
        WorkIdentityError.InvalidInput in
  attempt_command context attempt.

Definition record_attempt_revision (context : WorkCommandContext) (current successor : Attempt)
  : result WorkIdentityError (JournalCommand AttemptPayload) :=
  do? invalid_input (Attempt.validate_successor current successor) in
  attempt_command context successor.

(** ** Revisions of one attempt *)

Definition successor (fresh : RevisionId) (current : Attempt) (source_watermark : N)
  : result WorkIdentityError Attempt :=
  do? guard (source_watermark <=? Attempt.source_watermark current)%N
        WorkIdentityError.InvalidInput in
  let? generation := ok_or (checked_add_u64 (Attempt.revision_generation current) 1)
                       WorkIdentityError.InvalidInput in
  Ok (Attempt.set_successor current fresh (Some (Attempt.revision_id current)) generation
        source_watermark).

(** The transitions [revise_execution] allows: those of the successor check
    without the reopening of an interrupted attempt. *)
Definition execution_allowed (old new : AttemptExecutionStatus) : bool :=
  match old, new with
  | AttemptExecutionStatus.Proposed,
    (AttemptExecutionStatus.Active | AttemptExecutionStatus.Abandoned) => true
  | AttemptExecutionStatus.Active,
    (AttemptExecutionStatus.Interrupted | AttemptExecutionStatus.Completed
     | AttemptExecutionStatus.Abandoned) => true
  | AttemptExecutionStatus.Interrupted,
    (AttemptExecutionStatus.Completed | AttemptExecutionStatus.Abandoned) => true
  | _, _ => false
  end.

Definition revise_execution (fresh : RevisionId) (current : Attempt)
    (status : AttemptExecutionStatus) (lane_ids : list ExecutionLaneId)
    (interruption_refs : list string) (interruption_reason : option InterruptionReason)
    (explicit_abandon_refs : list string) (source_watermark : N)
  : result WorkIdentityError (AttemptResolution Attempt) :=
  if (Attempt.execution_status current ==? status)
     && (Attempt.execution_lane_ids current ==? lane_ids)
     && (Attempt.interruption_refs current ==? interruption_refs)
     && (Attempt.interruption_reason current ==? interruption_reason)
     && (Attempt.explicit_abandon_refs current ==? explicit_abandon_refs)
  then Ok AttemptResolution.NoDelta
  else
    do? guard (negb (execution_allowed (Attempt.execution_status current) status))
          WorkIdentityError.InvalidInput in
    let? next := successor fresh current source_watermark in
    let next := Attempt.set_execution next
      (extend_unique (Attempt.execution_lane_ids next) lane_ids) status
      (if status ==? AttemptExecutionStatus.Interrupted then AttemptOutcomeState.Unknown
       else Attempt.outcome_state next)
      (extend_unique (Attempt.interruption_refs next) interruption_refs)
      (match interruption_reason with
       | Some r => Some r
       | None => Attempt.interruption_reason current
       end)
      (extend_unique (Attempt.explicit_abandon_refs next) explicit_abandon_refs) in
    do? invalid_input (Attempt.validate next) in
    Ok (AttemptResolution.Revision next).

Definition revise_adoption (fresh : RevisionId) (current : Attempt)
    (status : AttemptAdoptionStatus) (integration_event_refs : list IntegrationEventId)
    (source_watermark : N) : result WorkIdentityError (AttemptResolution Attempt) :=
  if (Attempt.adoption_status current ==? status)
     && (Attempt.integration_event_refs current ==? integration_event_refs)
  then Ok AttemptResolution.NoDelta
  else
    do? guard (negb (adoption_transition (Attempt.adoption_status current) status))
          WorkIdentityError.InvalidInput in
    let? next := successor fresh current source_watermark in
    let next := Attempt.set_adoption next status
      (extend_unique (Attempt.integration_event_refs next) integration_event_refs) in
    do? invalid_input (Attempt.validate next) in
    Ok (AttemptResolution.Revision next).

Definition revise_verification (fresh : RevisionId) (current : Attempt)
    (verification : AttemptVerification) (objective_verifier_refs : list string)
    (source_watermark : N) : result WorkIdentityError (AttemptResolution Attempt) :=
  if (Attempt.verification current ==? verification)
     && (Attempt.parent_verification_refs current ==? objective_verifier_refs)
  then Ok AttemptResolution.NoDelta
  else
    do? guard (negb (verification_transition (Attempt.verification current) verification))
          WorkIdentityError.InvalidInput in
    let? next := successor fresh current source_watermark in
    let next := Attempt.set_verification next verification
      (extend_unique (Attempt.parent_verification_refs next) objective_verifier_refs) in
    do? invalid_input (Attempt.validate next) in
    Ok (AttemptResolution.Revision next).

Definition supersede_attempt (fresh : RevisionId) (current : Attempt)
    (evidence_refs : list string) (source_watermark : N)
  : result WorkIdentityError (AttemptResolution Attempt) :=
  if (Attempt.lifecycle_status current ==? AttemptLifecycleStatus.Superseded)
     && (Attempt.supersede_evidence_refs current ==? evidence_refs)
  then Ok AttemptResolution.NoDelta
  else
    let? next := successor fresh current source_watermark in
    let next := Attempt.set_superseded next AttemptLifecycleStatus.Superseded evidence_refs in
    do? invalid_input (Attempt.validate next) in
    Ok (AttemptResolution.Revision next).

Definition resume_same_attempt (fresh : RevisionId) (current : Attempt)
    (new_lane_id : ExecutionLaneId) (assessment : ResumeStateAssessment)
    (resume_event_refs : list string) (source_snapshot : option WorktreeSnapshotId)
    (target_snapshot : WorktreeSnapshotId) (transitions : list WorktreeTransitionId)
    (source_watermark : N) : result WorkIdentityError Attempt :=
  do? guard
    ((Attempt.execution_status current !=? AttemptExecutionStatus.Interrupted)
     || (Attempt.verification current ==? AttemptVerification.Failed)
     || (Attempt.lifecycle_status current ==? AttemptLifecycleStatus.Superseded)
     || contains new_lane_id (Attempt.execution_lane_ids current)
     || negb (contains assessment [ResumeStateAssessment.CompatibleSameInstance;
                                   ResumeStateAssessment.CompatibleLineageTransfer]))
    WorkIdentityError.InvalidInput in
  let? next := successor fresh current source_watermark in
  let next := Attempt.set_resumed next
    (extend_unique (Attempt.execution_lane_ids next) [new_lane_id])
    AttemptExecutionStatus.Active
    (extend_unique (Attempt.resume_event_refs next) resume_event_refs)
    (Some assessment) source_snapshot (Some target_snapshot)
    (extend_unique (Attempt.worktree_transition_refs next) transitions) in
  do? invalid_input (Attempt.validate next) in
  Ok next.

(** ** New attempts *)

Definition new_attempt (attempt_id : AttemptId) (fresh : RevisionId) (task_id : TaskId)
    (workstream_id : WorkstreamId) (repository_instance_id : option RepositoryId)
    (worktree_instance_ids : list WorktreeId) (execution_lane_ids : list ExecutionLaneId)
    (strategy_contract : StrategyContract) (source_watermark : N)
  : result WorkIdentityError Attempt :=
  let? fingerprint := invalid_input (StrategyContract.fingerprint strategy_contract) in
  let attempt := {|
    Attempt.attempt_id := attempt_id; Attempt.revision_id := fresh;
    Attempt.predecessor_revision_id := None; Attempt.revision_generation := 1;
    Attempt.task_id := task_id; Attempt.workstream_id := workstream_id;
    Attempt.episode_id := None; Attempt.repository_instance_id := repository_instance_id;
    Attempt.worktree_instance_ids := worktree_instance_ids;
    Attempt.execution_lane_ids := execution_lane_ids;
    Attempt.competing_group_ids := []; Attempt.experiment_run_ids := [];
    Attempt.execution_status := AttemptExecutionStatus.Proposed;
    Attempt.adoption_status := AttemptAdoptionStatus.None;
    Attempt.verification := AttemptVerification.Unverified;
    Attempt.lifecycle_status := AttemptLifecycleStatus.Active;
    Attempt.strategy_contract := strategy_contract;
    Attempt.strategy_contract_fingerprint := fingerprint;
    Attempt.resumes_from_attempt_id := None; Attempt.composed_from_attempt_ids := [];
    Attempt.resume_event_refs := []; Attempt.resume_state_assessment := None;
    Attempt.resume_source_snapshot_id := None; Attempt.resume_target_snapshot_id := None;
    Attempt.worktree_transition_refs := []; Attempt.integration_event_refs := [];
    Attempt.recovery_bundle_refs := []; Attempt.recovery_application_refs := [];
    Attempt.work_binding_revision_refs := []; Attempt.local_outcome_refs := [];
    Attempt.parent_verification_refs := []; Attempt.outcome_refs := [];
    Attempt.outcome_state := AttemptOutcomeState.Unknown; Attempt.interruption_refs := [];
    Attempt.interruption_reason := None; Attempt.explicit_abandon_refs := [];
    Attempt.supersede_evidence_refs := []; Attempt.failure_signature := None;
    Attempt.source_watermark := source_watermark |} in
  do? invalid_input (Attempt.validate attempt) in
  Ok attempt.

Definition create_resume_attempt (attempt source : Attempt) (assessment : ResumeStateAssessment)
  : result WorkIdentityError Attempt :=
  do? guard
    (negb (contains assessment
             [ResumeStateAssessment.Incompatible; ResumeStateAssessment.Unknown])
     || (Attempt.attempt_id attempt ==? Attempt.attempt_id source)
     || (Attempt.task_id attempt !=? Attempt.task_id source)
     || (Attempt.revision_generation attempt !=? 1%N))
    WorkIdentityError.InvalidInput in
  let? fingerprint := invalid_input (StrategyContract.fingerprint (Attempt.strategy_contract attempt)) in
  let attempt := Attempt.set_resumes_from attempt fingerprint
                   (Some (Attempt.attempt_id source)) (Some assessment) in
  do? invalid_input (Attempt.validate attempt) in
  Ok attempt.

Definition compose_attempt (attempt : Attempt) (sources : list Attempt)
  : result WorkIdentityError Attempt :=
  do? guard
    ((length sources <? 2)%nat
     || any (fun source => (Attempt.task_id source !=? Attempt.task_id attempt)
                           || (Attempt.attempt_id source ==? Attempt.attempt_id attempt)) sources
     || any (fun source => Attempt.strategy_contract_fingerprint source
                           ==? Attempt.strategy_contract_fingerprint attempt) sources)
    WorkIdentityError.InvalidInput in
  let attempt := Attempt.set_composed attempt (sort_unique (Attempt.attempt_id <$> sources)) in
  do? guard (length (Attempt.composed_from_attempt_ids attempt) !=? length sources)
        WorkIdentityError.InvalidInput in
  let? fingerprint := invalid_input (StrategyContract.fingerprint (Attempt.strategy_contract attempt)) in
  let attempt := Attempt.set_fingerprint attempt fingerprint in
  do? invalid_input (Attempt.validate attempt) in
  Ok attempt.

(** ** Competing groups *)

Definition create_competing_group (context : WorkCommandContext) (group : CompetingAttemptGroup)
  : result WorkIdentityError (JournalCommand AttemptPayload) :=
  do? guard ((CompetingAttemptGroup.revision_generation group !=? 1%N)
             || (CompetingAttemptGroup.resolution_status group !=? CompetingResolutionStatus.Open))
        WorkIdentityError.InvalidInput in
  group_command context group.

Definition resolve_competing_group (fresh : RevisionId) (context : WorkCommandContext)
    (current : CompetingAttemptGroup) (status : CompetingResolutionStatus)
    (selected_attempt_id : option AttemptId) (partial : list AttemptId)
    (evidence_refs : list string) (source_watermark : N)
  : result WorkIdentityError (option (JournalCommand AttemptPayload)) :=
  if (CompetingAttemptGroup.resolution_status current ==? status)
     && (CompetingAttemptGroup.selected_attempt_id current ==? selected_attempt_id)
     && (CompetingAttemptGroup.partially_integrated_attempt_ids current ==? partial)
     && (CompetingAttemptGroup.resolution_evidence_refs current ==? evidence_refs)
  then Ok None
  else
    do? guard (source_watermark <=? CompetingAttemptGroup.source_watermark current)%N
          WorkIdentityError.InvalidInput in
    let? generation := ok_or (checked_add_u64 (CompetingAttemptGroup.revision_generation current) 1)
                         WorkIdentityError.InvalidInput in
    let next := CompetingAttemptGroup.set_resolution current fresh
      (Some (CompetingAttemptGroup.revision_id current)) generation status selected_attempt_id
      partial evidence_refs source_watermark in
    do? invalid_input (CompetingAttemptGroup.validate_successor current next) in
    let? command := group_command context next in
    Ok (Some command).

Definition record_attempt_and_group (context : WorkCommandContext) (attempts : list Attempt)
    (group : CompetingAttemptGroup) : result WorkIdentityError (JournalCommand AttemptPayload) :=
  do? for_each (fun attempt => invalid_input (Attempt.validate attempt)) attempts in
  do? invalid_input (CompetingAttemptGroup.validate group) in
  let draft := JournalEventDraft.runtime (WorkCommandContext.occurred_at_us context)
    (WorkCommandContext.effective_config_hash context)
    (WorkCommandContext.algorithm_revision context) in
  map_err WorkIdentityError.Store
    (JournalCommand.new (WorkCommandContext.command_id context)
       (((draft ∘ AttemptPayload.AttemptRecorded) <$> attempts) ++
        [draft (AttemptPayload.CompetingAttemptGroupRecorded group)])).

End operations.

(** ** The operations as steps *)

(** The five operations that revise an attempt in place. *)
Inductive attempt_op :=
| ReviseExecution (status : AttemptExecutionStatus) (lane_ids : list ExecutionLaneId)
    (interruption_refs : list string) (interruption_reason : option InterruptionReason)
    (explicit_abandon_refs : list string)
| ReviseAdoption (status : AttemptAdoptionStatus) (integration_event_refs : list IntegrationEventId)
| ReviseVerification (verification : AttemptVerification) (objective_verifier_refs : list string)
| Supersede (evidence_refs : list string)
| ResumeSame (new_lane_id : ExecutionLaneId) (assessment : ResumeStateAssessment)
    (resume_event_refs : list string) (source_snapshot : option WorktreeSnapshotId)
    (target_snapshot : WorktreeSnapshotId) (transitions : list WorktreeTransitionId).

Section lemmas.
Context `{SHA : Sha256}.

Definition run_op (fresh : RevisionId) (current : Attempt) (op : attempt_op) (watermark : N)
  : result WorkIdentityError (AttemptResolution Attempt) :=
  match op with
  | ReviseExecution st lanes irefs reason arefs =>
      revise_execution fresh current st lanes irefs reason arefs watermark
  | ReviseAdoption st refs => revise_adoption fresh current st refs watermark
  | ReviseVerification v refs => revise_verification fresh current v refs watermark
  | Supersede refs => supersede_attempt fresh current refs watermark
  | ResumeSame lane asm refs src tgt trs =>
      let? next := resume_same_attempt fresh current lane asm refs src tgt trs watermark in
      Ok (AttemptResolution.Revision next)
  end.

(** The evidence an operation must bring for the journal to accept its result:
    superseding again keeps the earlier evidence, resuming adds new evidence. *)
Definition brings_evidence (current : Attempt) (op : attempt_op) : Prop :=
  match op with
  | Supersede refs => Attempt.supersede_evidence_refs current ⊆ refs
  | ResumeSame _ _ refs _ _ _ => exists v, v ∈ refs /\ v ∉ Attempt.resume_event_refs current
  | _ => True
  end.

Lemma invalid_input_ok {A} (m : result WorkError A) a : invalid_input m = Ok a <-> m = Ok a.
Proof. apply map_err_ok. Qed.

Lemma extend_unique_subseteq {A} `{!Ord A, !EqDecision A} (old new : list A) :
  old ⊆ extend_unique old new.
Proof. intros x Hx. apply elem_of_sort_unique, elem_of_app. by left. Qed.

Lemma elem_of_extend_unique {A} `{!Ord A, !EqDecision A} x (old new : list A) :
  x ∈ extend_unique old new <-> x ∈ old \/ x ∈ new.
Proof. unfold extend_unique. by rewrite elem_of_sort_unique, elem_of_app. Qed.

Lemma successor_ok fresh current w next :
  successor fresh current w = Ok next <->
  (Attempt.source_watermark current < w)%N /\ (Attempt.revision_generation current + 1 <= U64_MAX)%N /\
  next = Attempt.set_successor current fresh (Some (Attempt.revision_id current))
           (Attempt.revision_generation current + 1) w.
Proof.
  unfold successor. rewrite bind_unit_ok, guard_ok, N.leb_gt, rbind_ok.
  setoid_rewrite ok_or_ok. setoid_rewrite checked_add_u64_Some. naive_solver.
Qed.

Lemma any_new {A} `{!EqDecision A} (old new : list A) :
  any (fun x => negb (contains x old)) new = true <-> exists x, x ∈ new /\ x ∉ old.
Proof. rewrite any_true. setoid_rewrite negb_true_iff. by setoid_rewrite contains_false. Qed.

(** An execution transition the operation allows is one the successor check
    accepts, and never a reopening. *)
Lemma execution_allowed_transition old new :
  execution_allowed old new = true ->
  execution_transition old new = true /\
  ~ (old = AttemptExecutionStatus.Interrupted /\ new = AttemptExecutionStatus.Active).
Proof. destruct old, new; simpl; naive_solver. Qed.

Lemma episode_unchanged e : Attempt.episode_changed e e = false.
Proof. destruct e; simpl; [by rewrite bool_decide_eq_true_2|done]. Qed.

Lemma not_reopening a b :
  Attempt.execution_status a = Attempt.execution_status b -> Attempt.reopening a b = false.
Proof. unfold Attempt.reopening. intros <-. by destruct (Attempt.execution_status a). Qed.

(** A revision that changes nothing but one group of fields: what the successor
    check still asks. *)
Ltac successor_goal :=
  rewrite AttemptFacts.validate_successor_ok;
  unfold AttemptFacts.numbered, AttemptFacts.status_moves, AttemptFacts.worktrees_move;
  split_and!; cbn; try done; try lia;
  try (split; cbn; try done; try apply extend_unique_subseteq);
  try apply episode_unchanged;
  try (unfold Attempt.resume_ok; rewrite not_reopening by done; done); auto.

Lemma revise_execution_successor fresh current st lanes irefs reason arefs w next :
  Attempt.validate current = Ok tt -> fresh <> Attempt.revision_id current ->
  revise_execution fresh current st lanes irefs reason arefs w = Ok (AttemptResolution.Revision next) ->
  Attempt.validate_successor current next = Ok tt.
Proof.
  intros Hv Hf H. unfold revise_execution in H. destruct (_ && _) in H; [done|].
  apply bind_unit_ok in H as [Ha H]. rewrite guard_ok, negb_false_iff in Ha.
  apply execution_allowed_transition in Ha as [Ht Hn].
  apply rbind_ok in H as (s & Hs & H). apply successor_ok in Hs as (Hw & Hg & ->).
  cbv zeta in H. apply bind_unit_ok in H as [Hnv H]. apply invalid_input_ok in Hnv.
  injection H as <-. successor_goal.
  unfold Attempt.resume_ok, Attempt.reopening. cbn.
  destruct (Attempt.execution_status current), st; naive_solver.
Qed.

Lemma revise_adoption_successor fresh current st refs w next :
  Attempt.validate current = Ok tt -> fresh <> Attempt.revision_id current ->
  revise_adoption fresh current st refs w = Ok (AttemptResolution.Revision next) ->
  Attempt.validate_successor current next = Ok tt.
Proof.
  intros Hv Hf H. unfold revise_adoption in H. destruct (_ && _) in H; [done|].
  apply bind_unit_ok in H as [Ha H]. rewrite guard_ok, negb_false_iff in Ha.
  apply rbind_ok in H as (s & Hs & H). apply successor_ok in Hs as (Hw & Hg & ->).
  cbv zeta in H. apply bind_unit_ok in H as [Hnv H]. apply invalid_input_ok in Hnv.
  injection H as <-. successor_goal.
Qed.

Lemma revise_verification_successor fresh current v refs w next :
  Attempt.validate current = Ok tt -> fresh <> Attempt.revision_id current ->
  revise_verification fresh current v refs w = Ok (AttemptResolution.Revision next) ->
  Attempt.validate_successor current next = Ok tt.
Proof.
  intros Hv Hf H. unfold revise_verification in H. destruct (_ && _) in H; [done|].
  apply bind_unit_ok in H as [Ha H]. rewrite guard_ok, negb_false_iff in Ha.
  apply rbind_ok in H as (s & Hs & H). apply successor_ok in Hs as (Hw & Hg & ->).
  cbv zeta in H. apply bind_unit_ok in H as [Hnv H]. apply invalid_input_ok in Hnv.
  injection H as <-. successor_goal.
Qed.

Lemma supersede_successor fresh current refs w next :
  Attempt.validate current = Ok tt -> fresh <> Attempt.revision_id current ->
  supersede_attempt fresh current refs w = Ok (AttemptResolution.Revision next) ->
  Attempt.validate_successor current next = Ok tt <-> Attempt.supersede_evidence_refs current ⊆ refs.
Proof.
  intros Hv Hf H. unfold supersede_attempt in H. destruct (_ && _) in H; [done|].
  apply rbind_ok in H as (s & Hs & H). apply successor_ok in Hs as (Hw & Hg & ->).
  cbv zeta in H. apply bind_unit_ok in H as [Hnv H]. apply invalid_input_ok in Hnv.
  injection H as <-. split.
  - intros H. apply AttemptFacts.validate_successor_ok in H as (_ & _ & _ & _ & He & _).
    by destruct He.
  - intros Hk. successor_goal.
    destruct (Attempt.lifecycle_status current); auto.
Qed.

Lemma resume_same_successor fresh current lane asm refs src tgt trs w next :
  Attempt.validate current = Ok tt -> fresh <> Attempt.revision_id current ->
  resume_same_attempt fresh current lane asm refs src tgt trs w = Ok next ->
  Attempt.validate_successor current next = Ok tt <->
  exists v, v ∈ refs /\ v ∉ Attempt.resume_event_refs current.
Proof.
  intros Hv Hf H. unfold resume_same_attempt in H. apply bind_unit_ok in H as [Hb H].
  rewrite guard_ok, !orb_false_iff, !negb_false_iff, bool_decide_eq_true, contains_false,
    contains_true in Hb. destruct_and! Hb.
  apply rbind_ok in H as (s & Hs & H). apply successor_ok in Hs as (Hw & Hg & ->).
  cbv zeta in H. apply bind_unit_ok in H as [Hnv H]. apply invalid_input_ok in Hnv.
  injection H as <-. rename select (Attempt.execution_status _ = _) into Hi.
  match goal with |- Attempt.validate_successor _ ?n = _ <-> _ => set (next := n) in * end.
  assert (Attempt.resume_ok current next = true <->
    exists v, v ∈ refs /\ v ∉ Attempt.resume_event_refs current) as Hr.
  { assert (Attempt.reopening current next = true) as Hre
      by (unfold Attempt.reopening; rewrite Hi; done).
    unfold Attempt.resume_ok. rewrite Hre. cbn [negb orb].
    rewrite !andb_true_iff, !any_new, contains_true. subst next.
    cbn [Attempt.set_resumed Attempt.set_successor Attempt.execution_lane_ids
      Attempt.resume_event_refs Attempt.resume_target_snapshot_id Attempt.resume_state_assessment
      is_some]. setoid_rewrite elem_of_extend_unique.
    split; [intros (((_ & v & ? & ?) & _) & _); naive_solver|].
    intros (v & ? & ?). split_and!; [| |done|].
    - exists lane. split; [right; by apply list_elem_of_singleton|done].
    - exists v. auto.
    - set_solver. }
  rewrite AttemptFacts.validate_successor_ok, Hr. split; [tauto|]. intros He.
  unfold AttemptFacts.numbered, AttemptFacts.status_moves, AttemptFacts.worktrees_move.
  split_and!; cbn; try done; try lia; auto.
  - split; cbn; try done; apply extend_unique_subseteq.
  - rewrite Hi. by right.
  - apply episode_unchanged.
Qed.

End lemmas.

(** ** Theorems *)

(** The revising operations produce accepted successors.  Whatever revision
    [revise_execution], [revise_adoption], [revise_verification],
    [supersede_attempt] or [resume_same_attempt] returns for a valid attempt,
    the successor check that guards the journal accepts it exactly when the
    operation brings the evidence it must: always for the three status
    revisions, for a repeated supersession when the earlier evidence is kept,
    for a resumption when a resume event is new. *)
Theorem run_op_successor `{SHA : Sha256} fresh (current next : Attempt) op watermark :
  Attempt.validate current = Ok tt -> fresh <> Attempt.revision_id current ->
  run_op fresh current op watermark = Ok (AttemptResolution.Revision next) ->
  Attempt.validate_successor current next = Ok tt <-> brings_evidence current op.
Proof.
  intros Hv Hf H. destruct op; cbn [run_op brings_evidence] in *.
  - split; [done|]. intros _. by eapply revise_execution_successor.
  - split; [done|]. intros _. by eapply revise_adoption_successor.
  - split; [done|]. intros _. by eapply revise_verification_successor.
  - by eapply supersede_successor.
  - apply rbind_ok in H as (n & H & [= <-]). by eapply resume_same_successor.
Qed.

(** Resolving a competing group.  The operation reports no change exactly
    when the resolution is the current one; a command it returns records one
    revision, which the successor check accepts, carries the requested
    resolution, and selects only a member of the group. *)
Theorem resolve_group_outcome fresh context (current : CompetingAttemptGroup) status selected
    partial evidence watermark out :
  resolve_competing_group fresh context current status selected partial evidence watermark = Ok out ->
  match out with
  | None =>
      CompetingAttemptGroup.resolution_status current = status /\
      CompetingAttemptGroup.selected_attempt_id current = selected /\
      CompetingAttemptGroup.partially_integrated_attempt_ids current = partial /\
      CompetingAttemptGroup.resolution_evidence_refs current = evidence
  | Some command =>
      exists next,
        payloads command = [AttemptPayload.CompetingAttemptGroupRecorded next] /\
        CompetingAttemptGroup.validate_successor current next = Ok tt /\
        CompetingAttemptGroup.resolution_status next = status /\
        CompetingAttemptGroup.selected_attempt_id next = selected /\
        CompetingAttemptGroup.resolution_evidence_refs next = evidence /\
        (forall id, selected = Some id -> id ∈ CompetingAttemptGroup.member_attempt_ids current) /\
        CompetingAttemptGroup.resolution_status current ∉
          [CompetingResolutionStatus.Selected; CompetingResolutionStatus.RejectedAll]
  end.
Proof.
  unfold resolve_competing_group. destruct (_ && _) eqn:E.
  - intros [= <-]. rewrite !andb_true_iff, !bool_decide_eq_true in E. tauto.
  - intros H. apply bind_unit_ok in H as [_ H]. apply rbind_ok in H as (g & _ & H). cbv zeta in H.
    apply bind_unit_ok in H as [Hs H]. apply invalid_input_ok in Hs.
    apply rbind_ok in H as (c & Hc & H). injection H as <-.
    unfold group_command, group_command_with_source in Hc. apply bind_unit_ok in Hc as [_ Hc].
    apply single_command_payloads in Hc. eexists. split_and!; [exact Hc|exact Hs|done..| |].
    + apply GroupFacts.successor_transition in Hs as (_ & _ & Hv).
      unfold CompetingAttemptGroup.validate in Hv.
      rewrite guard_ok, !orb_false_iff, !is_some_and_false in Hv. destruct_and! Hv.
      intros id ->. cbn in *.
      match goal with H : forall x, Some id = Some x -> _ |- _ =>
        specialize (H id eq_refl); apply negb_false_iff, contains_true in H; exact H end.
    + apply GroupFacts.successor_transition in Hs as (Ht & _ & _). intros Hin%contains_true.
      by destruct (CompetingAttemptGroup.resolution_status current).
Qed.

(** A new attempt.  [new_attempt] succeeds exactly for a valid contract,
    ordered identifier lists and a positive watermark; the attempt is proposed,
    unverified and active, carries the fingerprint of its contract, and
    [create_attempt] records it. *)
Theorem new_attempt_outcome `{SHA : Sha256} context attempt_id fresh task ws repo worktrees lanes
    contract watermark :
  (forall a, new_attempt attempt_id fresh task ws repo worktrees lanes contract watermark = Ok a ->
     Attempt.validate a = Ok tt /\
     StrategyContract.fingerprint contract = Ok (Attempt.strategy_contract_fingerprint a) /\
     exists command, create_attempt context a = Ok command /\
                     payloads command = [AttemptPayload.AttemptRecorded a]) /\
  ((exists a, new_attempt attempt_id fresh task ws repo worktrees lanes contract watermark = Ok a) <->
   StrategyContract.validate contract = Ok tt /\ ordered_ids worktrees = true /\
   ordered_ids lanes = true /\ (watermark <> 0)%N).
Proof.
  unfold new_attempt. split; [|split].
  - intros a H. apply rbind_ok in H as (fp & Hfp & H). cbv zeta in H.
    apply bind_unit_ok in H as [Hv H]. injection H as <-. apply invalid_input_ok in Hv, Hfp.
    split; [done|]. split; [done|].
    unfold create_attempt, attempt_command, attempt_command_with_source. cbn [guard rbind].
    rewrite (proj2 (invalid_input_ok _ _) Hv). apply single_command_ok.
  - intros [a H]. apply rbind_ok in H as (fp & Hfp & H). cbv zeta in H.
    apply bind_unit_ok in H as [Hv _]. apply invalid_input_ok in Hv.
    apply AttemptFacts.validate_basics in Hv as (Hc & _ & HW & HL). cbn in Hc, HW.
    unfold Attempt.lists_ok in HL. rewrite !andb_true_iff in HL. tauto.
  - intros (Hc & Hw & Hl & Hn).
    destruct (ContractFacts.fingerprint_total contract Hc) as (b & _ & Hfp). rewrite Hfp.
    eexists. cbn [invalid_input map_err rbind]. cbv zeta. apply bind_unit_ok. split; [|done].
    apply invalid_input_ok. unfold Attempt.validate, Attempt.lists_ok.
    cbn -[ordered_ids N.eqb]. rewrite Hc, Hw, Hl. apply N.eqb_neq in Hn.
    cbn -[ordered_ids N.eqb]. rewrite Hn. cbn. rewrite Hfp. cbn. by rewrite bool_decide_eq_true_2.
Qed.

(** What a composed attempt is.  It names exactly its sources, at least two
    of them, none of them itself, and it is valid; and when the fingerprint it
    came with was that of its contract, its strategy differs from the strategy
    of every source. *)
Theorem compose_attempt_sound `{SHA : Sha256} (attempt composed : Attempt) sources :
  compose_attempt attempt sources = Ok composed ->
  Attempt.validate composed = Ok tt /\
  Attempt.attempt_id composed = Attempt.attempt_id attempt /\
  (2 <= length sources)%nat /\ NoDup (Attempt.attempt_id <$> sources) /\
  (forall id, id ∈ Attempt.composed_from_attempt_ids composed <->
              id ∈ Attempt.attempt_id <$> sources) /\
  Forall (fun s => Attempt.task_id s = Attempt.task_id composed /\
                   Attempt.attempt_id s <> Attempt.attempt_id composed) sources /\
  (StrategyContract.fingerprint (Attempt.strategy_contract attempt)
     = Ok (Attempt.strategy_contract_fingerprint attempt) ->
   Forall (fun s => Attempt.strategy_contract_fingerprint s
                    <> Attempt.strategy_contract_fingerprint composed) sources).
Proof.
  unfold compose_attempt. intros H. apply bind_unit_ok in H as [Hg H]. cbv zeta in H.
  apply bind_unit_ok in H as [Hl H]. apply rbind_ok in H as (fp & Hfp & H).
  apply bind_unit_ok in H as [Hv H]. injection H as <-. apply invalid_input_ok in Hv, Hfp.
  rewrite guard_ok, !orb_false_iff, !any_false, Nat.ltb_ge in Hg. destruct Hg as [[Hn Ht] Hd].
  rewrite guard_ok, negb_false_iff, bool_decide_eq_true in Hl. cbn in Hl, Hfp |- *.
  split; [done|]. split; [done|]. split; [done|]. split_and!.
  - rewrite sort_unique_bset in Hl. apply all_unique_true. unfold all_unique.
    apply Nat.eqb_eq. by rewrite Hl, length_fmap.
  - intros id. by rewrite elem_of_sort_unique.
  - eapply Forall_impl; [exact Ht|]. intros s Hs. simpl in Hs.
    rewrite orb_false_iff, negb_false_iff, bool_decide_eq_true, bool_decide_eq_false in Hs. done.
  - intros Hc. rewrite Hc in Hfp. injection Hfp as <-. eapply Forall_impl; [exact Hd|].
    intros s Hs. by apply bool_decide_eq_false in Hs.
Qed.

(** ** Concrete attempts *)

(** A stand-in for SHA-256 without collisions. *)
#[local] Instance identity_sha : Sha256 := fun bytes => bytes.

Definition sample_contract (h : string) : StrategyContract :=
  StrategyContract.mk h "intervention" "family" None (Some "objective"%string) "effect"
    ["a"%string; "b"%string] "boundary".

Definition rid (n : N) : RevisionId := mk_rid (mk_uuid n).
Definition attempt_of (n : N) (h : string) : option Attempt :=
  match new_attempt (mk_id (mk_uuid n)) (rid n) (mk_id (mk_uuid 1)) (mk_id (mk_uuid 2)) None [] []
          (sample_contract h) 5 with
  | Ok a => Some a
  | Err _ => None
  end.

Definition context0 : WorkCommandContext := WorkCommandContext.mk (mk_iid (mk_uuid 7)) 0 [] "r1".

(** The value of a computation that succeeds. *)
Definition get {A} (o : option A) : match o with Some _ => A | None => unit end :=
  match o with Some a => a | None => tt end.

(** The revision an operation returns. *)
Definition revised (fresh : N) (a : Attempt) (op : attempt_op) (w : N) : option Attempt :=
  match run_op (rid fresh) a op w with
  | Ok (AttemptResolution.Revision n) => Some n
  | _ => None
  end.

Definition lane1 : ExecutionLaneId := mk_id (mk_uuid 11).
Definition lane2 : ExecutionLaneId := mk_id (mk_uuid 12).
Definition a0 : Attempt := Eval vm_compute in get (attempt_of 100 "hypothesis").
Definition op1 := ReviseExecution AttemptExecutionStatus.Active [lane1] [] None [].
Definition a1 : Attempt := Eval vm_compute in get (revised 101 a0 op1 6).
Definition op2 := ReviseExecution AttemptExecutionStatus.Interrupted [] ["crash"%string]
  (Some InterruptionReason.Crashed) [].
Definition a2 : Attempt := Eval vm_compute in get (revised 102 a1 op2 7).
Definition op3 := ResumeSame lane2 ResumeStateAssessment.CompatibleSameInstance ["resume"%string]
  None (mk_id (mk_uuid 20)) [].
Definition a3 : Attempt := Eval vm_compute in get (revised 103 a2 op3 8).
Definition op4 := ReviseVerification AttemptVerification.Passed ["result"%string].
Definition a4 : Attempt := Eval vm_compute in get (revised 104 a3 op4 9).

(** A run of four revisions: started, interrupted, resumed on a new lane, and
    verified. *)
Lemma sample_chain : chain Attempt.validate_successor 4 a0 a4.
Proof.
  apply chain_step with (b := a3); [|vm_compute; reflexivity].
  apply chain_step with (b := a2); [|vm_compute; reflexivity].
  apply chain_step with (b := a1); [|vm_compute; reflexivity].
  apply chain_step with (b := a0); [|vm_compute; reflexivity].
  constructor.
Qed.

Lemma fingerprint_identifies_witness :
  StrategyContract.fingerprint (sample_contract "x") <> StrategyContract.fingerprint (sample_contract "y").
Proof.
  intros E.
  assert (sample_contract "x" = sample_contract "y"); [|discriminate].
  apply (proj1 (proj2 (fingerprint_identifies (sample_contract "x") (sample_contract "y")
    (fun x y H => H) ltac:(vm_compute; reflexivity) ltac:(vm_compute; reflexivity)))). exact E.
Defined.

Lemma attempt_chain_invariant_witness :
  Attempt.revision_generation a4 = 5%N /\ AttemptFacts.same_attempt a0 a4.
Proof.
  destruct (attempt_chain_invariant 4 a0 a4 sample_chain) as (H & _ & Hg & _).
  split; [exact Hg|exact H].
Defined.

Lemma attempt_terminal_absorbing_witness : terminal_kept a0 a4.
Proof. exact (attempt_terminal_absorbing 4 a0 a4 sample_chain). Defined.

Lemma run_op_successor_witness :
  run_op (rid 103) a2 op3 8 = Ok (AttemptResolution.Revision a3) /\
  Attempt.validate_successor a2 a3 = Ok tt.
Proof.
  split; [vm_compute; reflexivity|].
  apply (run_op_successor (rid 103) a2 a3 op3 8); [vm_compute; reflexivity|discriminate|
    vm_compute; reflexivity|].
  exists "resume"%string. split; apply (bool_decide_unpack _); vm_compute; exact I.
Defined.

Definition b0 : Attempt := Eval vm_compute in get (attempt_of 200 "other").
Definition c0 : Attempt := Eval vm_compute in get (attempt_of 300 "third").
Definition composed0 : option Attempt := Eval vm_compute in
  match compose_attempt c0 [a0; b0] with Ok a => Some a | Err _ => None end.

Lemma compose_attempt_sound_witness :
  exists composed, compose_attempt c0 [a0; b0] = Ok composed /\
  Forall (fun s => Attempt.strategy_contract_fingerprint s
                   <> Attempt.strategy_contract_fingerprint composed) [a0; b0].
Proof.
  exists (get composed0). split; [vm_compute; reflexivity|].
  apply (compose_attempt_sound c0 (get composed0) [a0; b0]); vm_compute; reflexivity.
Defined.

(** The distinctness test of [compose_attempt] reads the fingerprint the caller
    passed in, which is recomputed afterwards: with a stale one, a composition
    with the very strategy of a source is accepted. *)
Lemma compose_stale_fingerprint :
  exists attempt sources composed,
    compose_attempt attempt sources = Ok composed /\
    exists s, s ∈ sources /\ Attempt.strategy_contract s = Attempt.strategy_contract composed.
Proof.
  exists (Attempt.set_fingerprint (get (attempt_of 300 "hypothesis")) []), [a0; b0].
  eexists. split; [vm_compute; reflexivity|]. exists a0. split; [apply list_elem_of_here|reflexivity].
Qed.

Definition group0 : CompetingAttemptGroup :=
  CompetingAttemptGroup.mk (mk_id (mk_uuid 50)) (rid 400) None 1 (mk_id (mk_uuid 1)) "boundary" None
    None None [] [mk_id (mk_uuid 100); mk_id (mk_uuid 200)] [] [] CompetingConflictKind.AlternativeStrategy
    CompetingResolutionStatus.Open None [] [] 5.

Definition group1 : CompetingAttemptGroup := CompetingAttemptGroup.set_resolution group0 (rid 401)
  (Some (rid 400)) 2 CompetingResolutionStatus.PartiallyIntegrated None [mk_id (mk_uuid 100)]
  ["e1"%string] 6.
Definition group2 : CompetingAttemptGroup := CompetingAttemptGroup.set_resolution group1 (rid 402)
  (Some (rid 401)) 3 CompetingResolutionStatus.PartiallyIntegrated None [mk_id (mk_uuid 100)]
  ["e1"%string; "e2"%string] 7.

Lemma group_resolution_bounded_witness :
  chain CompetingAttemptGroup.validate_successor 1 group1 group2 /\ (1 <= 126)%nat.
Proof.
  assert (chain CompetingAttemptGroup.validate_successor 1 group1 group2) as H
    by (apply chain_step with (b := group1); [constructor|vm_compute; reflexivity]).
  split; [exact H|]. exact (proj2 (group_resolution_bounded 1 group1 group2 H) eq_refl eq_refl).
Defined.

Definition resolve0 := resolve_competing_group (rid 401) context0 group0
  CompetingResolutionStatus.Selected (Some (mk_id (mk_uuid 200))) [] ["proof"%string] 6.
Definition command0 : option (JournalCommand AttemptPayload) := Eval vm_compute in
  match resolve0 with Ok c => c | Err _ => None end.

Lemma resolve_group_outcome_witness :
  resolve0 = Ok command0 /\
  exists next, payloads (get command0) = [AttemptPayload.CompetingAttemptGroupRecorded next] /\
               CompetingAttemptGroup.validate_successor group0 next = Ok tt.
Proof.
  split; [vm_compute; reflexivity|].
  destruct (resolve_group_outcome (rid 401) context0 group0 CompetingResolutionStatus.Selected
    (Some (mk_id (mk_uuid 200))) [] ["proof"%string] 6 command0 ltac:(vm_compute; reflexivity))
    as (next & Hp & Hs & _). exists next. split; [exact Hp|exact Hs].
Defined.

Lemma new_attempt_outcome_witness :
  new_attempt (mk_id (mk_uuid 100)) (rid 100) (mk_id (mk_uuid 1)) (mk_id (mk_uuid 2)) None [] []
    (sample_contract "hypothesis") 5 = Ok a0 /\ Attempt.validate a0 = Ok tt.
Proof.
  split; [vm_compute; reflexivity|].
  apply (proj1 (new_attempt_outcome context0 (mk_id (mk_uuid 100)) (rid 100) (mk_id (mk_uuid 1))
    (mk_id (mk_uuid 2)) None [] [] (sample_contract "hypothesis") 5)). vm_compute. reflexivity.
Defined.
