(* ===== verification/JournalRows.v ===== *)
(** * Journal rows (crates/evertrace-store/src/journal.rs and the command envelope
    of crates/evertrace-store/src/command.rs)

    How a command becomes rows of the journal, how the rows of a command are
    checked when they are read back, and when a command that was recorded before is
    answered from its rows.  What the journal asks of a payload (its tag, its
    checks, its canonical form and its JSON) is an interface: each component brings
    its own payloads, and [serde_json] is third-party code.

    The rows of a command stand for it: they pass the checks of the journal, are
    decoded to its payloads, and answer a second submission of the same command. *)

From S2P Require Import Prelude Order Collections OrderedMap Text Canonical Ids Digests Journal Objects Attempt.

Definition JOURNAL_PAYLOAD_SCHEMA : N := 1.
Definition MAX_IDENTIFIER_BYTES : N := 256.

Module RecordClass.
Inductive RecordClass :=
| ObjectEvent
| RuntimeEvent
| ProjectionControl.
#[export] Instance eq_dec : EqDecision RecordClass.
Proof. solve_decision. Defined.
End RecordClass.
Abbreviation RecordClass := RecordClass.RecordClass.
Export (hints) RecordClass.

Definition RecordClass_as_str (self : RecordClass) : string :=
  match self with
  | RecordClass.ObjectEvent => "object_event"
  | RecordClass.RuntimeEvent => "runtime_event"
  | RecordClass.ProjectionControl => "projection_control"
  end.

Definition RecordClass_parse (value : string) : result StoreError RecordClass :=
  if decide (value = "object_event"%string) then Ok RecordClass.ObjectEvent
  else if decide (value = "runtime_event"%string) then Ok RecordClass.RuntimeEvent
  else if decide (value = "projection_control"%string) then Ok RecordClass.ProjectionControl
  else Err StoreError.StoreCorrupt.

Definition SourceKind_as_str (self : SourceKind) : string :=
  match self with
  | SourceKind.Hook => "hook"
  | SourceKind.Session => "session"
  | SourceKind.Manual => "manual"
  | SourceKind.Import => "import"
  | SourceKind.System => "system"
  | SourceKind.Model => "model"
  end.

Definition SourceKind_parse (value : string) : result StoreError SourceKind :=
  if decide (value = "hook"%string) then Ok SourceKind.Hook
  else if decide (value = "session"%string) then Ok SourceKind.Session
  else if decide (value = "manual"%string) then Ok SourceKind.Manual
  else if decide (value = "import"%string) then Ok SourceKind.Import
  else if decide (value = "system"%string) then Ok SourceKind.System
  else if decide (value = "model"%string) then Ok SourceKind.Model
  else Err StoreError.StoreCorrupt.

Module DirtyTargetKind.
Inductive DirtyTargetKind :=
| ObjectsProjection
| EvidenceSurface
| PhysicalNormalization
| CaptureReconciliation
| CaptureLiveness
| RuntimeJob
| RuntimeOutbox.
#[export] Instance eq_dec : EqDecision DirtyTargetKind.
Proof. solve_decision. Defined.
End DirtyTargetKind.
Abbreviation DirtyTargetKind := DirtyTargetKind.DirtyTargetKind.
Export (hints) DirtyTargetKind.

Module DirtyTarget.
Record DirtyTarget := mk {
  target_kind : DirtyTargetKind;
  target_id : string;
  algorithm_revision : string;
  source_watermark : N;
}.
#[export] Instance eq_dec : EqDecision DirtyTarget.
Proof. solve_decision. Defined.
End DirtyTarget.
Abbreviation DirtyTarget := DirtyTarget.DirtyTarget.
Export (hints) DirtyTarget.

(** ** What the journal asks of payloads *)

Class JournalPayloads (P : Type) := {
  event_type : P -> string;
  record_class : P -> RecordClass;
  validate_payload : P -> result StoreError unit;
  payload_canonical : P -> CanonicalValue;
  canonical_json : P -> result StoreError string;
  payload_from_json : string -> option P;
  (** [OutboxEnqueued(outbox)]: the dirty target of the outbox entry. *)
  outbox_enqueued : P -> option DirtyTarget;
  (** [DirtyTarget(dirty)]. *)
  dirty_target : P -> option DirtyTarget;
  (** The checks across the events of a command, in the order of the code:
      evidence, normalization, repositories, recovery, semantics, work identity. *)
  validate_cohort : list (JournalEventDraft P) -> result StoreError unit;
}.

(** What the code relies on: the JSON of a payload parses back to it. *)
Class JournalPayloadLaws (P : Type) `(Pay : JournalPayloads P) := {
  payload_from_to p s : canonical_json p = Ok s -> payload_from_json s = Some p;
}.

(** ** Commands *)

Definition validate_identifier (value : string) : result StoreError unit :=
  guard (str_is_empty value
         || (MAX_IDENTIFIER_BYTES <? str_len value)%N
         || any (fun byte => (byte_N byte =? 0)%N || is_ascii_control byte) (as_bytes value))
    StoreError.InvalidInput.

Definition validate_optional_identifier (value : option string) : result StoreError unit :=
  match value with Some value => validate_identifier value | None => Ok tt end.

Definition text (value : string) : CanonicalValue := CString value.
Definition optional_text (value : option string) : CanonicalValue :=
  match value with Some value => text value | None => Null end.

Definition scope_value (value : EventScope) : CanonicalValue :=
  Map
    [("project_id"%string, optional_text (EventScope.project_id value));
     ("repository_id"%string, optional_text (EventScope.repository_id value));
     ("worktree_id"%string, optional_text (EventScope.worktree_id value));
     ("task_id"%string, optional_text (EventScope.task_id value));
     ("workstream_id"%string, optional_text (EventScope.workstream_id value));
     ("session_id"%string, optional_text (EventScope.session_id value));
     ("execution_lane_id"%string, optional_text (EventScope.execution_lane_id value))].

Definition hex (bytes : list byte) : string := of_bytes (bytes ≫= hex_byte).

Module CommitOutcome.
Record CommitOutcome := mk {
  command_id : CommandId;
  first_seq : N;
  last_seq : N;
  event_ids : list string;
  replayed : bool;
}.
#[export] Instance eq_dec : EqDecision CommitOutcome.
Proof. solve_decision. Defined.
End CommitOutcome.
Abbreviation CommitOutcome := CommitOutcome.CommitOutcome.
Export (hints) CommitOutcome.

Module JournalRow.
Record JournalRow := mk {
  event_id : string;
  command_id : CommandId;
  command_hash : list byte;
  ordinal : N;
  command_event_count : N;
  seq : N;
  event_type : string;
  record_class : RecordClass;
  object_family : option ObjectFamily;
  object_id : option string;
  revision_id : option string;
  scope : EventScope;
  occurred_at_us : Z;
  ingested_at_us : Z;
  source_kind : SourceKind;
  source_ref_json : option string;
  payload_schema : N;
  payload_json : string;
  content_hash : list byte;
  causation_id : option string;
  correlation_id : option string;
  effective_config_hash : list byte;
  algorithm_revision : string;
}.
#[export] Instance eq_dec : EqDecision JournalRow.
Proof. solve_decision. Defined.
End JournalRow.
Abbreviation JournalRow := JournalRow.JournalRow.
Export (hints) JournalRow.

Module PreparedEvent.
Record PreparedEvent (P : Type) := mk {
  event_id : string;
  ordinal : N;
  event_type : string;
  record_class : RecordClass;
  payload_json : string;
  content_hash : list byte;
  draft : JournalEventDraft P;
}.
Arguments mk {P} _ _ _ _ _ _ _.
Arguments event_id {P} _.
Arguments ordinal {P} _.
Arguments event_type {P} _.
Arguments record_class {P} _.
Arguments payload_json {P} _.
Arguments content_hash {P} _.
Arguments draft {P} _.
End PreparedEvent.
Abbreviation PreparedEvent := PreparedEvent.PreparedEvent.

Module PreparedCommand.
Record PreparedCommand (P : Type) := mk {
  command_id : CommandId;
  command_hash : list byte;
  event_count : N;
  events : list (PreparedEvent P);
}.
Arguments mk {P} _ _ _ _.
Arguments command_id {P} _.
Arguments command_hash {P} _.
Arguments event_count {P} _.
Arguments events {P} _.
End PreparedCommand.
Abbreviation PreparedCommand := PreparedCommand.PreparedCommand.

Section commands.
Context {P : Type} `{L : UuidLib} `{SHA : Sha256} `{Pay : JournalPayloads P}.

Definition serialization {A} (m : result CanonicalError A) : result StoreError A :=
  map_err (fun _ => StoreError.Serialization) m.

Definition validate_draft (self : JournalEventDraft P) : result StoreError unit :=
  let scope := JournalEventDraft.scope P self in
  do? guard (JournalEventDraft.occurred_at_us P self <? 0)%Z StoreError.InvalidInput in
  do? validate_identifier (JournalEventDraft.algorithm_revision P self) in
  do? validate_optional_identifier (JournalEventDraft.causation_id P self) in
  do? validate_optional_identifier (JournalEventDraft.correlation_id P self) in
  do? for_each validate_optional_identifier
    [EventScope.project_id scope; EventScope.repository_id scope; EventScope.worktree_id scope;
     EventScope.task_id scope; EventScope.workstream_id scope; EventScope.session_id scope;
     EventScope.execution_lane_id scope] in
  validate_payload (JournalEventDraft.payload self).

Definition draft_canonical (self : JournalEventDraft P) : CanonicalValue :=
  Map
    [("occurred_at_us"%string, Integer (JournalEventDraft.occurred_at_us P self));
     ("source_kind"%string, text (SourceKind_as_str (JournalEventDraft.source_kind self)));
     ("scope"%string, scope_value (JournalEventDraft.scope P self));
     ("causation_id"%string, optional_text (JournalEventDraft.causation_id P self));
     ("correlation_id"%string, optional_text (JournalEventDraft.correlation_id P self));
     ("effective_config_hash"%string, Bytes (JournalEventDraft.effective_config_hash P self));
     ("algorithm_revision"%string, text (JournalEventDraft.algorithm_revision P self));
     ("payload"%string, payload_canonical (JournalEventDraft.payload self))].

Definition command_canonical (command : JournalCommand P) : CanonicalValue :=
  Map
    [("command_id"%string, text (iid_display (JournalCommand.command_id command)));
     ("events"%string, Sequence (draft_canonical <$> JournalCommand.events command))].

(** Every outbox entry comes with its dirty target. *)
Definition outbox_paired (events : list (JournalEventDraft P)) : bool :=
  all (fun outbox => any (fun draft => dirty_target (JournalEventDraft.payload draft) ==? Some outbox) events)
    (omap (fun draft => outbox_enqueued (JournalEventDraft.payload draft)) events).

Definition event_id_of (command_id : CommandId) (ordinal : N) : result StoreError string :=
  let? event_hash := serialization (sha256 sha256_digest "journal_event_v1" 1
    (Sequence [text (iid_display command_id); Integer (Z.of_N ordinal)])) in
  Ok (hex event_hash).

Definition prepare_event (command_id : CommandId) (index : nat) (draft : JournalEventDraft P)
  : result StoreError (PreparedEvent P) :=
  let payload := JournalEventDraft.payload draft in
  let ordinal := N.of_nat index in
  do? guard (U16_MAX <? ordinal)%N StoreError.InvalidInput in
  let? event_id := event_id_of command_id ordinal in
  let? content_hash := serialization (sha256 sha256_digest "journal_payload_v1" JOURNAL_PAYLOAD_SCHEMA
    (payload_canonical payload)) in
  let? payload_json := canonical_json payload in
  Ok (PreparedEvent.mk event_id ordinal (event_type payload) (record_class payload) payload_json
        content_hash draft).

Fixpoint prepare_events (command_id : CommandId) (index : nat) (drafts : list (JournalEventDraft P))
  : result StoreError (list (PreparedEvent P)) :=
  match drafts with
  | [] => Ok []
  | draft :: drafts =>
      let? event := prepare_event command_id index draft in
      let? events := prepare_events command_id (S index) drafts in
      Ok (event :: events)
  end.

Definition prepare_command (command : JournalCommand P) : result StoreError (PreparedCommand P) :=
  let events := JournalCommand.events command in
  let event_count := N.of_nat (length events) in
  do? guard (U16_MAX <? event_count)%N StoreError.InvalidInput in
  do? guard (event_count =? 0)%N StoreError.InvalidInput in
  do? for_each validate_draft events in
  do? guard (negb (outbox_paired events)) StoreError.InvalidInput in
  do? validate_cohort events in
  let? command_hash := serialization (sha256 sha256_digest "journal_command_v1" 1 (command_canonical command)) in
  let? prepared := prepare_events (JournalCommand.command_id command) 0 events in
  Ok (PreparedCommand.mk (JournalCommand.command_id command) command_hash event_count prepared).

(** ** Rows *)

Definition row_payload (self : JournalRow) : result StoreError P :=
  ok_or (payload_from_json (JournalRow.payload_json self)) StoreError.StoreCorrupt.

Definition row_draft (self : JournalRow) : result StoreError (JournalEventDraft P) :=
  do? guard (is_some (JournalRow.object_family self)
             || is_some (JournalRow.object_id self)
             || is_some (JournalRow.revision_id self)
             || is_some (JournalRow.source_ref_json self)) StoreError.StoreCorrupt in
  let? payload := row_payload self in
  Ok (JournalEventDraft.mk (JournalRow.occurred_at_us self) (JournalRow.source_kind self)
        (JournalRow.scope self) (JournalRow.causation_id self) (JournalRow.correlation_id self)
        (JournalRow.effective_config_hash self) (JournalRow.algorithm_revision self) payload).

Definition by_ordinal (rows : list JournalRow) : list JournalRow :=
  sort_by (fun a b => (JournalRow.ordinal a <=? JournalRow.ordinal b)%N) rows.

(** A row against the event its command prepares. *)
Definition row_matches (row : JournalRow) (expected : PreparedEvent P) : bool :=
  (JournalRow.event_id row ==? PreparedEvent.event_id expected)
  && (JournalRow.event_type row ==? PreparedEvent.event_type expected)
  && (JournalRow.record_class row ==? PreparedEvent.record_class expected)
  && (JournalRow.payload_json row ==? PreparedEvent.payload_json expected)
  && (JournalRow.content_hash row ==? PreparedEvent.content_hash expected).

Definition validate_complete_command_refs (rows : list JournalRow) : result StoreError (list JournalRow) :=
  match rows with
  | [] => Err StoreError.StoreCorrupt
  | row :: _ =>
      let expected_count := JournalRow.command_event_count row in
      do? guard ((expected_count =? 0)%N || negb (N.of_nat (length rows) =? expected_count)%N)
            StoreError.StoreCorrupt in
      let command_id := JournalRow.command_id row in
      let ordered := by_ordinal rows in
      do? guard (any (fun ir : nat * JournalRow =>
            (JournalRow.command_id ir.2 !=? command_id)
            || negb (JournalRow.command_event_count ir.2 =? expected_count)%N
            || negb (JournalRow.ordinal ir.2 =? N.of_nat ir.1)%N
            || negb (JournalRow.payload_schema ir.2 =? JOURNAL_PAYLOAD_SCHEMA)%N)
            (imap pair ordered)) StoreError.StoreCorrupt in
      let? drafts := try_map row_draft ordered in
      let? command := JournalCommand.new command_id drafts in
      let? prepared := prepare_command command in
      do? guard (any (fun row => JournalRow.command_hash row !=? PreparedCommand.command_hash prepared) ordered)
            StoreError.StoreCorrupt in
      do? guard (any (fun re => negb (row_matches re.1 re.2)) (zip ordered (PreparedCommand.events prepared)))
            StoreError.StoreCorrupt in
      Ok ordered
  end.

Definition by_command (rows : list JournalRow) : list (CommandId * list JournalRow) :=
  group_by (fun row => Some (JournalRow.command_id row)) rows.

Definition validate_journal_rows (rows : list JournalRow) : result StoreError unit :=
  let ordered := sort_by (fun a b => (JournalRow.seq a <=? JournalRow.seq b)%N) rows in
  do? guard (windows2_any (fun a b => (JournalRow.seq b <=? JournalRow.seq a)%N) ordered)
        StoreError.StoreCorrupt in
  for_each (fun command_rows => do? validate_complete_command_refs command_rows in Ok tt) (by_command rows).*2.

(** The answer to a command whose rows are there already. *)
Definition replay_outcome (rows : list JournalRow) (prepared : PreparedCommand P)
  : result StoreError (option CommitOutcome) :=
  if is_empty rows then Ok None
  else
    let? ordered := validate_complete_command_refs rows in
    do? guard (any (fun row => JournalRow.command_hash row !=? PreparedCommand.command_hash prepared) rows)
          StoreError.IdempotencyConflict in
    do? guard (negb (N.of_nat (length rows) =? PreparedCommand.event_count prepared)%N)
          StoreError.IdempotencyConflict in
    do? guard (any (fun ir : nat * JournalRow =>
          negb (JournalRow.ordinal ir.2 =? N.of_nat ir.1)%N
          || negb (JournalRow.command_event_count ir.2 =? PreparedCommand.event_count prepared)%N)
          (imap pair ordered)) StoreError.StoreCorrupt in
    do? guard (any (fun re => JournalRow.event_id re.1 !=? PreparedEvent.event_id re.2)
          (zip ordered (PreparedCommand.events prepared))) StoreError.StoreCorrupt in
    let? first_seq := ok_or (JournalRow.seq <$> head ordered) StoreError.StoreCorrupt in
    let? last_seq := ok_or (JournalRow.seq <$> last ordered) StoreError.StoreCorrupt in
    Ok (Some (CommitOutcome.mk (PreparedCommand.command_id prepared) first_seq last_seq
                (JournalRow.event_id <$> ordered) true)).

Definition row_from_prepared (command : PreparedCommand P) (event : PreparedEvent P) (seq : N)
    (ingested_at_us : Z) : JournalRow :=
  let draft := PreparedEvent.draft event in
  JournalRow.mk (PreparedEvent.event_id event) (PreparedCommand.command_id command)
    (PreparedCommand.command_hash command) (PreparedEvent.ordinal event) (PreparedCommand.event_count command)
    seq (PreparedEvent.event_type event) (PreparedEvent.record_class event) None None None
    (JournalEventDraft.scope P draft) (JournalEventDraft.occurred_at_us P draft) ingested_at_us
    (JournalEventDraft.source_kind draft) None JOURNAL_PAYLOAD_SCHEMA (PreparedEvent.payload_json event)
    (PreparedEvent.content_hash event) (JournalEventDraft.causation_id P draft)
    (JournalEventDraft.correlation_id P draft) (JournalEventDraft.effective_config_hash P draft)
    (JournalEventDraft.algorithm_revision P draft).

Fixpoint rows_from (command : PreparedCommand P) (events : list (PreparedEvent P)) (first_seq : N) (index : nat)
    (ingested_at_us : Z) : result StoreError (list JournalRow) :=
  match events with
  | [] => Ok []
  | event :: events =>
      let? seq := ok_or (checked_add_u64 first_seq (N.of_nat index)) StoreError.InvalidInput in
      let? rows := rows_from command events first_seq (S index) ingested_at_us in
      Ok (row_from_prepared command event seq ingested_at_us :: rows)
  end.

Definition rows_for_append (prepared : PreparedCommand P) (first_seq : N) (ingested_at_us : Z)
  : result StoreError (list JournalRow) :=
  do? guard (ingested_at_us <? 0)%Z StoreError.InvalidInput in
  rows_from prepared (PreparedCommand.events prepared) first_seq 0 ingested_at_us.

(** ** Reading commands back *)

Definition batch_of (rows : list JournalRow) : result StoreError (N * list JournalRow) :=
  let batch := by_ordinal rows in
  let? first_seq := ok_or (JournalRow.seq <$> head batch) StoreError.StoreCorrupt in
  do? guard (any (fun ir : nat * JournalRow =>
        negb (JournalRow.seq ir.2 =? (first_seq + N.of_nat ir.1) `min` U64_MAX)%N) (imap pair batch))
        StoreError.StoreCorrupt in
  Ok (first_seq, batch).

Definition ordered_command_batches (rows : list JournalRow) : result StoreError (list (list JournalRow)) :=
  do? validate_journal_rows rows in
  let? batches := try_map batch_of (by_command rows).*2 in
  Ok (sort_by (fun a b : N * list JournalRow => (a.1 <=? b.1)%N) batches).*2.

End commands.

Module CommittedCommand.
Record CommittedCommand (P : Type) := mk {
  command_id : CommandId;
  event_ids : list string;
  payloads : list P;
}.
Arguments mk {P} _ _ _.
Arguments command_id {P} _.
Arguments event_ids {P} _.
Arguments payloads {P} _.
End CommittedCommand.
Abbreviation CommittedCommand := CommittedCommand.CommittedCommand.

(** [rows[0]] panics on an empty command, which validation excludes. *)
Definition decode_committed_command {P} `{L : UuidLib, SHA : Sha256, Pay : JournalPayloads P}
    (rows : list JournalRow) : result (fault StoreError) (CommittedCommand P) :=
  do? map_err Raise (validate_complete_command_refs rows) in
  let rows := by_ordinal rows in
  let? first := ok_or (head rows) Panicked in
  let? payloads := map_err Raise (try_map row_payload rows) in
  Ok (CommittedCommand.mk (JournalRow.command_id first) (JournalRow.event_id <$> rows) payloads).

(** ** Lemmas *)

(** ** Lists *)

Lemma any_imap {A} (f : nat * A -> bool) l :
  any f (imap pair l) = false <-> forall i x, l !! i = Some x -> f (i, x) = false.
Proof.
  rewrite any_false, Forall_lookup. setoid_rewrite list_lookup_imap. split.
  - intros H i x Hi. apply (H i). by rewrite Hi.
  - intros H i y Hy. destruct (l !! i) as [x|] eqn:E; [|done]. injection Hy as <-. by apply H.
Qed.

Lemma any_zip {A B} (f : A * B -> bool) l m :
  any f (zip l m) = false <-> forall i x y, l !! i = Some x -> m !! i = Some y -> f (x, y) = false.
Proof.
  rewrite any_false, Forall_lookup. split.
  - intros H i x y Hx Hy. apply (H i). by rewrite lookup_zip_with, Hx, Hy.
  - intros H i [x y] Hxy. rewrite lookup_zip_with in Hxy.
    destruct (l !! i) as [x'|] eqn:Hx; [|done]. cbn in Hxy.
    destruct (m !! i) as [y'|] eqn:Hy; [|done]. cbn in Hxy. injection Hxy as -> ->. by apply (H i).
Qed.

Lemma try_map_lookup {E A B} (f : A -> result E B) l m :
  length m = length l -> (forall i x, l !! i = Some x -> exists y, f x = Ok y /\ m !! i = Some y) -> try_map f l = Ok m.
Proof.
  revert m. induction l as [|x l IH]; intros [|y m] Hm H; try done. cbn [try_map].
  destruct (H 0 x eq_refl) as (y' & Hy & [= <-]). rewrite Hy. cbn [rbind]. rewrite (IH m); [done|cbn in Hm; lia|].
  intros i z Hi. apply (H (S i) z Hi).
Qed.

Lemma try_map_fmap {E A B C} (f : B -> result E C) (g : A -> B) l :
  try_map f (g <$> l) = try_map (fun x => f (g x)) l.
Proof. induction l as [|x l IH]; [done|]. cbn. by rewrite IH. Qed.

Lemma try_map_id {E A B} (f : B -> result E A) (g : A -> B) l :
  Forall (fun x => f (g x) = Ok x) l -> try_map f (g <$> l) = Ok l.
Proof. induction 1 as [|x l Hx _ IH]; [done|]. cbn. by rewrite Hx, IH. Qed.

Lemma last_lookup_length {A} (l : list A) : last l = l !! (length l - 1).
Proof. rewrite last_lookup. f_equal. lia. Qed.

(** Strictly increasing keys. *)
Definition increasing {A} (key : A -> N) (l : list A) : Prop := StronglySorted (fun a b => (key a < key b)%N) l.

Lemma increasing_step {A} (key : A -> N) (l : list A) base :
  (forall i x, l !! i = Some x -> key x = (base + N.of_nat i)%N) -> increasing key l.
Proof.
  revert base. induction l as [|x l IH]; intros base H; [constructor|]. constructor.
  - apply (IH (base + 1)%N). intros i y Hi. rewrite (H (S i) y Hi). lia.
  - apply Forall_lookup. intros i y Hi. rewrite (H 0 x eq_refl), (H (S i) y Hi). lia.
Qed.

Lemma increasing_app {A} (key : A -> N) (l m : list A) :
  increasing key (l ++ m) <-> increasing key l /\ increasing key m /\ forall x y, x ∈ l -> y ∈ m -> (key x < key y)%N.
Proof.
  unfold increasing. induction l as [|z l IH]; cbn.
  - split; [intros H; split_and!; [constructor|done|by intros ? ? ?%not_elem_of_nil]|by intros (_ & ? & _)].
  - split.
    + inversion 1 as [|? ? Hs Hz]; subst. apply IH in Hs as (Hl & Hm & Hlm). apply Forall_app in Hz as [Hz1 Hz2].
      split_and!; [by constructor|done|]. intros x y [->|Hx]%elem_of_cons Hy; [|by apply Hlm].
      rewrite Forall_forall in Hz2. by apply Hz2.
    + intros (Hl & Hm & Hlm). inversion Hl as [|? ? Hs Hz]; subst. constructor.
      * apply IH. split_and!; [done..|]. intros x y Hx. apply Hlm. by right.
      * apply Forall_app. split; [done|]. apply Forall_forall. intros y Hy. apply Hlm; [by left|done].
Qed.


(** Sorting a rearrangement of a strictly increasing list restores it. *)
Lemma sort_increasing {A} (key : A -> N) (l m : list A) :
  increasing key m -> l ≡ₚ m -> sort_by (fun a b => (key a <=? key b)%N) l = m.
Proof.
  intros Hm Hp.
  assert (Hs : sorted_le (fun a b => (key a <=? key b)%N) (sort_by (fun a b => (key a <=? key b)%N) l)).
  { apply sort_by_sorted; intros; rewrite ?N.leb_le in *; lia. }
  assert (Hq : sort_by (fun a b => (key a <=? key b)%N) l ≡ₚ m) by by rewrite sort_by_perm.
  revert Hs Hq. generalize (sort_by (fun a b => (key a <=? key b)%N) l). clear l Hp.
  induction Hm as [|x m Hm IH Hx]; intros l Hs Hq; [by apply Permutation_nil_r|].
  destruct l as [|y l]; [by apply Permutation_nil_cons in Hq|]. inversion Hs as [|? ? Hs' Hy]; subst.
  assert (y = x) as ->.
  { assert (Hyin : y ∈ x :: m) by (rewrite <-Hq; left). assert (Hxin : x ∈ y :: l) by (rewrite Hq; left).
    apply elem_of_cons in Hyin as [->|Hyin]; [done|]. apply elem_of_cons in Hxin as [->|Hxin]; [done|].
    rewrite Forall_forall in Hx, Hy. specialize (Hx y Hyin). specialize (Hy x Hxin). apply N.leb_le in Hy. lia. }
  f_equal. apply IH; [done|]. by apply (Permutation_cons_inv (a:=x)).
Qed.

Lemma increasing_windows {A} (key : A -> N) (l : list A) :
  increasing key l -> windows2_any (fun a b => (key b <=? key a)%N) l = false.
Proof.
  induction 1 as [|x l Hl IH Hx]; [done|]. destruct l as [|y l]; [done|].
  change (windows2_any ?f (x :: y :: l)) with (f x y || windows2_any f (y :: l)).
  rewrite IH, orb_false_r. apply N.leb_gt. by inversion Hx.
Qed.

Lemma increasing_filter {A} (key : A -> N) p (l : list A) : increasing key l -> increasing key (List.filter p l).
Proof.
  induction 1 as [|x l Hl IH Hx]; [constructor|]. cbn. destruct (p x); [|done]. constructor; [done|].
  rewrite Forall_forall in *. intros y [Hy _]%list_elem_of_In%filter_In. apply Hx. by apply list_elem_of_In.
Qed.

(** ** The events and rows of a command *)

Section commands.
Context {P : Type} `{L : UuidLib} `{SHA : Sha256} `{Pay : JournalPayloads P}.

Lemma prepare_events_lookup cid drafts : forall index events,
  prepare_events cid index drafts = Ok events ->
  length events = length drafts /\
  forall i event, events !! i = Some event -> exists draft, drafts !! i = Some draft /\
    prepare_event cid (index + i) draft = Ok event.
Proof.
  induction drafts as [|draft drafts IH]; intros index events H; cbn [prepare_events] in H.
  - injection H as <-. split; [done|]. intros i event. by rewrite lookup_nil.
  - apply rbind_ok in H as (event & He & H). apply rbind_ok in H as (rest & Hr & [= <-]).
    destruct (IH _ _ Hr) as [Hlen Hall]. split; [cbn; by rewrite Hlen|]. intros [|i] event' Hi; cbn in Hi.
    + injection Hi as <-. exists draft. by rewrite Nat.add_0_r.
    + destruct (Hall i event' Hi) as (d & Hd & Hp). exists d. by rewrite Nat.add_succ_r.
Qed.

(** What an event carries. *)
Lemma prepare_event_fields cid index draft event :
  prepare_event cid index draft = Ok event ->
  PreparedEvent.draft event = draft /\ PreparedEvent.ordinal event = N.of_nat index /\
  canonical_json (JournalEventDraft.payload draft) = Ok (PreparedEvent.payload_json event) /\
  (N.of_nat index <= U16_MAX)%N /\
  event_id_of cid (N.of_nat index) = Ok (PreparedEvent.event_id event) /\
  (exists d, sha256 sha256_digest "journal_payload_v1" JOURNAL_PAYLOAD_SCHEMA
     (payload_canonical (JournalEventDraft.payload draft)) = Ok d /\ PreparedEvent.content_hash event = d).
Proof.
  unfold prepare_event, serialization. intros H. apply rbind_ok in H as ([] & Hg & H). apply guard_ok, N.ltb_ge in Hg.
  apply rbind_ok in H as (id & Hid & H). apply rbind_ok in H as (ch & Hch%map_err_ok & H).
  apply rbind_ok in H as (json & Hj & [= <-]). split_and!; try done. by exists ch.
Qed.

Record prepared_from (command : JournalCommand P) (prepared : PreparedCommand P) : Prop := {
  from_id : PreparedCommand.command_id prepared = JournalCommand.command_id command;
  from_count : PreparedCommand.event_count prepared = N.of_nat (length (JournalCommand.events command));
  from_length : length (PreparedCommand.events prepared) = length (JournalCommand.events command);
  from_bound : (0 < length (JournalCommand.events command))%nat /\
    (N.of_nat (length (JournalCommand.events command)) <= U16_MAX)%N;
  from_events i event : PreparedCommand.events prepared !! i = Some event ->
    exists draft, JournalCommand.events command !! i = Some draft /\
      prepare_event (JournalCommand.command_id command) i draft = Ok event;
}.

Lemma prepare_command_from command prepared :
  prepare_command command = Ok prepared -> prepared_from command prepared.
Proof.
  unfold prepare_command. intros H. apply rbind_ok in H as ([] & H1%guard_ok%N.ltb_ge & H).
  apply rbind_ok in H as ([] & H2%guard_ok%N.eqb_neq & H).
  apply rbind_ok in H as ([] & _ & H). apply rbind_ok in H as ([] & _ & H). apply rbind_ok in H as ([] & _ & H).
  apply rbind_ok in H as (hash & _ & H). apply rbind_ok in H as (events & He & [= <-]).
  destruct (prepare_events_lookup _ _ _ _ He) as [Hlen Hall]. split; cbn; [done|done|done|lia|].
  intros i event Hi. apply (Hall i event Hi).
Qed.

Lemma rows_from_lookup (prepared : PreparedCommand P) first t events : forall index rows,
  rows_from prepared events first index t = Ok rows ->
  length rows = length events /\
  forall i row, rows !! i = Some row -> exists event, events !! i = Some event /\
    row = row_from_prepared prepared event (first + N.of_nat (index + i)) t /\
    (first + N.of_nat (index + i) <= U64_MAX)%N.
Proof.
  induction events as [|event events IH]; intros index rows H; cbn [rows_from] in H.
  - injection H as <-. split; [done|]. intros i row. by rewrite lookup_nil.
  - apply rbind_ok in H as (seq & [-> Hb]%ok_or_ok%checked_add_u64_Some & H).
    apply rbind_ok in H as (rest & Hr & [= <-]). destruct (IH _ _ Hr) as [Hlen Hall].
    split; [cbn; by rewrite Hlen|]. intros [|i] row Hi; cbn in Hi.
    + injection Hi as <-. exists event. rewrite Nat.add_0_r. split_and!; done.
    + destruct (Hall i row Hi) as (e & He & -> & Hle). exists e. by rewrite Nat.add_succ_r.
Qed.

(** The rows of a command, from a sequence number on. *)
Definition rows_of (command : JournalCommand P) (prepared : PreparedCommand P) (first : N) (t : Z)
    (rows : list JournalRow) : Prop :=
  prepare_command command = Ok prepared /\ rows_for_append prepared first t = Ok rows.

Section one.
Context (command : JournalCommand P) (prepared : PreparedCommand P) (first : N) (t : Z) (rows : list JournalRow).
Hypothesis Hrows : rows_of command prepared first t rows.

Lemma rows_length : length rows = length (JournalCommand.events command).
Proof.
  destruct Hrows as [Hp Hr]. unfold rows_for_append in Hr. apply rbind_ok in Hr as ([] & _ & Hr).
  apply rows_from_lookup in Hr as [-> _]. by apply prepare_command_from, from_length in Hp.
Qed.

(** Row [i], field by field. *)
Lemma rows_lookup i row :
  rows !! i = Some row ->
  exists event draft, PreparedCommand.events prepared !! i = Some event /\
    JournalCommand.events command !! i = Some draft /\
    prepare_event (JournalCommand.command_id command) i draft = Ok event /\
    row = row_from_prepared prepared event (first + N.of_nat i) t /\ (first + N.of_nat i <= U64_MAX)%N.
Proof.
  destruct Hrows as [Hp Hr]. unfold rows_for_append in Hr. apply rbind_ok in Hr as ([] & _ & Hr). intros Hi.
  apply rows_from_lookup in Hr as [_ Hall]. destruct (Hall i row Hi) as (event & He & -> & Hle).
  apply prepare_command_from in Hp. destruct (from_events _ _ Hp i event He) as (draft & Hd & Hpe).
  exists event, draft. split_and!; done.
Qed.

Lemma rows_head : exists row, head rows = Some row /\ JournalRow.seq row = first.
Proof.
  pose proof rows_length as Hlen. pose proof (proj1 Hrows) as Hp. apply prepare_command_from in Hp.
  destruct (from_bound _ _ Hp) as [Hpos _]. destruct (lookup_lt_is_Some_2 rows 0) as [row Hrow]; [lia|].
  exists row. rewrite head_lookup. split; [done|]. destruct (rows_lookup 0 row Hrow) as (event & draft & _ & _ & _ & -> & _).
  cbn. lia.
Qed.

Lemma rows_seq i row : rows !! i = Some row -> JournalRow.seq row = (first + N.of_nat i)%N.
Proof. intros Hi. by destruct (rows_lookup i row Hi) as (? & ? & _ & _ & _ & -> & _). Qed.

Lemma rows_ordinal i row : rows !! i = Some row -> JournalRow.ordinal row = N.of_nat i.
Proof.
  intros Hi. destruct (rows_lookup i row Hi) as (event & draft & _ & _ & Hpe & -> & _).
  cbn. by apply prepare_event_fields in Hpe as (_ & -> & _).
Qed.

Lemma rows_increasing : increasing JournalRow.seq rows.
Proof. eapply increasing_step, rows_seq. Qed.

Lemma rows_by_ordinal : by_ordinal rows = rows.
Proof.
  apply sort_increasing; [|done]. apply (increasing_step _ _ 0). intros i row Hi. by rewrite (rows_ordinal i row Hi).
Qed.

Lemma rows_command row : row ∈ rows -> JournalRow.command_id row = JournalCommand.command_id command.
Proof.
  intros [i Hi]%list_elem_of_lookup. destruct (rows_lookup i row Hi) as (event & draft & _ & _ & _ & -> & _).
  cbn. pose proof (proj1 Hrows) as Hp. by apply prepare_command_from, from_id in Hp.
Qed.

Lemma rows_range row : row ∈ rows ->
  (first <= JournalRow.seq row < first + N.of_nat (length (JournalCommand.events command)))%N /\
  (JournalRow.seq row <= U64_MAX)%N.
Proof.
  intros [i Hi]%list_elem_of_lookup. pose proof (lookup_lt_Some _ _ _ Hi) as Hlt. rewrite rows_length in Hlt.
  rewrite (rows_seq i row Hi). destruct (rows_lookup i row Hi) as (? & ? & _ & _ & _ & _ & ?). lia.
Qed.

Lemma rows_last : exists row, last rows = Some row /\
  JournalRow.seq row = (first + N.of_nat (length (JournalCommand.events command)) - 1)%N.
Proof.
  pose proof rows_length as Hlen. pose proof (proj1 Hrows) as Hp. apply prepare_command_from in Hp.
  destruct (from_bound _ _ Hp) as [Hpos _]. rewrite last_lookup_length, Hlen.
  destruct (lookup_lt_is_Some_2 rows (length (JournalCommand.events command) - 1)) as [row Hrow]; [lia|].
  exists row. split; [done|]. rewrite (rows_seq _ _ Hrow). lia.
Qed.

Context `{Laws : !JournalPayloadLaws P Pay}.

Lemma rows_drafts : try_map row_draft rows = Ok (JournalCommand.events command).
Proof.
  apply try_map_lookup; [by rewrite rows_length|]. intros i row Hi.
  destruct (rows_lookup i row Hi) as (event & draft & He & Hd & Hpe & -> & _). exists draft. split; [|done].
  unfold row_draft, row_payload. cbn. apply prepare_event_fields in Hpe as (-> & _ & Hj & _). rewrite (payload_from_to _ _ Hj). cbn. by destruct draft.
Qed.

Lemma rows_payloads : try_map row_payload rows = Ok (payloads command).
Proof.
  apply try_map_lookup; [unfold payloads; by rewrite length_fmap, rows_length|]. intros i row Hi.
  destruct (rows_lookup i row Hi) as (event & draft & He & Hd & Hpe & -> & _).
  exists (JournalEventDraft.payload draft). split; [|unfold payloads; by rewrite list_lookup_fmap, Hd].
  apply prepare_event_fields in Hpe as (_ & _ & Hj & _).
  unfold row_payload. cbn. by rewrite (payload_from_to _ _ Hj).
Qed.

(** The rows of a command pass the check of a complete command. *)
Lemma rows_complete : validate_complete_command_refs rows = Ok rows.
Proof.
  pose proof rows_length as Hlen. pose proof rows_drafts as Hd. pose proof rows_lookup as Hl.
  pose proof rows_by_ordinal as Ho. pose proof (proj1 Hrows) as Hp. pose proof (prepare_command_from _ _ Hp) as Hf.
  destruct (from_bound _ _ Hf) as [Hpos Hmax].
  assert (Hid : forall i row, rows !! i = Some row -> JournalRow.command_id row = JournalCommand.command_id command
    /\ JournalRow.command_event_count row = N.of_nat (length rows)
    /\ JournalRow.ordinal row = N.of_nat i /\ JournalRow.payload_schema row = JOURNAL_PAYLOAD_SCHEMA
    /\ JournalRow.command_hash row = PreparedCommand.command_hash prepared).
  { intros i row Hi. destruct (Hl i row Hi) as (event & draft & _ & _ & Hpe & -> & _). cbn.
    rewrite (from_id _ _ Hf), (from_count _ _ Hf), Hlen. by apply prepare_event_fields in Hpe as (_ & -> & _). }
  assert (Hhead : exists row rs, rows = row :: rs) by (clear -Hlen Hpos; destruct rows; [cbn in Hlen; lia|eauto]).
  destruct Hhead as (row & rs & E). destruct (Hid 0 row) as (Hrid & Hcount & _); [by rewrite E|].
  unfold validate_complete_command_refs. rewrite Ho. rewrite E at 1. rewrite Hrid, Hcount.
  assert (((N.of_nat (length rows) =? 0) || negb (N.of_nat (length rows) =? N.of_nat (length rows)))%N = false) as ->.
  { rewrite N.eqb_refl, orb_false_r. apply N.eqb_neq. lia. }
  cbn [guard rbind].
  rewrite (proj2 (any_imap _ rows)).
  2:{ intros i r Hi. cbn. destruct (Hid i r Hi) as (-> & -> & -> & -> & _). by rewrite !N.eqb_refl, bool_decide_eq_true_2. }
  cbn [guard rbind]. rewrite Hd. cbn [rbind]. unfold JournalCommand.new.
  assert (is_empty (JournalCommand.events command) = false) as ->.
  { apply is_empty_false. intros E'. rewrite E' in Hpos. cbn in Hpos. lia. }
  rewrite (proj2 (N.ltb_ge _ _) Hmax). cbn [orb guard rbind].
  assert (JournalCommand.mk (JournalCommand.command_id command) (JournalCommand.events command) = command) as ->
    by by destruct command.
  rewrite Hp. cbn [rbind].
  assert (any (fun row => JournalRow.command_hash row !=? PreparedCommand.command_hash prepared) rows = false) as ->.
  { apply any_false, Forall_lookup. intros i r Hi. destruct (Hid i r Hi) as (_ & _ & _ & _ & ->). by rewrite bool_decide_eq_true_2. }
  cbn [guard rbind]. rewrite (proj2 (any_zip _ rows _)); [done|].
  intros i r event Hr He. cbn. destruct (Hl i r Hr) as (event' & draft & He' & _ & _ & -> & _). simplify_eq.
  unfold row_matches. cbn. by rewrite !bool_decide_eq_true_2.
Qed.
End one.
End commands.

(** ** Replaying a command *)

Section replay.
Context {P : Type} `{L : UuidLib} `{SHA : Sha256} `{Pay : JournalPayloads P} `{Laws : !JournalPayloadLaws P Pay}.

(** The outcome the rows of a command stand for. *)
Definition outcome_of (command_id : CommandId) (first : N) (rows : list JournalRow) (replayed : bool) : CommitOutcome :=
  CommitOutcome.mk command_id first (first + N.of_nat (length rows) - 1) (JournalRow.event_id <$> rows) replayed.

(** The same command is answered from its rows; any other command under the
    same identifier is refused, provided its digest or its length differs. *)
Lemma replay_rows (command command' : JournalCommand P) prepared prepared' first t rows :
  rows_of command prepared first t rows -> prepare_command command' = Ok prepared' ->
  JournalCommand.command_id command' = JournalCommand.command_id command ->
  replay_outcome rows prepared' =
  if (PreparedCommand.command_hash prepared' ==? PreparedCommand.command_hash prepared)
     && (PreparedCommand.event_count prepared' =? PreparedCommand.event_count prepared)%N
  then Ok (Some (outcome_of (JournalCommand.command_id command) first rows true))
  else Err StoreError.IdempotencyConflict.
Proof.
  intros Hrows Hp' Hid. pose proof (rows_complete _ _ _ _ _ Hrows) as Hcomplete.
  pose proof (rows_length _ _ _ _ _ Hrows) as Hlen. pose proof (rows_lookup _ _ _ _ _ Hrows) as Hl.
  destruct (rows_head _ _ _ _ _ Hrows) as (h & Hh & Hhs). destruct (rows_last _ _ _ _ _ Hrows) as (z & Hz & Hzs).
  pose proof (prepare_command_from _ _ (proj1 Hrows)) as Hf. pose proof (prepare_command_from _ _ Hp') as Hf'.
  assert (Hhash : any (fun row => JournalRow.command_hash row !=? PreparedCommand.command_hash prepared') rows
    = (PreparedCommand.command_hash prepared' !=? PreparedCommand.command_hash prepared)).
  { destruct (PreparedCommand.command_hash prepared' !=? _) eqn:E.
    - apply any_true. exists h. split; [by apply head_Some_elem_of|].
      rewrite head_lookup in Hh. destruct (Hl 0 h Hh) as (ev & d & _ & _ & _ & -> & _). cbn.
      apply negb_true_iff, bool_decide_eq_false in E. apply negb_true_iff, bool_decide_eq_false. congruence.
    - apply negb_false_iff, bool_decide_eq_true in E. apply any_false, Forall_lookup. intros i r Hi.
      destruct (Hl i r Hi) as (ev & d & _ & _ & _ & -> & _). cbn. apply negb_false_iff, bool_decide_eq_true. congruence. }
  unfold replay_outcome. assert (is_empty rows = false) as -> by (apply is_empty_false; by intros ->).
  rewrite Hcomplete. cbn [rbind]. rewrite Hhash.
  destruct (PreparedCommand.command_hash prepared' ==? _); cbn [negb guard rbind andb]; [|done].
  rewrite (from_count _ _ Hf), Hlen, (N.eqb_sym (N.of_nat _) (PreparedCommand.event_count prepared')).
  destruct (PreparedCommand.event_count prepared' =? _)%N eqn:Hcount; cbn [negb guard rbind]; [|done].
  apply N.eqb_eq in Hcount. rewrite Hcount.
  rewrite (proj2 (any_imap _ rows)).
  2:{ intros i r Hi. cbn. destruct (Hl i r Hi) as (ev & d & _ & _ & Hpe & -> & _). cbn.
      apply prepare_event_fields in Hpe as (_ & -> & _). by rewrite (from_count _ _ Hf), !N.eqb_refl. }
  cbn [guard rbind]. rewrite (proj2 (any_zip _ rows _)).
  2:{ intros i r ev' Hr Hev'. cbn. destruct (Hl i r Hr) as (ev & d & _ & _ & Hpe & -> & _). cbn.
      destruct (from_events _ _ Hf' i ev' Hev') as (d' & _ & Hpe'). rewrite Hid in Hpe'.
      apply prepare_event_fields in Hpe as (_ & _ & _ & _ & E1 & _), Hpe' as (_ & _ & _ & _ & E2 & _).
      apply negb_false_iff, bool_decide_eq_true. congruence. }
  cbn [guard rbind]. rewrite Hh, Hz. cbn. unfold outcome_of. rewrite (from_id _ _ Hf'), Hid, Hhs, Hzs, Hlen. done.
Qed.

(** The rows of a command decode to its payloads. *)
Lemma decode_rows (command : JournalCommand P) prepared first t rows :
  rows_of command prepared first t rows ->
  decode_committed_command rows =
  Ok (CommittedCommand.mk (JournalCommand.command_id command) (JournalRow.event_id <$> rows) (payloads command)).
Proof.
  intros Hrows. unfold decode_committed_command. rewrite (rows_complete _ _ _ _ _ Hrows). cbn [map_err rbind].
  rewrite (rows_by_ordinal _ _ _ _ _ Hrows). destruct (rows_head _ _ _ _ _ Hrows) as (h & Hh & _). rewrite Hh.
  cbn [ok_or rbind]. rewrite (rows_payloads _ _ _ _ _ Hrows). cbn. 
  rewrite (rows_command _ _ _ _ _ Hrows); [done|]. by apply head_Some_elem_of.
Qed.
End replay.

(** ** A log of commands *)

Section log.
Context {P : Type} `{L : UuidLib} `{SHA : Sha256} `{Pay : JournalPayloads P} `{Laws : !JournalPayloadLaws P Pay}.

(** A recorded command and where it was recorded. *)
Record entry := {
  entry_command : JournalCommand P;
  entry_prepared : PreparedCommand P;
  entry_first : N;
  entry_time : Z;
  entry_rows : list JournalRow;
}.
Abbreviation cid e := (JournalCommand.command_id (entry_command e)).
Definition entry_ok (e : entry) : Prop :=
  rows_of (entry_command e) (entry_prepared e) (entry_first e) (entry_time e) (entry_rows e).

Definition log_rows (log : list entry) : list JournalRow := log ≫= entry_rows.

(** Each command once, later commands at higher sequence numbers. *)
Record log_ok (log : list entry) : Prop := {
  log_entries : Forall entry_ok log;
  log_once : NoDup ((fun e => cid e) <$> log);
  log_order : increasing JournalRow.seq (log_rows log);
}.

Lemma entry_row e row : entry_ok e -> row ∈ entry_rows e -> JournalRow.command_id row = cid e.
Proof. intros He. by eapply rows_command. Qed.

Lemma log_ok_cons e log : log_ok (e :: log) -> entry_ok e /\ log_ok log /\ cid e ∉ (fun e => cid e) <$> log.
Proof.
  intros [He Ho Hs]. apply Forall_cons in He as [He Hl]. apply NoDup_cons in Ho as [Hn Ho].
  unfold log_rows in Hs. cbn in Hs. apply increasing_app in Hs as (_ & Hs & _). split_and!; [done| |done]. by split.
Qed.

Lemma members_app {A K} `{!Ord K} (key : A -> option K) k l m : members_of key k (l ++ m) = members_of key k l ++ members_of key k m.
Proof. apply List.filter_app. Qed.

(** The rows of one identifier are those of its entry. *)
Lemma log_members log id :
  log_ok log ->
  members_of (fun row => Some (JournalRow.command_id row)) id (log_rows log)
  = match List.find (fun e => cid e ==? id) log with Some e => entry_rows e | None => [] end.
Proof.
  induction log as [|e log IH]; [done|]. intros (He & Hl & Hn)%log_ok_cons. unfold log_rows. cbn [mbind list_bind].
  rewrite members_app. fold (log_rows log). cbn [List.find].
  destruct (cid e ==? id) eqn:E.
  - apply bool_decide_eq_true in E. subst id. rewrite IH by done.
    assert (List.find (fun e' => cid e' ==? cid e) log = None) as ->.
    { destruct (List.find _ log) as [e'|] eqn:Ef; [|done]. exfalso. apply List.find_some in Ef as [Hin Ef%bool_decide_eq_true_1].
      apply Hn. rewrite <-Ef. by apply (list_elem_of_fmap_2 (fun e => cid e)), list_elem_of_In. }
    rewrite app_nil_r. unfold members_of.
    rewrite (List.filter_ext_in _ (fun _ => true)); [by induction (entry_rows e) as [|r rs IHr]; cbn; [|f_equal]|].
    intros r Hr%list_elem_of_In. rewrite (entry_row e r He Hr). by rewrite cmp_refl.
  - rewrite IH by done. apply bool_decide_eq_false in E.
    assert (members_of (fun row => Some (JournalRow.command_id row)) id (entry_rows e) = []) as ->; [|done].
    apply elem_of_nil_inv. intros r Hr. apply elem_of_members in Hr as [Hr [= Hid]].
    rewrite (entry_row e r He Hr) in Hid. done.
Qed.

Lemma log_find log e : log_ok log -> e ∈ log -> List.find (fun e' => cid e' ==? cid e) log = Some e.
Proof.
  intros [_ Hn _] Hin. induction log as [|e' log IH]; [by apply elem_of_nil in Hin|]. cbn [List.find].
  apply NoDup_cons in Hn as [Hn Ho]. apply elem_of_cons in Hin as [->|Hin]; [by rewrite bool_decide_eq_true_2|].
  rewrite bool_decide_eq_false_2; [by apply IH|]. intros E. apply Hn. rewrite E. by apply (list_elem_of_fmap_2 (fun e => cid e)).
Qed.

Lemma entry_rows_nonempty e : entry_ok e -> entry_rows e <> [].
Proof. intros He E. destruct (rows_head _ _ _ _ _ He) as (h & Hh & _). by rewrite E in Hh. Qed.

(** Grouping the rows by command finds the entries. *)
Lemma by_command_log log : log_ok log -> by_command (log_rows log) ≡ₚ (fun e => (cid e, entry_rows e)) <$> log.
Proof.
  intros Hl. pose proof (log_entries _ Hl) as Hok. rewrite Forall_forall in Hok. apply NoDup_Permutation.
  - apply (NoDup_fmap_1 fst). apply (sorted_lt_NoDup (by_command (log_rows log)).*1). exact (group_by_sorted (fun row => Some (JournalRow.command_id row)) (log_rows log)).
  - apply (NoDup_fmap_1 fst). rewrite <-list_fmap_compose. exact (log_once _ Hl).
  - intros [id rows]. unfold by_command. rewrite elem_of_group_by, (log_members _ _ Hl), list_elem_of_fmap. split.
    + intros [-> Hne]. destruct (List.find _ log) as [e|] eqn:Ef; [|done].
      apply List.find_some in Ef as [Hin%list_elem_of_In Hid%bool_decide_eq_true_1]. exists e. by rewrite <-Hid.
    + intros (e & [= -> ->] & Hin). rewrite (log_find _ _ Hl Hin). split; [done|]. by apply entry_rows_nonempty, Hok.
Qed.

Lemma entry_complete e : entry_ok e -> validate_complete_command_refs (entry_rows e) = Ok (entry_rows e).
Proof. intros He. by eapply rows_complete. Qed.

(** The rows of a log pass the check of the journal. *)
Lemma log_valid log : log_ok log -> validate_journal_rows (log_rows log) = Ok tt.
Proof.
  intros Hl. unfold validate_journal_rows. rewrite (sort_increasing _ _ _ (log_order _ Hl) (Permutation_refl _)).
  rewrite (increasing_windows JournalRow.seq _ (log_order _ Hl)). cbn [guard rbind].
  apply for_each_ok. rewrite by_command_log by done. rewrite <-list_fmap_compose, Forall_fmap.
  eapply Forall_impl; [exact (log_entries _ Hl)|]. intros e He. cbn. by rewrite (entry_complete e He).
Qed.

Lemma entry_batch e : entry_ok e -> batch_of (entry_rows e) = Ok (entry_first e, entry_rows e).
Proof.
  intros He. unfold batch_of. rewrite (rows_by_ordinal _ _ _ _ _ He).
  destruct (rows_head _ _ _ _ _ He) as (h & -> & Hh). cbn [fmap option_fmap option_map ok_or rbind]. rewrite Hh.
  rewrite (proj2 (any_imap _ _)); [done|]. intros i r Hi. cbn. apply negb_false_iff, N.eqb_eq.
  destruct (rows_lookup _ _ _ _ _ He i r Hi) as (ev & d & _ & _ & _ & -> & Hle). cbn. lia.
Qed.

Lemma try_map_total {E A B} (f : A -> result E B) (g : A -> B) l :
  Forall (fun x => f x = Ok (g x)) l -> try_map f l = Ok (g <$> l).
Proof. induction 1 as [|x l Hx _ IH]; [done|]. cbn. by rewrite Hx, IH. Qed.

(** The rows are replayed command by command, in the order of the log. *)
Lemma log_batches log : log_ok log -> ordered_command_batches (log_rows log) = Ok (entry_rows <$> log).
Proof.
  intros Hl. unfold ordered_command_batches. rewrite (log_valid _ Hl). cbn [rbind].
  set (g := fun rows : list JournalRow => (match head rows with Some r => JournalRow.seq r | None => 0%N end, rows)).
  assert (Hg : Forall (fun e => g (entry_rows e) = (entry_first e, entry_rows e)) log).
  { eapply Forall_impl; [exact (log_entries _ Hl)|]. intros e He. unfold g. by destruct (rows_head _ _ _ _ _ He) as (h & -> & ->). }
  rewrite (try_map_total _ g).
  2:{ rewrite by_command_log by done. rewrite <-list_fmap_compose, Forall_fmap. eapply Forall_impl.
      { apply Forall_and. split; [exact (log_entries _ Hl)|exact Hg]. }
      intros e [He E]. simpl. rewrite entry_batch by done. by rewrite <-E. }
  cbn [rbind]. f_equal.
  rewrite (sort_increasing fst _ ((fun e => (entry_first e, entry_rows e)) <$> log)).
  - by rewrite <-list_fmap_compose.
  - destruct Hl as [Hok _ Hs]. clear Hg. induction log as [|e log IH]; [constructor|].
    apply Forall_cons in Hok as [He Hok]. unfold log_rows in Hs. cbn [mbind list_bind] in Hs.
    apply increasing_app in Hs as (_ & Hs & Hlt). cbn. constructor; [by apply IH|].
    apply Forall_fmap, Forall_forall. intros e' Hin. cbn. rewrite Forall_forall in Hok. specialize (Hok e' Hin).
    destruct (rows_head _ _ _ _ _ He) as (h & Hh & <-), (rows_head _ _ _ _ _ Hok) as (h' & Hh' & <-).
    apply Hlt; [by apply head_Some_elem_of|]. apply list_elem_of_bind. exists e'. split; [by apply head_Some_elem_of|done].
  - rewrite by_command_log by done. rewrite <-!list_fmap_compose. 
    match goal with |- ?a ≡ₚ ?b => assert (a = b) as ->; [|done] end.
    apply list_fmap_ext. intros i e Hi. cbn. rewrite Forall_lookup in Hg. by apply (Hg i).
Qed.
End log.
