(* ===== verification/JournalAdmission.v ===== *)
(** * The admission of commands (the spine of crates/evertrace-store/src/projections.rs
    and the restored ledger of crates/evertrace-store/src/restore.rs)

    How a live command is checked and applied to the admission state, and how the
    rows of a recorded command are replayed onto it.  The checks of the single
    components and the reduction of one payload are an interface, [AdmissionParts];
    the order in which they run, the errors they are mapped to, the fold over the
    events and the checks that only one of the two paths makes are modelled.  What
    the writer needs of all this is the interface [JournalAdmission].

    The replay of the rows of a command reaches the state its admission reached,
    exactly when the checks that only the replay makes pass. *)

From S2P Require Import Prelude Order Collections OrderedMap Text Canonical Ids Digests Journal Objects Attempt JournalRows.

Definition LEDGER_REVISION : string := "offline_restore_ledger_v1".

(** ** What the writer asks of the reducer: [JournalAdmissionState] *)

Class JournalAdmission (P : Type) := {
  AdmissionState : Type;
  admission_default : AdmissionState;
  apply_command : AdmissionState -> JournalCommand P -> N -> result StoreError AdmissionState;
  apply_row_batch : AdmissionState -> list JournalRow -> result StoreError AdmissionState;
  SourceObservationGuard : Type;
  source_observation_command_matches : JournalCommand P -> SourceObservationGuard -> bool;
  source_observation_guard_matches : AdmissionState -> SourceObservationGuard -> result StoreError bool;
}.
Arguments AdmissionState P {_}.
Arguments SourceObservationGuard P {_}.

(** ** The parts of the reducer *)

Class AdmissionParts (P : Type) := {
  PartState : Type;
  part_default : PartState;
  frontier : PartState -> N;
  with_frontier : PartState -> N -> PartState;
  (** The checks of a command against the state.  Those that take an error fail with it. *)
  validate_procedure_coverage : PartState -> list P -> bool -> StoreError -> result StoreError unit;
  validate_inventory : PartState -> list (P * SourceKind * Z) -> StoreError -> result StoreError unit;
  validate_job_command : PartState -> list (P * Z) -> result StoreError unit;
  validate_object_deletion_payloads :
    PartState -> list (P * SourceKind * Z * list byte) -> StoreError -> result StoreError unit;
  RepositoryClosureKeys : Type;
  closure_repository_id : RepositoryClosureKeys -> option RepositoryId;
  insert_closure : PartState -> RepositoryId -> RepositoryClosureKeys -> PartState;
  validate_scope_purge_payloads :
    PartState -> list (P * SourceKind * Z * list byte) -> StoreError
    -> result StoreError (option RepositoryClosureKeys);
  validate_transition_pairs : PartState -> list P -> result StoreError unit;
  validate_episode_binding_activation : PartState -> list P -> result StoreError unit;
  validate_competing_selected_command : PartState -> list (P * SourceKind) -> result StoreError unit;
  validate_mark_new_attempt_command : PartState -> list (P * SourceKind) -> result StoreError unit;
  validate_procedure_usage_command : PartState -> list P -> result StoreError unit;
  validate_controlled_command : PartState -> list P -> StoreError -> result StoreError unit;
  validate_non_resurrection_command : PartState -> list P -> StoreError -> result StoreError unit;
  AcceptedEdits : Type;
  validate_command_boundary :
    PartState -> list (P * Z * list byte) -> StoreError -> result StoreError AcceptedEdits;
  validate_command_cohort : PartState -> AcceptedEdits -> list P -> result StoreError unit;
  (** [synthesis.validate_command] with the references the state yields for the payloads. *)
  validate_synthesis : PartState -> list P -> result StoreError unit;
  validate_repository_payloads : list P -> result StoreError unit;
  (** The reduction of one payload, and the relations of the resulting state. *)
  apply_payload : PartState -> P -> N -> result StoreError PartState;
  validate_relations : PartState -> result StoreError unit;
  (** [SourceIngestWatermark], and its check against the state and the rows of its command. *)
  source_ingest_watermark : P -> bool;
  validate_source_ingest_watermark_admission : PartState -> P -> list JournalRow -> result StoreError unit;
  (** [ObjectDeletionLedgerRecorded] and [ScopePurgeProgressRecorded], and their import
      from the ledger of a restored backup. *)
  ledger_payload : P -> bool;
  import_restore : PartState -> P -> N -> result StoreError PartState;
  PartGuard : Type;
  part_command_matches : JournalCommand P -> PartGuard -> bool;
  part_guard_matches : PartState -> PartGuard -> result StoreError bool;
}.
Arguments PartState P {_}.
Arguments RepositoryClosureKeys P {_}.
Arguments PartGuard P {_}.

Module JournalAdmissionState.
Section admission.
Context {P : Type} `{Pay : JournalPayloads P} `{Parts : AdmissionParts P}.

(** What the checks read of the event of a draft, and of a row with its payload. *)
Record CommandEvent := event {
  event_payload : P;
  event_source_kind : SourceKind;
  event_occurred_at_us : Z;
  event_config_hash : list byte;
}.

Definition draft_event (draft : JournalEventDraft P) : CommandEvent :=
  event (JournalEventDraft.payload draft) (JournalEventDraft.source_kind draft)
    (JournalEventDraft.occurred_at_us P draft) (JournalEventDraft.effective_config_hash P draft).

Definition command_payloads (events : list CommandEvent) : list P := event_payload <$> events.
Definition with_source (events : list CommandEvent) : list (P * SourceKind) :=
  (fun e => (event_payload e, event_source_kind e)) <$> events.
Definition with_time (events : list CommandEvent) : list (P * Z) :=
  (fun e => (event_payload e, event_occurred_at_us e)) <$> events.
Definition with_source_time (events : list CommandEvent) : list (P * SourceKind * Z) :=
  (fun e => (event_payload e, event_source_kind e, event_occurred_at_us e)) <$> events.
Definition with_config (events : list CommandEvent) : list (P * Z * list byte) :=
  (fun e => (event_payload e, event_occurred_at_us e, event_config_hash e)) <$> events.
Definition with_all (events : list CommandEvent) : list (P * SourceKind * Z * list byte) :=
  (fun e => (event_payload e, event_source_kind e, event_occurred_at_us e, event_config_hash e)) <$> events.

Definition invalid {A} (m : result StoreError A) : result StoreError A :=
  map_err (fun _ => StoreError.InvalidInput) m.
Definition corrupt {A} (m : result StoreError A) : result StoreError A :=
  map_err (fun _ => StoreError.StoreCorrupt) m.

(** [pending_repository_closure]. *)
Definition close_repository (state : PartState P) (closure : option (RepositoryClosureKeys P)) (error : StoreError)
  : result StoreError (PartState P) :=
  match closure with
  | Some closure =>
      let? repository_id := ok_or (closure_repository_id closure) error in
      Ok (insert_closure state repository_id closure)
  | None => Ok state
  end.

(** ** A live command *)

Fixpoint apply_events (next : PartState P) (payloads : list P) (first_seq : N) (offset : nat)
  : result StoreError (PartState P) :=
  match payloads with
  | [] => Ok next
  | payload :: payloads =>
      let? seq := ok_or (checked_add_u64 first_seq (N.of_nat offset)) StoreError.InvalidInput in
      let? next := invalid (apply_payload next payload seq) in
      apply_events next payloads first_seq (S offset)
  end.

Definition apply_command (self : PartState P) (command : JournalCommand P) (first_seq : N)
  : result StoreError (PartState P) :=
  let events := draft_event <$> JournalCommand.events command in
  let payloads := command_payloads events in
  do? validate_procedure_coverage self payloads true StoreError.InvalidInput in
  do? validate_inventory self (with_source_time events) StoreError.InvalidInput in
  do? invalid (validate_job_command self (with_time events)) in
  do? validate_object_deletion_payloads self (with_all events) StoreError.InvalidInput in
  let? pending_repository_closure :=
    validate_scope_purge_payloads self (with_all events) StoreError.InvalidInput in
  do? validate_transition_pairs self payloads in
  do? validate_episode_binding_activation self payloads in
  do? invalid (validate_competing_selected_command self (with_source events)) in
  do? invalid (validate_mark_new_attempt_command self (with_source events)) in
  do? invalid (validate_procedure_usage_command self payloads) in
  do? validate_controlled_command self payloads StoreError.InvalidInput in
  do? validate_non_resurrection_command self payloads StoreError.InvalidInput in
  let? accepted_edits := validate_command_boundary self (with_config events) StoreError.InvalidInput in
  do? invalid (validate_command_cohort self accepted_edits payloads) in
  do? invalid (validate_synthesis self payloads) in
  do? validate_repository_payloads payloads in
  let? next := apply_events self payloads first_seq 0 in
  let? next := close_repository next pending_repository_closure StoreError.InvalidInput in
  do? invalid (validate_relations next) in
  Ok next.

(** ** The ledger of a restored backup *)

Definition ledger_row (first : option JournalRow) (row : JournalRow) : result StoreError unit :=
  do? guard ((JournalRow.algorithm_revision row !=? LEDGER_REVISION)
             || (JournalRow.source_kind row !=? SourceKind.System)
             || (JournalRow.scope row !=? EventScope.default)
             || is_some (JournalRow.causation_id row)
             || is_some (JournalRow.correlation_id row)
             || match first with
                | Some first => (JournalRow.effective_config_hash row !=? JournalRow.effective_config_hash first)
                    || (JournalRow.occurred_at_us row !=? JournalRow.occurred_at_us first)
                | None => false
                end) StoreError.StoreCorrupt in
  let? payload := row_payload (P := P) row in
  do? corrupt (validate_payload payload) in
  guard (negb (ledger_payload payload)) StoreError.StoreCorrupt.

Definition ledger_command (rows : list JournalRow) : result StoreError bool :=
  if negb (any (fun row => JournalRow.algorithm_revision row ==? LEDGER_REVISION) rows) then Ok false
  else
    do? for_each (ledger_row (head rows)) rows in
    Ok true.

Fixpoint import_ledger (next : PartState P) (rows : list JournalRow) : result StoreError (PartState P) :=
  match rows with
  | [] => Ok next
  | row :: rows =>
      let? payload := row_payload row in
      do? guard (negb (ledger_payload payload)) StoreError.StoreCorrupt in
      let? next := import_restore next payload (JournalRow.seq row) in
      import_ledger (with_frontier next (frontier next `max` JournalRow.seq row)) rows
  end.

(** ** The rows of a recorded command *)

Definition parse_row (row : JournalRow) : result StoreError (CommandEvent * N) :=
  let? payload := row_payload row in
  do? corrupt (validate_payload payload) in
  Ok (event payload (JournalRow.source_kind row) (JournalRow.occurred_at_us row)
        (JournalRow.effective_config_hash row), JournalRow.seq row).

Fixpoint replay_events (next : PartState P) (parsed : list (P * N)) (rows : list JournalRow)
  : result StoreError (PartState P) :=
  match parsed with
  | [] => Ok next
  | (payload, seq) :: parsed =>
      do? (if source_ingest_watermark payload then validate_source_ingest_watermark_admission next payload rows
           else Ok tt) in
      let? next := apply_payload next payload seq in
      replay_events next parsed rows
  end.

Definition replay_rows (self : PartState P) (rows : list JournalRow) : result StoreError (PartState P) :=
  let? parsed := try_map parse_row rows in
  let events := parsed.*1 in
  let payloads := command_payloads events in
  do? validate_procedure_coverage self payloads false StoreError.StoreCorrupt in
  do? validate_inventory self (with_source_time events) StoreError.StoreCorrupt in
  do? validate_job_command self (with_time events) in
  do? validate_object_deletion_payloads self (with_all events) StoreError.StoreCorrupt in
  let? pending_repository_closure :=
    validate_scope_purge_payloads self (with_all events) StoreError.StoreCorrupt in
  do? corrupt (validate_transition_pairs self payloads) in
  do? corrupt (validate_episode_binding_activation self payloads) in
  do? validate_competing_selected_command self (with_source events) in
  do? validate_mark_new_attempt_command self (with_source events) in
  do? validate_procedure_usage_command self payloads in
  do? validate_controlled_command self payloads StoreError.StoreCorrupt in
  do? validate_non_resurrection_command self payloads StoreError.StoreCorrupt in
  let? accepted_edits := validate_command_boundary self (with_config events) StoreError.StoreCorrupt in
  do? validate_command_cohort self accepted_edits payloads in
  do? validate_synthesis self payloads in
  do? corrupt (validate_repository_payloads payloads) in
  let? next := replay_events self (zip payloads parsed.*2) rows in
  let? next := close_repository next pending_repository_closure StoreError.StoreCorrupt in
  do? validate_relations next in
  Ok next.

Definition apply_row_batch_owned (self : PartState P) (rows : list JournalRow) : result StoreError (PartState P) :=
  let? ledger := ledger_command rows in
  if ledger : bool then import_ledger self rows else replay_rows self rows.

(** The reducer as the writer sees it. *)
#[export] Instance parts_admission : JournalAdmission P := {|
  JournalAdmission.AdmissionState := PartState P;
  admission_default := part_default;
  JournalAdmission.apply_command := apply_command;
  apply_row_batch := apply_row_batch_owned;
  JournalAdmission.SourceObservationGuard := PartGuard P;
  source_observation_command_matches := part_command_matches;
  source_observation_guard_matches := part_guard_matches;
|}.
End admission.
End JournalAdmissionState.

(** ** Lemmas *)

Import JournalAdmissionState.

(** What the parts promise: the error they are given is only the error they fail
    with, and the live check of the procedure coverage is the stricter one. *)
Class AdmissionPartsLaws (P : Type) `(Parts : AdmissionParts P) := {
  coverage_replayed s ps e e' :
    validate_procedure_coverage s ps true e = Ok tt -> validate_procedure_coverage s ps false e' = Ok tt;
  inventory_error s es e e' : validate_inventory s es e = Ok tt -> validate_inventory s es e' = Ok tt;
  deletion_error s es e e' :
    validate_object_deletion_payloads s es e = Ok tt -> validate_object_deletion_payloads s es e' = Ok tt;
  purge_error s es e e' closure :
    validate_scope_purge_payloads s es e = Ok closure -> validate_scope_purge_payloads s es e' = Ok closure;
  controlled_error s ps e e' :
    validate_controlled_command s ps e = Ok tt -> validate_controlled_command s ps e' = Ok tt;
  resurrection_error s ps e e' :
    validate_non_resurrection_command s ps e = Ok tt -> validate_non_resurrection_command s ps e' = Ok tt;
  boundary_error s es e e' edits :
    validate_command_boundary s es e = Ok edits -> validate_command_boundary s es e' = Ok edits;
}.

(** What the writer relies on: a batch the reducer replays, admitted before, leads to
    the state of its admission. *)
Class JournalAdmissionLaws (P : Type) `{L : UuidLib} `{SHA : Sha256} `{Pay : JournalPayloads P} `(Adm : JournalAdmission P) := {
  replayable : AdmissionState P -> JournalCommand P -> list JournalRow -> Prop;
  replay_admitted (s s' : AdmissionState P) (command : JournalCommand P) (prepared : PreparedCommand P) first t rows :
    JournalAdmission.apply_command s command first = Ok s' -> rows_of command prepared first t rows ->
    any (fun event => JournalEventDraft.algorithm_revision P event ==? LEDGER_REVISION) (JournalCommand.events command) = false ->
    replayable s command rows -> apply_row_batch s rows = Ok s';
}.

Section parts.
Context {P : Type} `{L : UuidLib} `{SHA : Sha256} `{Pay : JournalPayloads P} `{Laws : !JournalPayloadLaws P Pay}.
Context `{Parts : AdmissionParts P} `{PartsLaws : !AdmissionPartsLaws P Parts}.

(** The checks of the source watermarks along the fold of a batch. *)
Fixpoint watermarks_pass (next : PartState P) (parsed : list (P * N)) (rows : list JournalRow) : Prop :=
  match parsed with
  | [] => True
  | (payload, seq) :: parsed =>
      (source_ingest_watermark payload = true ->
       validate_source_ingest_watermark_admission next payload rows = Ok tt) /\
      match apply_payload next payload seq with
      | Ok next => watermarks_pass next parsed rows
      | Err _ => True
      end
  end.

Definition parts_replayable (s : PartState P) (command : JournalCommand P) (rows : list JournalRow) : Prop :=
  watermarks_pass s (zip (payloads command) (JournalRow.seq <$> rows)) rows.

Lemma prepare_command_valid (command : JournalCommand P) prepared :
  prepare_command command = Ok prepared ->
  Forall (fun draft => validate_payload (JournalEventDraft.payload draft) = Ok tt) (JournalCommand.events command).
Proof.
  unfold prepare_command. intros H. apply rbind_ok in H as ([] & _ & H). apply rbind_ok in H as ([] & _ & H).
  apply rbind_ok in H as ([] & Hd%for_each_ok & _). eapply Forall_impl; [exact Hd|]. intros draft Hv. cbn in Hv.
  unfold validate_draft in Hv. by repeat (apply rbind_ok in Hv as ([] & _ & Hv)).
Qed.

Lemma draft_payloads (command : JournalCommand P) :
  command_payloads (draft_event <$> JournalCommand.events command) = payloads command.
Proof. unfold command_payloads, payloads. by rewrite <-list_fmap_compose. Qed.

Section one.
Context (command : JournalCommand P) (prepared : PreparedCommand P) (first : N) (t : Z) (rows : list JournalRow).
Hypothesis Hrows : rows_of command prepared first t rows.

Lemma parse_rows : try_map parse_row rows
  = Ok (zip (draft_event <$> JournalCommand.events command) (JournalRow.seq <$> rows)).
Proof.
  pose proof (rows_length _ _ _ _ _ Hrows) as Hlen. apply try_map_lookup.
  { rewrite length_zip_with, !length_fmap. lia. }
  intros i row Hi. destruct (rows_lookup _ _ _ _ _ Hrows i row Hi) as (event & draft & _ & Hd & Hpe & -> & _).
  exists (draft_event draft, (first + N.of_nat i)%N). split.
  - unfold parse_row, row_payload. cbn. apply prepare_event_fields in Hpe as (-> & _ & Hj & _).
    rewrite (payload_from_to _ _ Hj). cbn [ok_or rbind].
    pose proof (prepare_command_valid _ _ (proj1 Hrows)) as Hv. rewrite Forall_lookup in Hv.
    by rewrite (Hv i draft Hd).
  - rewrite lookup_zip_with, !list_lookup_fmap, Hd, Hi. done.
Qed.

Lemma no_ledger :
  any (fun event => JournalEventDraft.algorithm_revision P event ==? LEDGER_REVISION) (JournalCommand.events command) = false ->
  ledger_command (P := P) rows = Ok false.
Proof.
  intros Hl. unfold ledger_command.
  assert (any (fun row => JournalRow.algorithm_revision row ==? LEDGER_REVISION) rows = false) as ->; [|done].
  apply any_false, Forall_lookup. intros i row Hi. apply any_false in Hl. rewrite Forall_lookup in Hl.
  destruct (rows_lookup _ _ _ _ _ Hrows i row Hi) as (event & draft & _ & Hd & Hpe & -> & _).
  apply prepare_event_fields in Hpe as (Hdraft & _). cbn. rewrite Hdraft. apply (Hl i draft Hd).
Qed.

Lemma replay_passes parsed : forall s s', replay_events s parsed rows = Ok s' -> watermarks_pass s parsed rows.
Proof.
  induction parsed as [|[p seq] parsed IH]; intros s s' H; cbn in *; [done|].
  apply rbind_ok in H as ([] & Hw & H). apply rbind_ok in H as (next & Hn & H). rewrite Hn. split; [|by eapply IH].
  intros E. by rewrite E in Hw.
Qed.

(** The fold of a live command and of its replay. *)
Lemma events_replayed ps seqs : forall offset s s',
  length ps = length seqs ->
  (forall i seq, seqs !! i = Some seq -> seq = (first + N.of_nat (offset + i))%N) ->
  apply_events s ps first offset = Ok s' ->
  replay_events s (zip ps seqs) rows = Ok s' <-> watermarks_pass s (zip ps seqs) rows.
Proof.
  revert seqs. induction ps as [|p ps IH]; intros [|seq seqs] offset s s' Hlen Hseq H; try done.
  cbn [apply_events] in H. apply rbind_ok in H as (seq' & [-> _]%ok_or_ok%checked_add_u64_Some & H).
  apply rbind_ok in H as (next & Hn%map_err_ok & H). cbn [zip zip_with replay_events watermarks_pass].
  rewrite (Hseq 0 seq eq_refl), Nat.add_0_r. rewrite Hn.
  assert (IH' : replay_events next (zip ps seqs) rows = Ok s' <-> watermarks_pass next (zip ps seqs) rows).
  { apply (IH seqs (S offset)); [by injection Hlen| |done]. intros i q Hi. rewrite (Hseq (S i) q Hi). f_equal. lia. }
  cbn [rbind]. fold (zip ps seqs). rewrite <-IH'. destruct (source_ingest_watermark p); cbn [rbind].
  - destruct (validate_source_ingest_watermark_admission s p rows) as [[]|err]; cbn [rbind].
    + tauto.
    + split; [done|]. intros [E _]. by specialize (E eq_refl).
  - intuition done.
Qed.

(** Rows that are replayed passed the checks of their source watermarks. *)
Lemma rows_replayed (s s' : PartState P) :
  any (fun event => JournalEventDraft.algorithm_revision P event ==? LEDGER_REVISION) (JournalCommand.events command) = false ->
  apply_row_batch_owned s rows = Ok s' -> parts_replayable s command rows.
Proof.
  intros Hl H. unfold apply_row_batch_owned in H. rewrite (no_ledger Hl) in H. cbn [rbind] in H. unfold replay_rows in H.
  rewrite parse_rows in H. cbn [rbind] in H. pose proof (rows_length _ _ _ _ _ Hrows) as Hlen.
  rewrite fst_zip, snd_zip in H by (rewrite !length_fmap; lia).
  rewrite draft_payloads in H. do 16 (apply rbind_ok in H as (? & _ & H)).
  apply rbind_ok in H as (folded & Hf & _). by eapply replay_passes.
Qed.

(** A command that was admitted is replayed, to the same state, exactly when the
    checks of its source watermarks pass. *)
Lemma command_replayed (s s' : PartState P) :
  apply_command s command first = Ok s' ->
  any (fun event => JournalEventDraft.algorithm_revision P event ==? LEDGER_REVISION) (JournalCommand.events command) = false ->
  apply_row_batch_owned s rows = Ok s' <-> parts_replayable s command rows.
Proof.
  intros H Hl. unfold apply_row_batch_owned. rewrite (no_ledger Hl). cbn [rbind]. unfold replay_rows.
  rewrite parse_rows. cbn [rbind].
  pose proof (rows_length _ _ _ _ _ Hrows) as Hlen.
  rewrite fst_zip, snd_zip by (rewrite !length_fmap; lia).
  unfold apply_command in H.
  rewrite draft_payloads in H |- *. set (events := draft_event <$> JournalCommand.events command) in *. clearbody events.
  apply rbind_ok in H as ([] & H1 & H). rewrite (coverage_replayed _ _ _ StoreError.StoreCorrupt H1).
  apply rbind_ok in H as ([] & H2 & H). rewrite (inventory_error _ _ _ StoreError.StoreCorrupt H2).
  apply rbind_ok in H as ([] & ->%map_err_ok & H).
  apply rbind_ok in H as ([] & H3 & H). rewrite (deletion_error _ _ _ StoreError.StoreCorrupt H3).
  apply rbind_ok in H as (closure & H4 & H). rewrite (purge_error _ _ _ StoreError.StoreCorrupt _ H4).
  apply rbind_ok in H as ([] & -> & H). apply rbind_ok in H as ([] & -> & H).
  apply rbind_ok in H as ([] & ->%map_err_ok & H). apply rbind_ok in H as ([] & ->%map_err_ok & H).
  apply rbind_ok in H as ([] & ->%map_err_ok & H).
  apply rbind_ok in H as ([] & H5 & H). rewrite (controlled_error _ _ _ StoreError.StoreCorrupt H5).
  apply rbind_ok in H as ([] & H6 & H). rewrite (resurrection_error _ _ _ StoreError.StoreCorrupt H6).
  apply rbind_ok in H as (edits & H7 & H). rewrite (boundary_error _ _ _ StoreError.StoreCorrupt _ H7).
  apply rbind_ok in H as ([] & H8%map_err_ok & H). apply rbind_ok in H as ([] & H9%map_err_ok & H).
  apply rbind_ok in H as ([] & -> & H). cbn [rbind map_err corrupt]. rewrite H8, H9. cbn [rbind].
  apply rbind_ok in H as (folded & Hf & H). apply rbind_ok in H as (next & Hc & H).
  apply rbind_ok in H as ([] & Hv%map_err_ok & [= <-]).
  assert (He : replay_events s (zip (payloads command) (JournalRow.seq <$> rows)) rows = Ok folded
    <-> parts_replayable s command rows).
  { apply (events_replayed _ _ 0); [unfold payloads; by rewrite !length_fmap| |done].
    intros i q Hi. apply list_lookup_fmap_Some in Hi as (row & -> & Hi). by apply (rows_seq _ _ _ _ _ Hrows). }
  assert (Hc' : close_repository folded closure StoreError.StoreCorrupt = Ok next).
  { unfold close_repository in *. destruct closure as [closure|]; [|done].
    apply rbind_ok in Hc as (id & Hid%ok_or_ok & Hc). by rewrite Hid. }
  rewrite <-He. split.
  - intros H. apply rbind_ok in H as (folded' & Hf' & _). by apply He, (replay_passes _ _ folded').
  - intros ->. cbn [rbind]. rewrite Hc'. cbn [rbind]. by rewrite Hv.
Qed.
End one.

#[export] Instance parts_admission_laws : JournalAdmissionLaws P parts_admission.
Proof.
  refine {| replayable := parts_replayable : AdmissionState P -> _ -> _ -> Prop |}.
  intros s s' command prepared first t rows H Hrows Hl Hr. cbn in *. by apply (command_replayed _ _ _ _ _ Hrows).
Defined.
End parts.
