(* ===== verification/JournalWriter.v ===== *)
(** * The journal writer (crates/evertrace-store/src/writer.rs and the journal family
    of crates/evertrace-store/src/sqlite_state.rs)

    The table of the journal with its columns and constraints, the append of a
    command in one transaction, the commit of a command (replay, conditions,
    admission, reservation of sequence numbers, append), and the opening of a
    writer on a persisted table.  The reducer that admits commands is an interface;
    what the file system and SQLite may do to an operation is its argument.

    The columns of a row carry it, the table is read in the order of sequence
    numbers, and a commit keeps the table the rows of a log of commands. *)

From S2P Require Import Prelude Order Collections OrderedMap Text Canonical Ids Digests Journal Objects Attempt JournalRows JournalAdmission.

(** ** The table *)

Inductive SqlValue :=
| SqlNull
| SqlInteger (value : Z)
| SqlText (value : string)
| SqlBlob (value : list byte).
#[export] Instance SqlValue_eq_dec : EqDecision SqlValue.
Proof. solve_decision. Defined.

(** A row: its columns in the order of [INSERT_EVENT] and of the [SELECT]s. *)
Definition SqlRow : Type := list SqlValue.

Definition sql_opt_text (value : option string) : SqlValue :=
  match value with Some value => SqlText value | None => SqlNull end.

Section rows.
Context `{L : UuidLib}.

(** The parameters of [INSERT_EVENT]. *)
Definition event_params (row : JournalRow) : SqlRow :=
  let scope := JournalRow.scope row in
  [SqlBlob (to_be_bytes 8 (JournalRow.seq row));
   SqlText (JournalRow.event_id row);
   SqlText (iid_display (JournalRow.command_id row));
   SqlBlob (JournalRow.command_hash row);
   SqlInteger (Z.of_N (JournalRow.ordinal row));
   SqlInteger (Z.of_N (JournalRow.command_event_count row));
   SqlText (JournalRow.event_type row);
   SqlText (RecordClass_as_str (JournalRow.record_class row));
   sql_opt_text (ObjectFamily_as_str <$> JournalRow.object_family row);
   sql_opt_text (JournalRow.object_id row);
   sql_opt_text (JournalRow.revision_id row);
   sql_opt_text (EventScope.project_id scope);
   sql_opt_text (EventScope.repository_id scope);
   sql_opt_text (EventScope.worktree_id scope);
   sql_opt_text (EventScope.task_id scope);
   sql_opt_text (EventScope.workstream_id scope);
   sql_opt_text (EventScope.session_id scope);
   sql_opt_text (EventScope.execution_lane_id scope);
   SqlInteger (JournalRow.occurred_at_us row);
   SqlInteger (JournalRow.ingested_at_us row);
   SqlText (SourceKind_as_str (JournalRow.source_kind row));
   sql_opt_text (JournalRow.source_ref_json row);
   SqlInteger (Z.of_N (JournalRow.payload_schema row));
   SqlText (JournalRow.payload_json row);
   SqlBlob (JournalRow.content_hash row);
   sql_opt_text (JournalRow.causation_id row);
   sql_opt_text (JournalRow.correlation_id row);
   SqlBlob (JournalRow.effective_config_hash row);
   SqlText (JournalRow.algorithm_revision row)].

(** [row.get(index)] at the types the code asks for. *)
Definition sql_text (row : SqlRow) (index : nat) : result StoreError string :=
  match row !! index with Some (SqlText value) => Ok value | _ => Err StoreError.StoreCorrupt end.
Definition sql_blob (row : SqlRow) (index : nat) : result StoreError (list byte) :=
  match row !! index with Some (SqlBlob value) => Ok value | _ => Err StoreError.StoreCorrupt end.
Definition sql_integer (row : SqlRow) (index : nat) : result StoreError Z :=
  match row !! index with Some (SqlInteger value) => Ok value | _ => Err StoreError.StoreCorrupt end.
Definition optional_column (row : SqlRow) (index : nat) : result StoreError (option string) :=
  match row !! index with
  | Some SqlNull => Ok None
  | Some (SqlText value) => Ok (Some value)
  | _ => Err StoreError.StoreCorrupt
  end.

Definition seq_from_blob (blob : list byte) : result StoreError N :=
  do? guard (negb (length blob =? 8)%nat) StoreError.StoreCorrupt in
  Ok (from_be_bytes blob).

Definition fixed_hash (row : SqlRow) (index : nat) : result StoreError (list byte) :=
  let? blob := sql_blob row index in
  do? guard (negb (length blob =? 32)%nat) StoreError.StoreCorrupt in
  Ok blob.

Definition smallint (row : SqlRow) (index : nat) : result StoreError N :=
  let? value := sql_integer row index in
  do? guard ((value <? 0) || (Z.of_N U16_MAX <? value))%Z StoreError.StoreCorrupt in
  Ok (Z.to_N value).

Definition scope_from_sql (row : SqlRow) : result StoreError EventScope :=
  let? project_id := optional_column row 11 in
  let? repository_id := optional_column row 12 in
  let? worktree_id := optional_column row 13 in
  let? task_id := optional_column row 14 in
  let? workstream_id := optional_column row 15 in
  let? session_id := optional_column row 16 in
  let? execution_lane_id := optional_column row 17 in
  Ok (EventScope.mk project_id repository_id worktree_id task_id workstream_id session_id execution_lane_id).

Definition journal_row_from_sql (row : SqlRow) : result StoreError JournalRow :=
  let? seq_blob := sql_blob row 0 in
  let? command_text := sql_text row 2 in
  let? record_text := sql_text row 7 in
  let? source_text := sql_text row 20 in
  let? family_text := optional_column row 8 in
  let? seq := seq_from_blob seq_blob in
  let? event_id := sql_text row 1 in
  let? command_id := map_err (fun _ => StoreError.StoreCorrupt) (iid_from_str ICommand command_text) in
  let? command_hash := fixed_hash row 3 in
  let? ordinal := smallint row 4 in
  let? command_event_count := smallint row 5 in
  let? event_type := sql_text row 6 in
  let? record_class := RecordClass_parse record_text in
  let? object_family :=
    match family_text with
    | Some family => let? family := ObjectFamily_parse family in Ok (Some family)
    | None => Ok None
    end in
  let? object_id := optional_column row 9 in
  let? revision_id := optional_column row 10 in
  let? scope := scope_from_sql row in
  let? occurred_at_us := sql_integer row 18 in
  let? ingested_at_us := sql_integer row 19 in
  let? source_kind := SourceKind_parse source_text in
  let? source_ref_json := optional_column row 21 in
  let? payload_schema := smallint row 22 in
  let? payload_json := sql_text row 23 in
  let? content_hash := fixed_hash row 24 in
  let? causation_id := optional_column row 25 in
  let? correlation_id := optional_column row 26 in
  let? effective_config_hash := fixed_hash row 27 in
  let? algorithm_revision := sql_text row 28 in
  Ok (JournalRow.mk event_id command_id command_hash ordinal command_event_count seq event_type record_class
        object_family object_id revision_id scope occurred_at_us ingested_at_us source_kind source_ref_json
        payload_schema payload_json content_hash causation_id correlation_id effective_config_hash
        algorithm_revision).

(** [ORDER BY seq]: blobs compare as bytes. *)
Definition seq_le (a b : SqlRow) : bool :=
  match a !! 0%nat, b !! 0%nat with
  | Some (SqlBlob a), Some (SqlBlob b) => leb_ord a b
  | _, _ => true
  end.

Definition select (matches : SqlRow -> bool) (table : list SqlRow) : result StoreError (list JournalRow) :=
  try_map journal_row_from_sql (sort_by seq_le (List.filter matches table)).

(** [SELECT_ALL_ROWS]. *)
Definition read_all_rows (table : list SqlRow) : result StoreError (list JournalRow) :=
  select (fun _ => true) table.

(** The constraints of [CREATE_JOURNAL_TABLE]. *)
Definition blob_length (value : option SqlValue) (n : nat) : bool :=
  match value with Some (SqlBlob blob) => (length blob =? n)%nat | _ => false end.

Definition admissible (table : list SqlRow) (row : SqlRow) : bool :=
  blob_length (row !! 0%nat) 8 && blob_length (row !! 3%nat) 32
  && blob_length (row !! 24%nat) 32 && blob_length (row !! 27%nat) 32
  && negb (any (fun other : SqlRow => other !! 0%nat ==? row !! 0%nat) table)
  && negb (any (fun other : SqlRow => other !! 1%nat ==? row !! 1%nat) table)
  && negb (any (fun other : SqlRow =>
       (other !! 2%nat ==? row !! 2%nat) && (other !! 4%nat ==? row !! 4%nat)) table).

(** [INSERT_EVENT]; a violated constraint is [precommit_error]. *)
Definition insert_event (table : list SqlRow) (row : JournalRow) : result StoreError (list SqlRow) :=
  do? guard (negb (admissible table (event_params row))) StoreError.StoreCorrupt in
  Ok (table ++ [event_params row]).

Fixpoint insert_events (table : list SqlRow) (rows : list JournalRow) : result StoreError (list SqlRow) :=
  match rows with
  | [] => Ok table
  | row :: rows => let? table := insert_event table row in insert_events table rows
  end.
End rows.

(** ** The SQLite state *)

(** What the file system and SQLite do to an operation. *)
Inductive PhysicalFault :=
| Steady
(** The identity of the store or the external data version does not check before
    the operation; [detached] when the handle is given up for it. *)
| Refused (error : StoreError) (detached : bool)
(** [BEGIN], the checks inside the transaction or an insertion failed, and the
    transaction was rolled back. *)
| RolledBack (error : StoreError)
(** The rollback failed. *)
| RollbackLost
(** [COMMIT] or the checks after it failed: the outcome is uncertain. *)
| CommitLost (persisted : bool)
(** The rows are committed, then the sibling lock does not check. *)
| LockLost (error : StoreError).

Module SqliteState.
Record SqliteState := mk {
  journal_events : list SqlRow;
  frontier : N;
  poisoned : bool;
}.
Definition poison (self : SqliteState) : SqliteState := mk (journal_events self) (frontier self) true.
Definition ensure_usable (self : SqliteState) : result StoreError unit := guard (poisoned self) StoreError.Io.

(** The checks before an operation ([revalidate], [observe]). *)
Definition observe (fault : PhysicalFault) (self : SqliteState) : SqliteState * result StoreError unit :=
  match fault with
  | Refused error detached => (if detached then poison self else self, Err error)
  | _ => (self, Ok tt)
  end.

(** [stamp]: what a commit uses of it, the frontier. *)
Definition stamp (fault : PhysicalFault) (self : SqliteState) : SqliteState * result StoreError N :=
  match ensure_usable self with
  | Err error => (self, Err error)
  | Ok _ =>
      let (self, observed) := observe fault self in
      (self, let? _ := observed in Ok (frontier self))
  end.

Section reads.
Context `{L : UuidLib}.

Definition rows (self : SqliteState) : result StoreError (list JournalRow) :=
  do? ensure_usable self in read_all_rows (journal_events self).

(** [SELECT_COMMAND_ROWS]. *)
Definition committed_rows (self : SqliteState) (command_id : CommandId) : result StoreError (list JournalRow) :=
  do? ensure_usable self in
  select (fun row => row !! 2%nat ==? Some (SqlText (iid_display command_id))) (journal_events self).

(** [SELECT_ROWS_AFTER]. *)
Definition rows_after (self : SqliteState) (seq : N) : result StoreError (list JournalRow) :=
  do? ensure_usable self in
  select (fun row => match row !! 0%nat with Some (SqlBlob blob) => ltb_ord (to_be_bytes 8 seq) blob | _ => false end)
    (journal_events self).

(** [SELECT_ROWS_PAGE]. *)
Definition rows_page (self : SqliteState) (after frontier : N) : result StoreError (list JournalRow) :=
  do? ensure_usable self in
  try_map journal_row_from_sql (take 256 (sort_by seq_le (List.filter (fun row : SqlRow =>
    match row !! 0%nat with
    | Some (SqlBlob blob) => ltb_ord (to_be_bytes 8 after) blob && leb_ord blob (to_be_bytes 8 frontier)
    | _ => false
    end) (journal_events self)))).

(** The shape of an append: consecutive sequence numbers. *)
Definition contiguous (rows : list JournalRow) : result StoreError N :=
  do? guard (is_empty rows) StoreError.InvalidInput in
  let? last := ok_or (JournalRow.seq <$> last rows) StoreError.StoreCorrupt in
  let? first := ok_or (JournalRow.seq <$> head rows) StoreError.StoreCorrupt in
  do? guard ((checked_add_u64 first (N.of_nat (length rows) - 1) !=? Some last)
             || windows2_any (fun a b => (JournalRow.seq b <=? JournalRow.seq a)%N) rows) StoreError.StoreCorrupt in
  Ok last.

(** The transaction of [append_command_rows]. *)
Definition append_command_rows (fault : PhysicalFault) (self : SqliteState) (rows : list JournalRow)
  : SqliteState * result StoreError unit :=
  match ensure_usable self with
  | Err error => (self, Err error)
  | Ok _ =>
      let (self, observed) := observe fault self in
      match (let? _ := observed in contiguous rows) with
      | Err error => (self, Err error)
      | Ok last =>
          match fault with
          | RolledBack error => (self, Err error)
          | RollbackLost => (poison self, Err StoreError.Io)
          | _ =>
              match insert_events (journal_events self) rows with
              | Err error => (self, Err error)
              | Ok table =>
                  match fault with
                  | CommitLost persisted =>
                      (poison (mk (if persisted then table else journal_events self) (frontier self) false),
                       Err StoreError.Io)
                  | _ => (mk table last (poisoned self), Ok tt)
                  end
              end
          end
      end
  end.
End reads.
End SqliteState.
Abbreviation SqliteState := SqliteState.SqliteState.

(** ** The writer *)

Definition MAX_COMMITTED_COMMAND_READ : nat := 64.

Module JournalWriter.
Record JournalWriter (P : Type) `{Adm : JournalAdmission P} := mk {
  sqlite : SqliteState;
  next_seq : N;
  admission_state : AdmissionState P;
}.
Arguments mk {P Adm} _ _ _.
Arguments sqlite {P Adm} _.
Arguments next_seq {P Adm} _.
Arguments admission_state {P Adm} _.

Section writer.
Context {P : Type} `{L : UuidLib} `{SHA : Sha256} `{Pay : JournalPayloads P} `{Adm : JournalAdmission P}.
Implicit Types self : JournalWriter P.

Definition set_sqlite self (sqlite : SqliteState) : JournalWriter P := mk sqlite (next_seq self) (admission_state self).
Definition set_next_seq self (next_seq : N) : JournalWriter P := mk (sqlite self) next_seq (admission_state self).
Definition set_admission self (state : AdmissionState P) : JournalWriter P := mk (sqlite self) (next_seq self) state.

Inductive CommitCondition :=
| Frontier (expected : N)
| SourceObservation (guard : SourceObservationGuard P).

(** The first number of the range, and the next one. *)
Definition reserve_range (next_seq count : N) : result StoreError (N * N) :=
  do? guard (count =? 0)%N StoreError.InvalidInput in
  let? next := ok_or (checked_add_u64 next_seq count) StoreError.StoreCorrupt in
  Ok (next_seq, next).

(** [JournalAdmissionState::from_journal_rows]. *)
Fixpoint apply_batches (state : AdmissionState P) (batches : list (list JournalRow))
  : result StoreError (AdmissionState P) :=
  match batches with
  | [] => Ok state
  | batch :: batches => let? state := apply_row_batch state batch in apply_batches state batches
  end.
Definition from_journal_rows (rows : list JournalRow) : result StoreError (AdmissionState P) :=
  let? batches := ordered_command_batches rows in
  apply_batches admission_default batches.

(** A writer on a persisted table: [SqliteState::open_in] and [open_on_connection]. *)
Definition open (table : list SqlRow) : result StoreError (JournalWriter P) :=
  let? rows := read_all_rows table in
  do? validate_journal_rows rows in
  let frontier := match last rows with Some row => JournalRow.seq row | None => 0%N end in
  let state := SqliteState.mk table frontier false in
  let? rows := SqliteState.rows state in
  let? admission := from_journal_rows rows in
  let? next_seq := ok_or (checked_add_u64
    (match last rows with Some row => JournalRow.seq row | None => 0%N end) 1) StoreError.StoreCorrupt in
  Ok (mk state next_seq admission).

(** The checks on the command alone. *)
Definition check_command (command : JournalCommand P) (ingested_at_us : Z) (condition : option CommitCondition)
  : result StoreError (PreparedCommand P) :=
  do? guard ((ingested_at_us <? 0)%Z
             || any (fun event => JournalEventDraft.algorithm_revision P event ==? LEDGER_REVISION)
                  (JournalCommand.events command)) StoreError.InvalidInput in
  let? prepared := prepare_command command in
  do? match condition with
      | Some (SourceObservation guarded) =>
          guard (negb (source_observation_command_matches command guarded)) StoreError.InvalidInput
      | _ => Ok tt
      end in
  Ok prepared.

Definition check_condition self (live_frontier : N) (condition : option CommitCondition) : result StoreError unit :=
  match condition with
  | Some (Frontier expected) => guard (negb (live_frontier =? expected)%N) StoreError.StaleFrontier
  | Some (SourceObservation guarded) =>
      let? matches := source_observation_guard_matches (admission_state self) guarded in
      guard (negb matches) StoreError.StaleFrontier
  | None => Ok tt
  end.

(** The answer from the persisted rows, or the state that admits the command. *)
Definition replay_or_admit self (live : result StoreError N) (command : JournalCommand P)
    (prepared : PreparedCommand P) (condition : option CommitCondition)
  : result StoreError (CommitOutcome + AdmissionState P) :=
  let? live_frontier := live in
  let? existing := SqliteState.committed_rows (sqlite self) (PreparedCommand.command_id prepared) in
  let? replayed := replay_outcome existing prepared in
  match replayed with
  | Some outcome => Ok (inl outcome)
  | None =>
      do? check_condition self live_frontier condition in
      let? next := apply_command (admission_state self) command (next_seq self) in
      Ok (inr next)
  end.

(** The tail of a commit, from the reservation on. *)
Definition append_command (fault : PhysicalFault) self (prepared : PreparedCommand P) (ingested_at_us : Z)
    (next_admission : AdmissionState P) : JournalWriter P * result StoreError CommitOutcome :=
  match reserve_range (next_seq self) (PreparedCommand.event_count prepared) with
  | Err error => (self, Err error)
  | Ok (first_seq, next_seq) =>
      let self := set_next_seq self next_seq in
      match (let? rows := rows_for_append prepared first_seq ingested_at_us in
             let? last_seq := ok_or (JournalRow.seq <$> last rows) StoreError.StoreCorrupt in
             Ok (rows, last_seq)) with
      | Err error => (self, Err error)
      | Ok (rows, last_seq) =>
          let (sqlite, appended) := SqliteState.append_command_rows fault (sqlite self) rows in
          let self := set_sqlite self sqlite in
          match appended with
          | Err error => (self, Err error)
          | Ok _ =>
              match fault with
              | LockLost error => (self, Err error)
              | _ =>
                  (set_admission self next_admission,
                   Ok (CommitOutcome.mk (PreparedCommand.command_id prepared) first_seq last_seq
                         (JournalRow.event_id <$> rows) false))
              end
          end
      end
  end.

Definition commit_inner (fault : PhysicalFault) self (command : JournalCommand P) (ingested_at_us : Z)
    (condition : option CommitCondition) : JournalWriter P * result StoreError CommitOutcome :=
  match check_command command ingested_at_us condition with
  | Err error => (self, Err error)
  | Ok prepared =>
      let (sqlite, live) := SqliteState.stamp fault (sqlite self) in
      let self := set_sqlite self sqlite in
      match replay_or_admit self live command prepared condition with
      | Err error => (self, Err error)
      | Ok (inl outcome) => (self, Ok outcome)
      | Ok (inr next) => append_command fault self prepared ingested_at_us next
      end
  end.

Definition commit (fault : PhysicalFault) self command ingested_at_us :=
  commit_inner fault self command ingested_at_us None.
Definition commit_if_frontier (fault : PhysicalFault) self command ingested_at_us (expected_frontier : N) :=
  commit_inner fault self command ingested_at_us (Some (Frontier expected_frontier)).
Definition commit_source_observation (fault : PhysicalFault) self command ingested_at_us guarded :=
  commit_inner fault self command ingested_at_us (Some (SourceObservation guarded)).

Definition committed_command self (command_id : CommandId)
  : result (fault StoreError) (option (CommittedCommand P)) :=
  let? rows := map_err Raise (SqliteState.committed_rows (sqlite self) command_id) in
  if is_empty rows then Ok None
  else let? command := decode_committed_command rows in Ok (Some command).

(** The commands of a [BTreeSet] of identifiers, those that are not there left out. *)
Fixpoint read_commands self (command_ids : list CommandId)
  : result (fault StoreError) (list (CommandId * list JournalRow)) :=
  match command_ids with
  | [] => Ok []
  | command_id :: command_ids =>
      let? rows := map_err Raise (SqliteState.committed_rows (sqlite self) command_id) in
      let? rest := read_commands self command_ids in
      Ok (if is_empty rows then rest else (command_id, rows) :: rest)
  end.

Definition committed_commands self (command_ids : list CommandId)
  : result (fault StoreError) (list (CommandId * CommittedCommand P)) :=
  do? guard (MAX_COMMITTED_COMMAND_READ <? length command_ids)%nat (Raise StoreError.StoreCorrupt) in
  let? grouped := read_commands self (bset_of_list command_ids) in
  try_map (fun entry : CommandId * list JournalRow =>
    let? command := decode_committed_command entry.2 in Ok (entry.1, command)) grouped.
End writer.
End JournalWriter.
Abbreviation JournalWriter := JournalWriter.JournalWriter.

(** ** Lemmas *)

(** ** Columns *)

Lemma cmp_list_snoc {A} `{!Ord A} (l m : list A) x y :
  length l = length m -> cmp_list (l ++ [x]) (m ++ [y]) = cmp_lex (cmp_list l m) (cmp x y).
Proof.
  revert m. induction l as [|z l IH]; intros [|z' m] Hl; try done; cbn.
  - by destruct (cmp x y).
  - rewrite IH by (cbn in Hl; lia). unfold cmp_lex. by destruct (cmp z z').
Qed.

Lemma cmp_byte (b c : byte) : cmp b c = N.compare (byte_N b) (byte_N c).
Proof. reflexivity. Qed.

(** Big-endian bytes compare as the numbers they encode. *)
Lemma cmp_to_be_bytes w : forall a b, (a < 256 ^ N.of_nat w)%N -> (b < 256 ^ N.of_nat w)%N ->
  cmp_list (to_be_bytes w a) (to_be_bytes w b) = N.compare a b.
Proof.
  induction w as [|w IH]; intros a b Ha Hb.
  - cbn in *. symmetry. apply N.compare_eq_iff. lia.
  - change (to_be_bytes (S w) a) with (to_be_bytes w (a / 256) ++ [N_byte a]).
    change (to_be_bytes (S w) b) with (to_be_bytes w (b / 256) ++ [N_byte b]). rewrite cmp_list_snoc by by rewrite !length_to_be_bytes.
    rewrite Nat2N.inj_succ, N.pow_succ_r' in Ha, Hb. rewrite IH by (apply N.Div0.div_lt_upper_bound; lia).
    rewrite cmp_byte, !N_byte_N. unfold cmp_lex.
    clear Ha Hb IH. pose proof (N.div_mod a 256 ltac:(lia)). pose proof (N.div_mod b 256 ltac:(lia)).
    pose proof (N.mod_lt a 256 ltac:(lia)). pose proof (N.mod_lt b 256 ltac:(lia)).
    revert H H0 H1 H2. generalize (a / 256)%N (a mod 256)%N (b / 256)%N (b mod 256)%N. intros qa ra qb rb -> -> Hra Hrb.
    symmetry. destruct (N.compare_spec qa qb) as [->|E|E].
    + destruct (N.compare_spec ra rb) as [->|E|E]; [apply N.compare_eq_iff|apply N.compare_lt_iff|apply N.compare_gt_iff]; lia.
    + apply N.compare_lt_iff. lia.
    + apply N.compare_gt_iff. lia.
Qed.

Lemma u64_bytes n : (n <= U64_MAX)%N -> (n < 256 ^ N.of_nat 8)%N.
Proof. unfold U64_MAX. cbn. lia. Qed.

Lemma seq_bytes_le a b : (a <= U64_MAX)%N -> (b <= U64_MAX)%N ->
  leb_ord (to_be_bytes 8 a) (to_be_bytes 8 b) = (a <=? b)%N.
Proof.
  intros Ha%u64_bytes Hb%u64_bytes. unfold leb_ord. cbn [cmp Ord_list]. rewrite cmp_to_be_bytes by done.
  unfold N.leb. by destruct (N.compare a b).
Qed.

Lemma seq_bytes_lt a b : (a <= U64_MAX)%N -> (b <= U64_MAX)%N ->
  ltb_ord (to_be_bytes 8 a) (to_be_bytes 8 b) = (a <? b)%N.
Proof.
  intros Ha%u64_bytes Hb%u64_bytes. unfold ltb_ord. cbn [cmp Ord_list]. rewrite cmp_to_be_bytes by done.
  unfold N.ltb. by destruct (N.compare a b).
Qed.

Lemma RecordClass_round c : RecordClass_parse (RecordClass_as_str c) = Ok c.
Proof. by destruct c. Qed.
Lemma SourceKind_round k : SourceKind_parse (SourceKind_as_str k) = Ok k.
Proof. by destruct k. Qed.
Lemma ObjectFamily_round f : ObjectFamily_parse (ObjectFamily_as_str f) = Ok f.
Proof. by destruct f. Qed.

Section columns.
Context `{L : UuidLib, !UuidLaws L}.

(** The type of command identifiers. *)
Definition command_id_ok (id : CommandId) : Prop :=
  uuid_wf (iid_as_uuid id) /\ validate_uuid (iid_as_uuid id) = Ok tt.

Lemma command_id_round id : command_id_ok id -> iid_from_str ICommand (iid_display id) = Ok id.
Proof.
  intros [Hw Hv]. unfold iid_from_str, iid_display, parse_uuid_payload.
  rewrite (parse_hyphenated _ Hw). cbn [ok_or rbind]. rewrite Hv. cbn [rbind].
  rewrite bool_decide_eq_true_2 by done. cbn. by destruct id.
Qed.

Lemma command_id_display_inj a b : command_id_ok a -> command_id_ok b -> iid_display a = iid_display b -> a = b.
Proof. intros Ha%command_id_round Hb%command_id_round E. rewrite E in Ha. congruence. Qed.

(** The types of the fields of a row. *)
Record row_typed (row : JournalRow) : Prop := {
  typed_seq : (JournalRow.seq row <= U64_MAX)%N;
  typed_id : command_id_ok (JournalRow.command_id row);
  typed_command_hash : length (JournalRow.command_hash row) = 32;
  typed_ordinal : (JournalRow.ordinal row <= U16_MAX)%N;
  typed_count : (JournalRow.command_event_count row <= U16_MAX)%N;
  typed_schema : (JournalRow.payload_schema row <= U16_MAX)%N;
  typed_content_hash : length (JournalRow.content_hash row) = 32;
  typed_config_hash : length (JournalRow.effective_config_hash row) = 32;
}.

Lemma optional_round row index value :
  row !! index = Some (sql_opt_text value) -> optional_column row index = Ok value.
Proof. unfold optional_column. intros ->. by destruct value. Qed.

Lemma hash_round row index value : row !! index = Some (SqlBlob value) -> length value = 32 -> fixed_hash row index = Ok value.
Proof. unfold fixed_hash, sql_blob. intros -> H. cbn. by rewrite H. Qed.

Lemma smallint_round row index value :
  row !! index = Some (SqlInteger (Z.of_N value)) -> (value <= U16_MAX)%N -> smallint row index = Ok value.
Proof.
  unfold smallint, sql_integer, U16_MAX. intros -> H. cbn [rbind].
  assert (((Z.of_N value <? 0) || (Z.of_N 65535 <? Z.of_N value))%Z = false) as ->.
  { apply orb_false_iff. split; [apply Z.ltb_ge|apply Z.ltb_ge]; lia. }
  cbn. by rewrite N2Z.id.
Qed.

(** The columns of a row carry it. *)
Lemma row_round_trip row : row_typed row -> journal_row_from_sql (event_params row) = Ok row.
Proof.
  intros []. unfold journal_row_from_sql.
  change (sql_blob (event_params row) 0) with (Ok (E := StoreError) (to_be_bytes 8 (JournalRow.seq row))).
  change (sql_text (event_params row) 2) with (Ok (E := StoreError) (iid_display (JournalRow.command_id row))).
  change (sql_text (event_params row) 7) with (Ok (E := StoreError) (RecordClass_as_str (JournalRow.record_class row))).
  change (sql_text (event_params row) 20) with (Ok (E := StoreError) (SourceKind_as_str (JournalRow.source_kind row))).
  change (sql_text (event_params row) 1) with (Ok (E := StoreError) (JournalRow.event_id row)).
  change (sql_text (event_params row) 6) with (Ok (E := StoreError) (JournalRow.event_type row)).
  change (sql_text (event_params row) 23) with (Ok (E := StoreError) (JournalRow.payload_json row)).
  change (sql_text (event_params row) 28) with (Ok (E := StoreError) (JournalRow.algorithm_revision row)).
  change (sql_integer (event_params row) 18) with (Ok (E := StoreError) (JournalRow.occurred_at_us row)).
  change (sql_integer (event_params row) 19) with (Ok (E := StoreError) (JournalRow.ingested_at_us row)).
  rewrite (optional_round _ 8 (ObjectFamily_as_str <$> JournalRow.object_family row)) by done. cbn [rbind].
  unfold seq_from_blob. rewrite length_to_be_bytes. cbn [Nat.eqb negb guard rbind].
  rewrite from_to_be_bytes by by apply u64_bytes. rewrite command_id_round by done. cbn [map_err rbind].
  rewrite (hash_round _ 3 (JournalRow.command_hash row)) by done.
  rewrite (hash_round _ 24 (JournalRow.content_hash row)) by done.
  rewrite (hash_round _ 27 (JournalRow.effective_config_hash row)) by done.
  rewrite (smallint_round _ 4 (JournalRow.ordinal row)) by done.
  rewrite (smallint_round _ 5 (JournalRow.command_event_count row)) by done.
  rewrite (smallint_round _ 22 (JournalRow.payload_schema row)) by done. cbn [rbind].
  rewrite RecordClass_round, SourceKind_round. cbn [rbind].
  assert ((match ObjectFamily_as_str <$> JournalRow.object_family row with
    | Some family => let? f := ObjectFamily_parse family in Ok (Some f) | None => Ok None end)
    = Ok (E := StoreError) (JournalRow.object_family row)) as ->.
  { destruct (JournalRow.object_family row) as [f|]; cbn; [by rewrite ObjectFamily_round|done]. }
  cbn [rbind]. unfold scope_from_sql.
  rewrite (optional_round _ 9 (JournalRow.object_id row)), (optional_round _ 10 (JournalRow.revision_id row)),
    (optional_round _ 11 (EventScope.project_id (JournalRow.scope row))),
    (optional_round _ 12 (EventScope.repository_id (JournalRow.scope row))),
    (optional_round _ 13 (EventScope.worktree_id (JournalRow.scope row))),
    (optional_round _ 14 (EventScope.task_id (JournalRow.scope row))),
    (optional_round _ 15 (EventScope.workstream_id (JournalRow.scope row))),
    (optional_round _ 16 (EventScope.session_id (JournalRow.scope row))),
    (optional_round _ 17 (EventScope.execution_lane_id (JournalRow.scope row))),
    (optional_round _ 21 (JournalRow.source_ref_json row)), (optional_round _ 25 (JournalRow.causation_id row)),
    (optional_round _ 26 (JournalRow.correlation_id row)) by done.
  cbn [rbind]. destruct row as [? ? ? ? ? ? ? ? ? ? ? [] ? ? ? ? ? ? ? ? ? ? ?]. reflexivity.
Qed.
End columns.

(** ** Reading the table *)

Section table.
Context `{L : UuidLib, !UuidLaws L}.

Lemma filter_fmap {A B} (f : A -> B) (p : B -> bool) (q : A -> bool) l :
  (forall x, x ∈ l -> p (f x) = q x) -> List.filter p (f <$> l) = f <$> List.filter q l.
Proof.
  induction l as [|x l IH]; intros H; [done|]. cbn. rewrite (H x) by left. rewrite IH by (intros y Hy; apply H; by right).
  by destruct (q x).
Qed.

Lemma seq_le_params a b : row_typed a -> row_typed b ->
  seq_le (event_params a) (event_params b) = (JournalRow.seq a <=? JournalRow.seq b)%N.
Proof. intros Ha Hb. unfold seq_le, event_params. cbn [lookup list_lookup]. apply seq_bytes_le; by apply typed_seq. Qed.

Lemma params_sorted rows :
  Forall row_typed rows -> increasing JournalRow.seq rows -> sorted_le seq_le (event_params <$> rows).
Proof.
  intros Ht Hs. induction Hs as [|row rows Hs IH Hrow]; [constructor|]. apply Forall_cons in Ht as [Hr Ht].
  rewrite fmap_cons. constructor; [by apply IH|]. rewrite Forall_fmap, Forall_forall. rewrite !Forall_forall in *.
  intros other Hin. unfold compose. rewrite seq_le_params by auto. apply N.leb_le, N.lt_le_incl. by apply Hrow.
Qed.

(** A query returns the matching rows by increasing sequence number. *)
Lemma select_rows p q rows :
  Forall row_typed rows -> increasing JournalRow.seq rows -> (forall row, row ∈ rows -> p (event_params row) = q row) ->
  select p (event_params <$> rows) = Ok (List.filter q rows).
Proof.
  intros Ht Hs Hp. unfold select. rewrite (filter_fmap event_params p q) by done.
  assert (Ht' : Forall row_typed (List.filter q rows)).
  { rewrite Forall_forall in *. intros r [Hr _]%list_elem_of_In%filter_In. by apply Ht, list_elem_of_In. }
  rewrite sort_by_id by by apply params_sorted, increasing_filter.
  apply try_map_id. eapply Forall_impl; [exact Ht'|]. intros r. by apply row_round_trip.
Qed.

Lemma filter_all {A} (l : list A) : List.filter (fun _ => true) l = l.
Proof. induction l as [|x l IH]; [done|]. cbn. by rewrite IH. Qed.

Lemma read_rows rows :
  Forall row_typed rows -> increasing JournalRow.seq rows -> read_all_rows (event_params <$> rows) = Ok rows.
Proof. intros Ht Hs. unfold read_all_rows. rewrite (select_rows _ (fun _ => true)) by done. by rewrite filter_all. Qed.

(** The rows of one command. *)
Lemma select_command rows id :
  Forall row_typed rows -> increasing JournalRow.seq rows -> command_id_ok id ->
  select (fun row : SqlRow => row !! 2%nat ==? Some (SqlText (iid_display id))) (event_params <$> rows)
  = Ok (members_of (fun row => Some (JournalRow.command_id row)) id rows).
Proof.
  intros Ht Hs Hid. apply select_rows; [done..|]. intros row Hrow. rewrite Forall_forall in Ht. specialize (Ht row Hrow).
  change (event_params row !! 2%nat) with (Some (SqlText (iid_display (JournalRow.command_id row)))). cbv beta iota.
  destruct (decide (JournalRow.command_id row = id)) as [->|E].
  - by rewrite bool_decide_eq_true_2, cmp_refl.
  - rewrite bool_decide_eq_false_2.
    + destruct (cmp (JournalRow.command_id row) id) eqn:E'; [|done..]. by apply cmp_eq in E'.
    + intros [= E']. apply E. apply command_id_display_inj; [apply Ht|done|done].
Qed.

(** ** Writing to it *)

Lemma insert_events_spec rows : forall table table',
  insert_events table rows = Ok table' -> table' = table ++ (event_params <$> rows).
Proof.
  induction rows as [|row rows IH]; intros table table' H; cbn [insert_events] in H.
  - injection H as <-. by rewrite app_nil_r.
  - apply rbind_ok in H as (next & H & H'). unfold insert_event in H. apply rbind_ok in H as ([] & _ & [= <-]).
    apply IH in H' as ->. cbn. by rewrite <-app_assoc.
Qed.

(** Rows with new keys are admitted. *)
Record fresh_rows (old new : list JournalRow) : Prop := {
  fresh_seq a b : a ∈ old -> b ∈ new -> (JournalRow.seq a < JournalRow.seq b)%N;
  fresh_event_id a b : a ∈ old -> b ∈ new -> JournalRow.event_id a <> JournalRow.event_id b;
  fresh_command a b : a ∈ old -> b ∈ new -> JournalRow.command_id a <> JournalRow.command_id b;
}.

Lemma column_differs {A} (f : JournalRow -> A) (column : nat) rows row :
  (forall a b, row_typed a -> row_typed b -> event_params a !! column = event_params b !! column -> f a = f b) ->
  Forall row_typed rows -> row_typed row -> (forall a, a ∈ rows -> f a <> f row) ->
  any (fun other : SqlRow => other !! column ==? event_params row !! column) (event_params <$> rows) = false.
Proof.
  intros Hf Ht Hr Hd. apply any_false, Forall_fmap, Forall_forall. intros a Ha. cbn. apply bool_decide_eq_false.
  intros E. rewrite Forall_forall in Ht. apply (Hd a Ha). by apply Hf; [apply Ht| |].
Qed.

Lemma admissible_row rows row :
  Forall row_typed rows -> row_typed row ->
  (forall a, a ∈ rows -> JournalRow.seq a <> JournalRow.seq row) ->
  (forall a, a ∈ rows -> JournalRow.event_id a <> JournalRow.event_id row) ->
  (forall a, a ∈ rows -> JournalRow.command_id a = JournalRow.command_id row -> JournalRow.ordinal a <> JournalRow.ordinal row) ->
  admissible (event_params <$> rows) (event_params row) = true.
Proof.
  intros Ht Hr Hs He Hc. unfold admissible.
  rewrite (column_differs JournalRow.seq 0), (column_differs JournalRow.event_id 1); [|try done..].
  2:{ intros a b _ _ [=]; done. }
  2:{ intros a b Ha Hb E.
      apply (f_equal (fun v => match v with Some (SqlBlob blob) => blob | _ => [] end)) in E.
      change (to_be_bytes 8 (JournalRow.seq a) = to_be_bytes 8 (JournalRow.seq b)) in E.
      apply to_be_bytes_inj in E; [done|..]; apply u64_bytes; [apply Ha|apply Hb]. }
  cbn [event_params lookup list_lookup blob_length]. rewrite length_to_be_bytes, (typed_command_hash _ Hr),
    (typed_content_hash _ Hr), (typed_config_hash _ Hr). cbn [Nat.eqb andb negb].
  apply negb_true_iff, any_false, Forall_fmap, Forall_forall. intros a Ha. cbn. rewrite Forall_forall in Ht.
  apply andb_false_iff. destruct (decide (JournalRow.command_id a = JournalRow.command_id row)) as [E|E].
  - right. apply bool_decide_eq_false. intros [= E']. apply (Hc a Ha E). lia.
  - left. apply bool_decide_eq_false. intros [= E']. apply E. apply command_id_display_inj; [by apply Ht|apply Hr|done].
Qed.

Lemma insert_fresh new : forall old,
  Forall row_typed old -> Forall row_typed new -> fresh_rows old new ->
  NoDup (JournalRow.event_id <$> new) -> increasing JournalRow.seq new -> increasing JournalRow.ordinal new ->
  insert_events (event_params <$> old) new = Ok (event_params <$> (old ++ new)).
Proof.
  intros old Ho Hn [Hs He Hc] Hnd Hsq Hor.
  assert (Hgen : forall done', Forall row_typed done' ->
    (forall a b, a ∈ done' -> b ∈ new -> JournalRow.seq a <> JournalRow.seq b /\
       JournalRow.event_id a <> JournalRow.event_id b /\
       (JournalRow.command_id a = JournalRow.command_id b -> JournalRow.ordinal a <> JournalRow.ordinal b)) ->
    insert_events (event_params <$> done') new = Ok (event_params <$> (done' ++ new))).
  { clear Hs He Hc Ho old. induction new as [|row new IH]; intros done' Hd Hall; [by rewrite app_nil_r|].
    apply Forall_cons in Hn as [Hr Hn]. apply NoDup_cons in Hnd as [Hnin Hnd].
    inversion Hsq as [|? ? Hsq' Hsr]; subst. inversion Hor as [|? ? Hor' Horr]; subst.
    rewrite Forall_forall in Hsr, Horr. cbn [insert_events]. unfold insert_event.
    rewrite admissible_row; [|done|done|..]; try (intros a Ha; by apply Hall; [|left]).
    cbn [negb guard rbind]. replace (done' ++ row :: new) with ((done' ++ [row]) ++ new) by by rewrite <-app_assoc.
    change [event_params row] with (event_params <$> [row]). rewrite <-fmap_app. apply IH; try done.
    - apply Forall_app. split; [done|by apply Forall_singleton].
    - intros a b [Ha| ->%list_elem_of_singleton]%elem_of_app Hb; [by apply Hall; [|right]|].
      specialize (Hsr b Hb). specialize (Horr b Hb). split_and!; [lia| |intros _; lia].
      intros E. apply Hnin. rewrite E. by apply list_elem_of_fmap_2. }
  apply Hgen; [done|]. intros a b Ha Hb. specialize (Hs a b Ha Hb). split_and!; [lia|by apply He|].
  intros E. by destruct (Hc a b Ha Hb).
Qed.
End table.
