(* ===== verification/JournalLog.v ===== *)
(** * The writer against a log of commands

    A writer persists a log when its table holds the rows of the log and its next
    sequence number lies behind all of them; every commit keeps that, whatever fails.
    It represents the log when, besides, its admission state is the replay of the log;
    a commit keeps that as long as the sibling lock holds to the end of the commit and
    the replay accepts what the admission accepted. *)

From S2P Require Import Prelude Order Collections OrderedMap Text Canonical Ids Digests Journal Objects Attempt JournalRows JournalAdmission JournalWriter.
Import JournalWriter.

Section log.
Context {P : Type} `{L : UuidLib} `{ULaws : !UuidLaws L} `{SHA : Sha256} `{ShaLen : !Sha256Length}.
Context `{Pay : JournalPayloads P} `{PayLaws : !JournalPayloadLaws P Pay}.
Context `{Adm : JournalAdmission P} `{AdmLaws : !JournalAdmissionLaws P Adm}.
Implicit Types (w : JournalWriter P) (log : list (@entry P)).
Abbreviation cid e := (JournalCommand.command_id (entry_command e)).

(** The type of a command. *)
Definition command_typed (command : JournalCommand P) : Prop :=
  command_id_ok (JournalCommand.command_id command) /\
  Forall (fun draft => length (JournalEventDraft.effective_config_hash P draft) = 32) (JournalCommand.events command).

Lemma sha256_ok_length t n v d : sha256 sha256_digest t n v = Ok d -> length d = 32.
Proof. unfold sha256. intros H. apply rbind_ok in H as (b & _ & [= <-]). apply sha256_length. Qed.

Lemma prepared_hash (command : JournalCommand P) prepared :
  prepare_command command = Ok prepared -> length (PreparedCommand.command_hash prepared) = 32.
Proof.
  unfold prepare_command. intros H. apply rbind_ok in H as ([] & _ & H). apply rbind_ok in H as ([] & _ & H).
  apply rbind_ok in H as ([] & _ & H). apply rbind_ok in H as ([] & _ & H). apply rbind_ok in H as ([] & _ & H).
  apply rbind_ok in H as (hash & Hh%map_err_ok & H). apply rbind_ok in H as (events & _ & [= <-]). by eapply sha256_ok_length.
Qed.

Lemma rows_typed (command : JournalCommand P) prepared first t rows :
  rows_of command prepared first t rows -> command_typed command -> Forall row_typed rows.
Proof.
  intros Hrows [Hid Hcfg]. apply Forall_lookup. intros i row Hi.
  destruct (rows_lookup _ _ _ _ _ Hrows i row Hi) as (event & draft & _ & Hd & Hpe & -> & Hle).
  pose proof (proj1 Hrows) as Hp. pose proof (prepare_command_from _ _ Hp) as Hf.
  pose proof (prepared_hash _ _ Hp). destruct (from_bound _ _ Hf) as [_ Hmax].
  apply prepare_event_fields in Hpe as (Hdraft & Ho & _ & Hob & _ & d & Hch%sha256_ok_length & Hcd).
  rewrite Forall_lookup in Hcfg. specialize (Hcfg i draft Hd).
  split; cbn; [done|by rewrite (from_id _ _ Hf)|done|by rewrite Ho|by rewrite (from_count _ _ Hf)| |by rewrite Hcd|by rewrite Hdraft].
  unfold JOURNAL_PAYLOAD_SCHEMA, U16_MAX. lia.
Qed.

Lemma rows_contiguous (command : JournalCommand P) prepared first t rows :
  rows_of command prepared first t rows ->
  SqliteState.contiguous rows = Ok (first + N.of_nat (length rows) - 1)%N.
Proof.
  intros Hrows. unfold SqliteState.contiguous.
  destruct (rows_head _ _ _ _ _ Hrows) as (h & Hh & Hhs), (rows_last _ _ _ _ _ Hrows) as (z & Hz & Hzs).
  assert (is_empty rows = false) as -> by (apply is_empty_false; by intros ->). rewrite Hh, Hz. cbn. rewrite Hhs, Hzs.
  rewrite (rows_length _ _ _ _ _ Hrows). pose proof (rows_range _ _ _ _ _ Hrows z) as [Hr Hm].
  { by apply last_Some_elem_of. }
  rewrite (increasing_windows JournalRow.seq _ (rows_increasing _ _ _ _ _ Hrows)), orb_false_r.
  unfold checked_add_u64. rewrite (proj2 (N.leb_le _ _)) by lia. rewrite bool_decide_eq_true_2; [done|]. f_equal. lia.
Qed.

(** The last sequence number of a log, zero for the empty one. *)
Definition log_frontier log : N :=
  match last (log_rows log) with Some row => JournalRow.seq row | None => 0%N end.

Definition table w : list SqlRow := SqliteState.journal_events (sqlite w).

(** The table holds the rows of the log, below the next sequence number. *)
Record persists w log : Prop := {
  rep_log : log_ok log;
  rep_typed : Forall row_typed (log_rows log);
  rep_table : table w = event_params <$> log_rows log;
  rep_next row : row ∈ log_rows log -> (JournalRow.seq row < next_seq w)%N;
  rep_bound : (0 < next_seq w <= U64_MAX)%N;
}.

(** And the replay of the log is the admission state. *)
Record represents w log : Prop := {
  rep_persists :> persists w log;
  rep_frontier : SqliteState.poisoned (sqlite w) = false -> SqliteState.frontier (sqlite w) = log_frontier log;
  rep_admission : exists s, apply_batches admission_default (entry_rows <$> log) = Ok s /\
    (SqliteState.poisoned (sqlite w) = false -> admission_state w = s);
}.

Lemma apply_batches_app (bs bs' : list (list JournalRow)) : forall s s',
  apply_batches s bs = Ok s' -> apply_batches s (bs ++ bs') = apply_batches s' bs'.
Proof.
  induction bs as [|b bs IH]; intros s s' H; cbn in *; [by injection H as <-|].
  apply rbind_ok in H as (s1 & -> & H). cbn [rbind]. by apply IH.
Qed.

Lemma from_log_rows log s :
  log_ok log -> apply_batches admission_default (entry_rows <$> log) = Ok s -> from_journal_rows (log_rows log) = Ok s.
Proof. intros Hl Hs. unfold from_journal_rows. rewrite (log_batches _ Hl). exact Hs. Qed.

(** The table of a represented log opens, to a writer of the same log. *)
Lemma represents_opens w log :
  represents w log ->
  exists w', open (table w) = Ok w' /\ represents w' log /\ table w' = table w /\
    SqliteState.poisoned (sqlite w') = false /\ (next_seq w' = log_frontier log + 1)%N /\
    (SqliteState.poisoned (sqlite w) = false -> admission_state w' = admission_state w).
Proof.
  intros [[Hl Ht Htab Hnext Hbound] Hf (s & Hs & Hadm)].
  set (state := SqliteState.mk (table w) (log_frontier log) false).
  exists (mk state (log_frontier log + 1) s).
  assert (Hfr : (log_frontier log + 1 <= U64_MAX)%N).
  { unfold log_frontier. destruct (last (log_rows log)) as [row|] eqn:E; [|unfold U64_MAX; lia].
    apply last_Some_elem_of, Hnext in E. lia. }
  split; [|split_and!; try done].
  - unfold open. rewrite Htab, (read_rows _ Ht (log_order _ Hl)). cbn [rbind]. rewrite (log_valid _ Hl). cbn [rbind].
    unfold SqliteState.rows, SqliteState.ensure_usable. cbn [SqliteState.poisoned SqliteState.journal_events guard rbind].
    rewrite (read_rows _ Ht (log_order _ Hl)). cbn [rbind]. rewrite (from_log_rows _ _ Hl Hs). cbn [rbind].
    fold (log_frontier log). rewrite (proj2 (checked_add_u64_Some (log_frontier log) 1 _) (conj eq_refl Hfr)).
    cbn [ok_or rbind]. unfold state. by rewrite Htab.
  - split; [split|..]; try done; cbn; [|lia|eauto]. intros row Hrow. pose proof (log_order _ Hl) as Ho. unfold log_frontier.
    clear -Ho Hrow. induction (log_rows log) as [|x l IH] using rev_ind; [by apply elem_of_nil in Hrow|].
    rewrite last_snoc. apply increasing_app in Ho as (_ & _ & Ho).
    apply elem_of_app in Hrow as [Hrow| ->%list_elem_of_singleton]; [|lia].
    specialize (Ho row x Hrow ltac:(by left)). lia.
  - cbn. intros Hp. by rewrite (Hadm Hp).
Qed.

(** ** Lookups *)

Lemma represents_rows w log id :
  persists w log -> command_id_ok id -> SqliteState.poisoned (sqlite w) = false ->
  SqliteState.committed_rows (sqlite w) id
  = Ok (match List.find (fun e => cid e ==? id) log with Some e => entry_rows e | None => [] end).
Proof.
  intros [Hl Ht Htab _ _] Hid Hp. unfold SqliteState.committed_rows, SqliteState.ensure_usable. rewrite Hp.
  cbn [guard rbind]. unfold table in Htab. rewrite Htab, (select_command _ _ Ht (log_order _ Hl) Hid).
  by rewrite (log_members _ _ Hl).
Qed.

(** A table whose replay is refused does not open. *)
Lemma refused_log_closed w log error :
  persists w log -> apply_batches admission_default (entry_rows <$> log) = Err error -> open (table w) = Err error.
Proof.
  intros [Hl Ht Htab _ _] Hs. unfold open. rewrite Htab, (read_rows _ Ht (log_order _ Hl)). cbn [rbind].
  rewrite (log_valid _ Hl). cbn [rbind]. unfold SqliteState.rows, SqliteState.ensure_usable.
  cbn [SqliteState.poisoned SqliteState.journal_events guard rbind].
  rewrite (read_rows _ Ht (log_order _ Hl)). cbn [rbind]. unfold from_journal_rows. rewrite (log_batches _ Hl).
  cbn [rbind]. by rewrite Hs.
Qed.

(** A newly appended entry. *)
Lemma log_snoc_ok log e :
  log_ok log -> entry_ok e -> (cid e) ∉ ((fun e => cid e) <$> log) ->
  (forall row, row ∈ log_rows log -> (JournalRow.seq row < entry_first e)%N) -> log_ok (log ++ [e]).
Proof.
  intros [Hok Hn Hs] He Hnin Hlt. split.
  - apply Forall_app. split; [done|by apply Forall_singleton].
  - rewrite fmap_app. apply NoDup_app. split_and!; [done| |apply NoDup_singleton].
    intros x Hx ->%list_elem_of_singleton. done.
  - unfold log_rows. rewrite bind_app. cbn. rewrite app_nil_r. apply increasing_app. split_and!; [done|by eapply rows_increasing|].
    intros x y Hx Hy. specialize (Hlt x Hx). destruct (rows_range _ _ _ _ _ He y Hy). lia.
Qed.

Lemma log_rows_snoc log e : log_rows (log ++ [e]) = log_rows log ++ entry_rows e.
Proof. unfold log_rows. rewrite bind_app. cbn. by rewrite app_nil_r. Qed.

(** ** One commit *)

(** What the admission of the command at the next sequence number promises of its replay. *)
Definition replays w (command : JournalCommand P) (t : Z) : Prop :=
  forall prepared rows, rows_of command prepared (next_seq w) t rows -> replayable (admission_state w) command rows.

Lemma check_command_ok (command : JournalCommand P) t cond prepared :
  check_command command t cond = Ok prepared ->
  prepare_command command = Ok prepared /\ (0 <= t)%Z /\
  any (fun event => JournalEventDraft.algorithm_revision P event ==? LEDGER_REVISION) (JournalCommand.events command) = false.
Proof.
  unfold check_command. intros H. apply rbind_ok in H as ([] & [Ht%Z.ltb_ge Hl]%guard_ok%orb_false_iff & H).
  apply rbind_ok in H as (p & Hp & H). apply rbind_ok in H as ([] & _ & [= <-]). done.
Qed.

Lemma reserve_range_ok n count first next :
  reserve_range n count = Ok (first, next) -> first = n /\ next = (n + count)%N /\ (next <= U64_MAX)%N /\ (0 < count)%N.
Proof.
  unfold reserve_range. intros H. apply rbind_ok in H as ([] & Hc%guard_ok%N.eqb_neq & H).
  apply rbind_ok in H as (m & [-> Hm]%ok_or_ok%checked_add_u64_Some & [= <- <-]). lia.
Qed.

(** Burning sequence numbers, or giving the handle up, changes nothing. *)
Lemma persists_weaken w w' log :
  persists w log -> table w' = table w -> (next_seq w <= next_seq w' <= U64_MAX)%N -> persists w' log.
Proof.
  intros [Hl Ht Htab Hnext Hbound] E [Hn1 Hn2]. split; try done.
  - by rewrite E.
  - intros row Hrow. specialize (Hnext row Hrow). lia.
  - lia.
Qed.
Lemma represents_weaken w w' log :
  represents w log -> table w' = table w -> (next_seq w <= next_seq w' <= U64_MAX)%N ->
  (SqliteState.poisoned (sqlite w') = false -> SqliteState.poisoned (sqlite w) = false /\
     SqliteState.frontier (sqlite w') = SqliteState.frontier (sqlite w) /\ admission_state w' = admission_state w) ->
  represents w' log.
Proof.
  intros [Hper Hf (s & Hs & Hadm)] E Hn Hp. split.
  - by eapply persists_weaken.
  - intros Hp'. destruct (Hp Hp') as (Hp1 & -> & _). by apply Hf.
  - exists s. split; [done|]. intros Hp'. destruct (Hp Hp') as (Hp1 & _ & ->). by apply Hadm.
Qed.

(** Persisting the rows of a command appends its entry to the log. *)
Lemma persists_append w log (command : JournalCommand P) prepared t rows table' w' :
  persists w log -> command_typed command ->
  rows_of command prepared (next_seq w) t rows ->
  JournalCommand.command_id command ∉ ((fun e => cid e) <$> log) ->
  insert_events (table w) rows = Ok table' ->
  (next_seq w + N.of_nat (length rows) <= U64_MAX)%N ->
  table w' = table' -> next_seq w' = (next_seq w + N.of_nat (length rows))%N ->
  persists w' (log ++ [{| entry_command := command; entry_prepared := prepared; entry_first := next_seq w;
                          entry_time := t; entry_rows := rows |}]).
Proof.
  intros [Hl Ht Htab Hnext Hbound] Hty Hrows Hnin Hins Hb Hj Hn. apply insert_events_spec in Hins as ->.
  split; rewrite ?log_rows_snoc.
  - by apply log_snoc_ok.
  - apply Forall_app. split; [done|]. by eapply rows_typed.
  - by rewrite Hj, Htab, fmap_app.
  - intros row [Hrow|Hrow]%elem_of_app; rewrite Hn.
    + specialize (Hnext row Hrow). lia.
    + destruct (rows_range _ _ _ _ _ Hrows row Hrow). rewrite <-(rows_length _ _ _ _ _ Hrows) in *. lia.
  - rewrite Hn. lia.
Qed.

(** Those of an admitted command keep the writer representing the log. *)
Lemma represents_append w log (command : JournalCommand P) prepared t rows table' s' sqlite' w' :
  represents w log -> SqliteState.poisoned (sqlite w) = false -> command_typed command ->
  rows_of command prepared (next_seq w) t rows ->
  JournalCommand.command_id command ∉ ((fun e => cid e) <$> log) ->
  insert_events (table w) rows = Ok table' ->
  apply_batches admission_default (entry_rows <$> log) = Ok (admission_state w) ->
  apply_row_batch (admission_state w) rows = Ok s' ->
  (next_seq w + N.of_nat (length rows) <= U64_MAX)%N ->
  SqliteState.journal_events sqlite' = table' ->
  (SqliteState.poisoned sqlite' = false -> SqliteState.frontier sqlite' = (next_seq w + N.of_nat (length rows) - 1)%N) ->
  w' = mk sqlite' (next_seq w + N.of_nat (length rows)) (if SqliteState.poisoned sqlite' then admission_state w else s') ->
  represents w' (log ++ [{| entry_command := command; entry_prepared := prepared; entry_first := next_seq w;
                            entry_time := t; entry_rows := rows |}]).
Proof.
  intros Hrep Hp Hty Hrows Hnin Hins Hs Hbatch Hb Hj Hfr ->. split; cbn.
  - eapply persists_append; try done. apply Hrep.
  - intros Hp'. rewrite (Hfr Hp'). unfold log_frontier. rewrite log_rows_snoc.
    destruct (rows_last _ _ _ _ _ Hrows) as (z & Hz & Hzs). cbn [entry_rows]. rewrite last_app, Hz, Hzs.
    by rewrite (rows_length _ _ _ _ _ Hrows).
  - exists s'. rewrite fmap_app, (apply_batches_app _ _ _ _ Hs). cbn. rewrite Hbatch. split; [done|].
    intros ->. done.
Qed.

(** What a commit leaves behind. *)
Inductive commit_result (fault : PhysicalFault) w log (command : JournalCommand P) (t : Z) (cond : option CommitCondition) w'
  : result StoreError CommitOutcome -> Prop :=
| committed_refused error :
    represents w' log -> table w' = table w -> commit_result fault w log command t cond w' (Err error)
| committed_replayed e prepared :
    represents w' log -> table w' = table w -> e ∈ log -> cid e = JournalCommand.command_id command ->
    prepare_command command = Ok prepared ->
    PreparedCommand.command_hash prepared = PreparedCommand.command_hash (entry_prepared e) ->
    commit_result fault w log command t cond w' (Ok (outcome_of (cid e) (entry_first e) (entry_rows e) true))
| committed_appended e :
    represents w' (log ++ [e]) -> entry_command e = command -> entry_first e = next_seq w ->
    SqliteState.poisoned (sqlite w') = false ->
    check_condition w (log_frontier log) cond = Ok tt ->
    commit_result fault w log command t cond w' (Ok (outcome_of (cid e) (entry_first e) (entry_rows e) false))
| committed_uncertain e :
    represents w' (log ++ [e]) -> entry_command e = command -> fault = CommitLost true ->
    SqliteState.poisoned (sqlite w') = true ->
    commit_result fault w log command t cond w' (Err StoreError.Io).

Lemma append_command_cases fault w log command prepared t s' w' r cond :
  represents w log -> SqliteState.poisoned (sqlite w) = false -> command_typed command -> replays w command t ->
  (forall error, fault <> LockLost error) ->
  prepare_command command = Ok prepared ->
  any (fun event => JournalEventDraft.algorithm_revision P event ==? LEDGER_REVISION) (JournalCommand.events command) = false ->
  JournalCommand.command_id command ∉ ((fun e => cid e) <$> log) ->
  JournalAdmission.apply_command (admission_state w) command (next_seq w) = Ok s' ->
  check_condition w (log_frontier log) cond = Ok tt ->
  append_command fault w prepared t s' = (w', r) ->
  commit_result fault w log command t cond w' r.
Proof.
  intros Hrep Hp Hty Hreplays Hlock Hprep Hledger Hnin Happly Hcond. unfold append_command.
  destruct (reserve_range _ _) as [[first next]|error] eqn:Hr; [|intros [= <- <-]; by constructor].
  apply reserve_range_ok in Hr as (-> & -> & Hnext & Hcount).
  assert (Hburn : represents (set_next_seq w (next_seq w + PreparedCommand.event_count prepared)) log).
  { eapply represents_weaken; [exact Hrep|done|cbn; lia|done]. }
  destruct (rows_for_append prepared (next_seq w) t) as [rows|error] eqn:Hrows; cbn [rbind];
    [|intros [= <- <-]; by constructor].
  assert (Hof : rows_of command prepared (next_seq w) t rows) by by split.
  destruct (rows_last _ _ _ _ _ Hof) as (z & Hz & Hzs). rewrite Hz. cbn [fmap option_fmap option_map ok_or rbind].
  assert (Hlen : PreparedCommand.event_count prepared = N.of_nat (length rows)).
  { rewrite (rows_length _ _ _ _ _ Hof). by apply from_count, prepare_command_from. }
  unfold SqliteState.append_command_rows, SqliteState.ensure_usable. cbn [set_next_seq sqlite]. rewrite Hp. cbn [guard].
  destruct (rep_admission _ _ Hrep) as (s & Hs & Hadm). specialize (Hadm Hp). subst s.
  pose proof (replay_admitted _ _ _ _ _ _ _ Happly Hof Hledger (Hreplays _ _ Hof)) as Hbatch.
  pose proof (rows_contiguous _ _ _ _ _ Hof) as Hcont.
  assert (Happend : forall table' sqlite' w', insert_events (table w) rows = Ok table' ->
    SqliteState.journal_events sqlite' = table' ->
    (SqliteState.poisoned sqlite' = false -> SqliteState.frontier sqlite' = (next_seq w + N.of_nat (length rows) - 1)%N) ->
    w' = mk sqlite' (next_seq w + N.of_nat (length rows)) (if SqliteState.poisoned sqlite' then admission_state w else s') ->
    represents w' (log ++ [{| entry_command := command; entry_prepared := prepared; entry_first := next_seq w;
                              entry_time := t; entry_rows := rows |}])).
  { intros table' sqlite' w0 Hins Hj Hfr ->. eapply represents_append; try done. by rewrite <-Hlen. }
  destruct fault as [|error detached|error| |persisted|error]; cbn [SqliteState.observe rbind];
    rewrite ?Hcont; cbn [rbind].
  - destruct (insert_events _ _) as [table'|error] eqn:Hins; intros [= <- <-]; [|by constructor].
    rewrite (from_id _ _ (prepare_command_from _ _ Hprep)).
    replace (CommitOutcome.mk _ _ _ _ _) with (outcome_of (JournalCommand.command_id command) (next_seq w) rows false).
    2:{ unfold outcome_of. f_equal. rewrite Hzs, (rows_length _ _ _ _ _ Hof). done. }
    eapply (committed_appended _ _ _ _ _ _ _
      {| entry_command := command; entry_prepared := prepared; entry_first := next_seq w; entry_time := t; entry_rows := rows |});
      try done.
    eapply (Happend table' (SqliteState.mk table' (next_seq w + N.of_nat (length rows) - 1) (SqliteState.poisoned (sqlite w))) _ eq_refl eq_refl).
    + done.
    + cbn. by rewrite Hp, Hlen.
  - destruct detached; intros [= <- <-]; constructor; try done.
    eapply represents_weaken; [exact Hburn|done|cbn; lia|done].
  - intros [= <- <-]. by constructor.
  - intros [= <- <-]. constructor; [|done]. eapply represents_weaken; [exact Hburn|done|cbn; lia|done].
  - destruct (insert_events _ _) as [table'|error] eqn:Hins; [|intros [= <- <-]; by constructor].
    destruct persisted; intros [= <- <-].
    + eapply (committed_uncertain _ _ _ _ _ _ _
        {| entry_command := command; entry_prepared := prepared; entry_first := next_seq w; entry_time := t; entry_rows := rows |});
        try done.
      eapply (Happend table' (SqliteState.mk table' (SqliteState.frontier (sqlite w)) true) _ eq_refl eq_refl); [done|]. cbn. by rewrite Hlen.
    + constructor; [|done]. eapply represents_weaken; [exact Hburn|done|cbn; lia|done].
  - by destruct (Hlock error).
Qed.

Lemma commit_cases fault w log command t cond w' r :
  represents w log -> command_typed command -> replays w command t -> (forall error, fault <> LockLost error) ->
  commit_inner fault w command t cond = (w', r) -> commit_result fault w log command t cond w' r.
Proof.
  intros Hrep Hty Hreplays Hlock. unfold commit_inner.
  destruct (check_command command t cond) as [prepared|error] eqn:Hc; [|intros [= <- <-]; by constructor].
  apply check_command_ok in Hc as (Hprep & Ht & Hledger).
  unfold SqliteState.stamp, SqliteState.ensure_usable.
  destruct (SqliteState.poisoned (sqlite w)) eqn:Hp; cbn [guard].
  { intros [= <- <-]. constructor; [|done]. eapply represents_weaken; [exact Hrep|done| |cbn; congruence].
    pose proof (rep_bound _ _ Hrep). cbn. lia. }
  assert (Hset : set_sqlite w (sqlite w) = w) by by destruct w.
  destruct (SqliteState.observe fault (sqlite w)) as [sqlite' observed] eqn:Hobs.
  destruct observed as [[]|error].
  2:{ intros [= <- <-]. constructor; [|by destruct fault as [|? []| | | |]; injection Hobs as <-].
      eapply represents_weaken; [exact Hrep| |pose proof (rep_bound _ _ Hrep); cbn; lia|];
        destruct fault as [|? []| | | |]; injection Hobs as <- ?; done. }
  assert (sqlite' = sqlite w) as -> by (destruct fault as [|? []| | | |]; by injection Hobs).
  cbn [rbind]. rewrite Hset. unfold replay_or_admit. cbn [rbind].
  pose proof (prepare_command_from _ _ Hprep) as Hf. rewrite (from_id _ _ Hf).
  rewrite (represents_rows _ _ _ Hrep (proj1 Hty) Hp), (rep_frontier _ _ Hrep Hp). cbn [rbind].
  destruct (List.find _ log) as [e|] eqn:Hfind.
  - apply List.find_some in Hfind as [Hin%list_elem_of_In Hid%bool_decide_eq_true_1].
    pose proof (log_entries _ (rep_log _ _ Hrep)) as Hok. rewrite Forall_forall in Hok. specialize (Hok e Hin).
    rewrite (replay_rows _ _ _ _ _ _ _ Hok Hprep) by by symmetry.
    destruct (_ && _) eqn:Hsame; cbn [rbind]; intros [= <- <-]; [|by constructor].
    apply andb_true_iff in Hsame as [Hh%bool_decide_eq_true_1 _]. by eapply committed_replayed.
  - change (replay_outcome [] prepared) with (Ok (E := StoreError) (@None CommitOutcome)). cbn [rbind].
    destruct (check_condition w (log_frontier log) cond) as [[]|error] eqn:Hcond; cbn [rbind]; [|intros [= <- <-]; by constructor].
    destruct (JournalAdmission.apply_command _ _ _) as [s'|error] eqn:Happly; cbn [rbind]; [|intros [= <- <-]; by constructor].
    intros H. eapply append_command_cases; try done.
    intros (e & Hid & Hin)%list_elem_of_fmap.
    apply list_elem_of_In in Hin. apply (List.find_none _ _ Hfind) in Hin. apply bool_decide_eq_false_1 in Hin. by apply Hin.
Qed.

(** ** One commit, whatever fails and whatever the replay will say of it *)

(** A log whose replay is accepted opens, to a writer in the replayed state. *)
Lemma persists_opens w log s :
  persists w log -> apply_batches admission_default (entry_rows <$> log) = Ok s ->
  exists w', open (table w) = Ok w' /\ persists w' log /\ table w' = table w /\
    SqliteState.poisoned (sqlite w') = false /\ next_seq w' = (log_frontier log + 1)%N /\ admission_state w' = s.
Proof.
  intros Hper Hs.
  set (state := SqliteState.mk (table w) (log_frontier log) false).
  assert (Hrep : represents (mk state (next_seq w) s) log).
  { split; [by eapply persists_weaken; [exact Hper|done|pose proof (rep_bound _ _ Hper); cbn; lia]|done|eauto]. }
  destruct (represents_opens _ _ Hrep) as (w' & Ho & [Hper' _ _] & Ht & Hp & Hn & Ha). exists w'.
  split_and!; try done. by apply Ha.
Qed.

(** A table opens exactly when its log is replayed. *)
Lemma persists_open_inv w log w' :
  persists w log -> open (table w) = Ok w' ->
  apply_batches admission_default (entry_rows <$> log) = Ok (admission_state w') /\ persists w' log /\
  table w' = table w /\ SqliteState.poisoned (sqlite w') = false /\ next_seq w' = (log_frontier log + 1)%N.
Proof.
  intros Hper Ho. destruct (apply_batches admission_default (entry_rows <$> log)) as [s|error] eqn:Hs.
  - destruct (persists_opens _ _ _ Hper Hs) as (w1 & Ho1 & Hper1 & Ht & Hp & Hn & Ha). rewrite Ho in Ho1. injection Ho1 as <-.
    by rewrite Ha.
  - by rewrite (refused_log_closed _ _ error Hper Hs) in Ho.
Qed.

Inductive commit_persists (fault : PhysicalFault) w log (command : JournalCommand P) w'
  : result StoreError CommitOutcome -> Prop :=
| persisted_refused error : persists w' log -> commit_persists fault w log command w' (Err error)
| persisted_replayed e prepared :
    persists w' log -> e ∈ log -> cid e = JournalCommand.command_id command ->
    prepare_command command = Ok prepared ->
    PreparedCommand.command_hash prepared = PreparedCommand.command_hash (entry_prepared e) ->
    commit_persists fault w log command w' (Ok (outcome_of (cid e) (entry_first e) (entry_rows e) true))
| persisted_appended e :
    persists w' (log ++ [e]) -> entry_command e = command -> entry_first e = next_seq w ->
    commit_persists fault w log command w' (Ok (outcome_of (cid e) (entry_first e) (entry_rows e) false))
| persisted_unacknowledged e error :
    persists w' (log ++ [e]) -> entry_command e = command -> entry_first e = next_seq w ->
    fault = CommitLost true /\ error = StoreError.Io \/ fault = LockLost error ->
    commit_persists fault w log command w' (Err error).

Lemma append_command_persists fault w log command prepared t s' w' r :
  persists w log -> SqliteState.poisoned (sqlite w) = false -> command_typed command ->
  prepare_command command = Ok prepared ->
  JournalCommand.command_id command ∉ ((fun e => cid e) <$> log) ->
  append_command fault w prepared t s' = (w', r) ->
  commit_persists fault w log command w' r.
Proof.
  intros Hper Hp Hty Hprep Hnin. unfold append_command.
  destruct (reserve_range _ _) as [[first next]|error] eqn:Hr; [|intros [= <- <-]; by constructor].
  apply reserve_range_ok in Hr as (-> & -> & Hnext & Hcount).
  assert (Hburn : persists (set_next_seq w (next_seq w + PreparedCommand.event_count prepared)) log).
  { eapply persists_weaken; [exact Hper|done|cbn; lia]. }
  destruct (rows_for_append prepared (next_seq w) t) as [rows|error] eqn:Hrows; cbn [rbind];
    [|intros [= <- <-]; by constructor].
  assert (Hof : rows_of command prepared (next_seq w) t rows) by by split.
  destruct (rows_last _ _ _ _ _ Hof) as (z & Hz & Hzs). rewrite Hz. cbn [fmap option_fmap option_map ok_or rbind].
  assert (Hlen : PreparedCommand.event_count prepared = N.of_nat (length rows)).
  { rewrite (rows_length _ _ _ _ _ Hof). by apply from_count, prepare_command_from. }
  set (e := {| entry_command := command; entry_prepared := prepared; entry_first := next_seq w; entry_time := t; entry_rows := rows |}).
  assert (Happend : forall sqlite' s, insert_events (table w) rows = Ok (SqliteState.journal_events sqlite') ->
    persists (mk sqlite' (next_seq w + PreparedCommand.event_count prepared) s) (log ++ [e])).
  { intros sqlite' s Hins. rewrite Hlen in *. by eapply persists_append. }
  assert (Hsame : forall sqlite' s, SqliteState.journal_events sqlite' = table w ->
    persists (mk sqlite' (next_seq w + PreparedCommand.event_count prepared) s) log).
  { intros sqlite' s Hj. eapply persists_weaken; [exact Hper|done|cbn; lia]. }
  unfold SqliteState.append_command_rows, SqliteState.ensure_usable. cbn [set_next_seq sqlite]. rewrite Hp. cbn [guard].
  destruct fault as [|error detached|error| |persisted|error]; cbn [SqliteState.observe rbind];
    rewrite ?(rows_contiguous _ _ _ _ _ Hof); cbn [rbind].
  - destruct (insert_events _ _) as [table'|error] eqn:Hins; intros [= <- <-]; [|constructor; by apply Hsame].
    rewrite (from_id _ _ (prepare_command_from _ _ Hprep)).
    replace (CommitOutcome.mk _ _ _ _ _) with (outcome_of (JournalCommand.command_id command) (next_seq w) rows false).
    2:{ unfold outcome_of. f_equal. rewrite Hzs, (rows_length _ _ _ _ _ Hof). done. }
    apply (persisted_appended _ _ _ _ _ e); [|done..]. by apply Happend.
  - destruct detached; intros [= <- <-]; constructor; by apply Hsame.
  - intros [= <- <-]. constructor. by apply Hsame.
  - intros [= <- <-]. constructor. by apply Hsame.
  - destruct (insert_events _ _) as [table'|error] eqn:Hins; [|intros [= <- <-]; constructor; by apply Hsame].
    destruct persisted; intros [= <- <-]; [|constructor; by apply Hsame].
    apply (persisted_unacknowledged _ _ _ _ _ e); [|by auto..]. by apply Happend.
  - destruct (insert_events _ _) as [table'|error'] eqn:Hins; intros [= <- <-]; [|constructor; by apply Hsame].
    apply (persisted_unacknowledged _ _ _ _ _ e); [|by auto..]. by apply Happend.
Qed.

Lemma commit_persists_any fault w log command t cond w' r :
  persists w log -> command_typed command ->
  commit_inner fault w command t cond = (w', r) -> commit_persists fault w log command w' r.
Proof.
  intros Hper Hty. unfold commit_inner.
  destruct (check_command command t cond) as [prepared|error] eqn:Hc; [|intros [= <- <-]; by constructor].
  apply check_command_ok in Hc as (Hprep & _ & _).
  assert (Hsame : forall sqlite', SqliteState.journal_events sqlite' = table w -> persists (set_sqlite w sqlite') log).
  { intros sqlite' Hj. eapply persists_weaken; [exact Hper|done|pose proof (rep_bound _ _ Hper); cbn; lia]. }
  unfold SqliteState.stamp, SqliteState.ensure_usable.
  destruct (SqliteState.poisoned (sqlite w)) eqn:Hp; cbn [guard].
  { intros [= <- <-]. constructor. by apply Hsame. }
  destruct (SqliteState.observe fault (sqlite w)) as [sqlite' observed] eqn:Hobs.
  destruct observed as [[]|error].
  2:{ intros [= <- <-]. constructor. apply Hsame. by destruct fault as [|? []| | | |]; injection Hobs as <-. }
  assert (sqlite' = sqlite w) as -> by (destruct fault as [|? []| | | |]; by injection Hobs).
  cbn [rbind]. assert (set_sqlite w (sqlite w) = w) as -> by by destruct w.
  unfold replay_or_admit. cbn [rbind]. rewrite (from_id _ _ (prepare_command_from _ _ Hprep)).
  rewrite (represents_rows _ _ _ Hper (proj1 Hty) Hp). cbn [rbind].
  destruct (List.find _ log) as [e|] eqn:Hfind.
  - apply List.find_some in Hfind as [Hin%list_elem_of_In Hid%bool_decide_eq_true_1].
    pose proof (log_entries _ (rep_log _ _ Hper)) as Hok. rewrite Forall_forall in Hok.
    rewrite (replay_rows _ _ _ _ _ _ _ (Hok e Hin) Hprep) by by symmetry.
    destruct (_ && _) eqn:Hsm; cbn [rbind]; intros [= <- <-]; [|by constructor].
    apply andb_true_iff in Hsm as [Hh%bool_decide_eq_true_1 _]. by eapply persisted_replayed.
  - change (replay_outcome [] prepared) with (Ok (E := StoreError) (@None CommitOutcome)). cbn [rbind].
    destruct (check_condition _ _ _) as [[]|error]; cbn [rbind]; [|intros [= <- <-]; by constructor].
    destruct (JournalAdmission.apply_command _ _ _) as [s'|error]; cbn [rbind]; [|intros [= <- <-]; by constructor].
    intros H. eapply append_command_persists; try done.
    intros (e & Hid & Hin)%list_elem_of_fmap.
    apply list_elem_of_In in Hin. apply (List.find_none _ _ Hfind) in Hin. apply bool_decide_eq_false_1 in Hin. by apply Hin.
Qed.
End log.
