(* ===== verification/JournalWriterTheorems.v ===== *)
(** * What the journal promises

    Through any commits, failures and openings the table stays the rows of a log of
    commands that a new writer reads and replays; a command is recorded once,
    however often it is submitted and whatever acknowledgements are lost; and the
    two gaps: rows the admission accepts and the replay refuses. *)

From S2P Require Import Prelude Order Collections OrderedMap Text Canonical Ids Digests Journal Objects Attempt JournalRows JournalAdmission JournalWriter JournalLog.
Import JournalWriter.

Section runs.
Context {P : Type} `{L : UuidLib} `{ULaws : !UuidLaws L} `{SHA : Sha256} `{ShaLen : !Sha256Length}.
Context `{Pay : JournalPayloads P} `{PayLaws : !JournalPayloadLaws P Pay}.
Context `{Adm : JournalAdmission P} `{AdmLaws : !JournalAdmissionLaws P Adm}.
Implicit Types (w : JournalWriter P) (log : list (@entry P)).
Abbreviation cid e := (JournalCommand.command_id (entry_command e)).

(** What happens to the store of a writer: commits of any commands with any failure,
    and openings by a new writer. *)
Inductive step w : JournalWriter P -> Prop :=
| step_commit fault command t cond w' r :
    command_typed command -> commit_inner fault w command t cond = (w', r) -> step w w'
| step_open w' : open (table w) = Ok w' -> step w w'.

(** The commits whose command the replay accepts as the admission did, and at whose end
    the sibling lock still holds. *)
Inductive sound_step w : JournalWriter P -> Prop :=
| sound_commit fault command t cond w' r :
    command_typed command -> replays w command t -> (forall error, fault <> LockLost error) ->
    commit_inner fault w command t cond = (w', r) -> sound_step w w'
| sound_open w' : open (table w) = Ok w' -> sound_step w w'.

Lemma open_represents table' w :
  open table' = Ok w -> table w = table'.
Proof.
  unfold open. intros H. apply rbind_ok in H as (rows & _ & H). apply rbind_ok in H as ([] & _ & H).
  apply rbind_ok in H as (rows' & _ & H). apply rbind_ok in H as (s & _ & H). by apply rbind_ok in H as (n & _ & [= <-]).
Qed.

Lemma step_persists w w' log : persists w log -> step w w' -> exists log', persists w' log'.
Proof.
  intros Hper [fault command t cond w1 r Hty H|w1 H].
  - destruct (commit_persists_any _ _ _ _ _ _ _ _ Hper Hty H); eauto.
  - exists log. by apply (persists_open_inv w).
Qed.

Lemma step_represents w w' log : represents w log -> sound_step w w' -> exists log', represents w' log'.
Proof.
  intros Hrep [fault command t cond w1 r Hty Hr Hlock H|w1 H].
  - destruct (commit_cases _ _ _ _ _ _ _ _ Hrep Hty Hr Hlock H); eauto.
  - destruct (represents_opens _ _ Hrep) as (w2 & H2 & Hrep2 & _). rewrite H in H2. injection H2 as <-. eauto.
Qed.

Lemma fresh_represents w : open [] = Ok w -> represents w [].
Proof.
  unfold open, from_journal_rows. cbn. intros [= <-]. split; [split|..]; cbn; try done.
  - split; [done|constructor|constructor].
  - by intros row ?%elem_of_nil.
  - eauto.
Qed.

Lemma reachable_persists w0 w : open [] = Ok w0 -> rtc step w0 w -> exists log, persists w log.
Proof.
  intros H0 Hs. assert (exists log, persists w0 log) as [log Hper] by (exists []; by apply fresh_represents).
  clear H0. revert log Hper. induction Hs as [w|w w1 w2 Hs _ IH]; intros log Hper; [eauto|].
  destruct (step_persists _ _ _ Hper Hs) as (log' & Hper'). eauto.
Qed.

Lemma reachable_represents w0 w : open [] = Ok w0 -> rtc sound_step w0 w -> exists log, represents w log.
Proof.
  intros H0 Hs. assert (exists log, represents w0 log) as [log Hrep] by (exists []; by apply fresh_represents).
  clear H0. revert log Hrep. induction Hs as [w|w w1 w2 Hs _ IH]; intros log Hrep; [eauto|].
  destruct (step_represents _ _ _ Hrep Hs) as (log' & Hrep'). eauto.
Qed.

(** C2: whatever commits, failures (the loss of the sibling lock among them) and
    openings a store went through since it was empty, its table is a log of complete
    commands, each recorded once, read back in the order of their sequence numbers.  A
    new writer opens it exactly when the replay accepts the log, behind the last number
    and in the replayed state, and else fails as the replay does.  When of every
    command the replay accepts what the admission accepted, and no sibling lock was
    lost, it opens, in the admission state a usable writer has. *)
Theorem journal_reopens w0 w :
  open [] = Ok w0 -> rtc step w0 w ->
  (exists log, log_ok log /\ read_all_rows (table w) = Ok (log_rows log) /\
    match apply_batches admission_default (entry_rows <$> log) with
    | Ok s => exists w', open (table w) = Ok w' /\ next_seq w' = (log_frontier log + 1)%N /\ admission_state w' = s
    | Err error => open (table w) = Err error
    end) /\
  (rtc sound_step w0 w -> exists w', open (table w) = Ok w' /\
    (SqliteState.poisoned (sqlite w) = false -> admission_state w' = admission_state w)).
Proof.
  intros H0 Hs. split.
  - destruct (reachable_persists _ _ H0 Hs) as (log & Hper). exists log. split_and!; [by apply Hper| |].
    + rewrite (rep_table _ _ Hper). apply read_rows; [apply Hper|]. apply log_order, Hper.
    + destruct (apply_batches _ _) as [s|error] eqn:E; [|by eapply refused_log_closed].
      destruct (persists_opens _ _ _ Hper E) as (w' & Ho & _ & _ & _ & Hn & Ha). eauto.
  - intros Hsound. destruct (reachable_represents _ _ H0 Hsound) as (log & Hrep).
    destruct (represents_opens _ _ Hrep) as (w' & Ho & _ & _ & _ & _ & Ha). eauto.
Qed.

(** C13: every row of a reachable table is well typed: it decodes to a row whose
    hashes have 32 bytes, whose integers fit their columns and whose identifier is
    a version-7 one, and whose parameters are the row's columns again. *)
Theorem journal_typed w0 w :
  open [] = Ok w0 -> rtc step w0 w ->
  Forall (fun columns => exists row, journal_row_from_sql columns = Ok row /\ row_typed row /\ event_params row = columns) (table w).
Proof.
  intros H0 Hs. destruct (reachable_persists _ _ H0 Hs) as (log & Hrep).
  rewrite (rep_table _ _ Hrep). apply Forall_fmap. eapply Forall_impl; [exact (rep_typed _ _ Hrep)|].
  intros row Hrow. exists row. split_and!; [by apply row_round_trip|done..].
Qed.

(** A row that fits the types of its fields is read back from the columns it is
    inserted with. *)
Theorem journal_row_round_trip (row : JournalRow) :
  row_typed row -> journal_row_from_sql (event_params row) = Ok row.
Proof. apply row_round_trip. Qed.

(** ** Idempotence *)

Lemma commit_found w log command t cond prepared e :
  persists w log -> command_typed command -> SqliteState.poisoned (sqlite w) = false ->
  check_command command t cond = Ok prepared ->
  List.find (fun e => cid e ==? JournalCommand.command_id command) log = Some e ->
  commit_inner Steady w command t cond =
  (w, if (PreparedCommand.command_hash prepared ==? PreparedCommand.command_hash (entry_prepared e))
         && (PreparedCommand.event_count prepared =? PreparedCommand.event_count (entry_prepared e))%N
      then Ok (outcome_of (cid e) (entry_first e) (entry_rows e) true)
      else Err StoreError.IdempotencyConflict).
Proof.
  intros Hper Hty Hp Hc Hfind. unfold commit_inner. rewrite Hc. apply check_command_ok in Hc as (Hprep & _ & _).
  unfold SqliteState.stamp, SqliteState.ensure_usable. rewrite Hp. cbn [guard SqliteState.observe rbind].
  assert (set_sqlite w (sqlite w) = w) as -> by by destruct w.
  unfold replay_or_admit. cbn [rbind]. rewrite (from_id _ _ (prepare_command_from _ _ Hprep)).
  rewrite (represents_rows _ _ _ Hper (proj1 Hty) Hp), Hfind. cbn [rbind].
  apply List.find_some in Hfind as [Hin%list_elem_of_In Hid%bool_decide_eq_true_1].
  pose proof (log_entries _ (rep_log _ _ Hper)) as Hok. rewrite Forall_forall in Hok.
  rewrite (replay_rows _ _ _ _ _ _ _ (Hok e Hin) Hprep) by by symmetry. by destruct (_ && _).
Qed.

Lemma commit_checked w log command t cond prepared :
  represents w log -> command_typed command -> SqliteState.poisoned (sqlite w) = false ->
  check_command command t cond = Ok prepared ->
  commit_inner Steady w command t cond =
  match List.find (fun e => cid e ==? JournalCommand.command_id command) log with
  | Some e =>
      (w, if (PreparedCommand.command_hash prepared ==? PreparedCommand.command_hash (entry_prepared e))
             && (PreparedCommand.event_count prepared =? PreparedCommand.event_count (entry_prepared e))%N
          then Ok (outcome_of (cid e) (entry_first e) (entry_rows e) true)
          else Err StoreError.IdempotencyConflict)
  | None =>
      match (do? check_condition w (log_frontier log) cond in
             JournalAdmission.apply_command (admission_state w) command (next_seq w)) with
      | Ok next => append_command Steady w prepared t next
      | Err error => (w, Err error)
      end
  end.
Proof.
  intros Hrep Hty Hp Hc. destruct (List.find _ log) as [e|] eqn:Hfind; [by eapply commit_found; first apply Hrep|].
  unfold commit_inner. rewrite Hc. apply check_command_ok in Hc as (Hprep & _ & _).
  unfold SqliteState.stamp, SqliteState.ensure_usable. rewrite Hp. cbn [guard SqliteState.observe rbind].
  assert (set_sqlite w (sqlite w) = w) as -> by by destruct w.
  unfold replay_or_admit. cbn [rbind]. rewrite (from_id _ _ (prepare_command_from _ _ Hprep)).
  rewrite (represents_rows _ _ _ Hrep (proj1 Hty) Hp), (rep_frontier _ _ Hrep Hp), Hfind. cbn [rbind].
  change (replay_outcome [] prepared) with (Ok (E := StoreError) (@None CommitOutcome)). cbn [rbind].
  destruct (check_condition w (log_frontier log) cond) as [[]|error]; cbn [rbind]; [|done].
  by destruct (JournalAdmission.apply_command _ _ _).
Qed.

(** C11: on a usable handle whose checks pass, the same command is answered with the
    numbers and event identifiers of its first recording, ahead of every condition;
    another command under its identifier is an idempotency conflict; either way
    nothing changes.  A new identifier goes through the condition and the admission,
    and is appended. *)
Theorem commit_idempotent w log command t cond prepared :
  represents w log -> command_typed command -> SqliteState.poisoned (sqlite w) = false ->
  check_command command t cond = Ok prepared ->
  commit_inner Steady w command t cond =
  match List.find (fun e => cid e ==? JournalCommand.command_id command) log with
  | Some e =>
      (w, if (PreparedCommand.command_hash prepared ==? PreparedCommand.command_hash (entry_prepared e))
             && (PreparedCommand.event_count prepared =? PreparedCommand.event_count (entry_prepared e))%N
          then Ok (outcome_of (cid e) (entry_first e) (entry_rows e) true)
          else Err StoreError.IdempotencyConflict)
  | None =>
      match (do? check_condition w (log_frontier log) cond in
             JournalAdmission.apply_command (admission_state w) command (next_seq w)) with
      | Ok next => append_command Steady w prepared t next
      | Err error => (w, Err error)
      end
  end.
Proof. apply commit_checked. Qed.

(** The specification: a ledger of the commands recorded, each with its outcome. *)
Record recorded := record { recorded_command : JournalCommand P; recorded_hash : list byte; recorded_outcome : CommitOutcome }.
Definition recorded_of (e : @entry P) : recorded :=
  record (entry_command e) (PreparedCommand.command_hash (entry_prepared e))
    (outcome_of (cid e) (entry_first e) (entry_rows e) false).
Definition ledger_of log : list recorded := recorded_of <$> log.

Definition as_replayed (outcome : CommitOutcome) : CommitOutcome :=
  CommitOutcome.mk (CommitOutcome.command_id outcome) (CommitOutcome.first_seq outcome) (CommitOutcome.last_seq outcome)
    (CommitOutcome.event_ids outcome) true.

Inductive spec_step (ledger : list recorded) (command : JournalCommand P) : result StoreError CommitOutcome -> list recorded -> Prop :=
| spec_refuse error : spec_step ledger command (Err error) ledger
| spec_replay r prepared : r ∈ ledger ->
    JournalCommand.command_id (recorded_command r) = JournalCommand.command_id command ->
    prepare_command command = Ok prepared -> PreparedCommand.command_hash prepared = recorded_hash r ->
    spec_step ledger command (Ok (as_replayed (recorded_outcome r))) ledger
| spec_append r : recorded_command r = command ->
    Forall (fun r' => JournalCommand.command_id (recorded_command r') <> JournalCommand.command_id command /\
      (CommitOutcome.last_seq (recorded_outcome r') < CommitOutcome.first_seq (recorded_outcome r))%N) ledger ->
    spec_step ledger command (Ok (recorded_outcome r)) (ledger ++ [r])
(** An append may end without an acknowledgement. *)
| spec_lost r error : recorded_command r = command ->
    Forall (fun r' => JournalCommand.command_id (recorded_command r') <> JournalCommand.command_id command /\
      (CommitOutcome.last_seq (recorded_outcome r') < CommitOutcome.first_seq (recorded_outcome r))%N) ledger ->
    spec_step ledger command (Err error) (ledger ++ [r]).

Lemma snoc_behind log e :
  log_ok (log ++ [e]) ->
  Forall (fun r' => JournalCommand.command_id (recorded_command r') <> cid e /\
    (CommitOutcome.last_seq (recorded_outcome r') < entry_first e)%N) (ledger_of log).
Proof.
  intros [Hok Hn Hs]. rewrite Forall_app, Forall_singleton in Hok. destruct Hok as [Hok He]. apply Forall_fmap, Forall_forall. intros e' Hin. cbn.
  rewrite fmap_app in Hn. apply NoDup_app in Hn as (_ & Hn & _). rewrite Forall_forall in Hok. specialize (Hok e' Hin). split.
  - intros E. apply (Hn (cid e')); [by apply (list_elem_of_fmap_2 (fun e => cid e))|]. rewrite E. by left.
  - rewrite log_rows_snoc in Hs. apply increasing_app in Hs as (_ & _ & Hs).
    destruct (rows_last _ _ _ _ _ Hok) as (z & Hz & Hzs), (rows_head _ _ _ _ _ He) as (h & Hh & <-).
    rewrite (rows_length _ _ _ _ _ Hok), <-Hzs. apply Hs; [|by apply head_Some_elem_of].
    apply list_elem_of_bind. exists e'. split; [by apply last_Some_elem_of|done].
Qed.

(** C10: a commit, whatever fails in it and whatever the replay will say of its command,
    is a step of the ledger: refused, answered from the ledger, or appended behind
    every command recorded before, under an identifier none of them has; the append may
    end without an acknowledgement, and does only when the outcome of the transaction
    was uncertain or the sibling lock was lost. *)
Theorem commit_refines_ledger fault w log command t cond w' r :
  persists w log -> command_typed command -> commit_inner fault w command t cond = (w', r) ->
  exists log', persists w' log' /\ spec_step (ledger_of log) command r (ledger_of log') /\
    (forall error, r = Err error -> fault <> CommitLost true -> fault <> LockLost error -> log' = log).
Proof.
  intros Hper Hty H. destruct (commit_persists_any _ _ _ _ _ _ _ _ Hper Hty H)
    as [error Hper'|e prepared Hper' Hin Hid Hp Hh|e Hper' He _|e error Hper' He _ Hf].
  - exists log. split_and!; [done|constructor|done].
  - exists log. split_and!; [done| |done]. apply (spec_replay _ _ (recorded_of e) prepared); [|done..]. apply list_elem_of_fmap. eauto.
  - exists (log ++ [e]). split_and!; [done| |done]. unfold ledger_of. rewrite fmap_app. apply (spec_append _ _ (recorded_of e)); [done|]. subst command.
    apply snoc_behind, Hper'.
  - exists (log ++ [e]). split_and!; [done| |].
    + unfold ledger_of. rewrite fmap_app. apply (spec_lost _ _ (recorded_of e)); [done|]. subst command. apply snoc_behind, Hper'.
    + intros ? [= <-]. by destruct Hf as [[-> _]| ->].
Qed.

(** ** Lost acknowledgements *)

Lemma replayed_outcome w live command prepared cond o :
  replay_or_admit w live command prepared cond = Ok (inl o) -> CommitOutcome.replayed o = false -> False.
Proof.
  intros Hr Hrep. unfold replay_or_admit in Hr. apply rbind_ok in Hr as (frontier & _ & Hr).
  apply rbind_ok in Hr as (existing & _ & Hr). apply rbind_ok in Hr as (replayed & Ho & Hr).
  destruct replayed as [o'|]; [|apply rbind_ok in Hr as ([] & _ & Hr); by apply rbind_ok in Hr as (? & _ & ?)].
  injection Hr as ->. unfold replay_outcome in Ho. destruct (is_empty existing); [done|].
  repeat (apply rbind_ok in Ho as (? & _ & Ho)). by injection Ho as <-.
Qed.

(** The same append, uncertain. *)
Lemma commit_lost persisted w command t cond w1 outcome :
  commit_inner Steady w command t cond = (w1, Ok outcome) -> CommitOutcome.replayed outcome = false ->
  commit_inner (CommitLost persisted) w command t cond
  = (mk (SqliteState.mk (if persisted then table w1 else table w) (SqliteState.frontier (sqlite w)) true)
       (next_seq w1) (admission_state w), Err StoreError.Io).
Proof.
  unfold commit_inner. destruct (check_command _ _ _) as [prepared|]; [|done].
  unfold SqliteState.stamp. destruct (SqliteState.ensure_usable (sqlite w)) as [[]|] eqn:Hu; [|done].
  cbn [SqliteState.observe rbind]. assert (set_sqlite w (sqlite w) = w) as -> by by destruct w.
  destruct (replay_or_admit _ _ _ _ _) as [[o|s]|] eqn:Hr; [..|done].
  { intros [= <- <-] Hrep. exfalso. by eapply replayed_outcome. }
  intros H _. unfold append_command in *. destruct (reserve_range _ _) as [[first next]|]; [|done].
  destruct (rbind _ _) as [[rows last_seq]|]; [|done]. unfold SqliteState.append_command_rows in *.
  cbn [set_next_seq sqlite] in *. rewrite Hu in *. cbn [SqliteState.observe rbind] in *.
  destruct (SqliteState.contiguous rows) as [z|]; [|done].
  destruct (insert_events _ _) as [table'|]; [|done]. injection H as <- <-. by destruct persisted.
Qed.

(** The same writer again. *)
Lemma reopened_same w log w3 :
  represents w log -> SqliteState.poisoned (sqlite w) = false -> next_seq w = (SqliteState.frontier (sqlite w) + 1)%N ->
  open (table w) = Ok w3 -> w3 = w.
Proof.
  intros Hrep Hp Htight Ho'.
  destruct (represents_opens _ _ Hrep) as (w4 & Ho & Hrep3 & Ht3 & Hp3 & Hn3 & Ha3). specialize (Ha3 Hp).
  rewrite Ho in Ho'. injection Ho' as <-.
  destruct w as [[tab fr po] ns ad], w4 as [[tab3 fr3 po3] ns3 ad3]. cbn in *. subst.
  pose proof (rep_frontier _ _ Hrep eq_refl) as E1. pose proof (rep_frontier _ _ Hrep3 eq_refl) as E3. cbn in *. by subst.
Qed.
Lemma commit_usable w command t cond w1 outcome :
  commit_inner Steady w command t cond = (w1, Ok outcome) -> SqliteState.poisoned (sqlite w) = false.
Proof.
  intros H. destruct (SqliteState.poisoned (sqlite w)) eqn:Hp; [|done]. exfalso. revert H. unfold commit_inner.
  destruct (check_command _ _ _); [|done]. unfold SqliteState.stamp, SqliteState.ensure_usable. by rewrite Hp.
Qed.

(** A writer opened on the table after an append answers the command from it. *)
Lemma resubmitted w log command t cond w1 outcome w3 :
  persists w log -> command_typed command ->
  commit_inner Steady w command t cond = (w1, Ok outcome) -> CommitOutcome.replayed outcome = false ->
  open (table w1) = Ok w3 ->
  commit_inner Steady w3 command t cond
  = (w3, Ok (CommitOutcome.mk (CommitOutcome.command_id outcome) (CommitOutcome.first_seq outcome)
               (CommitOutcome.last_seq outcome) (CommitOutcome.event_ids outcome) true)) /\ table w3 = table w1.
Proof.
  intros Hper Hty H Hnew Ho. pose proof (commit_persists_any _ _ _ _ _ _ _ _ Hper Hty H) as Hc.
  inversion Hc as [|? ? ? ? ? ? ? Ho'|e Hper1 He Hf Ho'|]; subst; try done.
  destruct (persists_open_inv _ _ _ Hper1 Ho) as (_ & Hper3 & Ht3 & Hp3 & _). split; [|done].
  assert (exists prepared, check_command (entry_command e) t cond = Ok prepared) as [prepared Hck].
  { revert H. unfold commit_inner. destruct (check_command _ _ _); [eauto|done]. }
  assert (Hin : e ∈ log ++ [e]) by (apply elem_of_app; right; by left).
  rewrite (commit_found _ _ _ _ _ _ e Hper3 Hty Hp3 Hck) by by apply (log_find _ _ (rep_log _ _ Hper1) Hin).
  pose proof (log_entries _ (rep_log _ _ Hper1)) as Hok. rewrite Forall_forall in Hok. specialize (Hok e Hin).
  apply check_command_ok in Hck as (Hck & _). pose proof (proj1 Hok) as Hpe. rewrite Hck in Hpe. injection Hpe as ->.
  by rewrite bool_decide_eq_true_2, N.eqb_refl by done.
Qed.

(** C1: a lost acknowledgement can be recovered.  Take a writer in step with its table,
    as every writer is that opened it.  If a commit would have been acknowledged and
    instead its outcome is uncertain, then, whether its rows were persisted or not,
    every writer that opens the store afterwards acknowledges the command when it is
    submitted again, with the same sequence numbers and event identifiers, and leaves
    the table of an undisturbed commit.  (Where the rows were not persisted, the numbers
    are the same if no earlier failed commit had used up numbers of the lost writer.)
    The store does open if the rows were not persisted, or if the replay accepts the
    command as its admission did. *)
Theorem lost_acknowledgement persisted w log command t cond w1 outcome :
  represents w log -> command_typed command ->
  (persisted = false -> next_seq w = (SqliteState.frontier (sqlite w) + 1)%N) ->
  commit_inner Steady w command t cond = (w1, Ok outcome) -> CommitOutcome.replayed outcome = false ->
  exists w2,
    commit_inner (CommitLost persisted) w command t cond = (w2, Err StoreError.Io) /\
    (persisted = false \/ replays w command t -> exists w3, open (table w2) = Ok w3) /\
    forall w3, open (table w2) = Ok w3 ->
      exists w4,
        commit_inner Steady w3 command t cond
        = (w4, Ok (CommitOutcome.mk (CommitOutcome.command_id outcome) (CommitOutcome.first_seq outcome)
                     (CommitOutcome.last_seq outcome) (CommitOutcome.event_ids outcome) persisted)) /\
        table w4 = table w1.
Proof.
  intros Hrep Hty Htight H Hnew. rewrite (commit_lost persisted _ _ _ _ _ _ H Hnew).
  eexists. split; [reflexivity|]. destruct persisted; split.
  - intros [|Hr]; [done|]. assert (Hs : forall error, Steady <> LockLost error) by done.
    pose proof (commit_cases _ _ _ _ _ _ _ _ Hrep Hty Hr Hs H) as Hc.
    inversion Hc as [|? ? ? ? ? ? ? ? Ho|e Hrep1 He Hf Hp1 Hcond Ho|]; subst; try done.
    destruct (represents_opens _ _ Hrep1) as (w3 & Ho & _). by exists w3.
  - intros w3 Ho. exists w3. exact (resubmitted w log command t cond w1 outcome w3 Hrep Hty H Hnew Ho).
  - intros _. destruct (represents_opens _ _ Hrep) as (w3 & Ho & _). by exists w3.
  - intros w3 Ho. assert (w3 = w) as ->.
    { eapply reopened_same; [exact Hrep|by eapply commit_usable|by apply Htight|exact Ho]. }
    exists w1. split; [|done]. rewrite H. destruct outcome. cbn in *. by subst.
Qed.

(** ** Conditions *)

(** A conditional commit is a compare-and-append: when it appends, the journal
    held nothing beyond the frontier the caller had read, whose rows are still there
    in front of the new ones, all of them behind it. *)
Theorem frontier_compare_and_append fault w log command t expected w' outcome :
  represents w log -> command_typed command -> replays w command t -> (forall error, fault <> LockLost error) ->
  commit_if_frontier fault w command t expected = (w', Ok outcome) -> CommitOutcome.replayed outcome = false ->
  exists rows, table w' = table w ++ (event_params <$> rows) /\
    Forall (fun row => (JournalRow.seq row <= expected)%N) (log_rows log) /\ log_frontier log = expected /\
    Forall (fun row => (expected < CommitOutcome.first_seq outcome <= JournalRow.seq row)%N) rows /\
    CommitOutcome.event_ids outcome = JournalRow.event_id <$> rows.
Proof.
  intros Hrep Hty Hr Hlock H Hnew. unfold commit_if_frontier in H.
  pose proof (commit_cases _ _ _ _ _ _ _ _ Hrep Hty Hr Hlock H) as Hc.
  inversion Hc as [|? ? ? ? ? ? ? ? Ho|e Hrep1 He Hf Hp1 Hcond Ho|]; subst; try done.
  cbn in Hcond. apply guard_ok, negb_false_iff, N.eqb_eq in Hcond. subst expected. exists (entry_rows e).
  pose proof (rep_table _ _ Hrep1) as Ht. rewrite log_rows_snoc, fmap_app, <-(rep_table _ _ Hrep) in Ht.
  pose proof (log_entries _ (rep_log _ _ Hrep1)) as He. rewrite Forall_app, Forall_singleton in He. destruct He as [_ He].
  split_and!; try done.
  - pose proof (log_order _ (rep_log _ _ Hrep)) as Ho. unfold log_frontier. clear -Ho.
    destruct (log_rows log) as [|x l _] using rev_ind; [constructor|]. rewrite last_snoc. apply Forall_app.
    apply increasing_app in Ho as (_ & _ & Ho). split; [|by apply Forall_singleton]. apply Forall_forall. intros y Hy.
    specialize (Ho y x Hy ltac:(by left)). lia.
  - apply Forall_forall. intros row Hrow. cbn. destruct (rows_range _ _ _ _ _ He row Hrow) as [Hrange _]. split; [|lia].
    rewrite Hf. unfold log_frontier. destruct (last (log_rows log)) as [z|] eqn:Hz.
    + apply last_Some_elem_of in Hz. by apply (rep_next _ _ Hrep).
    + by apply (rep_bound _ _ Hrep).
Qed.

(** ** Reading back *)

(** A usable handle reads back, under an identifier, the payloads and event
    identifiers of the command recorded under it, and nothing under any other; it
    neither fails nor panics. *)
Theorem committed_command_reads w log id :
  represents w log -> command_id_ok id -> SqliteState.poisoned (sqlite w) = false ->
  committed_command w id =
  Ok ((fun e => CommittedCommand.mk (cid e) (JournalRow.event_id <$> entry_rows e) (payloads (entry_command e)))
        <$> List.find (fun e => cid e ==? id) log).
Proof.
  intros Hrep Hid Hp. unfold committed_command. rewrite (represents_rows _ _ _ Hrep Hid Hp). cbn [map_err rbind].
  destruct (List.find _ log) as [e|] eqn:Hfind; [|done]. apply List.find_some in Hfind as [Hin%list_elem_of_In _].
  pose proof (log_entries _ (rep_log _ _ Hrep)) as Hok. rewrite Forall_forall in Hok. specialize (Hok e Hin).
  destruct (rows_head _ _ _ _ _ Hok) as (h & Hh & _).
  assert (is_empty (entry_rows e) = false) as -> by (apply is_empty_false; intros E; by rewrite E in Hh).
  by rewrite (decode_rows _ _ _ _ _ Hok).
Qed.

(** ** Rows the replay refuses *)

(** An acknowledged append, as the log sees it. *)
Lemma commit_appended w log command t cond w' outcome :
  persists w log -> command_typed command -> commit_inner Steady w command t cond = (w', Ok outcome) ->
  CommitOutcome.replayed outcome = false ->
  exists prepared rows, rows_of command prepared (next_seq w) t rows /\ prepare_command command = Ok prepared /\
    any (fun event => JournalEventDraft.algorithm_revision P event ==? LEDGER_REVISION) (JournalCommand.events command) = false /\
    JournalAdmission.apply_command (admission_state w) command (next_seq w) = Ok (admission_state w') /\
    persists w' (log ++ [{| entry_command := command; entry_prepared := prepared; entry_first := next_seq w;
                            entry_time := t; entry_rows := rows |}]).
Proof.
  intros Hper Hty H Hnew. unfold commit_inner in H.
  destruct (check_command command t cond) as [prepared|] eqn:Hc; [|done]. apply check_command_ok in Hc as (Hprep & _ & Hled).
  unfold SqliteState.stamp, SqliteState.ensure_usable in H.
  destruct (SqliteState.poisoned (sqlite w)) eqn:Hp; [done|]. cbn [guard SqliteState.observe rbind] in H.
  assert (E : set_sqlite w (sqlite w) = w) by by destruct w. rewrite E in H. clear E.
  unfold replay_or_admit in H. cbn [rbind] in H. rewrite (from_id _ _ (prepare_command_from _ _ Hprep)) in H.
  rewrite (represents_rows _ _ _ Hper (proj1 Hty) Hp) in H. cbn [rbind] in H.
  destruct (List.find _ log) as [e|] eqn:Hfind.
  { apply List.find_some in Hfind as [Hin%list_elem_of_In Hid%bool_decide_eq_true_1].
    pose proof (log_entries _ (rep_log _ _ Hper)) as Hok. rewrite Forall_forall in Hok.
    rewrite (replay_rows _ _ _ _ _ _ _ (Hok e Hin) Hprep) in H by by symmetry.
    destruct (_ && _); [|done]. cbn in H. by injection H as <- <-. }
  change (replay_outcome [] prepared) with (Ok (E := StoreError) (@None CommitOutcome)) in H. cbn [rbind] in H.
  destruct (check_condition _ _ _); [|done]. cbn [rbind] in H.
  destruct (JournalAdmission.apply_command _ _ _) as [s'|] eqn:Happly; [|done]. cbn [rbind] in H.
  unfold append_command in H. destruct (reserve_range _ _) as [[first next]|] eqn:Hr; [|done].
  apply reserve_range_ok in Hr as (-> & -> & Hnext & _).
  destruct (rows_for_append prepared (next_seq w) t) as [rows|] eqn:Hrows; [|done]. cbn [rbind] in H.
  assert (Hof : rows_of command prepared (next_seq w) t rows) by by split.
  destruct (rows_last _ _ _ _ _ Hof) as (z & Hz & _). rewrite Hz in H. cbn [fmap option_fmap option_map ok_or rbind] in H.
  unfold SqliteState.append_command_rows, SqliteState.ensure_usable in H. cbn [set_next_seq sqlite] in H. rewrite Hp in H.
  cbn [guard SqliteState.observe rbind] in H. rewrite (rows_contiguous _ _ _ _ _ Hof) in H.
  destruct (insert_events _ rows) as [table'|] eqn:Hins; [|done]. injection H as <- _. exists prepared, rows.
  split_and!; try done.
  assert (Hlen : PreparedCommand.event_count prepared = N.of_nat (length rows)).
  { rewrite (rows_length _ _ _ _ _ Hof). by apply from_count, prepare_command_from. }
  rewrite Hlen in *. eapply persists_append; try done.
  intros (e & Hid & Hin)%list_elem_of_fmap. apply list_elem_of_In in Hin. apply (List.find_none _ _ Hfind) in Hin.
  apply bool_decide_eq_false_1 in Hin. by apply Hin.
Qed.

(** C33: the loss of the sibling lock after the transaction leaves the rows in the
    table and the admission state without them.  A later command which that stale
    state admits is acknowledged; if the replay refuses it, no writer opens the
    store again. *)
Theorem lock_lost_diverges w log c1 t1 cond w1 o1 error c2 t2 w3 o2 refusal :
  represents w log -> command_typed c1 -> command_typed c2 -> replays w c1 t1 ->
  commit_inner Steady w c1 t1 cond = (w1, Ok o1) -> CommitOutcome.replayed o1 = false ->
  commit_inner Steady (set_admission w1 (admission_state w)) c2 t2 None = (w3, Ok o2) ->
  CommitOutcome.replayed o2 = false ->
  (forall prepared rows, rows_of c2 prepared (next_seq w1) t2 rows -> apply_row_batch (admission_state w1) rows = Err refusal) ->
  commit_inner (LockLost error) w c1 t1 cond = (set_admission w1 (admission_state w), Err error) /\
  open (table w3) = Err refusal.
Proof.
  intros Hrep Hty1 Hty2 Hr H1 Hn1 H2 Hn2 Hrefuse. split.
  - clear -H1 Hn1. revert H1 Hn1. unfold commit_inner. destruct (check_command _ _ _) as [prepared|]; [|done].
    unfold SqliteState.stamp. destruct (SqliteState.ensure_usable (sqlite w)) as [[]|] eqn:Hu; [|done].
    cbn [SqliteState.observe rbind]. assert (set_sqlite w (sqlite w) = w) as -> by by destruct w.
    destruct (replay_or_admit _ _ _ _ _) as [[o|s]|] eqn:Hr; [..|done].
    { intros [= <- <-] Hrep. exfalso. by eapply replayed_outcome. }
    unfold append_command. destruct (reserve_range _ _) as [[first next]|]; [|done].
    destruct (rbind _ _) as [[rows last_seq]|]; [|done]. unfold SqliteState.append_command_rows.
    cbn [set_next_seq sqlite]. rewrite Hu. cbn [SqliteState.observe rbind].
    destruct (SqliteState.contiguous rows) as [z|]; [|done].
    destruct (insert_events _ _) as [table'|]; [|done]. by intros [= <- <-] _.
  - assert (Hs : forall error, Steady <> LockLost error) by done.
    pose proof (commit_cases _ _ _ _ _ _ _ _ Hrep Hty1 Hr Hs H1) as Hc.
    inversion Hc as [|? ? ? ? ? ? ? ? Ho|e Hrep1 He Hf Hp1 Hcond Ho|]; subst; try done.
    assert (Hper : persists (set_admission w1 (admission_state w)) (log ++ [e])) by (destruct Hrep1 as [[] _ _]; by split).
    destruct (commit_appended _ _ _ _ _ _ _ Hper Hty2 H2 Hn2) as (prepared & rows & Hof & _ & _ & _ & Hper3).
    apply (refused_log_closed _ _ _ Hper3). destruct (rep_admission _ _ Hrep1) as (s & Hs1 & Ha). specialize (Ha Hp1). subst s.
    rewrite fmap_app, (apply_batches_app _ _ _ _ Hs1). cbn. by rewrite (Hrefuse prepared rows).
Qed.
End runs.

(** ** The reducer of the store *)

Section parts.
Context {P : Type} `{L : UuidLib} `{ULaws : !UuidLaws L} `{SHA : Sha256} `{ShaLen : !Sha256Length}.
Context `{Pay : JournalPayloads P} `{PayLaws : !JournalPayloadLaws P Pay}.
Context `{Parts : AdmissionParts P} `{PartsLaws : !AdmissionPartsLaws P Parts}.
#[local] Existing Instance JournalAdmissionState.parts_admission.
#[local] Existing Instance parts_admission_laws.

(** C12: with the reducer of the store, a store whose commit was acknowledged opens
    again exactly when the source watermarks of the command pass the checks which
    only the replay makes: the admission of a live command does not make them. *)
Theorem acknowledged_then_opens (w : JournalWriter P) (log : list (@entry P)) command t cond w' outcome :
  represents w log -> command_typed command -> commit_inner Steady w command t cond = (w', Ok outcome) ->
  CommitOutcome.replayed outcome = false ->
  (exists w'', open (table w') = Ok w'') <->
  (forall prepared rows, rows_of command prepared (next_seq w) t rows -> parts_replayable (admission_state w) command rows).
Proof.
  intros Hrep Hty H Hnew.
  destruct (commit_appended _ _ _ _ _ _ _ Hrep Hty H Hnew) as (prepared & rows & Hof & Hprep & Hled & Happly & Hper).
  destruct (rep_admission _ _ Hrep) as (s & Hs & Ha).
  assert (Hp : SqliteState.poisoned (sqlite w) = false).
  { destruct (SqliteState.poisoned (sqlite w)) eqn:Hp; [|done]. exfalso. revert H. unfold commit_inner.
    destruct (check_command _ _ _); [|done]. unfold SqliteState.stamp, SqliteState.ensure_usable. by rewrite Hp. }
  specialize (Ha Hp). subst s. split.
  - intros [w'' Ho] prepared' rows' [Hp' Hr']. rewrite Hprep in Hp'. injection Hp' as <-.
    rewrite (proj2 Hof) in Hr'. injection Hr' as <-.
    destruct (apply_row_batch (admission_state w) rows) as [s'|error] eqn:Hb.
    + by eapply (rows_replayed _ _ _ _ _ Hof _ _ Hled).
    + exfalso. rewrite (refused_log_closed _ _ error Hper) in Ho; [done|].
      rewrite fmap_app, (apply_batches_app _ _ _ _ Hs). cbn [fmap list_fmap apply_batches entry_rows]. by rewrite Hb.
  - intros Hall. assert (Hr : replays w command t) by (intros p r Hpr; by apply (Hall p r Hpr)).
    assert (Hst : forall error, Steady <> LockLost error) by done.
    pose proof (commit_cases _ _ _ _ _ _ _ _ Hrep Hty Hr Hst H) as Hc.
    inversion Hc as [|? ? ? ? ? ? ? ? Ho|e Hrep1 He Hf Hp1 Hcond Ho|]; subst; try done.
    destruct (represents_opens _ _ Hrep1) as (w2 & Ho2 & _). eauto.
Qed.
End parts.

(** ** A store of notes *)

Module Notes.

(** A payload is a note; a note is recorded once; the watermark of a source is one
    the replay refuses. *)
#[export] Instance notes : JournalPayloads string := {|
  event_type _ := "note_recorded_v1"%string;
  record_class _ := RecordClass.ObjectEvent;
  validate_payload _ := Ok tt;
  payload_canonical note := CString note;
  canonical_json note := Ok note;
  payload_from_json json := Some json;
  outbox_enqueued _ := None;
  dirty_target _ := None;
  validate_cohort _ := Ok tt;
|}.
#[export] Instance notes_laws : JournalPayloadLaws string notes.
Proof. split. intros p s [= <-]. done. Qed.

#[export] Instance digest : Sha256 := fun bytes => take 32 (rev bytes ++ replicate 32 Byte.x00).
#[export] Instance digest_length : Sha256Length.
Proof. intros b. unfold sha256_digest, digest. rewrite length_take, length_app, length_replicate. lia. Qed.

#[export] Instance parts : AdmissionParts string := {|
  PartState := list string;
  part_default := [];
  frontier _ := 0%N;
  with_frontier s _ := s;
  validate_procedure_coverage _ _ _ _ := Ok tt;
  validate_inventory _ _ _ := Ok tt;
  validate_job_command _ _ := Ok tt;
  validate_object_deletion_payloads _ _ _ := Ok tt;
  RepositoryClosureKeys := RepositoryId;
  closure_repository_id id := Some id;
  insert_closure s _ _ := s;
  validate_scope_purge_payloads _ _ _ := Ok None;
  validate_transition_pairs _ _ := Ok tt;
  validate_episode_binding_activation _ _ := Ok tt;
  validate_competing_selected_command _ _ := Ok tt;
  validate_mark_new_attempt_command _ _ := Ok tt;
  validate_procedure_usage_command _ _ := Ok tt;
  validate_controlled_command _ _ _ := Ok tt;
  validate_non_resurrection_command _ _ _ := Ok tt;
  AcceptedEdits := unit;
  validate_command_boundary _ _ _ := Ok tt;
  validate_command_cohort _ _ _ := Ok tt;
  validate_synthesis _ _ := Ok tt;
  validate_repository_payloads _ := Ok tt;
  apply_payload s note _ := do? guard (contains note s) StoreError.StoreCorrupt in Ok (note :: s);
  validate_relations _ := Ok tt;
  source_ingest_watermark note := note ==? "watermark"%string;
  validate_source_ingest_watermark_admission _ _ _ := Err StoreError.StoreCorrupt;
  ledger_payload _ := false;
  import_restore s _ _ := Ok s;
  PartGuard := unit;
  part_command_matches _ _ := true;
  part_guard_matches _ _ := Ok true;
|}.
#[export] Instance parts_laws : AdmissionPartsLaws string parts.
Proof. by split. Qed.
#[export] Existing Instance JournalAdmissionState.parts_admission.
#[export] Existing Instance parts_admission_laws.

Definition config : list byte := replicate 32 Byte.x00.
Definition command (n : N) (notes : list string) : JournalCommand string :=
  JournalCommand.mk (mk_iid (mk_uuid (0x0190a3b17c2d7e4f8a9b0c1d2e3f4000 + n)))
    (JournalEventDraft.runtime 5 config "notes_v1" <$> notes).

Definition get {E A} (d : A) (m : result E A) : A := match m with Ok a => a | Err _ => d end.

(** What there is of a writer. *)
Definition view (w : JournalWriter string) : SqliteState * N * list string := (sqlite w, next_seq w, admission_state w).
Lemma view_inj w w' : view w = view w' -> w = w'.
Proof. destruct w, w'. by intros [= -> -> ->]. Qed.
Definition writer (v : SqliteState * N * list string) : JournalWriter string := mk v.1.1 v.1.2 (v.2 : AdmissionState string).
Definition run_view (run : JournalWriter string * result StoreError CommitOutcome) := (view run.1, run.2).
Lemma run_eq run w r : run_view run = (view w, r) -> run = (w, r).
Proof. destruct run as [w1 r1]. intros [= H1 H2 H3 ->]. f_equal. apply view_inj. unfold view. congruence. Qed.
Lemma open_eq table w : (let? w := open table in Ok (view w)) = Ok (view w) -> open table = Ok w.
Proof. destruct (open table) as [w1|]; [|done]. intros [= H1 H2 H3]. f_equal. apply view_inj. unfold view. congruence. Qed.

Definition empty_store : JournalWriter string := mk (SqliteState.mk [] 0 false) 1 ([] : list string).

(** Two commands; the store after each. *)
Definition first := command 1 ["note one"; "note two"].
Definition second := command 2 ["note three"].
Definition run1 := Eval vm_compute in run_view (commit Steady empty_store first 7).
Definition store1 : JournalWriter string := writer run1.1.
Lemma committed1 : commit Steady empty_store first 7 = (store1, run1.2).
Proof. apply run_eq. vm_compute. reflexivity. Qed.

Lemma opened : open [] = Ok empty_store.
Proof. apply open_eq. vm_compute. reflexivity. Qed.
Lemma empty_represents : represents empty_store [].
Proof. apply fresh_represents, opened. Qed.
Lemma first_typed : command_typed first.
Proof. split; [split; vm_compute; reflexivity|]. repeat constructor. Qed.
Lemma second_typed : command_typed second.
Proof. split; [split; vm_compute; reflexivity|]. repeat constructor. Qed.
Lemma plain (w : JournalWriter string) n notes t : contains "watermark"%string notes = false -> replays w (command n notes) t.
Proof.
  intros Hn prepared rows _.
  change (watermarks_pass (admission_state w : list string) (zip (payloads (command n notes)) (JournalRow.seq <$> rows)) rows).
  assert (payloads (command n notes) = notes) as ->     by (clear; unfold payloads, command; cbn; rewrite <-list_fmap_compose; apply list_fmap_id).
  generalize (JournalRow.seq <$> rows). change (AdmissionState string) with (list string). generalize (admission_state w). intros s seqs. revert seqs s.
  induction notes as [|x l IH]; intros [|seq seqs] s; try done. cbn in Hn. apply orb_false_iff in Hn as [Hx Hl].
  split.
  - cbn. intros E. rewrite bool_decide_eq_true in E. by subst x.
  - cbn. destruct (contains x s); cbn; [done|]. by apply IH.
Qed.
Lemma first_plain w t : replays w first t.
Proof. by apply plain. Qed.
Lemma second_plain w t : replays w second t.
Proof. by apply plain. Qed.

Lemma store1_represents : exists e, entry_command e = first /\ represents store1 [e].
Proof.
  assert (Hs : forall error, Steady <> LockLost error) by done.
  pose proof (commit_cases _ _ _ _ _ _ _ _ empty_represents first_typed (first_plain _ 7) Hs committed1) as Hc.
  inversion Hc as [| |e Hrep He|]. by exists e.
Qed.

(** The second commit loses its acknowledgement, its rows persisted. *)
Definition run2 := Eval vm_compute in run_view (commit (CommitLost true) store1 second 8).
Definition store2 : JournalWriter string := writer run2.1.
Lemma committed2 : commit (CommitLost true) store1 second 8 = (store2, run2.2).
Proof. apply run_eq. vm_compute. reflexivity. Qed.

Lemma ran : rtc step empty_store store2.
Proof.
  eapply rtc_l; [exact (step_commit _ Steady first 7 None _ _ first_typed committed1)|].
  apply rtc_once. exact (step_commit _ (CommitLost true) second 8 None _ _ second_typed committed2).
Qed.
Lemma ran_soundly : rtc sound_step empty_store store2.
Proof.
  eapply rtc_l; [exact (sound_commit _ Steady first 7 None _ _ first_typed (first_plain _ 7) ltac:(done) committed1)|].
  apply rtc_once. exact (sound_commit _ (CommitLost true) second 8 None _ _ second_typed (second_plain _ 8) ltac:(done) committed2).
Qed.
End Notes.
Import Notes.

Lemma journal_reopens_witness :
  open [] = Ok empty_store /\ rtc step empty_store store2 /\ length (table store2) = 3 /\
  (exists log, log_ok log /\ read_all_rows (table store2) = Ok (log_rows log)) /\
  exists w', open (table store2) = Ok w' /\
    (SqliteState.poisoned (sqlite store2) = false -> admission_state w' = admission_state store2).
Proof.
  split; [exact opened|]. split; [exact ran|]. split; [reflexivity|].
  destruct (journal_reopens empty_store store2 opened ran) as [(log & Hl & Hr & _) Hsound].
  split; [exact (ex_intro _ log (conj Hl Hr))|]. exact (Hsound ran_soundly).
Defined.

Lemma journal_typed_witness :
  open [] = Ok empty_store /\ rtc step empty_store store2 /\
  Forall (fun columns => exists row, journal_row_from_sql columns = Ok row /\ row_typed row /\ event_params row = columns) (table store2).
Proof. split; [exact opened|]. split; [exact ran|]. exact (journal_typed empty_store store2 opened ran). Defined.

Lemma commit_idempotent_witness :
  exists e prepared, represents store1 [e] /\ entry_command e = first /\ command_typed first /\
    SqliteState.poisoned (sqlite store1) = false /\ check_command first 9 None = Ok prepared /\
    (commit_inner Steady store1 first 9 None).1 = store1.
Proof.
  destruct store1_represents as (e & He & Hrep).
  assert (exists prepared, check_command first 9 None = Ok prepared) as [prepared Hc].
  { destruct (check_command first 9 None) as [prepared|] eqn:E; [eauto|]. vm_compute in E. done. }
  exists e, prepared. split_and!; [done|done|exact first_typed|done|done|].
  rewrite (commit_idempotent store1 [e] first 9 None prepared Hrep first_typed eq_refl Hc). cbn [List.find]. rewrite He.
  by rewrite bool_decide_eq_true_2.
Defined.

Lemma commit_refines_ledger_witness :
  exists e log', represents store1 [e] /\ persists store2 log' /\
    commit_inner (CommitLost true) store1 second 8 None = (store2, run2.2) /\
    spec_step (ledger_of [e]) second run2.2 (ledger_of log').
Proof.
  destruct store1_represents as (e & He & Hrep).
  destruct (commit_refines_ledger (CommitLost true) store1 [e] second 8 None store2 run2.2 Hrep second_typed
    committed2) as (log' & Hrep' & Hstep & _).
  by exists e, log'.
Defined.

(** The same commit, acknowledged. *)
Definition run3 := Eval vm_compute in run_view (commit Steady store1 second 8).
Definition outcome3 : CommitOutcome := Eval vm_compute in get (CommitOutcome.mk (JournalCommand.command_id first) 0 0 [] true) run3.2.
Lemma committed3 : commit Steady store1 second 8 = (writer run3.1, Ok outcome3).
Proof. apply run_eq. vm_compute. reflexivity. Qed.

Lemma lost_acknowledgement_witness :
  exists e w2 w3 w4, represents store1 [e] /\
    commit_inner (CommitLost true) store1 second 8 None = (w2, Err StoreError.Io) /\
    open (table w2) = Ok w3 /\
    commit_inner Steady w3 second 8 None
    = (w4, Ok (CommitOutcome.mk (CommitOutcome.command_id outcome3) (CommitOutcome.first_seq outcome3)
                 (CommitOutcome.last_seq outcome3) (CommitOutcome.event_ids outcome3) true)) /\
    table w4 = table (writer run3.1).
Proof.
  destruct store1_represents as (e & He & Hrep).
  destruct (lost_acknowledgement true store1 [e] second 8 None (writer run3.1) outcome3 Hrep second_typed
    ltac:(done) committed3 eq_refl) as (w2 & Hl & Ho & Hall).
  destruct (Ho (or_intror (second_plain _ 8))) as (w3 & Hw3). destruct (Hall w3 Hw3) as (w4 & H4 & Ht).
  exists e, w2, w3, w4. exact (conj Hrep (conj Hl (conj Hw3 (conj H4 Ht)))).
Defined.

Definition run4 := Eval vm_compute in run_view (commit_if_frontier Steady store1 second 8 2).
Lemma committed4 : commit_if_frontier Steady store1 second 8 2 = (writer run4.1, Ok outcome3).
Proof. apply run_eq. vm_compute. reflexivity. Qed.

Lemma frontier_compare_and_append_witness :
  commit_if_frontier Steady store1 second 8 2 = (writer run4.1, Ok outcome3) /\
  exists e rows, represents store1 [e] /\ table (writer run4.1) = table store1 ++ (event_params <$> rows) /\
    Forall (fun row => (JournalRow.seq row <= 2)%N) (log_rows [e]) /\ log_frontier [e] = 2%N /\
    Forall (fun row => (2 < CommitOutcome.first_seq outcome3 <= JournalRow.seq row)%N) rows /\
    CommitOutcome.event_ids outcome3 = JournalRow.event_id <$> rows.
Proof.
  split; [exact committed4|]. destruct store1_represents as (e & He & Hrep).
  destruct (frontier_compare_and_append Steady store1 [e] second 8 2 (writer run4.1) outcome3 Hrep second_typed
    (second_plain _ 8) ltac:(done) committed4 eq_refl) as (rows & H).
  by exists e, rows.
Defined.

Lemma committed_command_reads_witness :
  exists e, represents store1 [e] /\ entry_command e = first /\
    committed_command store1 (JournalCommand.command_id first)
    = Ok (Some (CommittedCommand.mk (JournalCommand.command_id first) (JournalRow.event_id <$> entry_rows e)
                  ["note one"; "note two"])).
Proof.
  destruct store1_represents as (e & He & Hrep). exists e. split; [done|]. split; [done|].
  rewrite (committed_command_reads store1 [e] (JournalCommand.command_id first) Hrep (proj1 first_typed) eq_refl).
  cbn [List.find]. rewrite bool_decide_eq_true_2 by by rewrite He. cbn [fmap option_fmap option_map]. by rewrite He.
Defined.

(** The lock is lost after [second]; its note is recorded again, and no writer opens
    the store any more. *)
Definition again := command 3 ["note three"].
Lemma again_typed : command_typed again.
Proof. split; [split; vm_compute; reflexivity|]. repeat constructor. Qed.
Definition run5 := Eval vm_compute in run_view (commit Steady (set_admission (writer run3.1) (admission_state store1)) again 9).
Definition outcome5 : CommitOutcome := Eval vm_compute in get (CommitOutcome.mk (JournalCommand.command_id first) 0 0 [] true) run5.2.
Lemma committed5 : commit Steady (set_admission (writer run3.1) (admission_state store1)) again 9 = (writer run5.1, Ok outcome5).
Proof. apply run_eq. vm_compute. reflexivity. Qed.

(** Rows of a single command, computed. *)
Lemma rows_refused (command : JournalCommand string) (next : N) (t : Z) (s : PartState string) error :
  match prepare_command command with
  | Ok prepared => match rows_for_append prepared next t with
                   | Ok rows => match JournalAdmissionState.apply_row_batch_owned s rows with Err e => Some e | Ok _ => None end
                   | Err _ => None end
  | Err _ => None end = Some error ->
  forall prepared rows, rows_of command prepared next t rows -> apply_row_batch (s : AdmissionState string) rows = Err error.
Proof.
  intros H prepared rows [Hp Hr]. rewrite Hp, Hr in H. change (JournalAdmissionState.apply_row_batch_owned (P := string) s rows = Err error).
  destruct (JournalAdmissionState.apply_row_batch_owned (P := string) s rows); [done|]. by injection H as <-.
Qed.
Lemma again_refused prepared rows :
  rows_of again prepared (next_seq (writer run3.1)) 9 rows -> apply_row_batch (admission_state (writer run3.1)) rows = Err StoreError.StoreCorrupt.
Proof. apply rows_refused. vm_compute. reflexivity. Qed.

Lemma lock_lost_diverges_witness :
  commit_inner (LockLost StoreError.Io) store1 second 8 None = (set_admission (writer run3.1) (admission_state store1), Err StoreError.Io) /\
  open (table (writer run5.1)) = Err StoreError.StoreCorrupt.
Proof.
  destruct store1_represents as (e & He & Hrep).
  exact (lock_lost_diverges store1 [e] second 8 None (writer run3.1) outcome3 StoreError.Io again 9 (writer run5.1) outcome5
    StoreError.StoreCorrupt Hrep second_typed again_typed (second_plain _ 8) committed3 eq_refl committed5 eq_refl again_refused).
Defined.

(** A watermark is acknowledged, and the store does not open. *)
Definition marked := command 4 ["watermark"].
Lemma marked_typed : command_typed marked.
Proof. split; [split; vm_compute; reflexivity|]. repeat constructor. Qed.
Definition run6 := Eval vm_compute in run_view (commit Steady store1 marked 9).
Definition outcome6 : CommitOutcome := Eval vm_compute in get (CommitOutcome.mk (JournalCommand.command_id first) 0 0 [] true) run6.2.
Lemma committed6 : commit Steady store1 marked 9 = (writer run6.1, Ok outcome6).
Proof. apply run_eq. vm_compute. reflexivity. Qed.

Lemma acknowledged_then_opens_witness :
  commit_inner Steady store1 marked 9 None = (writer run6.1, Ok outcome6) /\ CommitOutcome.replayed outcome6 = false /\
  ~ (exists w'', open (table (writer run6.1)) = Ok w'').
Proof.
  split; [exact committed6|]. split; [reflexivity|]. destruct store1_represents as (e & He & Hrep).
  intros Ho.
  pose proof (proj1 (acknowledged_then_opens store1 [e] marked 9 None (writer run6.1) outcome6 Hrep marked_typed committed6 eq_refl) Ho) as H.
  destruct (prepare_command marked) as [prepared|] eqn:Hp; [|vm_compute in Hp; done].
  destruct (rows_for_append prepared (next_seq store1) 9) as [rows|] eqn:Hr.
  - specialize (H prepared rows (conj Hp Hr)). destruct (rows_head _ _ _ _ _ (conj Hp Hr)) as (h & Hh & _).
    destruct rows as [|row rows]; [done|]. destruct H as [Hw _]. by specialize (Hw eq_refl).
  - vm_compute in Hp. injection Hp as <-. vm_compute in Hr. done.
Defined.

Lemma journal_row_round_trip_witness :
  exists row, row_typed row /\ journal_row_from_sql (event_params row) = Ok row.
Proof.
  exists (JournalRow.mk "event" (JournalCommand.command_id first) config 0 1 1 "note_recorded_v1" RecordClass.ObjectEvent
    None None None EventScope.default 5 7 SourceKind.System None 1 "note" config None None config "notes_v1").
  assert (H : row_typed (JournalRow.mk "event" (JournalCommand.command_id first) config 0 1 1 "note_recorded_v1" RecordClass.ObjectEvent
    None None None EventScope.default 5 7 SourceKind.System None 1 "note" config None None config "notes_v1")).
  { by split. }
  split; [exact H|]. exact (journal_row_round_trip _ H).
Defined.
