(* ===== verification/Repository.v ===== *)
(** * Repositories, worktrees, snapshots, transitions and integrations

    [evertrace-domain/src/repository.rs]: the revisions the repository importer
    records, with their validators.  The store's reducer over them is in
    RepositoryStore. *)

From S2P Require Import Prelude Order Collections Text Ids Lane.

Module RepositoryError.
Inductive RepositoryError :=
| InvalidRevision
| InvalidReference
| Duplicate
| InvalidIdentity
| InvalidLifecycle
| InvalidSnapshot
| InvalidTransition
| InvalidIntegration
| InvalidRecovery.
#[export] Instance eq_dec : EqDecision RepositoryError.
Proof. solve_decision. Defined.
End RepositoryError.
Abbreviation RepositoryError := RepositoryError.RepositoryError.
Export (hints) RepositoryError.

Module GitObjectFormat.
Inductive GitObjectFormat :=
| Sha1
| Sha256.
#[export] Instance eq_dec : EqDecision GitObjectFormat.
Proof. solve_decision. Defined.
Definition rank (x : GitObjectFormat) : N :=
  match x with
  | Sha1 => 0
  | Sha256 => 1
  end.
Lemma GitObjectFormat_rank_inj x y : rank x = rank y -> x = y.
Proof. by destruct x, y. Qed.
#[export] Instance ord : Ord GitObjectFormat := Ord_by rank GitObjectFormat_rank_inj.
End GitObjectFormat.
Abbreviation GitObjectFormat := GitObjectFormat.GitObjectFormat.
Export (hints) GitObjectFormat.

Module ProbeUnavailableReason.
Inductive ProbeUnavailableReason :=
| NonGit
| CorruptAdminMetadata
| PermissionDenied
| TrustDenied
| OutputLimitExceeded
| Timeout
| PathMissing
| SpawnFailed.
#[export] Instance eq_dec : EqDecision ProbeUnavailableReason.
Proof. solve_decision. Defined.
Definition rank (x : ProbeUnavailableReason) : N :=
  match x with
  | NonGit => 0
  | CorruptAdminMetadata => 1
  | PermissionDenied => 2
  | TrustDenied => 3
  | OutputLimitExceeded => 4
  | Timeout => 5
  | PathMissing => 6
  | SpawnFailed => 7
  end.
Lemma ProbeUnavailableReason_rank_inj x y : rank x = rank y -> x = y.
Proof. by destruct x, y. Qed.
#[export] Instance ord : Ord ProbeUnavailableReason := Ord_by rank ProbeUnavailableReason_rank_inj.
End ProbeUnavailableReason.
Abbreviation ProbeUnavailableReason := ProbeUnavailableReason.ProbeUnavailableReason.
Export (hints) ProbeUnavailableReason.

Module WorktreeKind.
Inductive WorktreeKind :=
| Main
| Linked.
#[export] Instance eq_dec : EqDecision WorktreeKind.
Proof. solve_decision. Defined.
Definition rank (x : WorktreeKind) : N :=
  match x with
  | Main => 0
  | Linked => 1
  end.
Lemma WorktreeKind_rank_inj x y : rank x = rank y -> x = y.
Proof. by destruct x, y. Qed.
#[export] Instance ord : Ord WorktreeKind := Ord_by rank WorktreeKind_rank_inj.
End WorktreeKind.
Abbreviation WorktreeKind := WorktreeKind.WorktreeKind.
Export (hints) WorktreeKind.

Module WorktreeLifecycle.
Inductive WorktreeLifecycle :=
| Active
| Missing
| Removed
| Pruned
| Archived.
#[export] Instance eq_dec : EqDecision WorktreeLifecycle.
Proof. solve_decision. Defined.
Definition rank (x : WorktreeLifecycle) : N :=
  match x with
  | Active => 0
  | Missing => 1
  | Removed => 2
  | Pruned => 3
  | Archived => 4
  end.
Lemma WorktreeLifecycle_rank_inj x y : rank x = rank y -> x = y.
Proof. by destruct x, y. Qed.
#[export] Instance ord : Ord WorktreeLifecycle := Ord_by rank WorktreeLifecycle_rank_inj.
End WorktreeLifecycle.
Abbreviation WorktreeLifecycle := WorktreeLifecycle.WorktreeLifecycle.
Export (hints) WorktreeLifecycle.

Definition is_terminal (l : WorktreeLifecycle) : bool :=
  contains l [WorktreeLifecycle.Removed; WorktreeLifecycle.Pruned].

Definition lifecycle_successor_allowed (current successor : WorktreeLifecycle) : bool :=
  match current with
  | WorktreeLifecycle.Active => true
  | WorktreeLifecycle.Missing => true
  | WorktreeLifecycle.Removed => successor ==? WorktreeLifecycle.Removed
  | WorktreeLifecycle.Pruned => successor ==? WorktreeLifecycle.Pruned
  | WorktreeLifecycle.Archived =>
      contains successor [WorktreeLifecycle.Archived; WorktreeLifecycle.Removed;
                          WorktreeLifecycle.Pruned]
  end.

Module GitRegistrationState.
Inductive GitRegistrationState :=
| Registered
| Locked
| Prunable
| Absent
| Unknown.
#[export] Instance eq_dec : EqDecision GitRegistrationState.
Proof. solve_decision. Defined.
Definition rank (x : GitRegistrationState) : N :=
  match x with
  | Registered => 0
  | Locked => 1
  | Prunable => 2
  | Absent => 3
  | Unknown => 4
  end.
Lemma GitRegistrationState_rank_inj x y : rank x = rank y -> x = y.
Proof. by destruct x, y. Qed.
#[export] Instance ord : Ord GitRegistrationState := Ord_by rank GitRegistrationState_rank_inj.
End GitRegistrationState.
Abbreviation GitRegistrationState := GitRegistrationState.GitRegistrationState.
Export (hints) GitRegistrationState.

Module GitOperation.
Inductive GitOperation :=
| None
| Merge
| Rebase
| CherryPick
| Revert
| Bisect
| Other.
#[export] Instance eq_dec : EqDecision GitOperation.
Proof. solve_decision. Defined.
Definition rank (x : GitOperation) : N :=
  match x with
  | None => 0
  | Merge => 1
  | Rebase => 2
  | CherryPick => 3
  | Revert => 4
  | Bisect => 5
  | Other => 6
  end.
Lemma GitOperation_rank_inj x y : rank x = rank y -> x = y.
Proof. by destruct x, y. Qed.
#[export] Instance ord : Ord GitOperation := Ord_by rank GitOperation_rank_inj.
End GitOperation.
Abbreviation GitOperation := GitOperation.GitOperation.
Export (hints) GitOperation.

Module SnapshotCaptureStatus.
Inductive SnapshotCaptureStatus :=
| Complete
| Partial
| Unavailable.
#[export] Instance eq_dec : EqDecision SnapshotCaptureStatus.
Proof. solve_decision. Defined.
Definition rank (x : SnapshotCaptureStatus) : N :=
  match x with
  | Complete => 0
  | Partial => 1
  | Unavailable => 2
  end.
Lemma SnapshotCaptureStatus_rank_inj x y : rank x = rank y -> x = y.
Proof. by destruct x, y. Qed.
#[export] Instance ord : Ord SnapshotCaptureStatus := Ord_by rank SnapshotCaptureStatus_rank_inj.
End SnapshotCaptureStatus.
Abbreviation SnapshotCaptureStatus := SnapshotCaptureStatus.SnapshotCaptureStatus.
Export (hints) SnapshotCaptureStatus.

Module SnapshotField.
Inductive SnapshotField :=
| HeadOid
| TreeOid
| BranchRef
| TrackedDiffDigest
| IndexDigest
| UntrackedManifestDigest
| AnchorDigests
| DependencyFingerprints
| ToolchainFingerprint.
#[export] Instance eq_dec : EqDecision SnapshotField.
Proof. solve_decision. Defined.
Definition rank (x : SnapshotField) : N :=
  match x with
  | HeadOid => 0
  | TreeOid => 1
  | BranchRef => 2
  | TrackedDiffDigest => 3
  | IndexDigest => 4
  | UntrackedManifestDigest => 5
  | AnchorDigests => 6
  | DependencyFingerprints => 7
  | ToolchainFingerprint => 8
  end.
Lemma SnapshotField_rank_inj x y : rank x = rank y -> x = y.
Proof. by destruct x, y. Qed.
#[export] Instance ord : Ord SnapshotField := Ord_by rank SnapshotField_rank_inj.
End SnapshotField.
Abbreviation SnapshotField := SnapshotField.SnapshotField.
Export (hints) SnapshotField.

Module TransitionKind.
Inductive TransitionKind :=
| PathMoved
| HeadAdvanced
| BranchSwitched
| DetachedOrAttached
| HistoryRewritten
| MergeIntegrated
| PatchTransferred
| WorktreeMissing
| WorktreeRepaired
| WorktreeRemoved
| WorktreePruned
| WorktreeRecreated
| RepositoryMoved
| RepositoryCopied.
#[export] Instance eq_dec : EqDecision TransitionKind.
Proof. solve_decision. Defined.
Definition rank (x : TransitionKind) : N :=
  match x with
  | PathMoved => 0
  | HeadAdvanced => 1
  | BranchSwitched => 2
  | DetachedOrAttached => 3
  | HistoryRewritten => 4
  | MergeIntegrated => 5
  | PatchTransferred => 6
  | WorktreeMissing => 7
  | WorktreeRepaired => 8
  | WorktreeRemoved => 9
  | WorktreePruned => 10
  | WorktreeRecreated => 11
  | RepositoryMoved => 12
  | RepositoryCopied => 13
  end.
Lemma TransitionKind_rank_inj x y : rank x = rank y -> x = y.
Proof. by destruct x, y. Qed.
#[export] Instance ord : Ord TransitionKind := Ord_by rank TransitionKind_rank_inj.
End TransitionKind.
Abbreviation TransitionKind := TransitionKind.TransitionKind.
Export (hints) TransitionKind.

Module LineageAssessment.
Inductive LineageAssessment :=
| Proven
| Partial
| Unknown
| Contradicted.
#[export] Instance eq_dec : EqDecision LineageAssessment.
Proof. solve_decision. Defined.
Definition rank (x : LineageAssessment) : N :=
  match x with
  | Proven => 0
  | Partial => 1
  | Unknown => 2
  | Contradicted => 3
  end.
Lemma LineageAssessment_rank_inj x y : rank x = rank y -> x = y.
Proof. by destruct x, y. Qed.
#[export] Instance ord : Ord LineageAssessment := Ord_by rank LineageAssessment_rank_inj.
End LineageAssessment.
Abbreviation LineageAssessment := LineageAssessment.LineageAssessment.
Export (hints) LineageAssessment.

Module IntegrationKind.
Inductive IntegrationKind :=
| FastForward
| MergeCommit
| Rebase
| CherryPick
| Squash
| ManualPatch.
#[export] Instance eq_dec : EqDecision IntegrationKind.
Proof. solve_decision. Defined.
Definition rank (x : IntegrationKind) : N :=
  match x with
  | FastForward => 0
  | MergeCommit => 1
  | Rebase => 2
  | CherryPick => 3
  | Squash => 4
  | ManualPatch => 5
  end.
Lemma IntegrationKind_rank_inj x y : rank x = rank y -> x = y.
Proof. by destruct x, y. Qed.
#[export] Instance ord : Ord IntegrationKind := Ord_by rank IntegrationKind_rank_inj.
End IntegrationKind.
Abbreviation IntegrationKind := IntegrationKind.IntegrationKind.
Export (hints) IntegrationKind.

Definition ancestry_based (k : IntegrationKind) : bool :=
  contains k [IntegrationKind.FastForward; IntegrationKind.MergeCommit].

(** ** Checks *)

Module Checks.
Definition MAX_LOCATOR_BYTES : N := 4096.
Definition MAX_REF_BYTES : N := 256.
Definition MAX_DIGEST_HEX : N := 64.
Definition REMOTE_FINGERPRINT_PREFIX : string := "s11-remote-fp-v1:".

Definition valid_revision_chain (revision : N) (predecessor : option N) : bool :=
  (0 <? revision)%N && (predecessor ==? ExecutionLane.expected_predecessor revision).

(** [byte == 0 || byte.is_ascii_control()]. *)
Definition bad_byte (b : byte) : bool := (byte_N b =? 0)%N || is_ascii_control b.

Definition valid_locator (value : string) : result RepositoryError unit :=
  guard (str_is_empty value || (MAX_LOCATOR_BYTES <? str_len value)%N
         || negb (starts_with (as_bytes value) (as_bytes "/"))
         || any bad_byte (as_bytes value))
    RepositoryError.InvalidReference.

Definition valid_ref (value : string) : result RepositoryError unit :=
  guard (str_is_empty value || (MAX_REF_BYTES <? str_len value)%N || any bad_byte (as_bytes value))
    RepositoryError.InvalidReference.

Definition valid_oid (value : string) : result RepositoryError unit :=
  guard (negb ((str_len value =? 40)%N || (str_len value =? 64)%N)
         || negb (all is_hex (as_bytes value)))
    RepositoryError.InvalidReference.

Definition valid_digest (value : string) : result RepositoryError unit :=
  guard ((str_len value !=? MAX_DIGEST_HEX) || negb (all is_hex (as_bytes value)))
    RepositoryError.InvalidReference.

(** [value.strip_prefix(..)]: the bytes after the prefix. *)
Definition valid_remote_fingerprint (value : string) : result RepositoryError unit :=
  let prefix := as_bytes REMOTE_FINGERPRINT_PREFIX in
  if starts_with (as_bytes value) prefix then
    let hex_digits := drop (length prefix) (as_bytes value) in
    guard ((N.of_nat (length hex_digits) !=? MAX_DIGEST_HEX) || negb (all is_hex hex_digits))
      RepositoryError.InvalidIdentity
  else Err RepositoryError.InvalidIdentity.

Definition require_unique {A} `{!Ord A} (values : list A) : result RepositoryError unit :=
  guard (negb (all_unique values)) RepositoryError.Duplicate.

(** [if let Some(x) = o { f(x)?; }]. *)
Definition on_some {A} (o : option A) (f : A -> result RepositoryError unit)
  : result RepositoryError unit :=
  match o with Some x => f x | None => Ok tt end.
End Checks.
Import Checks.

Module FilesystemIdentity.
Record FilesystemIdentity := mk {
  device : N;
  inode : N;
}.
#[export] Instance eq_dec : EqDecision FilesystemIdentity.
Proof. solve_decision. Defined.
End FilesystemIdentity.
Abbreviation FilesystemIdentity := FilesystemIdentity.FilesystemIdentity.
Export (hints) FilesystemIdentity.

Module PathObservation.
Record PathObservation := mk {
  path : string;
  first_observed_at_us : Z;
  last_observed_at_us : Z;
  evidence_refs : list string;
}.
#[export] Instance eq_dec : EqDecision PathObservation.
Proof. solve_decision. Defined.
Definition validate (self : PathObservation) : result RepositoryError unit :=
  do? valid_locator (path self) in
  do? guard ((first_observed_at_us self <? 0)%Z
             || (last_observed_at_us self <? first_observed_at_us self)%Z
             || is_empty (evidence_refs self))
        RepositoryError.InvalidReference in
  do? for_each Checks.valid_ref (evidence_refs self) in
  Checks.require_unique (evidence_refs self).
End PathObservation.
Abbreviation PathObservation := PathObservation.PathObservation.
Export (hints) PathObservation.

(** The loop of [valid_path_history], with [previous_first] as it goes. *)
Fixpoint path_history_loop (history : list PathObservation) (previous_first : option Z)
  : result RepositoryError unit :=
  match history with
  | [] => Ok tt
  | observation :: rest =>
      do? PathObservation.validate observation in
      do? guard (is_some_and previous_first
                   (fun first => (PathObservation.first_observed_at_us observation <? first)%Z))
            RepositoryError.InvalidReference in
      path_history_loop rest (Some (PathObservation.first_observed_at_us observation))
  end.

Definition valid_path_history (history : list PathObservation) (current : string)
  : result RepositoryError unit :=
  do? guard (is_empty history) RepositoryError.InvalidReference in
  do? path_history_loop history None in
  guard (is_some_and (last history) (fun entry => PathObservation.path entry !=? current))
    RepositoryError.InvalidReference.

Module SnapshotOmission.
Record SnapshotOmission := mk {
  field : SnapshotField;
  reason : ProbeUnavailableReason;
}.
#[export] Instance eq_dec : EqDecision SnapshotOmission.
Proof. solve_decision. Defined.
End SnapshotOmission.
Abbreviation SnapshotOmission := SnapshotOmission.SnapshotOmission.
Export (hints) SnapshotOmission.

Module RepositoryCapabilityState.
Record RepositoryCapabilityState := mk {
  trust_revoked : bool;
  revalidated_inventory_ref : option JobId;
}.
#[export] Instance eq_dec : EqDecision RepositoryCapabilityState.
Proof. solve_decision. Defined.
End RepositoryCapabilityState.
Abbreviation RepositoryCapabilityState := RepositoryCapabilityState.RepositoryCapabilityState.
Export (hints) RepositoryCapabilityState.

Module RepositoryInstance.
Record RepositoryInstance := mk {
  repository_id : RepositoryId;
  repository_revision : N;
  predecessor_revision : option N;
  current_path : string;
  path_history : list PathObservation;
  git_common_dir_path : option string;
  common_dir_filesystem : option FilesystemIdentity;
  object_format : option GitObjectFormat;
  remote_fingerprints : list string;
  derived_from : option RepositoryId;
  identity_evidence_refs : list string;
  recorded_at_us : Z;
  user_disabled : bool;
  capability_state : option RepositoryCapabilityState;
}.
#[export] Instance eq_dec : EqDecision RepositoryInstance.
Proof. solve_decision. Defined.
Definition validate (self : RepositoryInstance) : result RepositoryError unit :=
  do? guard (negb (valid_revision_chain (repository_revision self) (predecessor_revision self))
             || (derived_from self ==? Some (repository_id self))
             || (recorded_at_us self <? 0)%Z)
        RepositoryError.InvalidRevision in
  do? valid_locator (current_path self) in
  do? valid_path_history (path_history self) (current_path self) in
  do? on_some (git_common_dir_path self) valid_locator in
  do? for_each valid_remote_fingerprint (remote_fingerprints self) in
  do? Checks.require_unique (remote_fingerprints self) in
  do? for_each Checks.valid_ref (identity_evidence_refs self) in
  do? Checks.require_unique (identity_evidence_refs self) in
  guard (is_none (git_common_dir_path self) || is_none (common_dir_filesystem self)
         || is_none (object_format self) || is_empty (identity_evidence_refs self))
    RepositoryError.InvalidIdentity.
End RepositoryInstance.
Abbreviation RepositoryInstance := RepositoryInstance.RepositoryInstance.
Export (hints) RepositoryInstance.

Module WorktreeInstance.
Record WorktreeInstance := mk {
  worktree_instance_id : WorktreeId;
  worktree_revision : N;
  predecessor_revision : option N;
  repository_instance_id : RepositoryId;
  kind : WorktreeKind;
  lifecycle : WorktreeLifecycle;
  current_path : option string;
  path_history : list PathObservation;
  git_admin_path_history : list PathObservation;
  git_registration_state : GitRegistrationState;
  current_snapshot_id : option WorktreeSnapshotId;
  created_event_ref : string;
  terminal_event_ref : option string;
  recreated_from_worktree_instance_id : option WorktreeId;
  recorded_at_us : Z;
}.
#[export] Instance eq_dec : EqDecision WorktreeInstance.
Proof. solve_decision. Defined.
Definition validate (self : WorktreeInstance) : result RepositoryError unit :=
  do? guard (negb (valid_revision_chain (worktree_revision self) (predecessor_revision self))
             || (recreated_from_worktree_instance_id self ==? Some (worktree_instance_id self))
             || (recorded_at_us self <? 0)%Z)
        RepositoryError.InvalidRevision in
  do? guard (is_empty (path_history self) || is_empty (git_admin_path_history self))
        RepositoryError.InvalidLifecycle in
  do? for_each PathObservation.validate (path_history self ++ git_admin_path_history self) in
  do? Checks.valid_ref (created_event_ref self) in
  do? on_some (terminal_event_ref self) Checks.valid_ref in
  match lifecycle self with
  | WorktreeLifecycle.Active | WorktreeLifecycle.Missing =>
      let? path := ok_or (current_path self) RepositoryError.InvalidLifecycle in
      do? valid_locator path in
      guard (is_some (terminal_event_ref self)
             || is_some_and (last (path_history self))
                  (fun entry => PathObservation.path entry !=? path))
        RepositoryError.InvalidLifecycle
  | WorktreeLifecycle.Removed | WorktreeLifecycle.Pruned =>
      guard (is_none (terminal_event_ref self) || is_some (current_path self))
        RepositoryError.InvalidLifecycle
  | WorktreeLifecycle.Archived =>
      let? path := ok_or (current_path self) RepositoryError.InvalidLifecycle in
      valid_locator path
  end.
End WorktreeInstance.
Abbreviation WorktreeInstance := WorktreeInstance.WorktreeInstance.
Export (hints) WorktreeInstance.

Module WorktreeSnapshot.
Record WorktreeSnapshot := mk {
  worktree_snapshot_id : WorktreeSnapshotId;
  worktree_instance_id : WorktreeId;
  head_oid : option string;
  tree_oid : option string;
  branch_ref : option string;
  detached_head : bool;
  tracked_diff_digest : option string;
  index_digest : option string;
  untracked_manifest_digest : option string;
  relevant_anchor_digests : list string;
  dependency_fingerprints : list string;
  toolchain_fingerprint : option string;
  git_operation : GitOperation;
  captured_at_us : Z;
  evidence_refs : list string;
  capture_status : SnapshotCaptureStatus;
  omission_reasons : list SnapshotOmission;
}.
#[export] Instance eq_dec : EqDecision WorktreeSnapshot.
Proof. solve_decision. Defined.
Definition validate (self : WorktreeSnapshot) : result RepositoryError unit :=
  do? guard (captured_at_us self <? 0)%Z RepositoryError.InvalidSnapshot in
  do? on_some (head_oid self) valid_oid in
  do? on_some (tree_oid self) valid_oid in
  do? on_some (branch_ref self) (fun branch =>
        do? guard (negb (starts_with (as_bytes branch) (as_bytes "refs/")))
              RepositoryError.InvalidSnapshot in
        Checks.valid_ref branch) in
  do? guard (xorb (detached_head self) (is_some (head_oid self) && is_none (branch_ref self)))
        RepositoryError.InvalidSnapshot in
  do? for_each valid_digest
        (omap id [tracked_diff_digest self; index_digest self; untracked_manifest_digest self]) in
  do? for_each valid_digest (relevant_anchor_digests self) in
  do? Checks.require_unique (relevant_anchor_digests self) in
  do? for_each Checks.valid_ref (dependency_fingerprints self) in
  do? Checks.require_unique (dependency_fingerprints self) in
  do? on_some (toolchain_fingerprint self) Checks.valid_ref in
  do? guard (is_empty (evidence_refs self)) RepositoryError.InvalidSnapshot in
  do? for_each Checks.valid_ref (evidence_refs self) in
  do? Checks.require_unique (evidence_refs self) in
  do? guard (length (bset_of_list (SnapshotOmission.field <$> omission_reasons self))
             !=? length (omission_reasons self))
        RepositoryError.Duplicate in
  match capture_status self with
  | SnapshotCaptureStatus.Complete =>
      guard (negb (is_empty (omission_reasons self))) RepositoryError.InvalidSnapshot
  | SnapshotCaptureStatus.Partial =>
      guard (is_empty (omission_reasons self)) RepositoryError.InvalidSnapshot
  | SnapshotCaptureStatus.Unavailable =>
      guard (is_empty (omission_reasons self) || is_some (head_oid self)
             || is_some (tree_oid self) || is_some (branch_ref self)
             || is_some (tracked_diff_digest self) || is_some (index_digest self)
             || is_some (untracked_manifest_digest self))
        RepositoryError.InvalidSnapshot
  end.
End WorktreeSnapshot.
Abbreviation WorktreeSnapshot := WorktreeSnapshot.WorktreeSnapshot.
Export (hints) WorktreeSnapshot.

Module WorktreeTransition.
Record WorktreeTransition := mk {
  worktree_transition_id : WorktreeTransitionId;
  transition_revision : N;
  predecessor_revision : option N;
  from_worktree_instance_id : WorktreeId;
  from_snapshot_id : option WorktreeSnapshotId;
  to_worktree_instance_id : WorktreeId;
  to_snapshot_id : option WorktreeSnapshotId;
  kind : TransitionKind;
  lineage_assessment : LineageAssessment;
  correction_reason : option string;
  source_watermark : N;
  evidence_refs : list string;
}.
#[export] Instance eq_dec : EqDecision WorktreeTransition.
Proof. solve_decision. Defined.

(** [let kind_valid = match self.kind ..]. *)
Definition kind_valid (kind : TransitionKind) (same_worktree : bool) : bool :=
  match kind with
  | TransitionKind.PathMoved | TransitionKind.HeadAdvanced | TransitionKind.BranchSwitched
  | TransitionKind.DetachedOrAttached | TransitionKind.HistoryRewritten
  | TransitionKind.WorktreeMissing | TransitionKind.WorktreeRepaired
  | TransitionKind.WorktreeRemoved | TransitionKind.WorktreePruned
  | TransitionKind.RepositoryMoved => same_worktree
  | TransitionKind.WorktreeRecreated | TransitionKind.RepositoryCopied => negb same_worktree
  | TransitionKind.MergeIntegrated | TransitionKind.PatchTransferred => true
  end.

Definition snapshot_required (kind : TransitionKind) : bool :=
  contains kind [TransitionKind.HeadAdvanced; TransitionKind.BranchSwitched;
                 TransitionKind.DetachedOrAttached; TransitionKind.HistoryRewritten;
                 TransitionKind.MergeIntegrated; TransitionKind.PatchTransferred].

Definition validate (self : WorktreeTransition) : result RepositoryError unit :=
  do? guard (negb (valid_revision_chain (transition_revision self) (predecessor_revision self)))
        RepositoryError.InvalidRevision in
  do? guard (xorb (1 <? transition_revision self)%N (is_some (correction_reason self)))
        RepositoryError.InvalidTransition in
  do? on_some (correction_reason self) Checks.valid_ref in
  do? guard (is_empty (evidence_refs self)) RepositoryError.InvalidTransition in
  do? for_each Checks.valid_ref (evidence_refs self) in
  do? Checks.require_unique (evidence_refs self) in
  do? guard (negb (kind_valid (kind self)
                     (from_worktree_instance_id self ==? to_worktree_instance_id self)))
        RepositoryError.InvalidTransition in
  guard (xorb (snapshot_required (kind self)) (is_some (to_snapshot_id self)))
    RepositoryError.InvalidTransition.
End WorktreeTransition.
Abbreviation WorktreeTransition := WorktreeTransition.WorktreeTransition.
Export (hints) WorktreeTransition.

Module IntegrationEvent.
Record IntegrationEvent := mk {
  integration_event_id : IntegrationEventId;
  repository_instance_id : RepositoryId;
  source_worktree_instance_id : WorktreeId;
  source_snapshot_id : WorktreeSnapshotId;
  destination_worktree_instance_id : WorktreeId;
  destination_snapshot_id : WorktreeSnapshotId;
  kind : IntegrationKind;
  commit_refs : list string;
  patch_equivalence_refs : list string;
  conflict_resolution_detected : bool;
  integrated_attempt_ids : list AttemptId;
  revalidated_anchor_refs : list string;
  evidence_refs : list string;
  assessment : LineageAssessment;
}.
#[export] Instance eq_dec : EqDecision IntegrationEvent.
Proof. solve_decision. Defined.
Definition validate (self : IntegrationEvent) : result RepositoryError unit :=
  do? guard (is_empty (evidence_refs self)) RepositoryError.InvalidIntegration in
  do? Checks.require_unique (integrated_attempt_ids self) in
  do? for_each valid_oid (commit_refs self) in
  do? Checks.require_unique (commit_refs self) in
  do? for_each Checks.valid_ref (patch_equivalence_refs self) in
  do? Checks.require_unique (patch_equivalence_refs self) in
  do? for_each Checks.valid_ref (revalidated_anchor_refs self) in
  do? Checks.require_unique (revalidated_anchor_refs self) in
  do? for_each Checks.valid_ref (evidence_refs self) in
  do? Checks.require_unique (evidence_refs self) in
  do? guard (xorb (ancestry_based (kind self)) (negb (is_empty (commit_refs self)))
             || negb (ancestry_based (kind self)) && is_empty (patch_equivalence_refs self))
        RepositoryError.InvalidIntegration in
  guard (conflict_resolution_detected self
         && (assessment self ==? LineageAssessment.Proven)
         && is_empty (revalidated_anchor_refs self))
    RepositoryError.InvalidIntegration.
End IntegrationEvent.
Abbreviation IntegrationEvent := IntegrationEvent.IntegrationEvent.
Export (hints) IntegrationEvent.
