(* ===== verification/RepositoryStore.v ===== *)
(** * The repository projection

    [evertrace-store/src/repository.rs]: how the reducer folds recorded
    repositories, worktrees, snapshots, transitions and integrations into the
    current state, the closure of a command, and the closure of the state.  The
    dispatch over the payload is the repository part of the reducer in
    [evertrace-store/src/projections.rs].  A [BTreeMap] is a [gmap]; the code
    iterates over its values only in loops whose outcome does not depend on the
    order. *)

From S2P Require Import Prelude Order Collections Text Ids Lane Journal Repository.

(** [seq] of the journal row that recorded the value. *)
Abbreviation stamped V := (V * N)%type.

(** [current.revision + 1] in the release profile. *)
Definition revision_after (r : N) : N := Resolver.next_revision r.

Definition prefix_of (previous next : list PathObservation) : bool :=
  (length previous <=? length next)%nat && starts_with next previous.

(** ** Folding one record into the state *)

Definition replace_repository (values : gmap RepositoryId (stamped RepositoryInstance))
    (value : RepositoryInstance) (seq : N)
  : result StoreError (gmap RepositoryId (stamped RepositoryInstance)) :=
  let key := RepositoryInstance.repository_id value in
  match values !! key with
  | None =>
      do? guard (RepositoryInstance.repository_revision value !=? 1%N) StoreError.StoreCorrupt in
      Ok (<[key := (value, seq)]> values)
  | Some (current, _) =>
      if current ==? value then Ok (<[key := (value, seq)]> values)
      else
        do? guard
          ((RepositoryInstance.repository_revision value
            !=? revision_after (RepositoryInstance.repository_revision current))
           || (RepositoryInstance.predecessor_revision value
               !=? Some (RepositoryInstance.repository_revision current))
           || (RepositoryInstance.derived_from value !=? RepositoryInstance.derived_from current)
           || (RepositoryInstance.object_format value !=? RepositoryInstance.object_format current)
           || (RepositoryInstance.common_dir_filesystem value
               !=? RepositoryInstance.common_dir_filesystem current)
           || negb (prefix_of (RepositoryInstance.path_history current)
                      (RepositoryInstance.path_history value)))
          StoreError.StoreCorrupt in
        Ok (<[key := (value, seq)]> values)
  end.

Definition worktree_continuity_broken (current value : WorktreeInstance) : bool :=
  (WorktreeInstance.worktree_revision value
   !=? revision_after (WorktreeInstance.worktree_revision current))
  || (WorktreeInstance.predecessor_revision value
      !=? Some (WorktreeInstance.worktree_revision current))
  || (WorktreeInstance.repository_instance_id value
      !=? WorktreeInstance.repository_instance_id current)
  || (WorktreeInstance.kind value !=? WorktreeInstance.kind current)
  || (WorktreeInstance.created_event_ref value !=? WorktreeInstance.created_event_ref current)
  || (WorktreeInstance.recreated_from_worktree_instance_id value
      !=? WorktreeInstance.recreated_from_worktree_instance_id current)
  || negb (lifecycle_successor_allowed (WorktreeInstance.lifecycle current)
             (WorktreeInstance.lifecycle value))
  || is_some (WorktreeInstance.terminal_event_ref current)
     && is_none (WorktreeInstance.terminal_event_ref value)
  || negb (prefix_of (WorktreeInstance.path_history current) (WorktreeInstance.path_history value))
  || negb (prefix_of (WorktreeInstance.git_admin_path_history current)
             (WorktreeInstance.git_admin_path_history value)).

Definition replace_worktree (values : gmap WorktreeId (stamped WorktreeInstance))
    (value : WorktreeInstance) (seq : N)
  : result StoreError (gmap WorktreeId (stamped WorktreeInstance)) :=
  let key := WorktreeInstance.worktree_instance_id value in
  match values !! key with
  | None =>
      do? guard (WorktreeInstance.worktree_revision value !=? 1%N) StoreError.StoreCorrupt in
      Ok (<[key := (value, seq)]> values)
  | Some (current, _) =>
      if current ==? value then Ok (<[key := (value, seq)]> values)
      else
        do? guard (worktree_continuity_broken current value) StoreError.StoreCorrupt in
        Ok (<[key := (value, seq)]> values)
  end.

Definition replace_snapshot (values : gmap WorktreeSnapshotId (stamped WorktreeSnapshot))
    (value : WorktreeSnapshot) (seq : N)
  : result StoreError (gmap WorktreeSnapshotId (stamped WorktreeSnapshot)) :=
  let key := WorktreeSnapshot.worktree_snapshot_id value in
  do? guard (is_some_and (values !! key) (fun c => c.1 !=? value)) StoreError.StoreCorrupt in
  Ok (<[key := (value, seq)]> values).

Definition transition_continuity_broken (current value : WorktreeTransition) : bool :=
  (WorktreeTransition.transition_revision value
   !=? revision_after (WorktreeTransition.transition_revision current))
  || (WorktreeTransition.predecessor_revision value
      !=? Some (WorktreeTransition.transition_revision current))
  || (WorktreeTransition.from_worktree_instance_id value
      !=? WorktreeTransition.from_worktree_instance_id current)
  || (WorktreeTransition.to_worktree_instance_id value
      !=? WorktreeTransition.to_worktree_instance_id current)
  || (WorktreeTransition.from_snapshot_id value !=? WorktreeTransition.from_snapshot_id current)
  || (WorktreeTransition.to_snapshot_id value !=? WorktreeTransition.to_snapshot_id current)
  || (WorktreeTransition.kind value !=? WorktreeTransition.kind current)
  || is_none (WorktreeTransition.correction_reason value)
  || (WorktreeTransition.source_watermark value <? WorktreeTransition.source_watermark current)%N.

Definition replace_transition (values : gmap WorktreeTransitionId (stamped WorktreeTransition))
    (value : WorktreeTransition) (seq : N)
  : result StoreError (gmap WorktreeTransitionId (stamped WorktreeTransition)) :=
  let key := WorktreeTransition.worktree_transition_id value in
  match values !! key with
  | None =>
      do? guard (WorktreeTransition.transition_revision value !=? 1%N) StoreError.StoreCorrupt in
      Ok (<[key := (value, seq)]> values)
  | Some (current, _) =>
      if current ==? value then Ok (<[key := (value, seq)]> values)
      else
        do? guard (transition_continuity_broken current value) StoreError.StoreCorrupt in
        Ok (<[key := (value, seq)]> values)
  end.

Definition replace_integration (values : gmap IntegrationEventId (stamped IntegrationEvent))
    (value : IntegrationEvent) (seq : N)
  : result StoreError (gmap IntegrationEventId (stamped IntegrationEvent)) :=
  let key := IntegrationEvent.integration_event_id value in
  do? guard (is_some_and (values !! key) (fun c => c.1 !=? value)) StoreError.StoreCorrupt in
  Ok (<[key := (value, seq)]> values).

(** ** The repository part of the reducer *)

Module RepositoryPayload.
Inductive RepositoryPayload :=
| RepositoryInstanceRecorded (value : RepositoryInstance)
| WorktreeInstanceRecorded (value : WorktreeInstance)
| WorktreeSnapshotRecorded (value : WorktreeSnapshot)
| WorktreeTransitionRecorded (value : WorktreeTransition)
| IntegrationEventRecorded (value : IntegrationEvent).
End RepositoryPayload.
Abbreviation RepositoryPayload := RepositoryPayload.RepositoryPayload.
Import RepositoryPayload.

Module RepositoryState.
Record RepositoryState := mk {
  repositories : gmap RepositoryId (stamped RepositoryInstance);
  worktrees : gmap WorktreeId (stamped WorktreeInstance);
  worktree_snapshots : gmap WorktreeSnapshotId (stamped WorktreeSnapshot);
  worktree_transitions : gmap WorktreeTransitionId (stamped WorktreeTransition);
  integration_events : gmap IntegrationEventId (stamped IntegrationEvent);
}.
Definition empty : RepositoryState := mk ∅ ∅ ∅ ∅ ∅.

Definition apply (s : RepositoryState) (p : RepositoryPayload) (seq : N)
  : result StoreError RepositoryState :=
  let '(mk rs ws ss ts es) := s in
  match p with
  | RepositoryInstanceRecorded value =>
      let? rs := replace_repository rs value seq in Ok (mk rs ws ss ts es)
  | WorktreeInstanceRecorded value =>
      let? ws := replace_worktree ws value seq in Ok (mk rs ws ss ts es)
  | WorktreeSnapshotRecorded value =>
      let? ss := replace_snapshot ss value seq in Ok (mk rs ws ss ts es)
  | WorktreeTransitionRecorded value =>
      let? ts := replace_transition ts value seq in Ok (mk rs ws ss ts es)
  | IntegrationEventRecorded value =>
      let? es := replace_integration es value seq in Ok (mk rs ws ss ts es)
  end.

(** The journal rows of a replay, oldest first. *)
Fixpoint replay (s : RepositoryState) (rows : list (RepositoryPayload * N))
  : result StoreError RepositoryState :=
  match rows with
  | [] => Ok s
  | (p, seq) :: rest => let? s' := apply s p seq in replay s' rest
  end.
End RepositoryState.
Abbreviation RepositoryState := RepositoryState.RepositoryState.

(** ** Closure of the state *)

(** [values.get(&key).ok_or(StoreError::StoreCorrupt)?]. *)
Definition fetch {K V} `{Countable K} (m : gmap K (stamped V)) (k : K) : result StoreError V :=
  match m !! k with
  | Some (v, _) => Ok v
  | None => Err StoreError.StoreCorrupt
  end.

Definition for_values {K V} `{Countable K} (m : gmap K (stamped V))
    (f : V -> result StoreError unit) : result StoreError unit :=
  for_each (fun kv => f kv.2.1) (map_to_list m).

(** A participant of a transition or an integration: the snapshot exists and is
    one of the worktree. *)
Definition snapshot_of (snapshots : gmap WorktreeSnapshotId (stamped WorktreeSnapshot))
    (snapshot_id : WorktreeSnapshotId) (worktree_id : WorktreeId) : result StoreError unit :=
  let? snapshot := fetch snapshots snapshot_id in
  guard (WorktreeSnapshot.worktree_instance_id snapshot !=? worktree_id) StoreError.StoreCorrupt.

Definition validate_repository_relations (s : RepositoryState) : result StoreError unit :=
  let '(RepositoryState.mk repositories worktrees snapshots transitions integrations) := s in
  do? for_values repositories (fun repository =>
        guard (is_some_and (RepositoryInstance.derived_from repository)
                 (fun d => is_none (repositories !! d)))
          StoreError.StoreCorrupt) in
  do? for_values worktrees (fun worktree =>
        do? guard (is_none (repositories !! WorktreeInstance.repository_instance_id worktree))
              StoreError.StoreCorrupt in
        do? match WorktreeInstance.current_snapshot_id worktree with
            | Some snapshot_id =>
                snapshot_of snapshots snapshot_id (WorktreeInstance.worktree_instance_id worktree)
            | None => Ok tt
            end in
        match WorktreeInstance.recreated_from_worktree_instance_id worktree with
        | Some recreated_from =>
            let? previous := fetch worktrees recreated_from in
            guard (negb (is_terminal (WorktreeInstance.lifecycle previous)))
              StoreError.StoreCorrupt
        | None => Ok tt
        end) in
  do? for_values snapshots (fun snapshot =>
        guard (is_none (worktrees !! WorktreeSnapshot.worktree_instance_id snapshot))
          StoreError.StoreCorrupt) in
  do? for_values transitions (fun transition =>
        for_each (fun p : WorktreeId * option WorktreeSnapshotId =>
            do? guard (is_none (worktrees !! p.1)) StoreError.StoreCorrupt in
            match p.2 with
            | Some snapshot_id => snapshot_of snapshots snapshot_id p.1
            | None => Ok tt
            end)
          [(WorktreeTransition.from_worktree_instance_id transition,
            WorktreeTransition.from_snapshot_id transition);
           (WorktreeTransition.to_worktree_instance_id transition,
            WorktreeTransition.to_snapshot_id transition)]) in
  for_values integrations (fun integration =>
    do? guard (is_none (repositories !! IntegrationEvent.repository_instance_id integration)
               || is_none (worktrees !! IntegrationEvent.source_worktree_instance_id integration)
               || is_none (worktrees !! IntegrationEvent.destination_worktree_instance_id integration))
          StoreError.StoreCorrupt in
    do? snapshot_of snapshots (IntegrationEvent.source_snapshot_id integration)
          (IntegrationEvent.source_worktree_instance_id integration) in
    snapshot_of snapshots (IntegrationEvent.destination_snapshot_id integration)
      (IntegrationEvent.destination_worktree_instance_id integration)).

(** ** Closure of a command *)

(** [insert_unique] over the payloads of one command, one map per kind. *)
Definition insert_unique {K V} `{Countable K} (m : gmap K V) (key : K) (value : V)
  : result StoreError (gmap K V) :=
  do? guard (is_some (m !! key)) StoreError.InvalidInput in
  Ok (<[key := value]> m).

Module CommandMaps.
Record CommandMaps := mk {
  repositories : gmap RepositoryId RepositoryInstance;
  worktrees : gmap WorktreeId WorktreeInstance;
  snapshots : gmap WorktreeSnapshotId WorktreeSnapshot;
  transitions : gmap WorktreeTransitionId WorktreeTransition;
  integrations : gmap IntegrationEventId IntegrationEvent;
}.
Definition insert (m : CommandMaps) (p : RepositoryPayload) : result StoreError CommandMaps :=
  let '(mk rs ws ss ts es) := m in
  match p with
  | RepositoryInstanceRecorded v =>
      let? rs := insert_unique rs (RepositoryInstance.repository_id v) v in Ok (mk rs ws ss ts es)
  | WorktreeInstanceRecorded v =>
      let? ws := insert_unique ws (WorktreeInstance.worktree_instance_id v) v in
      Ok (mk rs ws ss ts es)
  | WorktreeSnapshotRecorded v =>
      let? ss := insert_unique ss (WorktreeSnapshot.worktree_snapshot_id v) v in
      Ok (mk rs ws ss ts es)
  | WorktreeTransitionRecorded v =>
      let? ts := insert_unique ts (WorktreeTransition.worktree_transition_id v) v in
      Ok (mk rs ws ss ts es)
  | IntegrationEventRecorded v =>
      let? es := insert_unique es (IntegrationEvent.integration_event_id v) v in
      Ok (mk rs ws ss ts es)
  end.
Fixpoint collect (m : CommandMaps) (ps : list RepositoryPayload) : result StoreError CommandMaps :=
  match ps with
  | [] => Ok m
  | p :: rest => let? m' := insert m p in collect m' rest
  end.
End CommandMaps.
Abbreviation CommandMaps := CommandMaps.CommandMaps.

(** [if let Some(id) = id && let Some(snapshot) = snapshots.get(&id) && ..]. *)
Definition foreign_snapshot (snapshots : gmap WorktreeSnapshotId WorktreeSnapshot)
    (snapshot_id : option WorktreeSnapshotId) (worktree_id : WorktreeId) : bool :=
  is_some_and snapshot_id (fun id =>
    is_some_and (snapshots !! id) (fun s => WorktreeSnapshot.worktree_instance_id s !=? worktree_id)).

Definition validate_repository_payloads (ps : list RepositoryPayload) : result StoreError unit :=
  let? m := CommandMaps.collect (CommandMaps.mk ∅ ∅ ∅ ∅ ∅) ps in
  let '(CommandMaps.mk _ worktrees snapshots transitions integrations) := m in
  do? for_each (fun kv : WorktreeId * WorktreeInstance =>
        let worktree := kv.2 in
        do? guard (foreign_snapshot snapshots (WorktreeInstance.current_snapshot_id worktree)
                     (WorktreeInstance.worktree_instance_id worktree))
              StoreError.InvalidInput in
        guard (is_some_and (WorktreeInstance.recreated_from_worktree_instance_id worktree) (fun r =>
                 is_some_and (worktrees !! r) (fun previous =>
                   negb (is_terminal (WorktreeInstance.lifecycle previous)))))
          StoreError.InvalidInput) (map_to_list worktrees) in
  do? for_each (fun kv : WorktreeSnapshotId * WorktreeSnapshot =>
        guard (is_some_and (worktrees !! WorktreeSnapshot.worktree_instance_id kv.2) (fun w =>
                 WorktreeInstance.current_snapshot_id w
                 !=? Some (WorktreeSnapshot.worktree_snapshot_id kv.2)))
          StoreError.InvalidInput) (map_to_list snapshots) in
  do? for_each (fun kv : WorktreeTransitionId * WorktreeTransition =>
        do? guard (foreign_snapshot snapshots (WorktreeTransition.from_snapshot_id kv.2)
                     (WorktreeTransition.from_worktree_instance_id kv.2)) StoreError.InvalidInput in
        guard (foreign_snapshot snapshots (WorktreeTransition.to_snapshot_id kv.2)
                 (WorktreeTransition.to_worktree_instance_id kv.2)) StoreError.InvalidInput)
      (map_to_list transitions) in
  for_each (fun kv : IntegrationEventId * IntegrationEvent =>
        do? guard (foreign_snapshot snapshots (Some (IntegrationEvent.source_snapshot_id kv.2))
                     (IntegrationEvent.source_worktree_instance_id kv.2)) StoreError.InvalidInput in
        guard (foreign_snapshot snapshots (Some (IntegrationEvent.destination_snapshot_id kv.2))
                 (IntegrationEvent.destination_worktree_instance_id kv.2)) StoreError.InvalidInput)
    (map_to_list integrations).

(** ** Lemmas *)

Lemma starts_with_prefix {A} `{!EqDecision A} (l p : list A) :
  starts_with l p = true <-> p `prefix_of` l.
Proof. by rewrite starts_with_true. Qed.

Lemma prefix_of_true previous next : prefix_of previous next = true <-> previous `prefix_of` next.
Proof.
  unfold prefix_of. rewrite andb_true_iff, Nat.leb_le, starts_with_prefix.
  split; [tauto|]. intros H. split; [by apply prefix_length|done].
Qed.

Lemma for_values_ok {K V} `{Countable K} (m : gmap K (stamped V)) f u :
  for_values m f = Ok u <-> forall k v n, m !! k = Some (v, n) -> f v = Ok tt.
Proof.
  unfold for_values. rewrite for_each_ok, Forall_forall. split.
  - intros Hf k v n Hk. apply (Hf (k, (v, n))). by apply elem_of_map_to_list.
  - intros Hf [k [v n]] Hk. apply elem_of_map_to_list in Hk. by eapply Hf.
Qed.

Lemma snapshot_of_ok ss id w u :
  snapshot_of ss id w = Ok u <->
  exists s n, ss !! id = Some (s, n) /\ WorktreeSnapshot.worktree_instance_id s = w.
Proof.
  unfold snapshot_of, fetch. destruct (ss !! id) as [[s n]|]; simpl.
  - rewrite guard_ok, negb_false_iff, bool_decide_eq_true. naive_solver.
  - naive_solver.
Qed.

Lemma is_none_lookup {K V} `{Countable K} (m : gmap K V) k :
  is_none (m !! k) = false <-> is_Some (m !! k).
Proof. rewrite is_none_false. unfold is_Some. done. Qed.

(** ** The closure of the state as a plain statement *)

Module Closure.
Import RepositoryState.

Definition has_snapshot (s : RepositoryState) (id : WorktreeSnapshotId) (w : WorktreeId) : Prop :=
  exists snap n, worktree_snapshots s !! id = Some (snap, n) /\
                 WorktreeSnapshot.worktree_instance_id snap = w.

Record closed (s : RepositoryState) : Prop := {
  closed_derived : forall k r n d, repositories s !! k = Some (r, n) ->
    RepositoryInstance.derived_from r = Some d -> is_Some (repositories s !! d);
  closed_repository : forall k w n, worktrees s !! k = Some (w, n) ->
    is_Some (repositories s !! WorktreeInstance.repository_instance_id w);
  closed_current : forall k w n id, worktrees s !! k = Some (w, n) ->
    WorktreeInstance.current_snapshot_id w = Some id ->
    has_snapshot s id (WorktreeInstance.worktree_instance_id w);
  closed_recreated : forall k w n r, worktrees s !! k = Some (w, n) ->
    WorktreeInstance.recreated_from_worktree_instance_id w = Some r ->
    exists previous m, worktrees s !! r = Some (previous, m) /\
                       is_terminal (WorktreeInstance.lifecycle previous) = true;
  closed_snapshot : forall k x n, worktree_snapshots s !! k = Some (x, n) ->
    is_Some (worktrees s !! WorktreeSnapshot.worktree_instance_id x);
  closed_transition : forall k t n, worktree_transitions s !! k = Some (t, n) ->
    is_Some (worktrees s !! WorktreeTransition.from_worktree_instance_id t) /\
    is_Some (worktrees s !! WorktreeTransition.to_worktree_instance_id t) /\
    (forall id, WorktreeTransition.from_snapshot_id t = Some id ->
       has_snapshot s id (WorktreeTransition.from_worktree_instance_id t)) /\
    (forall id, WorktreeTransition.to_snapshot_id t = Some id ->
       has_snapshot s id (WorktreeTransition.to_worktree_instance_id t));
  closed_integration : forall k e n, integration_events s !! k = Some (e, n) ->
    is_Some (repositories s !! IntegrationEvent.repository_instance_id e) /\
    is_Some (worktrees s !! IntegrationEvent.source_worktree_instance_id e) /\
    is_Some (worktrees s !! IntegrationEvent.destination_worktree_instance_id e) /\
    has_snapshot s (IntegrationEvent.source_snapshot_id e)
      (IntegrationEvent.source_worktree_instance_id e) /\
    has_snapshot s (IntegrationEvent.destination_snapshot_id e)
      (IntegrationEvent.destination_worktree_instance_id e);
}.

(** [if let Some(x) = o { f(x)?; }] succeeds when [f] does on the value. *)
Lemma option_check_ok {A E} (o : option A) (f : A -> result E unit) :
  match o with Some x => f x | None => Ok tt end = Ok tt <-> (forall x, o = Some x -> f x = Ok tt).
Proof. destruct o; naive_solver. Qed.

Lemma recreated_ok (ws : gmap WorktreeId (stamped WorktreeInstance)) r :
  (let? previous := fetch ws r in
   guard (negb (is_terminal (WorktreeInstance.lifecycle previous))) StoreError.StoreCorrupt) = Ok tt <->
  exists previous m, ws !! r = Some (previous, m) /\
                     is_terminal (WorktreeInstance.lifecycle previous) = true.
Proof.
  unfold fetch. destruct (ws !! r) as [[p m]|]; simpl; [|naive_solver].
  rewrite guard_ok, negb_false_iff. naive_solver.
Qed.

Lemma relations_ok s : validate_repository_relations s = Ok tt <-> closed s.
Proof.
  destruct s as [rs ws ss ts es]. unfold validate_repository_relations.
  rewrite !bind_unit_ok, !for_values_ok. split.
  - intros (Hr & Hw & Hs & Ht & He). split; cbn; intros k v n.
    + intros d Hk Hd. specialize (Hr k v n Hk). rewrite guard_ok, Hd in Hr. by apply is_none_lookup.
    + intros Hk. specialize (Hw k v n Hk). rewrite bind_unit_ok, guard_ok in Hw.
      apply is_none_lookup. tauto.
    + intros id Hk Hid. specialize (Hw k v n Hk). rewrite !bind_unit_ok, Hid in Hw.
      apply snapshot_of_ok with tt. tauto.
    + intros r Hk Hid. specialize (Hw k v n Hk). rewrite !bind_unit_ok, Hid in Hw.
      apply recreated_ok. tauto.
    + intros Hk. specialize (Hs k v n Hk). rewrite guard_ok in Hs. by apply is_none_lookup.
    + intros Hk. specialize (Ht k v n Hk). rewrite for_each_ok, !Forall_cons in Ht.
      cbn in Ht. rewrite !bind_unit_ok, !guard_ok, !is_none_lookup, !option_check_ok in Ht.
      destruct Ht as ((? & F) & (? & G) & _). split_and!; try done;
        intros id Hid; apply snapshot_of_ok with tt; auto.
    + intros Hk. specialize (He k v n Hk).
      rewrite !bind_unit_ok, !guard_ok, !orb_false_iff, !is_none_lookup, !snapshot_of_ok in He. tauto.
  - intros [A B C D E F G]; cbn in A, B, C, D, E, F, G. split_and!; intros k v n Hk.
    + rewrite guard_ok. destruct (RepositoryInstance.derived_from v) as [d|] eqn:Ed; [|done].
      cbn. apply is_none_lookup. by eapply A.
    + rewrite !bind_unit_ok, guard_ok, is_none_lookup, !option_check_ok. split_and!; [by eapply B| |].
      * intros id Hid. apply snapshot_of_ok. by eapply C.
      * intros r Hr. apply recreated_ok. by eapply D.
    + rewrite guard_ok, is_none_lookup. by eapply E.
    + rewrite for_each_ok, !Forall_cons. cbn.
      rewrite !bind_unit_ok, !guard_ok, !is_none_lookup, !option_check_ok.
      destruct (F k v n Hk) as (? & ? & H1 & H2). split_and!; try done;
        intros id Hid; apply snapshot_of_ok; first [exact (H1 id Hid)|exact (H2 id Hid)].
    + rewrite !bind_unit_ok, !guard_ok, !orb_false_iff, !is_none_lookup, !snapshot_of_ok.
      specialize (G k v n Hk). unfold has_snapshot in G. cbn in G. tauto.
Qed.

End Closure.

(** ** How the state grows *)

Module Growth.
Import RepositoryState.

(** What later revisions of a worktree keep of an earlier one. *)
Record worktree_extends (w w' : WorktreeInstance) : Prop := {
  ext_id : WorktreeInstance.worktree_instance_id w' = WorktreeInstance.worktree_instance_id w;
  ext_repository :
    WorktreeInstance.repository_instance_id w' = WorktreeInstance.repository_instance_id w;
  ext_kind : WorktreeInstance.kind w' = WorktreeInstance.kind w;
  ext_created : WorktreeInstance.created_event_ref w' = WorktreeInstance.created_event_ref w;
  ext_recreated : WorktreeInstance.recreated_from_worktree_instance_id w'
    = WorktreeInstance.recreated_from_worktree_instance_id w;
  ext_paths : WorktreeInstance.path_history w `prefix_of` WorktreeInstance.path_history w';
  ext_admin :
    WorktreeInstance.git_admin_path_history w `prefix_of` WorktreeInstance.git_admin_path_history w';
  ext_terminal : is_terminal (WorktreeInstance.lifecycle w) = true ->
    WorktreeInstance.lifecycle w' = WorktreeInstance.lifecycle w;
  ext_archived : WorktreeInstance.lifecycle w = WorktreeLifecycle.Archived ->
    lifecycle_successor_allowed WorktreeLifecycle.Archived (WorktreeInstance.lifecycle w') = true;
}.

Record repository_extends (r r' : RepositoryInstance) : Prop := {
  rext_id : RepositoryInstance.repository_id r' = RepositoryInstance.repository_id r;
  rext_derived : RepositoryInstance.derived_from r' = RepositoryInstance.derived_from r;
  rext_format : RepositoryInstance.object_format r' = RepositoryInstance.object_format r;
  rext_filesystem :
    RepositoryInstance.common_dir_filesystem r' = RepositoryInstance.common_dir_filesystem r;
  rext_paths : RepositoryInstance.path_history r `prefix_of` RepositoryInstance.path_history r';
}.

Record transition_extends (t t' : WorktreeTransition) : Prop := {
  text_id : WorktreeTransition.worktree_transition_id t' = WorktreeTransition.worktree_transition_id t;
  text_from : WorktreeTransition.from_worktree_instance_id t'
    = WorktreeTransition.from_worktree_instance_id t;
  text_to : WorktreeTransition.to_worktree_instance_id t' = WorktreeTransition.to_worktree_instance_id t;
  text_from_snapshot : WorktreeTransition.from_snapshot_id t' = WorktreeTransition.from_snapshot_id t;
  text_to_snapshot : WorktreeTransition.to_snapshot_id t' = WorktreeTransition.to_snapshot_id t;
  text_kind : WorktreeTransition.kind t' = WorktreeTransition.kind t;
  text_watermark :
    (WorktreeTransition.source_watermark t <= WorktreeTransition.source_watermark t')%N;
}.

#[export] Instance worktree_extends_refl : Reflexive worktree_extends.
Proof. intros w. split; try done. by intros ->. Qed.
#[export] Instance worktree_extends_trans : Transitive worktree_extends.
Proof.
  intros a b c [] []. split; try congruence; try (etransitivity; eassumption).
  - intros H. rewrite ext_terminal1; rewrite ext_terminal0; auto.
  - intros H. specialize (ext_archived0 H).
    destruct (WorktreeInstance.lifecycle b) eqn:Eb; try discriminate ext_archived0; auto.
    + by rewrite ext_terminal1.
    + by rewrite ext_terminal1.
Qed.
#[export] Instance repository_extends_refl : Reflexive repository_extends.
Proof. intros r. by split. Qed.
#[export] Instance repository_extends_trans : Transitive repository_extends.
Proof. intros a b c [] []. split; try congruence; etransitivity; eassumption. Qed.
#[export] Instance transition_extends_refl : Reflexive transition_extends.
Proof. intros r. split; try done. Qed.
#[export] Instance transition_extends_trans : Transitive transition_extends.
Proof. intros a b c [] []. split; try congruence. lia. Qed.

(** Every entry of the first map is extended in the second. *)
Definition map_extends {K V} `{Countable K} (R : V -> V -> Prop) (m m' : gmap K (stamped V)) : Prop :=
  forall k v n, m !! k = Some (v, n) -> exists v' n', m' !! k = Some (v', n') /\ R v v'.

#[export] Instance map_extends_refl {K V} `{Countable K} (R : V -> V -> Prop) `{!Reflexive R} :
  Reflexive (map_extends (K := K) R).
Proof. intros m k v n Hk. by exists v, n. Qed.
#[export] Instance map_extends_trans {K V} `{Countable K} (R : V -> V -> Prop) `{!Transitive R} :
  Transitive (map_extends (K := K) R).
Proof.
  intros a b c Hab Hbc k v n Hk. destruct (Hab k v n Hk) as (v1 & n1 & H1 & R1).
  destruct (Hbc k v1 n1 H1) as (v2 & n2 & H2 & R2). exists v2, n2. split; [done|by trans v1].
Qed.

(** Replacing one entry by an extension of it. *)
Lemma map_extends_insert {K V} `{Countable K} (R : V -> V -> Prop) `{!Reflexive R}
    (m : gmap K (stamped V)) k v n :
  (forall c q, m !! k = Some (c, q) -> R c v) -> map_extends R m (<[k := (v, n)]> m).
Proof.
  intros HR k' c q Hk. destruct (decide (k = k')) as [->|Hne].
  - exists v, n. rewrite lookup_insert_eq. eauto.
  - exists c, q. by rewrite lookup_insert_ne.
Qed.

(** Entries sit under their own identifier. *)
Record keyed (s : RepositoryState) : Prop := {
  keyed_repositories : forall k r n, repositories s !! k = Some (r, n) ->
    RepositoryInstance.repository_id r = k;
  keyed_worktrees : forall k w n, worktrees s !! k = Some (w, n) ->
    WorktreeInstance.worktree_instance_id w = k;
  keyed_transitions : forall k t n, worktree_transitions s !! k = Some (t, n) ->
    WorktreeTransition.worktree_transition_id t = k;
}.

Record extends (s s' : RepositoryState) : Prop := {
  extends_repositories : map_extends repository_extends (repositories s) (repositories s');
  extends_worktrees : map_extends worktree_extends (worktrees s) (worktrees s');
  extends_snapshots : map_extends eq (worktree_snapshots s) (worktree_snapshots s');
  extends_transitions :
    map_extends transition_extends (worktree_transitions s) (worktree_transitions s');
  extends_integrations : map_extends eq (integration_events s) (integration_events s');
}.
#[export] Instance extends_refl : Reflexive extends.
Proof. intros s. split; reflexivity. Qed.
#[export] Instance extends_trans : Transitive extends.
Proof. intros a b c [] []. split; etransitivity; eassumption. Qed.

Lemma replace_worktree_ok ws w n ws' :
  replace_worktree ws w n = Ok ws' ->
  ws' = <[WorktreeInstance.worktree_instance_id w := (w, n)]> ws /\
  (forall c q, ws !! WorktreeInstance.worktree_instance_id w = Some (c, q) ->
     WorktreeInstance.worktree_instance_id c = WorktreeInstance.worktree_instance_id w ->
     worktree_extends c w).
Proof.
  unfold replace_worktree. destruct (ws !! _) as [[c q]|] eqn:E.
  - case_bool_decide as Heq.
    + intros [= <-]. split; [done|]. intros ? ? [= <- <-] _. by subst.
    + intros H. apply bind_unit_ok in H as [Hb H]. injection H as <-. split; [done|].
      intros ? ? [= <- <-] Hid. rewrite guard_ok in Hb. unfold worktree_continuity_broken in Hb.
      rewrite !orb_false_iff, !negb_false_iff, !bool_decide_eq_true, !prefix_of_true in Hb.
      destruct_and! Hb. rename select (lifecycle_successor_allowed _ _ = true) into HL.
      split; try congruence; try done.
      destruct (WorktreeInstance.lifecycle c); try discriminate; intros _;
        by apply bool_decide_eq_true in HL.
  - intros H. apply bind_unit_ok in H as [_ H]. injection H as <-. split; [done|]. by intros.
Qed.

Lemma replace_repository_ok rs r n rs' :
  replace_repository rs r n = Ok rs' ->
  rs' = <[RepositoryInstance.repository_id r := (r, n)]> rs /\
  (forall c q, rs !! RepositoryInstance.repository_id r = Some (c, q) ->
     RepositoryInstance.repository_id c = RepositoryInstance.repository_id r ->
     repository_extends c r).
Proof.
  unfold replace_repository. destruct (rs !! _) as [[c q]|] eqn:E.
  - case_bool_decide as Heq.
    + intros [= <-]. split; [done|]. intros ? ? [= <- <-] _. by subst.
    + intros H. apply bind_unit_ok in H as [Hb H]. injection H as <-. split; [done|].
      intros ? ? [= <- <-] Hid. rewrite guard_ok in Hb.
      rewrite !orb_false_iff, !negb_false_iff, !bool_decide_eq_true, prefix_of_true in Hb.
      destruct_and! Hb. split; congruence || done.
  - intros H. apply bind_unit_ok in H as [_ H]. injection H as <-. split; [done|]. by intros.
Qed.

Lemma replace_transition_ok ts t n ts' :
  replace_transition ts t n = Ok ts' ->
  ts' = <[WorktreeTransition.worktree_transition_id t := (t, n)]> ts /\
  (forall c q, ts !! WorktreeTransition.worktree_transition_id t = Some (c, q) ->
     WorktreeTransition.worktree_transition_id c = WorktreeTransition.worktree_transition_id t ->
     transition_extends c t).
Proof.
  unfold replace_transition. destruct (ts !! _) as [[c q]|] eqn:E.
  - case_bool_decide as Heq.
    + intros [= <-]. split; [done|]. intros ? ? [= <- <-] _. by subst.
    + intros H. apply bind_unit_ok in H as [Hb H]. injection H as <-. split; [done|].
      intros ? ? [= <- <-] Hid. rewrite guard_ok in Hb. unfold transition_continuity_broken in Hb.
      rewrite !orb_false_iff, !negb_false_iff, !bool_decide_eq_true, N.ltb_ge in Hb.
      destruct_and! Hb. split; congruence || done.
  - intros H. apply bind_unit_ok in H as [_ H]. injection H as <-. split; [done|]. by intros.
Qed.

(** The two immutable kinds. *)
Lemma immutable_guard {K V} `{Countable K, !EqDecision V} (m : gmap K (stamped V)) k v :
  is_some_and (m !! k) (fun c => c.1 !=? v) = false -> forall c q, m !! k = Some (c, q) -> c = v.
Proof.
  intros Hg c q Hk. rewrite Hk in Hg. cbn in Hg. by apply negb_false_iff, bool_decide_eq_true in Hg.
Qed.

Lemma apply_extends s p n s' : keyed s -> apply s p n = Ok s' -> extends s s' /\ keyed s'.
Proof.
  intros [K1 K2 K3] Ha. destruct s as [rs ws ss ts es]; cbn in K1, K2, K3. destruct p as [v|v|v|v|v];
    cbn in Ha; apply rbind_ok in Ha as (m' & Hm & Ha); injection Ha as <-.
  - apply replace_repository_ok in Hm as [-> Hx]. split.
    + split; cbn; try reflexivity. apply map_extends_insert; [apply _|].
      intros c q Hk. apply (Hx c q Hk). by eapply K1.
    + split; cbn; try done. intros k r q. rewrite lookup_insert_Some. naive_solver.
  - apply replace_worktree_ok in Hm as [-> Hx]. split.
    + split; cbn; try reflexivity. apply map_extends_insert; [apply _|].
      intros c q Hk. apply (Hx c q Hk). by eapply K2.
    + split; cbn; try done. intros k r q. rewrite lookup_insert_Some. naive_solver.
  - unfold replace_snapshot in Hm. apply bind_unit_ok in Hm as [Hg Hm]. injection Hm as <-.
    rewrite guard_ok in Hg. split; [|done]. split; cbn; try reflexivity.
    apply map_extends_insert; [apply _|]. by apply immutable_guard.
  - apply replace_transition_ok in Hm as [-> Hx]. split.
    + split; cbn; try reflexivity. apply map_extends_insert; [apply _|].
      intros c q Hk. apply (Hx c q Hk). by eapply K3.
    + split; cbn; try done. intros k r q. rewrite lookup_insert_Some. naive_solver.
  - unfold replace_integration in Hm. apply bind_unit_ok in Hm as [Hg Hm]. injection Hm as <-.
    rewrite guard_ok in Hg. split; [|done]. split; cbn; try reflexivity.
    apply map_extends_insert; [apply _|]. by apply immutable_guard.
Qed.

Lemma replay_extends rows s s' :
  keyed s -> replay s rows = Ok s' -> extends s s' /\ keyed s'.
Proof.
  revert s. induction rows as [|[p n] rows IH]; intros s K H; cbn in H.
  - injection H as <-. by split.
  - apply rbind_ok in H as (s1 & H1 & H). apply apply_extends in H1 as [E1 K1]; [|done].
    destruct (IH s1 K1 H) as [E2 K2]. split; [by trans s1|done].
Qed.

Lemma keyed_empty : keyed empty.
Proof. split; intros k v n; cbn; by rewrite lookup_empty. Qed.

Lemma replay_app rows1 rows2 s :
  replay s (rows1 ++ rows2) = (let? s1 := replay s rows1 in replay s1 rows2).
Proof.
  revert s. induction rows1 as [|[p n] rows1 IH]; intros s; cbn; [done|].
  destruct (apply s p n); cbn; [apply IH|done].
Qed.

End Growth.

(** ** Theorems *)

(** The relation check is exactly closure.  [validate_repository_relations]
    accepts a state if and only if every reference in it resolves: derived
    repositories, the repository and the current snapshot of a worktree, the
    terminated worktree another was recreated from, the worktree of a snapshot,
    and both ends of transitions and integrations, with snapshots of the
    worktree named. *)
Theorem relations_closed (s : RepositoryState) :
  validate_repository_relations s = Ok tt <-> Closure.closed s.
Proof. apply Closure.relations_ok. Qed.

(** Replay only extends the past.  However a journal is cut, the state
    after the longer prefix extends the state after the shorter one: snapshots
    and integrations are unchanged, a removed or pruned worktree never revives,
    an archived one can only terminate, path histories grow by appending, and
    the identity of repositories, worktrees and transitions is kept. *)
Theorem replay_extends_past rows1 rows2 s1 s2 :
  RepositoryState.replay RepositoryState.empty rows1 = Ok s1 ->
  RepositoryState.replay RepositoryState.empty (rows1 ++ rows2) = Ok s2 ->
  Growth.extends s1 s2.
Proof.
  intros H1 H2. rewrite Growth.replay_app, H1 in H2. cbn in H2.
  destruct (Growth.replay_extends rows1 _ s1 Growth.keyed_empty H1) as [_ K1].
  by apply (Growth.replay_extends rows2 s1 s2).
Qed.

(** The values of a state without the journal positions. *)
Definition same_values (s s' : RepositoryState) : Prop :=
  fst <$> RepositoryState.repositories s = fst <$> RepositoryState.repositories s' /\
  fst <$> RepositoryState.worktrees s = fst <$> RepositoryState.worktrees s' /\
  fst <$> RepositoryState.worktree_snapshots s = fst <$> RepositoryState.worktree_snapshots s' /\
  fst <$> RepositoryState.worktree_transitions s = fst <$> RepositoryState.worktree_transitions s' /\
  fst <$> RepositoryState.integration_events s = fst <$> RepositoryState.integration_events s'.

Lemma restamp {K V} `{Countable K} (m : gmap K (stamped V)) k v n q :
  fst <$> <[k := (v, n)]> m = fst <$> <[k := (v, q)]> (<[k := (v, n)]> m).
Proof. by rewrite insert_insert_eq, !fmap_insert. Qed.

(** Recording the same fact twice changes nothing.  If a payload was folded
    into the state, folding it again right away succeeds, whatever its journal
    position, and leaves every value as it is. *)
Theorem apply_idempotent (s s' : RepositoryState) p n m :
  RepositoryState.apply s p n = Ok s' ->
  exists s'', RepositoryState.apply s' p m = Ok s'' /\ same_values s' s''.
Proof.
  intros H. destruct s as [rs ws ss ts es]. destruct p as [v|v|v|v|v]; cbn in H;
    apply rbind_ok in H as (x & Hx & H); injection H as <-; unfold same_values; cbn.
  - apply Growth.replace_repository_ok in Hx as [-> _]. unfold replace_repository.
    rewrite lookup_insert_eq, bool_decide_eq_true_2 by done. cbn.
    eexists. split; [done|]. split_and!; try done; apply restamp.
  - apply Growth.replace_worktree_ok in Hx as [-> _]. unfold replace_worktree.
    rewrite lookup_insert_eq, bool_decide_eq_true_2 by done. cbn.
    eexists. split; [done|]. split_and!; try done; apply restamp.
  - unfold replace_snapshot in *. apply bind_unit_ok in Hx as [_ Hx]. injection Hx as <-.
    rewrite lookup_insert_eq. cbn. rewrite bool_decide_eq_true_2 by done. cbn.
    eexists. split; [done|]. split_and!; try done; apply restamp.
  - apply Growth.replace_transition_ok in Hx as [-> _]. unfold replace_transition.
    rewrite lookup_insert_eq, bool_decide_eq_true_2 by done. cbn.
    eexists. split; [done|]. split_and!; try done; apply restamp.
  - unfold replace_integration in *. apply bind_unit_ok in Hx as [_ Hx]. injection Hx as <-.
    rewrite lookup_insert_eq. cbn. rewrite bool_decide_eq_true_2 by done. cbn.
    eexists. split; [done|]. split_and!; try done; apply restamp.
Qed.

(** ** A concrete journal *)

Definition observed (p : string) : PathObservation := PathObservation.mk p 1 1 ["probe"%string].

Definition repo0 : RepositoryInstance :=
  RepositoryInstance.mk (mk_id (mk_uuid 1)) 1 None "/repo" [observed "/repo"]
    (Some "/repo/.git"%string) (Some (FilesystemIdentity.mk 1 2)) (Some GitObjectFormat.Sha1) []
    None ["probe"%string] 1 false None.

Definition worktree0 : WorktreeInstance :=
  WorktreeInstance.mk (mk_id (mk_uuid 2)) 1 None (mk_id (mk_uuid 1)) WorktreeKind.Main
    WorktreeLifecycle.Active (Some "/repo"%string) [observed "/repo"] [observed "/repo/.git"]
    GitRegistrationState.Registered None "created" None None 1.

Definition worktree1 : WorktreeInstance :=
  WorktreeInstance.mk (mk_id (mk_uuid 2)) 2 (Some 1%N) (mk_id (mk_uuid 1)) WorktreeKind.Main
    WorktreeLifecycle.Removed None [observed "/repo"] [observed "/repo/.git"]
    GitRegistrationState.Absent None "created" (Some "removed"%string) None 2.

Definition rows_before : list (RepositoryPayload * N) :=
  [(RepositoryInstanceRecorded repo0, 1%N); (WorktreeInstanceRecorded worktree0, 2%N)].
Definition rows_after : list (RepositoryPayload * N) := [(WorktreeInstanceRecorded worktree1, 3%N)].

Definition state_of (rows : list (RepositoryPayload * N)) : RepositoryState :=
  match RepositoryState.replay RepositoryState.empty rows with
  | Ok s => s
  | Err _ => RepositoryState.empty
  end.

Lemma sample_records_valid :
  RepositoryInstance.validate repo0 = Ok tt /\ WorktreeInstance.validate worktree0 = Ok tt /\
  WorktreeInstance.validate worktree1 = Ok tt.
Proof. split_and!; vm_compute; reflexivity. Qed.

Lemma relations_closed_witness :
  validate_repository_relations (state_of (rows_before ++ rows_after)) = Ok tt /\
  Closure.closed (state_of (rows_before ++ rows_after)).
Proof.
  split; [vm_compute; reflexivity|]. apply relations_closed. vm_compute. reflexivity.
Defined.

Lemma replay_extends_past_witness :
  Growth.extends (state_of rows_before) (state_of (rows_before ++ rows_after)).
Proof.
  apply (replay_extends_past rows_before rows_after); vm_compute; reflexivity.
Defined.

Lemma apply_idempotent_witness :
  exists s'', RepositoryState.apply (state_of rows_before) (WorktreeInstanceRecorded worktree0) 9
              = Ok s'' /\ same_values (state_of rows_before) s''.
Proof.
  apply (apply_idempotent (state_of [(RepositoryInstanceRecorded repo0, 1%N)]) _ _ 2 9).
  vm_compute. reflexivity.
Defined.

(** A removed worktree is not revived. *)
Lemma revive_refused :
  RepositoryState.replay RepositoryState.empty
    (rows_before ++ rows_after ++
     [(WorktreeInstanceRecorded
         (WorktreeInstance.mk (mk_id (mk_uuid 2)) 3 (Some 2%N) (mk_id (mk_uuid 1)) WorktreeKind.Main
            WorktreeLifecycle.Active (Some "/repo"%string) [observed "/repo"] [observed "/repo/.git"]
            GitRegistrationState.Registered None "created" None None 3), 4%N)])
  = Err StoreError.StoreCorrupt.
Proof. vm_compute. reflexivity. Qed.
