(* ===== verification/Work.v ===== *)
(** * Tasks, workstreams and work bindings

    [evertrace-domain/src/work/task.rs], [workstream.rs] and [binding.rs]: the
    records, their validators, the successor check of bindings and the context
    derived from a binding. *)

From S2P Require Import Prelude Order Collections Text Ids Lane Attempt.

(** ** Tasks *)

Module TaskIdentityConfidence.
Inductive TaskIdentityConfidence :=
| Explicit
| StronglyInferred
| Provisional.
#[export] Instance eq_dec : EqDecision TaskIdentityConfidence.
Proof. solve_decision. Defined.
End TaskIdentityConfidence.
Abbreviation TaskIdentityConfidence := TaskIdentityConfidence.TaskIdentityConfidence.
Export (hints) TaskIdentityConfidence.

Module TaskLifecycle.
Inductive TaskLifecycle :=
| Active
| Paused
| Completed
| Abandoned
| Superseded.
#[export] Instance eq_dec : EqDecision TaskLifecycle.
Proof. solve_decision. Defined.
End TaskLifecycle.
Abbreviation TaskLifecycle := TaskLifecycle.TaskLifecycle.
Export (hints) TaskLifecycle.

Definition task_is_terminal (l : TaskLifecycle) : bool :=
  contains l [TaskLifecycle.Completed; TaskLifecycle.Abandoned; TaskLifecycle.Superseded].

Module TaskScopeMembership.
Record TaskScopeMembership := mk {
  repository_instance_id : option RepositoryId;
  worktree_instance_ids : list WorktreeId;
}.
#[export] Instance eq_dec : EqDecision TaskScopeMembership.
Proof. solve_decision. Defined.
Definition key (m : TaskScopeMembership) := (repository_instance_id m, worktree_instance_ids m).
Lemma TaskScopeMembership_key_inj x y : key x = key y -> x = y.
Proof. destruct x, y; unfold key; simpl; congruence. Qed.
#[export] Instance ord : Ord TaskScopeMembership := Ord_by key TaskScopeMembership_key_inj.

Definition validate (self : TaskScopeMembership) : result WorkError unit :=
  guard ((MAX_REFS <? length (worktree_instance_ids self))%nat
         || negb (strictly_ordered_unique (worktree_instance_ids self))
         || is_none (repository_instance_id self) && negb (is_empty (worktree_instance_ids self)))
    WorkError.InvalidWorkIdentity.
End TaskScopeMembership.
Abbreviation TaskScopeMembership := TaskScopeMembership.TaskScopeMembership.
Export (hints) TaskScopeMembership.

Module Task.
Record Task := mk {
  task_id : TaskId;
  revision_id : RevisionId;
  predecessor_revision_id : option RevisionId;
  request_root_refs : list string;
  canonical_goal : string;
  scope_memberships : list TaskScopeMembership;
  identity_confidence : TaskIdentityConfidence;
  lifecycle : TaskLifecycle;
  continuation_of_task_id : option TaskId;
  split_from_task_id : option TaskId;
  split_into_task_ids : list TaskId;
  merged_from_task_ids : list TaskId;
  merged_into_task_id : option TaskId;
  created_at_us : Z;
  closed_at_us : option Z;
  source_watermark : N;
}.
#[export] Instance eq_dec : EqDecision Task.
Proof. solve_decision. Defined.
Definition validate (self : Task) : result WorkError unit :=
  do? guard
    (negb (bounded (canonical_goal self))
     || is_empty (request_root_refs self)
     || negb (bounded_refs (request_root_refs self))
     || (MAX_REFS <? length (scope_memberships self))%nat
     || negb (strictly_ordered_unique (scope_memberships self))
     || negb (ordered_ids (split_into_task_ids self))
     || negb (ordered_ids (merged_from_task_ids self))
     || (created_at_us self <? 0)%Z
     || is_some_and (closed_at_us self) (fun closed => (closed <? created_at_us self)%Z)
     || xorb (task_is_terminal (lifecycle self)) (is_some (closed_at_us self))
     || (continuation_of_task_id self ==? Some (task_id self))
     || (split_from_task_id self ==? Some (task_id self))
     || (merged_into_task_id self ==? Some (task_id self))
     || contains (task_id self) (split_into_task_ids self)
     || contains (task_id self) (merged_from_task_ids self)
     || negb (is_empty (merged_from_task_ids self))
        && (is_some (continuation_of_task_id self) || is_some (split_from_task_id self)))
    WorkError.InvalidWorkIdentity in
  for_each TaskScopeMembership.validate (scope_memberships self).
End Task.
Abbreviation Task := Task.Task.
Export (hints) Task.

(** ** Workstreams *)

Module PhaseKind.
Inductive PhaseKind :=
| Orient
| Inspect
| Reproduce
| Diagnose
| Design
| Implement
| Verify
| Execute
| Analyze
| Recover
| Deliver
| Unknown.
#[export] Instance eq_dec : EqDecision PhaseKind.
Proof. solve_decision. Defined.
End PhaseKind.
Abbreviation PhaseKind := PhaseKind.PhaseKind.
Export (hints) PhaseKind.

Module PhaseContract.
Record PhaseContract := mk {
  local_goal : string;
  phase_kind : PhaseKind;
  phase_label : string;
  primary_targets : list string;
  entry_conditions : list string;
  acceptance_boundary : string;
  expected_state_transition : string;
}.
#[export] Instance eq_dec : EqDecision PhaseContract.
Proof. solve_decision. Defined.
Definition validate (self : PhaseContract) : result WorkError unit :=
  guard (negb (bounded (local_goal self)) || negb (bounded (phase_label self))
         || negb (bounded (acceptance_boundary self))
         || negb (bounded (expected_state_transition self))
         || negb (bounded_refs (primary_targets self))
         || negb (bounded_refs (entry_conditions self)))
    WorkError.InvalidWorkIdentity.
End PhaseContract.
Abbreviation PhaseContract := PhaseContract.PhaseContract.
Export (hints) PhaseContract.

Module WorkstreamStatus.
Inductive WorkstreamStatus :=
| Active
| Paused
| Closed
| Superseded.
#[export] Instance eq_dec : EqDecision WorkstreamStatus.
Proof. solve_decision. Defined.
End WorkstreamStatus.
Abbreviation WorkstreamStatus := WorkstreamStatus.WorkstreamStatus.
Export (hints) WorkstreamStatus.

Definition workstream_is_terminal (s : WorkstreamStatus) : bool :=
  contains s [WorkstreamStatus.Closed; WorkstreamStatus.Superseded].

Module Workstream.
Record Workstream := mk {
  workstream_id : WorkstreamId;
  revision_id : RevisionId;
  predecessor_revision_id : option RevisionId;
  task_id : TaskId;
  repository_instance_id : option RepositoryId;
  worktree_instance_ids : list WorktreeId;
  active_worktree_instance_id : option WorktreeId;
  worktree_lineage_refs : list string;
  parent_workstream_id : option WorkstreamId;
  dependency_workstream_ids : list WorkstreamId;
  status : WorkstreamStatus;
  root_goal : string;
  workstream_goal : string;
  target_family : string;
  hypothesis_or_failure_family : string;
  acceptance_boundary : string;
  phase_contract : PhaseContract;
  active_episode_id : option WorkEpisodeId;
  execution_lane_ids : list ExecutionLaneId;
  source_watermark : N;
}.
#[export] Instance eq_dec : EqDecision Workstream.
Proof. solve_decision. Defined.
Definition set_superseded (self : Workstream)
    (v_revision_id : RevisionId) (v_predecessor_revision_id : option RevisionId) (v_status :
    WorkstreamStatus) (v_source_watermark : N) : Workstream :=
  mk
    (self.(workstream_id)) v_revision_id v_predecessor_revision_id (self.(task_id))
    (self.(repository_instance_id)) (self.(worktree_instance_ids))
    (self.(active_worktree_instance_id)) (self.(worktree_lineage_refs))
    (self.(parent_workstream_id)) (self.(dependency_workstream_ids)) v_status
    (self.(root_goal)) (self.(workstream_goal)) (self.(target_family))
    (self.(hypothesis_or_failure_family)) (self.(acceptance_boundary))
    (self.(phase_contract)) (self.(active_episode_id)) (self.(execution_lane_ids))
    v_source_watermark.
Definition set_active (self : Workstream)
    (v_revision_id : RevisionId) (v_predecessor_revision_id : option RevisionId)
    (v_active_episode_id : option WorkEpisodeId) (v_phase_contract : PhaseContract)
    (v_source_watermark : N) : Workstream :=
  mk
    (self.(workstream_id)) v_revision_id v_predecessor_revision_id (self.(task_id))
    (self.(repository_instance_id)) (self.(worktree_instance_ids))
    (self.(active_worktree_instance_id)) (self.(worktree_lineage_refs))
    (self.(parent_workstream_id)) (self.(dependency_workstream_ids)) (self.(status))
    (self.(root_goal)) (self.(workstream_goal)) (self.(target_family))
    (self.(hypothesis_or_failure_family)) (self.(acceptance_boundary)) v_phase_contract
    v_active_episode_id (self.(execution_lane_ids)) v_source_watermark.

Definition validate (self : Workstream) : result WorkError unit :=
  do? guard
    (negb (bounded (root_goal self)) || negb (bounded (workstream_goal self))
     || negb (bounded (target_family self)) || negb (bounded (hypothesis_or_failure_family self))
     || negb (bounded (acceptance_boundary self))
     || (MAX_REFS <? length (worktree_instance_ids self))%nat
     || negb (strictly_ordered_unique (worktree_instance_ids self))
     || (MAX_REFS <? length (worktree_lineage_refs self))%nat
     || negb (bounded_refs (worktree_lineage_refs self))
     || (MAX_REFS <? length (dependency_workstream_ids self))%nat
     || negb (strictly_ordered_unique (dependency_workstream_ids self))
     || (MAX_REFS <? length (execution_lane_ids self))%nat
     || negb (strictly_ordered_unique (execution_lane_ids self))
     || is_some_and (active_worktree_instance_id self)
          (fun id => negb (contains id (worktree_instance_ids self)))
     || is_none (predecessor_revision_id self) && is_some (active_episode_id self)
     || is_none (repository_instance_id self) && negb (is_empty (worktree_instance_ids self))
     || (parent_workstream_id self ==? Some (workstream_id self))
     || contains (workstream_id self) (dependency_workstream_ids self))
    WorkError.InvalidWorkIdentity in
  PhaseContract.validate (phase_contract self).
End Workstream.
Abbreviation Workstream := Workstream.Workstream.
Export (hints) Workstream.

Module CorrelationEvidenceKind.
Inductive CorrelationEvidenceKind :=
| ExplicitTask
| ExplicitWorkstream
| Handoff
| Plan
| Patch
| Test
| Error
| Hypothesis_
| ExecutionLane
| Session
| ParentThread
| FileSymbolOverlap
| RecentActivity
| TimeProximity
| TextSimilarity.
#[export] Instance eq_dec : EqDecision CorrelationEvidenceKind.
Proof. solve_decision. Defined.
Definition rank (x : CorrelationEvidenceKind) : N :=
  match x with
  | ExplicitTask => 0
  | ExplicitWorkstream => 1
  | Handoff => 2
  | Plan => 3
  | Patch => 4
  | Test => 5
  | Error => 6
  | Hypothesis_ => 7
  | ExecutionLane => 8
  | Session => 9
  | ParentThread => 10
  | FileSymbolOverlap => 11
  | RecentActivity => 12
  | TimeProximity => 13
  | TextSimilarity => 14
  end.
Lemma CorrelationEvidenceKind_rank_inj x y : rank x = rank y -> x = y.
Proof. by destruct x, y. Qed.
#[export] Instance ord : Ord CorrelationEvidenceKind := Ord_by rank CorrelationEvidenceKind_rank_inj.
End CorrelationEvidenceKind.
Abbreviation CorrelationEvidenceKind := CorrelationEvidenceKind.CorrelationEvidenceKind.
Export (hints) CorrelationEvidenceKind.

Definition is_strong (k : CorrelationEvidenceKind) : bool :=
  contains k [CorrelationEvidenceKind.Handoff; CorrelationEvidenceKind.Plan;
              CorrelationEvidenceKind.Patch; CorrelationEvidenceKind.Test;
              CorrelationEvidenceKind.Error; CorrelationEvidenceKind.Hypothesis_].

Module CorrelationEvidence.
Record CorrelationEvidence := mk {
  kind : CorrelationEvidenceKind;
  evidence_ref : string;
  candidate_task_ids : list TaskId;
  candidate_workstream_ids : list WorkstreamId;
}.
#[export] Instance eq_dec : EqDecision CorrelationEvidence.
Proof. solve_decision. Defined.
Definition validate (self : CorrelationEvidence) : result WorkError unit :=
  guard (negb (bounded (evidence_ref self))
         || (MAX_REFS <? length (candidate_task_ids self))%nat
         || negb (strictly_ordered_unique (candidate_task_ids self))
         || (MAX_REFS <? length (candidate_workstream_ids self))%nat
         || negb (strictly_ordered_unique (candidate_workstream_ids self))
         || is_empty (candidate_task_ids self) && is_empty (candidate_workstream_ids self))
    WorkError.InvalidWorkIdentity.
End CorrelationEvidence.
Abbreviation CorrelationEvidence := CorrelationEvidence.CorrelationEvidence.
Export (hints) CorrelationEvidence.

Module UnresolvedWorkstream.
Record UnresolvedWorkstream := mk {
  candidate_task_ids : list TaskId;
  candidate_workstream_ids : list WorkstreamId;
  missing_evidence : list string;
  conflict_reason : string;
  exit_conditions : list string;
  source_watermark : N;
}.
#[export] Instance eq_dec : EqDecision UnresolvedWorkstream.
Proof. solve_decision. Defined.
Definition validate (self : UnresolvedWorkstream) : result WorkError unit :=
  guard ((MAX_REFS <? length (candidate_task_ids self))%nat
         || negb (strictly_ordered_unique (candidate_task_ids self))
         || (MAX_REFS <? length (candidate_workstream_ids self))%nat
         || negb (strictly_ordered_unique (candidate_workstream_ids self))
         || negb (bounded_refs (missing_evidence self)) || negb (bounded (conflict_reason self))
         || negb (bounded_refs (exit_conditions self)))
    WorkError.InvalidWorkIdentity.
End UnresolvedWorkstream.
Abbreviation UnresolvedWorkstream := UnresolvedWorkstream.UnresolvedWorkstream.
Export (hints) UnresolvedWorkstream.

Module CorrelationResult.
Inductive CorrelationResult :=
| Resolved (_ : WorkstreamId)
| Unresolved (_ : UnresolvedWorkstream).
#[export] Instance eq_dec : EqDecision CorrelationResult.
Proof. solve_decision. Defined.
End CorrelationResult.
Abbreviation CorrelationResult := CorrelationResult.CorrelationResult.
Export (hints) CorrelationResult.

Module ActiveLineageFoundation.
Record ActiveLineageFoundation := mk {
  task_id : TaskId;
  task_revision_id : RevisionId;
  workstream_id : WorkstreamId;
  workstream_revision_id : RevisionId;
  repository_instance_id : option RepositoryId;
  active_worktree_instance_id : option WorktreeId;
  worktree_lineage_refs : list string;
  source_watermark : N;
}.
#[export] Instance eq_dec : EqDecision ActiveLineageFoundation.
Proof. solve_decision. Defined.
End ActiveLineageFoundation.
Abbreviation ActiveLineageFoundation := ActiveLineageFoundation.ActiveLineageFoundation.
Export (hints) ActiveLineageFoundation.

(** ** Work bindings *)

Module AssignmentStatus.
Inductive AssignmentStatus :=
| Resolved
| Provisional
| Conflicted
| Unresolved.
#[export] Instance eq_dec : EqDecision AssignmentStatus.
Proof. solve_decision. Defined.
Definition rank (x : AssignmentStatus) : N :=
  match x with
  | Resolved => 0
  | Provisional => 1
  | Conflicted => 2
  | Unresolved => 3
  end.
Lemma AssignmentStatus_rank_inj x y : rank x = rank y -> x = y.
Proof. by destruct x, y. Qed.
#[export] Instance ord : Ord AssignmentStatus := Ord_by rank AssignmentStatus_rank_inj.
End AssignmentStatus.
Abbreviation AssignmentStatus := AssignmentStatus.AssignmentStatus.
Export (hints) AssignmentStatus.

Module PrimaryWorkBinding.
Record PrimaryWorkBinding := mk {
  task_id : option TaskId;
  workstream_id : option WorkstreamId;
  episode_id : option WorkEpisodeId;
  attempt_id : option AttemptId;
  experiment_run_id : option ExperimentRunId;
  competing_group_id : option CompetingAttemptGroupId;
}.
#[export] Instance eq_dec : EqDecision PrimaryWorkBinding.
Proof. solve_decision. Defined.
Definition set_episode (self : PrimaryWorkBinding)
    (v_episode_id : option WorkEpisodeId) : PrimaryWorkBinding :=
  mk
    (self.(task_id)) (self.(workstream_id)) v_episode_id (self.(attempt_id))
    (self.(experiment_run_id)) (self.(competing_group_id)).
Definition default : PrimaryWorkBinding := mk None None None None None None.

Definition is_empty (self : PrimaryWorkBinding) : bool :=
  is_none (task_id self) && is_none (workstream_id self) && is_none (episode_id self)
  && is_none (attempt_id self) && is_none (experiment_run_id self)
  && is_none (competing_group_id self).

Definition has_future_ref (self : PrimaryWorkBinding) : bool :=
  is_some (episode_id self) || is_some (attempt_id self) || is_some (experiment_run_id self)
  || is_some (competing_group_id self).
End PrimaryWorkBinding.
Abbreviation PrimaryWorkBinding := PrimaryWorkBinding.PrimaryWorkBinding.
Export (hints) PrimaryWorkBinding.

Module SecondaryBindingRole.
Inductive SecondaryBindingRole :=
| Supporting
| Affected
| Comparison
| Integration.
#[export] Instance eq_dec : EqDecision SecondaryBindingRole.
Proof. solve_decision. Defined.
Definition rank (x : SecondaryBindingRole) : N :=
  match x with
  | Supporting => 0
  | Affected => 1
  | Comparison => 2
  | Integration => 3
  end.
Lemma SecondaryBindingRole_rank_inj x y : rank x = rank y -> x = y.
Proof. by destruct x, y. Qed.
#[export] Instance ord : Ord SecondaryBindingRole := Ord_by rank SecondaryBindingRole_rank_inj.
End SecondaryBindingRole.
Abbreviation SecondaryBindingRole := SecondaryBindingRole.SecondaryBindingRole.
Export (hints) SecondaryBindingRole.

Module SecondaryBindingTarget.
Inductive SecondaryBindingTarget :=
| Task (_ : TaskId)
| Workstream (_ : WorkstreamId)
| Episode (_ : WorkEpisodeId)
| Attempt (_ : AttemptId)
| ExperimentRun (_ : ExperimentRunId)
| CompetingGroup (_ : CompetingAttemptGroupId)
| Artifact (_ : WorkArtifactId).
#[export] Instance eq_dec : EqDecision SecondaryBindingTarget.
Proof. solve_decision. Defined.
End SecondaryBindingTarget.
Abbreviation SecondaryBindingTarget := SecondaryBindingTarget.SecondaryBindingTarget.
Export (hints) SecondaryBindingTarget.

(** The derived order: the variant first, the identifier next. *)
Definition target_key (t : SecondaryBindingTarget) : N * Uuid :=
  match t with
  | SecondaryBindingTarget.Task i => (0%N, as_uuid i)
  | SecondaryBindingTarget.Workstream i => (1%N, as_uuid i)
  | SecondaryBindingTarget.Episode i => (2%N, as_uuid i)
  | SecondaryBindingTarget.Attempt i => (3%N, as_uuid i)
  | SecondaryBindingTarget.ExperimentRun i => (4%N, as_uuid i)
  | SecondaryBindingTarget.CompetingGroup i => (5%N, as_uuid i)
  | SecondaryBindingTarget.Artifact i => (6%N, as_uuid i)
  end.
Lemma target_key_inj x y : target_key x = target_key y -> x = y.
Proof. by destruct x, y; simpl; intros [= ?%as_uuid_inj]; subst. Qed.
#[export] Instance Ord_SecondaryBindingTarget : Ord SecondaryBindingTarget :=
  Ord_by target_key target_key_inj.

Module SecondaryWorkBinding.
Record SecondaryWorkBinding := mk {
  role : SecondaryBindingRole;
  target_ref : SecondaryBindingTarget;
}.
#[export] Instance eq_dec : EqDecision SecondaryWorkBinding.
Proof. solve_decision. Defined.
Lemma SecondaryWorkBinding_key_inj x y :
  (role x, target_ref x) = (role y, target_ref y) -> x = y.
Proof. destruct x, y; simpl; congruence. Qed.
#[export] Instance ord : Ord SecondaryWorkBinding :=
  Ord_by (fun b => (role b, target_ref b)) SecondaryWorkBinding_key_inj.
End SecondaryWorkBinding.
Abbreviation SecondaryWorkBinding := SecondaryWorkBinding.SecondaryWorkBinding.
Export (hints) SecondaryWorkBinding.

Module WorkBindingRevision.
Record WorkBindingRevision := mk {
  work_binding_revision_id : WorkBindingRevisionId;
  operation_id : OperationId;
  revision_generation : N;
  predecessor_revision_id : option WorkBindingRevisionId;
  primary_binding : PrimaryWorkBinding;
  secondary_bindings : list SecondaryWorkBinding;
  scope_effect_refs : list ScopeEffectId;
  assignment_status : AssignmentStatus;
  evidence_refs : list string;
  resolver_version : N;
}.
#[export] Instance eq_dec : EqDecision WorkBindingRevision.
Proof. solve_decision. Defined.
Definition set_linked (self : WorkBindingRevision)
    (v_work_binding_revision_id : WorkBindingRevisionId) (v_predecessor_revision_id : option
    WorkBindingRevisionId) (v_revision_generation : N) (v_primary_binding :
    PrimaryWorkBinding) : WorkBindingRevision :=
  mk
    v_work_binding_revision_id (self.(operation_id)) v_revision_generation
    v_predecessor_revision_id v_primary_binding (self.(secondary_bindings))
    (self.(scope_effect_refs)) (self.(assignment_status)) (self.(evidence_refs))
    (self.(resolver_version)).
Definition paired_base (self : WorkBindingRevision) : bool :=
  is_some (PrimaryWorkBinding.task_id (primary_binding self))
  && is_some (PrimaryWorkBinding.workstream_id (primary_binding self)).

Definition valid_primary (self : WorkBindingRevision) : bool :=
  match assignment_status self with
  | AssignmentStatus.Resolved => paired_base self && negb (is_empty (evidence_refs self))
  | AssignmentStatus.Provisional =>
      Bool.eqb (is_some (PrimaryWorkBinding.task_id (primary_binding self)))
               (is_some (PrimaryWorkBinding.workstream_id (primary_binding self)))
  | AssignmentStatus.Conflicted | AssignmentStatus.Unresolved =>
      PrimaryWorkBinding.is_empty (primary_binding self)
  end.

Definition validate (self : WorkBindingRevision) : result WorkError unit :=
  guard
    ((revision_generation self =? 0)%N
     || (resolver_version self =? 0)%N
     || (MAX_REFS <? length (secondary_bindings self))%nat
     || negb (strictly_ordered_unique (secondary_bindings self))
     || (MAX_REFS <? length (scope_effect_refs self))%nat
     || negb (strictly_ordered_unique (scope_effect_refs self))
     || (MAX_REFS <? length (evidence_refs self))%nat
     || any (fun v => is_empty (trim v) || (MAX_TEXT <? str_len v)%N) (evidence_refs self)
     || negb (strictly_ordered_unique (evidence_refs self))
     || xorb (revision_generation self =? 1)%N (is_none (predecessor_revision_id self))
     || negb (valid_primary self)
     || PrimaryWorkBinding.has_future_ref (primary_binding self) && negb (paired_base self))
    WorkError.InvalidWorkIdentity.

Definition episode_ok (self next : WorkBindingRevision) : bool :=
  match PrimaryWorkBinding.episode_id (primary_binding self),
        PrimaryWorkBinding.episode_id (primary_binding next) with
  | None, _ => true
  | Some old, Some new => old ==? new
  | Some _, None => false
  end.

Definition validate_successor (self next : WorkBindingRevision) : result WorkError unit :=
  do? validate self in
  do? validate next in
  let? generation :=
    ok_or (checked_add_u64 (revision_generation self) 1) WorkError.InvalidWorkIdentity in
  guard ((operation_id next !=? operation_id self)
         || (revision_generation next !=? generation)
         || (predecessor_revision_id next !=? Some (work_binding_revision_id self))
         || negb (episode_ok self next))
    WorkError.InvalidWorkIdentity.
End WorkBindingRevision.
Abbreviation WorkBindingRevision := WorkBindingRevision.WorkBindingRevision.
Export (hints) WorkBindingRevision.

Module ActiveWorkContext.
Record ActiveWorkContext := mk {
  operation_id : OperationId;
  work_binding_revision_id : WorkBindingRevisionId;
  revision_generation : N;
  assignment_status : AssignmentStatus;
  task_id : option TaskId;
  workstream_id : option WorkstreamId;
  secondary_bindings : list SecondaryWorkBinding;
  scope_effect_refs : list ScopeEffectId;
}.
#[export] Instance eq_dec : EqDecision ActiveWorkContext.
Proof. solve_decision. Defined.
Definition from_current (binding : WorkBindingRevision) : ActiveWorkContext :=
  let resolved := WorkBindingRevision.assignment_status binding ==? AssignmentStatus.Resolved in
  {| operation_id := WorkBindingRevision.operation_id binding;
     work_binding_revision_id := WorkBindingRevision.work_binding_revision_id binding;
     revision_generation := WorkBindingRevision.revision_generation binding;
     assignment_status := WorkBindingRevision.assignment_status binding;
     task_id := if resolved
                then PrimaryWorkBinding.task_id (WorkBindingRevision.primary_binding binding)
                else None;
     workstream_id :=
       if resolved
       then PrimaryWorkBinding.workstream_id (WorkBindingRevision.primary_binding binding)
       else None;
     secondary_bindings := WorkBindingRevision.secondary_bindings binding;
     scope_effect_refs := WorkBindingRevision.scope_effect_refs binding |}.

Definition is_resolved (self : ActiveWorkContext) : bool :=
  assignment_status self ==? AssignmentStatus.Resolved.
End ActiveWorkContext.
Abbreviation ActiveWorkContext := ActiveWorkContext.ActiveWorkContext.
Export (hints) ActiveWorkContext.
