(* ===== verification/WorkOps.v ===== *)
(** * Operations on tasks, workstreams and bindings

    [evertrace-engine/src/work/task.rs], [workstream.rs] and [binding.rs]: the
    commands that record task and workstream revisions, the resolution of
    correlation evidence to a workstream, the active lineage, and the binding of
    an operation to its task and workstream. *)

From S2P Require Import Prelude Order Collections Text Ids Lane Journal Attempt AttemptOps.
From S2P Require Import Repository RepositoryStore Work.

Module WorkPayload.
Inductive WorkPayload :=
| TaskRecorded (task : Task)
| WorkstreamRecorded (workstream : Workstream)
| WorkBindingRecorded (binding : WorkBindingRevision).
End WorkPayload.
Abbreviation WorkPayload := WorkPayload.WorkPayload.

(** ** Tasks *)

Module TaskOps.
Import Task.

Definition command (context : WorkCommandContext) (tasks : list Task)
  : result WorkIdentityError (JournalCommand WorkPayload) :=
  runtime_command context (WorkPayload.TaskRecorded <$> tasks).

Definition create_task (context : WorkCommandContext) (task : Task)
  : result WorkIdentityError (JournalCommand WorkPayload) :=
  do? invalid_input (validate task) in
  do? guard (is_some (predecessor_revision_id task) || is_some (continuation_of_task_id task)
             || is_some (split_from_task_id task) || negb (is_empty (split_into_task_ids task))
             || negb (is_empty (merged_from_task_ids task)) || is_some (merged_into_task_id task))
        WorkIdentityError.InvalidInput in
  command context [task].

Definition revise_task (context : WorkCommandContext) (current successor : Task)
    (evidence_refs : list string) : result WorkIdentityError (JournalCommand WorkPayload) :=
  do? invalid_input (validate successor) in
  do? guard (is_empty evidence_refs || (task_id successor !=? task_id current)
             || (predecessor_revision_id successor !=? Some (revision_id current))
             || (revision_id successor ==? revision_id current)
             || (source_watermark successor <=? source_watermark current)%N
             || task_is_terminal (lifecycle current))
        WorkIdentityError.InvalidInput in
  command context [successor].

Definition continue_task (context : WorkCommandContext) (source continuation : Task)
    (evidence_refs : list string) : result WorkIdentityError (JournalCommand WorkPayload) :=
  do? invalid_input (validate continuation) in
  do? guard (is_empty evidence_refs
             || negb (contains (lifecycle source) [TaskLifecycle.Completed; TaskLifecycle.Abandoned])
             || is_some (predecessor_revision_id continuation)
             || (task_id continuation ==? task_id source)
             || (continuation_of_task_id continuation !=? Some (task_id source))
             || negb (is_empty (scope_memberships continuation))
             || negb (is_empty (split_into_task_ids continuation))
             || negb (is_empty (merged_from_task_ids continuation))
             || is_some (merged_into_task_id continuation))
        WorkIdentityError.InvalidInput in
  command context [continuation].

Definition split_task (context : WorkCommandContext) (source_successor : Task)
    (children : list Task) (evidence_refs : list string)
  : result WorkIdentityError (JournalCommand WorkPayload) :=
  do? guard (is_empty evidence_refs || (length children <? 2)%nat
             || (lifecycle source_successor !=? TaskLifecycle.Superseded)
             || is_none (predecessor_revision_id source_successor))
        WorkIdentityError.InvalidInput in
  let child_ids := bset_of_list (task_id <$> children) in
  do? guard ((length child_ids !=? length children)
             || (bset_of_list (split_into_task_ids source_successor) !=? child_ids)
             || any (fun child =>
                  is_err (validate child) || is_some (predecessor_revision_id child)
                  || (split_from_task_id child !=? Some (task_id source_successor))
                  || negb (is_empty (scope_memberships child))) children)
        WorkIdentityError.InvalidInput in
  command context (source_successor :: children).

Definition merge_tasks (context : WorkCommandContext) (source_successors : list Task)
    (merged : Task) (evidence_refs : list string)
  : result WorkIdentityError (JournalCommand WorkPayload) :=
  do? guard (is_empty evidence_refs || (length source_successors <? 2)%nat
             || is_some (predecessor_revision_id merged)
             || negb (is_empty (scope_memberships merged)))
        WorkIdentityError.InvalidInput in
  let source_ids := bset_of_list (task_id <$> source_successors) in
  do? guard ((length source_ids !=? length source_successors)
             || (bset_of_list (merged_from_task_ids merged) !=? source_ids)
             || any (fun source =>
                  is_err (validate source) || is_none (predecessor_revision_id source)
                  || (lifecycle source !=? TaskLifecycle.Superseded)
                  || (merged_into_task_id source !=? Some (task_id merged))) source_successors)
        WorkIdentityError.InvalidInput in
  command context (merged :: source_successors).

End TaskOps.

(** ** Views *)

Module RepositoryCurrentView.
Record RepositoryCurrentView := mk {
  frontier : N;
  repositories : gmap RepositoryId RepositoryInstance;
  worktrees : gmap WorktreeId WorktreeInstance;
  snapshots : gmap WorktreeSnapshotId WorktreeSnapshot;
  transitions : gmap WorktreeTransitionId WorktreeTransition;
  integrations : gmap IntegrationEventId IntegrationEvent;
}.
End RepositoryCurrentView.
Abbreviation RepositoryCurrentView := RepositoryCurrentView.RepositoryCurrentView.
Export (hints) RepositoryCurrentView.

Module WorkIdentityCurrentView.
Record WorkIdentityCurrentView := mk {
  frontier : N;
  tasks : gmap TaskId Task;
  workstreams : gmap WorkstreamId Workstream;
}.
End WorkIdentityCurrentView.
Abbreviation WorkIdentityCurrentView := WorkIdentityCurrentView.WorkIdentityCurrentView.
Export (hints) WorkIdentityCurrentView.

Module TypedWorkstreamChange.
Inductive TypedWorkstreamChange :=
| StructuredRevision
| MaterialGoalReplacement
| WorktreeLineage
| Status.
#[export] Instance eq_dec : EqDecision TypedWorkstreamChange.
Proof. solve_decision. Defined.
End TypedWorkstreamChange.
Abbreviation TypedWorkstreamChange := TypedWorkstreamChange.TypedWorkstreamChange.
Export (hints) TypedWorkstreamChange.

Module CorrelationScope.
Record CorrelationScope := mk {
  task_id : option TaskId;
  repository_instance_id : option RepositoryId;
  worktree_instance_id : option WorktreeId;
}.
#[export] Instance eq_dec : EqDecision CorrelationScope.
Proof. solve_decision. Defined.
End CorrelationScope.
Abbreviation CorrelationScope := CorrelationScope.CorrelationScope.
Export (hints) CorrelationScope.

(** ** Workstreams *)

Module WorkstreamOps.
Import Workstream.

Definition command (context : WorkCommandContext) (workstream : Workstream) :=
  runtime_command context [WorkPayload.WorkstreamRecorded workstream].
Definition commands (context : WorkCommandContext) (workstreams : list Workstream) :=
  runtime_command context (WorkPayload.WorkstreamRecorded <$> workstreams).

Definition validate_workstream_scope (task : Task) (workstream : Workstream)
    (repository_view : RepositoryCurrentView) : result WorkIdentityError unit :=
  do? guard (task_id workstream !=? Task.task_id task) WorkIdentityError.ScopeUnresolved in
  match repository_instance_id workstream with
  | None =>
      if is_empty (worktree_instance_ids workstream) then Ok tt
      else Err WorkIdentityError.ScopeUnresolved
  | Some repository_id =>
      if is_some (RepositoryCurrentView.repositories repository_view !! repository_id)
         && any (fun membership =>
              (TaskScopeMembership.repository_instance_id membership ==? Some repository_id)
              && kept (worktree_instance_ids workstream)
                   (TaskScopeMembership.worktree_instance_ids membership))
              (Task.scope_memberships task)
         && all (fun id =>
              is_some_and (RepositoryCurrentView.worktrees repository_view !! id) (fun worktree =>
                WorktreeInstance.repository_instance_id worktree ==? repository_id))
              (worktree_instance_ids workstream)
      then Ok tt
      else Err WorkIdentityError.ScopeUnresolved
  end.

Definition create_workstream (context : WorkCommandContext) (task : Task)
    (repository_view : RepositoryCurrentView) (workstream : Workstream)
  : result WorkIdentityError (JournalCommand WorkPayload) :=
  do? guard (is_some (active_episode_id workstream)) WorkIdentityError.InvalidInput in
  do? invalid_input (validate workstream) in
  do? guard (is_some (predecessor_revision_id workstream)) WorkIdentityError.InvalidInput in
  do? validate_workstream_scope task workstream repository_view in
  command context workstream.

Definition revise_workstream (context : WorkCommandContext) (task : Task)
    (repository_view : RepositoryCurrentView) (current successor : Workstream)
    (change : TypedWorkstreamChange) (evidence_refs : list string)
  : result WorkIdentityError (JournalCommand WorkPayload) :=
  do? guard ((change ==? TypedWorkstreamChange.MaterialGoalReplacement)
             || is_empty evidence_refs
             || (workstream_id successor !=? workstream_id current)
             || (predecessor_revision_id successor !=? Some (revision_id current))
             || (revision_id successor ==? revision_id current)
             || (source_watermark successor <=? source_watermark current)%N
             || (active_episode_id successor !=? active_episode_id current)
             || workstream_is_terminal (status current))
        WorkIdentityError.InvalidInput in
  do? invalid_input (validate successor) in
  do? validate_workstream_scope task successor repository_view in
  command context successor.

Definition replace_workstream_for_material_goal (fresh : RevisionId)
    (context : WorkCommandContext) (task : Task) (repository_view : RepositoryCurrentView)
    (current replacement : Workstream) (decision_refs : list string)
  : result WorkIdentityError (JournalCommand WorkPayload) :=
  do? guard (is_empty decision_refs
             || (workstream_id replacement ==? workstream_id current)
             || is_some (predecessor_revision_id replacement)
             || (task_id replacement !=? task_id current)
             || (source_watermark replacement <=? source_watermark current)%N
             || workstream_is_terminal (status current))
        WorkIdentityError.InvalidInput in
  do? invalid_input (validate replacement) in
  do? validate_workstream_scope task replacement repository_view in
  let superseded := set_superseded current fresh (Some (revision_id current))
                      WorkstreamStatus.Superseded (source_watermark replacement) in
  commands context [superseded; replacement].

Definition scope_matches (workstream : Workstream) (scope : CorrelationScope) : bool :=
  is_none_or (CorrelationScope.task_id scope) (fun id => task_id workstream ==? id)
  && is_none_or (CorrelationScope.repository_instance_id scope)
       (fun id => repository_instance_id workstream ==? Some id)
  && is_none_or (CorrelationScope.worktree_instance_id scope)
       (fun id => contains id (worktree_instance_ids workstream)).

(** ** Correlation *)

Definition authoritative (k : CorrelationEvidenceKind) : bool :=
  (k ==? CorrelationEvidenceKind.ExplicitTask) || (k ==? CorrelationEvidenceKind.ExplicitWorkstream)
  || is_strong k.

(** [view.workstreams.values().filter(..).map(..).collect::<BTreeSet<_>>()]. *)
Definition matching (view : WorkIdentityCurrentView) (scope : CorrelationScope) (t : TaskId)
  : list WorkstreamId :=
  bset_of_list (workstream_id <$>
    filter (fun w => (task_id w ==? t) && scope_matches w scope = true)
      (snd <$> map_to_list (WorkIdentityCurrentView.workstreams view))).

(** The candidates one item of evidence names: the set, and whether some name in
    it is invalid.  [None] is the branch the code marks unreachable; [Err tt] is
    the early [continue] of an item with the wrong kind of candidates. *)
Definition task_candidate (view : WorkIdentityCurrentView) (scope : CorrelationScope)
    (acc : list WorkstreamId * bool) (t : TaskId) : list WorkstreamId * bool :=
  if is_none (WorkIdentityCurrentView.tasks view !! t)
     || is_some_and (CorrelationScope.task_id scope) (fun id => id !=? t)
  then (acc.1, true)
  else let m := matching view scope t in
       (bset_of_list (acc.1 ++ m), acc.2 || is_empty m).

Definition workstream_candidate (view : WorkIdentityCurrentView) (scope : CorrelationScope)
    (acc : list WorkstreamId * bool) (id : WorkstreamId) : list WorkstreamId * bool :=
  if is_none_or (WorkIdentityCurrentView.workstreams view !! id)
       (fun w => negb (scope_matches w scope))
  then (acc.1, true)
  else (bset_insert id acc.1, acc.2).

Definition item_candidates (view : WorkIdentityCurrentView) (scope : CorrelationScope)
    (item : CorrelationEvidence) : option (result unit (list WorkstreamId * bool)) :=
  match CorrelationEvidence.kind item with
  | CorrelationEvidenceKind.ExplicitTask =>
      Some (if negb (is_empty (CorrelationEvidence.candidate_workstream_ids item)) then Err tt
            else Ok (foldl (task_candidate view scope) ([], false)
                       (CorrelationEvidence.candidate_task_ids item)))
  | CorrelationEvidenceKind.ExplicitWorkstream | CorrelationEvidenceKind.Handoff
  | CorrelationEvidenceKind.Plan | CorrelationEvidenceKind.Patch | CorrelationEvidenceKind.Test
  | CorrelationEvidenceKind.Error | CorrelationEvidenceKind.Hypothesis_ =>
      Some (if negb (is_empty (CorrelationEvidence.candidate_task_ids item)) then Err tt
            else Ok (foldl (workstream_candidate view scope) ([], false)
                       (CorrelationEvidence.candidate_workstream_ids item)))
  | _ => None
  end.

(** The accumulators of the loop. *)
Record correlation := {
  authoritative_seen : bool;
  invalid_authoritative : bool;
  constraints : list (list WorkstreamId);
}.

(** One turn of the loop; [None] is a panic. *)
Definition correlate_item (view : WorkIdentityCurrentView) (scope : CorrelationScope)
    (acc : correlation) (item : CorrelationEvidence) : option correlation :=
  if negb (authoritative (CorrelationEvidence.kind item)) then Some acc
  else if is_err (CorrelationEvidence.validate item) then Some (Build_correlation true true (constraints acc))
  else match item_candidates view scope item with
       | None => None
       | Some (Err _) => Some (Build_correlation true true (constraints acc))
       | Some (Ok (candidates, invalid)) =>
           if is_empty candidates then Some (Build_correlation true true (constraints acc))
           else Some (Build_correlation true (invalid_authoritative acc || invalid)
                        (constraints acc ++ [candidates]))
       end.

Fixpoint correlate (view : WorkIdentityCurrentView) (scope : CorrelationScope)
    (evidence : list CorrelationEvidence) (acc : correlation) : option correlation :=
  match evidence with
  | [] => Some acc
  | item :: rest => match correlate_item view scope acc item with
                    | Some acc' => correlate view scope rest acc'
                    | None => None
                    end
  end.

(** [constraints.into_iter().reduce(intersection).unwrap_or_default()]. *)
Definition intersect (left right : list WorkstreamId) : list WorkstreamId :=
  filter (fun x => x ∈ right) left.
Definition reduce_constraints (cs : list (list WorkstreamId)) : list WorkstreamId :=
  match cs with
  | [] => []
  | c :: rest => foldl intersect c rest
  end.

(** [let unresolved = UnresolvedWorkstream { .. }]. *)
Definition unresolved (view : WorkIdentityCurrentView) (evidence : list CorrelationEvidence)
    (source_watermark : N) (acc : correlation) (candidates : list WorkstreamId)
  : UnresolvedWorkstream :=
  let all_candidates := bset_of_list
    (filter (fun id => is_Some (WorkIdentityCurrentView.workstreams view !! id))
       (evidence ≫= CorrelationEvidence.candidate_workstream_ids)) in
  let candidate_tasks := bset_of_list
    (filter (fun id => is_Some (WorkIdentityCurrentView.tasks view !! id))
       ((evidence ≫= CorrelationEvidence.candidate_task_ids) ++
        omap (fun id => task_id <$> WorkIdentityCurrentView.workstreams view !! id)
          all_candidates)) in
  {| UnresolvedWorkstream.candidate_task_ids := candidate_tasks;
     UnresolvedWorkstream.candidate_workstream_ids := all_candidates;
     UnresolvedWorkstream.missing_evidence :=
       ["unique_scope_consistent_exact_or_strong_evidence"%string];
     UnresolvedWorkstream.conflict_reason :=
       if invalid_authoritative acc || authoritative_seen acc && is_empty candidates
       then "authoritative_evidence_conflict"%string
       else if (1 <? length candidates)%nat then "multiple_authoritative_candidates"%string
       else "weak_or_no_evidence"%string;
     UnresolvedWorkstream.exit_conditions :=
       ["provide_explicit_id_or_unique_strong_reference"%string];
     UnresolvedWorkstream.source_watermark := source_watermark |}.

Definition resolve_workstream_candidate (view : WorkIdentityCurrentView)
    (scope : CorrelationScope) (evidence : list CorrelationEvidence) (source_watermark : N)
  : option CorrelationResult :=
  match correlate view scope evidence (Build_correlation false false []) with
  | None => None
  | Some acc =>
      let candidates := reduce_constraints (constraints acc) in
      if authoritative_seen acc && negb (invalid_authoritative acc)
         && (length candidates =? 1)%nat
      then CorrelationResult.Resolved <$> head candidates
      else Some (CorrelationResult.Unresolved
                   (unresolved view evidence source_watermark acc candidates))
  end.

(** ** The active lineage *)

Definition derive_active_lineage (task : Task) (workstream : Workstream)
    (repository_view : RepositoryCurrentView) : result WorkIdentityError ActiveLineageFoundation :=
  do? guard ((Task.identity_confidence task ==? TaskIdentityConfidence.Provisional)
             || (task_id workstream !=? Task.task_id task)
             || workstream_is_terminal (status workstream))
        WorkIdentityError.ScopeUnresolved in
  do? guard
    (is_some_and (repository_instance_id workstream) (fun repository_id =>
       is_none (RepositoryCurrentView.repositories repository_view !! repository_id)
       || is_none_or
            (List.find (fun membership =>
               TaskScopeMembership.repository_instance_id membership ==? Some repository_id)
               (Task.scope_memberships task))
            (fun membership =>
               any (fun id => negb (contains id (TaskScopeMembership.worktree_instance_ids membership)))
                 (worktree_instance_ids workstream))))
    WorkIdentityError.ScopeUnresolved in
  do? match active_worktree_instance_id workstream with
      | None => Ok tt
      | Some worktree_id =>
          let? worktree := ok_or (RepositoryCurrentView.worktrees repository_view !! worktree_id)
                             WorkIdentityError.ScopeUnresolved in
          guard ((Some (WorktreeInstance.repository_instance_id worktree)
                  !=? repository_instance_id workstream)
                 || contains (WorktreeInstance.lifecycle worktree)
                      [WorktreeLifecycle.Removed; WorktreeLifecycle.Pruned])
            WorkIdentityError.ScopeUnresolved
      end in
  Ok {| ActiveLineageFoundation.task_id := Task.task_id task;
        ActiveLineageFoundation.task_revision_id := Task.revision_id task;
        ActiveLineageFoundation.workstream_id := workstream_id workstream;
        ActiveLineageFoundation.workstream_revision_id := revision_id workstream;
        ActiveLineageFoundation.repository_instance_id := repository_instance_id workstream;
        ActiveLineageFoundation.active_worktree_instance_id :=
          active_worktree_instance_id workstream;
        ActiveLineageFoundation.worktree_lineage_refs := worktree_lineage_refs workstream;
        ActiveLineageFoundation.source_watermark :=
          N.max (Task.source_watermark task) (source_watermark workstream) |}.

End WorkstreamOps.

(** ** Bindings *)

Module BindingEvidenceStrength.
Inductive BindingEvidenceStrength :=
| Exact
| Strong
| Weak.
#[export] Instance eq_dec : EqDecision BindingEvidenceStrength.
Proof. solve_decision. Defined.
Definition rank (x : BindingEvidenceStrength) : N :=
  match x with
  | Exact => 0
  | Strong => 1
  | Weak => 2
  end.
Lemma BindingEvidenceStrength_rank_inj x y : rank x = rank y -> x = y.
Proof. by destruct x, y. Qed.
#[export] Instance ord : Ord BindingEvidenceStrength := Ord_by rank BindingEvidenceStrength_rank_inj.
End BindingEvidenceStrength.
Abbreviation BindingEvidenceStrength := BindingEvidenceStrength.BindingEvidenceStrength.
Export (hints) BindingEvidenceStrength.

Module BindingEvidence.
Record BindingEvidence := mk {
  strength : BindingEvidenceStrength;
  evidence_ref : string;
  task_id : TaskId;
  workstream_id : WorkstreamId;
}.
#[export] Instance eq_dec : EqDecision BindingEvidence.
Proof. solve_decision. Defined.
Definition key (e : BindingEvidence) :=
  (strength e, (evidence_ref e, (task_id e, workstream_id e))).
Lemma BindingEvidence_key_inj x y : key x = key y -> x = y.
Proof. destruct x, y; unfold key; simpl; congruence. Qed.
#[export] Instance ord : Ord BindingEvidence := Ord_by key BindingEvidence_key_inj.
End BindingEvidence.
Abbreviation BindingEvidence := BindingEvidence.BindingEvidence.
Export (hints) BindingEvidence.

Module BindingResolution.
Inductive BindingResolution :=
| NoDelta
| Revision (revision : WorkBindingRevision).
End BindingResolution.
Abbreviation BindingResolution := BindingResolution.BindingResolution.

Module BindingOps.
Definition MAX_EVIDENCE : nat := 64.

Inductive CandidateAssessment :=
| Valid (task : TaskId) (workstream : WorkstreamId)
| Unknown
| Contradictory.

Definition authoritative_candidate (view : WorkIdentityCurrentView) (evidence : BindingEvidence)
  : CandidateAssessment :=
  match WorkIdentityCurrentView.tasks view !! BindingEvidence.task_id evidence,
        WorkIdentityCurrentView.workstreams view !! BindingEvidence.workstream_id evidence with
  | Some task, Some workstream =>
      if Workstream.task_id workstream ==? Task.task_id task
      then Valid (Task.task_id task) (Workstream.workstream_id workstream)
      else Contradictory
  | _, _ => Unknown
  end.

(** The loop over the authoritative evidence: the candidate pairs, and whether
    an unknown or a contradictory item was met. *)
Definition assess (view : WorkIdentityCurrentView)
    (acc : list (TaskId * WorkstreamId) * bool * bool) (item : BindingEvidence) :=
  let '(candidates, unknown, contradictory) := acc in
  match authoritative_candidate view item with
  | Valid task stream => (bset_insert (task, stream) candidates, unknown, contradictory)
  | Unknown => (candidates, true, contradictory)
  | Contradictory => (candidates, unknown, true)
  end.

(** The status and primary binding; [None] is the panic of [view.tasks[&id]]. *)
Definition decide_binding (view : WorkIdentityCurrentView)
    (acc : list (TaskId * WorkstreamId) * bool * bool)
  : option (AssignmentStatus * PrimaryWorkBinding) :=
  let '(candidates, unknown, contradictory) := acc in
  if contradictory || (1 <? length candidates)%nat
  then Some (AssignmentStatus.Conflicted, PrimaryWorkBinding.default)
  else if unknown then Some (AssignmentStatus.Unresolved, PrimaryWorkBinding.default)
  else match candidates with
       | (task_id, workstream_id) :: _ =>
           match WorkIdentityCurrentView.tasks view !! task_id with
           | None => None
           | Some task =>
               Some (if Task.identity_confidence task ==? TaskIdentityConfidence.Provisional
                     then AssignmentStatus.Provisional else AssignmentStatus.Resolved,
                     PrimaryWorkBinding.mk (Some task_id) (Some workstream_id)
                       None None None None)
           end
       | [] => Some (AssignmentStatus.Unresolved, PrimaryWorkBinding.default)
       end.

Definition raise {A} (m : result WorkIdentityError A) : result (fault WorkIdentityError) A :=
  map_err Raise m.

Definition resolve_binding (fresh : WorkBindingRevisionId) (view : WorkIdentityCurrentView)
    (operation_id : OperationId) (current : option WorkBindingRevision)
    (scope_effect_refs : list ScopeEffectId) (secondary_bindings : list SecondaryWorkBinding)
    (evidence : list BindingEvidence) : result (fault WorkIdentityError) BindingResolution :=
  do? raise (guard (MAX_EVIDENCE <? length evidence)%nat WorkIdentityError.InvalidInput) in
  do? raise match current with
      | None => Ok tt
      | Some current =>
          do? invalid_input (WorkBindingRevision.validate current) in
          guard (WorkBindingRevision.operation_id current !=? operation_id)
            WorkIdentityError.InvalidInput
      end in
  let ordered := vec_sort evidence in
  do? raise (guard (any (fun item => is_empty (trim (BindingEvidence.evidence_ref item))
                                     || (4096 <? str_len (BindingEvidence.evidence_ref item))%N)
                      ordered) WorkIdentityError.InvalidInput) in
  let authoritative := filter (fun item =>
    BindingEvidence.strength item <> BindingEvidenceStrength.Weak) ordered in
  let? d := ok_or (decide_binding view (foldl (assess view) ([], false, false) authoritative))
              Panicked in
  let '(assignment_status, primary_binding) := d in
  let evidence_refs := bset_of_list (BindingEvidence.evidence_ref <$> ordered) in
  if is_some_and current (fun current =>
       (WorkBindingRevision.primary_binding current ==? primary_binding)
       && (WorkBindingRevision.secondary_bindings current ==? secondary_bindings)
       && (WorkBindingRevision.scope_effect_refs current ==? scope_effect_refs)
       && (WorkBindingRevision.assignment_status current ==? assignment_status)
       && (WorkBindingRevision.evidence_refs current ==? evidence_refs)
       && (WorkBindingRevision.resolver_version current ==? 1%N))
  then Ok BindingResolution.NoDelta
  else
    let? revision_generation := raise (ok_or match current with
      | None => Some 1%N
      | Some value => checked_add_u64 (WorkBindingRevision.revision_generation value) 1
      end WorkIdentityError.InvalidInput) in
    let binding := WorkBindingRevision.mk fresh operation_id revision_generation
      (WorkBindingRevision.work_binding_revision_id <$> current) primary_binding secondary_bindings
      scope_effect_refs assignment_status evidence_refs 1 in
    do? raise (invalid_input (WorkBindingRevision.validate binding)) in
    Ok (BindingResolution.Revision binding).

Definition record_binding (context : WorkCommandContext) (binding : WorkBindingRevision)
  : result WorkIdentityError (JournalCommand WorkPayload) :=
  do? invalid_input (WorkBindingRevision.validate binding) in
  runtime_command context [WorkPayload.WorkBindingRecorded binding].

End BindingOps.

(** ** Lemmas on correlation *)

Module CorrelationFacts.
Import WorkstreamOps.

(** The views the store builds: every entry under its own identifier. *)
Record view_keyed (view : WorkIdentityCurrentView) : Prop := {
  keyed_task : forall k t, WorkIdentityCurrentView.tasks view !! k = Some t -> Task.task_id t = k;
  keyed_workstream : forall k w, WorkIdentityCurrentView.workstreams view !! k = Some w ->
    Workstream.workstream_id w = k;
}.

(** [w] is a workstream of the view in the scope. *)
Definition in_scope (view : WorkIdentityCurrentView) (scope : CorrelationScope) (w : WorkstreamId) : Prop :=
  exists ws, WorkIdentityCurrentView.workstreams view !! w = Some ws /\ scope_matches ws scope = true.

(** An item of evidence points at a workstream: directly, or through its task. *)
Definition names (view : WorkIdentityCurrentView) (scope : CorrelationScope)
    (item : CorrelationEvidence) (w : WorkstreamId) : Prop :=
  if CorrelationEvidence.kind item ==? CorrelationEvidenceKind.ExplicitTask
  then exists ws, WorkIdentityCurrentView.workstreams view !! w = Some ws /\
       scope_matches ws scope = true /\
       Workstream.task_id ws ∈ CorrelationEvidence.candidate_task_ids item
  else w ∈ CorrelationEvidence.candidate_workstream_ids item /\ in_scope view scope w.

Lemma names_in_scope view scope item w : names view scope item w -> in_scope view scope w.
Proof. unfold names, in_scope. case_bool_decide; naive_solver. Qed.

Lemma elem_of_matching view scope t w :
  view_keyed view ->
  w ∈ matching view scope t <->
  exists ws, WorkIdentityCurrentView.workstreams view !! w = Some ws /\
             scope_matches ws scope = true /\ Workstream.task_id ws = t.
Proof.
  intros K. unfold matching. rewrite elem_of_bset, list_elem_of_fmap. split.
  - intros (ws & -> & H). apply list_elem_of_filter in H as [H1 H2].
    apply list_elem_of_fmap in H2 as ([k ws'] & -> & H2). apply elem_of_map_to_list in H2. simpl in *.
    rewrite andb_true_iff, bool_decide_eq_true in H1.
    rewrite (keyed_workstream _ K k ws' H2). naive_solver.
  - intros (ws & H & Hs & Ht). exists ws. split; [by rewrite (keyed_workstream _ K w ws H)|].
    apply list_elem_of_filter. split; [by rewrite andb_true_iff, bool_decide_eq_true|].
    apply list_elem_of_fmap. exists (w, ws). split; [done|]. by apply elem_of_map_to_list.
Qed.

(** A task that an item may name: known, in scope, with a workstream in scope. *)
Definition usable_task (view : WorkIdentityCurrentView) (scope : CorrelationScope) (t : TaskId) : Prop :=
  is_Some (WorkIdentityCurrentView.tasks view !! t) /\
  (forall id, CorrelationScope.task_id scope = Some id -> id = t) /\
  exists w, w ∈ matching view scope t.

(** An item of evidence that is well formed and names only what is in scope. *)
Definition usable (view : WorkIdentityCurrentView) (scope : CorrelationScope)
    (item : CorrelationEvidence) : Prop :=
  CorrelationEvidence.validate item = Ok tt /\
  if CorrelationEvidence.kind item ==? CorrelationEvidenceKind.ExplicitTask
  then CorrelationEvidence.candidate_workstream_ids item = [] /\
       Forall (usable_task view scope) (CorrelationEvidence.candidate_task_ids item)
  else CorrelationEvidence.candidate_task_ids item = [] /\
       Forall (in_scope view scope) (CorrelationEvidence.candidate_workstream_ids item).

Lemma task_unusable view scope t :
  is_none (WorkIdentityCurrentView.tasks view !! t)
  || is_some_and (CorrelationScope.task_id scope) (fun id => id !=? t) = true ->
  ~ usable_task view scope t.
Proof.
  intros H ((x & Hx) & Hs & _). rewrite Hx in H. cbn in H.
  destruct (CorrelationScope.task_id scope) as [id|]; [|done]. cbn in H.
  rewrite (Hs id eq_refl), bool_decide_eq_true_2 in H by done. done.
Qed.

Lemma task_usable view scope t :
  is_none (WorkIdentityCurrentView.tasks view !! t)
  || is_some_and (CorrelationScope.task_id scope) (fun id => id !=? t) = false ->
  usable_task view scope t <-> is_empty (matching view scope t) = false.
Proof.
  intros [Hn Hs]%orb_false_iff. rewrite is_some_and_false in Hs. unfold usable_task. split.
  - intros (_ & _ & w & Hw). destruct (matching view scope t); [by apply elem_of_nil in Hw|done].
  - intros He. split; [destruct (WorkIdentityCurrentView.tasks view !! t); by eauto|]. split.
    + intros id Hid. specialize (Hs id Hid). by rewrite negb_false_iff, bool_decide_eq_true in Hs.
    + destruct (matching view scope t) as [|w l]; [done|]. exists w. apply list_elem_of_here.
Qed.

Lemma task_candidates_ok view scope l c b c' b' :
  foldl (task_candidate view scope) (c, b) l = (c', b') -> sorted_lt c ->
  sorted_lt c' /\ (b' = false <-> b = false /\ Forall (usable_task view scope) l) /\
  (b' = false -> forall w, w ∈ c' <-> w ∈ c \/ exists t, t ∈ l /\ w ∈ matching view scope t).
Proof.
  revert c b. induction l as [|t l IH]; intros c b H Hc; simpl in H.
  { injection H as <- <-. split; [done|]. rewrite Forall_nil. split; [tauto|]. set_solver. }
  rewrite Forall_cons. unfold task_candidate in H at 2. cbn [fst snd] in H.
  destruct (_ || _) eqn:E in H.
  - apply IH in H as (Hs & Hb & _); [|done]. apply task_unusable in E. split; [done|].
    split; [naive_solver|]. naive_solver.
  - apply IH in H as (Hs & Hb & Hw); [|apply bset_sorted]. split; [done|]. split.
    + rewrite Hb, orb_false_iff, (task_usable _ _ _ E). tauto.
    + intros Hb' w. rewrite (Hw Hb'), elem_of_bset, elem_of_app. setoid_rewrite elem_of_cons. naive_solver.
Qed.

Lemma workstream_in_scope view scope id :
  is_none_or (WorkIdentityCurrentView.workstreams view !! id)
    (fun w => negb (scope_matches w scope)) = false <-> in_scope view scope id.
Proof.
  unfold in_scope. destruct (WorkIdentityCurrentView.workstreams view !! id); cbn;
    rewrite ?negb_false_iff; naive_solver.
Qed.

Lemma workstream_candidates_ok view scope l c b c' b' :
  foldl (workstream_candidate view scope) (c, b) l = (c', b') -> sorted_lt c ->
  sorted_lt c' /\ (b' = false <-> b = false /\ Forall (in_scope view scope) l) /\
  (b' = false -> forall w, w ∈ c' <-> w ∈ c \/ w ∈ l).
Proof.
  revert c b. induction l as [|t l IH]; intros c b H Hc; simpl in H.
  { injection H as <- <-. split; [done|]. rewrite Forall_nil. split; [tauto|]. set_solver. }
  rewrite Forall_cons, <-workstream_in_scope. unfold workstream_candidate in H at 2. cbn [fst snd] in H.
  destruct (is_none_or _ _) eqn:E in H; rewrite E.
  - apply IH in H as (Hs & Hb & _); [|done]. naive_solver.
  - apply IH in H as (Hs & Hb & Hw); [|by apply bset_insert_sorted]. split; [done|].
    split; [naive_solver|]. intros Hb' w. rewrite (Hw Hb'), elem_of_bset_insert, elem_of_cons. naive_solver.
Qed.

Lemma evidence_nonempty item :
  CorrelationEvidence.validate item = Ok tt ->
  ~ (CorrelationEvidence.candidate_task_ids item = [] /\
     CorrelationEvidence.candidate_workstream_ids item = []).
Proof.
  unfold CorrelationEvidence.validate. rewrite guard_ok, !orb_false_iff.
  intros [_ H] [H1 H2]. by rewrite H1, H2 in H.
Qed.

(** A set of candidates that comes from workstreams that are named and in scope. *)
Lemma nonempty_iff {A} (l : list A) : l <> [] <-> exists x, x ∈ l.
Proof.
  destruct l as [|x l]; [set_solver|]. split; [exists x; apply list_elem_of_here|done].
Qed.

Lemma workstream_item_ok view scope (l c : list WorkstreamId) invalid (P : Prop) :
  P -> l <> [] ->
  (invalid = false <-> false = false /\ Forall (in_scope view scope) l) ->
  (invalid = false -> forall w, w ∈ c <-> w ∈ [] \/ w ∈ l) ->
  (invalid = false /\ c <> [] <-> P /\ [] = ([] : list TaskId) /\ Forall (in_scope view scope) l) /\
  (invalid = false -> forall w, w ∈ c <-> w ∈ l /\ in_scope view scope w).
Proof.
  intros HP Hl Hi Hw. rewrite nonempty_iff, Hi. split.
  - split; [naive_solver|]. intros (_ & _ & Hf). split; [done|].
    destruct l as [|w l]; [done|]. exists w. apply Hw; [tauto|]. right. apply list_elem_of_here.
  - intros [_ Hf] w. rewrite Hw, elem_of_nil by tauto. rewrite Forall_forall in Hf. naive_solver.
Qed.

(** What one authoritative item contributes, whatever its branch. *)
Lemma item_candidates_ok view scope item :
  view_keyed view -> authoritative (CorrelationEvidence.kind item) = true ->
  CorrelationEvidence.validate item = Ok tt ->
  match item_candidates view scope item with
  | None => False
  | Some (Err _) => ~ usable view scope item
  | Some (Ok (c, invalid)) =>
      sorted_lt c /\ (invalid = false /\ c <> [] <-> usable view scope item) /\
      (invalid = false -> forall w, w ∈ c <-> names view scope item w)
  end.
Proof.
  intros K Ha Hv. pose proof (evidence_nonempty item Hv) as Hne. unfold item_candidates, usable, names.
  destruct (CorrelationEvidence.kind item) eqn:Ek; try discriminate Ha; cbn [bool_decide_eq_true].
  1:{ rewrite bool_decide_eq_true_2 by done.
      destruct (CorrelationEvidence.candidate_workstream_ids item) as [|x xs] eqn:E; cbn [is_empty negb]; [|naive_solver].
      destruct (foldl _ _ _) as [c i] eqn:Ef.
      apply task_candidates_ok in Ef as (Hs & Hi & Hw); [|constructor]. split; [done|].
      rewrite nonempty_iff, Hi. split.
      - split; [naive_solver|]. intros (_ & _ & Hf). split; [done|].
        destruct (CorrelationEvidence.candidate_task_ids item) as [|t ts]; [naive_solver|].
        pose proof Hf as Hf'. apply Forall_cons in Hf' as [(_ & _ & w & Hm) _]. exists w.
        apply Hw; [tauto|]. right. exists t. split; [apply list_elem_of_here|done].
      - intros Hi' w. rewrite (Hw (proj2 Hi Hi')), elem_of_nil. setoid_rewrite elem_of_matching; [|done].
        naive_solver. }
  all: rewrite bool_decide_eq_false_2 by done;
    destruct (CorrelationEvidence.candidate_task_ids item) as [|x xs] eqn:E; cbn [is_empty negb]; [|naive_solver];
    destruct (foldl _ _ _) as [c i] eqn:Ef; apply workstream_candidates_ok in Ef as (Hs & Hi & Hw); [|constructor];
    split; [done|]; apply workstream_item_ok; [done|naive_solver|done|done].
Qed.

(** What the loop leaves behind after the authoritative items [strong]. *)
Definition correlated (view : WorkIdentityCurrentView) (scope : CorrelationScope)
    (strong : list CorrelationEvidence) (acc : correlation) (result : option correlation) : Prop :=
  exists acc', result = Some acc' /\
  authoritative_seen acc' = authoritative_seen acc || negb (is_empty strong) /\
  (invalid_authoritative acc' = false <->
   invalid_authoritative acc = false /\ Forall (usable view scope) strong) /\
  (invalid_authoritative acc' = false ->
   exists cs, constraints acc' = constraints acc ++ cs /\
     Forall2 (fun item c => sorted_lt c /\ forall w, w ∈ c <-> names view scope item w) strong cs).

(** An unusable item spoils the rest. *)
Lemma correlate_bad view scope item strong acc result :
  correlated view scope strong (Build_correlation true true (constraints acc)) result ->
  ~ usable view scope item -> correlated view scope (item :: strong) acc result.
Proof.
  intros (acc' & -> & Hs & Hi & _) Hu. cbn in Hs, Hi.
  assert (invalid_authoritative acc' = true) as E
    by (apply not_false_iff_true; intros E; by apply Hi in E as [? _]).
  exists acc'. rewrite E, Hs, orb_true_r, Forall_cons. split; [done|]. split; [done|].
  split; [split; [done|tauto]|done].
Qed.

(** The loop reaches its end, and its flags and constraints say what it met. *)
Lemma correlate_ok view scope evidence acc :
  view_keyed view ->
  correlated view scope
    (filter (fun i => authoritative (CorrelationEvidence.kind i) = true) evidence) acc
    (correlate view scope evidence acc).
Proof.
  intros K. revert acc. induction evidence as [|item rest IH]; intros acc.
  { exists acc. split; [done|]. rewrite orb_false_r, Forall_nil. split; [done|]. split; [tauto|].
    intros _. exists []. by rewrite app_nil_r. }
  cbn [correlate]. unfold correlate_item.
  destruct (authoritative (CorrelationEvidence.kind item)) eqn:Ea; cbn [negb].
  2:{ rewrite filter_cons_False by congruence. apply IH. }
  rewrite filter_cons_True by done. pose proof (correlate_bad view scope item _ acc _ (IH _)) as Hbad.
  destruct (is_err _) eqn:Ev.
  { apply Hbad. intros [E _]. by rewrite E in Ev. }
  apply is_err_false in Ev. pose proof (item_candidates_ok view scope item K Ea Ev) as Hit.
  destruct (item_candidates view scope item) as [[[c i]|]|]; [|by apply Hbad|done].
  destruct Hit as (Hc & Hu & Hn). destruct c as [|x c0] eqn:Ec; cbn [is_empty].
  { apply Hbad. rewrite <-Hu. by intros [_ ?]. }
  rewrite <-Ec in *. assert (c <> []) as Hne by congruence.
  destruct (IH (Build_correlation true (invalid_authoritative acc || i) (constraints acc ++ [c])))
    as (acc' & -> & Hs & Hi & Hcs). cbn in Hs, Hi, Hcs. rewrite orb_false_iff in Hi.
  exists acc'. split; [done|]. rewrite Forall_cons, <-Hu, orb_true_r. split; [done|]. split; [tauto|].
  intros H. destruct (Hcs H) as (cs & -> & Hf).
  exists (c :: cs). split; [by rewrite <-app_assoc|]. constructor; [|done]. split; [done|]. tauto.
Qed.

Lemma elem_of_foldl_intersect w c cs :
  w ∈ foldl intersect c cs <-> w ∈ c /\ Forall (fun d => w ∈ d) cs.
Proof.
  revert c. induction cs as [|d cs IH]; intros c; simpl; [rewrite Forall_nil; tauto|].
  rewrite IH, Forall_cons. unfold intersect. rewrite list_elem_of_filter. tauto.
Qed.

Lemma elem_of_reduce w cs :
  w ∈ reduce_constraints cs <-> cs <> [] /\ Forall (fun d => w ∈ d) cs.
Proof.
  destruct cs as [|c cs]; simpl; [set_solver|]. rewrite elem_of_foldl_intersect, Forall_cons. naive_solver.
Qed.

Lemma reduce_NoDup cs : Forall NoDup cs -> NoDup (reduce_constraints cs).
Proof.
  destruct cs as [|c cs]; simpl; [constructor|]. intros [Hc _]%Forall_cons. revert c Hc.
  induction cs as [|d cs IH]; intros c Hc; simpl; [done|]. apply IH. by apply NoDup_filter.
Qed.

Lemma only_element {A} (x : A) l : NoDup l -> (forall y, y ∈ l <-> y = x) -> length l = 1%nat.
Proof.
  intros Hd H. destruct l as [|y [|z l]]; [|done|].
  - destruct (not_elem_of_nil x). by apply H.
  - apply NoDup_cons in Hd as [Hd _]. destruct Hd.
    rewrite (proj1 (H y)) by set_solver. rewrite (proj1 (H z)) by set_solver. set_solver.
Qed.

(** The intersection holds the workstreams that every item names, each once. *)
Lemma reduce_singles_out view scope strong cs :
  strong <> [] ->
  Forall2 (fun item c => sorted_lt c /\ forall w, w ∈ c <-> names view scope item w) strong cs ->
  NoDup (reduce_constraints cs) /\
  forall w, w ∈ reduce_constraints cs <-> Forall (fun i => names view scope i w) strong.
Proof.
  intros Hne Hf. split.
  - apply reduce_NoDup. clear Hne. induction Hf as [|i c l cs [Hs _] _ IH]; constructor; [|done].
    by apply sorted_lt_NoDup.
  - intros w. rewrite elem_of_reduce. assert (cs <> []) as Hcs by (intros ->; by inversion Hf; subst).
    assert (Forall (fun d => w ∈ d) cs <-> Forall (fun i => names view scope i w) strong) as <-; [|tauto].
    clear Hne Hcs. induction Hf as [|i c l cs [_ Hc] _ IH]; [by rewrite !Forall_nil|].
    by rewrite !Forall_cons, IH, Hc.
Qed.

End CorrelationFacts.

(** ** Theorems *)

(** A workstream is resolved exactly when the authoritative evidence singles
    it out.  The resolution never panics (its unreachable branch is not reached).
    It resolves to a workstream precisely when there is exact or strong evidence,
    every such item is well formed and names only known tasks or workstreams in
    scope, and that workstream is the only one named by all of them; so weak
    evidence never decides, and one bad authoritative item leaves the work
    unresolved. *)
Theorem correlation_iff view scope evidence watermark :
  CorrelationFacts.view_keyed view ->
  exists r, WorkstreamOps.resolve_workstream_candidate view scope evidence watermark = Some r /\
  forall w, r = CorrelationResult.Resolved w <->
    let strong := filter (fun i =>
      WorkstreamOps.authoritative (CorrelationEvidence.kind i) = true) evidence in
    strong <> [] /\ Forall (CorrelationFacts.usable view scope) strong /\
    (forall w', Forall (fun i => CorrelationFacts.names view scope i w') strong <-> w' = w).
Proof.
  intros K. unfold WorkstreamOps.resolve_workstream_candidate. cbv zeta.
  set (strong := filter _ evidence).
  destruct (CorrelationFacts.correlate_ok view scope evidence (WorkstreamOps.Build_correlation false false []) K)
    as (acc & -> & Hs & Hi & Hcs). fold strong in Hs, Hi, Hcs. cbn in Hs, Hi, Hcs.
  rewrite Hs. destruct (WorkstreamOps.invalid_authoritative acc) eqn:Einv.
  { rewrite andb_false_r. eexists. split; [done|]. intros w. split; [done|]. intros (_ & Hu & _). naive_solver. }
  destruct (Hcs eq_refl) as (cs & -> & Hf). clear Hcs. destruct (proj1 Hi eq_refl) as [_ Hu].
  destruct strong as [|i0 strong0] eqn:Est.
  { eexists. split; [done|]. naive_solver. }
  rewrite <-Est in *. assert (strong <> []) as Hne by (by rewrite Est).
  assert (is_empty strong = false) as -> by (by rewrite Est). cbn [negb andb orb].
  destruct (CorrelationFacts.reduce_singles_out view scope strong cs Hne Hf) as [Hd Hw].
  destruct (length (WorkstreamOps.reduce_constraints cs) =? 1)%nat eqn:El.
  - apply Nat.eqb_eq in El. destruct (WorkstreamOps.reduce_constraints cs) as [|w [|]]; try done.
    exists (CorrelationResult.Resolved w). split; [done|]. intros v. split.
    + intros E0. injection E0 as <-. split; [by rewrite Est|]. split; [done|]. intros v.
      rewrite <-Hw. apply list_elem_of_singleton.
    + intros (_ & _ & H). f_equal. by apply H, Hw, list_elem_of_singleton.
  - eexists. split; [done|]. intros w. split; [done|]. intros (_ & _ & H). exfalso.
    apply Nat.eqb_neq in El. apply El. apply (CorrelationFacts.only_element w); [done|].
    intros v. by rewrite Hw.
Qed.

(** ** Lemmas on bindings *)

Module BindingFacts.
Import BindingOps.

(** The evidence that counts: exact or strong. *)
Definition strong (evidence : list BindingEvidence) : list BindingEvidence :=
  filter (fun item => BindingEvidence.strength item <> BindingEvidenceStrength.Weak) evidence.

(** An item points at a task of the view and at a workstream of that task. *)
Definition points_at (view : WorkIdentityCurrentView) (t : TaskId) (w : WorkstreamId)
    (item : BindingEvidence) : Prop :=
  BindingEvidence.task_id item = t /\ BindingEvidence.workstream_id item = w /\
  is_Some (WorkIdentityCurrentView.tasks view !! t) /\
  exists ws, WorkIdentityCurrentView.workstreams view !! w = Some ws /\ Workstream.task_id ws = t.

(** All the evidence that counts points at one task and one of its workstreams. *)
Definition binds (view : WorkIdentityCurrentView) (evidence : list BindingEvidence)
    (t : TaskId) (w : WorkstreamId) : Prop :=
  strong evidence <> [] /\ Forall (points_at view t w) (strong evidence).

(** The candidate of an item is what the item points at. *)
Lemma candidate_points_at view e t w :
  CorrelationFacts.view_keyed view ->
  authoritative_candidate view e = Valid t w <-> points_at view t w e.
Proof.
  intros K. unfold authoritative_candidate, points_at. split.
  - destruct (WorkIdentityCurrentView.tasks view !! _) as [task|] eqn:Et; [|done].
    destruct (WorkIdentityCurrentView.workstreams view !! _) as [ws|] eqn:Ew; [|done].
    case_bool_decide as Eo; [|done]. intros [= <- <-].
    rewrite (CorrelationFacts.keyed_task _ K _ _ Et), (CorrelationFacts.keyed_workstream _ K _ _ Ew).
    rewrite Et, Ew. rewrite (CorrelationFacts.keyed_task _ K _ _ Et) in Eo. naive_solver.
  - intros (<- & <- & [task Et] & ws & Ew & Eo). rewrite Et, Ew.
    rewrite (CorrelationFacts.keyed_task _ K _ _ Et), (CorrelationFacts.keyed_workstream _ K _ _ Ew).
    by rewrite bool_decide_eq_true_2.
Qed.

Lemma binds_valid view evidence t w :
  CorrelationFacts.view_keyed view ->
  binds view evidence t w <->
  strong evidence <> [] /\ Forall (fun e => authoritative_candidate view e = Valid t w) (strong evidence).
Proof.
  intros K. unfold binds. rewrite !Forall_forall.
  by setoid_rewrite (candidate_points_at view _ t w K).
Qed.

Lemma exists_cons {A} (P : A -> Prop) x l :
  (exists y, y ∈ x :: l /\ P y) <-> P x \/ exists y, y ∈ l /\ P y.
Proof. setoid_rewrite elem_of_cons. naive_solver. Qed.

Lemma exists_nil {A} (P : A -> Prop) : (exists y, y ∈ [] /\ P y) <-> False.
Proof. setoid_rewrite elem_of_nil. naive_solver. Qed.

Lemma assess_ok view l c u d c' u' d' :
  foldl (assess view) (c, u, d) l = (c', u', d') -> sorted_lt c ->
  sorted_lt c' /\
  (u' = true <-> u = true \/ exists e, e ∈ l /\ authoritative_candidate view e = Unknown) /\
  (d' = true <-> d = true \/ exists e, e ∈ l /\ authoritative_candidate view e = Contradictory) /\
  (forall t w, (t, w) ∈ c' <-> (t, w) ∈ c \/ exists e, e ∈ l /\ authoritative_candidate view e = Valid t w).
Proof.
  revert c u d. induction l as [|e l IH]; intros c u d H Hc; cbn [foldl] in H.
  - injection H as <- <- <-. split; [done|]. rewrite !exists_nil. setoid_rewrite exists_nil. tauto.
  - setoid_rewrite exists_cons. unfold assess in H at 2.
    destruct (authoritative_candidate view e) as [t w| |];
      apply IH in H as (Hs & -> & -> & Hv); try done; try (by apply bset_insert_sorted);
      (split; [done|]; split; [intuition discriminate|]; split; [intuition discriminate|]);
      intros t' w'; rewrite Hv, ?elem_of_bset_insert; intuition congruence.
Qed.

Lemma valid_task view e t w :
  CorrelationFacts.view_keyed view -> authoritative_candidate view e = Valid t w ->
  is_Some (WorkIdentityCurrentView.tasks view !! t).
Proof.
  intros K. unfold authoritative_candidate.
  destruct (WorkIdentityCurrentView.tasks view !! _) as [task|] eqn:Et; [|done].
  destruct (WorkIdentityCurrentView.workstreams view !! _) as [ws|]; [|done].
  case_bool_decide; [|done]. intros [= <- <-].
  rewrite (CorrelationFacts.keyed_task _ K _ _ Et), Et. eauto.
Qed.

(** Two pairs in an ordered set make it longer than one. *)
Lemma sorted_single {A} `{!Ord A} (x : A) l :
  sorted_lt (x :: l) -> (forall y, y ∈ x :: l -> y = x) -> l = [].
Proof.
  intros Hs H. destruct l as [|y l]; [done|]. exfalso.
  assert (y = x) as -> by (apply H; set_solver).
  apply (lt_ord_irrefl x). apply (sorted_lt_head x x (x :: l)); [done|set_solver].
Qed.

Lemma decide_binding_ok view l :
  CorrelationFacts.view_keyed view ->
  exists s p, decide_binding view (foldl (assess view) ([], false, false) l) = Some (s, p) /\
  ((exists t w, l <> [] /\ Forall (fun e => authoritative_candidate view e = Valid t w) l /\
     p = PrimaryWorkBinding.mk (Some t) (Some w) None None None None /\
     exists task, WorkIdentityCurrentView.tasks view !! t = Some task /\
       s = if Task.identity_confidence task ==? TaskIdentityConfidence.Provisional
           then AssignmentStatus.Provisional else AssignmentStatus.Resolved) \/
   (~ exists t w, l <> [] /\ Forall (fun e => authoritative_candidate view e = Valid t w) l) /\
   p = PrimaryWorkBinding.default /\ s ∈ [AssignmentStatus.Conflicted; AssignmentStatus.Unresolved]).
Proof.
  intros K. destruct (foldl (assess view) ([], false, false) l) as [[c u] d] eqn:E.
  apply assess_ok in E as (Hs & Hu & Hd & Hv); [|constructor].
  assert (forall e, e ∈ l -> match authoritative_candidate view e with
    | Valid t w => (t, w) ∈ c | Unknown => u = true | Contradictory => d = true end) as Hin.
  { intros e He. destruct (authoritative_candidate view e) eqn:Ee; naive_solver. }
  assert (forall t w, (t, w) ∈ c -> l <> []) as Hne.
  { intros t w H%Hv. destruct H as [H|(e & H & _)]; [by apply elem_of_nil in H|]. by intros ->; apply elem_of_nil in H. }
  unfold decide_binding.
  destruct (d || (1 <? length c)%nat) eqn:Eg; [|destruct u].
  - exists AssignmentStatus.Conflicted, PrimaryWorkBinding.default. split; [done|]. right.
    split; [|split; [done|set_solver]]. intros (t & w & Hl & Hf).
    rewrite Forall_forall in Hf. apply orb_true_iff in Eg as [Eg|Eg].
    + apply Hd in Eg as [?|(e & He & Ee)]; [done|]. rewrite (Hf e He) in Ee. done.
    + apply Nat.ltb_lt in Eg. destruct c as [|x c]; [simpl in Eg; lia|].
      assert (forall y, y ∈ x :: c -> y = x) as Hall.
      { assert (forall y, y ∈ x :: c -> y = (t, w)) as Hy.
        { intros [t' w'] Hy%Hv. destruct Hy as [Hy|(e & He & Ee)]; [by apply elem_of_nil in Hy|].
          rewrite (Hf e He) in Ee. congruence. }
        intros y Hy'. rewrite (Hy y Hy'). symmetry. apply Hy. set_solver. }
      rewrite (sorted_single x c Hs Hall) in Eg. simpl in Eg. lia.
  - exists AssignmentStatus.Unresolved, PrimaryWorkBinding.default. split; [done|]. right.
    split; [|split; [done|set_solver]]. intros (t & w & Hl & Hf). rewrite Forall_forall in Hf.
    destruct (proj1 Hu eq_refl) as [?|(e & He & Ee)]; [done|]. rewrite (Hf e He) in Ee. done.
  - apply orb_false_iff in Eg as [-> Eg]. apply Nat.ltb_ge in Eg.
    destruct c as [|[t w] [|]]; [| |simpl in Eg; lia].
    + exists AssignmentStatus.Unresolved, PrimaryWorkBinding.default. split; [done|]. right.
      split; [|split; [done|set_solver]]. intros (t & w & Hl & Hf). rewrite Forall_forall in Hf.
      destruct l as [|e l]; [done|]. specialize (Hin e ltac:(set_solver)).
      rewrite (Hf e ltac:(set_solver)) in Hin. by apply elem_of_nil in Hin.
    + destruct (proj1 (Hv t w)) as [H|(e & He & Ee)]; [set_solver|by apply elem_of_nil in H|].
      destruct (valid_task view e t w K Ee) as [task Ht]. rewrite Ht.
      eexists _, _. split; [done|]. left. exists t, w. split; [by eapply Hne; apply list_elem_of_here|].
      split; [|split; [done|eauto]]. apply Forall_forall. intros e' He'. specialize (Hin e' He').
      destruct (authoritative_candidate view e'); [|done..]. apply list_elem_of_singleton in Hin. congruence.
Qed.

Lemma strong_perm l l' : l ≡ₚ l' -> strong l ≡ₚ strong l'.
Proof. intros H. unfold strong. by rewrite H. Qed.

Lemma binds_perm view l l' t w : l ≡ₚ l' -> binds view l t w -> binds view l' t w.
Proof.
  intros H%strong_perm [Hn Hf]. split; [|by rewrite <-H].
  intros E. rewrite E in H. apply Hn. by apply Permutation_nil_r.
Qed.

End BindingFacts.

Module BindingTheorems.
Import BindingOps BindingFacts.

Lemma raise_ok {A} (m : result WorkIdentityError A) a : raise m = Ok a <-> m = Ok a.
Proof. apply map_err_ok. Qed.

Lemma raise_not_panic {A B} (m : result WorkIdentityError A) (k : A -> result (fault WorkIdentityError) B) :
  (forall a, m = Ok a -> k a <> Err Panicked) -> (let? x := raise m in k x) <> Err Panicked.
Proof. destruct m; cbn; [auto|discriminate]. Qed.

(** What a returned revision looks like. *)
Lemma resolve_binding_inv fresh view op current effects secondary evidence b :
  CorrelationFacts.view_keyed view ->
  resolve_binding fresh view op current effects secondary evidence = Ok (BindingResolution.Revision b) ->
  exists s p g,
    decide_binding view (foldl (assess view) ([], false, false) (strong (vec_sort evidence)))
      = Some (s, p) /\
    g = match current with None => 1%N | Some c => (WorkBindingRevision.revision_generation c + 1)%N end /\
    b = WorkBindingRevision.mk fresh op g
          (WorkBindingRevision.work_binding_revision_id <$> current) p secondary effects s
          (bset_of_list (BindingEvidence.evidence_ref <$> vec_sort evidence)) 1 /\
    WorkBindingRevision.validate b = Ok tt /\
    (forall c, current = Some c ->
       WorkBindingRevision.validate c = Ok tt /\ WorkBindingRevision.operation_id c = op /\
       (WorkBindingRevision.revision_generation c + 1 <= U64_MAX)%N).
Proof.
  intros K. unfold resolve_binding. intros H. apply bind_unit_ok in H as [_ H].
  apply bind_unit_ok in H as [Hc H]. cbv zeta in H. apply bind_unit_ok in H as [_ H].
  apply rbind_ok in H as ([s p] & Hd & H). apply ok_or_ok in Hd. cbv beta iota zeta in H.
  destruct (is_some_and current _) in H; [done|].
  apply rbind_ok in H as (g & Hg & H). apply raise_ok, ok_or_ok in Hg.
  apply bind_unit_ok in H as [Hv H]. apply raise_ok, invalid_input_ok in Hv. injection H as <-.
  exists s, p, g. split; [exact Hd|]. split; [|split; [done|]; split; [done|]].
  - destruct current; [apply checked_add_u64_Some in Hg; tauto|congruence].
  - intros c ->. apply raise_ok in Hc. apply bind_unit_ok in Hc as [Hc Ho].
    apply invalid_input_ok in Hc. rewrite guard_ok, negb_false_iff, bool_decide_eq_true in Ho.
    apply checked_add_u64_Some in Hg. tauto.
Qed.

(** C40: how evidence decides a binding, on a view keyed by identifier.
    [resolve_binding] never panics.  When there is exact or strong evidence and
    every item of it names the same task of the view and the same workstream of
    the view, which belongs to that task, the revision it returns names the two
    and is resolved, or provisional when the task is.  In every other case it
    names no owner at all. *)
Theorem binding_decision fresh view op current effects secondary evidence :
  CorrelationFacts.view_keyed view ->
  resolve_binding fresh view op current effects secondary evidence <> Err Panicked /\
  forall b, resolve_binding fresh view op current effects secondary evidence
            = Ok (BindingResolution.Revision b) ->
  (forall t w, binds view evidence t w ->
     WorkBindingRevision.primary_binding b
       = PrimaryWorkBinding.mk (Some t) (Some w) None None None None /\
     exists task, WorkIdentityCurrentView.tasks view !! t = Some task /\
       WorkBindingRevision.assignment_status b
       = if Task.identity_confidence task ==? TaskIdentityConfidence.Provisional
         then AssignmentStatus.Provisional else AssignmentStatus.Resolved) /\
  ((~ exists t w, binds view evidence t w) ->
     WorkBindingRevision.primary_binding b = PrimaryWorkBinding.default /\
     WorkBindingRevision.assignment_status b ∈ [AssignmentStatus.Conflicted; AssignmentStatus.Unresolved]).
Proof.
  intros K. pose proof (vec_sort_perm evidence) as Hp.
  destruct (decide_binding_ok view (strong (vec_sort evidence)) K) as (s & p & Hd & Hcase).
  split.
  - unfold resolve_binding. apply raise_not_panic. intros _ _. apply raise_not_panic. intros _ _.
    cbv zeta. apply raise_not_panic. intros _ _.
    change (filter (fun item => BindingEvidence.strength item <> BindingEvidenceStrength.Weak)
      (vec_sort evidence)) with (strong (vec_sort evidence)).
    rewrite Hd. cbn [ok_or rbind]. destruct (is_some_and current _); [done|].
    apply raise_not_panic. intros g _. by apply raise_not_panic.
  - intros b H. apply resolve_binding_inv in H as (s' & p' & g & Hd' & _ & -> & _); [|done].
    rewrite Hd in Hd'. injection Hd' as <- <-. cbn. split.
    + intros t w Hb. apply (binds_perm view evidence (vec_sort evidence)) in Hb; [|done].
      apply (binds_valid view _ t w K) in Hb.
      destruct Hcase as [(t' & w' & Hl & Hf & Hpr & Hs)|[Hn _]]; [|destruct Hn; by exists t, w].
      assert (t' = t /\ w' = w) as [-> ->]; [|done].
      destruct Hb as [_ Hb]. destruct (strong (vec_sort evidence)); [done|].
      apply Forall_cons in Hf as [Hf _]. apply Forall_cons in Hb as [Hb _]. split; congruence.
    + intros Hn. destruct Hcase as [(t' & w' & Hl & Hf & _)|[_ ?]]; [|done]. destruct Hn.
      exists t', w'. apply (binds_perm view (vec_sort evidence) evidence); [done|]. by apply binds_valid.
Qed.

(** The binding depends on what the evidence says, not on its order, and
    resolving again changes nothing.  A permutation of the evidence gives the
    same outcome, and once a revision has been returned, resolving the same
    evidence over it reports no delta. *)
Theorem binding_stable fresh fresh' view op current effects secondary evidence evidence' :
  CorrelationFacts.view_keyed view -> evidence ≡ₚ evidence' ->
  resolve_binding fresh view op current effects secondary evidence
    = resolve_binding fresh view op current effects secondary evidence' /\
  forall b, resolve_binding fresh view op current effects secondary evidence
            = Ok (BindingResolution.Revision b) ->
    resolve_binding fresh' view op (Some b) effects secondary evidence' = Ok BindingResolution.NoDelta.
Proof.
  intros K Hp. split.
  - unfold resolve_binding. rewrite (Permutation_length Hp), (vec_sort_Permutation _ _ Hp). done.
  - intros b H. pose proof (resolve_binding_inv _ _ _ _ _ _ _ _ K H) as (s & p & g & Hd & _ & Hb & Hv & _).
    unfold resolve_binding in H |- *. rewrite <-(Permutation_length Hp), <-(vec_sort_Permutation _ _ Hp).
    apply bind_unit_ok in H as [H1 H]. apply bind_unit_ok in H as [_ H]. cbv zeta in H |- *.
    apply bind_unit_ok in H as [H3 _].
    rewrite H1. cbn [rbind]. rewrite Hv. rewrite H3.
    subst b. cbn -[vec_sort any guard filter is_some_and].
    rewrite (bool_decide_eq_true_2 (op = op)) by done. cbn -[vec_sort any guard filter is_some_and].
    change (filter (fun item => BindingEvidence.strength item <> BindingEvidenceStrength.Weak)
      (vec_sort evidence)) with (strong (vec_sort evidence)).
    rewrite Hd. cbn [ok_or rbind is_some_and WorkBindingRevision.primary_binding
      WorkBindingRevision.secondary_bindings WorkBindingRevision.scope_effect_refs
      WorkBindingRevision.assignment_status WorkBindingRevision.evidence_refs
      WorkBindingRevision.resolver_version].
    by rewrite !bool_decide_eq_true_2.
Qed.

(** When the journal accepts a re-binding.  The revision [resolve_binding]
    returns over a current binding passes the successor check exactly when the
    current binding is not linked to an episode, because the resolver never
    carries the episode over. *)
Theorem binding_successor fresh view op current effects secondary evidence b :
  CorrelationFacts.view_keyed view ->
  resolve_binding fresh view op (Some current) effects secondary evidence
    = Ok (BindingResolution.Revision b) ->
  WorkBindingRevision.validate_successor current b = Ok tt <->
  PrimaryWorkBinding.episode_id (WorkBindingRevision.primary_binding current) = None.
Proof.
  intros K H. apply resolve_binding_inv in H as (s & p & g & Hd & Hg & -> & Hv & Hc); [|done].
  destruct (Hc current eq_refl) as (Hv' & Ho & Hm). unfold WorkBindingRevision.validate_successor.
  rewrite !bind_unit_ok, rbind_ok. setoid_rewrite ok_or_ok. setoid_rewrite checked_add_u64_Some.
  assert (PrimaryWorkBinding.episode_id p = None) as He.
  { destruct (decide_binding_ok view (strong (vec_sort evidence)) K) as (s' & p' & Hd' & Hcase).
    rewrite Hd in Hd'. injection Hd' as <- <-.
    destruct Hcase as [(? & ? & _ & _ & -> & _)|(_ & -> & _)]; done. }
  split.
  - intros (_ & _ & x & _ & H). rewrite guard_ok, !orb_false_iff in H. destruct H as [_ H].
    unfold WorkBindingRevision.episode_ok in H. cbn in H. rewrite He in H.
    by destruct (PrimaryWorkBinding.episode_id (WorkBindingRevision.primary_binding current)).
  - intros En. split; [done|]. split; [done|]. exists g. split; [by subst g|].
    unfold WorkBindingRevision.episode_ok. cbn. rewrite En.
    rewrite guard_ok, !orb_false_iff, !negb_false_iff, !bool_decide_eq_true. done.
Qed.

End BindingTheorems.

(** ** Task lineage *)

Module TaskTheorems.
Import Task TaskOps.

Lemma bset_eq_elem {A} `{!Ord A} (l m : list A) x :
  bset_of_list l = bset_of_list m -> x ∈ l <-> x ∈ m.
Proof. intros E. rewrite <-(elem_of_bset x l), E. apply elem_of_bset. Qed.

Lemma length_bset_NoDup {A} `{!Ord A} (l : list A) n :
  length (bset_of_list l) = n -> n = length l -> NoDup l.
Proof. intros <- E. apply all_unique_true. unfold all_unique. by apply Nat.eqb_eq. Qed.

(** Splits and merges record both directions of the lineage.  The command
    of an accepted split records the superseded source and its children, at
    least two with distinct identifiers; the source lists exactly the children
    and each child names the source.  The command of an accepted merge records
    the merged task and its superseded sources, with the same agreement. *)
Theorem task_lineage_agrees context source children evidence command :
  (split_task context source children evidence = Ok command ->
   payloads command = WorkPayload.TaskRecorded <$> source :: children /\
   (2 <= length children)%nat /\ NoDup (task_id <$> children) /\
   lifecycle source = TaskLifecycle.Superseded /\
   (forall id, id ∈ split_into_task_ids source <-> id ∈ task_id <$> children) /\
   Forall (fun child => split_from_task_id child = Some (task_id source) /\
                        validate child = Ok tt /\ predecessor_revision_id child = None) children) /\
  (merge_tasks context children source evidence = Ok command ->
   payloads command = WorkPayload.TaskRecorded <$> source :: children /\
   (2 <= length children)%nat /\ NoDup (task_id <$> children) /\
   (forall id, id ∈ merged_from_task_ids source <-> id ∈ task_id <$> children) /\
   Forall (fun child => merged_into_task_id child = Some (task_id source) /\
                        validate child = Ok tt /\ lifecycle child = TaskLifecycle.Superseded) children).
Proof.
  split; intros H.
  - unfold split_task in H. apply bind_unit_ok in H as [G1 H]. cbv zeta in H.
    apply bind_unit_ok in H as [G2 H]. apply runtime_command_payloads in H.
    rewrite guard_ok, !orb_false_iff, negb_false_iff, bool_decide_eq_true, Nat.ltb_ge in G1.
    rewrite guard_ok, !orb_false_iff, !negb_false_iff, !bool_decide_eq_true, any_false in G2.
    destruct G1 as [[[_ Hn] Hl] _], G2 as [[Hu He] Hf].
    split; [done|]. split; [done|]. split; [by eapply length_bset_NoDup; [exact Hu|rewrite length_fmap]|].
    split; [done|]. split; [intros id; by apply bset_eq_elem|].
    eapply Forall_impl; [exact Hf|]. intros child Hc.
    rewrite !orb_false_iff, !negb_false_iff, bool_decide_eq_true, is_err_false, is_some_false in Hc. tauto.
  - unfold merge_tasks in H. apply bind_unit_ok in H as [G1 H]. cbv zeta in H.
    apply bind_unit_ok in H as [G2 H]. apply runtime_command_payloads in H.
    rewrite guard_ok, !orb_false_iff, Nat.ltb_ge in G1.
    rewrite guard_ok, !orb_false_iff, !negb_false_iff, !bool_decide_eq_true, any_false in G2.
    destruct G1 as [[[_ Hn] _] _], G2 as [[Hu He] Hf].
    split; [done|]. split; [done|]. split; [by eapply length_bset_NoDup; [exact Hu|rewrite length_fmap]|].
    split; [intros id; by apply bset_eq_elem|].
    eapply Forall_impl; [exact Hf|]. intros child Hc.
    rewrite !orb_false_iff, !negb_false_iff, !bool_decide_eq_true, is_err_false in Hc. tauto.
Qed.

End TaskTheorems.

Module LineageTheorems.
Import WorkstreamOps Workstream.

Lemma find_unique {A B} `{!EqDecision B} (f : A -> B) (b : B) l x :
  NoDup (f <$> l) -> x ∈ l -> f x = b -> List.find (fun y => f y ==? b) l = Some x.
Proof.
  intros Hn Hx Hb. induction l as [|y l IH]; [by apply elem_of_nil in Hx|].
  rewrite fmap_cons, NoDup_cons in Hn. destruct Hn as [Hy Hn]. simpl.
  apply elem_of_cons in Hx as [->|Hx]; [by rewrite bool_decide_eq_true_2|].
  rewrite bool_decide_eq_false_2; [by apply IH|]. intros E. apply Hy. rewrite E, <-Hb.
  by apply list_elem_of_fmap_2.
Qed.

(** A scoped workstream has an active lineage.  A workstream that passed the
    scope check, of a confirmed task, not closed, whose active worktree is not
    removed, has a lineage, which names its task, itself and its repository and
    carries the later watermark, provided the task has one membership per
    repository. *)
Theorem lineage_of_scoped (task : Task) (workstream : Workstream) view :
  validate_workstream_scope task workstream view = Ok tt ->
  validate workstream = Ok tt ->
  NoDup (TaskScopeMembership.repository_instance_id <$> Task.scope_memberships task) ->
  Task.identity_confidence task <> TaskIdentityConfidence.Provisional ->
  workstream_is_terminal (status workstream) = false ->
  (forall id w, active_worktree_instance_id workstream = Some id ->
     RepositoryCurrentView.worktrees view !! id = Some w ->
     is_terminal (WorktreeInstance.lifecycle w) = false) ->
  exists f, derive_active_lineage task workstream view = Ok f /\
    ActiveLineageFoundation.task_id f = Task.task_id task /\
    ActiveLineageFoundation.workstream_id f = workstream_id workstream /\
    ActiveLineageFoundation.repository_instance_id f = repository_instance_id workstream /\
    ActiveLineageFoundation.source_watermark f
      = N.max (Task.source_watermark task) (source_watermark workstream).
Proof.
  intros Hs Hv Hn Hp Ht Hw. unfold validate_workstream_scope in Hs.
  apply bind_unit_ok in Hs as [Hid Hs]. rewrite guard_ok, negb_false_iff, bool_decide_eq_true in Hid.
  assert (forall id, active_worktree_instance_id workstream = Some id ->
    id ∈ worktree_instance_ids workstream) as Hact.
  { intros id Ha. unfold validate in Hv. apply bind_unit_ok in Hv as [Hv _].
    rewrite guard_ok, !orb_false_iff, is_some_and_false in Hv. destruct_and! Hv.
    apply contains_true, negb_false_iff. auto. }
  unfold derive_active_lineage. rewrite Ht, Hid.
  rewrite (bool_decide_eq_false_2 (Task.identity_confidence task = _)) by done.
  rewrite (bool_decide_eq_true_2 (Task.task_id task = _)) by done. cbn [negb orb guard rbind].
  destruct (repository_instance_id workstream) as [rid|] eqn:Er.
  - destruct (_ && _) eqn:E in Hs; [|done]. rewrite !andb_true_iff, any_true, all_true in E.
    destruct E as [[Hr (m & Hm & E)] Hwt]. rewrite andb_true_iff, bool_decide_eq_true, kept_true in E.
    destruct E as [Em Hk]. cbn [is_some_and]. rewrite (find_unique _ (Some rid) _ m Hn Hm Em).
    unfold is_none at 1. rewrite Hr. cbn [negb orb is_none_or].
    assert (any (fun id => negb (contains id (TaskScopeMembership.worktree_instance_ids m)))
              (worktree_instance_ids workstream) = false) as ->.
    { apply any_false, Forall_forall. intros id Hi. apply negb_false_iff, contains_true. auto. }
    cbn [guard rbind]. destruct (active_worktree_instance_id workstream) as [id|] eqn:Ea.
    + rewrite Forall_forall in Hwt. specialize (Hwt id (Hact id eq_refl)).
      destruct (RepositoryCurrentView.worktrees view !! id) as [w|] eqn:Ew; [|done]. cbn in Hwt.
      apply bool_decide_eq_true in Hwt. cbn [ok_or rbind]. rewrite Hwt, bool_decide_eq_true_2 by done.
      specialize (Hw id w eq_refl Ew). unfold is_terminal in Hw. rewrite Hw. cbn. eexists. split; [done|]. by split_and!.
    + cbn. eexists. split; [done|]. by split_and!.
  - destruct (worktree_instance_ids workstream) eqn:El; [|done]. cbn [is_some_and guard rbind].
    destruct (active_worktree_instance_id workstream) as [id|] eqn:Ea;
      [|cbn; eexists; split; [done|]; by split_and!].
    specialize (Hact id eq_refl). by apply elem_of_nil in Hact.
Qed.

(** Without that proviso the two checks disagree: the scope check looks for any
    membership of the repository, the lineage only at the first. *)
Definition two_memberships : Task :=
  Task.mk (mk_id (mk_uuid 1)) (mk_rid (mk_uuid 2)) None ["root"%string] "goal"
    [TaskScopeMembership.mk (Some (mk_id (mk_uuid 10))) [mk_id (mk_uuid 20)];
     TaskScopeMembership.mk (Some (mk_id (mk_uuid 10))) [mk_id (mk_uuid 21)]]
    TaskIdentityConfidence.Explicit TaskLifecycle.Active None None [] [] None 0 None 5.

Definition second_worktree : Workstream :=
  Workstream.mk (mk_id (mk_uuid 3)) (mk_rid (mk_uuid 4)) None (mk_id (mk_uuid 1))
    (Some (mk_id (mk_uuid 10))) [mk_id (mk_uuid 21)] None [] None [] WorkstreamStatus.Active
    "root" "goal" "family" "hypothesis" "boundary"
    (PhaseContract.mk "goal" PhaseKind.Implement "label" [] [] "boundary" "transition")
    None [] 6.

Definition two_worktrees : RepositoryCurrentView :=
  RepositoryCurrentView.mk 9 {[mk_id (mk_uuid 10) := repo0]}
    {[mk_id (mk_uuid 21) := WorktreeInstance.mk (mk_id (mk_uuid 21)) 1 None (mk_id (mk_uuid 10))
        WorktreeKind.Linked WorktreeLifecycle.Active (Some "/w"%string) [observed "/w"]
        [observed "/repo/.git"] GitRegistrationState.Registered None "created" None None 1]}
    ∅ ∅ ∅.

Lemma lineage_misses_second_membership :
  Task.validate two_memberships = Ok tt /\ validate second_worktree = Ok tt /\
  validate_workstream_scope two_memberships second_worktree two_worktrees = Ok tt /\
  derive_active_lineage two_memberships second_worktree two_worktrees
    = Err WorkIdentityError.ScopeUnresolved.
Proof. split_and!; vm_compute; reflexivity. Qed.

End LineageTheorems.

(** ** Concrete views *)

Module WorkWitnesses.
Import LineageTheorems.

Definition task_a : Task :=
  Task.mk (mk_id (mk_uuid 1)) (mk_rid (mk_uuid 2)) None ["root"%string] "goal"
    [TaskScopeMembership.mk (Some (mk_id (mk_uuid 10))) [mk_id (mk_uuid 21)]]
    TaskIdentityConfidence.Explicit TaskLifecycle.Active None None [] [] None 0 None 5.

Definition view_a : WorkIdentityCurrentView :=
  WorkIdentityCurrentView.mk 9 {[mk_id (mk_uuid 1) := task_a]}
    {[mk_id (mk_uuid 3) := second_worktree]}.

Lemma view_a_keyed : CorrelationFacts.view_keyed view_a.
Proof.
  split; intros k v; cbn; rewrite lookup_singleton_Some; by intros [<- <-].
Qed.

Definition scope_a : CorrelationScope := CorrelationScope.mk (Some (mk_id (mk_uuid 1))) None None.
Definition evidence_a : list CorrelationEvidence :=
  [CorrelationEvidence.mk CorrelationEvidenceKind.ExplicitTask "request" [mk_id (mk_uuid 1)] [];
   CorrelationEvidence.mk CorrelationEvidenceKind.Patch "patch" [] [mk_id (mk_uuid 3)];
   CorrelationEvidence.mk CorrelationEvidenceKind.RecentActivity "recent" [] [mk_id (mk_uuid 99)]].

Lemma correlation_iff_witness :
  WorkstreamOps.resolve_workstream_candidate view_a scope_a evidence_a 7
    = Some (CorrelationResult.Resolved (mk_id (mk_uuid 3))) /\
  Forall (CorrelationFacts.usable view_a scope_a) (take 2 evidence_a).
Proof.
  split; [vm_compute; reflexivity|].
  destruct (correlation_iff view_a scope_a evidence_a 7 view_a_keyed) as (r & Hr & H).
  refine (proj1 (proj2 (proj1 (H (mk_id (mk_uuid 3))) _))).
  vm_compute in Hr. injection Hr as <-. reflexivity.
Defined.

Definition binding_evidence : list BindingEvidence :=
  [BindingEvidence.mk BindingEvidenceStrength.Weak "weak" (mk_id (mk_uuid 50)) (mk_id (mk_uuid 51));
   BindingEvidence.mk BindingEvidenceStrength.Exact "exact" (mk_id (mk_uuid 1)) (mk_id (mk_uuid 3))].

Definition wb (n : N) : WorkBindingRevisionId := mk_id (mk_uuid n).
Definition op_a : OperationId := mk_id (mk_uuid 60).

Definition bind (current : option WorkBindingRevision) (evidence : list BindingEvidence) :=
  BindingOps.resolve_binding (wb 70) view_a op_a current [] [] evidence.

Definition revision_of (r : result (fault WorkIdentityError) BindingResolution)
  : option WorkBindingRevision :=
  match r with Ok (BindingResolution.Revision b) => Some b | _ => None end.

Definition binding_a : WorkBindingRevision := Eval vm_compute in get (revision_of (bind None binding_evidence)).

Lemma binding_decision_witness :
  bind None binding_evidence = Ok (BindingResolution.Revision binding_a) /\
  WorkBindingRevision.primary_binding binding_a
    = PrimaryWorkBinding.mk (Some (mk_id (mk_uuid 1))) (Some (mk_id (mk_uuid 3))) None None None None.
Proof.
  split; [vm_compute; reflexivity|].
  destruct (BindingTheorems.binding_decision (wb 70) view_a op_a None [] [] binding_evidence view_a_keyed)
    as [_ H].
  destruct (H binding_a ltac:(vm_compute; reflexivity)) as [Hb _].
  apply Hb. split; [discriminate|].
  repeat (constructor; [repeat split; try (vm_compute; reflexivity)|]); try constructor.
  all: try (exists task_a; vm_compute; reflexivity).
  all: exists second_worktree; split; vm_compute; reflexivity.
Defined.

Lemma binding_stable_witness :
  bind (Some binding_a) (reverse binding_evidence) = Ok BindingResolution.NoDelta.
Proof.
  eapply (BindingTheorems.binding_stable (wb 70) (wb 70) view_a op_a None [] [] binding_evidence
    (reverse binding_evidence) view_a_keyed); [symmetry; apply reverse_Permutation|].
  vm_compute. reflexivity.
Defined.

Lemma binding_successor_witness :
  exists b, bind (Some binding_a) [] = Ok (BindingResolution.Revision b) /\
            WorkBindingRevision.validate_successor binding_a b = Ok tt.
Proof.
  eexists. split; [vm_compute; reflexivity|].
  eapply (BindingTheorems.binding_successor (wb 70) view_a op_a binding_a [] [] [] _ view_a_keyed);
    vm_compute; reflexivity.
Defined.

Definition child (n : N) : Task :=
  Task.mk (mk_id (mk_uuid n)) (mk_rid (mk_uuid n)) None ["root"%string] "part" []
    TaskIdentityConfidence.Explicit TaskLifecycle.Active None (Some (mk_id (mk_uuid 1))) [] [] None 0 None 6.
Definition split_source : Task :=
  Task.mk (mk_id (mk_uuid 1)) (mk_rid (mk_uuid 8)) (Some (mk_rid (mk_uuid 2))) ["root"%string] "goal" []
    TaskIdentityConfidence.Explicit TaskLifecycle.Superseded None None
    [mk_id (mk_uuid 80); mk_id (mk_uuid 81)] [] None 0 (Some 3%Z) 6.

Lemma task_lineage_agrees_witness :
  exists command,
    TaskOps.split_task context0 split_source [child 80; child 81] ["why"%string] = Ok command /\
    payloads command = WorkPayload.TaskRecorded <$> [split_source; child 80; child 81].
Proof.
  eexists. split; [vm_compute; reflexivity|].
  apply (proj1 (TaskTheorems.task_lineage_agrees context0 split_source [child 80; child 81]
    ["why"%string] _) ltac:(vm_compute; reflexivity)).
Defined.

Lemma lineage_of_scoped_witness :
  exists f, WorkstreamOps.derive_active_lineage task_a second_worktree two_worktrees = Ok f /\
            ActiveLineageFoundation.source_watermark f = 6%N.
Proof.
  destruct (lineage_of_scoped task_a second_worktree two_worktrees) as (f & Hf & _ & _ & _ & Hw);
    [vm_compute; reflexivity|vm_compute; reflexivity| |discriminate|reflexivity|discriminate|].
  - apply (bool_decide_unpack _). vm_compute. exact I.
  - exists f. split; [exact Hf|exact Hw].
Defined.

End WorkWitnesses.
