(* ===== verification/Constraint.v ===== *)
(** * Constraints (crates/evertrace-domain/src/semantic/constraint.rs)

    Conditions on the state an agent works in, evaluated in three-valued logic:
    what is not known of the state makes a condition [Unknown], and only [True]
    allows enforcement.  Validation bounds the size and depth of an expression;
    evaluation is proved to be monotone in what is known and sound for every
    completion of it. *)

From S2P Require Import Prelude Order Collections Text.

Definition MAX_EXPR_DEPTH : N := 12.
Definition MAX_EXPR_NODES : N := 128.
Definition MAX_BOOLEAN_TERMS : nat := 32.
Definition MAX_IN_VALUES : nat := 64.
Definition MAX_FIELD_VALUE_BYTES : N := 256.

Module SemanticError.
Inductive SemanticError :=
| InvalidResultEvidence
| InvalidResultSuccessor
| InvalidAtom
| InvalidAtomSuccessor
| InvalidConstraintExpr
| InvalidConstraintState
| InvalidProcedure
| InvalidProcedureSuccessor
| InvalidProcedurePublication
| InvalidProposal
| InvalidProposalSuccessor
| InvalidScenario
| InvalidCoreMembership
| InvalidGlobalSupport.
#[export] Instance eq_dec : EqDecision SemanticError.
Proof. solve_decision. Defined.
End SemanticError.
Abbreviation SemanticError := SemanticError.SemanticError.
Export (hints) SemanticError.

Module ConstraintField.
Inductive ConstraintField :=
| AgentKind
| TaskKind
| ProjectFamily
| Toolchain
| OperationKind
| PhaseKind
| ArtifactKind
| EnvironmentProfile
| RevisionActive
| VerifierState
| Phase
| FailureSignature
| WorktreeLineage
| ArtifactVersion
| ExperimentState.
#[export] Instance eq_dec : EqDecision ConstraintField.
Proof. solve_decision. Defined.
Definition rank (x : ConstraintField) : N :=
  match x with
  | AgentKind => 0
  | TaskKind => 1
  | ProjectFamily => 2
  | Toolchain => 3
  | OperationKind => 4
  | PhaseKind => 5
  | ArtifactKind => 6
  | EnvironmentProfile => 7
  | RevisionActive => 8
  | VerifierState => 9
  | Phase => 10
  | FailureSignature => 11
  | WorktreeLineage => 12
  | ArtifactVersion => 13
  | ExperimentState => 14
  end.
Lemma ConstraintField_rank_inj x y : rank x = rank y -> x = y.
Proof. by destruct x, y. Qed.
#[export] Instance ord : Ord ConstraintField := Ord_by rank ConstraintField_rank_inj.
End ConstraintField.
Abbreviation ConstraintField := ConstraintField.ConstraintField.
Export (hints) ConstraintField.

Definition all_fields : list ConstraintField :=
  [ConstraintField.AgentKind; ConstraintField.TaskKind; ConstraintField.ProjectFamily;
   ConstraintField.Toolchain; ConstraintField.OperationKind; ConstraintField.PhaseKind;
   ConstraintField.ArtifactKind; ConstraintField.EnvironmentProfile;
   ConstraintField.RevisionActive; ConstraintField.VerifierState; ConstraintField.Phase;
   ConstraintField.FailureSignature; ConstraintField.WorktreeLineage;
   ConstraintField.ArtifactVersion; ConstraintField.ExperimentState].

#[export] Program Instance ConstraintField_countable : Countable ConstraintField :=
  inj_countable ConstraintField.rank (fun n => all_fields !! N.to_nat n) _.
Next Obligation. by intros []. Qed.

Module ConstraintValue.
Inductive ConstraintValue :=
| Text (_ : string)
| Boolean (_ : bool).
#[export] Instance eq_dec : EqDecision ConstraintValue.
Proof. solve_decision. Defined.
End ConstraintValue.
Abbreviation ConstraintValue := ConstraintValue.ConstraintValue.
Export (hints) ConstraintValue.

(** [derive(Ord)]: texts before booleans. *)
Definition value_key (v : ConstraintValue) : N * (string * N) :=
  match v with
  | ConstraintValue.Text s => (0%N, (s, 0%N))
  | ConstraintValue.Boolean b => (1%N, (EmptyString, if b then 1%N else 0%N))
  end.
Lemma value_key_inj x y : value_key x = value_key y -> x = y.
Proof. destruct x as [|[]], y as [|[]]; cbn; congruence. Qed.
#[export] Instance ConstraintValue_ord : Ord ConstraintValue := Ord_by value_key value_key_inj.

Definition supports_transition (self : ConstraintField) : bool :=
  match self with
  | ConstraintField.PhaseKind | ConstraintField.RevisionActive | ConstraintField.VerifierState
  | ConstraintField.Phase | ConstraintField.WorktreeLineage | ConstraintField.ArtifactVersion
  | ConstraintField.ExperimentState => true
  | _ => false
  end.

Definition accepts (self : ConstraintField) (value : ConstraintValue) : bool :=
  match self, value with
  | ConstraintField.RevisionActive, ConstraintValue.Boolean _ => true
  | ConstraintField.RevisionActive, ConstraintValue.Text _ => false
  | _, ConstraintValue.Text _ => true
  | _, ConstraintValue.Boolean _ => false
  end.

Definition validate_value (self : ConstraintValue) : result SemanticError unit :=
  match self with
  | ConstraintValue.Text value =>
      guard (str_is_empty value || (MAX_FIELD_VALUE_BYTES <? str_len value)%N
             || any is_control (chars value)) SemanticError.InvalidConstraintExpr
  | ConstraintValue.Boolean _ => Ok tt
  end.

Module ConstraintBinding.
Record ConstraintBinding := mk {
  field : ConstraintField;
  value : ConstraintValue;
}.
#[export] Instance eq_dec : EqDecision ConstraintBinding.
Proof. solve_decision. Defined.
End ConstraintBinding.
Abbreviation ConstraintBinding := ConstraintBinding.ConstraintBinding.
Export (hints) ConstraintBinding.

Module ConstraintState.
Record ConstraintState := mk {
  bindings : list ConstraintBinding;
}.
#[export] Instance eq_dec : EqDecision ConstraintState.
Proof. solve_decision. Defined.
Definition validate (self : ConstraintState) : result SemanticError unit :=
  do? guard ((N.to_nat MAX_EXPR_NODES <? length (bindings self))%nat
             || negb (windows2_all (fun a b => ltb_ord (ConstraintBinding.field a) (ConstraintBinding.field b))
                        (bindings self)))
        SemanticError.InvalidConstraintState in
  for_each (fun binding =>
    do? validate_value (ConstraintBinding.value binding) in
    guard (negb (accepts (ConstraintBinding.field binding) (ConstraintBinding.value binding)))
      SemanticError.InvalidConstraintState) (bindings self).

Definition values (self : ConstraintState)
  : result SemanticError (gmap ConstraintField ConstraintValue) :=
  do? validate self in
  Ok (list_to_map ((fun b => (ConstraintBinding.field b, ConstraintBinding.value b)) <$> bindings self)).
End ConstraintState.
Abbreviation ConstraintState := ConstraintState.ConstraintState.
Export (hints) ConstraintState.

(** ** Truth values *)

Module ConstraintTruth.
Inductive ConstraintTruth :=
| True
| False
| Unknown.
#[export] Instance eq_dec : EqDecision ConstraintTruth.
Proof. solve_decision. Defined.
End ConstraintTruth.
Abbreviation ConstraintTruth := ConstraintTruth.ConstraintTruth.
Export (hints) ConstraintTruth.

Definition allows_enforcement (self : ConstraintTruth) : bool :=
  match self with ConstraintTruth.True => true | _ => false end.

Definition truth_and (self other : ConstraintTruth) : ConstraintTruth :=
  match self, other with
  | ConstraintTruth.False, _ | _, ConstraintTruth.False => ConstraintTruth.False
  | ConstraintTruth.True, ConstraintTruth.True => ConstraintTruth.True
  | _, _ => ConstraintTruth.Unknown
  end.

Definition truth_or (self other : ConstraintTruth) : ConstraintTruth :=
  match self, other with
  | ConstraintTruth.True, _ | _, ConstraintTruth.True => ConstraintTruth.True
  | ConstraintTruth.False, ConstraintTruth.False => ConstraintTruth.False
  | _, _ => ConstraintTruth.Unknown
  end.

Definition truth_not (self : ConstraintTruth) : ConstraintTruth :=
  match self with
  | ConstraintTruth.True => ConstraintTruth.False
  | ConstraintTruth.False => ConstraintTruth.True
  | ConstraintTruth.Unknown => ConstraintTruth.Unknown
  end.

Definition truth_of (value : bool) : ConstraintTruth :=
  if value then ConstraintTruth.True else ConstraintTruth.False.

(** ** Expressions *)

Module ConstraintExpr.
Inductive ConstraintExpr :=
| All (terms : list ConstraintExpr)
| Any (terms : list ConstraintExpr)
| Not (term : ConstraintExpr)
| Eq (field : ConstraintField) (value : ConstraintValue)
| In (field : ConstraintField) (values : list ConstraintValue)
| Exists (field : ConstraintField)
| Changed (field : ConstraintField)
| Transitioned (field : ConstraintField) (from to : ConstraintValue).

(** A [for] loop that threads a counter and stops at the first error. *)
Definition fold_ok {E S A} (f : A -> S -> result E S) : list A -> S -> result E S :=
  fix go l s := match l with [] => Ok s | x :: r => let? s := f x s in go r s end.

(** [validate_inner]; the counter of visited nodes is the result. *)
Fixpoint validate_inner (self : ConstraintExpr) (depth nodes : N) : result SemanticError N :=
  let? nodes := ok_or (checked_add_u64 nodes 1) SemanticError.InvalidConstraintExpr in
  do? guard ((MAX_EXPR_DEPTH <? depth)%N || (MAX_EXPR_NODES <? nodes)%N)
        SemanticError.InvalidConstraintExpr in
  match self with
  | All terms | Any terms =>
      do? guard (is_empty terms || (MAX_BOOLEAN_TERMS <? length terms)%nat)
            SemanticError.InvalidConstraintExpr in
      fold_ok (fun term nodes => validate_inner term (depth + 1) nodes) terms nodes
  | Not term => validate_inner term (depth + 1) nodes
  | Eq field value =>
      do? validate_value value in
      do? guard (negb (accepts field value)) SemanticError.InvalidConstraintExpr in
      Ok nodes
  | In field values =>
      do? guard (is_empty values || (MAX_IN_VALUES <? length values)%nat
                 || negb (windows2_all ltb_ord values)) SemanticError.InvalidConstraintExpr in
      do? for_each (fun value =>
            do? validate_value value in
            guard (negb (accepts field value)) SemanticError.InvalidConstraintExpr) values in
      Ok nodes
  | Exists _ | Changed _ => Ok nodes
  | Transitioned field from to =>
      do? validate_value from in
      do? validate_value to in
      do? guard (negb (supports_transition field) || negb (accepts field from)
                 || negb (accepts field to) || (from ==? to)) SemanticError.InvalidConstraintExpr in
      Ok nodes
  end.

Definition validate (self : ConstraintExpr) : result SemanticError unit :=
  do? validate_inner self 1 0 in Ok tt.

Fixpoint collect_referenced_fields (self : ConstraintExpr) (fields : gset ConstraintField)
  : gset ConstraintField :=
  match self with
  | All terms | Any terms => fold_left (fun fields term => collect_referenced_fields term fields) terms fields
  | Not term => collect_referenced_fields term fields
  | Eq field _ | In field _ | Exists field | Changed field | Transitioned field _ _ => {[field]} ∪ fields
  end.

Definition referenced_fields (self : ConstraintExpr) : gset ConstraintField :=
  collect_referenced_fields self ∅.

Section evaluation.
Context (current : gmap ConstraintField ConstraintValue)
  (previous : option (gmap ConstraintField ConstraintValue)).

Fixpoint evaluate_inner (self : ConstraintExpr) : ConstraintTruth :=
  match self with
  | All terms =>
      fold_left (fun value term => truth_and value (evaluate_inner term)) terms ConstraintTruth.True
  | Any terms =>
      fold_left (fun value term => truth_or value (evaluate_inner term)) terms ConstraintTruth.False
  | Not term => truth_not (evaluate_inner term)
  | Eq field value =>
      match current !! field with
      | None => ConstraintTruth.Unknown
      | Some observed => truth_of (observed ==? value)
      end
  | In field values =>
      match current !! field with
      | None => ConstraintTruth.Unknown
      | Some observed => truth_of (contains observed values)
      end
  | Exists field =>
      if is_some (current !! field) then ConstraintTruth.True else ConstraintTruth.Unknown
  | Changed field =>
      match previous with
      | None => ConstraintTruth.Unknown
      | Some previous =>
          match previous !! field, current !! field with
          | Some before, Some after => truth_of (before !=? after)
          | _, _ => ConstraintTruth.Unknown
          end
      end
  | Transitioned field from to =>
      if negb (supports_transition field) || (from ==? to) then ConstraintTruth.Unknown
      else
        match previous with
        | None => ConstraintTruth.Unknown
        | Some previous =>
            match previous !! field, current !! field with
            | Some before, Some after => truth_of ((before ==? from) && (after ==? to))
            | _, _ => ConstraintTruth.Unknown
            end
        end
  end.
End evaluation.

Definition evaluate (self : ConstraintExpr) (current : ConstraintState)
    (previous : option ConstraintState) : ConstraintTruth :=
  if is_err (validate self) then ConstraintTruth.Unknown
  else
    match ConstraintState.values current with
    | Err _ => ConstraintTruth.Unknown
    | Ok current =>
        match previous with
        | None => evaluate_inner current None self
        | Some previous =>
            match ConstraintState.values previous with
            | Err _ => ConstraintTruth.Unknown
            | Ok previous => evaluate_inner current (Some previous) self
            end
        end
    end.
End ConstraintExpr.
Abbreviation ConstraintExpr := ConstraintExpr.ConstraintExpr.

Module ApplicabilityExpr.
Inductive ApplicabilityExpr := Always | Constraint (_ : ConstraintExpr).

Definition validate (self : ApplicabilityExpr) : result SemanticError unit :=
  match self with Always => Ok tt | Constraint expr => ConstraintExpr.validate expr end.

Definition evaluate (self : ApplicabilityExpr) (current : ConstraintState)
    (previous : option ConstraintState) : ConstraintTruth :=
  match self with
  | Always => ConstraintTruth.True
  | Constraint expr => ConstraintExpr.evaluate expr current previous
  end.
End ApplicabilityExpr.
Abbreviation ApplicabilityExpr := ApplicabilityExpr.ApplicabilityExpr.

(** ** Specification *)

Module ConstraintSpec.
Import ConstraintExpr.

Section induction.
Context (P : ConstraintExpr -> Prop)
  (Hall : forall ts, Forall P ts -> P (All ts)) (Hany : forall ts, Forall P ts -> P (Any ts))
  (Hnot : forall t, P t -> P (Not t)) (Heq : forall f v, P (Eq f v)) (Hin : forall f vs, P (In f vs))
  (Hex : forall f, P (Exists f)) (Hch : forall f, P (Changed f))
  (Htr : forall f a b, P (Transitioned f a b)).

Fixpoint expr_ind (e : ConstraintExpr) : P e :=
  let terms := fix go ts : Forall P ts := match ts with
    | [] => Forall_nil_2 P
    | t :: r => Forall_cons_2 P t r (expr_ind t) (go r) end in
  match e with
  | All ts => Hall ts (terms ts) | Any ts => Hany ts (terms ts) | Not t => Hnot t (expr_ind t)
  | Eq f v => Heq f v | In f vs => Hin f vs | Exists f => Hex f | Changed f => Hch f
  | Transitioned f a b => Htr f a b
  end.
End induction.

(** Number of nodes and depth of an expression. *)
Fixpoint size (e : ConstraintExpr) : N :=
  match e with
  | All ts | Any ts => 1 + foldr N.add 0 (List.map size ts)
  | Not t => 1 + size t
  | _ => 1
  end%N.

Fixpoint depth (e : ConstraintExpr) : N :=
  match e with
  | All ts | Any ts => 1 + foldr N.max 0 (List.map depth ts)
  | Not t => 1 + depth t
  | _ => 1
  end%N.

Definition value_ok (field : ConstraintField) (v : ConstraintValue) : Prop :=
  validate_value v = Ok tt /\ accepts field v = true.

(** The conditions on each node, wherever it stands. *)
Inductive shaped : ConstraintExpr -> Prop :=
| shaped_all ts : (1 <= length ts <= MAX_BOOLEAN_TERMS)%nat -> Forall shaped ts -> shaped (All ts)
| shaped_any ts : (1 <= length ts <= MAX_BOOLEAN_TERMS)%nat -> Forall shaped ts -> shaped (Any ts)
| shaped_not t : shaped t -> shaped (Not t)
| shaped_eq f v : value_ok f v -> shaped (Eq f v)
| shaped_in f vs : (1 <= length vs <= MAX_IN_VALUES)%nat -> windows2_all ltb_ord vs = true ->
    Forall (value_ok f) vs -> shaped (In f vs)
| shaped_exists f : shaped (Exists f)
| shaped_changed f : shaped (Changed f)
| shaped_transitioned f a b : supports_transition f = true -> value_ok f a -> value_ok f b -> a <> b ->
    shaped (Transitioned f a b).

(** A world assigns a value to every field, now and before. *)
Fixpoint holds (now before : ConstraintField -> ConstraintValue) (e : ConstraintExpr) : bool :=
  match e with
  | All ts => all id (List.map (holds now before) ts)
  | Any ts => any id (List.map (holds now before) ts)
  | Not t => negb (holds now before t)
  | Eq f v => now f ==? v
  | In f vs => contains (now f) vs
  | Exists f => true
  | Changed f => before f !=? now f
  | Transitioned f a b => (before f ==? a) && (now f ==? b)
  end.

(** The state says nothing of the world that is not so. *)
Definition knows (state : ConstraintState) (world : ConstraintField -> ConstraintValue) : Prop :=
  forall b, b ∈ ConstraintState.bindings state ->
    world (ConstraintBinding.field b) = ConstraintBinding.value b.

Definition binds (state : ConstraintState) (f : ConstraintField) : Prop :=
  f ∈ ConstraintBinding.field <$> ConstraintState.bindings state.

(** [state'] knows at least what [state] knows. *)
Definition extends (state state' : ConstraintState) : Prop :=
  ConstraintState.validate state' = Ok tt /\
  ConstraintState.bindings state ⊆ ConstraintState.bindings state'.

Definition extends_opt (prev prev' : option ConstraintState) : Prop :=
  match prev, prev' with
  | None, None => True
  | None, Some p' => ConstraintState.validate p' = Ok tt
  | Some p, Some p' => extends p p'
  | Some _, None => False
  end.

(** [Unknown] is below both truth values. *)
Definition truth_le (a b : ConstraintTruth) : Prop := a = ConstraintTruth.Unknown \/ a = b.
End ConstraintSpec.

(** ** Lemmas *)

Module ConstraintFacts.
Import ConstraintExpr ConstraintSpec.

Lemma value_err v : validate_value v = Ok tt \/ validate_value v = Err SemanticError.InvalidConstraintExpr.
Proof. destruct v as [s|b]; cbn; [|by left]. destruct (_ || _); auto. Qed.

(** The two outcomes of a check: [Ok x] exactly when [P], and one error. *)
Definition decides {A} (m : result SemanticError A) (x : A) (P : Prop) : Prop :=
  (m = Ok x /\ P) \/ (m = Err SemanticError.InvalidConstraintExpr /\ ~ P).

#[local] Instance decides_proper {A} (m : result SemanticError A) x : Proper (iff ==> iff) (decides m x).
Proof. intros P Q H. unfold decides. by rewrite H. Qed.

Lemma decides_bind {A} m (k : result SemanticError A) x (P Q : Prop) :
  decides m tt Q -> decides k x P -> decides (do? m in k) x (Q /\ P).
Proof. unfold decides. intros [[-> ?]|[-> ?]] Hk; cbn; naive_solver. Qed.

Lemma decides_valid v : decides (validate_value v) tt (validate_value v = Ok tt).
Proof. unfold decides. destruct (value_err v) as [E|E]; rewrite E; naive_solver. Qed.

Lemma decides_test bad (Q : Prop) :
  (bad = false <-> Q) -> decides (guard bad SemanticError.InvalidConstraintExpr) tt Q.
Proof. unfold decides. destruct bad; cbn; naive_solver. Qed.

Lemma decides_accepts f v :
  decides (guard (negb (accepts f v)) SemanticError.InvalidConstraintExpr) tt (accepts f v = true).
Proof. apply decides_test, negb_false_iff. Qed.

Lemma decides_guard {A} bad (k : result SemanticError A) x (P Q : Prop) :
  (bad = false <-> Q) -> (Q -> decides k x P) ->
  decides (do? guard bad SemanticError.InvalidConstraintExpr in k) x (Q /\ P).
Proof. unfold decides. destruct bad; cbn; naive_solver. Qed.

Lemma decides_ok {A} (x : A) : decides (Ok x) x True.
Proof. by left. Qed.

Lemma decides_values f vs :
  decides (for_each (fun value =>
    do? validate_value value in
    guard (negb (accepts f value)) SemanticError.InvalidConstraintExpr) vs) tt (Forall (value_ok f) vs).
Proof.
  induction vs as [|v vs IH]; cbn [for_each]; [by left|]. rewrite Forall_cons.
  apply decides_bind; [|done]. apply decides_bind; [apply decides_valid|apply decides_accepts].
Qed.

(** The check of an expression at a depth, after some nodes. *)
Definition fits_at (d nodes : N) (e : ConstraintExpr) : Prop :=
  (d + depth e <= MAX_EXPR_DEPTH + 1)%N /\ (nodes + size e <= MAX_EXPR_NODES)%N /\ shaped e.

Lemma size_depth_pos e : (1 <= size e /\ 1 <= depth e)%N.
Proof. destruct e; cbn -[N.add]; lia. Qed.

Lemma decides_node e d nodes (body : N -> result SemanticError N) P :
  (nodes <= MAX_EXPR_NODES)%N ->
  ((d <= MAX_EXPR_DEPTH)%N -> (nodes + 1 <= MAX_EXPR_NODES)%N ->
   decides (body (nodes + 1)) (nodes + size e) P /\ (P <-> fits_at d nodes e))%N ->
  decides (let? n := ok_or (checked_add_u64 nodes 1) SemanticError.InvalidConstraintExpr in
           do? guard ((MAX_EXPR_DEPTH <? d)%N || (MAX_EXPR_NODES <? n)%N)
                 SemanticError.InvalidConstraintExpr in body n) (nodes + size e)%N (fits_at d nodes e).
Proof.
  intros Hn H. unfold checked_add_u64.
  destruct (N.leb_spec (nodes + 1) U64_MAX) as [_|Hov]; [|unfold U64_MAX, MAX_EXPR_NODES in *; lia].
  cbn [ok_or rbind]. pose proof (size_depth_pos e) as [Hs Hd].
  destruct (N.ltb_spec MAX_EXPR_DEPTH d) as [Hd'|Hd']; cbn [orb guard rbind].
  { right. split; [done|]. intros (? & _). lia. }
  destruct (N.ltb_spec MAX_EXPR_NODES (nodes + 1)) as [Hn'|Hn']; cbn [orb guard rbind].
  { right. split; [done|]. intros (_ & ? & _). lia. }
  destruct (H Hd' Hn') as [H1 H2]. by rewrite <-H2.
Qed.

Definition checked_as (e : ConstraintExpr) : Prop :=
  forall d nodes, (nodes <= MAX_EXPR_NODES)%N ->
    decides (validate_inner e d nodes) (nodes + size e)%N (fits_at d nodes e).

Definition terms_fit (d nodes : N) (ts : list ConstraintExpr) : Prop :=
  (d + foldr N.max 0 (List.map depth ts) <= MAX_EXPR_DEPTH \/ ts = [])%N /\
  (nodes + foldr N.add 0 (List.map size ts) <= MAX_EXPR_NODES)%N /\ Forall shaped ts.

Lemma fold_terms ts d nodes :
  Forall checked_as ts -> (nodes <= MAX_EXPR_NODES)%N ->
  decides (fold_ok (fun t nodes => validate_inner t (d + 1) nodes) ts nodes)
    (nodes + foldr N.add 0 (List.map size ts))%N (terms_fit d nodes ts).
Proof.
  intros H. revert nodes. induction H as [|t ts Ht _ IH]; intros nodes Hn; cbn -[N.add].
  { left. rewrite N.add_0_r. split; [done|]. unfold terms_fit. cbn -[N.add]. split; [by right|]. split; [lia|constructor]. }
  unfold terms_fit in *. cbn -[N.add]. rewrite Forall_cons.
  destruct (Ht (d + 1)%N nodes Hn) as [[-> (Hd & Hs & Hsh)]|[-> Hno]]; cbn -[N.add].
  - rewrite N.add_assoc. generalize (IH (nodes + size t)%N Hs). apply decides_proper. destruct ts as [|t' ts]; cbn -[N.add].
    + split; [|naive_solver lia]. intros _. split_and!; try done; [left; lia|lia].
    + split; intros ([H1|H1] & H2 & H3); try done; (split; [left; lia|split; [lia|tauto]]).
  - right. split; [done|]. intros (Hd & Hs & Hsh & _). apply Hno. destruct Hd as [Hd|Hd]; [|done].
    split_and!; [lia|lia|done].
Qed.

Lemma decides_terms ts d nodes e :
  Forall checked_as ts -> (nodes + 1 <= MAX_EXPR_NODES)%N -> (d <= MAX_EXPR_DEPTH)%N ->
  (shaped e <-> (1 <= length ts <= MAX_BOOLEAN_TERMS)%nat /\ Forall shaped ts) ->
  size e = (1 + foldr N.add 0 (List.map size ts))%N -> depth e = (1 + foldr N.max 0 (List.map depth ts))%N ->
  decides (do? guard (is_empty ts || (MAX_BOOLEAN_TERMS <? length ts)%nat) SemanticError.InvalidConstraintExpr in
           fold_ok (fun t nodes => validate_inner t (d + 1) nodes) ts (nodes + 1)%N) (nodes + size e)%N
    (fits_at d nodes e).
Proof.
  intros Hts Hn Hd Hsh Hs Hdp.
  assert (fits_at d nodes e <-> (1 <= length ts <= MAX_BOOLEAN_TERMS)%nat /\ terms_fit d (nodes + 1) ts) as ->.
  { unfold fits_at, terms_fit. rewrite Hsh, Hs, Hdp. destruct ts as [|t ts]; [cbn; intuition lia|].
    split; [|intros (Hl & [?|?] & ?); [|done]]; intuition lia. }
  apply decides_bind.
  - apply decides_test. rewrite orb_false_iff, Nat.ltb_ge. destruct ts; cbn; intuition lia.
  - rewrite Hs, N.add_assoc. apply fold_terms; [done|lia].
Qed.

(** A node without terms fits when it is shaped. *)
Lemma fits_leaf d nodes e (P : Prop) :
  size e = 1%N -> depth e = 1%N -> (d <= MAX_EXPR_DEPTH)%N -> (nodes + 1 <= MAX_EXPR_NODES)%N ->
  (P <-> shaped e) -> (P <-> fits_at d nodes e).
Proof. unfold fits_at. intros -> -> ? ? ->. intuition lia. Qed.

Lemma validate_inner_decides e : checked_as e.
Proof.
  induction e as [ts IH|ts IH|t IH|f v|f vs|f|f|f a b] using expr_ind; intros d nodes Hn;
    cbn [validate_inner]; (eapply decides_node; [exact Hn|intros Hd Hn'; split]).
  - by apply decides_terms; [..|split; [by inversion 1|intros []; by constructor]| |].
  - done.
  - by apply decides_terms; [..|split; [by inversion 1|intros []; by constructor]| |].
  - done.
  - cbn [size]. rewrite N.add_assoc. by apply IH.
  - unfold fits_at. cbn -[N.add]. assert (shaped (Not t) <-> shaped t) as -> by
      (split; [by inversion 1|by constructor]). intuition lia.
  - apply decides_bind; [apply decides_valid|apply decides_bind; [apply decides_accepts|apply decides_ok]].
  - apply fits_leaf; try done. split; [intros (? & ? & _); by constructor|by inversion 1 as [| | |? ? []| | | |]].
  - apply decides_bind; [|apply decides_bind; [apply decides_values|apply decides_ok]].
    apply (decides_test _ ((1 <= length vs <= MAX_IN_VALUES)%nat /\ windows2_all ltb_ord vs = true)).
    rewrite !orb_false_iff, Nat.ltb_ge, negb_false_iff. destruct vs; cbn -[windows2_all]; intuition lia.
  - apply fits_leaf; try done. split; [intros ([] & ? & _); by constructor|by inversion 1].
  - apply decides_ok.
  - apply fits_leaf; try done. split; [by constructor|done].
  - apply decides_ok.
  - apply fits_leaf; try done. split; [by constructor|done].
  - repeat (apply decides_bind; [apply decides_valid|]). apply decides_bind; [|apply decides_ok].
    apply decides_test. rewrite !orb_false_iff, !negb_false_iff, bool_decide_eq_false. reflexivity.
  - apply fits_leaf; try done. unfold value_ok. split; [intros; destruct_and!; by constructor|].
    by inversion 1 as [| | | | | | |? ? ? ? [] [] ?].
Qed.

(** ** Evaluation *)

Lemma truth_and_mono a b c d : truth_le a b -> truth_le c d -> truth_le (truth_and a c) (truth_and b d).
Proof. unfold truth_le. intros [->| ->] [->| ->]; destruct b, d; auto. Qed.
Lemma truth_or_mono a b c d : truth_le a b -> truth_le c d -> truth_le (truth_or a c) (truth_or b d).
Proof. unfold truth_le. intros [->| ->] [->| ->]; destruct b, d; auto. Qed.
Lemma truth_not_mono a b : truth_le a b -> truth_le (truth_not a) (truth_not b).
Proof. unfold truth_le. intros [->| ->]; auto. Qed.

#[export] Instance truth_le_refl : Reflexive truth_le.
Proof. by right. Qed.

Lemma fold_mono (op : ConstraintTruth -> ConstraintTruth -> ConstraintTruth) {A} (f g : A -> ConstraintTruth) l a b :
  (forall a b c d, truth_le a b -> truth_le c d -> truth_le (op a c) (op b d)) ->
  truth_le a b -> Forall (fun x => truth_le (f x) (g x)) l ->
  truth_le (fold_left (fun v x => op v (f x)) l a) (fold_left (fun v x => op v (g x)) l b).
Proof. intros Hop Hab H. revert a b Hab. induction H; intros a b Hab; simpl; auto. Qed.

Definition opt_le (p q : option (gmap ConstraintField ConstraintValue)) : Prop :=
  match p, q with None, _ => True | Some p, Some q => p ⊆ q | Some _, None => False end.

Lemma lookup_le (m m' : gmap ConstraintField ConstraintValue) f :
  m ⊆ m' -> m !! f = None \/ m' !! f = m !! f.
Proof. intros H. destruct (m !! f) as [v|] eqn:E; [right|by left]. by eapply lookup_weaken. Qed.

Lemma both_mono (p q m m' : gmap ConstraintField ConstraintValue) f (k : ConstraintValue -> ConstraintValue -> bool) :
  p ⊆ q -> m ⊆ m' ->
  truth_le (match p !! f, m !! f with Some a, Some b => truth_of (k a b) | _, _ => ConstraintTruth.Unknown end)
           (match q !! f, m' !! f with Some a, Some b => truth_of (k a b) | _, _ => ConstraintTruth.Unknown end).
Proof.
  intros Hp Hm. destruct (lookup_le _ _ f Hp) as [->| ->]; [by left|].
  destruct (lookup_le _ _ f Hm) as [->| ->]; [destruct (p !! f); by left|done].
Qed.

Lemma evaluate_inner_mono e m m' p p' :
  m ⊆ m' -> opt_le p p' -> truth_le (evaluate_inner m p e) (evaluate_inner m' p' e).
Proof.
  intros Hm Hp. induction e as [ts IH|ts IH|t IH|f v|f vs|f|f|f a b] using expr_ind; cbn [evaluate_inner].
  - by apply fold_mono; [apply truth_and_mono| |].
  - by apply fold_mono; [apply truth_or_mono| |].
  - by apply truth_not_mono.
  - destruct (lookup_le _ _ f Hm) as [->| ->]; [by left|done].
  - destruct (lookup_le _ _ f Hm) as [->| ->]; [by left|done].
  - destruct (lookup_le _ _ f Hm) as [->| ->]; [by left|done].
  - destruct p as [p|], p' as [p'|]; try done; [|by left]. apply both_mono; done.
  - destruct (_ || _); [done|]. destruct p as [p|], p' as [p'|]; try done; [|by left].
    apply both_mono; done.
Qed.

Lemma fold_and_bool {A} (f : A -> ConstraintTruth) (g : A -> bool) l b :
  Forall (fun x => f x = truth_of (g x)) l ->
  fold_left (fun v x => truth_and v (f x)) l (truth_of b) = truth_of (b && all id (List.map g l)).
Proof.
  intros H. revert b. induction H as [|x l Hx _ IH]; intros b; simpl; [by rewrite andb_true_r|].
  rewrite Hx. assert (truth_and (truth_of b) (truth_of (g x)) = truth_of (b && g x)) as -> by (by destruct b, (g x)).
  rewrite IH. by rewrite andb_assoc.
Qed.

Lemma fold_or_bool {A} (f : A -> ConstraintTruth) (g : A -> bool) l b :
  Forall (fun x => f x = truth_of (g x)) l ->
  fold_left (fun v x => truth_or v (f x)) l (truth_of b) = truth_of (b || any id (List.map g l)).
Proof.
  intros H. revert b. induction H as [|x l Hx _ IH]; intros b; simpl; [by rewrite orb_false_r|].
  rewrite Hx. assert (truth_or (truth_of b) (truth_of (g x)) = truth_of (b || g x)) as -> by (by destruct b, (g x)).
  rewrite IH. by rewrite orb_assoc.
Qed.

Lemma collect_terms ts s f :
  Forall (fun t => forall s f, f ∈ collect_referenced_fields t s <-> f ∈ s \/ f ∈ referenced_fields t) ts ->
  f ∈ fold_left (fun fields t => collect_referenced_fields t fields) ts s <->
  f ∈ s \/ exists t, t ∈ ts /\ f ∈ referenced_fields t.
Proof.
  intros H. revert s. induction H as [|t ts Ht _ IH]; intros s; simpl.
  - split; [by left|]. intros [?|(t & []%not_elem_of_nil & _)]; done.
  - rewrite IH, Ht. setoid_rewrite elem_of_cons. naive_solver.
Qed.

Lemma collect_spec e s f :
  f ∈ collect_referenced_fields e s <-> f ∈ s \/ f ∈ referenced_fields e.
Proof.
  revert s f. unfold referenced_fields.
  induction e as [ts IH|ts IH|t IH|g v|g vs|g|g|g a b] using expr_ind; intros s f;
    cbn [collect_referenced_fields].
  1, 2: rewrite !(collect_terms _ _ _ IH); set_solver.
  all: first [exact (IH s f)|set_solver].
Qed.

Lemma referenced_term ts t f :
  t ∈ ts -> f ∈ referenced_fields t ->
  f ∈ fold_left (fun fields t => collect_referenced_fields t fields) ts ∅.
Proof. intros Ht Hf. apply collect_terms; [|by eauto]. apply Forall_true. intros. apply collect_spec. Qed.

(** Evaluation in maps that bind every field the expression mentions. *)
Lemma evaluate_inner_total e m p now before :
  shaped e ->
  (forall f, f ∈ referenced_fields e -> m !! f = Some (now f) /\ p !! f = Some (before f)) ->
  evaluate_inner m (Some p) e = truth_of (holds now before e).
Proof.
  unfold referenced_fields.
  induction e as [ts IH|ts IH|t IH|f v|f vs|f|f|f a b] using expr_ind; intros Hs Hm;
    cbn [evaluate_inner holds collect_referenced_fields] in *.
  - apply (fold_and_bool _ _ _ true). inversion Hs; simplify_eq. rewrite Forall_forall in *.
    intros t Ht. apply IH; [done|auto|]. intros f Hf. apply Hm. by eapply referenced_term.
  - apply (fold_or_bool _ _ _ false). inversion Hs; simplify_eq. rewrite Forall_forall in *.
    intros t Ht. apply IH; [done|auto|]. intros f Hf. apply Hm. by eapply referenced_term.
  - inversion Hs. rewrite IH by done. by destruct (holds now before t).
  - destruct (Hm f) as [-> _]; [set_solver|done].
  - destruct (Hm f) as [-> _]; [set_solver|done].
  - destruct (Hm f) as [-> _]; [set_solver|done].
  - destruct (Hm f) as [-> ->]; [set_solver|done].
  - inversion Hs as [| | | | | | |? ? ? Ht _ _ Hne]; simplify_eq. rewrite Ht, bool_decide_eq_false_2 by done.
    destruct (Hm f) as [-> ->]; [set_solver|done].
Qed.

(** ** States *)

Lemma windows2_all_fmap {A B} (g : B -> B -> bool) (f : A -> B) l :
  windows2_all (fun a b => g (f a) (f b)) l = windows2_all g (f <$> l).
Proof. induction l as [|x [|y l] IH]; simpl in *; [done..|]. by rewrite IH. Qed.

Lemma values_spec s :
  ConstraintState.validate s = Ok tt ->
  exists m, ConstraintState.values s = Ok m /\
  forall f v, m !! f = Some v <-> exists b, b ∈ ConstraintState.bindings s /\
    ConstraintBinding.field b = f /\ ConstraintBinding.value b = v.
Proof.
  intros H. unfold ConstraintState.values. rewrite H. cbn [rbind]. eexists. split; [done|]. intros f v.
  unfold ConstraintState.validate in H. apply rbind_ok in H as ([] & G & _). apply guard_ok in G.
  apply orb_false_iff in G as [_ G]. apply negb_false_iff in G.
  rewrite (windows2_all_fmap ltb_ord ConstraintBinding.field) in G.
  apply windows2_lt_sorted, sorted_lt_NoDup in G.
  rewrite <-elem_of_list_to_map; [|by rewrite <-list_fmap_compose].
  rewrite list_elem_of_fmap. split.
  - intros (b & Hb & Hin). exists b. by simplify_eq.
  - intros (b & Hin & <- & <-). by exists b.
Qed.

Lemma extends_values s s' m m' :
  extends s s' -> ConstraintState.validate s = Ok tt ->
  ConstraintState.values s = Ok m -> ConstraintState.values s' = Ok m' -> m ⊆ m'.
Proof.
  intros [Hv' Hs] Hv Hm Hm'. destruct (values_spec s Hv) as (? & Hm1 & H1), (values_spec s' Hv') as (? & Hm2 & H2).
  rewrite Hm in Hm1. rewrite Hm' in Hm2. simplify_eq. apply map_subseteq_spec. intros f v.
  rewrite H1, H2. intros (b & Hb & ?). exists b. by split; [apply Hs|].
Qed.

Definition world_map (w : ConstraintField -> ConstraintValue) : gmap ConstraintField ConstraintValue :=
  list_to_map ((fun f => (f, w f)) <$> all_fields).

Lemma world_lookup w f : world_map w !! f = Some (w f).
Proof.
  unfold world_map. apply elem_of_list_to_map.
  - rewrite <-list_fmap_compose. apply (bool_decide_unpack _). by vm_compute.
  - apply list_elem_of_fmap. exists f. split; [done|]. by destruct f; repeat constructor.
Qed.

Lemma knows_world s m w :
  knows s w -> ConstraintState.values s = Ok m -> m ⊆ world_map w.
Proof.
  intros Hk Hm. assert (ConstraintState.validate s = Ok tt) as Hv.
  { unfold ConstraintState.values in Hm. by apply rbind_ok in Hm as ([] & ? & _). }
  destruct (values_spec s Hv) as (? & Hm' & H). rewrite Hm in Hm'. simplify_eq.
  apply map_subseteq_spec. intros f v (b & Hb & <- & <-)%H. by rewrite world_lookup, Hk.
Qed.

Lemma values_err s e : ConstraintState.validate s = Err e -> ConstraintState.values s = Err e.
Proof. unfold ConstraintState.values. by intros ->. Qed.

Lemma validate_ok e : validate e = Ok tt <-> (depth e <= MAX_EXPR_DEPTH)%N /\ (size e <= MAX_EXPR_NODES)%N /\ shaped e.
Proof.
  unfold validate. destruct (validate_inner_decides e 1%N 0%N ltac:(done)) as [[-> (H1 & H2 & H3)]|[-> Hno]]; cbn.
  - split; [|done]. intros _. split; [lia|]. by split; [lia|].
  - split; [done|]. intros (H1 & H2 & H3). destruct Hno. split; [lia|]. by split; [lia|].
Qed.
End ConstraintFacts.

(** ** Theorems *)

Module ConstraintTheorems.
Import ConstraintExpr ConstraintSpec ConstraintFacts.

(** Validation in one pass decides the three bounds at once.  Although the node
    counter is threaded through the recursion and the check stops at the first
    defect, an expression is accepted exactly when it has at most 128 nodes, is
    at most 12 deep and every node is well formed by itself; everything else is
    refused with [InvalidConstraintExpr]. *)
Theorem validate_iff e :
  decides (validate e) tt
    ((depth e <= MAX_EXPR_DEPTH)%N /\ (size e <= MAX_EXPR_NODES)%N /\ shaped e).
Proof.
  destruct (validate_inner_decides e 1%N 0%N ltac:(done)) as [[H _]|[H _]].
  - left. split; [by unfold validate; rewrite H|]. apply validate_ok. unfold validate. by rewrite H.
  - right. unfold validate at 1. rewrite H. split; [done|]. rewrite <-validate_ok. unfold validate. by rewrite H.
Qed.

(** C39: what is enforced holds.  Whatever the state leaves open, an evaluation to
    [True] means that the condition holds in every world the states describe
    partially, an evaluation to [False] that it fails in all of them; and when
    the states bind every field the expression mentions, the evaluation is
    decided. *)
Theorem evaluate_sound e current previous now before :
  knows current now -> (forall p, previous = Some p -> knows p before) ->
  truth_le (evaluate e current previous) (truth_of (holds now before e)) /\
  (forall p, previous = Some p -> validate e = Ok tt ->
     ConstraintState.validate current = Ok tt -> ConstraintState.validate p = Ok tt ->
     (forall f, f ∈ referenced_fields e -> binds current f /\ binds p f) ->
     evaluate e current previous = truth_of (holds now before e)).
Proof.
  intros Hn Hb. unfold evaluate. destruct (is_err (validate e)) eqn:Ev.
  { split; [by left|]. intros p _ Hv. rewrite Hv in Ev. done. }
  apply is_err_false, validate_ok in Ev as (_ & _ & Hs). split.
  - destruct (ConstraintState.values current) as [m|] eqn:Em; [|by left].
    assert (forall p, opt_le p (Some (world_map before)) -> truth_le (evaluate_inner m p e) (truth_of (holds now before e))) as H.
    { intros p Hp. rewrite <-(evaluate_inner_total e (world_map now) (world_map before)); [|done|].
      - apply evaluate_inner_mono; [by eapply knows_world|done].
      - intros f _. by rewrite !world_lookup. }
    destruct previous as [p|]; [|by apply H].
    destruct (ConstraintState.values p) as [mp|] eqn:Ep; [|by left]. apply H. eapply knows_world; [by apply Hb|done].
  - intros p -> _ Hc Hp Hbind. destruct (values_spec _ Hc) as (m & -> & Hm), (values_spec _ Hp) as (mp & -> & Hmp).
    apply evaluate_inner_total; [done|]. intros f Hf. destruct (Hbind f Hf) as [Hf1 Hf2].
    apply list_elem_of_fmap in Hf1 as (b & -> & Hf1), Hf2 as (b' & Hbb & Hf2). rewrite Hm, Hmp. split.
    + exists b. by rewrite Hn.
    + exists b'. by rewrite Hbb, (Hb p).
Qed.

(** Learning more never reverses a verdict.  When both states grow and stay
    valid, a condition that was [True] or [False] stays so; only [Unknown] can
    change. *)
Theorem evaluate_monotone e current current' previous previous' :
  extends current current' -> extends_opt previous previous' ->
  truth_le (evaluate e current previous) (evaluate e current' previous').
Proof.
  intros Hc Hp. unfold evaluate. destruct (is_err (validate e)); [done|].
  destruct (ConstraintState.validate current) as [[]|x] eqn:Hv; [|rewrite (values_err _ _ Hv); by left].
  destruct (values_spec _ Hv) as (m & Hm & _), (values_spec _ (proj1 Hc)) as (m' & Hm' & _).
  pose proof (extends_values _ _ _ _ Hc Hv Hm Hm') as Hsub. rewrite Hm, Hm'.
  destruct previous as [p|], previous' as [p'|]; cbn in Hp; try done.
  - destruct (ConstraintState.validate p) as [[]|x] eqn:Hvp; [|rewrite (values_err _ _ Hvp); by left].
    destruct (values_spec _ Hvp) as (q & Hq & _), (values_spec _ (proj1 Hp)) as (q' & Hq' & _).
    rewrite Hq, Hq'. apply evaluate_inner_mono; [done|]. by eapply extends_values.
  - destruct (values_spec _ Hp) as (q' & -> & _). by apply evaluate_inner_mono.
  - by apply evaluate_inner_mono.
Qed.

(** ** Witnesses *)

Definition sample_expr : ConstraintExpr :=
  All [Eq ConstraintField.Phase (ConstraintValue.Text "build");
       Not (Changed ConstraintField.Phase); Any [Exists ConstraintField.Toolchain;
       In ConstraintField.RevisionActive [ConstraintValue.Boolean true]]].
Definition sample_binding f v := ConstraintBinding.mk f v.
Definition sample_known : ConstraintState :=
  ConstraintState.mk [sample_binding ConstraintField.RevisionActive (ConstraintValue.Boolean true);
                      sample_binding ConstraintField.Phase (ConstraintValue.Text "build")].
Definition sample_more : ConstraintState :=
  ConstraintState.mk (sample_binding ConstraintField.Toolchain (ConstraintValue.Text "rust")
                      :: ConstraintState.bindings sample_known).
Definition sample_world (f : ConstraintField) : ConstraintValue :=
  match f with
  | ConstraintField.RevisionActive => ConstraintValue.Boolean true
  | ConstraintField.Toolchain => ConstraintValue.Text "rust"
  | _ => ConstraintValue.Text "build"
  end.

Lemma sample_knows : knows sample_more sample_world.
Proof.
  intros b. unfold sample_more, sample_known. cbn [ConstraintState.bindings].
  rewrite !elem_of_cons, elem_of_nil. intros Hb. by destruct_or! Hb; subst.
Qed.

Lemma evaluate_sound_witness :
  truth_le (evaluate sample_expr sample_more (Some sample_more))
    (truth_of (holds sample_world sample_world sample_expr)) /\
  (forall p, Some sample_more = Some p -> validate sample_expr = Ok tt ->
     ConstraintState.validate sample_more = Ok tt -> ConstraintState.validate p = Ok tt ->
     (forall f, f ∈ referenced_fields sample_expr -> binds sample_more f /\ binds p f) ->
     evaluate sample_expr sample_more (Some sample_more)
     = truth_of (holds sample_world sample_world sample_expr)).
Proof.
  apply evaluate_sound; [apply sample_knows|]. intros p [= <-]. apply sample_knows.
Defined.

(** Both sides of the second part at this input. *)
Lemma sample_decided :
  evaluate sample_expr sample_more (Some sample_more) = ConstraintTruth.True /\
  holds sample_world sample_world sample_expr = true /\
  (forall f, f ∈ referenced_fields sample_expr -> binds sample_more f).
Proof.
  split; [by vm_compute|]. split; [by vm_compute|]. intros f.
  assert (elements (referenced_fields sample_expr) ⊆
    ConstraintBinding.field <$> ConstraintState.bindings sample_more) as H
    by (apply (bool_decide_unpack _); by vm_compute).
  intros Hf. apply H. by apply elem_of_elements.
Qed.

Lemma evaluate_monotone_witness :
  truth_le (evaluate sample_expr sample_known (Some sample_known))
    (evaluate sample_expr sample_more (Some sample_known)).
Proof.
  apply evaluate_monotone.
  - split; [by vm_compute|]. intros b Hb. by right.
  - split; [by vm_compute|]. done.
Defined.
End ConstraintTheorems.
