(* ===== verification/Atom.v ===== *)
(** * Semantic atoms (crates/evertrace-domain/src/semantic/atom.rs)

    An atom is one recorded statement (a fact, a constraint, a decision, ...)
    with its epistemic status, the authority it is held under, the scope and the
    time it applies in, and the evidence it rests on.  The file holds the
    validators of drafts and revisions, the check of a successor revision, the
    digests, and what they guarantee: scopes form a partial order, revisions of an
    atom only narrow, and a user's authorisation covers one exact value. *)

From S2P Require Import Prelude Order Collections Text Canonical Ids Digests Lane Attempt Constraint.

Definition ATOM_MAX_VALUE_BYTES : N := 16 * 1024.
Definition ATOM_MAX_TEXT_BYTES : N := 1024.
Definition ATOM_MAX_REFS : nat := 256.
Definition ATOM_MAX_QUALIFIERS : nat := 64.

(** ** Checks *)

Definition valid_long_text (value : string) : bool :=
  negb (str_is_empty value) && (str_len value <=? ATOM_MAX_VALUE_BYTES)%N
  && negb (any (fun c => c =? 0)%N (chars value)).

Definition valid_text (value : string) : bool :=
  negb (str_is_empty value) && (str_len value <=? ATOM_MAX_TEXT_BYTES)%N
  && negb (any is_control (chars value)).

Definition valid_identifier (value : string) : bool :=
  negb (str_is_empty value) && (str_len value <=? ATOM_MAX_TEXT_BYTES)%N
  && all (fun byte => is_ascii_alphanumeric byte || contains byte (as_bytes ":_-.")) (as_bytes value).

Definition strictly_sorted {A} `{!Ord A} (values : list A) : bool := windows2_all ltb_ord values.

(** ** Kinds, statuses and authorities *)

Module AtomKind.
Inductive AtomKind :=
| Fact
| Constraint
| Decision
| Failure
| Outcome
| Hypothesis_
| Result
| Claim
| Citation
| Rationale
| Annotation.
#[export] Instance eq_dec : EqDecision AtomKind.
Proof. solve_decision. Defined.
Definition rank (x : AtomKind) : N :=
  match x with
  | Fact => 0
  | Constraint => 1
  | Decision => 2
  | Failure => 3
  | Outcome => 4
  | Hypothesis_ => 5
  | Result => 6
  | Claim => 7
  | Citation => 8
  | Rationale => 9
  | Annotation => 10
  end.
Lemma AtomKind_rank_inj x y : rank x = rank y -> x = y.
Proof. by destruct x, y. Qed.
#[export] Instance ord : Ord AtomKind := Ord_by rank AtomKind_rank_inj.
End AtomKind.
Abbreviation AtomKind := AtomKind.AtomKind.
Export (hints) AtomKind.

Definition is_normative (self : AtomKind) : bool :=
  match self with AtomKind.Constraint | AtomKind.Decision => true | _ => false end.

Definition is_descriptive (self : AtomKind) : bool :=
  match self with
  | AtomKind.Fact | AtomKind.Failure | AtomKind.Outcome | AtomKind.Hypothesis_ | AtomKind.Result
  | AtomKind.Claim | AtomKind.Citation | AtomKind.Rationale | AtomKind.Annotation => true
  | _ => false
  end.

Definition supports_objective_evidence (self : AtomKind) : bool :=
  match self with
  | AtomKind.Fact | AtomKind.Failure | AtomKind.Outcome | AtomKind.Result | AtomKind.Claim
  | AtomKind.Citation => true
  | _ => false
  end.

Module EpistemicStatus.
Inductive EpistemicStatus :=
| NotApplicable
| Unverified
| Supported
| Disputed
| Refuted.
#[export] Instance eq_dec : EqDecision EpistemicStatus.
Proof. solve_decision. Defined.
End EpistemicStatus.
Abbreviation EpistemicStatus := EpistemicStatus.EpistemicStatus.
Export (hints) EpistemicStatus.

Module AtomLifecycleStatus.
Inductive AtomLifecycleStatus :=
| Active
| Superseded
| Deprecated.
#[export] Instance eq_dec : EqDecision AtomLifecycleStatus.
Proof. solve_decision. Defined.
End AtomLifecycleStatus.
Abbreviation AtomLifecycleStatus := AtomLifecycleStatus.AtomLifecycleStatus.
Export (hints) AtomLifecycleStatus.

Module AtomAuthority.
Inductive AtomAuthority :=
| UserExplicit
| ProjectPolicy
| ObjectiveEvidence
| AgentInferred
| ImportedClaim.
#[export] Instance eq_dec : EqDecision AtomAuthority.
Proof. solve_decision. Defined.
Definition rank (x : AtomAuthority) : N :=
  match x with
  | UserExplicit => 0
  | ProjectPolicy => 1
  | ObjectiveEvidence => 2
  | AgentInferred => 3
  | ImportedClaim => 4
  end.
Lemma AtomAuthority_rank_inj x y : rank x = rank y -> x = y.
Proof. by destruct x, y. Qed.
#[export] Instance ord : Ord AtomAuthority := Ord_by rank AtomAuthority_rank_inj.
End AtomAuthority.
Abbreviation AtomAuthority := AtomAuthority.AtomAuthority.
Export (hints) AtomAuthority.

Definition AtomAuthority_as_str (self : AtomAuthority) : string :=
  match self with
  | AtomAuthority.UserExplicit => "user_explicit"
  | AtomAuthority.ProjectPolicy => "project_policy"
  | AtomAuthority.ObjectiveEvidence => "objective_evidence"
  | AtomAuthority.AgentInferred => "agent_inferred"
  | AtomAuthority.ImportedClaim => "imported_claim"
  end.

(** ** Scopes *)

Module AtomScope.
Inductive AtomScope :=
| Task (task_id : TaskId)
| Worktree (repository_instance_id : RepositoryId) (worktree_instance_id : WorktreeId)
| Repository (repository_instance_id : RepositoryId)
| Global.
#[export] Instance eq_dec : EqDecision AtomScope.
Proof. solve_decision. Defined.
End AtomScope.
Abbreviation AtomScope := AtomScope.AtomScope.
Export (hints) AtomScope.

Module Scope.
Import AtomScope.

Definition specificity (self : AtomScope) : N :=
  match self with Task _ => 4 | Worktree _ _ => 3 | Repository _ => 2 | Global => 1 end.

Definition contains (self candidate : AtomScope) : bool :=
  match self, candidate with
  | Global, _ => true
  | Task a, Task b => a ==? b
  | Worktree repository_a worktree_a, Worktree repository_b worktree_b =>
      (repository_a ==? repository_b) && (worktree_a ==? worktree_b)
  | Repository a, Repository b => a ==? b
  | Repository a, Worktree b _ => a ==? b
  | _, _ => false
  end.

Definition task_id (self : AtomScope) : option TaskId :=
  match self with Task task_id => Some task_id | _ => None end.

Definition repository_id (self : AtomScope) : option RepositoryId :=
  match self with Worktree repository _ | Repository repository => Some repository | _ => None end.

Definition worktree_id (self : AtomScope) : option WorktreeId :=
  match self with Worktree _ worktree => Some worktree | _ => None end.

Definition is_global (self : AtomScope) : bool := match self with Global => true | _ => false end.

(** [contains] is a partial order with [Global] on top; it never makes a scope
    less specific. *)
#[export] Instance contains_preorder : PreOrder (fun a b => contains a b = true).
Proof.
  split.
  - intros []; cbn; rewrite ?andb_true_iff, ?bool_decide_eq_true; done.
  - intros [] [] []; cbn; rewrite ?andb_true_iff, ?bool_decide_eq_true; naive_solver.
Qed.

Lemma contains_antisymm a b : contains a b = true -> contains b a = true -> a = b.
Proof. destruct a, b; cbn; rewrite ?andb_true_iff, ?bool_decide_eq_true; naive_solver. Qed.

Lemma contains_specificity a b : contains a b = true -> (specificity a <= specificity b)%N.
Proof. destruct a, b; cbn; done || lia. Qed.
End Scope.

(** ** Values *)

Module SemanticQualifier.
Record SemanticQualifier := mk {
  name : string;
  value : string;
}.
#[export] Instance eq_dec : EqDecision SemanticQualifier.
Proof. solve_decision. Defined.
Definition key (q : SemanticQualifier) := (name q, value q).
Lemma SemanticQualifier_key_inj x y : key x = key y -> x = y.
Proof. destruct x, y; unfold key; simpl; congruence. Qed.
#[export] Instance ord : Ord SemanticQualifier := Ord_by key SemanticQualifier_key_inj.
End SemanticQualifier.
Abbreviation SemanticQualifier := SemanticQualifier.SemanticQualifier.
Export (hints) SemanticQualifier.

Module AtomValue.
Record AtomValue := mk {
  text : string;
  subject : string;
  predicate : string;
  object : option string;
  qualifiers : list SemanticQualifier;
  critical_revision_refs : list RevisionId;
}.
#[export] Instance eq_dec : EqDecision AtomValue.
Proof. solve_decision. Defined.
Definition validate (self : AtomValue) : result SemanticError unit :=
  do? guard
    (negb (valid_long_text (text self))
     || negb (valid_text (subject self))
     || negb (valid_text (predicate self))
     || is_some_and (object self) (fun value => negb (valid_text value))
     || (ATOM_MAX_QUALIFIERS <? length (qualifiers self))%nat
     || negb (strictly_sorted (qualifiers self))
     || (ATOM_MAX_REFS <? length (critical_revision_refs self))%nat
     || negb (strictly_sorted (critical_revision_refs self)))
    SemanticError.InvalidAtom in
  for_each (fun qualifier =>
    guard (negb (valid_text (SemanticQualifier.name qualifier))
           || negb (valid_text (SemanticQualifier.value qualifier)))
      SemanticError.InvalidAtom) (qualifiers self).

Definition canonical `{L : UuidLib} (self : AtomValue) : CanonicalValue :=
  Map
    [("text", CString (text self));
     ("subject", CString (subject self));
     ("predicate", CString (predicate self));
     ("object", match object self with Some value => CString value | None => Null end);
     ("qualifiers",
      Sequence ((fun q => Map [("name", CString (SemanticQualifier.name q));
                               ("value", CString (SemanticQualifier.value q))]) <$> qualifiers self));
     ("critical_revision_refs",
      Sequence ((fun r => CString (rid_display r)) <$> critical_revision_refs self))].

Definition exact_hash `{L : UuidLib} `{SHA : Sha256} (self : AtomValue) : result SemanticError (list byte) :=
  do? validate self in
  map_err (fun _ => SemanticError.InvalidAtom)
    (sha256 sha256_digest "atom_value_v1" 1 (canonical self)).
End AtomValue.
Abbreviation AtomValue := AtomValue.AtomValue.
Export (hints) AtomValue.

Module ValidityInterval.
Record ValidityInterval := mk {
  valid_from_us : Z;
  valid_until_us : option Z;
}.
#[export] Instance eq_dec : EqDecision ValidityInterval.
Proof. solve_decision. Defined.
Definition validate (self : ValidityInterval) : result SemanticError unit :=
  guard ((valid_from_us self <? 0)%Z
         || is_some_and (valid_until_us self) (fun end_ => (end_ <=? valid_from_us self)%Z))
    SemanticError.InvalidAtom.

Definition contains (self : ValidityInterval) (at_us : Z) : bool :=
  (valid_from_us self <=? at_us)%Z && is_none_or (valid_until_us self) (fun end_ => (at_us <? end_)%Z).

Definition is_within (self ceiling : ValidityInterval) : bool :=
  (valid_from_us ceiling <=? valid_from_us self)%Z
  && match valid_until_us self, valid_until_us ceiling with
     | _, None => true
     | Some value, Some limit => (value <=? limit)%Z
     | None, Some _ => false
     end.

#[export] Instance is_within_preorder : PreOrder (fun a b => is_within a b = true).
Proof.
  split.
  - intros [f [u|]]; unfold is_within; cbn; rewrite ?andb_true_iff, ?Z.leb_le; lia.
  - intros [f [u|]] [g [v|]] [h [w|]]; unfold is_within; cbn; rewrite ?andb_true_iff, ?Z.leb_le; naive_solver lia.
Qed.

(** A narrower interval holds at fewer times. *)
Lemma is_within_contains a b t : is_within a b = true -> contains a t = true -> contains b t = true.
Proof.
  destruct a as [f [u|]], b as [g [v|]]; unfold is_within, contains; cbn;
    rewrite ?andb_true_iff, ?Z.leb_le, ?Z.ltb_lt; naive_solver lia.
Qed.
End ValidityInterval.
Abbreviation ValidityInterval := ValidityInterval.ValidityInterval.
Export (hints) ValidityInterval.

(** ** Provenance and authorisation *)

(** [[0; 32]] *)
Definition zero_hash : list byte := replicate 32 x00.

Module AtomProvenance.
Inductive AtomProvenance :=
| ObservedExec
| ObservedHost
| UserAsserted
| AgentClaimed
| LlmDerived.
#[export] Instance eq_dec : EqDecision AtomProvenance.
Proof. solve_decision. Defined.
Definition rank (x : AtomProvenance) : N :=
  match x with
  | ObservedExec => 0
  | ObservedHost => 1
  | UserAsserted => 2
  | AgentClaimed => 3
  | LlmDerived => 4
  end.
Lemma AtomProvenance_rank_inj x y : rank x = rank y -> x = y.
Proof. by destruct x, y. Qed.
#[export] Instance ord : Ord AtomProvenance := Ord_by rank AtomProvenance_rank_inj.
End AtomProvenance.
Abbreviation AtomProvenance := AtomProvenance.AtomProvenance.
Export (hints) AtomProvenance.

Module UserAuthorizationMode.
Inductive UserAuthorizationMode :=
| UserStatement
| CurrentTaskExactMessage
| TuiAcceptance.
#[export] Instance eq_dec : EqDecision UserAuthorizationMode.
Proof. solve_decision. Defined.
End UserAuthorizationMode.
Abbreviation UserAuthorizationMode := UserAuthorizationMode.UserAuthorizationMode.
Export (hints) UserAuthorizationMode.

Module UserAuthorizationProvenance.
Record UserAuthorizationProvenance := mk {
  mode : UserAuthorizationMode;
  user_source_observation_ref : SourceObservationId;
  source_message_hash : list byte;
  exact_value_hash : list byte;
  authorized_scope_ceiling : AtomScope;
  acceptance_event_ref : option string;
}.
#[export] Instance eq_dec : EqDecision UserAuthorizationProvenance.
Proof. solve_decision. Defined.
End UserAuthorizationProvenance.
Abbreviation UserAuthorizationProvenance := UserAuthorizationProvenance.UserAuthorizationProvenance.
Export (hints) UserAuthorizationProvenance.

Module PolicyHostScope.
Inductive PolicyHostScope :=
| Worktree (repository_instance_id : RepositoryId) (worktree_instance_id : WorktreeId)
| Repository (repository_instance_id : RepositoryId).
#[export] Instance eq_dec : EqDecision PolicyHostScope.
Proof. solve_decision. Defined.
End PolicyHostScope.
Abbreviation PolicyHostScope := PolicyHostScope.PolicyHostScope.
Export (hints) PolicyHostScope.

Definition as_atom_scope (self : PolicyHostScope) : AtomScope :=
  match self with
  | PolicyHostScope.Worktree repository worktree => AtomScope.Worktree repository worktree
  | PolicyHostScope.Repository repository => AtomScope.Repository repository
  end.

Module PolicyAuthorityProvenance.
Record PolicyAuthorityProvenance := mk {
  policy_source_kind : string;
  policy_source_revision_ref : string;
  policy_content_hash : list byte;
  host_resolved_scope : PolicyHostScope;
  adapter_manifest_id : string;
}.
#[export] Instance eq_dec : EqDecision PolicyAuthorityProvenance.
Proof. solve_decision. Defined.
End PolicyAuthorityProvenance.
Abbreviation PolicyAuthorityProvenance := PolicyAuthorityProvenance.PolicyAuthorityProvenance.
Export (hints) PolicyAuthorityProvenance.

(** [derive(PartialEq)] on expressions. *)
#[export] Instance ConstraintExpr_eq_dec : EqDecision ConstraintExpr.
Proof.
  refine (fix go x y : Decision (x = y) :=
    match x, y with
    | ConstraintExpr.All a, ConstraintExpr.All b => cast_if (@list_eq_dec _ go a b)
    | ConstraintExpr.Any a, ConstraintExpr.Any b => cast_if (@list_eq_dec _ go a b)
    | ConstraintExpr.Not a, ConstraintExpr.Not b => cast_if (go a b)
    | ConstraintExpr.Eq f a, ConstraintExpr.Eq g b => cast_if_and (decide (f = g)) (decide (a = b))
    | ConstraintExpr.In f a, ConstraintExpr.In g b => cast_if_and (decide (f = g)) (decide (a = b))
    | ConstraintExpr.Exists f, ConstraintExpr.Exists g => cast_if (decide (f = g))
    | ConstraintExpr.Changed f, ConstraintExpr.Changed g => cast_if (decide (f = g))
    | ConstraintExpr.Transitioned f a c, ConstraintExpr.Transitioned g b d =>
        cast_if_and3 (decide (f = g)) (decide (a = b)) (decide (c = d))
    | _, _ => right _
    end); clear go; abstract congruence.
Defined.

#[export] Instance ApplicabilityExpr_eq_dec : EqDecision ApplicabilityExpr.
Proof. solve_decision. Defined.

Module FutureCueLifecycleExprs.
Record FutureCueLifecycleExprs := mk {
  suppress_expr : ConstraintExpr;
  resolve_expr : ConstraintExpr;
}.
#[export] Instance eq_dec : EqDecision FutureCueLifecycleExprs.
Proof. solve_decision. Defined.
Definition validate (self : FutureCueLifecycleExprs) : result SemanticError unit :=
  do? ConstraintExpr.validate (suppress_expr self) in
  ConstraintExpr.validate (resolve_expr self).
End FutureCueLifecycleExprs.
Abbreviation FutureCueLifecycleExprs := FutureCueLifecycleExprs.FutureCueLifecycleExprs.
Export (hints) FutureCueLifecycleExprs.

(** ** Drafts *)

Definition observed (value : AtomProvenance) : bool :=
  match value with AtomProvenance.ObservedExec | AtomProvenance.ObservedHost => true | _ => false end.

Definition validate_unprivileged_axes (kind : AtomKind) (epistemic_status : EpistemicStatus)
    (provenance : list AtomProvenance) (evidence_refs : list string) : result SemanticError unit :=
  guard
    (is_normative kind && (epistemic_status !=? EpistemicStatus.NotApplicable)
     || negb (is_normative kind) && (kind !=? AtomKind.Annotation)
        && (epistemic_status ==? EpistemicStatus.NotApplicable)
     || (epistemic_status ==? EpistemicStatus.Supported)
        && (negb (is_descriptive kind) || is_empty evidence_refs || negb (any observed provenance)))
    SemanticError.InvalidAtom.

Definition validate_references (provenance : list AtomProvenance)
    (source_observation_refs : list SourceObservationId) (evidence_refs : list string)
    (supersedes supports contradicts : list RevisionId) : result SemanticError unit :=
  guard
    (is_empty provenance
     || (ATOM_MAX_REFS <? length provenance)%nat || negb (strictly_sorted provenance)
     || (ATOM_MAX_REFS <? length source_observation_refs)%nat || negb (strictly_sorted source_observation_refs)
     || (ATOM_MAX_REFS <? length evidence_refs)%nat || negb (strictly_sorted evidence_refs)
     || (ATOM_MAX_REFS <? length supersedes)%nat || negb (strictly_sorted supersedes)
     || (ATOM_MAX_REFS <? length supports)%nat || negb (strictly_sorted supports)
     || (ATOM_MAX_REFS <? length contradicts)%nat || negb (strictly_sorted contradicts)
     || any (fun value => negb (valid_identifier value)) evidence_refs)
    SemanticError.InvalidAtom.

(** The expressions that say when a cue is suppressed or resolved: normative atoms only. *)
Definition validate_lifecycle (kind : AtomKind) (exprs : option FutureCueLifecycleExprs)
  : result SemanticError unit :=
  match exprs with
  | None => Ok tt
  | Some exprs =>
      do? guard (negb (is_normative kind)) SemanticError.InvalidAtom in
      FutureCueLifecycleExprs.validate exprs
  end.

Module AtomDraft.
Record AtomDraft := mk {
  kind : AtomKind;
  epistemic_status : EpistemicStatus;
  value : AtomValue;
  scope : AtomScope;
  applicability_expr : ApplicabilityExpr;
  future_cue_lifecycle_exprs : option FutureCueLifecycleExprs;
  validity_interval : ValidityInterval;
  provenance : list AtomProvenance;
  source_observation_refs : list SourceObservationId;
  evidence_refs : list string;
  supersedes_revision_refs : list RevisionId;
  supports_revision_refs : list RevisionId;
  contradicts_revision_refs : list RevisionId;
}.
#[export] Instance eq_dec : EqDecision AtomDraft.
Proof. solve_decision. Defined.
Definition validate_unprivileged (self : AtomDraft) : result SemanticError unit :=
  do? AtomValue.validate (value self) in
  do? ApplicabilityExpr.validate (applicability_expr self) in
  do? validate_lifecycle (kind self) (future_cue_lifecycle_exprs self) in
  do? ValidityInterval.validate (validity_interval self) in
  do? validate_unprivileged_axes (kind self) (epistemic_status self) (provenance self) (evidence_refs self) in
  validate_references (provenance self) (source_observation_refs self) (evidence_refs self)
    (supersedes_revision_refs self) (supports_revision_refs self) (contradicts_revision_refs self).

(** [toml_to_string] is the code of the [toml] crate. *)
Definition semantic_digest `{SHA : Sha256} (toml_to_string : AtomDraft -> option string)
    (self : AtomDraft) : result SemanticError (list byte) :=
  do? validate_unprivileged self in
  let? serialized := ok_or (toml_to_string self) SemanticError.InvalidAtom in
  map_err (fun _ => SemanticError.InvalidAtom)
    (sha256 sha256_digest "atom_draft_v1" 1 (CString serialized)).
End AtomDraft.
Abbreviation AtomDraft := AtomDraft.AtomDraft.
Export (hints) AtomDraft.

(** ** Revisions *)

Module Atom.
Record Atom := mk {
  atom_id : AtomId;
  revision_id : RevisionId;
  parent_revision_id : option RevisionId;
  kind : AtomKind;
  epistemic_status : EpistemicStatus;
  lifecycle_status : AtomLifecycleStatus;
  authority : AtomAuthority;
  value : AtomValue;
  scope : AtomScope;
  condition_ir_version : N;
  applicability_expr : ApplicabilityExpr;
  future_cue_lifecycle_exprs : option FutureCueLifecycleExprs;
  validity_interval : ValidityInterval;
  provenance : list AtomProvenance;
  user_authorization_provenance : option UserAuthorizationProvenance;
  policy_authority_provenance : option PolicyAuthorityProvenance;
  source_observation_refs : list SourceObservationId;
  evidence_refs : list string;
  supersedes_revision_refs : list RevisionId;
  supports_revision_refs : list RevisionId;
  contradicts_revision_refs : list RevisionId;
  accepted_proposal_id : option RevisionProposalId;
  accepted_proposal_revision_id : option RevisionId;
  created_at_us : Z;
}.
#[export] Instance eq_dec : EqDecision Atom.
Proof. solve_decision. Defined.
Definition validate_axes (self : Atom) : result SemanticError unit :=
  do? validate_unprivileged_axes (kind self) (epistemic_status self) (provenance self) (evidence_refs self) in
  guard ((epistemic_status self ==? EpistemicStatus.Supported)
         && contains (authority self) [AtomAuthority.AgentInferred; AtomAuthority.ImportedClaim])
    SemanticError.InvalidAtom.

Definition is_task (scope : AtomScope) : bool := match scope with AtomScope.Task _ => true | _ => false end.
Definition is_always (expr : ApplicabilityExpr) : bool :=
  match expr with ApplicabilityExpr.Always => true | _ => false end.
Definition in_repository (scope : AtomScope) : bool :=
  match scope with AtomScope.Worktree _ _ | AtomScope.Repository _ => true | _ => false end.

(** The modes a user can authorise an atom in. *)
Definition validate_user_mode (self : Atom) (user : UserAuthorizationProvenance) : result SemanticError unit :=
  match UserAuthorizationProvenance.mode user with
  | UserAuthorizationMode.UserStatement =>
      guard (negb (is_descriptive (kind self))
             || (epistemic_status self !=? EpistemicStatus.Unverified)
             || is_some (UserAuthorizationProvenance.acceptance_event_ref user))
        SemanticError.InvalidAtom
  | UserAuthorizationMode.CurrentTaskExactMessage =>
      guard (negb (is_normative (kind self))
             || negb (is_task (scope self))
             || (UserAuthorizationProvenance.authorized_scope_ceiling user !=? scope self)
             || negb (is_always (applicability_expr self))
             || is_none (ValidityInterval.valid_until_us (validity_interval self))
             || is_some (UserAuthorizationProvenance.acceptance_event_ref user))
        SemanticError.InvalidAtom
  | UserAuthorizationMode.TuiAcceptance =>
      guard (is_none_or (UserAuthorizationProvenance.acceptance_event_ref user)
               (fun value => negb (valid_identifier value))
             || is_none (accepted_proposal_revision_id self))
        SemanticError.InvalidAtom
  end.

Definition validate_authority `{L : UuidLib} `{SHA : Sha256} (self : Atom) : result SemanticError unit :=
  do? match authority self with
  | AtomAuthority.UserExplicit =>
      let? user := ok_or (user_authorization_provenance self) SemanticError.InvalidAtom in
      let? hash := if is_some (policy_authority_provenance self)
                      || negb (contains (UserAuthorizationProvenance.user_source_observation_ref user)
                                 (source_observation_refs self))
                   then Err SemanticError.InvalidAtom else AtomValue.exact_hash (value self) in
      do? guard ((UserAuthorizationProvenance.exact_value_hash user !=? hash)
                 || negb (Scope.contains (UserAuthorizationProvenance.authorized_scope_ceiling user) (scope self))
                 || (UserAuthorizationProvenance.source_message_hash user ==? zero_hash)
                 || (UserAuthorizationProvenance.exact_value_hash user ==? zero_hash))
            SemanticError.InvalidAtom in
      validate_user_mode self user
  | AtomAuthority.ProjectPolicy =>
      let? policy := ok_or (policy_authority_provenance self) SemanticError.InvalidAtom in
      guard (is_some (user_authorization_provenance self)
             || negb (is_normative (kind self))
             || negb (in_repository (scope self))
             || negb (Scope.contains (as_atom_scope (PolicyAuthorityProvenance.host_resolved_scope policy)) (scope self))
             || negb (valid_identifier (PolicyAuthorityProvenance.policy_source_kind policy))
             || negb (valid_identifier (PolicyAuthorityProvenance.policy_source_revision_ref policy))
             || negb (valid_identifier (PolicyAuthorityProvenance.adapter_manifest_id policy))
             || (PolicyAuthorityProvenance.policy_content_hash policy ==? zero_hash))
        SemanticError.InvalidAtom
  | AtomAuthority.ObjectiveEvidence =>
      guard (is_some (user_authorization_provenance self)
             || is_some (policy_authority_provenance self)
             || negb (supports_objective_evidence (kind self))
             || (epistemic_status self !=? EpistemicStatus.Supported)
             || is_empty (evidence_refs self)
             || negb (any observed (provenance self)))
        SemanticError.InvalidAtom
  | AtomAuthority.AgentInferred | AtomAuthority.ImportedClaim =>
      guard (is_some (user_authorization_provenance self) || is_some (policy_authority_provenance self))
        SemanticError.InvalidAtom
  end in
  guard (Scope.is_global (scope self) && is_always (applicability_expr self)
         && negb (is_some_and (user_authorization_provenance self) (fun value =>
              (UserAuthorizationProvenance.mode value ==? UserAuthorizationMode.TuiAcceptance)
              && Scope.is_global (UserAuthorizationProvenance.authorized_scope_ceiling value))))
    SemanticError.InvalidAtom.

Definition validate `{L : UuidLib} `{SHA : Sha256} (self : Atom) : result SemanticError unit :=
  do? AtomValue.validate (value self) in
  do? ApplicabilityExpr.validate (applicability_expr self) in
  do? validate_lifecycle (kind self) (future_cue_lifecycle_exprs self) in
  do? ValidityInterval.validate (validity_interval self) in
  do? validate_references (provenance self) (source_observation_refs self) (evidence_refs self)
        (supersedes_revision_refs self) (supports_revision_refs self) (contradicts_revision_refs self) in
  do? guard
    (negb (condition_ir_version self =? 1)%N
     || (created_at_us self <? 0)%Z
     || is_empty (source_observation_refs self) && is_empty (evidence_refs self)
     || any (fun revision => revision ==? revision_id self)
          (supersedes_revision_refs self ++ supports_revision_refs self ++ contradicts_revision_refs self)
     || xorb (is_some (accepted_proposal_id self)) (is_some (accepted_proposal_revision_id self)))
    SemanticError.InvalidAtom in
  do? validate_axes self in
  validate_authority self.

(** Comparison of the complete semantic state: all but lineage, identity and recording time. *)
Definition same_semantic_state (self other : Atom) : bool :=
  (kind self ==? kind other)
  && (epistemic_status self ==? epistemic_status other)
  && (lifecycle_status self ==? lifecycle_status other)
  && (authority self ==? authority other)
  && (value self ==? value other)
  && (scope self ==? scope other)
  && (condition_ir_version self ==? condition_ir_version other)
  && (applicability_expr self ==? applicability_expr other)
  && (future_cue_lifecycle_exprs self ==? future_cue_lifecycle_exprs other)
  && (validity_interval self ==? validity_interval other)
  && (provenance self ==? provenance other)
  && (user_authorization_provenance self ==? user_authorization_provenance other)
  && (policy_authority_provenance self ==? policy_authority_provenance other)
  && (source_observation_refs self ==? source_observation_refs other)
  && (evidence_refs self ==? evidence_refs other)
  && (supersedes_revision_refs self ==? supersedes_revision_refs other)
  && (supports_revision_refs self ==? supports_revision_refs other)
  && (contradicts_revision_refs self ==? contradicts_revision_refs other).

Definition has_semantic_successor_change (self next : Atom) : bool :=
  (kind self !=? kind next)
  || (epistemic_status self !=? epistemic_status next)
  || (lifecycle_status self !=? lifecycle_status next)
  || (authority self !=? authority next)
  || (value self !=? value next)
  || (scope self !=? scope next)
  || (applicability_expr self !=? applicability_expr next)
  || (future_cue_lifecycle_exprs self !=? future_cue_lifecycle_exprs next)
  || (validity_interval self !=? validity_interval next)
  || (provenance self !=? provenance next)
  || (user_authorization_provenance self !=? user_authorization_provenance next)
  || (policy_authority_provenance self !=? policy_authority_provenance next)
  || (source_observation_refs self !=? source_observation_refs next)
  || (evidence_refs self !=? evidence_refs next)
  || (supersedes_revision_refs self !=? supersedes_revision_refs next)
  || (supports_revision_refs self !=? supports_revision_refs next)
  || (contradicts_revision_refs self !=? contradicts_revision_refs next).

(** A change of authority comes with an accepted proposal. *)
Definition accepted_authority_change (next : Atom) : bool :=
  is_some (accepted_proposal_revision_id next)
  && match authority next with
     | AtomAuthority.UserExplicit =>
         is_some_and (user_authorization_provenance next) (fun value =>
           contains (UserAuthorizationProvenance.mode value)
             [UserAuthorizationMode.CurrentTaskExactMessage; UserAuthorizationMode.TuiAcceptance])
     | AtomAuthority.ObjectiveEvidence => true
     | _ => false
     end.

Definition validate_successor `{L : UuidLib} `{SHA : Sha256} (self next : Atom) : result SemanticError unit :=
  do? validate next in
  guard
    ((atom_id self !=? atom_id next)
     || (parent_revision_id next !=? Some (revision_id self))
     || (lifecycle_status self !=? AtomLifecycleStatus.Active)
     || (created_at_us next <? created_at_us self)%Z
     || negb (Scope.contains (scope self) (scope next))
     || negb (ValidityInterval.is_within (validity_interval next) (validity_interval self))
     || (authority self !=? authority next) && negb (accepted_authority_change next)
     || negb (contains_all (source_observation_refs next) (source_observation_refs self))
     || negb (contains_all (evidence_refs next) (evidence_refs self))
     || negb (contains_all (supports_revision_refs next) (supports_revision_refs self))
     || negb (contains_all (contradicts_revision_refs next) (contradicts_revision_refs self))
     || negb (has_semantic_successor_change self next))
    SemanticError.InvalidAtomSuccessor.

Definition semantic_structure_hash `{SHA : Sha256} (toml_to_string : AtomDraft -> option string)
    (self : Atom) : result SemanticError (list byte) :=
  AtomDraft.semantic_digest toml_to_string
    (AtomDraft.mk (kind self) (epistemic_status self) (value self) (scope self)
       (applicability_expr self) (future_cue_lifecycle_exprs self) (validity_interval self)
       (provenance self) (source_observation_refs self) (evidence_refs self)
       (supersedes_revision_refs self) (supports_revision_refs self) (contradicts_revision_refs self)).
End Atom.
Abbreviation Atom := Atom.Atom.
Export (hints) Atom.

(** ** What revisions and authorisations guarantee *)

Module AtomFacts.
Import Atom.

(** Finds an entry of a list that is written out. *)
Ltac member := repeat first [apply list_elem_of_here | apply list_elem_of_further].

(** A revision against an earlier one of the same atom. *)
Record narrows (a b : Atom) : Prop := {
  narrows_id : atom_id b = atom_id a;
  narrows_scope : Scope.contains (scope a) (scope b) = true;
  narrows_time : ValidityInterval.is_within (validity_interval b) (validity_interval a) = true;
  narrows_created : (created_at_us a <= created_at_us b)%Z;
  narrows_sources : source_observation_refs a ⊆ source_observation_refs b;
  narrows_evidence : evidence_refs a ⊆ evidence_refs b;
  narrows_supports : supports_revision_refs a ⊆ supports_revision_refs b;
  narrows_contradicts : contradicts_revision_refs a ⊆ contradicts_revision_refs b;
  narrows_authority : authority b = authority a \/
    authority b ∈ [AtomAuthority.UserExplicit; AtomAuthority.ObjectiveEvidence];
}.

#[export] Instance narrows_refl : Reflexive narrows.
Proof. intros a. split; try done; [by apply Scope.contains_preorder|by apply ValidityInterval.is_within_preorder|by left]. Qed.
#[export] Instance narrows_trans : Transitive narrows.
Proof.
  intros a b c [I1 S1 T1 C1 O1 E1 P1 D1 A1] [I2 S2 T2 C2 O2 E2 P2 D2 A2].
  split; try (by etransitivity); try congruence.
  - exact (@PreOrder_Transitive _ _ Scope.contains_preorder _ _ _ S1 S2).
  - exact (@PreOrder_Transitive _ _ ValidityInterval.is_within_preorder _ _ _ T2 T1).
  - destruct A2 as [->|A2]; [done|by right].
Qed.

Lemma successor_inv `{L : UuidLib, SHA : Sha256} a b :
  validate_successor a b = Ok tt ->
  narrows a b /\ validate b = Ok tt /\ lifecycle_status a = AtomLifecycleStatus.Active /\
  parent_revision_id b = Some (revision_id a) /\
  (authority b <> authority a -> accepted_authority_change b = true) /\
  has_semantic_successor_change a b = true.
Proof.
  unfold validate_successor. intros H. apply rbind_ok in H as ([] & Hv & H).
  rewrite guard_ok, !orb_false_iff, !negb_false_iff, !bool_decide_eq_true, !contains_all_subset,
    andb_false_iff, negb_false_iff, negb_false_iff, bool_decide_eq_true, Z.ltb_ge in H.
  destruct_and! H.
  match goal with A : authority a = authority b \/ _ |- _ => rename A into Hauth end.
  split; [|split_and!; try done; by destruct Hauth].
  split; try done. destruct Hauth as [->|Ha]; [by left|right].
  unfold accepted_authority_change in Ha. apply andb_true_iff in Ha as [_ Ha].
  destruct (authority b); set_solver.
Qed.

Lemma same_string_fields s t : same_value (CString s) (CString t) -> s = t.
Proof. by inversion 1. Qed.

Lemma same_null_or {A} (P : A -> Prop) display o p :
  (forall x y, P x -> P y -> display x = display y -> x = y) ->
  same_value (null_or display o) (null_or display p) ->
  (forall x, o = Some x -> P x) -> (forall x, p = Some x -> P x) -> o = p.
Proof. intros Hinj H Ho Hp. apply same_map_free in H; [|by apply null_or_map_free]. by eapply null_or_inj. Qed.

Lemma same_sequence l m : same_value (Sequence l) (Sequence m) -> Forall2 same_value l m.
Proof. by inversion 1. Qed.

Lemma qualifier_inj q r :
  same_value (Map [("name", CString (SemanticQualifier.name q)); ("value", CString (SemanticQualifier.value q))]%string)
    (Map [("name", CString (SemanticQualifier.name r)); ("value", CString (SemanticQualifier.value r))]%string) -> q = r.
Proof.
  intros H. destruct q as [n v], r as [n' v']. cbn in H.
  assert (NoDup ["name"; "value"]%string) as Hn by (repeat constructor; set_solver).
  assert (K := fun k v w => same_map_entry _ _ k v w H Hn). f_equal; apply same_string_fields.
  - apply (K "name"%string); left.
  - apply (K "value"%string); right; left.
Qed.

Section values.
Context `{L : UuidLib, !UuidLaws L}.
Import AtomValue.

Definition value_wf (v : AtomValue) : Prop := Forall rid_wf (critical_revision_refs v).

Lemma canonical_inj v w : value_wf v -> value_wf w -> same_value (canonical v) (canonical w) -> v = w.
Proof.
  intros Hv Hw H. unfold canonical in H.
  assert (NoDup ["text"; "subject"; "predicate"; "object"; "qualifiers"; "critical_revision_refs"]%string) as Hn
    by (repeat (apply NoDup_cons_2; [set_solver|]); apply NoDup_nil_2).
  assert (K := fun k x y => same_map_entry _ _ k x y H Hn).
  destruct v as [t s p o q c], w as [t' s' p' o' q' c']. unfold value_wf in *. cbn [text subject predicate object
    qualifiers critical_revision_refs] in *.
  f_equal.
  - apply same_string_fields, (K "text"%string); member.
  - apply same_string_fields, (K "subject"%string); member.
  - apply same_string_fields, (K "predicate"%string); member.
  - epose proof (K "object"%string _ _ ltac:(member) ltac:(member)) as F. destruct o, o'; by inversion F.
  - epose proof (K "qualifiers"%string _ _ ltac:(member) ltac:(member)) as F. apply same_sequence in F.
    clear K H. revert q' F. clear. induction q as [|x q IH]; intros [|y q'] F; [done|by inversion F..|].
    cbn in F. apply Forall2_cons in F as [Hxy F]. f_equal; [by apply qualifier_inj|by apply IH].
  - epose proof (K "critical_revision_refs"%string _ _ ltac:(member) ltac:(member)) as F.
    apply same_map_free in F; [|by apply texts_map_free].
    by apply (texts_inj rid_wf rid_display rid_display_inj).
Qed.

Lemma canonical_ok v : value_ok (canonical v).
Proof.
  apply ok_map. repeat apply Forall_cons_2; try apply Forall_nil_2; cbn [snd]; try apply ok_string.
  - destruct (object v); constructor.
  - apply ok_sequence, Forall_fmap, Forall_true. intros q. apply ok_map.
    repeat apply Forall_cons_2; try apply Forall_nil_2; apply ok_string.
  - apply texts_ok.
Qed.
End values.

Lemma user_authorized `{L : UuidLib, SHA : Sha256} a p :
  validate a = Ok tt -> authority a = AtomAuthority.UserExplicit -> user_authorization_provenance a = Some p ->
  sha256 sha256_digest "atom_value_v1" 1 (AtomValue.canonical (value a))
    = Ok (UserAuthorizationProvenance.exact_value_hash p) /\
  Scope.contains (UserAuthorizationProvenance.authorized_scope_ceiling p) (scope a) = true.
Proof.
  intros H Ha Hp. unfold validate in H. ok_steps H. unfold validate_authority in H. rewrite Ha, Hp in H.
  apply rbind_ok in H as ([] & H & _). cbn [ok_or rbind] in H.
  apply rbind_ok in H as (hash & Hh & H). destruct (_ || _) in Hh; [done|].
  unfold AtomValue.exact_hash in Hh. apply rbind_ok in Hh as ([] & _ & Hh). apply map_err_ok in Hh.
  apply rbind_ok in H as ([] & H & _). rewrite guard_ok, !orb_false_iff, !negb_false_iff, bool_decide_eq_true in H.
  destruct_and! H. by subst hash.
Qed.
End AtomFacts.

(** ** Theorems *)

Module AtomTheorems.
Import Atom AtomFacts.

(** Revisions of an atom only narrow it.  Along any chain of accepted
    successors the atom keeps its identity, its scope only shrinks, it holds at no
    time it did not hold before, no evidence, observation, support or
    contradiction is lost, and its authority can only change to the user's or to
    objective evidence; every revision that has a successor was active, and every
    successor is valid. *)
Theorem atom_chain_narrows `{L : UuidLib, SHA : Sha256} n (a b : Atom) :
  chain validate_successor n a b ->
  narrows a b /\
  (forall t, ValidityInterval.contains (validity_interval b) t = true ->
     ValidityInterval.contains (validity_interval a) t = true) /\
  (0 < n -> lifecycle_status a = AtomLifecycleStatus.Active /\ validate b = Ok tt)%nat.
Proof.
  intros H. assert (Hn : narrows a b).
  { eapply (chain_preserves validate_successor narrows); [|exact H]. intros x y Hs. apply successor_inv in Hs. tauto. }
  split_and!; [done| |].
  - intros t. by apply ValidityInterval.is_within_contains, narrows_time.
  - intros Hpos. split.
    + clear Hn. induction H as [|n a b c H IH Hs]; [lia|]. destruct H as [a|n a b d H' Hs'].
      * apply successor_inv in Hs; tauto.
      * apply IH. lia.
    + destruct H as [|n a b c H Hs]; [lia|]. apply successor_inv in Hs; tauto.
Qed.

(** A user's authorisation covers one exact value.  As far as SHA-256 has no
    collision, two valid atoms held under the user's authority whose
    authorisations name the same value hash carry the same value, and each lies
    within the scope its authorisation allows. *)
Theorem authorization_exact `{L : UuidLib, !UuidLaws L, SHA : Sha256} (a b : Atom) p q :
  (forall x y, sha256_digest x = sha256_digest y -> x = y) ->
  value_wf (value a) -> value_wf (value b) -> validate a = Ok tt -> validate b = Ok tt ->
  authority a = AtomAuthority.UserExplicit -> authority b = AtomAuthority.UserExplicit ->
  user_authorization_provenance a = Some p -> user_authorization_provenance b = Some q ->
  UserAuthorizationProvenance.exact_value_hash p = UserAuthorizationProvenance.exact_value_hash q ->
  value a = value b /\
  Scope.contains (UserAuthorizationProvenance.authorized_scope_ceiling p) (scope a) = true /\
  Scope.contains (UserAuthorizationProvenance.authorized_scope_ceiling q) (scope b) = true.
Proof.
  intros Hsha Wa Wb Va Vb Aa Ab Pa Pb E.
  destruct (user_authorized a p Va Aa Pa) as (Ha & Sa). destruct (user_authorized b q Vb Ab Pb) as (Hb & Sb).
  split; [|done]. rewrite <-E in Hb. apply canonical_inj; [done..|].
  exact (proj2 (proj2 (sha256_separates sha256_digest _ _ _ _ _ _ _ Hsha (canonical_ok _) (canonical_ok _) Ha Hb eq_refl eq_refl))).
Qed.
End AtomTheorems.
