(* ===== verification/Evidence.v ===== *)
(** * Evidence (crates/evertrace-domain/src/evidence.rs)

    The records of the evidence layer and their validators: source observations
    with their host correlation and scope effect claims, source receipts, the
    host occurrences and operations normalisation derives from them, and the
    gap and outage records.  Identifiers of observations, receipts and
    occurrences are SHA-256 digests of canonical encodings. *)

From S2P Require Import Prelude Order Collections Text Canonical Ids Lane Attempt.

Definition MAX_IDENTITY_BYTES : N := 256.
Definition MAX_EVIDENCE_SURFACE_BYTES : N := 16 * 1024.

Module EvidenceError.
Inductive EvidenceError :=
| Invalid
| InvalidIdentifier
| InvalidRange
| InvalidDigest
| InvalidRevision
| InvalidCompleteness
| InvalidRedaction
| InvalidCorrelation
| InvalidOccurrence
| InvalidOperation
| InvalidScopeEffect
| Canonical.
#[export] Instance eq_dec : EqDecision EvidenceError.
Proof. solve_decision. Defined.
End EvidenceError.
Abbreviation EvidenceError := EvidenceError.EvidenceError.
Export (hints) EvidenceError.

(** ** Checks *)

Definition validate_identifier (value : string) : result EvidenceError unit :=
  guard (str_is_empty value || (MAX_IDENTITY_BYTES <? str_len value)%N
         || any (fun byte => (byte_N byte =? 0)%N || is_ascii_control byte) (as_bytes value))
    EvidenceError.InvalidIdentifier.

Definition require_unique {A} `{!Ord A} (values : list A) : result EvidenceError unit :=
  guard (negb (all_unique values)) EvidenceError.Invalid.

Definition validate_digest (value : string) : result EvidenceError unit :=
  guard (negb (str_len value =? 64)%N
         || negb (all (fun byte => is_ascii_digit byte || is_hex_lower byte) (as_bytes value)))
    EvidenceError.InvalidDigest.

Definition validate_source_locator (value : string) : result EvidenceError unit :=
  guard ((4096 <? str_len value)%N || negb (starts_with (as_bytes value) (as_bytes "/"))
         || any is_ascii_control (as_bytes value)) EvidenceError.Invalid.

(** [is_ascii_hexdigit]: both cases. *)
Definition is_ascii_hexdigit (b : byte) : bool :=
  (is_ascii_digit b || is_hex_lower b || ((65 <=? byte_N b) && (byte_N b <=? 70)))%N.

(** [u32 + 1] in a release build. *)
Definition wrapping_succ_u32 (n : N) : N := if (n =? U32_MAX)%N then 0%N else (n + 1)%N.

(** The newtypes of [source_identity!] are transparent: their strings are checked
    where they are used. *)
Abbreviation SourceInstanceId := string.
Abbreviation SourceRevision := string.
Abbreviation SourceRecordIdentity := string.

Definition parse_source_identity (value : string) : result EvidenceError string :=
  do? validate_identifier value in Ok value.

(** ** Correlation *)

Module ObservationRole.
Inductive ObservationRole :=
| Intent
| Result
| Message
| Lifecycle
| StateProbe
| Artifact
| Other.
#[export] Instance eq_dec : EqDecision ObservationRole.
Proof. solve_decision. Defined.
Definition rank (x : ObservationRole) : N :=
  match x with
  | Intent => 0
  | Result => 1
  | Message => 2
  | Lifecycle => 3
  | StateProbe => 4
  | Artifact => 5
  | Other => 6
  end.
Lemma ObservationRole_rank_inj x y : rank x = rank y -> x = y.
Proof. by destruct x, y. Qed.
#[export] Instance ord : Ord ObservationRole := Ord_by rank ObservationRole_rank_inj.
End ObservationRole.
Abbreviation ObservationRole := ObservationRole.ObservationRole.
Export (hints) ObservationRole.

Module CanonicalEventFamily.
Inductive CanonicalEventFamily :=
| Read
| Search
| Mutate
| Verify
| Build
| Launch
| Observe
| Integrate
| OtherExecutable
| Message
| Lifecycle.
#[export] Instance eq_dec : EqDecision CanonicalEventFamily.
Proof. solve_decision. Defined.
Definition rank (x : CanonicalEventFamily) : N :=
  match x with
  | Read => 0
  | Search => 1
  | Mutate => 2
  | Verify => 3
  | Build => 4
  | Launch => 5
  | Observe => 6
  | Integrate => 7
  | OtherExecutable => 8
  | Message => 9
  | Lifecycle => 10
  end.
Lemma CanonicalEventFamily_rank_inj x y : rank x = rank y -> x = y.
Proof. by destruct x, y. Qed.
#[export] Instance ord : Ord CanonicalEventFamily := Ord_by rank CanonicalEventFamily_rank_inj.
End CanonicalEventFamily.
Abbreviation CanonicalEventFamily := CanonicalEventFamily.CanonicalEventFamily.
Export (hints) CanonicalEventFamily.

Module OperationKind.
Inductive OperationKind :=
| Read
| Search
| Mutate
| Verify
| Build
| Launch
| Observe
| Integrate
| Other.
#[export] Instance eq_dec : EqDecision OperationKind.
Proof. solve_decision. Defined.
End OperationKind.
Abbreviation OperationKind := OperationKind.OperationKind.
Export (hints) OperationKind.

Definition operation_kind (self : CanonicalEventFamily) : option OperationKind :=
  match self with
  | CanonicalEventFamily.Read => Some OperationKind.Read
  | CanonicalEventFamily.Search => Some OperationKind.Search
  | CanonicalEventFamily.Mutate => Some OperationKind.Mutate
  | CanonicalEventFamily.Verify => Some OperationKind.Verify
  | CanonicalEventFamily.Build => Some OperationKind.Build
  | CanonicalEventFamily.Launch => Some OperationKind.Launch
  | CanonicalEventFamily.Observe => Some OperationKind.Observe
  | CanonicalEventFamily.Integrate => Some OperationKind.Integrate
  | CanonicalEventFamily.OtherExecutable => Some OperationKind.Other
  | CanonicalEventFamily.Message | CanonicalEventFamily.Lifecycle => None
  end.

Module CorrelationField.
Inductive CorrelationField :=
| HostInstanceId
| HostTraceLineageId
| HostLaneKey
| CanonicalEventFamily
| NativeRequestId
| PhysicalExecutionOrdinal.
#[export] Instance eq_dec : EqDecision CorrelationField.
Proof. solve_decision. Defined.
Definition rank (x : CorrelationField) : N :=
  match x with
  | HostInstanceId => 0
  | HostTraceLineageId => 1
  | HostLaneKey => 2
  | CanonicalEventFamily => 3
  | NativeRequestId => 4
  | PhysicalExecutionOrdinal => 5
  end.
Lemma CorrelationField_rank_inj x y : rank x = rank y -> x = y.
Proof. by destruct x, y. Qed.
#[export] Instance ord : Ord CorrelationField := Ord_by rank CorrelationField_rank_inj.
End CorrelationField.
Abbreviation CorrelationField := CorrelationField.CorrelationField.
Export (hints) CorrelationField.

Module CorrelationAdmission.
Inductive CorrelationAdmission :=
| ExactCapable
| Ambiguous
| Conflicted
| Unavailable.
#[export] Instance eq_dec : EqDecision CorrelationAdmission.
Proof. solve_decision. Defined.
End CorrelationAdmission.
Abbreviation CorrelationAdmission := CorrelationAdmission.CorrelationAdmission.
Export (hints) CorrelationAdmission.

Module CorrelationFieldClaim.
Record CorrelationFieldClaim := mk {
  field : CorrelationField;
  source_ref : string;
  evidence_ref : string;
}.
#[export] Instance eq_dec : EqDecision CorrelationFieldClaim.
Proof. solve_decision. Defined.
End CorrelationFieldClaim.
Abbreviation CorrelationFieldClaim := CorrelationFieldClaim.CorrelationFieldClaim.
Export (hints) CorrelationFieldClaim.

Module HostOccurrenceExactKey.
Record HostOccurrenceExactKey := mk {
  occurrence_schema_version : N;
  host_instance_id : string;
  host_trace_lineage_id : string;
  host_lane_key : string;
  canonical_event_family : CanonicalEventFamily;
  native_request_id : string;
  physical_execution_ordinal : N;
}.
#[export] Instance eq_dec : EqDecision HostOccurrenceExactKey.
Proof. solve_decision. Defined.
Definition validate (self : HostOccurrenceExactKey) : result EvidenceError unit :=
  do? guard ((occurrence_schema_version self =? 0)%N || (physical_execution_ordinal self =? 0)%N)
        EvidenceError.InvalidCorrelation in
  for_each validate_identifier
    [host_instance_id self; host_trace_lineage_id self; host_lane_key self; native_request_id self].

(** [derive(Ord)]: field by field. *)
Definition key (self : HostOccurrenceExactKey) :=
  (occurrence_schema_version self, (host_instance_id self, (host_trace_lineage_id self,
    (host_lane_key self, (canonical_event_family self, (native_request_id self,
      physical_execution_ordinal self)))))).
Lemma HostOccurrenceExactKey_key_inj x y : key x = key y -> x = y.
Proof. destruct x, y; unfold key; cbn; congruence. Qed.
#[export] Instance ord : Ord HostOccurrenceExactKey := Ord_by key HostOccurrenceExactKey_key_inj.
End HostOccurrenceExactKey.
Abbreviation HostOccurrenceExactKey := HostOccurrenceExactKey.HostOccurrenceExactKey.
Export (hints) HostOccurrenceExactKey.

(** The fields of the set that are present. *)
Definition fields_of (fields : list (CorrelationField * bool)) : list CorrelationField :=
  bset_of_list (omap (fun f : CorrelationField * bool => if f.2 then Some f.1 else None) fields).

Module HostCorrelationEvidence.
Record HostCorrelationEvidence := mk {
  occurrence_schema_version : N;
  host_instance_id : option string;
  host_trace_lineage_id : option string;
  host_lane_key : option string;
  canonical_event_family : option CanonicalEventFamily;
  native_request_id : option string;
  physical_execution_ordinal : option N;
  pairing_role : ObservationRole;
  field_provenance : list CorrelationFieldClaim;
  adapter_manifest_ref : string;
  adapter_revision : N;
  strong_gate_receipt_ref : option string;
  admission : CorrelationAdmission;
  partial_correlation_ref : option string;
  possible_duplicate_group_id : option DuplicateGroupId;
}.
#[export] Instance eq_dec : EqDecision HostCorrelationEvidence.
Proof. solve_decision. Defined.
Definition present_fields (self : HostCorrelationEvidence) : list CorrelationField :=
  fields_of
    [(CorrelationField.HostInstanceId, is_some (host_instance_id self));
     (CorrelationField.HostTraceLineageId, is_some (host_trace_lineage_id self));
     (CorrelationField.HostLaneKey, is_some (host_lane_key self));
     (CorrelationField.CanonicalEventFamily, is_some (canonical_event_family self));
     (CorrelationField.NativeRequestId, is_some (native_request_id self));
     (CorrelationField.PhysicalExecutionOrdinal, is_some (physical_execution_ordinal self))].

Definition exact_key (self : HostCorrelationEvidence) : option HostOccurrenceExactKey :=
  if (admission self !=? CorrelationAdmission.ExactCapable)
     || is_none (strong_gate_receipt_ref self)
  then None
  else
    instance ← host_instance_id self;
    lineage ← host_trace_lineage_id self;
    lane ← host_lane_key self;
    family ← canonical_event_family self;
    request ← native_request_id self;
    ordinal ← physical_execution_ordinal self;
    Some (HostOccurrenceExactKey.mk (occurrence_schema_version self) instance lineage lane family
            request ordinal).

(** The loop over the provenance claims; [observed] are the fields seen so far. *)
Fixpoint check_provenance (expected observed : list CorrelationField)
    (claims : list CorrelationFieldClaim) : result EvidenceError (list CorrelationField) :=
  match claims with
  | [] => Ok observed
  | claim :: claims =>
      do? validate_identifier (CorrelationFieldClaim.source_ref claim) in
      do? validate_identifier (CorrelationFieldClaim.evidence_ref claim) in
      do? guard (negb (contains (CorrelationFieldClaim.field claim) expected)
                 || contains (CorrelationFieldClaim.field claim) observed)
            EvidenceError.InvalidCorrelation in
      check_provenance expected (bset_insert (CorrelationFieldClaim.field claim) observed) claims
  end.

Definition validate (self : HostCorrelationEvidence) : result EvidenceError unit :=
  do? guard ((occurrence_schema_version self =? 0)%N || (adapter_revision self =? 0)%N)
        EvidenceError.InvalidCorrelation in
  do? validate_identifier (adapter_manifest_ref self) in
  do? for_each validate_identifier
        ([host_instance_id self; host_trace_lineage_id self; host_lane_key self; native_request_id self;
          strong_gate_receipt_ref self; partial_correlation_ref self] ≫= option_list) in
  do? guard (physical_execution_ordinal self ==? Some 0%N) EvidenceError.InvalidCorrelation in
  let expected := present_fields self in
  let? observed := check_provenance expected [] (field_provenance self) in
  do? guard (observed !=? expected) EvidenceError.InvalidCorrelation in
  do? guard ((admission self ==? CorrelationAdmission.ExactCapable)
             && (is_none (exact_key self) || is_none (strong_gate_receipt_ref self)))
        EvidenceError.InvalidCorrelation in
  do? guard ((admission self !=? CorrelationAdmission.ExactCapable)
             && is_some (strong_gate_receipt_ref self)) EvidenceError.InvalidCorrelation in
  guard (is_some (possible_duplicate_group_id self) && is_none (partial_correlation_ref self))
    EvidenceError.InvalidCorrelation.
End HostCorrelationEvidence.
Abbreviation HostCorrelationEvidence := HostCorrelationEvidence.HostCorrelationEvidence.
Export (hints) HostCorrelationEvidence.

Module EffectRole.
Inductive EffectRole :=
| Read
| Mutate
| Verify
| Launch
| Observe
| Integrate.
#[export] Instance eq_dec : EqDecision EffectRole.
Proof. solve_decision. Defined.
Definition rank (x : EffectRole) : N :=
  match x with
  | Read => 0
  | Mutate => 1
  | Verify => 2
  | Launch => 3
  | Observe => 4
  | Integrate => 5
  end.
Lemma EffectRole_rank_inj x y : rank x = rank y -> x = y.
Proof. by destruct x, y. Qed.
#[export] Instance ord : Ord EffectRole := Ord_by rank EffectRole_rank_inj.
End EffectRole.
Abbreviation EffectRole := EffectRole.EffectRole.
Export (hints) EffectRole.

Module ScopeEffectClaim.
Record ScopeEffectClaim := mk {
  effect_role : EffectRole;
  repository_instance_id : option RepositoryId;
  worktree_instance_id : option WorktreeId;
  pre_snapshot_id : option WorktreeSnapshotId;
  post_snapshot_id : option WorktreeSnapshotId;
  experiment_run_ids : list ExperimentRunId;
  artifact_refs : list WorkArtifactId;
  evidence_refs : list SourceObservationId;
}.
#[export] Instance eq_dec : EqDecision ScopeEffectClaim.
Proof. solve_decision. Defined.
Definition validate (self : ScopeEffectClaim) : result EvidenceError unit :=
  do? guard (is_none (repository_instance_id self) && is_none (worktree_instance_id self)
             && is_none (pre_snapshot_id self) && is_none (post_snapshot_id self)
             && is_empty (experiment_run_ids self) && is_empty (artifact_refs self)
             && is_empty (evidence_refs self)) EvidenceError.InvalidScopeEffect in
  do? require_unique (experiment_run_ids self) in
  do? require_unique (artifact_refs self) in
  require_unique (evidence_refs self).
End ScopeEffectClaim.
Abbreviation ScopeEffectClaim := ScopeEffectClaim.ScopeEffectClaim.
Export (hints) ScopeEffectClaim.

(** ** Digests *)

Module CorrelationStrength.
Inductive CorrelationStrength :=
| Exact
| Ambiguous
| Conflicted
| Unavailable.
#[export] Instance eq_dec : EqDecision CorrelationStrength.
Proof. solve_decision. Defined.
End CorrelationStrength.
Abbreviation CorrelationStrength := CorrelationStrength.CorrelationStrength.
Export (hints) CorrelationStrength.

Definition event_family_name (value : CanonicalEventFamily) : string :=
  match value with
  | CanonicalEventFamily.Read => "read"
  | CanonicalEventFamily.Search => "search"
  | CanonicalEventFamily.Mutate => "mutate"
  | CanonicalEventFamily.Verify => "verify"
  | CanonicalEventFamily.Build => "build"
  | CanonicalEventFamily.Launch => "launch"
  | CanonicalEventFamily.Observe => "observe"
  | CanonicalEventFamily.Integrate => "integrate"
  | CanonicalEventFamily.OtherExecutable => "other_executable"
  | CanonicalEventFamily.Message => "message"
  | CanonicalEventFamily.Lifecycle => "lifecycle"
  end.

Definition correlation_strength_name (value : CorrelationStrength) : string :=
  match value with
  | CorrelationStrength.Exact => "exact"
  | CorrelationStrength.Ambiguous => "ambiguous"
  | CorrelationStrength.Conflicted => "conflicted"
  | CorrelationStrength.Unavailable => "unavailable"
  end.

Section digests.
Context `{SHA : Sha256}.

Definition evidence_digest (tag : string) (version : N) (value : CanonicalValue)
  : result EvidenceError (list byte) :=
  map_err (fun _ => EvidenceError.Canonical) (sha256 sha256_digest tag version value).

Definition source_identity_digest (schema_tag : string) (instance : SourceInstanceId)
    (revision : SourceRevision) (identity : SourceRecordIdentity) : result EvidenceError (list byte) :=
  do? validate_identifier instance in
  do? validate_identifier revision in
  do? validate_identifier identity in
  evidence_digest schema_tag 1 (Sequence [CString instance; CString revision; CString identity]).

Definition source_observation_id (instance : SourceInstanceId) (revision : SourceRevision)
    (identity : SourceRecordIdentity) : result EvidenceError SourceObservationId :=
  let? digest := source_identity_digest "source_observation_id" instance revision identity in
  Ok (from_digest digest).

Definition source_receipt_id (instance : SourceInstanceId) (revision : SourceRevision)
    (identity : SourceRecordIdentity) : result EvidenceError SourceReceiptId :=
  let? digest := source_identity_digest "source_receipt_id" instance revision identity in
  Ok (from_digest digest).

Definition host_occurrence_id_for_exact (key : HostOccurrenceExactKey)
  : result EvidenceError HostOccurrenceId :=
  do? HostOccurrenceExactKey.validate key in
  let? digest := evidence_digest "host_occurrence_exact_key"
    (HostOccurrenceExactKey.occurrence_schema_version key)
    (Sequence [CString (HostOccurrenceExactKey.host_instance_id key);
               CString (HostOccurrenceExactKey.host_trace_lineage_id key);
               CString (HostOccurrenceExactKey.host_lane_key key);
               CString (event_family_name (HostOccurrenceExactKey.canonical_event_family key));
               CString (HostOccurrenceExactKey.native_request_id key);
               Integer (Z.of_N (HostOccurrenceExactKey.physical_execution_ordinal key))]) in
  Ok (from_digest digest).

Definition host_occurrence_id_for_nonexact (observation_id : SourceObservationId)
    (strength : CorrelationStrength) : result EvidenceError HostOccurrenceId :=
  do? guard (strength ==? CorrelationStrength.Exact) EvidenceError.InvalidOccurrence in
  let? digest := evidence_digest "host_occurrence_nonexact" 1
    (Sequence [CString (digest_display observation_id);
               CString (correlation_strength_name strength)]) in
  Ok (from_digest digest).

Definition payload_fingerprint (canonicalization_version : N) (protected_payload : list byte)
    (protected_secret_digest : option (list byte)) : result EvidenceError (list byte) :=
  do? guard ((canonicalization_version =? 0)%N || is_empty protected_payload) EvidenceError.Invalid in
  evidence_digest "source_payload_fingerprint" 1
    (Map [("canonicalization_version", Integer (Z.of_N canonicalization_version));
          ("protected_payload", Bytes protected_payload);
          ("protected_secret_digest", match protected_secret_digest with
                                      | None => Null
                                      | Some value => Bytes value
                                      end)]%string).

Definition evidence_span_hash (observation_id : SourceObservationId) (canonicalization_version : N)
    (protected_text : string) : result EvidenceError (list byte) :=
  do? guard ((canonicalization_version =? 0)%N || str_is_empty protected_text
             || (MAX_EVIDENCE_SURFACE_BYTES <? str_len protected_text)%N) EvidenceError.Invalid in
  evidence_digest "evidence_surface_span" 1
    (Map [("source_observation_revision_ref", CString (digest_display observation_id));
          ("canonicalization_version", Integer (Z.of_N canonicalization_version));
          ("protected_text", CString protected_text)]%string).
End digests.

(** ** Receipts *)

Module SourceRole.
Inductive SourceRole :=
| User
| Assistant
| Tool
| Host
| Imported.
#[export] Instance eq_dec : EqDecision SourceRole.
Proof. solve_decision. Defined.
End SourceRole.
Abbreviation SourceRole := SourceRole.SourceRole.
Export (hints) SourceRole.

Module EvidenceSourceKind.
Inductive EvidenceSourceKind :=
| CodexHook
| CodexExecJsonl
| CodexSessionJsonl
| HermesSession
| Other.
#[export] Instance eq_dec : EqDecision EvidenceSourceKind.
Proof. solve_decision. Defined.
End EvidenceSourceKind.
Abbreviation EvidenceSourceKind := EvidenceSourceKind.EvidenceSourceKind.
Export (hints) EvidenceSourceKind.

Module UnsupportedRecordClassification.
Inductive UnsupportedRecordClassification :=
| UnknownRecordType
| Reasoning
| Binary
| UnboundedToolOutput.
#[export] Instance eq_dec : EqDecision UnsupportedRecordClassification.
Proof. solve_decision. Defined.
End UnsupportedRecordClassification.
Abbreviation UnsupportedRecordClassification := UnsupportedRecordClassification.UnsupportedRecordClassification.
Export (hints) UnsupportedRecordClassification.

Module ContentTrust.
Inductive ContentTrust :=
| UserStatement
| Observed
| AgentClaim
| ImportedClaim
| UntrustedSourceContent.
#[export] Instance eq_dec : EqDecision ContentTrust.
Proof. solve_decision. Defined.
End ContentTrust.
Abbreviation ContentTrust := ContentTrust.ContentTrust.
Export (hints) ContentTrust.

Module InstructionAuthority.
Inductive InstructionAuthority :=
| None.
#[export] Instance eq_dec : EqDecision InstructionAuthority.
Proof. solve_decision. Defined.
End InstructionAuthority.
Abbreviation InstructionAuthority := InstructionAuthority.InstructionAuthority.
Export (hints) InstructionAuthority.

Module CaptureCompleteness.
Inductive CaptureCompleteness :=
| Complete
| Partial
| Opaque.
#[export] Instance eq_dec : EqDecision CaptureCompleteness.
Proof. solve_decision. Defined.
End CaptureCompleteness.
Abbreviation CaptureCompleteness := CaptureCompleteness.CaptureCompleteness.
Export (hints) CaptureCompleteness.

Module SourceRevisionMode.
Inductive SourceRevisionMode :=
| Append
| Replacement.
#[export] Instance eq_dec : EqDecision SourceRevisionMode.
Proof. solve_decision. Defined.
End SourceRevisionMode.
Abbreviation SourceRevisionMode := SourceRevisionMode.SourceRevisionMode.
Export (hints) SourceRevisionMode.

Module SourceArchiveMode.
Inductive SourceArchiveMode :=
| Exact
| Redacted.
#[export] Instance eq_dec : EqDecision SourceArchiveMode.
Proof. solve_decision. Defined.
End SourceArchiveMode.
Abbreviation SourceArchiveMode := SourceArchiveMode.SourceArchiveMode.
Export (hints) SourceArchiveMode.

Module EvidenceByteRange.
Record EvidenceByteRange := mk {
  start : N;
  end_ : N;
}.
#[export] Instance eq_dec : EqDecision EvidenceByteRange.
Proof. solve_decision. Defined.
Definition validate (self : EvidenceByteRange) : result EvidenceError unit :=
  guard (end_ self <=? start self)%N EvidenceError.InvalidRange.
End EvidenceByteRange.
Abbreviation EvidenceByteRange := EvidenceByteRange.EvidenceByteRange.
Export (hints) EvidenceByteRange.

Module EvidenceRedactionSpan.
Record EvidenceRedactionSpan := mk {
  start : N;
  end_ : N;
  kind : string;
}.
#[export] Instance eq_dec : EqDecision EvidenceRedactionSpan.
Proof. solve_decision. Defined.
Definition validate (self : EvidenceRedactionSpan) (raw_length : N) : result EvidenceError unit :=
  do? guard ((end_ self <=? start self)%N || (raw_length <? end_ self)%N) EvidenceError.InvalidRange in
  validate_identifier (kind self).
End EvidenceRedactionSpan.
Abbreviation EvidenceRedactionSpan := EvidenceRedactionSpan.EvidenceRedactionSpan.
Export (hints) EvidenceRedactionSpan.

(** The loop over the spans; [previous_end] is the end of the span before. *)
Fixpoint validate_spans (raw_length previous_end : N) (spans : list EvidenceRedactionSpan)
  : result EvidenceError unit :=
  match spans with
  | [] => Ok tt
  | span :: spans =>
      do? EvidenceRedactionSpan.validate span raw_length in
      do? guard (EvidenceRedactionSpan.start span <? previous_end)%N EvidenceError.InvalidRedaction in
      validate_spans raw_length (EvidenceRedactionSpan.end_ span) spans
  end.

Definition validate_redaction (archive_mode : SourceArchiveMode) (raw_length : N)
    (protected_secret_digest : option string) (spans : list EvidenceRedactionSpan)
  : result EvidenceError unit :=
  do? guard (raw_length =? 0)%N EvidenceError.Invalid in
  do? match archive_mode with
      | SourceArchiveMode.Exact =>
          guard (is_some protected_secret_digest || negb (is_empty spans)) EvidenceError.InvalidRedaction
      | SourceArchiveMode.Redacted =>
          guard (is_none protected_secret_digest || is_empty spans) EvidenceError.InvalidRedaction
      end in
  do? match protected_secret_digest with Some digest => validate_digest digest | None => Ok tt end in
  validate_spans raw_length 0 spans.

Module ProtectedPresentationUnavailable.
Inductive ProtectedPresentationUnavailable :=
| NonText.
#[export] Instance eq_dec : EqDecision ProtectedPresentationUnavailable.
Proof. solve_decision. Defined.
End ProtectedPresentationUnavailable.
Abbreviation ProtectedPresentationUnavailable := ProtectedPresentationUnavailable.ProtectedPresentationUnavailable.
Export (hints) ProtectedPresentationUnavailable.

Module ProtectedPresentation.
Inductive ProtectedPresentation :=
| Inline (text : string)
| Preview (text : string)
| Unavailable (reason : ProtectedPresentationUnavailable).
#[export] Instance eq_dec : EqDecision ProtectedPresentation.
Proof. solve_decision. Defined.
End ProtectedPresentation.
Abbreviation ProtectedPresentation := ProtectedPresentation.ProtectedPresentation.
Export (hints) ProtectedPresentation.

Module SourceReceipt.
Record SourceReceipt := mk {
  source_receipt_id : SourceReceiptId;
  source_observation_id : SourceObservationId;
  source_instance_id : SourceInstanceId;
  source_kind : EvidenceSourceKind;
  identity_domain : string;
  source_ref : string;
  source_session_ref : string;
  source_revision : SourceRevision;
  source_record_identity : SourceRecordIdentity;
  identity_strength : IdentityStrength;
  source_sequence : N;
  source_sequence_origin : option N;
  task_id : option TaskId;
  repository_instance_id : option RepositoryId;
  worktree_instance_id : option WorktreeId;
  source_byte_range : option EvidenceByteRange;
  spool_byte_range : EvidenceByteRange;
  source_revision_mode : SourceRevisionMode;
  previous_source_revision : option SourceRevision;
  close_watermark : option N;
  observation_role : ObservationRole;
  unsupported_record_classification : option UnsupportedRecordClassification;
  capture_completeness : CaptureCompleteness;
  archive_mode : SourceArchiveMode;
  cas_ref : string;
  protected_length : N;
  protected_presentation : option ProtectedPresentation;
  original_length : N;
  protected_secret_digest : option string;
  redaction_spans : list EvidenceRedactionSpan;
  adapter_revision : N;
  adapter_manifest_ref : string;
  eligible_event_manifest_ref : string;
  parser_revision : N;
  canonicalization_revision : N;
  detector_revision : N;
  redaction_revision : N;
  protection_key_generation : N;
  event_time_us : Z;
  recorded_at_us : Z;
  lifecycle : option LaneLifecycleEvidence;
}.
#[export] Instance eq_dec : EqDecision SourceReceipt.
Proof. solve_decision. Defined.
Definition presentation_valid (self : SourceReceipt) : bool :=
  match protected_presentation self with
  | None => true
  | Some (ProtectedPresentation.Inline text) =>
      (str_len text <=? 1048576)%N && (str_len text =? protected_length self)%N
  | Some (ProtectedPresentation.Preview text) =>
      (str_len text <=? 65536)%N && (str_len text <? protected_length self)%N
  | Some (ProtectedPresentation.Unavailable _) => true
  end.

Section validation.
Context `{SHA : Sha256}.

Definition validate (self : SourceReceipt) : result EvidenceError unit :=
  do? guard (negb (presentation_valid self)) EvidenceError.Invalid in
  do? validate_identifier (source_session_ref self) in
  do? validate_identifier (identity_domain self) in
  do? validate_identifier (source_ref self) in
  do? validate_identifier (adapter_manifest_ref self) in
  do? validate_identifier (eligible_event_manifest_ref self) in
  do? validate_digest (cas_ref self) in
  let? receipt_id := Evidence.source_receipt_id (source_instance_id self) (source_revision self)
                       (source_record_identity self) in
  do? guard (source_receipt_id self !=? receipt_id) EvidenceError.Invalid in
  let? observation_id := Evidence.source_observation_id (source_instance_id self)
                           (source_revision self) (source_record_identity self) in
  do? guard ((source_observation_id self !=? observation_id)
             || (protected_length self =? 0)%N || (original_length self =? 0)%N
             || (adapter_revision self =? 0)%N || (parser_revision self =? 0)%N
             || (canonicalization_revision self =? 0)%N || (detector_revision self =? 0)%N
             || (redaction_revision self =? 0)%N || (protection_key_generation self =? 0)%N
             || (event_time_us self <? 0)%Z || (recorded_at_us self <? 0)%Z
             || (recorded_at_us self <? event_time_us self)%Z
             || is_some_and (source_sequence_origin self)
                  (fun origin => source_sequence self <? origin)%N
             || is_some_and (close_watermark self) (fun close => close <? source_sequence self)%N)
        EvidenceError.Invalid in
  do? EvidenceByteRange.validate (spool_byte_range self) in
  do? match source_byte_range self with
      | Some range => EvidenceByteRange.validate range
      | None => Ok tt
      end in
  do? guard ((source_revision_mode self ==? SourceRevisionMode.Replacement)
             && is_none (previous_source_revision self)) EvidenceError.InvalidRevision in
  do? guard ((source_revision_mode self ==? SourceRevisionMode.Append)
             && is_some (previous_source_revision self)) EvidenceError.InvalidRevision in
  do? guard ((identity_strength self ==? IdentityStrength.SynthesizedBestEffort)
             && (capture_completeness self ==? CaptureCompleteness.Complete)
             || is_some (unsupported_record_classification self)
                && (capture_completeness self ==? CaptureCompleteness.Complete))
        EvidenceError.InvalidCompleteness in
  do? validate_redaction (archive_mode self) (original_length self) (protected_secret_digest self)
        (redaction_spans self) in
  match lifecycle self with
  | None => Ok tt
  | Some value =>
      do? map_err (fun _ => EvidenceError.Invalid) (LaneLifecycleEvidence.validate value) in
      guard ((LaneLifecycleEvidence.adapter_manifest_ref value !=? adapter_manifest_ref self)
             || (LaneLifecycleEvidence.eligible_event_manifest_ref value
                 !=? eligible_event_manifest_ref self)
             || (LaneLifecycleEvidence.host_session_id value !=? source_session_ref self))
        EvidenceError.Invalid
  end.
End validation.
End SourceReceipt.
Abbreviation SourceReceipt := SourceReceipt.SourceReceipt.
Export (hints) SourceReceipt.

(** ** Source-local evidence *)

Module SourceLocalProfile.
Inductive SourceLocalProfile :=
| NativeHookV1.
#[export] Instance eq_dec : EqDecision SourceLocalProfile.
Proof. solve_decision. Defined.
Definition rank (x : SourceLocalProfile) : N :=
  match x with
  | NativeHookV1 => 0
  end.
Lemma SourceLocalProfile_rank_inj x y : rank x = rank y -> x = y.
Proof. by destruct x, y. Qed.
#[export] Instance ord : Ord SourceLocalProfile := Ord_by rank SourceLocalProfile_rank_inj.
End SourceLocalProfile.
Abbreviation SourceLocalProfile := SourceLocalProfile.SourceLocalProfile.
Export (hints) SourceLocalProfile.

Module SourceLocalNamespace.
Record SourceLocalNamespace := mk {
  profile : SourceLocalProfile;
  root_session : string;
  thread : string;
  rollout : string;
}.
#[export] Instance eq_dec : EqDecision SourceLocalNamespace.
Proof. solve_decision. Defined.
Definition validate `{L : UuidLib} (self : SourceLocalNamespace) : result EvidenceError unit :=
  for_each (fun value =>
    let? parsed := ok_or (parse_str value) EvidenceError.Invalid in
    guard (hyphenated parsed !=? value) EvidenceError.Invalid)
    [root_session self; thread self; rollout self].

Definition key (self : SourceLocalNamespace) :=
  (profile self, (root_session self, (thread self, rollout self))).
Lemma SourceLocalNamespace_key_inj x y : key x = key y -> x = y.
Proof. destruct x, y; unfold key; cbn; congruence. Qed.
#[export] Instance ord : Ord SourceLocalNamespace := Ord_by key SourceLocalNamespace_key_inj.
End SourceLocalNamespace.
Abbreviation SourceLocalNamespace := SourceLocalNamespace.SourceLocalNamespace.
Export (hints) SourceLocalNamespace.

Module SourceLocalNamespaceWitness.
Record SourceLocalNamespaceWitness := mk {
  namespace : SourceLocalNamespace;
  transcript_path : string;
  filesystem_device : N;
  filesystem_inode : N;
  observed_file_length : N;
  metadata_length : N;
}.
#[export] Instance eq_dec : EqDecision SourceLocalNamespaceWitness.
Proof. solve_decision. Defined.
Definition validate `{L : UuidLib} (self : SourceLocalNamespaceWitness) : result EvidenceError unit :=
  do? SourceLocalNamespace.validate (namespace self) in
  do? validate_source_locator (transcript_path self) in
  guard ((filesystem_inode self =? 0)%N || (metadata_length self =? 0)%N
         || (64 * 1024 <? metadata_length self)%N
         || (observed_file_length self <=? metadata_length self)%N) EvidenceError.Invalid.
End SourceLocalNamespaceWitness.
Abbreviation SourceLocalNamespaceWitness := SourceLocalNamespaceWitness.SourceLocalNamespaceWitness.
Export (hints) SourceLocalNamespaceWitness.

Module SourceLocalNativeCall.
Record SourceLocalNativeCall := mk {
  session_id : string;
  agent_id : option string;
  transcript_path : option string;
  request_id : string;
  turn_id : string;
  tool_name : string;
  namespace_witness : option SourceLocalNamespaceWitness;
}.
#[export] Instance eq_dec : EqDecision SourceLocalNativeCall.
Proof. solve_decision. Defined.
Definition accepts_witness `{L : UuidLib} (self : SourceLocalNativeCall)
    (witness : SourceLocalNamespaceWitness) : bool :=
  let namespace := SourceLocalNamespaceWitness.namespace witness in
  is_ok (SourceLocalNamespaceWitness.validate witness)
  && (SourceLocalNamespace.root_session namespace ==? session_id self)
  && is_none_or (agent_id self) (fun id => id ==? SourceLocalNamespace.thread namespace)
  && (transcript_path self ==? Some (SourceLocalNamespaceWitness.transcript_path witness)).

(** [namespace_witness = None] *)
Definition without_witness (self : SourceLocalNativeCall) : SourceLocalNativeCall :=
  mk (session_id self) (agent_id self) (transcript_path self) (request_id self) (turn_id self)
    (tool_name self) None.
End SourceLocalNativeCall.
Abbreviation SourceLocalNativeCall := SourceLocalNativeCall.SourceLocalNativeCall.
Export (hints) SourceLocalNativeCall.

Module SourceLocalEvidence.
Inductive SourceLocalEvidence :=
| NativeCall (_ : SourceLocalNativeCall)
| NamespaceWitness (witness : SourceLocalNamespaceWitness) (supported_call : SourceLocalNativeCall) (supported_observation_refs : list SourceObservationId).
#[export] Instance eq_dec : EqDecision SourceLocalEvidence.
Proof. solve_decision. Defined.
End SourceLocalEvidence.
Abbreviation SourceLocalEvidence := SourceLocalEvidence.SourceLocalEvidence.
Export (hints) SourceLocalEvidence.

Section local.
Context `{L : UuidLib}.

(** The [NativeCall] case. *)
Definition validate_native_call (call : SourceLocalNativeCall) (role : ObservationRole)
  : result EvidenceError unit :=
  do? guard (negb (contains role [ObservationRole.Intent; ObservationRole.Result])) EvidenceError.Invalid in
  do? for_each validate_identifier
        [SourceLocalNativeCall.session_id call; SourceLocalNativeCall.request_id call;
         SourceLocalNativeCall.turn_id call; SourceLocalNativeCall.tool_name call] in
  do? for_each validate_identifier (option_list (SourceLocalNativeCall.agent_id call)) in
  do? for_each validate_source_locator (option_list (SourceLocalNativeCall.transcript_path call)) in
  guard (is_some_and (SourceLocalNativeCall.namespace_witness call)
           (fun witness => negb (SourceLocalNativeCall.accepts_witness call witness)))
    EvidenceError.Invalid.

Definition validate_local (self : SourceLocalEvidence) (role : ObservationRole)
  : result EvidenceError unit :=
  match self with
  | SourceLocalEvidence.NativeCall call => validate_native_call call role
  | SourceLocalEvidence.NamespaceWitness witness supported_call supported_observation_refs =>
      do? guard ((role !=? ObservationRole.StateProbe) || is_empty supported_observation_refs
                 || (256 <? length supported_observation_refs)%nat) EvidenceError.Invalid in
      do? SourceLocalNamespaceWitness.validate witness in
      do? validate_native_call supported_call ObservationRole.Intent in
      do? guard (negb (SourceLocalNativeCall.accepts_witness supported_call witness))
            EvidenceError.Invalid in
      require_unique supported_observation_refs
  end.
End local.

Module SourceLocalPairingState.
Inductive SourceLocalPairingState :=
| SourcePaired
| Conflicted.
#[export] Instance eq_dec : EqDecision SourceLocalPairingState.
Proof. solve_decision. Defined.
End SourceLocalPairingState.
Abbreviation SourceLocalPairingState := SourceLocalPairingState.SourceLocalPairingState.
Export (hints) SourceLocalPairingState.

Module SourceLocalPairing.
Record SourceLocalPairing := mk {
  namespace : SourceLocalNamespace;
  request_id : string;
  intent_observation_refs : list SourceObservationId;
  result_observation_refs : list SourceObservationId;
  namespace_witness_refs : list SourceObservationId;
  state : SourceLocalPairingState;
}.
#[export] Instance eq_dec : EqDecision SourceLocalPairing.
Proof. solve_decision. Defined.
Definition validate `{L : UuidLib} (self : SourceLocalPairing) : result EvidenceError unit :=
  do? SourceLocalNamespace.validate (namespace self) in
  do? validate_identifier (request_id self) in
  do? for_each (fun refs =>
        do? require_unique refs in
        guard (256 <? length refs)%nat EvidenceError.InvalidOperation)
        [intent_observation_refs self; result_observation_refs self; namespace_witness_refs self] in
  guard (is_empty (result_observation_refs self) || is_empty (namespace_witness_refs self)
         || any (fun id => contains id (result_observation_refs self)) (intent_observation_refs self)
         || (state self ==? SourceLocalPairingState.SourcePaired)
            && (negb (length (intent_observation_refs self) =? 1)%nat
                || negb (length (result_observation_refs self) =? 1)%nat))
    EvidenceError.InvalidOperation.
End SourceLocalPairing.
Abbreviation SourceLocalPairing := SourceLocalPairing.SourceLocalPairing.
Export (hints) SourceLocalPairing.

(** ** Observations *)

Module SourceObservation.
Record SourceObservation := mk {
  source_observation_id : SourceObservationId;
  source_instance_id : SourceInstanceId;
  source_revision : SourceRevision;
  source_record_identity : SourceRecordIdentity;
  observation_role : ObservationRole;
  identity_strength : IdentityStrength;
  payload_fingerprint : string;
  source_receipt_ref : SourceReceiptId;
  source_role : SourceRole;
  content_trust : ContentTrust;
  capture_completeness : CaptureCompleteness;
  adapter_revision : N;
  parser_revision : N;
  canonicalization_revision : N;
  detector_revision : N;
  redaction_revision : N;
  correlation : HostCorrelationEvidence;
  scope_effect_claims : list ScopeEffectClaim;
  source_local_evidence : option SourceLocalEvidence;
}.
#[export] Instance eq_dec : EqDecision SourceObservation.
Proof. solve_decision. Defined.
Definition validate `{L : UuidLib} `{SHA : Sha256} (self : SourceObservation)
  : result EvidenceError unit :=
  do? match source_local_evidence self with
      | None => Ok tt
      | Some evidence =>
          do? validate_local evidence (observation_role self) in
          match evidence with
          | SourceLocalEvidence.NativeCall call =>
              guard ((HostCorrelationEvidence.native_request_id (correlation self)
                      !=? Some (SourceLocalNativeCall.request_id call))
                     || is_some (HostCorrelationEvidence.exact_key (correlation self)))
                EvidenceError.InvalidCorrelation
          | _ => Ok tt
          end
      end in
  do? validate_digest (payload_fingerprint self) in
  let? observation_id := Evidence.source_observation_id (source_instance_id self)
                           (source_revision self) (source_record_identity self) in
  do? guard (source_observation_id self !=? observation_id) EvidenceError.Invalid in
  let? receipt_id := Evidence.source_receipt_id (source_instance_id self) (source_revision self)
                       (source_record_identity self) in
  do? guard ((source_receipt_ref self !=? receipt_id)
             || (adapter_revision self =? 0)%N || (parser_revision self =? 0)%N
             || (canonicalization_revision self =? 0)%N || (detector_revision self =? 0)%N
             || (redaction_revision self =? 0)%N
             || (identity_strength self ==? IdentityStrength.SynthesizedBestEffort)
                && (capture_completeness self ==? CaptureCompleteness.Complete))
        EvidenceError.Invalid in
  do? HostCorrelationEvidence.validate (correlation self) in
  do? guard ((HostCorrelationEvidence.pairing_role (correlation self) !=? observation_role self)
             || (HostCorrelationEvidence.adapter_revision (correlation self) !=? adapter_revision self))
        EvidenceError.InvalidCorrelation in
  for_each ScopeEffectClaim.validate (scope_effect_claims self).
End SourceObservation.
Abbreviation SourceObservation := SourceObservation.SourceObservation.
Export (hints) SourceObservation.

(** ** Occurrences, operations and effects *)

Module NormalizationState.
Inductive NormalizationState :=
| SingleSource
| Corroborated
| Complemented
| NormalizationConflicted.
#[export] Instance eq_dec : EqDecision NormalizationState.
Proof. solve_decision. Defined.
End NormalizationState.
Abbreviation NormalizationState := NormalizationState.NormalizationState.
Export (hints) NormalizationState.

Module PairingState.
Inductive PairingState :=
| NotApplicable
| UnmatchedIntent
| UnmatchedResult
| Paired
| Conflicted.
#[export] Instance eq_dec : EqDecision PairingState.
Proof. solve_decision. Defined.
End PairingState.
Abbreviation PairingState := PairingState.PairingState.
Export (hints) PairingState.

Module FieldProvenanceEntry.
Record FieldProvenanceEntry := mk {
  field : CorrelationField;
  source_observation_ref : SourceObservationId;
  source_ref : string;
  evidence_ref : string;
}.
#[export] Instance eq_dec : EqDecision FieldProvenanceEntry.
Proof. solve_decision. Defined.
End FieldProvenanceEntry.
Abbreviation FieldProvenanceEntry := FieldProvenanceEntry.FieldProvenanceEntry.
Export (hints) FieldProvenanceEntry.

Module HostOccurrence.
Record HostOccurrence := mk {
  host_occurrence_id : HostOccurrenceId;
  exact_key : option HostOccurrenceExactKey;
  host_instance_id : option string;
  host_trace_lineage_id : option string;
  host_lane_key : option string;
  canonical_event_family : option CanonicalEventFamily;
  native_request_id : option string;
  physical_execution_ordinal : option N;
  correlation_strength : CorrelationStrength;
  source_observation_refs : list SourceObservationId;
  field_provenance : list FieldProvenanceEntry;
  normalization_state : NormalizationState;
  pairing_state : PairingState;
  possible_duplicate_group_id : option DuplicateGroupId;
  correlation_resolver_version : N;
  normalization_revision : N;
  previous_normalization_revision : option N;
}.
#[export] Instance eq_dec : EqDecision HostOccurrence.
Proof. solve_decision. Defined.
(** The loop over the provenance entries; [seen] are the pairs seen so far. *)
Fixpoint check_entries (refs : list SourceObservationId)
    (seen : list (CorrelationField * SourceObservationId)) (entries : list FieldProvenanceEntry)
  : result EvidenceError unit :=
  match entries with
  | [] => Ok tt
  | entry :: entries =>
      let pair := (FieldProvenanceEntry.field entry, FieldProvenanceEntry.source_observation_ref entry) in
      do? guard (negb (contains (FieldProvenanceEntry.source_observation_ref entry) refs)
                 || contains pair seen) EvidenceError.InvalidOccurrence in
      do? validate_identifier (FieldProvenanceEntry.source_ref entry) in
      do? validate_identifier (FieldProvenanceEntry.evidence_ref entry) in
      check_entries refs (pair :: seen) entries
  end.

Definition expected_fields (self : HostOccurrence) : list CorrelationField :=
  fields_of
    [(CorrelationField.HostInstanceId, is_some (host_instance_id self));
     (CorrelationField.HostTraceLineageId, is_some (host_trace_lineage_id self));
     (CorrelationField.HostLaneKey, is_some (host_lane_key self));
     (CorrelationField.CanonicalEventFamily, is_some (canonical_event_family self));
     (CorrelationField.NativeRequestId, is_some (native_request_id self));
     (CorrelationField.PhysicalExecutionOrdinal, is_some (physical_execution_ordinal self))].

Definition actual_fields (self : HostOccurrence) (source : SourceObservationId)
  : list CorrelationField :=
  bset_of_list (omap (fun entry => if FieldProvenanceEntry.source_observation_ref entry ==? source
                                   then Some (FieldProvenanceEntry.field entry) else None)
                  (field_provenance self)).

Section validation.
Context `{SHA : Sha256}.

(** The conditions on the correlation strength. *)
Definition check_strength (self : HostOccurrence) : result EvidenceError unit :=
  match correlation_strength self with
  | CorrelationStrength.Exact =>
      let? key := ok_or (exact_key self) EvidenceError.InvalidOccurrence in
      do? HostOccurrenceExactKey.validate key in
      let? id := host_occurrence_id_for_exact key in
      guard ((host_occurrence_id self !=? id)
             || (host_instance_id self !=? Some (HostOccurrenceExactKey.host_instance_id key))
             || (host_trace_lineage_id self !=? Some (HostOccurrenceExactKey.host_trace_lineage_id key))
             || (host_lane_key self !=? Some (HostOccurrenceExactKey.host_lane_key key))
             || (canonical_event_family self !=? Some (HostOccurrenceExactKey.canonical_event_family key))
             || (native_request_id self !=? Some (HostOccurrenceExactKey.native_request_id key))
             || (physical_execution_ordinal self
                 !=? Some (HostOccurrenceExactKey.physical_execution_ordinal key))
             || is_some (possible_duplicate_group_id self)) EvidenceError.InvalidOccurrence
  | _ =>
      do? guard (is_some (exact_key self)) EvidenceError.InvalidOccurrence in
      match source_observation_refs self with
      | [source] =>
          let? id := host_occurrence_id_for_nonexact source (correlation_strength self) in
          guard (host_occurrence_id self !=? id) EvidenceError.InvalidOccurrence
      | _ => Err EvidenceError.InvalidOccurrence
      end
  end.

Definition validate (self : HostOccurrence) : result EvidenceError unit :=
  do? guard (is_empty (source_observation_refs self)
             || (correlation_resolver_version self =? 0)%N
             || (normalization_revision self =? 0)%N
             || is_some_and (previous_normalization_revision self) (fun previous =>
                  (previous =? 0)%N || (wrapping_succ_u32 previous !=? normalization_revision self))
             || (normalization_revision self =? 1)%N
                && is_some (previous_normalization_revision self))
        EvidenceError.InvalidOccurrence in
  do? require_unique (source_observation_refs self) in
  do? check_strength self in
  do? check_entries (source_observation_refs self) [] (field_provenance self) in
  do? for_each (fun source => guard (actual_fields self source !=? expected_fields self)
                                EvidenceError.InvalidOccurrence) (source_observation_refs self) in
  guard ((length (source_observation_refs self) =? 1)%nat
         && negb (contains (normalization_state self)
                    [NormalizationState.SingleSource; NormalizationState.NormalizationConflicted])
         || (1 <? length (source_observation_refs self))%nat
            && (normalization_state self ==? NormalizationState.SingleSource)
         || (correlation_strength self ==? CorrelationStrength.Conflicted)
            && (normalization_state self !=? NormalizationState.NormalizationConflicted))
    EvidenceError.InvalidOccurrence.
End validation.
Definition set_revision (self : HostOccurrence)
    (v_normalization_revision : N) (v_previous_normalization_revision : option N) : HostOccurrence :=
  mk
    (self.(host_occurrence_id)) (self.(exact_key)) (self.(host_instance_id))
    (self.(host_trace_lineage_id)) (self.(host_lane_key)) (self.(canonical_event_family))
    (self.(native_request_id)) (self.(physical_execution_ordinal))
    (self.(correlation_strength)) (self.(source_observation_refs)) (self.(field_provenance))
    (self.(normalization_state)) (self.(pairing_state)) (self.(possible_duplicate_group_id))
    (self.(correlation_resolver_version)) v_normalization_revision
    v_previous_normalization_revision.
End HostOccurrence.
Abbreviation HostOccurrence := HostOccurrence.HostOccurrence.
Export (hints) HostOccurrence.

Module Operation.
Record Operation := mk {
  operation_id : OperationId;
  host_occurrence_id : HostOccurrenceId;
  execution_lane_id : option ExecutionLaneId;
  operation_kind : OperationKind;
  input_source_observation_refs : list SourceObservationId;
  result_source_observation_refs : list SourceObservationId;
  pairing_state : PairingState;
  scope_effect_ids : list ScopeEffectId;
  artifact_refs : list WorkArtifactId;
  operation_resolver_version : N;
  operation_revision : N;
  previous_operation_revision : option N;
  source_local_pairing : option SourceLocalPairing;
}.
#[export] Instance eq_dec : EqDecision Operation.
Proof. solve_decision. Defined.
(** Whether the references contradict the pairing state. *)
Definition pairing_mismatch (self : Operation) : bool :=
  let inputs := input_source_observation_refs self in
  let results := result_source_observation_refs self in
  match pairing_state self with
  | PairingState.Paired => is_empty inputs || is_empty results
  | PairingState.UnmatchedIntent => is_empty inputs || negb (is_empty results)
  | PairingState.UnmatchedResult => negb (is_empty inputs) || is_empty results
  | PairingState.Conflicted => (length inputs <=? 1)%nat && (length results <=? 1)%nat
  | PairingState.NotApplicable => false
  end.

Definition validate `{L : UuidLib} (self : Operation) : result EvidenceError unit :=
  do? match source_local_pairing self with
      | Some pairing => SourceLocalPairing.validate pairing
      | None => Ok tt
      end in
  do? guard ((operation_resolver_version self =? 0)%N
             || (operation_revision self =? 0)%N
             || is_some_and (previous_operation_revision self) (fun previous =>
                  (previous =? 0)%N || (checked_add_u32 previous 1 !=? Some (operation_revision self)))
             || (operation_revision self =? 1)%N && is_some (previous_operation_revision self))
        EvidenceError.InvalidOperation in
  do? require_unique (input_source_observation_refs self) in
  do? require_unique (result_source_observation_refs self) in
  do? require_unique (scope_effect_ids self) in
  do? require_unique (artifact_refs self) in
  do? guard (any (fun value => contains value (result_source_observation_refs self))
               (input_source_observation_refs self)
             || pairing_mismatch self) EvidenceError.InvalidOperation in
  guard (is_empty (input_source_observation_refs self)
         && is_empty (result_source_observation_refs self)) EvidenceError.InvalidOperation.
Definition set_revision (self : Operation)
    (v_operation_revision : N) (v_previous_operation_revision : option N) : Operation :=
  mk
    (self.(operation_id)) (self.(host_occurrence_id)) (self.(execution_lane_id))
    (self.(operation_kind)) (self.(input_source_observation_refs))
    (self.(result_source_observation_refs)) (self.(pairing_state)) (self.(scope_effect_ids))
    (self.(artifact_refs)) (self.(operation_resolver_version)) v_operation_revision
    v_previous_operation_revision (self.(source_local_pairing)).
End Operation.
Abbreviation Operation := Operation.Operation.
Export (hints) Operation.

Module ScopeEffect.
Record ScopeEffect := mk {
  scope_effect_id : ScopeEffectId;
  operation_id : OperationId;
  effect_role : EffectRole;
  repository_instance_id : option RepositoryId;
  worktree_instance_id : option WorktreeId;
  pre_snapshot_id : option WorktreeSnapshotId;
  post_snapshot_id : option WorktreeSnapshotId;
  experiment_run_ids : list ExperimentRunId;
  artifact_refs : list WorkArtifactId;
  evidence_refs : list SourceObservationId;
}.
#[export] Instance eq_dec : EqDecision ScopeEffect.
Proof. solve_decision. Defined.
Definition as_claim (self : ScopeEffect) : ScopeEffectClaim :=
  {| ScopeEffectClaim.effect_role := effect_role self;
     ScopeEffectClaim.repository_instance_id := repository_instance_id self;
     ScopeEffectClaim.worktree_instance_id := worktree_instance_id self;
     ScopeEffectClaim.pre_snapshot_id := pre_snapshot_id self;
     ScopeEffectClaim.post_snapshot_id := post_snapshot_id self;
     ScopeEffectClaim.experiment_run_ids := experiment_run_ids self;
     ScopeEffectClaim.artifact_refs := artifact_refs self;
     ScopeEffectClaim.evidence_refs := evidence_refs self |}.

Definition validate (self : ScopeEffect) : result EvidenceError unit :=
  ScopeEffectClaim.validate (as_claim self).
End ScopeEffect.
Abbreviation ScopeEffect := ScopeEffect.ScopeEffect.
Export (hints) ScopeEffect.

(** ** Gaps, outages and evidence surfaces *)

Module ReconciliationProvenance.
Inductive ReconciliationProvenance :=
| EmergencyMarker
| QuarantineRecovery
| AdmissionLedger
| SequenceReconciliation
| IndependentSource.
#[export] Instance eq_dec : EqDecision ReconciliationProvenance.
Proof. solve_decision. Defined.
End ReconciliationProvenance.
Abbreviation ReconciliationProvenance := ReconciliationProvenance.ReconciliationProvenance.
Export (hints) ReconciliationProvenance.

(** [checked_sub(1)] kept only above revision 1. *)
Definition predecessor_of (revision : N) : option N :=
  if (1 <? revision)%N then Some (revision - 1)%N else None.

Module CaptureGapMarkerEvidence.
Record CaptureGapMarkerEvidence := mk {
  marker_id : string;
  reconciliation_revision : N;
  predecessor_revision : option N;
  source_ref : string;
  session_ref : string;
  turn_ref : option string;
  tool_ref : option string;
  failure_reason : string;
  redacted_fingerprint : string;
  attempted_bytes : N;
  last_durable_watermark : N;
  provenance : ReconciliationProvenance;
  import_ref : string;
  reconciled : bool;
  reconciliation_refs : list string;
}.
#[export] Instance eq_dec : EqDecision CaptureGapMarkerEvidence.
Proof. solve_decision. Defined.
Definition validate (self : CaptureGapMarkerEvidence) : result EvidenceError unit :=
  do? guard ((reconciliation_revision self =? 0)%N
             || (predecessor_revision self !=? predecessor_of (reconciliation_revision self))
             || (attempted_bytes self =? 0)%N
                && (provenance self !=? ReconciliationProvenance.QuarantineRecovery)
             || negb (str_len (redacted_fingerprint self) =? 64)%N
             || negb (all is_ascii_hexdigit (as_bytes (redacted_fingerprint self)))
             || xorb (reconciled self) (negb (is_empty (reconciliation_refs self))))
        EvidenceError.Invalid in
  do? for_each validate_identifier
        [marker_id self; source_ref self; session_ref self; failure_reason self; import_ref self] in
  do? for_each validate_identifier
        (option_list (turn_ref self) ++ option_list (tool_ref self) ++ reconciliation_refs self) in
  require_unique (reconciliation_refs self).
End CaptureGapMarkerEvidence.
Abbreviation CaptureGapMarkerEvidence := CaptureGapMarkerEvidence.CaptureGapMarkerEvidence.
Export (hints) CaptureGapMarkerEvidence.

Module CaptureOutagePositiveSource.
Inductive CaptureOutagePositiveSource :=
| HostFailureLedger
| DaemonAdmission
| MonotonicSequenceGap
| IndependentSourceMismatch
| VerifiedGapMarker.
#[export] Instance eq_dec : EqDecision CaptureOutagePositiveSource.
Proof. solve_decision. Defined.
End CaptureOutagePositiveSource.
Abbreviation CaptureOutagePositiveSource := CaptureOutagePositiveSource.CaptureOutagePositiveSource.
Export (hints) CaptureOutagePositiveSource.

Module CaptureOutageInterval.
Record CaptureOutageInterval := mk {
  capture_outage_interval_id : CaptureOutageIntervalId;
  reconciliation_revision : N;
  predecessor_revision : option N;
  source_ref : string;
  session_ref : string;
  first_missing_sequence : N;
  last_missing_sequence : N;
  positive_source : CaptureOutagePositiveSource;
  positive_evidence_refs : list string;
  reconciled : bool;
  reconciliation_refs : list string;
}.
#[export] Instance eq_dec : EqDecision CaptureOutageInterval.
Proof. solve_decision. Defined.
Definition validate (self : CaptureOutageInterval) : result EvidenceError unit :=
  do? guard ((reconciliation_revision self =? 0)%N
             || (predecessor_revision self !=? predecessor_of (reconciliation_revision self))
             || (last_missing_sequence self <? first_missing_sequence self)%N
             || is_empty (positive_evidence_refs self)
             || xorb (reconciled self) (negb (is_empty (reconciliation_refs self))))
        EvidenceError.Invalid in
  do? validate_identifier (source_ref self) in
  do? validate_identifier (session_ref self) in
  do? for_each validate_identifier (positive_evidence_refs self ++ reconciliation_refs self) in
  do? require_unique (positive_evidence_refs self) in
  require_unique (reconciliation_refs self).
End CaptureOutageInterval.
Abbreviation CaptureOutageInterval := CaptureOutageInterval.CaptureOutageInterval.
Export (hints) CaptureOutageInterval.

Module EvidenceSurface.
Record EvidenceSurface := mk {
  source_observation_revision_ref : SourceObservationId;
  source_role : SourceRole;
  content_trust : ContentTrust;
  instruction_authority : InstructionAuthority;
  task_id : option TaskId;
  repository_instance_id : option RepositoryId;
  worktree_instance_id : option WorktreeId;
  event_time_us : Z;
  recorded_at_us : Z;
  source_sequence : N;
  capture_completeness : CaptureCompleteness;
  canonicalization_version : N;
  span_hash : string;
  projection_generation : N;
  protected_text : string;
}.
#[export] Instance eq_dec : EqDecision EvidenceSurface.
Proof. solve_decision. Defined.
Definition validate `{SHA : Sha256} (self : EvidenceSurface) : result EvidenceError unit :=
  do? guard ((instruction_authority self !=? InstructionAuthority.None)
             || (event_time_us self <? 0)%Z || (recorded_at_us self <? 0)%Z
             || (recorded_at_us self <? event_time_us self)%Z
             || (canonicalization_version self =? 0)%N || (projection_generation self =? 0)%N
             || str_is_empty (protected_text self)
             || (MAX_EVIDENCE_SURFACE_BYTES <? str_len (protected_text self))%N)
        EvidenceError.Invalid in
  do? validate_digest (span_hash self) in
  let? expected := evidence_span_hash (source_observation_revision_ref self)
                     (canonicalization_version self) (protected_text self) in
  guard (span_hash self !=? of_bytes (expected ≫= hex_byte)) EvidenceError.InvalidDigest.
End EvidenceSurface.
Abbreviation EvidenceSurface := EvidenceSurface.EvidenceSurface.
Export (hints) EvidenceSurface.
