(* ===== verification/SessionImport.v ===== *)
(** * Session imports (crates/evertrace-store/src/session_import.rs)

    The current state of an external session that may be imported: its metadata,
    the access decision of the user, the state of its body, and where the records
    observed live begin.  A session advances by events, whose reduction is
    [apply_session_event]; [import_scope] decides under which repository a range of
    the session's file may be imported.

    A session keeps its identity, counts its events and never loses a restriction;
    the fence of live observation stays where it was put; nothing is imported
    against a revocation or outside the repositories a session is restricted to; and
    the row of a session restores it. *)

From stdpp Require Import pretty.
From S2P Require Import Prelude Order Collections OrderedMap Text Canonical Ids Journal Objects Repository Evidence.

Definition SESSION_IMPORT_ROW_PREFIX : string := "runtime:session_import:".
Definition MAX_REPOSITORY_READ_RESTRICTIONS : nat := 16.

Definition is_session_import_source (instance : string) : bool :=
  starts_with (as_bytes instance) (as_bytes "codex-session:")
  || starts_with (as_bytes instance) (as_bytes "session-rollout:").

Definition valid_source_instance (session : string) (source : option string) : bool :=
  match source with
  | None => true
  | Some source =>
      match strip_prefix source ("session-rollout:" +:+ session +:+ ":") with
      | None => false
      | Some rollout =>
          (str_len rollout =? 36)%N
          && all (fun ib : nat * byte =>
               if contains ib.1 [8; 13; 18; 23]%nat then ib.2 ==? "-"%byte else is_hex ib.2)
               (imap pair (as_bytes rollout))
      end
  end.

Definition valid_text (value : string) (max : N) : bool :=
  negb (str_is_empty value) && (str_len value <=? max)%N && negb (any is_control (chars value)).

Definition valid_refs (values : list string) : bool :=
  negb (is_empty values) && (length values <=? 32)%nat && windows2_all ltb_ord values
  && all (fun value => valid_text value 512) values.

(** [CasDigest::from_str(value).is_err()], negated. *)
Definition valid_cas_digest (value : string) : bool :=
  (str_len value =? 64)%N && all is_hex (as_bytes value).

Module WorkspaceResolutionKind.
Inductive WorkspaceResolutionKind :=
| Repository
| NonRepository
| Ambiguous
| Unavailable.
#[export] Instance eq_dec : EqDecision WorkspaceResolutionKind.
Proof. solve_decision. Defined.
End WorkspaceResolutionKind.
Abbreviation WorkspaceResolutionKind := WorkspaceResolutionKind.WorkspaceResolutionKind.
Export (hints) WorkspaceResolutionKind.

Module MetadataState.
Inductive MetadataState :=
| Discovered
| Indexed
| Partial
| Unsupported
| Failed.
#[export] Instance eq_dec : EqDecision MetadataState.
Proof. solve_decision. Defined.
End MetadataState.
Abbreviation MetadataState := MetadataState.MetadataState.
Export (hints) MetadataState.

Module SessionBodyState.
Inductive SessionBodyState :=
| NotImported
| Queued
| Importing
| Imported
| BlockedUntrusted
| BlockedUnapproved
| BlockedScopeUnresolved
| Partial
| Failed
| SourceReplaced.
#[export] Instance eq_dec : EqDecision SessionBodyState.
Proof. solve_decision. Defined.
End SessionBodyState.
Abbreviation SessionBodyState := SessionBodyState.SessionBodyState.
Export (hints) SessionBodyState.

Module SessionAccessDecision.
Inductive SessionAccessDecision :=
| Approved
| Revoked.
#[export] Instance eq_dec : EqDecision SessionAccessDecision.
Proof. solve_decision. Defined.
End SessionAccessDecision.
Abbreviation SessionAccessDecision := SessionAccessDecision.SessionAccessDecision.
Export (hints) SessionAccessDecision.

Module BodyStateReason.
Inductive BodyStateReason :=
| Requested
| Started
| Completed
| TrustUnavailable
| ApprovalUnavailable
| ScopeUnresolved
| BudgetExhausted
| ImportFailed
| SourceReplaced.
#[export] Instance eq_dec : EqDecision BodyStateReason.
Proof. solve_decision. Defined.
End BodyStateReason.
Abbreviation BodyStateReason := BodyStateReason.BodyStateReason.
Export (hints) BodyStateReason.

Module ProspectiveSourceOrigin.
Record ProspectiveSourceOrigin := mk {
  snapshot_ref : WorktreeSnapshotId;
  observed_end : N;
  record_start : option N;
  closed : bool;
}.
#[export] Instance eq_dec : EqDecision ProspectiveSourceOrigin.
Proof. solve_decision. Defined.
Definition validate (self : ProspectiveSourceOrigin) (file_size : N) : result StoreError unit :=
  guard ((file_size <? observed_end self)%N
         || match record_start self with
            | Some start => (start <? observed_end self)%N || (file_size <? start)%N
            | None => false
            end) StoreError.InvalidInput.
End ProspectiveSourceOrigin.
Abbreviation ProspectiveSourceOrigin := ProspectiveSourceOrigin.ProspectiveSourceOrigin.
Export (hints) ProspectiveSourceOrigin.

Module SessionMetadata.
Record SessionMetadata := mk {
  source_path : string;
  source_format : string;
  started_at_us : option Z;
  ended_at_us : option Z;
  host : option string;
  model_profile : option string;
  workspace_hint : option string;
  repository_hint : option string;
  worktree_hint : option string;
  workspace_resolution_kind : WorkspaceResolutionKind;
  resolved_repository_instance_id : option RepositoryId;
  resolved_worktree_instance_id : option WorktreeId;
  repository_read_restrictions : option (list RepositoryId);
  prospective_origin : option ProspectiveSourceOrigin;
  file_size : N;
  file_mtime_us : Z;
  source_fingerprint : string;
  source_revision : SourceRevision;
  parser_version : N;
  metadata_state : MetadataState;
}.
#[export] Instance eq_dec : EqDecision SessionMetadata.
Proof. solve_decision. Defined.
Definition read_restrictions (self : SessionMetadata) : list RepositoryId :=
  match repository_read_restrictions self with Some ids => ids | None => [] end
  ++ option_list (resolved_repository_instance_id self).

Definition validate (self : SessionMetadata) : result StoreError unit :=
  do? match prospective_origin self with
      | Some origin =>
          do? ProspectiveSourceOrigin.validate origin (file_size self) in
          guard (is_none (repository_read_restrictions self)) StoreError.InvalidInput
      | None => Ok tt
      end in
  do? match repository_read_restrictions self with
      | Some restrictions =>
          guard ((MAX_REPOSITORY_READ_RESTRICTIONS <? length restrictions)%nat
                 || windows2_any (fun a b => leb_ord b a) restrictions
                 || match resolved_repository_instance_id self with
                    | Some id => negb (binary_search_ok restrictions id)
                    | None => false
                    end) StoreError.InvalidInput
      | None => Ok tt
      end in
  do? guard (negb (valid_text (source_path self) 4096)
             || negb (valid_text (source_format self) 64)
             || (file_mtime_us self <? 0)%Z
             || (parser_version self =? 0)%N
             || negb (valid_text (source_fingerprint self) 256)
             || negb (valid_cas_digest (source_fingerprint self))
             || match started_at_us self with Some v => (v <? 0)%Z | None => false end
             || match ended_at_us self with Some v => (v <? 0)%Z | None => false end
             || match started_at_us self, ended_at_us self with Some a, Some b => (b <? a)%Z | _, _ => false end
             || any (fun v => negb (valid_text v 4096))
                  (omap id [host self; model_profile self; workspace_hint self; repository_hint self; worktree_hint self]))
        StoreError.InvalidInput in
  do? map_err (fun _ => StoreError.InvalidInput) (Evidence.validate_identifier (source_revision self)) in
  let repository := workspace_resolution_kind self ==? WorkspaceResolutionKind.Repository in
  let ids := (is_some (resolved_repository_instance_id self), is_some (resolved_worktree_instance_id self)) in
  guard (xorb repository (ids.1 && ids.2) || negb repository && (ids.1 || ids.2)) StoreError.InvalidInput.
End SessionMetadata.
Abbreviation SessionMetadata := SessionMetadata.SessionMetadata.
Export (hints) SessionMetadata.

Module SessionImportEventKind.
Inductive SessionImportEventKind :=
| MetadataObserved (metadata : SessionMetadata)
| AccessDecision (decision : SessionAccessDecision) (local_request_ref : RequestId) (provenance_refs : list string)
| BodyStateAdvanced (body_state : SessionBodyState) (reason : BodyStateReason).
#[export] Instance eq_dec : EqDecision SessionImportEventKind.
Proof. solve_decision. Defined.
End SessionImportEventKind.
Abbreviation SessionImportEventKind := SessionImportEventKind.SessionImportEventKind.
Export (hints) SessionImportEventKind.

(** ** The states of a body *)

Definition body_transition (from to : SessionBodyState) : bool :=
  match from, to with
  | SessionBodyState.NotImported,
    (SessionBodyState.Queued | SessionBodyState.BlockedUntrusted | SessionBodyState.BlockedUnapproved
     | SessionBodyState.BlockedScopeUnresolved) => true
  | SessionBodyState.Queued,
    (SessionBodyState.Importing | SessionBodyState.BlockedUntrusted | SessionBodyState.BlockedUnapproved
     | SessionBodyState.BlockedScopeUnresolved | SessionBodyState.Failed | SessionBodyState.SourceReplaced) => true
  | SessionBodyState.Importing,
    (SessionBodyState.Imported | SessionBodyState.Partial | SessionBodyState.Failed | SessionBodyState.BlockedUntrusted
     | SessionBodyState.BlockedUnapproved | SessionBodyState.SourceReplaced) => true
  | SessionBodyState.Partial,
    (SessionBodyState.Queued | SessionBodyState.Importing | SessionBodyState.BlockedUntrusted
     | SessionBodyState.BlockedUnapproved | SessionBodyState.BlockedScopeUnresolved
     | SessionBodyState.SourceReplaced) => true
  | (SessionBodyState.Failed | SessionBodyState.SourceReplaced | SessionBodyState.BlockedUntrusted
     | SessionBodyState.BlockedUnapproved | SessionBodyState.BlockedScopeUnresolved), SessionBodyState.Queued => true
  | SessionBodyState.Imported,
    (SessionBodyState.Queued | SessionBodyState.BlockedUntrusted | SessionBodyState.BlockedUnapproved
     | SessionBodyState.BlockedScopeUnresolved | SessionBodyState.SourceReplaced) => true
  | _, _ => false
  end.

Definition reason_matches (state : SessionBodyState) (reason : BodyStateReason) : bool :=
  match state, reason with
  | SessionBodyState.Queued, BodyStateReason.Requested
  | SessionBodyState.Importing, BodyStateReason.Started
  | SessionBodyState.Imported, BodyStateReason.Completed
  | SessionBodyState.BlockedUntrusted, BodyStateReason.TrustUnavailable
  | SessionBodyState.BlockedUnapproved, BodyStateReason.ApprovalUnavailable
  | SessionBodyState.BlockedScopeUnresolved, BodyStateReason.ScopeUnresolved
  | SessionBodyState.Partial, BodyStateReason.BudgetExhausted
  | SessionBodyState.Partial, BodyStateReason.ApprovalUnavailable
  | SessionBodyState.Failed, BodyStateReason.ImportFailed
  | SessionBodyState.SourceReplaced, BodyStateReason.SourceReplaced => true
  | _, _ => false
  end.

Module SessionImportEvent.
Record SessionImportEvent := mk {
  session_id : string;
  source_instance_id : option string;
  revision : N;
  predecessor_revision : option N;
  occurred_at_us : Z;
  event : SessionImportEventKind;
}.
#[export] Instance eq_dec : EqDecision SessionImportEvent.
Proof. solve_decision. Defined.
Definition source_key (self : SessionImportEvent) : string :=
  match source_instance_id self with Some instance => instance | None => session_id self end.

(** [self.revision.checked_sub(1).filter(|v| *v != 0)]. *)
Definition predecessor_of (revision : N) : option N :=
  if (revision <=? 1)%N then None else Some (revision - 1)%N.

Definition validate (self : SessionImportEvent) : result StoreError unit :=
  do? guard (negb (valid_text (session_id self) 512)
             || negb (valid_source_instance (session_id self) (source_instance_id self))
             || (revision self =? 0)%N
             || (occurred_at_us self <? 0)%Z
             || (predecessor_revision self !=? predecessor_of (revision self))) StoreError.InvalidInput in
  match event self with
  | SessionImportEventKind.MetadataObserved metadata => SessionMetadata.validate metadata
  | SessionImportEventKind.AccessDecision _ _ provenance_refs =>
      guard (negb (valid_refs provenance_refs)) StoreError.InvalidInput
  | SessionImportEventKind.BodyStateAdvanced body_state reason =>
      guard (negb (reason_matches body_state reason)) StoreError.InvalidInput
  end.
End SessionImportEvent.
Abbreviation SessionImportEvent := SessionImportEvent.SessionImportEvent.
Export (hints) SessionImportEvent.

(** [origin.is_some_and(|origin| !origin.closed && origin.record_start.is_some())]. *)
Definition prospective_route (metadata : SessionMetadata) : bool :=
  match SessionMetadata.prospective_origin metadata with
  | Some origin => negb (ProspectiveSourceOrigin.closed origin) && is_some (ProspectiveSourceOrigin.record_start origin)
  | None => false
  end.

Module SessionImportCurrent.
Record SessionImportCurrent := mk {
  session_id : string;
  source_instance_id : option string;
  revision : N;
  metadata : SessionMetadata;
  access_decision : option SessionAccessDecision;
  body_state : SessionBodyState;
  source_event_seq : N;
}.
#[export] Instance eq_dec : EqDecision SessionImportCurrent.
Proof. solve_decision. Defined.
Definition set_metadata (self : SessionImportCurrent)
    (v_revision : N) (v_metadata : SessionMetadata) (v_access_decision : option
    SessionAccessDecision) (v_source_event_seq : N) : SessionImportCurrent :=
  mk
    (self.(session_id)) (self.(source_instance_id)) v_revision v_metadata v_access_decision
    (self.(body_state)) v_source_event_seq.
Definition set_access (self : SessionImportCurrent)
    (v_revision : N) (v_access_decision : option SessionAccessDecision) (v_source_event_seq
    : N) : SessionImportCurrent :=
  mk
    (self.(session_id)) (self.(source_instance_id)) v_revision (self.(metadata))
    v_access_decision (self.(body_state)) v_source_event_seq.
Definition set_body (self : SessionImportCurrent)
    (v_revision : N) (v_body_state : SessionBodyState) (v_source_event_seq : N) : SessionImportCurrent :=
  mk
    (self.(session_id)) (self.(source_instance_id)) v_revision (self.(metadata))
    (self.(access_decision)) v_body_state v_source_event_seq.
Definition source_key (self : SessionImportCurrent) : string :=
  match source_instance_id self with Some instance => instance | None => session_id self end.

Definition source_instance (self : SessionImportCurrent) : string :=
  match source_instance_id self with
  | Some instance => instance
  | None => ("codex-session:" +:+ session_id self)%string
  end.

Definition archived (state : SessionBodyState) : bool :=
  match state with SessionBodyState.Partial | SessionBodyState.Imported => true | _ => false end.
Definition active (state : SessionBodyState) : bool :=
  match state with SessionBodyState.Queued | SessionBodyState.Importing => true | _ => false end.

Definition validate (self : SessionImportCurrent) : result StoreError unit :=
  let meta := metadata self in
  let kind := SessionMetadata.workspace_resolution_kind meta in
  let revoked := access_decision self ==? Some SessionAccessDecision.Revoked in
  let approved := access_decision self ==? Some SessionAccessDecision.Approved in
  do? guard (negb (valid_text (session_id self) 512)
             || negb (valid_source_instance (session_id self) (source_instance_id self))
             || (revision self =? 0)%N
             || (source_event_seq self =? 0)%N) StoreError.InvalidInput in
  do? SessionMetadata.validate meta in
  do? guard (active (body_state self) && revoked && is_some (SessionMetadata.prospective_origin meta))
        StoreError.InvalidInput in
  if is_some (SessionMetadata.repository_read_restrictions meta) then
    guard ((kind !=? WorkspaceResolutionKind.Repository)
           && (active (body_state self) || archived (body_state self))
           && negb (is_some (SessionMetadata.prospective_origin meta) && archived (body_state self))
           && (revoked || negb approved && negb (prospective_route meta))) StoreError.InvalidInput
  else
    match kind with
    | WorkspaceResolutionKind.Repository => guard (is_some (access_decision self)) StoreError.InvalidInput
    | WorkspaceResolutionKind.NonRepository =>
        guard ((active (body_state self) || archived (body_state self)) && negb approved) StoreError.InvalidInput
    | WorkspaceResolutionKind.Ambiguous | WorkspaceResolutionKind.Unavailable =>
        guard (is_some (access_decision self)
               || match body_state self with
                  | SessionBodyState.NotImported | SessionBodyState.BlockedScopeUnresolved
                  | SessionBodyState.Failed | SessionBodyState.SourceReplaced => false
                  | _ => true
                  end) StoreError.InvalidInput
    end.

(** The route of a record observed live. *)
Definition origin_scope (self : SessionImportCurrent) (origin : ProspectiveSourceOrigin)
    (origin_snapshot : option WorktreeSnapshot) (origin_worktree : option WorktreeInstance)
  : result StoreError (option RepositoryId * option WorktreeId) :=
  let? snapshot := ok_or origin_snapshot StoreError.InvalidInput in
  let? worktree := ok_or origin_worktree StoreError.InvalidInput in
  do? guard ((WorktreeSnapshot.worktree_snapshot_id snapshot !=? ProspectiveSourceOrigin.snapshot_ref origin)
             || (WorktreeSnapshot.worktree_instance_id snapshot !=? WorktreeInstance.worktree_instance_id worktree)
             || negb match SessionMetadata.repository_read_restrictions (metadata self) with
                     | Some ids => binary_search_ok ids (WorktreeInstance.repository_instance_id worktree)
                     | None => false
                     end) StoreError.InvalidInput in
  Ok (Some (WorktreeInstance.repository_instance_id worktree), Some (WorktreeInstance.worktree_instance_id worktree)).

(** The scope of the session itself. *)
Definition session_scope (self : SessionImportCurrent) : result StoreError (option RepositoryId * option WorktreeId) :=
  let meta := metadata self in
  if SessionMetadata.workspace_resolution_kind meta ==? WorkspaceResolutionKind.Repository
  then Ok (SessionMetadata.resolved_repository_instance_id meta, SessionMetadata.resolved_worktree_instance_id meta)
  else if access_decision self ==? Some SessionAccessDecision.Approved then Ok (None, None)
  else Err StoreError.InvalidInput.

Definition import_scope (self : SessionImportCurrent) (range : EvidenceByteRange)
    (origin_snapshot : option WorktreeSnapshot) (origin_worktree : option WorktreeInstance)
  : result StoreError (option RepositoryId * option WorktreeId) :=
  let start := EvidenceByteRange.start range in
  let end_ := EvidenceByteRange.end_ range in
  do? guard ((end_ <=? start)%N || (access_decision self ==? Some SessionAccessDecision.Revoked))
        StoreError.InvalidInput in
  match SessionMetadata.prospective_origin (metadata self) with
  | Some origin =>
      let? fence := ok_or (ProspectiveSourceOrigin.record_start origin) StoreError.InvalidInput in
      do? guard ((start <? fence) && (fence <? end_))%N StoreError.InvalidInput in
      if (fence <=? start)%N && negb (ProspectiveSourceOrigin.closed origin)
      then origin_scope self origin origin_snapshot origin_worktree
      else session_scope self
  | None => session_scope self
  end.
End SessionImportCurrent.
Abbreviation SessionImportCurrent := SessionImportCurrent.SessionImportCurrent.
Export (hints) SessionImportCurrent.

(** ** Events *)

Definition prospective_origin_transition_is_valid (old next : SessionMetadata) (source_revision_changed : bool)
    (body_state : SessionBodyState) : bool :=
  if source_revision_changed then true
  else
    match SessionMetadata.prospective_origin old, SessionMetadata.prospective_origin next with
    | None, None => true
    | None, Some _ =>
        match body_state with SessionBodyState.NotImported | SessionBodyState.SourceReplaced => true | _ => false end
    | Some _, None => false
    | Some previous, Some current =>
        (ProspectiveSourceOrigin.snapshot_ref previous ==? ProspectiveSourceOrigin.snapshot_ref current)
        && (ProspectiveSourceOrigin.observed_end previous =? ProspectiveSourceOrigin.observed_end current)%N
        && match ProspectiveSourceOrigin.record_start previous, ProspectiveSourceOrigin.record_start current with
           | None, None => true
           | None, Some start => (ProspectiveSourceOrigin.observed_end previous <=? start)%N
           | Some old_start, Some new_start => (old_start =? new_start)%N
           | Some _, None => false
           end
        && (negb (ProspectiveSourceOrigin.closed previous) || ProspectiveSourceOrigin.closed current)
    end.

(** [MetadataObserved] on a session that is known. *)
Definition observe_metadata (old : SessionImportCurrent) (event_revision : N) (metadata : SessionMetadata) (seq : N)
  : result StoreError SessionImportCurrent :=
  let old_metadata := SessionImportCurrent.metadata old in
  do? match SessionMetadata.repository_read_restrictions metadata with
      | None => guard (is_some (SessionMetadata.repository_read_restrictions old_metadata)) StoreError.InvalidInput
      | Some restrictions =>
          guard (any (fun id => negb (binary_search_ok restrictions id)) (SessionMetadata.read_restrictions old_metadata))
            StoreError.InvalidInput
      end in
  do? guard (old_metadata ==? metadata) StoreError.InvalidInput in
  let source_revision_changed :=
    SessionMetadata.source_revision old_metadata !=? SessionMetadata.source_revision metadata in
  let source_changed :=
    source_revision_changed
    || (SessionMetadata.file_size metadata <? SessionMetadata.file_size old_metadata)%N
    || (SessionMetadata.source_path metadata ==? SessionMetadata.source_path old_metadata)
       && (SessionMetadata.file_size metadata =? SessionMetadata.file_size old_metadata)%N
       && negb (SessionMetadata.file_mtime_us old_metadata =? SessionMetadata.file_mtime_us metadata)%Z in
  do? guard (negb (prospective_origin_transition_is_valid old_metadata metadata source_revision_changed
                     (SessionImportCurrent.body_state old))) StoreError.InvalidInput in
  do? guard (source_changed
             && match SessionImportCurrent.body_state old with
                | SessionBodyState.NotImported | SessionBodyState.SourceReplaced => false
                | _ => true
                end) StoreError.InvalidInput in
  let restricted := is_some (SessionMetadata.repository_read_restrictions metadata) in
  let access_decision :=
    if (source_changed
        || negb restricted
           && (SessionMetadata.workspace_resolution_kind metadata !=? WorkspaceResolutionKind.NonRepository))
       && negb (restricted
                && (SessionImportCurrent.access_decision old ==? Some SessionAccessDecision.Revoked))
    then None else SessionImportCurrent.access_decision old in
  let next := SessionImportCurrent.set_metadata old event_revision metadata access_decision seq in
  do? SessionImportCurrent.validate next in
  Ok next.

Definition decide_access (old : SessionImportCurrent) (event_revision : N) (decision : SessionAccessDecision) (seq : N)
  : result StoreError SessionImportCurrent :=
  let old_metadata := SessionImportCurrent.metadata old in
  do? guard (is_none (SessionMetadata.repository_read_restrictions old_metadata)
             && (SessionMetadata.workspace_resolution_kind old_metadata !=? WorkspaceResolutionKind.NonRepository))
        StoreError.InvalidInput in
  do? guard (SessionImportCurrent.access_decision old ==? Some decision) StoreError.InvalidInput in
  let next := SessionImportCurrent.set_access old event_revision (Some decision) seq in
  do? SessionImportCurrent.validate next in
  Ok next.

Definition advance_body (old : SessionImportCurrent) (event_revision : N) (body_state : SessionBodyState) (seq : N)
  : result StoreError SessionImportCurrent :=
  let old_metadata := SessionImportCurrent.metadata old in
  do? guard (negb (body_transition (SessionImportCurrent.body_state old) body_state)) StoreError.InvalidInput in
  do? guard ((body_state ==? SessionBodyState.Queued)
             && (is_some (SessionMetadata.prospective_origin old_metadata)
                 && (SessionImportCurrent.access_decision old ==? Some SessionAccessDecision.Revoked)
                 || (SessionMetadata.workspace_resolution_kind old_metadata !=? WorkspaceResolutionKind.Repository)
                    && (SessionImportCurrent.access_decision old !=? Some SessionAccessDecision.Approved)
                    && negb (prospective_route old_metadata))) StoreError.InvalidInput in
  let next := SessionImportCurrent.set_body old event_revision body_state seq in
  do? SessionImportCurrent.validate next in
  Ok next.

Definition apply_session_event (current : option SessionImportCurrent) (event : SessionImportEvent) (seq : N)
  : result StoreError SessionImportCurrent :=
  do? SessionImportEvent.validate event in
  match current with
  | None =>
      match SessionImportEvent.event event with
      | SessionImportEventKind.MetadataObserved metadata =>
          do? guard (negb (SessionImportEvent.revision event =? 1)%N) StoreError.InvalidInput in
          let next := SessionImportCurrent.mk (SessionImportEvent.session_id event)
            (SessionImportEvent.source_instance_id event) 1 metadata None SessionBodyState.NotImported seq in
          do? SessionImportCurrent.validate next in
          Ok next
      | _ => Err StoreError.InvalidInput
      end
  | Some old =>
      do? guard ((SessionImportCurrent.session_id old !=? SessionImportEvent.session_id event)
                 || (SessionImportCurrent.source_instance_id old !=? SessionImportEvent.source_instance_id event)
                 || (SessionImportEvent.predecessor_revision event !=? Some (SessionImportCurrent.revision old)))
            StoreError.InvalidInput in
      let revision := SessionImportEvent.revision event in
      match SessionImportEvent.event event with
      | SessionImportEventKind.MetadataObserved metadata => observe_metadata old revision metadata seq
      | SessionImportEventKind.AccessDecision decision _ _ => decide_access old revision decision seq
      | SessionImportEventKind.BodyStateAdvanced body_state _ => advance_body old revision body_state seq
      end
  end.

(** ** The row of a session *)

(** [serde_json] on sessions. *)
Class SessionJson := {
  session_to_string : SessionImportCurrent -> option string;
  session_from_str : string -> option SessionImportCurrent;
}.

(** What the code relies on: the text of a session parses back to it. *)
Class SessionJsonLaws (J : SessionJson) := {
  session_from_to c s : session_to_string c = Some s -> session_from_str s = Some c;
  session_to_string_text c s : session_to_string c = Some s -> str_ok s;
}.

Definition session_import_row_id (session_id : string) : string := SESSION_IMPORT_ROW_PREFIX +:+ session_id.

Section rows.
Context `{L : UuidLib} `{J : SessionJson}.
Implicit Types value : SessionImportCurrent.

Definition current_row value (generation : N) : result StoreError ObjectRow :=
  let meta := SessionImportCurrent.metadata value in
  do? SessionImportCurrent.validate value in
  let? text := ok_or (session_to_string value) StoreError.Serialization in
  Ok (ObjectRow.mk (session_import_row_id (SessionImportCurrent.source_key value)) ObjectRowKind.Data
        (Some ObjectRowClass.Runtime) None (Some "session_import_current"%string) None
        (Some (pretty (SessionImportCurrent.revision value))) None None None None None None
        (id_display <$> SessionMetadata.resolved_repository_instance_id meta)
        (id_display <$> SessionMetadata.resolved_worktree_instance_id meta)
        None None (Some (SessionImportCurrent.session_id value)) (Some (RowPayload.from text))
        (SessionImportCurrent.source_event_seq value) generation).

Definition restore_current (row : ObjectRow) : result (fault StoreError) (option SessionImportCurrent) :=
  if ObjectRow.object_kind row !=? Some "session_import_current"%string then Ok None
  else
    let? payload := ok_or (ObjectRow.payload_json row) (Raise StoreError.StoreCorrupt) in
    let? json := ok_or (RowPayload.as_str payload) Panicked in
    let? value := ok_or (session_from_str json) (Raise StoreError.StoreCorrupt) in
    let meta := SessionImportCurrent.metadata value in
    do? guard
      ((ObjectRow.row_id row !=? session_import_row_id (SessionImportCurrent.source_key value))
       || (ObjectRow.row_class row !=? Some ObjectRowClass.Runtime)
       || is_some (ObjectRow.object_id row)
       || (ObjectRow.current_revision_id row !=? Some (pretty (SessionImportCurrent.revision value)))
       || (ObjectRow.session_id row !=? Some (SessionImportCurrent.session_id value))
       || negb (ObjectRow.source_event_seq row =? SessionImportCurrent.source_event_seq value)%N
       || (ObjectRow.row_kind row !=? ObjectRowKind.Data)
       || is_some (ObjectRow.object_family row)
       || (ObjectRow.repository_id row !=? (id_display <$> SessionMetadata.resolved_repository_instance_id meta))
       || (ObjectRow.worktree_id row !=? (id_display <$> SessionMetadata.resolved_worktree_instance_id meta))
       || is_some (ObjectRow.task_id row)
       || is_some (ObjectRow.workstream_id row)
       || is_some (ObjectRow.lifecycle row)
       || is_some (ObjectRow.epistemic row)
       || is_some (ObjectRow.authority row)
       || is_some (ObjectRow.publication_state row)
       || is_some (ObjectRow.support_state row)
       || is_some (ObjectRow.project_id row)) (Raise StoreError.StoreCorrupt) in
    let? text := ok_or (session_to_string value) (Raise StoreError.StoreCorrupt) in
    do? guard (text !=? json) (Raise StoreError.StoreCorrupt) in
    do? map_err (fun _ => Raise StoreError.StoreCorrupt) (SessionImportCurrent.validate value) in
    Ok (Some value).

(** The sessions of a selection of rows, by key; a key twice is corruption. *)
Fixpoint sessions_from_rows (frontier : N) (rows : list ObjectRow) (sessions : list (string * SessionImportCurrent))
  : result (fault StoreError) (list (string * SessionImportCurrent)) :=
  match rows with
  | [] => Ok sessions
  | row :: rows =>
      if ObjectRow.row_kind row !=? ObjectRowKind.Data then sessions_from_rows frontier rows sessions
      else
        let? restored := restore_current row in
        match restored with
        | None => sessions_from_rows frontier rows sessions
        | Some value =>
            let key := SessionImportCurrent.source_key value in
            do? guard ((frontier <? SessionImportCurrent.source_event_seq value)%N
                       || is_some (bmap_get key sessions)) (Raise StoreError.StoreCorrupt) in
            sessions_from_rows frontier rows (bmap_insert key value sessions)
        end
  end.
End rows.

(** ** Lemmas *)

Implicit Types (old new value : SessionImportCurrent) (event : SessionImportEvent).

(** [windows(2).any(|pair| pair[0] >= pair[1])]. *)
Lemma windows2_any_leb {A} `{!Ord A} (l : list A) : windows2_any (fun a b => leb_ord b a) l = false <-> sorted_lt l.
Proof.
  rewrite <-windows2_lt_sorted. induction l as [|x [|y l] IH]; [done..|].
  change (leb_ord y x || windows2_any (fun a b => leb_ord b a) (y :: l) = false
          <-> ltb_ord x y && windows2_all ltb_ord (y :: l) = true).
  rewrite orb_false_iff, andb_true_iff, IH. unfold leb_ord, ltb_ord. rewrite (cmp_opp x y).
  destruct (cmp x y); cbn; intuition done.
Qed.

Definition step old new : Prop := exists event seq, apply_session_event (Some old) event seq = Ok new.

(** What one event does, by its kind. *)
Inductive advanced old event (seq : N) new : Prop :=
| advanced_metadata meta :
    SessionImportEvent.event event = SessionImportEventKind.MetadataObserved meta ->
    observe_metadata old (SessionImportEvent.revision event) meta seq = Ok new -> advanced old event seq new
| advanced_access decision request refs :
    SessionImportEvent.event event = SessionImportEventKind.AccessDecision decision request refs ->
    decide_access old (SessionImportEvent.revision event) decision seq = Ok new -> advanced old event seq new
| advanced_body state reason :
    SessionImportEvent.event event = SessionImportEventKind.BodyStateAdvanced state reason ->
    advance_body old (SessionImportEvent.revision event) state seq = Ok new -> advanced old event seq new.

Lemma apply_advanced old event seq new :
  apply_session_event (Some old) event seq = Ok new ->
  SessionImportEvent.validate event = Ok tt /\
  SessionImportEvent.predecessor_revision event = Some (SessionImportCurrent.revision old) /\ advanced old event seq new.
Proof.
  unfold apply_session_event. intros H. apply rbind_ok in H as ([] & Hv & H). apply rbind_ok in H as ([] & Hg & H).
  apply guard_ok in Hg. rewrite !orb_false_iff in Hg. destruct Hg as [_ Hp%negb_false_iff%bool_decide_eq_true_1].
  split_and!; [done..|]. destruct (SessionImportEvent.event event) eqn:E.
  - by eapply advanced_metadata.
  - by eapply advanced_access.
  - by eapply advanced_body.
Qed.

Lemma event_revision event previous :
  SessionImportEvent.validate event = Ok tt -> SessionImportEvent.predecessor_revision event = Some previous ->
  SessionImportEvent.revision event = (previous + 1)%N.
Proof.
  unfold SessionImportEvent.validate. intros H Hp. apply rbind_ok in H as ([] & Hg & _). apply guard_ok in Hg.
  rewrite !orb_false_iff in Hg. destruct Hg as [[[_ Hr] _] Hq%negb_false_iff%bool_decide_eq_true_1].
  rewrite Hp in Hq. unfold SessionImportEvent.predecessor_of in Hq. destruct (N.leb_spec (SessionImportEvent.revision event) 1); [done|].
  injection Hq as ->. lia.
Qed.

Lemma observe_metadata_ok old revision meta seq new :
  observe_metadata old revision meta seq = Ok new ->
  (exists access, new = SessionImportCurrent.set_metadata old revision meta access seq) /\
  SessionImportCurrent.validate new = Ok tt /\
  match SessionMetadata.repository_read_restrictions meta with
  | None => SessionMetadata.repository_read_restrictions (SessionImportCurrent.metadata old) = None
  | Some restrictions => Forall (fun id => binary_search_ok restrictions id = true)
      (SessionMetadata.read_restrictions (SessionImportCurrent.metadata old))
  end /\
  prospective_origin_transition_is_valid (SessionImportCurrent.metadata old) meta
    (SessionMetadata.source_revision (SessionImportCurrent.metadata old) !=? SessionMetadata.source_revision meta)
    (SessionImportCurrent.body_state old) = true.
Proof.
  unfold observe_metadata. intros H. apply rbind_ok in H as ([] & Hr & H). apply rbind_ok in H as ([] & _ & H).
  apply rbind_ok in H as ([] & Ht%guard_ok%negb_false_iff & H). apply rbind_ok in H as ([] & _ & H).
  apply rbind_ok in H as ([] & Hv & [= <-]). split_and!; [eauto|done| |done].
  destruct (SessionMetadata.repository_read_restrictions meta); apply guard_ok in Hr.
  - apply any_false in Hr. eapply Forall_impl; [exact Hr|]. intros id. apply negb_false_iff.
  - by destruct (SessionMetadata.repository_read_restrictions (SessionImportCurrent.metadata old)).
Qed.

Lemma decide_access_ok old revision decision seq new :
  decide_access old revision decision seq = Ok new ->
  new = SessionImportCurrent.set_access old revision (Some decision) seq /\ SessionImportCurrent.validate new = Ok tt.
Proof.
  unfold decide_access. intros H. apply rbind_ok in H as ([] & _ & H). apply rbind_ok in H as ([] & _ & H).
  by apply rbind_ok in H as ([] & Hv & [= <-]).
Qed.

Lemma advance_body_ok old revision state seq new :
  advance_body old revision state seq = Ok new ->
  new = SessionImportCurrent.set_body old revision state seq /\ SessionImportCurrent.validate new = Ok tt /\
  body_transition (SessionImportCurrent.body_state old) state = true.
Proof.
  unfold advance_body. intros H. apply rbind_ok in H as ([] & Ht%guard_ok%negb_false_iff & H). apply rbind_ok in H as ([] & _ & H).
  by apply rbind_ok in H as ([] & Hv & [= <-]).
Qed.

Lemma metadata_restrictions_sorted meta restrictions :
  SessionMetadata.validate meta = Ok tt -> SessionMetadata.repository_read_restrictions meta = Some restrictions ->
  sorted_lt restrictions /\ (length restrictions <= MAX_REPOSITORY_READ_RESTRICTIONS)%nat /\
  (forall id, SessionMetadata.resolved_repository_instance_id meta = Some id -> id ∈ restrictions).
Proof.
  unfold SessionMetadata.validate. intros H E. rewrite E in H. apply rbind_ok in H as ([] & _ & H).
  apply rbind_ok in H as ([] & Hg & _). apply guard_ok in Hg. rewrite !orb_false_iff in Hg. destruct Hg as [[Hl Hs] Hr].
  assert (sorted_lt restrictions) as Hsorted by by apply windows2_any_leb.
  split_and!; [done|by apply Nat.ltb_ge|]. intros id Hid. rewrite Hid in Hr. apply negb_false_iff in Hr.
  by apply binary_search_ok_true.
Qed.

Lemma current_validate_metadata value :
  SessionImportCurrent.validate value = Ok tt -> SessionMetadata.validate (SessionImportCurrent.metadata value) = Ok tt.
Proof. unfold SessionImportCurrent.validate. intros H. apply rbind_ok in H as ([] & _ & H). by apply rbind_ok in H as ([] & Hm & _). Qed.

(** ** Histories *)

(** C19: along every history of accepted events a session keeps its identity, its
    revision counts the events, it is valid after each of them, and once it is
    restricted to repositories it stays restricted, the set of them only growing. *)
Theorem session_history n old new :
  nsteps step n old new ->
  SessionImportCurrent.session_id new = SessionImportCurrent.session_id old /\
  SessionImportCurrent.source_instance_id new = SessionImportCurrent.source_instance_id old /\
  SessionImportCurrent.revision new = (SessionImportCurrent.revision old + N.of_nat n)%N /\
  (n <> 0%nat -> SessionImportCurrent.validate new = Ok tt) /\
  forall restrictions,
    SessionMetadata.repository_read_restrictions (SessionImportCurrent.metadata old) = Some restrictions ->
    exists restrictions',
      SessionMetadata.repository_read_restrictions (SessionImportCurrent.metadata new) = Some restrictions' /\
      restrictions ⊆ restrictions'.
Proof.
  induction 1 as [old|n old mid new (event & seq & Hs) Hn IH]; [split_and!; [done|done|lia|done|eauto]|].
  apply apply_advanced in Hs as (Hv & Hp & Ha). pose proof (event_revision _ _ Hv Hp) as Hrev.
  destruct IH as (IH1 & IH2 & IH3 & IH4 & IH5). rewrite IH1, IH2, IH3.
  destruct Ha as [meta _ Ha|decision request refs _ Ha|state reason _ Ha].
  - apply observe_metadata_ok in Ha as ((access & ->) & Hval & Hres & _). split_and!; try done; [cbn; lia| |].
    + intros _. destruct n; [|by apply IH4]. inversion Hn. by subst.
    + intros restrictions E. rewrite E in Hres. cbn in Hres.
      destruct (SessionMetadata.repository_read_restrictions meta) as [rs|] eqn:Em; [|done].
      destruct (IH5 rs Em) as (rs' & Hrs' & Hsub). exists rs'. split; [done|]. intros id Hid. apply Hsub.
      pose proof (current_validate_metadata _ Hval) as Hm. cbn in Hm.
      destruct (metadata_restrictions_sorted _ _ Hm Em) as (Hsorted & _). apply binary_search_ok_true; [done|].
      rewrite Forall_forall in Hres. apply Hres. unfold SessionMetadata.read_restrictions. rewrite E. apply elem_of_app. by left.
  - apply decide_access_ok in Ha as (-> & Hval). split_and!; try done; [cbn; lia|].
    intros _. destruct n; [|by apply IH4]. inversion Hn. by subst.
  - apply advance_body_ok in Ha as (-> & Hval & _). split_and!; try done; [cbn; lia|].
    intros _. destruct n; [|by apply IH4]. inversion Hn. by subst.
Qed.

(** ** The fence of live observation *)

(** A step that keeps the revision of the source. *)
Definition source_step old new : Prop :=
  step old new /\ SessionMetadata.source_revision (SessionImportCurrent.metadata new)
    = SessionMetadata.source_revision (SessionImportCurrent.metadata old).

Definition origin_kept (old new : ProspectiveSourceOrigin) : Prop :=
  ProspectiveSourceOrigin.snapshot_ref new = ProspectiveSourceOrigin.snapshot_ref old /\
  ProspectiveSourceOrigin.observed_end new = ProspectiveSourceOrigin.observed_end old /\
  (forall start, ProspectiveSourceOrigin.record_start old = Some start ->
     ProspectiveSourceOrigin.record_start new = Some start) /\
  (ProspectiveSourceOrigin.closed old = true -> ProspectiveSourceOrigin.closed new = true).

Lemma source_step_origin old new origin :
  source_step old new ->
  SessionMetadata.prospective_origin (SessionImportCurrent.metadata old) = Some origin ->
  exists origin', SessionMetadata.prospective_origin (SessionImportCurrent.metadata new) = Some origin' /\ origin_kept origin origin'.
Proof.
  intros [(event & seq & Hs) Hsame] Ho. apply apply_advanced in Hs as (_ & _ & Ha).
  assert (Hkept : origin_kept origin origin) by (unfold origin_kept; auto).
  destruct Ha as [meta _ Ha|decision request refs _ Ha|state reason _ Ha].
  - apply observe_metadata_ok in Ha as ((access & ->) & _ & _ & Ht). cbn in *.
    unfold prospective_origin_transition_is_valid in Ht. rewrite Hsame, bool_decide_eq_true_2, Ho in Ht by done. cbn in Ht.
    destruct (SessionMetadata.prospective_origin meta) as [origin'|]; [|done]. exists origin'. split; [done|].
    rewrite !andb_true_iff in Ht. destruct Ht as [[[H1%bool_decide_eq_true_1 H2%N.eqb_eq] H3] H4]. split_and!; [done..| |].
    + intros start Hstart. rewrite Hstart in H3. destruct (ProspectiveSourceOrigin.record_start origin'); [|done].
      by apply N.eqb_eq in H3 as ->.
    + intros Hc. by rewrite Hc in H4.
  - apply decide_access_ok in Ha as (-> & _). eauto.
  - apply advance_body_ok in Ha as (-> & _). eauto.
Qed.

(** As long as the revision of the source stays the same, the origin of live
    observation stays: its snapshot and its observed end are fixed, the fence, once
    set, never moves, and a closed route is never opened again. *)
Theorem fence_fixed old new origin :
  rtc source_step old new ->
  SessionMetadata.prospective_origin (SessionImportCurrent.metadata old) = Some origin ->
  exists origin', SessionMetadata.prospective_origin (SessionImportCurrent.metadata new) = Some origin' /\ origin_kept origin origin'.
Proof.
  intros Hs. revert origin. induction Hs as [old|old mid new Hs _ IH]; intros origin Ho.
  - exists origin. split; [done|]. unfold origin_kept. auto.
  - destruct (source_step_origin _ _ _ Hs Ho) as (origin' & Ho' & H1 & H2 & H3 & H4).
    destruct (IH _ Ho') as (origin'' & Ho'' & G1 & G2 & G3 & G4). exists origin''. split; [done|].
    split_and!; [congruence|congruence|eauto|eauto].
Qed.

(** ** Permissions *)

Lemma origin_restricted meta :
  SessionMetadata.validate meta = Ok tt -> is_some (SessionMetadata.prospective_origin meta) = true ->
  is_some (SessionMetadata.repository_read_restrictions meta) = true.
Proof.
  unfold SessionMetadata.validate. intros H Ho. apply rbind_ok in H as ([] & H & _).
  destruct (SessionMetadata.prospective_origin meta); [|done]. apply rbind_ok in H as ([] & _ & Hg%guard_ok).
  by destruct (SessionMetadata.repository_read_restrictions meta).
Qed.

Lemma route_origin meta : prospective_route meta = true -> is_some (SessionMetadata.prospective_origin meta) = true.
Proof. unfold prospective_route. by destruct (SessionMetadata.prospective_origin meta). Qed.

(** What validation says beyond the fields of a session and its metadata. *)
Definition permitted (kind : WorkspaceResolutionKind) (origin restricted route : bool)
    (access : option SessionAccessDecision) (state : SessionBodyState) : bool :=
  let revoked := access ==? Some SessionAccessDecision.Revoked in
  let approved := access ==? Some SessionAccessDecision.Approved in
  let active := SessionImportCurrent.active state in
  let archived := SessionImportCurrent.archived state in
  negb (active && revoked && origin)
  && if restricted
     then negb ((kind !=? WorkspaceResolutionKind.Repository) && (active || archived)
                && negb (origin && archived) && (revoked || negb approved && negb route))
     else match kind with
          | WorkspaceResolutionKind.Repository => negb (is_some access)
          | WorkspaceResolutionKind.NonRepository => negb ((active || archived) && negb approved)
          | WorkspaceResolutionKind.Ambiguous | WorkspaceResolutionKind.Unavailable =>
              negb (is_some access
                    || match state with
                       | SessionBodyState.NotImported | SessionBodyState.BlockedScopeUnresolved
                       | SessionBodyState.Failed | SessionBodyState.SourceReplaced => false
                       | _ => true
                       end)
          end.

Lemma rbind_unit {E} (x k : result E unit) : (do? x in k) = Ok tt <-> x = Ok tt /\ k = Ok tt.
Proof. destruct x as [[]|]; cbn; intuition done. Qed.

Lemma validate_permitted value :
  SessionImportCurrent.validate value = Ok tt <->
  (valid_text (SessionImportCurrent.session_id value) 512 = true /\
   valid_source_instance (SessionImportCurrent.session_id value) (SessionImportCurrent.source_instance_id value) = true /\
   SessionImportCurrent.revision value <> 0%N /\ SessionImportCurrent.source_event_seq value <> 0%N) /\
  SessionMetadata.validate (SessionImportCurrent.metadata value) = Ok tt /\
  permitted (SessionMetadata.workspace_resolution_kind (SessionImportCurrent.metadata value))
    (is_some (SessionMetadata.prospective_origin (SessionImportCurrent.metadata value)))
    (is_some (SessionMetadata.repository_read_restrictions (SessionImportCurrent.metadata value)))
    (prospective_route (SessionImportCurrent.metadata value))
    (SessionImportCurrent.access_decision value) (SessionImportCurrent.body_state value) = true.
Proof.
  unfold SessionImportCurrent.validate, permitted. cbv zeta. rewrite !rbind_unit, guard_ok, <-!N.eqb_neq.
  assert (Hiff : forall A A' B C C' : Prop, (A <-> A') -> (C <-> C') -> (A /\ B /\ C <-> A' /\ B /\ C')) by tauto.
  apply Hiff; clear Hiff.
  { destruct (valid_text _ _), (valid_source_instance _ _), (_ =? 0)%N, (_ =? 0)%N; cbn; intuition done. }
  destruct (is_some (SessionMetadata.repository_read_restrictions (SessionImportCurrent.metadata value))),
    (is_some (SessionMetadata.prospective_origin (SessionImportCurrent.metadata value))), (prospective_route (SessionImportCurrent.metadata value)),
    (SessionMetadata.workspace_resolution_kind (SessionImportCurrent.metadata value)), (SessionImportCurrent.access_decision value) as [[]|],
    (SessionImportCurrent.body_state value); cbn; intuition discriminate.
Qed.

Lemma permitted_queued kind origin restricted route access state :
  permitted kind origin restricted route access state = true ->
  (route = true -> origin = true) -> (origin = true -> restricted = true) ->
  permitted kind origin restricted route access SessionBodyState.Queued =
  negb (origin && (access ==? Some SessionAccessDecision.Revoked)
        || (kind !=? WorkspaceResolutionKind.Repository) && (access !=? Some SessionAccessDecision.Approved) && negb route).
Proof.
  destruct kind, origin, restricted, route, access as [[]|], state; cbn; intros; try done; exfalso; naive_solver.
Qed.

(** A body is queued for import exactly when it is neither queued nor being
    imported and the import is permitted: the session belongs to a repository, the
    user approved it, or a live route into a repository is open; and a session with
    an origin is not revoked.  The validation of the result adds nothing to that. *)
Theorem queued_iff old revision seq :
  SessionImportCurrent.validate old = Ok tt -> revision <> 0%N -> seq <> 0%N ->
  advance_body old revision SessionBodyState.Queued seq
  = Ok (SessionImportCurrent.set_body old revision SessionBodyState.Queued seq) <->
  SessionImportCurrent.active (SessionImportCurrent.body_state old) = false /\
  (SessionMetadata.workspace_resolution_kind (SessionImportCurrent.metadata old) = WorkspaceResolutionKind.Repository \/
   SessionImportCurrent.access_decision old = Some SessionAccessDecision.Approved \/
   prospective_route (SessionImportCurrent.metadata old) = true) /\
  (is_some (SessionMetadata.prospective_origin (SessionImportCurrent.metadata old)) = true ->
   SessionImportCurrent.access_decision old <> Some SessionAccessDecision.Revoked).
Proof.
  intros Hv Hr Hs. pose proof (proj1 (validate_permitted old) Hv) as ((Ht & Hi & _ & _) & Hm & Hp).
  assert (Hq : SessionImportCurrent.validate (SessionImportCurrent.set_body old revision SessionBodyState.Queued seq) = Ok tt <->
    permitted (SessionMetadata.workspace_resolution_kind (SessionImportCurrent.metadata old))
    (is_some (SessionMetadata.prospective_origin (SessionImportCurrent.metadata old)))
    (is_some (SessionMetadata.repository_read_restrictions (SessionImportCurrent.metadata old)))
    (prospective_route (SessionImportCurrent.metadata old))
    (SessionImportCurrent.access_decision old) SessionBodyState.Queued = true).
  { rewrite validate_permitted. cbn. tauto. }
  rewrite (permitted_queued _ _ _ _ _ _ Hp (route_origin _) (origin_restricted _ Hm)) in Hq.
  unfold advance_body. rewrite rbind_ok. setoid_rewrite rbind_ok. setoid_rewrite rbind_ok. setoid_rewrite guard_ok.
  rewrite (bool_decide_eq_true_2 (SessionBodyState.Queued = SessionBodyState.Queued)) by done. cbn [andb].
  split.
  - intros ([] & Ha & [] & Hg & _). split_and!.
    + by destruct (SessionImportCurrent.body_state old).
    + rewrite !orb_false_iff in Hg. destruct Hg as [_ Hg].
      destruct (SessionMetadata.workspace_resolution_kind _); [by left|..]; right;
        (destruct (SessionImportCurrent.access_decision old) as [[]|]; [by left|..]; right); by destruct (prospective_route _).
    + intros Ho E. rewrite Ho, E in Hg. done.
  - intros (Ha & Hperm & Hrev).
    assert (Hg : is_some (SessionMetadata.prospective_origin (SessionImportCurrent.metadata old))
                 && (SessionImportCurrent.access_decision old ==? Some SessionAccessDecision.Revoked)
                 || (SessionMetadata.workspace_resolution_kind (SessionImportCurrent.metadata old) !=? WorkspaceResolutionKind.Repository)
                    && (SessionImportCurrent.access_decision old !=? Some SessionAccessDecision.Approved)
                    && negb (prospective_route (SessionImportCurrent.metadata old)) = false).
    { apply orb_false_iff. split.
      - destruct (is_some (SessionMetadata.prospective_origin _)); [|done]. apply bool_decide_eq_false. auto.
      - destruct Hperm as [->|[->| ->]]; [done| |].
        + by rewrite andb_false_r.
        + by rewrite !andb_false_r. }
    exists tt. split; [by destruct (SessionImportCurrent.body_state old)|]. exists tt. split; [done|]. exists tt. split; [|done].
    apply Hq. by rewrite Hg.
Qed.

(** ** Scopes *)

Lemma metadata_ids meta :
  SessionMetadata.validate meta = Ok tt ->
  if SessionMetadata.workspace_resolution_kind meta ==? WorkspaceResolutionKind.Repository
  then is_some (SessionMetadata.resolved_repository_instance_id meta) = true /\ is_some (SessionMetadata.resolved_worktree_instance_id meta) = true
  else SessionMetadata.resolved_repository_instance_id meta = None /\ SessionMetadata.resolved_worktree_instance_id meta = None.
Proof.
  unfold SessionMetadata.validate. intros H. apply rbind_ok in H as ([] & _ & H). apply rbind_ok in H as ([] & _ & H).
  apply rbind_ok in H as ([] & _ & H). apply rbind_ok in H as ([] & _ & Hg%guard_ok).
  destruct (_ ==? WorkspaceResolutionKind.Repository), (SessionMetadata.resolved_repository_instance_id meta),
    (SessionMetadata.resolved_worktree_instance_id meta); done.
Qed.

Lemma session_scope_permitted value scope :
  SessionMetadata.validate (SessionImportCurrent.metadata value) = Ok tt ->
  SessionImportCurrent.session_scope value = Ok scope ->
  let meta := SessionImportCurrent.metadata value in
  match scope with
  | (Some repository, Some tree) =>
      SessionMetadata.workspace_resolution_kind meta = WorkspaceResolutionKind.Repository /\
      SessionMetadata.resolved_repository_instance_id meta = Some repository /\
      SessionMetadata.resolved_worktree_instance_id meta = Some tree /\
      repository ∈ SessionMetadata.read_restrictions meta /\
      (forall restrictions, SessionMetadata.repository_read_restrictions meta = Some restrictions -> repository ∈ restrictions)
  | (None, None) =>
      SessionMetadata.workspace_resolution_kind meta <> WorkspaceResolutionKind.Repository /\
      SessionImportCurrent.access_decision value = Some SessionAccessDecision.Approved
  | _ => False
  end.
Proof.
  intros Hm. unfold SessionImportCurrent.session_scope. cbv zeta.
  destruct (_ ==? WorkspaceResolutionKind.Repository) eqn:Hk.
  - intros [= <-]. pose proof (metadata_ids _ Hm) as Hi. rewrite Hk in Hi. apply bool_decide_eq_true in Hk.
    destruct (SessionMetadata.resolved_repository_instance_id _) as [r|] eqn:Hr; [|by destruct Hi].
    destruct (SessionMetadata.resolved_worktree_instance_id _) as [t|]; [|by destruct Hi]. split_and!; [done..| |].
    + unfold SessionMetadata.read_restrictions. rewrite Hr. apply elem_of_app. right. by left.
    + intros rs Hrs. by apply (metadata_restrictions_sorted _ _ Hm Hrs).
  - apply bool_decide_eq_false in Hk. destruct (_ ==? Some SessionAccessDecision.Approved) eqn:Ha; [|done].
    intros [= <-]. by apply bool_decide_eq_true in Ha.
Qed.

(** The range starts behind the fence of an open live route. *)
Definition live_route (meta : SessionMetadata) (start : N) (origin : ProspectiveSourceOrigin) (fence : N) : Prop :=
  SessionMetadata.prospective_origin meta = Some origin /\ ProspectiveSourceOrigin.closed origin = false /\
  ProspectiveSourceOrigin.record_start origin = Some fence /\ (fence <= start)%N.

Lemma origin_scope_permitted value origin snapshot worktree scope :
  SessionMetadata.validate (SessionImportCurrent.metadata value) = Ok tt ->
  SessionImportCurrent.origin_scope value origin snapshot worktree = Ok scope ->
  exists s w, snapshot = Some s /\ worktree = Some w /\
    scope = (Some (WorktreeInstance.repository_instance_id w), Some (WorktreeInstance.worktree_instance_id w)) /\
    WorktreeSnapshot.worktree_snapshot_id s = ProspectiveSourceOrigin.snapshot_ref origin /\
    WorktreeSnapshot.worktree_instance_id s = WorktreeInstance.worktree_instance_id w /\
    exists restrictions, SessionMetadata.repository_read_restrictions (SessionImportCurrent.metadata value) = Some restrictions /\
      WorktreeInstance.repository_instance_id w ∈ restrictions.
Proof.
  intros Hm H. unfold SessionImportCurrent.origin_scope in H. apply rbind_ok in H as (s & ->%ok_or_ok & H).
  apply rbind_ok in H as (w & ->%ok_or_ok & H). apply rbind_ok in H as ([] & Hg & [= <-]). apply guard_ok in Hg.
  rewrite !orb_false_iff, !negb_false_iff, !bool_decide_eq_true in Hg. destruct Hg as [[H1 H2] H3]. exists s, w. split_and!; try done.
  destruct (SessionMetadata.repository_read_restrictions _) as [rs|] eqn:Hrs; [|done]. exists rs. split; [done|].
  apply binary_search_ok_true; [|done]. by apply (metadata_restrictions_sorted _ _ Hm Hrs).
Qed.

(** C18: what is imported is permitted.  A range of a valid session that is given a
    scope is not empty, the session is not revoked, and the range does not straddle
    the fence.  When it starts behind the fence of an open live route, its scope is the
    repository and worktree of the worktree that the route's snapshot was taken of,
    the repository being one of the restrictions.  Otherwise its scope is that of the
    session itself: exactly the repository and the worktree it was resolved to, the
    repository being within the restrictions; or, for a session resolved to no
    repository, none, with the user's approval. *)
Theorem import_scope_permitted value range snapshot worktree scope :
  SessionImportCurrent.validate value = Ok tt ->
  SessionImportCurrent.import_scope value range snapshot worktree = Ok scope ->
  let meta := SessionImportCurrent.metadata value in
  let start := EvidenceByteRange.start range in
  let end_ := EvidenceByteRange.end_ range in
  (start < end_)%N /\ SessionImportCurrent.access_decision value <> Some SessionAccessDecision.Revoked /\
  (forall origin, SessionMetadata.prospective_origin meta = Some origin ->
     exists fence, ProspectiveSourceOrigin.record_start origin = Some fence /\ (end_ <= fence \/ fence <= start)%N) /\
  match scope with
  | (Some repository, Some tree) =>
      repository ∈ SessionMetadata.read_restrictions meta /\
      (forall restrictions, SessionMetadata.repository_read_restrictions meta = Some restrictions -> repository ∈ restrictions) /\
      ((exists origin fence s w, live_route meta start origin fence /\ snapshot = Some s /\ worktree = Some w /\
          WorktreeSnapshot.worktree_snapshot_id s = ProspectiveSourceOrigin.snapshot_ref origin /\
          WorktreeSnapshot.worktree_instance_id s = tree /\ WorktreeInstance.worktree_instance_id w = tree /\
          WorktreeInstance.repository_instance_id w = repository) \/
       (forall origin fence, ~ live_route meta start origin fence) /\
       SessionMetadata.workspace_resolution_kind meta = WorkspaceResolutionKind.Repository /\
       SessionMetadata.resolved_repository_instance_id meta = Some repository /\
       SessionMetadata.resolved_worktree_instance_id meta = Some tree)
  | (None, None) =>
      (forall origin fence, ~ live_route meta start origin fence) /\
      SessionMetadata.workspace_resolution_kind meta <> WorkspaceResolutionKind.Repository /\
      SessionImportCurrent.access_decision value = Some SessionAccessDecision.Approved
  | _ => False
  end.
Proof.
  intros Hv H meta start end_. subst meta start end_. pose proof (current_validate_metadata _ Hv) as Hm.
  unfold SessionImportCurrent.import_scope in H. apply rbind_ok in H as ([] & Hg & H). apply guard_ok in Hg.
  apply orb_false_iff in Hg as [Hlt%N.leb_gt Hrev%bool_decide_eq_false_1]. split; [done|]. split; [done|].
  set (meta := SessionImportCurrent.metadata value) in *.
  pose proof (session_scope_permitted value scope Hm) as Hsession. cbv zeta in Hsession. fold meta in Hsession.
  destruct (SessionMetadata.prospective_origin meta) as [origin|] eqn:Ho.
  - apply rbind_ok in H as (fence & Hf%ok_or_ok & H). apply rbind_ok in H as ([] & Hs%guard_ok & H).
    assert (Hside : (EvidenceByteRange.end_ range <= fence \/ fence <= EvidenceByteRange.start range)%N).
    { apply andb_false_iff in Hs as [?%N.ltb_ge|?%N.ltb_ge]; lia. }
    split; [by intros ? [= <-]; eauto|].
    destruct ((fence <=? EvidenceByteRange.start range)%N && negb (ProspectiveSourceOrigin.closed origin)) eqn:Hlive.
    + apply andb_true_iff in Hlive as [Hle%N.leb_le Hopen%negb_true_iff].
      destruct (origin_scope_permitted _ _ _ _ _ Hm H) as (s & w & -> & -> & -> & H1 & H2 & rs & Hrs & Hin). split_and!.
      * unfold SessionMetadata.read_restrictions. fold meta in Hrs. rewrite Hrs. apply elem_of_app. by left.
      * fold meta in Hrs. rewrite Hrs. by intros ? [= <-].
      * left. exists origin, fence, s, w. by split_and!.
    + assert (Hno : forall o f, ~ live_route meta (EvidenceByteRange.start range) o f).
      { intros o f (Ho' & Hc & Hf' & Hle%N.leb_le). rewrite Ho in Ho'. injection Ho' as <-. rewrite Hf in Hf'. injection Hf' as <-.
        by rewrite Hle, Hc in Hlive. }
      specialize (Hsession H). destruct scope as [[r|] [t|]]; try done. destruct_and! Hsession. split_and!; [done..|right; by split_and!].
  - split; [done|]. assert (Hno : forall o f, ~ live_route meta (EvidenceByteRange.start range) o f).
    { intros o f (Ho' & _). by rewrite Ho in Ho'. }
    specialize (Hsession H). destruct scope as [[r|] [t|]]; try done. destruct_and! Hsession. split_and!; [done..|right; by split_and!].
Qed.

(** ** The row of a session *)

Section rows.
Context `{L : UuidLib} `{J : SessionJson} `{JL : !SessionJsonLaws J}.

(** C?: the row written for a session restores it: every column that is checked
    when the row is read is the one written, and the text parses back. *)
Theorem session_row_round_trip value generation row :
  current_row value generation = Ok row ->
  restore_current row = Ok (Some value) /\
  ObjectRow.row_id row = session_import_row_id (SessionImportCurrent.source_key value) /\
  ObjectRow.projection_generation row = generation.
Proof.
  unfold current_row. intros H. apply rbind_ok in H as ([] & Hv & H). apply rbind_ok in H as (text & Ht%ok_or_ok & [= <-]).
  split_and!; [|done|done]. unfold restore_current.
  cbn -[SessionImportCurrent.validate RowPayload.from RowPayload.as_str pretty session_import_row_id].
  rewrite BlockFacts.as_str_from by by eapply session_to_string_text. cbn [ok_or rbind].
  rewrite (session_from_to _ _ Ht). cbn [ok_or rbind].
  rewrite !bool_decide_eq_true_2 by done. cbn [negb orb]. rewrite N.eqb_refl. cbn [negb orb guard rbind].
  rewrite Ht. cbn [ok_or rbind]. rewrite bool_decide_eq_true_2 by done. cbn [negb guard rbind]. by rewrite Hv.
Qed.
End rows.

(** ** Concrete sessions *)

Module Sessions.

Definition repository (n : N) : RepositoryId := mk_id (mk_uuid n).
Definition tree (n : N) : WorktreeId := mk_id (mk_uuid n).
Definition snapshot_id : WorktreeSnapshotId := mk_id (mk_uuid 5).

Definition fingerprint : string := of_bytes (replicate 64 "a"%byte).
Definition observed (size : N) (restrictions : option (list RepositoryId)) (origin : option ProspectiveSourceOrigin)
    : SessionMetadata :=
  SessionMetadata.mk "/home/user/.codex/sessions/rollout.jsonl" "codex_jsonl_v1" (Some 10%Z) None None None None None None
    WorkspaceResolutionKind.NonRepository None None restrictions origin size 20 fingerprint "revision-a" 1
    MetadataState.Indexed.

Definition event (revision : N) (kind : SessionImportEventKind) : SessionImportEvent :=
  SessionImportEvent.mk "abc" None revision (SessionImportEvent.predecessor_of revision) 30 kind.

Definition after (current : SessionImportCurrent) (e : SessionImportEvent) (seq : N) : SessionImportCurrent :=
  match apply_session_event (Some current) e seq with Ok next => next | Err _ => current end.

Definition live (start : option N) (closed : bool) := Some (ProspectiveSourceOrigin.mk snapshot_id 80 start closed).

(** Discovered without restrictions, then restricted, then more widely restricted. *)
Definition discovered : SessionImportCurrent :=
  SessionImportCurrent.mk "abc" None 1 (observed 1000 None None) None SessionBodyState.NotImported 7.
Definition restrict (revision : N) (ids : list RepositoryId) :=
  event revision (SessionImportEventKind.MetadataObserved (observed 1000 (Some ids) None)).
Definition restricted := after discovered (restrict 2 [repository 10]) 8.
Definition widened := after restricted (restrict 3 [repository 9; repository 10]) 9.

Lemma discovery : apply_session_event None
  (event 1 (SessionImportEventKind.MetadataObserved (observed 1000 None None))) 7 = Ok discovered.
Proof. vm_compute. reflexivity. Qed.

Lemma session_history_witness :
  SessionImportCurrent.revision widened = 3%N /\
  exists restrictions', SessionMetadata.repository_read_restrictions (SessionImportCurrent.metadata widened) = Some restrictions' /\
    [repository 10] ⊆ restrictions'.
Proof.
  destruct (session_history 1 restricted widened) as (_ & _ & Hr & _ & Hs).
  { econstructor; [|constructor]. exists (restrict 3 [repository 9; repository 10]), 9%N. vm_compute. reflexivity. }
  split; [exact Hr|]. by apply Hs.
Defined.

(** A session observed live: the fence is found, then the route is closed. *)
Definition observe (revision : N) (size : N) (origin : option ProspectiveSourceOrigin) :=
  event revision (SessionImportEventKind.MetadataObserved (observed size (Some [repository 10]) origin)).
Definition watched : SessionImportCurrent :=
  SessionImportCurrent.mk "abc" None 1 (observed 90 (Some [repository 10]) (live None false)) None SessionBodyState.NotImported 7.
Definition fenced := after watched (observe 2 1000 (live (Some 100%N) false)) 8.
Definition routed := after fenced (observe 3 1200 (live (Some 100%N) true)) 9.

Lemma fence_fixed_witness :
  exists origin', SessionMetadata.prospective_origin (SessionImportCurrent.metadata routed) = Some origin' /\
    origin_kept (ProspectiveSourceOrigin.mk snapshot_id 80 (Some 100%N) false) origin'.
Proof.
  apply (fence_fixed fenced routed); [|reflexivity]. eapply rtc_l; [|apply rtc_refl].
  split; [|reflexivity]. exists (observe 3 1200 (live (Some 100%N) true)), 9%N. vm_compute. reflexivity.
Defined.

Lemma queued_iff_witness :
  advance_body fenced 3 SessionBodyState.Queued 9 = Ok (SessionImportCurrent.set_body fenced 3 SessionBodyState.Queued 9).
Proof. apply queued_iff; [vm_compute; reflexivity|done..|]. split_and!; [reflexivity|right; right; reflexivity|done]. Defined.

(** A record behind the fence belongs where the route was opened. *)
Definition worktree : WorktreeInstance :=
  WorktreeInstance.mk (tree 22) 1 None (repository 10) WorktreeKind.Main WorktreeLifecycle.Active None [] []
    GitRegistrationState.Registered None "event" None None 15.
Definition snapshot : WorktreeSnapshot :=
  WorktreeSnapshot.mk snapshot_id (tree 22) None None None false None None None [] [] None GitOperation.None 15 []
    SnapshotCaptureStatus.Complete [].

Lemma import_scope_permitted_witness :
  SessionImportCurrent.import_scope fenced (EvidenceByteRange.mk 100 160) (Some snapshot) (Some worktree)
    = Ok (Some (repository 10), Some (tree 22)) /\
  repository 10 ∈ SessionMetadata.read_restrictions (SessionImportCurrent.metadata fenced).
Proof.
  assert (H : SessionImportCurrent.import_scope fenced (EvidenceByteRange.mk 100 160) (Some snapshot) (Some worktree)
    = Ok (Some (repository 10), Some (tree 22))) by (vm_compute; reflexivity).
  split; [exact H|]. apply import_scope_permitted in H as (_ & _ & _ & H & _); [exact H|vm_compute; reflexivity].
Defined.
End Sessions.
