(* ===== verification/Watermark.v ===== *)
(** * Source watermarks (crates/evertrace-store/src/projections.rs and command.rs)

    How far a source has been ingested.  The file of an external session is
    confirmed record by record: its watermark carries a digest chained over the
    confirmed byte ranges, and, when live observation began in the middle of the
    file, an earlier prefix that is filled in afterwards.  [apply_watermark] is the
    reduction of one watermark, with the checks of its transition.

    A watermark of a session's file stands for a tiling: the records confirmed so
    far, each byte by one receipt, the digest chained over them in order.  The
    index kept for admission is the one the projection would build. *)

From stdpp Require Import pretty.
From stdpp Require Import pretty strings.
From S2P Require Import Prelude Order Collections OrderedMap Text Canonical Ids Digests Lane Journal Attempt JournalRows Repository Evidence SessionImport.

(** [Option::filter]. *)
Definition opt_filter {A} (p : A -> bool) (o : option A) : option A :=
  match o with Some value => if p value then Some value else None | None => None end.

Module SourceImportEarlierPrefix.
Record SourceImportEarlierPrefix := mk {
  fence_byte : N;
  through_byte : N;
  digest : option string;
}.
#[export] Instance eq_dec : EqDecision SourceImportEarlierPrefix.
Proof. solve_decision. Defined.
End SourceImportEarlierPrefix.
Abbreviation SourceImportEarlierPrefix := SourceImportEarlierPrefix.SourceImportEarlierPrefix.
Export (hints) SourceImportEarlierPrefix.

(** [parts.len().to_string() + ":" + part], concatenated. *)
Definition length_key (parts : list string) : string :=
  foldr (fun part rest => pretty (str_len part) +:+ ":" +:+ part +:+ rest) EmptyString parts.

Module SourceIngestWatermark.
Record SourceIngestWatermark := mk {
  source_instance_id : SourceInstanceId;
  source_revision : SourceRevision;
  source_sequence : N;
  confirmed_prefix_digest : option string;
  earlier_prefix : option SourceImportEarlierPrefix;
}.
#[export] Instance eq_dec : EqDecision SourceIngestWatermark.
Proof. solve_decision. Defined.
Definition stable_key (self : SourceIngestWatermark) : string :=
  length_key [source_instance_id self; source_revision self].
End SourceIngestWatermark.
Abbreviation SourceIngestWatermark := SourceIngestWatermark.SourceIngestWatermark.
Export (hints) SourceIngestWatermark.

(** [digest.len() == 64] and lower-case hexadecimal. *)
Definition valid_prefix_digest (digest : string) : bool :=
  (str_len digest =? 64)%N && all is_hex (as_bytes digest).

Definition validate_confirmed_session_prefix (watermark : SourceIngestWatermark) : result StoreError bool :=
  let confirmed := SourceIngestWatermark.confirmed_prefix_digest watermark in
  let codex := is_session_import_source (SourceIngestWatermark.source_instance_id watermark) in
  do? guard (match confirmed with Some digest => negb (valid_prefix_digest digest) | None => false end)
        StoreError.StoreCorrupt in
  match codex, SourceIngestWatermark.earlier_prefix watermark with
  | false, None => do? guard (is_some confirmed) StoreError.StoreCorrupt in Ok false
  | false, Some _ => Err StoreError.StoreCorrupt
  | true, None => do? guard (is_none confirmed) StoreError.StoreCorrupt in Ok true
  | true, Some prefix =>
      let digest := SourceImportEarlierPrefix.digest prefix in
      let fence := SourceImportEarlierPrefix.fence_byte prefix in
      let through := SourceImportEarlierPrefix.through_byte prefix in
      do? guard ((fence <? through)%N
                 || (SourceIngestWatermark.source_sequence watermark <? fence)%N
                 || match digest with Some digest => negb (valid_prefix_digest digest) | None => false end
                 || xorb (through =? 0)%N (is_none digest)
                 || xorb (fence =? SourceIngestWatermark.source_sequence watermark)%N (is_none confirmed))
            StoreError.StoreCorrupt in
      Ok true
  end.

(** What the transition reads of the receipt of its command. *)
Section transition.
Context `{SHA : Sha256}.
Implicit Types watermark : SourceIngestWatermark.

Definition session_import_prefix_digest watermark (range : EvidenceByteRange) (previous : option string)
    (cas_ref : string) : result StoreError string :=
  let? digest := map_err (fun _ => StoreError.StoreCorrupt)
    (sha256 sha256_digest "session_import_confirmed_prefix" 1
       (Sequence [CString (SourceIngestWatermark.source_instance_id watermark);
                  CString (SourceIngestWatermark.source_revision watermark);
                  Integer (Z.of_N (EvidenceByteRange.start range));
                  Integer (Z.of_N (EvidenceByteRange.end_ range));
                  match previous with Some previous => CString previous | None => Null end;
                  CString cas_ref])) in
  Ok (hex digest).

(** The digest a range continues, and the digest it must lead to. *)
Definition expected_digests (source_is_current : bool) (origin : option ProspectiveSourceOrigin)
    (current : option SourceIngestWatermark) watermark (range : EvidenceByteRange)
  : result (fault StoreError) (option string * option string) :=
  let corrupt {A} : result (fault StoreError) A := Err (Raise StoreError.StoreCorrupt) in
  let start := EvidenceByteRange.start range in
  let end_ := EvidenceByteRange.end_ range in
  let sequence := SourceIngestWatermark.source_sequence watermark in
  let confirmed := SourceIngestWatermark.confirmed_prefix_digest watermark in
  let starts_at (fence : N) :=
    match origin with Some value => ProspectiveSourceOrigin.record_start value ==? Some fence | None => false end in
  match SourceIngestWatermark.earlier_prefix watermark,
        (current ≫= SourceIngestWatermark.earlier_prefix) with
  | None, None =>
      if is_some origin then corrupt
      else
        let? previous :=
          match current with
          | Some current =>
              do? guard (negb (start =? SourceIngestWatermark.source_sequence current)%N) (Raise StoreError.StoreCorrupt) in
              let? previous := ok_or (SourceIngestWatermark.confirmed_prefix_digest current) (Raise StoreError.StoreCorrupt) in
              Ok (Some previous)
          | None =>
              do? guard (negb (start =? 0)%N) (Raise StoreError.StoreCorrupt) in
              Ok None
          end in
        do? guard (negb (end_ =? sequence)%N) (Raise StoreError.StoreCorrupt) in
        Ok (previous, confirmed)
  | Some prefix, None =>
      let fence := SourceImportEarlierPrefix.fence_byte prefix in
      let through := SourceImportEarlierPrefix.through_byte prefix in
      if is_some current || negb source_is_current || negb (starts_at fence) then corrupt
      else if ((start =? fence) && (start <? end_))%N then
        if negb (through =? 0)%N || is_some (SourceImportEarlierPrefix.digest prefix) || negb (sequence =? end_)%N
        then corrupt else Ok (None, confirmed)
      else if ((start =? 0) && (end_ <=? fence))%N then
        if negb (sequence =? fence)%N || negb (through =? end_)%N || is_none (SourceImportEarlierPrefix.digest prefix)
           || is_some confirmed
        then corrupt else Ok (None, SourceImportEarlierPrefix.digest prefix)
      else corrupt
  | Some next_prefix, Some previous_prefix =>
      let fence := SourceImportEarlierPrefix.fence_byte previous_prefix in
      let through := SourceImportEarlierPrefix.through_byte previous_prefix in
      let next_through := SourceImportEarlierPrefix.through_byte next_prefix in
      if negb source_is_current || negb (starts_at fence)
         || negb (SourceImportEarlierPrefix.fence_byte next_prefix =? fence)%N
      then corrupt
      else
        let? current := ok_or current Panicked in
        let current_sequence := SourceIngestWatermark.source_sequence current in
        let current_confirmed := SourceIngestWatermark.confirmed_prefix_digest current in
        let suffix_advanced := (current_sequence <? sequence)%N in
        let prefix_advanced := (through <? next_through)%N in
        if Bool.eqb suffix_advanced prefix_advanced then corrupt
        else if suffix_advanced then
          if negb (start =? current_sequence)%N || (start <? fence)%N || negb (end_ =? sequence)%N
             || negb (next_through =? through)%N
             || (SourceImportEarlierPrefix.digest next_prefix !=? SourceImportEarlierPrefix.digest previous_prefix)
          then corrupt else Ok (current_confirmed, confirmed)
        else
          if negb (start =? through)%N || negb (end_ =? next_through)%N || (fence <? end_)%N
             || negb (sequence =? current_sequence)%N || (confirmed !=? current_confirmed)
          then corrupt
          else Ok (SourceImportEarlierPrefix.digest previous_prefix, SourceImportEarlierPrefix.digest next_prefix)
  | None, Some _ => corrupt
  end.

(** The comparison with the current watermark: [Some] when it is decided by it. *)
Definition compare_current (codex : bool) (current watermark : SourceIngestWatermark) (receipt : option SourceReceipt)
  : result StoreError (option unit) :=
  do? validate_confirmed_session_prefix current in
  do? guard ((SourceIngestWatermark.source_instance_id current !=? SourceIngestWatermark.source_instance_id watermark)
             || (SourceIngestWatermark.source_revision current !=? SourceIngestWatermark.source_revision watermark))
        StoreError.StoreCorrupt in
  let sequence := SourceIngestWatermark.source_sequence watermark in
  let current_sequence := SourceIngestWatermark.source_sequence current in
  let same := (watermark ==? current) && is_none receipt in
  if codex && (is_some (SourceIngestWatermark.earlier_prefix current) || is_some (SourceIngestWatermark.earlier_prefix watermark))
  then
    do? guard (sequence <? current_sequence)%N StoreError.StoreCorrupt in
    Ok (if same then Some tt else None)
  else
    match N.compare sequence current_sequence with
    | Lt => do? guard codex StoreError.StoreCorrupt in Ok None
    | Eq => if same then Ok (Some tt) else do? guard codex StoreError.StoreCorrupt in Ok None
    | Gt => Ok None
    end.

(** The checks of a watermark that advances, against its receipt. *)
Definition check_receipt (codex : bool) (current : option SourceIngestWatermark) watermark (receipt : SourceReceipt)
    (metadata : option SessionImportCurrent) : result (fault StoreError) unit :=
  do? guard ((SourceReceipt.source_instance_id receipt !=? SourceIngestWatermark.source_instance_id watermark)
             || (SourceReceipt.source_revision receipt !=? SourceIngestWatermark.source_revision watermark))
        (Raise StoreError.StoreCorrupt) in
  if negb codex then
    guard (negb (SourceReceipt.source_sequence receipt =? SourceIngestWatermark.source_sequence watermark)%N)
      (Raise StoreError.StoreCorrupt)
  else
    let? range := ok_or (SourceReceipt.source_byte_range receipt) (Raise StoreError.StoreCorrupt) in
    let start := EvidenceByteRange.start range in
    let end_ := EvidenceByteRange.end_ range in
    do? guard (negb (SourceReceipt.source_sequence receipt =? end_)%N || (end_ <=? start)%N)
          (Raise StoreError.StoreCorrupt) in
    let current_metadata :=
      opt_filter (fun value => SessionMetadata.source_revision (SessionImportCurrent.metadata value)
                               ==? SourceIngestWatermark.source_revision watermark) metadata in
    let origin := current_metadata ≫= (fun value => SessionMetadata.prospective_origin (SessionImportCurrent.metadata value)) in
    let? digests := expected_digests (is_some current_metadata) origin current watermark range in
    let? digest := map_err Raise (session_import_prefix_digest watermark range digests.1 (SourceReceipt.cas_ref receipt)) in
    guard (digests.2 !=? Some digest) (Raise StoreError.StoreCorrupt).

Definition validate_source_ingest_watermark_transition (current : option SourceIngestWatermark) watermark
    (receipt : option SourceReceipt) (metadata : option SessionImportCurrent) : result (fault StoreError) unit :=
  let? codex := map_err Raise (validate_confirmed_session_prefix watermark) in
  let? decided := match current with
                  | Some current => map_err Raise (compare_current codex current watermark receipt)
                  | None => Ok None
                  end in
  match decided with
  | Some _ => Ok tt
  | None =>
      let? receipt := ok_or receipt (Raise StoreError.StoreCorrupt) in
      check_receipt codex current watermark receipt metadata
  end.

Definition session_import_current_for_source (current : list (string * SessionImportCurrent)) (source : string)
  : option SessionImportCurrent :=
  let key := default source (strip_prefix source "codex-session:") in
  opt_filter (fun value => SessionImportCurrent.source_instance value ==? source) (bmap_get key current).

Definition validate_split_receipt_scope watermark (receipt : option SourceReceipt) (current : option SessionImportCurrent)
    (snapshots : list (WorktreeSnapshotId * WorktreeSnapshot)) (worktrees : list (WorktreeId * WorktreeInstance))
  : result StoreError unit :=
  match receipt, SourceIngestWatermark.earlier_prefix watermark with
  | Some receipt, Some _ =>
      let? current := ok_or (opt_filter (fun value =>
        SessionMetadata.source_revision (SessionImportCurrent.metadata value) ==? SourceIngestWatermark.source_revision watermark)
        current) StoreError.StoreCorrupt in
      let snapshot := SessionMetadata.prospective_origin (SessionImportCurrent.metadata current)
        ≫= (fun origin => bmap_get (ProspectiveSourceOrigin.snapshot_ref origin) snapshots) in
      let worktree := snapshot ≫= (fun value => bmap_get (WorktreeSnapshot.worktree_instance_id value) worktrees) in
      let? range := ok_or (SourceReceipt.source_byte_range receipt) StoreError.StoreCorrupt in
      let? scope := map_err (fun _ => StoreError.StoreCorrupt) (SessionImportCurrent.import_scope current range snapshot worktree) in
      guard ((SourceReceipt.repository_instance_id receipt, SourceReceipt.worktree_instance_id receipt) !=? scope)
        StoreError.StoreCorrupt
  | _, _ => Ok tt
  end.

(** [let mut receipt = None; for row in command ..]: the one receipt of the source
    among the receipts of the command. *)
Definition receipt_of watermark (receipts : list SourceReceipt) : result StoreError (option SourceReceipt) :=
  match List.filter (fun value =>
          (SourceReceipt.source_instance_id value ==? SourceIngestWatermark.source_instance_id watermark)
          && (SourceReceipt.source_revision value ==? SourceIngestWatermark.source_revision watermark)) receipts with
  | [] => Ok None
  | [receipt] => Ok (Some receipt)
  | _ => Err StoreError.StoreCorrupt
  end.

(** What of the reducer the check reads. *)
Record WatermarkState := mk_watermark_state {
  source_watermarks : list (string * (SourceIngestWatermark * N));
  session_imports : list (string * SessionImportCurrent);
  worktree_snapshots : list (WorktreeSnapshotId * WorktreeSnapshot);
  worktrees : list (WorktreeId * WorktreeInstance);
}.

Definition validate_source_ingest_watermark (state : WatermarkState) watermark (receipts : list SourceReceipt)
  : result (fault StoreError) unit :=
  let current := fst <$> bmap_get (SourceIngestWatermark.stable_key watermark) (source_watermarks state) in
  let? receipt := map_err Raise (receipt_of watermark receipts) in
  let metadata := session_import_current_for_source (session_imports state) (SourceIngestWatermark.source_instance_id watermark) in
  do? map_err Raise (validate_split_receipt_scope watermark receipt metadata (worktree_snapshots state) (worktrees state)) in
  validate_source_ingest_watermark_transition current watermark receipt metadata.

(** The reduction of [SourceIngestWatermark] in [apply_event]. *)
Definition apply_watermark (state : WatermarkState) watermark (receipts : list SourceReceipt) (seq : N)
  : result (fault StoreError) WatermarkState :=
  do? validate_source_ingest_watermark state watermark receipts in
  let key := SourceIngestWatermark.stable_key watermark in
  let replace := match bmap_get key (source_watermarks state) with
    | Some (current, _) => (current !=? watermark)
        && (SourceIngestWatermark.source_sequence current <=? SourceIngestWatermark.source_sequence watermark)%N
    | None => true
    end in
  Ok (if replace
      then mk_watermark_state (bmap_insert key (watermark, seq) (source_watermarks state)) (session_imports state)
             (worktree_snapshots state) (worktrees state)
      else state).
End transition.

(** ** The index of the admission state *)

Module SourceWatermarks.
Record SourceWatermarks := mk {
  highest_revision : string;
  revisions : list (string * SourceIngestWatermark);
}.
End SourceWatermarks.
Abbreviation SourceWatermarks := SourceWatermarks.SourceWatermarks.

(** Whether a watermark is higher than the one of the highest revision. *)
Definition higher (old value : SourceIngestWatermark) : bool :=
  let old_sequence := SourceIngestWatermark.source_sequence old in
  let sequence := SourceIngestWatermark.source_sequence value in
  let old_confirmed := is_some (SourceIngestWatermark.confirmed_prefix_digest old) in
  let confirmed := is_some (SourceIngestWatermark.confirmed_prefix_digest value) in
  (old_sequence <? sequence)%N
  || (old_sequence =? sequence)%N && negb old_confirmed && confirmed
  || (old_sequence =? sequence)%N && Bool.eqb old_confirmed confirmed
     && ltb_ord (SourceIngestWatermark.stable_key value) (SourceIngestWatermark.stable_key old).

Definition record_source_watermark (watermarks : list (string * SourceWatermarks)) (value : SourceIngestWatermark)
  : list (string * SourceWatermarks) :=
  if negb (is_session_import_source (SourceIngestWatermark.source_instance_id value)) then watermarks
  else
    bmap_alter (fun state =>
      let state := default (SourceWatermarks.mk (SourceIngestWatermark.source_revision value) []) state in
      let highest := match bmap_get (SourceWatermarks.highest_revision state) (SourceWatermarks.revisions state) with
        | Some old => if higher old value then SourceIngestWatermark.source_revision value
                      else SourceWatermarks.highest_revision state
        | None => SourceIngestWatermark.source_revision value
        end in
      SourceWatermarks.mk highest
        (bmap_insert (SourceIngestWatermark.source_revision value) value (SourceWatermarks.revisions state)))
      (SourceIngestWatermark.source_instance_id value) watermarks.

(** ** Lemmas and theorems *)

Section tiles.
Context `{SHA : Sha256}.
Implicit Types w : SourceIngestWatermark.

Definition session_source w : bool := is_session_import_source (SourceIngestWatermark.source_instance_id w).
Definition same_source w w' : Prop :=
  SourceIngestWatermark.source_instance_id w = SourceIngestWatermark.source_instance_id w' /\
  SourceIngestWatermark.source_revision w = SourceIngestWatermark.source_revision w'.

(** The receipts confirm the bytes from [from] to [until] in order, and the digest
    is chained over them. *)
Inductive tiled w (from : N) : N -> list SourceReceipt -> option string -> Prop :=
| tiled_nil : tiled w from from [] None
| tiled_snoc until receipts digest r range next :
    tiled w from until receipts digest ->
    SourceReceipt.source_byte_range r = Some range ->
    EvidenceByteRange.start range = until -> (until < EvidenceByteRange.end_ range)%N ->
    session_import_prefix_digest w range digest (SourceReceipt.cas_ref r) = Ok next ->
    tiled w from (EvidenceByteRange.end_ range) (receipts ++ [r]) (Some next).

Lemma tiled_same w w' from until receipts digest :
  same_source w w' -> tiled w from until receipts digest -> tiled w' from until receipts digest.
Proof.
  intros [Hi Hr]. induction 1 as [|? ? ? r range next Ht IH Hb Hs Hlt Hd]; [constructor|].
  econstructor; [done..|]. rewrite <-Hd. unfold session_import_prefix_digest. by rewrite Hi, Hr.
Qed.

Lemma tiled_le w from until receipts digest : tiled w from until receipts digest -> (from <= until)%N.
Proof. induction 1; lia. Qed.

Lemma tiled_digest w from until receipts digest :
  tiled w from until receipts digest -> (is_some digest = false <-> from = until).
Proof. destruct 1 as [|? ? ? ? ? ? Ht]; [done|]. pose proof (tiled_le _ _ _ _ _ Ht). cbn. split; [done|lia]. Qed.

(** What the receipts confirmed so far are to the watermark. *)
Definition confirmed_by w (receipts : list SourceReceipt) : Prop :=
  exists earlier later, receipts ≡ₚ earlier ++ later /\
  match SourceIngestWatermark.earlier_prefix w with
  | None =>
      earlier = [] /\ tiled w 0 (SourceIngestWatermark.source_sequence w) later (SourceIngestWatermark.confirmed_prefix_digest w)
  | Some prefix =>
      (SourceImportEarlierPrefix.through_byte prefix <= SourceImportEarlierPrefix.fence_byte prefix)%N /\
      tiled w 0 (SourceImportEarlierPrefix.through_byte prefix) earlier (SourceImportEarlierPrefix.digest prefix) /\
      tiled w (SourceImportEarlierPrefix.fence_byte prefix) (SourceIngestWatermark.source_sequence w) later
        (SourceIngestWatermark.confirmed_prefix_digest w)
  end.

(** ** One watermark *)

Lemma check_receipt_ok current w r metadata :
  check_receipt true current w r metadata = Ok tt ->
  exists range source_is_current origin digests digest,
    SourceReceipt.source_byte_range r = Some range /\
    (EvidenceByteRange.start range < EvidenceByteRange.end_ range)%N /\
    expected_digests source_is_current origin current w range = Ok digests /\
    session_import_prefix_digest w range digests.1 (SourceReceipt.cas_ref r) = Ok digest /\ digests.2 = Some digest.
Proof.
  unfold check_receipt. intros H. apply rbind_ok in H as ([] & _ & H). cbn [negb] in H.
  apply rbind_ok in H as (range & Hr%ok_or_ok & H). apply rbind_ok in H as ([] & Hg%guard_ok & H).
  apply orb_false_iff in Hg as [_ Hlt%N.leb_gt]. apply rbind_ok in H as (digests & Hd & H).
  apply rbind_ok in H as (digest & Hs & H). apply guard_ok, negb_false_iff, bool_decide_eq_true_1 in H.
  apply map_err_ok in Hs. eauto 10.
Qed.

Lemma tiled_first w range r digest from :
  SourceReceipt.source_byte_range r = Some range -> EvidenceByteRange.start range = from ->
  (EvidenceByteRange.start range < EvidenceByteRange.end_ range)%N ->
  session_import_prefix_digest w range None (SourceReceipt.cas_ref r) = Ok digest ->
  tiled w from (EvidenceByteRange.end_ range) [r] (Some digest).
Proof. intros Hr <- Hlt Hd. by apply (tiled_snoc w _ (EvidenceByteRange.start range) [] None r range digest); [constructor|..]. Qed.

(** The receipt of an accepted watermark extends one of the two tilings. *)
Lemma confirmed_first w r metadata :
  check_receipt true None w r metadata = Ok tt -> confirmed_by w [r].
Proof.
  intros H. apply check_receipt_ok in H as (range & cur & origin & digests & digest & Hr & Hlt & Hd & Hs & He).
  unfold expected_digests in Hd. unfold confirmed_by. cbn in Hd.
  destruct (SourceIngestWatermark.earlier_prefix w) as [p|].
  - destruct (_ || _); [done|].
    destruct ((_ =? _) && _)%N eqn:Hc in Hd; [|destruct ((_ =? 0) && _)%N eqn:Hc' in Hd; [|done]].
    + apply andb_true_iff in Hc as [Hc%N.eqb_eq _]. destruct (_ || _) eqn:Hg in Hd; [done|]. injection Hd as <-.
      rewrite !orb_false_iff, !negb_false_iff, !N.eqb_eq in Hg. destruct Hg as [[H1 H2] H3]. cbn in Hs, He.
      destruct (SourceImportEarlierPrefix.digest p); [done|].
      exists [], [r]. split; [done|]. rewrite H1, H3, He. split_and!; [lia|constructor|]. by apply tiled_first.
    + apply andb_true_iff in Hc' as [Hc'%N.eqb_eq Hle%N.leb_le]. destruct (_ || _) eqn:Hg in Hd; [done|]. injection Hd as <-.
      rewrite !orb_false_iff, !negb_false_iff, !N.eqb_eq in Hg. destruct Hg as [[[H1 H2] H3] H4]. cbn in Hs, He.
      destruct (SourceIngestWatermark.confirmed_prefix_digest w); [done|].
      exists [r], []. split; [done|]. rewrite H1, H2, He. split_and!; [done|by apply tiled_first|constructor].
  - destruct (is_some origin); [done|]. apply rbind_ok in Hd as (? & Hp & Hd).
    apply rbind_ok in Hp as ([] & Hz%guard_ok%negb_false_iff%N.eqb_eq & [= <-]).
    apply rbind_ok in Hd as ([] & Hz'%guard_ok%negb_false_iff%N.eqb_eq & [= <-]). cbn in Hs, He.
    exists [], [r]. split_and!; [done..|]. rewrite He, <-Hz'. by apply tiled_first.
Qed.

Lemma confirmed_next current w r metadata receipts :
  same_source current w -> confirmed_by current receipts ->
  check_receipt true (Some current) w r metadata = Ok tt ->
  confirmed_by w (receipts ++ [r]) /\ current <> w /\
  (SourceIngestWatermark.source_sequence current <= SourceIngestWatermark.source_sequence w)%N /\
  (SourceIngestWatermark.source_sequence current = SourceIngestWatermark.source_sequence w ->
   SourceIngestWatermark.confirmed_prefix_digest current = SourceIngestWatermark.confirmed_prefix_digest w).
Proof.
  intros Hsame (earlier & later & Hperm & Hcur) H.
  apply check_receipt_ok in H as (range & cur & origin & digests & digest & Hr & Hlt & Hd & Hs & He).
  unfold expected_digests in Hd. unfold confirmed_by. cbn in Hd.
  assert (Hext : forall l from until d, tiled current from until l d -> EvidenceByteRange.start range = until ->
    session_import_prefix_digest w range d (SourceReceipt.cas_ref r) = Ok digest ->
    tiled w from (EvidenceByteRange.end_ range) (l ++ [r]) (Some digest)).
  { intros l from until d Ht Hu Hd'. eapply tiled_snoc; [by eapply tiled_same|done..|by rewrite <-Hu|done]. }
  destruct (SourceIngestWatermark.earlier_prefix w) as [p|] eqn:Hw,
    (SourceIngestWatermark.earlier_prefix current) as [q|] eqn:Hq; try done.
  - destruct Hcur as (Hle & He1 & He2). destruct (_ || _) eqn:Hg in Hd; [done|].
    rewrite !orb_false_iff, !negb_false_iff, !N.eqb_eq in Hg. destruct Hg as [_ Hf].
    destruct (Bool.eqb _ _) eqn:Hb in Hd; [done|]. destruct (_ <? _)%N eqn:Hadv in Hd.
    + destruct (_ || _) eqn:Hg in Hd; [done|]. injection Hd as <-.
      rewrite !orb_false_iff, !negb_false_iff, !N.eqb_eq in Hg. destruct Hg as [[[[H1 H2] H3] H4] H5%bool_decide_eq_true_1].
      cbn in Hs, He. apply N.ltb_lt in Hadv. split_and!; [|by intros ->; lia|lia|lia].
      exists earlier, (later ++ [r]). split; [by rewrite Hperm, app_assoc|].
      rewrite He, <-H3, H4, H5, Hf. split_and!; [done|by eapply tiled_same|by eapply Hext].
    + destruct (_ || _) eqn:Hg in Hd; [done|]. injection Hd as <-.
      rewrite !orb_false_iff, !negb_false_iff, !N.eqb_eq in Hg. destruct Hg as [[[[H1 H2] H3%N.ltb_ge] H4] H5%bool_decide_eq_true_1].
      cbn in Hs, He. split_and!; [|intros ->; rewrite Hw in Hq; injection Hq as ->; lia|lia|done].
      exists (earlier ++ [r]), later. split; [by rewrite Hperm, <-!app_assoc, (Permutation_app_comm later)|].
      rewrite He, <-H2, H4, H5, Hf. split_and!; [done|by eapply Hext|by eapply tiled_same].
  - destruct Hcur as [-> Ht]. destruct (is_some origin); [done|]. apply rbind_ok in Hd as (? & Hp & Hd).
    apply rbind_ok in Hp as ([] & Hz%guard_ok%negb_false_iff%N.eqb_eq & Hp). apply rbind_ok in Hp as (? & Hc%ok_or_ok & [= <-]).
    apply rbind_ok in Hd as ([] & Hz'%guard_ok%negb_false_iff%N.eqb_eq & [= <-]). cbn in Hs, He.
    split_and!; [|by intros ->; lia|lia|lia]. exists [], (later ++ [r]). split; [by rewrite Hperm|]. split; [done|].
    rewrite He, <-Hz'. eapply Hext; [done..|]. by rewrite Hc.
Qed.

(** ** Histories of a store *)

#[local] Instance same_source_dec w w' : Decision (same_source w w').
Proof. unfold same_source. apply _. Defined.

Lemma same_source_key w w' : same_source w w' -> SourceIngestWatermark.stable_key w = SourceIngestWatermark.stable_key w'.
Proof. intros [Hi Hr]. unfold SourceIngestWatermark.stable_key. by rewrite Hi, Hr. Qed.
Lemma same_source_session w w' : same_source w w' -> session_source w = session_source w'.
Proof. intros [Hi _]. unfold session_source. by rewrite Hi. Qed.
#[local] Instance same_source_equiv : Equivalence same_source.
Proof. unfold same_source. split; red; intuition congruence. Qed.

(** A watermark and the receipts of its command. *)
Abbreviation entry := (SourceIngestWatermark * list SourceReceipt)%type.
Implicit Types h : list entry.

(** The watermarks that were reduced, from an empty store; everything else of the
    state, the sessions included, changes freely in between. *)
Inductive ingested : list entry -> WatermarkState -> Prop :=
| ingested_empty s : source_watermarks s = [] -> ingested [] s
| ingested_watermark h s w receipts seq s' :
    ingested h s -> apply_watermark s w receipts seq = Ok s' -> ingested (h ++ [(w, receipts)]) s'
| ingested_other h s s' : ingested h s -> source_watermarks s' = source_watermarks s -> ingested h s'.

Definition entry_receipt (e : entry) : option SourceReceipt :=
  match receipt_of e.1 e.2 with Ok receipt => receipt | Err _ => None end.
(** The receipts that were confirmed for the source of a watermark. *)
Definition receipts_for w h : list SourceReceipt := omap entry_receipt (filter (fun e => same_source e.1 w) h).

Lemma receipts_for_same w w' h : same_source w w' -> receipts_for w h = receipts_for w' h.
Proof.
  intros Hs. unfold receipts_for. f_equal. apply list_filter_iff. intros e. by rewrite Hs.
Qed.

Lemma receipts_for_snoc w h w' receipts :
  receipts_for w (h ++ [(w', receipts)]) =
  receipts_for w h ++ (if decide (same_source w' w) then option_list (entry_receipt (w', receipts)) else []).
Proof.
  unfold receipts_for. rewrite filter_app, omap_app, filter_cons. cbn.
  destruct (decide (same_source w' w)); [|done]. cbn. by destruct (entry_receipt _).
Qed.

Definition current_of (s : WatermarkState) w : option SourceIngestWatermark :=
  fst <$> bmap_get (SourceIngestWatermark.stable_key w) (source_watermarks s).

(** What one reduction does. *)
Lemma apply_watermark_cases s w receipts seq s' :
  apply_watermark s w receipts seq = Ok s' ->
  exists receipt metadata,
    receipt_of w receipts = Ok receipt /\
    validate_source_ingest_watermark_transition (current_of s w) w receipt metadata = Ok tt /\
    source_watermarks s' =
      if match current_of s w with
         | Some current => (current !=? w)
             && (SourceIngestWatermark.source_sequence current <=? SourceIngestWatermark.source_sequence w)%N
         | None => true
         end
      then bmap_insert (SourceIngestWatermark.stable_key w) (w, seq) (source_watermarks s) else source_watermarks s.
Proof.
  unfold apply_watermark, validate_source_ingest_watermark, current_of. intros H.
  apply rbind_ok in H as ([] & H & [= <-]). apply rbind_ok in H as (receipt & Hr%map_err_ok & H).
  apply rbind_ok in H as ([] & _ & H). eexists receipt, _. split_and!; [done|exact H|].
  destruct (bmap_get _ _) as [[c n]|]; cbn; [|done]. by destruct (_ && _).
Qed.

Lemma transition_same current w receipt metadata :
  validate_source_ingest_watermark_transition (Some current) w receipt metadata = Ok tt -> same_source current w.
Proof.
  unfold validate_source_ingest_watermark_transition. intros H. apply rbind_ok in H as (codex & _ & H).
  apply rbind_ok in H as (decided & Hc%map_err_ok & _). unfold compare_current in Hc.
  apply rbind_ok in Hc as (? & _ & Hc). apply rbind_ok in Hc as ([] & Hg%guard_ok & _).
  rewrite orb_false_iff, !negb_false_iff, !bool_decide_eq_true in Hg. exact Hg.
Qed.

Lemma prefix_codex w codex : validate_confirmed_session_prefix w = Ok codex -> codex = session_source w.
Proof.
  unfold validate_confirmed_session_prefix, session_source. intros H. apply rbind_ok in H as ([] & _ & H).
  destruct (is_session_import_source _), (SourceIngestWatermark.earlier_prefix w);
    try (apply rbind_ok in H as ([] & _ & H)); try done; by injection H as <-.
Qed.

(** For a session: nothing new without a receipt; with one, the checks passed. *)
Lemma transition_session current w receipt metadata :
  session_source w = true ->
  validate_source_ingest_watermark_transition current w receipt metadata = Ok tt ->
  match receipt with
  | None => current = Some w
  | Some r => check_receipt true current w r metadata = Ok tt
  end.
Proof.
  intros Hw H. unfold validate_source_ingest_watermark_transition in H.
  apply rbind_ok in H as (codex & ->%map_err_ok%prefix_codex & H). rewrite Hw in H.
  apply rbind_ok in H as (decided & Hd & H).
  assert (Hsome : is_some decided = true -> receipt = None /\ current = Some w).
  { destruct current as [c|]; [|by injection Hd as <-]. apply map_err_ok in Hd. unfold compare_current in Hd.
    apply rbind_ok in Hd as (? & _ & Hd). apply rbind_ok in Hd as (? & _ & Hd).
    assert (Hsame : (w ==? c) && is_none receipt = true -> receipt = None /\ Some c = Some w).
    { intros [->%bool_decide_eq_true_1 Hn]%andb_true_iff. by destruct receipt. }
    destruct (true && _).
    - apply rbind_ok in Hd as (? & _ & [= <-]). by destruct (_ && _).
    - destruct (N.compare _ _); [|by apply rbind_ok in Hd as (? & _ & [= <-])|by injection Hd as <-].
      destruct (_ && _); [by injection Hd as <-; auto|by apply rbind_ok in Hd as (? & _ & [= <-])]. }
  destruct decided as [[]|]; [by destruct Hsome as [-> ->]|].
  apply rbind_ok in H as (r & ->%ok_or_ok & H). exact H.
Qed.

(** The invariant of a store. *)
Definition store_confirmed h (s : WatermarkState) : Prop :=
  bmap_sorted (source_watermarks s) /\
  (forall key w seq, bmap_get key (source_watermarks s) = Some (w, seq) ->
     SourceIngestWatermark.stable_key w = key /\ (session_source w = true -> confirmed_by w (receipts_for w h))) /\
  (forall w, bmap_get (SourceIngestWatermark.stable_key w) (source_watermarks s) = None ->
     filter (fun e => same_source e.1 w) h = []).

Lemma current_of_key s w key seq :
  bmap_get key (source_watermarks s) = Some (w, seq) -> SourceIngestWatermark.stable_key w = key -> current_of s w = Some w.
Proof. intros H <-. unfold current_of. by rewrite H. Qed.

(** How a reduction accepts the watermark of a session. *)
Lemma session_step h s w receipts seq s' :
  store_confirmed h s -> apply_watermark s w receipts seq = Ok s' -> session_source w = true ->
  confirmed_by w (receipts_for w (h ++ [(w, receipts)])) /\
  (exists n, bmap_get (SourceIngestWatermark.stable_key w) (source_watermarks s') = Some (w, n)) /\
  forall current, current_of s w = Some current ->
    (SourceIngestWatermark.source_sequence current <= SourceIngestWatermark.source_sequence w)%N /\
    (SourceIngestWatermark.source_sequence current = SourceIngestWatermark.source_sequence w ->
     SourceIngestWatermark.confirmed_prefix_digest current = SourceIngestWatermark.confirmed_prefix_digest w).
Proof.
  intros (Hsorted & Hsome & Hnone) H Hw. apply apply_watermark_cases in H as (receipt & metadata & Hr & Ht & Hs').
  pose proof (transition_session _ _ _ _ Hw Ht) as Hc. rewrite receipts_for_snoc, decide_True by done.
  unfold entry_receipt. cbn. rewrite Hr, Hs'. destruct (current_of s w) as [c|] eqn:Ec.
  - pose proof (transition_same _ _ _ _ Ht) as Hsame. unfold current_of in Ec.
    destruct (bmap_get _ (source_watermarks s)) as [[c' n]|] eqn:Eg; [|done]. injection Ec as ->.
    destruct (Hsome _ _ _ Eg) as [_ Hconf]. rewrite (same_source_session _ _ Hsame) in Hconf.
    specialize (Hconf Hw). rewrite (receipts_for_same _ _ _ Hsame) in Hconf.
    destruct receipt as [r|].
    + destruct (confirmed_next _ _ _ _ _ Hsame Hconf Hc) as (H1 & H2 & H3 & H4). split_and!; [done| |by intros ? [= <-]].
      exists seq. rewrite bool_decide_eq_false_2 by done. apply N.leb_le in H3. rewrite H3. by apply bmap_get_alter_eq.
    + injection Hc as ->. split_and!; [by rewrite app_nil_r| |by intros ? [= <-]].
      exists n. by rewrite bool_decide_eq_true_2.
  - unfold current_of in Ec. destruct (bmap_get _ (source_watermarks s)) eqn:Eg; [done|].
    destruct receipt as [r|]; [|done]. unfold receipts_for. rewrite (Hnone w Eg). cbn.
    split_and!; [by eapply confirmed_first| |done]. exists seq. by apply bmap_get_alter_eq.
Qed.

Lemma ingested_confirmed h s : ingested h s -> store_confirmed h s.
Proof.
  induction 1 as [s He|h s w receipts seq s' Hi IH H|h s s' Hi IH He].
  - unfold store_confirmed. rewrite He. split_and!; [constructor|done|done].
  - pose proof (session_step _ _ _ _ _ _ IH H) as Hw. destruct IH as (Hsorted & Hsome & Hnone).
    apply apply_watermark_cases in H as (receipt & metadata & Hr & Ht & Hs').
    assert (Hget : forall key, key <> SourceIngestWatermark.stable_key w ->
      bmap_get key (source_watermarks s') = bmap_get key (source_watermarks s)).
    { intros key Hne. rewrite Hs'. destruct (match current_of s w with Some _ => _ | None => _ end); [|done].
      by apply bmap_get_alter_ne. }
    assert (Hother : forall w', SourceIngestWatermark.stable_key w' <> SourceIngestWatermark.stable_key w -> ~ same_source w w').
    { intros w' Hne Hs. by apply Hne, same_source_key. }
    split_and!.
    + rewrite Hs'. destruct (match current_of s w with Some _ => _ | None => _ end); [|done]. by apply bmap_alter_sorted.
    + intros key v n Hv. destruct (decide (key = SourceIngestWatermark.stable_key w)) as [->|Hne].
      * assert (Hv' : v = w \/ bmap_get (SourceIngestWatermark.stable_key w) (source_watermarks s) = Some (v, n)).
        { rewrite Hs' in Hv. destruct (match current_of s w with Some _ => _ | None => _ end); [|by right].
          unfold bmap_insert in Hv. rewrite bmap_get_alter_eq in Hv by done. left. congruence. }
        destruct (session_source w) eqn:Esw.
        -- destruct (Hw eq_refl) as (Hconf & (n' & Hn') & _). rewrite Hn' in Hv. injection Hv as <- <-. done.
        -- destruct Hv' as [->|Hv']; [split; [done|congruence]|]. destruct (Hsome _ _ _ Hv') as [Hk _]. split; [done|].
           assert (Hc : current_of s w = Some v) by (unfold current_of; by rewrite Hv'). rewrite Hc in Ht.
           apply transition_same, same_source_session in Ht. congruence.
      * rewrite Hget in Hv by done. destruct (Hsome _ _ _ Hv) as [Hk Hconf]. split; [done|].
        rewrite receipts_for_snoc, decide_False, app_nil_r by (apply Hother; congruence). done.
    + intros w' Hn. assert (Hne : SourceIngestWatermark.stable_key w' <> SourceIngestWatermark.stable_key w).
      { intros E. rewrite E, Hs' in Hn. destruct (current_of s w) eqn:Ec.
        - destruct (_ && _) in Hn; [unfold bmap_insert in Hn; by rewrite bmap_get_alter_eq in Hn|].
          unfold current_of in Ec. by rewrite Hn in Ec.
        - unfold bmap_insert in Hn. by rewrite bmap_get_alter_eq in Hn. }
      rewrite Hget in Hn by done. rewrite filter_app, (Hnone _ Hn), filter_cons_False by by apply Hother. done.
  - unfold store_confirmed. rewrite He. exact IH.
Qed.

(** ** What is confirmed *)

Definition covers (b : N) (r : SourceReceipt) : bool :=
  match SourceReceipt.source_byte_range r with
  | Some range => (EvidenceByteRange.start range <=? b)%N && (b <? EvidenceByteRange.end_ range)%N
  | None => false
  end.

(** Whether a byte lies in what the watermark says is confirmed. *)
Definition confirmed_byte w (b : N) : bool :=
  match SourceIngestWatermark.earlier_prefix w with
  | None => (b <? SourceIngestWatermark.source_sequence w)%N
  | Some prefix =>
      (b <? SourceImportEarlierPrefix.through_byte prefix)%N
      || (SourceImportEarlierPrefix.fence_byte prefix <=? b)%N && (b <? SourceIngestWatermark.source_sequence w)%N
  end.

Definition times (b : N) (receipts : list SourceReceipt) : nat := length (List.filter (covers b) receipts).

Lemma times_app b l1 l2 : times b (l1 ++ l2) = (times b l1 + times b l2)%nat.
Proof. unfold times. by rewrite List.filter_app, length_app. Qed.
Lemma times_perm b l1 l2 : l1 ≡ₚ l2 -> times b l1 = times b l2.
Proof. induction 1 as [|x ? ? ? IH|x y|]; unfold times in *; cbn; [done| | |congruence]; repeat destruct (covers _ _); cbn; congruence. Qed.

Lemma tiled_times w from until receipts digest b :
  tiled w from until receipts digest -> times b receipts = if (from <=? b)%N && (b <? until)%N then 1%nat else 0%nat.
Proof.
  induction 1 as [|until receipts digest r range next Ht IH Hb Hs Hlt Hd].
  - destruct (N.leb_spec from b), (N.ltb_spec b from); (done || lia).
  - pose proof (tiled_le _ _ _ _ _ Ht). rewrite times_app, IH. unfold times. cbn. unfold covers. rewrite Hb, Hs.
    destruct (N.leb_spec from b), (N.ltb_spec b until), (N.leb_spec until b), (N.ltb_spec b (EvidenceByteRange.end_ range));
      cbn; lia.
Qed.

(** C6: a watermark says exactly what was ingested.  Whatever watermarks a store
    accepts, and however the sessions change in between, the receipts accepted for the
    source of a session tile what its watermark confirms: the bytes from the
    beginning to the watermark or, when live observation began at a fence, the two
    stretches before the part still missing and behind the fence; every such
    byte is in exactly one of the receipts and no other byte is in any; and the
    digests are chained over the records of each stretch in the order of the file. *)
Theorem watermark_tiles h s key w seq :
  ingested h s -> bmap_get key (source_watermarks s) = Some (w, seq) -> session_source w = true ->
  confirmed_by w (receipts_for w h) /\
  forall b, times b (receipts_for w h) = if confirmed_byte w b then 1%nat else 0%nat.
Proof.
  intros Hi Hg Hw. apply ingested_confirmed in Hi as (_ & Hsome & _). destruct (Hsome _ _ _ Hg) as [_ Hc].
  specialize (Hc Hw). split; [done|]. intros b. destruct Hc as (earlier & later & Hp & Hc). rewrite (times_perm _ _ _ Hp), times_app.
  unfold confirmed_byte. destruct (SourceIngestWatermark.earlier_prefix w) as [p|].
  - destruct Hc as (Hle & H1 & H2). rewrite (tiled_times _ _ _ _ _ _ H1), (tiled_times _ _ _ _ _ _ H2).
    destruct (N.leb_spec 0 b), (N.ltb_spec b (SourceImportEarlierPrefix.through_byte p)),
      (N.leb_spec (SourceImportEarlierPrefix.fence_byte p) b), (N.ltb_spec b (SourceIngestWatermark.source_sequence w)); cbn; lia.
  - destruct Hc as [-> H]. rewrite (tiled_times _ _ _ _ _ _ H). cbn.
    destruct (N.leb_spec 0 b), (N.ltb_spec b (SourceIngestWatermark.source_sequence w)); cbn; lia.
Qed.

(** ** Keys *)

Fixpoint colon_free (s : string) : Prop :=
  match s with EmptyString => True | String a s => a <> Ascii.Ascii false true false true true true false false /\ colon_free s end.

Lemma pretty_colon_free (n : N) : colon_free (pretty n).
Proof.
  assert (H : forall s, colon_free s -> colon_free (pretty_N_go n s)).
  { induction (N.lt_wf_0 n) as [n _ IH]. intros s Hs. destruct (decide (n = 0)%N) as [->|]; [by rewrite pretty_N_go_0|].
    rewrite pretty_N_go_step by lia. apply IH; [apply N.div_lt; lia|]. split; [|done].
    unfold pretty_N_char. repeat case_match; done. }
  unfold pretty, pretty_N. destruct (decide _); [by split|by apply H].
Qed.

Lemma split_colon a b s t : colon_free a -> colon_free b -> a +:+ ":" +:+ s = b +:+ ":" +:+ t -> a = b /\ s = t.
Proof.
  revert b. induction a as [|x a IH]; intros [|y b] Ha Hb H; cbn in *.
  - by injection H.
  - injection H as <- _. by destruct Hb.
  - injection H as -> _. by destruct Ha.
  - injection H as -> H. destruct (IH b) as [-> ->]; [tauto|tauto|done|done].
Qed.

Lemma append_split a b s t : length (as_bytes a) = length (as_bytes b) -> a +:+ s = b +:+ t -> a = b /\ s = t.
Proof.
  revert b. induction a as [|x a IH]; intros [|y b] Hl H; cbn in *; try done.
  injection H as -> H. destruct (IH b) as [-> ->]; [by injection Hl|done|done].
Qed.

(** Length prefixes separate the parts. *)
Lemma length_key_inj ps qs : length_key ps = length_key qs -> length ps = length qs -> ps = qs.
Proof.
  revert qs. induction ps as [|p ps IH]; intros [|q qs] H Hl; cbn in *; try done.
  apply split_colon in H as [Hn H]; [|apply pretty_colon_free..]. apply (inj pretty) in Hn.
  apply append_split in H as [-> H]; [|unfold str_len in Hn; lia]. f_equal. apply IH; [done|lia].
Qed.

Lemma stable_key_inj w w' : SourceIngestWatermark.stable_key w = SourceIngestWatermark.stable_key w' <-> same_source w w'.
Proof.
  split; [|apply same_source_key]. intros H%length_key_inj; [|done]. by injection H.
Qed.

(** ** The index of admission *)

Lemma higher_asym a b : higher a b = true -> higher b a = false.
Proof.
  unfold higher. set (ka := SourceIngestWatermark.stable_key a). set (kb := SourceIngestWatermark.stable_key b).
  assert (Hk : ltb_ord kb ka = true -> ltb_ord ka kb = false).
  { rewrite ltb_ord_true. intros H1. destruct (ltb_ord ka kb) eqn:E; [|done]. apply ltb_ord_true in E.
    by destruct (lt_ord_irrefl ka (lt_ord_trans _ _ _ E H1)). }
  destruct (SourceIngestWatermark.confirmed_prefix_digest a), (SourceIngestWatermark.confirmed_prefix_digest b);
    destruct (N.ltb_spec (SourceIngestWatermark.source_sequence a) (SourceIngestWatermark.source_sequence b)),
      (N.eqb_spec (SourceIngestWatermark.source_sequence a) (SourceIngestWatermark.source_sequence b)),
      (N.ltb_spec (SourceIngestWatermark.source_sequence b) (SourceIngestWatermark.source_sequence a)),
      (N.eqb_spec (SourceIngestWatermark.source_sequence b) (SourceIngestWatermark.source_sequence a)); cbn; (lia || auto).
Qed.

Lemma higher_trans a b c : higher a b = true -> higher c b = false -> higher a c = true.
Proof.
  unfold higher. set (ka := SourceIngestWatermark.stable_key a). set (kb := SourceIngestWatermark.stable_key b).
  set (kc := SourceIngestWatermark.stable_key c).
  assert (Hk : ltb_ord kb ka = true -> ltb_ord kb kc = false -> ltb_ord kc ka = true).
  { rewrite !ltb_ord_true. intros H1 H2. destruct (leb_ord kc kb) eqn:E.
    - apply leb_ord_true in E as [E| ->]; [by eapply lt_ord_trans|done].
    - apply leb_ord_false in E. apply ltb_ord_true in E. congruence. }
  destruct (SourceIngestWatermark.confirmed_prefix_digest a), (SourceIngestWatermark.confirmed_prefix_digest b),
    (SourceIngestWatermark.confirmed_prefix_digest c);
    destruct (N.ltb_spec (SourceIngestWatermark.source_sequence a) (SourceIngestWatermark.source_sequence b)),
      (N.eqb_spec (SourceIngestWatermark.source_sequence a) (SourceIngestWatermark.source_sequence b)),
      (N.ltb_spec (SourceIngestWatermark.source_sequence c) (SourceIngestWatermark.source_sequence b)),
      (N.eqb_spec (SourceIngestWatermark.source_sequence c) (SourceIngestWatermark.source_sequence b)),
      (N.ltb_spec (SourceIngestWatermark.source_sequence a) (SourceIngestWatermark.source_sequence c)),
      (N.eqb_spec (SourceIngestWatermark.source_sequence a) (SourceIngestWatermark.source_sequence c)); cbn; (lia || auto).
Qed.

Lemma higher_total a b :
  higher a b = false -> SourceIngestWatermark.stable_key a <> SourceIngestWatermark.stable_key b -> higher b a = true.
Proof.
  unfold higher. set (ka := SourceIngestWatermark.stable_key a). set (kb := SourceIngestWatermark.stable_key b). intros H Hne.
  assert (Hk : ltb_ord kb ka = false -> ltb_ord ka kb = true).
  { intros H1. rewrite ltb_ord_true. destruct (leb_ord ka kb) eqn:E.
    - by apply leb_ord_true in E as [E| ->].
    - apply leb_ord_false in E. apply ltb_ord_true in E. congruence. }
  revert H. destruct (SourceIngestWatermark.confirmed_prefix_digest a), (SourceIngestWatermark.confirmed_prefix_digest b);
    destruct (N.ltb_spec (SourceIngestWatermark.source_sequence a) (SourceIngestWatermark.source_sequence b)),
      (N.eqb_spec (SourceIngestWatermark.source_sequence a) (SourceIngestWatermark.source_sequence b)),
      (N.ltb_spec (SourceIngestWatermark.source_sequence b) (SourceIngestWatermark.source_sequence a)),
      (N.eqb_spec (SourceIngestWatermark.source_sequence b) (SourceIngestWatermark.source_sequence a)); cbn; (lia || auto).
Qed.

Implicit Types index : list (string * SourceWatermarks).

(** The watermarks of the sources of sessions, by instance and revision. *)
Definition known_watermarks := string -> string -> option SourceIngestWatermark.
Implicit Types known : known_watermarks.

Definition learn known w : known_watermarks := fun i r =>
  if session_source w && (SourceIngestWatermark.source_instance_id w ==? i) && (SourceIngestWatermark.source_revision w ==? r)
  then Some w else known i r.

(** An index holds the watermarks that are known, and names the highest of each
    instance. *)
Definition indexes index known : Prop :=
  bmap_sorted index /\
  (forall i r w, known i r = Some w ->
     SourceIngestWatermark.source_instance_id w = i /\ SourceIngestWatermark.source_revision w = r) /\
  forall i, match bmap_get i index with
    | None => forall r, known i r = None
    | Some state =>
        bmap_sorted (SourceWatermarks.revisions state) /\
        (forall r, bmap_get r (SourceWatermarks.revisions state) = known i r) /\
        exists top, known i (SourceWatermarks.highest_revision state) = Some top /\
          forall r w, known i r = Some w -> r = SourceWatermarks.highest_revision state \/ higher w top = true
    end.

Lemma indexes_unique index index' known : indexes index known -> indexes index' known -> index = index'.
Proof.
  intros (Hs & _ & H) (Hs' & _ & H'). apply bmap_ext; [done..|]. intros i. specialize (H i). specialize (H' i).
  destruct (bmap_get i index) as [st|], (bmap_get i index') as [st'|]; [|exfalso..|done].
  - destruct H as (H1 & H2 & top & H3 & H4), H' as (H1' & H2' & top' & H3' & H4'). f_equal.
    assert (Hr : SourceWatermarks.highest_revision st = SourceWatermarks.highest_revision st').
    { destruct (H4 _ _ H3') as [->|Ha]; [done|]. destruct (H4' _ _ H3) as [->|Hb]; [done|].
      apply higher_asym in Ha. congruence. }
    assert (Hm : SourceWatermarks.revisions st = SourceWatermarks.revisions st').
    { apply bmap_ext; [done..|]. intros r. by rewrite H2, H2'. }
    destruct st, st'. cbn in *. congruence.
  - destruct H as (_ & _ & top & H3 & _). by rewrite H' in H3.
  - destruct H' as (_ & _ & top & H3 & _). by rewrite H in H3.
Qed.

(** Recording a watermark that does not fall behind the one it replaces. *)
Lemma record_indexes index known w :
  indexes index known ->
  (forall old, known (SourceIngestWatermark.source_instance_id w) (SourceIngestWatermark.source_revision w) = Some old ->
     higher w old = false) ->
  indexes (record_source_watermark index w) (learn known w).
Proof.
  intros (Hs & Hk & H) Hold. unfold record_source_watermark. fold (session_source w).
  destruct (session_source w) eqn:Ew; cbn [negb].
  2: { split; [done|]. unfold learn. rewrite Ew. cbn. done. }
  set (i0 := SourceIngestWatermark.source_instance_id w) in *. set (r0 := SourceIngestWatermark.source_revision w) in *.
  assert (Hl : forall r, learn known w i0 r = if r0 ==? r then Some w else known i0 r).
  { intros r. unfold learn. rewrite Ew. fold i0 r0. by rewrite bool_decide_eq_true_2. }
  split; [by apply bmap_alter_sorted|]. split.
  { intros i r v. unfold learn. rewrite Ew. fold i0 r0. destruct (true && (i0 ==? i) && (r0 ==? r)) eqn:E; [|apply Hk].
    intros [= <-]. rewrite !andb_true_iff, !bool_decide_eq_true in E. tauto. }
  intros i. destruct (decide (i0 = i)) as [<-|Hne].
  2: { rewrite bmap_get_alter_ne by done. specialize (H i).
       assert (Hl' : forall r, learn known w i r = known i r).
       { intros r. unfold learn. fold i0. by rewrite (bool_decide_eq_false_2 (i0 = i)), andb_false_r by done. }
       destruct (bmap_get i index) as [st|]; [|intros r; by rewrite Hl'].
       destruct H as (H1 & H2 & top & H3 & H4). split_and!; [done|intros r; by rewrite H2, Hl'|].
       exists top. rewrite Hl'. split; [done|]. intros r v. rewrite Hl'. apply H4. }
  rewrite bmap_get_alter_eq by done. specialize (H i0).
  destruct (bmap_get i0 index) as [st|]; cbn [default].
  - destruct H as (H1 & H2 & top & H3 & H4). split; [by apply bmap_alter_sorted|].
    split.
    { intros r. cbn. rewrite Hl. destruct (decide (r0 = r)) as [<-|Hr].
      - rewrite bool_decide_eq_true_2 by done. by apply bmap_get_alter_eq.
      - rewrite bool_decide_eq_false_2 by done. rewrite <-H2. by apply bmap_get_alter_ne. }
    cbn. rewrite H2, H3. destruct (higher top w) eqn:Eh.
    + exists w. rewrite Hl, bool_decide_eq_true_2 by done. split; [done|]. intros r v. rewrite Hl.
      destruct (r0 ==? r) eqn:Er; [intros _; left; by apply bool_decide_eq_true_1 in Er|]. intros Hv. right.
      destruct (H4 _ _ Hv) as [->|Hh]; [rewrite H3 in Hv; by injection Hv as <-|].
      eapply higher_trans; [exact Hh|]. by apply higher_asym.
    + destruct (decide (r0 = SourceWatermarks.highest_revision st)) as [Htop|Hr].
      * exists w. rewrite Hl, bool_decide_eq_true_2 by done. split; [done|]. intros r v. rewrite Hl.
        destruct (r0 ==? r) eqn:Er; [intros _; left; apply bool_decide_eq_true_1 in Er; congruence|]. intros Hv.
        destruct (H4 _ _ Hv) as [Ht|Hh]; [left; congruence|]. right. eapply higher_trans; [exact Hh|].
        apply Hold. congruence.
      * exists top. rewrite Hl, (bool_decide_eq_false_2 _ Hr). split; [done|]. intros r v. rewrite Hl.
        destruct (r0 ==? r) eqn:Er; [|apply H4]. intros [= <-]. right. apply higher_total; [done|].
        rewrite stable_key_inj. intros [_ E]. destruct (Hk _ _ _ H3) as [_ Et]. apply Hr. unfold r0. congruence.
  - split; [repeat constructor|]. split.
    { intros r. change (bmap_get r (bmap_insert r0 w []) = learn known w i0 r). rewrite Hl. unfold bmap_insert.
      destruct (decide (r0 = r)) as [<-|Hr].
      - rewrite bool_decide_eq_true_2 by done. by apply bmap_get_alter_eq; constructor.
      - rewrite bool_decide_eq_false_2, H by done. by rewrite bmap_get_alter_ne. }
    cbn. exists w. rewrite Hl, bool_decide_eq_true_2 by done. split; [done|]. intros r v. rewrite Hl, H.
    destruct (r0 ==? r) eqn:Er; [|done]. apply bool_decide_eq_true_1 in Er. auto.
Qed.

Definition nothing_known : known_watermarks := fun _ _ => None.
Lemma indexes_empty : indexes [] nothing_known.
Proof. split_and!; [constructor|done|done]. Qed.

(** What a store knows. *)
Definition stored (s : WatermarkState) : known_watermarks := fun i r =>
  match bmap_get (length_key [i; r]) (source_watermarks s) with
  | Some (w, _) => if session_source w then Some w else None
  | None => None
  end.

(** The index of admission, kept as the watermarks are recorded. *)
Definition live_index h : list (string * SourceWatermarks) := foldl record_source_watermark [] h.*1.
(** The index built from the state of the projection. *)
Definition rebuilt_index (s : WatermarkState) : list (string * SourceWatermarks) :=
  foldl record_source_watermark [] (fst <$> (source_watermarks s).*2).

(** The index follows the store. *)
Lemma live_indexes h s :
  ingested h s -> exists known, indexes (live_index h) known /\ forall i r, known i r = stored s i r.
Proof.
  induction 1 as [s He|h s w receipts seq s' Hi (known & Hx & Hk) H|h s s' Hi (known & Hx & Hk) He].
  - exists nothing_known. split; [apply indexes_empty|]. intros i r. unfold stored. by rewrite He.
  - exists (learn known w). pose proof (ingested_confirmed _ _ Hi) as Hc.
    pose proof (session_step _ _ _ _ _ _ Hc H) as Hstep. pose proof (ingested_confirmed _ _ (ingested_watermark _ _ _ _ _ _ Hi H)) as Hc'.
    split.
    + unfold live_index. rewrite fmap_app, foldl_app. cbn. apply record_indexes; [done|].
      intros old Ho. rewrite Hk in Ho. unfold stored in Ho.
      change (length_key _) with (SourceIngestWatermark.stable_key w) in Ho.
      destruct (bmap_get _ (source_watermarks s)) as [[c n]|] eqn:Eg; [|done]. destruct (session_source c) eqn:Ec; [|done].
      injection Ho as ->. destruct Hc as (_ & Hsome & _). destruct (Hsome _ _ _ Eg) as [Hkey _].
      assert (Hs : session_source w = true) by (rewrite <-Ec; apply same_source_session; by rewrite <-stable_key_inj).
      destruct (Hstep Hs) as (_ & _ & Hcur). destruct (Hcur old) as [Hle Heq]; [unfold current_of; by rewrite Eg|].
      unfold higher. rewrite Hkey. apply N.ltb_ge in Hle as Hlt. rewrite Hlt.
      destruct (N.eqb_spec (SourceIngestWatermark.source_sequence w) (SourceIngestWatermark.source_sequence old)) as [E|];
        [|by destruct (ltb_ord _ _)].
      rewrite (Heq (eq_sym E)). assert (Hirr : forall x : string, ltb_ord x x = false).
      { intros x. unfold ltb_ord. by rewrite cmp_refl. }
      rewrite Hirr. by destruct (SourceIngestWatermark.confirmed_prefix_digest w).
    + intros i r. unfold learn. destruct (session_source w && _ && _) eqn:E.
      * rewrite !andb_true_iff, !bool_decide_eq_true in E. destruct E as [[Es <-] <-]. destruct (Hstep Es) as (_ & (n & Hn) & _).
        unfold stored. change (length_key _) with (SourceIngestWatermark.stable_key w). by rewrite Hn, Es.
      * rewrite Hk. destruct (decide (length_key [i; r] = SourceIngestWatermark.stable_key w)) as [Ekey|Hne].
        -- assert (Hir : i = SourceIngestWatermark.source_instance_id w /\ r = SourceIngestWatermark.source_revision w).
           { unfold SourceIngestWatermark.stable_key in Ekey. apply length_key_inj in Ekey; [|done]. by injection Ekey. }
           destruct Hir as [-> ->]. rewrite !bool_decide_eq_true_2, !andb_true_r in E by done.
           assert (Hplain : forall st, store_confirmed st s' -> stored s' (SourceIngestWatermark.source_instance_id w)
             (SourceIngestWatermark.source_revision w) = None).
           { intros st (_ & Hsome & _). unfold stored. change (length_key _) with (SourceIngestWatermark.stable_key w).
             destruct (bmap_get _ (source_watermarks s')) as [[c n]|] eqn:Eg; [|done]. destruct (Hsome _ _ _ Eg) as [Hkey _].
             apply stable_key_inj in Hkey. by rewrite (same_source_session _ _ Hkey), E. }
           rewrite (Hplain _ Hc'). unfold stored. change (length_key _) with (SourceIngestWatermark.stable_key w).
           destruct Hc as (_ & Hsome & _). destruct (bmap_get _ (source_watermarks s)) as [[c n]|] eqn:Eg; [|done].
           destruct (Hsome _ _ _ Eg) as [Hkey _]. apply stable_key_inj in Hkey. by rewrite (same_source_session _ _ Hkey), E.
        -- unfold stored. apply apply_watermark_cases in H as (receipt & metadata & _ & _ & ->).
           destruct (match current_of s w with Some _ => _ | None => _ end); [|done]. unfold bmap_insert. by rewrite bmap_get_alter_ne.
  - exists known. split; [done|]. intros i r. unfold stored. rewrite He. apply Hk.
Qed.

(** Recording watermarks of different sources, in any order. *)
Lemma rebuilt_indexes (l : list SourceIngestWatermark) :
  NoDup (SourceIngestWatermark.stable_key <$> l) ->
  exists known, indexes (foldl record_source_watermark [] l) known /\
    forall i r w, known i r = Some w <->
      w ∈ l /\ session_source w = true /\ SourceIngestWatermark.source_instance_id w = i /\ SourceIngestWatermark.source_revision w = r.
Proof.
  induction l as [|w l IH] using rev_ind; intros Hnd.
  - exists nothing_known. split; [apply indexes_empty|]. intros i r w. split; [done|]. by intros (?%elem_of_nil & _).
  - rewrite fmap_app in Hnd. apply NoDup_app in Hnd as (Hnd & Hd & _). destruct (IH Hnd) as (known & Hx & Hk).
    exists (learn known w). rewrite foldl_app. cbn. split.
    + apply record_indexes; [done|]. intros old (Hin & _ & Hi & Hr)%Hk. exfalso.
      apply (Hd (SourceIngestWatermark.stable_key w)); [|by left]. apply list_elem_of_fmap. exists old. split; [|done].
      by apply stable_key_inj.
    + intros i r v. unfold learn. rewrite elem_of_app, list_elem_of_singleton. destruct (session_source w && _ && _) eqn:E.
      * rewrite !andb_true_iff, !bool_decide_eq_true in E. destruct E as [[Es <-] <-]. split.
        -- intros [= <-]. auto.
        -- intros ([Hin| ->] & _ & Hi & Hr); [|done]. exfalso. apply (Hd (SourceIngestWatermark.stable_key w)); [|by left].
           apply list_elem_of_fmap. exists v. split; [|done]. by apply stable_key_inj.
      * rewrite Hk. split; [naive_solver|]. intros ([Hin| ->] & Hs & Hi & Hr); [auto|]. exfalso.
        rewrite Hs, Hi, Hr, !bool_decide_eq_true_2 in E by done. done.
Qed.

(** The index of source watermarks that admission keeps as it goes is the one a
    store builds from the projection when it is opened: for every source of a
    session the same watermarks by revision, and the same highest revision. *)
Theorem index_rebuilt h s : ingested h s -> live_index h = rebuilt_index s.
Proof.
  intros Hi. destruct (live_indexes _ _ Hi) as (known & Hx & Hk). destruct (ingested_confirmed _ _ Hi) as (Hsorted & Hsome & _).
  assert (Hkeys : SourceIngestWatermark.stable_key <$> (fst <$> (source_watermarks s).*2) = (source_watermarks s).*1).
  { rewrite <-!list_fmap_compose. apply list_fmap_ext. intros n [k [w seq]] Hn%list_elem_of_lookup_2. cbn.
    apply (Hsome k w seq). by apply elem_of_bmap. }
  destruct (rebuilt_indexes (fst <$> (source_watermarks s).*2)) as (known' & Hx' & Hk').
  { rewrite Hkeys. by apply sorted_lt_NoDup. }
  eapply indexes_unique; [exact Hx|]. destruct Hx' as (H1 & H2 & H3).
  assert (Hsame : forall i r, known' i r = known i r).
  { intros i r. apply option_eq. intros w. rewrite Hk', Hk. unfold stored. split.
    - intros (Hin & Hs & Hi' & Hr). apply list_elem_of_fmap in Hin as ([v n] & -> & Hin). apply list_elem_of_fmap in Hin as ([k [v' n']] & E & Hin).
      cbn in E. injection E as -> ->. apply elem_of_bmap in Hin; [|done]. destruct (Hsome _ _ _ Hin) as [Hkey _].
      cbn in Hs, Hi', Hr. subst i r. change (length_key _) with (SourceIngestWatermark.stable_key v'). rewrite Hkey, Hin. cbn. by rewrite Hs.
    - destruct (bmap_get _ _) as [[v n]|] eqn:Eg; [|done]. destruct (session_source v) eqn:Ev; [|done]. intros [= ->].
      destruct (Hsome _ _ _ Eg) as [Hkey _]. unfold SourceIngestWatermark.stable_key in Hkey.
      apply length_key_inj in Hkey; [|done]. injection Hkey as -> ->. split_and!; [|done..].
      apply list_elem_of_fmap. exists (w, n). split; [done|]. apply list_elem_of_fmap. eexists. split; [|by apply bmap_get_elem]. done. }
  split; [done|]. split; [intros i r w; rewrite <-Hsame; apply H2|]. intros i. specialize (H3 i). unfold rebuilt_index.
  destruct (bmap_get i _) as [st|]; [|intros r; by rewrite <-Hsame].
  destruct H3 as (G1 & G2 & top & G3 & G4). split_and!; [done|intros r; by rewrite G2|]. exists top. rewrite <-Hsame. split; [done|].
  intros r w. rewrite <-Hsame. apply G4.
Qed.
End tiles.

(** ** A concrete store *)

Module Ingest.

#[local] Instance digest : Sha256 := fun bytes => take 32 (rev bytes ++ replicate 32 Byte.x00).

Definition receipt (n start_byte end_byte : N) : SourceReceipt :=
  SourceReceipt.mk (from_digest (to_be_bytes 32 n)) (from_digest (to_be_bytes 32 (n + 1))) "codex-session:abc" EvidenceSourceKind.CodexSessionJsonl
    "codex" "rollout.jsonl" "abc" "revision-a" "record" IdentityStrength.StableSourceSequence end_byte None None None None
    (Some (EvidenceByteRange.mk start_byte end_byte)) (EvidenceByteRange.mk 0 10) SourceRevisionMode.Append None None
    ObservationRole.Message None CaptureCompleteness.Complete SourceArchiveMode.Exact
    (of_bytes (replicate 64 "b"%byte)) 10 None 10 None [] 1 "adapter" "eligible" 1 1 1 1 1 40 41 None.

(** Live observation began at byte 100; the route is closed again, so that all
    records belong to the session itself, which the user approved. *)
Definition session : SessionImportCurrent :=
  SessionImportCurrent.mk "abc" None 3
    (SessionMetadata.mk "/home/user/rollout.jsonl" "codex_jsonl_v1" None None None None None None None
       WorkspaceResolutionKind.NonRepository None None (Some [mk_id (mk_uuid 10)])
       (Some (ProspectiveSourceOrigin.mk (mk_id (mk_uuid 5)) 80 (Some 100%N) true)) 1000 20
       (of_bytes (replicate 64 "a"%byte)) "revision-a" 1 MetadataState.Indexed)
    (Some SessionAccessDecision.Approved) SessionBodyState.Importing 7.

Definition store0 : WatermarkState := mk_watermark_state [] [("abc"%string, session)] [] [].

Definition mark (sequence : N) (confirmed : option string) (through : N) (earlier : option string) : SourceIngestWatermark :=
  SourceIngestWatermark.mk "codex-session:abc" "revision-a" sequence confirmed
    (Some (SourceImportEarlierPrefix.mk 100 through earlier)).

Definition chained (previous : option string) (r : SourceReceipt) : option string :=
  match SourceReceipt.source_byte_range r with
  | Some range =>
      match session_import_prefix_digest (mark 0 None 0 None) range previous (SourceReceipt.cas_ref r) with
      | Ok d => Some d | Err _ => None end
  | None => None
  end.

(** A live record, then the first of the file, then the next live one. *)
Definition live1 := receipt 1 100 160.
Definition early := receipt 3 0 40.
Definition live2 := receipt 5 160 200.
Definition d1 := chained None live1.
Definition e1 := chained None early.
Definition d2 := chained d1 live2.
Definition w1 := mark 160 d1 0 None.
Definition w2 := mark 160 d1 40 e1.
Definition w3 := mark 200 d2 40 e1.

Definition stepped (s : WatermarkState) w r seq : WatermarkState :=
  match apply_watermark s w [r] seq with Ok s' => s' | Err _ => s end.
Definition store1 := Eval vm_compute in stepped store0 w1 live1 11.
Definition store2 := Eval vm_compute in stepped store1 w2 early 12.
Definition store3 := Eval vm_compute in stepped store2 w3 live2 13.
Definition history : list (SourceIngestWatermark * list SourceReceipt) := [(w1, [live1]); (w2, [early]); (w3, [live2])].

Lemma ingests : ingested history store3.
Proof.
  change history with ((([] ++ [(w1, [live1])]) ++ [(w2, [early])]) ++ [(w3, [live2])]).
  eapply ingested_watermark with (seq := 13%N) (s := store2); [|vm_compute; reflexivity].
  eapply ingested_watermark with (seq := 12%N) (s := store1); [|vm_compute; reflexivity].
  eapply ingested_watermark with (seq := 11%N) (s := store0); [|vm_compute; reflexivity].
  by apply ingested_empty.
Qed.

Lemma watermark_tiles_witness :
  receipts_for w3 history = [live1; early; live2] /\
  forall b, times b (receipts_for w3 history) = if confirmed_byte w3 b then 1%nat else 0%nat.
Proof.
  split; [vm_compute; reflexivity|].
  apply (watermark_tiles history store3 (SourceIngestWatermark.stable_key w3) w3 13 ingests); vm_compute; reflexivity.
Defined.

Lemma index_rebuilt_witness :
  rebuilt_index store3
  = [("codex-session:abc"%string, SourceWatermarks.mk "revision-a" [("revision-a"%string, w3)])].
Proof. rewrite <-(index_rebuilt _ _ ingests). vm_compute. reflexivity. Defined.
End Ingest.
