(* ===== verification/Recovery.v ===== *)
(** * Recovery of work before destructive operations (evertrace-domain/src/repository/recovery.rs)

    A capture request is opened before a destructive operation and resolved once; a
    bundle holds what was captured; an application puts parts of a bundle into
    another worktree, and its revisions record how far that got, with the receipts of
    its verifier.  Here are the records with their validators and the relation
    between a revision and its successor; RecoveryStore has the store's reducers. *)

From S2P Require Import Prelude Order Collections OrderedMap Text Ids Lane Attempt Repository.

Definition RECOVERY_CONTRACT_VERSION : N := 1.
Definition SUPPORTED_MUTATION_DOMAIN : string := "supported_codex_local_mutators".
Definition RECOVERY_ANCHOR_VERIFIER_VERSION : N := 1.

Module DestructiveClass.
Inductive DestructiveClass :=
| GitWorktreeRemove
| GitResetHard
| GitClean
| GitCheckoutForce
| GitSwitchDiscardChanges
| GitRestoreDiscard
| TrackedFileRemove
| AttemptAnchorRemove
| RegisteredArtifactRemove.
#[export] Instance eq_dec : EqDecision DestructiveClass.
Proof. solve_decision. Defined.
End DestructiveClass.
Abbreviation DestructiveClass := DestructiveClass.DestructiveClass.
Export (hints) DestructiveClass.

Module DestructiveDetectionStatus.
Inductive DestructiveDetectionStatus :=
| Matched
| Unknown
| Unsupported.
#[export] Instance eq_dec : EqDecision DestructiveDetectionStatus.
Proof. solve_decision. Defined.
End DestructiveDetectionStatus.
Abbreviation DestructiveDetectionStatus := DestructiveDetectionStatus.DestructiveDetectionStatus.
Export (hints) DestructiveDetectionStatus.

Module UntrackedCaptureScope.
Inductive UntrackedCaptureScope :=
| Standard
| StandardAndIgnored
| IgnoredOnly.
#[export] Instance eq_dec : EqDecision UntrackedCaptureScope.
Proof. solve_decision. Defined.
End UntrackedCaptureScope.
Abbreviation UntrackedCaptureScope := UntrackedCaptureScope.UntrackedCaptureScope.
Export (hints) UntrackedCaptureScope.

Module RecoveryRequestStatus.
Inductive RecoveryRequestStatus :=
| Pending
| Complete
| Partial
| Skipped
| Failed
| TimedOut.
#[export] Instance eq_dec : EqDecision RecoveryRequestStatus.
Proof. solve_decision. Defined.
End RecoveryRequestStatus.
Abbreviation RecoveryRequestStatus := RecoveryRequestStatus.RecoveryRequestStatus.
Export (hints) RecoveryRequestStatus.

Module RecoveryReasonCode.
Inductive RecoveryReasonCode :=
| CaptureComplete
| CapturePartial
| NoRecoverableContent
| DaemonCaptureFailed
| DeadlineExhausted
| DaemonOrWireUnavailable
| DaemonTimeout
| LateTimeout.
#[export] Instance eq_dec : EqDecision RecoveryReasonCode.
Proof. solve_decision. Defined.
Definition rank (x : RecoveryReasonCode) : N :=
  match x with
  | CaptureComplete => 0
  | CapturePartial => 1
  | NoRecoverableContent => 2
  | DaemonCaptureFailed => 3
  | DeadlineExhausted => 4
  | DaemonOrWireUnavailable => 5
  | DaemonTimeout => 6
  | LateTimeout => 7
  end.
Lemma RecoveryReasonCode_rank_inj x y : rank x = rank y -> x = y.
Proof. by destruct x, y. Qed.
#[export] Instance ord : Ord RecoveryReasonCode := Ord_by rank RecoveryReasonCode_rank_inj.
End RecoveryReasonCode.
Abbreviation RecoveryReasonCode := RecoveryReasonCode.RecoveryReasonCode.
Export (hints) RecoveryReasonCode.

Definition request_is_terminal (self : RecoveryRequestStatus) : bool :=
  match self with RecoveryRequestStatus.Pending => false | _ => true end.

Module RecoveryCaptureStatus.
Inductive RecoveryCaptureStatus :=
| Complete
| Partial.
#[export] Instance eq_dec : EqDecision RecoveryCaptureStatus.
Proof. solve_decision. Defined.
End RecoveryCaptureStatus.
Abbreviation RecoveryCaptureStatus := RecoveryCaptureStatus.RecoveryCaptureStatus.
Export (hints) RecoveryCaptureStatus.

Module OrderingIntegrity.
Inductive OrderingIntegrity :=
| Complete
| Raced
| BestEffort.
#[export] Instance eq_dec : EqDecision OrderingIntegrity.
Proof. solve_decision. Defined.
End OrderingIntegrity.
Abbreviation OrderingIntegrity := OrderingIntegrity.OrderingIntegrity.
Export (hints) OrderingIntegrity.

Module RecoveryOmissionReason.
Inductive RecoveryOmissionReason :=
| SecretRedacted
| CredentialExcluded
| PrivateKeyExcluded
| FileTooLarge
| UntrackedTotalExceeded
| BundleBudgetExceeded
| TimeBudgetExceeded
| RegenerableBuildOutput
| UnsupportedKind
| Unreadable
| ConcurrentChange
| CriticalTrackedStateMissing
| CriticalIndexStateMissing
| AttemptAnchorMissing.
#[export] Instance eq_dec : EqDecision RecoveryOmissionReason.
Proof. solve_decision. Defined.
End RecoveryOmissionReason.
Abbreviation RecoveryOmissionReason := RecoveryOmissionReason.RecoveryOmissionReason.
Export (hints) RecoveryOmissionReason.

Module RecoveryApplicationKind.
Inductive RecoveryApplicationKind :=
| Patch
| FileRestore
| IndexRestore
| Mixed.
#[export] Instance eq_dec : EqDecision RecoveryApplicationKind.
Proof. solve_decision. Defined.
End RecoveryApplicationKind.
Abbreviation RecoveryApplicationKind := RecoveryApplicationKind.RecoveryApplicationKind.
Export (hints) RecoveryApplicationKind.

Module RecoveryApplicationStatus.
Inductive RecoveryApplicationStatus :=
| Applied
| PartiallyApplied
| Failed
| Unknown.
#[export] Instance eq_dec : EqDecision RecoveryApplicationStatus.
Proof. solve_decision. Defined.
End RecoveryApplicationStatus.
Abbreviation RecoveryApplicationStatus := RecoveryApplicationStatus.RecoveryApplicationStatus.
Export (hints) RecoveryApplicationStatus.

Module RecoveryInputDeliveryKind.
Inductive RecoveryInputDeliveryKind :=
| PatchStdin
| ConfinedFileRestore
| IndexRestore
| Mixed.
#[export] Instance eq_dec : EqDecision RecoveryInputDeliveryKind.
Proof. solve_decision. Defined.
End RecoveryInputDeliveryKind.
Abbreviation RecoveryInputDeliveryKind := RecoveryInputDeliveryKind.RecoveryInputDeliveryKind.
Export (hints) RecoveryInputDeliveryKind.

Module RecoveryInputDeliveryState.
Inductive RecoveryInputDeliveryState :=
| Admitted_
| Delivered.
#[export] Instance eq_dec : EqDecision RecoveryInputDeliveryState.
Proof. solve_decision. Defined.
End RecoveryInputDeliveryState.
Abbreviation RecoveryInputDeliveryState := RecoveryInputDeliveryState.RecoveryInputDeliveryState.
Export (hints) RecoveryInputDeliveryState.

Module RecoveryVerificationOutcome.
Inductive RecoveryVerificationOutcome :=
| Applied
| PartiallyApplied
| NotApplied.
#[export] Instance eq_dec : EqDecision RecoveryVerificationOutcome.
Proof. solve_decision. Defined.
Definition rank (x : RecoveryVerificationOutcome) : N :=
  match x with
  | Applied => 0
  | PartiallyApplied => 1
  | NotApplied => 2
  end.
Lemma RecoveryVerificationOutcome_rank_inj x y : rank x = rank y -> x = y.
Proof. by destruct x, y. Qed.
#[export] Instance ord : Ord RecoveryVerificationOutcome := Ord_by rank RecoveryVerificationOutcome_rank_inj.
End RecoveryVerificationOutcome.
Abbreviation RecoveryVerificationOutcome := RecoveryVerificationOutcome.RecoveryVerificationOutcome.
Export (hints) RecoveryVerificationOutcome.

(** ** Checks *)

Definition valid_ref (value : string) : bool :=
  negb (str_is_empty value) && (str_len value <=? 4096)%N && negb (any is_control (chars value)).

Definition valid_digest (value : string) : bool :=
  (str_len value =? 64)%N && all is_hex (as_bytes value).

Definition valid_cas_ref (value : string) : bool :=
  match strip_prefix value "cas:" with Some digest => valid_digest digest | None => false end || valid_digest value.

Definition unique_valid_refs (values : list string) : bool := all valid_ref values && all_unique values.

Definition strictly_ordered {A} `{!Ord A} (values : list A) : bool :=
  (length values <=? 256)%nat && windows2_all ltb_ord values.

Definition strict_superset {A} `{!EqDecision A} (current next : list A) : bool :=
  (length current <? length next)%nat && contains_all next current.

Definition option_compatible {A} `{!EqDecision A} (current next : option A) : bool :=
  is_none current || (current ==? next).

Definition option_progress {A} (current next : option A) : bool := is_none current && is_some next.

(** [values.iter().all(|value| refs.insert(value))]. *)
Fixpoint all_inserted {A} `{!EqDecision A} (refs values : list A) : bool :=
  match values with
  | [] => true
  | value :: values => negb (contains value refs) && all_inserted (value :: refs) values
  end.

Module RecoveryOmission.
Record RecoveryOmission := mk {
  item_ref : string;
  reason : RecoveryOmissionReason;
  metadata_ref : option string;
}.
#[export] Instance eq_dec : EqDecision RecoveryOmission.
Proof. solve_decision. Defined.
End RecoveryOmission.
Abbreviation RecoveryOmission := RecoveryOmission.RecoveryOmission.
Export (hints) RecoveryOmission.

Module RecoveryProtectedRef.
Record RecoveryProtectedRef := mk {
  cas_ref : string;
  protected_length : N;
  original_length : N;
  protected_secret_digest : option string;
  redaction_spans : N;
}.
#[export] Instance eq_dec : EqDecision RecoveryProtectedRef.
Proof. solve_decision. Defined.
Definition validate (self : RecoveryProtectedRef) (nonempty : bool) : result RepositoryError unit :=
  guard (negb (valid_cas_ref (cas_ref self))
         || nonempty && ((protected_length self =? 0)%N || (original_length self =? 0)%N)
         || negb nonempty && xorb (negb (protected_length self =? 0)%N) (negb (original_length self =? 0)%N)
         || match protected_secret_digest self with Some value => negb (valid_digest value) | None => false end
         || xorb (redaction_spans self =? 0)%N (is_none (protected_secret_digest self)))
    RepositoryError.InvalidRecovery.
End RecoveryProtectedRef.
Abbreviation RecoveryProtectedRef := RecoveryProtectedRef.RecoveryProtectedRef.
Export (hints) RecoveryProtectedRef.

Module RecoveryContentRef.
Record RecoveryContentRef := mk {
  item_ref : string;
  payload : RecoveryProtectedRef;
  protected_relative_path : option RecoveryProtectedRef;
}.
#[export] Instance eq_dec : EqDecision RecoveryContentRef.
Proof. solve_decision. Defined.
Definition validate (self : RecoveryContentRef) (file : bool) : result RepositoryError unit :=
  do? guard (negb (valid_ref (item_ref self)) || is_err (RecoveryProtectedRef.validate (payload self) (negb file)))
        RepositoryError.InvalidRecovery in
  match protected_relative_path self, file with
  | Some path, true =>
      if is_ok (RecoveryProtectedRef.validate path true) then Ok tt else Err RepositoryError.InvalidRecovery
  | None, false => Ok tt
  | _, _ => Err RepositoryError.InvalidRecovery
  end.

Definition protected_bytes (self : RecoveryContentRef) : option N :=
  checked_add_u64 (RecoveryProtectedRef.protected_length (payload self))
    match protected_relative_path self with Some path => RecoveryProtectedRef.protected_length path | None => 0%N end.
End RecoveryContentRef.
Abbreviation RecoveryContentRef := RecoveryContentRef.RecoveryContentRef.
Export (hints) RecoveryContentRef.

(** ** Requests *)

Module RecoveryCaptureRequest.
Record RecoveryCaptureRequest := mk {
  recovery_capture_request_id : RecoveryCaptureRequestId;
  request_revision_id : RevisionId;
  parent_request_revision_id : option RevisionId;
  trigger_event_id : string;
  repository_instance_id : RepositoryId;
  worktree_instance_id : WorktreeId;
  pre_operation_snapshot_id : option WorktreeSnapshotId;
  command_fingerprint : string;
  destructive_class : DestructiveClass;
  untracked_capture_scope : UntrackedCaptureScope;
  detection_status : DestructiveDetectionStatus;
  request_status : RecoveryRequestStatus;
  recovery_bundle_id : option RecoveryBundleId;
  reason_codes : list RecoveryReasonCode;
  started_at_us : Z;
  finished_at_us : option Z;
  effective_config_hash : list byte;
}.
#[export] Instance eq_dec : EqDecision RecoveryCaptureRequest.
Proof. solve_decision. Defined.
Definition validate (self : RecoveryCaptureRequest) : result RepositoryError unit :=
  let status := request_status self in
  do? guard (negb (valid_ref (trigger_event_id self))
             || negb (valid_digest (command_fingerprint self))
             || (started_at_us self <? 0)%Z
             || match finished_at_us self with Some value => (value <? started_at_us self)%Z | None => false end
             || negb (all_unique (reason_codes self))
             || xorb (status ==? RecoveryRequestStatus.Pending) (is_none (parent_request_revision_id self))
             || xorb (request_is_terminal status) (is_some (finished_at_us self))
             || (status ==? RecoveryRequestStatus.Complete) && is_none (recovery_bundle_id self)
             || (status ==? RecoveryRequestStatus.Complete) && is_none (pre_operation_snapshot_id self)
             || (detection_status self !=? DestructiveDetectionStatus.Matched)) RepositoryError.InvalidRecovery in
  do? guard ((status ==? RecoveryRequestStatus.Pending)
             && (is_some (recovery_bundle_id self) || is_some (pre_operation_snapshot_id self)
                 || negb (is_empty (reason_codes self)))) RepositoryError.InvalidRecovery in
  guard (request_is_terminal status && is_empty (reason_codes self)) RepositoryError.InvalidRecovery.

Definition is_successor_of (self current : RecoveryCaptureRequest) : bool :=
  (recovery_capture_request_id self ==? recovery_capture_request_id current)
  && (request_status current ==? RecoveryRequestStatus.Pending)
  && request_is_terminal (request_status self)
  && (parent_request_revision_id self ==? Some (request_revision_id current))
  && (request_revision_id self !=? request_revision_id current)
  && (trigger_event_id self ==? trigger_event_id current)
  && (repository_instance_id self ==? repository_instance_id current)
  && (worktree_instance_id self ==? worktree_instance_id current)
  && (command_fingerprint self ==? command_fingerprint current)
  && (destructive_class self ==? destructive_class current)
  && (untracked_capture_scope self ==? untracked_capture_scope current)
  && (detection_status self ==? detection_status current)
  && (started_at_us self =? started_at_us current)%Z
  && (effective_config_hash self ==? effective_config_hash current).
End RecoveryCaptureRequest.
Abbreviation RecoveryCaptureRequest := RecoveryCaptureRequest.RecoveryCaptureRequest.
Export (hints) RecoveryCaptureRequest.

(** ** Anchors of attempts *)

Module RecoveryConfinedFileIdentity.
Record RecoveryConfinedFileIdentity := mk {
  device : N;
  inode : N;
  size : N;
  mtime_seconds : Z;
  mtime_nanoseconds : N;
  ctime_seconds : Z;
  ctime_nanoseconds : N;
}.
#[export] Instance eq_dec : EqDecision RecoveryConfinedFileIdentity.
Proof. solve_decision. Defined.
End RecoveryConfinedFileIdentity.
Abbreviation RecoveryConfinedFileIdentity := RecoveryConfinedFileIdentity.RecoveryConfinedFileIdentity.
Export (hints) RecoveryConfinedFileIdentity.

Module RecoveryCompetingGroupClaim.
Record RecoveryCompetingGroupClaim := mk {
  competing_group_id : CompetingAttemptGroupId;
  revision_id : RevisionId;
  resolution_status : CompetingResolutionStatus;
}.
#[export] Instance eq_dec : EqDecision RecoveryCompetingGroupClaim.
Proof. solve_decision. Defined.
End RecoveryCompetingGroupClaim.
Abbreviation RecoveryCompetingGroupClaim := RecoveryCompetingGroupClaim.RecoveryCompetingGroupClaim.
Export (hints) RecoveryCompetingGroupClaim.

(** [values.windows(2).any(|pair| pair[0].competing_group_id >= pair[1].competing_group_id)]. *)
Definition groups_unordered (values : list RecoveryCompetingGroupClaim) : bool :=
  windows2_any (fun a b => leb_ord (RecoveryCompetingGroupClaim.competing_group_id b)
                             (RecoveryCompetingGroupClaim.competing_group_id a)) values.

Module RecoveryAttemptAnchorClaim.
Record RecoveryAttemptAnchorClaim := mk {
  attempt_id : AttemptId;
  attempt_revision_id : RevisionId;
  strategy_contract_fingerprint : list byte;
  source_repository_instance_id : RepositoryId;
  source_worktree_instance_id : WorktreeId;
  source_snapshot_id : WorktreeSnapshotId;
  affected_relative_path : RecoveryProtectedRef;
  source_file_identity : RecoveryConfinedFileIdentity;
  competing_groups : list RecoveryCompetingGroupClaim;
}.
#[export] Instance eq_dec : EqDecision RecoveryAttemptAnchorClaim.
Proof. solve_decision. Defined.
Definition validate (self : RecoveryAttemptAnchorClaim) : result RepositoryError unit :=
  let path := affected_relative_path self in
  let file := source_file_identity self in
  guard ((strategy_contract_fingerprint self ==? replicate 32 Byte.x00)
         || negb (RecoveryProtectedRef.redaction_spans path =? 0)%N
         || is_some (RecoveryProtectedRef.protected_secret_digest path)
         || is_err (RecoveryProtectedRef.validate path true)
         || (RecoveryProtectedRef.original_length path =? 0)%N
         || (4096 <? RecoveryProtectedRef.original_length path)%N
         || negb (RecoveryProtectedRef.protected_length path =? RecoveryProtectedRef.original_length path)%N
         || (RecoveryConfinedFileIdentity.device file =? 0)%N
         || (RecoveryConfinedFileIdentity.inode file =? 0)%N
         || (1000000000 <=? RecoveryConfinedFileIdentity.mtime_nanoseconds file)%N
         || (1000000000 <=? RecoveryConfinedFileIdentity.ctime_nanoseconds file)%N
         || (256 <? length (competing_groups self))%nat
         || groups_unordered (competing_groups self)) RepositoryError.InvalidRecovery.
End RecoveryAttemptAnchorClaim.
Abbreviation RecoveryAttemptAnchorClaim := RecoveryAttemptAnchorClaim.RecoveryAttemptAnchorClaim.
Export (hints) RecoveryAttemptAnchorClaim.

Definition unique_anchor_claims (values : list RecoveryAttemptAnchorClaim) : bool :=
  (length values <=? 256)%nat
  && all (fun value => is_ok (RecoveryAttemptAnchorClaim.validate value)) values
  && windows2_all (fun a b => ltb_ord (RecoveryAttemptAnchorClaim.attempt_id a) (RecoveryAttemptAnchorClaim.attempt_id b)) values.

(** ** Bundles *)

(** [iter.try_fold(total, |total, value| total.checked_add(value.protected_bytes()?))]. *)
Fixpoint content_total (total : N) (values : list RecoveryContentRef) : option N :=
  match values with
  | [] => Some total
  | value :: values =>
      match RecoveryContentRef.protected_bytes value with
      | Some bytes => match checked_add_u64 total bytes with Some total => content_total total values | None => None end
      | None => None
      end
  end.

(** The paths of the anchors: each stored path counts once. *)
Fixpoint claims_total (seen : list string) (sum : N) (claims : list RecoveryAttemptAnchorClaim) : option N :=
  match claims with
  | [] => Some sum
  | claim :: claims =>
      let path := RecoveryAttemptAnchorClaim.affected_relative_path claim in
      if contains (RecoveryProtectedRef.cas_ref path) seen then claims_total seen sum claims
      else
        match checked_add_u64 sum (RecoveryProtectedRef.protected_length path) with
        | Some sum => claims_total (RecoveryProtectedRef.cas_ref path :: seen) sum claims
        | None => None
        end
  end.

Definition unique_omissions (values : list RecoveryOmission) : bool :=
  all (fun value => valid_ref (RecoveryOmission.item_ref value)
                    && match RecoveryOmission.metadata_ref value with Some ref => valid_ref ref | None => true end) values
  && all_inserted [] (RecoveryOmission.item_ref <$> values).

Module RecoveryBundle.
Record RecoveryBundle := mk {
  recovery_bundle_id : RecoveryBundleId;
  source_worktree_instance_id : WorktreeId;
  source_snapshot_id : WorktreeSnapshotId;
  trigger_request_ids : list RecoveryCaptureRequestId;
  tracked_diff_blob_refs : list RecoveryContentRef;
  tracked_file_blob_refs : list RecoveryContentRef;
  index_state_refs : list RecoveryContentRef;
  untracked_file_blob_refs : list RecoveryContentRef;
  untracked_work_artifact_refs : list string;
  metadata_only_work_artifact_refs : list string;
  config_and_run_refs : list string;
  attempt_anchor_ids : list AttemptId;
  attempt_anchor_claims : list RecoveryAttemptAnchorClaim;
  omissions : list RecoveryOmission;
  capture_status : RecoveryCaptureStatus;
  ordering_integrity : OrderingIntegrity;
  adapter_manifest_id : string;
  eligible_mutation_manifest_version : N;
  eligible_mutation_domain : string;
  captured_bytes : N;
  captured_at_us : Z;
}.
#[export] Instance eq_dec : EqDecision RecoveryBundle.
Proof. solve_decision. Defined.
Definition contents (self : RecoveryBundle) : list RecoveryContentRef :=
  tracked_diff_blob_refs self ++ tracked_file_blob_refs self ++ index_state_refs self ++ untracked_file_blob_refs self.

Definition unique_content_refs (self : RecoveryBundle) : bool :=
  all_inserted [] (RecoveryContentRef.item_ref <$> contents self).

Definition is_exact_patch_only_anchor_shape (self : RecoveryBundle) : bool :=
  (capture_status self ==? RecoveryCaptureStatus.Complete)
  && (ordering_integrity self ==? OrderingIntegrity.Complete)
  && is_empty (omissions self)
  && match tracked_diff_blob_refs self with
     | [content] => RecoveryContentRef.item_ref content ==? "git:tracked_diff"%string
     | _ => false
     end
  && is_empty (tracked_file_blob_refs self)
  && is_empty (index_state_refs self)
  && is_empty (untracked_file_blob_refs self)
  && is_empty (untracked_work_artifact_refs self)
  && is_empty (metadata_only_work_artifact_refs self)
  && is_empty (config_and_run_refs self).

Definition content_bytes (self : RecoveryBundle) : option N :=
  match content_total 0 (contents self) with
  | Some total => claims_total [] total (attempt_anchor_claims self)
  | None => None
  end.

Definition has_recoverable_content (self : RecoveryBundle) : bool :=
  negb (is_empty (tracked_diff_blob_refs self))
  || negb (is_empty (tracked_file_blob_refs self))
  || negb (is_empty (index_state_refs self))
  || negb (is_empty (untracked_file_blob_refs self))
  || negb (is_empty (untracked_work_artifact_refs self))
  || negb (is_empty (metadata_only_work_artifact_refs self))
  || negb (is_empty (config_and_run_refs self)).

Definition validate (self : RecoveryBundle) : result RepositoryError unit :=
  do? for_each (fun value => RecoveryContentRef.validate value false)
        (tracked_diff_blob_refs self ++ index_state_refs self) in
  do? for_each (fun value => RecoveryContentRef.validate value true)
        (tracked_file_blob_refs self ++ untracked_file_blob_refs self) in
  let? bytes := ok_or (content_bytes self) RepositoryError.InvalidRecovery in
  let has_partial_fact := negb (is_empty (omissions self)) || (ordering_integrity self !=? OrderingIntegrity.Complete) in
  do? guard (is_empty (trigger_request_ids self)
             || (eligible_mutation_manifest_version self =? 0)%N
             || (eligible_mutation_domain self !=? SUPPORTED_MUTATION_DOMAIN)
             || negb (valid_ref (adapter_manifest_id self))
             || (captured_at_us self <? 0)%Z
             || negb (captured_bytes self =? bytes)%N
             || negb (has_recoverable_content self) && negb has_partial_fact
             || negb (all_unique (trigger_request_ids self))
             || negb (all_unique (attempt_anchor_ids self))
             || negb (unique_anchor_claims (attempt_anchor_claims self))
             || any (fun claim => negb (contains (RecoveryAttemptAnchorClaim.attempt_id claim) (attempt_anchor_ids self)))
                  (attempt_anchor_claims self)
             || negb (is_empty (attempt_anchor_claims self)) && negb (is_exact_patch_only_anchor_shape self)
             || negb (unique_valid_refs (untracked_work_artifact_refs self))
             || negb (unique_valid_refs (metadata_only_work_artifact_refs self))
             || negb (unique_valid_refs (config_and_run_refs self))
             || negb (unique_content_refs self)
             || negb (unique_omissions (omissions self))) RepositoryError.InvalidRecovery in
  do? guard ((capture_status self ==? RecoveryCaptureStatus.Complete)
             && (negb (has_recoverable_content self) || negb (is_empty (omissions self))
                 || (ordering_integrity self !=? OrderingIntegrity.Complete))) RepositoryError.InvalidRecovery in
  guard ((capture_status self ==? RecoveryCaptureStatus.Partial)
         && is_empty (omissions self) && (ordering_integrity self ==? OrderingIntegrity.Complete))
    RepositoryError.InvalidRecovery.
End RecoveryBundle.
Abbreviation RecoveryBundle := RecoveryBundle.RecoveryBundle.
Export (hints) RecoveryBundle.

(** ** Applications *)

Module RecoveryVerifierReceipt.
Record RecoveryVerifierReceipt := mk {
  verification_revision : N;
  verifier_version : N;
  result_source_observation_id : SourceObservationId;
  post_application_snapshot_id : WorktreeSnapshotId;
  outcome : RecoveryVerificationOutcome;
}.
#[export] Instance eq_dec : EqDecision RecoveryVerifierReceipt.
Proof. solve_decision. Defined.
End RecoveryVerifierReceipt.
Abbreviation RecoveryVerifierReceipt := RecoveryVerifierReceipt.RecoveryVerifierReceipt.
Export (hints) RecoveryVerifierReceipt.

Module RecoveryAnchorVerifierReceipt.
Record RecoveryAnchorVerifierReceipt := mk {
  verifier_version : N;
  attempt_id : AttemptId;
  source_attempt_revision_id : RevisionId;
  revalidated_attempt_revision_id : RevisionId;
  strategy_contract_fingerprint : list byte;
  source_repository_instance_id : RepositoryId;
  source_worktree_instance_id : WorktreeId;
  source_snapshot_id : WorktreeSnapshotId;
  target_repository_instance_id : RepositoryId;
  target_worktree_instance_id : WorktreeId;
  post_application_snapshot_id : WorktreeSnapshotId;
  affected_relative_path : RecoveryProtectedRef;
  competing_groups : list RecoveryCompetingGroupClaim;
  revalidated_competing_groups : list RecoveryCompetingGroupClaim;
  operation_id : OperationId;
  operation_revision : N;
  execution_lane_id : ExecutionLaneId;
  capture_receipt_revision_id : CaptureReceiptId;
  scope_effect_ids : list ScopeEffectId;
  result_source_observation_id : SourceObservationId;
  recovery_verification_revision : N;
}.
#[export] Instance eq_dec : EqDecision RecoveryAnchorVerifierReceipt.
Proof. solve_decision. Defined.
Definition validate (self : RecoveryAnchorVerifierReceipt) : result RepositoryError unit :=
  let path := affected_relative_path self in
  guard (negb (verifier_version self =? RECOVERY_ANCHOR_VERIFIER_VERSION)%N
         || (strategy_contract_fingerprint self ==? replicate 32 Byte.x00)
         || (source_repository_instance_id self !=? target_repository_instance_id self)
         || (source_worktree_instance_id self ==? target_worktree_instance_id self)
         || (operation_revision self =? 0)%N
         || (recovery_verification_revision self =? 0)%N
         || negb (strictly_ordered (scope_effect_ids self))
         || is_err (RecoveryProtectedRef.validate path true)
         || negb (RecoveryProtectedRef.redaction_spans path =? 0)%N
         || is_some (RecoveryProtectedRef.protected_secret_digest path)
         || (256 <? length (competing_groups self))%nat
         || groups_unordered (competing_groups self)
         || any (fun source => negb (any (fun current =>
                   RecoveryCompetingGroupClaim.competing_group_id current
                   ==? RecoveryCompetingGroupClaim.competing_group_id source) (revalidated_competing_groups self)))
              (competing_groups self)
         || groups_unordered (revalidated_competing_groups self)
         || any (fun group => RecoveryCompetingGroupClaim.resolution_status group !=? CompetingResolutionStatus.Selected)
              (revalidated_competing_groups self)) RepositoryError.InvalidRecovery.

(** What a revalidation of the same receipt keeps. *)
Definition same_transfer (prior successor : RecoveryAnchorVerifierReceipt) : bool :=
  (attempt_id prior ==? attempt_id successor)
  && (source_attempt_revision_id prior ==? source_attempt_revision_id successor)
  && (strategy_contract_fingerprint prior ==? strategy_contract_fingerprint successor)
  && (source_repository_instance_id prior ==? source_repository_instance_id successor)
  && (source_worktree_instance_id prior ==? source_worktree_instance_id successor)
  && (source_snapshot_id prior ==? source_snapshot_id successor)
  && (target_repository_instance_id prior ==? target_repository_instance_id successor)
  && (target_worktree_instance_id prior ==? target_worktree_instance_id successor)
  && (post_application_snapshot_id prior ==? post_application_snapshot_id successor)
  && (affected_relative_path prior ==? affected_relative_path successor)
  && (competing_groups prior ==? competing_groups successor)
  && (operation_id prior ==? operation_id successor)
  && (operation_revision prior =? operation_revision successor)%N
  && (execution_lane_id prior ==? execution_lane_id successor)
  && (capture_receipt_revision_id prior ==? capture_receipt_revision_id successor)
  && (scope_effect_ids prior ==? scope_effect_ids successor)
  && (result_source_observation_id prior ==? result_source_observation_id successor)
  && (recovery_verification_revision prior =? recovery_verification_revision successor)%N.
End RecoveryAnchorVerifierReceipt.
Abbreviation RecoveryAnchorVerifierReceipt := RecoveryAnchorVerifierReceipt.RecoveryAnchorVerifierReceipt.
Export (hints) RecoveryAnchorVerifierReceipt.

Definition verifier_outcome_progress (current next : RecoveryVerificationOutcome) : bool :=
  match current with
  | RecoveryVerificationOutcome.PartiallyApplied => true
  | RecoveryVerificationOutcome.Applied => next ==? RecoveryVerificationOutcome.Applied
  | RecoveryVerificationOutcome.NotApplied => next ==? RecoveryVerificationOutcome.NotApplied
  end.

(** The receipt at an index, against the one before. *)
Definition valid_verifier_receipt (values : list RecoveryVerifierReceipt) (index : nat) (value : RecoveryVerifierReceipt) : bool :=
  (RecoveryVerifierReceipt.verification_revision value =? N.min (N.of_nat (S index)) U32_MAX)%N
  && (RecoveryVerifierReceipt.verifier_version value =? 1)%N
  && match index with
     | O => true
     | S prior =>
         match values !! prior with
         | Some prior => verifier_outcome_progress (RecoveryVerifierReceipt.outcome prior) (RecoveryVerifierReceipt.outcome value)
         | None => false
         end
     end.

Definition valid_verifier_receipts (values : list RecoveryVerifierReceipt) : bool :=
  if (16 <? length values)%nat then false
  else all (fun iv : nat * RecoveryVerifierReceipt => valid_verifier_receipt values iv.1 iv.2) (imap pair values).

Definition verifier_history_progress (current next : list RecoveryVerifierReceipt) : bool :=
  (length next =? length current + 1)%nat && starts_with next current.

Definition anchor_receipt_revalidation_progress (current next : list RecoveryAnchorVerifierReceipt) : bool :=
  if is_empty current then negb (is_empty next)
  else
    (length current =? length next)%nat
    && all (fun ps : RecoveryAnchorVerifierReceipt * RecoveryAnchorVerifierReceipt =>
              RecoveryAnchorVerifierReceipt.same_transfer ps.1 ps.2) (zip current next)
    && any (fun ps : RecoveryAnchorVerifierReceipt * RecoveryAnchorVerifierReceipt =>
              (RecoveryAnchorVerifierReceipt.revalidated_attempt_revision_id ps.1
               !=? RecoveryAnchorVerifierReceipt.revalidated_attempt_revision_id ps.2)
              || (RecoveryAnchorVerifierReceipt.revalidated_competing_groups ps.1
                  !=? RecoveryAnchorVerifierReceipt.revalidated_competing_groups ps.2)) (zip current next).

Definition delivery_progress (current next : RecoveryInputDeliveryState) : bool :=
  (current ==? next)
  || (current ==? RecoveryInputDeliveryState.Admitted_) && (next ==? RecoveryInputDeliveryState.Delivered).

Module RecoveryApplication.
Record RecoveryApplication := mk {
  recovery_application_id : RecoveryApplicationId;
  revision_id : RevisionId;
  parent_revision_id : option RevisionId;
  recovery_bundle_id : RecoveryBundleId;
  target_worktree_instance_id : WorktreeId;
  pre_application_snapshot_id : WorktreeSnapshotId;
  post_application_snapshot_id : option WorktreeSnapshotId;
  application_kind : RecoveryApplicationKind;
  ticket_claims_version : N;
  selected_cas_refs : list CasId;
  input_delivery_kind : RecoveryInputDeliveryKind;
  input_delivery_state : RecoveryInputDeliveryState;
  operation_id : option OperationId;
  operation_revision : option N;
  execution_lane_id : option ExecutionLaneId;
  capture_receipt_revision_id : option CaptureReceiptId;
  scope_effect_ids : list ScopeEffectId;
  input_source_observation_ids : list SourceObservationId;
  result_source_observation_ids : list SourceObservationId;
  verifier_receipts : list RecoveryVerifierReceipt;
  relevant_attempt_anchor_ids : list AttemptId;
  attempt_anchor_claims : list RecoveryAttemptAnchorClaim;
  anchor_verifier_receipts : list RecoveryAnchorVerifierReceipt;
  application_status : RecoveryApplicationStatus;
  created_at_us : Z;
}.
#[export] Instance eq_dec : EqDecision RecoveryApplication.
Proof. solve_decision. Defined.
Definition status_evidence_is_valid (value : RecoveryApplication) : bool :=
  let with_terminal (terminal : RecoveryVerificationOutcome) :=
    match last (verifier_receipts value) with
    | None => false
    | Some receipt =>
        (input_delivery_state value ==? RecoveryInputDeliveryState.Delivered)
        && (result_source_observation_ids value ==? [RecoveryVerifierReceipt.result_source_observation_id receipt])
        && is_some (post_application_snapshot_id value)
        && (Some (RecoveryVerifierReceipt.post_application_snapshot_id receipt) ==? post_application_snapshot_id value)
        && all (fun candidate =>
             (RecoveryVerifierReceipt.result_source_observation_id candidate
              ==? RecoveryVerifierReceipt.result_source_observation_id receipt)
             && (RecoveryVerifierReceipt.post_application_snapshot_id candidate
                 ==? RecoveryVerifierReceipt.post_application_snapshot_id receipt)) (verifier_receipts value)
        && (RecoveryVerifierReceipt.outcome receipt ==? terminal)
    end in
  match application_status value with
  | RecoveryApplicationStatus.Unknown => is_empty (verifier_receipts value)
  | RecoveryApplicationStatus.Applied => with_terminal RecoveryVerificationOutcome.Applied
  | RecoveryApplicationStatus.PartiallyApplied => with_terminal RecoveryVerificationOutcome.PartiallyApplied
  | RecoveryApplicationStatus.Failed => with_terminal RecoveryVerificationOutcome.NotApplied
  end.

(** A receipt of an anchor against its claim, the operation and the verifier. *)
Definition anchor_receipt_matches (value : RecoveryApplication) (receipt : RecoveryAnchorVerifierReceipt)
    (claim : RecoveryAttemptAnchorClaim) : bool :=
  (RecoveryAnchorVerifierReceipt.source_attempt_revision_id receipt ==? RecoveryAttemptAnchorClaim.attempt_revision_id claim)
  && (RecoveryAnchorVerifierReceipt.strategy_contract_fingerprint receipt
      ==? RecoveryAttemptAnchorClaim.strategy_contract_fingerprint claim)
  && (RecoveryAnchorVerifierReceipt.source_repository_instance_id receipt
      ==? RecoveryAttemptAnchorClaim.source_repository_instance_id claim)
  && (RecoveryAnchorVerifierReceipt.source_worktree_instance_id receipt
      ==? RecoveryAttemptAnchorClaim.source_worktree_instance_id claim)
  && (RecoveryAnchorVerifierReceipt.source_snapshot_id receipt ==? RecoveryAttemptAnchorClaim.source_snapshot_id claim)
  && (RecoveryAnchorVerifierReceipt.affected_relative_path receipt ==? RecoveryAttemptAnchorClaim.affected_relative_path claim)
  && (RecoveryAnchorVerifierReceipt.competing_groups receipt ==? RecoveryAttemptAnchorClaim.competing_groups claim)
  && (RecoveryAnchorVerifierReceipt.target_worktree_instance_id receipt ==? target_worktree_instance_id value)
  && (Some (RecoveryAnchorVerifierReceipt.post_application_snapshot_id receipt) ==? post_application_snapshot_id value)
  && (Some (RecoveryAnchorVerifierReceipt.operation_id receipt) ==? operation_id value)
  && (Some (RecoveryAnchorVerifierReceipt.operation_revision receipt) ==? operation_revision value)
  && (Some (RecoveryAnchorVerifierReceipt.execution_lane_id receipt) ==? execution_lane_id value)
  && (Some (RecoveryAnchorVerifierReceipt.capture_receipt_revision_id receipt) ==? capture_receipt_revision_id value)
  && (RecoveryAnchorVerifierReceipt.scope_effect_ids receipt ==? scope_effect_ids value)
  && (result_source_observation_ids value ==? [RecoveryAnchorVerifierReceipt.result_source_observation_id receipt])
  && any (fun verifier =>
       (RecoveryVerifierReceipt.verification_revision verifier
        =? RecoveryAnchorVerifierReceipt.recovery_verification_revision receipt)%N
       && (RecoveryVerifierReceipt.outcome verifier ==? RecoveryVerificationOutcome.Applied)
       && (RecoveryVerifierReceipt.result_source_observation_id verifier
           ==? RecoveryAnchorVerifierReceipt.result_source_observation_id receipt)
       && (RecoveryVerifierReceipt.post_application_snapshot_id verifier
           ==? RecoveryAnchorVerifierReceipt.post_application_snapshot_id receipt)) (verifier_receipts value).

Definition valid_anchor_verifier_receipts (value : RecoveryApplication) : bool :=
  let receipts := anchor_verifier_receipts value in
  if (256 <? length receipts)%nat
     || windows2_any (fun a b => leb_ord (RecoveryAnchorVerifierReceipt.attempt_id b)
                                   (RecoveryAnchorVerifierReceipt.attempt_id a)) receipts
     || any (fun receipt => is_err (RecoveryAnchorVerifierReceipt.validate receipt)) receipts
  then false
  else
    all (fun receipt =>
           match List.find (fun claim => RecoveryAttemptAnchorClaim.attempt_id claim
                                         ==? RecoveryAnchorVerifierReceipt.attempt_id receipt) (attempt_anchor_claims value) with
           | None => false
           | Some claim => anchor_receipt_matches value receipt claim
           end) receipts.

(** Nothing of the evidence is there yet. *)
Definition has_evidence (self : RecoveryApplication) : bool :=
  is_some (post_application_snapshot_id self)
  || is_some (operation_id self)
  || is_some (execution_lane_id self)
  || is_some (capture_receipt_revision_id self)
  || negb (is_empty (scope_effect_ids self))
  || negb (is_empty (input_source_observation_ids self))
  || negb (is_empty (result_source_observation_ids self))
  || negb (is_empty (verifier_receipts self))
  || negb (is_empty (anchor_verifier_receipts self)).

Definition validate (self : RecoveryApplication) : result RepositoryError unit :=
  let initial := is_none (parent_revision_id self) in
  let delivered := input_delivery_state self ==? RecoveryInputDeliveryState.Delivered in
  let operation_shape :=
    Bool.eqb (is_some (operation_id self)) (is_some (operation_revision self))
    && match operation_revision self with Some value => (0 <? value)%N | None => true end in
  let delivered_shape :=
    delivered && is_some (operation_id self) && is_some (execution_lane_id self)
    && is_some (capture_receipt_revision_id self) && negb (is_empty (scope_effect_ids self))
    && negb (is_empty (input_source_observation_ids self)) in
  guard ((created_at_us self <? 0)%Z
         || (ticket_claims_version self =? 0)%N
         || is_empty (selected_cas_refs self)
         || negb (strictly_ordered (selected_cas_refs self))
         || negb (strictly_ordered (scope_effect_ids self))
         || negb (strictly_ordered (input_source_observation_ids self))
         || negb (strictly_ordered (result_source_observation_ids self))
         || negb (valid_verifier_receipts (verifier_receipts self))
         || negb (strictly_ordered (relevant_attempt_anchor_ids self))
         || negb (unique_anchor_claims (attempt_anchor_claims self))
         || any (fun claim => negb (contains (RecoveryAttemptAnchorClaim.attempt_id claim) (relevant_attempt_anchor_ids self)))
              (attempt_anchor_claims self)
         || negb (valid_anchor_verifier_receipts self)
         || negb (is_empty (anchor_verifier_receipts self)) && (application_status self !=? RecoveryApplicationStatus.Applied)
         || negb operation_shape
         || initial && ((input_delivery_state self !=? RecoveryInputDeliveryState.Admitted_)
                        || (application_status self !=? RecoveryApplicationStatus.Unknown)
                        || has_evidence self)
         || negb initial && delivered && negb delivered_shape
         || (input_delivery_state self ==? RecoveryInputDeliveryState.Admitted_)
            && (has_evidence self || (application_status self !=? RecoveryApplicationStatus.Unknown))
         || negb (status_evidence_is_valid self)) RepositoryError.InvalidRecovery.

Definition has_complete_recorded_lineage_transfer_receipts (self : RecoveryApplication) : bool :=
  (application_status self ==? RecoveryApplicationStatus.Applied)
  && is_some (post_application_snapshot_id self)
  && negb (is_empty (relevant_attempt_anchor_ids self))
  && (length (relevant_attempt_anchor_ids self) =? length (attempt_anchor_claims self))%nat
  && (length (relevant_attempt_anchor_ids self) =? length (anchor_verifier_receipts self))%nat
  && (Some (pre_application_snapshot_id self) !=? post_application_snapshot_id self)
  && valid_anchor_verifier_receipts self
  && all (fun icr : AttemptId * RecoveryAttemptAnchorClaim * RecoveryAnchorVerifierReceipt =>
            (icr.1.1 ==? RecoveryAttemptAnchorClaim.attempt_id icr.1.2)
            && (icr.1.1 ==? RecoveryAnchorVerifierReceipt.attempt_id icr.2))
       (zip (zip (relevant_attempt_anchor_ids self) (attempt_anchor_claims self)) (anchor_verifier_receipts self)).

Definition anchor_progress (current self : RecoveryApplication) : bool :=
  anchor_receipt_revalidation_progress (anchor_verifier_receipts current) (anchor_verifier_receipts self).

Definition verification_progress (current self : RecoveryApplication) : bool :=
  option_progress (post_application_snapshot_id current) (post_application_snapshot_id self)
  || verifier_history_progress (verifier_receipts current) (verifier_receipts self).

Definition evidence_progress (current self : RecoveryApplication) : bool :=
  (input_delivery_state self !=? input_delivery_state current)
  || option_progress (operation_id current) (operation_id self)
  || option_progress (execution_lane_id current) (execution_lane_id self)
  || option_progress (capture_receipt_revision_id current) (capture_receipt_revision_id self)
  || strict_superset (scope_effect_ids current) (scope_effect_ids self)
  || strict_superset (input_source_observation_ids current) (input_source_observation_ids self)
  || strict_superset (result_source_observation_ids current) (result_source_observation_ids self)
  || option_progress (post_application_snapshot_id current) (post_application_snapshot_id self)
  || verifier_history_progress (verifier_receipts current) (verifier_receipts self)
  || anchor_progress current self.

(** What no revision of an application changes. *)
Definition same_plan (current self : RecoveryApplication) : bool :=
  (recovery_application_id self ==? recovery_application_id current)
  && (revision_id self !=? revision_id current)
  && (parent_revision_id self ==? Some (revision_id current))
  && (recovery_bundle_id self ==? recovery_bundle_id current)
  && (target_worktree_instance_id self ==? target_worktree_instance_id current)
  && (pre_application_snapshot_id self ==? pre_application_snapshot_id current)
  && (application_kind self ==? application_kind current)
  && (ticket_claims_version self =? ticket_claims_version current)%N
  && (selected_cas_refs self ==? selected_cas_refs current)
  && (relevant_attempt_anchor_ids self ==? relevant_attempt_anchor_ids current)
  && (attempt_anchor_claims self ==? attempt_anchor_claims current)
  && (input_delivery_kind self ==? input_delivery_kind current).

(** Evidence is only added. *)
Definition evidence_kept (current self : RecoveryApplication) : bool :=
  delivery_progress (input_delivery_state current) (input_delivery_state self)
  && option_compatible (operation_id current) (operation_id self)
  && option_compatible (operation_revision current) (operation_revision self)
  && option_compatible (execution_lane_id current) (execution_lane_id self)
  && option_compatible (capture_receipt_revision_id current) (capture_receipt_revision_id self)
  && contains_all (scope_effect_ids self) (scope_effect_ids current)
  && contains_all (input_source_observation_ids self) (input_source_observation_ids current)
  && contains_all (result_source_observation_ids self) (result_source_observation_ids current)
  && option_compatible (post_application_snapshot_id current) (post_application_snapshot_id self)
  && ((verifier_receipts self ==? verifier_receipts current)
      || verifier_history_progress (verifier_receipts current) (verifier_receipts self))
  && ((anchor_verifier_receipts self ==? anchor_verifier_receipts current) || anchor_progress current self).

Definition status_progress (current self : RecoveryApplication) : bool :=
  match application_status current with
  | RecoveryApplicationStatus.Applied =>
      (application_status self ==? RecoveryApplicationStatus.Applied)
      && (verification_progress current self || anchor_progress current self)
  | RecoveryApplicationStatus.Failed =>
      (application_status self ==? RecoveryApplicationStatus.Failed) && verification_progress current self
  | RecoveryApplicationStatus.PartiallyApplied =>
      contains (application_status self)
        [RecoveryApplicationStatus.PartiallyApplied; RecoveryApplicationStatus.Applied; RecoveryApplicationStatus.Failed]
      && evidence_progress current self
  | RecoveryApplicationStatus.Unknown => evidence_progress current self
  end.

Definition is_successor_of (self current : RecoveryApplication) : bool :=
  if is_err (validate self) || is_err (validate current) then false
  else
    same_plan current self && evidence_kept current self && status_progress current self
    && (created_at_us current <=? created_at_us self)%Z.
End RecoveryApplication.
Abbreviation RecoveryApplication := RecoveryApplication.RecoveryApplication.
Export (hints) RecoveryApplication.
