(* ===== verification/RecoveryStore.v ===== *)
(** * The store's record of recoveries (evertrace-store/src/projections/recovery.rs)

    The reducers that record requests, bundles and applications, the rebuilding of
    the current revisions from all revisions, and the relations that must hold
    between recoveries, worktrees, attempts and the captured operations. *)

From S2P Require Import Prelude Order Collections OrderedMap Text Canonical Ids Journal Lane Attempt Repository Evidence Recovery.

Definition RequestMap := list (RecoveryCaptureRequestId * (RecoveryCaptureRequest * N)).
Definition RequestRevisions := list (RevisionId * (RecoveryCaptureRequest * N)).
Definition BundleMap := list (RecoveryBundleId * (RecoveryBundle * N)).
Definition ApplicationMap := list (RecoveryApplicationId * (RecoveryApplication * N)).
Definition ApplicationRevisions := list (RevisionId * (RecoveryApplication * N)).

(** ** Recording *)

(** Whether a revision may follow what is current. *)
Definition request_follows (requests : RequestMap) (value : RecoveryCaptureRequest) (error : StoreError)
  : result StoreError unit :=
  match bmap_get (RecoveryCaptureRequest.recovery_capture_request_id value) requests with
  | None => guard (RecoveryCaptureRequest.request_status value !=? RecoveryRequestStatus.Pending) error
  | Some (current, _) => guard (negb (RecoveryCaptureRequest.is_successor_of value current)) error
  end.

Definition application_follows (applications : ApplicationMap) (value : RecoveryApplication) (error : StoreError)
  : result StoreError unit :=
  match bmap_get (RecoveryApplication.recovery_application_id value) applications with
  | None => guard (is_some (RecoveryApplication.parent_revision_id value)) error
  | Some (current, _) => guard (negb (RecoveryApplication.is_successor_of value current)) error
  end.

Definition record_request (requests : RequestMap) (revisions : RequestRevisions) (value : RecoveryCaptureRequest) (seq : N)
    (error : StoreError) : result StoreError (RequestMap * RequestRevisions) :=
  do? map_err (fun _ => error) (RecoveryCaptureRequest.validate value) in
  do? guard (is_some (bmap_get (RecoveryCaptureRequest.request_revision_id value) revisions)) error in
  do? request_follows requests value error in
  Ok (bmap_insert (RecoveryCaptureRequest.recovery_capture_request_id value) (value, seq) requests,
      bmap_insert (RecoveryCaptureRequest.request_revision_id value) (value, seq) revisions).

(** On an error the reducer's state is dropped by its caller. *)
Definition record_bundle (bundles : BundleMap) (value : RecoveryBundle) (seq : N) (error : StoreError)
  : result StoreError BundleMap :=
  do? map_err (fun _ => error) (RecoveryBundle.validate value) in
  do? guard (is_some (bmap_get (RecoveryBundle.recovery_bundle_id value) bundles)) error in
  Ok (bmap_insert (RecoveryBundle.recovery_bundle_id value) (value, seq) bundles).

Definition record_application (applications : ApplicationMap) (revisions : ApplicationRevisions) (value : RecoveryApplication)
    (seq : N) (error : StoreError) : result StoreError (ApplicationMap * ApplicationRevisions) :=
  do? map_err (fun _ => error) (RecoveryApplication.validate value) in
  do? guard (is_some (bmap_get (RecoveryApplication.revision_id value) revisions)) error in
  do? application_follows applications value error in
  Ok (bmap_insert (RecoveryApplication.recovery_application_id value) (value, seq) applications,
      bmap_insert (RecoveryApplication.revision_id value) (value, seq) revisions).

(** ** Rebuilding the current revisions *)

(** [values().cloned().collect()] and [sort_by_key(|(_, seq)| *seq)]. *)
Definition by_seq {A} (values : list (A * N)) : list (A * N) := sort_by (fun a b => (a.2 <=? b.2)%N) values.

Definition record_current_request (current : RequestMap) (value : RecoveryCaptureRequest) (seq : N) (error : StoreError)
  : result StoreError RequestMap :=
  do? request_follows current value error in
  Ok (bmap_insert (RecoveryCaptureRequest.recovery_capture_request_id value) (value, seq) current).

Fixpoint replay_requests (current : RequestMap) (remaining : list (RecoveryCaptureRequest * N)) (error : StoreError)
  : result StoreError RequestMap :=
  match remaining with
  | [] => Ok current
  | (value, seq) :: remaining =>
      let? current := record_current_request current value seq error in replay_requests current remaining error
  end.

Definition rebuild_requests (revisions : RequestRevisions) (error : StoreError) : result StoreError RequestMap :=
  replay_requests [] (by_seq revisions.*2) error.

Fixpoint replay_applications (current : ApplicationMap) (remaining : list (RecoveryApplication * N)) (error : StoreError)
  : result StoreError ApplicationMap :=
  match remaining with
  | [] => Ok current
  | (value, seq) :: remaining =>
      do? application_follows current value error in
      replay_applications (bmap_insert (RecoveryApplication.recovery_application_id value) (value, seq) current) remaining error
  end.

Definition rebuild_applications (revisions : ApplicationRevisions) (error : StoreError) : result StoreError ApplicationMap :=
  replay_applications [] (by_seq revisions.*2) error.

(** ** Relations *)

Record RecoveryRelationInputs := mk_inputs {
  requests : RequestMap;
  bundles : BundleMap;
  applications : ApplicationMap;
  application_revisions : ApplicationRevisions;
  worktrees : list (WorktreeId * (WorktreeInstance * N));
  snapshots : list (WorktreeSnapshotId * (WorktreeSnapshot * N));
  operation_revisions : list ((OperationId * N) * (Operation * N));
  execution_lane_revisions : list ((ExecutionLaneId * N) * (ExecutionLane * N));
  capture_receipt_revisions : list (CaptureReceiptId * (CaptureReceipt * N));
  scope_effects : list (ScopeEffectId * (ScopeEffect * N));
  source_observations : list (SourceObservationId * (SourceObservation * N));
  source_receipts : list (SourceReceiptId * (SourceReceipt * N));
  attempt_revisions : list (RevisionId * (Attempt * N));
  competing_group_revisions : list (RevisionId * (CompetingAttemptGroup * N));
}.

Definition cas_id (value : string) : option CasId :=
  let text := if starts_with (as_bytes value) (as_bytes "cas:") then value else ("cas:" +:+ value)%string in
  match digest_from_str DCas text with Ok id => Some id | Err _ => None end.

(** The attempts as they were at a frontier. *)
Definition current_attempts_at (revisions : list (RevisionId * (Attempt * N))) (frontier : N) : list (AttemptId * Attempt) :=
  (fun e => (e.1, e.2.1)) <$>
  foldl (fun (current : list (AttemptId * (Attempt * N))) (entry : Attempt * N) =>
           let replace := match bmap_get (Attempt.attempt_id entry.1) current with
                          | Some (_, current_seq) => (current_seq <? entry.2)%N
                          | None => true
                          end in
           if replace then bmap_insert (Attempt.attempt_id entry.1) entry current else current)
    [] (List.filter (fun entry => (entry.2 <=? frontier)%N) revisions.*2).

(** [max_by_key(|(_, seq)| *seq)]: the last of the greatest. *)
Definition max_by_seq {A} (values : list (A * N)) : option (A * N) :=
  foldl (fun best value =>
           match best with
           | Some best => if (best.2 <=? value.2)%N then Some value else Some best
           | None => Some value
           end) None values.

Definition latest_attempt_revision_at (revisions : list (RevisionId * (Attempt * N))) (attempt : AttemptId) (frontier : N)
  : option RevisionId :=
  (fun e => Attempt.revision_id e.1)
  <$> max_by_seq (List.filter (fun e => (Attempt.attempt_id e.1 ==? attempt) && (e.2 <=? frontier)%N) revisions.*2).

Definition latest_group_revision_at (revisions : list (RevisionId * (CompetingAttemptGroup * N)))
    (group : CompetingAttemptGroupId) (frontier : N) : option RevisionId :=
  (fun e => CompetingAttemptGroup.revision_id e.1)
  <$> max_by_seq (List.filter (fun e => (CompetingAttemptGroup.competing_group_id e.1 ==? group) && (e.2 <=? frontier)%N)
                    revisions.*2).

Section relations.
Context `{L : UuidLib}.
Variable inputs : RecoveryRelationInputs.

Definition corrupt {A} (o : option A) : result StoreError A := ok_or o StoreError.StoreCorrupt.

Definition request_related (request : RecoveryCaptureRequest) : result StoreError unit :=
  let? worktree := corrupt (bmap_get (RecoveryCaptureRequest.worktree_instance_id request) (worktrees inputs)) in
  do? guard (WorktreeInstance.repository_instance_id worktree.1 !=? RecoveryCaptureRequest.repository_instance_id request)
        StoreError.StoreCorrupt in
  do? match RecoveryCaptureRequest.pre_operation_snapshot_id request with
      | Some snapshot_id =>
          let? snapshot := corrupt (bmap_get snapshot_id (snapshots inputs)) in
          guard (WorktreeSnapshot.worktree_instance_id snapshot.1 !=? RecoveryCaptureRequest.worktree_instance_id request)
            StoreError.StoreCorrupt
      | None => Ok tt
      end in
  match RecoveryCaptureRequest.recovery_bundle_id request with
  | Some bundle_id =>
      let? bundle := corrupt (bmap_get bundle_id (bundles inputs)) in
      guard (negb (contains (RecoveryCaptureRequest.recovery_capture_request_id request)
                     (RecoveryBundle.trigger_request_ids bundle.1))) StoreError.StoreCorrupt
  | None => Ok tt
  end.

(** A group as a claim names it, at a frontier. *)
Definition group_stale (attempt : AttemptId) (frontier : N) (claim : RecoveryCompetingGroupClaim)
    (selected : CompetingAttemptGroup -> bool) : bool :=
  match bmap_get (RecoveryCompetingGroupClaim.revision_id claim) (competing_group_revisions inputs) with
  | None => true
  | Some (group, seq) =>
      (frontier <? seq)%N
      || (CompetingAttemptGroup.competing_group_id group !=? RecoveryCompetingGroupClaim.competing_group_id claim)
      || (CompetingAttemptGroup.resolution_status group !=? RecoveryCompetingGroupClaim.resolution_status claim)
      || negb (selected group)
      || negb (contains attempt (CompetingAttemptGroup.member_attempt_ids group))
      || (latest_group_revision_at (competing_group_revisions inputs) (CompetingAttemptGroup.competing_group_id group) frontier
          !=? Some (CompetingAttemptGroup.revision_id group))
  end.

(** Whether the claim of an anchor is not what its attempt was when the bundle was recorded. *)
Definition claim_stale (bundle : RecoveryBundle) (bundle_seq : N) (source_worktree : WorktreeInstance)
    (claim : RecoveryAttemptAnchorClaim) : bool :=
  match bmap_get (RecoveryAttemptAnchorClaim.attempt_revision_id claim) (attempt_revisions inputs) with
  | None => true
  | Some (attempt, _) =>
      (Attempt.attempt_id attempt !=? RecoveryAttemptAnchorClaim.attempt_id claim)
      || (latest_attempt_revision_at (attempt_revisions inputs) (RecoveryAttemptAnchorClaim.attempt_id claim) bundle_seq
          !=? Some (RecoveryAttemptAnchorClaim.attempt_revision_id claim))
      || (Attempt.strategy_contract_fingerprint attempt !=? RecoveryAttemptAnchorClaim.strategy_contract_fingerprint claim)
      || (Attempt.repository_instance_id attempt !=? Some (RecoveryAttemptAnchorClaim.source_repository_instance_id claim))
      || negb (contains (RecoveryAttemptAnchorClaim.source_worktree_instance_id claim) (Attempt.worktree_instance_ids attempt))
      || (RecoveryAttemptAnchorClaim.source_worktree_instance_id claim !=? RecoveryBundle.source_worktree_instance_id bundle)
      || (RecoveryAttemptAnchorClaim.source_snapshot_id claim !=? RecoveryBundle.source_snapshot_id bundle)
      || (RecoveryAttemptAnchorClaim.source_repository_instance_id claim
          !=? WorktreeInstance.repository_instance_id source_worktree)
      || ((RecoveryCompetingGroupClaim.competing_group_id <$> RecoveryAttemptAnchorClaim.competing_groups claim)
          !=? Attempt.competing_group_ids attempt)
      || any (fun group => group_stale (RecoveryAttemptAnchorClaim.attempt_id claim) bundle_seq group (fun _ => true))
           (RecoveryAttemptAnchorClaim.competing_groups claim)
  end.

(** Whether an attempt has to be an anchor of a bundle. *)
Definition relevant_attempt (bundle : RecoveryBundle) (source_worktree : WorktreeInstance) (attempt : Attempt) : bool :=
  (Attempt.repository_instance_id attempt ==? Some (WorktreeInstance.repository_instance_id source_worktree))
  && contains (RecoveryBundle.source_worktree_instance_id bundle) (Attempt.worktree_instance_ids attempt)
  && (Attempt.lifecycle_status attempt ==? AttemptLifecycleStatus.Active)
  && contains (Attempt.execution_status attempt)
       [AttemptExecutionStatus.Proposed; AttemptExecutionStatus.Active; AttemptExecutionStatus.Interrupted].

Definition bundle_related (bundle : RecoveryBundle) (bundle_seq : N) : result StoreError unit :=
  do? guard (negb (any (fun request : RecoveryCaptureRequest * N =>
                          (RecoveryCaptureRequest.recovery_bundle_id request.1 ==? Some (RecoveryBundle.recovery_bundle_id bundle))
                          && request_is_terminal (RecoveryCaptureRequest.request_status request.1)) (requests inputs).*2))
        StoreError.StoreCorrupt in
  let? source_worktree := corrupt (bmap_get (RecoveryBundle.source_worktree_instance_id bundle) (worktrees inputs)) in
  let? source_snapshot := corrupt (bmap_get (RecoveryBundle.source_snapshot_id bundle) (snapshots inputs)) in
  do? guard (negb (is_empty (RecoveryBundle.attempt_anchor_claims bundle))
             && ((bundle_seq <? source_snapshot.2)%N
                 || (WorktreeSnapshot.worktree_instance_id source_snapshot.1 !=? RecoveryBundle.source_worktree_instance_id bundle)
                 || (WorktreeSnapshot.capture_status source_snapshot.1 !=? SnapshotCaptureStatus.Complete)
                 || negb (is_empty (WorktreeSnapshot.omission_reasons source_snapshot.1))
                 || negb (RecoveryBundle.is_exact_patch_only_anchor_shape bundle))) StoreError.StoreCorrupt in
  let relevant := Attempt.attempt_id <$>
    List.filter (relevant_attempt bundle source_worktree.1) (current_attempts_at (attempt_revisions inputs) bundle_seq).*2 in
  guard ((RecoveryBundle.attempt_anchor_ids bundle !=? relevant)
         || any (claim_stale bundle bundle_seq source_worktree.1) (RecoveryBundle.attempt_anchor_claims bundle))
    StoreError.StoreCorrupt.

(** Every current application is a recorded revision. *)
Definition applications_recorded : result StoreError unit :=
  guard (any (fun current : RecoveryApplication * N =>
                match bmap_get (RecoveryApplication.revision_id current.1) (application_revisions inputs) with
                | None => true
                | Some (revision, _) => revision !=? current.1
                end) (applications inputs).*2) StoreError.StoreCorrupt.

(** The first revision of each application; a second one is corruption. *)
Fixpoint admitted_revisions (values : list RecoveryApplication) (admitted : list (RecoveryApplicationId * string))
  : result StoreError (list (RecoveryApplicationId * string)) :=
  match values with
  | [] => Ok admitted
  | value :: values =>
      let id := RecoveryApplication.recovery_application_id value in
      do? guard (is_some (bmap_get id admitted)) StoreError.StoreCorrupt in
      admitted_revisions values (bmap_insert id (rid_display (RecoveryApplication.revision_id value)) admitted)
  end.

(** What an application takes from its bundle. *)
Definition plan_differs (application : RecoveryApplication) (bundle : RecoveryBundle) : bool :=
  (RecoveryApplication.relevant_attempt_anchor_ids application !=? RecoveryBundle.attempt_anchor_ids bundle)
  || (RecoveryApplication.attempt_anchor_claims application !=? RecoveryBundle.attempt_anchor_claims bundle)
  || negb (is_empty (RecoveryApplication.attempt_anchor_claims application))
     && (negb (RecoveryBundle.is_exact_patch_only_anchor_shape bundle)
         || (RecoveryApplication.application_kind application !=? RecoveryApplicationKind.Patch)
         || (RecoveryApplication.input_delivery_kind application !=? RecoveryInputDeliveryKind.PatchStdin)
         || match RecoveryBundle.tracked_diff_blob_refs bundle with
            | [] => true
            | content :: _ =>
                match cas_id (RecoveryProtectedRef.cas_ref (RecoveryContentRef.payload content)) with
                | None => true
                | Some selected => RecoveryApplication.selected_cas_refs application !=? [selected]
                end
            end).

Definition available (bundle : RecoveryBundle) : list CasId :=
  omap (fun content => cas_id (RecoveryProtectedRef.cas_ref (RecoveryContentRef.payload content)))
    (RecoveryBundle.contents bundle).

(** The effects of the operation on the target, from the snapshot before it. *)
Definition effect_differs (application : RecoveryApplication) (operation_id : OperationId) (target : WorktreeInstance)
    (id : ScopeEffectId) : bool :=
  match bmap_get id (scope_effects inputs) with
  | None => true
  | Some (effect, _) =>
      (ScopeEffect.operation_id effect !=? operation_id)
      || (ScopeEffect.effect_role effect !=? EffectRole.Mutate)
      || (ScopeEffect.repository_instance_id effect !=? Some (WorktreeInstance.repository_instance_id target))
      || (ScopeEffect.worktree_instance_id effect !=? Some (RecoveryApplication.target_worktree_instance_id application))
      || (ScopeEffect.pre_snapshot_id effect !=? Some (RecoveryApplication.pre_application_snapshot_id application))
      || match ScopeEffect.post_snapshot_id effect with
         | Some id => Some id !=? RecoveryApplication.post_application_snapshot_id application
         | None => false
         end
  end.

Definition input_differs (application : RecoveryApplication) (admitted : string) (id : SourceObservationId) : bool :=
  match bmap_get id (source_observations inputs) with
  | None => true
  | Some (observation, _) =>
      (SourceObservation.observation_role observation !=? ObservationRole.Intent)
      || (HostCorrelationEvidence.strong_gate_receipt_ref (SourceObservation.correlation observation) !=? Some admitted)
      || match bmap_get (SourceObservation.source_receipt_ref observation) (source_receipts inputs) with
         | None => true
         | Some (receipt, _) =>
             (SourceReceipt.source_observation_id receipt !=? id)
             || match cas_id (SourceReceipt.cas_ref receipt) with
                | None => true
                | Some cas => negb (contains cas (RecoveryApplication.selected_cas_refs application))
                end
         end
  end.

Definition result_differs (admitted : string) (id : SourceObservationId) : bool :=
  match bmap_get id (source_observations inputs) with
  | None => true
  | Some (observation, _) =>
      (SourceObservation.observation_role observation !=? ObservationRole.Result)
      || (HostCorrelationEvidence.strong_gate_receipt_ref (SourceObservation.correlation observation) !=? Some admitted)
  end.

(** Whether the lane and its receipt were captured in full. *)
Definition fully_captured (lane : ExecutionLane) (receipt : CaptureReceipt) : bool :=
  (ExecutionLane.coverage_level lane ==? CoverageLevel.Full)
  && (ExecutionLane.source_coverage lane ==? SourceCoverage.Complete)
  && (ExecutionLane.pairing_integrity lane ==? PairingIntegrity.Complete)
  && (ExecutionLane.payload_integrity lane ==? PayloadIntegrity.Complete)
  && (ExecutionLane.ordering_integrity lane ==? Lane.OrderingIntegrity.Complete)
  && (CaptureReceipt.coverage_level receipt ==? CoverageLevel.Full)
  && (CaptureReceipt.source_coverage receipt ==? SourceCoverage.Complete)
  && (CaptureReceipt.pairing_integrity receipt ==? PairingIntegrity.Complete)
  && (CaptureReceipt.payload_integrity receipt ==? PayloadIntegrity.Complete)
  && (CaptureReceipt.ordering_integrity receipt ==? Lane.OrderingIntegrity.Complete).

Definition post_snapshot_complete (application : RecoveryApplication) : bool :=
  match RecoveryApplication.post_application_snapshot_id application with
  | None => false
  | Some post_id =>
      match bmap_get post_id (snapshots inputs) with
      | None => false
      | Some (post, _) =>
          (WorktreeSnapshot.worktree_instance_id post ==? RecoveryApplication.target_worktree_instance_id application)
          && (WorktreeSnapshot.capture_status post ==? SnapshotCaptureStatus.Complete)
          && is_empty (WorktreeSnapshot.omission_reasons post)
      end
  end.

(** An effect from the snapshot before to the one after, evidenced by a result. *)
Definition effect_evidenced (application : RecoveryApplication) (id : ScopeEffectId) : bool :=
  match bmap_get id (scope_effects inputs) with
  | None => false
  | Some (effect, _) =>
      (ScopeEffect.effect_role effect ==? EffectRole.Mutate)
      && (ScopeEffect.pre_snapshot_id effect ==? Some (RecoveryApplication.pre_application_snapshot_id application))
      && (ScopeEffect.post_snapshot_id effect ==? RecoveryApplication.post_application_snapshot_id application)
      && any (fun id => contains id (RecoveryApplication.result_source_observation_ids application)) (ScopeEffect.evidence_refs effect)
  end.

(** The operation that applied the recovery, as it was captured. *)
Definition operation_related (application : RecoveryApplication) (admitted : string) (target : WorktreeInstance)
    (operation_id : OperationId) (operation_revision : N) : result StoreError unit :=
  let? operation := corrupt (bmap_get (operation_id, operation_revision) (operation_revisions inputs)) in
  let? lane_id := corrupt (RecoveryApplication.execution_lane_id application) in
  let? receipt_id := corrupt (RecoveryApplication.capture_receipt_revision_id application) in
  let? receipt := corrupt (bmap_get receipt_id (capture_receipt_revisions inputs)) in
  match List.filter (fun lane : ExecutionLane * N =>
          (ExecutionLane.execution_lane_id lane.1 ==? lane_id)
          && (ExecutionLane.active_capture_receipt_revision_id lane.1 ==? CaptureReceipt.capture_receipt_revision_id receipt.1))
          (execution_lane_revisions inputs).*2 with
  | [(lane, _)] =>
      do? guard
        ((Operation.execution_lane_id operation.1 !=? Some lane_id)
         || (Operation.operation_kind operation.1 !=? OperationKind.Mutate)
         || (Operation.pairing_state operation.1 !=? PairingState.Paired)
         || negb (contains operation_id (ExecutionLane.operation_ids lane))
         || (CaptureReceipt.execution_lane_id receipt.1 !=? lane_id)
         || (Operation.scope_effect_ids operation.1 !=? RecoveryApplication.scope_effect_ids application)
         || (Operation.input_source_observation_refs operation.1 !=? RecoveryApplication.input_source_observation_ids application)
         || (Operation.result_source_observation_refs operation.1 !=? RecoveryApplication.result_source_observation_ids application)
         || any (effect_differs application operation_id target) (RecoveryApplication.scope_effect_ids application)
         || any (input_differs application admitted) (RecoveryApplication.input_source_observation_ids application)
         || any (result_differs admitted) (RecoveryApplication.result_source_observation_ids application))
        StoreError.StoreCorrupt in
      guard ((RecoveryApplication.application_status application !=? RecoveryApplicationStatus.Unknown)
             && (negb (fully_captured lane receipt.1) || negb (post_snapshot_complete application)
                 || negb (any (effect_evidenced application) (RecoveryApplication.scope_effect_ids application))))
        StoreError.StoreCorrupt
  | _ => Err StoreError.StoreCorrupt
  end.

Definition verifier_differs (application : RecoveryApplication) (receipt : RecoveryVerifierReceipt) : bool :=
  negb (RecoveryVerifierReceipt.verifier_version receipt =? 1)%N
  || (RecoveryApplication.result_source_observation_ids application
      !=? [RecoveryVerifierReceipt.result_source_observation_id receipt])
  || (RecoveryApplication.post_application_snapshot_id application
      !=? Some (RecoveryVerifierReceipt.post_application_snapshot_id receipt))
  || negb (is_some (bmap_get (RecoveryVerifierReceipt.result_source_observation_id receipt) (source_observations inputs)))
  || negb (is_some (bmap_get (RecoveryVerifierReceipt.post_application_snapshot_id receipt) (snapshots inputs))).

(** Whether a transferred anchor is not what its attempt was when the revision was recorded. *)
Definition anchor_stale (application : RecoveryApplication) (application_seq : N) (source target : WorktreeInstance)
    (receipt : RecoveryAnchorVerifierReceipt) : bool :=
  match bmap_get (RecoveryAnchorVerifierReceipt.source_attempt_revision_id receipt) (attempt_revisions inputs),
        bmap_get (RecoveryAnchorVerifierReceipt.revalidated_attempt_revision_id receipt) (attempt_revisions inputs) with
  | Some (source_attempt, _), Some (current_attempt, current_seq) =>
      (Attempt.attempt_id source_attempt !=? RecoveryAnchorVerifierReceipt.attempt_id receipt)
      || (Attempt.attempt_id current_attempt !=? RecoveryAnchorVerifierReceipt.attempt_id receipt)
      || (application_seq <? current_seq)%N
      || (RecoveryAnchorVerifierReceipt.source_repository_instance_id receipt !=? WorktreeInstance.repository_instance_id source)
      || (RecoveryAnchorVerifierReceipt.target_repository_instance_id receipt !=? WorktreeInstance.repository_instance_id target)
      || (RecoveryAnchorVerifierReceipt.target_worktree_instance_id receipt
          !=? RecoveryApplication.target_worktree_instance_id application)
      || (Attempt.repository_instance_id current_attempt
          !=? Some (RecoveryAnchorVerifierReceipt.source_repository_instance_id receipt))
      || negb (contains (RecoveryAnchorVerifierReceipt.source_worktree_instance_id receipt)
                 (Attempt.worktree_instance_ids current_attempt))
      || (latest_attempt_revision_at (attempt_revisions inputs) (RecoveryAnchorVerifierReceipt.attempt_id receipt) application_seq
          !=? Some (RecoveryAnchorVerifierReceipt.revalidated_attempt_revision_id receipt))
      || (Attempt.strategy_contract_fingerprint source_attempt
          !=? RecoveryAnchorVerifierReceipt.strategy_contract_fingerprint receipt)
      || (Attempt.strategy_contract_fingerprint current_attempt
          !=? RecoveryAnchorVerifierReceipt.strategy_contract_fingerprint receipt)
      || (Attempt.lifecycle_status current_attempt !=? AttemptLifecycleStatus.Active)
      || contains (Attempt.execution_status current_attempt)
           [AttemptExecutionStatus.Completed; AttemptExecutionStatus.Abandoned]
      || ((RecoveryCompetingGroupClaim.competing_group_id
           <$> RecoveryAnchorVerifierReceipt.revalidated_competing_groups receipt)
          !=? Attempt.competing_group_ids current_attempt)
      || any (fun group => group_stale (RecoveryAnchorVerifierReceipt.attempt_id receipt) application_seq group (fun group =>
                (CompetingAttemptGroup.resolution_status group ==? CompetingResolutionStatus.Selected)
                && (CompetingAttemptGroup.selected_attempt_id group ==? Some (RecoveryAnchorVerifierReceipt.attempt_id receipt))))
           (RecoveryAnchorVerifierReceipt.revalidated_competing_groups receipt)
  | _, _ => true
  end.

Definition application_related (admitted : list (RecoveryApplicationId * string)) (application : RecoveryApplication)
    (application_seq : N) : result StoreError unit :=
  let? admitted_revision := corrupt (bmap_get (RecoveryApplication.recovery_application_id application) admitted) in
  let? bundle := corrupt (bmap_get (RecoveryApplication.recovery_bundle_id application) (bundles inputs)) in
  do? guard (plan_differs application bundle.1) StoreError.StoreCorrupt in
  let? target := corrupt (bmap_get (RecoveryApplication.target_worktree_instance_id application) (worktrees inputs)) in
  let? source := corrupt (bmap_get (RecoveryBundle.source_worktree_instance_id bundle.1) (worktrees inputs)) in
  let? pre := corrupt (bmap_get (RecoveryApplication.pre_application_snapshot_id application) (snapshots inputs)) in
  do? guard ((WorktreeInstance.repository_instance_id target.1 !=? WorktreeInstance.repository_instance_id source.1)
             || (WorktreeSnapshot.worktree_instance_id pre.1 !=? RecoveryApplication.target_worktree_instance_id application)
             || match RecoveryApplication.post_application_snapshot_id application with
                | Some id =>
                    match bmap_get id (snapshots inputs) with
                    | None => true
                    | Some (snapshot, _) =>
                        WorktreeSnapshot.worktree_instance_id snapshot
                        !=? RecoveryApplication.target_worktree_instance_id application
                    end
                | None => false
                end) StoreError.StoreCorrupt in
  do? guard (any (fun id => negb (contains id (available bundle.1))) (RecoveryApplication.selected_cas_refs application))
        StoreError.StoreCorrupt in
  do? match RecoveryApplication.operation_id application, RecoveryApplication.operation_revision application with
      | Some operation_id, Some operation_revision =>
          operation_related application admitted_revision target.1 operation_id operation_revision
      | _, _ => Ok tt
      end in
  do? guard (any (verifier_differs application) (RecoveryApplication.verifier_receipts application)) StoreError.StoreCorrupt in
  guard (any (anchor_stale application application_seq source.1 target.1) (RecoveryApplication.anchor_verifier_receipts application))
    StoreError.StoreCorrupt.

Definition validate_relations : result StoreError unit :=
  do? for_each (fun request : RecoveryCaptureRequest * N => request_related request.1) (requests inputs).*2 in
  do? for_each (fun bundle : RecoveryBundle * N => bundle_related bundle.1 bundle.2) (bundles inputs).*2 in
  do? applications_recorded in
  let? admitted := admitted_revisions
    (List.filter (fun value => is_none (RecoveryApplication.parent_revision_id value)) (application_revisions inputs).*2.*1) [] in
  for_each (fun revision : RecoveryApplication * N => application_related admitted revision.1 revision.2)
    (application_revisions inputs).*2.
End relations.
