(* ===== verification/RecoveryFacts.v ===== *)
(** * What recoveries promise

    The revisions of an application change nothing of its plan, only add evidence,
    keep a verdict once it is final and are bounded in number; a bundle's size is
    the exact sum of its contents; the store's current revisions are rebuilt from
    all revisions; and an application that claims a verdict, or the transfer of
    attempts, is backed by what was captured.

    A request before a hard reset is resolved with a bundle of one diff and one
    unfinished attempt; the diff is applied in another worktree of the repository, the
    verifier confirms it, and the attempt is transferred. *)

From stdpp Require Import sorting.
From S2P Require Import Prelude Order Collections OrderedMap Text Canonical Ids Lane Journal Attempt Repository Evidence Recovery RecoveryStore.

Module ApplicationTheorems.
Import Recovery.RecoveryApplication.
Implicit Types (current next a b : RecoveryApplication).

(** One accepted revision. *)
Definition app_step current next : Prop := is_successor_of next current = true.

Lemma app_step_inv current next :
  app_step current next ->
  validate next = Ok tt /\ validate current = Ok tt /\ same_plan current next = true /\
  evidence_kept current next = true /\ status_progress current next = true.
Proof.
  unfold app_step, is_successor_of. destruct (is_err (validate next) || is_err (validate current)) eqn:E; [done|].
  intros H. guards. done.
Qed.

(** ** What a valid application has *)

(** What the validation establishes, by name. *)
Record valid_application a : Prop := {
  valid_scope : sorted_lt (scope_effect_ids a) /\ length (scope_effect_ids a) <= 256;
  valid_inputs : sorted_lt (input_source_observation_ids a) /\ length (input_source_observation_ids a) <= 256;
  valid_results : sorted_lt (result_source_observation_ids a) /\ length (result_source_observation_ids a) <= 256;
  valid_verifiers : valid_verifier_receipts (verifier_receipts a) = true;
  valid_anchors : valid_anchor_verifier_receipts a = true;
  valid_anchors_status : anchor_verifier_receipts a <> [] -> application_status a = RecoveryApplicationStatus.Applied;
  valid_initial : parent_revision_id a = None -> input_delivery_state a = RecoveryInputDeliveryState.Admitted_;
  valid_operation : is_some (operation_id a) = is_some (operation_revision a);
  valid_delivered : input_delivery_state a = RecoveryInputDeliveryState.Delivered ->
    is_some (operation_id a) = true /\ is_some (execution_lane_id a) = true /\
    is_some (capture_receipt_revision_id a) = true /\ scope_effect_ids a <> [] /\ input_source_observation_ids a <> [];
  valid_admitted : input_delivery_state a = RecoveryInputDeliveryState.Admitted_ ->
    has_evidence a = false /\ application_status a = RecoveryApplicationStatus.Unknown;
  valid_evidence : status_evidence_is_valid a = true;
}.

Lemma strictly_ordered_true {A} `{!Ord A} (l : list A) :
  strictly_ordered l = true <-> sorted_lt l /\ length l <= 256.
Proof. unfold strictly_ordered. rewrite andb_true_iff, Nat.leb_le, windows2_lt_sorted. tauto. Qed.

Lemma andb_imp p q : p && q = false <-> (p = true -> q = false).
Proof. destruct p, q; cbn; intuition done. Qed.

Lemma validate_application a : validate a = Ok tt -> valid_application a.
Proof.
  unfold validate. cbv zeta. intros H. apply guard_ok in H. rewrite !orb_false_iff in H.
  destruct H as [[[[[[[[[[[[[[[[[_ _] _] _] Hs] Hi] Hr] Hv] _] _] _] Ha] Has] Ho] Hin] Hd] Had] He].
  rewrite !negb_false_iff, ?strictly_ordered_true in *. rewrite andb_imp in *. split; try done.
  - intros Hn. eapply bool_decide_eq_true_1, negb_false_iff, Has. by destruct (anchor_verifier_receipts a).
  - intros E. rewrite E in Hin. destruct (input_delivery_state a); [done|]. by specialize (Hin eq_refl).
  - apply andb_true_iff in Ho as [Ho%Bool.eqb_prop _]. exact Ho.
  - intros E. rewrite E in *. destruct (parent_revision_id a); [|by specialize (Hin eq_refl)].
    specialize (Hd eq_refl). guards. done.
  - intros E. rewrite E in Had. specialize (Had eq_refl). guards. done.
Qed.

(** ** Histories of an application *)

Definition plan a :=
  (recovery_application_id a, recovery_bundle_id a, target_worktree_instance_id a, pre_application_snapshot_id a,
   application_kind a, ticket_claims_version a, selected_cas_refs a,
   (relevant_attempt_anchor_ids a, attempt_anchor_claims a, input_delivery_kind a)).

Definition kept {A} (o o' : option A) : Prop := forall x, o = Some x -> o' = Some x.
#[local] Instance kept_preorder {A} : PreOrder (@kept A).
Proof. split; red; unfold kept; auto. Qed.

Definition final_kept (s s' : RecoveryApplicationStatus) : Prop :=
  match s with
  | RecoveryApplicationStatus.Applied => s' = RecoveryApplicationStatus.Applied
  | RecoveryApplicationStatus.Failed => s' = RecoveryApplicationStatus.Failed
  | RecoveryApplicationStatus.PartiallyApplied => s' <> RecoveryApplicationStatus.Unknown
  | RecoveryApplicationStatus.Unknown => True
  end.

(** What every later revision has of an earlier one. *)
Record extends a b : Prop := {
  ext_plan : plan b = plan a;
  ext_delivered : input_delivery_state a = RecoveryInputDeliveryState.Delivered ->
    input_delivery_state b = RecoveryInputDeliveryState.Delivered;
  ext_operation : kept (operation_id a) (operation_id b) /\ kept (operation_revision a) (operation_revision b);
  ext_lane : kept (execution_lane_id a) (execution_lane_id b);
  ext_receipt : kept (capture_receipt_revision_id a) (capture_receipt_revision_id b);
  ext_post : kept (post_application_snapshot_id a) (post_application_snapshot_id b);
  ext_scope : scope_effect_ids a ⊆ scope_effect_ids b;
  ext_inputs : input_source_observation_ids a ⊆ input_source_observation_ids b;
  ext_results : result_source_observation_ids a ⊆ result_source_observation_ids b;
  ext_verifiers : verifier_receipts a `prefix_of` verifier_receipts b;
  ext_anchors : anchor_verifier_receipts b = [] -> anchor_verifier_receipts a = [];
  ext_status : final_kept (application_status a) (application_status b);
  ext_verdict : application_status a <> RecoveryApplicationStatus.Unknown ->
    result_source_observation_ids b = result_source_observation_ids a;
}.

Lemma extends_refl a : extends a a.
Proof. split; try done. by destruct (application_status a). Qed.

Lemma extends_trans a b c : extends a b -> extends b c -> extends a c.
Proof.
  intros [H1 H2 [H3 H3'] H4 H5 H6 H7 H8 H9 H10 H11 H12 H13] [G1 G2 [G3 G3'] G4 G5 G6 G7 G8 G9 G10 G11 G12 G13].
  split; try (etrans; eassumption); auto.
  - split; by etrans.
  - unfold final_kept in *. destruct (application_status a), (application_status b), (application_status c); done.
  - intros Ha. rewrite G13, H13; [done..|]. unfold final_kept in H12.
    destruct (application_status a), (application_status b); done.
Qed.

Lemma option_compatible_kept {A} `{!EqDecision A} (o o' : option A) : option_compatible o o' = true -> kept o o'.
Proof. unfold option_compatible. intros [H|H%bool_decide_eq_true_1]%orb_true_iff x E; subst; done. Qed.

Lemma verifier_prefix current next :
  (verifier_receipts next ==? verifier_receipts current)
  || verifier_history_progress (verifier_receipts current) (verifier_receipts next) = true ->
  verifier_receipts current `prefix_of` verifier_receipts next.
Proof.
  intros [->%bool_decide_eq_true_1|H]%orb_true_iff; [done|]. apply andb_true_iff in H as [_ (k & ->)%starts_with_true]. by exists k.
Qed.

(** A verdict is about one result. *)
Lemma verdict_result a :
  valid_application a -> application_status a <> RecoveryApplicationStatus.Unknown ->
  exists receipt, last (verifier_receipts a) = Some receipt /\
    input_delivery_state a = RecoveryInputDeliveryState.Delivered /\
    result_source_observation_ids a = [RecoveryVerifierReceipt.result_source_observation_id receipt] /\
    post_application_snapshot_id a = Some (RecoveryVerifierReceipt.post_application_snapshot_id receipt) /\
    RecoveryVerifierReceipt.outcome receipt =
      match application_status a with
      | RecoveryApplicationStatus.Applied => RecoveryVerificationOutcome.Applied
      | RecoveryApplicationStatus.PartiallyApplied => RecoveryVerificationOutcome.PartiallyApplied
      | _ => RecoveryVerificationOutcome.NotApplied
      end.
Proof.
  intros [_ _ _ _ _ _ _ _ _ _ He] Hs. unfold status_evidence_is_valid in He.
  destruct (application_status a), (last (verifier_receipts a)) as [receipt|]; try done;
    exists receipt; guards; done.
Qed.

Lemma step_extends current next : app_step current next -> extends current next.
Proof.
  intros (Hn%validate_application & Hc%validate_application & Hp & He & Hs)%app_step_inv.
  unfold same_plan in Hp. unfold evidence_kept in He. rewrite !andb_true_iff in He.
  guards_in Hp. rewrite N.eqb_eq in *.
  destruct He as [[[[[[[[[[E1 E2] E3] E4] E5] E6] E7] E8] E9] E10] E11].
  rewrite !contains_all_subset in *.
  assert (Hfinal : final_kept (application_status current) (application_status next)).
  { unfold status_progress in Hs. unfold final_kept.
    destruct (application_status current), (application_status next); cbn in Hs; try done. }
  split; try done; try (by apply verifier_prefix); try (by eapply option_compatible_kept); try (by split; eapply option_compatible_kept).
  - unfold plan. congruence.
  - intros E. rewrite E in E1. by destruct (input_delivery_state next).
  - intros E. rewrite E in E11. unfold anchor_progress, anchor_receipt_revalidation_progress in E11. rewrite E in E11.
    destruct (anchor_verifier_receipts current); [done|]. apply orb_true_iff in E11 as [E11%bool_decide_eq_true_1|]; done.
  - intros Hu. assert (Hu' : application_status next <> RecoveryApplicationStatus.Unknown).
    { unfold final_kept in Hfinal. destruct (application_status current), (application_status next); done. }
    destruct (verdict_result _ Hc Hu) as (r & _ & _ & R & _), (verdict_result _ Hn Hu') as (r' & _ & _ & R' & _).
    rewrite R, R' in *. f_equal. specialize (E8 _ (list_elem_of_here _ [])). by apply list_elem_of_singleton in E8.
Qed.

Lemma steps_extend n a b : nsteps app_step n a b -> extends a b.
Proof. induction 1 as [a|n a b c Hs _ IH]; [apply extends_refl|]. eapply extends_trans; [by apply step_extends|done]. Qed.

(** C16: along the revisions of an application nothing of its plan changes - the
    bundle, the target, the snapshot it starts from, the selected contents, the
    attempts to transfer - evidence is only added, the receipts of the verifier grow
    at the end, a verdict of success or failure is final, a partial one may only become
    one of these, none becomes unknown again, and once there is a verdict, a partial one
    included, it stays about the same result. *)
Theorem application_history n a b : nsteps app_step n a b -> extends a b.
Proof. apply steps_extend. Qed.

(** ** How many revisions there are *)

Definition osize {A} (o : option A) : nat := match o with Some _ => 1 | None => 0 end.

(** How much evidence a revision has. *)
Definition evidence a : nat :=
  (match input_delivery_state a with RecoveryInputDeliveryState.Delivered => 1 | _ => 0 end)
  + osize (operation_id a) + osize (execution_lane_id a) + osize (capture_receipt_revision_id a)
  + osize (post_application_snapshot_id a)
  + length (scope_effect_ids a) + length (input_source_observation_ids a) + length (result_source_observation_ids a)
  + length (verifier_receipts a).

Lemma kept_osize {A} (o o' : option A) : kept o o' -> osize o <= osize o'.
Proof. intros H. destruct o; [|cbn; lia]. by rewrite (H _ eq_refl). Qed.
Lemma progress_osize {A} (o o' : option A) : option_progress o o' = true -> S (osize o) = osize o'.
Proof. by destruct o, o'. Qed.

Lemma sorted_subset_length {A} `{!Ord A} (l k : list A) : sorted_lt l -> l ⊆ k -> length l <= length k.
Proof. intros Hl%sorted_lt_NoDup Hs. by apply submseteq_length, NoDup_submseteq. Qed.

Lemma evidence_bound a : valid_application a -> evidence a <= 789.
Proof.
  intros [[_ H1] [_ H2] [_ H3] H4 _ _ _ _ _ _ _]. unfold evidence.
  assert (length (verifier_receipts a) <= 16).
  { unfold valid_verifier_receipts in H4. destruct (Nat.ltb_spec 16 (length (verifier_receipts a))); [done|lia]. }
  assert (forall A (o : option A), osize o <= 1) as Ho by (intros A []; cbn; lia).
  pose proof (Ho _ (operation_id a)). pose proof (Ho _ (execution_lane_id a)). pose proof (Ho _ (capture_receipt_revision_id a)).
  pose proof (Ho _ (post_application_snapshot_id a)). destruct (input_delivery_state a); lia.
Qed.

Lemma superset_length {A} `{!EqDecision A} (l k : list A) : strict_superset l k = true -> length l < length k.
Proof. unfold strict_superset. rewrite andb_true_iff, Nat.ltb_lt. tauto. Qed.
Lemma history_length l k : verifier_history_progress l k = true -> length l < length k.
Proof. unfold verifier_history_progress. rewrite andb_true_iff, Nat.eqb_eq. lia. Qed.

Lemma step_evidence current next :
  app_step current next -> anchor_verifier_receipts next = [] -> evidence current < evidence next.
Proof.
  intros Hs Hn. pose proof (step_extends _ _ Hs) as [_ Hd [Ho _] Hl Hr Hp Hsc Hin Hre Hv Ha _ _].
  specialize (Ha Hn). apply app_step_inv in Hs as (_ & Hc%validate_application & _ & _ & Hs).
  destruct Hc as [[Hc1 _] [Hc2 _] [Hc3 _] _ _ _ _ _ _ _ _].
  pose proof (sorted_subset_length _ _ Hc1 Hsc). pose proof (sorted_subset_length _ _ Hc2 Hin).
  pose proof (sorted_subset_length _ _ Hc3 Hre). apply prefix_length in Hv as Hvl.
  pose proof (kept_osize _ _ Ho). pose proof (kept_osize _ _ Hl). pose proof (kept_osize _ _ Hr). pose proof (kept_osize _ _ Hp).
  assert (Hna : anchor_progress current next = false).
  { unfold anchor_progress, anchor_receipt_revalidation_progress. by rewrite Ha, Hn. }
  assert (Hprog : evidence_progress current next = true).
  { assert (Hver : verification_progress current next = true -> evidence_progress current next = true).
    { unfold verification_progress, evidence_progress. intros [G|G]%orb_true_iff; rewrite G, ?orb_true_r; done. }
    unfold status_progress in Hs. rewrite Hna, ?orb_false_r in Hs.
    destruct (application_status current); [apply andb_true_iff in Hs as [_ Hs]; auto..|exact Hs]. }
  unfold evidence_progress in Hprog. rewrite Hna, orb_false_r, !orb_true_iff in Hprog. unfold evidence.
  assert (Hdl : (match input_delivery_state current with RecoveryInputDeliveryState.Delivered => 1 | _ => 0 end)
    <= (match input_delivery_state next with RecoveryInputDeliveryState.Delivered => 1 | _ => 0 end)).
  { destruct (input_delivery_state current); [destruct (input_delivery_state next); lia|]. by rewrite (Hd eq_refl). }
  destruct Hprog as [[[[[[[[G|G]|G]|G]|G]|G]|G]|G]|G].
  1: { destruct (input_delivery_state current), (input_delivery_state next); try done; [lia|]. by specialize (Hd eq_refl). }
  all: first [apply progress_osize in G|apply superset_length in G|apply history_length in G]; lia.
Qed.

(** C32: an application that transfers no attempts has at most 789 revisions after any
    given one: every revision adds to the evidence, and the validation bounds it. *)
Theorem application_bounded n a b :
  nsteps app_step n a b -> anchor_verifier_receipts b = [] -> n <= 789.
Proof.
  intros Hn Hb. destruct n as [|n]; [lia|].
  assert (Hev : evidence a + S n <= evidence b /\ validate b = Ok tt); [|destruct Hev as [Hev Hv];
    pose proof (evidence_bound _ (validate_application _ Hv)); lia].
  revert a Hn. induction n as [|n IH]; intros a Hn.
  - inversion Hn as [|? ? c ? Hs Hz]; subst. inversion Hz; subst.
    pose proof (step_evidence _ _ Hs Hb). apply app_step_inv in Hs as (Hv & _). split; [lia|done].
  - inversion Hn as [|? ? c ? Hs Hrest]; subst. destruct (IH _ Hrest) as [IHe IHv]. split; [|done].
    pose proof (steps_extend _ _ _ Hrest) as [_ _ _ _ _ _ _ _ _ _ Ha _ _]. pose proof (step_evidence _ _ Hs (Ha Hb)). lia.
Qed.
End ApplicationTheorems.

(** ** The size of a bundle *)

Module BundleTheorems.
Import Recovery.RecoveryBundle.

Definition path_size (o : option RecoveryProtectedRef) : N :=
  match o with Some path => RecoveryProtectedRef.protected_length path | None => 0 end.
Definition content_size (content : RecoveryContentRef) : N :=
  RecoveryProtectedRef.protected_length (RecoveryContentRef.payload content)
  + path_size (RecoveryContentRef.protected_relative_path content).
Definition total {A} (size : A -> N) (l : list A) : N := foldr (fun x sum => size x + sum)%N 0%N l.

Definition claim_path (claim : RecoveryAttemptAnchorClaim) : RecoveryProtectedRef :=
  RecoveryAttemptAnchorClaim.affected_relative_path claim.

(** The claims whose stored path was not met before. *)
Fixpoint first_paths (seen : list string) (claims : list RecoveryAttemptAnchorClaim) : list RecoveryAttemptAnchorClaim :=
  match claims with
  | [] => []
  | claim :: claims =>
      let path := RecoveryProtectedRef.cas_ref (claim_path claim) in
      if contains path seen then first_paths seen claims else claim :: first_paths (path :: seen) claims
  end.

Lemma first_paths_NoDup seen claims :
  NoDup ((RecoveryProtectedRef.cas_ref ∘ claim_path) <$> first_paths seen claims) /\
  (forall path, path ∈ ((RecoveryProtectedRef.cas_ref ∘ claim_path) <$> first_paths seen claims) <->
     (path ∉ seen) /\ path ∈ ((RecoveryProtectedRef.cas_ref ∘ claim_path) <$> claims)).
Proof.
  revert seen. induction claims as [|c claims IH]; intros seen; cbn; [split; [constructor|set_solver]|].
  destruct (contains _ seen) eqn:E; [apply contains_true in E|apply contains_false in E].
  - destruct (IH seen) as [Hn He]. split; [done|]. intros path. rewrite He, elem_of_cons. split; [tauto|].
    intros [Hp [->|?]]; [done|tauto].
  - destruct (IH (RecoveryProtectedRef.cas_ref (claim_path c) :: seen)) as [Hn He]. cbn. split.
    + constructor; [|done]. rewrite He. intros [Hp _]. apply Hp. by left.
    + intros path. rewrite !elem_of_cons, He, not_elem_of_cons. cbn. split.
      * intros [->|[[? ?] ?]]; [tauto|tauto].
      * intros [Hp [->|?]]; [by left|]. destruct (decide (path = RecoveryProtectedRef.cas_ref (claim_path c))); [by left|tauto].
Qed.

Lemma first_paths_subset seen claims : first_paths seen claims ⊆ claims.
Proof.
  revert seen. induction claims as [|c l IH]; intros seen; cbn; [done|].
  destruct (contains _ seen); [by apply list_subseteq_cons|]. by apply list_subseteq_skip.
Qed.

Lemma content_total_Some start l sum :
  content_total start l = Some sum -> sum = (start + total content_size l)%N /\ ((start <= U64_MAX)%N -> (sum <= U64_MAX)%N).
Proof.
  revert start. induction l as [|c l IH]; intros start; cbn [content_total total foldr].
  - intros [= <-]. split; [by rewrite N.add_0_r|done].
  - destruct (RecoveryContentRef.protected_bytes c) as [bytes|] eqn:Eb; [|done].
    destruct (checked_add_u64 start bytes) as [next|] eqn:En; [|done]. intros H. apply IH in H as [-> Hb].
    apply checked_add_u64_Some in En as [-> Hle]. unfold RecoveryContentRef.protected_bytes in Eb.
    apply checked_add_u64_Some in Eb as [-> _]. fold (path_size (RecoveryContentRef.protected_relative_path c)) in *.
    fold (content_size c) in *. change (foldr _ _ l) with (total content_size l). split; [lia|auto].
Qed.

Lemma claims_total_Some seen start l sum :
  claims_total seen start l = Some sum ->
  sum = (start + total (RecoveryProtectedRef.protected_length ∘ claim_path) (first_paths seen l))%N /\
  ((start <= U64_MAX)%N -> (sum <= U64_MAX)%N).
Proof.
  revert seen start. induction l as [|c l IH]; intros seen start; cbn [claims_total first_paths].
  - intros [= <-]. split; [by rewrite N.add_0_r|done].
  - change (RecoveryAttemptAnchorClaim.affected_relative_path c) with (claim_path c).
    destruct (contains _ seen); [apply IH|].
    destruct (checked_add_u64 start _) as [next|] eqn:En; [|done]. intros H. apply IH in H as [-> Hb].
    apply checked_add_u64_Some in En as [-> Hle]. cbn. split; [|auto].
    change (foldr _ _ ?l) with (total (RecoveryProtectedRef.protected_length ∘ claim_path) l). lia.
Qed.

(** The size recorded in a valid bundle is the sum of what was stored - of every
    content its payload and its path, and of the anchors each stored path once - and
    it is exact: no sum of a valid bundle leaves the 64-bit range. *)
Theorem bundle_size bundle :
  validate bundle = Ok tt ->
  exists paths,
    paths ⊆ attempt_anchor_claims bundle /\
    NoDup ((RecoveryProtectedRef.cas_ref ∘ claim_path) <$> paths) /\
    (forall claim, claim ∈ attempt_anchor_claims bundle ->
       RecoveryProtectedRef.cas_ref (claim_path claim) ∈ ((RecoveryProtectedRef.cas_ref ∘ claim_path) <$> paths)) /\
    captured_bytes bundle =
      (total content_size (contents bundle) + total (RecoveryProtectedRef.protected_length ∘ claim_path) paths)%N /\
    (captured_bytes bundle <= U64_MAX)%N.
Proof.
  unfold validate. intros H. apply rbind_ok in H as ([] & _ & H). apply rbind_ok in H as ([] & _ & H).
  apply rbind_ok in H as (bytes & Hb%ok_or_ok & H). apply rbind_ok in H as ([] & Hg%guard_ok & _).
  assert (Hc : captured_bytes bundle = bytes).
  { rewrite !orb_false_iff in Hg. destruct_and? Hg. apply N.eqb_eq. by apply negb_false_iff. }
  clear Hg. unfold content_bytes in Hb. destruct (content_total 0 _) as [sum|] eqn:Es; [|done].
  apply content_total_Some in Es as [-> Hs]. apply claims_total_Some in Hb as [-> Hle].
  exists (first_paths [] (attempt_anchor_claims bundle)). destruct (first_paths_NoDup [] (attempt_anchor_claims bundle)) as [Hn He].
  split_and!; [|done| |done|].
  - apply first_paths_subset.
  - intros claim Hin. apply He. split; [apply not_elem_of_nil|]. apply list_elem_of_fmap. by exists claim.
  - rewrite Hc. apply Hle, Hs. unfold U64_MAX. lia.
Qed.
End BundleTheorems.

(** ** The record of a store *)

Module StoreTheorems.

(** Sorting by sequence numbers undoes any permutation of a history. *)
Lemma by_seq_perm {A} (l : list (A * N)) (h : list (A * N)) :
  StronglySorted (fun a b => (a.2 < b.2)%N) h -> l ≡ₚ h -> by_seq l = h.
Proof.
  intros Hh Hp. unfold by_seq.
  apply (StronglySorted_unique_strong (fun a b : A * N => (a.2 <=? b.2)%N = true)).
  - intros x y Hx Hy Hxy%N.leb_le Hyx%N.leb_le.
    assert (Hx' : x ∈ h) by (rewrite <-Hp, <-(sort_by_perm (fun a b : A * N => (a.2 <=? b.2)%N)); exact Hx).
    clear -Hh Hx' Hy Hxy Hyx. induction Hh as [|z h Hs IH Hz]; [by apply elem_of_nil in Hy|].
    rewrite Forall_forall in Hz. apply elem_of_cons in Hx' as [->|Hx'], Hy as [->|Hy]; [done| | |auto].
    + specialize (Hz _ Hy). cbn in Hz. lia.
    + specialize (Hz _ Hx'). cbn in Hz. lia.
  - apply sort_by_sorted.
    + intros x y. rewrite !N.leb_le. lia.
    + intros x y z. rewrite !N.leb_le. lia.
  - clear Hp. induction Hh as [|z h Hs IH Hz]; constructor; [done|]. eapply Forall_impl; [exact Hz|].
    intros y Hy. cbn in *. apply N.leb_le. lia.
  - by rewrite sort_by_perm.
Qed.

Lemma sorted_snoc {A} (h : list (A * N)) v (seq : N) :
  StronglySorted (fun a b => (a.2 < b.2)%N) h -> Forall (fun e => (e.2 < seq)%N) h ->
  StronglySorted (fun a b => (a.2 < b.2)%N) (h ++ [(v, seq)]).
Proof.
  induction 1 as [|z h Hs IH Hz]; intros Hf; cbn; [repeat constructor|]. inversion Hf; subst. constructor; [auto|].
  rewrite Forall_app, Forall_singleton. done.
Qed.

(** *** Applications *)

(** The revisions a store recorded, in the order of their events. *)
Inductive recorded_applications : list (RecoveryApplication * N) -> ApplicationMap -> ApplicationRevisions -> Prop :=
| recorded_applications_nil : recorded_applications [] [] []
| recorded_applications_snoc h current revisions value seq error current' revisions' :
    recorded_applications h current revisions -> Forall (fun e => (e.2 < seq)%N) h ->
    record_application current revisions value seq error = Ok (current', revisions') ->
    recorded_applications (h ++ [(value, seq)]) current' revisions'.

Lemma record_application_ok current revisions value seq error current' revisions' :
  record_application current revisions value seq error = Ok (current', revisions') ->
  RecoveryApplication.validate value = Ok tt /\
  bmap_get (RecoveryApplication.revision_id value) revisions = None /\
  (forall e, application_follows current value e = Ok tt) /\
  current' = bmap_insert (RecoveryApplication.recovery_application_id value) (value, seq) current /\
  revisions' = bmap_insert (RecoveryApplication.revision_id value) (value, seq) revisions.
Proof.
  unfold record_application. intros H. apply rbind_ok in H as ([] & Hv%map_err_ok & H).
  apply rbind_ok in H as ([] & Hg%guard_ok & H). apply rbind_ok in H as ([] & Hf & [= <- <-]).
  split_and!; try done; [by apply is_some_false|]. intros e. unfold application_follows in *.
  destruct (bmap_get _ current) as [[c n]|]; apply guard_ok in Hf; by rewrite Hf.
Qed.

Lemma replay_applications_app current l1 l2 error :
  replay_applications current (l1 ++ l2) error =
  let? current := replay_applications current l1 error in replay_applications current l2 error.
Proof.
  revert current. induction l1 as [|[v n] l1 IH]; intros current; cbn; [done|].
  destruct (application_follows current v error); cbn; [apply IH|done].
Qed.

Lemma recorded_replay h current revisions error :
  recorded_applications h current revisions ->
  StronglySorted (fun a b => (a.2 < b.2)%N) h /\ revisions.*2 ≡ₚ h /\ replay_applications [] h error = Ok current.
Proof.
  induction 1 as [|h current revisions value seq e current' revisions' Hr (Hs & Hp & Hf) Hlt H]; [split_and!; [constructor|done..]|].
  apply record_application_ok in H as (_ & Hnew & Hfol & -> & ->). split_and!.
  - by apply sorted_snoc.
  - rewrite bmap_insert_perm by done. rewrite Hp. apply Permutation_cons_append.
  - rewrite replay_applications_app, Hf. cbn. by rewrite Hfol.
Qed.

(** The history of each application is a chain of accepted revisions, from one that
    has no parent. *)
Lemma recorded_chain h current revisions :
  recorded_applications h current revisions ->
  bmap_sorted current /\
  forall id value seq, bmap_get id current = Some (value, seq) ->
    RecoveryApplication.recovery_application_id value = id /\ (value, seq) ∈ h /\
    exists first n, RecoveryApplication.parent_revision_id first = None /\
      nsteps ApplicationTheorems.app_step n first value /\
      length (List.filter (fun e => RecoveryApplication.recovery_application_id e.1 ==? id) h) = S n.
Proof.
  assert (Hcount : forall (h : list (RecoveryApplication * N)) v n id,
    length (List.filter (fun e => RecoveryApplication.recovery_application_id e.1 ==? id) (h ++ [(v, n)])) =
    (length (List.filter (fun e => RecoveryApplication.recovery_application_id e.1 ==? id) h)
     + if RecoveryApplication.recovery_application_id v ==? id then 1 else 0)%nat).
  { intros l v n id. rewrite List.filter_app, length_app. cbn. by destruct (_ ==? id). }
  intros H. assert (Hnone : (forall id, bmap_get id current = None ->
      length (List.filter (fun e => RecoveryApplication.recovery_application_id e.1 ==? id) h) = 0%nat) /\ bmap_sorted current /\
    forall id value seq, bmap_get id current = Some (value, seq) ->
    RecoveryApplication.recovery_application_id value = id /\ (value, seq) ∈ h /\
    exists first n, RecoveryApplication.parent_revision_id first = None /\
      nsteps ApplicationTheorems.app_step n first value /\
      length (List.filter (fun e => RecoveryApplication.recovery_application_id e.1 ==? id) h) = S n); [|tauto].
  induction H as [|h current revisions value seq e current' revisions' Hr (Hn & Hs & Hc) Hlt H].
  { split_and!; [done|constructor|done]. }
  apply record_application_ok in H as (_ & _ & Hfol & -> & ->). specialize (Hfol StoreError.StoreCorrupt).
  set (key := RecoveryApplication.recovery_application_id value) in *. unfold bmap_insert. split_and!.
  - intros id Hid. destruct (decide (key = id)) as [<-|Hne]; [by rewrite bmap_get_alter_eq in Hid|].
    rewrite bmap_get_alter_ne in Hid by done. rewrite Hcount, (Hn _ Hid). fold key. by rewrite bool_decide_eq_false_2.
  - by apply bmap_alter_sorted.
  - intros id v n Hg. destruct (decide (key = id)) as [<-|Hne].
    + rewrite bmap_get_alter_eq in Hg by done. injection Hg as <- <-. split; [done|].
      split; [apply elem_of_app; right; by left|]. rewrite Hcount. fold key. rewrite bool_decide_eq_true_2 by done.
      unfold application_follows in Hfol. fold key in Hfol.
      destruct (bmap_get key current) as [[c m]|] eqn:Ec; apply guard_ok in Hfol.
      * apply negb_false_iff in Hfol. destruct (Hc _ _ _ Ec) as (_ & _ & first & k & Hp & Hsteps & Hlen).
        exists first, (S k). split_and!; [done| |lia]. eapply nsteps_r; [exact Hsteps|exact Hfol].
      * apply is_some_false in Hfol. exists value, 0%nat. split_and!; [done|constructor|]. rewrite (Hn _ Ec). done.
    + rewrite bmap_get_alter_ne in Hg by done. destruct (Hc _ _ _ Hg) as (H1 & H2 & first & k & H3 & H4 & H5).
      split; [done|]. split; [apply elem_of_app; by left|]. exists first, k. split_and!; [done..|].
      rewrite Hcount. fold key. rewrite bool_decide_eq_false_2 by done. lia.
Qed.

(** C17: a store that is opened finds what the running one had: rebuilding the current
    revisions from all recorded ones, in the order of their events, gives the
    current revisions the reducer kept, and never fails; and the recorded
    revisions of each application form one chain of accepted revisions. *)
Theorem applications_rebuilt h current revisions error :
  recorded_applications h current revisions ->
  rebuild_applications revisions error = Ok current /\
  forall id value seq, bmap_get id current = Some (value, seq) ->
    exists first n, RecoveryApplication.parent_revision_id first = None /\
      nsteps ApplicationTheorems.app_step n first value /\
      length (List.filter (fun e => RecoveryApplication.recovery_application_id e.1 ==? id) h) = S n.
Proof.
  intros H. split.
  - destruct (recorded_replay _ _ _ error H) as (Hs & Hp & Hf). unfold rebuild_applications. by rewrite (by_seq_perm _ _ Hs Hp).
  - intros id value seq Hg. apply (proj2 (recorded_chain _ _ _ H)) in Hg. tauto.
Qed.

(** *** Requests *)

Inductive recorded_requests : list (RecoveryCaptureRequest * N) -> RequestMap -> RequestRevisions -> Prop :=
| recorded_requests_nil : recorded_requests [] [] []
| recorded_requests_snoc h current revisions value seq error current' revisions' :
    recorded_requests h current revisions -> Forall (fun e => (e.2 < seq)%N) h ->
    record_request current revisions value seq error = Ok (current', revisions') ->
    recorded_requests (h ++ [(value, seq)]) current' revisions'.

Lemma record_request_ok current revisions value seq error current' revisions' :
  record_request current revisions value seq error = Ok (current', revisions') ->
  RecoveryCaptureRequest.validate value = Ok tt /\
  bmap_get (RecoveryCaptureRequest.request_revision_id value) revisions = None /\
  (forall e, request_follows current value e = Ok tt) /\
  current' = bmap_insert (RecoveryCaptureRequest.recovery_capture_request_id value) (value, seq) current /\
  revisions' = bmap_insert (RecoveryCaptureRequest.request_revision_id value) (value, seq) revisions.
Proof.
  unfold record_request. intros H. apply rbind_ok in H as ([] & Hv%map_err_ok & H).
  apply rbind_ok in H as ([] & Hg%guard_ok & H). apply rbind_ok in H as ([] & Hf & [= <- <-]).
  split_and!; try done; [by apply is_some_false|]. intros e. unfold request_follows in *.
  destruct (bmap_get _ current) as [[c n]|]; apply guard_ok in Hf; by rewrite Hf.
Qed.

Lemma replay_requests_app current l1 l2 error :
  replay_requests current (l1 ++ l2) error =
  let? current := replay_requests current l1 error in replay_requests current l2 error.
Proof.
  revert current. induction l1 as [|[v n] l1 IH]; intros current; cbn; [done|].
  destruct (record_current_request current v n error); cbn; [apply IH|done].
Qed.

Definition revisions_of (id : RecoveryCaptureRequestId) (h : list (RecoveryCaptureRequest * N)) : list RecoveryCaptureRequest :=
  (List.filter (fun e => RecoveryCaptureRequest.recovery_capture_request_id e.1 ==? id) h).*1.

(** How far a request is. *)
Inductive request_state : list RecoveryCaptureRequest -> option RecoveryCaptureRequest -> Prop :=
| request_unknown : request_state [] None
| request_pending request :
    RecoveryCaptureRequest.request_status request = RecoveryRequestStatus.Pending ->
    request_state [request] (Some request)
| request_resolved request resolved :
    RecoveryCaptureRequest.request_status request = RecoveryRequestStatus.Pending ->
    RecoveryCaptureRequest.is_successor_of resolved request = true ->
    request_state [request; resolved] (Some resolved).

Lemma recorded_requests_inv h current revisions error :
  recorded_requests h current revisions ->
  StronglySorted (fun a b => (a.2 < b.2)%N) h /\ revisions.*2 ≡ₚ h /\ replay_requests [] h error = Ok current /\
  bmap_sorted current /\ forall id, request_state (revisions_of id h) (fst <$> bmap_get id current).
Proof.
  induction 1 as [|h current revisions value seq e current' revisions' Hr (Hs & Hp & Hf & Hm & Hst) Hlt H].
  { split_and!; [constructor|done|done|constructor|constructor]. }
  apply record_request_ok in H as (_ & Hnew & Hfol & -> & ->). split_and!.
  - by apply sorted_snoc.
  - rewrite bmap_insert_perm by done. rewrite Hp. apply Permutation_cons_append.
  - rewrite replay_requests_app, Hf. cbn. unfold record_current_request. by rewrite Hfol.
  - by apply bmap_alter_sorted.
  - intros id. specialize (Hfol StoreError.StoreCorrupt). unfold revisions_of, bmap_insert. rewrite List.filter_app, fmap_app. cbn.
    fold (revisions_of id h). specialize (Hst id).
    destruct (decide (RecoveryCaptureRequest.recovery_capture_request_id value = id)) as [<-|Hne].
    + rewrite bool_decide_eq_true_2, bmap_get_alter_eq by done. cbn. unfold request_follows in Hfol.
      destruct (bmap_get _ current) as [[c m]|]; apply guard_ok, negb_false_iff in Hfol; cbn in Hst.
      * assert (Hpend : RecoveryCaptureRequest.request_status c = RecoveryRequestStatus.Pending).
        { unfold RecoveryCaptureRequest.is_successor_of in Hfol. guards. done. }
        inversion Hst as [|? ? Hq Hc|request ? ? Hsucc Hq Hc]; subst; [by constructor|].
        unfold RecoveryCaptureRequest.is_successor_of in Hsucc. guards. by rewrite Hpend in *.
      * apply bool_decide_eq_true_1 in Hfol. inversion Hst as [Hq| |]; subst. by constructor.
    + rewrite bool_decide_eq_false_2, bmap_get_alter_ne by done. cbn. by rewrite app_nil_r.
Qed.

(** A capture request is resolved at most once: of every request a store recorded
    nothing, the pending request, or the pending request and one resolution that
    succeeds it; and the current requests are rebuilt from the recorded revisions. *)
Theorem request_resolved_once h current revisions error :
  recorded_requests h current revisions ->
  rebuild_requests revisions error = Ok current /\
  forall id, request_state (revisions_of id h) (fst <$> bmap_get id current).
Proof.
  intros H. destruct (recorded_requests_inv _ _ _ error H) as (Hs & Hp & Hf & _ & Hst). split; [|done].
  unfold rebuild_requests. by rewrite (by_seq_perm _ _ Hs Hp).
Qed.
End StoreTheorems.

(** ** What the relations of a store establish *)

Module RelationTheorems.
Section relations.
Context `{L : UuidLib}.
Implicit Types inputs : RecoveryRelationInputs.

Definition related inputs : Prop := validate_relations inputs = Ok tt.

Lemma related_bundle inputs id bundle seq :
  related inputs -> bmap_get id (bundles inputs) = Some (bundle, seq) -> bundle_related inputs bundle seq = Ok tt.
Proof.
  unfold related, validate_relations. intros H Hb. apply rbind_ok in H as ([] & _ & H).
  apply rbind_ok in H as ([] & Hf%for_each_ok & _). rewrite Forall_forall in Hf. apply (Hf (bundle, seq)).
  apply list_elem_of_fmap. exists (id, (bundle, seq)). split; [done|]. by apply bmap_get_elem.
Qed.

Lemma related_request inputs id request seq :
  related inputs -> bmap_get id (requests inputs) = Some (request, seq) -> request_related inputs request = Ok tt.
Proof.
  unfold related, validate_relations. intros H Hb. apply rbind_ok in H as ([] & Hf%for_each_ok & _).
  rewrite Forall_forall in Hf. apply (Hf (request, seq)).
  apply list_elem_of_fmap. exists (id, (request, seq)). split; [done|]. by apply bmap_get_elem.
Qed.

Lemma related_application inputs id application seq :
  related inputs -> bmap_get id (application_revisions inputs) = Some (application, seq) ->
  exists admitted, application_related inputs admitted application seq = Ok tt.
Proof.
  unfold related, validate_relations. intros H Hb. apply rbind_ok in H as ([] & _ & H). apply rbind_ok in H as ([] & _ & H).
  apply rbind_ok in H as ([] & _ & H). apply rbind_ok in H as (admitted & _ & Hf). exists admitted.
  apply for_each_ok in Hf. rewrite Forall_forall in Hf. apply (Hf (application, seq)).
  apply list_elem_of_fmap. exists (id, (application, seq)). split; [done|]. by apply bmap_get_elem.
Qed.

(** The parts of the relation of an application. *)
Lemma application_related_inv inputs admitted application seq :
  application_related inputs admitted application seq = Ok tt ->
  exists admission bundle bundle_seq target target_seq source source_seq pre pre_seq,
    bmap_get (RecoveryApplication.recovery_bundle_id application) (bundles inputs) = Some (bundle, bundle_seq) /\
    plan_differs application bundle = false /\
    bmap_get (RecoveryApplication.target_worktree_instance_id application) (worktrees inputs) = Some (target, target_seq) /\
    bmap_get (RecoveryBundle.source_worktree_instance_id bundle) (worktrees inputs) = Some (source, source_seq) /\
    bmap_get (RecoveryApplication.pre_application_snapshot_id application) (snapshots inputs) = Some (pre, pre_seq) /\
    WorktreeInstance.repository_instance_id target = WorktreeInstance.repository_instance_id source /\
    WorktreeSnapshot.worktree_instance_id pre = RecoveryApplication.target_worktree_instance_id application /\
    RecoveryApplication.selected_cas_refs application ⊆ available bundle /\
    (forall operation revision,
       RecoveryApplication.operation_id application = Some operation ->
       RecoveryApplication.operation_revision application = Some revision ->
       operation_related inputs application admission target operation revision = Ok tt) /\
    (forall receipt, receipt ∈ RecoveryApplication.anchor_verifier_receipts application ->
       anchor_stale inputs application seq source target receipt = false).
Proof.
  unfold application_related. intros H. apply rbind_ok in H as (admission & _ & H).
  apply rbind_ok in H as ([bundle bseq] & Hb%ok_or_ok & H). apply rbind_ok in H as ([] & Hp%guard_ok & H).
  apply rbind_ok in H as ([target tseq] & Ht%ok_or_ok & H). apply rbind_ok in H as ([source sseq] & Hs%ok_or_ok & H).
  apply rbind_ok in H as ([pre pseq] & Hpre%ok_or_ok & H). apply rbind_ok in H as ([] & Hg%guard_ok & H).
  apply rbind_ok in H as ([] & Hav%guard_ok & H). apply rbind_ok in H as ([] & Hop & H).
  apply rbind_ok in H as ([] & _ & Han%guard_ok).
  exists admission, bundle, bseq, target, tseq, source, sseq, pre, pseq. cbn [fst] in *.
  rewrite !orb_false_iff, !negb_false_iff, !bool_decide_eq_true in Hg. destruct Hg as [[Hg1 Hg2] _]. split_and!; try done.
  - apply any_false in Hav. rewrite Forall_forall in Hav. intros id Hid. specialize (Hav id Hid).
    by apply negb_false_iff, contains_true in Hav.
  - intros o r Ho Hr. rewrite Ho, Hr in Hop. exact Hop.
  - intros receipt Hr. apply any_false in Han. rewrite Forall_forall in Han. by apply Han.
Qed.

(** ** A verdict is backed *)

Lemma operation_related_inv inputs application admission target operation revision :
  operation_related inputs application admission target operation revision = Ok tt ->
  exists op op_seq lane lane_seq receipt,
    bmap_get (operation, revision) (operation_revisions inputs) = Some (op, op_seq) /\
    (lane, lane_seq) ∈ (execution_lane_revisions inputs).*2 /\
    RecoveryApplication.execution_lane_id application = Some (ExecutionLane.execution_lane_id lane) /\
    Operation.execution_lane_id op = Some (ExecutionLane.execution_lane_id lane) /\
    Operation.operation_kind op = OperationKind.Mutate /\ Operation.pairing_state op = PairingState.Paired /\
    operation ∈ ExecutionLane.operation_ids lane /\
    Operation.scope_effect_ids op = RecoveryApplication.scope_effect_ids application /\
    (RecoveryApplication.application_status application <> RecoveryApplicationStatus.Unknown ->
     fully_captured lane receipt = true /\ post_snapshot_complete inputs application = true /\
     exists id, id ∈ RecoveryApplication.scope_effect_ids application /\ effect_evidenced inputs application id = true).
Proof.
  unfold operation_related. intros H. apply rbind_ok in H as ([op oseq] & Ho%ok_or_ok & H).
  apply rbind_ok in H as (lane_id & Hl%ok_or_ok & H). apply rbind_ok in H as (receipt_id & _ & H).
  apply rbind_ok in H as ([receipt rseq] & _ & H). cbn [fst] in H.
  destruct (List.filter _ _) as [|[lane lseq] [|? ?]] eqn:Ef; [done| |done].
  assert (Hin : (lane, lseq) ∈ List.filter (fun lane : ExecutionLane * N =>
          (ExecutionLane.execution_lane_id lane.1 ==? lane_id)
          && (ExecutionLane.active_capture_receipt_revision_id lane.1 ==? CaptureReceipt.capture_receipt_revision_id receipt))
          (execution_lane_revisions inputs).*2) by (rewrite Ef; by left).
  apply elem_of_List_filter in Hin as [Hlane Hin]. cbn [fst] in Hlane. apply andb_true_iff in Hlane as [Hlane%bool_decide_eq_true_1 _].
  subst lane_id. apply rbind_ok in H as ([] & Hg%guard_ok & Hu%guard_ok). rewrite !orb_false_iff in Hg.
  destruct Hg as [[[[[[[[[[G1 G2] G3] G4] _] G6] _] _] _] _] _].
  rewrite negb_false_iff in *. rewrite ?bool_decide_eq_true in *. apply contains_true in G4.
  exists op, oseq, lane, lseq, receipt. split_and!; try done. intros Hs.
  apply andb_false_iff in Hu as [Hu|Hu]; [by apply negb_false_iff, bool_decide_eq_true_1 in Hu|].
  rewrite !orb_false_iff, !negb_false_iff in Hu. destruct Hu as [[U1 U2] U3]. split_and!; [done..|]. by apply any_true in U3.
Qed.

(** C15: no recovery is recorded as applied, partly applied or failed on anything less
    than complete evidence.  In a store whose relations hold, a valid application
    with a verdict names a bundle that a resolved request produced, selects only
    contents of that bundle, targets a worktree of the same repository, and was
    delivered by a paired mutating operation of a lane that was captured in full,
    with an effect that leads from the snapshot before to a complete snapshot after
    and is evidenced by the result the verdict is about. *)
Theorem verdict_evidenced inputs revision application seq :
  related inputs -> bmap_get revision (application_revisions inputs) = Some (application, seq) ->
  RecoveryApplication.validate application = Ok tt ->
  RecoveryApplication.application_status application <> RecoveryApplicationStatus.Unknown ->
  exists bundle bundle_seq request request_seq target target_seq source source_seq,
    bmap_get (RecoveryApplication.recovery_bundle_id application) (bundles inputs) = Some (bundle, bundle_seq) /\
    (request, request_seq) ∈ (requests inputs).*2 /\
    RecoveryCaptureRequest.recovery_bundle_id request = Some (RecoveryBundle.recovery_bundle_id bundle) /\
    request_is_terminal (RecoveryCaptureRequest.request_status request) = true /\
    RecoveryApplication.selected_cas_refs application ⊆ available bundle /\
    bmap_get (RecoveryApplication.target_worktree_instance_id application) (worktrees inputs) = Some (target, target_seq) /\
    bmap_get (RecoveryBundle.source_worktree_instance_id bundle) (worktrees inputs) = Some (source, source_seq) /\
    WorktreeInstance.repository_instance_id target = WorktreeInstance.repository_instance_id source /\
    exists op op_seq operation operation_revision lane lane_seq receipt effect effect_seq effect_id post post_seq verdict,
      bmap_get (operation, operation_revision) (operation_revisions inputs) = Some (op, op_seq) /\
      Operation.operation_kind op = OperationKind.Mutate /\ Operation.pairing_state op = PairingState.Paired /\
      (lane, lane_seq) ∈ (execution_lane_revisions inputs).*2 /\ operation ∈ ExecutionLane.operation_ids lane /\
      fully_captured lane receipt = true /\
      effect_id ∈ Operation.scope_effect_ids op /\ bmap_get effect_id (scope_effects inputs) = Some (effect, effect_seq) /\
      ScopeEffect.pre_snapshot_id effect = Some (RecoveryApplication.pre_application_snapshot_id application) /\
      ScopeEffect.post_snapshot_id effect = Some (RecoveryVerifierReceipt.post_application_snapshot_id verdict) /\
      bmap_get (RecoveryVerifierReceipt.post_application_snapshot_id verdict) (snapshots inputs) = Some (post, post_seq) /\
      WorktreeSnapshot.capture_status post = SnapshotCaptureStatus.Complete /\
      WorktreeSnapshot.worktree_instance_id post = RecoveryApplication.target_worktree_instance_id application /\
      RecoveryVerifierReceipt.result_source_observation_id verdict ∈ ScopeEffect.evidence_refs effect /\
      last (RecoveryApplication.verifier_receipts application) = Some verdict.
Proof.
  intros Hrel Hget Hv Hs. pose proof (ApplicationTheorems.validate_application _ Hv) as Hva.
  destruct (ApplicationTheorems.verdict_result _ Hva Hs) as (verdict & Hlast & Hdel & Hres & Hpost & _).
  destruct (ApplicationTheorems.valid_delivered _ Hva Hdel) as (Hop & _ & _ & _ & _).
  destruct (RecoveryApplication.operation_id application) as [operation|] eqn:Eop; [|done].
  pose proof (ApplicationTheorems.valid_operation _ Hva) as Hoprev. rewrite Eop in Hoprev.
  destruct (RecoveryApplication.operation_revision application) as [oprev|] eqn:Erev; [|done].
  destruct (related_application _ _ _ _ Hrel Hget) as (admitted & Happ).
  apply application_related_inv in Happ as (admission & bundle & bseq & target & tseq & source & sseq & pre & pseq &
    Hb & _ & Ht & Hsrc & _ & Hrepo & _ & Hav & Hoperation & _).
  pose proof (related_bundle _ _ _ _ Hrel Hb) as Hbr. unfold bundle_related in Hbr. apply rbind_ok in Hbr as ([] & Hreq%guard_ok & _).
  apply negb_false_iff, any_true in Hreq as ([request rseq] & Hin & Hreq). cbn [fst] in Hreq.
  apply andb_true_iff in Hreq as [Hreq%bool_decide_eq_true_1 Hterm].
  specialize (Hoperation _ _ Eop Erev). apply operation_related_inv in Hoperation as
    (op & oseq & lane & lseq & receipt & Ho & Hlane & _ & _ & Hk & Hpair & Hmem & Hsc & Hfull).
  destruct (Hfull Hs) as (Hcap & Hsnap & effect_id & Heff & Hev). unfold post_snapshot_complete in Hsnap. rewrite Hpost in Hsnap.
  destruct (bmap_get _ (snapshots inputs)) as [[post postseq]|] eqn:Epost in Hsnap; [|done].
  unfold effect_evidenced in Hev. destruct (bmap_get effect_id (scope_effects inputs)) as [[effect eseq]|] eqn:Eeff; [|done].
  rewrite Hpost, Hres in Hev. guards_in Hev. guards_in Hsnap.
  match goal with H : any _ _ = true |- _ => apply any_true in H as (x & Hx & Hx'%contains_true%list_elem_of_singleton) end. subst x.
  exists bundle, bseq, request, rseq, target, tseq, source, sseq. split_and!; try done.
  exists op, oseq, operation, oprev, lane, lseq, receipt, effect, eseq, effect_id, post, postseq, verdict.
  rewrite Hsc. split_and!; done.
Qed.

(** ** The transfer of attempts *)

Lemma zip3_elem {A B C} (l : list A) (k : list B) (m : list C) x :
  length l = length k -> length l = length m -> x ∈ l -> exists y z, (x, y, z) ∈ zip (zip l k) m.
Proof.
  revert k m. induction l as [|a l IH]; intros [|b k] [|c m] H1 H2 Hx; try done; [by apply elem_of_nil in Hx|].
  apply elem_of_cons in Hx as [->|Hx].
  - exists b, c. by left.
  - destruct (IH k m) as (y & z & Hz); [by injection H1|by injection H2|done|]. exists y, z. by right.
Qed.

Lemma zip_elem_r {A B} (l : list A) (k : list B) x y : (x, y) ∈ zip l k -> y ∈ k.
Proof. intros H. apply list_elem_of_lookup in H as (i & Hi). apply lookup_zip_Some in Hi as [_ Hi]. by eapply list_elem_of_lookup_2. Qed.

(** C14: when an application claims the complete transfer of the attempts of its
    bundle, none is left behind and none has gone stale: every attempt that was
    unfinished in the source worktree when the bundle was recorded has a receipt, and
    at the time of the application its latest revision is the one that was revalidated,
    still active and unfinished, with the same strategy, and selected in every group
    of competing attempts it belongs to. *)
Theorem lineage_transferred inputs revision application seq :
  related inputs -> bmap_get revision (application_revisions inputs) = Some (application, seq) ->
  RecoveryApplication.has_complete_recorded_lineage_transfer_receipts application = true ->
  exists bundle bundle_seq source source_seq,
    bmap_get (RecoveryApplication.recovery_bundle_id application) (bundles inputs) = Some (bundle, bundle_seq) /\
    bmap_get (RecoveryBundle.source_worktree_instance_id bundle) (worktrees inputs) = Some (source, source_seq) /\
    forall id attempt,
      (id, attempt) ∈ current_attempts_at (attempt_revisions inputs) bundle_seq ->
      relevant_attempt bundle source attempt = true ->
      exists receipt current current_seq,
        receipt ∈ RecoveryApplication.anchor_verifier_receipts application /\
        RecoveryAnchorVerifierReceipt.attempt_id receipt = Attempt.attempt_id attempt /\
        latest_attempt_revision_at (attempt_revisions inputs) (Attempt.attempt_id attempt) seq
          = Some (RecoveryAnchorVerifierReceipt.revalidated_attempt_revision_id receipt) /\
        bmap_get (RecoveryAnchorVerifierReceipt.revalidated_attempt_revision_id receipt) (attempt_revisions inputs)
          = Some (current, current_seq) /\
        (current_seq <= seq)%N /\ Attempt.attempt_id current = Attempt.attempt_id attempt /\
        Attempt.strategy_contract_fingerprint current = RecoveryAnchorVerifierReceipt.strategy_contract_fingerprint receipt /\
        Attempt.lifecycle_status current = AttemptLifecycleStatus.Active /\
        Attempt.execution_status current <> AttemptExecutionStatus.Completed /\
        Attempt.execution_status current <> AttemptExecutionStatus.Abandoned /\
        forall group, group ∈ Attempt.competing_group_ids current ->
          exists claim selected selected_seq,
            bmap_get (RecoveryCompetingGroupClaim.revision_id claim) (competing_group_revisions inputs) = Some (selected, selected_seq) /\
            (selected_seq <= seq)%N /\ CompetingAttemptGroup.competing_group_id selected = group /\
            CompetingAttemptGroup.selected_attempt_id selected = Some (Attempt.attempt_id attempt) /\
            latest_group_revision_at (competing_group_revisions inputs) group seq
              = Some (CompetingAttemptGroup.revision_id selected).
Proof.
  intros Hrel Hget Hc. destruct (related_application _ _ _ _ Hrel Hget) as (admitted & Happ).
  apply application_related_inv in Happ as (admission & bundle & bseq & target & tseq & source & sseq & pre & pseq &
    Hb & Hplan & _ & Hsrc & _ & _ & _ & _ & _ & Hanchors).
  exists bundle, bseq, source, sseq. split_and!; [done..|]. intros id attempt Hin Hrelev.
  pose proof (related_bundle _ _ _ _ Hrel Hb) as Hbr. unfold bundle_related in Hbr. apply rbind_ok in Hbr as ([] & _ & Hbr).
  rewrite Hsrc in Hbr. cbn [corrupt ok_or rbind fst] in Hbr. apply rbind_ok in Hbr as (snap & _ & Hbr).
  apply rbind_ok in Hbr as ([] & _ & Hbr%guard_ok). apply orb_false_iff in Hbr as [Hids%negb_false_iff%bool_decide_eq_true_1 _].
  assert (Hplan' : RecoveryApplication.relevant_attempt_anchor_ids application = RecoveryBundle.attempt_anchor_ids bundle).
  { unfold plan_differs in Hplan. rewrite !orb_false_iff in Hplan. destruct Hplan as [[H _] _].
    by apply negb_false_iff, bool_decide_eq_true_1 in H. }
  assert (Hid : Attempt.attempt_id attempt ∈ RecoveryApplication.relevant_attempt_anchor_ids application).
  { rewrite Hplan', Hids. apply list_elem_of_fmap. exists attempt. split; [done|]. apply elem_of_List_filter. split; [done|].
    apply list_elem_of_fmap. by exists (id, attempt). }
  unfold RecoveryApplication.has_complete_recorded_lineage_transfer_receipts in Hc. rewrite !andb_true_iff in Hc.
  destruct Hc as [[[[[[[_ _] _] Hl1%Nat.eqb_eq] Hl2%Nat.eqb_eq] _] _] Hz].
  destruct (zip3_elem _ _ _ _ Hl1 Hl2 Hid) as (claim & receipt & Hzip).
  apply all_true in Hz. rewrite Forall_forall in Hz. specialize (Hz _ Hzip). cbn in Hz.
  apply andb_true_iff in Hz as [_ Hrid%bool_decide_eq_true_1]. apply zip_elem_r in Hzip as Hr.
  specialize (Hanchors _ Hr). unfold anchor_stale in Hanchors.
  destruct (bmap_get (RecoveryAnchorVerifierReceipt.source_attempt_revision_id receipt) _) as [[src srcseq]|]; [|done].
  destruct (bmap_get (RecoveryAnchorVerifierReceipt.revalidated_attempt_revision_id receipt) _) as [[current cseq]|] eqn:Ecur; [|done].
  rewrite !orb_false_iff in Hanchors.
  destruct Hanchors as [[[[[[[[[[[[[[_ A1] A2] _] _] _] _] _] A3] _] A4] A5] A6] A7] A8].
  rewrite negb_false_iff in *. rewrite ?bool_decide_eq_true in *. apply N.ltb_ge in A2. apply contains_false in A6.
  exists receipt, current, cseq. rewrite Hrid. split_and!; try done.
  - intros E. apply A6. rewrite E. by left.
  - intros E. apply A6. rewrite E. right. by left.
  - intros group Hgroup. rewrite <-A7 in Hgroup. apply list_elem_of_fmap in Hgroup as (gclaim & -> & Hg).
    apply any_false in A8. rewrite Forall_forall in A8. specialize (A8 _ Hg). unfold group_stale in A8.
    destruct (bmap_get _ (competing_group_revisions inputs)) as [[selected gseq]|] eqn:Eg; [|done].
    rewrite !orb_false_iff in A8. destruct A8 as [[[[[G1%N.ltb_ge G2] _] G3] _] G4].
    rewrite negb_false_iff in *. rewrite andb_true_iff in G3. rewrite ?bool_decide_eq_true in *. destruct G3 as [_ G3].
    exists gclaim, selected, gseq. split_and!; try done. by rewrite <-G2.
Qed.
End relations.
End RelationTheorems.

(** ** Witnesses *)

Module RecoveryWitnesses.

#[local] Existing Instance RefUuid.

Definition uid {f} (n : N) : Id f := mk_id (mk_uuid (0x0190a3b17c2d7e4f8a9b0c1d2e3f4000 + n)).
Definition rid (n : N) : RevisionId := mk_rid (mk_uuid (0x0190a3b17c2d7e4f8a9b0c1d2e3f4000 + n)).
Definition digest {f} (b : byte) : DigestId f := from_digest (replicate 32 b).
Definition hex64 (b : byte) : string := of_bytes (replicate 64 b).

Definition repository : RepositoryId := uid 10.
Definition stored (b : byte) (length : N) : RecoveryProtectedRef := RecoveryProtectedRef.mk (hex64 b) length length None 0.
Definition fingerprint : list byte := replicate 32 Byte.x01.
Definition groups : list RecoveryCompetingGroupClaim :=
  [RecoveryCompetingGroupClaim.mk (uid 60) (rid 61) CompetingResolutionStatus.Selected].

(** ** Requests *)

Definition request_with (revision : N) (parent : option RevisionId) (status : RecoveryRequestStatus)
    (snapshot : option WorktreeSnapshotId) (bundle : option RecoveryBundleId) (reasons : list RecoveryReasonCode)
    (finished : option Z) : RecoveryCaptureRequest :=
  RecoveryCaptureRequest.mk (uid 1) (rid revision) parent "trigger" repository (uid 22) snapshot (hex64 "c"%byte)
    DestructiveClass.GitResetHard UntrackedCaptureScope.Standard DestructiveDetectionStatus.Matched status bundle reasons
    100 finished (replicate 32 Byte.x02).
Definition pending := request_with 2 None RecoveryRequestStatus.Pending None None [] None.
Definition resolved := request_with 3 (Some (rid 2)) RecoveryRequestStatus.Complete (Some (uid 5)) (Some (uid 30))
  [RecoveryReasonCode.CaptureComplete] (Some 120%Z).
Definition requests_log : list (RecoveryCaptureRequest * N) := [(pending, 1%N); (resolved, 7%N)].

Definition get {E A} (d : A) (m : result E A) : A := match m with Ok a => a | Err _ => d end.
Definition requests1 := Eval vm_compute in get ([], []) (record_request [] [] pending 1 StoreError.StoreCorrupt).
Definition requests2 := Eval vm_compute in get ([], []) (record_request requests1.1 requests1.2 resolved 7 StoreError.StoreCorrupt).

Lemma log_requests : StoreTheorems.recorded_requests requests_log requests2.1 requests2.2.
Proof.
  apply (StoreTheorems.recorded_requests_snoc [(pending, 1%N)] requests1.1 requests1.2 resolved 7 StoreError.StoreCorrupt);
    [|repeat constructor; cbn; lia|vm_compute; reflexivity].
  apply (StoreTheorems.recorded_requests_snoc [] [] [] pending 1 StoreError.StoreCorrupt);
    [constructor|constructor|vm_compute; reflexivity].
Qed.

Lemma request_resolved_once_witness :
  StoreTheorems.request_state (StoreTheorems.revisions_of (uid 1) requests_log) (Some resolved).
Proof. exact (proj2 (StoreTheorems.request_resolved_once _ _ _ StoreError.StoreCorrupt log_requests) (uid 1)). Defined.

(** ** The bundle *)

Definition claim : RecoveryAttemptAnchorClaim :=
  RecoveryAttemptAnchorClaim.mk (uid 40) (rid 50) fingerprint repository (uid 22) (uid 5) (stored "d"%byte 8)
    (RecoveryConfinedFileIdentity.mk 1 2 8 3 4 5 6) groups.
Definition diff : RecoveryContentRef := RecoveryContentRef.mk "git:tracked_diff" (stored "b"%byte 100) None.
Definition bundle : RecoveryBundle :=
  RecoveryBundle.mk (uid 30) (uid 22) (uid 5) [uid 1] [diff] [] [] [] [] [] [] [uid 40] [claim] []
    RecoveryCaptureStatus.Complete OrderingIntegrity.Complete "adapter" 1 SUPPORTED_MUTATION_DOMAIN 108 110.

Lemma bundle_size_witness : RecoveryBundle.validate bundle = Ok tt /\ (RecoveryBundle.captured_bytes bundle <= U64_MAX)%N.
Proof.
  assert (H : RecoveryBundle.validate bundle = Ok tt) by (vm_compute; reflexivity). split; [exact H|].
  destruct (BundleTheorems.bundle_size bundle H) as (_ & _ & _ & _ & _ & Hle). exact Hle.
Defined.

(** ** The application *)

Definition plain (revision : N) (parent : option RevisionId) (state : RecoveryInputDeliveryState) (post : option WorktreeSnapshotId)
    (op : option OperationId) (oprev : option N) (lane : option ExecutionLaneId) (receipt : option CaptureReceiptId)
    (effects : list ScopeEffectId) (inputs results : list SourceObservationId) (verifiers : list RecoveryVerifierReceipt)
    (anchors : list RecoveryAnchorVerifierReceipt) (status : RecoveryApplicationStatus) (at_us : Z) : RecoveryApplication :=
  RecoveryApplication.mk (uid 70) (rid revision) parent (uid 30) (uid 23) (uid 6) post RecoveryApplicationKind.Patch 1
    [digest Byte.xbb] RecoveryInputDeliveryKind.PatchStdin state op oprev lane receipt effects inputs results verifiers
    [uid 40] [claim] anchors status at_us.
Definition admitted : RecoveryApplication :=
  plain 71 None RecoveryInputDeliveryState.Admitted_ None None None None None [] [] [] [] [] RecoveryApplicationStatus.Unknown 130.
Definition delivered : RecoveryApplication :=
  plain 72 (Some (rid 71)) RecoveryInputDeliveryState.Delivered (Some (uid 7)) (Some (uid 80)) (Some 1%N) (Some (uid 81)) (Some (uid 82))
    [uid 83] [digest Byte.x11] [digest Byte.x12] [] [] RecoveryApplicationStatus.Unknown 140.
Definition verified : RecoveryVerifierReceipt :=
  RecoveryVerifierReceipt.mk 1 1 (digest Byte.x12) (uid 7) RecoveryVerificationOutcome.Applied.
Definition transfer : RecoveryAnchorVerifierReceipt :=
  RecoveryAnchorVerifierReceipt.mk 1 (uid 40) (rid 50) (rid 51) fingerprint repository (uid 22) (uid 5) repository (uid 23) (uid 7)
    (stored "d"%byte 8) groups groups (uid 80) 1 (uid 81) (uid 82) [uid 83] (digest Byte.x12) 1.
Definition applied : RecoveryApplication :=
  plain 73 (Some (rid 72)) RecoveryInputDeliveryState.Delivered (Some (uid 7)) (Some (uid 80)) (Some 1%N) (Some (uid 81))
    (Some (uid 82)) [uid 83] [digest Byte.x11] [digest Byte.x12] [verified] [transfer] RecoveryApplicationStatus.Applied 150.

Lemma application_history_witness :
  ApplicationTheorems.extends admitted applied /\ RecoveryApplication.application_status applied = RecoveryApplicationStatus.Applied.
Proof.
  split; [|reflexivity]. apply (ApplicationTheorems.application_history 2).
  econstructor; [|econstructor; [|constructor]]; [instantiate (1 := delivered)|]; vm_compute; reflexivity.
Defined.

Lemma application_bounded_witness : 1 <= 789.
Proof.
  apply (ApplicationTheorems.application_bounded 1 admitted delivered); [|reflexivity].
  econstructor; [|constructor]. vm_compute. reflexivity.
Defined.

Definition applications_log : list (RecoveryApplication * N) := [(admitted, 8%N); (delivered, 11%N); (applied, 12%N)].
Definition step1 := Eval vm_compute in get ([], []) (record_application [] [] admitted 8 StoreError.StoreCorrupt).
Definition step2 := Eval vm_compute in get ([], []) (record_application step1.1 step1.2 delivered 11 StoreError.StoreCorrupt).
Definition step3 := Eval vm_compute in get ([], []) (record_application step2.1 step2.2 applied 12 StoreError.StoreCorrupt).

Lemma log_applications : StoreTheorems.recorded_applications applications_log step3.1 step3.2.
Proof.
  apply (StoreTheorems.recorded_applications_snoc [(admitted, 8%N); (delivered, 11%N)] step2.1 step2.2 applied 12 StoreError.StoreCorrupt);
    [|repeat constructor; cbn; lia|vm_compute; reflexivity].
  apply (StoreTheorems.recorded_applications_snoc [(admitted, 8%N)] step1.1 step1.2 delivered 11 StoreError.StoreCorrupt);
    [|repeat constructor; cbn; lia|vm_compute; reflexivity].
  apply (StoreTheorems.recorded_applications_snoc [] [] [] admitted 8 StoreError.StoreCorrupt);
    [constructor|constructor|vm_compute; reflexivity].
Qed.

Lemma applications_rebuilt_witness :
  rebuild_applications step3.2 StoreError.StoreCorrupt = Ok [(uid 70, (applied, 12%N))].
Proof. exact (proj1 (StoreTheorems.applications_rebuilt _ _ _ StoreError.StoreCorrupt log_applications)). Defined.

(** ** The store *)

Definition worktree (n : N) : WorktreeInstance :=
  WorktreeInstance.mk (uid n) 1 None repository WorktreeKind.Main WorktreeLifecycle.Active None [] []
    GitRegistrationState.Registered None "event" None None 15.
Definition snapshot (n tree : N) : WorktreeSnapshot :=
  WorktreeSnapshot.mk (uid n) (uid tree) None None None false None None None [] [] None GitOperation.None 15 []
    SnapshotCaptureStatus.Complete [].
Definition contract : StrategyContract := StrategyContract.mk "hypothesis" "intervention" "family" None None "effect" [] "boundary".
Definition attempt (revision : N) (predecessor : option RevisionId) (generation : N) : Attempt :=
  Attempt.mk (uid 40) (rid revision) predecessor generation (uid 41) (uid 42) None (Some repository) [uid 22] [] [uid 60] []
    AttemptExecutionStatus.Active AttemptAdoptionStatus.None AttemptVerification.Unverified AttemptLifecycleStatus.Active
    contract fingerprint None [] [] None None None [] [] [] [] [] [] [] [] AttemptOutcomeState.Unknown [] None [] [] None 5.
Definition group : CompetingAttemptGroup :=
  CompetingAttemptGroup.mk (uid 60) (rid 61) None 1 (uid 41) "boundary" None None None [] [uid 40; uid 43] [] []
    CompetingConflictKind.AlternativeStrategy CompetingResolutionStatus.Selected (Some (uid 40)) [] [] 5.
Definition lane : ExecutionLane :=
  ExecutionLane.mk (uid 81) 1 None "session" "agent" "key" "incarnation" None None None None [] None [] []
    LaneStatus.Active None LivenessState.Unknown [] false 9 ["adapter"%string] (uid 82) CoverageLevel.Full
    SourceCoverage.Complete PairingIntegrity.Complete PayloadIntegrity.Complete Lane.OrderingIntegrity.Complete [] [uid 80] None.
Definition receipt : CaptureReceipt :=
  CaptureReceipt.mk (uid 82) (uid 81) None [] [] [] [] [] [] AdmissionFailureObservability.Complete
    Lane.IdentityStrength.StableNative false false None false false None None [] [] [] None None None [] [] [] [] [] [] [] [] [] [] [] 9
    false CoverageLevel.Full SourceCoverage.Complete PairingIntegrity.Complete PayloadIntegrity.Complete
    Lane.OrderingIntegrity.Complete [] false 1.
Definition operation : Operation :=
  Operation.mk (uid 80) (digest Byte.x20) (Some (uid 81)) OperationKind.Mutate [digest Byte.x11] [digest Byte.x12]
    PairingState.Paired [uid 83] [] 1 1 None None.
Definition effect : ScopeEffect :=
  ScopeEffect.mk (uid 83) (uid 80) EffectRole.Mutate (Some repository) (Some (uid 23)) (Some (uid 6)) (Some (uid 7)) [] []
    [digest Byte.x12].
Definition correlation (role : ObservationRole) : HostCorrelationEvidence :=
  HostCorrelationEvidence.mk 1 None None None None None None role [] "manifest" 1 (Some (rid_display (rid 71)))
    CorrelationAdmission.Ambiguous None None.
Definition observation (b : byte) (role : ObservationRole) : SourceObservation :=
  SourceObservation.mk (digest b) "source" "1" "record" role Lane.IdentityStrength.StableNative (hex64 "e"%byte) (digest b)
    SourceRole.Tool ContentTrust.Observed CaptureCompleteness.Complete 1 1 1 1 1 (correlation role) [] None.
Definition source_receipt : SourceReceipt :=
  SourceReceipt.mk (digest Byte.x11) (digest Byte.x11) "source" EvidenceSourceKind.CodexHook "codex" "hook" "abc" "1" "record"
    Lane.IdentityStrength.StableNative 1 None None None None None (EvidenceByteRange.mk 0 10) SourceRevisionMode.Append None None
    ObservationRole.Intent None CaptureCompleteness.Complete SourceArchiveMode.Exact (hex64 "b"%byte) 10 None 10 None [] 1
    "adapter" "eligible" 1 1 1 1 1 40 41 None.

Definition store : RecoveryRelationInputs :=
  mk_inputs requests2.1 [(uid 30, (bundle, 6%N))] step3.1 step3.2 [(uid 22, (worktree 22, 3%N)); (uid 23, (worktree 23, 3%N))]
    [(uid 5, (snapshot 5 22, 5%N)); (uid 6, (snapshot 6 23, 7%N)); (uid 7, (snapshot 7 23, 10%N))]
    [((uid 80, 1%N), (operation, 10%N))] [((uid 81, 1%N), (lane, 10%N))] [(uid 82, (receipt, 10%N))] [(uid 83, (effect, 10%N))]
    [(digest Byte.x11, (observation Byte.x11 ObservationRole.Intent, 10%N));
     (digest Byte.x12, (observation Byte.x12 ObservationRole.Result, 10%N))]
    [(digest Byte.x11, (source_receipt, 10%N))]
    [(rid 50, (attempt 50 None 1, 3%N)); (rid 51, (attempt 51 (Some (rid 50)) 2, 9%N))]
    [(rid 61, (group, 4%N))].

Lemma store_related : RelationTheorems.related store.
Proof. vm_compute. reflexivity. Qed.

Lemma verdict_evidenced_witness :
  exists bundle' bundle_seq, bmap_get (uid 30) (bundles store) = Some (bundle', bundle_seq) /\
    RecoveryApplication.selected_cas_refs applied ⊆ available bundle'.
Proof.
  destruct (RelationTheorems.verdict_evidenced store (rid 73) applied 12 store_related) as
    (b & n & request & rseq & target & tseq & source & sseq & Hb & _ & _ & _ & Hsel & _); [reflexivity|vm_compute; reflexivity|done|].
  exists b, n. split; [exact Hb|exact Hsel].
Defined.

Lemma lineage_transferred_witness :
  RecoveryApplication.has_complete_recorded_lineage_transfer_receipts applied = true /\
  exists bundle' bundle_seq, bmap_get (uid 30) (bundles store) = Some (bundle', bundle_seq).
Proof.
  assert (H : RecoveryApplication.has_complete_recorded_lineage_transfer_receipts applied = true) by (vm_compute; reflexivity).
  split; [exact H|].
  destruct (RelationTheorems.lineage_transferred store (rid 73) applied 12 store_related eq_refl H) as (b & n & _ & _ & Hb & _).
  by exists b, n.
Defined.
End RecoveryWitnesses.
