(* ===== verification/CaptureBody.v ===== *)
(** * Capture record bodies (crates/evertrace-capture/src/frame.rs)

    The body a spool frame carries: what a hook observed, where its protected
    payload is stored, and the revisions it was produced under.  [validate] is the
    check both the writer and every reader of a body perform; JSON is the serializer's
    ([serde_json]), two functions the definitions take as arguments. *)

From S2P Require Import Prelude Order Collections Text Canonical Ids Lane Attempt Evidence SpoolFrame.

Definition CAPTURE_RECORD_BODY_VERSION : N := 9.

Module RecoveryPreflightCandidate.
Record RecoveryPreflightCandidate := mk {
  pending_command_id : CommandId;
  recovery_capture_request_id : RecoveryCaptureRequestId;
  pending_revision_id : RevisionId;
  observed_cwd : string;
  classifier_revision : N;
  adapter_manifest_id : string;
}.
#[export] Instance eq_dec : EqDecision RecoveryPreflightCandidate.
Proof. solve_decision. Defined.
(** The intent of [body], whose repository and worktree must be known. *)
Definition acceptable (intent : RecoveryPreflightCandidate) (command_id : CommandId)
    (located : bool) (manifest : string) : bool :=
  negb ((pending_command_id intent ==? command_id)
        || negb located
        || (adapter_manifest_id intent !=? manifest)
        || (classifier_revision intent =? 0)%N
        || negb (starts_with (as_bytes (observed_cwd intent)) (as_bytes "/"))
        || (4096 <? str_len (observed_cwd intent))%N
        || any is_control (chars (observed_cwd intent))).
End RecoveryPreflightCandidate.
Abbreviation RecoveryPreflightCandidate := RecoveryPreflightCandidate.RecoveryPreflightCandidate.
Export (hints) RecoveryPreflightCandidate.

Module CaptureRecordBody.
Record CaptureRecordBody := mk {
  body_version : N;
  command_id : CommandId;
  source_instance_id : SourceInstanceId;
  source_revision : SourceRevision;
  source_record_identity : SourceRecordIdentity;
  identity_strength : IdentityStrength;
  source_observation_id_hint : option SourceObservationId;
  source_kind : EvidenceSourceKind;
  identity_domain : string;
  source_ref : string;
  source_session_ref : string;
  source_sequence : N;
  source_sequence_origin : option N;
  task_id : option TaskId;
  repository_instance_id : option RepositoryId;
  worktree_instance_id : option WorktreeId;
  source_byte_range : option EvidenceByteRange;
  source_revision_mode : SourceRevisionMode;
  previous_source_revision : option SourceRevision;
  close_watermark : option N;
  observation_role : ObservationRole;
  correlation : HostCorrelationEvidence;
  scope_effect_claims : list ScopeEffectClaim;
  source_local_evidence : option SourceLocalEvidence;
  lifecycle : option LaneLifecycleEvidence;
  unsupported_record_classification : option UnsupportedRecordClassification;
  source_role : SourceRole;
  content_trust : ContentTrust;
  capture_completeness : CaptureCompleteness;
  surface_eligible : bool;
  cas_ref : string;
  archive_mode : SourceArchiveMode;
  protected_length : N;
  original_length : N;
  protected_secret_digest : option string;
  redaction_spans : list EvidenceRedactionSpan;
  adapter_revision : N;
  adapter_manifest_ref : string;
  eligible_event_manifest_ref : string;
  parser_revision : N;
  canonicalization_revision : N;
  detector_revision : N;
  redaction_revision : N;
  protection_key_generation : N;
  event_time_us : Z;
  recorded_at_us : Z;
  recovery_preflight : option RecoveryPreflightCandidate;
}.
#[export] Instance eq_dec : EqDecision CaptureRecordBody.
Proof. solve_decision. Defined.

Section body.
Context `{SHA : Sha256}.
Context `{L : UuidLib}.

Definition observation_id (self : CaptureRecordBody) : result SpoolFrameError SourceObservationId :=
  map_err (fun _ => Invalid)
    (Evidence.source_observation_id (source_instance_id self) (source_revision self) (source_record_identity self)).

(** The long disjunction of [validate]. *)
Definition malformed (self : CaptureRecordBody) (id : SourceObservationId) : bool :=
  negb (body_version self =? CAPTURE_RECORD_BODY_VERSION)%N
  || is_some_and (source_observation_id_hint self) (fun hint => hint !=? id)
  || negb (valid_text (source_ref self))
  || negb (valid_text (identity_domain self))
  || negb (valid_text (source_session_ref self))
  || negb (valid_text (adapter_manifest_ref self))
  || negb (valid_text (eligible_event_manifest_ref self))
  || negb (valid_digest (cas_ref self))
  || (protected_length self =? 0)%N
  || (original_length self =? 0)%N
  || (adapter_revision self =? 0)%N
  || (parser_revision self =? 0)%N
  || (canonicalization_revision self =? 0)%N
  || (detector_revision self =? 0)%N
  || (redaction_revision self =? 0)%N
  || (protection_key_generation self =? 0)%N
  || (event_time_us self <? 0)%Z
  || (recorded_at_us self <? 0)%Z
  || (recorded_at_us self <? event_time_us self)%Z
  || is_some_and (source_sequence_origin self) (fun origin => (source_sequence self <? origin)%N)
  || is_some_and (close_watermark self) (fun close => (close <? source_sequence self)%N)
  || (identity_strength self ==? IdentityStrength.SynthesizedBestEffort)
     && (capture_completeness self ==? CaptureCompleteness.Complete)
  || is_some (unsupported_record_classification self) && surface_eligible self
  || (HostCorrelationEvidence.pairing_role (correlation self) !=? observation_role self)
  || (HostCorrelationEvidence.adapter_revision (correlation self) !=? adapter_revision self)
  || (HostCorrelationEvidence.adapter_manifest_ref (correlation self) !=? adapter_manifest_ref self).

(** [for span in &self.redaction_spans]. *)
Fixpoint spans_ordered (original_length previous_end : N) (spans : list EvidenceRedactionSpan) : bool :=
  match spans with
  | [] => true
  | span :: spans =>
      negb ((EvidenceRedactionSpan.end_ span <=? EvidenceRedactionSpan.start span)%N
            || (original_length <? EvidenceRedactionSpan.end_ span)%N
            || (EvidenceRedactionSpan.start span <? previous_end)%N
            || negb (valid_text (EvidenceRedactionSpan.kind span)))
      && spans_ordered original_length (EvidenceRedactionSpan.end_ span) spans
  end.

Definition archive_consistent (self : CaptureRecordBody) : bool :=
  match archive_mode self with
  | SourceArchiveMode.Exact =>
      negb (is_some (protected_secret_digest self) || negb (is_empty (redaction_spans self)))
  | SourceArchiveMode.Redacted =>
      negb (is_none (protected_secret_digest self) || is_empty (redaction_spans self))
  end.

Definition validate_lifecycle (self : CaptureRecordBody) (lifecycle : LaneLifecycleEvidence)
    : result SpoolFrameError unit :=
  do? map_err (fun _ => Invalid) (LaneLifecycleEvidence.validate lifecycle) in
  guard (is_none (LaneLifecycleEvidence.incarnation_ref lifecycle)
         || (LaneLifecycleEvidence.host_session_id lifecycle !=? source_session_ref self)
         || (LaneLifecycleEvidence.adapter_manifest_ref lifecycle !=? adapter_manifest_ref self)
         || (LaneLifecycleEvidence.eligible_event_manifest_ref lifecycle !=? eligible_event_manifest_ref self))
    Invalid.

Definition validate_local_evidence (self : CaptureRecordBody) : result SpoolFrameError unit :=
  match source_local_evidence self with
  | None => Ok tt
  | Some evidence =>
      do? map_err (fun _ => Invalid) (validate_local evidence (observation_role self)) in
      guard ((source_kind self !=? EvidenceSourceKind.CodexHook)
             || (identity_domain self !=? "native-hook-delivery-v1"%string)) Invalid
  end.

Definition validate (self : CaptureRecordBody) : result SpoolFrameError unit :=
  do? validate_local_evidence self in
  let? id := observation_id self in
  do? guard (malformed self id) Invalid in
  do? guard ((source_revision_mode self ==? SourceRevisionMode.Replacement)
             && is_none (previous_source_revision self)) Invalid in
  do? guard ((source_revision_mode self ==? SourceRevisionMode.Append)
             && is_some (previous_source_revision self)) Invalid in
  do? (match source_byte_range self with
       | Some range => map_err (fun _ => Invalid) (EvidenceByteRange.validate range)
       | None => Ok tt
       end) in
  do? map_err (fun _ => Invalid) (HostCorrelationEvidence.validate (correlation self)) in
  do? for_each (fun claim => map_err (fun _ => Invalid) (ScopeEffectClaim.validate claim))
        (scope_effect_claims self) in
  do? (match lifecycle self with Some value => validate_lifecycle self value | None => Ok tt end) in
  do? guard (negb (archive_consistent self)) Invalid in
  do? guard (is_some_and (protected_secret_digest self) (fun value => negb (valid_digest value))) Invalid in
  do? guard (negb (spans_ordered (original_length self) 0 (redaction_spans self))) Invalid in
  guard (is_some_and (recovery_preflight self) (fun intent =>
           negb (RecoveryPreflightCandidate.acceptable intent (command_id self)
             (is_some (repository_instance_id self) && is_some (worktree_instance_id self))
             (adapter_manifest_ref self))))
    Invalid.
End body.
End CaptureRecordBody.
Abbreviation CaptureRecordBody := CaptureRecordBody.CaptureRecordBody.
Export (hints) CaptureRecordBody.

(** ** The encoding *)

Section codec.
Context `{SHA : Sha256}.
Context `{L : UuidLib}.
(** [serde_json::to_vec] and [serde_json::from_slice] on a body. *)
Context (to_vec : CaptureRecordBody -> option (list byte)).
Context (from_slice : list byte -> option CaptureRecordBody).

Definition encode_record_body (body : CaptureRecordBody) : result SpoolFrameError (list byte) :=
  do? CaptureRecordBody.validate body in
  let? json := ok_or (to_vec body) Serialization in
  let? total := ok_or (checked_add_u64 (blen json) 2) Oversize in
  do? guard (MAX_RECORD_BODY <? total)%N Oversize in
  Ok (to_be_bytes 2 CAPTURE_RECORD_BODY_VERSION ++ json).

Definition decode_record_body (bytes : list byte) : result SpoolFrameError CaptureRecordBody :=
  do? guard ((blen bytes <? 2)%N || (MAX_RECORD_BODY <? blen bytes)%N)
        (if (MAX_RECORD_BODY <? blen bytes)%N then Oversize else Invalid) in
  let version := from_be_bytes (sub_bytes 0 2 bytes) in
  do? guard (version =? 1)%N LegacyUnsupported in
  do? guard (negb (version =? CAPTURE_RECORD_BODY_VERSION)%N) Invalid in
  let? body := ok_or (from_slice (drop 2 bytes)) Invalid in
  do? CaptureRecordBody.validate body in
  let? json := ok_or (to_vec body) Serialization in
  do? guard (json !=? drop 2 bytes) Invalid in
  Ok body.

Definition decode_validated_record_body (record : SpoolRecord)
    : result SpoolFrameError (CaptureRecordBody * SourceObservationId) :=
  let? body := decode_record_body (record_body record) in
  let? observation_id := CaptureRecordBody.observation_id body in
  do? guard ((SpoolFrame.source_observation_id record !=? digest_display observation_id)
             || (cas_refs record !=? [CaptureRecordBody.cas_ref body])) Corrupt in
  Ok (body, observation_id).
End codec.

(** Two encodings of one body are one: the decoder takes back what the encoder wrote
    when the serializer does, and only that. *)
Lemma decode_encode_body `{SHA : Sha256} `{L : UuidLib} to_vec from_slice body bytes :
  (forall json, to_vec body = Some json -> from_slice json = Some body) ->
  encode_record_body to_vec body = Ok bytes -> decode_record_body to_vec from_slice bytes = Ok body.
Proof.
  intros Hjson H. unfold encode_record_body in H.
  apply rbind_ok in H as ([] & Hv & H). apply rbind_ok in H as (json & Hto%ok_or_ok & H).
  apply rbind_ok in H as (total & [-> _]%ok_or_ok%checked_add_u64_Some & H).
  apply rbind_ok in H as ([] & Hmax%guard_ok & H). apply N.ltb_ge in Hmax.
  assert (bytes = to_be_bytes 2 CAPTURE_RECORD_BODY_VERSION ++ json) as -> by congruence. clear H.
  unfold decode_record_body.
  assert (Hb : blen (to_be_bytes 2 CAPTURE_RECORD_BODY_VERSION ++ json) = (blen json + 2)%N)
    by (rewrite blen_app, blen_be; lia).
  rewrite Hb. destruct (N.ltb_spec (blen json + 2) 2); [lia|].
  destruct (N.ltb_spec MAX_RECORD_BODY (blen json + 2)); [lia|]. cbn [orb guard rbind].
  assert (sub_bytes 0 2 (to_be_bytes 2 CAPTURE_RECORD_BODY_VERSION ++ json)
    = to_be_bytes 2 CAPTURE_RECORD_BODY_VERSION) as -> by exact (sub_bytes_app 0 2 [] _ json eq_refl (blen_be 2 _)).
  rewrite from_to_be_bytes by done. change (drop 2 _) with json.
  rewrite (Hjson json Hto). cbn. rewrite Hv, Hto. cbn. by rewrite bool_decide_eq_true_2.
Qed.

Lemma encode_decode_body `{SHA : Sha256} `{L : UuidLib} to_vec from_slice bytes body :
  decode_record_body to_vec from_slice bytes = Ok body -> encode_record_body to_vec body = Ok bytes.
Proof.
  unfold decode_record_body. intros H.
  apply rbind_ok in H as ([] & Hlen%guard_ok & H). apply orb_false_iff in Hlen as [Hmin%N.ltb_ge Hmax%N.ltb_ge].
  apply rbind_ok in H as ([] & _ & H).
  apply rbind_ok in H as ([] & Hver%guard_ok & H). apply negb_false_iff, N.eqb_eq in Hver.
  apply rbind_ok in H as (b & _ & H). apply rbind_ok in H as ([] & Hv & H).
  apply rbind_ok in H as (json & Hto%ok_or_ok & H).
  apply rbind_ok in H as ([] & Hj%guard_ok & [= ->]). apply negb_false_iff, bool_decide_eq_true in Hj as ->.
  unfold encode_record_body. rewrite Hv, Hto. cbn [rbind ok_or].
  assert (Hb : blen bytes = (blen (drop 2 bytes) + 2)%N).
  { unfold blen in *. rewrite length_drop. lia. }
  unfold checked_add_u64. destruct (N.leb_spec (blen (drop 2 bytes) + 2) U64_MAX) as [_|Hbig];
    [|unfold MAX_RECORD_BODY, U64_MAX in *; lia].
  cbn [rbind ok_or]. destruct (N.ltb_spec MAX_RECORD_BODY (blen (drop 2 bytes) + 2)); [lia|].
  cbn [rbind guard]. f_equal. rewrite <-(take_drop 2 bytes) at 2. f_equal.
  rewrite <-Hver. apply (to_from_be 2). apply (blen_sub 0 2). lia.
Qed.
