(* ===== verification/GapMarker.v ===== *)
(** * Capture gap markers (crates/evertrace-capture/src/spool.rs)

    When the spool cannot take a record, the hook leaves a marker in one of a fixed
    number of emergency slots: a versioned, length-prefixed and checksummed record of
    what was lost.  This file has the marker, its encoding and its decoder, and shows
    that the decoder accepts exactly the encodings of valid markers, and no part of
    one.

    The decoder accepts exactly the encodings of valid markers, and no proper part of
    one: what a crash leaves of a marker is recognised as torn. *)

From S2P Require Import Prelude Order Collections Text Canonical SpoolFrame Ids Attempt.

Module SpoolError.
Inductive SpoolError :=
| Busy
| RecoveryRequired
| InvalidConfiguration
| Frame
| Pressure
| Unavailable
| EmergencyExhausted
| ResourceExhausted
| InvalidAcknowledgement
| IdentityChanged
| DuplicateRecord
| InvalidType
| WrongOwner
| InvalidPermissions
| Corrupt
| Serialization
| Io.
#[export] Instance eq_dec : EqDecision SpoolError.
Proof. solve_decision. Defined.
End SpoolError.
Abbreviation SpoolError := SpoolError.SpoolError.
Export (hints) SpoolError.
Module GapReason.
Inductive GapReason :=
| MainPressure
| MainUnavailable
| CorruptSegment
| RecoveryUnavailable.
#[export] Instance eq_dec : EqDecision GapReason.
Proof. solve_decision. Defined.
End GapReason.
Abbreviation GapReason := GapReason.GapReason.
Export (hints) GapReason.
Module CaptureGapMarker.
Record CaptureGapMarker := mk {
  marker_id : string;
  source_ref : string;
  session_ref : string;
  turn_ref : option string;
  tool_ref : option string;
  failure_reason : GapReason;
  redacted_fingerprint : string;
  attempted_bytes : N;
  last_durable_watermark : N;
}.
#[export] Instance eq_dec : EqDecision CaptureGapMarker.
Proof. solve_decision. Defined.
End CaptureGapMarker.
Abbreviation CaptureGapMarker := CaptureGapMarker.CaptureGapMarker.
Export (hints) CaptureGapMarker.

Definition MARKER_VERSION : N := 1.

(** [impl From<SpoolFrameError> for SpoolError]. *)
Definition of_frame_error (value : SpoolFrameError) : SpoolError :=
  match value with
  | Oversize => SpoolError.ResourceExhausted
  | Corrupt => SpoolError.Corrupt
  | Invalid | Serialization | LegacyUnsupported => SpoolError.Frame
  end.

Definition validate_marker (marker : CaptureGapMarker) : result SpoolError unit :=
  guard (str_is_empty (CaptureGapMarker.marker_id marker)
         || str_is_empty (CaptureGapMarker.source_ref marker)
         || str_is_empty (CaptureGapMarker.session_ref marker)
         || negb (str_len (CaptureGapMarker.redacted_fingerprint marker) =? 64)%N
         || negb (all (fun b => is_ascii_digit b || is_hex_lower b)
                    (as_bytes (CaptureGapMarker.redacted_fingerprint marker))))
    SpoolError.Frame.

Definition reason_byte (reason : GapReason) : byte :=
  match reason with
  | GapReason.MainPressure => x00
  | GapReason.MainUnavailable => x01
  | GapReason.CorruptSegment => x02
  | GapReason.RecoveryUnavailable => x03
  end.

Definition put_marker_string (value : string) : result SpoolError (list byte) :=
  if (str_len value <=? U16_MAX)%N
  then Ok (to_be_bytes 2 (str_len value) ++ as_bytes value) else Err SpoolError.Serialization.

Definition put_optional_marker_string (value : option string) : result SpoolError (list byte) :=
  match value with
  | Some value => let? bytes := put_marker_string value in Ok (x01 :: bytes)
  | None => Ok [x00]
  end.

Definition encode_marker_body (marker : CaptureGapMarker) : result SpoolError (list byte) :=
  let? id := put_marker_string (CaptureGapMarker.marker_id marker) in
  let? source := put_marker_string (CaptureGapMarker.source_ref marker) in
  let? session := put_marker_string (CaptureGapMarker.session_ref marker) in
  let? turn := put_optional_marker_string (CaptureGapMarker.turn_ref marker) in
  let? tool := put_optional_marker_string (CaptureGapMarker.tool_ref marker) in
  Ok (id ++ source ++ session ++ turn ++ tool
      ++ [reason_byte (CaptureGapMarker.failure_reason marker)]
      ++ as_bytes (CaptureGapMarker.redacted_fingerprint marker)
      ++ to_be_bytes 8 (CaptureGapMarker.attempted_bytes marker)
      ++ to_be_bytes 8 (CaptureGapMarker.last_durable_watermark marker)).

(** ** The marker cursor: the one of the frame header with the spool's error *)

Definition marker_take (length : N) (remaining : list byte)
    : result SpoolError (list byte * list byte) :=
  map_err (fun _ => SpoolError.Corrupt) (cursor_take length remaining).

Definition marker_byte (remaining : list byte) : result SpoolError (byte * list byte) :=
  let? p := marker_take 1 remaining in
  match p.1 with b :: _ => Ok (b, p.2) | [] => Err SpoolError.Corrupt end.

Definition marker_u64 (remaining : list byte) : result SpoolError (N * list byte) :=
  map_err (fun _ => SpoolError.Corrupt) (cursor_u64 remaining).

Definition marker_string (remaining : list byte) : result SpoolError (string * list byte) :=
  map_err (fun _ => SpoolError.Corrupt) (cursor_string remaining).

Definition optional_string (remaining : list byte) : result SpoolError (option string * list byte) :=
  let? b := marker_byte remaining in
  if b.1 ==? x00 then Ok (None, b.2)
  else if b.1 ==? x01 then let? s := marker_string b.2 in Ok (Some s.1, s.2)
  else Err SpoolError.Corrupt.

Definition reason_of_byte (b : byte) : result SpoolError GapReason :=
  if b ==? x00 then Ok GapReason.MainPressure
  else if b ==? x01 then Ok GapReason.MainUnavailable
  else if b ==? x02 then Ok GapReason.CorruptSegment
  else if b ==? x03 then Ok GapReason.RecoveryUnavailable
  else Err SpoolError.Corrupt.

Definition decode_marker_body (body : list byte) : result SpoolError CaptureGapMarker :=
  let? id := marker_string body in
  let? source := marker_string id.2 in
  let? session := marker_string source.2 in
  let? turn := optional_string session.2 in
  let? tool := optional_string turn.2 in
  let? r := marker_byte tool.2 in
  let? reason := reason_of_byte r.1 in
  let? raw := marker_take 64 r.2 in
  let? fingerprint := ok_or (from_utf8 raw.1) SpoolError.Corrupt in
  let? attempted := marker_u64 raw.2 in
  let? last := marker_u64 attempted.2 in
  do? guard (negb (is_empty last.2)) SpoolError.Corrupt in
  Ok (CaptureGapMarker.mk id.1 source.1 session.1 turn.1 tool.1 reason fingerprint attempted.1 last.1).

Section marker.
Context `{SHA : Sha256}.

Definition marker_checksum (body : list byte) : list byte :=
  sha256_digest (as_bytes "evertrace.capture.gap.v1" ++ body).

(** The bytes [write_gap_marker] puts in a slot; [body.len() as u32] wraps. *)
Definition encode_marker (marker : CaptureGapMarker) : result SpoolError (list byte) :=
  do? validate_marker marker in
  let? body := encode_marker_body marker in
  Ok (to_be_bytes 2 MARKER_VERSION ++ to_be_bytes 4 (blen body mod 2 ^ 32) ++ body
      ++ marker_checksum body).

Definition decode_marker (bytes : list byte) : result SpoolError CaptureGapMarker :=
  do? guard ((blen bytes <? 2 + 4 + 32)%N
             || negb (from_be_bytes (sub_bytes 0 2 bytes) =? MARKER_VERSION)%N) SpoolError.Corrupt in
  let length := from_be_bytes (sub_bytes 2 4 bytes) in
  do? guard (negb (blen bytes =? 6 + length + 32)%N) SpoolError.Corrupt in
  let body := sub_bytes 6 length bytes in
  do? guard (drop (N.to_nat (6 + length)) bytes !=? marker_checksum body) SpoolError.Corrupt in
  let? marker := decode_marker_body body in
  do? validate_marker marker in
  Ok marker.
End marker.

(** ** Lemmas and theorems *)

Module GapMarkerTheorems.

#[local] Opaque to_be_bytes from_be_bytes.

(** ** The marker's reader inverts its writer *)

Lemma put_marker_string_ok s bs : put_marker_string s = Ok bs <-> put_string s = Ok bs.
Proof. unfold put_marker_string, put_string. destruct (_ <=? _)%N; naive_solver. Qed.

Lemma put_string_length s bs : put_string s = Ok bs -> (blen bs <= 65537)%N.
Proof.
  unfold put_string. destruct (N.leb_spec (str_len s) U16_MAX); [|done].
  intros H'. assert (bs = to_be_bytes 2 (str_len s) ++ as_bytes s) as -> by congruence.
  rewrite blen_app, blen_be, blen_as_bytes. unfold U16_MAX in *. lia.
Qed.

Lemma marker_string_iff l s r :
  marker_string l = Ok (s, r) <-> exists bs, put_marker_string s = Ok bs /\ l = bs ++ r /\ str_ok s.
Proof.
  unfold marker_string. rewrite map_err_ok. setoid_rewrite put_marker_string_ok. split.
  - apply cursor_string_ok.
  - intros (bs & H & -> & Hs). by apply cursor_string_app.
Qed.

Lemma marker_u64_iff l n r :
  marker_u64 l = Ok (n, r) <-> l = to_be_bytes 8 n ++ r /\ (n <= U64_MAX)%N.
Proof.
  unfold marker_u64, cursor_u64. rewrite map_err_ok. change 8%N with (N.of_nat 8). split.
  - intros [-> H]%cursor_uint_ok. split; [done|]. width_lia.
  - intros [-> H]. apply cursor_uint_app. width_lia.
Qed.

Lemma marker_take_iff n l a r : marker_take n l = Ok (a, r) <-> l = a ++ r /\ blen a = n.
Proof.
  unfold marker_take. rewrite map_err_ok. split; [apply cursor_take_ok|].
  intros [-> H]. by apply cursor_take_app.
Qed.

Lemma marker_byte_iff l b r : marker_byte l = Ok (b, r) <-> l = b :: r.
Proof.
  unfold marker_byte. split.
  - intros ([a q] & [-> Ha]%marker_take_iff & H)%rbind_ok. simpl in H.
    unfold blen in Ha. destruct a as [|c [|d a]]; simpl in *; [done| |lia]. by injection H as -> ->.
  - intros ->. assert (marker_take 1 (b :: r) = Ok ([b], r)) as -> by (by apply marker_take_iff). done.
Qed.

Definition opt_str_ok (o : option string) : Prop := match o with Some s => str_ok s | None => True end.

Lemma optional_string_iff l o r :
  optional_string l = Ok (o, r) <->
  exists bs, put_optional_marker_string o = Ok bs /\ l = bs ++ r /\ opt_str_ok o.
Proof.
  unfold optional_string. split.
  - intros ([b q] & ->%marker_byte_iff & H)%rbind_ok. simpl in H. destruct (decide (b = x00)) as [->|Hb].
    { rewrite bool_decide_eq_true_2 in H by done. simplify_eq. by exists [x00]. }
    rewrite (bool_decide_eq_false_2 (b = x00)) in H by done. destruct (decide (b = x01)) as [->|Hb1].
    + rewrite bool_decide_eq_true_2 in H by done.
      apply rbind_ok in H as ([s t] & (bs & Hs & -> & Hok)%marker_string_iff & [= <- <-]).
      exists (x01 :: bs). unfold put_optional_marker_string. by rewrite Hs.
    + by rewrite bool_decide_eq_false_2 in H.
  - intros (bs & Hp & -> & Ho). destruct o as [s|]; simpl in Hp.
    + apply rbind_ok in Hp as (t & Ht & [= <-]). simpl.
      assert (marker_byte (x01 :: t ++ r) = Ok (x01, t ++ r)) as -> by (by apply marker_byte_iff). simpl.
      assert (marker_string (t ++ r) = Ok (s, r)) as -> by (apply marker_string_iff; eauto). done.
    + simplify_eq. simpl. assert (marker_byte (x00 :: r) = Ok (x00, r)) as -> by (by apply marker_byte_iff). done.
Qed.

Lemma reason_of_byte_iff b r : reason_of_byte b = Ok r <-> b = reason_byte r.
Proof.
  unfold reason_of_byte. split.
  - destruct (decide (b = x00)) as [->|]; [by intros [= <-]|]. rewrite bool_decide_eq_false_2 by done.
    destruct (decide (b = x01)) as [->|]; [by intros [= <-]|]. rewrite bool_decide_eq_false_2 by done.
    destruct (decide (b = x02)) as [->|]; [by intros [= <-]|]. rewrite bool_decide_eq_false_2 by done.
    destruct (decide (b = x03)) as [->|]; [by intros [= <-]|]. by rewrite bool_decide_eq_false_2.
  - intros ->. by destruct r.
Qed.

(** What the Rust types of a marker guarantee. *)
Definition marker_ok (m : CaptureGapMarker) : Prop :=
  str_ok (CaptureGapMarker.marker_id m) /\ str_ok (CaptureGapMarker.source_ref m) /\
  str_ok (CaptureGapMarker.session_ref m) /\ opt_str_ok (CaptureGapMarker.turn_ref m) /\
  opt_str_ok (CaptureGapMarker.tool_ref m) /\ str_ok (CaptureGapMarker.redacted_fingerprint m) /\
  (CaptureGapMarker.attempted_bytes m <= U64_MAX)%N /\ (CaptureGapMarker.last_durable_watermark m <= U64_MAX)%N.

Lemma decode_body_iff l m :
  decode_marker_body l = Ok m <->
  marker_ok m /\ str_len (CaptureGapMarker.redacted_fingerprint m) = 64%N /\ encode_marker_body m = Ok l.
Proof.
  unfold decode_marker_body, encode_marker_body. split.
  - intros ([id l1] & (b1 & H1 & -> & K1)%marker_string_iff & H)%rbind_ok. cbn [fst snd] in H.
    apply rbind_ok in H as ([so l2] & (b2 & H2 & -> & K2)%marker_string_iff & H). cbn [fst snd] in H.
    apply rbind_ok in H as ([se l3] & (b3 & H3 & -> & K3)%marker_string_iff & H). cbn [fst snd] in H.
    apply rbind_ok in H as ([tu l4] & (b4 & H4 & -> & K4)%optional_string_iff & H). cbn [fst snd] in H.
    apply rbind_ok in H as ([to l5] & (b5 & H5 & -> & K5)%optional_string_iff & H). cbn [fst snd] in H.
    apply rbind_ok in H as ([rb l6] & ->%marker_byte_iff & H). cbn [fst snd] in H.
    apply rbind_ok in H as (re & ->%reason_of_byte_iff & H).
    apply rbind_ok in H as ([fp l7] & [-> Hfp]%marker_take_iff & H). cbn [fst snd] in H.
    apply rbind_ok in H as (fs & [Hv Hfs]%ok_or_ok%from_utf8_Some & H).
    apply rbind_ok in H as ([at_ l8] & [-> K8]%marker_u64_iff & H). cbn [fst snd] in H.
    apply rbind_ok in H as ([la l9] & [-> K9]%marker_u64_iff & H). cbn [fst snd] in H.
    apply rbind_ok in H as ([] & Hnil%guard_ok & [= <-]). cbn [fst snd] in Hnil.
    apply negb_false_iff, is_empty_true in Hnil as ->. unfold marker_ok. cbn.
    subst fp. fold (str_ok fs) in Hv.
    split; [by split_and!|]. split; [done|]. rewrite H1, H2, H3, H4, H5. cbn. by rewrite app_nil_r.
  - intros ((K1 & K2 & K3 & K4 & K5 & K6 & K7 & K8) & Hl & H).
    apply rbind_ok in H as (b1 & H1 & H). apply rbind_ok in H as (b2 & H2 & H).
    apply rbind_ok in H as (b3 & H3 & H). apply rbind_ok in H as (b4 & H4 & H).
    apply rbind_ok in H as (b5 & H5 & [= <-]).
    rewrite (proj2 (marker_string_iff _ _ _)) by (exists b1; split_and!; done). cbn [rbind fst snd].
    rewrite (proj2 (marker_string_iff _ _ _)) by (exists b2; split_and!; done). cbn [rbind fst snd].
    rewrite (proj2 (marker_string_iff _ _ _)) by (exists b3; split_and!; done). cbn [rbind fst snd].
    rewrite (proj2 (optional_string_iff _ _ _)) by (exists b4; split_and!; done). cbn [rbind fst snd].
    rewrite (proj2 (optional_string_iff _ _ _)) by (exists b5; split_and!; done). cbn [rbind fst snd app].
    rewrite (proj2 (marker_byte_iff _ _ _) eq_refl). cbn [rbind fst snd].
    rewrite (proj2 (reason_of_byte_iff _ _) eq_refl). cbn [rbind fst snd].
    rewrite (proj2 (marker_take_iff 64 _ (as_bytes (CaptureGapMarker.redacted_fingerprint m)) _) (conj eq_refl Hl)).
    cbn [rbind fst snd]. rewrite from_utf8_as_bytes by done. cbn [rbind ok_or].
    rewrite (proj2 (marker_u64_iff _ _ _) (conj eq_refl K7)). cbn [rbind fst snd].
    assert (marker_u64 (to_be_bytes 8 (CaptureGapMarker.last_durable_watermark m)) =
      Ok (CaptureGapMarker.last_durable_watermark m, [])) as ->.
    { apply marker_u64_iff. by rewrite app_nil_r. }
    cbn. by destruct m.
Qed.

(** ** Whole markers *)

Lemma put_optional_length o bs : put_optional_marker_string o = Ok bs -> (blen bs <= 65538)%N.
Proof.
  destruct o as [s|]; simpl.
  - intros (t & Ht%put_marker_string_ok%put_string_length & [= <-])%rbind_ok. unfold blen in *. simpl. lia.
  - intros [= <-]. unfold blen. simpl. lia.
Qed.

(** The body length fits in its field. *)
Lemma marker_body_length m body :
  str_len (CaptureGapMarker.redacted_fingerprint m) = 64%N -> encode_marker_body m = Ok body ->
  (blen body < 2 ^ 32)%N.
Proof.
  intros Hl H. unfold encode_marker_body in H.
  apply rbind_ok in H as (b1 & H1%put_marker_string_ok%put_string_length & H).
  apply rbind_ok in H as (b2 & H2%put_marker_string_ok%put_string_length & H).
  apply rbind_ok in H as (b3 & H3%put_marker_string_ok%put_string_length & H).
  apply rbind_ok in H as (b4 & H4%put_optional_length & H).
  apply rbind_ok in H as (b5 & H5%put_optional_length & H).
  assert (body = _) as -> by (symmetry; exact (f_equal (fun r => match r with Ok b => b | Err _ => body end) H)).
  rewrite !blen_app, !blen_be, blen_as_bytes, Hl. unfold blen at 6. simpl. lia.
Qed.

Lemma validate_marker_fingerprint m :
  validate_marker m = Ok tt -> str_len (CaptureGapMarker.redacted_fingerprint m) = 64%N.
Proof. unfold validate_marker. intros H%guard_ok. rewrite !orb_false_iff, negb_false_iff, N.eqb_eq in H. tauto. Qed.

Section marker.
Context `{SHA : Sha256} `{ShaLen : !Sha256Length}.

Lemma encode_marker_ok m bytes :
  encode_marker m = Ok bytes <-> exists body, validate_marker m = Ok tt /\ encode_marker_body m = Ok body /\
    (blen body < 2 ^ 32)%N /\
    bytes = to_be_bytes 2 MARKER_VERSION ++ to_be_bytes 4 (blen body) ++ body ++ marker_checksum body.
Proof.
  unfold encode_marker. split.
  - intros ([] & Hv & (body & Hb & H)%rbind_ok)%rbind_ok.
    pose proof (marker_body_length m body (validate_marker_fingerprint m Hv) Hb) as Hlt.
    rewrite N.mod_small in H by done. exists body. split_and!; [done..|]. congruence.
  - intros (body & Hv & Hb & Hlt & ->). rewrite Hv. cbn [rbind]. rewrite Hb. cbn [rbind].
    by rewrite N.mod_small.
Qed.

Lemma blen_marker_checksum body : blen (marker_checksum body) = 32%N.
Proof. unfold blen, marker_checksum. by rewrite sha256_length. Qed.

Lemma split_marker version length body sum :
  blen version = 2%N -> blen length = 4%N ->
  sub_bytes 0 2 (version ++ length ++ body ++ sum) = version /\
  sub_bytes 2 4 (version ++ length ++ body ++ sum) = length /\
  sub_bytes 6 (blen body) (version ++ length ++ body ++ sum) = body /\
  drop (N.to_nat (6 + blen body)) (version ++ length ++ body ++ sum) = sum.
Proof.
  intros Hv Hl. split_and!.
  - by apply (sub_bytes_app 0 2 []).
  - by apply sub_bytes_app.
  - rewrite (app_assoc version). apply sub_bytes_app; [|done]. by rewrite blen_app, Hv, Hl.
  - rewrite !(app_assoc version), (app_assoc (version ++ length)). apply drop_N_app. rewrite !blen_app, Hv, Hl. lia.
Qed.

(** C28: the gap marker round trip.  The decoder accepts a byte string exactly when it
    is the encoding the writer produces for a valid marker, and returns that marker:
    every marker a hook leaves is read back unchanged, and nothing else is taken for a
    marker. *)
Theorem marker_round_trip bytes m :
  decode_marker bytes = Ok m <-> marker_ok m /\ encode_marker m = Ok bytes.
Proof.
  rewrite encode_marker_ok. unfold decode_marker. split.
  - intros ([] & [Hlen Hv]%guard_ok%orb_false_iff & H)%rbind_ok.
    apply N.ltb_ge in Hlen. apply negb_false_iff, N.eqb_eq in Hv. cbv zeta in H.
    apply rbind_ok in H as ([] & Hl%guard_ok%negb_false_iff%N.eqb_eq & H).
    apply rbind_ok in H as ([] & Hs%guard_ok%negb_false_iff%bool_decide_eq_true & H).
    apply rbind_ok in H as (m' & (Hm & _ & Hb)%decode_body_iff & H).
    apply rbind_ok in H as ([] & Hval & [= ->]). split; [done|]. eexists. split_and!; [done|exact Hb| |].
    + pose proof (from_be_bytes_bound 4 (sub_bytes 2 4 bytes) (blen_sub 2 4 bytes ltac:(lia))) as Hlt.
      rewrite blen_sub by lia. simpl in Hlt. lia.
    + rewrite <-Hs, blen_sub by lia. rewrite <-Hv at 1. rewrite !to_from_be by (apply blen_sub; lia).
      pose proof (drop_sub 0 2 bytes) as E0. pose proof (drop_sub 2 4 bytes) as E1.
      pose proof (drop_sub 6 (from_be_bytes (sub_bytes 2 4 bytes)) bytes) as E2. simpl in *.
      by rewrite E0 at 1; rewrite E1 at 1; rewrite E2 at 1.
  - intros (Hm & body & Hval & Hb & Hlt & ->).
    destruct (split_marker (to_be_bytes 2 MARKER_VERSION) (to_be_bytes 4 (blen body)) body (marker_checksum body))
      as (-> & -> & Hbody & Hsum); [by rewrite blen_be..|].
    rewrite !from_to_be_bytes by (simpl; unfold MARKER_VERSION; lia). rewrite !blen_app, !blen_be, blen_marker_checksum.
    rewrite (proj2 (guard_ok _ _ tt)) by (apply orb_false_iff; split; [apply N.ltb_ge; lia|done]). cbn [rbind]. cbv zeta.
    rewrite (proj2 (guard_ok _ _ tt)) by (apply negb_false_iff, N.eqb_eq; lia). cbn [rbind].
    rewrite Hbody, Hsum. rewrite (proj2 (guard_ok _ _ tt)) by (by apply negb_false_iff, bool_decide_eq_true). cbn [rbind].
    rewrite (proj2 (decode_body_iff body m)) by (split_and!; [done|by apply validate_marker_fingerprint|done]).
    cbn [rbind]. by rewrite Hval.
Qed.

(** What a crash leaves of a marker that is not yet complete is not read as a marker:
    every proper prefix of an encoding is refused. *)
Lemma torn_marker m p q : encode_marker m = Ok (p ++ q) -> q <> [] -> decode_marker p = Err SpoolError.Corrupt.
Proof.
  intros (body & _ & _ & Hlt & E)%encode_marker_ok Hq. unfold decode_marker, rbind, guard.
  destruct (_ || _) eqn:Hg; [done|]. cbv zeta. apply orb_false_iff in Hg as [Hlen%N.ltb_ge _].
  assert (Hlq : (0 < blen q)%N) by (unfold blen; destruct q; [done|simpl; lia]).
  assert (Hsum : (blen p + blen q = 2 + 4 + blen body + 32)%N).
  { rewrite <-blen_app, E, !blen_app, !blen_be, blen_marker_checksum. lia. }
  assert (Hsub : sub_bytes 2 4 p = to_be_bytes 4 (blen body)).
  { destruct (split_marker (to_be_bytes 2 MARKER_VERSION) (to_be_bytes 4 (blen body)) body (marker_checksum body))
      as (_ & <- & _); [by rewrite blen_be..|]. rewrite <-E. unfold sub_bytes.
    rewrite drop_app_le, take_app_le; [done| |]; [rewrite length_drop|]; unfold blen in *; simpl; lia. }
  rewrite Hsub, from_to_be_bytes by (simpl; lia).
  destruct (N.eqb_spec (blen p) (6 + blen body + 32)); [lia|done].
Qed.
End marker.
End GapMarkerTheorems.
