(* ===== verification/Fs.v ===== *)
(** * The file system under the capture spool

    What [std::fs], [std::os::unix] and [fs2] give crates/evertrace-capture: inodes
    and directory entries, the metadata a file is identified by, exclusive locks on
    files, and two levels of persistence.  Writes and directory changes are volatile
    until [sync_data] or the directory's [sync_all]; directory changes reach the
    disk in order, file contents on their own.  Every system call may succeed, fail
    with an error kind, or be the point of a crash: [oracle] lists what happens, so a
    statement over all oracles covers every fault and every crash point.  [wp] is the
    crash-aware weakest precondition of a computation.

    The crash-aware weakest precondition and its rules: one per combinator and one per
    kind of system call, with [reads] for computations that change nothing.  Facts on
    directory entries: what a directory sync forces, what a crash can leave, and how a
    change of entries extends the set of possible crash states. *)

From S2P Require Import Prelude Order Collections Text SpoolFrame.

(** ** Metadata, inodes and directory entries *)

(** The directories of a spool; a path names an entry of one of them. *)
Inductive SpoolDir := RootDir | MainDir | EmergencyDir | QuarantineDir.
#[export] Instance SpoolDir_eq_dec : EqDecision SpoolDir.
Proof. solve_decision. Defined.
Definition SpoolDir_rank (d : SpoolDir) : N :=
  match d with RootDir => 0 | MainDir => 1 | EmergencyDir => 2 | QuarantineDir => 3 end.
Lemma SpoolDir_rank_inj x y : SpoolDir_rank x = SpoolDir_rank y -> x = y.
Proof. by destruct x, y. Qed.
#[export] Instance SpoolDir_countable : Countable SpoolDir.
Proof.
  refine (inj_countable' SpoolDir_rank
    (fun n => match n with 0%N => RootDir | 1%N => MainDir | 2%N => EmergencyDir | _ => QuarantineDir end) _).
  by intros [].
Defined.

Abbreviation PathBuf := (prod SpoolDir string).

(** What an inode is; a symbolic link has the inode it points to. *)
Inductive FileType := Regular | SymbolicLink (target : N) | OtherType.
#[export] Instance FileType_eq_dec : EqDecision FileType.
Proof. solve_decision. Defined.

(** [mtime], [mtime_nsec], [ctime], [ctime_nsec]. *)
Definition Times : Type := Z * Z * Z * Z.

Record Metadata := mkMetadata {
  file_type : FileType;
  uid : N;
  permissions : N;
  dev : N;
  ino : N;
  len : N;
  times : Times;
}.

(** [data] is what a reader sees, [synced] what [sync_data] has forced to the disk. *)
Record Inode := mkInode {
  inode_type : FileType;
  inode_uid : N;
  inode_permissions : N;
  inode_times : Times;
  data : list byte;
  synced : list byte;
}.

(** The metadata of a directory of the spool, as far as it is looked at. *)
Record DirNode := mkDirNode {
  is_directory : bool;
  dir_uid : N;
  dir_permissions : N;
}.

(** A change of directory entries: the paths it sets or removes, at once. *)
Definition DirOp : Type := list (PathBuf * option N).

Record Fs := mkFs {
  dirs : gmap SpoolDir DirNode;
  inodes : gmap N Inode;
  disk : gmap PathBuf N;
  pending : list DirOp;
  flocks : gset N;
  clock : Z * Z;
  device : N;
  euid : N;
}.

(** ** Directory entries *)

Definition apply_update (e : gmap PathBuf N) (u : PathBuf * option N) : gmap PathBuf N :=
  match u.2 with Some i => <[u.1 := i]> e | None => delete u.1 e end.
Definition apply_op (e : gmap PathBuf N) (o : DirOp) : gmap PathBuf N := foldl apply_update e o.
Definition apply_ops (e : gmap PathBuf N) (l : list DirOp) : gmap PathBuf N := foldl apply_op e l.

(** The entries every process sees. *)
Definition live (f : Fs) : gmap PathBuf N := apply_ops (disk f) (pending f).

Definition touches (d : SpoolDir) (o : DirOp) : bool := any (fun u => u.1.1 ==? d) o.

(** The changes up to the last one that touches [d], and the rest. *)
Fixpoint flush (d : SpoolDir) (l : list DirOp) : list DirOp * list DirOp :=
  match l with
  | [] => ([], [])
  | o :: r =>
      let p := flush d r in
      if is_empty p.1 && negb (touches d o) then ([], o :: r) else (o :: p.1, p.2)
  end.

(** ** Changes of the state *)

Definition set_entries (f : Fs) (d : gmap PathBuf N) (p : list DirOp) : Fs :=
  mkFs (dirs f) (inodes f) d p (flocks f) (clock f) (device f) (euid f).
Definition set_inodes (f : Fs) (m : gmap N Inode) : Fs :=
  mkFs (dirs f) m (disk f) (pending f) (flocks f) (clock f) (device f) (euid f).
Definition set_flocks (f : Fs) (l : gset N) : Fs :=
  mkFs (dirs f) (inodes f) (disk f) (pending f) l (clock f) (device f) (euid f).
Definition set_dirs (f : Fs) (d : gmap SpoolDir DirNode) : Fs :=
  mkFs d (inodes f) (disk f) (pending f) (flocks f) (clock f) (device f) (euid f).

Definition push (f : Fs) (o : DirOp) : Fs := set_entries f (disk f) (pending f ++ [o]).

Definition with_data (n : Inode) (now : Z * Z) (d : list byte) : Inode :=
  mkInode (inode_type n) (inode_uid n) (inode_permissions n) (now.1, now.2, now.1, now.2) d (synced n).
Definition with_synced (n : Inode) : Inode :=
  mkInode (inode_type n) (inode_uid n) (inode_permissions n) (inode_times n) (data n) (data n).
(** A rename changes [ctime]. *)
Definition with_ctime (n : Inode) (now : Z * Z) : Inode :=
  mkInode (inode_type n) (inode_uid n) (inode_permissions n)
    (let t := inode_times n in (t.1.1.1, t.1.1.2, now.1, now.2)) (data n) (synced n).

Definition metadata_of (f : Fs) (i : N) (n : Inode) : Metadata :=
  mkMetadata (inode_type n) (inode_uid n) (inode_permissions n) (device f) i
    (blen (data n)) (inode_times n).

(** ** Computations *)

Inductive ErrorKind :=
| NotFound | PermissionDenied | ReadOnlyFilesystem | AlreadyExists | WouldBlock | OtherError.
#[export] Instance ErrorKind_eq_dec : EqDecision ErrorKind.
Proof. solve_decision. Defined.

(** The failures the outside can add to a call; whether a file is there is decided by
    the state alone. *)
Inductive FaultKind := DeniedFault | ReadOnlyFault | BusyFault | DeviceFault.
Definition fault_kind (k : FaultKind) : ErrorKind :=
  match k with
  | DeniedFault => PermissionDenied
  | ReadOnlyFault => ReadOnlyFilesystem
  | BusyFault => WouldBlock
  | DeviceFault => OtherError
  end.

(** What becomes of a system call; [written] is how much of a write got through. *)
Inductive Event := Go | Fault (kind : FaultKind) (written : nat) | Crash (written : nat).

Record World := mkWorld { fs : Fs; oracle : list Event }.

Inductive outcome (E A : Type) :=
| Done (r : result E A) (w : World)
| Crashed (f : Fs).
Arguments Done {E A} _ _.
Arguments Crashed {E A} _.

Definition IO (E A : Type) : Type := World -> outcome E A.

Section combinators.
Context {E : Type}.
Definition ret {A} (a : A) : IO E A := Done (Ok a).
Definition raise {A} (e : E) : IO E A := Done (Err e).
Definition lift {A} (r : result E A) : IO E A := Done r.
Definition bind {A B} (m : IO E A) (k : A -> IO E B) : IO E B := fun w =>
  match m w with
  | Done (Ok a) w => k a w
  | Done (Err e) w => Done (Err e) w
  | Crashed f => Crashed f
  end.
(** A result that is looked at rather than propagated. *)
Definition attempt {F A} (m : IO E A) : IO F (result E A) := fun w =>
  match m w with Done r w => Done (Ok r) w | Crashed f => Crashed f end.
Definition map_io_err {F A} (g : E -> F) (m : IO E A) : IO F A := fun w =>
  match m w with Done r w => Done (map_err g r) w | Crashed f => Crashed f end.
(** What the process knows without asking the kernel. *)
Definition observe {A} (g : Fs -> A) : IO E A := fun w => Done (Ok (g (fs w))) w.
Definition update (g : Fs -> Fs) : IO E unit := fun w => Done (Ok tt) (mkWorld (g (fs w)) (oracle w)).
Definition refuse (bad : bool) (e : E) : IO E unit := lift (guard bad e).
End combinators.

Declare Scope io_scope.
Delimit Scope io_scope with io.
Notation "'let!' x ':=' m 'in' k" := (bind m (fun x => k))
  (at level 10, x name, m at level 100, k at level 200) : io_scope.
Notation "'do!' m 'in' k" := (bind m (fun _ => k))
  (at level 10, m at level 100, k at level 200) : io_scope.
Open Scope io_scope.

(** [for x in l { f(x)?; }] and [l.map(f).collect::<Result<Vec<_>, _>>()]. *)
Fixpoint io_each {E A} (f : A -> IO E unit) (l : list A) : IO E unit :=
  match l with [] => ret tt | x :: r => do! f x in io_each f r end.
Fixpoint io_map {E A B} (f : A -> IO E B) (l : list A) : IO E (list B) :=
  match l with [] => ret [] | x :: r => let! y := f x in let! ys := io_map f r in ret (y :: ys) end.

(** ** System calls *)

Definition Sys (A : Type) : Type := IO ErrorKind A.

(** [act] when the call goes through; [partial n] is what a call that is cut short
    after [n] bytes leaves behind. *)
Definition syscall {A} (partial : nat -> Fs -> Fs) (act : Fs -> result ErrorKind (A * Fs)) : Sys A := fun w =>
  let go o :=
    match act (fs w) with
    | Ok (a, f) => Done (Ok a) (mkWorld f o)
    | Err k => Done (Err k) (mkWorld (fs w) o)
    end in
  match oracle w with
  | [] => go []
  | Go :: o => go o
  | Fault k n :: o => Done (Err (fault_kind k)) (mkWorld (partial n (fs w)) o)
  | Crash n :: _ => Crashed (partial n (fs w))
  end.

Definition nothing (n : nat) (f : Fs) : Fs := f.

(** A call that only reads. *)
Definition query {A} (act : Fs -> result ErrorKind A) : Sys A :=
  syscall nothing (fun f => match act f with Ok a => Ok (a, f) | Err k => Err k end).

(** [fs::symlink_metadata] and [File::metadata]. *)
Definition stat_inode (i : N) (f : Fs) : result ErrorKind Metadata :=
  match inodes f !! i with Some n => Ok (metadata_of f i n) | None => Err OtherError end.
Definition symlink_metadata (p : PathBuf) : Sys Metadata :=
  query (fun f => match live f !! p with Some i => stat_inode i f | None => Err NotFound end).
Definition file_metadata (i : N) : Sys Metadata := query (stat_inode i).

(** [fs::metadata("/proc/self").uid()]. *)
Definition proc_self_uid : Sys N := query (fun f => Ok (euid f)).

Definition dir_metadata (d : SpoolDir) : Sys DirNode :=
  query (fun f => match dirs f !! d with Some n => Ok n | None => Err NotFound end).
(** [DirBuilder::new().mode(mode).create(path)]. *)
Definition create_dir (d : SpoolDir) (mode : N) : Sys unit :=
  syscall nothing (fun f =>
    match dirs f !! d with
    | Some _ => Err AlreadyExists
    | None => Ok (tt, set_dirs f (<[d := mkDirNode true (euid f) mode]> (dirs f)))
    end).

(** The names in a directory. *)
Definition names_in (d : SpoolDir) (e : gmap PathBuf N) : list string :=
  omap (fun q => if q.1.1 ==? d then Some q.1.2 else None) (map_to_list e).
Definition read_dir (d : SpoolDir) : Sys (list string) :=
  query (fun f => Ok (names_in d (live f))).

(** Following one symbolic link. *)
Definition resolve (f : Fs) (i : N) : result ErrorKind N :=
  match inodes f !! i with
  | Some n => match inode_type n with
      | SymbolicLink t => if bool_decide (is_Some (inodes f !! t)) then Ok t else Err NotFound
      | _ => Ok i
      end
  | None => Err OtherError
  end.
Definition open_act (p : PathBuf) (f : Fs) : result ErrorKind N :=
  match live f !! p with Some i => resolve f i | None => Err NotFound end.
(** [File::open], and [OpenOptions] that create nothing. *)
Definition open_file (p : PathBuf) : Sys N := query (open_act p).

Definition fresh_ino (f : Fs) : N := fresh (dom (inodes f) : gset N).
Definition new_inode (f : Fs) (mode : N) : Inode :=
  mkInode Regular (euid f) mode (let t := clock f in (t.1, t.2, t.1, t.2)) [] [].
Definition create_at (p : PathBuf) (mode : N) (f : Fs) : N * Fs :=
  let i := fresh_ino f in
  (i, push (set_inodes f (<[i := new_inode f mode]> (inodes f))) [(p, Some i)]).
(** [OpenOptions::new().create(true)…open]. *)
Definition open_create (p : PathBuf) (mode : N) : Sys N :=
  syscall nothing (fun f =>
    match live f !! p with
    | Some i => match resolve f i with Ok j => Ok (j, f) | Err k => Err k end
    | None => Ok (create_at p mode f)
    end).
(** [OpenOptions::new().create_new(true)…open]. *)
Definition open_create_new (p : PathBuf) (mode : N) : Sys N :=
  syscall nothing (fun f =>
    match live f !! p with Some _ => Err AlreadyExists | None => Ok (create_at p mode f) end).

Definition alter_data (i : N) (g : list byte -> list byte) (f : Fs) : Fs :=
  set_inodes f (alter (fun n => with_data n (clock f) (g (data n))) i (inodes f)).

(** [file.write_all(&bytes)] at the end of the file; cut short, a prefix is written. *)
Definition append_all (i : N) (bytes : list byte) : Sys unit :=
  syscall (fun n => alter_data i (fun d => d ++ take n bytes))
    (fun f => Ok (tt, alter_data i (fun d => d ++ bytes) f)).
(** [file.set_len(length)]. *)
Definition set_len (i length : N) : Sys unit :=
  syscall nothing (fun f => Ok (tt, alter_data i (take (N.to_nat length)) f)).
(** [file.sync_data()], and [file.sync_all()], which forces no less. *)
Definition sync_data (i : N) : Sys unit :=
  syscall nothing (fun f => Ok (tt, set_inodes f (alter with_synced i (inodes f)))).
(** [File::open(directory).and_then(|dir| dir.sync_all())]. *)
Definition sync_dir (d : SpoolDir) : Sys unit :=
  syscall nothing (fun f =>
    let p := flush d (pending f) in Ok (tt, set_entries f (apply_ops (disk f) p.1) p.2)).

(** Reading [count] bytes from [start] on, as far as the file goes. *)
Definition read_at (i start count : N) : Sys (list byte) :=
  query (fun f => match inodes f !! i with
    | Some n => Ok (sub_bytes start count (data n)) | None => Err OtherError end).
Definition read_to_end (i : N) : Sys (list byte) :=
  query (fun f => match inodes f !! i with Some n => Ok (data n) | None => Err OtherError end).

(** [fs::rename]: what the new name was bound to is replaced. *)
Definition rename (p q : PathBuf) : Sys unit :=
  syscall nothing (fun f =>
    match live f !! p with
    | Some i => Ok (tt, push (set_inodes f (alter (fun n => with_ctime n (clock f)) i (inodes f)))
        [(p, None); (q, Some i)])
    | None => Err NotFound
    end).
(** [fs::remove_file]. *)
Definition remove_file (p : PathBuf) : Sys unit :=
  syscall nothing (fun f =>
    match live f !! p with Some _ => Ok (tt, push f [(p, None)]) | None => Err NotFound end).

(** A lock on a directory, held to the end of the operation. *)
Definition lock_dir (d : SpoolDir) : Sys unit :=
  query (fun f => match dirs f !! d with Some _ => Ok tt | None => Err NotFound end).
(** [FileExt::try_lock_exclusive(&file)]: a claim that is kept until the file is closed. *)
Definition try_lock_file (i : N) : Sys unit :=
  syscall nothing (fun f =>
    if bool_decide (i ∈ flocks f) then Err WouldBlock else Ok (tt, set_flocks f ({[i]} ∪ flocks f))).
(** Closing a claimed file. *)
Definition release (i : N) (f : Fs) : Fs := set_flocks f (flocks f ∖ {[i]}).

(** [path.exists()]. *)
Definition path_exists (p : PathBuf) (f : Fs) : bool := is_ok (open_act p f).

(** ** Losing power *)

(** What a crash leaves of a file: all that is on the disk and in the file, and of the
    rest some prefix. *)
Definition data_after (n : Inode) (d : list byte) : Prop :=
  (d `prefix_of` data n \/ d `prefix_of` synced n) /\
  forall c, c `prefix_of` data n -> c `prefix_of` synced n -> c `prefix_of` d.

(** The directory entries a crash may leave: changes reach the disk in order. *)
Definition entries_after (f : Fs) (e : gmap PathBuf N) : Prop :=
  exists k, e = apply_ops (disk f) (take k (pending f)).

Definition inode_after (n n' : Inode) : Prop :=
  data_after n (data n') /\ synced n' = data n' /\ inode_type n' = inode_type n /\
  inode_uid n' = inode_uid n /\ inode_permissions n' = inode_permissions n.

(** The state a machine comes up with; a process that dies alone is the case in
    which everything happens to have reached the disk. *)
Record power_loss (f g : Fs) : Prop := {
  loss_entries : entries_after f (disk g);
  loss_pending : pending g = [];
  loss_flocks : flocks g = ∅;
  loss_inodes : map_Forall2 (fun _ => inode_after) (inodes f) (inodes g);
  loss_dirs : dirs g = dirs f;
  loss_euid : euid g = euid f;
}.

(** ** Lemmas *)

(** ** The weakest precondition

    Whatever the environment does, [m] started in [f] ends with [Q] of its result and
    state, or crashes in a state with [C]. *)
Definition wp {E A} (m : IO E A) (Q : result E A -> Fs -> Prop) (C : Fs -> Prop) (f : Fs) : Prop :=
  forall o, match m (mkWorld f o) with Done r w => Q r (fs w) | Crashed g => C g end.

Section rules.
Context {E : Type}.

Lemma wp_mono {A} (m : IO E A) (Q Q' : result E A -> Fs -> Prop) (C C' : Fs -> Prop) f :
  wp m Q C f -> (forall r g, Q r g -> Q' r g) -> (forall g, C g -> C' g) -> wp m Q' C' f.
Proof. intros H HQ HC o. specialize (H o). destruct (m _); auto. Qed.

Lemma wp_ret {A} (a : A) (Q : result E A -> Fs -> Prop) C f : Q (Ok a) f -> wp (ret a) Q C f.
Proof. by intros H o. Qed.
Lemma wp_raise {A} (e : E) (Q : result E A -> Fs -> Prop) C f : Q (Err e) f -> wp (raise e) Q C f.
Proof. by intros H o. Qed.
Lemma wp_lift {A} (r : result E A) (Q : result E A -> Fs -> Prop) C f : Q r f -> wp (lift r) Q C f.
Proof. by intros H o. Qed.
Lemma wp_observe {A} (g : Fs -> A) (Q : result E A -> Fs -> Prop) C f :
  Q (Ok (g f)) f -> wp (observe g) Q C f.
Proof. by intros H o. Qed.
Lemma wp_update (g : Fs -> Fs) (Q : result E unit -> Fs -> Prop) C f :
  Q (Ok tt) (g f) -> wp (update g) Q C f.
Proof. by intros H o. Qed.

Lemma wp_bind {A B} (m : IO E A) (k : A -> IO E B) (Q : result E B -> Fs -> Prop) C f :
  wp m (fun r g => match r with Ok a => wp (k a) Q C g | Err e => Q (Err e) g end) C f ->
  wp (bind m k) Q C f.
Proof.
  intros H o. specialize (H o). unfold bind. destruct (m _) as [[a|e] w|g]; try done.
  specialize (H (oracle w)). destruct w as [g o']. exact H.
Qed.
End rules.

Lemma wp_attempt {E F A} (m : IO E A) (Q : result F (result E A) -> Fs -> Prop) C f :
  wp m (fun r g => Q (Ok r) g) C f -> wp (attempt m) Q C f.
Proof. intros H o. specialize (H o). unfold attempt. by destruct (m _). Qed.

Lemma wp_map_io_err {E F A} (g : E -> F) (m : IO E A) (Q : result F A -> Fs -> Prop) C f :
  wp m (fun r h => Q (map_err g r) h) C f -> wp (map_io_err g m) Q C f.
Proof. intros H o. specialize (H o). unfold map_io_err. by destruct (m _). Qed.

Lemma wp_syscall {A} partial (act : Fs -> result ErrorKind (A * Fs)) (Q : result ErrorKind A -> Fs -> Prop) C f :
  (forall a g, act f = Ok (a, g) -> Q (Ok a) g) ->
  (forall k, act f = Err k -> Q (Err k) f) ->
  (forall k n, Q (Err (fault_kind k)) (partial n f)) ->
  (forall n, C (partial n f)) ->
  wp (syscall partial act) Q C f.
Proof.
  intros Ha He Hf Hc o. unfold syscall. cbn [fs oracle].
  destruct (act f) as [[a g]|k] eqn:E; destruct o as [|[|k' n|n] o]; cbn; auto.
Qed.

(** Where a run ends, crashed or not. *)
Definition state_of {E A} (o : outcome E A) : Fs := match o with Done _ w => fs w | Crashed f => f end.

Lemma wp_state {E A} (m : IO E A) (I : Fs -> Prop) f o :
  wp m (fun _ g => I g) I f -> I (state_of (m (mkWorld f o))).
Proof. intros H. specialize (H o). by destruct (m _). Qed.

(** ** Computations that change nothing

    [P] relates the state and the result. *)
Definition reads {E A} (m : IO E A) (P : Fs -> result E A -> Prop) : Prop :=
  forall f o, match m (mkWorld f o) with Done r w => fs w = f /\ P f r | Crashed g => g = f end.

(** The post-condition of an [Ok] alone. *)
Definition yields {E A} (P : Fs -> A -> Prop) (f : Fs) (r : result E A) : Prop :=
  match r with Ok a => P f a | Err _ => True end.

Lemma wp_reads {E A} (m : IO E A) P (Q : result E A -> Fs -> Prop) (C : Fs -> Prop) f :
  reads m P -> (forall r, P f r -> Q r f) -> C f -> wp m Q C f.
Proof.
  intros H HQ HC o. specialize (H f o). destruct (m _) as [r w|g]; [|by subst].
  destruct H as [-> H]. auto.
Qed.

Lemma reads_mono {E A} (m : IO E A) P P' :
  reads m P -> (forall f r, P f r -> P' f r) -> reads m P'.
Proof. intros H HP f o. specialize (H f o). destruct (m _); [destruct H; auto|done]. Qed.

Lemma reads_ret {E A} (a : A) : reads (E := E) (ret a) (fun _ r => r = Ok a).
Proof. by intros f o. Qed.
Lemma reads_raise {E A} (e : E) : reads (A := A) (raise e) (fun _ r => r = Err e).
Proof. by intros f o. Qed.
Lemma reads_lift {E A} (r : result E A) : reads (lift r) (fun _ r' => r' = r).
Proof. by intros f o. Qed.
Lemma reads_refuse {E} (bad : bool) (e : E) : reads (refuse bad e) (yields (fun _ _ => bad = false)).
Proof. intros f o. unfold refuse, lift. destruct bad; done. Qed.
Lemma reads_observe {E A} (g : Fs -> A) : reads (E := E) (observe g) (fun f r => r = Ok (g f)).
Proof. by intros f o. Qed.

Lemma reads_bind {E A B} (m : IO E A) (k : A -> IO E B) P P' :
  reads m P ->
  (forall a, reads (k a) (fun f r => P f (Ok a) -> P' f r)) ->
  (forall f e, P f (Err e) -> P' f (Err e)) ->
  reads (bind m k) P'.
Proof.
  intros Hm Hk He f o. specialize (Hm f o). unfold bind.
  destruct (m _) as [[a|e] w|g]; [|destruct Hm as [-> ?]; auto|done].
  destruct w as [g o'], Hm as [Hw HP]. simpl in Hw. subst g. specialize (Hk a f o').
  destruct (k a _); [destruct Hk; auto|done].
Qed.

(** Sequencing when only the [Ok] results matter. *)
Lemma reads_then {E A B} (m : IO E A) (k : A -> IO E B) P P' :
  reads m (yields P) ->
  (forall a, reads (k a) (yields (fun f b => P f a -> P' f b))) ->
  reads (bind m k) (yields P').
Proof.
  intros Hm Hk. apply (reads_bind m k (yields P)); [done| |done].
  intros a. eapply reads_mono; [apply Hk|]. intros f [b|e]; cbn; auto.
Qed.

Lemma reads_attempt {E F A} (m : IO E A) P :
  reads m P -> reads (attempt (F := F) m) (yields (fun f r => P f r)).
Proof. intros H f o. specialize (H f o). unfold attempt. destruct (m _); cbn; done. Qed.

Lemma reads_map_io_err {E F A} (g : E -> F) (m : IO E A) P :
  reads m (yields P) -> reads (map_io_err g m) (yields P).
Proof.
  intros H f o. specialize (H f o). unfold map_io_err. destruct (m _) as [[a|e] w|h]; cbn; intuition.
Qed.

(** A query returns what it looks up, or fails from outside. *)
Lemma reads_query {A} (act : Fs -> result ErrorKind A) :
  reads (query act) (fun f r => r = act f \/ exists k, r = Err (fault_kind k)).
Proof.
  intros f o. unfold query, syscall. cbn [fs oracle].
  destruct (act f) as [a|k] eqn:E; destruct o as [|[|k' n|n] o]; cbn; rewrite ?E; eauto.
Qed.
Lemma reads_query_ok {A} (act : Fs -> result ErrorKind A) :
  reads (query act) (yields (fun f a => act f = Ok a)).
Proof.
  eapply reads_mono; [apply reads_query|]. intros f [a|k]; cbn; [|done]. intros [H|[k H]]; congruence.
Qed.

Lemma reads_any {E A} (m : IO E A) P : reads m P -> reads m (yields (fun _ _ => True)).
Proof. intros H. eapply reads_mono; [exact H|]. by intros f []. Qed.

Lemma reads_each {E A} (g : A -> IO E unit) (l : list A) (P : A -> Fs -> Prop) :
  (forall x, x ∈ l -> reads (g x) (yields (fun f _ => P x f))) ->
  reads (io_each g l) (yields (fun f _ => forall x, x ∈ l -> P x f)).
Proof.
  induction l as [|x l IH]; intros Hg; simpl.
  - eapply reads_mono; [apply reads_ret|]. intros f r ->. cbn. set_solver.
  - eapply reads_then; [apply Hg; set_solver|]. intros [].
    eapply reads_mono; [apply IH; intros y Hy; apply Hg; set_solver|].
    intros f [[]|e]; cbn; [|done]. intros Hl Hx y [->|Hy]%elem_of_cons; auto.
Qed.

Lemma reads_io_map {E A B} (g : A -> IO E B) (l : list A) (P : A -> Fs -> B -> Prop) :
  (forall x, reads (g x) (yields (P x))) ->
  reads (io_map g l) (yields (fun f ys => Forall2 (fun x y => P x f y) l ys)).
Proof.
  intros Hg. induction l as [|x l IH]; simpl.
  - eapply reads_mono; [apply reads_ret|]. intros f r ->. constructor.
  - eapply reads_then; [apply Hg|]. intros y. eapply reads_then; [apply IH|]. intros ys.
    eapply reads_mono; [apply reads_ret|]. intros f r ->. cbn. intros. by constructor.
Qed.

(** ** Directory entries *)

Lemma apply_ops_app e l l' : apply_ops e (l ++ l') = apply_ops (apply_ops e l) l'.
Proof. unfold apply_ops. by rewrite foldl_app. Qed.

Lemma live_push f o : live (push f o) = apply_op (live f) o.
Proof. unfold live. simpl. by rewrite apply_ops_app. Qed.

Lemma flush_app d l : (flush d l).1 ++ (flush d l).2 = l.
Proof.
  induction l as [|o l IH]; simpl; [done|].
  destruct (is_empty (flush d l).1 && negb (touches d o)) eqn:E; simpl; [done|]. by rewrite IH.
Qed.

Lemma flush_rest d l : Forall (fun o => touches d o = false) (flush d l).2.
Proof.
  induction l as [|o l IH]; simpl; [constructor|].
  destruct (is_empty (flush d l).1 && negb (touches d o)) eqn:E; simpl; [|done].
  apply andb_true_iff in E as [E1%is_empty_true E2%negb_true_iff]. constructor; [done|].
  pose proof (flush_app d l) as H. rewrite E1 in H. simpl in H. by rewrite H in IH.
Qed.

Lemma apply_op_untouched d n o e : touches d o = false -> apply_op e o !! (d, n) = e !! (d, n).
Proof.
  unfold touches, apply_op. rewrite any_false. intros H. revert e.
  induction H as [|[p v] o Hp _ IH]; intros e; simpl; [done|].
  rewrite IH. apply bool_decide_eq_false in Hp. simpl in Hp. unfold apply_update. simpl.
  destruct v; [rewrite lookup_insert_ne|rewrite lookup_delete_ne]; try done; intros ->; done.
Qed.

Lemma apply_ops_untouched d n l e :
  Forall (fun o => touches d o = false) l -> apply_ops e l !! (d, n) = e !! (d, n).
Proof.
  intros H. revert e. induction H as [|o l Ho _ IH]; intros e; simpl; [done|].
  rewrite IH. by apply apply_op_untouched.
Qed.

Lemma entries_after_live f : entries_after f (live f).
Proof. exists (length (pending f)). by rewrite firstn_all. Qed.

Lemma entries_after_push f o e :
  entries_after (push f o) e <-> entries_after f e \/ e = apply_op (live f) o.
Proof.
  unfold entries_after, push, live. simpl. split.
  - intros [k ->]. destruct (decide (k <= length (pending f))%nat) as [Hk|Hk].
    + left. exists k. by rewrite take_app_le.
    + right. rewrite take_ge by (rewrite length_app; simpl; lia). by rewrite apply_ops_app.
  - intros [[k ->]| ->].
    + destruct (decide (k <= length (pending f))%nat) as [Hk|Hk].
      * exists k. by rewrite take_app_le.
      * exists (length (pending f)). by rewrite take_app_length, take_ge by lia.
    + exists (length (pending f ++ [o])). by rewrite firstn_all, apply_ops_app.
Qed.

Definition synced_dir (d : SpoolDir) (f : Fs) : Fs :=
  set_entries f (apply_ops (disk f) (flush d (pending f)).1) (flush d (pending f)).2.

Lemma live_synced_dir d f : live (synced_dir d f) = live f.
Proof. unfold live, synced_dir. simpl. by rewrite <-apply_ops_app, flush_app. Qed.

Lemma entries_after_synced d f e : entries_after (synced_dir d f) e -> entries_after f e.
Proof.
  intros [k ->]. exists (length (flush d (pending f)).1 + k)%nat. unfold synced_dir. simpl.
  rewrite <-apply_ops_app. f_equal.
  transitivity (take (length (flush d (pending f)).1 + k) ((flush d (pending f)).1 ++ (flush d (pending f)).2)).
  - rewrite take_app_ge by lia. do 2 f_equal. lia.
  - by rewrite flush_app.
Qed.

(** After a directory sync every crash leaves that directory as it is. *)
Lemma synced_dir_agrees d f e n :
  entries_after (synced_dir d f) e -> e !! (d, n) = live f !! (d, n).
Proof.
  intros [k ->]. rewrite <-(live_synced_dir d f). unfold live, synced_dir. simpl.
  pose proof (flush_rest d (pending f)) as H.
  rewrite (apply_ops_untouched d n (take k _)) by (by apply Forall_take).
  by rewrite (apply_ops_untouched d n (flush d (pending f)).2).
Qed.

(** ** File contents after a crash *)

Lemma data_after_keeps n d c :
  data_after n d -> c `prefix_of` data n -> c `prefix_of` synced n -> c `prefix_of` d.
Proof. intros [_ H]. auto. Qed.

(** A machine with nothing under way may come up as it went down. *)
Lemma quiet_power_loss f :
  pending f = [] -> flocks f = ∅ -> map_Forall (fun _ n => synced n = data n) (inodes f) -> power_loss f f.
Proof.
  intros Hp Hl Hs. split; [|done|done| |done|done].
  - exists 0%nat. by rewrite take_0.
  - intros i. destruct (inodes f !! i) as [n|] eqn:E; constructor. specialize (Hs i n E).
    split; [|by split_and!]. split; [by left|]. done.
Qed.

Lemma elem_of_names_in d e x : x ∈ names_in d e <-> exists i, e !! (d, x) = Some i.
Proof.
  unfold names_in. rewrite list_elem_of_omap. split.
  - intros ([[d' x'] i] & Hin & H). apply elem_of_map_to_list in Hin. simpl in H.
    destruct (bool_decide (d' = d)) eqn:E; [|done]. apply bool_decide_eq_true in E. simplify_eq. eauto.
  - intros [i H]. exists ((d, x), i). split; [by apply elem_of_map_to_list|]. simpl.
    by rewrite bool_decide_eq_true_2.
Qed.
