(* ===== verification/Spool.v ===== *)
(** * The durable spool (crates/evertrace-capture/src/spool.rs)

    Hooks append frames to the segment [active.open]; the daemon renames it to a
    sealed segment, reads claimed segments page by page, and removes a segment once
    everything in it is committed.  [recover] repairs what a crash left; what cannot
    be read is moved to quarantine whole.  Every operation is the sequence of system
    calls of the code, in the code's order, over the file system of [Fs].  An
    operation runs while it holds the lock of the directory it changes, and is one
    step with respect to the operations of other processes. *)

From stdpp Require Import pretty.
From S2P Require Import Prelude Order Collections Text Canonical Ids Lane Attempt Evidence SpoolFrame CaptureBody GapMarker Fs.

Definition ACTIVE_NAME : string := "active.open".
Definition ISOLATED_PREFIX : string := "isolated-".

Module SpoolLimits.
Record SpoolLimits := mk {
  high_watermark_bytes : N;
  low_watermark_bytes : N;
  max_main_files : N;
  emergency_slots : N;
}.
#[export] Instance eq_dec : EqDecision SpoolLimits.
Proof. solve_decision. Defined.
End SpoolLimits.
Abbreviation SpoolLimits := SpoolLimits.SpoolLimits.
Export (hints) SpoolLimits.
Module GapEvidence.
Record GapEvidence := mk {
  quarantined_file : PathBuf;
  reason : GapReason;
}.
#[export] Instance eq_dec : EqDecision GapEvidence.
Proof. solve_decision. Defined.
End GapEvidence.
Abbreviation GapEvidence := GapEvidence.GapEvidence.
Export (hints) GapEvidence.
Module RecoveryReport.
Record RecoveryReport := mk {
  repaired_tail_bytes : N;
  gaps : list GapEvidence;
}.
#[export] Instance eq_dec : EqDecision RecoveryReport.
Proof. solve_decision. Defined.
End RecoveryReport.
Abbreviation RecoveryReport := RecoveryReport.RecoveryReport.
Export (hints) RecoveryReport.
Module DurableWrite.
Record DurableWrite := mk {
  end_watermark : N;
  frame_bytes : N;
}.
#[export] Instance eq_dec : EqDecision DurableWrite.
Proof. solve_decision. Defined.
End DurableWrite.
Abbreviation DurableWrite := DurableWrite.DurableWrite.
Export (hints) DurableWrite.
Module SealedFrame.
Record SealedFrame := mk {
  record : SpoolRecord;
  byte_start : N;
  byte_end : N;
}.
#[export] Instance eq_dec : EqDecision SealedFrame.
Proof. solve_decision. Defined.
End SealedFrame.
Abbreviation SealedFrame := SealedFrame.SealedFrame.
Export (hints) SealedFrame.

(** [(dev, ino, len, mtime, mtime_nsec, ctime, ctime_nsec)]. *)
Definition Identity : Type := N * N * N * Times.
Module SealedSegment.
Record SealedSegment := mk {
  path : PathBuf;
  file : N;
  device : N;
  inode : N;
  length : N;
  frames : list SealedFrame;
  end_offset : N;
  identity : Identity;
}.
End SealedSegment.
Abbreviation SealedSegment := SealedSegment.SealedSegment.
Export (hints) SealedSegment.
Module SpoolReadCursor.
Record SpoolReadCursor := mk {
  path : PathBuf;
  identity : Identity;
  offset : N;
}.
End SpoolReadCursor.
Abbreviation SpoolReadCursor := SpoolReadCursor.SpoolReadCursor.
Export (hints) SpoolReadCursor.
Module PendingGapMarker.
Record PendingGapMarker := mk {
  marker : CaptureGapMarker;
  path : PathBuf;
  file : N;
  device : N;
  inode : N;
  length : N;
}.
End PendingGapMarker.
Abbreviation PendingGapMarker := PendingGapMarker.PendingGapMarker.
Export (hints) PendingGapMarker.
Module PendingQuarantine.
Record PendingQuarantine := mk {
  path : PathBuf;
  file : N;
  device : N;
  inode : N;
  length : N;
  fingerprint : string;
}.
End PendingQuarantine.
Abbreviation PendingQuarantine := PendingQuarantine.PendingQuarantine.
Export (hints) PendingQuarantine.
Module Usage.
Record Usage := mk {
  bytes : N;
  files : N;
}.
#[export] Instance eq_dec : EqDecision Usage.
Proof. solve_decision. Defined.
End Usage.
Abbreviation Usage := Usage.Usage.
Export (hints) Usage.

(** An open spool; its directories are those of the file system. *)
Record DurableSpool := mkSpool {
  limits : SpoolLimits;
  last_watermark : N;
}.

Definition SpoolLimits_validate (self : SpoolLimits) : result SpoolError SpoolLimits :=
  do? guard ((SpoolLimits.low_watermark_bytes self =? 0)%N
             || (SpoolLimits.high_watermark_bytes self <? SpoolLimits.low_watermark_bytes self)%N
             || (SpoolLimits.max_main_files self =? 0)%N
             || (SpoolLimits.emergency_slots self =? 0)%N
             || (64 <? SpoolLimits.emergency_slots self)%N) SpoolError.InvalidConfiguration in
  Ok self.

Definition high_watermark (self : DurableSpool) : N := SpoolLimits.high_watermark_bytes (limits self).
Definition max_files (self : DurableSpool) : N := SpoolLimits.max_main_files (limits self).

(** ** Error maps *)

Definition M (A : Type) : Type := IO SpoolError A.

Definition map_io {A} (s : Sys A) : M A := map_io_err (fun _ => SpoolError.Io) s.
Definition map_write_error {A} (s : Sys A) : M A :=
  map_io_err (fun kind =>
    if contains kind [PermissionDenied; ReadOnlyFilesystem] then SpoolError.Unavailable
    else SpoolError.Io) s.
Definition map_busy {A} (s : Sys A) : M A :=
  map_io_err (fun kind => if kind ==? WouldBlock then SpoolError.Busy else SpoolError.Io) s.
Definition frame_result {A} (r : result SpoolFrameError A) : M A := lift (map_err of_frame_error r).

(** ** Names *)

(** [format!("{value:0width}")]. *)
Definition padded (width : nat) (value : N) : string :=
  let digits := pretty value in
  String.append (of_bytes (replicate (width - length (as_bytes digits)) x30)) digits.

Fixpoint rsplit_dot (l : list byte) : option (list byte * list byte) :=
  match l with
  | [] => None
  | b :: r =>
      match rsplit_dot r with
      | Some p => Some (b :: p.1, p.2)
      | None => if b ==? x2e then Some ([], r) else None
      end
  end.
(** [path.extension()]: what follows the last dot, unless the name begins with it. *)
Definition has_extension (name ext : string) : bool :=
  match rsplit_dot (as_bytes name) with
  | Some (_ :: _, e) => e ==? as_bytes ext
  | _ => false
  end.

Definition name_starts_with (name prefix : string) : bool := starts_with (as_bytes name) (as_bytes prefix).
(** [entry.file_name().to_str().is_some_and(|name| name.starts_with(ISOLATED_PREFIX))]. *)
Definition is_isolated (name : string) : bool :=
  utf8_valid (as_bytes name) && name_starts_with name ISOLATED_PREFIX.

Definition active_path : PathBuf := (MainDir, ACTIVE_NAME).
Definition slot_path (slot : N) : PathBuf :=
  (EmergencyDir, ("slot-" +:+ padded 2 slot +:+ ".marker")%string).

(** The [for index in 0..1024_u32] of [unique_path]. *)
Fixpoint first_free (d : SpoolDir) (stem suffix : string) (indices : list N) (f : Fs) : option PathBuf :=
  match indices with
  | [] => None
  | index :: r =>
      let path := (d, (stem +:+ "-" +:+ padded 4 index +:+ suffix)%string) in
      if path_exists path f then first_free d stem suffix r f else Some path
  end.
Definition unique_path (d : SpoolDir) (stem suffix : string) : M PathBuf :=
  let! found := observe (first_free d stem suffix (N.of_nat <$> seq 0 1024)) in
  lift (ok_or found SpoolError.ResourceExhausted).

(** ** Ownership checks *)

Definition mode_is (permissions mode : N) : bool := (N.land permissions 511 =? mode)%N.

Definition validate_directory (d : SpoolDir) : M unit :=
  let! metadata := map_io (dir_metadata d) in
  do! refuse (negb (is_directory metadata)) SpoolError.InvalidType in
  let! self := map_io proc_self_uid in
  do! refuse (negb (dir_uid metadata =? self)%N) SpoolError.WrongOwner in
  refuse (negb (mode_is (dir_permissions metadata) 448)) SpoolError.InvalidPermissions.

Definition ensure_directory (d : SpoolDir) : M unit :=
  let! found := attempt (dir_metadata d) in
  match found with
  | Ok _ => validate_directory d
  | Err NotFound => do! map_io (create_dir d 448) in validate_directory d
  | Err _ => raise SpoolError.Io
  end.

Definition validate_directories : M unit :=
  io_each validate_directory [RootDir; MainDir; EmergencyDir; QuarantineDir].

Definition validate_owned_file_metadata (metadata : Metadata) : M unit :=
  do! refuse (file_type metadata !=? Regular) SpoolError.InvalidType in
  let! self := map_io proc_self_uid in
  do! refuse (negb (uid metadata =? self)%N) SpoolError.WrongOwner in
  refuse (negb (mode_is (permissions metadata) 384)) SpoolError.InvalidPermissions.

Definition validate_owned_file (path : PathBuf) (file : N) : M unit :=
  let! before := map_io (symlink_metadata path) in
  let! opened := map_io (file_metadata file) in
  do! validate_owned_file_metadata before in
  do! validate_owned_file_metadata opened in
  refuse (negb (dev before =? dev opened)%N || negb (ino before =? ino opened)%N) SpoolError.Corrupt.

Definition validate_ack_identity (path : PathBuf) (file device inode length : N) : M unit :=
  let! path_metadata := map_io (symlink_metadata path) in
  let! opened := map_io (file_metadata file) in
  do! validate_owned_file_metadata path_metadata in
  do! validate_owned_file_metadata opened in
  refuse (negb (dev path_metadata =? device)%N
          || negb (ino path_metadata =? inode)%N
          || negb (len path_metadata =? length)%N
          || negb (dev opened =? device)%N
          || negb (ino opened =? inode)%N
          || negb (len opened =? length)%N) SpoolError.IdentityChanged.

Definition owned_file_exists (path : PathBuf) : M bool :=
  let! found := attempt (symlink_metadata path) in
  match found with
  | Ok metadata => do! validate_owned_file_metadata metadata in ret true
  | Err NotFound => ret false
  | Err _ => raise SpoolError.Io
  end.

Definition read_owned_file (path : PathBuf) : M (list byte) :=
  let! file := map_io (open_file path) in
  do! validate_owned_file path file in
  map_io (read_to_end file).

Definition read_owned_file_exact (path : PathBuf) (expected : Metadata) (remaining : N) : M (list byte) :=
  do! validate_owned_file_metadata expected in
  do! refuse (remaining <? len expected)%N SpoolError.ResourceExhausted in
  let! file := map_io (open_file path) in
  do! validate_ack_identity path file (dev expected) (ino expected) (len expected) in
  let read_limit := N.min (N.min (len expected + 1) U64_MAX) remaining in
  let! bytes := map_io (read_at file 0 read_limit) in
  do! refuse (negb (blen bytes =? len expected)%N) SpoolError.Corrupt in
  do! validate_ack_identity path file (dev expected) (ino expected) (len expected) in
  ret bytes.

Definition segment_identity (value : Metadata) : Identity :=
  (dev value, ino value, len value, times value).

(** Neither the path nor the handle stands for another file than [before]. *)
Definition check_identity (path : PathBuf) (file : N) (before : Metadata) : M unit :=
  let! opened := map_io (file_metadata file) in
  do! refuse (segment_identity opened !=? segment_identity before) SpoolError.IdentityChanged in
  let! current := map_io (symlink_metadata path) in
  refuse (segment_identity current !=? segment_identity before) SpoolError.IdentityChanged.

(** ** Reading frames *)

Definition READ_BUFFER : N := 64 * 1024.
Definition MAX_PENDING : N := 8 * 1024 * 1024.
Definition CAS_BUDGET : N := 60 * 1024 * 1024.

(** [file.read_exact(&mut buffer[..length])]. *)
Definition read_exact (file offset length : N) : Sys (list byte) :=
  query (fun f => match inodes f !! file with
    | Some n =>
        let bytes := sub_bytes offset length (data n) in
        if (blen bytes =? length)%N then Ok bytes else Err OtherError
    | None => Err OtherError
    end).

Section spool.
Context `{SHA : Sha256}.
Context `{L : UuidLib}.
Context (to_vec : CaptureRecordBody -> option (list byte)).
Context (from_slice : list byte -> option CaptureRecordBody).

(** The [while remaining != 0] of [validate_active_file]: what is left unread of the
    frames.  One round reads up to [READ_BUFFER] bytes. *)
Fixpoint active_loop (fuel : nat) (file offset remaining : N) (pending : list byte) : M (list byte) :=
  if (remaining =? 0)%N then ret pending else
  match fuel with
  | O => raise SpoolError.Io
  | S fuel =>
      let length := N.min remaining READ_BUFFER in
      let! chunk := map_io (read_exact file offset length) in
      let! scan := frame_result (scan_frames sha256_digest (pending ++ chunk)) in
      let rest := drop (N.to_nat (complete_length scan)) (pending ++ chunk) in
      do! refuse (MAX_PENDING <? blen rest)%N SpoolError.ResourceExhausted in
      active_loop fuel file (offset + length) (remaining - length) rest
  end.

Definition active_fuel (length : N) : nat := S (N.to_nat (length / READ_BUFFER)).

Definition validate_active_file (path : PathBuf) (file max_bytes : N) : M unit :=
  let! before := map_io (file_metadata file) in
  do! refuse (max_bytes <? len before)%N SpoolError.ResourceExhausted in
  let! pending := active_loop (active_fuel (len before)) file 0 (len before) [] in
  do! refuse (negb (is_empty pending)) SpoolError.Corrupt in
  check_identity path file before.

(** The loop of [main_usage]. *)
Fixpoint usage_loop (names : list string) (usage : Usage) : M Usage :=
  match names with
  | [] => ret usage
  | name :: r =>
      let! metadata := map_io (symlink_metadata (MainDir, name)) in
      do! validate_owned_file_metadata metadata in
      usage_loop r (Usage.mk (N.min (Usage.bytes usage + len metadata) U64_MAX) (Usage.files usage + 1))
  end.
Definition main_usage : M Usage :=
  let! names := map_io (read_dir MainDir) in
  usage_loop names (Usage.mk 0 0).

(** ** Appending *)

Definition under_pressure (self : DurableSpool) (usage : Usage) (frame_bytes : N) : bool :=
  (high_watermark self <? N.min (Usage.bytes usage + frame_bytes) U64_MAX)%N.

Definition append (self : DurableSpool) (record : SpoolRecord) : M (DurableSpool * DurableWrite) :=
  do! validate_directories in
  do! map_io (lock_dir MainDir) in
  let! frame := frame_result (encode_frame sha256_digest record) in
  let! usage := main_usage in
  let frame_bytes := blen frame in
  let! active_exists := owned_file_exists active_path in
  do! refuse (negb active_exists && (max_files self <=? Usage.files usage)%N
              || under_pressure self usage frame_bytes) SpoolError.Pressure in
  let! file := map_write_error (open_create active_path 384) in
  do! validate_owned_file active_path file in
  do! (if active_exists then validate_active_file active_path file (high_watermark self) else ret tt) in
  do! map_write_error (append_all file frame) in
  do! map_write_error (sync_data file) in
  do! (if active_exists then ret tt else map_write_error (sync_dir MainDir)) in
  let! metadata := map_io (file_metadata file) in
  ret (mkSpool (limits self) (len metadata), DurableWrite.mk (len metadata) frame_bytes).

(** The closure of [append_isolated_sealed]. *)
Definition publish (destination : PathBuf) (frame : list byte) : M (N * Metadata) :=
  let! file := map_write_error (open_create_new destination 384) in
  do! map_write_error (append_all file frame) in
  do! map_write_error (sync_data file) in
  do! map_io (try_lock_file file) in
  do! map_write_error (sync_dir MainDir) in
  let! metadata := map_io (file_metadata file) in
  ret (file, metadata).

Definition valid_hint (hint : string) : bool :=
  negb (str_is_empty hint || (96 <? str_len hint)%N
        || negb (all (fun b => is_ascii_alphanumeric b || (b ==? x2d)) (as_bytes hint))).

Definition append_isolated_sealed (self : DurableSpool) (record : SpoolRecord) (routing_hint : string)
    : M SealedSegment :=
  do! refuse (negb (valid_hint routing_hint)) SpoolError.InvalidConfiguration in
  do! validate_directories in
  let! frame := frame_result (encode_frame sha256_digest record) in
  let frame_bytes := blen frame in
  do! map_io (lock_dir MainDir) in
  let! names := map_io (read_dir MainDir) in
  do! refuse (any (fun name => utf8_valid (as_bytes name)
        && name_starts_with name (ISOLATED_PREFIX +:+ routing_hint +:+ "-")%string) names)
      SpoolError.DuplicateRecord in
  let! usage := main_usage in
  do! refuse ((max_files self <=? Usage.files usage)%N || under_pressure self usage frame_bytes)
        SpoolError.Pressure in
  let! destination := unique_path MainDir (ISOLATED_PREFIX +:+ routing_hint)%string ".sealed" in
  let! published := attempt (publish destination frame) in
  match published with
  | Ok (file, metadata) =>
      ret (SealedSegment.mk destination file (dev metadata) (ino metadata) (len metadata)
             [SealedFrame.mk record 0 frame_bytes] (len metadata) (segment_identity metadata))
  | Err error =>
      let! removed := attempt (remove_file destination) in
      let! synced := attempt (sync_dir MainDir) in
      raise error
  end.

Definition read_active (self : DurableSpool) : M (list DecodedFrame) :=
  do! map_io (lock_dir MainDir) in
  let! found := attempt (symlink_metadata active_path) in
  match found with
  | Ok _ =>
      let! bytes := read_owned_file active_path in
      let! scan := frame_result (scan_frames sha256_digest bytes) in
      do! refuse (incomplete_tail scan) SpoolError.Corrupt in
      ret (frames scan)
  | Err NotFound => ret []
  | Err _ => raise SpoolError.Io
  end.

(** ** Sealing and quarantine *)

Definition seal_active (self : DurableSpool) (generation : N) : M (DurableSpool * option PathBuf) :=
  do! map_busy (lock_dir MainDir) in
  let! found := attempt (symlink_metadata active_path) in
  match found with
  | Err NotFound => ret (self, None)
  | Err _ => raise SpoolError.Io
  | Ok metadata =>
      do! validate_owned_file_metadata metadata in
      if (len metadata =? 0)%N then ret (self, None) else
      let! destination := unique_path MainDir ("segment-" +:+ pretty generation)%string ".sealed" in
      do! map_io (rename active_path destination) in
      do! map_io (sync_dir MainDir) in
      ret (mkSpool (limits self) 0, Some destination)
  end.

Definition quarantine (source : PathBuf) : M PathBuf :=
  let! destination := unique_path QuarantineDir "corrupt" ".spool" in
  do! map_io (rename source destination) in
  do! map_io (sync_dir QuarantineDir) in
  do! map_io (sync_dir MainDir) in
  ret destination.

Definition evidence_of (name : string) : M GapEvidence :=
  let path := (QuarantineDir, name) in
  let! metadata := map_io (symlink_metadata path) in
  do! validate_owned_file_metadata metadata in
  do! refuse (negb (has_extension name "spool")) SpoolError.Corrupt in
  let! file := map_io (open_file path) in
  do! validate_owned_file path file in
  ret (GapEvidence.mk path GapReason.CorruptSegment).

Definition quarantine_evidence : M (list GapEvidence) :=
  let! names := map_io (read_dir QuarantineDir) in
  let! gaps := io_map evidence_of names in
  ret (sort_by (fun a b => leb_ord (GapEvidence.quarantined_file a).2 (GapEvidence.quarantined_file b).2) gaps).

(** ** Recovery *)

(** The entries of the main directory but the active segment, checked and sorted. *)
Definition sealed_names : M (list string) :=
  let! names := map_io (read_dir MainDir) in
  let sealed := List.filter (fun name => name !=? ACTIVE_NAME) names in
  do! io_each (fun name =>
        let! metadata := map_io (symlink_metadata (MainDir, name)) in
        do! validate_owned_file_metadata metadata in
        refuse (negb (has_extension name "sealed")) SpoolError.Corrupt) sealed in
  ret (vec_sort sealed).

(** A sealed segment that does not read as complete frames. *)
Definition unreadable (bytes : list byte) : bool :=
  match scan_frames sha256_digest bytes with
  | Ok scan => incomplete_tail scan || is_empty (frames scan)
  | Err _ => true
  end.

Definition recover_sealed (name : string) : M unit :=
  let! bytes := read_owned_file (MainDir, name) in
  if unreadable bytes then let! moved := quarantine (MainDir, name) in ret tt else ret tt.

(** The active segment: its length as the new watermark, and the bytes cut off. *)
Definition recover_active (watermark : N) : M (N * N) :=
  let! found := attempt (symlink_metadata active_path) in
  match found with
  | Err NotFound => ret (watermark, 0%N)
  | Err _ => raise SpoolError.Io
  | Ok metadata =>
      do! validate_owned_file_metadata metadata in
      let! file := map_io (open_file active_path) in
      do! validate_owned_file active_path file in
      let! bytes := map_io (read_to_end file) in
      match scan_frames sha256_digest bytes with
      | Ok scan =>
          if incomplete_tail scan then
            do! map_io (set_len file (complete_length scan)) in
            do! map_io (sync_data file) in
            ret (complete_length scan, blen bytes - complete_length scan)%N
          else ret (complete_length scan, 0%N)
      | Err _ =>
          let! moved := quarantine active_path in
          ret (0%N, 0%N)
      end
  end.

(** [recover]; the second component is its result, the first the spool it leaves. *)
Definition recover (self : DurableSpool) : M (DurableSpool * result SpoolError RecoveryReport) :=
  do! validate_directories in
  do! map_io (lock_dir MainDir) in
  let! sealed := sealed_names in
  do! io_each recover_sealed sealed in
  let! repaired := recover_active (last_watermark self) in
  let! gaps := attempt quarantine_evidence in
  ret (mkSpool (limits self) repaired.1,
       match gaps with
       | Ok gaps => Ok (RecoveryReport.mk repaired.2 gaps)
       | Err error => Err error
       end).

Definition open_spool (l : SpoolLimits) : M (DurableSpool * RecoveryReport) :=
  let! l := lift (SpoolLimits_validate l) in
  do! io_each ensure_directory [RootDir; MainDir; EmergencyDir; QuarantineDir] in
  let! recovered := recover (mkSpool l 0) in
  let! report := lift recovered.2 in
  ret (recovered.1, report).

Definition open_read_only (l : SpoolLimits) : M DurableSpool :=
  let! l := lift (SpoolLimits_validate l) in
  do! validate_directories in
  ret (mkSpool l 0).

Definition validate_active_without_repair (self : DurableSpool) : M unit :=
  do! validate_directories in
  do! map_io (lock_dir MainDir) in
  let! found := attempt (symlink_metadata active_path) in
  match found with
  | Err NotFound => ret tt
  | Err _ => raise SpoolError.Io
  | Ok metadata =>
      do! validate_owned_file_metadata metadata in
      let! file := map_io (open_file active_path) in
      do! validate_owned_file active_path file in
      validate_active_file active_path file (high_watermark self)
  end.

(** ** Claiming sealed segments *)

(** A page: [None] reads whole segments, [Some None] the first page of one,
    [Some (Some cursor)] the page that follows the cursor. *)
Definition Page : Type := option (option SpoolReadCursor).
Definition page_cursor (page : Page) : option SpoolReadCursor :=
  match page with Some cursor => cursor | None => None end.

Definition continuation (self : SealedSegment) : option SpoolReadCursor :=
  if (SealedSegment.end_offset self =? SealedSegment.length self)%N then None
  else Some (SpoolReadCursor.mk (SealedSegment.path self) (SealedSegment.identity self)
               (SealedSegment.end_offset self)).
Definition complete (self : SealedSegment) : bool :=
  (SealedSegment.end_offset self =? SealedSegment.length self)%N.

(** The names of the sealed segments of one kind, sorted. *)
Fixpoint segment_names (isolated : bool) (max : N) (names : list string) (paths : list string) : M (list string) :=
  match names with
  | [] => ret (vec_sort paths)
  | name :: r =>
      if (name ==? ACTIVE_NAME) || negb (Bool.eqb (is_isolated name) isolated)
      then segment_names isolated max r paths else
      let! metadata := map_io (symlink_metadata (MainDir, name)) in
      do! validate_owned_file_metadata metadata in
      do! refuse (negb (has_extension name "sealed")) SpoolError.Corrupt in
      do! refuse (max <? N.of_nat (length (paths ++ [name])))%N SpoolError.ResourceExhausted in
      segment_names isolated max r (paths ++ [name])
  end.

Definition Claim : Type := PathBuf * N * Metadata.

(** The claiming loop: a segment another reader holds is passed over. *)
Fixpoint claim_paths (self : DurableSpool) (limit : N) (page : Page) (names : list string)
    (claimed : list Claim) : M (list Claim) :=
  match names with
  | [] => ret claimed
  | name :: r =>
      if (N.of_nat (length claimed) =? limit)%N then ret claimed else
      let path := (MainDir, name) in
      let! before := map_io (symlink_metadata path) in
      do! validate_owned_file_metadata before in
      do! refuse ((len before =? 0)%N || (high_watermark self <? len before)%N) SpoolError.Corrupt in
      let! file := map_io (open_file path) in
      do! validate_owned_file path file in
      let! locked := attempt (try_lock_file file) in
      match locked with
      | Err WouldBlock => claim_paths self limit page r claimed
      | Err _ => raise SpoolError.Io
      | Ok _ =>
          let! opened := map_io (file_metadata file) in
          do! refuse (is_some_and (page_cursor page) (fun cursor =>
                segment_identity opened !=? SpoolReadCursor.identity cursor)) SpoolError.IdentityChanged in
          claim_paths self limit page r (claimed ++ [(path, file, opened)])
      end
  end.

(** [take(256)] and [take_while]: as many frames as the page and its CAS budget hold. *)
Fixpoint admit_frames (remaining_cas : N) (l : list DecodedFrame) : list DecodedFrame :=
  match l with
  | [] => []
  | frame :: r =>
      match decode_validated_record_body to_vec from_slice (record frame) with
      | Err _ => frame :: admit_frames remaining_cas r
      | Ok (body, _) =>
          let needed := N.min (CaptureRecordBody.protected_length body + 4096) U64_MAX in
          if (remaining_cas <? needed)%N then []
          else frame :: admit_frames (remaining_cas - needed) r
      end
  end.
Definition page_frames (page : Page) (l : list DecodedFrame) : list DecodedFrame :=
  match page with None => l | Some _ => admit_frames CAS_BUDGET (take 256 l) end.

(** The frames with their place in the file. *)
Fixpoint place_frames (offset : N) (l : list DecodedFrame) : result SpoolError (list SealedFrame * N) :=
  match l with
  | [] => Ok ([], offset)
  | frame :: r =>
      let? end_ := ok_or (checked_add_u64 offset (frame_length frame)) SpoolError.ResourceExhausted in
      let? rest := place_frames end_ r in
      Ok (SealedFrame.mk (record frame) offset end_ :: rest.1, rest.2)
  end.

(** One claimed segment: read, scanned, paged, and checked to be still the same file. *)
Definition read_segment (page : Page) (preserve_corruption : bool) (claim : Claim) : M SealedSegment :=
  let path := claim.1.1 in let file := claim.1.2 in let opened := claim.2 in
  let start := match page_cursor page with Some cursor => SpoolReadCursor.offset cursor | None => 0%N end in
  do! refuse (len opened <? start)%N SpoolError.Corrupt in
  let available := (len opened - start)%N in
  let read_length := if is_some page then N.min available MAX_PENDING else available in
  let! bytes := map_io (read_at file start read_length) in
  let scanned := scan_frames sha256_digest bytes in
  let bad (scan : FrameScan) := (read_length =? available)%N && incomplete_tail scan || is_empty (frames scan) in
  let invalid := match scanned with Ok scan => bad scan | Err _ => true end in
  if preserve_corruption && invalid then
    do! map_busy (lock_dir MainDir) in
    do! validate_owned_file path file in
    do! check_identity path file opened in
    let! moved := quarantine path in
    raise SpoolError.RecoveryRequired
  else
    let! scan := frame_result scanned in
    do! refuse (bad scan) SpoolError.Corrupt in
    let! placed := lift (place_frames start (page_frames page (frames scan))) in
    do! refuse (is_empty placed.1) SpoolError.ResourceExhausted in
    do! check_identity path file opened in
    ret (SealedSegment.mk path file (dev opened) (ino opened) (len opened) placed.1 placed.2
           (segment_identity opened)).

(** A computation whose failure closes the files it has claimed. *)
Definition with_claims {A} (m : M A) : M A :=
  let! before := observe flocks in
  let! outcome := attempt m in
  match outcome with
  | Ok a => ret a
  | Err error => do! update (fun f => set_flocks f before) in raise error
  end.

Definition claimed_segments_inner (self : DurableSpool) (limit : N) (isolated : bool) (page : Page)
    (preserve_corruption : bool) : M (list SealedSegment) :=
  do! refuse ((limit =? 0)%N || (N.max (max_files self) 64 <? limit)%N) SpoolError.InvalidConfiguration in
  do! validate_directories in
  do! map_busy (lock_dir MainDir) in
  let! names := map_io (read_dir MainDir) in
  let! paths := segment_names isolated (max_files self) names [] in
  do! refuse (is_some_and (page_cursor page) (fun cursor =>
        negb (contains (SpoolReadCursor.path cursor) (pair MainDir <$> paths)))) SpoolError.IdentityChanged in
  let paths := match page_cursor page with
    | Some cursor => List.filter (fun name => (MainDir, name) ==? SpoolReadCursor.path cursor) paths
    | None => paths
    end in
  with_claims (
    let! claimed := claim_paths self limit page paths [] in
    io_map (read_segment page preserve_corruption) claimed).

Definition claimed_segments (self : DurableSpool) (limit : N) (isolated : bool) (page : Page) : M (list SealedSegment) :=
  claimed_segments_inner self limit isolated page false.
Definition sealed_segments (self : DurableSpool) (limit : N) : M (list SealedSegment) :=
  claimed_segments self limit false None.
Definition isolated_segments (self : DurableSpool) (limit : N) : M (list SealedSegment) :=
  claimed_segments self limit true None.
Definition sealed_page (self : DurableSpool) (cursor : option SpoolReadCursor) : M (list SealedSegment) :=
  claimed_segments self 1 false (Some cursor).
Definition ingest_page (self : DurableSpool) (cursor : option SpoolReadCursor) : M (list SealedSegment) :=
  claimed_segments_inner self 1 false (Some cursor) true.

(** The segment is passed by value: it is closed, acknowledged or not. *)
Definition acknowledge_segment (segment : SealedSegment) (committed_frames : nat) : M unit :=
  let! outcome := attempt (
    do! refuse (negb (complete segment)
                || negb (committed_frames =? length (SealedSegment.frames segment))%nat
                || (committed_frames =? 0)%nat) SpoolError.InvalidAcknowledgement in
    do! map_busy (lock_dir MainDir) in
    let! path_metadata := map_io (symlink_metadata (SealedSegment.path segment)) in
    do! validate_owned_file_metadata path_metadata in
    let! opened := map_io (file_metadata (SealedSegment.file segment)) in
    do! refuse (negb (dev path_metadata =? SealedSegment.device segment)%N
                || negb (ino path_metadata =? SealedSegment.inode segment)%N
                || negb (dev opened =? SealedSegment.device segment)%N
                || negb (ino opened =? SealedSegment.inode segment)%N
                || negb (len opened =? SealedSegment.length segment)%N
                || (segment_identity path_metadata !=? SealedSegment.identity segment)
                || (segment_identity opened !=? SealedSegment.identity segment)) SpoolError.IdentityChanged in
    do! map_io (remove_file (SealedSegment.path segment)) in
    map_io (sync_dir MainDir)) in
  do! update (release (SealedSegment.file segment)) in
  lift outcome.

(** ** Looking records up *)

(** The segments of the main directory, the active one first, then by name. *)
Fixpoint durable_paths (max_segments : N) (names : list string) (paths : list (bool * string * Metadata))
    : M (list (bool * string * Metadata)) :=
  match names with
  | [] => ret paths
  | name :: r =>
      let! metadata := map_io (symlink_metadata (MainDir, name)) in
      do! validate_owned_file_metadata metadata in
      let is_active := name ==? ACTIVE_NAME in
      do! refuse (negb is_active && negb (has_extension name "sealed")) SpoolError.Corrupt in
      do! refuse (max_segments <? N.of_nat (length paths) + 1)%N SpoolError.ResourceExhausted in
      durable_paths max_segments r (paths ++ [(negb is_active, name, metadata)])
  end.
Definition durable_le (a b : bool * string * Metadata) : bool :=
  match a.1.1, b.1.1 with
  | false, true => true
  | true, false => false
  | _, _ => leb_ord a.1.2 b.1.2
  end.

(** The body of [visit_durable_records] over the files; [visit] sees the records in order. *)
Fixpoint visit_files {S} (visit : S -> SpoolRecord -> result SpoolError S) (max_bytes consumed : N)
    (seen : gset string) (state : S) (paths : list (bool * string * Metadata)) : M S :=
  match paths with
  | [] => ret state
  | (_, name, metadata) :: r =>
      let! next_consumed := lift (match checked_add_u64 consumed (len metadata) with
        | Some value => if (value <=? max_bytes)%N then Ok value else Err SpoolError.ResourceExhausted
        | None => Err SpoolError.ResourceExhausted
        end) in
      let! bytes := read_owned_file_exact (MainDir, name) metadata (max_bytes - consumed) in
      let! scan := frame_result (scan_frames sha256_digest bytes) in
      do! refuse (incomplete_tail scan || negb (complete_length scan =? len metadata)%N) SpoolError.Corrupt in
      let! visited := lift (foldl (fun acc frame =>
          let? p := acc in
          do? guard (bool_decide (spool_record_id (record frame) ∈ p.1)) SpoolError.DuplicateRecord in
          let? state := visit p.2 (record frame) in
          Ok ({[spool_record_id (record frame)]} ∪ p.1, state)) (Ok (seen, state)) (frames scan)) in
      visit_files visit max_bytes next_consumed visited.1 visited.2 r
  end.

Definition visit_durable_records {S} (visit : S -> SpoolRecord -> result SpoolError S) (initial : S)
    (max_segments max_bytes : N) : M S :=
  do! refuse ((max_segments =? 0)%N || (max_bytes =? 0)%N) SpoolError.InvalidConfiguration in
  do! validate_directories in
  do! map_io (lock_dir MainDir) in
  let! names := map_io (read_dir MainDir) in
  let! paths := durable_paths max_segments names [] in
  visit_files visit max_bytes 0 ∅ initial (sort_by durable_le paths).

Definition find_durable_record (id : string) (max_segments max_bytes : N) : M (option SpoolRecord) :=
  do! refuse (str_is_empty id) SpoolError.InvalidConfiguration in
  visit_durable_records (fun found record =>
    Ok (if spool_record_id record ==? id then Some record else found)) None max_segments max_bytes.

Definition read_durable_records (max_segments max_bytes : N) : M (list SpoolRecord) :=
  visit_durable_records (fun records record => Ok (records ++ [record])) [] max_segments max_bytes.

Definition durable_cas_refs_intersect (candidates : gset string) (max_segments max_bytes : N) : M (gset string) :=
  visit_durable_records (fun retained record =>
    let? decoded := map_err of_frame_error (decode_validated_record_body to_vec from_slice record) in
    let cas := CaptureRecordBody.cas_ref decoded.1 in
    Ok (if bool_decide (cas ∈ candidates) then {[cas]} ∪ retained else retained)) ∅ max_segments max_bytes.

Definition gc_cas_refs_intersect (candidates : gset string) (max_segments max_bytes : N) : M (gset string) :=
  do! validate_directories in
  let! names := map_io (read_dir QuarantineDir) in
  do! refuse (negb (is_empty names)) SpoolError.Corrupt in
  durable_cas_refs_intersect candidates max_segments max_bytes.

(** ** Gap markers *)

Definition slots (self : DurableSpool) : list N :=
  N.of_nat <$> seq 0 (N.to_nat (SpoolLimits.emergency_slots (limits self))).

(** The slot loop of [write_gap_marker]. *)
Fixpoint fill_slot (encoded : list byte) (l : list N) : M PathBuf :=
  match l with
  | [] => raise SpoolError.EmergencyExhausted
  | slot :: r =>
      let path := slot_path slot in
      let! opened := attempt (open_create_new path 384) in
      match opened with
      | Ok file =>
          do! map_write_error (append_all file encoded) in
          do! map_write_error (sync_data file) in
          do! map_io (sync_dir EmergencyDir) in
          ret path
      | Err AlreadyExists => fill_slot encoded r
      | Err kind => map_write_error (lift (Err kind))
      end
  end.
Definition write_gap_marker (self : DurableSpool) (marker : CaptureGapMarker) : M PathBuf :=
  do! lift (validate_marker marker) in
  do! validate_directory RootDir in
  do! validate_directory EmergencyDir in
  let! encoded := lift (encode_marker marker) in
  fill_slot encoded (slots self).

(** [pending_gap_markers]: every marker, in slot order. *)
Fixpoint read_markers (l : list N) (markers : list CaptureGapMarker) : M (list CaptureGapMarker) :=
  match l with
  | [] => ret markers
  | slot :: r =>
      let! bytes := attempt (
        let! file := open_file (slot_path slot) in read_to_end file) in
      match bytes with
      | Ok bytes => let! marker := lift (decode_marker bytes) in read_markers r (markers ++ [marker])
      | Err NotFound => read_markers r markers
      | Err _ => raise SpoolError.Io
      end
  end.
Definition pending_gap_markers (self : DurableSpool) : M (list CaptureGapMarker) :=
  read_markers (slots self) [].

Fixpoint marker_handles (limit : N) (l : list N) (handles : list PendingGapMarker) : M (list PendingGapMarker) :=
  match l with
  | [] => ret handles
  | slot :: r =>
      if (N.of_nat (length handles) =? limit)%N then ret handles else
      let path := slot_path slot in
      let! opened := attempt (open_file path) in
      match opened with
      | Err NotFound => marker_handles limit r handles
      | Err _ => raise SpoolError.Io
      | Ok file =>
          do! validate_owned_file path file in
          let! metadata := map_io (file_metadata file) in
          let! bytes := map_io (read_to_end file) in
          let! marker := lift (decode_marker bytes) in
          marker_handles limit r
            (handles ++ [PendingGapMarker.mk marker path file (dev metadata) (ino metadata) (len metadata)])
      end
  end.
Definition pending_gap_marker_handles (self : DurableSpool) (limit : N) : M (list PendingGapMarker) :=
  do! refuse ((limit =? 0)%N || (SpoolLimits.emergency_slots (limits self) <? limit)%N)
        SpoolError.InvalidConfiguration in
  do! validate_directories in
  do! map_io (lock_dir EmergencyDir) in
  marker_handles limit (slots self) [].

Definition acknowledge_gap_marker_inner (handle : PendingGapMarker) (nonblocking : bool) : M unit :=
  do! (if nonblocking then map_busy (lock_dir EmergencyDir) else map_io (lock_dir EmergencyDir)) in
  do! validate_ack_identity (PendingGapMarker.path handle) (PendingGapMarker.file handle)
        (PendingGapMarker.device handle) (PendingGapMarker.inode handle) (PendingGapMarker.length handle) in
  let! bytes := map_io (read_to_end (PendingGapMarker.file handle)) in
  let! marker := lift (decode_marker bytes) in
  do! refuse (marker !=? PendingGapMarker.marker handle) SpoolError.IdentityChanged in
  do! map_io (remove_file (PendingGapMarker.path handle)) in
  map_io (sync_dir EmergencyDir).

Definition acknowledge_gap_marker (self : DurableSpool) (marker_id : string) : M bool :=
  let! handles := pending_gap_marker_handles self (SpoolLimits.emergency_slots (limits self)) in
  match List.find (fun handle =>
    CaptureGapMarker.marker_id (PendingGapMarker.marker handle) ==? marker_id) handles with
  | Some handle => do! acknowledge_gap_marker_inner handle false in ret true
  | None => ret false
  end.

(** ** Quarantined files *)

Definition hex_digest (bytes : list byte) : string := of_bytes (sha256_digest bytes ≫= hex_byte).

Definition quarantine_handle (self : DurableSpool) (name : string) : M PendingQuarantine :=
  let path := (QuarantineDir, name) in
  do! refuse (negb (has_extension name "spool")) SpoolError.Corrupt in
  let! file := map_io (open_file path) in
  do! validate_owned_file path file in
  let! metadata := map_io (file_metadata file) in
  let! bytes := read_owned_file_exact path metadata (high_watermark self) in
  ret (PendingQuarantine.mk path file (dev metadata) (ino metadata) (len metadata) (hex_digest bytes)).

(** [paths.rotate_left(stable_start % path_count)]. *)
Definition rotate_left {A} (start : N) (l : list A) : list A :=
  let k := N.to_nat (start mod N.of_nat (length l)) in drop k l ++ take k l.

Definition pending_quarantine_from (self : DurableSpool) (limit : N) (stable_start : N) : M (list PendingQuarantine) :=
  do! refuse ((limit =? 0)%N || (64 <? limit)%N) SpoolError.InvalidConfiguration in
  do! validate_directories in
  do! map_io (lock_dir QuarantineDir) in
  let! names := map_io (read_dir QuarantineDir) in
  io_map (quarantine_handle self) (take (N.to_nat limit) (rotate_left stable_start (vec_sort names))).
Definition pending_quarantine (self : DurableSpool) (limit : N) : M (list PendingQuarantine) :=
  pending_quarantine_from self limit 0.

(** The search loop of [quarantine_by_identity]. *)
Fixpoint find_quarantined (self : DurableSpool) (device inode length : N) (names : list string)
    : M (option PendingQuarantine) :=
  match names with
  | [] => ret None
  | name :: r =>
      let path := (QuarantineDir, name) in
      let! metadata := map_io (symlink_metadata path) in
      do! validate_owned_file_metadata metadata in
      if negb ((dev metadata, ino metadata, len metadata) ==? (device, inode, length))
      then find_quarantined self device inode length r else
      let! file := map_io (open_file path) in
      do! validate_owned_file path file in
      let! bytes := read_owned_file_exact path metadata (high_watermark self) in
      ret (Some (PendingQuarantine.mk path file device inode length (hex_digest bytes)))
  end.
Definition quarantine_by_identity (self : DurableSpool) (device inode length : N) : M (option PendingQuarantine) :=
  do! validate_directories in
  do! map_busy (lock_dir QuarantineDir) in
  let! names := map_io (read_dir QuarantineDir) in
  find_quarantined self device inode length names.

Definition acknowledge_quarantine (handle : PendingQuarantine) : M unit :=
  do! map_io (lock_dir QuarantineDir) in
  do! validate_ack_identity (PendingQuarantine.path handle) (PendingQuarantine.file handle)
        (PendingQuarantine.device handle) (PendingQuarantine.inode handle) (PendingQuarantine.length handle) in
  let! bytes := map_io (read_to_end (PendingQuarantine.file handle)) in
  do! refuse (hex_digest bytes !=? PendingQuarantine.fingerprint handle) SpoolError.IdentityChanged in
  do! map_io (remove_file (PendingQuarantine.path handle)) in
  map_io (sync_dir QuarantineDir).

(** ** Gates *)

Definition below_low_watermark (self : DurableSpool) : M bool :=
  let! usage := main_usage in
  let! active_exists := owned_file_exists active_path in
  if negb ((Usage.bytes usage <=? SpoolLimits.low_watermark_bytes (limits self))%N
           && (active_exists || (Usage.files usage <? max_files self)%N)) then ret false else
  let! markers := pending_gap_markers self in
  if negb (is_empty markers) then ret false else
  let! gaps := quarantine_evidence in
  ret (is_empty gaps).

Fixpoint ordinary_backlog (names : list string) : M bool :=
  match names with
  | [] => ret false
  | name :: r =>
      let! metadata := map_io (symlink_metadata (MainDir, name)) in
      do! validate_owned_file_metadata metadata in
      if negb (name_starts_with name ISOLATED_PREFIX) && negb (len metadata =? 0)%N
      then ret true else ordinary_backlog r
  end.
Definition has_ordinary_backlog : M bool :=
  do! validate_directories in
  let! names := map_io (read_dir MainDir) in
  ordinary_backlog names.
End spool.
