(* ===== verification/SpoolFacts.v ===== *)
(** * What the spool's files hold, and what its checks establish

    The contents of a segment are frames followed by at most one torn frame; a record
    is kept by a file when its frame lies, behind other frames, both in what readers
    see and in what is on the disk.  Such contents survive every prefix a crash may
    leave, and the scanner finds every kept record.  The second part gives each check
    of the code ([validate_owned_file], [validate_active_file], [main_usage], …) as a
    computation that changes nothing and establishes a fact of the state.

    [Inv owed f]: in every directory state a crash of [f] may leave, the main
    directory has the active segment and sealed segments only, the quarantine has
    carriers only, every such file is ours and holds frames and at most one torn
    frame, and every owed record — one an [append] has acknowledged and no
    [acknowledge_segment] has released — lies durably in a file that is linked from
    the main directory or the quarantine.  This file shows which changes of the file
    system keep it. *)

From stdpp Require Import pretty.
From S2P Require Import Prelude Order Collections Text Canonical SpoolFrame Ids Lane Attempt Evidence CaptureBody GapMarker Fs Spool.

Lemma prefix_shorter {A} (a b c : list A) :
  a `prefix_of` c -> b `prefix_of` c -> (length a <= length b)%nat -> a `prefix_of` b.
Proof.
  intros Ha Hb Hl. destruct (prefix_weak_total a b c Ha Hb) as [|H]; [done|].
  by rewrite (prefix_length_eq b a).
Qed.

Section contents.
Context `{SHA : Sha256} `{ShaLen : !Sha256Length}.

Definition frames_of (l : list byte) (rs : list SpoolRecord) : Prop :=
  exists fs, l = concat fs /\ Forall2 (written sha256_digest) rs fs.

(** Complete frames, then nothing or a part of one more. *)
Definition framed (d : list byte) : Prop :=
  exists p rs tail, d = p ++ tail /\ frames_of p rs /\ torn sha256_digest tail.

(** The bytes of [r]'s frame together with the frames before it. *)
Definition ends_in (q : list byte) (r : SpoolRecord) : Prop :=
  exists p rs f, frames_of p rs /\ written sha256_digest r f /\ q = p ++ f.

Definition holds (d : list byte) (r : SpoolRecord) : Prop := exists q, ends_in q r /\ q `prefix_of` d.

(** [r] is in the file, and nothing a crash takes from the file can lose it. *)
Definition kept (n : Inode) (r : SpoolRecord) : Prop :=
  exists q, ends_in q r /\ q `prefix_of` data n /\ q `prefix_of` synced n.

Lemma frames_of_nil : frames_of [] [].
Proof. exists []. split; [done|constructor]. Qed.

Lemma frames_of_app p rs q qs : frames_of p rs -> frames_of q qs -> frames_of (p ++ q) (rs ++ qs).
Proof.
  intros (fs & -> & Hf) (gs & -> & Hg). exists (fs ++ gs). rewrite concat_app.
  split; [done|by apply Forall2_app].
Qed.

Lemma frames_of_one r f : written sha256_digest r f -> frames_of f [r].
Proof. intros H. exists [f]. simpl. rewrite app_nil_r. split; [done|constructor; [done|constructor]]. Qed.

Lemma ends_in_frames q r : ends_in q r -> exists rs, frames_of q (rs ++ [r]).
Proof. intros (p & rs & f & Hp & Hf & ->). exists rs. apply frames_of_app; [done|by apply frames_of_one]. Qed.

Lemma torn_nil : torn sha256_digest [].
Proof. by left. Qed.

Lemma torn_prefix t t' : torn sha256_digest t -> t' `prefix_of` t -> torn sha256_digest t'.
Proof.
  intros [->|(r & f & q & He & -> & Hq)] [k Hk].
  - left. by destruct t'.
  - subst t. right. exists r, ((t' ++ k) ++ q), (k ++ q). rewrite app_assoc. split; [done|].
    split; [done|]. destruct k; [done|]. done.
Qed.

Lemma framed_of p rs : frames_of p rs -> framed p.
Proof. intros H. exists p, rs, []. rewrite app_nil_r. split_and!; [done..|apply torn_nil]. Qed.

(** A part of one more frame behind complete frames. *)
Lemma framed_append p rs r f k :
  frames_of p rs -> written sha256_digest r f -> framed (p ++ take k f).
Proof.
  intros Hp Hf. destruct (decide (length f <= k)%nat) as [Hk|Hk].
  - rewrite take_ge by lia. eapply framed_of, frames_of_app; [done|by apply frames_of_one].
  - exists p, rs, (take k f). split_and!; [done..|]. right. exists r, f, (drop k f).
    destruct Hf as [_ Hf]. rewrite take_drop. split_and!; [done..|].
    intros Hd. apply (f_equal length) in Hd. rewrite length_drop in Hd. simpl in Hd. lia.
Qed.

Lemma framed_prefix d d' : framed d -> d' `prefix_of` d -> framed d'.
Proof.
  intros (p & rs & tail & -> & (fs & -> & Hfs) & Ht) Hd'. revert d' Hd'.
  induction Hfs as [|r f rs fs Hf Hfs IH]; intros d' Hd'; simpl in Hd'.
  { exists [], [], d'. split_and!; [done|apply frames_of_nil|by eapply torn_prefix]. }
  rewrite <-app_assoc in Hd'. destruct (decide (length d' <= length f)%nat) as [Hl|Hl].
  - assert (d' = take (length d') f) as ->.
    { destruct Hd' as [k Hk]. apply (f_equal (take (length d'))) in Hk.
      rewrite take_app_length, take_app_le in Hk by done. done. }
    apply (framed_append [] []  r f); [apply frames_of_nil|done].
  - assert (f `prefix_of` d') as [d'' ->].
    { apply (prefix_shorter _ _ (f ++ concat fs ++ tail)); [by exists (concat fs ++ tail)|done|lia]. }
    apply prefix_app_inv in Hd'. destruct (IH _ Hd') as (p & qs & t & -> & Hp & Ht').
    exists (f ++ p), (r :: qs), t. rewrite app_assoc. split_and!; [done| |done].
    apply (frames_of_app f [r]); [by apply frames_of_one|done].
Qed.

Lemma framed_scan d :
  framed d -> exists p rs tail s, d = p ++ tail /\ frames_of p rs /\ torn sha256_digest tail /\
    scan_frames sha256_digest d = Ok s /\ record <$> frames s = rs /\ complete_length s = blen p /\
    incomplete_tail s = negb (is_empty tail).
Proof.
  intros (p & rs & tail & -> & (fs & -> & Hfs) & Ht).
  exists (concat fs), rs, tail. eexists. split; [done|]. split; [by exists fs|]. split; [done|].
  split; [by apply (scan_written sha256_digest rs fs tail sha256_length)|]. simpl. split; [|done].
  clear Ht. induction Hfs; simpl; [done|]. by f_equal.
Qed.

(** Whatever is scanned after complete frames, those frames are found. *)
Lemma scan_prefix q qs d s :
  frames_of q qs -> q `prefix_of` d -> scan_frames sha256_digest d = Ok s ->
  qs `prefix_of` (record <$> frames s) /\ (blen q <= complete_length s)%N.
Proof.
  intros (fs & -> & Hfs) [rest ->] Hs. unfold scan_frames in Hs.
  assert (Hn : exists n, S (length (concat fs ++ rest)) = (length fs + n)%nat).
  { assert (length fs <= length (concat fs))%nat.
    { clear Hs. induction Hfs as [|r f rs fs Hf _ IH]; simpl; [lia|]. rewrite length_app.
      pose proof (written_nonempty sha256_digest sha256_length r f Hf). destruct f; [done|]. simpl. lia. }
    exists (S (length (concat fs ++ rest)) - length fs)%nat. rewrite length_app in *. lia. }
  destruct Hn as [n Hn]. rewrite Hn, (scan_loop_frames sha256_digest sha256_length qs) in Hs by done.
  destruct (scan_loop _ _ _ _ _) as [r|] eqn:E; [|done]. subst r.
  apply (scan_loop_sound sha256_digest sha256_length) in E as (ds & gs & tail & _ & Hf & _ & Hc & _).
  rewrite Hf, Hc, fmap_app. split; [|lia]. simpl.
  exists (record <$> ds). f_equal. clear -Hfs. induction Hfs; simpl; [done|]. by f_equal.
Qed.

Lemma holds_scanned d r s :
  holds d r -> scan_frames sha256_digest d = Ok s -> r ∈ record <$> frames s.
Proof.
  intros (q & [rs Hq]%ends_in_frames & Hd) Hs.
  destruct (scan_prefix _ _ _ _ Hq Hd Hs) as [[k ->] _]. set_solver.
Qed.

(** Truncation at the end of the last complete frame. *)
Lemma truncated_frames d s :
  scan_frames sha256_digest d = Ok s ->
  frames_of (take (N.to_nat (complete_length s)) d) (record <$> frames s).
Proof.
  intros (fs & tail & -> & Hds & Hc & _)%(scan_frames_sound _ _ _ sha256_length).
  exists fs. rewrite Hc, take_N_app by done. split; [done|].
  apply Forall2_fmap_l. eapply Forall2_impl; [exact Hds|]. by intros d f [? _].
Qed.
End contents.

(** ** Checks *)

Definition own (f : Fs) (n : Inode) : Prop :=
  inode_type n = Regular /\ inode_uid n = euid f /\ mode_is (inode_permissions n) 384 = true.

Lemma reads_ret_yields {E A} (a : A) (P : Fs -> A -> Prop) :
  (forall f, P f a) -> reads (E := E) (ret a) (yields P).
Proof. intros H f o. by split; [|apply H]. Qed.
Lemma reads_raise_yields {E A} (e : E) (P : Fs -> A -> Prop) : reads (raise e) (yields P).
Proof. by intros f o. Qed.
Lemma reads_lift_yields {E A} (r : result E A) (P : Fs -> A -> Prop) :
  (forall f a, r = Ok a -> P f a) -> reads (lift r) (yields P).
Proof. intros H f o. split; [done|]. destruct r; [by apply H|done]. Qed.
Lemma reads_refuse_yields {E} (bad : bool) (e : E) (P : Fs -> unit -> Prop) :
  (forall f, bad = false -> P f tt) -> reads (refuse bad e) (yields P).
Proof. intros H f o. unfold refuse, lift. destruct bad; cbn; [done|]. split; [done|by apply H]. Qed.

Lemma reads_map_io {A} (act : Fs -> result ErrorKind A) :
  reads (map_io (query act)) (yields (fun f a => act f = Ok a)).
Proof. apply reads_map_io_err, reads_query_ok. Qed.
Lemma reads_map_write {A} (act : Fs -> result ErrorKind A) :
  reads (map_write_error (query act)) (yields (fun f a => act f = Ok a)).
Proof. apply reads_map_io_err, reads_query_ok. Qed.
Lemma reads_map_busy {A} (act : Fs -> result ErrorKind A) :
  reads (map_busy (query act)) (yields (fun f a => act f = Ok a)).
Proof. apply reads_map_io_err, reads_query_ok. Qed.

Lemma reads_attempt_query {A} (act : Fs -> result ErrorKind A) :
  reads (E := SpoolError) (attempt (query act))
    (yields (fun f r => r = act f \/ exists k, r = Err (fault_kind k))).
Proof. apply reads_attempt, reads_query. Qed.

Create HintDb reads.
#[export] Hint Resolve reads_map_io reads_map_write reads_map_busy reads_attempt_query reads_query_ok : reads.

(** One step of a computation that only reads: the facts pile up as hypotheses of the
    post-condition, which the last step has to establish. *)
Ltac reads_step :=
  lazymatch goal with
  | |- reads (bind ?m _) (yields _) =>
      eapply reads_then; [solve [eauto with reads nocore | reads_steps]|intros ?]
  | |- reads (ret _) (yields _) => eapply reads_ret_yields
  | |- reads (raise _) (yields _) => eapply reads_raise_yields
  | |- reads (lift _) (yields _) => eapply reads_lift_yields
  | |- reads (refuse _ _) (yields _) => eapply reads_refuse_yields
  | |- reads (match ?x with _ => _ end) (yields _) => destruct x eqn:?
  end
with reads_steps := repeat reads_step.

Section checks.
Context `{SHA : Sha256} `{ShaLen : !Sha256Length} `{L : UuidLib}.
Context (to_vec : CaptureRecordBody -> option (list byte)) (from_slice : list byte -> option CaptureRecordBody).

Lemma reads_refuse_false {E} (bad : bool) (e : E) : reads (refuse bad e) (yields (fun _ _ => bad = false)).
Proof. by apply reads_refuse_yields. Qed.
#[local] Hint Resolve reads_refuse_false : reads.

Lemma stat_inode_ok f i m : stat_inode i f = Ok m -> exists n, inodes f !! i = Some n /\ m = metadata_of f i n.
Proof. unfold stat_inode. destruct (inodes f !! i); [|done]. intros [= <-]. eauto. Qed.

Definition path_stat (p : PathBuf) (f : Fs) : result ErrorKind Metadata :=
  match live f !! p with Some i => stat_inode i f | None => Err NotFound end.
Lemma path_stat_ok f p m :
  path_stat p f = Ok m -> exists i n, live f !! p = Some i /\ inodes f !! i = Some n /\ m = metadata_of f i n.
Proof.
  unfold path_stat. destruct (live f !! p) as [i|]; [|done].
  intros (n & ? & ?)%stat_inode_ok. eauto.
Qed.

Lemma reads_symlink_metadata p : reads (map_io (symlink_metadata p)) (yields (fun f m => path_stat p f = Ok m)).
Proof. apply reads_map_io. Qed.
Lemma reads_file_metadata i : reads (map_io (file_metadata i)) (yields (fun f m => stat_inode i f = Ok m)).
Proof. apply reads_map_io. Qed.
Lemma reads_self_uid : reads (map_io proc_self_uid) (yields (fun f u => u = euid f)).
Proof. eapply reads_mono; [apply reads_map_io|]. intros f [u|]; cbn; [|done]. by intros [= ->]. Qed.
Lemma reads_lock_dir d : reads (map_io (lock_dir d)) (yields (fun _ _ => True)).
Proof. eapply reads_any, reads_map_io. Qed.
Lemma reads_lock_busy d : reads (map_busy (lock_dir d)) (yields (fun _ _ => True)).
Proof. eapply reads_any, reads_map_busy. Qed.
Lemma reads_read_dir d : reads (map_io (read_dir d)) (yields (fun f l => l = names_in d (live f))).
Proof. eapply reads_mono; [apply reads_map_io|]. intros f [u|]; cbn; [|done]. by intros [= ->]. Qed.
#[local] Hint Resolve reads_symlink_metadata reads_file_metadata reads_self_uid reads_lock_dir reads_lock_busy reads_read_dir : reads.

Definition regular (f : Fs) (m : Metadata) : Prop :=
  file_type m = Regular /\ uid m = euid f /\ mode_is (permissions m) 384 = true.
Lemma regular_own f i n : regular f (metadata_of f i n) <-> own f n.
Proof. done. Qed.

Lemma reads_owned_metadata m : reads (validate_owned_file_metadata m) (yields (fun f _ => regular f m)).
Proof.
  unfold validate_owned_file_metadata. reads_steps. intros f Hm H -> Ht. guards_in Ht. guards_in H. guards_in Hm.
  apply N.eqb_eq in H. done.
Qed.
#[local] Hint Resolve reads_owned_metadata : reads.

(** The path is bound to the opened file, a file of our own. *)
Definition bound (f : Fs) (p : PathBuf) (i : N) : Prop :=
  live f !! p = Some i /\ exists n, inodes f !! i = Some n /\ own f n.

Lemma reads_owned_file p i : reads (validate_owned_file p i) (yields (fun f _ => bound f p i)).
Proof.
  unfold validate_owned_file. reads_steps. intros f H Ho Hp (n & Hn & ->)%stat_inode_ok (j & n' & Hj & Hn' & ->)%path_stat_ok.
  apply orb_false_iff in H as [_ H]. apply negb_false_iff, N.eqb_eq in H. simpl in H. subst j. split; [done|]. exists n. by rewrite regular_own in Ho.
Qed.

Lemma reads_owned_file_exists p :
  reads (owned_file_exists p) (yields (fun f (b : bool) => if b then exists i, bound f p i else live f !! p = None)).
Proof.
  unfold owned_file_exists, symlink_metadata. eapply reads_then; [apply reads_attempt_query|].
  intros r. destruct r as [m|[]]; reads_steps; intros f.
  - intros Hm [(j & n & ? & ? & ->)%symmetry%path_stat_ok|[k ?]]; [|done].
    exists j. split; [done|]. exists n. by rewrite regular_own in Hm.
  - intros [H|[[] ?]]; try done. destruct (live f !! p) eqn:E; [|done]. rename E into E'.
    exfalso. unfold stat_inode in H. by destruct (inodes f !! n).
Qed.

Lemma reads_directory d : reads (validate_directory d) (yields (fun _ _ => True)).
Proof. unfold validate_directory, dir_metadata. by reads_steps. Qed.
#[local] Hint Resolve reads_directory : reads.
Lemma reads_directories : reads validate_directories (yields (fun _ _ => True)).
Proof. eapply reads_mono; [by apply (reads_each _ _ (fun _ _ => True)); intros; apply reads_directory|]. by intros f []. Qed.
#[local] Hint Resolve reads_owned_file reads_owned_file_exists reads_directories : reads.

Lemma reads_read_to_end i :
  reads (map_io (read_to_end i)) (yields (fun f b => exists n, inodes f !! i = Some n /\ b = data n)).
Proof.
  eapply reads_mono; [apply reads_map_io|]. intros f [b|]; cbn; [|done].
  destruct (inodes f !! i) as [n|]; [|done]. intros [= <-]. eauto.
Qed.
#[local] Hint Resolve reads_read_to_end : reads.

Lemma reads_read_owned p :
  reads (read_owned_file p)
    (yields (fun f b => exists i n, bound f p i /\ inodes f !! i = Some n /\ b = data n)).
Proof.
  unfold read_owned_file, open_file. eapply reads_then; [eauto with reads|]. intros i. reads_steps.
  eapply reads_mono; [apply reads_read_to_end|]. intros f [b|]; cbn; [|done].
  intros (n & ? & ?) ? _. eauto.
Qed.

Lemma reads_check_identity p i before :
  reads (check_identity p i before)
    (yields (fun f _ => exists n j n', inodes f !! i = Some n /\ segment_identity (metadata_of f i n) = segment_identity before /\
       live f !! p = Some j /\ inodes f !! j = Some n' /\ segment_identity (metadata_of f j n') = segment_identity before)).
Proof.
  unfold check_identity. reads_steps. intros f H (j & n' & ? & ? & ->)%path_stat_ok H2 (n & ? & ->)%stat_inode_ok.
  apply negb_false_iff, bool_decide_eq_true in H, H2. exists n, j, n'. by split_and!.
Qed.
#[local] Hint Resolve reads_read_owned reads_check_identity : reads.

(** ** The chunked check of the active segment *)

Lemma sub_bytes_split off len rem l :
  (len <= rem)%N -> sub_bytes off rem l = sub_bytes off len l ++ sub_bytes (off + len) (rem - len) l.
Proof.
  intros H. unfold sub_bytes. rewrite N2Nat.inj_add, N2Nat.inj_sub, <-drop_drop.
  rewrite <-(take_drop (N.to_nat len) (take (N.to_nat rem) (drop (N.to_nat off) l))).
  rewrite take_take, Nat.min_l by lia. f_equal. by rewrite skipn_firstn_comm.
Qed.

Lemma reads_read_exact i off length :
  reads (map_io (read_exact i off length))
    (yields (fun f b => exists n, inodes f !! i = Some n /\ b = sub_bytes off length (data n) /\ blen b = length)).
Proof.
  eapply reads_mono; [apply reads_map_io|]. intros f [b|]; cbn; [|done].
  destruct (inodes f !! i) as [n|]; [|done]. cbn zeta. destruct (N.eqb_spec (blen (sub_bytes off length (data n))) length); [|done].
  intros [= <-]. eauto.
Qed.
#[local] Hint Resolve reads_read_exact : reads.

(** What the loop leaves over follows complete frames. *)
Lemma reads_active_loop fuel i off rem pend :
  reads (active_loop fuel i off rem pend)
    (yields (fun f rest => forall n, inodes f !! i = Some n ->
       exists q rs, pend ++ sub_bytes off rem (data n) = q ++ rest /\ frames_of q rs)).
Proof.
  revert off rem pend. induction fuel as [|fuel IH]; intros off rem pend; simpl.
  - destruct (N.eqb_spec rem 0) as [->|]; [|apply reads_raise_yields].
    apply reads_ret_yields. intros f n _. exists [], []. unfold sub_bytes. rewrite app_nil_r.
    split; [done|apply frames_of_nil].
  - destruct (N.eqb_spec rem 0) as [->|Hrem].
    { apply reads_ret_yields. intros f n _. exists [], []. unfold sub_bytes. rewrite app_nil_r.
      split; [done|apply frames_of_nil]. }
    cbv zeta. eapply reads_then; [apply reads_read_exact|]. intros chunk.
    unfold frame_result. eapply reads_then; [by apply (reads_lift_yields _ (fun _ s => scan_frames sha256_digest (pend ++ chunk) = Ok s)); intros f s ?%map_err_ok|].
    intros s. eapply reads_then; [apply reads_refuse_false|]. intros [].
    eapply reads_mono; [apply IH|]. intros f [rest|]; cbn; [|done].
    intros Hrest _ Hs (n' & Hn' & Hchunk & Hlen) n Hn. simplify_eq.
    destruct (Hrest _ Hn') as (q & rs & Hq & Hqf).
    pose proof (truncated_frames _ _ Hs) as Ht.
    eexists _, _. split; [|by apply frames_of_app; [exact Ht|exact Hqf]].
    rewrite (sub_bytes_split off (N.min rem READ_BUFFER) rem) by lia. rewrite app_assoc.
    set (d := pend ++ _) in *. rewrite <-app_assoc, <-Hq, app_assoc. by rewrite take_drop.
Qed.

Lemma reads_active_file p i max :
  reads (validate_active_file p i max)
    (yields (fun f _ => exists n rs, inodes f !! i = Some n /\ frames_of (data n) rs /\ (blen (data n) <= max)%N)).
Proof.
  unfold validate_active_file. eapply reads_then; [apply reads_file_metadata|]. intros before.
  eapply reads_then; [apply reads_refuse_false|]. intros [].
  eapply reads_then; [apply reads_active_loop|]. intros rest.
  eapply reads_then; [apply reads_refuse_false|]. intros [].
  eapply reads_mono; [apply reads_check_identity|]. intros f [[]|]; cbn; [|done].
  intros _ Hr Hl Hmax (n & Hn & ->)%stat_inode_ok. apply negb_false_iff, is_empty_true in Hr as ->.
  apply N.ltb_ge in Hmax. simpl in Hmax.
  destruct (Hl n Hn) as (q & rs & Hq & Hf). exists n, rs. split; [done|]. split; [|done].
  simpl in Hq. rewrite app_nil_r in Hq. unfold sub_bytes in Hq. simpl in Hq.
  unfold blen in Hq. rewrite Nat2N.id, firstn_all in Hq. by subst q.
Qed.
#[local] Hint Resolve reads_active_file : reads.

(** ** Usage *)

Definition size_at (f : Fs) (p : PathBuf) : N :=
  match live f !! p with
  | Some i => match inodes f !! i with Some n => blen (data n) | None => 0 end
  | None => 0
  end.
Definition total_size (f : Fs) (names : list string) : N :=
  foldr (fun name acc => size_at f (MainDir, name) + acc)%N 0%N names.
Definition main_bytes (f : Fs) : N := total_size f (names_in MainDir (live f)).
Definition main_files (f : Fs) : N := N.of_nat (length (names_in MainDir (live f))).

Lemma reads_usage_loop names u :
  (Usage.bytes u <= U64_MAX)%N ->
  reads (usage_loop names u)
    (yields (fun f v => Usage.bytes v = N.min (Usage.bytes u + total_size f names) U64_MAX /\
       Usage.files v = Usage.files u + N.of_nat (length names))%N).
Proof.
  revert u. induction names as [|name names IH]; intros u Hu; simpl.
  - apply reads_ret_yields. intros f. lia.
  - eapply reads_then; [apply reads_symlink_metadata|]. intros m. eapply reads_then; [apply reads_owned_metadata|].
    intros []. eapply reads_mono; [apply IH; simpl; lia|]. intros f [v|]; cbn; [|done].
    intros [Hb Hfl] _ (j & n & Hj & Hn & ->)%path_stat_ok.
    assert (size_at f (MainDir, name) = blen (data n)) as -> by (unfold size_at; by rewrite Hj, Hn).
    simpl in Hb. lia.
Qed.

Lemma reads_usage :
  reads main_usage (yields (fun f u => Usage.bytes u = N.min (main_bytes f) U64_MAX /\ Usage.files u = main_files f)).
Proof.
  unfold main_usage. eapply reads_then; [apply reads_read_dir|]. intros names.
  eapply reads_mono; [apply reads_usage_loop; simpl; lia|]. intros f [u|]; cbn; [|done].
  intros [-> ->] ->. unfold main_bytes, main_files. lia.
Qed.
End checks.
#[export] Hint Resolve reads_refuse_false reads_symlink_metadata reads_file_metadata reads_self_uid reads_lock_dir
  reads_lock_busy reads_read_dir reads_owned_metadata reads_owned_file reads_owned_file_exists reads_directory
  reads_directories reads_read_to_end reads_read_owned reads_check_identity reads_read_exact reads_active_file
  reads_usage : reads.

(** ** The invariant *)

(** The records owed, each with the file it was acknowledged in. *)
Definition Owed : Type := list (N * SpoolRecord).

Section invariant.
Context `{SHA : Sha256} `{ShaLen : !Sha256Length} `{L : UuidLib}.

Definition file_ok (f : Fs) (d : SpoolDir) (name : string) (i : N) : Prop :=
  match d with
  | MainDir | QuarantineDir =>
      (d = MainDir -> name = ACTIVE_NAME \/ has_extension name "sealed" = true) /\
      (d = QuarantineDir -> has_extension name "spool" = true) /\
      exists n, inodes f !! i = Some n /\ own f n /\ framed (data n) /\ framed (synced n)
  | _ => True
  end.

Definition carrier (d : SpoolDir) : Prop := d = MainDir \/ d = QuarantineDir.

Definition entries_ok (f : Fs) (e : gmap PathBuf N) : Prop :=
  forall d name i, e !! (d, name) = Some i -> file_ok f d name i.
Definition linked (owed : Owed) (e : gmap PathBuf N) : Prop :=
  forall i r, (i, r) ∈ owed -> exists d name, carrier d /\ e !! (d, name) = Some i.

Record Inv (owed : Owed) (f : Fs) : Prop := {
  inv_entries e : entries_after f e -> entries_ok f e /\ linked owed e;
  inv_kept i r : (i, r) ∈ owed -> exists n, inodes f !! i = Some n /\ kept n r;
}.

Lemma inv_live owed f : Inv owed f -> entries_ok f (live f) /\ linked owed (live f).
Proof. intros H. apply (inv_entries _ _ H), entries_after_live. Qed.

Lemma carrier_file f d name i :
  carrier d -> file_ok f d name i -> exists n, inodes f !! i = Some n /\ own f n /\ framed (data n) /\ framed (synced n).
Proof. intros [->| ->] (_ & _ & H); exact H. Qed.

Lemma inv_bound owed f d name i :
  Inv owed f -> carrier d -> live f !! (d, name) = Some i ->
  exists n, inodes f !! i = Some n /\ own f n /\ framed (data n) /\ framed (synced n).
Proof. intros [H _]%inv_live Hd Hl. eapply carrier_file; [exact Hd|by eapply H]. Qed.

(** ** Changes that only concern the inodes *)

(** [n'] is as good a file as [n]. *)
Record improves (n n' : Inode) : Prop := {
  same_type : inode_type n' = inode_type n;
  same_uid : inode_uid n' = inode_uid n;
  same_permissions : inode_permissions n' = inode_permissions n;
  still_framed : framed (data n) -> framed (synced n) -> framed (data n') /\ framed (synced n');
  still_kept r : kept n r -> kept n' r;
}.

Lemma inv_inodes owed f g :
  Inv owed f -> disk g = disk f -> pending g = pending f -> euid g = euid f ->
  (forall i n, inodes f !! i = Some n -> exists n', inodes g !! i = Some n' /\ improves n n') ->
  Inv owed g.
Proof.
  intros H Hd Hp Hu Hi. split.
  - intros e He. assert (He' : entries_after f e) by (unfold entries_after in *; by rewrite Hd, Hp in He).
    destruct (inv_entries _ _ H e He') as [Hok Hl]. split; [|done].
    intros d name i Hb. specialize (Hok d name i Hb).
    assert (Hn : forall n, inodes f !! i = Some n -> own f n -> framed (data n) -> framed (synced n) ->
      exists n', inodes g !! i = Some n' /\ own g n' /\ framed (data n') /\ framed (synced n')).
    { intros n Hn (Ht & Hui & Hm) Hf1 Hf2. destruct (Hi i n Hn) as (n' & Hn' & [E1 E2 E3 E4 _]).
      exists n'. unfold own. rewrite E1, E2, E3, Hu. by destruct (E4 Hf1 Hf2). }
    destruct d; simpl in *; try done; destruct Hok as (? & ? & n & ? & ? & ? & ?); eauto 6.
  - intros i r Hin. destruct (inv_kept _ _ H i r Hin) as (n & Hn & Hk).
    destruct (Hi i n Hn) as (n' & ? & ?). exists n'. split; [done|by apply (still_kept n n')].
Qed.

Lemma improves_refl n : improves n n.
Proof. by split. Qed.

Lemma inv_alter owed f h i :
  Inv owed f -> (forall n, inodes f !! i = Some n -> improves n (h n)) ->
  Inv owed (set_inodes f (alter h i (inodes f))).
Proof.
  intros H Hh. apply (inv_inodes owed f); try done. intros j n Hn. simpl.
  destruct (decide (j = i)) as [->|Hj].
  - exists (h n). rewrite lookup_alter_eq, Hn. split; [done|auto].
  - exists n. rewrite lookup_alter_ne by done. split; [done|apply improves_refl].
Qed.

Lemma inv_flocks owed f l : Inv owed f -> Inv owed (set_flocks f l).
Proof. intros H. apply (inv_inodes owed f); try done. intros i n Hn. exists n. split; [done|apply improves_refl]. Qed.

Lemma prefix_grow (a b c : list byte) : a `prefix_of` b -> a `prefix_of` b ++ c.
Proof. apply prefix_app_r. Qed.

Lemma improves_append n now p r frame k rs :
  data n = p -> frames_of p rs -> written sha256_digest r frame ->
  improves n (with_data n now (data n ++ take k frame)).
Proof.
  intros Hp Hf Hw. split; try done.
  - intros _ Hs. split; [|done]. simpl. subst p. by eapply framed_append.
  - intros r' (q & ? & ? & ?). exists q. split; [done|]. split; [by apply prefix_grow|done].
Qed.

Lemma improves_synced n : improves n (with_synced n).
Proof. split; try done. intros r (q & ? & ? & ?). by exists q. Qed.

Lemma improves_ctime n now : improves n (with_ctime n now).
Proof. split; try done. Qed.

Lemma improves_truncate n now s :
  scan_frames sha256_digest (data n) = Ok s ->
  improves n (with_data n now (take (N.to_nat (complete_length s)) (data n))).
Proof.
  intros Hs. split; try done.
  - intros _ Hf. split; [|done]. eapply framed_of. by apply truncated_frames.
  - intros r (q & Hq & Hd & Hy). exists q. split; [done|]. split; [|done].
    destruct (ends_in_frames _ _ Hq) as (rs & Hqs). simpl.
    destruct (scan_prefix _ _ _ _ Hqs Hd Hs) as [_ Hl].
    destruct Hd as [k Hk]. rewrite Hk. rewrite take_app_ge by (unfold blen in Hl; lia). by eexists.
Qed.

(** A file that no carrier links and nothing is owed in may hold anything. *)
Lemma inv_unlinked_file owed f h i :
  Inv owed f -> (forall e d name, entries_after f e -> carrier d -> e !! (d, name) <> Some i) ->
  (forall r, (i, r) ∉ owed) -> Inv owed (set_inodes f (alter h i (inodes f))).
Proof.
  intros H He Ho. split.
  - intros e Hin. destruct (inv_entries _ _ H e Hin) as [Hok Hl]. split; [|done].
    intros d name j Hj. specialize (Hok d name j Hj).
    assert (Hne : carrier d -> j <> i) by (intros Hd ->; by apply (He e d name)).
    destruct d; simpl in *; try done; rewrite lookup_alter_ne; try done; intros ->; apply Hne; [by left|done|by right|done].
  - intros j r Hin. destruct (inv_kept _ _ H j r Hin) as (n & Hn & Hk). exists n. split; [|done].
    simpl. rewrite lookup_alter_ne; [done|]. intros ->. by apply (Ho r).
Qed.

(** ** Changes of directory entries *)

Lemma inv_push owed f o :
  Inv owed f -> entries_ok f (apply_op (live f) o) -> linked owed (apply_op (live f) o) -> Inv owed (push f o).
Proof.
  intros H Hok Hl. split; [|apply (inv_kept _ _ H)].
  intros e [He| ->]%entries_after_push; [|done]. by apply (inv_entries _ _ H).
Qed.

Lemma inv_synced_dir owed f d : Inv owed f -> Inv owed (synced_dir d f).
Proof.
  intros H. split; [|apply (inv_kept _ _ H)]. intros e He%entries_after_synced. by apply (inv_entries _ _ H).
Qed.

(** A file is linked under a new name and, with [p], unlinked from an old one. *)
Lemma inv_link owed f i q (p : option PathBuf) :
  Inv owed f -> live f !! q = None -> file_ok f q.1 q.2 i -> (is_Some p -> carrier q.1) ->
  (forall p', p = Some p' -> live f !! p' = Some i) ->
  Inv owed (push f (match p with Some p => [(p, None); (q, Some i)] | None => [(q, Some i)] end)).
Proof.
  intros H Hq Hi Hc Hp. destruct (inv_live _ _ H) as [Hok Hl]. apply inv_push; [done| |].
  - intros d name j Hj. assert (Hcase : (d, name) = q /\ j = i \/ live f !! (d, name) = Some j).
    { destruct p as [p|]; simpl in Hj; unfold apply_update in Hj; simpl in Hj;
        apply lookup_insert_Some in Hj as [[<- <-]|[_ Hj]]; auto. apply lookup_delete_Some in Hj as [_ Hj]. auto. }
    destruct Hcase as [[<- ->]|Hj']; [exact Hi|by apply Hok].
  - intros j r Hin. destruct (Hl j r Hin) as (d & name & Hd & Hj).
    assert (Hne : (d, name) <> q) by congruence.
    destruct p as [p|]; simpl; unfold apply_update; simpl.
    + destruct (decide (p = (d, name))) as [->|Hpd].
      * exists q.1, q.2. split; [by apply Hc|]. rewrite <-surjective_pairing, lookup_insert_eq.
        by rewrite <-(Hp _ eq_refl).
      * exists d, name. split; [done|]. by rewrite lookup_insert_ne, lookup_delete_ne.
    + exists d, name. split; [done|]. by rewrite lookup_insert_ne.
Qed.

(** What is owed of other files than [i]. *)
Definition released (i : N) (owed : Owed) : Owed := List.filter (fun p => negb (p.1 =? i)%N) owed.

Lemma elem_of_released i owed j r : (j, r) ∈ released i owed <-> j <> i /\ (j, r) ∈ owed.
Proof. unfold released. rewrite elem_of_List_filter. simpl. by rewrite negb_true_iff, N.eqb_neq. Qed.

Lemma inv_subset owed owed' f : (forall p, p ∈ owed' -> p ∈ owed) -> Inv owed f -> Inv owed' f.
Proof.
  intros Hs H. split.
  - intros e He. destruct (inv_entries _ _ H e He) as [? Hl]. split; [done|]. intros i r Hin. by eapply Hl, Hs.
  - intros i r Hin. by eapply (inv_kept _ _ H), Hs.
Qed.
Lemma inv_released owed i f : Inv owed f -> Inv (released i owed) f.
Proof. apply inv_subset. intros [j r] ?%elem_of_released. tauto. Qed.

Lemma inv_unlink owed f i p :
  Inv owed f -> live f !! p = Some i -> Inv (released i owed) (push f [(p, None)]).
Proof.
  intros H Hp. destruct (inv_live _ _ H) as [Hok Hl]. apply inv_push; [by apply inv_released| |].
  - intros d name j Hj. simpl in Hj. unfold apply_update in Hj. simpl in Hj.
    apply lookup_delete_Some in Hj as [_ Hj]. by apply Hok.
  - intros j r [Hne Hin]%elem_of_released. destruct (Hl j r Hin) as (d & name & Hd & Hj).
    exists d, name. split; [done|]. simpl. unfold apply_update. simpl. rewrite lookup_delete_ne; [done|]. intros ->. rewrite Hp in Hj. congruence.
Qed.

(** Entries of other directories are free. *)
Lemma inv_push_elsewhere owed f o :
  Inv owed f -> touches MainDir o = false -> touches QuarantineDir o = false -> Inv owed (push f o).
Proof.
  intros H Hm Hq. destruct (inv_live _ _ H) as [Hok Hl]. apply inv_push; [done| |].
  - intros d name i Hi. destruct d; simpl; try done;
      rewrite apply_op_untouched in Hi by done; by apply Hok in Hi.
  - intros i r Hin. destruct (Hl i r Hin) as (d & name & Hd & Hi). exists d, name. split; [done|].
    rewrite apply_op_untouched; [done|]. by destruct Hd as [->| ->].
Qed.

Lemma inv_new_inode owed f i n :
  Inv owed f -> inodes f !! i = None -> Inv owed (set_inodes f (<[i := n]> (inodes f))).
Proof.
  intros H Hi. apply (inv_inodes owed f); try done. intros j m Hj. exists m. simpl.
  rewrite lookup_insert_ne by congruence. split; [done|apply improves_refl].
Qed.

Lemma fresh_ino_fresh f : inodes f !! fresh_ino f = None.
Proof. apply (not_elem_of_dom (D := gset N)). unfold fresh_ino. apply is_fresh. Qed.

Lemma inv_owe owed f i r n :
  Inv owed f -> inodes f !! i = Some n -> kept n r ->
  (forall e, entries_after f e -> exists d name, carrier d /\ e !! (d, name) = Some i) ->
  Inv ((i, r) :: owed) f.
Proof.
  intros H Hn Hk Hl. split.
  - intros e He. destruct (inv_entries _ _ H e He) as [? Hlk]. split; [done|].
    intros j q [[= -> ->]|Hin]%elem_of_cons; [by apply Hl|by eapply Hlk].
  - intros j q [[= -> ->]|Hin]%elem_of_cons; [by exists n|by apply (inv_kept _ _ H)].
Qed.

(** ** Losing power *)

Lemma inv_power_loss owed f g : Inv owed f -> power_loss f g -> Inv owed g.
Proof.
  intros H [He Hp _ Hi _ Hu].
  assert (Hn : forall i n, inodes f !! i = Some n -> exists n', inodes g !! i = Some n' /\ inode_after n n').
  { intros i n Hn. specialize (Hi i). rewrite Hn in Hi. inversion Hi; eauto. }
  split.
  - intros e [k ->]. rewrite Hp, take_nil. simpl. destruct (inv_entries _ _ H _ He) as [Hok Hl].
    split; [|done]. intros d name i Hb. specialize (Hok d name i Hb).
    assert (Hgo : (exists n, inodes f !! i = Some n /\ own f n /\ framed (data n) /\ framed (synced n)) ->
      exists n, inodes g !! i = Some n /\ own g n /\ framed (data n) /\ framed (synced n)).
    { intros (n & E & (Ht & Hui & Hm) & Hf1 & Hf2). destruct (Hn i n E) as (n' & E' & ([Hd _] & Hs & E1 & E2 & E3)).
      exists n'. unfold own. rewrite E1, E2, E3, Hu, Hs. split; [done|]. split; [done|].
      assert (framed (data n')); [|done]. destruct Hd; [by apply (framed_prefix (data n))|by apply (framed_prefix (synced n))]. }
    destruct d; simpl in *; try done; destruct Hok as (Ha & Hb' & Hx); exact (conj Ha (conj Hb' (Hgo Hx))).
  - intros i r Hin. destruct (inv_kept _ _ H i r Hin) as (n & E & (q & Hq & H1 & H2)).
    destruct (Hn i n E) as (n' & E' & (Hd & Hs & _)). exists n'. split; [done|]. exists q. rewrite Hs.
    pose proof (data_after_keeps _ _ _ Hd H1 H2). done.
Qed.
End invariant.
