(* ===== verification/SpoolOpsFacts.v ===== *)
(** * The spool's operations keep the invariant

    One specification per operation that changes the file system: under every fault
    and at every crash point the invariant holds, and on success what the operation
    reports is true.  A proof follows the operation's system calls; the checks in
    between are the [reads] lemmas of [SpoolFacts].

    [append] against its limits, at every outcome: success, failure and crash. *)

From stdpp Require Import pretty.
From S2P Require Import Prelude Order Collections Text Canonical SpoolFrame Ids Lane Attempt Evidence CaptureBody GapMarker Fs Spool SpoolFacts.

(** ** Stepping *)

Lemma wp_then_reads {E A B} (m : IO E A) (k : A -> IO E B) P (Q : result E B -> Fs -> Prop) (C : Fs -> Prop) f :
  reads m (yields P) -> C f -> (forall e, Q (Err e) f) -> (forall a, P f a -> wp (k a) Q C f) ->
  wp (bind m k) Q C f.
Proof.
  intros Hm HC He Hk. apply wp_bind. eapply wp_reads; [exact Hm| |done].
  intros [a|e] Hr; [by apply Hk|done].
Qed.

Lemma wp_reads_only {E A} (m : IO E A) P (Q : result E A -> Fs -> Prop) (C : Fs -> Prop) f :
  reads m P -> (forall r, Q r f) -> C f -> wp m Q C f.
Proof. intros Hm HQ HC. eapply wp_reads; [exact Hm|auto|done]. Qed.

Lemma wp_call {E A} (g : ErrorKind -> E) partial (act : Fs -> result ErrorKind (A * Fs))
    (Q : result E A -> Fs -> Prop) (C : Fs -> Prop) f :
  (forall a h, act f = Ok (a, h) -> Q (Ok a) h) ->
  (forall e, Q (Err e) f) -> (forall n e, Q (Err e) (partial n f)) -> (forall n, C (partial n f)) ->
  wp (map_io_err g (syscall partial act)) Q C f.
Proof. intros H1 H2 H3 H4. apply wp_map_io_err, wp_syscall; cbn; auto. Qed.

Lemma wp_each {E A} (body : A -> IO E unit) (l : list A) (I : Fs -> Prop) f :
  (forall x g, x ∈ l -> I g -> wp (body x) (fun _ h => I h) I g) -> I f ->
  wp (io_each body l) (fun _ h => I h) I f.
Proof.
  revert f. induction l as [|x l IH]; intros f Hb Hf; simpl; [by apply wp_ret|].
  apply wp_bind. eapply wp_mono; [apply Hb; [set_solver|done]| |done].
  intros [[]|e] g Hg; [|done]. apply IH; [|done]. intros y h Hy. apply Hb. set_solver.
Qed.

Lemma wp_io_map {E A B} (body : A -> IO E B) (l : list A) (I : Fs -> Prop) f :
  (forall x g, x ∈ l -> I g -> wp (body x) (fun _ h => I h) I g) -> I f ->
  wp (io_map body l) (fun _ h => I h) I f.
Proof.
  revert f. induction l as [|x l IH]; intros f Hb Hf; simpl; [by apply wp_ret|].
  apply wp_bind. eapply wp_mono; [apply Hb; [set_solver|done]| |done].
  intros [y|e] g Hg; [|done]. apply wp_bind. eapply wp_mono; [apply IH; [intros z h Hz; apply Hb; set_solver|done]| |done].
  intros [ys|e] h Hh; [|done]. by apply wp_ret.
Qed.

(** A reading step under an invariant that is also the post-condition of failure. *)
Ltac wp_read a := eapply wp_then_reads; [solve [eauto with reads nocore]|eassumption|done|intros a].

(** ** Names *)

Lemma rsplit_dot_app l e : rsplit_dot e = None -> rsplit_dot (l ++ x2e :: e) = Some (l, e).
Proof.
  intros He. induction l as [|b l IH]; simpl; [|by rewrite IH]. by rewrite He.
Qed.

Lemma unique_name_extension stem k ext :
  rsplit_dot (as_bytes ext) = None ->
  has_extension (stem +:+ "-" +:+ padded 4 k +:+ ("." +:+ ext))%string ext = true.
Proof.
  intros He. unfold has_extension. rewrite !as_bytes_append.
  change (as_bytes "-") with [x2d]. change (as_bytes ".") with [x2e].
  change ([x2e] ++ as_bytes ext) with (x2e :: as_bytes ext).
  rewrite (app_assoc (as_bytes stem)), app_assoc, rsplit_dot_app by done.
  destruct (as_bytes stem); simpl; by apply bool_decide_eq_true_2.
Qed.

Lemma first_free_some d stem suffix l f p :
  first_free d stem suffix l f = Some p ->
  path_exists p f = false /\ exists k, p = (d, (stem +:+ "-" +:+ padded 4 k +:+ suffix)%string).
Proof.
  induction l as [|k l IH]; simpl; [done|].
  destruct (path_exists (d, (stem +:+ "-" +:+ padded 4 k +:+ suffix)%string) f) eqn:E; [done|].
  intros [= <-]. eauto.
Qed.

Lemma reads_observe_yields {E A} (g : Fs -> A) : reads (E := E) (observe g) (yields (fun f a => a = g f)).
Proof. by intros f o. Qed.

Lemma reads_unique_path d stem suffix :
  reads (unique_path d stem suffix) (yields (fun f p => path_exists p f = false /\
    exists k, p = (d, (stem +:+ "-" +:+ padded 4 k +:+ suffix)%string))).
Proof.
  unfold unique_path. eapply reads_then; [apply reads_observe_yields|]. intros found.
  apply reads_lift_yields. intros f p Hp%ok_or_ok Hf. eapply first_free_some. by rewrite <-Hf.
Qed.
#[export] Hint Resolve reads_unique_path : reads.

Section ops.
Context `{SHA : Sha256} `{ShaLen : !Sha256Length} `{L : UuidLib}.
Context (to_vec : CaptureRecordBody -> option (list byte)) (from_slice : list byte -> option CaptureRecordBody).

Lemma free_path owed f d name :
  Inv owed f -> carrier d -> path_exists (d, name) f = false -> live f !! (d, name) = None.
Proof.
  intros H Hd Hp. destruct (live f !! (d, name)) as [i|] eqn:E; [|done]. exfalso.
  destruct (inv_bound _ _ _ _ _ H Hd E) as (n & Hn & (Ht & _) & _).
  unfold path_exists, open_act, resolve in Hp. rewrite E, Hn, Ht in Hp. done.
Qed.

(** ** Directory syncs and moves *)

Lemma wp_sync_dir {E} (g : ErrorKind -> E) owed d f (Q : result E unit -> Fs -> Prop) :
  Inv owed f -> (forall e, Q (Err e) f) -> (Inv owed (synced_dir d f) -> Q (Ok tt) (synced_dir d f)) ->
  wp (map_io_err g (sync_dir d)) Q (Inv owed) f.
Proof.
  intros H He Hq. apply wp_call; [|done|by intros|by intros].
  intros [] h [= <-]. apply Hq. by apply inv_synced_dir.
Qed.

Lemma inv_rename owed f name q i :
  Inv owed f -> live f !! (MainDir, name) = Some i -> live f !! q = None -> carrier q.1 ->
  (q.1 = MainDir -> has_extension q.2 "sealed" = true) ->
  (q.1 = QuarantineDir -> has_extension q.2 "spool" = true) ->
  Inv owed (push (set_inodes f (alter (fun n => with_ctime n (clock f)) i (inodes f))) [((MainDir, name), None); (q, Some i)]).
Proof.
  intros H Hp Hq Hc Hm Hs.
  destruct (inv_bound _ _ _ _ _ H (or_introl eq_refl) Hp) as (n & Hn & Ho & Hf1 & Hf2).
  set (g := set_inodes f _).
  assert (Hg : Inv owed g) by (apply inv_alter; [done|intros m _; apply improves_ctime]).
  apply (inv_link owed g i q (Some (MainDir, name))); [done|done| |done|by intros ? [= <-]].
  destruct q as [d nm]; simpl in *. destruct Hc as [->| ->]; simpl.
  all: split; [intros E; try done; right; by apply Hm|]; split; [intros E; try done; by apply Hs|].
  all: exists (with_ctime n (clock f)); rewrite lookup_alter_eq, Hn; done.
Qed.

Lemma wp_rename {E} (err : ErrorKind -> E) owed f name q i (Q : result E unit -> Fs -> Prop) :
  Inv owed f -> live f !! (MainDir, name) = Some i -> live f !! q = None -> carrier q.1 ->
  (q.1 = MainDir -> has_extension q.2 "sealed" = true) ->
  (q.1 = QuarantineDir -> has_extension q.2 "spool" = true) ->
  (forall e, Q (Err e) f) -> (forall g, Inv owed g -> Q (Ok tt) g) ->
  wp (map_io_err err (rename (MainDir, name) q)) Q (Inv owed) f.
Proof.
  intros H Hp Hq Hc Hm Hs He Hk. apply wp_call; [|done|by intros|by intros].
  intros [] h. rewrite Hp. intros [= <-]. apply Hk. by apply inv_rename.
Qed.

Lemma quarantine_spec owed f name i :
  Inv owed f -> live f !! (MainDir, name) = Some i ->
  wp (quarantine (MainDir, name)) (fun _ g => Inv owed g) (Inv owed) f.
Proof.
  intros H Hi. unfold quarantine. wp_read q. intros [Hf (k & ->)].
  apply wp_bind. apply (wp_rename _ owed f name _ i); try done.
  - by apply (free_path owed); [|right|].
  - by right.
  - intros _. by apply (unique_name_extension "corrupt" k "spool").
  - intros g Hg. apply wp_bind. apply wp_sync_dir; [done|done|]. intros Hg'.
    apply wp_bind. apply wp_sync_dir; [done|done|]. intros Hg''. by apply wp_ret.
Qed.

Lemma seal_active_spec owed f self generation :
  Inv owed f -> wp (seal_active self generation) (fun _ g => Inv owed g) (Inv owed) f.
Proof.
  intros H. unfold seal_active. wp_read a. intros _.
  unfold symlink_metadata. eapply wp_then_reads; [apply reads_attempt_query|done|done|].
  intros r Hr. destruct r as [m|[]]; try by (apply wp_ret || apply wp_raise).
  destruct Hr as [(i & n & Hl & Hn & ->)%symmetry%path_stat_ok|[k ?]]; [|done].
  wp_read u. intros _. destruct (len _ =? 0)%N; [by apply wp_ret|].
  wp_read q. intros [Hf (k & ->)]. apply wp_bind. apply (wp_rename _ owed f ACTIVE_NAME _ i); try done.
  - by apply (free_path owed); [|left|].
  - by left.
  - intros _. by apply (unique_name_extension _ k "sealed").
  - intros g Hg. apply wp_bind. apply wp_sync_dir; [done|done|]. intros Hg'. by apply wp_ret.
Qed.

(** ** Appending *)

(** Every crash leaves the active entry as it is now. *)
Definition anchored (f : Fs) : Prop := forall e, entries_after f e -> e !! active_path = live f !! active_path.

(** The file after a complete, forced write of [frame]. *)
Definition written_to (n n' : Inode) (frame : list byte) : Prop :=
  data n' = data n ++ frame /\ synced n' = data n'.

Lemma inv_alter_data owed f i h :
  Inv owed f -> (forall n, inodes f !! i = Some n -> improves n (with_data n (clock f) (h (data n)))) ->
  Inv owed (alter_data i h f).
Proof. intros H Hh. by apply inv_alter. Qed.

Lemma append_tail owed g i n rs r frame (exists_ : bool) (self : DurableSpool)
    (Q : result SpoolError (DurableSpool * DurableWrite) -> Fs -> Prop) :
  Inv owed g -> inodes g !! i = Some n -> frames_of (data n) rs -> written sha256_digest r frame ->
  (forall x h n', Inv owed h -> live h = live g -> inodes h = <[i := n']> (inodes g) -> written_to n n' frame ->
     (if exists_ then disk h = disk g /\ pending h = pending g else anchored h) -> Q (Ok x) h) ->
  (forall e h, Inv owed h -> Q (Err e) h) ->
  wp (do! map_write_error (append_all i frame) in
      do! map_write_error (sync_data i) in
      do! (if exists_ then ret tt else map_write_error (sync_dir MainDir)) in
      let! metadata := map_io (file_metadata i) in
      ret (mkSpool (limits self) (len metadata), DurableWrite.mk (len metadata) (blen frame))) Q (Inv owed) g.
Proof.
  intros H Hn Hf Hw Hok He.
  assert (Hpart : forall k, Inv owed (alter_data i (fun d => d ++ take k frame) g)).
  { intros k. apply inv_alter_data; [done|]. intros m Hm. simplify_eq. by eapply improves_append. }
  assert (H1 : Inv owed (alter_data i (fun d => d ++ frame) g)).
  { specialize (Hpart (length frame)). by rewrite firstn_all in Hpart. }
  apply wp_bind. apply wp_call; [|auto|auto|auto]. intros [] h1 [= <-].
  set (g1 := alter_data i _ g) in *.
  assert (H2 : Inv owed (set_inodes g1 (alter with_synced i (inodes g1)))).
  { apply inv_alter; [done|]. intros m _. apply improves_synced. }
  apply wp_bind. apply wp_call; [|auto|by intros; apply He|by intros]. intros [] h2 [= <-].
  set (g2 := set_inodes g1 _) in *.
  set (n' := with_synced (with_data n (clock g) (data n ++ frame))).
  assert (E2 : inodes g2 = <[i := n']> (inodes g)).
  { apply map_eq. intros j. unfold g2, g1, alter_data. simpl. destruct (decide (j = i)) as [->|Hj].
    - by rewrite !lookup_alter_eq, Hn, lookup_insert_eq.
    - by rewrite !lookup_alter_ne, lookup_insert_ne by done. }
  apply wp_bind. destruct exists_.
  - apply wp_ret. eapply wp_then_reads; [apply reads_file_metadata|done|auto|intros m]. intros _. apply wp_ret. by eapply (Hok _ _ n').
  - apply wp_sync_dir; [done|auto|]. intros H3. eapply wp_then_reads; [apply reads_file_metadata|done|auto|intros m]. intros _. apply wp_ret.
    eapply (Hok _ _ n'); try done; [by rewrite live_synced_dir|].
    intros e' Hin. rewrite live_synced_dir. by apply synced_dir_agrees.
Qed.

(** What a successful [append] has done to [f]. *)
Record appended (self : DurableSpool) (f g : Fs) (r : SpoolRecord) (i : N) (frame : list byte) : Prop := {
  appended_frame : written sha256_digest r frame;
  appended_entry : live g = <[active_path := i]> (live f);
  appended_data : exists n n' rs, frames_of (data n) rs /\ written_to n n' frame /\ inodes g = <[i := n']> (inodes f) /\
    (if live f !! active_path is Some j then j = i /\ inodes f !! i = Some n else inodes f !! i = None /\ data n = []);
  appended_anchored : live f !! active_path = None \/ anchored f -> anchored g;
  appended_pressure : (N.min (N.min (main_bytes f) U64_MAX + blen frame) U64_MAX <= high_watermark self)%N;
  appended_files : live f !! active_path = None -> (main_files f < max_files self)%N;
}.

Lemma reads_encode r :
  record_ok r -> reads (frame_result (encode_frame sha256_digest r)) (yields (fun _ frame => written sha256_digest r frame)).
Proof. intros Hr. apply reads_lift_yields. intros _ frame ?%map_err_ok. done. Qed.

Lemma inv_create owed f name mode :
  Inv owed f -> live f !! (MainDir, name) = None -> mode_is mode 384 = true ->
  name = ACTIVE_NAME \/ has_extension name "sealed" = true ->
  Inv owed (create_at (MainDir, name) mode f).2.
Proof.
  intros H Hl Hm Hx. unfold create_at. cbv zeta. simpl.
  apply (inv_link owed (set_inodes f _) (fresh_ino f) (MainDir, name) None); [|done| |by intros []|done].
  - apply inv_new_inode; [done|apply fresh_ino_fresh].
  - split; [done|]. split; [done|]. exists (new_inode f mode). simpl. rewrite lookup_insert_eq.
    split; [done|]. split; [by split_and!|]. split; apply (framed_of [] []), frames_of_nil.
Qed.

Definition append_post (owed : Owed) (self : DurableSpool) (f : Fs) (r : SpoolRecord)
    (res : result SpoolError (DurableSpool * DurableWrite)) (g : Fs) : Prop :=
  Inv owed g /\ match res with Ok _ => exists i frame, appended self f g r i frame | Err _ => True end.

Lemma append_spec owed f self r :
  Inv owed f -> record_ok r -> wp (append self r) (append_post owed self f r) (Inv owed) f.
Proof.
  intros H Hr. unfold append.
  assert (He : forall e, append_post owed self f r (Err e) f) by done.
  eapply wp_then_reads; [apply reads_directories|done|done|intros [] _].
  eapply wp_then_reads; [apply reads_lock_dir|done|done|intros [] _].
  eapply wp_then_reads; [by apply reads_encode|done|done|intros frame Hw].
  eapply wp_then_reads; [apply reads_usage|done|done|intros usage [Hbytes Hfiles]].
  cbv zeta. eapply wp_then_reads; [apply reads_owned_file_exists|done|done|intros b Hb].
  eapply wp_then_reads; [apply reads_refuse_false|done|done|intros [] [Hmax Hpress]%orb_false_iff].
  unfold under_pressure in Hpress. apply N.ltb_ge in Hpress. rewrite Hbytes in Hpress.
  apply wp_bind. destruct b.
  - destruct Hb as (i & Hl & n & Hn & Ho). apply wp_call; [|done|by intros|by intros].
    intros j h. rewrite Hl. unfold resolve. rewrite Hn. destruct Ho as (-> & _). intros [= <- <-].
    eapply wp_then_reads; [apply reads_owned_file|done|done|intros [] _].
    eapply wp_then_reads; [apply reads_active_file; done|done|done|intros [] (m & rs & Hm & Hrs & _)].
    assert (m = n) as -> by congruence.
    apply (append_tail owed f i n rs r frame true self); [done..| |done]. intros x h n' Hh Hlh Hi Ht [Hd Hp]. split; [done|].
    exists i, frame. split; [done|by rewrite Hlh, insert_id| |  |done|by rewrite Hl].
    + exists n, n', rs. by rewrite Hl.
    + intros [?|Ha]; [congruence|]. intros e Hin. rewrite Hlh. apply Ha.
      unfold entries_after in *. by rewrite <-Hd, <-Hp.
  - apply wp_call; [|done|by intros|by intros]. intros j h. rewrite Hb. intros [= <- <-].
    assert (Hc := inv_create owed f ACTIVE_NAME 384 H Hb eq_refl (or_introl eq_refl)).
    eapply wp_then_reads; [apply reads_owned_file|done|done|intros [] _].
    eapply wp_then_reads; [by apply (reads_ret_yields tt (fun _ _ => True))|done|done|intros [] _].
    simpl in Hmax. apply N.leb_gt in Hmax. rewrite Hfiles in Hmax.
    apply (append_tail owed _ (fresh_ino f) (new_inode f 384) [] r frame false self); [done|simpl; by rewrite lookup_insert_eq|apply frames_of_nil|done| |done].
    intros x h n' Hh Hlh Hi Ht Ha. split; [done|].
    exists (fresh_ino f), frame. split; [done| | |done|done|done].
    + rewrite Hlh. unfold create_at. cbv zeta. simpl. by rewrite live_push.
    + exists (new_inode f 384), n', []. rewrite Hb. split_and!; [apply frames_of_nil|done..| |apply fresh_ino_fresh|done].
      rewrite Hi. simpl. by rewrite insert_insert_eq.
Qed.

Lemma written_kept n n' rs r frame :
  frames_of (data n) rs -> written sha256_digest r frame -> written_to n n' frame -> kept n' r.
Proof.
  intros Hf Hw [Hd Hs]. exists (data n ++ frame). split; [by exists (data n), rs, frame|].
  rewrite Hs, Hd. done.
Qed.

Lemma appended_kept self f g r i frame :
  appended self f g r i frame -> exists n, inodes g !! i = Some n /\ kept n r.
Proof.
  intros [Hw _ (n & n' & rs & Hf & Ht & Hi & _) _ _ _]. exists n'. rewrite Hi, lookup_insert_eq.
  split; [done|by eapply written_kept].
Qed.

(** An acknowledged record is owed from then on. *)
Lemma inv_appended owed self f g r i frame :
  Inv owed g -> appended self f g r i frame -> anchored g -> Inv ((i, r) :: owed) g.
Proof.
  intros H Ha Hg. destruct (appended_kept _ _ _ _ _ _ Ha) as (n & Hn & Hk).
  apply (inv_owe _ _ _ _ n); [done..|]. intros e He. exists MainDir, ACTIVE_NAME. split; [by left|].
  change (e !! active_path = Some i). rewrite (Hg e He), (appended_entry _ _ _ _ _ _ Ha). by rewrite lookup_insert_eq.
Qed.

Lemma wp_attempt_call {E F A} partial (act : Fs -> result ErrorKind (A * Fs))
    (Q : result F (result E A) -> Fs -> Prop) (g : ErrorKind -> E) C f :
  (forall a h, act f = Ok (a, h) -> Q (Ok (Ok a)) h) ->
  (forall e, Q (Ok (Err e)) f) -> (forall n e, Q (Ok (Err e)) (partial n f)) -> (forall n, C (partial n f)) ->
  wp (attempt (map_io_err g (syscall partial act))) Q C f.
Proof. intros H1 H2 H3 H4. by apply wp_attempt, wp_call. Qed.

(** ** Isolated segments *)

(** What a complete publication leaves at [destination]. *)
Definition published (f : Fs) (destination : PathBuf) (i : N) (r : SpoolRecord) : Prop :=
  (exists n, inodes f !! i = Some n /\ kept n r) /\ forall e, entries_after f e -> e !! destination = Some i.

Lemma publish_spec owed f name r frame :
  Inv owed f -> live f !! (MainDir, name) = None -> has_extension name "sealed" = true ->
  written sha256_digest r frame ->
  wp (publish (MainDir, name) frame)
    (fun res g => Inv owed g /\ match res with
       | Ok (i, m) => published g (MainDir, name) i r /\ ino m = i
       | Err _ => live g !! (MainDir, name) = None \/ exists i, live g !! (MainDir, name) = Some i /\ inodes f !! i = None
       end) (Inv owed) f.
Proof.
  intros H Hl Hx Hw. unfold publish.
  apply wp_bind. apply wp_call; [|auto|by intros; split; [|left]|by intros].
  intros i g. rewrite Hl. intros [= <- <-]. set (i := fresh_ino f).
  assert (Hc := inv_create owed f name 384 H Hl eq_refl (or_intror Hx)).
  set (g := push _ _) in *.
  assert (Hlg : live g !! (MainDir, name) = Some i) by (unfold g; rewrite live_push; apply lookup_insert_eq).
  assert (Hfr : inodes f !! i = None) by apply fresh_ino_fresh.
  assert (Hn : inodes g !! i = Some (new_inode f 384)) by (simpl; by rewrite lookup_insert_eq).
  assert (Hleft : forall h, live h = live g -> live h !! (MainDir, name) = None \/
    exists j, live h !! (MainDir, name) = Some j /\ inodes f !! j = None) by (intros h ->; eauto).
  assert (Hpart : forall k, Inv owed (alter_data i (fun d => d ++ take k frame) g)).
  { intros k. apply inv_alter_data; [done|]. intros m Hm. simplify_eq.
    apply (improves_append _ _ [] r frame k []); [done|apply frames_of_nil|done]. }
  assert (H1 : Inv owed (alter_data i (fun d => d ++ frame) g)).
  { specialize (Hpart (length frame)). by rewrite firstn_all in Hpart. }
  apply wp_bind. apply wp_call; [|by intros; split; [|apply Hleft]|by intros; split; [|apply Hleft]|auto].
  intros [] h1 [= <-]. set (g1 := alter_data i _ g) in *.
  assert (H2 : Inv owed (set_inodes g1 (alter with_synced i (inodes g1)))).
  { apply inv_alter; [done|]. intros m _. apply improves_synced. }
  apply wp_bind. apply wp_call; [|by intros; split; [|apply Hleft]|by intros; split; [|apply Hleft]|by intros].
  intros [] h2 [= <-]. set (g2 := set_inodes g1 _) in *.
  assert (E2 : inodes g2 !! i = Some (with_synced (with_data (new_inode f 384) (clock g) frame))).
  { unfold g2, g1, alter_data. simpl. by rewrite !lookup_alter_eq, lookup_insert_eq. }
  apply wp_bind. apply wp_call; [|by intros; split; [|apply Hleft]|by intros; split; [|apply Hleft]|by intros].
  intros [] h3. destruct (bool_decide _); [done|]. intros [= <-].
  pose proof (inv_flocks owed g2 ({[i]} ∪ flocks g2) H2) as H3. set (g3 := set_flocks g2 _) in *.
  apply wp_bind. apply wp_sync_dir; [done|by intros; split; [|apply Hleft]|]. intros H4.
  eapply wp_then_reads; [apply reads_file_metadata|done| |].
  { intros e. split; [done|]. apply Hleft. by rewrite live_synced_dir. }
  intros m (n & Hn4 & ->)%stat_inode_ok. apply wp_ret. split; [done|]. split; [|done]. split.
  - exists n. split; [done|]. assert (n = with_synced (with_data (new_inode f 384) (clock g) frame)) as ->.
    { change (inodes g2 !! i = Some n) in Hn4. congruence. }
    exists frame. split; [exists [], [], frame; split; [apply frames_of_nil|done]|done].
  - intros e He. rewrite (synced_dir_agrees _ _ _ _ He). exact Hlg.
Qed.

(** The clean-up ends with a sync whose outcome is ignored. *)
Lemma raise_after_sync {A} owed f (e : SpoolError) (Q : result SpoolError A -> Fs -> Prop) :
  Inv owed f -> (forall g, Inv owed g -> Q (Err e) g) ->
  wp (let! synced := attempt (sync_dir MainDir) in raise e) Q (Inv owed) f.
Proof.
  intros H HQ. apply wp_bind, wp_attempt, wp_syscall; [|done| |by intros].
  - intros [] h [= <-]. apply wp_raise, HQ. by apply (inv_synced_dir _ _ MainDir) in H.
  - intros. apply wp_raise. by apply HQ.
Qed.

Lemma append_isolated_spec owed f self r hint :
  Inv owed f -> record_ok r -> Forall (fun p => is_Some (inodes f !! p.1)) owed ->
  wp (append_isolated_sealed self r hint)
    (fun res g => Inv owed g /\ match res with
       | Ok segment => published g (SealedSegment.path segment) (SealedSegment.inode segment) r /\ (SealedSegment.path segment).1 = MainDir
       | Err _ => True
       end) (Inv owed) f.
Proof.
  intros H Hr Howed. unfold append_isolated_sealed.
  eapply wp_then_reads; [apply reads_refuse_false|done|done|intros [] _].
  eapply wp_then_reads; [apply reads_directories|done|done|intros [] _].
  eapply wp_then_reads; [by apply reads_encode|done|done|intros frame Hw].
  cbv zeta. eapply wp_then_reads; [apply reads_lock_dir|done|done|intros [] _].
  eapply wp_then_reads; [apply reads_read_dir|done|done|intros names _].
  eapply wp_then_reads; [apply reads_refuse_false|done|done|intros [] _].
  eapply wp_then_reads; [apply reads_usage|done|done|intros usage _].
  eapply wp_then_reads; [apply reads_refuse_false|done|done|intros [] _].
  eapply wp_then_reads; [apply reads_unique_path|done|done|intros q [Hf (k & ->)]].
  set (name := (_ +:+ _)%string) in *.
  assert (Hx : has_extension name "sealed" = true) by by apply (unique_name_extension _ k "sealed").
  assert (Hl : live f !! (MainDir, name) = None) by (apply (free_path owed); [done|by left|done]).
  apply wp_bind, wp_attempt. eapply wp_mono; [by apply (publish_spec owed f name r frame)| |done].
  intros [[i m]|e] g [Hg Hp]; cbn beta iota.
  - apply wp_ret. simpl. destruct Hp as [Hp ->]. done.
  - assert (Hrm : forall h, live g !! (MainDir, name) <> None -> Inv owed g -> h = push g [((MainDir, name), None)] -> Inv owed h).
    { intros h Hne Hi ->. destruct Hp as [?|(i & Hli & Hfi)]; [done|].
      eapply inv_subset; [|by apply (inv_unlink owed g i)]. intros [j q] Hin. apply elem_of_released. split; [|done].
      intros ->. rewrite Forall_forall in Howed. specialize (Howed _ Hin). simpl in Howed. rewrite Hfi in Howed. by destruct Howed. }
    apply wp_bind, wp_attempt, wp_syscall; [| | |by intros].
    + intros [] h. destruct (live g !! (MainDir, name)) eqn:E; [|done]. intros [= <-].
      apply raise_after_sync; [by apply Hrm|done].
    + intros kd _. by apply raise_after_sync.
    + intros kd n. by apply raise_after_sync.
Qed.

(** ** Recovery *)

Lemma reads_sealed_names : reads sealed_names (yields (fun _ _ => True)).
Proof.
  unfold sealed_names. eapply reads_then; [apply reads_read_dir|]. intros names. cbv zeta.
  eapply reads_then; [|intros []; by apply reads_ret_yields].
  apply (reads_each _ _ (fun _ _ => True)). intros name _. by reads_steps.
Qed.

Lemma reads_quarantine_evidence : reads quarantine_evidence (yields (fun _ _ => True)).
Proof.
  unfold quarantine_evidence. eapply reads_then; [apply reads_read_dir|]. intros names.
  eapply reads_then; [apply (reads_io_map _ _ (fun _ _ _ => True))|intros gaps; by apply reads_ret_yields].
  intros name. unfold evidence_of, open_file. cbv zeta. by reads_steps.
Qed.

Lemma recover_sealed_spec owed f name :
  Inv owed f -> wp (recover_sealed name) (fun _ g => Inv owed g) (Inv owed) f.
Proof.
  intros H. unfold recover_sealed. wp_read bytes. intros (i & n & [Hl _] & _ & _).
  destruct (unreadable bytes); [|by apply wp_ret].
  apply wp_bind. eapply wp_mono; [by apply (quarantine_spec owed f name i)| |done].
  intros [q|e] g Hg; [by apply wp_ret|done].
Qed.

Lemma inv_truncate owed f i n s :
  Inv owed f -> inodes f !! i = Some n -> scan_frames sha256_digest (data n) = Ok s ->
  Inv owed (alter_data i (take (N.to_nat (complete_length s))) f).
Proof. intros H Hn Hs. apply inv_alter_data; [done|]. intros m Hm. simplify_eq. by apply improves_truncate. Qed.

(** The active segment after a repair without faults: its complete frames. *)
Lemma recover_active_spec owed f w :
  Inv owed f -> wp (recover_active w) (fun _ g => Inv owed g) (Inv owed) f.
Proof.
  intros H. unfold recover_active, symlink_metadata.
  eapply wp_then_reads; [apply reads_attempt_query|done|done|].
  intros r Hr. destruct r as [m|[]]; try by (apply wp_ret || apply wp_raise).
  wp_read u. intros _. unfold open_file. wp_read file. intros _. wp_read v. intros [Hl _].
  wp_read bytes. intros (n & Hn & ->).
  destruct (scan_frames sha256_digest (data n)) as [s|e] eqn:Hs.
  - destruct (incomplete_tail s); [|by apply wp_ret].
    pose proof (inv_truncate _ _ _ _ _ H Hn Hs) as H1.
    apply wp_bind, wp_call; [|done|by intros|by intros]. intros [] g [= <-]. set (g := alter_data _ _ f) in *.
    apply wp_bind, wp_call; [|done|by intros|by intros]. intros [] h [= <-].
    apply wp_ret. apply inv_alter; [done|]. intros m0 _. apply improves_synced.
  - apply wp_bind. eapply wp_mono; [by apply (quarantine_spec owed f ACTIVE_NAME file)| |done].
    intros [q|e'] g Hg; [by apply wp_ret|done].
Qed.

Lemma recover_spec owed f self : Inv owed f -> wp (recover self) (fun _ g => Inv owed g) (Inv owed) f.
Proof.
  intros H. unfold recover. wp_read u. intros _. wp_read v. intros _.
  eapply wp_then_reads; [apply reads_sealed_names|done|done|]. intros names _.
  apply wp_bind. eapply wp_mono; [apply (wp_each _ _ (Inv owed)); [intros x g _ Hg; by apply recover_sealed_spec|done]| |done].
  intros [[]|e] g Hg; [|done].
  apply wp_bind. eapply wp_mono; [by apply recover_active_spec| |done]. intros [p|e] h Hh; [|done].
  eapply wp_then_reads; [eapply reads_attempt, reads_quarantine_evidence|done|done|]. intros gaps _. by apply wp_ret.
Qed.

Lemma inv_dirs owed f d : Inv owed f -> Inv owed (set_dirs f d).
Proof. intros H. apply (inv_inodes owed f); try done. intros i n Hn. exists n. split; [done|apply improves_refl]. Qed.

Lemma ensure_directory_spec owed f d :
  Inv owed f -> wp (ensure_directory d) (fun _ g => Inv owed g) (Inv owed) f.
Proof.
  intros H. unfold ensure_directory, dir_metadata.
  eapply wp_then_reads; [apply reads_attempt_query|done|done|]. intros r _.
  destruct r as [m|[]]; try by apply wp_raise.
  - by eapply wp_reads_only; [apply reads_directory|..].
  - apply wp_bind, wp_call; [|done|by intros|by intros]. intros [] g. destruct (dirs f !! d); [done|]. intros [= <-].
    pose proof (inv_dirs owed f (<[d := mkDirNode true (euid f) 448]> (dirs f)) H).
    by eapply wp_reads_only; [apply reads_directory|..].
Qed.

Lemma open_spool_spec owed f l : Inv owed f -> wp (open_spool l) (fun _ g => Inv owed g) (Inv owed) f.
Proof.
  intros H. unfold open_spool. eapply wp_then_reads; [by apply (reads_lift_yields _ (fun _ _ => True))|done|done|].
  intros l' _. apply wp_bind. eapply wp_mono; [apply (wp_each _ _ (Inv owed)); [intros x g _ Hg; by apply ensure_directory_spec|done]| |done].
  intros [[]|e] g Hg; [|done]. apply wp_bind. eapply wp_mono; [by apply recover_spec| |done].
  intros [p|e] h Hh; [|done]. eapply wp_then_reads; [by apply (reads_lift_yields _ (fun _ _ => True))|done|done|].
  intros report _. by apply wp_ret.
Qed.

(** ** Claims *)

Lemma reads_segment_names isolated max names paths :
  reads (segment_names isolated max names paths) (yields (fun _ _ => True)).
Proof.
  revert paths. induction names as [|name names IH]; intros paths; simpl; [by apply reads_ret_yields|].
  destruct (_ || _); [apply IH|].
  eapply reads_then; [apply reads_symlink_metadata|intros m]. eapply reads_then; [apply reads_owned_metadata|intros []].
  eapply reads_then; [apply reads_refuse_false|intros []]. eapply reads_then; [apply reads_refuse_false|intros []].
  eapply reads_mono; [apply IH|]. by intros f [].
Qed.

Definition in_main (l : list Claim) : Prop := forall c, c ∈ l -> c.1.1.1 = MainDir.

Lemma claim_paths_spec owed f self limit page names claimed :
  Inv owed f -> in_main claimed ->
  wp (claim_paths self limit page names claimed)
    (fun r g => Inv owed g /\ match r with Ok l => in_main l | Err _ => True end) (Inv owed) f.
Proof.
  revert f claimed. induction names as [|name names IH]; intros f claimed H Hc; simpl; [by apply wp_ret|].
  destruct (_ =? limit)%N; [by apply wp_ret|]. cbv zeta.
  wp_read before. intros _. wp_read u. intros _.
  eapply wp_then_reads; [apply reads_refuse_false|done|done|intros [] _].
  unfold open_file. wp_read file. intros _. wp_read v. intros _.
  apply wp_bind, wp_attempt, wp_syscall; [| | |by intros].
  - intros [] g. destruct (bool_decide _); [done|]. intros [= <-]. cbn beta iota.
    pose proof (inv_flocks owed f ({[file]} ∪ flocks f) H) as Hg.
    wp_read opened. intros _. eapply wp_then_reads; [apply reads_refuse_false|done|done|intros [] _].
    apply IH; [done|]. intros c [?| ->%list_elem_of_singleton]%elem_of_app; [by apply Hc|done].
  - intros k Hk. cbn beta iota. destruct k; try by apply wp_raise. by apply IH.
  - intros k n. cbn beta iota. destruct k; cbn; try by apply wp_raise. by apply IH.
Qed.

Lemma read_segment_spec owed f page preserve claim :
  Inv owed f -> claim.1.1.1 = MainDir ->
  wp (read_segment to_vec from_slice page preserve claim) (fun _ g => Inv owed g) (Inv owed) f.
Proof.
  destruct claim as [[[d name] file] opened]. simpl. intros H ->. unfold read_segment. cbv zeta. simpl.
  eapply wp_then_reads; [apply reads_refuse_false|done|done|intros [] _].
  unfold read_at. wp_read bytes. intros _.
  match goal with |- wp (if ?c then _ else _) _ _ _ => destruct c end.
  - wp_read u. intros _. wp_read v. intros [Hl _]. wp_read w. intros _.
    apply wp_bind. eapply wp_mono; [by apply (quarantine_spec owed f name file)| |done].
    intros [q|e] g Hg; [by apply wp_raise|done].
  - eapply wp_then_reads; [by apply (reads_lift_yields _ (fun _ _ => True))|done|done|intros s _].
    eapply wp_then_reads; [apply reads_refuse_false|done|done|intros [] _].
    eapply wp_then_reads; [by apply (reads_lift_yields _ (fun _ _ => True))|done|done|intros placed _].
    eapply wp_then_reads; [apply reads_refuse_false|done|done|intros [] _].
    wp_read u. intros _. by apply wp_ret.
Qed.

Lemma claimed_segments_spec owed f self limit isolated page preserve :
  Inv owed f ->
  wp (claimed_segments_inner to_vec from_slice self limit isolated page preserve) (fun _ g => Inv owed g) (Inv owed) f.
Proof.
  intros H. unfold claimed_segments_inner.
  eapply wp_then_reads; [apply reads_refuse_false|done|done|intros [] _].
  wp_read u. intros _. wp_read v. intros _. wp_read names. intros _.
  eapply wp_then_reads; [apply reads_segment_names|done|done|intros paths _].
  eapply wp_then_reads; [apply reads_refuse_false|done|done|intros [] _].
  unfold with_claims. apply wp_bind, wp_observe. apply wp_bind, wp_attempt.
  eapply (wp_mono _ (fun _ g => Inv owed g)); [| |done].
  - cbv zeta. apply wp_bind. eapply wp_mono; [apply claim_paths_spec; [done|by intros c ?%not_elem_of_nil]| |done].
    intros [l|e] g [Hg Hl]; [|done]. apply wp_io_map; [|done].
    intros c h Hc Hh. by apply read_segment_spec; [|apply Hl].
  - intros [l|e] g Hg; [by apply wp_ret|]. apply wp_bind, wp_update, wp_raise. by apply inv_flocks.
Qed.

(** ** Acknowledgements *)

Lemma wp_remove {E} (g : ErrorKind -> E) owed f p i d (Q : result E unit -> Fs -> Prop) :
  Inv owed f -> live f !! p = Some i ->
  (forall e h, Inv (released i owed) h -> Q (Err e) h) -> (forall h, Inv (released i owed) h -> Q (Ok tt) h) ->
  wp (do! map_io_err g (remove_file p) in map_io_err g (sync_dir d)) Q (Inv (released i owed)) f.
Proof.
  intros H Hp He Hq. pose proof (inv_released _ i _ H) as Hr.
  apply wp_bind, wp_call; [|auto|by intros; apply He|by intros].
  intros [] h. rewrite Hp. intros [= <-]. pose proof (inv_unlink _ _ _ _ H Hp) as H1.
  apply wp_sync_dir; [done|auto|auto].
Qed.

Lemma acknowledge_segment_spec owed f segment k :
  Inv owed f ->
  wp (acknowledge_segment segment k) (fun _ g => Inv (released (SealedSegment.inode segment) owed) g)
    (Inv (released (SealedSegment.inode segment) owed)) f.
Proof.
  intros H. pose proof (inv_released _ (SealedSegment.inode segment) _ H) as Hr.
  unfold acknowledge_segment. set (I := Inv (released _ owed)) in *.
  apply wp_bind, wp_attempt. eapply (wp_mono _ (fun _ g => I g)); [| |done].
  - eapply wp_then_reads; [apply reads_refuse_false|done|done|intros [] _].
    wp_read u. intros _. eapply wp_then_reads; [apply reads_symlink_metadata|done|done|].
    intros m (i & n & Hl & _ & ->)%path_stat_ok. wp_read v. intros _. wp_read o. intros _.
    eapply wp_then_reads; [apply reads_refuse_false|done|done|intros [] Hid].
    assert (i = SealedSegment.inode segment) as ->.
    { rewrite !orb_false_iff in Hid. destruct Hid as [[[[[[_ Hi] _] _] _] _] _].
      apply negb_false_iff, N.eqb_eq in Hi. exact Hi. }
    apply (wp_remove _ owed); done.
  - intros r g Hg. destruct r as [r|e]; apply wp_bind, wp_update, wp_lift; by apply inv_flocks.
Qed.

Lemma reads_ack_identity path file dev_ ino_ len_ :
  reads (validate_ack_identity path file dev_ ino_ len_)
    (yields (fun f _ => live f !! path = Some ino_ /\ exists n, inodes f !! ino_ = Some n /\ own f n /\ blen (data n) = len_)).
Proof.
  unfold validate_ack_identity. reads_steps. intros f H _ Hr _ (i & n & Hl & Hn & ->)%path_stat_ok.
  rewrite !orb_false_iff in H. destruct H as [[[[[_ Hi] Hlen] _] _] _].
  apply negb_false_iff, N.eqb_eq in Hi, Hlen. simpl in *. subst. by eauto.
Qed.

Lemma acknowledge_quarantine_spec owed f handle :
  Inv owed f ->
  wp (acknowledge_quarantine handle) (fun _ g => Inv (released (PendingQuarantine.inode handle) owed) g)
    (Inv (released (PendingQuarantine.inode handle) owed)) f.
Proof.
  intros H. pose proof (inv_released _ (PendingQuarantine.inode handle) _ H) as Hr.
  unfold acknowledge_quarantine. wp_read u. intros _.
  eapply wp_then_reads; [apply reads_ack_identity|done|done|intros [] [Hl _]].
  wp_read bytes. intros _. eapply wp_then_reads; [apply reads_refuse_false|done|done|intros [] _].
  by apply (wp_remove _ owed).
Qed.

(** ** Gap markers *)

(** A marker is written to a new file that no carrier links. *)
Lemma inv_slot_file owed f slot h :
  Inv owed f -> Inv owed (alter_data (fresh_ino f) h (create_at (slot_path slot) 384 f).2).
Proof.
  intros H. assert (Hc : Inv owed (create_at (slot_path slot) 384 f).2).
  { unfold create_at. cbv zeta. simpl. apply inv_push_elsewhere; [|done..].
    apply inv_new_inode; [done|apply fresh_ino_fresh]. }
  apply inv_unlinked_file; [done| |].
  - intros e d name He Hd Hb. assert (Hf : exists e', entries_after f e' /\ e' !! (d, name) = Some (fresh_ino f)).
    { unfold create_at in He. cbv zeta in He. simpl in He.
      apply entries_after_push in He as [He| ->]; [by exists e|]. exists (live f). split; [apply entries_after_live|].
      rewrite <-Hb. symmetry. apply apply_op_untouched. by destruct Hd as [->| ->]. }
    destruct Hf as (e' & He' & Hb'). destruct (inv_entries _ _ H e' He') as [Hok _].
    destruct (carrier_file _ _ _ _ Hd (Hok _ _ _ Hb')) as (n & Hn & _). by rewrite fresh_ino_fresh in Hn.
  - intros r Hin. destruct (inv_kept _ _ H _ _ Hin) as (n & Hn & _). by rewrite fresh_ino_fresh in Hn.
Qed.

(** [p] is bound, on the disk too, to a file with exactly [bytes], all of them forced. *)
Definition forced (g : Fs) (p : PathBuf) (bytes : list byte) : Prop :=
  exists i n, inodes g !! i = Some n /\ own g n /\ data n = bytes /\ synced n = bytes /\
    forall e, entries_after g e -> e !! p = Some i.

Definition slot_post (owed : Owed) (encoded : list byte) (l : list N) (r : result SpoolError PathBuf) (g : Fs) : Prop :=
  Inv owed g /\ match r with Ok p => forced g p encoded /\ p ∈ slot_path <$> l | Err _ => True end.

Lemma fill_slot_spec owed f encoded l : Inv owed f -> wp (fill_slot encoded l) (slot_post owed encoded l) (Inv owed) f.
Proof.
  intros H. induction l as [|slot l IH]; simpl; [by apply wp_raise|]. cbv zeta.
  apply wp_bind, wp_attempt, wp_syscall; [| | |by intros].
  - intros i g. destruct (live f !! slot_path slot) eqn:El; [done|]. intros [= <- <-].
    apply wp_bind, wp_call.
    + intros [] g1 [= <-]. set (g1 := alter_data _ _ _). assert (Hg1 : Inv owed g1) by by apply inv_slot_file.
      apply wp_bind, wp_call; [|done|by intros|by intros]. intros [] g2 [= <-].
      assert (Hg2 : Inv owed (set_inodes g1 (alter with_synced (fresh_ino f) (inodes g1)))).
      { apply inv_alter; [done|]. intros n _. apply improves_synced. }
      set (g2 := set_inodes g1 _) in *.
      apply wp_bind. apply wp_sync_dir; [done|done|]. intros Hg3. apply wp_ret. split; [done|].
      split; [|by left]. set (n := with_synced (with_data (new_inode f 384) (clock f) encoded)).
      exists (fresh_ino f), n. split_and!; [|done|done|done|].
      * unfold g2, g1, create_at, alter_data. cbv zeta. simpl. rewrite lookup_alter_eq, lookup_alter_eq.
        assert (Hi : (<[fresh_ino f:=new_inode f 384]> (inodes f)) !! fresh_ino f = Some (new_inode f 384)) by apply lookup_insert_eq.
        unfold fresh_ino in *. by rewrite Hi.
      * intros e He. rewrite (synced_dir_agrees _ _ _ _ He : e !! slot_path slot = live g2 !! slot_path slot).
        unfold g2, g1, create_at. cbv zeta. simpl. change (live _) with (live (push f [(slot_path slot, Some (fresh_ino f))])).
        rewrite live_push. apply lookup_insert_eq.
    + intros e. unfold create_at. cbv zeta. simpl. split; [|done]. apply inv_push_elsewhere; [|done..].
      apply inv_new_inode; [done|apply fresh_ino_fresh].
    + intros n e. split; [|done]. by apply inv_slot_file.
    + intros n. by apply inv_slot_file.
  - intros k _. cbn beta iota. destruct k; try (by apply wp_map_io_err, wp_lift).
    eapply wp_mono; [exact IH| |done]. intros [p|e] g [Hg Hp]; (split; [done|]); [|done].
    destruct Hp as [Hp Hin]. split; [done|by right].
  - intros k n. cbn beta iota. destruct k; by apply wp_map_io_err, wp_lift.
Qed.

Definition marker_post (owed : Owed) (self : DurableSpool) (marker : CaptureGapMarker)
    (r : result SpoolError PathBuf) (g : Fs) : Prop :=
  Inv owed g /\ match r with
  | Ok p => exists encoded, encode_marker marker = Ok encoded /\ forced g p encoded /\ p ∈ slot_path <$> slots self
  | Err _ => True
  end.

Lemma write_gap_marker_spec owed f self marker :
  Inv owed f -> wp (write_gap_marker self marker) (marker_post owed self marker) (Inv owed) f.
Proof.
  intros H. unfold write_gap_marker.
  eapply wp_then_reads; [by apply (reads_lift_yields _ (fun _ _ => True))|done|done|intros [] _].
  eapply wp_then_reads; [apply reads_directory|done|done|intros u _].
  eapply wp_then_reads; [apply reads_directory|done|done|intros v _].
  eapply wp_then_reads; [by apply (reads_lift_yields _ (fun _ encoded => encode_marker marker = Ok encoded))|done|done|intros encoded He].
  eapply wp_mono; [by apply fill_slot_spec| |done]. intros [p|e] g [Hg Hp]; (split; [done|]); [|done].
  exists encoded. by destruct Hp.
Qed.

Lemma acknowledge_gap_marker_spec owed f handle nonblocking :
  Inv owed f -> (PendingGapMarker.path handle).1 = EmergencyDir ->
  wp (acknowledge_gap_marker_inner handle nonblocking) (fun _ g => Inv owed g) (Inv owed) f.
Proof.
  intros H Hp. unfold acknowledge_gap_marker_inner.
  eapply (wp_then_reads _ _ (fun _ _ => True)); [destruct nonblocking; eauto with reads|done|done|intros [] _].
  eapply wp_then_reads; [apply reads_ack_identity|done|done|intros [] [Hl _]].
  wp_read bytes. intros _.
  eapply wp_then_reads; [by apply (reads_lift_yields _ (fun _ _ => True))|done|done|intros marker _].
  eapply wp_then_reads; [apply reads_refuse_false|done|done|intros [] _].
  apply wp_bind, wp_call; [|done|by intros|by intros]. intros [] h. rewrite Hl. intros [= <-].
  apply wp_sync_dir; [|intros e|done].
  all: apply inv_push_elsewhere; [done|..]; unfold touches; simpl; rewrite Hp; done.
Qed.
End ops.

(** ** Bounds *)

Module SpoolBounds.
Section bounds.
Context `{SHA : Sha256} `{ShaLen : !Sha256Length} `{L : UuidLib}.

(** Every entry of the main directory has an inode of its own: there are no hard links. *)
Definition own_inodes (f : Fs) : Prop :=
  forall name i, live f !! (MainDir, name) = Some i -> is_Some (inodes f !! i) /\
    forall name', live f !! (MainDir, name') = Some i -> name' = name.

Definition size_of (f : Fs) (i : N) : N := match inodes f !! i with Some n => blen (data n) | None => 0 end.

Lemma NoDup_names d e : NoDup (names_in d e).
Proof.
  unfold names_in. pose proof (NoDup_fst_map_to_list e) as H. revert H.
  generalize (map_to_list e) as l. induction l as [|[[d' name] i] l IH]; simpl; [constructor|].
  intros [Hn Hl]%NoDup_cons. destruct (bool_decide (d' = d)) eqn:E; [|by apply IH].
  apply bool_decide_eq_true in E as ->. constructor; [|by apply IH].
  intros ([[d2 n2] j] & Hin & H)%list_elem_of_omap. simpl in H. destruct (bool_decide (d2 = d)) eqn:E2; [|done].
  apply bool_decide_eq_true in E2 as ->. simplify_eq. apply Hn. rewrite list_elem_of_fmap. by exists ((d, name), j).
Qed.

Lemma names_insert d name i e :
  e !! (d, name) = None -> names_in d (<[(d, name) := i]> e) ≡ₚ name :: names_in d e.
Proof.
  intros H. apply NoDup_Permutation; [apply NoDup_names| |].
  - constructor; [|apply NoDup_names]. intros [j Hj]%elem_of_names_in. congruence.
  - intros x. rewrite elem_of_cons, !elem_of_names_in. destruct (decide (x = name)) as [->|Hx].
    + rewrite lookup_insert_eq. naive_solver.
    + rewrite lookup_insert_ne by congruence. naive_solver.
Qed.

Lemma total_size_perm f l l' : l ≡ₚ l' -> total_size f l = total_size f l'.
Proof. induction 1; simpl; lia. Qed.

(** One name may have grown by [k]. *)
Lemma total_size_grown f h (name : string) k l :
  NoDup l -> (forall x, x ∈ l -> size_at h (MainDir, x) <= size_at f (MainDir, x) + if decide (x = name) then k else 0)%N ->
  (total_size h l <= total_size f l + k)%N.
Proof.
  intros Hl H. assert (Hs : (total_size h l <= total_size f l + if decide (name ∈ l) then k else 0)%N);
    [|destruct (decide (name ∈ l)); lia].
  revert H. induction Hl as [|x l Hx _ IH]; intros H; unfold total_size in *; cbn [foldr]; [lia|].
  pose proof (H x ltac:(by left)) as H1. pose proof (IH ltac:(intros; apply H; by right)) as H2.
  destruct (decide (x = name)) as [->|Hn].
  - rewrite decide_False in H2 by done. rewrite decide_True by by left. lia.
  - destruct (decide (name ∈ l)).
    + rewrite decide_True by by right. lia.
    + rewrite decide_False by (rewrite elem_of_cons; naive_solver). lia.
Qed.

(** What [append] does to sizes and entries: the active segment is [i], and nothing
    else has grown. *)
Definition grown (f : Fs) (i k : N) (h : Fs) : Prop :=
  live h = <[active_path := i]> (live f) /\
  forall j, (size_of h j <= size_of f j + if decide (j = i) then k else 0)%N.

Definition active_is (f : Fs) (i : N) : Prop :=
  live f !! active_path = Some i \/ live f !! active_path = None /\ inodes f !! i = None.

Lemma grown_sizes f i k h x :
  own_inodes f -> active_is f i -> grown f i k h ->
  (size_at h (MainDir, x) <= size_at f (MainDir, x) + if decide (x = ACTIVE_NAME) then k else 0)%N.
Proof.
  intros Ho Ha [Hl Hs]. unfold size_at. rewrite Hl. destruct (decide (x = ACTIVE_NAME)) as [->|Hx].
  - change (MainDir, ACTIVE_NAME) with active_path. rewrite lookup_insert_eq. specialize (Hs i). rewrite decide_True in Hs by done.
    unfold size_of in Hs. destruct Ha as [->|[-> Hi]]; [done|]. by rewrite Hi in Hs.
  - rewrite lookup_insert_ne by (intros [=]; congruence). destruct (live f !! (MainDir, x)) as [j|] eqn:E; [|lia].
    destruct (Ho _ _ E) as [[n Hn] Hu]. specialize (Hs j). rewrite decide_False in Hs; [by rewrite N.add_0_r in *|].
    intros ->. destruct Ha as [Ha|[_ Hi]]; [|congruence]. apply Hx. symmetry. by apply Hu.
Qed.

Lemma grown_total f i k h :
  own_inodes f -> active_is f i -> grown f i k h ->
  (main_bytes h <= main_bytes f + k)%N /\
  main_files h = (main_files f + if live f !! active_path is Some _ then 0 else 1)%N.
Proof.
  intros Ho Ha Hg. pose proof (grown_sizes f i k h) as Hs. destruct Hg as [Hl Hz]. unfold main_bytes, main_files. rewrite Hl.
  destruct Ha as [Ha|[Ha Hi]]; rewrite Ha.
  - rewrite insert_id by done. split; [|lia]. apply (total_size_grown _ _ ACTIVE_NAME); [apply NoDup_names|].
    intros x _. apply Hs; [done|by left|by split].
  - rewrite (total_size_perm _ _ _ (names_insert MainDir ACTIVE_NAME i _ Ha)).
    rewrite (names_insert MainDir ACTIVE_NAME i _ Ha). split; [|simpl; lia].
    assert (total_size f (ACTIVE_NAME :: names_in MainDir (live f)) = total_size f (names_in MainDir (live f))) as <-.
    { simpl. unfold size_at. change (MainDir, ACTIVE_NAME) with active_path. rewrite Ha. lia. }
    apply (total_size_grown _ _ ACTIVE_NAME).
    + constructor; [|apply NoDup_names]. intros [j Hj]%elem_of_names_in. unfold active_path in Ha. congruence.
    + intros x _. apply Hs; [done|by right|by split].
Qed.

(** Within the limits, or no further out of them than before. *)
Definition bounded (self : DurableSpool) (f h : Fs) : Prop :=
  (main_bytes h <= N.max (main_bytes f) (high_watermark self))%N /\
  (main_files h <= N.max (main_files f) (max_files self))%N.

Lemma size_alter_data i g h j :
  size_of (alter_data i g h) j = if decide (j = i) then (match inodes h !! i with Some n => blen (g (data n)) | None => 0%N end) else size_of h j.
Proof.
  unfold size_of, alter_data. simpl. destruct (decide (j = i)) as [->|Hj].
  - rewrite lookup_alter_eq. by destruct (inodes h !! i).
  - by rewrite lookup_alter_ne.
Qed.

Lemma size_synced i h j : size_of (set_inodes h (alter with_synced i (inodes h))) j = size_of h j.
Proof.
  unfold size_of. simpl. destruct (decide (j = i)) as [->|Hj]; [|by rewrite lookup_alter_ne].
  rewrite lookup_alter_eq. by destruct (inodes h !! i).
Qed.

(** The part of [append] behind its checks. *)
Lemma append_tail_grown f g i frame (exists_ : bool) self :
  grown f i 0 g -> let I := grown f i (blen frame) in
  wp (do! map_write_error (append_all i frame) in
      do! map_write_error (sync_data i) in
      do! (if exists_ then ret tt else map_write_error (sync_dir MainDir)) in
      let! metadata := map_io (file_metadata i) in
      ret (mkSpool (limits self) (len metadata), DurableWrite.mk (len metadata) (blen frame))) (fun _ h => I h) I g.
Proof.
  intros [Hl Hs] I.
  assert (Hpart : forall bytes, (blen bytes <= blen frame)%N -> I (alter_data i (fun d => d ++ bytes) g)).
  { intros bytes Hb. split; [exact Hl|]. intros j. rewrite size_alter_data. specialize (Hs j).
    destruct (decide (j = i)) as [->|]; [|lia]. unfold size_of in Hs at 1. destruct (inodes g !! i); [rewrite blen_app; lia|lia]. }
  assert (Htk : forall n, (blen (take n frame) <= blen frame)%N) by (intros n; unfold blen; rewrite length_take; lia).
  assert (H0 : I g) by (split; [done|]; intros j; specialize (Hs j); destruct (decide _); lia).
  apply wp_bind. apply wp_call; [|done|auto|auto]. intros [] h1 [= <-].
  pose proof (Hpart frame ltac:(done)) as H1. set (g1 := alter_data i _ g) in *.
  apply wp_bind. apply wp_call; [|done|done|done]. intros [] h2 [= <-].
  assert (H2 : I (set_inodes g1 (alter with_synced i (inodes g1)))).
  { destruct H1 as [Hl1 Hs1]. split; [done|]. intros j. by rewrite size_synced. }
  set (g2 := set_inodes g1 _) in *. apply wp_bind.
  assert (Htail : forall h, I h -> wp (let! metadata := map_io (file_metadata i) in
      ret (mkSpool (limits self) (len metadata), DurableWrite.mk (len metadata) (blen frame))) (fun _ h => I h) I h).
  { intros h Hh. eapply wp_then_reads; [apply reads_file_metadata|done|done|intros m _]. by apply wp_ret. }
  destruct exists_; [apply wp_ret; by apply Htail|].
  apply wp_call; [|done|done|done]. intros [] h3 [= <-]. apply Htail.
  destruct H2 as [Hl2 Hs2]. split; [|done]. etransitivity; [exact (live_synced_dir MainDir g2)|done].
Qed.

Lemma append_bounded_wp f self r :
  own_inodes f -> (high_watermark self < U64_MAX)%N -> record_ok r ->
  wp (append self r) (fun _ h => bounded self f h) (bounded self f) f.
Proof.
  intros Ho Hhigh Hr. assert (H0 : bounded self f f) by (split; lia). unfold append.
  eapply wp_then_reads; [apply reads_directories|done|done|intros [] _].
  eapply wp_then_reads; [apply reads_lock_dir|done|done|intros [] _].
  eapply wp_then_reads; [by apply reads_encode|done|done|intros frame Hw].
  eapply wp_then_reads; [apply reads_usage|done|done|intros usage [Hbytes Hfiles]].
  cbv zeta. eapply wp_then_reads; [apply reads_owned_file_exists|done|done|intros b Hb].
  eapply wp_then_reads; [apply reads_refuse_false|done|done|intros [] [Hmax Hpress]%orb_false_iff].
  unfold under_pressure in Hpress. apply N.ltb_ge in Hpress. rewrite Hbytes in Hpress.
  assert (Hfit : (main_bytes f + blen frame <= high_watermark self)%N) by lia.
  assert (Hin : forall i k h, active_is f i -> (k <= blen frame)%N -> grown f i k h -> bounded self f h).
  { intros i k h Ha Hk Hg. destruct (grown_total f i k h Ho Ha Hg) as [Ht Hfl]. split; [lia|]. rewrite Hfl.
    destruct b; [destruct Hb as (i' & Hi' & _); rewrite Hi'; lia|]. rewrite Hb.
    simpl in Hmax. apply N.leb_gt in Hmax. lia. }
  apply wp_bind. destruct b.
  - destruct Hb as (i & Hl & n & Hn & Hown). apply wp_call; [|done|by intros|by intros].
    intros j h. rewrite Hl. unfold resolve. rewrite Hn. destruct Hown as (-> & _). intros [= <- <-].
    eapply wp_then_reads; [apply reads_owned_file|done|done|intros [] _].
    eapply wp_then_reads; [apply reads_active_file; done|done|done|intros [] _].
    assert (Hg : grown f i 0 f). { split; [by rewrite insert_id|]. intros j. destruct (decide _); lia. }
    eapply wp_mono; [by apply (append_tail_grown f f i frame true self)|cbv beta..];
      [intros _ h|intros h]; apply (Hin i); by try left.
  - assert (Ha : active_is f (fresh_ino f)). { right. split; [done|]. apply fresh_ino_fresh. }
    apply wp_call; [|done|by intros|by intros]. intros j h. rewrite Hb. intros [= <- <-].
    set (g := push _ _). assert (Hg : grown f (fresh_ino f) 0 g).
    { split; [unfold g; by rewrite live_push|]. intros j. unfold size_of, g. simpl.
      destruct (decide (j = fresh_ino f)) as [->|]; [rewrite lookup_insert_eq; apply N.le_0_l|]. rewrite lookup_insert_ne by done. lia. }
    assert (bounded self f g) by (apply (Hin (fresh_ino f) 0%N); [done|lia|done]).
    eapply wp_then_reads; [apply reads_owned_file|done|done|intros [] _].
    eapply wp_then_reads; [by apply (reads_ret_yields tt (fun _ _ => True))|done|done|intros [] _].
    eapply wp_mono; [by apply (append_tail_grown f g (fresh_ino f) frame false self)|cbv beta..];
      [intros _ h|intros h]; by apply (Hin (fresh_ino f)).
Qed.

(** C21: the main directory stays within its limits.  However [append] ends — done,
    refused, failed halfway or cut by a crash — the files of the main directory
    together have at most [high_watermark_bytes] bytes, or at most as many as before,
    and there are at most [max_main_files] of them, or at most as many as before. *)
Theorem append_bounded f self r o :
  own_inodes f -> (high_watermark self < U64_MAX)%N -> record_ok r ->
  let g := state_of (append self r (mkWorld f o)) in
  (main_bytes g <= N.max (main_bytes f) (high_watermark self))%N /\
  (main_files g <= N.max (main_files f) (max_files self))%N.
Proof. intros Ho Hh Hr g. exact (wp_state _ _ f o (append_bounded_wp f self r Ho Hh Hr)). Qed.
End bounds.
End SpoolBounds.
