(* ===== verification/SpoolReading.v ===== *)
(** * Reading segments piece by piece

    Without faults the incremental readers are the one-pass scanner: the check of the
    active segment, which carries an unfinished frame from one buffer to the next, and
    the pages of a sealed segment, which follow one another's cursors.  The bound on
    the length of a frame is what keeps both within their buffers. *)

From stdpp Require Import pretty.
From S2P Require Import Prelude Order Collections Text Canonical SpoolFrame Ids Lane Attempt Evidence CaptureBody GapMarker Fs Spool SpoolFacts.

(** ** The length of a frame *)

Definition MAX_FRAME : N := 5243416.

Lemma blen_concat_refs refs : Forall ref_ok refs -> blen (concat (as_bytes <$> refs)) = (64 * N.of_nat (length refs))%N.
Proof.
  induction 1 as [|s refs [Hl _] _ IH]; [done|]. rewrite fmap_cons. cbn [concat length].
  rewrite blen_app, IH, blen_as_bytes, Hl. lia.
Qed.

Lemma frame_bound digest r f :
  (forall l, length (digest l) = 32%nat) -> encode_frame digest r = Ok f -> (blen f <= MAX_FRAME)%N.
Proof.
  intros Hd (Hv & h & Hh & _ & _ & ->)%encode_frame_ok. rewrite blen_frame by done.
  pose proof (validate_record_refs r Hv) as Hrefs. pose proof (validate_record_body r Hv) as Hb.
  apply encode_header_ok in Hh as (id & obs & Hid & Hobs & Hn & ->). unfold validate_record in Hv.
  rewrite guard_ok, !orb_false_iff in Hv. destruct Hv as [[[[[[[_ _] Hi%N.ltb_ge] _] Ho%N.ltb_ge] _] _] _].
  assert (forall s bs, put_string s = Ok bs -> (str_len s <= 256)%N -> (blen bs <= 258)%N) as Hput.
  { unfold put_string. intros s bs Hs Hl. destruct (_ <=? _)%N; [|done].
    assert (bs = to_be_bytes 2 (str_len s) ++ as_bytes s) as -> by congruence.
    rewrite blen_app, blen_be, blen_as_bytes. lia. }
  pose proof (Hput _ _ Hid Hi). pose proof (Hput _ _ Hobs Ho).
  rewrite !blen_app, !blen_be, blen_concat_refs by done.
  unfold MAX_FRAME, PREFIX_LENGTH, U16_MAX, MAX_RECORD_BODY in *. lia.
Qed.

(** ** Runs without faults *)

Lemma query_calm {A} (act : Fs -> result ErrorKind A) f : query act (mkWorld f []) = Done (act f) (mkWorld f []).
Proof. unfold query, syscall. simpl. by destruct (act f). Qed.

Lemma map_io_calm {A} (act : Fs -> result ErrorKind A) f a :
  act f = Ok a -> map_io (query act) (mkWorld f []) = Done (Ok a) (mkWorld f []).
Proof. intros H. unfold map_io, map_io_err. by rewrite query_calm, H. Qed.

Lemma bind_ok {E A B} (m : IO E A) (k : A -> IO E B) w a w' : m w = Done (Ok a) w' -> bind m k w = k a w'.
Proof. intros H. unfold bind. by rewrite H. Qed.

Lemma refuse_calm {E} (bad : bool) (e : E) w : bad = false -> refuse bad e w = Done (Ok tt) w.
Proof. by intros ->. Qed.

Lemma frame_result_calm {A} (r : result SpoolFrameError A) a w : r = Ok a -> frame_result r w = Done (Ok a) w.
Proof. by intros ->. Qed.

Ltac calm := erewrite bind_ok; [|solve [apply map_io_calm; done | apply refuse_calm; done | apply frame_result_calm; done | done]].

Section reading.
Context `{SHA : Sha256} `{ShaLen : !Sha256Length} `{L : UuidLib}.
Context (to_vec : CaptureRecordBody -> option (list byte)) (from_slice : list byte -> option CaptureRecordBody).

(** ** Complete frames and their parts *)

Lemma written_inj r f f' : written sha256_digest r f -> written sha256_digest r f' -> f = f'.
Proof. intros [_ H] [_ H']. congruence. Qed.

Lemma frames_cancel p l ps rs : frames_of p ps -> frames_of (p ++ l) rs -> exists qs, rs = ps ++ qs /\ frames_of l qs.
Proof.
  intros (ps' & -> & Hp) (fs & E & Hf).
  pose proof (scan_written sha256_digest rs fs [] sha256_length Hf torn_nil) as Hs. rewrite app_nil_r in Hs.
  destruct (scan_prefix (concat ps') ps (concat fs) _ ltac:(by exists ps') ltac:(rewrite <-E; by exists l) Hs) as [[qs Hq] _].
  simpl in Hq. assert (rs = ps ++ qs) as ->.
  { rewrite <-Hq. clear -Hf. induction Hf; simpl; [done|]. by f_equal. }
  exists qs. split; [done|]. apply Forall2_app_inv_l in Hf as (f1 & f2 & Hf1 & Hf2 & ->).
  assert (f1 = ps') as ->.
  { clear -Hp Hf1. revert f1 Hf1. induction Hp as [|r f rs fs H _ IH]; intros f1 H1; inversion H1; subst; [done|].
    f_equal; [by eapply written_inj|by apply IH]. }
  rewrite concat_app in E. apply app_inv_head in E as ->. by exists f2.
Qed.

Lemma torn_short t : torn sha256_digest t -> (blen t <= MAX_FRAME)%N.
Proof.
  intros [->|(r & f & q & He & -> & _)]; [done|].
  pose proof (frame_bound _ _ _ sha256_length He) as H. rewrite blen_app in H. lia.
Qed.

(** No complete frames are themselves an unfinished frame. *)
Lemma torn_frames t rs : torn sha256_digest t -> frames_of t rs -> t = [].
Proof.
  intros Ht (fs & -> & Hf).
  pose proof (scan_written sha256_digest rs fs [] sha256_length Hf torn_nil) as H1.
  pose proof (scan_written sha256_digest [] [] (concat fs) sha256_length ltac:(constructor) Ht) as H2.
  rewrite app_nil_r in H1. simpl in H2. rewrite H1 in H2. injection H2 as H _ _.
  by destruct Hf.
Qed.

(** A part of complete frames is scanned up to its last complete frame. *)
Lemma scan_part p rs l :
  frames_of (p ++ l) rs -> exists q qs rest, p = q ++ rest /\ frames_of q qs /\ torn sha256_digest rest /\
    (exists s, scan_frames sha256_digest p = Ok s /\ complete_length s = blen q /\ record <$> frames s = qs /\
       incomplete_tail s = negb (is_empty rest)) /\
    exists rs', rs = qs ++ rs' /\ frames_of (rest ++ l) rs'.
Proof.
  intros H. destruct (framed_scan p) as (q & qs & rest & s & -> & Hq & Ht & Hs & Hr & Hc & Hi).
  { eapply framed_prefix; [by eapply framed_of|by exists l]. }
  exists q, qs, rest. split_and!; [done..|by exists s|]. rewrite <-app_assoc in H. by apply (frames_cancel q).
Qed.

(** ** The check of the active segment *)

Lemma read_exact_calm f i n off length_ :
  inodes f !! i = Some n -> (off + length_ <= blen (data n))%N ->
  map_io (read_exact i off length_) (mkWorld f []) = Done (Ok (sub_bytes off length_ (data n))) (mkWorld f []).
Proof.
  intros Hn Hl. apply map_io_calm. rewrite Hn. cbv zeta. by rewrite blen_sub, N.eqb_refl by done.
Qed.

Lemma active_loop_calm fuel f i n off rem pend rs :
  inodes f !! i = Some n -> (off + rem = blen (data n))%N -> (rem <= N.of_nat fuel * READ_BUFFER)%N ->
  torn sha256_digest pend -> frames_of (pend ++ sub_bytes off rem (data n)) rs ->
  active_loop fuel i off rem pend (mkWorld f []) = Done (Ok []) (mkWorld f []).
Proof.
  intros Hn. revert off rem pend rs. induction fuel as [|fuel IH]; intros off rem pend rs Hoff Hfuel Ht Hf;
    cbn [active_loop]; (destruct (N.eqb_spec rem 0) as [->|Hrem];
      [unfold sub_bytes in Hf; rewrite take_0, app_nil_r in Hf; by rewrite (torn_frames _ _ Ht Hf)|]); [lia|].
  cbv zeta. remember (N.min rem READ_BUFFER) as k eqn:Ek. assert (Hk : (k <= rem)%N) by lia.
  erewrite bind_ok; [|apply (read_exact_calm f i n); [done|lia]].
  rewrite (sub_bytes_split off k rem), app_assoc in Hf by lia.
  apply scan_part in Hf as (q & qs & rest & E & Hq & Hr & (s & Hs & Hc & _) & rs' & _ & Hf).
  calm. rewrite Hc, E, drop_N_app by done.
  pose proof (torn_short _ Hr) as Hshort.
  erewrite bind_ok; [|apply refuse_calm, N.ltb_ge; unfold MAX_FRAME, MAX_PENDING in *; lia].
  eapply IH; [lia| |done|exact Hf]. rewrite Nat2N.inj_succ, N.mul_succ_l in Hfuel. lia.
Qed.

Lemma active_fuel_enough l : (l <= N.of_nat (active_fuel l) * READ_BUFFER)%N.
Proof.
  unfold active_fuel. rewrite Nat2N.inj_succ, N2Nat.id.
  pose proof (N.div_mod l READ_BUFFER ltac:(done)). pose proof (N.mod_lt l READ_BUFFER ltac:(done)). lia.
Qed.

Lemma check_identity_calm f p i n :
  live f !! p = Some i -> inodes f !! i = Some n ->
  check_identity p i (metadata_of f i n) (mkWorld f []) = Done (Ok tt) (mkWorld f []).
Proof.
  intros Hp Hn. unfold check_identity.
  erewrite bind_ok; [|apply map_io_calm; unfold stat_inode; by rewrite Hn].
  erewrite bind_ok; [|apply refuse_calm; by apply negb_false_iff, bool_decide_eq_true].
  erewrite bind_ok; [|apply map_io_calm; rewrite Hp; unfold stat_inode; by rewrite Hn].
  apply refuse_calm. by apply negb_false_iff, bool_decide_eq_true.
Qed.

(** The check of the active segment is the one-pass check.  Whatever faults
    happen, [validate_active_file] accepts only a file that is within the bound and
    scans as complete frames; without faults it accepts every such file.  Reading in
    buffers of 64 KiB with a carried-over tail loses nothing, its rounds suffice, and
    the limit of 8 MiB on the tail never refuses a valid segment. *)
Theorem active_check_one_pass f p i n max :
  live f !! p = Some i -> inodes f !! i = Some n ->
  let complete := (blen (data n) <= max)%N /\
    exists s, scan_frames sha256_digest (data n) = Ok s /\ incomplete_tail s = false in
  (forall o w, validate_active_file p i max (mkWorld f o) = Done (Ok tt) w -> complete) /\
  (complete -> validate_active_file p i max (mkWorld f []) = Done (Ok tt) (mkWorld f [])).
Proof.
  intros Hp Hn. split.
  - intros o w H. pose proof (reads_active_file p i max f o) as Hr. rewrite H in Hr.
    destruct Hr as [_ (m & rs & Hm & Hf & Hmax)]. assert (m = n) as -> by congruence. split; [done|].
    destruct Hf as (fs & -> & Hfs).
    pose proof (scan_written sha256_digest rs fs [] sha256_length Hfs torn_nil) as Hs.
    rewrite app_nil_r in Hs. eexists. split; [exact Hs|done].
  - intros [Hmax (s & Hs & Ht)]. unfold validate_active_file.
    erewrite bind_ok; [|apply map_io_calm; unfold stat_inode; by rewrite Hn].
    erewrite bind_ok; [|by apply refuse_calm, N.ltb_ge].
    pose proof (truncated_frames _ _ Hs) as Hf.
    apply (scan_frames_sound _ _ _ sha256_length) in Hs as (fs & tail & E & _ & Hc & Htail).
    rewrite Ht in Htail. symmetry in Htail. apply negb_false_iff, is_empty_true in Htail as ->.
    rewrite app_nil_r in E. rewrite Hc, <-E in Hf. unfold blen in Hf. rewrite Nat2N.id, firstn_all in Hf.
    cbn [len metadata_of]. erewrite bind_ok; [|eapply (active_loop_calm _ f i n); [done|lia|apply active_fuel_enough|apply torn_nil|]].
    + rewrite bind_ok with (a := tt) (w' := mkWorld f []) by (by apply refuse_calm). by apply check_identity_calm.
    + unfold sub_bytes, blen. simpl. rewrite Nat2N.id, firstn_all. exact Hf.
Qed.

(** ** The pages of a sealed segment *)

(** The reader of a segment: page after page, each behind the cursor of the last. *)
Fixpoint read_pages (preserve_corruption : bool) (claim : Claim) (fuel : nat) (cursor : option SpoolReadCursor)
    : M (list SealedFrame) :=
  match fuel with
  | O => raise SpoolError.ResourceExhausted
  | S fuel =>
      let! segment := read_segment to_vec from_slice (Some cursor) preserve_corruption claim in
      match continuation segment with
      | None => ret (SealedSegment.frames segment)
      | Some next =>
          let! rest := read_pages preserve_corruption claim fuel (Some next) in
          ret (SealedSegment.frames segment ++ rest)
      end
  end.

(** The frames of [rs] at their places from [off] on. *)
Fixpoint placed (off : N) (rs : list SpoolRecord) (fs : list (list byte)) : list SealedFrame :=
  match rs, fs with
  | r :: rs, f :: fs => SealedFrame.mk r off (off + blen f) :: placed (off + blen f) rs fs
  | _, _ => []
  end.

Lemma place_frames_ok off rs fs :
  (off + blen (concat fs) <= U64_MAX)%N -> length rs = length fs ->
  place_frames off (zip_with decoded rs fs) = Ok (placed off rs fs, (off + blen (concat fs))%N).
Proof.
  revert off fs. induction rs as [|r rs IH]; intros off [|f fs] Hb Hl; try done.
  { simpl. by rewrite N.add_0_r. }
  cbn [zip_with place_frames placed decoded frame_length record concat] in *. rewrite blen_app in *.
  unfold checked_add_u64. rewrite (proj2 (N.leb_le _ _)) by lia. cbn [ok_or rbind].
  rewrite IH by (lia || by injection Hl). cbn [rbind fst snd]. by rewrite N.add_assoc.
Qed.

Lemma placed_app off rs fs rs' fs' : length rs = length fs ->
  placed off (rs ++ rs') (fs ++ fs') = placed off rs fs ++ placed (off + blen (concat fs)) rs' fs'.
Proof.
  revert off fs. induction rs as [|r rs IH]; intros off [|f fs] Hl; try done.
  { simpl. by rewrite N.add_0_r. }
  simpl. rewrite IH by (by injection Hl). by rewrite blen_app, N.add_assoc.
Qed.

(** A body the page budget can take. *)
Definition within_budget (r : SpoolRecord) : Prop :=
  match decode_validated_record_body to_vec from_slice r with
  | Ok (body, _) => (CaptureRecordBody.protected_length body + 4096 <= CAS_BUDGET)%N
  | Err _ => True
  end.

Lemma admit_frames_prefix budget l : admit_frames to_vec from_slice budget l `prefix_of` l.
Proof.
  revert budget. induction l as [|d l IH]; intros budget; simpl; [done|].
  destruct (decode_validated_record_body _ _ _) as [[body []]|]; cbv zeta.
  - destruct (_ <? _)%N; [apply prefix_nil|by apply prefix_cons].
  - by apply prefix_cons.
Qed.

(** A page has some frames of the scan, from the first on. *)
Lemma page_frames_some cursor r rs f fs :
  within_budget r -> length rs = length fs -> exists k, (k <= length rs)%nat /\
    page_frames to_vec from_slice (Some cursor) (zip_with decoded (r :: rs) (f :: fs))
      = zip_with decoded (take (S k) (r :: rs)) (take (S k) (f :: fs)).
Proof.
  intros Ha Hl. unfold page_frames.
  assert (Hne : admit_frames to_vec from_slice CAS_BUDGET (take 256 (zip_with decoded (r :: rs) (f :: fs))) <> []).
  { simpl. unfold within_budget in Ha. simpl. destruct (decode_validated_record_body _ _ _) as [[body []]|]; cbv zeta; [|done].
    match goal with |- context [if ?b then _ else _] => destruct b eqn:Eb end; [|done]. apply N.ltb_lt in Eb. lia. }
  assert (Hp : admit_frames to_vec from_slice CAS_BUDGET (take 256 (zip_with decoded (r :: rs) (f :: fs)))
    `prefix_of` zip_with decoded (r :: rs) (f :: fs)) by (etransitivity; [apply admit_frames_prefix|apply prefix_take]).
  remember (admit_frames _ _ _ _) as page eqn:E. clear E. destruct page as [|d page]; [done|].
  exists (length page). split.
  { apply prefix_length in Hp. rewrite length_zip_with in Hp. simpl in Hp. lia. }
  rewrite <-zip_with_take. destruct Hp as [y ->].
  change (S (length page)) with (length (d :: page)). by rewrite take_app_length.
Qed.

Lemma zip_decoded_empty rs fs : length rs = length fs -> rs <> [] -> is_empty (zip_with decoded rs fs) = false.
Proof. by destruct rs, fs. Qed.

Lemma written_length rs fs : Forall2 (written sha256_digest) rs fs -> length rs = length fs.
Proof. apply Forall2_length. Qed.

(** One page, from the end of some frames on: at least one frame, and the cursor is
    their end. *)
Lemma read_page f path i n off fs1 rs fs preserve cursor :
  live f !! path = Some i -> inodes f !! i = Some n ->
  data n = concat fs1 ++ concat fs -> (blen (data n) <= U64_MAX)%N ->
  Forall2 (written sha256_digest) rs fs -> rs <> [] -> Forall within_budget rs ->
  off = blen (concat fs1) ->
  match cursor with Some c => SpoolReadCursor.offset c = off | None => off = 0%N end ->
  exists k, let page := take (S k) fs in
    read_segment to_vec from_slice (Some cursor) preserve (path, i, metadata_of f i n) (mkWorld f []) =
      Done (Ok (SealedSegment.mk path i (device f) i (blen (data n)) (placed off (take (S k) rs) page)
        (off + blen (concat page)) (segment_identity (metadata_of f i n)))) (mkWorld f []).
Proof.
  intros Hp Hn Hd Hmax Hw Hne Ha Hoff Hcur. unfold read_segment. cbn [fst snd page_cursor is_some].
  assert (match cursor with Some c => SpoolReadCursor.offset c | None => 0%N end = off) as -> by (by destruct cursor).
  cbv zeta. cbn [len dev ino metadata_of].
  assert (Hlen : blen (data n) = (off + blen (concat fs))%N) by (by rewrite Hd, blen_app, Hoff).
  erewrite bind_ok; [|apply refuse_calm, N.ltb_ge; lia].
  replace (blen (data n) - off)%N with (blen (concat fs)) by lia.
  set (m := N.min (blen (concat fs)) MAX_PENDING).
  assert (Hread : sub_bytes off m (data n) = take (N.to_nat m) (concat fs)).
  { unfold sub_bytes. by rewrite Hd, drop_N_app. }
  erewrite bind_ok; [|apply map_io_calm; rewrite Hn, Hread; reflexivity].
  assert (Hsplit : frames_of (take (N.to_nat m) (concat fs) ++ drop (N.to_nat m) (concat fs)) rs)
    by (rewrite take_drop; by exists fs).
  apply scan_part in Hsplit as (q & qs & rest & E & (gs & -> & Hgs) & Ht & (s & Hs & _ & _ & _) & rs' & -> & Hrest).
  assert (Hpre : gs `prefix_of` fs /\ qs `prefix_of` (qs ++ rs')).
  { split; [|by exists rs']. apply Forall2_app_inv_l in Hw as (f1 & f2 & Hf1 & Hf2 & ->).
    assert (f1 = gs) as ->; [|by exists f2]. clear -Hgs Hf1. revert f1 Hf1.
    induction Hgs as [|r g rs gs H _ IH]; intros f1 H1; inversion H1; subst; [done|].
    f_equal; [by eapply written_inj|by apply IH]. }
  destruct Hpre as [[fs' ->] _].
  pose proof (written_length _ _ Hgs) as Hlg. pose proof (written_length _ _ Hw) as Hlw.
  rewrite !length_app in Hlw.
  pose proof (scan_written sha256_digest qs gs rest sha256_length Hgs Ht) as Hscan. rewrite <-E in Hscan.
  rewrite Hscan. cbn [frames incomplete_tail].
  assert (Hm : (blen (take (N.to_nat m) (concat (gs ++ fs'))) = m)%N).
  { unfold blen. rewrite length_take. unfold blen in m. lia. }
  assert (Hqs : qs <> []).
  { intros ->. destruct gs; [|done]. simpl in *. destruct rs' as [|r rs']; [done|].
    inversion Hw as [|? g ? gs' Hg Hw']; subst. simpl in *.
    pose proof (frame_bound _ _ _ sha256_length (proj2 Hg)) as Hb.
    assert (Hge : (blen g <= m)%N) by (unfold m; rewrite blen_app; unfold MAX_FRAME, MAX_PENDING in *; lia).
    assert (take (N.to_nat m) (g ++ concat gs') = g ++ take (N.to_nat m - length g) (concat gs')) as E2.
    { rewrite take_app_ge; [done|]. unfold blen in Hge. lia. }
    rewrite E2 in Ht. apply (written_nonempty _ sha256_length _ _ Hg).
    apply (torn_frames g [r]); [|by apply frames_of_one]. eapply torn_prefix; [exact Ht|]. by eexists. }
  rewrite (zip_decoded_empty qs gs) by done. rewrite orb_false_r.
  assert (Hbad : (m =? blen (concat (gs ++ fs')))%N && negb (is_empty rest) = false).
  { destruct (N.eqb_spec m (blen (concat (gs ++ fs')))) as [Em|]; [|done]. simpl. apply negb_false_iff, is_empty_true.
    rewrite take_ge in E by (unfold blen in Em; lia).
    apply (torn_frames rest rs'); [done|]. rewrite drop_ge in Hrest by (unfold blen in Em; lia).
    by rewrite app_nil_r in Hrest. }
  rewrite Hbad, andb_false_r. cbn [frame_result map_err].
  erewrite bind_ok; [|by apply frame_result_calm]. cbn [frames incomplete_tail].
  rewrite (zip_decoded_empty qs gs), Hbad by done.
  erewrite bind_ok; [|by apply refuse_calm].
  destruct qs as [|r qs]; [done|]. destruct gs as [|g gs]; [done|].
  destruct (page_frames_some cursor r qs g gs) as (k & Hk & Hpage); [by inversion Ha|by injection Hlg|].
  rewrite Hpage. clear Hpage. injection Hlg as Hlg.
  assert (Htk : forall {A} (l l' : list A), length l = S (length qs) -> take (S k) (l ++ l') = take (S k) l).
  { intros A l l' Hl. by rewrite take_app_le by (rewrite Hl; lia). }
  exists k. rewrite (Htk _ (r :: qs)), (Htk _ (g :: gs)) by (simpl; congruence).
  assert (Hfit : (blen (concat (take (S k) (g :: gs))) <= blen (concat ((g :: gs) ++ fs')))%N).
  { rewrite <-(take_drop (S k) (g :: gs)) at 2. rewrite !concat_app, !blen_app. lia. }
  erewrite bind_ok; [|rewrite place_frames_ok; [reflexivity|lia|by rewrite !length_take; simpl; rewrite Hlg]].
  cbn [fst snd]. erewrite bind_ok; [|by apply refuse_calm].
  erewrite bind_ok; [|by apply check_identity_calm]. done.
Qed.

(** The pages of a sealed segment are its frames, once each and in order.  When
    every page starts at the cursor the previous one gave, the pages of a segment of
    complete frames are together exactly its records at their places, from byte 0 to
    the end, and no page is empty: reading ends within one page per record.  This
    needs that no single record exceeds the budget of a page. *)
Theorem pages_tile f path i n rs fs preserve :
  live f !! path = Some i -> inodes f !! i = Some n ->
  data n = concat fs -> (blen (data n) <= U64_MAX)%N ->
  Forall2 (written sha256_digest) rs fs -> rs <> [] -> Forall within_budget rs ->
  read_pages preserve (path, i, metadata_of f i n) (length rs) None (mkWorld f [])
    = Done (Ok (placed 0 rs fs)) (mkWorld f []).
Proof.
  intros Hp Hn Hd Hmax Hw Hne Ha.
  assert (Hgen : forall fuel cursor rs1 fs1 rs2 fs2, rs = rs1 ++ rs2 -> fs = fs1 ++ fs2 -> length rs1 = length fs1 ->
    rs2 <> [] -> (length rs2 <= fuel)%nat ->
    match cursor with Some c => SpoolReadCursor.offset c = blen (concat fs1) | None => blen (concat fs1) = 0%N end ->
    read_pages preserve (path, i, metadata_of f i n) fuel cursor (mkWorld f [])
      = Done (Ok (placed (blen (concat fs1)) rs2 fs2)) (mkWorld f [])).
  { induction fuel as [|fuel IH]; intros cursor rs1 fs1 rs2 fs2 Ers Efs Hl1 Hne2 Hfuel Hcur.
    { destruct rs2; [done|simpl in Hfuel; lia]. }
    assert (Hw2 : Forall2 (written sha256_digest) rs2 fs2).
    { subst rs fs. by apply Forall2_app_inv in Hw as [_ ?]. }
    assert (Ha2 : Forall within_budget rs2) by (subst rs; by apply Forall_app in Ha as [_ ?]).
    destruct (read_page f path i n (blen (concat fs1)) fs1 rs2 fs2 preserve cursor) as [k Hpage];
      [done|done|by rewrite Hd, Efs, concat_app|done..|].
    cbn [read_pages]. erewrite bind_ok; [|exact Hpage]. unfold continuation.
    cbn [SealedSegment.end_offset SealedSegment.length SealedSegment.frames SealedSegment.path SealedSegment.identity].
    cbv zeta.
    pose proof (written_length _ _ Hw2) as Hl2.
    assert (Htot : blen (data n) = (blen (concat fs1) + blen (concat (take (S k) fs2)) + blen (concat (drop (S k) fs2)))%N).
    { rewrite Hd, Efs, <-(take_drop (S k) fs2) at 1. rewrite !concat_app, !blen_app. lia. }
    destruct (decide (drop (S k) rs2 = [])) as [Hend|Hmore].
    - assert (Hfe : drop (S k) fs2 = []).
      { apply nil_length_inv. apply (f_equal length) in Hend. rewrite !length_skipn in *. change (length []) with 0%nat in Hend. lia. }
      rewrite Hfe in Htot. change (blen (concat [])) with 0%N in Htot. rewrite (proj2 (N.eqb_eq _ _)) by lia.
      pose proof (take_drop (S k) rs2) as E1. pose proof (take_drop (S k) fs2) as E2.
      rewrite Hend, app_nil_r in E1. rewrite Hfe, app_nil_r in E2. by rewrite E1, E2.
    - assert (Hpos : (0 < blen (concat (drop (S k) fs2)))%N).
      { pose proof (Forall2_drop _ _ _ (S k) Hw2) as Hwd. inversion Hwd as [|r' g' ? ? Hg Hrest Eq1 Eq2]; [congruence|].
        simpl. rewrite blen_app. pose proof (written_nonempty _ sha256_length _ _ Hg). unfold blen. destruct g'; [done|]. simpl. lia. }
      destruct (N.eqb_spec (blen (concat fs1) + blen (concat (take (S k) fs2))) (blen (data n))); [lia|].
      erewrite bind_ok; [|apply (IH _ (rs1 ++ take (S k) rs2) (fs1 ++ take (S k) fs2) (drop (S k) rs2) (drop (S k) fs2));
        [by rewrite <-app_assoc, take_drop|by rewrite <-app_assoc, take_drop
        |rewrite !length_app, !length_take; lia|done|rewrite length_drop; lia|by rewrite concat_app, blen_app]].
      unfold ret. do 2 f_equal. rewrite concat_app, blen_app.
      rewrite <-(placed_app (blen (concat fs1)) (take (S k) rs2)) by (rewrite !length_take; lia).
      by rewrite !take_drop. }
  by apply (Hgen (length rs) None [] []).
Qed.
End reading.
