(* ===== verification/SpoolTheorems.v ===== *)
(** * What the spool promises

    A trace is any sequence of the spool's operations, each under any faults and cut
    at any crash point, with power losses in between.  The theorems: an acknowledged
    record survives every trace until the daemon acknowledges its segment; the main
    directory stays within its limits; the incremental check of the active segment is
    the one-pass check; and two executions in which the code promises more than it
    keeps.

    Runs of the spool on a small machine: the theorems of [SpoolTheorems],
    [SpoolReading] and [SpoolBounds] applied to them, and the run in which an
    acknowledged record is lost. *)

From stdpp Require Import relations.
From S2P Require Import Prelude Order Collections Text Canonical SpoolFrame Ids Lane Attempt Evidence CaptureBody GapMarker Fs Spool SpoolFacts SpoolOpsFacts SpoolReading.

Module SpoolTheorems.

Section traces.
Context `{SHA : Sha256} `{ShaLen : !Sha256Length} `{L : UuidLib}.
Context (to_vec : CaptureRecordBody -> option (list byte)) (from_slice : list byte -> option CaptureRecordBody).

(** One operation of some process on the spool, or an event outside.  A record is
    owed once its append has returned, unless the active segment was there without
    its directory entry having been forced to the disk. *)
Inductive spool_step : Fs * Owed -> Fs * Owed -> Prop :=
| step_open f owed l o :
    spool_step (f, owed) (state_of (open_spool l (mkWorld f o)), owed)
| step_recover f owed self o :
    spool_step (f, owed) (state_of (recover self (mkWorld f o)), owed)
| step_append f owed self r o : record_ok r ->
    spool_step (f, owed) (state_of (append self r (mkWorld f o)), owed)
| step_acknowledged f owed self r o x w i : record_ok r ->
    append self r (mkWorld f o) = Done (Ok x) w -> live f !! active_path = None \/ anchored f ->
    live (fs w) !! active_path = Some i -> spool_step (f, owed) (fs w, (i, r) :: owed)
| step_isolated f owed self r hint o : record_ok r ->
    spool_step (f, owed) (state_of (append_isolated_sealed self r hint (mkWorld f o)), owed)
| step_isolated_acknowledged f owed self r hint o segment w : record_ok r ->
    append_isolated_sealed self r hint (mkWorld f o) = Done (Ok segment) w ->
    spool_step (f, owed) (fs w, (SealedSegment.inode segment, r) :: owed)
| step_seal f owed self generation o :
    spool_step (f, owed) (state_of (seal_active self generation (mkWorld f o)), owed)
| step_claim f owed self limit isolated page preserve o :
    spool_step (f, owed)
      (state_of (claimed_segments_inner to_vec from_slice self limit isolated page preserve (mkWorld f o)), owed)
| step_acknowledge f owed segment committed o :
    spool_step (f, owed)
      (state_of (acknowledge_segment segment committed (mkWorld f o)), released (SealedSegment.inode segment) owed)
| step_acknowledge_quarantine f owed handle o :
    spool_step (f, owed)
      (state_of (acknowledge_quarantine handle (mkWorld f o)), released (PendingQuarantine.inode handle) owed)
| step_marker f owed self marker o :
    spool_step (f, owed) (state_of (write_gap_marker self marker (mkWorld f o)), owed)
| step_acknowledge_marker f owed handle nonblocking o : (PendingGapMarker.path handle).1 = EmergencyDir ->
    spool_step (f, owed) (state_of (acknowledge_gap_marker_inner handle nonblocking (mkWorld f o)), owed)
| step_close f owed i : spool_step (f, owed) (release i f, owed)
| step_power_loss f g owed : power_loss f g -> spool_step (f, owed) (g, owed).

Lemma step_inv s t : spool_step s t -> Inv s.2 s.1 -> Inv t.2 t.1.
Proof.
  intros Hst H. destruct Hst; simpl in *.
  - apply wp_state. by apply open_spool_spec.
  - apply wp_state. by apply recover_spec.
  - apply wp_state. eapply wp_mono; [by apply append_spec|by intros ? ? []|done].
  - pose proof (append_spec owed f self r H H0 o) as Hs. rewrite H1 in Hs.
    destruct Hs as [Hg (j & frame & Ha)].
    assert (j = i) as -> by (rewrite (appended_entry _ _ _ _ _ _ Ha), lookup_insert_eq in H3; congruence).
    eapply inv_appended; [done|exact Ha|]. by apply (appended_anchored _ _ _ _ _ _ Ha).
  - apply wp_state. eapply wp_mono; [apply append_isolated_spec; [done..|]|by intros ? ? []|done].
    apply Forall_forall. intros [i q] Hin. destruct (inv_kept _ _ H i q Hin) as (n & Hn & _). by exists n.
  - assert (Hf : Forall (fun p => is_Some (inodes f !! p.1)) owed).
    { apply Forall_forall. intros [i q] Hin. destruct (inv_kept _ _ H i q Hin) as (n & Hn & _). by exists n. }
    pose proof (append_isolated_spec owed f self r hint H H0 Hf o) as Hs. rewrite H1 in Hs.
    destruct Hs as (Hg & ((n & Hn & Hk) & He) & Hd). eapply inv_owe; [done..|].
    intros e Hin. specialize (He e Hin). destruct (SealedSegment.path segment) as [d name]. simpl in *.
    exists d, name. split; [by left|done].
  - apply wp_state. by apply seal_active_spec.
  - apply wp_state. by apply claimed_segments_spec.
  - apply wp_state. by apply acknowledge_segment_spec.
  - apply wp_state. by apply acknowledge_quarantine_spec.
  - apply wp_state. eapply wp_mono; [by apply write_gap_marker_spec|by intros ? ? []|done].
  - apply wp_state. by apply acknowledge_gap_marker_spec.
  - by apply inv_flocks.
  - by eapply inv_power_loss.
Qed.

(** A file system before the spool's first use. *)
Definition unused (f : Fs) : Prop := disk f = ∅ /\ pending f = [].

Lemma unused_inv f : unused f -> Inv [] f.
Proof.
  intros [Hd Hp]. split; [|by intros ? ? ?%not_elem_of_nil]. intros e [k ->]. rewrite Hd, Hp, take_nil. simpl.
  split; [by intros ? ? ? ?|by intros ? ? ?%not_elem_of_nil].
Qed.

Lemma reachable_inv s t : rtc spool_step s t -> Inv s.2 s.1 -> Inv t.2 t.1.
Proof. induction 1 as [|x y z Hxy _ IH]; [done|]. intros. by eapply IH, step_inv. Qed.

(** Where an owed record is found: in a file of the main directory or the quarantine,
    whose scan succeeds. *)
Definition found (f : Fs) (i : N) (r : SpoolRecord) : Prop :=
  exists d name n s, carrier d /\ live f !! (d, name) = Some i /\ inodes f !! i = Some n /\
    scan_frames sha256_digest (data n) = Ok s /\ r ∈ record <$> frames s.

Lemma inv_found owed f i r : Inv owed f -> (i, r) ∈ owed -> found f i r.
Proof.
  intros H Hin. destruct (inv_live _ _ H) as [_ Hl]. destruct (Hl i r Hin) as (d & name & Hd & Hb).
  destruct (inv_bound _ _ _ _ _ H Hd Hb) as (n & Hn & _ & Hf & _).
  destruct (inv_kept _ _ H i r Hin) as (n' & Hn' & (q & Hq & Hd' & _)). simplify_eq.
  destruct (framed_scan _ Hf) as (_ & _ & _ & s & _ & _ & _ & Hs & _).
  exists d, name, n, s. split_and!; [done..|]. eapply holds_scanned; [by exists q|done].
Qed.

(** C3: an owed record is never lost.  A record is owed from the moment its append
    returns, if that append found no active segment or one whose directory entry had
    been forced, or its isolated append returns, whatever that one found; it is owed
    until [acknowledge_segment] releases its segment, or [acknowledge_quarantine] its
    quarantined carrier.  In every trace from an unused spool — operations of any
    processes under any faults, cut at any crash point, with power losses anywhere — and
    after one more power loss at the end, an owed record lies in a file of the main
    directory or the quarantine, and the scanner finds it there.  ([unforced_entry_lost]
    is what happens to an append that is left out.) *)
Theorem acknowledged_record_survives f0 f g owed i r :
  unused f0 -> rtc spool_step (f0, []) (f, owed) -> power_loss f g -> (i, r) ∈ owed -> found g i r.
Proof.
  intros Hu Ht Hp Hin. apply (inv_found owed); [|done]. eapply inv_power_loss; [|exact Hp].
  apply (reachable_inv _ _ Ht). by apply unused_inv.
Qed.

(** ** Repair *)

Lemma owned_metadata_calm f i n :
  own f n -> validate_owned_file_metadata (metadata_of f i n) (mkWorld f []) = Done (Ok tt) (mkWorld f []).
Proof.
  intros (Ht & Hu & Hm). unfold validate_owned_file_metadata.
  erewrite bind_ok; [|apply refuse_calm; by apply negb_false_iff, bool_decide_eq_true].
  erewrite bind_ok; [|by apply map_io_calm].
  erewrite bind_ok; [|apply refuse_calm; by apply negb_false_iff, N.eqb_eq].
  apply refuse_calm. by apply negb_false_iff.
Qed.

Lemma owned_file_calm f p i n :
  live f !! p = Some i -> inodes f !! i = Some n -> own f n ->
  validate_owned_file p i (mkWorld f []) = Done (Ok tt) (mkWorld f []).
Proof.
  intros Hp Hn Ho. unfold validate_owned_file.
  erewrite bind_ok; [|apply map_io_calm; rewrite Hp; unfold stat_inode; by rewrite Hn].
  erewrite bind_ok; [|apply map_io_calm; unfold stat_inode; by rewrite Hn].
  erewrite bind_ok; [|by apply owned_metadata_calm]. erewrite bind_ok; [|by apply owned_metadata_calm].
  apply refuse_calm. cbn. by rewrite !N.eqb_refl.
Qed.

(** The active segment [i] cut to [p], and the cut forced to the disk. *)
Definition repaired (f : Fs) (i : N) (p : list byte) : Fs :=
  let h := alter_data i (take (length p)) f in set_inodes h (alter with_synced i (inodes h)).

(** C20: recovery repairs the active segment.  In every state the spool can be in, with
    an active segment there, the repair of a fault-free [recover] succeeds: it keeps
    exactly the complete frames, reports the bytes it cut off and the new length as
    the watermark, forces the cut to the disk, and leaves a segment that the check of
    the next [append] accepts whenever it is within the limit. *)
Theorem recover_repairs owed f i n w :
  Inv owed f -> live f !! active_path = Some i -> inodes f !! i = Some n ->
  exists p rs tail g n', data n = p ++ tail /\ frames_of p rs /\ torn sha256_digest tail /\
    recover_active w (mkWorld f []) = Done (Ok (blen p, blen tail)) (mkWorld g []) /\
    live g = live f /\ inodes g !! i = Some n' /\ data n' = p /\ (tail <> [] -> synced n' = p) /\
    forall max, (blen p <= max)%N ->
      validate_active_file active_path i max (mkWorld g []) = Done (Ok tt) (mkWorld g []).
Proof.
  intros H Hl Hn. destruct (inv_bound owed f MainDir ACTIVE_NAME i H ltac:(by left) Hl) as (m & Hm & Ho & Hf & _).
  assert (m = n) as -> by congruence.
  destruct (framed_scan _ Hf) as (p & rs & tail & s & Hd & Hp & Ht & Hs & _ & Hc & Hi).
  assert (Hrun : recover_active w (mkWorld f []) =
    if is_empty tail then Done (Ok (blen p, 0%N)) (mkWorld f [])
    else Done (Ok (blen p, blen tail))
      (mkWorld (repaired f i p) [])).
  { unfold recover_active. erewrite bind_ok; [|unfold attempt, symlink_metadata; rewrite query_calm, Hl; unfold stat_inode; by rewrite Hn].
    cbv beta iota. erewrite bind_ok; [|by apply owned_metadata_calm].
    erewrite bind_ok; [|apply map_io_calm; unfold open_act; rewrite Hl; unfold resolve; rewrite Hn; destruct Ho as [-> _]; done].
    erewrite bind_ok; [|by apply (owned_file_calm f active_path i n)].
    erewrite bind_ok; [|apply map_io_calm; by rewrite Hn].
    rewrite Hs, Hi, Hc. destruct tail as [|b tail]; [done|]. cbn [is_empty negb].
    unfold bind, map_io, map_io_err, set_len, sync_data, syscall. cbn [fs oracle].
    replace (N.to_nat (blen p)) with (length p) by (unfold blen; lia). cbn [map_err].
    assert (blen (data n) - blen p = blen (b :: tail))%N as -> by (rewrite Hd, blen_app; lia). done. }
  rewrite Hrun. destruct tail as [|b tail].
  - rewrite app_nil_r in Hd. subst p. exists (data n), rs, [], f, n. rewrite app_nil_r. split_and!; try done.
    intros max Hmax. eapply (active_check_one_pass f active_path i n max Hl Hn). split; [done|].
    exists s. by rewrite Hs, Hi.
  - set (g := repaired f i p). set (n' := with_synced (with_data n (clock f) p)).
    assert (Hn' : inodes g !! i = Some n').
    { unfold g, repaired, alter_data. simpl. rewrite !lookup_alter_eq, Hn. simpl. unfold n'. do 3 f_equal.
      by rewrite Hd, take_app_length. }
    exists p, rs, (b :: tail), g, n'. split_and!; try done.
    intros max Hmax. eapply (active_check_one_pass g active_path i n' max Hl Hn'). split; [done|].
    destruct Hp as (fs & -> & Hfs). pose proof (scan_written sha256_digest rs fs [] sha256_length Hfs torn_nil) as Hs'.
    rewrite app_nil_r in Hs'. eexists. split; [exact Hs'|done].
Qed.

(** ** A torn gap marker *)

(** Slot [slot] holds a part of a marker's encoding: what a crash in [write_gap_marker] leaves. *)
Definition torn_slot (f : Fs) (slot : N) : Prop :=
  exists i n m p q, live f !! slot_path slot = Some i /\ inodes f !! i = Some n /\ own f n /\
    encode_marker m = Ok (p ++ q) /\ q <> [] /\ data n = p.

Definition never {E A} (m : IO E A) (f : Fs) : Prop := forall o a w, m (mkWorld f o) <> Done (Ok a) w.

Lemma reads_never {E A} (m : IO E A) f : reads m (yields (fun g _ => g <> f)) -> never m f.
Proof. intros H o a w Hr. specialize (H f o). rewrite Hr in H. by destruct H. Qed.

Lemma never_bind {E A B} (m : IO E A) (k : A -> IO E B) P f :
  reads m (yields P) -> (forall a, P f a -> never (k a) f) -> never (bind m k) f.
Proof.
  intros Hm Hk o a w Hr. unfold bind in Hr. specialize (Hm f o). destruct (m _) as [[x|] [g o']|]; try done.
  destruct Hm as [Hg Hp]. simpl in Hg. subst g. by apply (Hk x Hp o' a w).
Qed.

Lemma never_raise {E A} (e : E) f : never (A := A) (raise e) f.
Proof. by intros o a w. Qed.

(** Reading the torn slot gives the torn bytes, or fails from outside. *)
Lemma torn_slot_open f slot o r w :
  torn_slot f slot -> open_file (slot_path slot) (mkWorld f o) = Done r w -> fs w = f /\
  ((exists i, r = Ok i /\ exists n, inodes f !! i = Some n /\ decode_marker (data n) = Err SpoolError.Corrupt) \/
   exists k, r = Err (fault_kind k)).
Proof.
  intros (i & n & m & p & q & Hl & Hn & (Ht & _) & He & Hq & Hd) Hr.
  pose proof (reads_query (open_act (slot_path slot)) f o) as H. unfold open_file in Hr. rewrite Hr in H.
  destruct H as [Hw H]. split; [done|]. unfold open_act, resolve in H. rewrite Hl, Hn, Ht in H.
  destruct H as [->|[k ->]]; [left|right; by exists k]. exists i. split; [done|]. exists n. split; [done|].
  rewrite Hd. by eapply GapMarkerTheorems.torn_marker.
Qed.

Lemma never_read_markers f slot l ms : torn_slot f slot -> slot ∈ l -> never (read_markers l ms) f.
Proof.
  intros Ht. revert ms. induction l as [|s l IH]; intros ms Hin; [by apply not_elem_of_nil in Hin|]. cbn [read_markers].
  intros o a w Hr. unfold bind at 1 in Hr.
  destruct (attempt _ _) as [[r|e] [g o']|] eqn:E; [|done..].
  assert (fs (mkWorld g o') = f /\ (s = slot -> forall ms', r <> Err NotFound /\
    never (match r with Ok bytes => let! marker := lift (decode_marker bytes) in read_markers l (ms' ++ [marker])
           | Err NotFound => read_markers l ms' | Err _ => raise SpoolError.Io end) f)) as [Hg Hs].
  { unfold attempt, bind in E. destruct (open_file (slot_path s) _) as [[i|k] [g1 o1]|g1] eqn:Eo; [| |done].
    - destruct (read_to_end i _) as [r' [g2 o2]|] eqn:Er; [|done]. injection E as <- <- <-.
      pose proof (reads_query (open_act (slot_path s)) f o) as Ho. unfold open_file in Eo. rewrite Eo in Ho.
      destruct Ho as [Hg1 _]. simpl in Hg1. subst g1.
      pose proof (reads_query (fun f => match inodes f !! i with Some n => Ok (data n) | None => Err OtherError end) f o1) as Hread.
      unfold read_to_end in Er. rewrite Er in Hread. destruct Hread as [Hg2 Hread]. split; [done|].
      intros -> ms'. destruct (torn_slot_open f slot o _ _ Ht Eo) as [_ [(j & [= <-] & n & Hn & Hd)|[k Hk]]]; [|done].
      rewrite Hn in Hread. destruct Hread as [->|[k ->]].
      + split; [done|]. intros o3 a3 w3. unfold bind, lift. by rewrite Hd.
      + split; [by destruct k|]. destruct k; apply never_raise.
    - injection E as <- <- <-. pose proof (reads_query (open_act (slot_path s)) f o) as Ho. unfold open_file in Eo.
      rewrite Eo in Ho. destruct Ho as [Hg1 _]. split; [done|]. intros -> ms'.
      destruct (torn_slot_open f slot o _ _ Ht Eo) as [_ [(j & ? & _)|[k' [= ->]]]]; [done|].
      split; [by destruct k'|]. destruct k'; apply never_raise. }
  simpl in Hg. subst g. destruct (decide (s = slot)) as [->|Hne].
  { by apply (proj2 (Hs eq_refl ms) o' a w). }
  apply elem_of_cons in Hin as [?|Hin]; [congruence|].
  destruct r as [bytes|[]]; try done; [|by apply (IH ms Hin o' a w)].
  unfold bind, lift in Hr. destruct (decode_marker bytes) as [m|]; [|done]. by apply (IH (ms ++ [m]) Hin o' a w).
Qed.

Lemma never_marker_handles f slot l limit hs :
  torn_slot f slot -> slot ∈ l -> (N.of_nat (length hs + length l) <= limit)%N -> never (marker_handles limit l hs) f.
Proof.
  intros Ht. revert hs. induction l as [|s l IH]; intros hs Hin Hlim; [by apply not_elem_of_nil in Hin|]. cbn [marker_handles].
  simpl in Hlim. destruct (N.eqb_spec (N.of_nat (length hs)) limit) as [|_]; [lia|]. cbv zeta.
  intros o a w Hr. unfold bind at 1 in Hr. unfold attempt at 1 in Hr.
  pose proof (reads_query (open_act (slot_path s)) f o) as Ho. fold (open_file (slot_path s)) in Ho.
  destruct (open_file (slot_path s) _) as [r [g o1]|] eqn:Eo; [|done]. destruct Ho as [Hg _]. simpl in Hg. subst g.
  destruct (decide (s = slot)) as [->|Hne].
  - destruct (torn_slot_open f slot o _ _ Ht Eo) as [_ [(i & -> & n & Hn & Hd)|[k ->]]]; [|by destruct k].
    revert Hr. eapply never_bind; [apply reads_owned_file|intros [] _].
    eapply never_bind; [apply reads_file_metadata|intros m _].
    eapply never_bind; [apply reads_read_to_end|]. intros b (n' & Hn' & ->). simplify_eq.
    intros o2 a2 w2. unfold bind, lift. by rewrite Hd.
  - apply elem_of_cons in Hin as [?|Hin]; [congruence|].
    destruct r as [i|[]]; try done; [|apply (IH hs Hin ltac:(lia) o1 a w Hr)].
    revert Hr. eapply never_bind; [apply reads_owned_file|intros [] _].
    eapply never_bind; [apply reads_file_metadata|intros m _].
    eapply never_bind; [apply reads_read_to_end|]. intros b _.
    intros o2 a2 w2. unfold bind, lift. destruct (decode_marker b) as [mk|]; [|done].
    apply IH; [done|]. rewrite length_app. simpl. lia.
Qed.

Lemma slots_elem self slot : slot ∈ slots self <-> (slot < SpoolLimits.emergency_slots (limits self))%N.
Proof.
  unfold slots. rewrite list_elem_of_fmap. split.
  - intros (k & -> & Hk%elem_of_seq). lia.
  - intros H. exists (N.to_nat slot). rewrite elem_of_seq. lia.
Qed.

Lemma torn_never_acknowledged f self slot id :
  torn_slot f slot -> (slot < SpoolLimits.emergency_slots (limits self))%N -> never (acknowledge_gap_marker self id) f.
Proof.
  intros Ht Hs%slots_elem o a w Hr. unfold acknowledge_gap_marker, bind in Hr.
  destruct (pending_gap_marker_handles _ _ _) as [[hs|] w'|] eqn:E; [|done..]. revert E.
  unfold pending_gap_marker_handles. eapply never_bind; [apply reads_refuse_false|intros [] _].
  eapply never_bind; [apply reads_directories|intros [] _]. eapply never_bind; [apply reads_lock_dir|intros [] _].
  apply (never_marker_handles f slot); [done..|]. unfold slots. rewrite length_fmap, length_seq. simpl. lia.
Qed.

End traces.
End SpoolTheorems.

(** ** Witnesses *)

Module SpoolWitnesses.
Import SpoolBounds SpoolTheorems.SpoolTheorems.
#[local] Existing Instance RefUuid.
#[local] Instance digest : Sha256 := zero_digest.
#[local] Instance digest_length : Sha256Length.
Proof. intros b. reflexivity. Qed.

Definition sample_limits : SpoolLimits := SpoolLimits.mk 10000 5000 8 4.
Definition self : DurableSpool := mkSpool sample_limits 0.
(** A machine with the empty directories of a spool. *)
Definition machine : Fs :=
  mkFs (list_to_map ((fun d => (d, mkDirNode true 1000 448)) <$> [RootDir; MainDir; EmergencyDir; QuarantineDir]))
    ∅ ∅ [] ∅ (0%Z, 0%Z) 1 1000.
Definition no_vec (b : CaptureRecordBody) : option (list byte) := None.
Definition no_body (l : list byte) : option CaptureRecordBody := None.
Definition second_record : SpoolRecord := mkSpoolRecord 1 "rec-2" "obs-2" [] [x03].

Lemma sample_ok : record_ok sample_record.
Proof. split_and!; vm_compute; (discriminate || reflexivity). Qed.

(** ** A record that is kept *)

Definition appended_state : Fs := state_of (append self sample_record (mkWorld machine [])).

Lemma acknowledged_record_survives_witness : found appended_state (fresh_ino machine) sample_record.
Proof.
  refine (acknowledged_record_survives no_vec no_body machine appended_state appended_state
    [(fresh_ino machine, sample_record)] (fresh_ino machine) sample_record _ _ _ _).
  - split; reflexivity.
  - apply rtc_once. eapply (step_acknowledged no_vec no_body machine [] self sample_record [] _
      (mkWorld appended_state [])); [apply sample_ok|vm_compute; reflexivity|left; reflexivity|vm_compute; reflexivity].
  - apply quiet_power_loss; [reflexivity|reflexivity|]. apply (bool_decide_unpack _). vm_compute. exact I.
  - left.
Defined.

Definition active : N := fresh_ino machine.
Definition active_inode : Inode := mkInode Regular 1000 384 (0, 0, 0, 0)%Z sample_frame sample_frame.

Lemma sample_written : written zero_digest sample_record sample_frame.
Proof. split; [apply sample_ok|vm_compute; reflexivity]. Qed.

Lemma active_check_one_pass_witness :
  validate_active_file active_path active 10000 (mkWorld appended_state []) = Done (Ok tt) (mkWorld appended_state []).
Proof.
  refine (proj2 (active_check_one_pass appended_state active_path active active_inode 10000 _ _) _).
  - vm_compute. reflexivity.
  - vm_compute. reflexivity.
  - split; [vm_compute; discriminate|].
    exists (mkFrameScan [decoded sample_record sample_frame] (blen sample_frame) false). split; vm_compute; reflexivity.
Defined.

Lemma pages_tile_witness :
  read_pages no_vec no_body false (active_path, active, metadata_of appended_state active active_inode) 1 None
    (mkWorld appended_state []) = Done (Ok (placed 0 [sample_record] [sample_frame])) (mkWorld appended_state []).
Proof.
  refine (pages_tile no_vec no_body appended_state active_path active active_inode [sample_record] [sample_frame] false
    _ _ _ _ _ _ _).
  - vm_compute. reflexivity.
  - vm_compute. reflexivity.
  - vm_compute. reflexivity.
  - vm_compute. discriminate.
  - constructor; [apply sample_written|constructor].
  - discriminate.
  - constructor; [exact I|constructor].
Defined.

Lemma append_bounded_witness :
  let g := state_of (append self sample_record (mkWorld machine [])) in
  (main_bytes g <= N.max (main_bytes machine) (high_watermark self))%N /\
  (main_files g <= N.max (main_files machine) (max_files self))%N.
Proof.
  refine (append_bounded machine self sample_record [] _ _ sample_ok).
  - intros name i H. discriminate H.
  - vm_compute. reflexivity.
Defined.

(** The machine dies while the second record is being written. *)
Definition torn_state : Fs :=
  state_of (append self second_record (mkWorld appended_state (replicate 23 Go ++ [Crash 30]))).
Definition torn_inode : Inode :=
  mkInode Regular 1000 384 (0, 0, 0, 0)%Z
    (match encode_frame zero_digest second_record with Ok f => sample_frame ++ take 30 f | Err _ => [] end) sample_frame.

Lemma second_ok : record_ok second_record.
Proof. split_and!; vm_compute; (discriminate || reflexivity). Qed.

Lemma torn_state_inv : Inv [] torn_state.
Proof.
  apply (reachable_inv no_vec no_body (machine, []) (torn_state, [])).
  - eapply rtc_l; [apply (step_append no_vec no_body machine [] self sample_record [] sample_ok)|].
    apply rtc_once. apply (step_append no_vec no_body appended_state [] self second_record _ second_ok).
  - apply unused_inv. by split.
Qed.

Lemma recover_repairs_witness :
  exists p rs tail g n', data torn_inode = p ++ tail /\ frames_of p rs /\ torn zero_digest tail /\
    recover_active 0 (mkWorld torn_state []) = Done (Ok (blen p, blen tail)) (mkWorld g []) /\
    live g = live torn_state /\ inodes g !! active = Some n' /\ data n' = p /\ (tail <> [] -> synced n' = p) /\
    forall max, (blen p <= max)%N ->
      validate_active_file active_path active max (mkWorld g []) = Done (Ok tt) (mkWorld g []).
Proof.
  refine (recover_repairs [] torn_state active torn_inode 0 torn_state_inv _ _); vm_compute; reflexivity.
Defined.

Example torn_bytes_cut : exists g, recover_active 0 (mkWorld torn_state []) = Done (Ok (blen sample_frame, 30%N)) (mkWorld g []).
Proof. eexists. vm_compute. reflexivity. Qed.

(** ** A torn marker *)

Definition sample_marker : CaptureGapMarker :=
  CaptureGapMarker.mk "gap-1" "source" "session" None (Some "tool"%string) GapReason.MainPressure
    (String.concat "" (replicate 16 "0af9"%string)) 512 0.
Definition marked_state : Fs :=
  state_of (write_gap_marker self sample_marker (mkWorld machine (replicate 5 Go ++ [Crash 20]))).
Definition marker_bytes : list byte := match encode_marker sample_marker with Ok b => b | Err _ => [] end.

Lemma marked_torn : torn_slot marked_state 0.
Proof.
  exists (fresh_ino machine), (mkInode Regular 1000 384 (0, 0, 0, 0)%Z (take 20 marker_bytes) []), sample_marker,
    (take 20 marker_bytes), (drop 20 marker_bytes).
  split_and!; [vm_compute; reflexivity|vm_compute; reflexivity| |rewrite take_drop; vm_compute; reflexivity
    |vm_compute; discriminate|vm_compute; reflexivity].
  split_and!; vm_compute; reflexivity.
Qed.

Lemma marker_round_trip_witness : decode_marker marker_bytes = Ok sample_marker.
Proof.
  refine (proj2 (GapMarkerTheorems.marker_round_trip marker_bytes sample_marker) _).
  split; [split_and!; vm_compute; (exact I || reflexivity || discriminate)|vm_compute; reflexivity].
Defined.

(** ** An acknowledged record that is lost *)

(** The process dies before the new segment's directory entry is forced; the daemon
    recovers, and the next record is acknowledged. *)
Definition died_state : Fs :=
  state_of (append self sample_record (mkWorld machine (replicate 18 Go ++ [Crash 0]))).
Definition recovered_state : Fs := state_of (open_spool sample_limits (mkWorld died_state [])).
Definition lossy_state : Fs := state_of (append self second_record (mkWorld recovered_state [])).
(** The power fails; the directory entry never reached the disk. *)
Definition lost_state : Fs :=
  mkFs (dirs lossy_state) (inodes lossy_state) ∅ [] ∅ (clock lossy_state) (device lossy_state) (euid lossy_state).

(** C29: an acknowledged record can be lost.  [append] forces the directory entry of
    the active segment only when it created the segment itself.  If the process that
    created it dies before that, the next process finds the segment there: opening the
    spool repairs it without forcing the entry, its [append] succeeds and reports a
    durable write, and a power loss then leaves no segment, nor any file with the
    record. *)
Theorem unforced_entry_lost :
  append self sample_record (mkWorld machine (replicate 18 Go ++ [Crash 0])) = Crashed died_state /\
  (exists opened w, open_spool sample_limits (mkWorld died_state []) = Done (Ok opened) w /\ fs w = recovered_state) /\
  (exists written w, append self second_record (mkWorld recovered_state []) = Done (Ok written) w /\ fs w = lossy_state) /\
  power_loss lossy_state lost_state /\ forall i, ~ found lost_state i second_record.
Proof.
  split; [vm_compute; reflexivity|]. split; [eexists _, (mkWorld recovered_state []); split; vm_compute; reflexivity|].
  split; [eexists _, (mkWorld lossy_state []); split; vm_compute; reflexivity|]. split.
  - assert (Hs : map_Forall (fun _ n => synced n = data n) (inodes lossy_state)) by (apply (bool_decide_unpack _); vm_compute; exact I).
    split; [by exists 0%nat|done|done| |done|done]. intros i. simpl. destruct (inodes lossy_state !! i) as [n|] eqn:E; constructor.
    split; [|by split_and!; [apply (Hs i n)|..]]. split; [by left|done].
  - intros i (d & name & n & s & _ & H & _). discriminate H.
Qed.
End SpoolWitnesses.
