(* ===== verification/Normalize.v ===== *)
(** * Physical normalisation (crates/evertrace-engine/src/normalize.rs)

    Source observations are grouped into host occurrences: one per exact
    correlation key, one per observation without such a key.  Executable
    occurrences give operations, their scope claims give effects, and calls that
    only the source can match are paired on one anchor.  A snapshot is
    renormalised against the previous one, so that identifiers are kept and
    revisions advance only where something changed. *)

From S2P Require Import Prelude Order Collections OrderedMap Text Canonical Ids Lane Journal Attempt Evidence.

(** ** Data *)

Module NormalizeError.
Inductive NormalizeError :=
| InvalidInput
| InvalidResult.
#[export] Instance eq_dec : EqDecision NormalizeError.
Proof. solve_decision. Defined.
End NormalizeError.
Abbreviation NormalizeError := NormalizeError.NormalizeError.
Export (hints) NormalizeError.

(** [.map_err(|_| NormalizeError::InvalidInput)] and its twin. *)
Definition invalid_input {E A} (m : result E A) : result NormalizeError A :=
  map_err (fun _ => NormalizeError.InvalidInput) m.
Definition invalid_result {E A} (m : result E A) : result NormalizeError A :=
  map_err (fun _ => NormalizeError.InvalidResult) m.

Module NormalizationWatermark.
Record NormalizationWatermark := mk {
  source_observation_id : SourceObservationId;
  resolver_version : N;
}.
#[export] Instance eq_dec : EqDecision NormalizationWatermark.
Proof. solve_decision. Defined.
End NormalizationWatermark.
Abbreviation NormalizationWatermark := NormalizationWatermark.NormalizationWatermark.
Export (hints) NormalizationWatermark.

Module JournalPayload.
(** The payloads normalisation records. *)
Inductive JournalPayload :=
| HostOccurrenceNormalized (_ : HostOccurrence)
| OperationDerived (_ : Operation)
| ScopeEffectDerived (_ : ScopeEffect)
| NormalizationWatermark (_ : NormalizationWatermark).
End JournalPayload.
Abbreviation JournalPayload := JournalPayload.JournalPayload.

Module NormalizationSnapshot.
Record NormalizationSnapshot := mk {
  occurrences : list HostOccurrence;
  operations : list Operation;
  scope_effects : list ScopeEffect;
}.
#[export] Instance eq_dec : EqDecision NormalizationSnapshot.
Proof. solve_decision. Defined.

Section snapshot.
Context `{SHA : Sha256} `{L : UuidLib}.

(** The loop over the effects; [effect_ids] are those seen so far. *)
Fixpoint validate_effects (operations : list (OperationId * Operation))
    (effect_ids : list ScopeEffectId) (effects : list ScopeEffect) : result NormalizeError unit :=
  match effects with
  | [] => Ok tt
  | effect :: effects =>
      do? invalid_result (ScopeEffect.validate effect) in
      do? guard (contains (ScopeEffect.scope_effect_id effect) effect_ids
                 || is_none (bmap_get (ScopeEffect.operation_id effect) operations))
            NormalizeError.InvalidResult in
      validate_effects operations (ScopeEffect.scope_effect_id effect :: effect_ids) effects
  end.

Definition effects_of (self : NormalizationSnapshot) (operation : OperationId) : list ScopeEffectId :=
  bset_of_list (omap (fun effect => if ScopeEffect.operation_id effect ==? operation
                                    then Some (ScopeEffect.scope_effect_id effect) else None)
                  (scope_effects self)).

Definition validate (self : NormalizationSnapshot) : result NormalizeError unit :=
  let occurrences_by_id := bmap_by HostOccurrence.host_occurrence_id (occurrences self) in
  let operations_by_id := bmap_by Operation.operation_id (operations self) in
  do? guard (negb (length occurrences_by_id =? length (occurrences self))%nat
             || negb (length operations_by_id =? length (operations self))%nat)
        NormalizeError.InvalidResult in
  do? for_each (fun occurrence => invalid_result (HostOccurrence.validate occurrence))
        (occurrences self) in
  do? for_each (fun operation =>
        do? invalid_result (Operation.validate operation) in
        guard (is_none (bmap_get (Operation.host_occurrence_id operation) occurrences_by_id))
          NormalizeError.InvalidResult) (operations self) in
  do? validate_effects operations_by_id [] (scope_effects self) in
  for_each (fun operation =>
    guard (effects_of self (Operation.operation_id operation)
           !=? bset_of_list (Operation.scope_effect_ids operation)) NormalizeError.InvalidResult)
    (operations self).

(** The resolver version of every observation, by identifier. *)
Definition resolver_by_observation (self : NormalizationSnapshot) : list (SourceObservationId * N) :=
  foldl (fun m e => bmap_insert e.1 e.2 m) []
    (occurrences self ≫= fun occurrence =>
       (fun id => (id, HostOccurrence.correlation_resolver_version occurrence))
         <$> HostOccurrence.source_observation_refs occurrence).

Definition payloads_of (self : NormalizationSnapshot) : list JournalPayload :=
  (JournalPayload.HostOccurrenceNormalized <$> occurrences self)
  ++ (JournalPayload.OperationDerived <$> operations self)
  ++ (JournalPayload.ScopeEffectDerived <$> scope_effects self)
  ++ ((fun e => JournalPayload.NormalizationWatermark (NormalizationWatermark.mk e.1 e.2))
        <$> resolver_by_observation self).

Definition journal_command (self : NormalizationSnapshot) (command_id : CommandId)
    (occurred_at_us : Z) (effective_config_hash : list byte) (algorithm_revision : string)
  : result NormalizeError (JournalCommand JournalPayload) :=
  do? validate self in
  do? guard ((occurred_at_us <? 0)%Z || str_is_empty algorithm_revision
             || (256 <? str_len algorithm_revision)%N) NormalizeError.InvalidInput in
  let events := (fun payload =>
    JournalEventDraft.mk occurred_at_us SourceKind.System EventScope.default None None
      effective_config_hash algorithm_revision payload) <$> payloads_of self in
  invalid_result (JournalCommand.new command_id events).
End snapshot.
End NormalizationSnapshot.
Abbreviation NormalizationSnapshot := NormalizationSnapshot.NormalizationSnapshot.
Export (hints) NormalizationSnapshot.

Module PartialTuple.
Record PartialTuple := mk {
  host_instance_id : option string;
  host_trace_lineage_id : option string;
  host_lane_key : option string;
  canonical_event_family : option CanonicalEventFamily;
  native_request_id : option string;
  physical_execution_ordinal : option N;
}.
Definition from (value : SourceObservation) : PartialTuple :=
  let c := SourceObservation.correlation value in
  mk (HostCorrelationEvidence.host_instance_id c) (HostCorrelationEvidence.host_trace_lineage_id c)
    (HostCorrelationEvidence.host_lane_key c) (HostCorrelationEvidence.canonical_event_family c)
    (HostCorrelationEvidence.native_request_id c)
    (HostCorrelationEvidence.physical_execution_ordinal c).
Definition key (self : PartialTuple) :=
  (host_instance_id self, (host_trace_lineage_id self, (host_lane_key self,
    (canonical_event_family self, (native_request_id self, physical_execution_ordinal self))))).
Lemma PartialTuple_key_inj x y : key x = key y -> x = y.
Proof. destruct x, y; unfold key; cbn; congruence. Qed.
#[export] Instance ord : Ord PartialTuple := Ord_by key PartialTuple_key_inj.
End PartialTuple.
Abbreviation PartialTuple := PartialTuple.PartialTuple.
Export (hints) PartialTuple.

Module ScopeClaimKey.
Record ScopeClaimKey := mk {
  effect_role : EffectRole;
  repository_instance_id : option RepositoryId;
  worktree_instance_id : option WorktreeId;
  pre_snapshot_id : option WorktreeSnapshotId;
  post_snapshot_id : option WorktreeSnapshotId;
  experiment_run_ids : list ExperimentRunId;
  artifact_refs : list WorkArtifactId;
}.
Definition key (self : ScopeClaimKey) :=
  (effect_role self, (repository_instance_id self, (worktree_instance_id self,
    (pre_snapshot_id self, (post_snapshot_id self, (experiment_run_ids self, artifact_refs self)))))).
Lemma ScopeClaimKey_key_inj x y : key x = key y -> x = y.
Proof. destruct x, y; unfold key; cbn; congruence. Qed.
#[export] Instance ord : Ord ScopeClaimKey := Ord_by key ScopeClaimKey_key_inj.
(** The key of a claim: its runs and artifacts sorted. *)
Definition of_claim (claim : ScopeEffectClaim) : ScopeClaimKey :=
  mk (ScopeEffectClaim.effect_role claim) (ScopeEffectClaim.repository_instance_id claim)
    (ScopeEffectClaim.worktree_instance_id claim) (ScopeEffectClaim.pre_snapshot_id claim)
    (ScopeEffectClaim.post_snapshot_id claim) (vec_sort (ScopeEffectClaim.experiment_run_ids claim))
    (vec_sort (ScopeEffectClaim.artifact_refs claim)).
(** The claim of a key and its collected evidence. *)
Definition to_claim (key : ScopeClaimKey) (evidence_refs : list SourceObservationId) : ScopeEffectClaim :=
  ScopeEffectClaim.mk (effect_role key) (repository_instance_id key) (worktree_instance_id key)
    (pre_snapshot_id key) (post_snapshot_id key) (experiment_run_ids key) (artifact_refs key)
    evidence_refs.
End ScopeClaimKey.
Abbreviation ScopeClaimKey := ScopeClaimKey.ScopeClaimKey.
Export (hints) ScopeClaimKey.

(** ** Helpers *)

Abbreviation id_of := SourceObservation.source_observation_id.
Abbreviation role_of := SourceObservation.observation_role.
Definition key_of (observation : SourceObservation) : option HostOccurrenceExactKey :=
  HostCorrelationEvidence.exact_key (SourceObservation.correlation observation).

Definition count_role (role : ObservationRole) (members : list SourceObservation) : nat :=
  length (List.filter (fun value => role_of value ==? role) members).

Definition pairing_state (members : list SourceObservation) (exact : bool) : PairingState :=
  let intents := count_role ObservationRole.Intent members in
  let results := count_role ObservationRole.Result members in
  if (1 <? intents)%nat || (1 <? results)%nat then PairingState.Conflicted
  else if exact && (intents =? 1)%nat && (results =? 1)%nat then PairingState.Paired
  else if (intents =? 1)%nat then PairingState.UnmatchedIntent
  else if (results =? 1)%nat then PairingState.UnmatchedResult
  else PairingState.NotApplicable.

Definition provenance_le (left right : FieldProvenanceEntry) : bool :=
  leb_ord (FieldProvenanceEntry.field left, FieldProvenanceEntry.source_observation_ref left)
    (FieldProvenanceEntry.field right, FieldProvenanceEntry.source_observation_ref right).

Definition provenance (members : list SourceObservation) : list FieldProvenanceEntry :=
  sort_by provenance_le
    (members ≫= fun observation =>
       (fun claim => FieldProvenanceEntry.mk (CorrelationFieldClaim.field claim) (id_of observation)
                       (CorrelationFieldClaim.source_ref claim)
                       (CorrelationFieldClaim.evidence_ref claim))
         <$> HostCorrelationEvidence.field_provenance (SourceObservation.correlation observation)).

Definition conflicting_partial_refs (observations : list SourceObservation) : list string :=
  let values := foldl (fun values observation =>
    match HostCorrelationEvidence.partial_correlation_ref (SourceObservation.correlation observation) with
    | Some reference =>
        bmap_alter (fun tuples => bset_insert (PartialTuple.from observation) (default [] tuples))
          reference values
    | None => values
    end) [] observations in
  bset_of_list (omap (fun e : string * list PartialTuple =>
                        if (1 <? length e.2)%nat then Some e.1 else None) values).

(** [insert] and [extend] on the evidence of the claims with the same key. *)
Definition merge_claim (observation : SourceObservationId)
    (claims : list (ScopeClaimKey * list SourceObservationId)) (claim : ScopeEffectClaim)
  : list (ScopeClaimKey * list SourceObservationId) :=
  bmap_alter (fun evidence =>
      foldl (fun evidence id => bset_insert id evidence) (bset_insert observation (default [] evidence))
        (ScopeEffectClaim.evidence_refs claim))
    (ScopeClaimKey.of_claim claim) claims.

Fixpoint merge_claims (observation : SourceObservationId)
    (claims : list (ScopeClaimKey * list SourceObservationId)) (l : list ScopeEffectClaim)
  : result NormalizeError (list (ScopeClaimKey * list SourceObservationId)) :=
  match l with
  | [] => Ok claims
  | claim :: l =>
      do? invalid_input (ScopeEffectClaim.validate claim) in
      merge_claims observation (merge_claim observation claims claim) l
  end.

Fixpoint merge_observations (claims : list (ScopeClaimKey * list SourceObservationId))
    (observations : list SourceObservation)
  : result NormalizeError (list (ScopeClaimKey * list SourceObservationId)) :=
  match observations with
  | [] => Ok claims
  | observation :: observations =>
      let? claims := merge_claims (id_of observation) claims
                       (SourceObservation.scope_effect_claims observation) in
      merge_observations claims observations
  end.

Definition merge_scope_claims (observations : list SourceObservation)
  : result NormalizeError (list ScopeEffectClaim) :=
  let? claims := merge_observations [] observations in
  Ok ((fun e => ScopeClaimKey.to_claim e.1 e.2) <$> claims).

Definition effect_matches_claim (effect : ScopeEffect) (claim : ScopeEffectClaim) : bool :=
  (ScopeEffect.effect_role effect ==? ScopeEffectClaim.effect_role claim)
  && (ScopeEffect.repository_instance_id effect ==? ScopeEffectClaim.repository_instance_id claim)
  && (ScopeEffect.worktree_instance_id effect ==? ScopeEffectClaim.worktree_instance_id claim)
  && (ScopeEffect.pre_snapshot_id effect ==? ScopeEffectClaim.pre_snapshot_id claim)
  && (ScopeEffect.post_snapshot_id effect ==? ScopeEffectClaim.post_snapshot_id claim)
  && (ScopeEffect.experiment_run_ids effect ==? ScopeEffectClaim.experiment_run_ids claim)
  && (ScopeEffect.artifact_refs effect ==? ScopeEffectClaim.artifact_refs claim).

(** ** Occurrences *)

Section occurrences.
Context `{SHA : Sha256}.

Definition update_occurrence_revision (current : HostOccurrence) (previous : option HostOccurrence)
  : HostOccurrence :=
  match previous with
  | None => current
  | Some previous =>
      let comparable := HostOccurrence.set_revision current
        (HostOccurrence.normalization_revision previous)
        (HostOccurrence.previous_normalization_revision previous) in
      if comparable ==? previous then previous
      else HostOccurrence.set_revision current
             (wrapping_succ_u32 (HostOccurrence.normalization_revision previous))
             (Some (HostOccurrence.normalization_revision previous))
  end.

Definition exact_state (members : list SourceObservation) : NormalizationState :=
  let roles := bset_of_list (role_of <$> members) in
  if pairing_state members true ==? PairingState.Conflicted
  then NormalizationState.NormalizationConflicted
  else if (length members =? 1)%nat then NormalizationState.SingleSource
  else if (1 <? length roles)%nat then NormalizationState.Complemented
  else NormalizationState.Corroborated.

(** The occurrence of a key, before its revision is set. *)
Definition exact_occurrence (resolver_version : N) (key : HostOccurrenceExactKey)
    (members : list SourceObservation) (id : HostOccurrenceId) : HostOccurrence := {|
  HostOccurrence.host_occurrence_id := id;
  HostOccurrence.exact_key := Some key;
  HostOccurrence.host_instance_id := Some (HostOccurrenceExactKey.host_instance_id key);
  HostOccurrence.host_trace_lineage_id := Some (HostOccurrenceExactKey.host_trace_lineage_id key);
  HostOccurrence.host_lane_key := Some (HostOccurrenceExactKey.host_lane_key key);
  HostOccurrence.canonical_event_family := Some (HostOccurrenceExactKey.canonical_event_family key);
  HostOccurrence.native_request_id := Some (HostOccurrenceExactKey.native_request_id key);
  HostOccurrence.physical_execution_ordinal :=
    Some (HostOccurrenceExactKey.physical_execution_ordinal key);
  HostOccurrence.correlation_strength := CorrelationStrength.Exact;
  HostOccurrence.source_observation_refs := vec_sort (id_of <$> members);
  HostOccurrence.field_provenance := provenance members;
  HostOccurrence.normalization_state := exact_state members;
  HostOccurrence.pairing_state := pairing_state members true;
  HostOccurrence.possible_duplicate_group_id := None;
  HostOccurrence.correlation_resolver_version := resolver_version;
  HostOccurrence.normalization_revision := 1;
  HostOccurrence.previous_normalization_revision := None |}.

Definition build_exact_occurrence (resolver_version : N) (key : HostOccurrenceExactKey)
    (members : list SourceObservation) (previous : list (HostOccurrenceId * HostOccurrence))
  : result NormalizeError HostOccurrence :=
  let? id := invalid_input (host_occurrence_id_for_exact key) in
  let occurrence := update_occurrence_revision (exact_occurrence resolver_version key members id)
                      (bmap_get id previous) in
  do? invalid_result (HostOccurrence.validate occurrence) in
  Ok occurrence.

Definition strength_of (conflicted_partial_refs : list string) (observation : SourceObservation)
  : CorrelationStrength :=
  let correlation := SourceObservation.correlation observation in
  if is_some_and (HostCorrelationEvidence.partial_correlation_ref correlation)
       (fun value => contains value conflicted_partial_refs)
     || (HostCorrelationEvidence.admission correlation ==? CorrelationAdmission.Conflicted)
  then CorrelationStrength.Conflicted
  else match HostCorrelationEvidence.admission correlation with
       | CorrelationAdmission.Unavailable => CorrelationStrength.Unavailable
       | CorrelationAdmission.Ambiguous | CorrelationAdmission.ExactCapable =>
           CorrelationStrength.Ambiguous
       | CorrelationAdmission.Conflicted => CorrelationStrength.Conflicted
       end.

(** The occurrence of one observation without a key, before its revision is set. *)
Definition nonexact_occurrence (resolver_version : N) (observation : SourceObservation)
    (strength : CorrelationStrength) (id : HostOccurrenceId) : HostOccurrence :=
  let correlation := SourceObservation.correlation observation in
  let executable :=
    is_some (HostCorrelationEvidence.canonical_event_family correlation ≫= operation_kind) in {|
  HostOccurrence.host_occurrence_id := id;
  HostOccurrence.exact_key := None;
  HostOccurrence.host_instance_id := HostCorrelationEvidence.host_instance_id correlation;
  HostOccurrence.host_trace_lineage_id := HostCorrelationEvidence.host_trace_lineage_id correlation;
  HostOccurrence.host_lane_key := HostCorrelationEvidence.host_lane_key correlation;
  HostOccurrence.canonical_event_family := HostCorrelationEvidence.canonical_event_family correlation;
  HostOccurrence.native_request_id := HostCorrelationEvidence.native_request_id correlation;
  HostOccurrence.physical_execution_ordinal :=
    HostCorrelationEvidence.physical_execution_ordinal correlation;
  HostOccurrence.correlation_strength := strength;
  HostOccurrence.source_observation_refs := [id_of observation];
  HostOccurrence.field_provenance := provenance [observation];
  HostOccurrence.normalization_state :=
    if strength ==? CorrelationStrength.Conflicted then NormalizationState.NormalizationConflicted
    else NormalizationState.SingleSource;
  HostOccurrence.pairing_state :=
    if executable then pairing_state [observation] false else PairingState.NotApplicable;
  HostOccurrence.possible_duplicate_group_id :=
    HostCorrelationEvidence.possible_duplicate_group_id correlation;
  HostOccurrence.correlation_resolver_version := resolver_version;
  HostOccurrence.normalization_revision := 1;
  HostOccurrence.previous_normalization_revision := None |}.

Definition build_nonexact_occurrence (resolver_version : N) (observation : SourceObservation)
    (conflicted_partial_refs : list string) (previous : list (HostOccurrenceId * HostOccurrence))
  : result NormalizeError HostOccurrence :=
  let strength := strength_of conflicted_partial_refs observation in
  let? id := invalid_input (host_occurrence_id_for_nonexact (id_of observation) strength) in
  let occurrence := update_occurrence_revision
    (nonexact_occurrence resolver_version observation strength id) (bmap_get id previous) in
  do? invalid_result (HostOccurrence.validate occurrence) in
  Ok occurrence.
End occurrences.

(** ** Source-local pairing *)

Section pairing.
Context `{L : UuidLib}.

Abbreviation Calls := (list (SourceObservationId * SourceLocalNativeCall)).
Abbreviation Witnesses :=
  (list (SourceObservationId * list (SourceObservationId * SourceLocalNamespaceWitness))).

(** First pass: the calls observed natively, with their own witnesses. *)
Definition collect_call (acc : Calls * Witnesses) (observation : SourceObservation) : Calls * Witnesses :=
  match SourceObservation.source_local_evidence observation with
  | Some (SourceLocalEvidence.NativeCall call) =>
      (bmap_insert (id_of observation) call acc.1,
       match SourceLocalNativeCall.namespace_witness call with
       | Some witness => bmap_push (id_of observation) (id_of observation, witness) acc.2
       | None => acc.2
       end)
  | _ => acc
  end.

(** Second pass: witnesses that arrived on their own, for one supported observation. *)
Definition support_call (observation : SourceObservationId) (witness : SourceLocalNamespaceWitness)
    (supported_call : SourceLocalNativeCall) (acc : Calls * Witnesses) (id : SourceObservationId)
  : result NormalizeError (Calls * Witnesses) :=
  let? calls :=
    match bmap_get id acc.1 with
    | Some existing =>
        do? guard (SourceLocalNativeCall.without_witness existing
                   !=? SourceLocalNativeCall.without_witness supported_call)
              NormalizeError.InvalidInput in
        Ok acc.1
    | None => Ok (bmap_insert id supported_call acc.1)
    end in
  Ok (calls, bmap_push id (observation, witness) acc.2).

Fixpoint try_fold {A S} (f : S -> A -> result NormalizeError S) (acc : S) (l : list A)
  : result NormalizeError S :=
  match l with
  | [] => Ok acc
  | x :: l => let? acc := f acc x in try_fold f acc l
  end.

Definition support_calls (acc : Calls * Witnesses) (observation : SourceObservation)
  : result NormalizeError (Calls * Witnesses) :=
  match SourceObservation.source_local_evidence observation with
  | Some (SourceLocalEvidence.NamespaceWitness witness supported_call supported_observation_refs) =>
      try_fold (support_call (id_of observation) witness supported_call) acc supported_observation_refs
  | _ => Ok acc
  end.

(** A call whose namespace is proved, in the group of its namespace and request. *)
Record Member := mk_member {
  observation : SourceObservation;
  call : SourceLocalNativeCall;
  proofs : list (SourceObservationId * SourceLocalNamespaceWitness);
}.
Abbreviation Groups := (list (SourceLocalNamespace * string * list Member)).

Definition group_call (calls : Calls) (witnesses : Witnesses) (groups : Groups)
    (value : SourceObservation) : result NormalizeError Groups :=
  match bmap_get (id_of value) calls, bmap_get (id_of value) witnesses with
  | Some native, Some found =>
      match found with
      | [] => Ok groups
      | (_, first) :: _ =>
          do? guard (negb (contains (role_of value) [ObservationRole.Intent; ObservationRole.Result])
                     || is_some (key_of value)
                     || any (fun proof : SourceObservationId * SourceLocalNamespaceWitness =>
                               negb (SourceLocalNativeCall.accepts_witness native proof.2)
                               || (SourceLocalNamespaceWitness.namespace proof.2
                                   !=? SourceLocalNamespaceWitness.namespace first)) found)
                NormalizeError.InvalidInput in
          Ok (bmap_push (SourceLocalNamespaceWitness.namespace first, SourceLocalNativeCall.request_id native)
                (mk_member value native found) groups)
      end
  | _, _ => Ok groups
  end.

Definition ids_with (role : ObservationRole) (members : list Member) : list SourceObservationId :=
  (fun m => id_of (observation m)) <$> List.filter (fun m => role_of (observation m) ==? role) members.

(** The operation that already carries this pairing, else the occurrence of the first result. *)
Definition anchor_of (namespace : SourceLocalNamespace) (request_id : string)
    (first_result : SourceObservationId) (occurrences : list HostOccurrence)
    (previous : option NormalizationSnapshot) : option HostOccurrenceId :=
  let carries operation :=
    is_some_and (Operation.source_local_pairing operation) (fun pairing =>
      (SourceLocalPairing.namespace pairing ==? namespace)
      && (SourceLocalPairing.request_id pairing ==? request_id)) in
  match List.find carries (option_list previous ≫= NormalizationSnapshot.operations) with
  | Some operation => Some (Operation.host_occurrence_id operation)
  | None =>
      HostOccurrence.host_occurrence_id
        <$> List.find (fun occurrence =>
              HostOccurrence.source_observation_refs occurrence ==? [first_result]) occurrences
  end.

Definition pairing_of (namespace : SourceLocalNamespace) (request_id : string) (members : list Member)
    (intents results : list SourceObservationId) : SourceLocalPairing :=
  let same_tool :=
    match members with
    | m0 :: _ => all (fun m => SourceLocalNativeCall.tool_name (call m)
                               ==? SourceLocalNativeCall.tool_name (call m0)) members
    | [] => true
    end in
  SourceLocalPairing.mk namespace request_id (vec_sort intents) (vec_sort results)
    (bset_of_list (members ≫= fun m => (proofs m).*1))
    (if (length intents =? 1)%nat && (length results =? 1)%nat && same_tool
     then SourceLocalPairingState.SourcePaired else SourceLocalPairingState.Conflicted).

Definition pair_group (occurrences : list HostOccurrence) (previous : option NormalizationSnapshot)
    (paired : list (HostOccurrenceId * SourceLocalPairing)) (group : SourceLocalNamespace * string * list Member)
  : result NormalizeError (list (HostOccurrenceId * SourceLocalPairing)) :=
  let '((namespace, request_id), members) := group in
  let results := ids_with ObservationRole.Result members in
  match results with
  | [] => Ok paired
  | first_result :: _ =>
      let? anchor := ok_or (anchor_of namespace request_id first_result occurrences previous)
                       NormalizeError.InvalidInput in
      let intents := ids_with ObservationRole.Intent members in
      if is_empty intents && (length results =? 1)%nat then Ok paired
      else
        let pairing := pairing_of namespace request_id members intents results in
        do? invalid_result (SourceLocalPairing.validate pairing) in
        Ok (bmap_insert anchor pairing paired)
  end.

Definition source_local_pairs (observations : list SourceObservation)
    (occurrences : list HostOccurrence) (previous : option NormalizationSnapshot)
  : result NormalizeError (list (HostOccurrenceId * SourceLocalPairing)) :=
  let collected := foldl collect_call ([], []) observations in
  let? collected := try_fold support_calls collected observations in
  let? groups := try_fold (group_call collected.1 collected.2) [] observations in
  try_fold (pair_group occurrences previous) [] groups.
End pairing.

(** ** The normaliser *)

Module PhysicalNormalizer.
Record PhysicalNormalizer := mk { resolver_version : N }.

Definition new (resolver_version : N) : result NormalizeError PhysicalNormalizer :=
  do? guard (resolver_version =? 0)%N NormalizeError.InvalidInput in Ok (mk resolver_version).

(** The identifiers that [OperationId::new_v7] and [ScopeEffectId::new_v7] draw
    during one run, by the occurrence and the claim they are drawn for; a run
    draws at most one for each.  Every run draws its own: a statement about two
    runs takes two pairs of these functions. *)
Section normalize.
Context `{SHA : Sha256} `{L : UuidLib}.
Context (fresh_operation : HostOccurrenceId -> OperationId).
Context (fresh_effect : HostOccurrenceId -> ScopeEffectClaim -> ScopeEffectId).

Fixpoint index_observations (by_id : list (SourceObservationId * SourceObservation))
    (observations : list SourceObservation)
  : result NormalizeError (list (SourceObservationId * SourceObservation)) :=
  match observations with
  | [] => Ok by_id
  | observation :: observations =>
      do? invalid_input (SourceObservation.validate observation) in
      do? guard (is_some (bmap_get (id_of observation) by_id)) NormalizeError.InvalidInput in
      index_observations (bmap_insert (id_of observation) observation by_id) observations
  end.

Definition build_occurrences (self : PhysicalNormalizer) (observations : list SourceObservation)
    (by_id : list (SourceObservationId * SourceObservation)) (previous : option NormalizationSnapshot)
  : result NormalizeError (list HostOccurrence) :=
  let conflicted_partial_refs := conflicting_partial_refs observations in
  let exact_groups := group_by key_of by_id.*2 in
  let nonexact := List.filter (fun observation => is_none (key_of observation)) by_id.*2 in
  let previous_occurrences := bmap_by HostOccurrence.host_occurrence_id
    (option_list previous ≫= NormalizationSnapshot.occurrences) in
  let? exact := try_map (fun group => build_exact_occurrence (resolver_version self) group.1 group.2
                                        previous_occurrences) exact_groups in
  let? rest := try_map (fun observation => build_nonexact_occurrence (resolver_version self) observation
                                             conflicted_partial_refs previous_occurrences) nonexact in
  Ok (sort_by (fun a b => leb_ord (HostOccurrence.host_occurrence_id a)
                            (HostOccurrence.host_occurrence_id b)) (exact ++ rest)).

Definition new_effect (scope_effect_id : ScopeEffectId) (operation_id : OperationId)
    (claim : ScopeEffectClaim) : ScopeEffect := {|
  ScopeEffect.scope_effect_id := scope_effect_id;
  ScopeEffect.operation_id := operation_id;
  ScopeEffect.effect_role := ScopeEffectClaim.effect_role claim;
  ScopeEffect.repository_instance_id := ScopeEffectClaim.repository_instance_id claim;
  ScopeEffect.worktree_instance_id := ScopeEffectClaim.worktree_instance_id claim;
  ScopeEffect.pre_snapshot_id := ScopeEffectClaim.pre_snapshot_id claim;
  ScopeEffect.post_snapshot_id := ScopeEffectClaim.post_snapshot_id claim;
  ScopeEffect.experiment_run_ids := ScopeEffectClaim.experiment_run_ids claim;
  ScopeEffect.artifact_refs := ScopeEffectClaim.artifact_refs claim;
  ScopeEffect.evidence_refs := ScopeEffectClaim.evidence_refs claim |}.

(** One claim: the effect that already states it, or a new one. *)
Definition derive_effect (previous_effects : list ScopeEffect) (occurrence : HostOccurrenceId)
    (operation_id : OperationId) (claim : ScopeEffectClaim) : result NormalizeError ScopeEffect :=
  let existing := List.find (fun effect =>
    (ScopeEffect.operation_id effect ==? operation_id) && effect_matches_claim effect claim)
    previous_effects in
  let effect := default (new_effect (fresh_effect occurrence claim) operation_id claim) existing in
  do? invalid_result (ScopeEffect.validate effect) in
  Ok effect.

Definition update_operation_revision (operation : Operation) (previous : option Operation) : Operation :=
  match previous with
  | None => operation
  | Some previous =>
      let comparable := Operation.set_revision operation (Operation.operation_revision previous)
        (Operation.previous_operation_revision previous) in
      if comparable ==? previous then previous
      else Operation.set_revision operation (wrapping_succ_u32 (Operation.operation_revision previous))
             (Some (Operation.operation_revision previous))
  end.

Definition effect_le (a b : ScopeEffect) : bool :=
  leb_ord (ScopeEffect.scope_effect_id a) (ScopeEffect.scope_effect_id b).
Definition operation_le (a b : Operation) : bool :=
  leb_ord (Operation.operation_id a) (Operation.operation_id b).

(** The operation of an occurrence, before its revision is set. *)
Definition new_operation (self : PhysicalNormalizer) (occurrence : HostOccurrence)
    (operation_id : OperationId) (kind : OperationKind) (members : list SourceObservation)
    (effects : list ScopeEffect) (logical_pairing : option SourceLocalPairing) : Operation := {|
  Operation.operation_id := operation_id;
  Operation.host_occurrence_id := HostOccurrence.host_occurrence_id occurrence;
  Operation.execution_lane_id := None;
  Operation.operation_kind := kind;
  Operation.input_source_observation_refs :=
    vec_sort (id_of <$> List.filter (fun value => role_of value ==? ObservationRole.Intent) members);
  Operation.result_source_observation_refs :=
    vec_sort (id_of <$> List.filter (fun value => role_of value !=? ObservationRole.Intent) members);
  Operation.pairing_state := HostOccurrence.pairing_state occurrence;
  Operation.scope_effect_ids := ScopeEffect.scope_effect_id <$> effects;
  Operation.artifact_refs := bset_of_list (effects ≫= ScopeEffect.artifact_refs);
  Operation.operation_resolver_version := resolver_version self;
  Operation.operation_revision := 1;
  Operation.previous_operation_revision := None;
  Operation.source_local_pairing := logical_pairing |}.

Definition kind_of (occurrence : HostOccurrence) (logical_pairing : option SourceLocalPairing)
  : option OperationKind :=
  match HostOccurrence.canonical_event_family occurrence ≫= operation_kind with
  | Some kind => Some kind
  | None => (fun _ => OperationKind.Other) <$> logical_pairing
  end.

(** What one occurrence gives: nothing, or an operation and its effects. *)
Definition derive_operation (self : PhysicalNormalizer)
    (by_id : list (SourceObservationId * SourceObservation))
    (logical : list (HostOccurrenceId * SourceLocalPairing))
    (previous_operations : list (HostOccurrenceId * Operation)) (previous_effects : list ScopeEffect)
    (occurrence : HostOccurrence) : result NormalizeError (option (Operation * list ScopeEffect)) :=
  let occurrence_id := HostOccurrence.host_occurrence_id occurrence in
  let? members := try_map (fun id => ok_or (bmap_get id by_id) NormalizeError.InvalidResult)
                    (HostOccurrence.source_observation_refs occurrence) in
  let logical_pairing := bmap_get occurrence_id logical in
  match kind_of occurrence logical_pairing with
  | None => Ok None
  | Some operation_kind =>
      let previous_operation := bmap_get occurrence_id previous_operations in
      let operation_id := match previous_operation with
                          | Some value => Operation.operation_id value
                          | None => fresh_operation occurrence_id
                          end in
      let? claims := merge_scope_claims members in
      let? effects := try_map (derive_effect previous_effects occurrence_id operation_id) claims in
      let effects := sort_by effect_le effects in
      let operation := new_operation self occurrence operation_id operation_kind members effects
                         logical_pairing in
      let operation := update_operation_revision operation previous_operation in
      do? invalid_result (Operation.validate operation) in
      Ok (Some (operation, effects))
  end.

Definition normalize (self : PhysicalNormalizer) (observations : list SourceObservation)
    (previous : option NormalizationSnapshot) : result NormalizeError NormalizationSnapshot :=
  let? by_id := index_observations [] observations in
  do? match previous with
      | Some previous => NormalizationSnapshot.validate previous
      | None => Ok tt
      end in
  let previous_operations := bmap_by Operation.host_occurrence_id
    (option_list previous ≫= NormalizationSnapshot.operations) in
  let previous_effects := option_list previous ≫= NormalizationSnapshot.scope_effects in
  let? occurrences := build_occurrences self observations by_id previous in
  let? logical := source_local_pairs observations occurrences previous in
  let? derived := try_map (derive_operation self by_id logical previous_operations previous_effects)
                    occurrences in
  let derived := omap id derived in
  let result := NormalizationSnapshot.mk occurrences
    (sort_by operation_le derived.*1)
    (sort_by effect_le (concat derived.*2)) in
  do? NormalizationSnapshot.validate result in
  Ok result.
End normalize.
End PhysicalNormalizer.
Abbreviation PhysicalNormalizer := PhysicalNormalizer.PhysicalNormalizer.
