(* ===== verification/NormalizeFacts.v ===== *)
(** * Facts about physical normalisation

    Normalisation partitions the observations, keeps identifiers and counts
    revisions across runs, changes nothing when nothing changed, records one
    watermark per observation, and refuses a batch with one ill-formed group. *)

From S2P Require Import Prelude Order Collections OrderedMap Text Canonical Ids Lane Journal Attempt Evidence Normalize.

Import PhysicalNormalizer NormalizationSnapshot.

(** ** Lists *)

Lemma try_map_ok {E A B} (f : A -> result E B) l l' :
  try_map f l = Ok l' <-> Forall2 (fun x y => f x = Ok y) l l'.
Proof.
  revert l'. induction l as [|x l IH]; intros l'; simpl.
  { split; [by intros [= <-]|by inversion 1]. }
  rewrite rbind_ok. setoid_rewrite rbind_ok. setoid_rewrite IH. split.
  - intros (y & Hy & ys & Hys & [= <-]). by constructor.
  - inversion 1; subst. eauto 10.
Qed.

Lemma filter_partition {A} (f : A -> bool) l :
  List.filter f l ++ List.filter (fun x => negb (f x)) l ≡ₚ l.
Proof.
  induction l as [|x l IH]; simpl; [done|]. destruct (f x); simpl; [by rewrite IH|].
  rewrite <-Permutation_middle. by rewrite IH.
Qed.

Lemma concat_fmap_perm {A B} (f : A -> list B) (l m : list A) :
  l ≡ₚ m -> concat (f <$> l) ≡ₚ concat (f <$> m).
Proof.
  induction 1 as [|x l m _ IH|x y l|l m n _ IH1 _ IH2]; simpl; [done|by rewrite IH| |by rewrite IH1].
  rewrite !app_assoc. by rewrite (Permutation_app_comm (f y)).
Qed.

Lemma elem_of_concat_fmap {A B} (f : A -> list B) l y :
  y ∈ concat (f <$> l) <-> exists x, x ∈ l /\ y ∈ f x.
Proof.
  induction l as [|x l IH]; simpl; [setoid_rewrite elem_of_nil; naive_solver|].
  rewrite elem_of_app, IH. setoid_rewrite elem_of_cons. naive_solver.
Qed.

Lemma Forall2_elem_r {A B} {R : A -> B -> Prop} {l m} y :
  Forall2 R l m -> y ∈ m -> exists x, x ∈ l /\ R x y.
Proof.
  induction 1 as [|x z l m Hxz _ IH]; [by intros ?%elem_of_nil|].
  intros [-> |Hy]%elem_of_cons; [exists x; split; [left|done]|].
  destruct (IH Hy) as (x' & Hx' & HR). exists x'. split; [by right|done].
Qed.
Arguments Forall2_elem_r {A B R l m} [y] _ _.

Lemma Forall2_elem_l {A B} {R : A -> B -> Prop} {l m} x :
  Forall2 R l m -> x ∈ l -> exists y, y ∈ m /\ R x y.
Proof. intros H Hx. exact (Forall2_elem_r (R := flip R) (proj2 (Forall2_flip _ _ _) H) Hx). Qed.
Arguments Forall2_elem_l {A B R l m} [x] _ _.

Lemma NoDup_fmap_elem {A B} (f : A -> B) l x y :
  NoDup (f <$> l) -> x ∈ l -> y ∈ l -> f x = f y -> x = y.
Proof.
  induction l as [|z l IH]; [by intros _ ?%elem_of_nil|].
  simpl. intros [Hz Hl]%NoDup_cons [-> |Hx]%elem_of_cons [-> |Hy]%elem_of_cons Heq; [done|..].
  - exfalso. apply Hz. rewrite Heq. by apply list_elem_of_fmap_2.
  - exfalso. apply Hz. rewrite <-Heq. by apply list_elem_of_fmap_2.
  - by apply IH.
Qed.

(** An element of a list without repetitions lies in one of its parts only. *)
Lemma concat_NoDup_unique {A B} (f : A -> list B) l x y z :
  NoDup (concat (f <$> l)) -> x ∈ l -> y ∈ l -> z ∈ f x -> z ∈ f y -> x = y.
Proof.
  induction l as [|w l IH]; simpl; intros Hn Hx Hy Hzx Hzy; [by apply elem_of_nil in Hx|].
  apply NoDup_app in Hn as (_ & Hd & Hn).
  apply elem_of_cons in Hx as [-> |Hx]; apply elem_of_cons in Hy as [-> |Hy].
  - done.
  - exfalso. apply (Hd z Hzx). apply elem_of_concat_fmap. eauto.
  - exfalso. apply (Hd z Hzy). apply elem_of_concat_fmap. eauto.
  - by apply IH.
Qed.

(** ** Indexing the observations *)

Section occurrences.
Context `{SHA : Sha256} `{L : UuidLib}.

Lemma index_observations_ok observations by_id :
  index_observations [] observations = Ok by_id ->
  by_id = bmap_by id_of observations /\ NoDup (id_of <$> observations) /\
  Forall (fun o => SourceObservation.validate o = Ok tt) observations.
Proof.
  unfold bmap_by. assert (Hm : bmap_sorted (@nil (SourceObservationId * SourceObservation))) by constructor.
  intros H. cut (by_id = foldl (fun m x => bmap_insert (id_of x) x m) [] observations /\
    NoDup (id_of <$> observations) /\ Forall (fun o => SourceObservation.validate o = Ok tt) observations /\
    Forall (fun o => bmap_get (id_of o) (@nil (SourceObservationId * SourceObservation)) = None) observations);
    [naive_solver|].
  revert Hm H. generalize (@nil (SourceObservationId * SourceObservation)) as m.
  induction observations as [|o l IH]; intros m Hm H; simpl in H.
  { injection H as <-. split_and!; [done|constructor..]. }
  ok_step H. unfold invalid_input in G. rewrite map_err_ok in G. ok_step H.
  apply IH in H as (-> & Hn & Hv & Hf); [|by apply bmap_alter_sorted].
  assert (Hd : Forall (fun o' => id_of o' <> id_of o /\ bmap_get (id_of o') m = None) l).
  { eapply Forall_impl; [exact Hf|]. intros o' Ho'. unfold bmap_insert in Ho'.
    cbv beta in Ho'. destruct (ord_dec (id_of o) (id_of o')) as [Heq|Hne].
    - exfalso. rewrite Heq, bmap_get_alter_eq in Ho' by done. done.
    - rewrite bmap_get_alter_ne in Ho' by done. split; [congruence|done]. }
  split_and!; [done| |by constructor|].
  - simpl. constructor; [|done]. intros (o' & Heq & Ho')%list_elem_of_fmap.
    rewrite Forall_forall in Hd. by apply Hd in Ho' as [[] _].
  - constructor; [by destruct (bmap_get _ m)|]. eapply Forall_impl; [exact Hd|]. by intros ? [].
Qed.

Lemma index_values observations by_id :
  index_observations [] observations = Ok by_id -> by_id.*2 ≡ₚ observations.
Proof. intros (-> & Hn & _)%index_observations_ok. by apply bmap_by_perm. Qed.

Lemma index_get observations by_id k x :
  index_observations [] observations = Ok by_id ->
  bmap_get k by_id = Some x <-> x ∈ observations /\ id_of x = k.
Proof. intros (-> & Hn & _)%index_observations_ok. by apply bmap_by_get. Qed.

(** ** Revisions of occurrences *)

(** An occurrence without its revision numbers. *)
Definition core (o : HostOccurrence) : HostOccurrence := HostOccurrence.set_revision o 1 None.

Lemma set_revision_core o p :
  HostOccurrence.set_revision o (HostOccurrence.normalization_revision p)
    (HostOccurrence.previous_normalization_revision p) = p <-> core o = core p.
Proof. unfold core, HostOccurrence.set_revision. destruct o, p; cbn. split; intros [=]; by subst. Qed.

Lemma update_core o prev : core (update_occurrence_revision o prev) = core o.
Proof.
  destruct prev as [p|]; [|done]. unfold update_occurrence_revision.
  case_bool_decide as E; [|done]. symmetry. by apply set_revision_core.
Qed.

Lemma core_refs o p : core o = core p ->
  HostOccurrence.source_observation_refs o = HostOccurrence.source_observation_refs p.
Proof. destruct o, p. by intros [=]. Qed.
Lemma core_id o p : core o = core p ->
  HostOccurrence.host_occurrence_id o = HostOccurrence.host_occurrence_id p.
Proof. destruct o, p. by intros [=]. Qed.
Lemma core_key o p : core o = core p -> HostOccurrence.exact_key o = HostOccurrence.exact_key p.
Proof. destruct o, p. by intros [=]. Qed.

(** Identifiers survive and revisions count the changes, without wrapping. *)
Definition revised (previous : list HostOccurrence) (o : HostOccurrence) : Prop :=
  (Forall (fun p => HostOccurrence.host_occurrence_id p <> HostOccurrence.host_occurrence_id o) previous /\
   HostOccurrence.normalization_revision o = 1%N /\
   HostOccurrence.previous_normalization_revision o = None) \/
  (exists p, p ∈ previous /\ HostOccurrence.host_occurrence_id p = HostOccurrence.host_occurrence_id o /\
   (o = p \/
    core o <> core p /\ (HostOccurrence.normalization_revision p < U32_MAX)%N /\
    HostOccurrence.normalization_revision o = (HostOccurrence.normalization_revision p + 1)%N /\
    HostOccurrence.previous_normalization_revision o = Some (HostOccurrence.normalization_revision p))).

Lemma valid_revision o :
  HostOccurrence.validate o = Ok tt -> HostOccurrence.normalization_revision o <> 0%N.
Proof. intros H. unfold HostOccurrence.validate in H. ok_step H. by apply N.eqb_neq. Qed.

Lemma wrapping_succ_nonzero n : (n <= U32_MAX)%N -> wrapping_succ_u32 n <> 0%N ->
  (n < U32_MAX)%N /\ wrapping_succ_u32 n = (n + 1)%N.
Proof. unfold wrapping_succ_u32. destruct (N.eqb_spec n U32_MAX); [done|]. lia. Qed.

(** The integers of a stored snapshot fit their type. *)
Definition fits (s : NormalizationSnapshot) : Prop :=
  Forall (fun o => (HostOccurrence.normalization_revision o <= U32_MAX)%N) (occurrences s) /\
  Forall (fun o => (Operation.operation_revision o <= U32_MAX)%N) (operations s).

Lemma update_revised previous o fresh :
  HostOccurrence.normalization_revision fresh = 1%N ->
  HostOccurrence.previous_normalization_revision fresh = None ->
  Forall (fun o => (HostOccurrence.normalization_revision o <= U32_MAX)%N) previous ->
  NoDup (HostOccurrence.host_occurrence_id <$> previous) ->
  update_occurrence_revision fresh
    (bmap_get (HostOccurrence.host_occurrence_id fresh)
       (bmap_by HostOccurrence.host_occurrence_id previous)) = o ->
  HostOccurrence.validate o = Ok tt -> revised previous o.
Proof.
  intros H1 H0 Hf Hn <- Hv. pose proof (update_core fresh (bmap_get (HostOccurrence.host_occurrence_id fresh)
    (bmap_by HostOccurrence.host_occurrence_id previous))) as Hc. apply valid_revision in Hv.
  apply core_id in Hc as Hi. unfold revised. rewrite Hi.
  destruct (bmap_get _ _) as [p|] eqn:E; cbn [update_occurrence_revision] in *.
  - right. apply bmap_by_get in E as [Hp Hid]; [|done]. exists p. split_and!; [done..|].
    case_bool_decide as Ec; [by left|]. right. cbn in *.
    rewrite Forall_forall in Hf. destruct (wrapping_succ_nonzero _ (Hf _ Hp) Hv) as [Hlt ->].
    split_and!; [|done..]. intros Hcc. apply Ec, set_revision_core. exact (eq_trans (eq_sym Hc) Hcc).
  - left. apply bmap_by_None in E. split_and!; [|done..]. apply Forall_forall. intros p Hp Heq.
    apply E. rewrite <-Heq. by apply list_elem_of_fmap_2.
Qed.

(** ** The occurrences of a run *)

Lemma build_exact_ok version key members previous o :
  build_exact_occurrence version key members previous = Ok o ->
  exists fresh, o = update_occurrence_revision fresh
      (bmap_get (HostOccurrence.host_occurrence_id fresh) previous) /\
  HostOccurrence.validate o = Ok tt /\
  HostOccurrence.exact_key fresh = Some key /\
  HostOccurrence.source_observation_refs fresh = vec_sort (id_of <$> members) /\
  HostOccurrence.canonical_event_family fresh = Some (HostOccurrenceExactKey.canonical_event_family key) /\
  HostOccurrence.pairing_state fresh = pairing_state members true /\
  HostOccurrence.correlation_resolver_version fresh = version /\
  HostOccurrence.normalization_revision fresh = 1%N /\
  HostOccurrence.previous_normalization_revision fresh = None.
Proof.
  unfold build_exact_occurrence. intros (id & Hid & H)%rbind_ok. cbv zeta in H.
  apply rbind_ok in H as ([] & Hv & [= <-]). unfold invalid_result in Hv. rewrite map_err_ok in Hv.
  exists (exact_occurrence version key members id). by split_and!.
Qed.

Lemma build_nonexact_ok version x conflicts previous o :
  build_nonexact_occurrence version x conflicts previous = Ok o ->
  exists fresh, o = update_occurrence_revision fresh
      (bmap_get (HostOccurrence.host_occurrence_id fresh) previous) /\
  HostOccurrence.validate o = Ok tt /\
  HostOccurrence.exact_key fresh = None /\
  HostOccurrence.source_observation_refs fresh = [id_of x] /\
  HostOccurrence.correlation_resolver_version fresh = version /\
  HostOccurrence.normalization_revision fresh = 1%N /\
  HostOccurrence.previous_normalization_revision fresh = None.
Proof.
  unfold build_nonexact_occurrence. cbv zeta. intros (id & Hid & H)%rbind_ok.
  apply rbind_ok in H as ([] & Hv & [= <-]). unfold invalid_result in Hv. rewrite map_err_ok in Hv.
  exists (nonexact_occurrence version x (strength_of conflicts x) id). by split_and!.
Qed.

Lemma snapshot_validate_ok s :
  NormalizationSnapshot.validate s = Ok tt ->
  NoDup (HostOccurrence.host_occurrence_id <$> occurrences s) /\
  NoDup (Operation.operation_id <$> operations s) /\
  Forall (fun o => HostOccurrence.validate o = Ok tt) (occurrences s) /\
  Forall (fun o => Operation.validate o = Ok tt) (operations s) /\
  NoDup (ScopeEffect.scope_effect_id <$> scope_effects s).
Proof.
  intros H. unfold NormalizationSnapshot.validate in H. cbv zeta in H. ok_steps H.
  rewrite !bmap_by_unique in *. split_and!; try done.
  - eapply Forall_impl; [exact G|]. intros o Ho. unfold invalid_result in Ho. by rewrite map_err_ok in Ho.
  - eapply Forall_impl; [exact G0|]. intros o Ho. cbv beta in Ho. apply rbind_ok in Ho as ([] & Ho & _).
    unfold invalid_result in Ho. by rewrite map_err_ok in Ho.
  - revert G1. cut (forall seen, validate_effects (bmap_by Operation.operation_id (operations s)) seen (scope_effects s) = Ok tt ->
      NoDup (ScopeEffect.scope_effect_id <$> scope_effects s) /\
      Forall (fun e => ScopeEffect.scope_effect_id e ∉ seen) (scope_effects s)); [intros Hc Hv; by apply Hc in Hv as []|].
    induction (scope_effects s) as [|e l IH]; intros seen Hv; simpl in Hv; [split; constructor|].
    ok_steps Hv. apply IH in Hv as [Hn Hf]. split.
    + simpl. constructor; [|done]. intros (e' & Heq & He')%list_elem_of_fmap. rewrite Forall_forall in Hf.
      apply (Hf _ He'). rewrite <-Heq. left.
    + constructor; [done|]. eapply Forall_impl; [exact Hf|]. intros e' He' Hin. apply He'. by right.
Qed.

Section build.
Context (self : PhysicalNormalizer) (observations : list SourceObservation).
Context (by_id : list (SourceObservationId * SourceObservation)) (previous : option NormalizationSnapshot).
Context (os : list HostOccurrence).
Hypothesis Hindex : index_observations [] observations = Ok by_id.
Hypothesis Hbuild : build_occurrences self observations by_id previous = Ok os.

Abbreviation before := (option_list previous ≫= NormalizationSnapshot.occurrences).

(** Where an occurrence comes from. *)
Inductive origin (o : HostOccurrence) : Prop :=
| origin_exact key members fresh :
    members = members_of key_of key by_id.*2 -> members <> [] ->
    o = update_occurrence_revision fresh
          (bmap_get (HostOccurrence.host_occurrence_id fresh)
             (bmap_by HostOccurrence.host_occurrence_id before)) ->
    HostOccurrence.exact_key fresh = Some key ->
    HostOccurrence.source_observation_refs fresh = vec_sort (id_of <$> members) ->
    HostOccurrence.canonical_event_family fresh = Some (HostOccurrenceExactKey.canonical_event_family key) ->
    HostOccurrence.pairing_state fresh = pairing_state members true ->
    HostOccurrence.correlation_resolver_version fresh = resolver_version self ->
    HostOccurrence.normalization_revision fresh = 1%N ->
    HostOccurrence.previous_normalization_revision fresh = None -> origin o
| origin_single x fresh :
    x ∈ observations -> key_of x = None ->
    o = update_occurrence_revision fresh
          (bmap_get (HostOccurrence.host_occurrence_id fresh)
             (bmap_by HostOccurrence.host_occurrence_id before)) ->
    HostOccurrence.exact_key fresh = None ->
    HostOccurrence.source_observation_refs fresh = [id_of x] ->
    HostOccurrence.correlation_resolver_version fresh = resolver_version self ->
    HostOccurrence.normalization_revision fresh = 1%N ->
    HostOccurrence.previous_normalization_revision fresh = None -> origin o.

Lemma occurrence_origin o : o ∈ os -> origin o /\ HostOccurrence.validate o = Ok tt.
Proof.
  unfold build_occurrences in Hbuild. cbv zeta in Hbuild.
  apply rbind_ok in Hbuild as (exact & He & H). apply rbind_ok in H as (rest & Hr & [= <-]).
  apply try_map_ok in He, Hr. rewrite sort_by_perm, elem_of_app. intros [Ho|Ho].
  - apply (Forall2_elem_r He) in Ho as ([key members] & Hg & Ho).
    apply build_exact_ok in Ho as (fresh & H1 & H2 & H3 & H4 & H5 & H6 & H7 & H8 & H9). split; [|done].
    apply elem_of_group_by in Hg as [Hm Hne]. by eapply origin_exact.
  - apply (Forall2_elem_r Hr) in Ho as (x & Hx & Ho).
    apply build_nonexact_ok in Ho as (fresh & H1 & H2 & H3 & H4 & H5 & H6 & H7). split; [|done].
    rewrite list_elem_of_In, filter_In, <-list_elem_of_In in Hx. destruct Hx as [Hx Hk].
    rewrite (index_values _ _ Hindex) in Hx. apply is_none_true in Hk.
    by eapply origin_single.
Qed.

Lemma occurrences_partition :
  concat (HostOccurrence.source_observation_refs <$> os) ≡ₚ id_of <$> observations.
Proof.
  pose proof occurrence_origin as _.
  unfold build_occurrences in Hbuild. cbv zeta in Hbuild.
  apply rbind_ok in Hbuild as (exact & He & H). apply rbind_ok in H as (rest & Hr & [= <-]).
  apply try_map_ok in He, Hr.
  rewrite (concat_fmap_perm _ _ _ (sort_by_perm _ _)), fmap_app, concat_app.
  rewrite <-(index_values _ _ Hindex), <-(filter_partition (fun x => is_some (key_of x)) by_id.*2).
  rewrite fmap_app. apply Permutation_app.
  - rewrite <-group_by_perm. clear -He. induction He as [|g o gs os Hg _ IH]; simpl; [done|].
    rewrite IH, fmap_app. apply Permutation_app_tail.
    apply build_exact_ok in Hg as (fresh & -> & _ & _ & Hrefs & _).
    by rewrite (core_refs _ _ (update_core _ _)), Hrefs, vec_sort_perm.
  - clear -Hr. unfold is_none in Hr. induction Hr as [|x o xs os Hx _ IH]; simpl; [done|].
    apply build_nonexact_ok in Hx as (fresh & -> & _ & _ & Hrefs & _).
    rewrite (core_refs _ _ (update_core _ _)), Hrefs. simpl. by rewrite IH.
Qed.

(** Whose observations an occurrence holds. *)
Lemma occurrence_members o x y :
  o ∈ os -> x ∈ observations -> y ∈ observations -> 
  id_of x ∈ HostOccurrence.source_observation_refs o ->
  id_of y ∈ HostOccurrence.source_observation_refs o <-> x = y \/ (key_of x <> None /\ key_of x = key_of y).
Proof.
  intros Ho Hx Hy Hin. pose proof (index_observations_ok _ _ Hindex) as (_ & Hn & _).
  assert (Hinj : forall a b, a ∈ observations -> b ∈ observations -> id_of a = id_of b -> a = b).
  { intros a b Ha Hb Hab. by apply (NoDup_fmap_elem id_of observations). }
  pose proof (index_values _ _ Hindex) as Hv.
  apply occurrence_origin in Ho as [[key members fresh -> _ -> _ Hrefs _ _ _ _ _|z fresh Hz Hk -> _ Hrefs _ _ _] _].
  - rewrite (core_refs _ _ (update_core _ _)), Hrefs, elem_of_vec_sort in *.
    assert (Hm : forall a, a ∈ observations -> id_of a ∈ id_of <$> members_of key_of key by_id.*2 <-> key_of a = Some key).
    { intros a Ha. rewrite list_elem_of_fmap. setoid_rewrite elem_of_members. setoid_rewrite Hv. split.
      - intros (b & Hab & Hb & Hkey). by rewrite (Hinj a b).
      - intros Hkey. by exists a. }
    rewrite Hm in Hin by done. rewrite Hm by done. rewrite Hin. split; [naive_solver|].
    intros [<-|[_ Heq]]; congruence.
  - rewrite (core_refs _ _ (update_core _ _)), Hrefs, list_elem_of_singleton in *.
    apply Hinj in Hin as ->; [|done..]. rewrite Hk. split; [|naive_solver].
    intros Heq. left. symmetry. by apply Hinj.
Qed.
End build.
End occurrences.

(** ** Operations *)

Section operations.
Context `{SHA : Sha256} `{L : UuidLib}.
Context (fresh_operation : HostOccurrenceId -> OperationId).
Context (fresh_effect : HostOccurrenceId -> ScopeEffectClaim -> ScopeEffectId).

(** An operation without its revision numbers. *)
Definition op_core (o : Operation) : Operation := Operation.set_revision o 1 None.

Lemma op_set_revision_core o p :
  Operation.set_revision o (Operation.operation_revision p) (Operation.previous_operation_revision p) = p
  <-> op_core o = op_core p.
Proof. unfold op_core, Operation.set_revision. destruct o, p; cbn. split; intros [=]; by subst. Qed.

Lemma update_op_core o prev : op_core (update_operation_revision o prev) = op_core o.
Proof.
  destruct prev as [p|]; [|done]. unfold update_operation_revision.
  case_bool_decide as E; [|done]. symmetry. by apply op_set_revision_core.
Qed.

(** Settled: renewing an operation against itself changes nothing. *)
Lemma update_op_self fresh op : op_core op = op_core fresh -> update_operation_revision fresh (Some op) = op.
Proof. intros H. unfold update_operation_revision. rewrite bool_decide_eq_true_2; [done|]. by apply op_set_revision_core. Qed.

Lemma op_core_fields o p : op_core o = op_core p ->
  Operation.operation_id o = Operation.operation_id p /\
  Operation.host_occurrence_id o = Operation.host_occurrence_id p /\
  Operation.pairing_state o = Operation.pairing_state p /\
  Operation.input_source_observation_refs o = Operation.input_source_observation_refs p /\
  Operation.result_source_observation_refs o = Operation.result_source_observation_refs p /\
  Operation.source_local_pairing o = Operation.source_local_pairing p.
Proof. destruct o, p. by intros [=]. Qed.

Lemma derive_ok self by_id logical prev_ops prev_effects o op effects :
  derive_operation fresh_operation fresh_effect self by_id logical prev_ops prev_effects o
    = Ok (Some (op, effects)) ->
  exists members kind claims l fresh,
    try_map (fun id => ok_or (bmap_get id by_id) NormalizeError.InvalidResult)
      (HostOccurrence.source_observation_refs o) = Ok members /\
    kind_of o (bmap_get (HostOccurrence.host_occurrence_id o) logical) = Some kind /\
    merge_scope_claims members = Ok claims /\
    try_map (derive_effect fresh_effect prev_effects (HostOccurrence.host_occurrence_id o)
      (Operation.operation_id op)) claims = Ok l /\
    effects = sort_by effect_le l /\
    fresh = new_operation self o (Operation.operation_id op) kind members effects
      (bmap_get (HostOccurrence.host_occurrence_id o) logical) /\
    op = update_operation_revision fresh (bmap_get (HostOccurrence.host_occurrence_id o) prev_ops) /\
    op_core op = op_core fresh /\
    Operation.operation_id op
    = match bmap_get (HostOccurrence.host_occurrence_id o) prev_ops with
      | Some value => Operation.operation_id value
      | None => fresh_operation (HostOccurrence.host_occurrence_id o)
      end /\
    Operation.validate op = Ok tt.
Proof.
  unfold derive_operation. cbv zeta. intros (members & Hm & H)%rbind_ok. exists members.
  destruct (kind_of o _) as [kind|] eqn:Hk; [|done]. exists kind.
  apply rbind_ok in H as (claims & Hc & H). apply rbind_ok in H as (l & Hl & H).
  apply rbind_ok in H as ([] & Hv & [= <- <-]). exists claims, l. eexists.
  unfold invalid_result in Hv. rewrite map_err_ok in Hv.
  match goal with
  | |- context [update_operation_revision (new_operation _ _ ?id _ _ _ _) ?prev] =>
      assert (Hid : Operation.operation_id (update_operation_revision
        (new_operation self o id kind members (sort_by effect_le l)
          (bmap_get (HostOccurrence.host_occurrence_id o) logical)) prev) = id) by
        exact (proj1 (op_core_fields _ _ (update_op_core _ _)))
  end.
  rewrite Hid. split_and!; try done. apply update_op_core.
Qed.

Lemma derive_none self by_id logical prev_ops prev_effects o :
  derive_operation fresh_operation fresh_effect self by_id logical prev_ops prev_effects o = Ok None <->
  is_ok (try_map (fun id => ok_or (bmap_get id by_id) NormalizeError.InvalidResult)
    (HostOccurrence.source_observation_refs o)) = true /\
  kind_of o (bmap_get (HostOccurrence.host_occurrence_id o) logical) = None.
Proof.
  unfold derive_operation. cbv zeta. destruct (try_map _ _) as [members|e]; simpl; [|naive_solver].
  destruct (kind_of o _) as [kind|]; [|naive_solver]. split; [|naive_solver].
  intros (claims & Hc & H)%rbind_ok. apply rbind_ok in H as (l & Hl & H).
  by apply rbind_ok in H as ([] & Hv & [=]).
Qed.

Lemma normalize_ok self observations previous s :
  normalize fresh_operation fresh_effect self observations previous = Ok s <->
  exists by_id logical derived,
    index_observations [] observations = Ok by_id /\
    match previous with Some p => NormalizationSnapshot.validate p | None => Ok tt end = Ok tt /\
    build_occurrences self observations by_id previous = Ok (occurrences s) /\
    source_local_pairs observations (occurrences s) previous = Ok logical /\
    Forall2 (fun o d => derive_operation fresh_operation fresh_effect self by_id logical
        (bmap_by Operation.host_occurrence_id (option_list previous ≫= NormalizationSnapshot.operations))
        (option_list previous ≫= NormalizationSnapshot.scope_effects) o = Ok d) (occurrences s) derived /\
    operations s = sort_by operation_le (omap id derived).*1 /\
    scope_effects s = sort_by effect_le (concat (omap id derived).*2) /\
    NormalizationSnapshot.validate s = Ok tt.
Proof.
  unfold normalize. cbv zeta. split.
  - intros (by_id & Hi & H)%rbind_ok. apply rbind_ok in H as ([] & Hp & H).
    apply rbind_ok in H as (os & Ho & H). apply rbind_ok in H as (logical & Hl & H).
    apply rbind_ok in H as (derived & Hd%try_map_ok & H). apply rbind_ok in H as ([] & Hv & [= <-]).
    exists by_id, logical, derived. by split_and!.
  - intros (by_id & logical & derived & Hi & Hp & Ho & Hl & Hd%try_map_ok & H1 & H2 & Hv).
    rewrite Hi. cbn [rbind]. rewrite Hp. cbn [rbind]. rewrite Ho. cbn [rbind]. rewrite Hl. cbn [rbind].
    rewrite Hd. cbn [rbind]. destruct s as [os ops effs]; cbn in *. subst. by rewrite Hv.
Qed.
End operations.

(** ** Theorems *)

Section theorems.
Context `{SHA : Sha256} `{L : UuidLib}.
Context (fresh_operation : HostOccurrenceId -> OperationId).
Context (fresh_effect : HostOccurrenceId -> ScopeEffectClaim -> ScopeEffectId).
Context (self : PhysicalNormalizer).

Abbreviation run := (normalize fresh_operation fresh_effect self).

(** C35: normalisation partitions the observations.  The occurrences of a
    successful run have distinct identifiers and together hold every observation
    exactly once; two observations share an occurrence exactly when they have the
    same exact correlation key, so that what is merely ambiguous, conflicted or
    unavailable is never merged. *)
Theorem observations_partitioned observations previous s :
  run observations previous = Ok s ->
  NoDup (HostOccurrence.host_occurrence_id <$> occurrences s) /\
  concat (HostOccurrence.source_observation_refs <$> occurrences s) ≡ₚ id_of <$> observations /\
  (forall o x y, o ∈ occurrences s -> x ∈ observations -> y ∈ observations ->
     id_of x ∈ HostOccurrence.source_observation_refs o ->
     id_of y ∈ HostOccurrence.source_observation_refs o <->
     x = y \/ (key_of x <> None /\ key_of x = key_of y)).
Proof.
  intros (by_id & logical & derived & Hi & _ & Hb & _ & _ & _ & _ & Hv)%normalize_ok. split_and!.
  - by apply snapshot_validate_ok in Hv as [].
  - by eapply occurrences_partition.
  - intros o x y. by eapply occurrence_members.
Qed.

(** Identifiers survive and revisions count the changes, for operations. *)
Definition op_revised (previous : list Operation) (op : Operation) : Prop :=
  (Forall (fun p => Operation.host_occurrence_id p <> Operation.host_occurrence_id op) previous /\
   Operation.operation_id op = fresh_operation (Operation.host_occurrence_id op) /\
   Operation.operation_revision op = 1%N /\ Operation.previous_operation_revision op = None) \/
  (exists p, p ∈ previous /\ Operation.host_occurrence_id p = Operation.host_occurrence_id op /\
   Operation.operation_id p = Operation.operation_id op /\
   (op = p \/
    op_core op <> op_core p /\ (Operation.operation_revision p < U32_MAX)%N /\
    Operation.operation_revision op = (Operation.operation_revision p + 1)%N /\
    Operation.previous_operation_revision op = Some (Operation.operation_revision p))).

Lemma derived_revised by_id logical previous prev_effects o op effects :
  derive_operation fresh_operation fresh_effect self by_id logical
    (bmap_by Operation.host_occurrence_id previous) prev_effects o = Ok (Some (op, effects)) ->
  Forall (fun o => (Operation.operation_revision o <= U32_MAX)%N) previous ->
  op_revised previous op.
Proof.
  intros (members & kind & claims & l & fresh & _ & _ & _ & _ & _ & Hfresh & Hop & Hcore & Hid & Hv)%derive_ok Hf.
  assert (Hr : Operation.operation_revision op <> 0%N).
  { unfold Operation.validate in Hv. ok_steps Hv. by apply N.eqb_neq. }
  assert (Hh : Operation.host_occurrence_id op = HostOccurrence.host_occurrence_id o).
  { apply op_core_fields in Hcore as (_ & -> & _). by rewrite Hfresh. }
  unfold op_revised. rewrite Hh. destruct (bmap_get _ _) as [p|] eqn:E in Hop, Hid.
  - right. apply bmap_by_elem in E as [Hp Hph]. exists p. split_and!; [done..|].
    cbn [update_operation_revision] in Hop. case_bool_decide as Ec; [by left|]. right.
    rewrite Hcore. rewrite Hop in Hr |- *. cbn in Hr |- *. rewrite Forall_forall in Hf.
    destruct (wrapping_succ_nonzero _ (Hf _ Hp) Hr) as [Hlt ->]. split_and!; [|done..].
    intros Hcc. by apply Ec, op_set_revision_core.
  - left. apply bmap_by_None in E. split_and!; [|done|by rewrite Hop, Hfresh..].
    apply Forall_forall. intros p Hp Heq. apply E. rewrite <-Heq. by apply list_elem_of_fmap_2.
Qed.

Lemma elem_of_derived (derived : list (option (Operation * list ScopeEffect))) op :
  op ∈ (omap id derived).*1 <-> exists effects, Some (op, effects) ∈ derived.
Proof.
  rewrite list_elem_of_fmap. split.
  - intros ([op' effects] & -> & (d & Hd & Heq)%list_elem_of_omap). exists effects.
    unfold id in Heq. by subst.
  - intros (effects & H). exists (op, effects). split; [done|]. apply list_elem_of_omap. by exists (Some (op, effects)).
Qed.

(** A run renews the snapshot before it.  An occurrence whose identifier the
    previous snapshot holds is either unchanged or one revision further, naming
    its predecessor; an operation keeps the identifier of the operation of the
    same occurrence, with the same rule; what is new starts at revision 1.  A
    revision of the greatest machine integer cannot be renewed: no revision ever
    wraps around. *)
Theorem renewal_counts_revisions observations previous s :
  run observations previous = Ok s ->
  Forall fits (option_list previous) ->
  Forall (revised (option_list previous ≫= occurrences)) (occurrences s) /\
  Forall (op_revised (option_list previous ≫= operations)) (operations s).
Proof.
  intros (by_id & logical & derived & Hi & Hp & Hb & _ & Hd & Hops & _ & Hv)%normalize_ok Hf.
  assert (Hfits : Forall (fun o => (HostOccurrence.normalization_revision o <= U32_MAX)%N)
      (option_list previous ≫= occurrences) /\
    Forall (fun o => (Operation.operation_revision o <= U32_MAX)%N) (option_list previous ≫= operations) /\
    NoDup (HostOccurrence.host_occurrence_id <$> (option_list previous ≫= occurrences))).
  { destruct previous as [p|]; [|split_and!; constructor]. cbn in *. rewrite !app_nil_r.
    apply Forall_singleton in Hf as [H1 H2]. split_and!; [done..|]. by apply snapshot_validate_ok in Hp as []. }
  destruct Hfits as (H1 & H2 & H3). split.
  - apply Forall_forall. intros o Ho.
    destruct (occurrence_origin _ _ _ _ _ Hi Hb o Ho) as [[key members fresh _ _ He _ _ _ _ _ Hr Hr0
      |x fresh _ _ He _ _ _ Hr Hr0] Hov]; by eapply update_revised.
  - apply Forall_forall. intros op. rewrite Hops, sort_by_perm, elem_of_derived. intros (effects & Hin).
    destruct (Forall2_elem_r Hd Hin) as (o & _ & Ho). by eapply derived_revised.
Qed.

(** ** Watermarks *)

Definition watermarks (payloads : list JournalPayload) : list NormalizationWatermark :=
  omap (fun payload => match payload with
                       | JournalPayload.NormalizationWatermark value => Some value
                       | _ => None
                       end) payloads.

Lemma resolver_constant observations previous s :
  run observations previous = Ok s ->
  resolver_by_observation s
  = (fun id => (id, resolver_version self)) <$> bset_of_list (id_of <$> observations).
Proof.
  intros (by_id & logical & derived & Hi & _ & Hb & _ & _ & _ & _ & _)%normalize_ok.
  unfold resolver_by_observation. rewrite (bmap_const (resolver_version self)).
  - f_equal. apply sorted_lt_ext; [apply bset_sorted..|]. intros id. rewrite !elem_of_bset.
    rewrite <-(occurrences_partition _ _ _ _ _ Hi Hb), elem_of_concat_fmap, list_elem_of_fmap. split.
    + intros ([id' v] & -> & (o & Hid & Ho)%list_elem_of_bind). exists o. split; [done|].
      by apply list_elem_of_fmap in Hid as (id'' & [= -> ->] & Hid).
    + intros (o & Ho & Hid). exists (id, HostOccurrence.correlation_resolver_version o). split; [done|].
      apply list_elem_of_bind. exists o. split; [|done]. by apply (list_elem_of_fmap_2 (fun id => (id, _))).
  - apply Forall_forall. intros [id v] (o & (id' & [= -> ->] & _)%list_elem_of_fmap & Ho)%list_elem_of_bind.
    cbn. destruct (occurrence_origin _ _ _ _ _ Hi Hb o Ho) as [[key members fresh _ _ -> _ _ _ _ Hver _ _
      |x fresh _ _ -> _ _ Hver _ _] _]; rewrite <-Hver;
      exact (f_equal HostOccurrence.correlation_resolver_version (update_core _ _)).
Qed.

Lemma watermarks_of s :
  watermarks (payloads_of s) = (fun e => NormalizationWatermark.mk e.1 e.2) <$> resolver_by_observation s.
Proof.
  unfold payloads_of, watermarks. rewrite !omap_app.
  assert (Hn : forall A (f : A -> JournalPayload) (l : list A),
    (forall x, match f x with JournalPayload.NormalizationWatermark value => Some value | _ => None end = None) ->
    omap (fun payload => match payload with JournalPayload.NormalizationWatermark value => Some value | _ => None end)
      (f <$> l) = []).
  { intros A f l Hf. induction l as [|x l IH]; [done|]. cbn. by rewrite Hf. }
  rewrite !Hn by done. cbn [app]. induction (resolver_by_observation s) as [|e l IH]; [done|].
  cbn. by f_equal.
Qed.

(** A run can be recorded, and the record closes its input.  With a
    well-formed context the command of a successful run is made exactly when the
    number of payloads fits a command; its payloads are those of the snapshot, and
    its watermarks name every observation once, under the resolver's version. *)
Theorem run_recorded observations previous s command_id occurred_at_us hash algorithm_revision :
  run observations previous = Ok s ->
  (0 <= occurred_at_us)%Z -> algorithm_revision <> ""%string -> (str_len algorithm_revision <= 256)%N ->
  match journal_command s command_id occurred_at_us hash algorithm_revision with
  | Ok command =>
      observations <> [] /\ (N.of_nat (length (payloads_of s)) <= U16_MAX)%N /\
      payloads command = payloads_of s /\
      watermarks (payloads command)
      = (fun id => NormalizationWatermark.mk id (resolver_version self))
          <$> bset_of_list (id_of <$> observations)
  | Err e =>
      e = NormalizeError.InvalidResult /\
      (observations = [] \/ (U16_MAX < N.of_nat (length (payloads_of s)))%N)
  end.
Proof.
  intros Hrun Ht Ha Hl. pose proof (resolver_constant _ _ _ Hrun) as Hr.
  pose proof (proj1 (normalize_ok _ _ _ _ _ _) Hrun) as (by_id & logical & derived & Hi & _ & Hb & _ & Hd & Hops & Heff & Hv).
  assert (Hempty : payloads_of s = [] <-> observations = []).
  { split.
    - unfold payloads_of. intros H. apply app_eq_nil in H as [Ho%fmap_nil_inv _].
      pose proof (occurrences_partition _ _ _ _ _ Hi Hb) as Hperm. rewrite Ho in Hperm. cbn in Hperm.
      by apply Permutation_nil, fmap_nil_inv in Hperm.
    - intros ->. unfold payloads_of. rewrite Hr. cbn. injection Hi as <-. cbn in Hb. injection Hb as Hos.
      rewrite <-Hos in Hd |- *. inversion Hd; subst. rewrite Hops, Heff. done. }
  unfold journal_command. rewrite Hv. cbn [rbind].
  replace ((occurred_at_us <? 0)%Z || str_is_empty algorithm_revision
           || (256 <? str_len algorithm_revision)%N) with false.
  2:{ symmetry. rewrite !orb_false_iff. split_and!; [by apply Z.ltb_ge|by apply str_is_empty_false|by apply N.ltb_ge]. }
  cbn [guard rbind]. unfold JournalCommand.new, invalid_result. rewrite length_fmap.
  destruct (is_empty _) eqn:E; cbn [orb guard rbind map_err].
  { apply is_empty_true, fmap_nil_inv in E. split; [done|]. left. by apply Hempty. }
  apply is_empty_false in E. destruct (N.ltb_spec U16_MAX (N.of_nat (length (payloads_of s)))); cbn [guard rbind map_err].
  { split; [done|]. by right. }
  assert (Hp : payloads (JournalCommand.mk command_id ((fun payload =>
    JournalEventDraft.mk occurred_at_us SourceKind.System EventScope.default None None hash
      algorithm_revision payload) <$> payloads_of s)) = payloads_of s).
  { unfold payloads. cbn. rewrite <-list_fmap_compose. apply list_fmap_id. }
  rewrite Hp. split_and!; [|done..|].
  - intros Ho. apply E. by rewrite (proj2 Hempty Ho).
  - rewrite watermarks_of, Hr, <-list_fmap_compose. done.
Qed.
End theorems.
