(* ===== verification/NormalizeStable.v ===== *)
(** * Stability of physical normalisation

    Renormalising the observations of a first run, or observations without
    source-local evidence, changes nothing, whatever identifiers the second run
    draws; one group with an unmatched intent and another observation fails the
    whole run.

    Sample observations (an exactly correlated intent and result, an ambiguous
    message, a source-local call and its result), and the theorems of
    NormalizeFacts and NormalizeStable applied to them.  SHA-256 is replaced by
    the identity, which has no collisions. *)

From S2P Require Import Prelude Order Collections OrderedMap Text Canonical Ids Lane Journal Attempt Evidence Normalize NormalizeFacts.

Import PhysicalNormalizer NormalizationSnapshot.

Lemma count_role_perm role l m : l ≡ₚ m -> count_role role l = count_role role m.
Proof. intros H. by apply Permutation_length, filter_perm. Qed.

Lemma bind_some {A B} (f : A -> list B) x : option_list (Some x) ≫= f = f x.
Proof. apply app_nil_r. Qed.

Lemma Forall2_impl_elem {A B} (R S : A -> B -> Prop) l m :
  Forall2 R l m -> (forall x y, x ∈ l -> y ∈ m -> R x y -> S x y) -> Forall2 S l m.
Proof.
  induction 1 as [|x y l m Hxy _ IH]; intros HS; constructor; [apply HS; [left|left|done]|].
  apply IH. intros x' y' Hx' Hy'. apply HS; by right.
Qed.

Lemma other_role role l :
  (count_role role l < length l)%nat -> exists x, x ∈ l /\ role_of x <> role.
Proof.
  unfold count_role. induction l as [|x l IH]; simpl; [lia|].
  case_bool_decide as E; simpl; intros H.
  - destruct IH as (y & Hy & Hr); [lia|]. exists y. split; [by right|done].
  - exists x. split; [left|done].
Qed.

Section orphan.
Context `{SHA : Sha256} `{L : UuidLib}.
Context (fresh_operation : HostOccurrenceId -> OperationId).
Context (fresh_effect : HostOccurrenceId -> ScopeEffectClaim -> ScopeEffectId).
Context (self : PhysicalNormalizer).

(** The occurrence of an exact key. *)
Lemma exact_occurrence_of observations by_id previous os key x :
  index_observations [] observations = Ok by_id ->
  build_occurrences self observations by_id previous = Ok os ->
  x ∈ observations -> key_of x = Some key ->
  exists o, o ∈ os /\ id_of x ∈ HostOccurrence.source_observation_refs o /\
    HostOccurrence.canonical_event_family o = Some (HostOccurrenceExactKey.canonical_event_family key) /\
    HostOccurrence.pairing_state o = pairing_state (members_of key_of key by_id.*2) true.
Proof.
  intros Hi Hb Hx Hk.
  assert (Hin : id_of x ∈ concat (HostOccurrence.source_observation_refs <$> os)).
  { rewrite (occurrences_partition _ _ _ _ _ Hi Hb). by apply list_elem_of_fmap_2. }
  apply elem_of_concat_fmap in Hin as (o & Ho & Hin). exists o. split; [done|]. split; [done|].
  pose proof (index_observations_ok _ _ Hi) as (_ & Hn & _). pose proof (index_values _ _ Hi) as Hv.
  destruct (occurrence_origin _ _ _ _ _ Hi Hb o Ho) as
    [[key' members fresh -> _ -> _ Hrefs Hf Hp _ _ _|z fresh Hz Hzk -> _ Hrefs _ _ _] _].
  - rewrite (core_refs _ _ (update_core _ _)), Hrefs, elem_of_vec_sort in Hin.
    apply list_elem_of_fmap in Hin as (y & Hxy & [Hy Hyk]%elem_of_members). rewrite Hv in Hy.
    assert (x = y) as <- by by apply (NoDup_fmap_elem id_of observations).
    assert (key' = key) as -> by congruence. split.
    + rewrite <-Hf. exact (f_equal HostOccurrence.canonical_event_family (update_core _ _)).
    + rewrite <-Hp. exact (f_equal HostOccurrence.pairing_state (update_core _ _)).
  - exfalso. rewrite (core_refs _ _ (update_core _ _)), Hrefs, list_elem_of_singleton in Hin.
    assert (x = z) as <- by by apply (NoDup_fmap_elem id_of observations). congruence.
Qed.

Lemma try_get_elem (by_id : list (SourceObservationId * SourceObservation)) refs members id x :
  try_map (fun id => ok_or (bmap_get id by_id) NormalizeError.InvalidResult) refs = Ok members ->
  id ∈ refs -> bmap_get id by_id = Some x -> x ∈ members.
Proof.
  intros H%try_map_ok. induction H as [|i y refs members Hy _ IH]; [by intros ?%elem_of_nil|].
  apply ok_or_ok in Hy. intros [-> |Hin]%elem_of_cons Hx; [|right; by apply IH].
  replace x with y by congruence. left.
Qed.

(** An unmatched intent with company fails the whole batch.  When the
    observations of one executable exact key are one intent, no result and
    anything else, such as a state probe, every run over a batch that contains
    them is refused, whatever the rest of the batch and the previous snapshot:
    the group is classed as an unmatched intent, yet all its other observations
    are stored as results. *)
Theorem orphan_intent_fails_batch observations key previous :
  operation_kind (HostOccurrenceExactKey.canonical_event_family key) <> None ->
  let members := members_of key_of key observations in
  count_role ObservationRole.Intent members = 1%nat ->
  count_role ObservationRole.Result members = 0%nat ->
  (1 < length members)%nat ->
  is_err (normalize fresh_operation fresh_effect self observations previous) = true.
Proof.
  intros Hkind members Hint Hres Hlen. destruct (normalize _ _ _ _ _) as [s|] eqn:E; [exfalso|done].
  apply normalize_ok in E as (by_id & logical & derived & Hi & _ & Hb & _ & Hd & _).
  destruct (other_role ObservationRole.Intent members) as (y & Hy & Hrole); [lia|].
  apply elem_of_members in Hy as [Hy Hyk].
  destruct (exact_occurrence_of _ _ _ _ _ _ Hi Hb Hy Hyk) as (o & Ho & Hin & Hfam & Hpair).
  destruct (Forall2_elem_l Hd Ho) as ([[op effects]|] & _ & Hop).
  - apply derive_ok in Hop as (ms & kind & claims & l & fresh & Hms & _ & _ & _ & _ & Hfresh & _ & Hcore & _ & Hval).
    apply op_core_fields in Hcore as (_ & _ & Hst & _ & Hr & _).
    assert (Hst' : Operation.pairing_state op = PairingState.UnmatchedIntent).
    { rewrite Hst, Hfresh. cbn. rewrite Hpair. unfold pairing_state.
      pose proof (members_of_perm key_of key _ _ (index_values _ _ Hi)) as Hm. fold members in Hm.
      by rewrite !(count_role_perm _ _ _ Hm), Hint, Hres. }
    assert (Hy' : id_of y ∈ Operation.result_source_observation_refs op).
    { rewrite Hr, Hfresh. cbn. rewrite elem_of_vec_sort. apply list_elem_of_fmap_2.
      rewrite list_elem_of_In, filter_In, <-list_elem_of_In. split; [|by rewrite bool_decide_eq_false_2].
      eapply try_get_elem; [exact Hms|exact Hin|]. by apply (index_get _ _ _ _ Hi). }
    unfold Operation.validate in Hval. ok_steps Hval. unfold Operation.pairing_mismatch in *.
    rewrite Hst' in *. guards. by destruct (Operation.result_source_observation_refs op); [apply elem_of_nil in Hy'|].
  - apply derive_none in Hop as [_ Hk]. unfold kind_of in Hk. rewrite Hfam in Hk. cbn in Hk.
    by destruct (operation_kind _).
Qed.
End orphan.

(** ** Renewal against the same observations *)

Section renewal.
Context `{SHA : Sha256} `{L : UuidLib}.
(** What the first run draws, and what the run after it would draw. *)
Context (fresh_operation fresh_operation' : HostOccurrenceId -> OperationId).
Context (fresh_effect fresh_effect' : HostOccurrenceId -> ScopeEffectClaim -> ScopeEffectId).
Context (self : PhysicalNormalizer).

Lemma update_self fresh o :
  core o = core fresh -> update_occurrence_revision fresh (Some o) = o.
Proof. intros H. unfold update_occurrence_revision. rewrite bool_decide_eq_true_2; [done|]. by apply set_revision_core. Qed.

Lemma try_map_ext {E A B} (f g : A -> result E B) l l' :
  try_map f l = Ok l' -> (forall x y, x ∈ l -> y ∈ l' -> f x = Ok y -> g x = Ok y) ->
  try_map g l = Ok l'.
Proof. rewrite !try_map_ok. apply Forall2_impl_elem. Qed.

Section occurrences.
Context (os : list HostOccurrence).
Hypothesis Hos : NoDup (HostOccurrence.host_occurrence_id <$> os).

Lemma renewed_occurrence fresh o previous :
  o ∈ os -> o = update_occurrence_revision fresh previous ->
  update_occurrence_revision fresh (bmap_get (HostOccurrence.host_occurrence_id fresh)
    (bmap_by HostOccurrence.host_occurrence_id os)) = o.
Proof.
  intros Ho Heq. assert (Hc : core o = core fresh) by (rewrite Heq; apply update_core).
  rewrite <-(core_id _ _ Hc), (proj2 (bmap_by_get _ _ _ o Hos)); [by apply update_self|done].
Qed.

Lemma renewed_exact version key members previous o :
  o ∈ os -> build_exact_occurrence version key members previous = Ok o ->
  build_exact_occurrence version key members (bmap_by HostOccurrence.host_occurrence_id os) = Ok o.
Proof.
  unfold build_exact_occurrence. intros Ho (id & -> & H)%rbind_ok. cbn [rbind]. cbv zeta in *.
  apply rbind_ok in H as ([] & Hv & [= Heq]).
  assert (R : update_occurrence_revision (exact_occurrence version key members id)
    (bmap_get id (bmap_by HostOccurrence.host_occurrence_id os)) = o)
    by exact (renewed_occurrence _ o _ Ho (eq_sym Heq)).
  rewrite R, <-Heq, Hv. done.
Qed.

Lemma renewed_nonexact version x conflicts previous o :
  o ∈ os -> build_nonexact_occurrence version x conflicts previous = Ok o ->
  build_nonexact_occurrence version x conflicts (bmap_by HostOccurrence.host_occurrence_id os) = Ok o.
Proof.
  unfold build_nonexact_occurrence. cbv zeta. intros Ho (id & -> & H)%rbind_ok. cbn [rbind].
  apply rbind_ok in H as ([] & Hv & [= Heq]).
  assert (R : update_occurrence_revision (nonexact_occurrence version x (strength_of conflicts x) id)
    (bmap_get id (bmap_by HostOccurrence.host_occurrence_id os)) = o)
    by exact (renewed_occurrence _ o _ Ho (eq_sym Heq)).
  rewrite R, <-Heq, Hv. done.
Qed.
End occurrences.

Lemma renewed_occurrences observations by_id previous s :
  build_occurrences self observations by_id previous = Ok (occurrences s) ->
  NoDup (HostOccurrence.host_occurrence_id <$> occurrences s) ->
  build_occurrences self observations by_id (Some s) = Ok (occurrences s).
Proof.
  unfold build_occurrences. cbv zeta. intros H Hn. rewrite bind_some. apply rbind_ok in H as (exact & He & H). apply rbind_ok in H as (rest & Hr & [= Hos]).
  assert (Hin : forall o, o ∈ exact ++ rest -> o ∈ occurrences s) by (intros o; by rewrite <-Hos, sort_by_perm).
  rewrite (try_map_ext _ (fun group => build_exact_occurrence (resolver_version self) group.1 group.2
    (bmap_by HostOccurrence.host_occurrence_id (occurrences s))) _ exact He).
  2:{ intros g o _ Ho. apply renewed_exact; [done|]. apply Hin, elem_of_app. by left. }
  cbn [rbind]. rewrite (try_map_ext _ (fun x => build_nonexact_occurrence (resolver_version self) x
    (conflicting_partial_refs observations)
    (bmap_by HostOccurrence.host_occurrence_id (occurrences s))) _ rest Hr).
  2:{ intros x o _ Ho. apply renewed_nonexact; [done|]. apply Hin, elem_of_app. by right. }
  cbn [rbind]. by rewrite Hos.
Qed.

(** ** Effects *)

Lemma merge_claim_sorted observation claims claim :
  bmap_sorted claims -> bmap_sorted (merge_claim observation claims claim).
Proof. apply bmap_alter_sorted. Qed.

Lemma merge_claims_sorted observation l claims claims' :
  merge_claims observation claims l = Ok claims' -> bmap_sorted claims -> bmap_sorted claims'.
Proof.
  revert claims. induction l as [|c l IH]; intros claims H Hs; simpl in H; [by injection H as <-|].
  apply rbind_ok in H as ([] & _ & H). by eapply IH; [exact H|apply merge_claim_sorted].
Qed.

(** The merged claims are pairwise distinct in what an effect is matched by. *)
Lemma merged_distinct members claims e c c' :
  merge_scope_claims members = Ok claims -> c ∈ claims -> c' ∈ claims ->
  effect_matches_claim e c = true -> effect_matches_claim e c' = true -> c = c'.
Proof.
  unfold merge_scope_claims. intros (m & Hm & [= <-])%rbind_ok.
  assert (Hs : bmap_sorted m).
  { revert Hm. assert (H0 : bmap_sorted (@nil (ScopeClaimKey * list SourceObservationId))) by constructor. revert H0.
    generalize (@nil (ScopeClaimKey * list SourceObservationId)). induction members as [|x l IH]; intros acc H0 Hm; simpl in Hm.
    - by injection Hm as <-.
    - apply rbind_ok in Hm as (acc' & Ha & Hm). eapply IH; [|exact Hm]. by eapply merge_claims_sorted. }
  intros ([k v] & -> & Hk)%list_elem_of_fmap ([k' v'] & -> & Hk')%list_elem_of_fmap.
  unfold effect_matches_claim. intros H1 H2. guards_in H1. guards_in H2. cbn in *.
  assert (k = k') as <- by (destruct k, k'; cbn in *; congruence).
  apply elem_of_bmap in Hk, Hk'; [|done..]. congruence.
Qed.

Lemma derive_effect_ok effects occurrence operation_id claim e :
  derive_effect fresh_effect effects occurrence operation_id claim = Ok e ->
  ScopeEffect.operation_id e = operation_id /\ effect_matches_claim e claim = true /\
  ScopeEffect.validate e = Ok tt.
Proof.
  unfold derive_effect. cbv zeta. intros ([] & Hv & [= <-])%rbind_ok.
  unfold invalid_result in Hv. rewrite map_err_ok in Hv.
  destruct (List.find _ effects) as [e|] eqn:E; cbn [default from_option id] in *.
  - apply List.find_some in E as [_ E]. guards. done.
  - split_and!; [done| |done]. unfold effect_matches_claim, new_effect; cbn.
    by rewrite !bool_decide_eq_true_2.
Qed.

(** An effect that is the only one for its operation and claim is found again. *)
Lemma derive_effect_again effects occurrence operation_id claim e :
  e ∈ effects -> ScopeEffect.operation_id e = operation_id -> effect_matches_claim e claim = true ->
  ScopeEffect.validate e = Ok tt ->
  (forall e', e' ∈ effects -> ScopeEffect.operation_id e' = operation_id ->
     effect_matches_claim e' claim = true -> e' = e) ->
  derive_effect fresh_effect' effects occurrence operation_id claim = Ok e.
Proof.
  intros He Ho Hm Hv Hu. unfold derive_effect. cbv zeta.
  destruct (List.find _ effects) as [e'|] eqn:E.
  - apply List.find_some in E as [He' E%andb_true_iff]. destruct E as [E1%bool_decide_eq_true E2].
    rewrite <-list_elem_of_In in He'. rewrite (Hu e' He' E1 E2). cbn. by rewrite Hv.
  - exfalso. apply list_elem_of_In in He. pose proof (List.find_none _ _ E e He) as Hf. cbv beta in Hf.
    rewrite Hm in Hf. by case_bool_decide.
Qed.

(** ** Operations *)

Lemma derived_hosts by_id logical prev_ops prev_effects os derived :
  Forall2 (fun o d => derive_operation fresh_operation fresh_effect self by_id logical prev_ops prev_effects o
    = Ok d) os derived ->
  NoDup (HostOccurrence.host_occurrence_id <$> os) ->
  NoDup (Operation.host_occurrence_id <$> (omap id derived).*1) /\
  (forall op, op ∈ (omap id derived).*1 -> Operation.host_occurrence_id op ∈ HostOccurrence.host_occurrence_id <$> os).
Proof.
  induction 1 as [|o d os derived Ho _ IH]; [intros _; split; [constructor|by intros ? ?%elem_of_nil]|].
  intros [Hn Hd]%NoDup_cons. destruct (IH Hd) as [IH1 IH2]. destruct d as [[op effects]|]; cbn.
  - apply derive_ok in Ho as (ms & kd & cl & le & fresh & _ & _ & _ & _ & _ & Hf & _ & Hc & _).
    assert (Hh : Operation.host_occurrence_id op = HostOccurrence.host_occurrence_id o).
    { apply op_core_fields in Hc as (_ & -> & _). by rewrite Hf. }
    split.
    + constructor; [|done]. intros (op' & Heq & Hop')%list_elem_of_fmap. apply Hn.
      rewrite <-Hh, Heq. by apply IH2.
    + intros op' [-> |Hop']%elem_of_cons; [rewrite Hh; left|right; by apply IH2].
  - split; [done|]. intros op' Hop'. right. by apply IH2.
Qed.

(** ** Pairings *)

(** The key of a pairing. *)
Definition pairing_key (pairing : SourceLocalPairing) : SourceLocalNamespace * string :=
  (SourceLocalPairing.namespace pairing, SourceLocalPairing.request_id pairing).

(** A pairing stands where the anchor of its group is. *)
Definition anchored (os : list HostOccurrence) (previous : option NormalizationSnapshot)
    (groups : list (SourceLocalNamespace * string * list Member))
    (anchor : HostOccurrenceId) (pairing : SourceLocalPairing) : Prop :=
  exists members first_result rest, (pairing_key pairing, members) ∈ groups /\
  ids_with ObservationRole.Result members = first_result :: rest /\
  anchor_of (SourceLocalPairing.namespace pairing) (SourceLocalPairing.request_id pairing)
    first_result os previous = Some anchor.

Lemma pair_group_ok os previous paired group paired' :
  pair_group os previous paired group = Ok paired' ->
  paired' = paired \/
  exists anchor pairing, paired' = bmap_insert anchor pairing paired /\
    anchored os previous [group] anchor pairing.
Proof.
  unfold pair_group. destruct group as [[ns req] members].
  destruct (ids_with ObservationRole.Result members) as [|first rest] eqn:E; [intros [= <-]; by left|].
  intros (anchor & Ha%ok_or_ok & H)%rbind_ok. destruct (_ && _); [injection H as <-; by left|].
  apply rbind_ok in H as ([] & _ & [= <-]). right. eexists anchor, _. split; [done|].
  exists members, first, rest. split; [left|]. by split.
Qed.

Lemma pairs_anchored os previous groups paired0 paired :
  try_fold (pair_group os previous) paired0 groups = Ok paired ->
  forall anchor pairing, (anchor, pairing) ∈ paired ->
  (anchor, pairing) ∈ paired0 \/ anchored os previous groups anchor pairing.
Proof.
  revert paired0. induction groups as [|g groups IH]; intros paired0 H anchor pairing Hin; simpl in H.
  { injection H as <-. by left. }
  apply rbind_ok in H as (paired1 & Hg & H).
  destruct (IH _ H _ _ Hin) as [H1|(members & first & rest & Hm & Hr)].
  - destruct (pair_group_ok _ _ _ _ _ Hg) as [-> |(a & p & -> & members & first & rest & Hm & Hr)]; [by left|].
    apply bmap_insert_elem in H1 as [[= -> ->]|H1]; [|by left]. right. exists members, first, rest.
    split; [|done]. apply list_elem_of_singleton in Hm as ->. left.
  - right. exists members, first, rest. split; [by right|done].
Qed.

(** The groups are a map: one group per key. *)
Lemma groups_sorted calls witnesses observations groups0 groups :
  try_fold (group_call calls witnesses) groups0 observations = Ok groups ->
  bmap_sorted groups0 -> bmap_sorted groups.
Proof.
  revert groups0. induction observations as [|x l IH]; intros groups0 H Hs; simpl in H; [by injection H as <-|].
  apply rbind_ok in H as (groups1 & Hg & H). apply (IH _ H). revert Hg. unfold group_call.
  destruct (bmap_get _ calls); [|intros [= <-]; done]. destruct (bmap_get _ witnesses) as [[|[? ?] ?]|]; [intros [= <-]; done| |intros [= <-]; done].
  intros ([] & _ & [= <-])%rbind_ok. by apply bmap_alter_sorted.
Qed.

(** What the operations of a first run carry leads back to the same anchors. *)
Lemma renewed_pairs observations os s logical :
  source_local_pairs observations os None = Ok logical ->
  (forall op, op ∈ operations s -> Operation.source_local_pairing op
    = bmap_get (Operation.host_occurrence_id op) logical) ->
  source_local_pairs observations os (Some s) = Ok logical.
Proof.
  unfold source_local_pairs. cbv zeta. intros (c & -> & H)%rbind_ok Hops. cbn [rbind].
  apply rbind_ok in H as (groups & Hg & H). rewrite Hg. cbn [rbind].
  apply groups_sorted in Hg as Hs; [|constructor].
  assert (Hcarry : forall anchor pairing, bmap_get anchor logical = Some pairing ->
    anchored os None groups anchor pairing).
  { intros anchor pairing Hget%bmap_get_elem. destruct (pairs_anchored _ _ _ _ _ H _ _ Hget) as [Hn|]; [|done].
    by apply elem_of_nil in Hn. }
  clear Hg. revert H. assert (Hsub : groups ⊆ groups) by done. revert Hsub.
  generalize (@nil (HostOccurrenceId * SourceLocalPairing)) as acc.
  cut (forall gs acc, gs ⊆ groups -> try_fold (pair_group os None) acc gs = Ok logical ->
    try_fold (pair_group os (Some s)) acc gs = Ok logical); [intros Hc acc Hsub; by apply Hc|].
  induction gs as [|g gs IH]; intros acc Hsub H; [done|]. simpl in H |- *.
  apply rbind_ok in H as (acc' & Hgrp & H).
  assert (pair_group os (Some s) acc g = Ok acc') as ->; [|cbn [rbind]; apply IH; [set_solver|done]].
  assert (Hin : g ∈ groups) by (apply Hsub; left). clear IH H Hsub. revert Hgrp.
  destruct g as [[ns req] members]. unfold pair_group.
  destruct (ids_with ObservationRole.Result members) as [|first rest] eqn:E; [done|].
  intros (anchor & Ha%ok_or_ok & Hgrp)%rbind_ok.
  assert (anchor_of ns req first os (Some s) = Some anchor) as ->; [|done].
  unfold anchor_of at 1. rewrite bind_some. destruct (List.find _ (operations s)) as [op|] eqn:Ef.
  - apply List.find_some in Ef as [Hop%list_elem_of_In Hc]. rewrite (Hops op Hop) in Hc.
    destruct (bmap_get (Operation.host_occurrence_id op) logical) as [pairing|] eqn:Eg; [|done]. cbn in Hc.
    guards_in Hc. subst ns req. apply Hcarry in Eg as (members' & first' & rest' & Hm & Hr & Ha').
    apply elem_of_bmap in Hm, Hin; [|done..]. unfold pairing_key in Hm. rewrite Hm in Hin. injection Hin as ->.
    congruence.
  - exact Ha.
Qed.

(** Without source-local evidence there are no pairings. *)
Lemma no_local_pairs observations os previous :
  Forall (fun x => SourceObservation.source_local_evidence x = None) observations ->
  source_local_pairs observations os previous = Ok [].
Proof.
  intros Hn. unfold source_local_pairs. cbv zeta.
  assert (forall acc, foldl collect_call acc observations = acc) as ->.
  { induction Hn as [|x l Hx _ IH]; intros acc; [done|]. simpl. unfold collect_call at 2. rewrite Hx. apply IH. }
  assert (try_fold support_calls ([], []) observations = Ok ([], [])) as ->.
  { induction Hn as [|x l Hx _ IH]; [done|]. simpl. unfold support_calls at 1. by rewrite Hx. }
  cbn [rbind fst snd].
  assert (try_fold (group_call [] []) [] observations = Ok []) as ->.
  { clear Hn. induction observations as [|x l IH]; [done|]. simpl. exact IH. }
  done.
Qed.

(** ** The run again *)

Lemma derived_operation by_id logical prev_ops prev_effects o op effects :
  derive_operation fresh_operation fresh_effect self by_id logical prev_ops prev_effects o
    = Ok (Some (op, effects)) ->
  Operation.host_occurrence_id op = HostOccurrence.host_occurrence_id o /\
  Operation.source_local_pairing op = bmap_get (Operation.host_occurrence_id op) logical.
Proof.
  intros (ms & kd & cl & l & fresh & _ & _ & _ & _ & _ & Hf & _ & Hc & _)%derive_ok.
  apply op_core_fields in Hc as (_ & Hh & _ & _ & _ & Hp). rewrite Hh, Hp, Hf. done.
Qed.

Section again.
Context (by_id : list (SourceObservationId * SourceObservation)).
Context (logical : list (HostOccurrenceId * SourceLocalPairing)).
Context (prev_ops : list (HostOccurrenceId * Operation)) (prev_effects : list ScopeEffect).
Context (s : NormalizationSnapshot) (derived : list (option (Operation * list ScopeEffect))).
Hypothesis Hderived : Forall2 (fun o d => derive_operation fresh_operation fresh_effect self by_id logical
  prev_ops prev_effects o = Ok d) (occurrences s) derived.
Hypothesis Hops : operations s = sort_by operation_le (omap id derived).*1.
Hypothesis Heffects : scope_effects s = sort_by effect_le (concat (omap id derived).*2).
Hypothesis Hos : NoDup (HostOccurrence.host_occurrence_id <$> occurrences s).
Hypothesis Hids : NoDup (Operation.operation_id <$> operations s).

Lemma elem_of_operations op : op ∈ operations s <-> exists effects, Some (op, effects) ∈ derived.
Proof. by rewrite Hops, sort_by_perm, elem_of_derived. Qed.

Lemma elem_of_effects e :
  e ∈ scope_effects s <-> exists op effects, Some (op, effects) ∈ derived /\ e ∈ effects.
Proof.
  rewrite Heffects, sort_by_perm. rewrite (elem_of_concat_fmap snd). split.
  - intros ([op effects] & (d & Hd & Heq)%list_elem_of_omap & He). exists op, effects.
    unfold id in Heq. subst d. done.
  - intros (op & effects & Hd & He). exists (op, effects). split; [|done].
    apply list_elem_of_omap. by exists (Some (op, effects)).
Qed.

(** Operations determine their occurrence and effects. *)
Lemma derived_unique op effects effects' :
  Some (op, effects) ∈ derived -> Some (op, effects') ∈ derived -> effects = effects'.
Proof.
  intros (o & Ho & H)%(Forall2_elem_r Hderived) (o' & Ho' & H')%(Forall2_elem_r Hderived).
  assert (o = o') as <-; [|congruence]. apply (NoDup_fmap_elem _ _ _ _ Hos Ho Ho').
  apply derived_operation in H as [<- _], H' as [<- _]. done.
Qed.

Lemma derive_again o d :
  o ∈ occurrences s -> d ∈ derived ->
  derive_operation fresh_operation fresh_effect self by_id logical prev_ops prev_effects o = Ok d ->
  derive_operation fresh_operation' fresh_effect' self by_id logical
    (bmap_by Operation.host_occurrence_id (operations s)) (scope_effects s) o = Ok d.
Proof.
  intros Ho Hd H. destruct d as [[op effects]|]; [|by apply derive_none; apply derive_none in H].
  destruct (derived_operation _ _ _ _ _ _ _ H) as [Hh _].
  apply derive_ok in H as (ms & kind & claims & l & fresh & Hm & Hk & Hc & Hl & He & Hf & _ & Hcore & _ & Hv).
  assert (Hop : op ∈ operations s) by (apply elem_of_operations; eauto).
  assert (Hget : bmap_get (HostOccurrence.host_occurrence_id o)
    (bmap_by Operation.host_occurrence_id (operations s)) = Some op).
  { apply bmap_by_get; [|done]. rewrite Hops, sort_by_perm. by apply (derived_hosts _ _ _ _ _ _ Hderived). }
  unfold derive_operation. cbv zeta. rewrite Hm. cbn [rbind]. rewrite Hk, Hc. cbn [rbind]. rewrite Hget.
  rewrite (try_map_ext _ (derive_effect fresh_effect' (scope_effects s) (HostOccurrence.host_occurrence_id o)
    (Operation.operation_id op)) _ _ Hl).
  - cbn [rbind]. rewrite <-He, <-Hf, update_op_self by done. by rewrite Hv.
  - intros c e Hcin Hein Hce. apply derive_effect_ok in Hce as Hce'. destruct Hce' as (Hoe & Hme & Hve).
    apply derive_effect_again; [|done..|].
    + apply elem_of_effects. exists op, effects. split; [done|]. by rewrite He, sort_by_perm.
    + intros e' (op' & effects' & Hd' & He')%elem_of_effects Ho' Hm'.
      destruct (Forall2_elem_r Hderived Hd') as (o' & _ & H').
      apply derive_ok in H' as (ms' & kind' & claims' & l' & fresh' & _ & _ & _ & Hl' & Hs' & _).
      rewrite Hs', sort_by_perm in He'. apply try_map_ok in Hl'.
      destruct (Forall2_elem_r Hl' He') as (c' & Hc' & Hce'). apply derive_effect_ok in Hce' as (Hoe' & _).
      assert (op' = op) as ->.
      { apply (NoDup_fmap_elem _ _ _ _ Hids); [apply elem_of_operations; eauto|done|congruence]. }
      rewrite (derived_unique _ _ _ Hd' Hd) in Hs'.
      assert (He2 : e' ∈ l).
      { rewrite <-(sort_by_perm effect_le l), <-He, Hs', sort_by_perm. done. }
      apply try_map_ok in Hl. destruct (Forall2_elem_r Hl He2) as (c2 & Hc2 & Hce2).
      apply derive_effect_ok in Hce2 as Hce3. destruct Hce3 as (_ & Hm2 & _).
      assert (c2 = c) as -> by by eapply merged_distinct. congruence.
Qed.
End again.

(** C38: renormalisation is idempotent, whatever identifiers are drawn.  Let a
    run succeed, either a first run or one over observations without
    source-local evidence.  A second run over the same observations, against
    the snapshot just made, gives that snapshot back although every identifier
    it would draw may be different: each operation and each effect is found
    again and keeps its identifier and its revision. *)
Theorem renormalization_stable observations previous s :
  previous = None \/ Forall (fun x => SourceObservation.source_local_evidence x = None) observations ->
  normalize fresh_operation fresh_effect self observations previous = Ok s ->
  normalize fresh_operation' fresh_effect' self observations (Some s) = Ok s.
Proof.
  intros Hcase (by_id & logical & derived & Hi & _ & Hb & Hl & Hd & Hops & Heff & Hv)%normalize_ok.
  pose proof (snapshot_validate_ok _ Hv) as (Hos & Hids & _).
  apply normalize_ok. exists by_id, logical, derived. rewrite !bind_some. split_and!; try done.
  - by apply renewed_occurrences with previous.
  - destruct Hcase as [-> |Hn]; [|by rewrite no_local_pairs in Hl |- *].
    apply renewed_pairs; [done|]. intros op Hop. apply (elem_of_operations _ _ Hops) in Hop as (effects & Hop).
    destruct (Forall2_elem_r Hd Hop) as (o & _ & H). by apply derived_operation in H as [_ ?].
  - eapply Forall2_impl_elem; [exact Hd|]. intros o d Ho Hd' H. by eapply derive_again.
Qed.
End renewal.

(** ** Witnesses *)

Module NormalizeSamples.
Import PhysicalNormalizer NormalizationSnapshot.

#[local] Instance plain_sha : Sha256 := fun bytes => bytes.

Definition get {E A} (d : A) (m : result E A) : A := match m with Ok a => a | Err _ => d end.

Definition sample_uuid : string := "01890f47-6a4a-7cc1-98b9-01890f476a40".
Definition hex64 : string := "0123456789abcdef0123456789abcdef0123456789abcdef0123456789abcdef".

Definition claims_of (fields : list CorrelationField) : list CorrelationFieldClaim :=
  (fun f => CorrelationFieldClaim.mk f "source" "evidence") <$> fields.

Definition exact_correlation (role : ObservationRole) : HostCorrelationEvidence := {|
  HostCorrelationEvidence.occurrence_schema_version := 1;
  HostCorrelationEvidence.host_instance_id := Some "host"%string;
  HostCorrelationEvidence.host_trace_lineage_id := Some "trace"%string;
  HostCorrelationEvidence.host_lane_key := Some "lane"%string;
  HostCorrelationEvidence.canonical_event_family := Some CanonicalEventFamily.Mutate;
  HostCorrelationEvidence.native_request_id := Some "request"%string;
  HostCorrelationEvidence.physical_execution_ordinal := Some 1%N;
  HostCorrelationEvidence.pairing_role := role;
  HostCorrelationEvidence.field_provenance := claims_of
    [CorrelationField.HostInstanceId; CorrelationField.HostTraceLineageId; CorrelationField.HostLaneKey;
     CorrelationField.CanonicalEventFamily; CorrelationField.NativeRequestId;
     CorrelationField.PhysicalExecutionOrdinal];
  HostCorrelationEvidence.adapter_manifest_ref := "manifest";
  HostCorrelationEvidence.adapter_revision := 1;
  HostCorrelationEvidence.strong_gate_receipt_ref := Some "gate"%string;
  HostCorrelationEvidence.admission := CorrelationAdmission.ExactCapable;
  HostCorrelationEvidence.partial_correlation_ref := None;
  HostCorrelationEvidence.possible_duplicate_group_id := None |}.

Definition loose_correlation (role : ObservationRole) (admission : CorrelationAdmission)
  : HostCorrelationEvidence := {|
  HostCorrelationEvidence.occurrence_schema_version := 1;
  HostCorrelationEvidence.host_instance_id := None;
  HostCorrelationEvidence.host_trace_lineage_id := None;
  HostCorrelationEvidence.host_lane_key := None;
  HostCorrelationEvidence.canonical_event_family := None;
  HostCorrelationEvidence.native_request_id := Some "call"%string;
  HostCorrelationEvidence.physical_execution_ordinal := None;
  HostCorrelationEvidence.pairing_role := role;
  HostCorrelationEvidence.field_provenance := claims_of [CorrelationField.NativeRequestId];
  HostCorrelationEvidence.adapter_manifest_ref := "manifest";
  HostCorrelationEvidence.adapter_revision := 1;
  HostCorrelationEvidence.strong_gate_receipt_ref := None;
  HostCorrelationEvidence.admission := admission;
  HostCorrelationEvidence.partial_correlation_ref := None;
  HostCorrelationEvidence.possible_duplicate_group_id := None |}.

Definition sample_observation (record : string) (role : ObservationRole)
    (correlation : HostCorrelationEvidence) (claims : list ScopeEffectClaim)
    (evidence : option SourceLocalEvidence) : SourceObservation := {|
  SourceObservation.source_observation_id := get (from_digest []) (source_observation_id "src" "1" record);
  SourceObservation.source_instance_id := "src";
  SourceObservation.source_revision := "1";
  SourceObservation.source_record_identity := record;
  SourceObservation.observation_role := role;
  SourceObservation.identity_strength := IdentityStrength.StableNative;
  SourceObservation.payload_fingerprint := hex64;
  SourceObservation.source_receipt_ref := get (from_digest []) (source_receipt_id "src" "1" record);
  SourceObservation.source_role := SourceRole.Tool;
  SourceObservation.content_trust := ContentTrust.Observed;
  SourceObservation.capture_completeness := CaptureCompleteness.Complete;
  SourceObservation.adapter_revision := 1;
  SourceObservation.parser_revision := 1;
  SourceObservation.canonicalization_revision := 1;
  SourceObservation.detector_revision := 1;
  SourceObservation.redaction_revision := 1;
  SourceObservation.correlation := correlation;
  SourceObservation.scope_effect_claims := claims;
  SourceObservation.source_local_evidence := evidence |}.

Definition sample_claim : ScopeEffectClaim :=
  ScopeEffectClaim.mk EffectRole.Mutate (Some (mk_id (mk_uuid 5))) None None None [] [] [].

Definition exact_intent := sample_observation "intent" ObservationRole.Intent
  (exact_correlation ObservationRole.Intent) [] None.
Definition exact_result := sample_observation "result" ObservationRole.Result
  (exact_correlation ObservationRole.Result) [sample_claim] None.
Definition exact_probe := sample_observation "probe" ObservationRole.StateProbe
  (exact_correlation ObservationRole.StateProbe) [] None.
Definition message := sample_observation "message" ObservationRole.Message
  (loose_correlation ObservationRole.Message CorrelationAdmission.Ambiguous) [] None.

Definition sample_call : SourceLocalNativeCall := {|
  SourceLocalNativeCall.session_id := sample_uuid;
  SourceLocalNativeCall.agent_id := None;
  SourceLocalNativeCall.transcript_path := Some "/sessions/a.jsonl"%string;
  SourceLocalNativeCall.request_id := "call";
  SourceLocalNativeCall.turn_id := "turn";
  SourceLocalNativeCall.tool_name := "Bash";
  SourceLocalNativeCall.namespace_witness := Some {|
    SourceLocalNamespaceWitness.namespace :=
      SourceLocalNamespace.mk SourceLocalProfile.NativeHookV1 sample_uuid sample_uuid sample_uuid;
    SourceLocalNamespaceWitness.transcript_path := "/sessions/a.jsonl";
    SourceLocalNamespaceWitness.filesystem_device := 1;
    SourceLocalNamespaceWitness.filesystem_inode := 2;
    SourceLocalNamespaceWitness.observed_file_length := 101;
    SourceLocalNamespaceWitness.metadata_length := 100 |} |}.

Definition local_observation (record : string) (role : ObservationRole) : SourceObservation :=
  sample_observation record role (loose_correlation role CorrelationAdmission.Unavailable) []
    (Some (SourceLocalEvidence.NativeCall sample_call)).

Definition sample_observations : list SourceObservation :=
  [exact_intent; message; local_observation "local-result" ObservationRole.Result; exact_result;
   local_observation "local-intent" ObservationRole.Intent].

Definition number_of {f} (d : DigestId f) : N := from_be_bytes (as_digest d).
Definition fresh_op (h : HostOccurrenceId) : OperationId := mk_id (mk_uuid (number_of h)).
Definition fresh_eff (h : HostOccurrenceId) (claim : ScopeEffectClaim) : ScopeEffectId :=
  mk_id (mk_uuid (number_of h)).

Abbreviation sample_run := (normalize fresh_op fresh_eff (PhysicalNormalizer.mk 1)).

Definition sample_snapshot : NormalizationSnapshot :=
  Eval vm_compute in get (NormalizationSnapshot.mk [] [] []) (sample_run sample_observations None).

Lemma sample_ran : sample_run sample_observations None = Ok sample_snapshot.
Proof. vm_compute. reflexivity. Qed.

Lemma sample_shape :
  length (occurrences sample_snapshot) = 4%nat /\ length (operations sample_snapshot) = 2%nat /\
  length (scope_effects sample_snapshot) = 1%nat /\
  length (omap Operation.source_local_pairing (operations sample_snapshot)) = 1%nat.
Proof. by vm_compute. Qed.

Lemma observations_partitioned_witness :
  concat (HostOccurrence.source_observation_refs <$> occurrences sample_snapshot)
    ≡ₚ SourceObservation.source_observation_id <$> sample_observations.
Proof. exact (proj1 (proj2 (observations_partitioned fresh_op fresh_eff _ _ _ _ sample_ran))). Defined.

(** A first run over the intent alone, then a second one over everything. *)
Definition first_snapshot : NormalizationSnapshot :=
  Eval vm_compute in get (NormalizationSnapshot.mk [] [] []) (sample_run [exact_intent] None).
Definition second_snapshot : NormalizationSnapshot :=
  Eval vm_compute in
    get (NormalizationSnapshot.mk [] [] []) (sample_run sample_observations (Some first_snapshot)).

Lemma second_ran : sample_run sample_observations (Some first_snapshot) = Ok second_snapshot.
Proof. vm_compute. reflexivity. Qed.

Lemma first_fits : Forall fits (option_list (Some first_snapshot)).
Proof. repeat constructor; by vm_compute. Qed.

Lemma renewal_counts_revisions_witness :
  Forall (revised (option_list (Some first_snapshot) ≫= occurrences)) (occurrences second_snapshot) /\
  Forall (op_revised fresh_op (option_list (Some first_snapshot) ≫= operations)) (operations second_snapshot).
Proof. exact (renewal_counts_revisions fresh_op fresh_eff _ _ _ _ second_ran first_fits). Defined.

Lemma renewed_once :
  2%N ∈ HostOccurrence.normalization_revision <$> occurrences second_snapshot /\
  2%N ∈ Operation.operation_revision <$> operations second_snapshot.
Proof. split; apply (bool_decide_unpack _); by vm_compute. Qed.

Lemma run_recorded_witness :
  match journal_command sample_snapshot (mk_iid (mk_uuid 1)) 5 [] "algorithm" with
  | Ok command =>
      sample_observations <> [] /\ (N.of_nat (length (payloads_of sample_snapshot)) <= U16_MAX)%N /\
      payloads command = payloads_of sample_snapshot /\
      watermarks (payloads command)
      = (fun id => NormalizationWatermark.mk id 1%N)
          <$> bset_of_list (SourceObservation.source_observation_id <$> sample_observations)
  | Err e =>
      e = NormalizeError.InvalidResult /\
      (sample_observations = [] \/ (U16_MAX < N.of_nat (length (payloads_of sample_snapshot)))%N)
  end.
Proof.
  apply (run_recorded fresh_op fresh_eff _ _ _ _ (mk_iid (mk_uuid 1)) 5 [] "algorithm"%string sample_ran); by vm_compute.
Defined.

Definition sample_key : HostOccurrenceExactKey :=
  HostOccurrenceExactKey.mk 1 "host" "trace" "lane" CanonicalEventFamily.Mutate "request" 1.

Lemma orphan_intent_fails_batch_witness :
  is_err (sample_run [message; exact_intent; exact_probe] None) = true.
Proof.
  apply (orphan_intent_fails_batch fresh_op fresh_eff (PhysicalNormalizer.mk 1)
    [message; exact_intent; exact_probe] sample_key None); by vm_compute.
Defined.

(** Each of the observations is valid, and so is the batch without the probe. *)
Lemma orphan_inputs_valid :
  Forall (fun o => SourceObservation.validate o = Ok tt) [message; exact_intent; exact_probe] /\
  is_ok (sample_run [message; exact_intent] None) = true.
Proof. split; [repeat constructor|]; by vm_compute. Qed.

(** The second run would draw other identifiers than the first. *)
Definition other_op (h : HostOccurrenceId) : OperationId := mk_id (mk_uuid (number_of h + 1)).
Definition other_eff (h : HostOccurrenceId) (claim : ScopeEffectClaim) : ScopeEffectId :=
  mk_id (mk_uuid (number_of h + 1)).

Lemma renormalization_stable_witness :
  normalize other_op other_eff (PhysicalNormalizer.mk 1) sample_observations (Some sample_snapshot)
    = Ok sample_snapshot.
Proof.
  exact (renormalization_stable fresh_op other_op fresh_eff other_eff _ _ None _
    (or_introl eq_refl) sample_ran).
Defined.

(** Over nothing, it does draw them. *)
Lemma other_run_differs :
  normalize other_op other_eff (PhysicalNormalizer.mk 1) sample_observations None <> Ok sample_snapshot.
Proof. by vm_compute. Qed.
End NormalizeSamples.
