(* ===== verification/Episode.v ===== *)
(** * Bursts, episodes and checkpoints

    [evertrace-domain/src/work/burst.rs] and [episode.rs]: groups of like
    operations, the phases of work they form, the corrections and checkpoints of
    those phases, with their validators and successor checks. *)

From stdpp Require Import pretty.
From S2P Require Import Prelude Order Collections Text Ids Lane Attempt Repository Work Evidence.

(** ** Bursts *)

Module OperationStateDelta.
Inductive OperationStateDelta :=
| None
| Observed
| Modified
| Verified
| Failed
| Recovered.
#[export] Instance eq_dec : EqDecision OperationStateDelta.
Proof. solve_decision. Defined.
End OperationStateDelta.
Abbreviation OperationStateDelta := OperationStateDelta.OperationStateDelta.
Export (hints) OperationStateDelta.

Module OperationVerifierDelta.
Inductive OperationVerifierDelta :=
| None
| Started
| Passed
| Failed
| Inconclusive.
#[export] Instance eq_dec : EqDecision OperationVerifierDelta.
Proof. solve_decision. Defined.
End OperationVerifierDelta.
Abbreviation OperationVerifierDelta := OperationVerifierDelta.OperationVerifierDelta.
Export (hints) OperationVerifierDelta.

Module OperationBurstLifecycle.
Inductive OperationBurstLifecycle :=
| Open
| Closed.
#[export] Instance eq_dec : EqDecision OperationBurstLifecycle.
Proof. solve_decision. Defined.
End OperationBurstLifecycle.
Abbreviation OperationBurstLifecycle := OperationBurstLifecycle.OperationBurstLifecycle.
Export (hints) OperationBurstLifecycle.

Definition MAX_BURST_MEMBERS : nat := 64.
Definition MAX_MEMBER_REFS : nat := 64.

Module OperationBurstMember.
Record OperationBurstMember := mk {
  sequence : N;
  source_watermark : N;
  operation_id : OperationId;
  operation_revision : N;
  host_occurrence_id : HostOccurrenceId;
  work_binding_revision_id : WorkBindingRevisionId;
  attempt_revision_id : option RevisionId;
  source_observation_refs : list SourceObservationId;
  scope_effect_refs : list ScopeEffectId;
  artifact_refs : list WorkArtifactId;
  side_effects : list EffectRole;
  worktree_transition_refs : list WorktreeTransitionId;
  integration_event_refs : list IntegrationEventId;
}.
#[export] Instance eq_dec : EqDecision OperationBurstMember.
Proof. solve_decision. Defined.
Definition validate (self : OperationBurstMember) : bool :=
  (0 <? sequence self)%N
  && (0 <? source_watermark self)%N
  && (0 <? operation_revision self)%N
  && negb (is_empty (source_observation_refs self))
  && all (fun len => len <=? MAX_MEMBER_REFS)%nat
       [length (source_observation_refs self); length (scope_effect_refs self);
        length (artifact_refs self); length (side_effects self);
        length (worktree_transition_refs self); length (integration_event_refs self)]
  && strictly_ordered_unique (source_observation_refs self)
  && strictly_ordered_unique (scope_effect_refs self)
  && strictly_ordered_unique (artifact_refs self)
  && strictly_ordered_unique (side_effects self)
  && strictly_ordered_unique (worktree_transition_refs self)
  && strictly_ordered_unique (integration_event_refs self).
End OperationBurstMember.
Abbreviation OperationBurstMember := OperationBurstMember.OperationBurstMember.
Export (hints) OperationBurstMember.

(** [value.trim().is_empty() || value.len() > MAX_TEXT], negated. *)
Definition text_list (values : list string) : bool :=
  (length values <=? MAX_MEMBER_REFS)%nat && strictly_ordered_unique values && all bounded values.

Module OperationBurst.
Record OperationBurst := mk {
  operation_burst_id : OperationBurstId;
  revision_id : RevisionId;
  predecessor_revision_id : option RevisionId;
  revision_generation : N;
  lifecycle : OperationBurstLifecycle;
  algorithm_revision : N;
  operation_kind : OperationKind;
  state_delta : OperationStateDelta;
  verifier_delta : OperationVerifierDelta;
  phase_candidate : option PhaseKind;
  has_objective_boundary : bool;
  error_signature : option string;
  target_family : string;
  target_refs : list string;
  members : list OperationBurstMember;
  execution_lane_id : ExecutionLaneId;
  parent_lane_id : option ExecutionLaneId;
  subagent_id : option string;
  primary_binding : PrimaryWorkBinding;
  attempt_id : option AttemptId;
  experiment_run_id : option ExperimentRunId;
  competing_group_id : option CompetingAttemptGroupId;
  worktree_lineage_refs : list string;
  strategy_contract_fingerprint : option (list byte);
  source_watermark : N;
}.
#[export] Instance eq_dec : EqDecision OperationBurst.
Proof. solve_decision. Defined.
Definition set_extended (self : OperationBurst)
    (v_revision_id : RevisionId) (v_predecessor_revision_id : option RevisionId)
    (v_revision_generation : N) (v_members : list OperationBurstMember) (v_source_watermark
    : N) : OperationBurst :=
  mk
    (self.(operation_burst_id)) v_revision_id v_predecessor_revision_id
    v_revision_generation (self.(lifecycle)) (self.(algorithm_revision))
    (self.(operation_kind)) (self.(state_delta)) (self.(verifier_delta))
    (self.(phase_candidate)) (self.(has_objective_boundary)) (self.(error_signature))
    (self.(target_family)) (self.(target_refs)) v_members (self.(execution_lane_id))
    (self.(parent_lane_id)) (self.(subagent_id)) (self.(primary_binding))
    (self.(attempt_id)) (self.(experiment_run_id)) (self.(competing_group_id))
    (self.(worktree_lineage_refs)) (self.(strategy_contract_fingerprint)) v_source_watermark.
Definition set_closed (self : OperationBurst)
    (v_revision_id : RevisionId) (v_predecessor_revision_id : option RevisionId)
    (v_revision_generation : N) (v_lifecycle : OperationBurstLifecycle) : OperationBurst :=
  mk
    (self.(operation_burst_id)) v_revision_id v_predecessor_revision_id
    v_revision_generation v_lifecycle (self.(algorithm_revision)) (self.(operation_kind))
    (self.(state_delta)) (self.(verifier_delta)) (self.(phase_candidate))
    (self.(has_objective_boundary)) (self.(error_signature)) (self.(target_family))
    (self.(target_refs)) (self.(members)) (self.(execution_lane_id)) (self.(parent_lane_id))
    (self.(subagent_id)) (self.(primary_binding)) (self.(attempt_id))
    (self.(experiment_run_id)) (self.(competing_group_id)) (self.(worktree_lineage_refs))
    (self.(strategy_contract_fingerprint)) (self.(source_watermark)).
(** [pair[0] < pair[1]] in sequence and watermark. *)
Definition member_before (a b : OperationBurstMember) : bool :=
  (OperationBurstMember.sequence a <? OperationBurstMember.sequence b)%N
  && (OperationBurstMember.source_watermark a <? OperationBurstMember.source_watermark b)%N.

Definition ordered_members (self : OperationBurst) : bool :=
  negb (is_empty (members self))
  && (length (members self) <=? MAX_BURST_MEMBERS)%nat
  && all OperationBurstMember.validate (members self)
  && windows2_all member_before (members self).

Definition unique_revisions (self : OperationBurst) : bool :=
  all_unique ((fun m => (OperationBurstMember.operation_id m, OperationBurstMember.operation_revision m))
                <$> members self).

Definition validate (self : OperationBurst) : result WorkError unit :=
  guard
    ((revision_generation self =? 0)%N
     || (algorithm_revision self =? 0)%N
     || xorb (revision_generation self =? 1)%N (is_none (predecessor_revision_id self))
     || negb (text_list (target_refs self) && text_list (worktree_lineage_refs self))
     || negb (bounded (target_family self))
     || negb (ordered_members self)
     || negb (unique_revisions self)
     || negb (source_watermark self
              =? from_option OperationBurstMember.source_watermark 0 (last (members self)))%N
     || is_some_and (error_signature self) (fun value => negb (bounded value))
     || is_some_and (subagent_id self) (fun value => negb (bounded value))
     || is_none (PrimaryWorkBinding.task_id (primary_binding self))
     || is_none (PrimaryWorkBinding.workstream_id (primary_binding self))
     || is_none (PrimaryWorkBinding.episode_id (primary_binding self))
     || (PrimaryWorkBinding.attempt_id (primary_binding self) !=? attempt_id self)
     || (PrimaryWorkBinding.experiment_run_id (primary_binding self) !=? experiment_run_id self)
     || (PrimaryWorkBinding.competing_group_id (primary_binding self) !=? competing_group_id self)
     || is_none (attempt_id self)
        && (is_some (experiment_run_id self) || is_some (competing_group_id self)
            || is_some (strategy_contract_fingerprint self))
     || any (fun member =>
          xorb (is_some (OperationBurstMember.attempt_revision_id member)) (is_some (attempt_id self))
          || is_none (attempt_id self)
             && (negb (is_empty (OperationBurstMember.worktree_transition_refs member))
                 || negb (is_empty (OperationBurstMember.integration_event_refs member))))
          (members self))
    WorkError.InvalidWorkIdentity.

Definition validate_successor (self next : OperationBurst) : result WorkError unit :=
  do? validate self in
  do? validate next in
  let? generation := ok_or (checked_add_u64 (revision_generation self) 1)
                       WorkError.InvalidWorkIdentity in
  guard
    ((operation_burst_id next !=? operation_burst_id self)
     || (revision_id next ==? revision_id self)
     || (predecessor_revision_id next !=? Some (revision_id self))
     || (revision_generation next !=? generation)
     || (lifecycle self ==? OperationBurstLifecycle.Closed)
     || (algorithm_revision next !=? algorithm_revision self)
     || (operation_kind next !=? operation_kind self)
     || (state_delta next !=? state_delta self)
     || (verifier_delta next !=? verifier_delta self)
     || (phase_candidate next !=? phase_candidate self)
     || (has_objective_boundary next !=? has_objective_boundary self)
     || (error_signature next !=? error_signature self)
     || (target_family next !=? target_family self)
     || (target_refs next !=? target_refs self)
     || (execution_lane_id next !=? execution_lane_id self)
     || (parent_lane_id next !=? parent_lane_id self)
     || (subagent_id next !=? subagent_id self)
     || (primary_binding next !=? primary_binding self)
     || (attempt_id next !=? attempt_id self)
     || (experiment_run_id next !=? experiment_run_id self)
     || (competing_group_id next !=? competing_group_id self)
     || (worktree_lineage_refs next !=? worktree_lineage_refs self)
     || (strategy_contract_fingerprint next !=? strategy_contract_fingerprint self)
     || (source_watermark next <? source_watermark self)%N
     || negb (starts_with (members next) (members self)))
    WorkError.InvalidWorkIdentity.

Definition is_meaningful_after (self : OperationBurst) (previous : option OperationBurst) : bool :=
  negb (contains (operation_kind self)
          [OperationKind.Read; OperationKind.Search; OperationKind.Observe])
  || negb (contains (state_delta self) [OperationStateDelta.None; OperationStateDelta.Observed])
  || is_some (error_signature self)
  || (verifier_delta self !=? OperationVerifierDelta.None)
  || is_some (phase_candidate self)
  || has_objective_boundary self
  || any (fun member =>
       negb (is_empty (OperationBurstMember.artifact_refs member))
       || negb (is_empty (OperationBurstMember.worktree_transition_refs member))
       || negb (is_empty (OperationBurstMember.integration_event_refs member))
       || any (fun role => negb (contains role [EffectRole.Read; EffectRole.Observe]))
            (OperationBurstMember.side_effects member))
       (members self)
  || is_some_and previous (fun value =>
       (target_family value !=? target_family self) || (target_refs value !=? target_refs self)).
End OperationBurst.
Abbreviation OperationBurst := OperationBurst.OperationBurst.
Export (hints) OperationBurst.

(** ** Episodes *)

Definition EPISODE_ALGORITHM_REVISION : N := 1.

Module EpisodeLifecycle.
Inductive EpisodeLifecycle :=
| Open
| Closed
| Superseded.
#[export] Instance eq_dec : EqDecision EpisodeLifecycle.
Proof. solve_decision. Defined.
End EpisodeLifecycle.
Abbreviation EpisodeLifecycle := EpisodeLifecycle.EpisodeLifecycle.
Export (hints) EpisodeLifecycle.

Module BoundaryStatus.
Inductive BoundaryStatus :=
| Provisional
| Candidate
| Confirmed.
#[export] Instance eq_dec : EqDecision BoundaryStatus.
Proof. solve_decision. Defined.
End BoundaryStatus.
Abbreviation BoundaryStatus := BoundaryStatus.BoundaryStatus.
Export (hints) BoundaryStatus.

Module BoundaryCandidateKind.
Inductive BoundaryCandidateKind :=
| StructuredSurprise
| Objective.
#[export] Instance eq_dec : EqDecision BoundaryCandidateKind.
Proof. solve_decision. Defined.
End BoundaryCandidateKind.
Abbreviation BoundaryCandidateKind := BoundaryCandidateKind.BoundaryCandidateKind.
Export (hints) BoundaryCandidateKind.

Module BoundaryCandidateState.
Record BoundaryCandidateState := mk {
  candidate_phase_kind : option PhaseKind;
  candidate_watermark : N;
  evidence_refs : list SourceObservationId;
  kind : BoundaryCandidateKind;
  refinement_progress : N;
}.
#[export] Instance eq_dec : EqDecision BoundaryCandidateState.
Proof. solve_decision. Defined.
Definition validate (self : BoundaryCandidateState) : result WorkError unit :=
  guard ((candidate_watermark self =? 0)%N
         || is_empty (evidence_refs self)
         || negb (ordered_ids (evidence_refs self))
         || (8 <? refinement_progress self)%N)
    WorkError.InvalidWorkIdentity.
End BoundaryCandidateState.
Abbreviation BoundaryCandidateState := BoundaryCandidateState.BoundaryCandidateState.
Export (hints) BoundaryCandidateState.

Module CorrectionKind.
Inductive CorrectionKind :=
| Retract
| Split
| Merge
| Reattach.
#[export] Instance eq_dec : EqDecision CorrectionKind.
Proof. solve_decision. Defined.
End CorrectionKind.
Abbreviation CorrectionKind := CorrectionKind.CorrectionKind.
Export (hints) CorrectionKind.

Module SegmentationCorrection.
Record SegmentationCorrection := mk {
  correction_revision_id : RevisionId;
  predecessor_revision_id : option RevisionId;
  kind : CorrectionKind;
  source_episode_ids : list WorkEpisodeId;
  replacement_episode_ids : list WorkEpisodeId;
  evidence_refs : list string;
  source_watermark : N;
}.
#[export] Instance eq_dec : EqDecision SegmentationCorrection.
Proof. solve_decision. Defined.
Definition shape (self : SegmentationCorrection) : bool :=
  let sources := length (source_episode_ids self) in
  let replacements := length (replacement_episode_ids self) in
  match kind self with
  | CorrectionKind.Retract => (sources =? 1)%nat && (replacements =? 0)%nat
  | CorrectionKind.Split => (sources =? 1)%nat && (2 <=? replacements)%nat
  | CorrectionKind.Merge => (2 <=? sources)%nat && (replacements =? 1)%nat
  | CorrectionKind.Reattach => (sources =? 1)%nat && (replacements =? 1)%nat
  end.

Definition validate (self : SegmentationCorrection) : result WorkError unit :=
  guard ((source_watermark self =? 0)%N
         || negb (ordered_ids (source_episode_ids self))
         || negb (ordered_ids (replacement_episode_ids self))
         || negb (bounded_refs (evidence_refs self))
         || is_empty (evidence_refs self)
         || negb (shape self)
         || any (fun id => contains id (replacement_episode_ids self)) (source_episode_ids self))
    WorkError.InvalidWorkIdentity.
End SegmentationCorrection.
Abbreviation SegmentationCorrection := SegmentationCorrection.SegmentationCorrection.
Export (hints) SegmentationCorrection.

Module PendingDeltaStats.
Record PendingDeltaStats := mk {
  selected_token_count : N;
  meaningful_burst_count : N;
  high_value_signal_count : N;
}.
#[export] Instance eq_dec : EqDecision PendingDeltaStats.
Proof. solve_decision. Defined.
Definition default : PendingDeltaStats := mk 0 0 0.
End PendingDeltaStats.
Abbreviation PendingDeltaStats := PendingDeltaStats.PendingDeltaStats.
Export (hints) PendingDeltaStats.

Module PendingSemanticInterval.
Record PendingSemanticInterval := mk {
  after_watermark : N;
  through_watermark : N;
}.
#[export] Instance eq_dec : EqDecision PendingSemanticInterval.
Proof. solve_decision. Defined.
Definition validate (self : PendingSemanticInterval) : result WorkError unit :=
  guard (through_watermark self <=? after_watermark self)%N WorkError.InvalidWorkIdentity.
End PendingSemanticInterval.
Abbreviation PendingSemanticInterval := PendingSemanticInterval.PendingSemanticInterval.
Export (hints) PendingSemanticInterval.

Module CaptureSummary.
Record CaptureSummary := mk {
  minimum_coverage_level : CoverageLevel;
  source_coverage_states : list SourceCoverage;
  pairing_integrity_states : list PairingIntegrity;
  payload_integrity_states : list PayloadIntegrity;
  ordering_integrity_states : list OrderingIntegrity;
  reasoning_visibility : list ReasoningVisibility;
}.
#[export] Instance eq_dec : EqDecision CaptureSummary.
Proof. solve_decision. Defined.
Definition default : CaptureSummary :=
  mk CoverageLevel.Opaque [SourceCoverage.Unavailable] [PairingIntegrity.Unavailable]
    [PayloadIntegrity.Unavailable] [OrderingIntegrity.Unavailable] [].

Definition validate (self : CaptureSummary) : result WorkError unit :=
  guard (is_empty (source_coverage_states self)
         || is_empty (pairing_integrity_states self)
         || is_empty (payload_integrity_states self)
         || is_empty (ordering_integrity_states self)
         || negb (ordered_ids (source_coverage_states self))
         || negb (ordered_ids (pairing_integrity_states self))
         || negb (ordered_ids (payload_integrity_states self))
         || negb (ordered_ids (ordering_integrity_states self))
         || negb (ordered_ids (reasoning_visibility self)))
    WorkError.InvalidWorkIdentity.

Definition from_receipts (receipts : list CaptureReceipt) : result WorkError CaptureSummary :=
  if is_empty receipts then Ok default
  else
    do? for_each CaptureReceipt.validate receipts in
    let source := sort_unique (CaptureReceipt.source_coverage <$> receipts) in
    let pairing := sort_unique (CaptureReceipt.pairing_integrity <$> receipts) in
    let payload := sort_unique (CaptureReceipt.payload_integrity <$> receipts) in
    let ordering := sort_unique (CaptureReceipt.ordering_integrity <$> receipts) in
    let visibility := sort_unique (receipts ≫= CaptureReceipt.reasoning_visibility) in
    let opaque :=
      any (fun value => CaptureReceipt.coverage_level value ==? CoverageLevel.Opaque) receipts
      || contains SourceCoverage.Unavailable source
      || contains PairingIntegrity.Unavailable pairing
      || contains PayloadIntegrity.Unavailable payload
      || contains OrderingIntegrity.Unavailable ordering in
    let degraded := any (fun value =>
      (CaptureReceipt.coverage_level value !=? CoverageLevel.Full)
      || (CaptureReceipt.source_coverage value !=? SourceCoverage.Complete)
      || (CaptureReceipt.pairing_integrity value !=? PairingIntegrity.Complete)
      || (CaptureReceipt.payload_integrity value !=? PayloadIntegrity.Complete)
      || (CaptureReceipt.ordering_integrity value !=? OrderingIntegrity.Complete)
      || negb (CaptureReceipt.finalized value)
      || negb (is_empty (CaptureReceipt.capture_gap_marker_refs value))
      || negb (is_empty (CaptureReceipt.capture_outage_interval_refs value))) receipts in
    Ok (mk (if opaque then CoverageLevel.Opaque
            else if degraded then CoverageLevel.Partial
            else CoverageLevel.Full)
          source pairing payload ordering visibility).
End CaptureSummary.
Abbreviation CaptureSummary := CaptureSummary.CaptureSummary.
Export (hints) CaptureSummary.

Module WorkEpisode.
Record WorkEpisode := mk {
  episode_id : WorkEpisodeId;
  revision_id : RevisionId;
  predecessor_revision_id : option RevisionId;
  revision_generation : N;
  task_id : TaskId;
  workstream_id : WorkstreamId;
  repository_instance_id : option RepositoryId;
  worktree_instance_id : option WorktreeId;
  phase_contract : PhaseContract;
  lifecycle_status : EpisodeLifecycle;
  boundary_status : BoundaryStatus;
  source_watermark : N;
  semantic_watermark : N;
  confirmation_watermark : N;
  capture_watermark : N;
  entry_worktree_snapshot_id : option WorktreeSnapshotId;
  exit_worktree_snapshot_id : option WorktreeSnapshotId;
  session_ids : list string;
  execution_lane_ids : list ExecutionLaneId;
  attempt_ids : list AttemptId;
  competing_attempt_group_ids : list CompetingAttemptGroupId;
  operation_burst_refs : list OperationBurstId;
  worktree_transition_refs : list WorktreeTransitionId;
  failed_attempt_ids : list AttemptId;
  interrupted_attempt_ids : list AttemptId;
  returned_but_unselected_attempt_ids : list AttemptId;
  selected_attempt_ids : list AttemptId;
  failure_refs : list string;
  interruption_refs : list string;
  completed_outcome_refs : list string;
  selected_outcome_refs : list string;
  verification_refs : list string;
  open_loops : list string;
  checkpoint_refs : list string;
  capture_receipt_revision_ids : list CaptureReceiptId;
  capture_gap_refs : list string;
  capture_outage_refs : list CaptureOutageIntervalId;
  pending_delta_stats : PendingDeltaStats;
  pending_semantic_delta : option PendingSemanticInterval;
  boundary_candidate : option BoundaryCandidateState;
  capture_summary : CaptureSummary;
  segmentation_correction_refs : list RevisionId;
  experiment_run_refs : list ExperimentRunId;
  work_artifact_refs : list WorkArtifactId;
  semantic_digest_refs : list string;
}.
#[export] Instance eq_dec : EqDecision WorkEpisode.
Proof. solve_decision. Defined.
Definition set_semantic (self : WorkEpisode)
    (v_revision_id : RevisionId) (v_predecessor_revision_id : option RevisionId)
    (v_revision_generation : N) (v_semantic_watermark : N) (v_pending_semantic_delta :
    option PendingSemanticInterval) (v_semantic_digest_refs : list string) : WorkEpisode :=
  mk
    (self.(episode_id)) v_revision_id v_predecessor_revision_id v_revision_generation
    (self.(task_id)) (self.(workstream_id)) (self.(repository_instance_id))
    (self.(worktree_instance_id)) (self.(phase_contract)) (self.(lifecycle_status))
    (self.(boundary_status)) (self.(source_watermark)) v_semantic_watermark
    (self.(confirmation_watermark)) (self.(capture_watermark))
    (self.(entry_worktree_snapshot_id)) (self.(exit_worktree_snapshot_id))
    (self.(session_ids)) (self.(execution_lane_ids)) (self.(attempt_ids))
    (self.(competing_attempt_group_ids)) (self.(operation_burst_refs))
    (self.(worktree_transition_refs)) (self.(failed_attempt_ids))
    (self.(interrupted_attempt_ids)) (self.(returned_but_unselected_attempt_ids))
    (self.(selected_attempt_ids)) (self.(failure_refs)) (self.(interruption_refs))
    (self.(completed_outcome_refs)) (self.(selected_outcome_refs))
    (self.(verification_refs)) (self.(open_loops)) (self.(checkpoint_refs))
    (self.(capture_receipt_revision_ids)) (self.(capture_gap_refs))
    (self.(capture_outage_refs)) (self.(pending_delta_stats)) v_pending_semantic_delta
    (self.(boundary_candidate)) (self.(capture_summary))
    (self.(segmentation_correction_refs)) (self.(experiment_run_refs))
    (self.(work_artifact_refs)) v_semantic_digest_refs.
Definition set_step (self : WorkEpisode)
    (v_revision_id : RevisionId) (v_predecessor_revision_id : option RevisionId)
    (v_revision_generation : N) (v_source_watermark : N) (v_boundary_status :
    BoundaryStatus) (v_boundary_candidate : option BoundaryCandidateState) (v_session_ids :
    list string) (v_execution_lane_ids : list ExecutionLaneId) (v_attempt_ids : list
    AttemptId) (v_competing_attempt_group_ids : list CompetingAttemptGroupId)
    (v_worktree_transition_refs : list WorktreeTransitionId) (v_operation_burst_refs : list
    OperationBurstId) (v_pending_delta_stats : PendingDeltaStats)
    (v_capture_receipt_revision_ids : list CaptureReceiptId) (v_capture_gap_refs : list
    string) (v_capture_outage_refs : list CaptureOutageIntervalId) (v_capture_watermark : N)
    (v_capture_summary : CaptureSummary) (v_pending_semantic_delta : option
    PendingSemanticInterval) (v_lifecycle_status : EpisodeLifecycle)
    (v_confirmation_watermark : N) (v_exit_worktree_snapshot_id : option WorktreeSnapshotId) : WorkEpisode :=
  mk
    (self.(episode_id)) v_revision_id v_predecessor_revision_id v_revision_generation
    (self.(task_id)) (self.(workstream_id)) (self.(repository_instance_id))
    (self.(worktree_instance_id)) (self.(phase_contract)) v_lifecycle_status
    v_boundary_status v_source_watermark (self.(semantic_watermark))
    v_confirmation_watermark v_capture_watermark (self.(entry_worktree_snapshot_id))
    v_exit_worktree_snapshot_id v_session_ids v_execution_lane_ids v_attempt_ids
    v_competing_attempt_group_ids v_operation_burst_refs v_worktree_transition_refs
    (self.(failed_attempt_ids)) (self.(interrupted_attempt_ids))
    (self.(returned_but_unselected_attempt_ids)) (self.(selected_attempt_ids))
    (self.(failure_refs)) (self.(interruption_refs)) (self.(completed_outcome_refs))
    (self.(selected_outcome_refs)) (self.(verification_refs)) (self.(open_loops))
    (self.(checkpoint_refs)) v_capture_receipt_revision_ids v_capture_gap_refs
    v_capture_outage_refs v_pending_delta_stats v_pending_semantic_delta
    v_boundary_candidate v_capture_summary (self.(segmentation_correction_refs))
    (self.(experiment_run_refs)) (self.(work_artifact_refs)) (self.(semantic_digest_refs)).
Definition set_checkpoint (self : WorkEpisode)
    (v_revision_id : RevisionId) (v_predecessor_revision_id : option RevisionId)
    (v_revision_generation : N) (v_checkpoint_refs : list string) : WorkEpisode :=
  mk
    (self.(episode_id)) v_revision_id v_predecessor_revision_id v_revision_generation
    (self.(task_id)) (self.(workstream_id)) (self.(repository_instance_id))
    (self.(worktree_instance_id)) (self.(phase_contract)) (self.(lifecycle_status))
    (self.(boundary_status)) (self.(source_watermark)) (self.(semantic_watermark))
    (self.(confirmation_watermark)) (self.(capture_watermark))
    (self.(entry_worktree_snapshot_id)) (self.(exit_worktree_snapshot_id))
    (self.(session_ids)) (self.(execution_lane_ids)) (self.(attempt_ids))
    (self.(competing_attempt_group_ids)) (self.(operation_burst_refs))
    (self.(worktree_transition_refs)) (self.(failed_attempt_ids))
    (self.(interrupted_attempt_ids)) (self.(returned_but_unselected_attempt_ids))
    (self.(selected_attempt_ids)) (self.(failure_refs)) (self.(interruption_refs))
    (self.(completed_outcome_refs)) (self.(selected_outcome_refs))
    (self.(verification_refs)) (self.(open_loops)) v_checkpoint_refs
    (self.(capture_receipt_revision_ids)) (self.(capture_gap_refs))
    (self.(capture_outage_refs)) (self.(pending_delta_stats))
    (self.(pending_semantic_delta)) (self.(boundary_candidate)) (self.(capture_summary))
    (self.(segmentation_correction_refs)) (self.(experiment_run_refs))
    (self.(work_artifact_refs)) (self.(semantic_digest_refs)).
Definition pending_ok (self : WorkEpisode) : bool :=
  match pending_semantic_delta self with
  | Some interval =>
      is_ok (PendingSemanticInterval.validate interval)
      && (PendingSemanticInterval.after_watermark interval =? semantic_watermark self)%N
      && (PendingSemanticInterval.through_watermark interval =? source_watermark self)%N
  | None => (semantic_watermark self =? source_watermark self)%N
  end.

Definition all_lists (self : WorkEpisode) : bool :=
  all id
    [bounded_refs (session_ids self);
     ordered_ids (execution_lane_ids self);
     ordered_ids (attempt_ids self);
     ordered_ids (competing_attempt_group_ids self);
     ordered_ids (operation_burst_refs self);
     ordered_ids (worktree_transition_refs self);
     ordered_ids (failed_attempt_ids self);
     ordered_ids (interrupted_attempt_ids self);
     ordered_ids (returned_but_unselected_attempt_ids self);
     ordered_ids (selected_attempt_ids self);
     bounded_refs (failure_refs self);
     bounded_refs (interruption_refs self);
     bounded_refs (completed_outcome_refs self);
     bounded_refs (selected_outcome_refs self);
     bounded_refs (verification_refs self);
     bounded_refs (open_loops self);
     bounded_refs (checkpoint_refs self);
     bounded_refs (semantic_digest_refs self);
     ordered_ids (capture_receipt_revision_ids self);
     bounded_refs (capture_gap_refs self);
     ordered_ids (capture_outage_refs self);
     ordered_ids (segmentation_correction_refs self)].

Definition validate (self : WorkEpisode) : result WorkError unit :=
  do? PhaseContract.validate (phase_contract self) in
  do? CaptureSummary.validate (capture_summary self) in
  guard
    ((revision_generation self =? 0)%N
     || (source_watermark self =? 0)%N
     || xorb (revision_generation self =? 1)%N (is_none (predecessor_revision_id self))
     || (source_watermark self <? semantic_watermark self)%N
     || (source_watermark self <? confirmation_watermark self)%N
     || (source_watermark self <? capture_watermark self)%N
     || negb (pending_ok self)
     || is_some_and (boundary_candidate self) (fun candidate =>
          is_err (BoundaryCandidateState.validate candidate)
          || (source_watermark self <? BoundaryCandidateState.candidate_watermark candidate)%N)
     || xorb (boundary_status self ==? BoundaryStatus.Candidate) (is_some (boundary_candidate self))
     || negb (all_lists self)
     || negb (is_empty (experiment_run_refs self))
     || negb (is_empty (work_artifact_refs self))
     || (lifecycle_status self ==? EpisodeLifecycle.Open)
        && ((boundary_status self ==? BoundaryStatus.Confirmed)
            || is_some (exit_worktree_snapshot_id self))
     || (lifecycle_status self !=? EpisodeLifecycle.Open)
        && (boundary_status self !=? BoundaryStatus.Confirmed)
     || (boundary_status self ==? BoundaryStatus.Confirmed) && (confirmation_watermark self =? 0)%N
     || (boundary_status self !=? BoundaryStatus.Confirmed)
        && negb (confirmation_watermark self =? 0)%N)
    WorkError.InvalidWorkIdentity.

Definition lifecycle_ok (self next : WorkEpisode) : bool :=
  (lifecycle_status self ==? lifecycle_status next)
  || (lifecycle_status self ==? EpisodeLifecycle.Open)
     && contains (lifecycle_status next) [EpisodeLifecycle.Closed; EpisodeLifecycle.Superseded]
  || (lifecycle_status self ==? EpisodeLifecycle.Closed)
     && (lifecycle_status next ==? EpisodeLifecycle.Superseded).

Definition boundary_ok (self next : WorkEpisode) : bool :=
  (boundary_status self ==? boundary_status next)
  || match boundary_status self, boundary_status next with
     | BoundaryStatus.Provisional, BoundaryStatus.Candidate
     | BoundaryStatus.Candidate, BoundaryStatus.Provisional
     | BoundaryStatus.Candidate, BoundaryStatus.Confirmed => true
     | _, _ => false
     end.

(** The [retains] conditions of the successor check. *)
Definition evidence_retained (self next : WorkEpisode) : bool :=
  retains (session_ids self) (session_ids next)
  && retains (execution_lane_ids self) (execution_lane_ids next)
  && retains (attempt_ids self) (attempt_ids next)
  && retains (competing_attempt_group_ids self) (competing_attempt_group_ids next)
  && retains (operation_burst_refs self) (operation_burst_refs next)
  && retains (worktree_transition_refs self) (worktree_transition_refs next)
  && retains (failed_attempt_ids self) (failed_attempt_ids next)
  && retains (interrupted_attempt_ids self) (interrupted_attempt_ids next)
  && retains (returned_but_unselected_attempt_ids self) (returned_but_unselected_attempt_ids next)
  && retains (selected_attempt_ids self) (selected_attempt_ids next)
  && retains (failure_refs self) (failure_refs next)
  && retains (interruption_refs self) (interruption_refs next)
  && retains (completed_outcome_refs self) (completed_outcome_refs next)
  && retains (selected_outcome_refs self) (selected_outcome_refs next)
  && retains (verification_refs self) (verification_refs next)
  && retains (checkpoint_refs self) (checkpoint_refs next)
  && retains (capture_gap_refs self) (capture_gap_refs next)
  && retains (capture_outage_refs self) (capture_outage_refs next)
  && retains (segmentation_correction_refs self) (segmentation_correction_refs next).

Definition validate_semantic_successor (self next : WorkEpisode) (next_generation : N)
  : result WorkError unit :=
  let frozen := set_semantic next (revision_id self) (predecessor_revision_id self)
    (revision_generation self) (semantic_watermark self) (pending_semantic_delta self)
    (semantic_digest_refs self) in
  let appended := retains (semantic_digest_refs self) (semantic_digest_refs next)
    && (length (semantic_digest_refs next) =? length (semantic_digest_refs self) + 1)%nat in
  let pending_ok :=
    if (semantic_watermark next =? source_watermark next)%N
    then is_none (pending_semantic_delta next)
    else is_some_and (pending_semantic_delta next) (fun interval =>
      (PendingSemanticInterval.after_watermark interval =? semantic_watermark next)%N
      && (PendingSemanticInterval.through_watermark interval =? source_watermark next)%N) in
  guard ((frozen !=? self)
         || (revision_generation next !=? next_generation)
         || (predecessor_revision_id next !=? Some (revision_id self))
         || (revision_id next ==? revision_id self)
         || (semantic_watermark next <=? semantic_watermark self)%N
         || (source_watermark self <? semantic_watermark next)%N
         || negb appended
         || negb pending_ok)
    WorkError.InvalidWorkIdentity.

Definition validate_successor (self next : WorkEpisode) : result WorkError unit :=
  do? validate self in
  do? validate next in
  let? next_generation := ok_or (checked_add_u64 (revision_generation self) 1)
                            WorkError.InvalidWorkIdentity in
  if (semantic_watermark self !=? semantic_watermark next)
     || (semantic_digest_refs self !=? semantic_digest_refs next)
  then validate_semantic_successor self next next_generation
  else
    guard
      ((episode_id next !=? episode_id self)
       || (revision_generation next !=? next_generation)
       || (predecessor_revision_id next !=? Some (revision_id self))
       || (revision_id next ==? revision_id self)
       || (task_id next !=? task_id self)
       || (workstream_id next !=? workstream_id self)
       || (repository_instance_id next !=? repository_instance_id self)
       || (worktree_instance_id next !=? worktree_instance_id self)
       || (phase_contract next !=? phase_contract self)
       || (entry_worktree_snapshot_id next !=? entry_worktree_snapshot_id self)
       || (source_watermark next <? source_watermark self)%N
       || (semantic_watermark next <? semantic_watermark self)%N
       || (confirmation_watermark next <? confirmation_watermark self)%N
       || (capture_watermark next <? capture_watermark self)%N
       || negb (lifecycle_ok self next)
       || negb (boundary_ok self next)
       || (lifecycle_status self ==? EpisodeLifecycle.Superseded)
       || (lifecycle_status self ==? EpisodeLifecycle.Closed)
          && (lifecycle_status next !=? EpisodeLifecycle.Superseded)
       || negb (evidence_retained self next))
      WorkError.InvalidWorkIdentity.
End WorkEpisode.
Abbreviation WorkEpisode := WorkEpisode.WorkEpisode.
Export (hints) WorkEpisode.

(** ** Checkpoints *)

Module CheckpointReason.
Inductive CheckpointReason :=
| Stop
| SessionEnd
| Compact
| Idle
| PhaseCandidate
| Manual.
#[export] Instance eq_dec : EqDecision CheckpointReason.
Proof. solve_decision. Defined.
End CheckpointReason.
Abbreviation CheckpointReason := CheckpointReason.CheckpointReason.
Export (hints) CheckpointReason.

Definition reason_as_str (r : CheckpointReason) : string :=
  match r with
  | CheckpointReason.Stop => "stop"
  | CheckpointReason.SessionEnd => "session_end"
  | CheckpointReason.Compact => "compact"
  | CheckpointReason.Idle => "idle"
  | CheckpointReason.PhaseCandidate => "phase_candidate"
  | CheckpointReason.Manual => "manual"
  end.

Module CheckpointVerifierState.
Inductive CheckpointVerifierState :=
| Unverified
| Passed
| Failed
| Inconclusive.
#[export] Instance eq_dec : EqDecision CheckpointVerifierState.
Proof. solve_decision. Defined.
End CheckpointVerifierState.
Abbreviation CheckpointVerifierState := CheckpointVerifierState.CheckpointVerifierState.
Export (hints) CheckpointVerifierState.

Module CheckpointAttemptRevisionRef.
Record CheckpointAttemptRevisionRef := mk {
  attempt_id : AttemptId;
  revision_id : RevisionId;
}.
#[export] Instance eq_dec : EqDecision CheckpointAttemptRevisionRef.
Proof. solve_decision. Defined.
Definition key (r : CheckpointAttemptRevisionRef) := (attempt_id r, revision_id r).
Lemma CheckpointAttemptRevisionRef_key_inj x y : key x = key y -> x = y.
Proof. destruct x, y; unfold key; simpl; congruence. Qed.
#[export] Instance ord : Ord CheckpointAttemptRevisionRef :=
  Ord_by key CheckpointAttemptRevisionRef_key_inj.
End CheckpointAttemptRevisionRef.
Abbreviation CheckpointAttemptRevisionRef := CheckpointAttemptRevisionRef.CheckpointAttemptRevisionRef.
Export (hints) CheckpointAttemptRevisionRef.

Module WorkCheckpoint.
Record WorkCheckpoint := mk {
  episode_id : WorkEpisodeId;
  episode_revision_id : RevisionId;
  source_watermark : N;
  active_attempt_ids : list AttemptId;
  attempt_revision_refs : list CheckpointAttemptRevisionRef;
  phase_contract : PhaseContract;
  open_loops : list string;
  verifier_state : CheckpointVerifierState;
  verifier_refs : list string;
  current_worktree_snapshot_id : option WorktreeSnapshotId;
  pending_delta_stats : PendingDeltaStats;
  created_reason : CheckpointReason;
  continuation_candidate : bool;
  active_lineage_refs : list string;
  capture_receipt_revision_ids : list CaptureReceiptId;
  capture_gap_refs : list string;
  capture_outage_refs : list CaptureOutageIntervalId;
  algorithm_revision : N;
}.
#[export] Instance eq_dec : EqDecision WorkCheckpoint.
Proof. solve_decision. Defined.
Section checkpoints.
Context `{L : UuidLib} `{SHA : Sha256}.

Definition stable_key (self : WorkCheckpoint) : string :=
  (id_display (episode_id self) +:+ ":" +:+ pretty (source_watermark self) +:+ ":"
   +:+ reason_as_str (created_reason self) +:+ ":" +:+ pretty (algorithm_revision self))%string.

Definition validate (self : WorkCheckpoint) : result WorkError unit :=
  do? PhaseContract.validate (phase_contract self) in
  guard ((source_watermark self =? 0)%N
         || (algorithm_revision self =? 0)%N
         || negb (ordered_ids (active_attempt_ids self))
         || negb (ordered_ids (attempt_revision_refs self))
         || negb (bounded_refs (open_loops self))
         || negb (bounded_refs (verifier_refs self))
         || negb (bounded_refs (active_lineage_refs self))
         || negb (ordered_ids (capture_receipt_revision_ids self))
         || negb (bounded_refs (capture_gap_refs self))
         || negb (ordered_ids (capture_outage_refs self)))
    WorkError.InvalidWorkIdentity.

Definition verifier_state_of (attempts : list Attempt) : CheckpointVerifierState :=
  let has_passed := any (fun a => Attempt.verification a ==? AttemptVerification.Passed) attempts in
  let has_failed := any (fun a => Attempt.verification a ==? AttemptVerification.Failed) attempts in
  let has_inconclusive :=
    any (fun a => Attempt.verification a ==? AttemptVerification.Inconclusive) attempts in
  if negb (is_empty attempts)
     && all (fun a => Attempt.verification a ==? AttemptVerification.Passed) attempts
  then CheckpointVerifierState.Passed
  else if has_failed && negb has_passed && negb has_inconclusive
  then CheckpointVerifierState.Failed
  else if has_passed || has_failed || has_inconclusive
  then CheckpointVerifierState.Inconclusive
  else CheckpointVerifierState.Unverified.

Definition still_active (attempt : Attempt) : bool :=
  (Attempt.lifecycle_status attempt ==? AttemptLifecycleStatus.Active)
  && contains (Attempt.execution_status attempt)
       [AttemptExecutionStatus.Proposed; AttemptExecutionStatus.Active;
        AttemptExecutionStatus.Interrupted].

Definition derive (episode : WorkEpisode) (attempts : list Attempt)
    (snapshot : option WorktreeSnapshot) (reason : CheckpointReason)
  : result WorkError WorkCheckpoint :=
  do? WorkEpisode.validate episode in
  let provided_attempt_ids := vec_sort (Attempt.attempt_id <$> attempts) in
  do? guard
    ((provided_attempt_ids !=? WorkEpisode.attempt_ids episode)
     || any (fun attempt =>
          is_err (Attempt.validate attempt)
          || (Attempt.task_id attempt !=? WorkEpisode.task_id episode)
          || (Attempt.workstream_id attempt !=? WorkEpisode.workstream_id episode)
          || (Attempt.episode_id attempt !=? Some (WorkEpisode.episode_id episode))
          || negb (contains (Attempt.attempt_id attempt) (WorkEpisode.attempt_ids episode)))
          attempts
     || is_some_and snapshot (fun value =>
          is_err (WorktreeSnapshot.validate value)
          || (WorkEpisode.worktree_instance_id episode
              !=? Some (WorktreeSnapshot.worktree_instance_id value))))
    WorkError.InvalidWorkIdentity in
  let checkpoint := {|
    episode_id := WorkEpisode.episode_id episode;
    episode_revision_id := WorkEpisode.revision_id episode;
    source_watermark := WorkEpisode.source_watermark episode;
    active_attempt_ids :=
      vec_sort (Attempt.attempt_id <$> filter (fun a => still_active a = true) attempts);
    attempt_revision_refs :=
      vec_sort ((fun a => CheckpointAttemptRevisionRef.mk (Attempt.attempt_id a) (Attempt.revision_id a))
                  <$> attempts);
    phase_contract := WorkEpisode.phase_contract episode;
    open_loops := WorkEpisode.open_loops episode;
    verifier_state := verifier_state_of attempts;
    verifier_refs := sort_unique (attempts ≫= Attempt.parent_verification_refs);
    current_worktree_snapshot_id := WorktreeSnapshot.worktree_snapshot_id <$> snapshot;
    pending_delta_stats := WorkEpisode.pending_delta_stats episode;
    created_reason := reason;
    continuation_candidate := WorkEpisode.lifecycle_status episode ==? EpisodeLifecycle.Open;
    active_lineage_refs := id_display <$> WorkEpisode.worktree_transition_refs episode;
    capture_receipt_revision_ids := WorkEpisode.capture_receipt_revision_ids episode;
    capture_gap_refs := WorkEpisode.capture_gap_refs episode;
    capture_outage_refs := WorkEpisode.capture_outage_refs episode;
    algorithm_revision := EPISODE_ALGORITHM_REVISION |} in
  do? validate checkpoint in
  Ok checkpoint.
End checkpoints.
End WorkCheckpoint.
Abbreviation WorkCheckpoint := WorkCheckpoint.WorkCheckpoint.
Export (hints) WorkCheckpoint.

(** ** Lemmas on episodes *)

Module EpisodeFacts.
Import WorkEpisode.

(** What never changes along the revisions of an episode. *)
Record same_episode (a b : WorkEpisode) : Prop := {
  same_episode_id : episode_id b = episode_id a;
  same_task : task_id b = task_id a;
  same_workstream : workstream_id b = workstream_id a;
  same_repository : repository_instance_id b = repository_instance_id a;
  same_worktree : worktree_instance_id b = worktree_instance_id a;
  same_contract : phase_contract b = phase_contract a;
  same_entry : entry_worktree_snapshot_id b = entry_worktree_snapshot_id a;
}.

(** What only grows. *)
Record episode_grows (a b : WorkEpisode) : Prop := {
  grow_sessions : session_ids a ⊆ session_ids b;
  grow_lanes : execution_lane_ids a ⊆ execution_lane_ids b;
  grow_attempts : attempt_ids a ⊆ attempt_ids b;
  grow_groups : competing_attempt_group_ids a ⊆ competing_attempt_group_ids b;
  grow_bursts : operation_burst_refs a ⊆ operation_burst_refs b;
  grow_transitions : worktree_transition_refs a ⊆ worktree_transition_refs b;
  grow_failed : failed_attempt_ids a ⊆ failed_attempt_ids b;
  grow_interrupted : interrupted_attempt_ids a ⊆ interrupted_attempt_ids b;
  grow_returned : returned_but_unselected_attempt_ids a ⊆ returned_but_unselected_attempt_ids b;
  grow_selected : selected_attempt_ids a ⊆ selected_attempt_ids b;
  grow_failures : failure_refs a ⊆ failure_refs b;
  grow_interruptions : interruption_refs a ⊆ interruption_refs b;
  grow_completed : completed_outcome_refs a ⊆ completed_outcome_refs b;
  grow_outcomes : selected_outcome_refs a ⊆ selected_outcome_refs b;
  grow_verification : verification_refs a ⊆ verification_refs b;
  grow_checkpoints : checkpoint_refs a ⊆ checkpoint_refs b;
  grow_gaps : capture_gap_refs a ⊆ capture_gap_refs b;
  grow_outages : capture_outage_refs a ⊆ capture_outage_refs b;
  grow_corrections : segmentation_correction_refs a ⊆ segmentation_correction_refs b;
  grow_digests : semantic_digest_refs a ⊆ semantic_digest_refs b;
}.

Record watermarks_grow (a b : WorkEpisode) : Prop := {
  grow_source : (source_watermark a <= source_watermark b)%N;
  grow_semantic : (semantic_watermark a <= semantic_watermark b)%N;
  grow_confirmation : (confirmation_watermark a <= confirmation_watermark b)%N;
  grow_capture : (capture_watermark a <= capture_watermark b)%N;
}.

(** Closing, superseding and confirming are not undone. *)
Record settled_kept (a b : WorkEpisode) : Prop := {
  kept_closed : lifecycle_status a <> EpisodeLifecycle.Open -> lifecycle_status b <> EpisodeLifecycle.Open;
  kept_superseded : lifecycle_status a = EpisodeLifecycle.Superseded ->
    lifecycle_status b = EpisodeLifecycle.Superseded;
  kept_confirmed : boundary_status a = BoundaryStatus.Confirmed -> boundary_status b = BoundaryStatus.Confirmed;
}.

#[export] Instance same_episode_refl : Reflexive same_episode.
Proof. by split. Qed.
#[export] Instance same_episode_trans : Transitive same_episode.
Proof. intros a b c [] []. split; congruence. Qed.
#[export] Instance episode_grows_refl : Reflexive episode_grows.
Proof. by split. Qed.
#[export] Instance episode_grows_trans : Transitive episode_grows.
Proof. intros a b c [] []. split; etransitivity; eassumption. Qed.
#[export] Instance watermarks_grow_refl : Reflexive watermarks_grow.
Proof. by split. Qed.
#[export] Instance watermarks_grow_trans : Transitive watermarks_grow.
Proof. intros a b c [] []. split; lia. Qed.
#[export] Instance settled_kept_refl : Reflexive settled_kept.
Proof. by split. Qed.
#[export] Instance settled_kept_trans : Transitive settled_kept.
Proof. intros a b c [] []. split; auto. Qed.

Lemma all_lists_sorted a :
  validate a = Ok tt ->
  sorted_lt (session_ids a) /\ sorted_lt (execution_lane_ids a) /\ sorted_lt (attempt_ids a) /\
  sorted_lt (competing_attempt_group_ids a) /\ sorted_lt (operation_burst_refs a) /\
  sorted_lt (worktree_transition_refs a) /\ sorted_lt (failed_attempt_ids a) /\
  sorted_lt (interrupted_attempt_ids a) /\ sorted_lt (returned_but_unselected_attempt_ids a) /\
  sorted_lt (selected_attempt_ids a) /\ sorted_lt (failure_refs a) /\ sorted_lt (interruption_refs a) /\
  sorted_lt (completed_outcome_refs a) /\ sorted_lt (selected_outcome_refs a) /\
  sorted_lt (verification_refs a) /\ sorted_lt (checkpoint_refs a) /\
  sorted_lt (capture_gap_refs a) /\ sorted_lt (capture_outage_refs a) /\
  sorted_lt (segmentation_correction_refs a) /\ sorted_lt (semantic_digest_refs a).
Proof.
  unfold validate. intros H. apply bind_unit_ok in H as [_ H]. apply bind_unit_ok in H as [_ H].
  rewrite guard_ok, !orb_false_iff in H.
  assert (all_lists a = true) as Ha by (destruct_and! H; by apply negb_false_iff).
  clear H. unfold all_lists in Ha. rewrite all_true in Ha. unfold id in Ha.
  rewrite !Forall_cons, !bounded_refs_true, !ordered_ids_true in Ha. tauto.
Qed.

Lemma evidence_retained_grows a b :
  validate b = Ok tt -> evidence_retained a b = true -> semantic_digest_refs a ⊆ semantic_digest_refs b ->
  episode_grows a b.
Proof.
  intros V H D. apply all_lists_sorted in V. unfold evidence_retained in H.
  rewrite !andb_true_iff in H. destruct_and! V. destruct_and! H.
  split; try done; eapply retains_true; eassumption.
Qed.

(** A semantic revision changes nothing but the semantic fields. *)
Lemma semantic_frame a b :
  set_semantic b (revision_id a) (predecessor_revision_id a) (revision_generation a)
    (semantic_watermark a) (pending_semantic_delta a) (semantic_digest_refs a) = a ->
  same_episode a b /\ settled_kept a b /\ source_watermark b = source_watermark a /\
  confirmation_watermark b = confirmation_watermark a /\ capture_watermark b = capture_watermark a /\
  (semantic_digest_refs a ⊆ semantic_digest_refs b -> episode_grows a b).
Proof.
  intros E.
  assert (forall {T} (f : WorkEpisode -> T), f (set_semantic b (revision_id a) (predecessor_revision_id a)
    (revision_generation a) (semantic_watermark a) (pending_semantic_delta a) (semantic_digest_refs a))
    = f a) as F by (intros; by rewrite E). clear E.
  pose proof (F _ lifecycle_status : lifecycle_status b = lifecycle_status a) as L.
  pose proof (F _ boundary_status : boundary_status b = boundary_status a) as B.
  split_and!.
  - split; [exact (F _ episode_id)|exact (F _ task_id)|exact (F _ workstream_id)
      |exact (F _ repository_instance_id)|exact (F _ worktree_instance_id)|exact (F _ phase_contract)
      |exact (F _ entry_worktree_snapshot_id)].
  - split; congruence.
  - exact (F _ source_watermark).
  - exact (F _ confirmation_watermark).
  - exact (F _ capture_watermark).
  - intros H. split; [..|exact H];
      match goal with |- ?f a ⊆ ?f b => by rewrite (F _ f : f b = f a) end.
Qed.

Lemma lifecycle_ok_settled a b :
  lifecycle_ok a b = true -> boundary_ok a b = true -> settled_kept a b.
Proof.
  unfold lifecycle_ok, boundary_ok. intros L B.
  split; destruct (lifecycle_status a), (lifecycle_status b), (boundary_status a), (boundary_status b);
    naive_solver.
Qed.

Lemma validate_successor_inv a b :
  validate_successor a b = Ok tt ->
  validate a = Ok tt /\ validate b = Ok tt /\
  revision_generation b = (revision_generation a + 1)%N /\
  predecessor_revision_id b = Some (revision_id a) /\ revision_id b <> revision_id a /\
  same_episode a b /\ episode_grows a b /\ watermarks_grow a b /\ settled_kept a b.
Proof.
  unfold validate_successor. intros H. apply bind_unit_ok in H as [Va H].
  apply bind_unit_ok in H as [Vb H]. apply rbind_ok in H as (g & Hg & H).
  apply ok_or_ok, checked_add_u64_Some in Hg as [-> _]. split; [done|]. split; [done|].
  destruct (_ || _) eqn:E in H.
  - clear E. unfold validate_semantic_successor in H. cbv zeta in H.
    rewrite guard_ok, !orb_false_iff, !negb_false_iff, andb_true_iff, !bool_decide_eq_true,
      bool_decide_eq_false, N.leb_gt in H. destruct_and! H.
    match goal with F : set_semantic _ _ _ _ _ _ _ = a |- _ =>
      destruct (semantic_frame a b F) as (? & ? & ? & ? & ? & Hgr) end.
    split_and!; try done.
    + apply Hgr. eapply retains_true; [apply (all_lists_sorted b Vb)|done].
    + split; lia.
  - rewrite orb_false_iff, !negb_false_iff, !bool_decide_eq_true in E. destruct E as [Es Ed].
    rewrite guard_ok, !orb_false_iff, !negb_false_iff, !bool_decide_eq_true, bool_decide_eq_false,
      !N.ltb_ge in H. destruct_and! H. split_and!; try done.
    + apply evidence_retained_grows; [done..|]. by rewrite Ed.
    + by apply lifecycle_ok_settled.
Qed.

End EpisodeFacts.

(** ** Theorems *)

Module EpisodeTheorems.
Import WorkEpisode EpisodeFacts.

(** What the revisions of an episode preserve.  Along any chain of accepted
    successors, semantic ones included, the episode keeps its identity, phase
    contract and entry snapshot, loses no recorded reference, its four watermarks
    never go back, it is numbered without gap, and a closed, superseded or
    confirmed episode stays so. *)
Theorem episode_chain_invariant n (a b : WorkEpisode) :
  chain validate_successor n a b ->
  same_episode a b /\ episode_grows a b /\ watermarks_grow a b /\ settled_kept a b /\
  revision_generation b = (revision_generation a + N.of_nat n)%N /\
  (0 < n -> validate b = Ok tt)%nat.
Proof.
  intros H.
  assert (same_episode a b /\ episode_grows a b /\ watermarks_grow a b /\ settled_kept a b) as Hr.
  { split_and!; [eapply (chain_preserves _ same_episode)|eapply (chain_preserves _ episode_grows)
      |eapply (chain_preserves _ watermarks_grow)|eapply (chain_preserves _ settled_kept)];
      try exact H; intros x y Hs; apply validate_successor_inv in Hs; tauto. }
  destruct_and! Hr. split_and!; try done.
  - clear -H. induction H as [a|n a b c _ IH Hs]; [lia|].
    apply validate_successor_inv in Hs as (_ & _ & Hg & _). lia.
  - destruct H as [|? ? ? ? _ Hs]; [lia|]. intros _. apply validate_successor_inv in Hs. tauto.
Qed.

End EpisodeTheorems.
