(* ===== verification/Segmentation.v ===== *)
(** * Incremental segmentation

    [evertrace-engine/src/segmentation]: the activity token compiled from the
    current truth of the store, the folding of tokens into bursts, the detector of
    episode boundaries, and the segmenter that prepares one transition at a time
    and promotes it once the journal has committed it.  The views are those of
    [evertrace-store/src/projections/segmentation.rs].

    The identifiers that the code draws with [new_v7] are arguments. *)

From S2P Require Import Prelude Order Collections Text Ids Lane Journal Attempt.
From S2P Require Import Repository Work Evidence Episode.

(** ** Views of the store *)

Module SegmentationCurrentView.
Record SegmentationCurrentView := mk {
  frontier : N;
  occurrences : gmap HostOccurrenceId HostOccurrence;
  operations : gmap OperationId Operation;
  bindings : gmap OperationId WorkBindingRevision;
  lanes : gmap ExecutionLaneId ExecutionLane;
  receipts : gmap CaptureReceiptId CaptureReceipt;
  scope_effects : gmap ScopeEffectId ScopeEffect;
  attempts : gmap AttemptId Attempt;
  groups : gmap CompetingAttemptGroupId CompetingAttemptGroup;
  episodes : gmap WorkEpisodeId WorkEpisode;
  workstreams : gmap WorkstreamId Workstream;
}.
End SegmentationCurrentView.
Abbreviation SegmentationCurrentView := SegmentationCurrentView.SegmentationCurrentView.
Export (hints) SegmentationCurrentView.

Module OperationBurstCurrentView.
Record OperationBurstCurrentView := mk {
  frontier : N;
  bursts : gmap OperationBurstId OperationBurst;
}.
Definition recent_for_episode (self : OperationBurstCurrentView) (episode : WorkEpisode)
  : result StoreError (list OperationBurst) :=
  do? guard (64 <? length (WorkEpisode.operation_burst_refs episode))%nat StoreError.StoreCorrupt in
  let? found := ok_or (mapM (fun id => bursts self !! id) (WorkEpisode.operation_burst_refs episode))
                  StoreError.StoreCorrupt in
  let values := sort_by (fun a b =>
    OperationBurst.source_watermark a <=? OperationBurst.source_watermark b)%N found in
  do? guard (windows2_any (fun a b =>
          OperationBurst.source_watermark b <=? OperationBurst.source_watermark a)%N values)
        StoreError.StoreCorrupt in
  Ok values.
End OperationBurstCurrentView.
Abbreviation OperationBurstCurrentView := OperationBurstCurrentView.OperationBurstCurrentView.
Export (hints) OperationBurstCurrentView.

Module SegmentationCurrentState.
Record SegmentationCurrentState := mk {
  authority : SegmentationCurrentView;
  bursts : OperationBurstCurrentView;
}.
Definition frontier (self : SegmentationCurrentState) : N :=
  SegmentationCurrentView.frontier (authority self).
Definition episode (self : SegmentationCurrentState) (id : WorkEpisodeId) : option WorkEpisode :=
  SegmentationCurrentView.episodes (authority self) !! id.
Definition recent_bursts (self : SegmentationCurrentState) (episode : WorkEpisode) :=
  OperationBurstCurrentView.recent_for_episode (bursts self) episode.
Definition current_burst (self : SegmentationCurrentState) (id : OperationBurstId) :=
  OperationBurstCurrentView.bursts (bursts self) !! id.
End SegmentationCurrentState.
Abbreviation SegmentationCurrentState := SegmentationCurrentState.SegmentationCurrentState.
Export (hints) SegmentationCurrentState.

(** ** Tokens *)

Module DetectorError.
Inductive DetectorError :=
| Ineligible
| WatermarkRegression
| PendingTransition.
#[export] Instance eq_dec : EqDecision DetectorError.
Proof. solve_decision. Defined.
End DetectorError.
Abbreviation DetectorError := DetectorError.DetectorError.
Export (hints) DetectorError.

Module BoundaryEvidence.
Inductive BoundaryEvidence :=
| None
| MaterialGoal
| PhaseTransition
| TargetFamily
| AcceptanceSatisfied
| AcceptanceAbandoned
| AcceptanceReplaced
| ExplicitPhaseComplete
| ExplicitPhaseAbandon
| ExplicitSupersede
| ObjectiveOutcomeClosure
| RecoverPhaseExit.
#[export] Instance eq_dec : EqDecision BoundaryEvidence.
Proof. solve_decision. Defined.
End BoundaryEvidence.
Abbreviation BoundaryEvidence := BoundaryEvidence.BoundaryEvidence.
Export (hints) BoundaryEvidence.

Definition objective (e : BoundaryEvidence) : bool := e !=? BoundaryEvidence.None.

Module SegmentationFacts.
Record SegmentationFacts := mk {
  sequence : N;
  source_watermark : N;
  target_family : string;
  state_delta : OperationStateDelta;
  error_signature : option string;
  verifier_transition : OperationVerifierDelta;
  observed_phase_kind : option PhaseKind;
  boundary_evidence : BoundaryEvidence;
  evidence_refs : list SourceObservationId;
}.
#[export] Instance eq_dec : EqDecision SegmentationFacts.
Proof. solve_decision. Defined.
End SegmentationFacts.
Abbreviation SegmentationFacts := SegmentationFacts.SegmentationFacts.
Export (hints) SegmentationFacts.

Definition token_text (value : string) : bool := bounded_text 512 value.

Module ActivityToken.
Record ActivityToken := mk {
  sequence : N;
  source_watermark : N;
  operation_id : OperationId;
  operation_revision : N;
  host_occurrence_id : HostOccurrenceId;
  work_binding_revision_id : WorkBindingRevisionId;
  primary_binding : PrimaryWorkBinding;
  task_id : TaskId;
  workstream_id : WorkstreamId;
  episode_id : WorkEpisodeId;
  attempt_id : option AttemptId;
  attempt_revision_id : option RevisionId;
  experiment_run_id : option ExperimentRunId;
  competing_group_id : option CompetingAttemptGroupId;
  execution_lane_id : ExecutionLaneId;
  parent_lane_id : option ExecutionLaneId;
  subagent_id : option string;
  operation_kind : OperationKind;
  target_refs : list string;
  scope_effect_refs : list ScopeEffectId;
  worktree_lineage_refs : list string;
  artifact_refs : list WorkArtifactId;
  side_effects : list EffectRole;
  source_observation_refs : list SourceObservationId;
  strategy_contract_fingerprint : option (list byte);
  worktree_transition_refs : list WorktreeTransitionId;
  integration_event_refs : list IntegrationEventId;
  target_family : string;
  state_delta : OperationStateDelta;
  error_signature : option string;
  verifier_transition : OperationVerifierDelta;
  observed_phase_kind : option PhaseKind;
  boundary_evidence : BoundaryEvidence;
  boundary_evidence_refs : list SourceObservationId;
  session_id : string;
  capture_receipt : CaptureReceipt;
}.
#[export] Instance eq_dec : EqDecision ActivityToken.
Proof. solve_decision. Defined.
(** The conditions on an attempt and its group. *)
Definition attempt_mismatch (episode : WorkEpisode) (ep_id : WorkEpisodeId) (lane_id : ExecutionLaneId)
    (competing_group_id : option CompetingAttemptGroupId)
    (experiment_run_id : option ExperimentRunId) (value : Attempt) : bool :=
  (Attempt.task_id value !=? WorkEpisode.task_id episode)
  || (Attempt.workstream_id value !=? WorkEpisode.workstream_id episode)
  || (Attempt.episode_id value !=? Some ep_id)
  || negb (contains (Attempt.attempt_id value) (WorkEpisode.attempt_ids episode))
  || negb (contains lane_id (Attempt.execution_lane_ids value))
  || is_some_and competing_group_id (fun id => negb (contains id (Attempt.competing_group_ids value)))
  || is_some_and experiment_run_id (fun id => negb (contains id (Attempt.experiment_run_ids value)))
  || negb (is_empty (Attempt.competing_group_ids value)) && is_none competing_group_id
  || negb (is_empty (Attempt.experiment_run_ids value)) && is_none experiment_run_id.

(** [id.map(|id| view.get(id).ok_or(Ineligible)).transpose()?]. *)
Definition resolve_opt {K A} (lookup : K -> option A) (id : option K) : result DetectorError (option A) :=
  match id with
  | None => Ok None
  | Some id => let? value := ok_or (lookup id) DetectorError.Ineligible in Ok (Some value)
  end.

Definition compile_checked (view : SegmentationCurrentView) (op_id : OperationId)
    (ep_id : WorkEpisodeId) (facts : SegmentationFacts) : result DetectorError ActivityToken :=
  let? operation := ok_or (SegmentationCurrentView.operations view !! op_id)
                      DetectorError.Ineligible in
  let? occurrence := ok_or (SegmentationCurrentView.occurrences view
                              !! Operation.host_occurrence_id operation) DetectorError.Ineligible in
  let? binding := ok_or (SegmentationCurrentView.bindings view !! op_id)
                    DetectorError.Ineligible in
  let? episode := ok_or (SegmentationCurrentView.episodes view !! ep_id)
                    DetectorError.Ineligible in
  let? workstream := ok_or (SegmentationCurrentView.workstreams view
                              !! WorkEpisode.workstream_id episode) DetectorError.Ineligible in
  let? lane_id := ok_or (Operation.execution_lane_id operation) DetectorError.Ineligible in
  let? lane := ok_or (SegmentationCurrentView.lanes view !! lane_id) DetectorError.Ineligible in
  let? receipt := ok_or (SegmentationCurrentView.receipts view
                           !! ExecutionLane.active_capture_receipt_revision_id lane)
                    DetectorError.Ineligible in
  let? effects := ok_or (mapM (fun id => SegmentationCurrentView.scope_effects view !! id)
                           (Operation.scope_effect_ids operation)) DetectorError.Ineligible in
  let primary := WorkBindingRevision.primary_binding binding in
  let? attempt := resolve_opt (fun id => SegmentationCurrentView.attempts view !! id)
                    (PrimaryWorkBinding.attempt_id primary) in
  let group_id := PrimaryWorkBinding.competing_group_id primary in
  let run_id := PrimaryWorkBinding.experiment_run_id primary in
  let? group := resolve_opt (fun id => SegmentationCurrentView.groups view !! id) group_id in
  let admissible := sort_unique (Operation.input_source_observation_refs operation
    ++ Operation.result_source_observation_refs operation ++ (effects ≫= ScopeEffect.evidence_refs)) in
  let evidence_refs := sort_unique (SegmentationFacts.evidence_refs facts) in
  let claims_semantics :=
    (SegmentationFacts.boundary_evidence facts !=? BoundaryEvidence.None)
    || (SegmentationFacts.verifier_transition facts !=? OperationVerifierDelta.None)
    || is_some (SegmentationFacts.observed_phase_kind facts) in
  do? guard
    ((HostOccurrence.correlation_strength occurrence !=? CorrelationStrength.Exact)
     || (HostOccurrence.normalization_state occurrence
         ==? NormalizationState.NormalizationConflicted)
     || is_some (HostOccurrence.possible_duplicate_group_id occurrence)
     || (Operation.execution_lane_id operation !=? Some (ExecutionLane.execution_lane_id lane))
     || negb (contains op_id (ExecutionLane.operation_ids lane))
     || (WorkBindingRevision.operation_id binding !=? op_id)
     || (WorkBindingRevision.assignment_status binding !=? AssignmentStatus.Resolved)
     || (PrimaryWorkBinding.task_id primary !=? Some (WorkEpisode.task_id episode))
     || (PrimaryWorkBinding.workstream_id primary !=? Some (WorkEpisode.workstream_id episode))
     || (PrimaryWorkBinding.episode_id primary !=? Some ep_id)
     || (Workstream.active_episode_id workstream !=? Some ep_id)
     || (ExecutionLane.active_capture_receipt_revision_id lane
         !=? CaptureReceipt.capture_receipt_revision_id receipt)
     || (CaptureReceipt.execution_lane_id receipt !=? lane_id)
     || (SegmentationFacts.source_watermark facts <? CaptureReceipt.import_watermark receipt)%N
     || (SegmentationFacts.sequence facts =? 0)%N
     || (SegmentationFacts.source_watermark facts =? 0)%N
     || negb (token_text (SegmentationFacts.target_family facts))
     || is_some_and (SegmentationFacts.error_signature facts) (fun value => negb (token_text value))
     || claims_semantics && is_empty evidence_refs
     || any (fun reference => negb (binary_search_ok admissible reference)) evidence_refs
     || any (fun effect => ScopeEffect.operation_id effect !=? op_id) effects
     || is_some_and attempt (attempt_mismatch episode ep_id lane_id group_id run_id)
     || is_some_and group (fun value => is_none_or attempt (fun attempt =>
          negb (contains (Attempt.attempt_id attempt)
                  (CompetingAttemptGroup.member_attempt_ids value))))
     || any (fun effect => any (fun id => Some id !=? run_id)
               (ScopeEffect.experiment_run_ids effect)) effects)
    DetectorError.Ineligible in
  let target_refs := sort_unique (PhaseContract.primary_targets (WorkEpisode.phase_contract episode)
    ++ from_option (fun a => StrategyContract.target_refs (Attempt.strategy_contract a)) [] attempt
    ++ from_option CompetingAttemptGroup.target_refs [] group) in
  let source_observation_refs :=
    sort_unique (HostOccurrence.source_observation_refs occurrence ++ admissible) in
  let artifact_refs :=
    sort_unique (Operation.artifact_refs operation ++ (effects ≫= ScopeEffect.artifact_refs)) in
  let side_effects := sort_unique (ScopeEffect.effect_role <$> effects) in
  Ok {| sequence := SegmentationFacts.sequence facts;
        source_watermark := SegmentationFacts.source_watermark facts;
        operation_id := op_id;
        operation_revision := Operation.operation_revision operation;
        host_occurrence_id := HostOccurrence.host_occurrence_id occurrence;
        work_binding_revision_id := WorkBindingRevision.work_binding_revision_id binding;
        primary_binding := primary;
        task_id := WorkEpisode.task_id episode;
        workstream_id := WorkEpisode.workstream_id episode;
        episode_id := ep_id;
        attempt_id := Attempt.attempt_id <$> attempt;
        attempt_revision_id := Attempt.revision_id <$> attempt;
        experiment_run_id := run_id;
        competing_group_id := group_id;
        execution_lane_id := lane_id;
        parent_lane_id := ExecutionLane.parent_lane_id lane;
        subagent_id := (fun _ => ExecutionLane.agent_id lane) <$> ExecutionLane.parent_lane_id lane;
        operation_kind := Operation.operation_kind operation;
        target_refs := target_refs;
        scope_effect_refs := Operation.scope_effect_ids operation;
        worktree_lineage_refs := Workstream.worktree_lineage_refs workstream;
        artifact_refs := artifact_refs;
        side_effects := side_effects;
        source_observation_refs := source_observation_refs;
        strategy_contract_fingerprint := Attempt.strategy_contract_fingerprint <$> attempt;
        worktree_transition_refs := from_option Attempt.worktree_transition_refs [] attempt;
        integration_event_refs := from_option Attempt.integration_event_refs [] attempt;
        target_family := SegmentationFacts.target_family facts;
        state_delta := SegmentationFacts.state_delta facts;
        error_signature := SegmentationFacts.error_signature facts;
        verifier_transition := SegmentationFacts.verifier_transition facts;
        observed_phase_kind := SegmentationFacts.observed_phase_kind facts;
        boundary_evidence := SegmentationFacts.boundary_evidence facts;
        boundary_evidence_refs := evidence_refs;
        session_id := ExecutionLane.host_session_id lane;
        capture_receipt := receipt |}.
End ActivityToken.
Abbreviation ActivityToken := ActivityToken.ActivityToken.
Export (hints) ActivityToken.

(** ** Folding tokens into bursts *)

Definition BURST_ALGORITHM_REVISION : N := 2.
Definition MAX_BURST_ITEMS : nat := 64.

(** The identifiers one push may draw: of the revision that extends or closes the
    current burst, and of a new burst and its first revision. *)
Record FreshIds := {
  fresh_revision : RevisionId;
  fresh_burst : OperationBurstId;
  fresh_first_revision : RevisionId;
}.

Module BurstFoldUpdate.
Record BurstFoldUpdate := mk {
  current : OperationBurst;
  closed : option OperationBurst;
  started_new : bool;
  meaningful_new : bool;
  no_delta : bool;
}.
#[export] Instance eq_dec : EqDecision BurstFoldUpdate.
Proof. solve_decision. Defined.
End BurstFoldUpdate.
Abbreviation BurstFoldUpdate := BurstFoldUpdate.BurstFoldUpdate.
Export (hints) BurstFoldUpdate.

Module SeenOperation.
Record SeenOperation := mk {
  revision : N;
  member : OperationBurstMember;
  operation_kind : OperationKind;
  state_delta : OperationStateDelta;
  verifier_delta : OperationVerifierDelta;
  phase_candidate : option PhaseKind;
  has_objective_boundary : bool;
  error_signature : option string;
  target_family : string;
  target_refs : list string;
}.
#[export] Instance eq_dec : EqDecision SeenOperation.
Proof. solve_decision. Defined.
End SeenOperation.
Abbreviation SeenOperation := SeenOperation.SeenOperation.
Export (hints) SeenOperation.

Definition seen_from_burst (burst : OperationBurst) (member : OperationBurstMember) : SeenOperation :=
  {| SeenOperation.revision := OperationBurstMember.operation_revision member;
     SeenOperation.member := member;
     SeenOperation.operation_kind := OperationBurst.operation_kind burst;
     SeenOperation.state_delta := OperationBurst.state_delta burst;
     SeenOperation.verifier_delta := OperationBurst.verifier_delta burst;
     SeenOperation.phase_candidate := OperationBurst.phase_candidate burst;
     SeenOperation.has_objective_boundary := OperationBurst.has_objective_boundary burst;
     SeenOperation.error_signature := OperationBurst.error_signature burst;
     SeenOperation.target_family := OperationBurst.target_family burst;
     SeenOperation.target_refs := OperationBurst.target_refs burst |}.

Definition close_burst (fresh : RevisionId) (current : OperationBurst)
  : result DetectorError OperationBurst :=
  let? generation := ok_or (checked_add_u64 (OperationBurst.revision_generation current) 1)
                       DetectorError.Ineligible in
  let next := OperationBurst.set_closed current fresh (Some (OperationBurst.revision_id current))
                generation OperationBurstLifecycle.Closed in
  do? map_err (fun _ => DetectorError.Ineligible) (OperationBurst.validate_successor current next) in
  Ok next.

Definition member_from_token (token : ActivityToken) : OperationBurstMember :=
  {| OperationBurstMember.sequence := ActivityToken.sequence token;
     OperationBurstMember.source_watermark := ActivityToken.source_watermark token;
     OperationBurstMember.operation_id := ActivityToken.operation_id token;
     OperationBurstMember.operation_revision := ActivityToken.operation_revision token;
     OperationBurstMember.host_occurrence_id := ActivityToken.host_occurrence_id token;
     OperationBurstMember.work_binding_revision_id := ActivityToken.work_binding_revision_id token;
     OperationBurstMember.attempt_revision_id := ActivityToken.attempt_revision_id token;
     OperationBurstMember.source_observation_refs := ActivityToken.source_observation_refs token;
     OperationBurstMember.scope_effect_refs := ActivityToken.scope_effect_refs token;
     OperationBurstMember.artifact_refs := ActivityToken.artifact_refs token;
     OperationBurstMember.side_effects := ActivityToken.side_effects token;
     OperationBurstMember.worktree_transition_refs := ActivityToken.worktree_transition_refs token;
     OperationBurstMember.integration_event_refs := ActivityToken.integration_event_refs token |}.

Definition new_burst (id : OperationBurstId) (revision : RevisionId) (token : ActivityToken)
  : result DetectorError OperationBurst :=
  let value := {|
    OperationBurst.operation_burst_id := id;
    OperationBurst.revision_id := revision;
    OperationBurst.predecessor_revision_id := None;
    OperationBurst.revision_generation := 1;
    OperationBurst.lifecycle := OperationBurstLifecycle.Open;
    OperationBurst.algorithm_revision := BURST_ALGORITHM_REVISION;
    OperationBurst.operation_kind := ActivityToken.operation_kind token;
    OperationBurst.state_delta := ActivityToken.state_delta token;
    OperationBurst.verifier_delta := ActivityToken.verifier_transition token;
    OperationBurst.phase_candidate := ActivityToken.observed_phase_kind token;
    OperationBurst.has_objective_boundary :=
      ActivityToken.boundary_evidence token !=? BoundaryEvidence.None;
    OperationBurst.error_signature := ActivityToken.error_signature token;
    OperationBurst.target_family := ActivityToken.target_family token;
    OperationBurst.target_refs := ActivityToken.target_refs token;
    OperationBurst.members := [member_from_token token];
    OperationBurst.execution_lane_id := ActivityToken.execution_lane_id token;
    OperationBurst.parent_lane_id := ActivityToken.parent_lane_id token;
    OperationBurst.subagent_id := ActivityToken.subagent_id token;
    OperationBurst.primary_binding := ActivityToken.primary_binding token;
    OperationBurst.attempt_id := ActivityToken.attempt_id token;
    OperationBurst.experiment_run_id := ActivityToken.experiment_run_id token;
    OperationBurst.competing_group_id := ActivityToken.competing_group_id token;
    OperationBurst.worktree_lineage_refs := ActivityToken.worktree_lineage_refs token;
    OperationBurst.strategy_contract_fingerprint := ActivityToken.strategy_contract_fingerprint token;
    OperationBurst.source_watermark := ActivityToken.source_watermark token |} in
  do? map_err (fun _ => DetectorError.Ineligible) (OperationBurst.validate value) in
  Ok value.

Definition can_extend (current : OperationBurst) (token : ActivityToken) : bool :=
  (OperationBurst.lifecycle current ==? OperationBurstLifecycle.Open)
  && (OperationBurst.operation_kind current ==? ActivityToken.operation_kind token)
  && (OperationBurst.state_delta current ==? ActivityToken.state_delta token)
  && (OperationBurst.verifier_delta current ==? OperationVerifierDelta.None)
  && negb (OperationBurst.has_objective_boundary current)
  && (OperationBurst.phase_candidate current ==? ActivityToken.observed_phase_kind token)
  && (ActivityToken.verifier_transition token ==? OperationVerifierDelta.None)
  && (ActivityToken.boundary_evidence token ==? BoundaryEvidence.None)
  && (OperationBurst.error_signature current ==? ActivityToken.error_signature token)
  && (OperationBurst.target_family current ==? ActivityToken.target_family token)
  && (OperationBurst.target_refs current ==? ActivityToken.target_refs token)
  && (OperationBurst.execution_lane_id current ==? ActivityToken.execution_lane_id token)
  && (OperationBurst.parent_lane_id current ==? ActivityToken.parent_lane_id token)
  && (OperationBurst.primary_binding current ==? ActivityToken.primary_binding token)
  && (OperationBurst.attempt_id current ==? ActivityToken.attempt_id token)
  && (OperationBurst.experiment_run_id current ==? ActivityToken.experiment_run_id token)
  && (OperationBurst.competing_group_id current ==? ActivityToken.competing_group_id token)
  && (OperationBurst.worktree_lineage_refs current ==? ActivityToken.worktree_lineage_refs token)
  && (OperationBurst.strategy_contract_fingerprint current
      ==? ActivityToken.strategy_contract_fingerprint token)
  && is_empty (ActivityToken.worktree_transition_refs token)
  && is_empty (ActivityToken.integration_event_refs token)
  && negb (any (fun member => OperationBurstMember.operation_id member
                              ==? ActivityToken.operation_id token)
             (OperationBurst.members current)).

Module OperationBurstFolder.
Record OperationBurstFolder := mk {
  current : option OperationBurst;
  seen : gmap OperationId SeenOperation;
}.
Definition new : OperationBurstFolder := mk None ∅.

(** The loop body of [restore]: the members of one burst. *)
Definition see_member (burst : OperationBurst)
    (acc : result DetectorError (gmap OperationId SeenOperation)) (member : OperationBurstMember)
  : result DetectorError (gmap OperationId SeenOperation) :=
  let? seen := acc in
  let id := OperationBurstMember.operation_id member in
  let value := seen_from_burst burst member in
  match seen !! id with
  | None => Ok (<[id := value]> seen)
  | Some previous =>
      if (SeenOperation.revision previous <? OperationBurstMember.operation_revision member)%N
      then Ok (<[id := value]> seen)
      else Err DetectorError.Ineligible
  end.

Definition see_burst (acc : result DetectorError (gmap OperationId SeenOperation))
    (burst : OperationBurst) : result DetectorError (gmap OperationId SeenOperation) :=
  let? seen := acc in
  do? map_err (fun _ => DetectorError.Ineligible) (OperationBurst.validate burst) in
  foldl (see_member burst) (Ok seen) (OperationBurst.members burst).

Definition restore (bursts : list OperationBurst) : result DetectorError OperationBurstFolder :=
  let current := filter (fun value =>
    OperationBurst.lifecycle value = OperationBurstLifecycle.Open) bursts in
  do? guard ((1 <? length current)%nat || (64 <? length bursts)%nat) DetectorError.Ineligible in
  let? seen := foldl see_burst (Ok ∅) bursts in
  Ok (mk (head current) seen).

(** A token that repeats a seen revision: is it the same token? *)
Definition differs (previous : SeenOperation) (token : ActivityToken) : bool :=
  (SeenOperation.member previous !=? member_from_token token)
  || (SeenOperation.operation_kind previous !=? ActivityToken.operation_kind token)
  || (SeenOperation.state_delta previous !=? ActivityToken.state_delta token)
  || (SeenOperation.verifier_delta previous !=? ActivityToken.verifier_transition token)
  || (SeenOperation.phase_candidate previous !=? ActivityToken.observed_phase_kind token)
  || (SeenOperation.has_objective_boundary previous
      !=? (ActivityToken.boundary_evidence token !=? BoundaryEvidence.None))
  || (SeenOperation.error_signature previous !=? ActivityToken.error_signature token)
  || (SeenOperation.target_family previous !=? ActivityToken.target_family token)
  || (SeenOperation.target_refs previous !=? ActivityToken.target_refs token).

(** The branch that extends [current]. *)
Definition extend (fresh : FreshIds) (self : OperationBurstFolder) (current : OperationBurst)
    (token : ActivityToken) : result DetectorError (OperationBurstFolder * BurstFoldUpdate) :=
  let? generation := ok_or (checked_add_u64 (OperationBurst.revision_generation current) 1)
                       DetectorError.Ineligible in
  let member := member_from_token token in
  let next := OperationBurst.set_extended current (fresh_revision fresh)
    (Some (OperationBurst.revision_id current)) generation
    (OperationBurst.members current ++ [member]) (ActivityToken.source_watermark token) in
  do? map_err (fun _ => DetectorError.Ineligible) (OperationBurst.validate_successor current next) in
  Ok (mk (Some next)
        (<[ActivityToken.operation_id token := seen_from_burst next member]> (seen self)),
      BurstFoldUpdate.mk next None false false false).

(** The branch that closes the current burst, if any, and starts a new one. *)
Definition start (fresh : FreshIds) (self : OperationBurstFolder) (token : ActivityToken)
  : result DetectorError (OperationBurstFolder * BurstFoldUpdate) :=
  let? closed := match current self with
                 | None => Ok None
                 | Some c => let? c := close_burst (fresh_revision fresh) c in Ok (Some c)
                 end in
  let? burst := new_burst (fresh_burst fresh) (fresh_first_revision fresh) token in
  Ok (mk (Some burst)
        (<[ActivityToken.operation_id token := seen_from_burst burst (member_from_token token)]>
           (seen self)),
      BurstFoldUpdate.mk burst closed true (OperationBurst.is_meaningful_after burst closed) false).

(** One push.  Callers push into a clone of the folder and drop it on an error,
    so an error carries no folder. *)
Definition push (fresh : FreshIds) (self : OperationBurstFolder) (token : ActivityToken)
  : result DetectorError (OperationBurstFolder * BurstFoldUpdate) :=
  let fold :=
    match current self with
    | Some c => if can_extend c token && (length (OperationBurst.members c) <? MAX_BURST_ITEMS)%nat
                then extend fresh self c token
                else start fresh self token
    | None => start fresh self token
    end in
  match seen self !! ActivityToken.operation_id token with
  | Some previous =>
      if (ActivityToken.operation_revision token <? SeenOperation.revision previous)%N
      then Err DetectorError.WatermarkRegression
      else if (SeenOperation.revision previous =? ActivityToken.operation_revision token)%N
      then
        do? guard (differs previous token) DetectorError.Ineligible in
        let? burst := ok_or (current self) DetectorError.Ineligible in
        Ok (self, BurstFoldUpdate.mk burst None false false true)
      else fold
  | None => fold
  end.
End OperationBurstFolder.
Abbreviation OperationBurstFolder := OperationBurstFolder.OperationBurstFolder.
Export (hints) OperationBurstFolder.

(** ** The boundary detector *)

Definition MAX_ROLLING_TOKENS : nat := 64.
Definition REFINEMENT_WINDOW : N := 8.
Definition SURPRISE_ALGORITHM_REVISION : N := 1.
Definition SURPRISE_GAMMA : N := 2.

Module AlignmentOutcome.
Inductive AlignmentOutcome :=
| ContinueCurrentPhase
| NewAttemptSameEpisode
| CandidatePhaseTransition
| RecoverableDeviation
| WorkstreamSwitch.
#[export] Instance eq_dec : EqDecision AlignmentOutcome.
Proof. solve_decision. Defined.
End AlignmentOutcome.
Abbreviation AlignmentOutcome := AlignmentOutcome.AlignmentOutcome.
Export (hints) AlignmentOutcome.

Module GrayZoneDisposition.
Inductive GrayZoneDisposition :=
| Pending
| Disabled.
#[export] Instance eq_dec : EqDecision GrayZoneDisposition.
Proof. solve_decision. Defined.
End GrayZoneDisposition.
Abbreviation GrayZoneDisposition := GrayZoneDisposition.GrayZoneDisposition.
Export (hints) GrayZoneDisposition.

Module DetectorUpdate.
Record DetectorUpdate := mk {
  episode_id : WorkEpisodeId;
  token_watermark : N;
  alignment : AlignmentOutcome;
  boundary_status : BoundaryStatus;
  candidate_phase_kind : option PhaseKind;
  candidate_watermark : option N;
  candidate_evidence_refs : list SourceObservationId;
  candidate_kind : option BoundaryCandidateKind;
  refinement_progress : N;
  confirmation_watermark : N;
  confirmation_evidence_refs : list SourceObservationId;
  gray_zone : GrayZoneDisposition;
  candidate_retracted : bool;
}.
#[export] Instance eq_dec : EqDecision DetectorUpdate.
Proof. solve_decision. Defined.
End DetectorUpdate.
Abbreviation DetectorUpdate := DetectorUpdate.DetectorUpdate.
Export (hints) DetectorUpdate.

(** The loop of [integer_sqrt]: [None] is running out of fuel. *)
Fixpoint sqrt_loop (fuel : nat) (value low high : N) : option N :=
  match fuel with
  | O => None
  | S fuel =>
      if (low <=? high)%N then
        let mid := (low + (high - low) / 2)%N in
        match checked_mul_u64 mid mid with
        | Some square =>
            if (square =? value)%N then Some mid
            else if (square <? value)%N then sqrt_loop fuel value (mid + 1) high
            else sqrt_loop fuel value low (mid - 1)
        | None => sqrt_loop fuel value low (mid - 1)
        end
      else Some high
  end.

(** Each round halves a range of at most 2^32 numbers, so 33 rounds are enough;
    [sqrt_loop_correct] shows that the fuel never runs out. *)
Definition integer_sqrt (value : N) : N :=
  if (value <? 2)%N then value
  else from_option id 0%N (sqrt_loop 33 value 1 (N.min value U32_MAX)).

Module BurstFeature.
Record BurstFeature := mk {
  operation_kind : OperationKind;
  target_family : string;
  target_refs : list string;
  error_signature : option string;
  verifier : OperationVerifierDelta;
  state_delta : OperationStateDelta;
  phase_candidate : option PhaseKind;
}.
#[export] Instance eq_dec : EqDecision BurstFeature.
Proof. solve_decision. Defined.
Definition from_burst (burst : OperationBurst) : BurstFeature :=
  mk (OperationBurst.operation_kind burst) (OperationBurst.target_family burst)
    (OperationBurst.target_refs burst) (OperationBurst.error_signature burst)
    (OperationBurst.verifier_delta burst) (OperationBurst.state_delta burst)
    (OperationBurst.phase_candidate burst).

Definition distance (self other : BurstFeature) : N :=
  (N.b2n (operation_kind self !=? operation_kind other) * 3
   + N.b2n (target_refs self !=? target_refs other) * 3
   + N.b2n (target_family self !=? target_family other) * 3
   + N.b2n (error_signature self !=? error_signature other) * 3
   + N.b2n (verifier self !=? verifier other) * 4
   + N.b2n (state_delta self !=? state_delta other) * 3
   + N.b2n (phase_candidate self !=? phase_candidate other) * 4)%N.
End BurstFeature.
Abbreviation BurstFeature := BurstFeature.BurstFeature.
Export (hints) BurstFeature.

Module RecentFeature.
Record RecentFeature := mk {
  source_watermark : N;
  feature : BurstFeature;
  evidence_refs : list SourceObservationId;
}.
End RecentFeature.
Abbreviation RecentFeature := RecentFeature.RecentFeature.
Export (hints) RecentFeature.

Module Candidate.
Record Candidate := mk {
  original_phase : PhaseKind;
  proposed_phase : option PhaseKind;
  source_watermark : N;
  evidence_refs : list SourceObservationId;
  kind : BoundaryCandidateKind;
  observations : N;
  feature : BurstFeature;
  left_feature : option BurstFeature;
}.
Definition set_observations (self : Candidate)
    (v_observations : N) : Candidate :=
  mk
    (self.(original_phase)) (self.(proposed_phase)) (self.(source_watermark))
    (self.(evidence_refs)) (self.(kind)) v_observations (self.(feature))
    (self.(left_feature)).
End Candidate.
Abbreviation Candidate := Candidate.Candidate.
Export (hints) Candidate.

Definition align (current : PhaseKind) (observed : option PhaseKind)
    (verifier : OperationVerifierDelta) (attempt_changed : bool) : AlignmentOutcome :=
  if attempt_changed && is_none_or observed (fun phase => phase ==? current)
  then AlignmentOutcome.NewAttemptSameEpisode
  else if (verifier ==? OperationVerifierDelta.Failed)
          && contains observed [Some PhaseKind.Diagnose; Some PhaseKind.Implement]
  then AlignmentOutcome.RecoverableDeviation
  else if (observed ==? Some PhaseKind.Recover)
          || (current ==? PhaseKind.Execute) && (observed ==? Some PhaseKind.Analyze)
  then AlignmentOutcome.RecoverableDeviation
  else if is_some_and observed (fun phase => phase !=? current)
  then AlignmentOutcome.CandidatePhaseTransition
  else AlignmentOutcome.ContinueCurrentPhase.

(** [while scores.len() >= len { scores.pop_front() }], for a non-empty window. *)
Fixpoint pop_scores (len : nat) (scores : list N) : list N :=
  match scores with
  | [] => []
  | _ :: rest => if (len <=? length scores)%nat then pop_scores len rest else scores
  end.

(** The source observations of the members, sorted and without repetition. *)
Definition burst_evidence (burst : OperationBurst) : list SourceObservationId :=
  sort_unique (OperationBurst.members burst ≫= OperationBurstMember.source_observation_refs).

Module SegmentationDetector.
Record SegmentationDetector := mk {
  task_id : TaskId;
  workstream_id : WorkstreamId;
  episode_id : WorkEpisodeId;
  phase_contract : PhaseContract;
  rolling : list RecentFeature;
  surprise_scores : list N;
  last_sequence : N;
  source_watermark : N;
  last_attempt_id : option AttemptId;
  candidate : option Candidate;
  boundary_status : BoundaryStatus;
  confirmation_watermark : N;
}.
Definition set_boundary (self : SegmentationDetector)
    (v_candidate : option Candidate) (v_boundary_status : BoundaryStatus)
    (v_confirmation_watermark : N) : SegmentationDetector :=
  mk
    (self.(task_id)) (self.(workstream_id)) (self.(episode_id)) (self.(phase_contract))
    (self.(rolling)) (self.(surprise_scores)) (self.(last_sequence))
    (self.(source_watermark)) (self.(last_attempt_id)) v_candidate v_boundary_status
    v_confirmation_watermark.
Definition set_seen (self : SegmentationDetector)
    (v_last_sequence : N) (v_source_watermark : N) (v_last_attempt_id : option AttemptId) : SegmentationDetector :=
  mk
    (self.(task_id)) (self.(workstream_id)) (self.(episode_id)) (self.(phase_contract))
    (self.(rolling)) (self.(surprise_scores)) v_last_sequence v_source_watermark
    v_last_attempt_id (self.(candidate)) (self.(boundary_status))
    (self.(confirmation_watermark)).
Definition set_window (self : SegmentationDetector)
    (v_rolling : list RecentFeature) (v_surprise_scores : list N) : SegmentationDetector :=
  mk
    (self.(task_id)) (self.(workstream_id)) (self.(episode_id)) (self.(phase_contract))
    v_rolling v_surprise_scores (self.(last_sequence)) (self.(source_watermark))
    (self.(last_attempt_id)) (self.(candidate)) (self.(boundary_status))
    (self.(confirmation_watermark)).

Definition empty (episode : WorkEpisode) : SegmentationDetector :=
  mk (WorkEpisode.task_id episode) (WorkEpisode.workstream_id episode)
    (WorkEpisode.episode_id episode) (WorkEpisode.phase_contract episode)
    [] [] 0 0 None None BoundaryStatus.Provisional 0.

Definition new (episode : WorkEpisode) : result DetectorError SegmentationDetector :=
  do? map_err (fun _ => DetectorError.Ineligible) (WorkEpisode.validate episode) in
  do? guard (negb (is_empty (WorkEpisode.operation_burst_refs episode))
             || is_some (WorkEpisode.boundary_candidate episode)
             || (WorkEpisode.boundary_status episode !=? BoundaryStatus.Provisional))
        DetectorError.Ineligible in
  Ok (empty episode).

Definition record_feature (self : SegmentationDetector) (burst : OperationBurst)
  : SegmentationDetector :=
  let feature := BurstFeature.from_burst burst in
  let scores := surprise_scores self
    ++ from_option (fun previous => [BurstFeature.distance (RecentFeature.feature previous) feature]) []
         (last (rolling self)) in
  let pushed := rolling self
    ++ [RecentFeature.mk (OperationBurst.source_watermark burst) feature (burst_evidence burst)] in
  let window := if (MAX_ROLLING_TOKENS <? length pushed)%nat then tail pushed else pushed in
  set_window self window (pop_scores (length window) scores).

(** Sums over at most 64 scores of at most 23: no step of it overflows. *)
Definition is_structured_surprise (self : SegmentationDetector) (feature : BurstFeature) : bool :=
  match last (rolling self) with
  | None => false
  | Some previous =>
      if (length (surprise_scores self) <? 4)%nat then false
      else
        let score := BurstFeature.distance (RecentFeature.feature previous) feature in
        let count := N.of_nat (length (surprise_scores self)) in
        let mean := (foldr N.add 0 (surprise_scores self) / count)%N in
        let variance := (foldr N.add 0
          ((fun value => Z.to_N ((Z.of_N value - Z.of_N mean) * (Z.of_N value - Z.of_N mean)))
             <$> surprise_scores self) / count)%N in
        match SURPRISE_ALGORITHM_REVISION with
        | 1%N => (mean + SURPRISE_GAMMA * integer_sqrt variance <? score)%N
        | _ => false
        end
  end.

Definition update (self : SegmentationDetector) (token : ActivityToken)
    (alignment : AlignmentOutcome) (candidate_retracted : bool)
    (confirmation_evidence_refs : list SourceObservationId) : DetectorUpdate :=
  {| DetectorUpdate.episode_id := episode_id self;
     DetectorUpdate.token_watermark := ActivityToken.source_watermark token;
     DetectorUpdate.alignment := alignment;
     DetectorUpdate.boundary_status := boundary_status self;
     DetectorUpdate.candidate_phase_kind := candidate self ≫= Candidate.proposed_phase;
     DetectorUpdate.candidate_watermark := Candidate.source_watermark <$> candidate self;
     DetectorUpdate.candidate_evidence_refs := from_option Candidate.evidence_refs [] (candidate self);
     DetectorUpdate.candidate_kind := Candidate.kind <$> candidate self;
     DetectorUpdate.refinement_progress := from_option Candidate.observations 0%N (candidate self);
     DetectorUpdate.confirmation_watermark := confirmation_watermark self;
     DetectorUpdate.confirmation_evidence_refs := confirmation_evidence_refs;
     DetectorUpdate.gray_zone := if is_some (candidate self) then GrayZoneDisposition.Pending
                                 else GrayZoneDisposition.Disabled;
     DetectorUpdate.candidate_retracted := candidate_retracted |}.

(** What the token does to a pending candidate. *)
Record refinement := {
  refined : SegmentationDetector;
  alignment_after : AlignmentOutcome;
  retracted : bool;
  confirmation_evidence : list SourceObservationId;
}.

Definition refine_candidate (self : SegmentationDetector) (token : ActivityToken)
    (feature : BurstFeature) (alignment : AlignmentOutcome) : result DetectorError refinement :=
  let observed := ActivityToken.observed_phase_kind token in
  match candidate self with
  | None => Ok (Build_refinement self alignment false [])
  | Some before =>
      let? observations :=
        if (Candidate.observations before <? REFINEMENT_WINDOW)%N
        then ok_or (checked_add_u8 (Candidate.observations before) 1) DetectorError.Ineligible
        else Ok (Candidate.observations before) in
      let c := Candidate.set_observations before observations in
      let returned_left := is_some_and (Candidate.left_feature c) (fun left =>
        BurstFeature.distance left feature <? BurstFeature.distance (Candidate.feature c) feature)%N in
      if (observed ==? Some (Candidate.original_phase c)) || returned_left then
        Ok (Build_refinement
              (set_boundary self None BoundaryStatus.Provisional (confirmation_watermark self))
              alignment true [])
      else if (Candidate.kind c ==? BoundaryCandidateKind.StructuredSurprise)
              && objective (ActivityToken.boundary_evidence token) then
        let c := Candidate.mk (Candidate.original_phase c) observed
          (ActivityToken.source_watermark token) (ActivityToken.boundary_evidence_refs token)
          BoundaryCandidateKind.Objective 0 feature (Candidate.left_feature c) in
        Ok (Build_refinement
              (set_boundary self (Some c) (boundary_status self) (confirmation_watermark self))
              AlignmentOutcome.CandidatePhaseTransition false [])
      else if (Candidate.kind c ==? BoundaryCandidateKind.Objective)
              && (Candidate.source_watermark c <? ActivityToken.source_watermark token)%N
              && (observed ==? Candidate.proposed_phase c)
              && objective (ActivityToken.boundary_evidence token) then
        Ok (Build_refinement
              (set_boundary self None BoundaryStatus.Confirmed (ActivityToken.source_watermark token))
              alignment false (ActivityToken.boundary_evidence_refs token))
      else
        Ok (Build_refinement
              (set_boundary self (Some c) (boundary_status self) (confirmation_watermark self))
              alignment false [])
  end.

(** Whether the token proposes a new candidate, and the candidate. *)
Definition propose (self : SegmentationDetector) (token : ActivityToken) (burst : BurstFoldUpdate)
    (feature : BurstFeature) (r : refinement) : SegmentationDetector * AlignmentOutcome :=
  let observed := ActivityToken.observed_phase_kind token in
  let expected := PhaseContract.phase_kind (phase_contract self) in
  let phase_change := is_some_and observed (fun phase => phase !=? expected) in
  let structured_surprise :=
    BurstFoldUpdate.started_new burst
    && (ActivityToken.boundary_evidence token ==? BoundaryEvidence.None)
    && negb phase_change && is_structured_surprise self feature in
  if is_none (candidate (refined r))
     && (boundary_status (refined r) !=? BoundaryStatus.Confirmed)
     && negb (retracted r)
     && ((ActivityToken.boundary_evidence token !=? BoundaryEvidence.None)
         || phase_change || structured_surprise)
  then
    let c := {|
      Candidate.original_phase := expected;
      Candidate.proposed_phase := observed;
      Candidate.source_watermark := ActivityToken.source_watermark token;
      Candidate.evidence_refs :=
        if structured_surprise
        then bset_of_list (OperationBurst.members (BurstFoldUpdate.current burst)
               ≫= OperationBurstMember.source_observation_refs)
        else ActivityToken.boundary_evidence_refs token;
      Candidate.kind :=
        if objective (ActivityToken.boundary_evidence token) || phase_change
        then BoundaryCandidateKind.Objective else BoundaryCandidateKind.StructuredSurprise;
      Candidate.observations := 0;
      Candidate.feature := feature;
      Candidate.left_feature := RecentFeature.feature <$> last (rolling self) |} in
    (set_boundary (refined r) (Some c) BoundaryStatus.Candidate (confirmation_watermark (refined r)),
     if alignment_after r ==? AlignmentOutcome.RecoverableDeviation then alignment_after r
     else AlignmentOutcome.CandidatePhaseTransition)
  else (refined r, alignment_after r).

Definition push (self : SegmentationDetector) (token : ActivityToken) (burst : BurstFoldUpdate)
  : result DetectorError (SegmentationDetector * DetectorUpdate) :=
  let current := BurstFoldUpdate.current burst in
  do? guard ((OperationBurst.source_watermark current !=? ActivityToken.source_watermark token)
             || all (fun member => OperationBurstMember.operation_id member
                                   !=? ActivityToken.operation_id token)
                  (OperationBurst.members current))
        DetectorError.Ineligible in
  if ActivityToken.workstream_id token !=? workstream_id self
  then Ok (self, update self token AlignmentOutcome.WorkstreamSwitch false [])
  else
    do? guard ((ActivityToken.task_id token !=? task_id self)
               || (ActivityToken.episode_id token !=? episode_id self)) DetectorError.Ineligible in
    do? guard ((ActivityToken.sequence token <=? last_sequence self)%N
               || (ActivityToken.source_watermark token <=? source_watermark self)%N)
          DetectorError.WatermarkRegression in
    let attempt_changed := is_some (last_attempt_id self) && is_some (ActivityToken.attempt_id token)
      && (last_attempt_id self !=? ActivityToken.attempt_id token) in
    let alignment := align (PhaseContract.phase_kind (phase_contract self))
      (ActivityToken.observed_phase_kind token) (ActivityToken.verifier_transition token)
      attempt_changed in
    let feature := BurstFeature.from_burst current in
    let? r := refine_candidate self token feature alignment in
    let '(proposed, alignment) := propose self token burst feature r in
    let after := set_seen proposed (ActivityToken.sequence token)
      (ActivityToken.source_watermark token) (ActivityToken.attempt_id token) in
    let result := update after token alignment (retracted r) (confirmation_evidence r) in
    Ok (if BurstFoldUpdate.started_new burst then record_feature after current else after, result).

(** [restore]: the candidate of the episode, found again in the window. *)
Definition restore_candidate (self : SegmentationDetector) (episode : WorkEpisode)
    (value : BoundaryCandidateState) : result DetectorError Candidate :=
  let? found := ok_or (list_find (fun item =>
      RecentFeature.source_watermark item = BoundaryCandidateState.candidate_watermark value)
      (rolling self)) DetectorError.Ineligible in
  let '(index, item) := found in
  do? guard ((WorkEpisode.source_watermark episode
              <? BoundaryCandidateState.candidate_watermark value)%N
             || negb (WorkEpisode.confirmation_watermark episode =? 0)%N
             || any (fun id => negb (binary_search_ok (RecentFeature.evidence_refs item) id))
                  (BoundaryCandidateState.evidence_refs value))
        DetectorError.Ineligible in
  Ok {| Candidate.original_phase := PhaseContract.phase_kind (WorkEpisode.phase_contract episode);
        Candidate.proposed_phase := BoundaryCandidateState.candidate_phase_kind value;
        Candidate.source_watermark := BoundaryCandidateState.candidate_watermark value;
        Candidate.evidence_refs := BoundaryCandidateState.evidence_refs value;
        Candidate.kind := BoundaryCandidateState.kind value;
        Candidate.observations := BoundaryCandidateState.refinement_progress value;
        Candidate.feature := RecentFeature.feature item;
        Candidate.left_feature :=
          match index with
          | O => None
          | S previous => RecentFeature.feature <$> rolling self !! previous
          end |}.

Definition restore_burst (acc : result DetectorError SegmentationDetector) (burst : OperationBurst)
  : result DetectorError SegmentationDetector :=
  let? detector := acc in
  let detector := record_feature detector burst in
  let? member := ok_or (last (OperationBurst.members burst)) DetectorError.Ineligible in
  Ok (set_seen detector (OperationBurstMember.sequence member)
        (OperationBurst.source_watermark burst) (OperationBurst.attempt_id burst)).

Definition restore (episode : WorkEpisode) (recent_bursts : list OperationBurst)
  : result DetectorError SegmentationDetector :=
  do? map_err (fun _ => DetectorError.Ineligible) (WorkEpisode.validate episode) in
  do? guard
    ((MAX_ROLLING_TOKENS <? length recent_bursts)%nat
     || negb (all_unique (OperationBurst.operation_burst_id <$> recent_bursts))
     || any (fun burst =>
          is_err (OperationBurst.validate burst)
          || negb (contains (OperationBurst.operation_burst_id burst)
                     (WorkEpisode.operation_burst_refs episode))) recent_bursts
     || windows2_any (fun a b => OperationBurst.source_watermark b
                                 <=? OperationBurst.source_watermark a)%N recent_bursts)
    DetectorError.Ineligible in
  let? detector := foldl restore_burst (Ok (empty episode)) recent_bursts in
  let detector := set_seen detector (last_sequence detector)
    (N.max (WorkEpisode.source_watermark episode) (source_watermark detector))
    (last_attempt_id detector) in
  let? candidate := match WorkEpisode.boundary_candidate episode with
                    | None => Ok None
                    | Some value => let? c := restore_candidate detector episode value in Ok (Some c)
                    end in
  Ok (set_boundary detector candidate (WorkEpisode.boundary_status episode)
        (WorkEpisode.confirmation_watermark episode)).
End SegmentationDetector.
Abbreviation SegmentationDetector := SegmentationDetector.SegmentationDetector.
Export (hints) SegmentationDetector.

(** ** The segmenter *)

Module IncrementalSegmentationStep.
Record IncrementalSegmentationStep := mk {
  token : ActivityToken;
  burst : BurstFoldUpdate;
  detector : DetectorUpdate;
  episode_successor_revision_id : RevisionId;
}.
#[export] Instance eq_dec : EqDecision IncrementalSegmentationStep.
Proof. solve_decision. Defined.
Definition step_watermark (self : IncrementalSegmentationStep) : N :=
  ActivityToken.source_watermark (token self).
Definition current_burst (self : IncrementalSegmentationStep) : OperationBurst :=
  BurstFoldUpdate.current (burst self).
Definition closed_burst (self : IncrementalSegmentationStep) : option OperationBurst :=
  BurstFoldUpdate.closed (burst self).
End IncrementalSegmentationStep.
Abbreviation IncrementalSegmentationStep := IncrementalSegmentationStep.IncrementalSegmentationStep.
Export (hints) IncrementalSegmentationStep.

Module SegmentOutcome.
Inductive SegmentOutcome :=
| NoDelta
| Delta (step : IncrementalSegmentationStep).
End SegmentOutcome.
Abbreviation SegmentOutcome := SegmentOutcome.SegmentOutcome.

Module PendingTransition.
Record PendingTransition := mk {
  step : IncrementalSegmentationStep;
  next_folder : OperationBurstFolder;
  next_detector : SegmentationDetector;
}.
End PendingTransition.
Abbreviation PendingTransition := PendingTransition.PendingTransition.
Export (hints) PendingTransition.

Module IncrementalSegmenter.
Record IncrementalSegmenter := mk {
  episode_id : WorkEpisodeId;
  folder : OperationBurstFolder;
  detector : SegmentationDetector;
  pending : option PendingTransition;
  committed_episode_revision_id : RevisionId;
  committed_frontier : N;
  closed : bool;
}.
Definition set_pending (self : IncrementalSegmenter)
    (v_pending : option PendingTransition) : IncrementalSegmenter :=
  mk
    (self.(episode_id)) (self.(folder)) (self.(detector)) v_pending
    (self.(committed_episode_revision_id)) (self.(committed_frontier)) (self.(closed)).

Definition new (state : SegmentationCurrentState) (ep_id : WorkEpisodeId)
  : result DetectorError IncrementalSegmenter :=
  let? episode := ok_or (SegmentationCurrentState.episode state ep_id) DetectorError.Ineligible in
  do? guard ((WorkEpisode.lifecycle_status episode !=? EpisodeLifecycle.Open)
             || negb (is_empty (WorkEpisode.operation_burst_refs episode)))
        DetectorError.Ineligible in
  let? detector := SegmentationDetector.new episode in
  Ok (mk ep_id OperationBurstFolder.new detector None (WorkEpisode.revision_id episode)
        (SegmentationCurrentState.frontier state) false).

Definition restore (state : SegmentationCurrentState) (ep_id : WorkEpisodeId)
  : result DetectorError IncrementalSegmenter :=
  let? episode := ok_or (SegmentationCurrentState.episode state ep_id) DetectorError.Ineligible in
  let? recent := map_err (fun _ => DetectorError.Ineligible)
                   (SegmentationCurrentState.recent_bursts state episode) in
  let? folder := OperationBurstFolder.restore recent in
  let? detector := SegmentationDetector.restore episode recent in
  Ok (mk ep_id folder detector None (WorkEpisode.revision_id episode)
        (SegmentationCurrentState.frontier state)
        (WorkEpisode.lifecycle_status episode !=? EpisodeLifecycle.Open)).

(** [observe]: the segmenter afterwards and the outcome.  Every error leaves the
    segmenter as it was. *)
Definition observe (fresh : FreshIds) (successor : RevisionId) (self : IncrementalSegmenter)
    (state : SegmentationCurrentState) (op_id : OperationId) (facts : SegmentationFacts)
  : result DetectorError (IncrementalSegmenter * SegmentOutcome) :=
  do? guard (closed self || (SegmentationCurrentState.frontier state <? committed_frontier self)%N)
        DetectorError.Ineligible in
  let? episode := ok_or (SegmentationCurrentState.episode state (episode_id self))
                    DetectorError.Ineligible in
  do? match pending self with
      | Some p =>
          guard ((WorkEpisode.revision_id episode !=? committed_episode_revision_id self)
                 && (WorkEpisode.revision_id episode
                     !=? IncrementalSegmentationStep.episode_successor_revision_id
                           (PendingTransition.step p)))
            DetectorError.Ineligible
      | None =>
          guard ((WorkEpisode.revision_id episode !=? committed_episode_revision_id self)
                 || (WorkEpisode.lifecycle_status episode !=? EpisodeLifecycle.Open))
            DetectorError.Ineligible
      end in
  let? token := ActivityToken.compile_checked (SegmentationCurrentState.authority state) op_id
                  (episode_id self) facts in
  match pending self with
  | Some p =>
      if IncrementalSegmentationStep.token (PendingTransition.step p) ==? token
      then Ok (self, SegmentOutcome.Delta (PendingTransition.step p))
      else Err DetectorError.PendingTransition
  | None =>
      let? f := OperationBurstFolder.push fresh (folder self) token in
      let '(next_folder, burst) := f in
      if BurstFoldUpdate.no_delta burst then Ok (self, SegmentOutcome.NoDelta)
      else
        let? d := SegmentationDetector.push (detector self) token burst in
        let '(next_detector, update) := d in
        let step := IncrementalSegmentationStep.mk token burst update successor in
        Ok (set_pending self (Some (PendingTransition.mk step next_folder next_detector)),
            SegmentOutcome.Delta step)
  end.

(** The boundary candidate an update stands for.  [None] is the panic of
    [expect("candidate kind is bound to watermark")]. *)
Definition expected_candidate (update : DetectorUpdate) : option (option BoundaryCandidateState) :=
  match DetectorUpdate.candidate_watermark update with
  | None => Some None
  | Some candidate_watermark =>
      match DetectorUpdate.candidate_kind update with
      | None => None
      | Some kind =>
          Some (Some (BoundaryCandidateState.mk (DetectorUpdate.candidate_phase_kind update)
            candidate_watermark (DetectorUpdate.candidate_evidence_refs update) kind
            (DetectorUpdate.refinement_progress update)))
      end
  end.

(** What the store must hold for the transition to be committed. *)
Definition committed (self : IncrementalSegmenter) (state : SegmentationCurrentState)
    (step : IncrementalSegmentationStep) (episode : WorkEpisode) (stored : OperationBurst)
    (candidate : option BoundaryCandidateState) : bool :=
  let update := IncrementalSegmentationStep.detector step in
  let current := IncrementalSegmentationStep.current_burst step in
  let confirmed := DetectorUpdate.boundary_status update ==? BoundaryStatus.Confirmed in
  let current_burst_matches :=
    if confirmed
    then (OperationBurst.lifecycle stored ==? OperationBurstLifecycle.Closed)
         && is_ok (OperationBurst.validate_successor current stored)
    else stored ==? current in
  let closed_burst_matches :=
    is_none_or (IncrementalSegmentationStep.closed_burst step) (fun closed =>
      is_some_and (SegmentationCurrentState.current_burst state (OperationBurst.operation_burst_id closed))
        (fun value => value ==? closed)) in
  (WorkEpisode.revision_id episode ==? IncrementalSegmentationStep.episode_successor_revision_id step)
  && (WorkEpisode.predecessor_revision_id episode ==? Some (committed_episode_revision_id self))
  && (WorkEpisode.source_watermark episode =? IncrementalSegmentationStep.step_watermark step)%N
  && (WorkEpisode.boundary_status episode ==? DetectorUpdate.boundary_status update)
  && (WorkEpisode.boundary_candidate episode ==? candidate)
  && (WorkEpisode.lifecycle_status episode
      ==? if confirmed then EpisodeLifecycle.Closed else EpisodeLifecycle.Open)
  && contains (OperationBurst.operation_burst_id current) (WorkEpisode.operation_burst_refs episode)
  && current_burst_matches && closed_burst_matches.

Definition acknowledge_committed (self : IncrementalSegmenter) (state : SegmentationCurrentState)
    (step : IncrementalSegmentationStep) : result (fault DetectorError) IncrementalSegmenter :=
  let? p := ok_or (pending self) (Raise DetectorError.PendingTransition) in
  do? guard ((PendingTransition.step p !=? step)
             || (SegmentationCurrentState.frontier state <=? committed_frontier self)%N)
        (Raise DetectorError.PendingTransition) in
  let? episode := ok_or (SegmentationCurrentState.episode state (episode_id self))
                    (Raise DetectorError.PendingTransition) in
  let? candidate := ok_or (expected_candidate (IncrementalSegmentationStep.detector step)) Panicked in
  let? stored := ok_or (SegmentationCurrentState.current_burst state
                          (OperationBurst.operation_burst_id
                             (IncrementalSegmentationStep.current_burst step)))
                   (Raise DetectorError.PendingTransition) in
  do? guard (negb (committed self state step episode stored candidate))
        (Raise DetectorError.PendingTransition) in
  Ok (mk (episode_id self) (PendingTransition.next_folder p) (PendingTransition.next_detector p) None
        (WorkEpisode.revision_id episode) (SegmentationCurrentState.frontier state)
        (DetectorUpdate.boundary_status (IncrementalSegmentationStep.detector step)
         ==? BoundaryStatus.Confirmed)).
End IncrementalSegmenter.
Abbreviation IncrementalSegmenter := IncrementalSegmenter.IncrementalSegmenter.
Export (hints) IncrementalSegmenter.
