(* ===== verification/SegmentationFacts.v ===== *)
(** * Correctness of segmentation

    The integer square root, the folding of tokens into bursts and the boundary
    detector of [Segmentation.v]. *)

From S2P Require Import Prelude Order Collections Text Ids Lane Journal Attempt.
From S2P Require Import Repository RepositoryStore Work Evidence Episode Segmentation.

(** ** The square root *)

Lemma sqrt_found value low high :
  (high < low)%N -> (low <= high + 1)%N ->
  ((low - 1) * (low - 1) <= value)%N -> (value < (high + 1) * (high + 1))%N ->
  Some high = Some (N.sqrt value).
Proof.
  intros H1 H2. assert (low = high + 1)%N as -> by lia. rewrite N.add_sub. intros Hl Hh.
  f_equal. symmetry. apply N.sqrt_unique. rewrite <-N.add_1_r. lia.
Qed.

Lemma sqrt_loop_correct fuel value low high :
  (1 <= low)%N -> (low <= high + 1)%N -> (high <= U32_MAX)%N ->
  ((low - 1) * (low - 1) <= value)%N -> (value < (high + 1) * (high + 1))%N ->
  (high + 1 - low < 2 ^ N.of_nat fuel)%N ->
  sqrt_loop (S fuel) value low high = Some (N.sqrt value).
Proof.
  revert low high. induction fuel as [|fuel IH]; intros low high H1 H2 H3 Hl Hh Hr; cbn [sqrt_loop].
  - change (2 ^ N.of_nat 0)%N with 1%N in Hr. destruct (N.leb_spec low high); [lia|].
    by apply (sqrt_found value low).
  - destruct (N.leb_spec low high) as [Hlh|Hlh].
    2:{ by apply (sqrt_found value low). }
    pose proof (N.div_mod (high - low) 2 ltac:(done)) as Hd.
    pose proof (N.mod_lt (high - low) 2 ltac:(done)) as Hm.
    rewrite Nat2N.inj_succ, N.pow_succ_r' in Hr. cbv zeta.
    generalize dependent ((high - low) mod 2)%N. generalize ((high - low) / 2)%N. intros q m Hd Hm.
    remember (low + q)%N as mid eqn:Emid.
    assert (low <= mid <= high)%N as Hmid by lia.
    assert (mid - low < 2 ^ N.of_nat fuel /\ high - mid < 2 ^ N.of_nat fuel)%N as [Hr1 Hr2] by lia.
    assert (mid * mid <= U32_MAX * U32_MAX)%N as Hsq by (apply N.mul_le_mono; lia).
    clear Emid Hd Hm Hr. unfold checked_mul_u64.
    destruct (N.leb_spec (mid * mid) U64_MAX) as [_|Ho]; [|unfold U64_MAX, U32_MAX in *; lia].
    destruct (N.eqb_spec (mid * mid) value) as [<-|Hne].
    { f_equal. symmetry. apply N.sqrt_unique. rewrite <-N.add_1_r. lia. }
    destruct (N.ltb_spec (mid * mid) value) as [Hlt|Hge]; apply IH; try lia.
    rewrite N.sub_add by lia. lia.
Qed.

(** The square root of the surprise threshold is the floor of the real one.
    For every 64-bit value the binary search ends within 33 rounds, without
    overflow in the squares it compares, at the integer square root. *)
Theorem integer_sqrt_correct value :
  (value <= U64_MAX)%N ->
  integer_sqrt value = N.sqrt value /\
  ((2 <= value)%N -> sqrt_loop 33 value 1 (N.min value U32_MAX) = Some (N.sqrt value)).
Proof.
  intros Hv.
  assert ((2 <= value)%N -> sqrt_loop 33 value 1 (N.min value U32_MAX) = Some (N.sqrt value)) as Hs.
  { intros H2. apply sqrt_loop_correct; unfold U32_MAX, U64_MAX in *; cbn; nia. }
  split; [|done]. unfold integer_sqrt. destruct (N.ltb_spec value 2) as [Hlt|Hge].
  - assert (value = 0 \/ value = 1)%N as [->| ->] by lia; done.
  - by rewrite Hs.
Qed.

(** ** Folding *)

Module FoldFacts.
Import OperationBurstFolder.

(** A burst and a token that may belong to it: same kind, target, owner and
    lane. *)
Record like (b : OperationBurst) (t : ActivityToken) : Prop := {
  like_kind : OperationBurst.operation_kind b = ActivityToken.operation_kind t;
  like_state : OperationBurst.state_delta b = ActivityToken.state_delta t;
  like_verifier : OperationBurst.verifier_delta b = ActivityToken.verifier_transition t;
  like_phase : OperationBurst.phase_candidate b = ActivityToken.observed_phase_kind t;
  like_boundary : OperationBurst.has_objective_boundary b
                  = (ActivityToken.boundary_evidence t !=? BoundaryEvidence.None);
  like_error : OperationBurst.error_signature b = ActivityToken.error_signature t;
  like_family : OperationBurst.target_family b = ActivityToken.target_family t;
  like_targets : OperationBurst.target_refs b = ActivityToken.target_refs t;
  like_lane : OperationBurst.execution_lane_id b = ActivityToken.execution_lane_id t;
  like_binding : OperationBurst.primary_binding b = ActivityToken.primary_binding t;
  like_attempt : OperationBurst.attempt_id b = ActivityToken.attempt_id t;
}.

(** The three ways a push succeeds. *)
Inductive pushed (fresh : FreshIds) (f : OperationBurstFolder) (t : ActivityToken)
  : OperationBurstFolder -> BurstFoldUpdate -> Prop :=
| pushed_again c :
    current f = Some c -> pushed fresh f t f (BurstFoldUpdate.mk c None false false true)
| pushed_extend c next f' :
    current f = Some c -> like c t -> ActivityToken.boundary_evidence t = BoundaryEvidence.None ->
    OperationBurst.validate_successor c next = Ok tt ->
    OperationBurst.members next = OperationBurst.members c ++ [member_from_token t] ->
    like next t -> OperationBurst.lifecycle next = OperationBurst.lifecycle c ->
    OperationBurst.revision_id next = fresh_revision fresh ->
    f' = mk (Some next) (<[ActivityToken.operation_id t := seen_from_burst next (member_from_token t)]> (seen f)) ->
    pushed fresh f t f' (BurstFoldUpdate.mk next None false false false)
| pushed_start closed next f' meaningful :
    match current f with
    | None => closed = None
    | Some c => exists d, closed = Some d /\ close_burst (fresh_revision fresh) c = Ok d
    end ->
    new_burst (fresh_burst fresh) (fresh_first_revision fresh) t = Ok next ->
    f' = mk (Some next) (<[ActivityToken.operation_id t := seen_from_burst next (member_from_token t)]> (seen f)) ->
    pushed fresh f t f' (BurstFoldUpdate.mk next closed true meaningful false).

Lemma map_err_const {E F A} (e : F) (m : result E A) a : map_err (fun _ => e) m = Ok a <-> m = Ok a.
Proof. by rewrite map_err_ok. Qed.

Lemma can_extend_like c t :
  can_extend c t = true -> like c t /\ ActivityToken.boundary_evidence t = BoundaryEvidence.None.
Proof.
  unfold can_extend. rewrite !andb_true_iff, !negb_true_iff, !bool_decide_eq_true.
  intros H. destruct_and! H. split; [|done]. split; try done; [congruence|].
  rewrite (bool_decide_eq_true_2 (ActivityToken.boundary_evidence t = _)) by done. done.
Qed.

Lemma extend_inv fresh f c t f' u :
  current f = Some c -> can_extend c t = true -> extend fresh f c t = Ok (f', u) -> pushed fresh f t f' u.
Proof.
  intros Hc [Hl Hb]%can_extend_like H. unfold extend in H. apply rbind_ok in H as (g & _ & H).
  apply bind_unit_ok in H as [Hs H]. apply map_err_const in Hs. injection H as <- <-.
  eapply pushed_extend; try done. by destruct Hl; split.
Qed.

Lemma start_inv fresh f t f' u : start fresh f t = Ok (f', u) -> pushed fresh f t f' u.
Proof.
  unfold start. intros H. apply rbind_ok in H as (closed & Hc & H).
  apply rbind_ok in H as (b & Hb & H). injection H as <- <-.
  eapply pushed_start; try done. destruct (current f) as [c|]; [|congruence].
  apply rbind_ok in Hc as (d & Hd & Hc). exists d. split; [congruence|done].
Qed.

Lemma push_inv fresh f t f' u : push fresh f t = Ok (f', u) -> pushed fresh f t f' u.
Proof.
  unfold push. intros H.
  assert (match current f with
    | Some c => if can_extend c t && (length (OperationBurst.members c) <? MAX_BURST_ITEMS)%nat
                then extend fresh f c t else start fresh f t
    | None => start fresh f t end = Ok (f', u) -> pushed fresh f t f' u) as Hfold.
  { destruct (current f) as [c|] eqn:Ec; [|apply start_inv].
    destruct (_ && _) eqn:E; [|apply start_inv].
    apply andb_true_iff in E as [E _]. by apply extend_inv. }
  destruct (seen f !! _) as [p|]; [|by apply Hfold].
  destruct (_ <? _)%N; [done|]. destruct (_ =? _)%N; [|by apply Hfold].
  apply bind_unit_ok in H as [_ H]. apply rbind_ok in H as (c & Hc & H).
  apply ok_or_ok in Hc. injection H as <- <-. by apply pushed_again.
Qed.

Lemma new_burst_inv id revision t b :
  new_burst id revision t = Ok b ->
  OperationBurst.validate b = Ok tt /\ like b t /\ OperationBurst.members b = [member_from_token t] /\
  OperationBurst.lifecycle b = OperationBurstLifecycle.Open /\
  OperationBurst.operation_burst_id b = id /\ OperationBurst.revision_id b = revision /\
  OperationBurst.revision_generation b = 1%N /\ OperationBurst.predecessor_revision_id b = None.
Proof.
  unfold new_burst. intros H. apply bind_unit_ok in H as [V H]. apply map_err_const in V.
  injection H as <-. split; [done|]. by split_and!.
Qed.

Lemma close_burst_inv fresh b d :
  close_burst fresh b = Ok d ->
  OperationBurst.validate_successor b d = Ok tt /\ OperationBurst.members d = OperationBurst.members b /\
  OperationBurst.lifecycle d = OperationBurstLifecycle.Closed /\
  OperationBurst.revision_id d = fresh /\ forall t, like b t -> like d t.
Proof.
  unfold close_burst. intros H. apply rbind_ok in H as (g & _ & H).
  apply bind_unit_ok in H as [V H]. apply map_err_const in V. injection H as <-.
  split_and!; try done. intros t []. by split.
Qed.

Lemma burst_successor_valid a b :
  OperationBurst.validate_successor a b = Ok tt ->
  OperationBurst.validate a = Ok tt /\ OperationBurst.validate b = Ok tt.
Proof.
  unfold OperationBurst.validate_successor. rewrite !bind_unit_ok. tauto.
Qed.

(** A folder holds at most one burst, which is valid and open. *)
Definition folder_ok (f : OperationBurstFolder) : Prop :=
  forall c, current f = Some c ->
    OperationBurst.validate c = Ok tt /\ OperationBurst.lifecycle c = OperationBurstLifecycle.Open.

(** The member comes from one of the tokens, and that token belongs to the burst. *)
Definition origin (ts : list ActivityToken) (b : OperationBurst) : Prop :=
  Forall (fun m => exists t, t ∈ ts /\ m = member_from_token t /\ like b t) (OperationBurst.members b).

(** All members of a sequence of bursts, in order. *)
Definition members_of (bs : list OperationBurst) : list OperationBurstMember :=
  bs ≫= OperationBurst.members.

(** Pushing a sequence of tokens. *)
Fixpoint fold_all (f : OperationBurstFolder) (inputs : list (FreshIds * ActivityToken))
  : result DetectorError (OperationBurstFolder * list BurstFoldUpdate) :=
  match inputs with
  | [] => Ok (f, [])
  | (fresh, t) :: rest =>
      let? r := push fresh f t in
      let? s := fold_all r.1 rest in
      Ok (s.1, r.2 :: s.2)
  end.

(** The members of the tokens that were not repetitions. *)
Definition accepted (ts : list ActivityToken) (us : list BurstFoldUpdate) : list OperationBurstMember :=
  omap (fun p => if BurstFoldUpdate.no_delta p.2 then None else Some (member_from_token p.1)) (zip ts us).

Lemma origin_mono ts ts' b : ts ⊆ ts' -> origin ts b -> origin ts' b.
Proof.
  intros Hs Ho. eapply Forall_impl; [exact Ho|]. intros m (t & Ht & ?). exists t. split; [by apply Hs|done].
Qed.

Lemma origin_like ts b b' :
  OperationBurst.members b' = OperationBurst.members b -> (forall t, like b t -> like b' t) ->
  origin ts b -> origin ts b'.
Proof. unfold origin. intros -> Hl Ho. eapply Forall_impl; [exact Ho|]. naive_solver. Qed.

(** One push: what it keeps, and what the closed burst is. *)
Lemma pushed_step ts fresh f t f' u :
  pushed fresh f t f' u -> folder_ok f -> (forall c, current f = Some c -> origin ts c) ->
  folder_ok f' /\ (forall c, current f' = Some c -> origin (ts ++ [t]) c) /\
  members_of (option_list (BurstFoldUpdate.closed u) ++ option_list (current f'))
    = members_of (option_list (current f))
      ++ (if BurstFoldUpdate.no_delta u then [] else [member_from_token t]) /\
  (forall d, BurstFoldUpdate.closed u = Some d ->
     OperationBurst.validate d = Ok tt /\ OperationBurst.lifecycle d = OperationBurstLifecycle.Closed /\
     origin (ts ++ [t]) d).
Proof.
  intros H Hf Ho. destruct H as [c Hc|c next f' Hc Hl _ Hs Hm Hn Hlc _ ->|closed next f' mg Hcl Hb ->].
  - cbn. split; [done|]. split_and!; [|by rewrite app_nil_r|done].
    intros c' E. eapply origin_mono; [|by apply Ho]. set_solver.
  - cbn. destruct (Hf c Hc) as [_ Hopen]. split_and!.
    + intros x [= <-]. split; [by eapply burst_successor_valid|congruence].
    + intros x [= <-]. unfold origin. rewrite Hm, Forall_app. split.
      * specialize (Ho c Hc). eapply Forall_impl; [exact Ho|]. intros m (s & Hs' & -> & Ls).
        exists s. split; [set_solver|]. split; [done|]. destruct Hl, Hn, Ls; split; congruence.
      * constructor; [|constructor]. exists t. split; [set_solver|]. done.
    + rewrite Hc. cbn. by rewrite Hm, !app_nil_r.
    + done.
  - apply new_burst_inv in Hb as (V & L & M & O & _). cbn. split_and!.
    + intros x [= <-]. done.
    + intros x [= <-]. unfold origin. rewrite M. constructor; [|constructor].
      exists t. split; [set_solver|]. done.
    + destruct (current f) as [c|] eqn:Ec.
      * destruct Hcl as (d & -> & Hd). apply close_burst_inv in Hd as (_ & Md & _). cbn.
        by rewrite M, Md, !app_nil_r.
      * subst closed. cbn. by rewrite M.
    + intros d ->. destruct (current f) as [c|] eqn:Ec; [|done].
      destruct Hcl as (d' & [= <-] & Hd). apply close_burst_inv in Hd as (Hs & Md & Hc & _ & Ld).
      split; [by eapply burst_successor_valid|]. split; [done|].
      eapply origin_like; [exact Md|exact Ld|]. eapply origin_mono; [|by apply Ho]. set_solver.
Qed.

Lemma members_of_app l m : members_of (l ++ m) = members_of l ++ members_of m.
Proof. apply bind_app. Qed.

Lemma omap_cons_list {A B} (g : A -> option B) x l : omap g (x :: l) = option_list (g x) ++ omap g l.
Proof. cbn. by destruct (g x). Qed.

(** A whole run, from any well-formed folder. *)
Lemma fold_all_ok ts inputs f f' us :
  fold_all f inputs = Ok (f', us) -> folder_ok f -> (forall c, current f = Some c -> origin ts c) ->
  let bursts := omap BurstFoldUpdate.closed us ++ option_list (current f') in
  folder_ok f' /\ Forall (origin (ts ++ (snd <$> inputs))) bursts /\
  members_of bursts = members_of (option_list (current f)) ++ accepted (snd <$> inputs) us /\
  Forall (fun d => OperationBurst.validate d = Ok tt /\
                   OperationBurst.lifecycle d = OperationBurstLifecycle.Closed)
    (omap BurstFoldUpdate.closed us).
Proof.
  revert ts f f' us. induction inputs as [|[fresh t] rest IH]; intros ts f f' us H Hf Ho.
  { injection H as <- <-. cbn. rewrite !app_nil_r. split_and!; try done.
    destruct (current f) as [c|] eqn:Ec; cbn; [|done]. constructor; [by apply Ho|done]. }
  cbn [fold_all] in H. apply rbind_ok in H as ([f1 u] & Hp & H). apply rbind_ok in H as ([f2 vs] & Hr & H).
  cbn in Hr, H. injection H as <- <-. apply push_inv in Hp.
  destruct (pushed_step ts _ _ _ _ _ Hp Hf Ho) as (Hf1 & Ho1 & Hm1 & Hc1).
  destruct (IH (ts ++ [t]) _ _ _ Hr Hf1 Ho1) as (Hf2 & Hor & Hm & Hc). clear IH.
  assert (ts ++ (snd <$> (fresh, t) :: rest) = (ts ++ [t]) ++ (snd <$> rest)) as -> by (by rewrite <-app_assoc).
  cbv zeta. rewrite omap_cons_list, <-(app_assoc (option_list (BurstFoldUpdate.closed u))).
  split; [done|]. split_and!.
  - rewrite Forall_app. split; [|done].
    destruct (BurstFoldUpdate.closed u) as [d|] eqn:Ed; cbn; [|done]. constructor; [|done].
    eapply origin_mono; [|by apply Hc1]. set_solver.
  - rewrite members_of_app, Hm, app_assoc, <-members_of_app, Hm1, <-app_assoc. f_equal.
    unfold accepted. cbn. destruct (BurstFoldUpdate.no_delta u); done.
  - apply Forall_app. split; [|done]. destruct (BurstFoldUpdate.closed u) as [d|] eqn:Ed; cbn; [|done].
    constructor; [|done]. destruct (Hc1 d eq_refl) as (? & ? & _). done.
Qed.

Lemma valid_burst_size b :
  OperationBurst.validate b = Ok tt -> (1 <= length (OperationBurst.members b) <= MAX_BURST_MEMBERS)%nat.
Proof.
  unfold OperationBurst.validate. rewrite guard_ok, !orb_false_iff. intros H.
  assert (OperationBurst.ordered_members b = true) as Hm by (destruct_and! H; by apply negb_false_iff).
  unfold OperationBurst.ordered_members in Hm. rewrite !andb_true_iff, negb_true_iff, Nat.leb_le in Hm.
  destruct Hm as [[[He Hle] _] _]. destruct (OperationBurst.members b); cbn in *; [done|lia].
Qed.

(** What the folder remembers of an accepted token is that token. *)
Lemma seen_same b t : like b t -> differs (seen_from_burst b (member_from_token t)) t = false.
Proof.
  intros []. unfold differs, seen_from_burst. cbn [SeenOperation.member SeenOperation.operation_kind
    SeenOperation.state_delta SeenOperation.verifier_delta SeenOperation.phase_candidate
    SeenOperation.has_objective_boundary SeenOperation.error_signature SeenOperation.target_family
    SeenOperation.target_refs].
  rewrite !orb_false_iff, !negb_false_iff, !bool_decide_eq_true. by split_and!.
Qed.

End FoldFacts.

Module FoldTheorems.
Import OperationBurstFolder FoldFacts.

(** Folding loses, repeats and mixes nothing.  After any sequence of pushes
    into a new folder, the members of the closed bursts followed by those of the
    current one are exactly the members of the accepted tokens, in order; every
    burst is valid and holds 1 to 64 members, each from a token with the kind,
    target, lane and owner of the burst; all but the current burst are closed,
    and that one is open. *)
Theorem burst_fold_conserves inputs f us :
  fold_all OperationBurstFolder.new inputs = Ok (f, us) ->
  let closed := omap BurstFoldUpdate.closed us in
  let bursts := closed ++ option_list (current f) in
  members_of bursts = accepted (snd <$> inputs) us /\
  Forall (fun b => OperationBurst.validate b = Ok tt /\
            (1 <= length (OperationBurst.members b) <= MAX_BURST_MEMBERS)%nat /\
            origin (snd <$> inputs) b) bursts /\
  Forall (fun b => OperationBurst.lifecycle b = OperationBurstLifecycle.Closed) closed /\
  (forall c, current f = Some c -> OperationBurst.lifecycle c = OperationBurstLifecycle.Open).
Proof.
  intros H. destruct (fold_all_ok [] inputs _ _ _ H) as (Hf & Ho & Hm & Hc); [done..|].
  cbv zeta. split; [done|]. split_and!.
  - rewrite Forall_app in Ho |- *. destruct Ho as [Ho1 Ho2]. split.
    + eapply Forall_impl; [apply Forall_and; split; [exact Ho1|exact Hc]|]. intros b (O & V & _).
      split; [done|]. split; [by apply valid_burst_size|done].
    + destruct (current f) as [c|] eqn:Ec; cbn in *; [|done]. apply Forall_cons in Ho2 as [O _].
      destruct (Hf c Ec) as [V _]. constructor; [|done]. split; [done|].
      split; [by apply valid_burst_size|done].
  - eapply Forall_impl; [exact Hc|]. by intros b [_ ?].
  - intros c Ec. by destruct (Hf c Ec).
Qed.

(** A token may be delivered twice.  Pushing an accepted token again, at once,
    reports no delta and leaves the folder as it is. *)
Theorem burst_push_again fresh fresh' f t f' u :
  push fresh f t = Ok (f', u) -> BurstFoldUpdate.no_delta u = false ->
  push fresh' f' t
  = Ok (f', BurstFoldUpdate.mk (BurstFoldUpdate.current u) None false false true).
Proof.
  intros H Hn. apply push_inv in H.
  assert (exists b, like b t /\ current f' = Some b /\ BurstFoldUpdate.current u = b /\
    seen f' !! ActivityToken.operation_id t = Some (seen_from_burst b (member_from_token t)))
    as (b & Hl & Hc & <- & Hs).
  { destruct H as [c Hc|c next f' Hc Hl _ Hs Hm Hnl _ _ ->|closed next f' mg Hcl Hb ->]; [done|..].
    - exists next. cbn. by rewrite lookup_insert_eq.
    - apply new_burst_inv in Hb as (_ & L & _). exists next. cbn. by rewrite lookup_insert_eq. }
  unfold push. rewrite Hs. cbn [SeenOperation.revision seen_from_burst member_from_token
    OperationBurstMember.operation_revision]. rewrite N.ltb_irrefl, N.eqb_refl.
  rewrite (seen_same _ _ Hl), Hc. done.
Qed.

End FoldTheorems.

(** ** The detector *)

Module DetectorFacts.
Import SegmentationDetector.

(** The detector after the tokens [h], newest first. *)
Inductive run (episode : WorkEpisode) : list ActivityToken -> SegmentationDetector -> Prop :=
| run_new d : new episode = Ok d -> run episode [] d
| run_push h d t b d' u :
    run episode h d -> push d t b = Ok (d', u) -> run episode (t :: h) d'.

(** A token that speaks for a boundary: explicit evidence, or another phase. *)
Definition signal (expected : PhaseKind) (t : ActivityToken) : Prop :=
  objective (ActivityToken.boundary_evidence t) = true \/
  exists phase, ActivityToken.observed_phase_kind t = Some phase /\ phase <> expected.

(** An objective candidate stands for a token of the history. *)
Definition proposed_by (expected : PhaseKind) (h : list ActivityToken) (c : Candidate) : Prop :=
  exists t, t ∈ h /\ signal expected t /\
    ActivityToken.source_watermark t = Candidate.source_watermark c /\
    ActivityToken.observed_phase_kind t = Candidate.proposed_phase c.

(** Two tokens of the history confirm the boundary. *)
Definition confirmed_by (expected : PhaseKind) (h : list ActivityToken) (watermark : N) : Prop :=
  exists t1 t2, t1 ∈ h /\ t2 ∈ h /\ signal expected t1 /\
    objective (ActivityToken.boundary_evidence t2) = true /\
    ActivityToken.observed_phase_kind t1 = ActivityToken.observed_phase_kind t2 /\
    (ActivityToken.source_watermark t1 < ActivityToken.source_watermark t2)%N /\
    ActivityToken.source_watermark t2 = watermark.

Record boundary_inv (expected : PhaseKind) (h : list ActivityToken) (source : N)
    (candidate : option Candidate) (status : BoundaryStatus) (confirmation : N) : Prop := {
  inv_candidate_status : status = BoundaryStatus.Candidate <-> is_Some candidate;
  inv_confirmed : status = BoundaryStatus.Confirmed ->
    confirmed_by expected h confirmation /\ (0 < confirmation <= source)%N;
  inv_unconfirmed : status <> BoundaryStatus.Confirmed -> confirmation = 0%N;
  inv_candidate : forall c, candidate = Some c ->
    (0 < Candidate.source_watermark c <= source)%N /\
    (Candidate.observations c <= REFINEMENT_WINDOW)%N /\
    (Candidate.kind c = BoundaryCandidateKind.Objective -> proposed_by expected h c);
}.

Definition window_inv (rolling : list RecentFeature) (scores : list N) : Prop :=
  (length rolling <= MAX_ROLLING_TOKENS)%nat /\ (length scores <= pred (length rolling))%nat /\
  Forall (fun s => s <= 23)%N scores.

Record detector_inv (episode : WorkEpisode) (h : list ActivityToken) (d : SegmentationDetector) : Prop := {
  inv_episode : episode_id d = WorkEpisode.episode_id episode;
  inv_contract : phase_contract d = WorkEpisode.phase_contract episode;
  inv_boundary : boundary_inv (PhaseContract.phase_kind (WorkEpisode.phase_contract episode)) h
    (source_watermark d) (candidate d) (boundary_status d) (confirmation_watermark d);
  inv_window : window_inv (rolling d) (surprise_scores d);
}.

Lemma boundary_inv_mono expected h h' source source' c s w :
  h ⊆ h' -> (source <= source')%N ->
  boundary_inv expected h source c s w -> boundary_inv expected h' source' c s w.
Proof.
  intros Hh Hs [H1 H2 H3 H4]. split; [done|..|done|].
  - intros Hc. destruct (H2 Hc) as ((t1 & t2 & ? & ? & ?) & ?). split; [|lia].
    exists t1, t2. split; [by apply Hh|]. split; [by apply Hh|done].
  - intros x Hx. destruct (H4 x Hx) as (? & ? & Hp). split; [lia|]. split; [done|].
    intros Hk. destruct (Hp Hk) as (t & ? & ?). exists t. split; [by apply Hh|done].
Qed.

(** What a token does to a pending candidate, case by case. *)
Inductive refines (d : SegmentationDetector) (t : ActivityToken) : refinement -> Prop :=
| refines_none al :
    candidate d = None -> refines d t (Build_refinement d al false [])
| refines_retract c al :
    candidate d = Some c ->
    refines d t (Build_refinement
      (set_boundary d None BoundaryStatus.Provisional (confirmation_watermark d)) al true [])
| refines_upgrade c c' al :
    candidate d = Some c -> objective (ActivityToken.boundary_evidence t) = true ->
    Candidate.source_watermark c' = ActivityToken.source_watermark t ->
    Candidate.proposed_phase c' = ActivityToken.observed_phase_kind t -> Candidate.observations c' = 0%N ->
    refines d t (Build_refinement
      (set_boundary d (Some c') (boundary_status d) (confirmation_watermark d)) al false [])
| refines_confirm c al refs :
    candidate d = Some c -> Candidate.kind c = BoundaryCandidateKind.Objective ->
    (Candidate.source_watermark c < ActivityToken.source_watermark t)%N ->
    ActivityToken.observed_phase_kind t = Candidate.proposed_phase c ->
    objective (ActivityToken.boundary_evidence t) = true ->
    refines d t (Build_refinement
      (set_boundary d None BoundaryStatus.Confirmed (ActivityToken.source_watermark t)) al false refs)
| refines_keep c n al :
    candidate d = Some c ->
    (Candidate.observations c <= REFINEMENT_WINDOW -> n <= REFINEMENT_WINDOW)%N ->
    refines d t (Build_refinement
      (set_boundary d (Some (Candidate.set_observations c n)) (boundary_status d)
         (confirmation_watermark d)) al false []).

Lemma refine_candidate_inv d t feature al r :
  refine_candidate d t feature al = Ok r -> refines d t r.
Proof.
  unfold refine_candidate. destruct (candidate d) as [c|] eqn:Ec.
  2:{ intros [= <-]. by constructor. }
  intros H. apply rbind_ok in H as (n & Hn & H). cbv zeta in H.
  assert (Candidate.observations c <= REFINEMENT_WINDOW -> n <= REFINEMENT_WINDOW)%N as Hle.
  { destruct (N.ltb_spec (Candidate.observations c) REFINEMENT_WINDOW) as [Hlt|]; [|congruence].
    apply ok_or_ok in Hn. unfold checked_add_u8 in Hn. destruct (_ <=? _)%N; [|done].
    injection Hn as <-. lia. }
  destruct (_ || _) in H; [injection H as <-; by eapply refines_retract|].
  destruct (_ && _) eqn:E1 in H.
  { apply andb_true_iff in E1 as [_ E1]. injection H as <-. by eapply refines_upgrade. }
  clear E1. destruct (_ && _) eqn:E2 in H.
  { rewrite !andb_true_iff, !bool_decide_eq_true, N.ltb_lt in E2. destruct E2 as [[[Hk Hw] Hp] Ho].
    injection H as <-. by eapply refines_confirm. }
  injection H as <-. by eapply refines_keep.
Qed.

Lemma boundary_none expected h source status :
  status = BoundaryStatus.Provisional -> boundary_inv expected h source None status 0.
Proof.
  intros ->. split; [|done..].
  split; [done|]. by intros [].
Qed.

Lemma boundary_some expected h source c :
  (0 < Candidate.source_watermark c <= source)%N -> (Candidate.observations c <= REFINEMENT_WINDOW)%N ->
  (Candidate.kind c = BoundaryCandidateKind.Objective -> proposed_by expected h c) ->
  boundary_inv expected h source (Some c) BoundaryStatus.Candidate 0.
Proof.
  intros Hw Ho Hk. split; [|done|done|].
  - split; [by eauto|done].
  - intros x [= <-]. done.
Qed.

Lemma refines_inv expected h d t r :
  refines d t r -> (source_watermark d < ActivityToken.source_watermark t)%N ->
  boundary_inv expected h (source_watermark d) (candidate d) (boundary_status d) (confirmation_watermark d) ->
  boundary_inv expected (t :: h) (ActivityToken.source_watermark t) (candidate (refined r))
    (boundary_status (refined r)) (confirmation_watermark (refined r)).
Proof.
  intros Hr Hs Hi.
  assert (h ⊆ t :: h) as Hsub by set_solver.
  assert (forall c, candidate d = Some c ->
    boundary_status d = BoundaryStatus.Candidate /\ confirmation_watermark d = 0%N) as Hcand.
  { intros c Hc. destruct Hi as [H1 _ H3 _]. assert (boundary_status d = BoundaryStatus.Candidate) as E
      by (apply H1; eauto). split; [done|]. apply H3. by rewrite E. }
  destruct Hr as [al Hc|c al Hc|c c' al Hc Ho Hw Hp Hn|c al refs Hc Hk Hw Hp Ho|c n al Hc Hn]; cbn.
  - eapply boundary_inv_mono; [exact Hsub| |exact Hi]. lia.
  - destruct (Hcand c Hc) as [_ ->]. by apply boundary_none.
  - destruct (Hcand c Hc) as [-> ->]. apply boundary_some; [lia|unfold REFINEMENT_WINDOW; lia|].
    intros _. exists t. split; [set_solver|]. split; [by left|]. done.
  - split; [|intros _|done|done].
    + split; [done|]. by intros [].
    + split; [|lia]. destruct (inv_candidate _ _ _ _ _ _ Hi c Hc) as (_ & _ & Hb).
      destruct (Hb Hk) as (t1 & Ht1 & S1 & W1 & P1). exists t1, t.
      split_and!; try done; [set_solver..|congruence|lia].
  - destruct (Hcand c Hc) as [-> ->]. destruct (inv_candidate _ _ _ _ _ _ Hi c Hc) as (Hw & Ho & Hb).
    apply boundary_some; cbn; [lia|auto|]. intros Hk. destruct (Hb Hk) as (t1 & Ht1 & ?).
    exists t1. split; [set_solver|done].
Qed.

Lemma propose_inv d t b feature r h :
  phase_contract d = phase_contract (refined r) ->
  (0 < ActivityToken.source_watermark t)%N ->
  let expected := PhaseContract.phase_kind (phase_contract d) in
  let p := (propose d t b feature r).1 in
  boundary_inv expected (t :: h) (ActivityToken.source_watermark t) (candidate (refined r))
    (boundary_status (refined r)) (confirmation_watermark (refined r)) ->
  boundary_inv expected (t :: h) (ActivityToken.source_watermark t) (candidate p)
    (boundary_status p) (confirmation_watermark p).
Proof.
  intros Hph Hw expected p Hi. subst p. unfold propose. cbv zeta.
  destruct (_ && _) eqn:E; [|done]. cbn.
  rewrite !andb_true_iff, negb_true_iff, bool_decide_eq_false in E. destruct E as [[[_ Hs] _] _].
  rewrite (inv_unconfirmed _ _ _ _ _ _ Hi Hs). apply boundary_some; cbn; [lia|unfold REFINEMENT_WINDOW; lia|].
  intros Hk. exists t. split; [set_solver|]. split; [|done].
  destruct (objective (ActivityToken.boundary_evidence t)) eqn:Eo; [by left|]. right. simpl in Hk.
  destruct (is_some_and (ActivityToken.observed_phase_kind t) _) eqn:Ep; [|done].
  destruct (ActivityToken.observed_phase_kind t) as [phase|]; [|done]. exists phase. split; [done|].
  cbn in Ep. by rewrite negb_true_iff, bool_decide_eq_false in Ep.
Qed.

(** Proposing and refining leave everything but the boundary alone. *)
Lemma refines_frame d t r :
  refines d t r ->
  episode_id (refined r) = episode_id d /\ phase_contract (refined r) = phase_contract d /\
  rolling (refined r) = rolling d /\ surprise_scores (refined r) = surprise_scores d.
Proof. by destruct 1. Qed.

Lemma propose_frame d t b feature r :
  let p := (propose d t b feature r).1 in
  episode_id p = episode_id (refined r) /\ phase_contract p = phase_contract (refined r) /\
  rolling p = rolling (refined r) /\ surprise_scores p = surprise_scores (refined r).
Proof. unfold propose. cbv zeta. by destruct (_ && _). Qed.

Lemma distance_le a b : (BurstFeature.distance a b <= 23)%N.
Proof.
  unfold BurstFeature.distance.
  assert (forall x, N.b2n x <= 1)%N as Hb by (intros []; cbn; lia).
  repeat match goal with |- context [N.b2n ?x] => generalize (Hb x); generalize (N.b2n x); intros ? ? end.
  lia.
Qed.

Lemma pop_scores_ok n l :
  (0 < n)%nat -> (length (pop_scores n l) < n)%nat /\
  (forall P : N -> Prop, Forall P l -> Forall P (pop_scores n l)).
Proof.
  intros Hn. induction l as [|x l [IH1 IH2]]; [by split|]. cbn [pop_scores].
  destruct (Nat.leb_spec n (length (x :: l))); [|by split].
  split; [done|]. intros P [_ HP]%Forall_cons. by apply IH2.
Qed.

Lemma record_feature_window d b :
  window_inv (rolling d) (surprise_scores d) ->
  window_inv (rolling (record_feature d b)) (surprise_scores (record_feature d b)).
Proof.
  unfold window_inv, record_feature. cbv zeta. cbn [rolling surprise_scores set_window]. intros (Hl & Hs & Hf).
  match goal with |- context [pop_scores (length ?w) _] => set (window := w) end.
  assert (0 < length window <= MAX_ROLLING_TOKENS)%nat as [H0 H1].
  { assert (forall l : list RecentFeature, length (tail l) = pred (length l)) as Ht by (by intros []).
    subst window. destruct (Nat.ltb_spec MAX_ROLLING_TOKENS (length (rolling d ++ [RecentFeature.mk
      (OperationBurst.source_watermark b) (BurstFeature.from_burst b) (burst_evidence b)]))) as [Hlt|Hge];
      rewrite ?Ht; rewrite length_app in *; change (length [_]) with 1%nat in *;
      unfold MAX_ROLLING_TOKENS in *; lia. }
  split; [done|]. edestruct (pop_scores_ok (length window)) as [Hp Hq]; [done|].
  split; [apply Nat.lt_le_pred, Hp|]. apply Hq, Forall_app. split; [done|].
  destruct (last (rolling d)); cbn; [|done]. constructor; [apply distance_le|done].
Qed.

(** A push either ignores a token of another workstream or refines, proposes and
    advances the watermark. *)
Lemma push_cases d t b d' u :
  push d t b = Ok (d', u) ->
  d' = d \/
  exists r feature, refines d t r /\ (source_watermark d < ActivityToken.source_watermark t)%N /\
    let p := (propose d t b feature r).1 in
    let after := set_seen p (ActivityToken.sequence t) (ActivityToken.source_watermark t)
                   (ActivityToken.attempt_id t) in
    d' = after \/ exists burst, d' = record_feature after burst.
Proof.
  unfold push. intros H. apply bind_unit_ok in H as [_ H].
  destruct (negb _) in H; [injection H as <- <-; by left|].
  apply bind_unit_ok in H as [_ H]. apply bind_unit_ok in H as [Hw H].
  rewrite guard_ok, orb_false_iff, !N.leb_gt in Hw. destruct Hw as [_ Hw].
  apply rbind_ok in H as (r & Hr & H). apply refine_candidate_inv in Hr.
  destruct (propose _ _ _ _ _) as [p al] eqn:Ep in H. injection H as <- <-.
  right. exists r, (BurstFeature.from_burst (BurstFoldUpdate.current b)).
  split; [done|]. split; [done|]. rewrite Ep. cbn [fst]. cbv zeta.
  destruct (BurstFoldUpdate.started_new b); [|by left]. right. by eexists.
Qed.

(** The update reports the boundary of the detector it comes with. *)
Lemma push_update d t b d' u :
  push d t b = Ok (d', u) ->
  DetectorUpdate.boundary_status u = boundary_status d' /\
  DetectorUpdate.token_watermark u = ActivityToken.source_watermark t /\
  (DetectorUpdate.candidate_kind u = None <-> DetectorUpdate.candidate_watermark u = None).
Proof.
  unfold push. intros H. apply bind_unit_ok in H as [_ H].
  destruct (negb _) in H; [injection H as <- <-; cbn; by destruct (candidate d)|].
  apply bind_unit_ok in H as [_ H]. apply bind_unit_ok in H as [_ H]. apply rbind_ok in H as (r & _ & H).
  destruct (propose _ _ _ _ _) as [p al] in H. injection H as <- <-.
  split; [by destruct (BurstFoldUpdate.started_new b)|]. cbn. by destruct (candidate p).
Qed.

(** Turning confirmed takes a token with explicit evidence. *)
Lemma push_confirms d t b d' u :
  push d t b = Ok (d', u) -> boundary_status d <> BoundaryStatus.Confirmed ->
  boundary_status d' = BoundaryStatus.Confirmed ->
  objective (ActivityToken.boundary_evidence t) = true.
Proof.
  intros H Hd Hd'. apply push_cases in H as [->|(r & feature & Hr & _ & H)]; [done|].
  assert (boundary_status (propose d t b feature r).1 = BoundaryStatus.Confirmed) as Hp.
  { cbv zeta in H. destruct H as [->|[burst ->]]; exact Hd'. }
  assert (boundary_status (refined r) = BoundaryStatus.Confirmed) as Hc.
  { unfold propose in Hp. cbv zeta in Hp. by destruct (_ && _) in Hp. }
  destruct Hr; try done.
Qed.

Lemma detector_push_inv episode h d t b d' u :
  push d t b = Ok (d', u) -> detector_inv episode h d -> detector_inv episode (t :: h) d'.
Proof.
  intros H [He Hp Hb Hw]. apply push_cases in H as [->|(r & feature & Hr & Hwm & H)].
  { split; try done. eapply boundary_inv_mono; [| |exact Hb]; [set_solver|lia]. }
  destruct (refines_frame _ _ _ Hr) as (F1 & F2 & F3 & F4).
  destruct (propose_frame d t b feature r) as (P1 & P2 & P3 & P4). cbv zeta in H.
  assert (detector_inv episode (t :: h) (set_seen (propose d t b feature r).1 (ActivityToken.sequence t)
    (ActivityToken.source_watermark t) (ActivityToken.attempt_id t))) as Hd.
  { split; cbn; [congruence..| |].
    - rewrite <-Hp in Hb |- *. apply propose_inv; [congruence|lia|]. by eapply refines_inv.
    - by rewrite P3, P4, F3, F4. }
  destruct H as [->|[burst ->]]; [done|]. destruct Hd as [G1 G2 G3 G4]. split; [done..|].
  by apply record_feature_window.
Qed.

Lemma run_inv episode h d : run episode h d -> detector_inv episode h d.
Proof.
  induction 1 as [d H|h d t b d' u _ IH H]; [|by eapply detector_push_inv].
  unfold new in H. apply bind_unit_ok in H as [_ H]. apply bind_unit_ok in H as [_ H].
  injection H as <-. split; [done..| |].
  - by apply boundary_none.
  - split_and!; [cbn; lia..|constructor].
Qed.

End DetectorFacts.

Module DetectorTheorems.
Import SegmentationDetector DetectorFacts.

(** A boundary is confirmed only by two tokens.  A detector that has reached
    [Confirmed] has seen an explicit boundary signal at its confirmation
    watermark, and before it another token that already signalled the boundary
    (by explicit evidence or by another phase than the contract's) and observed
    the same phase; a statistical surprise alone never confirms anything. *)
Theorem boundary_confirmed_twice episode h d :
  run episode h d -> boundary_status d = BoundaryStatus.Confirmed ->
  exists t1 t2, t1 ∈ h /\ t2 ∈ h /\
    signal (PhaseContract.phase_kind (WorkEpisode.phase_contract episode)) t1 /\
    objective (ActivityToken.boundary_evidence t2) = true /\
    ActivityToken.observed_phase_kind t1 = ActivityToken.observed_phase_kind t2 /\
    (ActivityToken.source_watermark t1 < ActivityToken.source_watermark t2)%N /\
    ActivityToken.source_watermark t2 = confirmation_watermark d.
Proof. intros H Hc. apply run_inv in H as [_ _ [_ H _ _] _]. by destruct (H Hc). Qed.

(** The state of the detector stays small and coherent.  After any tokens it
    keeps at most 64 features and fewer scores than features, each score at most
    23; it has a candidate exactly in status [Candidate], with at most 8
    refinements and a watermark it has already passed; and its confirmation
    watermark is set, and not ahead of the source, exactly when it is confirmed. *)
Theorem detector_bounded episode h d :
  run episode h d ->
  (length (rolling d) <= 64)%nat /\ (length (surprise_scores d) <= pred (length (rolling d)))%nat /\
  Forall (fun s => s <= 23)%N (surprise_scores d) /\
  (boundary_status d = BoundaryStatus.Candidate <-> is_Some (candidate d)) /\
  (boundary_status d = BoundaryStatus.Confirmed <-> confirmation_watermark d <> 0%N) /\
  (confirmation_watermark d <= source_watermark d)%N /\
  (forall c, candidate d = Some c ->
     (0 < Candidate.source_watermark c <= source_watermark d)%N /\ (Candidate.observations c <= 8)%N).
Proof.
  intros H. apply run_inv in H as [_ _ [H1 H2 H3 H4] (W1 & W2 & W3)].
  split; [done|]. split; [done|]. split; [done|]. split; [done|].
  destruct (decide (boundary_status d = BoundaryStatus.Confirmed)) as [E|E].
  - destruct (H2 E) as [_ Hc]. split; [split; [lia|done]|]. split; [lia|].
    intros c Hc'. destruct (H4 c Hc') as (? & ? & _). done.
  - rewrite (H3 E). split; [split; [done|congruence]|]. split; [lia|].
    intros c Hc'. destruct (H4 c Hc') as (? & ? & _). done.
Qed.

End DetectorTheorems.
