(* ===== verification/EpisodeOps.v ===== *)
(** * Operations on episodes and their projection

    [evertrace-engine/src/work/episode.rs] and [segmentation/checkpoint.rs]: opening,
    revising, confirming and closing episodes, linking attempts and bindings to
    them, corrections and checkpoints.  [record_episode], [record_operation_burst],
    [record_checkpoint] and [record_correction] of
    [evertrace-store/src/projections/segmentation.rs]: the reducers that fold the
    recorded events into the current state. *)

From S2P Require Import Prelude Order Collections Text Ids Lane Journal Attempt AttemptOps.
From S2P Require Import Repository RepositoryStore Work WorkOps Evidence Episode Segmentation SegmentationFacts.

Module EpisodePayload.
Inductive EpisodePayload :=
| OperationBurstRecorded (burst : OperationBurst)
| WorkEpisodeRecorded (episode : WorkEpisode)
| WorkstreamRecorded (workstream : Workstream)
| AttemptRecorded (attempt : Attempt)
| WorkBindingRecorded (binding : WorkBindingRevision)
| WorkCheckpointRecorded (checkpoint : WorkCheckpoint)
| SegmentationCorrectionRecorded (correction : SegmentationCorrection).
End EpisodePayload.
Abbreviation EpisodePayload := EpisodePayload.EpisodePayload.

Module EpisodeCommands.
Import WorkEpisode.
Export BindingOps (raise).

Definition new_episode (fresh : WorkEpisodeId) (fresh_rev : RevisionId) (workstream : Workstream)
    (entry_snapshot : option WorktreeSnapshotId) (watermark : N)
  : result WorkIdentityError WorkEpisode :=
  do? guard (is_some (Workstream.active_episode_id workstream)
             || workstream_is_terminal (Workstream.status workstream)
             || (watermark <? Workstream.source_watermark workstream)%N)
        WorkIdentityError.InvalidInput in
  let episode := {|
    episode_id := fresh;
    revision_id := fresh_rev;
    predecessor_revision_id := None;
    revision_generation := 1;
    task_id := Workstream.task_id workstream;
    workstream_id := Workstream.workstream_id workstream;
    repository_instance_id := Workstream.repository_instance_id workstream;
    worktree_instance_id := Workstream.active_worktree_instance_id workstream;
    phase_contract := Workstream.phase_contract workstream;
    lifecycle_status := EpisodeLifecycle.Open;
    boundary_status := BoundaryStatus.Provisional;
    source_watermark := watermark;
    semantic_watermark := 0;
    confirmation_watermark := 0;
    capture_watermark := 0;
    entry_worktree_snapshot_id := entry_snapshot;
    exit_worktree_snapshot_id := None;
    session_ids := []; execution_lane_ids := []; attempt_ids := [];
    competing_attempt_group_ids := []; operation_burst_refs := [];
    worktree_transition_refs := []; failed_attempt_ids := []; interrupted_attempt_ids := [];
    returned_but_unselected_attempt_ids := []; selected_attempt_ids := []; failure_refs := [];
    interruption_refs := []; completed_outcome_refs := []; selected_outcome_refs := [];
    verification_refs := []; open_loops := []; checkpoint_refs := [];
    capture_receipt_revision_ids := []; capture_gap_refs := []; capture_outage_refs := [];
    pending_delta_stats := PendingDeltaStats.default;
    pending_semantic_delta :=
      if (0 <? watermark)%N then Some (PendingSemanticInterval.mk 0 watermark) else None;
    boundary_candidate := None;
    capture_summary := CaptureSummary.default;
    segmentation_correction_refs := []; experiment_run_refs := []; work_artifact_refs := [];
    semantic_digest_refs := [] |} in
  do? invalid_input (validate episode) in
  Ok episode.

Definition next_episode (fresh : WorkEpisodeId) (fresh_rev : RevisionId) (workstream : Workstream)
    (current : WorkEpisode) (contract : PhaseContract)
    (entry_snapshot : option WorktreeSnapshotId) (watermark : N)
  : result WorkIdentityError WorkEpisode :=
  do? guard ((Workstream.active_episode_id workstream !=? Some (episode_id current))
             || (lifecycle_status current !=? EpisodeLifecycle.Open)
             || (task_id current !=? Workstream.task_id workstream)
             || (workstream_id current !=? Workstream.workstream_id workstream)
             || (contract ==? phase_contract current)
             || (watermark <? source_watermark current)%N)
        WorkIdentityError.InvalidInput in
  let basis := Workstream.set_active workstream (Workstream.revision_id workstream)
    (Workstream.predecessor_revision_id workstream) None contract watermark in
  new_episode fresh fresh_rev basis entry_snapshot watermark.

(** One counter of the statistics. *)
Definition bump (c : bool) (n : N) : result WorkIdentityError N :=
  if c then ok_or (checked_add_u32 n 1) WorkIdentityError.InvalidInput else Ok n.

Definition revise_episode_from_step (current : WorkEpisode) (step : IncrementalSegmentationStep)
    (pinned_receipts : list CaptureReceipt) (confirming : bool)
    (exit_snapshot : option WorktreeSnapshotId) : result (fault WorkIdentityError) WorkEpisode :=
  let token := IncrementalSegmentationStep.token step in
  let burst := IncrementalSegmentationStep.burst step in
  let update := IncrementalSegmentationStep.detector step in
  do? raise (guard
    ((ActivityToken.episode_id token !=? episode_id current)
     || (ActivityToken.task_id token !=? task_id current)
     || (ActivityToken.workstream_id token !=? workstream_id current)
     || (ActivityToken.source_watermark token <? source_watermark current)%N
     || (DetectorUpdate.episode_id update !=? episode_id current)
     || (DetectorUpdate.token_watermark update !=? ActivityToken.source_watermark token)
     || ((DetectorUpdate.boundary_status update ==? BoundaryStatus.Confirmed) !=? confirming)
     || (OperationBurst.source_watermark (BurstFoldUpdate.current burst)
         !=? ActivityToken.source_watermark token)
     || (lifecycle_status current !=? EpisodeLifecycle.Open))
    WorkIdentityError.InvalidInput) in
  let provided_receipt_ids :=
    sort_unique (CaptureReceipt.capture_receipt_revision_id <$> pinned_receipts) in
  let provided_lane_ids := vec_sort (CaptureReceipt.execution_lane_id <$> pinned_receipts) in
  let expected_lane_ids :=
    sort_unique (execution_lane_ids current ++ [ActivityToken.execution_lane_id token]) in
  do? raise (guard
    (negb (length provided_receipt_ids =? length pinned_receipts)%nat
     || negb (length provided_lane_ids =? length pinned_receipts)%nat
     || windows2_any (fun a b => a ==? b) provided_lane_ids
     || (provided_lane_ids !=? expected_lane_ids)
     || negb (contains (CaptureReceipt.capture_receipt_revision_id (ActivityToken.capture_receipt token))
                provided_receipt_ids))
    WorkIdentityError.InvalidInput) in
  let? generation := raise (ok_or (checked_add_u64 (revision_generation current) 1)
                              WorkIdentityError.InvalidInput) in
  let? candidate := ok_or (IncrementalSegmenter.expected_candidate update) Panicked in
  let stats := pending_delta_stats current in
  let? selected := raise (bump (negb (BurstFoldUpdate.no_delta burst))
                            (PendingDeltaStats.selected_token_count stats)) in
  let? meaningful := raise (bump (BurstFoldUpdate.meaningful_new burst)
                              (PendingDeltaStats.meaningful_burst_count stats)) in
  let? signals := raise (bump
    ((ActivityToken.boundary_evidence token !=? BoundaryEvidence.None)
     || (ActivityToken.verifier_transition token !=? OperationVerifierDelta.None))
    (PendingDeltaStats.high_value_signal_count stats)) in
  let? summary := raise (invalid_input (CaptureSummary.from_receipts pinned_receipts)) in
  let watermark := ActivityToken.source_watermark token in
  let next := set_step current
    (IncrementalSegmentationStep.episode_successor_revision_id step)
    (Some (revision_id current)) generation watermark
    (if confirming then BoundaryStatus.Confirmed else DetectorUpdate.boundary_status update)
    (if confirming then None else candidate)
    (sort_unique (session_ids current ++ [ActivityToken.session_id token]))
    expected_lane_ids
    (sort_unique (attempt_ids current ++ option_list (ActivityToken.attempt_id token)))
    (sort_unique (competing_attempt_group_ids current
                    ++ option_list (ActivityToken.competing_group_id token)))
    (sort_unique (worktree_transition_refs current ++ ActivityToken.worktree_transition_refs token))
    (sort_unique (operation_burst_refs current
                    ++ [OperationBurst.operation_burst_id (BurstFoldUpdate.current burst)]))
    (PendingDeltaStats.mk selected meaningful signals)
    provided_receipt_ids
    (sort_unique (pinned_receipts ≫= CaptureReceipt.capture_gap_marker_refs))
    (sort_unique (pinned_receipts ≫= CaptureReceipt.capture_outage_interval_refs))
    (match CaptureReceipt.import_watermark <$> pinned_receipts with
     | [] => 0
     | w :: ws => foldr N.min w ws
     end)%N
    summary
    (if (semantic_watermark current <? watermark)%N
     then Some (PendingSemanticInterval.mk (semantic_watermark current) watermark) else None)
    (if confirming then EpisodeLifecycle.Closed else lifecycle_status current)
    (if confirming then DetectorUpdate.confirmation_watermark update
     else confirmation_watermark current)
    (if confirming then exit_snapshot else exit_worktree_snapshot_id current) in
  do? raise (invalid_input (validate_successor current next)) in
  Ok next.

Definition confirm_episode_boundary (current : WorkEpisode) (step : IncrementalSegmentationStep)
    (exit_snapshot : option WorktreeSnapshotId) (pinned_receipts : list CaptureReceipt)
  : result (fault WorkIdentityError) WorkEpisode :=
  let update := IncrementalSegmentationStep.detector step in
  do? raise (guard
    ((lifecycle_status current !=? EpisodeLifecycle.Open)
     || (boundary_status current !=? BoundaryStatus.Candidate)
     || (DetectorUpdate.episode_id update !=? episode_id current)
     || (DetectorUpdate.boundary_status update !=? BoundaryStatus.Confirmed)
     || (DetectorUpdate.token_watermark update !=? DetectorUpdate.confirmation_watermark update)
     || is_empty (DetectorUpdate.confirmation_evidence_refs update)
     || (DetectorUpdate.confirmation_watermark update <=? source_watermark current)%N)
    WorkIdentityError.InvalidInput) in
  revise_episode_from_step current step pinned_receipts true exit_snapshot.

Definition save_segmentation_update (context : WorkCommandContext) (current : WorkEpisode)
    (step : IncrementalSegmentationStep) (pinned_receipts : list CaptureReceipt)
  : result (fault WorkIdentityError) (JournalCommand EpisodePayload) :=
  let? successor := revise_episode_from_step current step pinned_receipts false None in
  let burst := IncrementalSegmentationStep.burst step in
  raise (runtime_command context
    ((EpisodePayload.OperationBurstRecorded <$>
        option_list (BurstFoldUpdate.closed burst)
        ++ (if BurstFoldUpdate.no_delta burst then [] else [BurstFoldUpdate.current burst]))
     ++ [EpisodePayload.WorkEpisodeRecorded successor])).

Definition link_attempt_to_episode `{SHA : Sha256} (fresh : RevisionId) (current : Attempt)
    (episode : WorkEpisode) (watermark : N) : result WorkIdentityError Attempt :=
  do? guard (is_some (Attempt.episode_id current)
             || (Attempt.task_id current !=? task_id episode)
             || (Attempt.workstream_id current !=? workstream_id episode)
             || (lifecycle_status episode !=? EpisodeLifecycle.Open)
             || (watermark <=? Attempt.source_watermark current)%N)
        WorkIdentityError.InvalidInput in
  let? generation := ok_or (checked_add_u64 (Attempt.revision_generation current) 1)
                       WorkIdentityError.InvalidInput in
  let next := Attempt.set_episode (Attempt.set_successor current fresh
    (Some (Attempt.revision_id current)) generation watermark) (Some (episode_id episode)) in
  do? invalid_input (Attempt.validate_successor current next) in
  Ok next.

Definition link_binding_to_episode (fresh : WorkBindingRevisionId) (current : WorkBindingRevision)
    (episode : WorkEpisode) : result WorkIdentityError WorkBindingRevision :=
  let primary := WorkBindingRevision.primary_binding current in
  do? guard ((WorkBindingRevision.assignment_status current !=? AssignmentStatus.Resolved)
             || is_some (PrimaryWorkBinding.episode_id primary)
             || (PrimaryWorkBinding.task_id primary !=? Some (task_id episode))
             || (PrimaryWorkBinding.workstream_id primary !=? Some (workstream_id episode))
             || (lifecycle_status episode !=? EpisodeLifecycle.Open))
        WorkIdentityError.InvalidInput in
  let? generation := ok_or (checked_add_u64 (WorkBindingRevision.revision_generation current) 1)
                       WorkIdentityError.InvalidInput in
  let next := WorkBindingRevision.set_linked current fresh
    (Some (WorkBindingRevision.work_binding_revision_id current)) generation
    (PrimaryWorkBinding.set_episode primary (Some (episode_id episode))) in
  do? invalid_input (WorkBindingRevision.validate_successor current next) in
  Ok next.

Definition record_episode_correction (context : WorkCommandContext)
    (correction : SegmentationCorrection) (episode_successors : list WorkEpisode)
    (workstream_successors : list Workstream)
  : result WorkIdentityError (JournalCommand EpisodePayload) :=
  do? invalid_input (SegmentationCorrection.validate correction) in
  do? guard
    (any (fun id => negb (any (fun episode =>
            (episode_id episode ==? id)
            && contains (SegmentationCorrection.correction_revision_id correction)
                 (segmentation_correction_refs episode)) episode_successors))
       (SegmentationCorrection.source_episode_ids correction)
     || any (fun id => negb (any (fun episode => episode_id episode ==? id) episode_successors))
          (SegmentationCorrection.replacement_episode_ids correction))
    WorkIdentityError.InvalidInput in
  runtime_command context
    ([EpisodePayload.SegmentationCorrectionRecorded correction]
     ++ (EpisodePayload.WorkEpisodeRecorded <$> episode_successors)
     ++ (EpisodePayload.WorkstreamRecorded <$> workstream_successors)).

Definition episode_command (context : WorkCommandContext) (bursts : list OperationBurst)
    (episodes : list WorkEpisode) (workstreams : list Workstream) (attempts : list Attempt)
    (bindings : list WorkBindingRevision) (checkpoints : list WorkCheckpoint)
  : result WorkIdentityError (JournalCommand EpisodePayload) :=
  runtime_command context
    ((EpisodePayload.OperationBurstRecorded <$> bursts)
     ++ (EpisodePayload.WorkEpisodeRecorded <$> episodes)
     ++ (EpisodePayload.WorkstreamRecorded <$> workstreams)
     ++ (EpisodePayload.AttemptRecorded <$> attempts)
     ++ (EpisodePayload.WorkBindingRecorded <$> bindings)
     ++ (EpisodePayload.WorkCheckpointRecorded <$> checkpoints)).

Definition save_checkpoint `{L : UuidLib} (fresh : RevisionId) (context : WorkCommandContext)
    (current_episode : WorkEpisode) (checkpoint : WorkCheckpoint) (existing : option WorkCheckpoint)
  : result WorkIdentityError (option (JournalCommand EpisodePayload)) :=
  do? invalid_input (WorkCheckpoint.validate checkpoint) in
  do? guard ((WorkCheckpoint.episode_id checkpoint !=? episode_id current_episode)
             || (WorkCheckpoint.episode_revision_id checkpoint !=? revision_id current_episode)
             || (WorkCheckpoint.source_watermark checkpoint !=? source_watermark current_episode))
        WorkIdentityError.InvalidInput in
  let key := WorkCheckpoint.stable_key checkpoint in
  let record :=
    do? guard (binary_search_ok (checkpoint_refs current_episode) key) WorkIdentityError.Conflict in
    let? generation := ok_or (checked_add_u64 (revision_generation current_episode) 1)
                         WorkIdentityError.InvalidInput in
    let successor := set_checkpoint current_episode fresh (Some (revision_id current_episode))
      generation (vec_sort (checkpoint_refs current_episode ++ [key])) in
    do? invalid_input (validate_successor current_episode successor) in
    let? c := episode_command context [] [successor] [] [] [] [checkpoint] in
    Ok (Some c) in
  match existing with
  | Some value =>
      if WorkCheckpoint.stable_key value ==? key
      then (if value ==? checkpoint then Ok None else Err WorkIdentityError.Conflict)
      else record
  | None => record
  end.

Definition activate_episode (fresh : RevisionId) (context : WorkCommandContext)
    (current_workstream : Workstream) (episode : WorkEpisode) (attempt_successors : list Attempt)
    (binding_successors : list WorkBindingRevision)
  : result WorkIdentityError (JournalCommand EpisodePayload) :=
  do? guard
    (is_some (Workstream.active_episode_id current_workstream)
     || (workstream_id episode !=? Workstream.workstream_id current_workstream)
     || (task_id episode !=? Workstream.task_id current_workstream)
     || is_some (predecessor_revision_id episode)
     || (lifecycle_status episode !=? EpisodeLifecycle.Open)
     || any (fun attempt => Attempt.episode_id attempt !=? Some (episode_id episode)) attempt_successors
     || any (fun binding =>
          let primary := WorkBindingRevision.primary_binding binding in
          (PrimaryWorkBinding.episode_id primary !=? Some (episode_id episode))
          || (PrimaryWorkBinding.task_id primary !=? Some (task_id episode))
          || (PrimaryWorkBinding.workstream_id primary !=? Some (workstream_id episode)))
          binding_successors)
    WorkIdentityError.InvalidInput in
  do? invalid_input (validate episode) in
  let? successor_watermark := ok_or (checked_add_u64 (Workstream.source_watermark current_workstream) 1)
                                WorkIdentityError.InvalidInput in
  let workstream := Workstream.set_active current_workstream fresh
    (Some (Workstream.revision_id current_workstream)) (Some (episode_id episode))
    (Workstream.phase_contract current_workstream)
    (N.max (source_watermark episode) successor_watermark) in
  do? invalid_input (Workstream.validate workstream) in
  episode_command context [] [episode] [workstream] attempt_successors binding_successors [].

(** The bursts that closing an episode records: the one already closed by the
    step and the current one, closed now. *)
Definition closing_bursts (fresh : RevisionId) (closed_episode : WorkEpisode)
    (step : IncrementalSegmentationStep) : result WorkIdentityError (list OperationBurst) :=
  let burst := IncrementalSegmentationStep.current_burst step in
  do? guard ((OperationBurst.lifecycle burst !=? OperationBurstLifecycle.Open)
             || negb (contains (OperationBurst.operation_burst_id burst)
                        (operation_burst_refs closed_episode)))
        WorkIdentityError.InvalidInput in
  let? closed := map_err (fun _ => WorkIdentityError.InvalidInput) (close_burst fresh burst) in
  Ok (option_list (IncrementalSegmentationStep.closed_burst step) ++ [closed]).

Definition close_episode_and_optionally_open (fresh_burst_rev fresh_workstream_rev : RevisionId)
    (context : WorkCommandContext) (current_workstream : Workstream)
    (current_episode closed_episode : WorkEpisode)
    (current_step : option IncrementalSegmentationStep) (replacement : option WorkEpisode)
    (attempt_successors : list Attempt) (binding_successors : list WorkBindingRevision)
  : result WorkIdentityError (JournalCommand EpisodePayload) :=
  do? invalid_input (validate_successor current_episode closed_episode) in
  do? guard
    ((lifecycle_status closed_episode ==? EpisodeLifecycle.Open)
     || (boundary_status closed_episode !=? BoundaryStatus.Confirmed)
     || (Workstream.active_episode_id current_workstream !=? Some (episode_id current_episode))
     || negb (is_empty (operation_burst_refs current_episode)) && is_none current_step)
    WorkIdentityError.InvalidInput in
  let? closed_bursts := match current_step with
                        | None => Ok []
                        | Some step => closing_bursts fresh_burst_rev closed_episode step
                        end in
  do? match replacement with
      | None => Ok tt
      | Some next =>
          do? guard ((episode_id next ==? episode_id current_episode)
                     || (task_id next !=? task_id current_episode)
                     || (workstream_id next !=? workstream_id current_episode)
                     || (lifecycle_status next !=? EpisodeLifecycle.Open)
                     || (phase_contract next ==? phase_contract current_episode))
                WorkIdentityError.InvalidInput in
          invalid_input (validate next)
      end in
  let? successor_watermark := ok_or (checked_add_u64 (Workstream.source_watermark current_workstream) 1)
                                WorkIdentityError.InvalidInput in
  let workstream := Workstream.set_active current_workstream fresh_workstream_rev
    (Some (Workstream.revision_id current_workstream)) (episode_id <$> replacement)
    (from_option phase_contract (Workstream.phase_contract current_workstream) replacement)
    (N.max (source_watermark closed_episode) successor_watermark) in
  do? invalid_input (Workstream.validate workstream) in
  episode_command context closed_bursts (closed_episode :: option_list replacement) [workstream]
    attempt_successors binding_successors [].

End EpisodeCommands.

(** ** Checkpoints (segmentation/checkpoint.rs) *)

Module CheckpointResolution.
Inductive CheckpointResolution :=
| NoDelta
| Checkpoint (checkpoint : WorkCheckpoint).
End CheckpointResolution.
Abbreviation CheckpointResolution := CheckpointResolution.CheckpointResolution.

Definition build_checkpoint `{L : UuidLib} `{SHA : Sha256} (episode : WorkEpisode)
    (attempts : list Attempt) (snapshot : option WorktreeSnapshot) (reason : CheckpointReason)
    (existing : option WorkCheckpoint) : result WorkError CheckpointResolution :=
  let? checkpoint := WorkCheckpoint.derive episode attempts snapshot reason in
  match existing with
  | Some current =>
      if WorkCheckpoint.stable_key current ==? WorkCheckpoint.stable_key checkpoint
      then (if current ==? checkpoint then Ok CheckpointResolution.NoDelta
            else Err WorkError.InvalidWorkIdentity)
      else Ok (CheckpointResolution.Checkpoint checkpoint)
  | None => Ok (CheckpointResolution.Checkpoint checkpoint)
  end.

(** ** The projection *)

Module EpisodeStore.

(** The maps of the projection state these reducers update. *)
Record EpisodeStore := mk {
  episodes : gmap WorkEpisodeId (stamped WorkEpisode);
  episode_revisions : gmap RevisionId (stamped WorkEpisode);
  operation_bursts : gmap OperationBurstId (stamped OperationBurst);
  operation_burst_revisions : gmap RevisionId (stamped OperationBurst);
}.

Section recording.
Context {K V : Type} `{Countable K} `{!EqDecision V} (id : V -> K) (revision : V -> RevisionId)
  (validate : V -> result WorkError unit) (validate_successor : V -> V -> result WorkError unit)
  (generation : V -> N) (predecessor : V -> option RevisionId).

(** The common shape of [record_episode] and [record_operation_burst]. *)
Definition record_revision (current : gmap K (stamped V)) (revisions : gmap RevisionId (stamped V))
    (value : V) (seq : N) : result StoreError (gmap K (stamped V) * gmap RevisionId (stamped V)) :=
  match revisions !! revision value with
  | Some (existing, _) =>
      if existing ==? value then Ok (current, revisions) else Err StoreError.StoreCorrupt
  | None =>
      let insert := Ok (<[id value := (value, seq)]> current, <[revision value := (value, seq)]> revisions) in
      match current !! id value with
      | None =>
          do? guard (is_err (validate value) || negb (generation value =? 1)%N
                     || is_some (predecessor value)) StoreError.StoreCorrupt in
          insert
      | Some (existing, _) =>
          if existing ==? value then Ok (current, revisions)
          else do? map_err (fun _ => StoreError.StoreCorrupt) (validate_successor existing value) in
               insert
      end
  end.
End recording.

Definition record_episode := record_revision WorkEpisode.episode_id WorkEpisode.revision_id
  WorkEpisode.validate WorkEpisode.validate_successor WorkEpisode.revision_generation
  WorkEpisode.predecessor_revision_id.

Definition record_operation_burst := record_revision OperationBurst.operation_burst_id
  OperationBurst.revision_id OperationBurst.validate OperationBurst.validate_successor
  OperationBurst.revision_generation OperationBurst.predecessor_revision_id.

(** The dispatch of the two payloads; other payloads update other maps. *)
Definition apply (state : EpisodeStore) (payload : EpisodePayload) (seq : N)
  : result StoreError EpisodeStore :=
  match payload with
  | EpisodePayload.WorkEpisodeRecorded value =>
      let? r := record_episode (episodes state) (episode_revisions state) value seq in
      Ok (mk r.1 r.2 (operation_bursts state) (operation_burst_revisions state))
  | EpisodePayload.OperationBurstRecorded value =>
      let? r := record_operation_burst (operation_bursts state) (operation_burst_revisions state)
                  value seq in
      Ok (mk (episodes state) (episode_revisions state) r.1 r.2)
  | _ => Ok state
  end.

(** The events of a command, from sequence number [seq] on. *)
Fixpoint apply_all (state : EpisodeStore) (seq : N) (events : list EpisodePayload)
  : result StoreError EpisodeStore :=
  match events with
  | [] => Ok state
  | p :: rest => let? s := apply state p seq in apply_all s (seq + 1) rest
  end.

Section checkpoints.
Context `{L : UuidLib}.

Definition record_checkpoint (values : gmap string (stamped WorkCheckpoint)) (value : WorkCheckpoint)
    (seq : N) : result StoreError (gmap string (stamped WorkCheckpoint)) :=
  do? map_err (fun _ => StoreError.StoreCorrupt) (WorkCheckpoint.validate value) in
  let key := WorkCheckpoint.stable_key value in
  match values !! key with
  | Some (existing, _) => if existing ==? value then Ok values else Err StoreError.StoreCorrupt
  | None => Ok (<[key := (value, seq)]> values)
  end.
End checkpoints.

Definition record_correction (values : gmap RevisionId (stamped SegmentationCorrection))
    (value : SegmentationCorrection) (seq : N)
  : result StoreError (gmap RevisionId (stamped SegmentationCorrection)) :=
  do? map_err (fun _ => StoreError.StoreCorrupt) (SegmentationCorrection.validate value) in
  match values !! SegmentationCorrection.correction_revision_id value with
  | Some (existing, _) => if existing ==? value then Ok values else Err StoreError.StoreCorrupt
  | None =>
      do? match SegmentationCorrection.predecessor_revision_id value with
          | None => Ok tt
          | Some predecessor =>
              let? previous := ok_or (values !! predecessor) StoreError.StoreCorrupt in
              let related := any (fun id =>
                contains id (SegmentationCorrection.source_episode_ids previous.1)
                || contains id (SegmentationCorrection.replacement_episode_ids previous.1))
                (SegmentationCorrection.source_episode_ids value) in
              guard (negb related
                     || any (fun p => SegmentationCorrection.predecessor_revision_id p.1
                                      ==? Some predecessor) (snd <$> map_to_list values))
                StoreError.StoreCorrupt
          end in
      Ok (<[SegmentationCorrection.correction_revision_id value := (value, seq)]> values)
  end.

End EpisodeStore.
Abbreviation EpisodeStore := EpisodeStore.EpisodeStore.

(** ** The segmenter and the journal *)

Module ProtocolFacts.
Import IncrementalSegmenter EpisodeStore EpisodeCommands.

(** A view of the store, as the segmenter reads it. *)
Definition view_of (store : EpisodeStore) (state : SegmentationCurrentState) : Prop :=
  (forall id, SegmentationCurrentState.episode state id = fst <$> episodes store !! id) /\
  (forall id, SegmentationCurrentState.current_burst state id = fst <$> operation_bursts store !! id).

(** The segmenter and the store agree: the committed episode and the open burst
    are the stored ones. *)
Record in_step (store : EpisodeStore) (s : IncrementalSegmenter) (current : WorkEpisode) : Prop := {
  step_episode : fst <$> episodes store !! episode_id s = Some current;
  step_episode_id : WorkEpisode.episode_id current = episode_id s;
  step_revision : WorkEpisode.revision_id current = committed_episode_revision_id s;
  step_burst : forall c, OperationBurstFolder.current (folder s) = Some c ->
    fst <$> operation_bursts store !! OperationBurst.operation_burst_id c = Some c;
  step_open : closed s = false ->
    SegmentationDetector.boundary_status (detector s) <> BoundaryStatus.Confirmed;
}.

(** The drawn identifiers are new to the store. *)
Record unused (store : EpisodeStore) (fresh : FreshIds) (successor : RevisionId) : Prop := {
  unused_successor : episode_revisions store !! successor = None;
  unused_revision : operation_burst_revisions store !! fresh_revision fresh = None;
  unused_first : operation_burst_revisions store !! fresh_first_revision fresh = None;
  unused_burst : operation_bursts store !! fresh_burst fresh = None;
  unused_distinct : fresh_revision fresh <> fresh_first_revision fresh;
}.

(** [observe] without a pending transition, when it prepares one. *)
Lemma observe_inv fresh successor s state op facts s1 step :
  pending s = None ->
  observe fresh successor s state op facts = Ok (s1, SegmentOutcome.Delta step) ->
  exists f d,
    OperationBurstFolder.push fresh (folder s) (IncrementalSegmentationStep.token step)
      = Ok (f, IncrementalSegmentationStep.burst step) /\
    BurstFoldUpdate.no_delta (IncrementalSegmentationStep.burst step) = false /\
    SegmentationDetector.push (detector s) (IncrementalSegmentationStep.token step)
      (IncrementalSegmentationStep.burst step)
      = Ok (d, IncrementalSegmentationStep.detector step) /\
    IncrementalSegmentationStep.episode_successor_revision_id step = successor /\
    s1 = set_pending s (Some (PendingTransition.mk step f d)) /\ closed s = false.
Proof.
  intros Hp H. unfold observe in H. rewrite Hp in H. apply bind_unit_ok in H as [Hc H].
  rewrite guard_ok, orb_false_iff in Hc. destruct Hc as [Hc _].
  apply rbind_ok in H as (e & _ & H). apply bind_unit_ok in H as [_ H].
  apply rbind_ok in H as (token & _ & H). apply rbind_ok in H as ([f burst] & Hf & H).
  cbv beta iota in H. destruct (BurstFoldUpdate.no_delta burst) eqn:En; [done|].
  apply rbind_ok in H as ([d update] & Hd & H). cbv beta iota zeta in H. injection H as <- <-.
  exists f, d. by split_and!.
Qed.

(** What a revision of the episode that is not a confirmation carries. *)
Lemma revise_inv current step receipts next :
  revise_episode_from_step current step receipts false None = Ok next ->
  let update := IncrementalSegmentationStep.detector step in
  WorkEpisode.validate_successor current next = Ok tt /\
  WorkEpisode.episode_id next = WorkEpisode.episode_id current /\
  WorkEpisode.revision_id next = IncrementalSegmentationStep.episode_successor_revision_id step /\
  WorkEpisode.predecessor_revision_id next = Some (WorkEpisode.revision_id current) /\
  WorkEpisode.source_watermark next = ActivityToken.source_watermark (IncrementalSegmentationStep.token step) /\
  WorkEpisode.boundary_status next = DetectorUpdate.boundary_status update /\
  DetectorUpdate.boundary_status update <> BoundaryStatus.Confirmed /\
  expected_candidate update = Some (WorkEpisode.boundary_candidate next) /\
  WorkEpisode.lifecycle_status next = EpisodeLifecycle.Open /\
  OperationBurst.operation_burst_id (IncrementalSegmentationStep.current_burst step)
    ∈ WorkEpisode.operation_burst_refs next.
Proof.
  unfold revise_episode_from_step. intros H. apply bind_unit_ok in H as [G H].
  apply BindingTheorems.raise_ok in G. rewrite guard_ok, !orb_false_iff in G. destruct_and! G.
  cbv zeta in H. apply bind_unit_ok in H as [_ H]. apply rbind_ok in H as (g & _ & H).
  apply rbind_ok in H as (cand & Hc & H). apply ok_or_ok in Hc.
  do 4 (apply rbind_ok in H as (? & _ & H)).
  apply bind_unit_ok in H as [Hs H]. apply BindingTheorems.raise_ok, invalid_input_ok in Hs.
  injection H as <-. cbn in *. split_and!; try done.
  - match goal with E : negb (bool_decide (bool_decide _ = false)) = false |- _ =>
      rewrite negb_false_iff, bool_decide_eq_true, bool_decide_eq_false in E; exact E end.
  - match goal with E : negb (bool_decide (WorkEpisode.lifecycle_status _ = _)) = false |- _ =>
      by rewrite negb_false_iff, bool_decide_eq_true in E end.
  - apply elem_of_sort_unique, elem_of_app. right. apply list_elem_of_here.
Qed.

(** Recording a first revision and a successor. *)
Section recording.
Context {K V : Type} `{Countable K} `{!EqDecision V} (id : V -> K) (revision : V -> RevisionId)
  (validate : V -> result WorkError unit) (validate_successor : V -> V -> result WorkError unit)
  (generation : V -> N) (predecessor : V -> option RevisionId).

Lemma record_first current revisions value seq :
  revisions !! revision value = None -> current !! id value = None ->
  validate value = Ok tt -> generation value = 1%N -> predecessor value = None ->
  record_revision id revision validate validate_successor generation predecessor
    current revisions value seq
  = Ok (<[id value := (value, seq)]> current, <[revision value := (value, seq)]> revisions).
Proof. intros Hr Hc Hv Hg Hp. unfold record_revision. by rewrite Hr, Hc, Hv, Hg, Hp. Qed.

Lemma record_next current revisions value existing seq :
  revisions !! revision value = None -> fst <$> current !! id value = Some existing ->
  revision existing <> revision value -> validate_successor existing value = Ok tt ->
  record_revision id revision validate validate_successor generation predecessor
    current revisions value seq
  = Ok (<[id value := (value, seq)]> current, <[revision value := (value, seq)]> revisions).
Proof.
  intros Hr Hc Hd Hv. unfold record_revision. rewrite Hr.
  destruct (current !! id value) as [[e n]|]; [|done]. cbn in Hc. injection Hc as ->.
  rewrite bool_decide_eq_false_2 by congruence. by rewrite Hv.
Qed.

Lemma record_unknown current revisions value previous seq :
  revisions !! revision value = None -> current !! id value = None -> predecessor value = Some previous ->
  record_revision id revision validate validate_successor generation predecessor
    current revisions value seq = Err StoreError.StoreCorrupt.
Proof.
  intros Hr Hc Hp. unfold record_revision. rewrite Hr, Hc, Hp. cbn [is_some]. by rewrite orb_true_r.
Qed.
End recording.

Lemma burst_successor_id a b :
  OperationBurst.validate_successor a b = Ok tt ->
  OperationBurst.operation_burst_id b = OperationBurst.operation_burst_id a /\
  OperationBurst.revision_id a <> OperationBurst.revision_id b /\
  OperationBurst.predecessor_revision_id b = Some (OperationBurst.revision_id a).
Proof.
  unfold OperationBurst.validate_successor. intros H. do 2 (apply bind_unit_ok in H as [_ H]).
  apply rbind_ok in H as (g & _ & H).
  rewrite guard_ok, !orb_false_iff, !negb_false_iff, !bool_decide_eq_true, !bool_decide_eq_false in H.
  destruct_and! H. split_and!; congruence.
Qed.

(** The journal accepts what a push emits, and then holds the current burst. *)
Lemma pushed_recorded fresh successor store s f t u seq current :
  FoldFacts.pushed fresh (folder s) t f u -> BurstFoldUpdate.no_delta u = false ->
  in_step store s current -> unused store fresh successor ->
  exists store', apply_all store seq (EpisodePayload.OperationBurstRecorded <$>
      option_list (BurstFoldUpdate.closed u) ++ [BurstFoldUpdate.current u]) = Ok store' /\
    episodes store' = episodes store /\ episode_revisions store' = episode_revisions store /\
    OperationBurstFolder.current f = Some (BurstFoldUpdate.current u) /\
    fst <$> operation_bursts store' !! OperationBurst.operation_burst_id (BurstFoldUpdate.current u)
      = Some (BurstFoldUpdate.current u) /\
    (forall d, BurstFoldUpdate.closed u = Some d ->
       fst <$> operation_bursts store' !! OperationBurst.operation_burst_id d = Some d).
Proof.
  intros H Hn Hin [_ U2 U3 U4 U5].
  destruct H as [c Hc|c next f' Hc _ _ Hs _ _ _ Hr ->|closed next f' mg Hcl Hb ->]; [done|..].
  - destruct (burst_successor_id _ _ Hs) as (Hid & Hrev & _). pose proof (step_burst _ _ _ Hin c Hc) as Hst.
    cbn [BurstFoldUpdate.closed BurstFoldUpdate.current].
    change (EpisodePayload.OperationBurstRecorded <$> option_list None ++ [next])
      with [EpisodePayload.OperationBurstRecorded next].
    cbn [apply_all apply].
    unfold record_operation_burst. erewrite record_next; [|by rewrite Hr|by rewrite Hid|done|done].
    cbn. eexists. split; [done|]. cbn. split_and!; [done..| |done]. by rewrite lookup_insert_eq.
  - apply FoldFacts.new_burst_inv in Hb as (Hv & _ & _ & _ & Hid & Hr & Hg & Hp).
    destruct (OperationBurstFolder.current (folder s)) as [c|] eqn:Ec.
    + destruct Hcl as (d & -> & Hd). apply FoldFacts.close_burst_inv in Hd as (Hs & _ & _ & Hrd & _).
      destruct (burst_successor_id _ _ Hs) as (Hid' & Hrev & _). pose proof (step_burst _ _ _ Hin c Ec) as Hst.
      assert (OperationBurst.operation_burst_id d <> fresh_burst fresh) as Hne.
      { intros E. rewrite <-Hid', E, U4 in Hst. done. }
      cbn [BurstFoldUpdate.closed BurstFoldUpdate.current].
      change (EpisodePayload.OperationBurstRecorded <$> option_list (Some d) ++ [next])
        with [EpisodePayload.OperationBurstRecorded d; EpisodePayload.OperationBurstRecorded next].
      cbn [apply_all apply].
      unfold record_operation_burst at 1.
      erewrite record_next; [|by rewrite Hrd|by rewrite Hid'|done|done]. cbn [rbind].
      unfold record_operation_burst.
      rewrite record_first; [|by rewrite Hr, Hrd; cbn; rewrite lookup_insert_ne
        |by rewrite Hid; cbn; rewrite lookup_insert_ne|done..].
      cbn. eexists. split; [done|]. cbn. split_and!; [done..| |].
      * by rewrite lookup_insert_eq.
      * intros x [= <-]. rewrite Hid, lookup_insert_ne by done. by rewrite lookup_insert_eq.
    + subst closed. cbn [BurstFoldUpdate.closed BurstFoldUpdate.current].
      change (EpisodePayload.OperationBurstRecorded <$> option_list None ++ [next])
        with [EpisodePayload.OperationBurstRecorded next].
      cbn [apply_all apply].
      unfold record_operation_burst. rewrite record_first; [|by rewrite Hr|by rewrite Hid|done..].
      cbn. eexists. split; [done|]. cbn. split_and!; [done..| |done]. by rewrite lookup_insert_eq.
Qed.

Lemma apply_all_app store seq l m :
  apply_all store seq (l ++ m)
  = (let? s := apply_all store seq l in apply_all s (seq + N.of_nat (length l)) m).
Proof.
  revert store seq. induction l as [|p l IH]; intros store seq; cbn [app apply_all].
  - cbn. by rewrite N.add_0_r.
  - destruct (apply store p seq) as [s|]; [|done]. cbn [rbind]. rewrite IH.
    by replace (seq + 1 + N.of_nat (length l))%N with (seq + N.of_nat (length (p :: l)))%N by (cbn [length]; lia).
Qed.

(** Closing the burst that a push has just started is refused. *)
Lemma closing_refused fresh successor store s f t u last seq current rest rev :
  FoldFacts.pushed fresh (folder s) t f u -> BurstFoldUpdate.no_delta u = false ->
  objective (ActivityToken.boundary_evidence t) = true ->
  in_step store s current -> unused store fresh successor ->
  operation_burst_revisions store !! rev = None -> rev <> fresh_revision fresh ->
  OperationBurst.validate_successor (BurstFoldUpdate.current u) last = Ok tt ->
  OperationBurst.revision_id last = rev ->
  (let? s := apply_all store seq (EpisodePayload.OperationBurstRecorded <$>
       option_list (BurstFoldUpdate.closed u) ++ [last]) in rest s) = Err (A := EpisodeStore) StoreError.StoreCorrupt.
Proof.
  intros H Hn Hob Hin [_ U2 _ U4 _] Hrev Hne Hs Hlr.
  destruct (burst_successor_id _ _ Hs) as (Hid & _ & Hpre).
  destruct H as [c Hc|c next f' Hc _ He _ _ _ _ _ ->|closed next f' mg Hcl Hb ->]; [done| |].
  { rewrite He in Hob. done. }
  apply FoldFacts.new_burst_inv in Hb as (_ & _ & _ & _ & Hidn & _).
  cbn [BurstFoldUpdate.closed BurstFoldUpdate.current] in *. rewrite Hidn in Hid.
  destruct (OperationBurstFolder.current (folder s)) as [c|] eqn:Ec.
  - destruct Hcl as (d & -> & Hd). apply FoldFacts.close_burst_inv in Hd as (Hsd & _ & _ & Hrd & _).
    destruct (burst_successor_id _ _ Hsd) as (Hid' & Hrev' & _). pose proof (step_burst _ _ _ Hin c Ec) as Hst.
    assert (OperationBurst.operation_burst_id d <> fresh_burst fresh) as Hne'.
    { intros E. rewrite <-Hid', E, U4 in Hst. done. }
    change (EpisodePayload.OperationBurstRecorded <$> option_list (Some d) ++ [last])
      with [EpisodePayload.OperationBurstRecorded d; EpisodePayload.OperationBurstRecorded last].
    cbn [apply_all apply]. unfold record_operation_burst at 1.
    erewrite record_next; [|by rewrite Hrd|by rewrite Hid'|done|done]. cbn [rbind].
    unfold record_operation_burst. erewrite record_unknown; [done| | |exact Hpre].
    + rewrite Hlr, Hrd. cbn. by rewrite lookup_insert_ne.
    + rewrite Hid. cbn. by rewrite lookup_insert_ne.
  - subst closed. change (EpisodePayload.OperationBurstRecorded <$> option_list None ++ [last])
      with [EpisodePayload.OperationBurstRecorded last].
    cbn [apply_all apply]. unfold record_operation_burst.
    erewrite record_unknown; [done|by rewrite Hlr|by rewrite Hid|exact Hpre].
Qed.

End ProtocolFacts.

Module ProtocolTheorems.
Import IncrementalSegmenter EpisodeStore EpisodeCommands ProtocolFacts.

(** C8: a prepared transition can always be committed and acknowledged.  Take a
    segmenter that agrees with the store and the step it prepares for an
    observation.  When [save_segmentation_update] makes a command of that step,
    the projection accepts every event of it, on any later view of the resulting
    store the segmenter acknowledges the step, and it then agrees with the store
    again, so that the next observation can be prepared. *)
Theorem commit_then_acknowledge fresh successor s state op facts s1 step store current context
    receipts command seq :
  pending s = None -> in_step store s current -> unused store fresh successor ->
  observe fresh successor s state op facts = Ok (s1, SegmentOutcome.Delta step) ->
  save_segmentation_update context current step receipts = Ok command ->
  exists store', apply_all store seq (payloads command) = Ok store' /\
  forall later, view_of store' later -> (committed_frontier s < SegmentationCurrentState.frontier later)%N ->
  exists s2 next, acknowledge_committed s1 later step = Ok s2 /\
    pending s2 = None /\ closed s2 = false /\ in_step store' s2 next.
Proof.
  intros Hp Hin Hu Ho Hs. destruct (observe_inv _ _ _ _ _ _ _ _ Hp Ho) as (f & d & Hf & Hn & Hd & He & -> & Hcl).
  unfold save_segmentation_update in Hs. apply rbind_ok in Hs as (next & Hr & Hs).
  apply BindingTheorems.raise_ok, runtime_command_payloads in Hs. cbv zeta in Hs. rewrite Hn in Hs.
  pose proof (revise_inv _ _ _ _ Hr) as (Hv & Hid & Hrev & Hpr & Hw & Hb & Hnc & Hcand & Hlc & Hin').
  apply FoldFacts.push_inv in Hf.
  destruct (pushed_recorded _ _ _ _ _ _ _ seq _ Hf Hn Hin Hu) as (store1 & H1 & Hep & Her & Hcur & Hst & Hclo).
  rewrite Hs, apply_all_app, H1. cbn [rbind apply_all apply].
  destruct (EpisodeFacts.validate_successor_inv _ _ Hv) as (_ & _ & _ & _ & Hne & _).
  unfold record_episode. erewrite record_next; [|by rewrite Her, Hrev, He; apply Hu
    |by rewrite Hep, Hid, (step_episode_id _ _ _ Hin); apply Hin|by apply not_eq_sym|done].
  cbn [rbind fst snd]. eexists. split; [done|]. intros later [Hve Hvb] Hfr. cbn in Hve, Hvb.
  rewrite Hid, (step_episode_id _ _ _ Hin) in Hve.
  unfold acknowledge_committed. cbn [pending set_pending ok_or rbind PendingTransition.step
    committed_frontier episode_id].
  rewrite (bool_decide_eq_true_2 (step = step)) by done. destruct (N.leb_spec (SegmentationCurrentState.frontier later)
    (committed_frontier s)) as [|_]; [lia|]. cbn [negb orb guard rbind].
  rewrite Hve, lookup_insert_eq. cbn [fmap option_fmap option_map fst ok_or rbind].
  rewrite Hcand. cbn [ok_or rbind]. rewrite Hvb.
  unfold IncrementalSegmentationStep.current_burst in *. rewrite Hst. cbn [ok_or rbind].
  rewrite (bool_decide_eq_false_2 (DetectorUpdate.boundary_status _ = _)) by done.
  assert (committed (set_pending s (Some (PendingTransition.mk step f d))) later step next
    (BurstFoldUpdate.current (IncrementalSegmentationStep.burst step)) (WorkEpisode.boundary_candidate next) = true)
    as ->.
  { unfold committed. cbv zeta. rewrite (bool_decide_eq_false_2 (DetectorUpdate.boundary_status _ = _)) by done.
    unfold IncrementalSegmentationStep.current_burst, IncrementalSegmentationStep.closed_burst,
      IncrementalSegmentationStep.step_watermark. rewrite !andb_true_iff, !bool_decide_eq_true, N.eqb_eq.
    cbn [committed_episode_revision_id set_pending]. rewrite <-(step_revision _ _ _ Hin).
    split_and!; try done; [by apply contains_true|].
    destruct (BurstFoldUpdate.closed _) as [c|] eqn:Ec; cbn [is_none_or]; [|done].
    rewrite Hvb, (Hclo c eq_refl). cbn. by rewrite bool_decide_eq_true_2. }
  cbn [negb guard rbind]. eexists _, next. split; [done|]. cbn [pending closed].
  split; [done|]. split; [done|].
  destruct (DetectorFacts.push_update _ _ _ _ _ Hd) as (Hbs & _).
  split; cbn -[lookup insert fmap]; [by rewrite Hid, (step_episode_id _ _ _ Hin), lookup_insert_eq
    |by rewrite Hid; apply Hin|done| |by rewrite <-Hbs].
  intros c Hc. by simplify_eq.
Qed.

(** A confirmed boundary cannot be committed.  The token that confirms a
    boundary carries explicit evidence, so it starts a burst of its own;
    [close_episode_and_optionally_open] records only the closed, second revision
    of that burst, and the projection refuses a burst whose first recorded
    revision is not the first.  Every command that closes an episode with the
    step that confirmed it is refused. *)
Theorem confirmed_close_refused fresh successor s state op facts s1 step store current context
    fresh_burst_rev fresh_ws_rev workstream episode closed_episode replacement attempts bindings command seq :
  pending s = None -> in_step store s current -> unused store fresh successor ->
  operation_burst_revisions store !! fresh_burst_rev = None -> fresh_burst_rev <> fresh_revision fresh ->
  observe fresh successor s state op facts = Ok (s1, SegmentOutcome.Delta step) ->
  DetectorUpdate.boundary_status (IncrementalSegmentationStep.detector step) = BoundaryStatus.Confirmed ->
  close_episode_and_optionally_open fresh_burst_rev fresh_ws_rev context workstream episode
    closed_episode (Some step) replacement attempts bindings = Ok command ->
  apply_all store seq (payloads command) = Err StoreError.StoreCorrupt.
Proof.
  intros Hp Hin Hu Hfr Hfne Ho Hc Hcl.
  destruct (observe_inv _ _ _ _ _ _ _ _ Hp Ho) as (f & d & Hf & Hn & Hd & _ & _ & Hopen).
  destruct (DetectorFacts.push_update _ _ _ _ _ Hd) as (Hbs & _).
  assert (objective (ActivityToken.boundary_evidence (IncrementalSegmentationStep.token step)) = true) as Hobj.
  { eapply DetectorFacts.push_confirms; [exact Hd|by eapply step_open|congruence]. }
  apply FoldFacts.push_inv in Hf.
  unfold close_episode_and_optionally_open in Hcl. apply bind_unit_ok in Hcl as [_ Hcl].
  apply bind_unit_ok in Hcl as [_ Hcl]. apply rbind_ok in Hcl as (bursts & Hb & Hcl).
  apply bind_unit_ok in Hcl as [_ Hcl]. apply rbind_ok in Hcl as (w & _ & Hcl).
  cbv zeta in Hcl. apply bind_unit_ok in Hcl as [_ Hcl]. apply runtime_command_payloads in Hcl.
  rewrite Hcl, apply_all_app. clear Hcl.
  unfold closing_bursts in Hb. cbv zeta in Hb. apply bind_unit_ok in Hb as [_ Hb].
  apply rbind_ok in Hb as (last & Hl & Hb). injection Hb as <-. apply map_err_ok in Hl.
  apply FoldFacts.close_burst_inv in Hl as (Hls & _ & _ & Hlr & _).
  by eapply closing_refused; [exact Hf|exact Hn|exact Hobj|exact Hin|exact Hu|exact Hfr|exact Hfne|exact Hls|exact Hlr].
Qed.

End ProtocolTheorems.
