(* ===== verification/EpisodeWitnesses.v ===== *)
(** * A concrete episode

    A small store (one lane, one workstream, a few operations) on which the
    segmentation theorems are applied, and two runs that show where the
    implementation gets stuck. *)

From S2P Require Import Prelude Order Collections Text Ids Lane Journal Attempt AttemptOps.
From S2P Require Import Repository RepositoryStore Work WorkOps Evidence Episode Segmentation SegmentationFacts EpisodeOps.

Module Samples.

Definition ok {E A} (m : result E A) : option A := match m with Ok a => Some a | Err _ => None end.

Definition ep : WorkEpisodeId := mk_id (mk_uuid 100).
Definition ws : WorkstreamId := mk_id (mk_uuid 3).
Definition op (n : N) : OperationId := mk_id (mk_uuid (200 + n)).
Definition occ (n : N) : HostOccurrenceId := from_digest [N_byte n].
Definition obs (n : N) : SourceObservationId := from_digest [N_byte n].

Definition contract : PhaseContract :=
  PhaseContract.mk "goal" PhaseKind.Implement "label" [] [] "boundary" "transition".

Definition idle_stream : Workstream :=
  Workstream.mk ws (rid 4) None (mk_id (mk_uuid 1)) None [] None [] None [] WorkstreamStatus.Active
    "root" "goal" "family" "hypothesis" "boundary" contract None [] 6.
Definition stream : Workstream :=
  Workstream.set_active idle_stream (rid 5) (Some (rid 4)) (Some ep) contract 10.

Definition base : WorkEpisode := Eval vm_compute in
  get (ok (EpisodeCommands.new_episode ep (rid 101) idle_stream None 10)).

Definition lane : ExecutionLane := Eval vm_compute in
  ExecutionLane.with_operations (get LaneTheorems.rev1).1 [op 1; op 2; op 3].
Definition receipt : CaptureReceipt := Eval vm_compute in (get LaneTheorems.rev1).2.

Definition operation (n : N) : Operation :=
  Operation.mk (op n) (occ n) (Some (ExecutionLane.execution_lane_id lane)) OperationKind.Mutate [obs n] []
    PairingState.UnmatchedIntent [] [] 1 1 None None.
Definition occurrence (n : N) : HostOccurrence :=
  HostOccurrence.mk (occ n) None None None None None None None CorrelationStrength.Exact [obs n] []
    NormalizationState.SingleSource PairingState.UnmatchedIntent None 1 1 None.
Definition binding (n : N) : WorkBindingRevision :=
  WorkBindingRevision.mk (mk_id (mk_uuid (300 + n))) (op n) 1 None
    (PrimaryWorkBinding.mk (Some (mk_id (mk_uuid 1))) (Some ws) (Some ep) None None None)
    [] [] AssignmentStatus.Resolved ["evidence"%string] 1.

Definition on_ops {V} (key : N -> OperationId) (f : N -> V) : gmap OperationId V :=
  list_to_map ((fun n => (key n, f n)) <$> [1; 2; 3]%N).

(** The view of a store at a frontier. *)
Definition state_of (frontier : N) (store : EpisodeStore) : SegmentationCurrentState :=
  SegmentationCurrentState.mk
    (SegmentationCurrentView.mk frontier (list_to_map ((fun n => (occ n, occurrence n)) <$> [1; 2; 3]%N))
       (on_ops op operation) (on_ops op binding) {[ExecutionLane.execution_lane_id lane := lane]}
       {[CaptureReceipt.capture_receipt_revision_id receipt := receipt]} ∅ ∅ ∅
       (fst <$> EpisodeStore.episodes store) {[ws := stream]})
    (OperationBurstCurrentView.mk frontier (fst <$> EpisodeStore.operation_bursts store)).

Lemma view_of_state_of frontier store : ProtocolFacts.view_of store (state_of frontier store).
Proof. split; intros id; apply lookup_fmap. Qed.

(** The [n]-th observation, at watermark [10 + n]. *)
Definition facts (n : N) (phase : option PhaseKind) (evidence : BoundaryEvidence) : SegmentationFacts :=
  SegmentationFacts.mk n (10 + n) "family" OperationStateDelta.Modified None OperationVerifierDelta.None
    phase evidence [obs n].

Definition fresh (n : N) : FreshIds :=
  Build_FreshIds (rid (400 + n)) (mk_id (mk_uuid (500 + n))) (rid (600 + n)).

Definition observe (s : IncrementalSegmenter) (st : SegmentationCurrentState) (n : N)
    (phase : option PhaseKind) (evidence : BoundaryEvidence) :=
  IncrementalSegmenter.observe (fresh n) (rid (700 + n)) s st (op n) (facts n phase evidence).

Definition delta {E} (r : result E (IncrementalSegmenter * SegmentOutcome))
  : option (IncrementalSegmenter * IncrementalSegmentationStep) :=
  match r with
  | Ok (s, SegmentOutcome.Delta step) => Some (s, step)
  | _ => None
  end.

(** ** The first observation: another phase, with explicit evidence *)

Definition store0 : EpisodeStore := EpisodeStore.mk {[ep := (base, 1%N)]} {[rid 101 := (base, 1%N)]} ∅ ∅.
Definition state0 : SegmentationCurrentState := state_of 1 store0.
Definition s0 : IncrementalSegmenter := Eval vm_compute in get (ok (IncrementalSegmenter.new state0 ep)).
Definition verify := Some PhaseKind.Verify.

Definition prepared1 := Eval vm_compute in
  get (delta (observe s0 state0 1 verify BoundaryEvidence.PhaseTransition)).
Definition command1 : JournalCommand EpisodePayload := Eval vm_compute in
  get (ok (EpisodeCommands.save_segmentation_update context0 base prepared1.2 [receipt])).
Definition store1 : EpisodeStore := Eval vm_compute in
  get (ok (EpisodeStore.apply_all store0 2 (payloads command1))).

Lemma in_step0 : ProtocolFacts.in_step store0 s0 base.
Proof. split; [reflexivity..|intros c; discriminate|intros _; discriminate]. Qed.

Lemma unused1 : ProtocolFacts.unused store0 (fresh 1) (rid 701).
Proof. split; [vm_compute; reflexivity..|discriminate]. Qed.

Lemma commit_then_acknowledge_witness :
  exists store' s2, EpisodeStore.apply_all store0 2 (payloads command1) = Ok store' /\
  IncrementalSegmenter.acknowledge_committed prepared1.1 (state_of 9 store') prepared1.2 = Ok s2.
Proof.
  destruct (ProtocolTheorems.commit_then_acknowledge (fresh 1) (rid 701) s0 state0 (op 1)
    (facts 1 verify BoundaryEvidence.PhaseTransition) prepared1.1 prepared1.2 store0 base context0 [receipt]
    command1 2 eq_refl in_step0 unused1 ltac:(vm_compute; reflexivity) ltac:(vm_compute; reflexivity))
    as (store' & Hs & H).
  destruct (H (state_of 9 store') (view_of_state_of 9 store') eq_refl) as (s2 & _ & Ha & _).
  exists store', s2. split; [exact Hs|exact Ha].
Defined.

(** ** The second observation confirms the boundary, and cannot be committed *)

Definition s1 : IncrementalSegmenter := Eval vm_compute in
  get (ok (IncrementalSegmenter.acknowledge_committed prepared1.1 (state_of 9 store1) prepared1.2)).
Definition next1 : WorkEpisode := Eval vm_compute in
  (get (EpisodeStore.episodes store1 !! ep)).1.
Definition prepared2 := Eval vm_compute in
  get (delta (observe s1 (state_of 9 store1) 2 verify BoundaryEvidence.ObjectiveOutcomeClosure)).
Definition closed2 : WorkEpisode := Eval vm_compute in
  get (ok (EpisodeCommands.confirm_episode_boundary next1 prepared2.2 None [receipt])).
Definition command2 : JournalCommand EpisodePayload := Eval vm_compute in
  get (ok (EpisodeCommands.close_episode_and_optionally_open (rid 801) (rid 802) context0 stream next1
             closed2 (Some prepared2.2) None [] [])).

Lemma in_step1 : ProtocolFacts.in_step store1 s1 next1.
Proof.
  split; [vm_compute; reflexivity..| |intros _; discriminate].
  intros c E. vm_compute in E. injection E as <-. vm_compute. reflexivity.
Qed.

Lemma unused2 : ProtocolFacts.unused store1 (fresh 2) (rid 702).
Proof. split; [vm_compute; reflexivity..|discriminate]. Qed.

Lemma confirmed_close_refused_witness :
  DetectorUpdate.boundary_status (IncrementalSegmentationStep.detector prepared2.2)
    = BoundaryStatus.Confirmed /\
  EpisodeStore.apply_all store1 10 (payloads command2) = Err StoreError.StoreCorrupt.
Proof.
  split; [reflexivity|].
  apply (ProtocolTheorems.confirmed_close_refused (fresh 2) (rid 702) s1 (state_of 9 store1) (op 2)
    (facts 2 verify BoundaryEvidence.ObjectiveOutcomeClosure) prepared2.1 prepared2.2 store1 next1 context0
    (rid 801) (rid 802) stream next1 closed2 None [] [] command2 10).
  - reflexivity.
  - exact in_step1.
  - exact unused2.
  - vm_compute. reflexivity.
  - discriminate.
  - vm_compute. reflexivity.
  - vm_compute. reflexivity.
  - vm_compute. reflexivity.
Defined.

(** ** A candidate whose burst has grown is not restored *)

Definition grown1 := Eval vm_compute in
  get (delta (observe s0 state0 1 verify BoundaryEvidence.None)).
Definition grown_store1 : EpisodeStore := Eval vm_compute in
  get (ok (EpisodeStore.apply_all store0 2 (payloads (get (ok
    (EpisodeCommands.save_segmentation_update context0 base grown1.2 [receipt])))))).
Definition grown_s1 : IncrementalSegmenter := Eval vm_compute in
  get (ok (IncrementalSegmenter.acknowledge_committed grown1.1 (state_of 9 grown_store1) grown1.2)).
Definition grown2 := Eval vm_compute in
  get (delta (observe grown_s1 (state_of 9 grown_store1) 2 verify BoundaryEvidence.None)).
Definition grown_store2 : EpisodeStore := Eval vm_compute in
  get (ok (EpisodeStore.apply_all grown_store1 10 (payloads (get (ok
    (EpisodeCommands.save_segmentation_update context0
       (get (EpisodeStore.episodes grown_store1 !! ep)).1 grown2.2 [receipt])))))).

(** The first restart succeeds.  After one more token of the same burst, which is
    committed and acknowledged like the first, it does not: the candidate keeps
    the watermark of the token that proposed it, the burst has moved on. *)
Lemma restore_loses_grown_candidate :
  is_ok (IncrementalSegmenter.restore (state_of 9 grown_store1) ep) = true /\
  is_ok (IncrementalSegmenter.acknowledge_committed grown2.1 (state_of 20 grown_store2) grown2.2) = true /\
  IncrementalSegmenter.restore (state_of 20 grown_store2) ep = Err DetectorError.Ineligible.
Proof. split_and!; vm_compute; reflexivity. Qed.

(** ** The remaining theorems on the sample *)

Lemma integer_sqrt_correct_witness :
  integer_sqrt 18446744073709551615 = 4294967295%N /\
  sqrt_loop 33 18446744073709551615 1 4294967295 = Some 4294967295%N.
Proof.
  destruct (integer_sqrt_correct 18446744073709551615) as [H1 H2]; [vm_compute; discriminate|].
  split; [rewrite H1; vm_compute; reflexivity|]. exact (H2 ltac:(vm_compute; discriminate)).
Defined.

Lemma episode_chain_invariant_witness :
  EpisodeFacts.same_episode base next1 /\ WorkEpisode.revision_generation next1 = 2%N.
Proof.
  assert (chain WorkEpisode.validate_successor 1 base next1) as H.
  { eapply chain_step; [apply chain_refl|vm_compute; reflexivity]. }
  split; [exact (proj1 (EpisodeTheorems.episode_chain_invariant 1 base next1 H))|].
  exact (proj1 (proj2 (proj2 (proj2 (proj2 (EpisodeTheorems.episode_chain_invariant 1 base next1 H)))))).
Defined.

Definition token (n : N) (phase : option PhaseKind) (evidence : BoundaryEvidence) : option ActivityToken :=
  ok (ActivityToken.compile_checked (SegmentationCurrentState.authority state0) (op n) ep
        (facts n phase evidence)).
Definition token1 : ActivityToken := Eval vm_compute in get (token 1 None BoundaryEvidence.None).
Definition token2 : ActivityToken := Eval vm_compute in get (token 2 None BoundaryEvidence.None).
Definition token3 : ActivityToken := Eval vm_compute in get (token 3 verify BoundaryEvidence.PhaseTransition).

(** Two tokens of one burst, a repetition and a token of another burst. *)
Definition inputs : list (FreshIds * ActivityToken) :=
  [(fresh 1, token1); (fresh 2, token2); (fresh 2, token2); (fresh 3, token3)].
Definition folded := Eval vm_compute in get (ok (FoldFacts.fold_all OperationBurstFolder.new inputs)).

Lemma burst_fold_conserves_witness :
  FoldFacts.members_of (omap BurstFoldUpdate.closed folded.2
    ++ option_list (OperationBurstFolder.current folded.1))
  = member_from_token <$> [token1; token2; token3].
Proof.
  exact (proj1 (FoldTheorems.burst_fold_conserves inputs folded.1 folded.2 ltac:(vm_compute; reflexivity))).
Defined.

Definition pushed1 := Eval vm_compute in
  get (ok (OperationBurstFolder.push (fresh 1) OperationBurstFolder.new token1)).

Lemma burst_push_again_witness :
  OperationBurstFolder.push (fresh 2) pushed1.1 token1
  = Ok (pushed1.1, BurstFoldUpdate.mk (BurstFoldUpdate.current pushed1.2) None false false true).
Proof.
  exact (FoldTheorems.burst_push_again (fresh 1) (fresh 2) OperationBurstFolder.new token1 pushed1.1 pushed1.2
    ltac:(vm_compute; reflexivity) eq_refl).
Defined.

(** The detector of the sample segmenter after both observations. *)
Definition detector2 : SegmentationDetector := Eval vm_compute in
  PendingTransition.next_detector (get (IncrementalSegmenter.pending prepared2.1)).

Lemma run2 :
  DetectorFacts.run base [IncrementalSegmentationStep.token prepared2.2;
    IncrementalSegmentationStep.token prepared1.2] detector2.
Proof.
  eapply (DetectorFacts.run_push _ _ (IncrementalSegmenter.detector s1) _
    (IncrementalSegmentationStep.burst prepared2.2)); [|vm_compute; reflexivity].
  eapply (DetectorFacts.run_push _ _ (IncrementalSegmenter.detector s0) _
    (IncrementalSegmentationStep.burst prepared1.2)); [|vm_compute; reflexivity].
  apply DetectorFacts.run_new. vm_compute. reflexivity.
Qed.

Lemma boundary_confirmed_twice_witness :
  exists t1 t2, ActivityToken.source_watermark t2 = 12%N /\
    (ActivityToken.source_watermark t1 < ActivityToken.source_watermark t2)%N.
Proof.
  destruct (DetectorTheorems.boundary_confirmed_twice base _ detector2 run2 eq_refl)
    as (t1 & t2 & _ & _ & _ & _ & _ & Hlt & Hw).
  exists t1, t2. split; [exact Hw|exact Hlt].
Defined.

Lemma detector_bounded_witness :
  SegmentationDetector.boundary_status detector2 = BoundaryStatus.Confirmed /\
  SegmentationDetector.confirmation_watermark detector2 <> 0%N.
Proof.
  split; [reflexivity|].
  destruct (DetectorTheorems.detector_bounded base _ detector2 run2) as (_ & _ & _ & _ & H & _).
  exact (proj1 H eq_refl).
Defined.

End Samples.
