(* ===== verification/Recall.v ===== *)
(** * Recall needs and future cues (crates/evertrace-domain/src/recall.rs)

    The records of the recall layer: the plan of what to remind an agent of, the
    need that carries it through delivery, retrieval and settlement, the events
    of the recall ledger, the cue handed to a host, and the compiled future cue
    contracts with their three conditions.  Needs, plans, cues and contracts are
    sealed by SHA-256 digests of canonical encodings. *)

From S2P Require Import Prelude Order Collections Text Canonical Ids Digests Attempt Work Episode Constraint Atom.

Definition FUTURE_CUE_FIELD_REGISTRY_VERSION : N := 1.
Definition FUTURE_CUE_COMPILER_VERSION : N := 1.
Definition MAX_RECALL_REFS : nat := 32.
Definition MAX_RECALL_TEXT : N := 512.

(** [!value.is_empty() && value.len() <= MAX_RECALL_TEXT && !value.chars().any(char::is_control)]. *)
Definition recall_text (value : string) : bool :=
  negb (str_is_empty value) && (str_len value <=? MAX_RECALL_TEXT)%N
  && negb (any is_control (chars value)).

(** The same without the test for control characters. *)
Definition recall_bytes (value : string) : bool :=
  negb (str_is_empty value) && (str_len value <=? MAX_RECALL_TEXT)%N.

Definition recall_refs {A} `{!Ord A} (values : list A) : bool :=
  (length values <=? MAX_RECALL_REFS)%nat && windows2_all ltb_ord values.

Module RecallDeliveryState.
Inductive RecallDeliveryState :=
| Detected
| Scheduled
| ClaimedForBoundary
| Emitted
| HostPresented
| PresentationUnknown
| FailedPreEmit.
#[export] Instance eq_dec : EqDecision RecallDeliveryState.
Proof. solve_decision. Defined.
End RecallDeliveryState.
Abbreviation RecallDeliveryState := RecallDeliveryState.RecallDeliveryState.
Export (hints) RecallDeliveryState.

Module RecallAgentResponse.
Inductive RecallAgentResponse :=
| NotRetrieved
| RetrievalClaimed
| RetrievalReturned
| RetrievalUnknown
| Adopted
| Ignored
| Dismissed
| Unobservable.
#[export] Instance eq_dec : EqDecision RecallAgentResponse.
Proof. solve_decision. Defined.
End RecallAgentResponse.
Abbreviation RecallAgentResponse := RecallAgentResponse.RecallAgentResponse.
Export (hints) RecallAgentResponse.

Module RecallObligationState.
Inductive RecallObligationState :=
| Active
| Resolved
| Superseded
| Canceled
| Expired.
#[export] Instance eq_dec : EqDecision RecallObligationState.
Proof. solve_decision. Defined.
End RecallObligationState.
Abbreviation RecallObligationState := RecallObligationState.RecallObligationState.
Export (hints) RecallObligationState.

Module PresentationAttemptState.
Inductive PresentationAttemptState :=
| ClaimedForBoundary
| FailedPreEmit
| Emitted
| HostPresented
| PresentationUnknown.
#[export] Instance eq_dec : EqDecision PresentationAttemptState.
Proof. solve_decision. Defined.
End PresentationAttemptState.
Abbreviation PresentationAttemptState := PresentationAttemptState.PresentationAttemptState.
Export (hints) PresentationAttemptState.

Module RetrievalOutcomeState.
Inductive RetrievalOutcomeState :=
| Claimed
| Returned
| Unknown.
#[export] Instance eq_dec : EqDecision RetrievalOutcomeState.
Proof. solve_decision. Defined.
End RetrievalOutcomeState.
Abbreviation RetrievalOutcomeState := RetrievalOutcomeState.RetrievalOutcomeState.
Export (hints) RetrievalOutcomeState.

Module TriggerFamily.
Inductive TriggerFamily :=
| ExplicitOrRecovery
| ProspectiveObligation
| RuntimeAnomaly.
#[export] Instance eq_dec : EqDecision TriggerFamily.
Proof. solve_decision. Defined.
End TriggerFamily.
Abbreviation TriggerFamily := TriggerFamily.TriggerFamily.
Export (hints) TriggerFamily.

Definition TriggerFamily_as_str (self : TriggerFamily) : string :=
  match self with
  | TriggerFamily.ExplicitOrRecovery => "explicit_or_recovery"
  | TriggerFamily.ProspectiveObligation => "prospective_obligation"
  | TriggerFamily.RuntimeAnomaly => "runtime_anomaly"
  end.

Module FutureCueDiagnostic.
Inductive FutureCueDiagnostic :=
| InvalidSource
| SourceNotCurrent
| SourceInactive
| SourceNotNormative
| AuthorityUnverified
| ProjectPolicyProofUnavailable
| GlobalSupportUnavailable
| UnstructuredCondition
| FiniteValidityUnsupported
| FieldNotAllowed
| SuppressResolveSourceUnavailable.
#[export] Instance eq_dec : EqDecision FutureCueDiagnostic.
Proof. solve_decision. Defined.
End FutureCueDiagnostic.
Abbreviation FutureCueDiagnostic := FutureCueDiagnostic.FutureCueDiagnostic.
Export (hints) FutureCueDiagnostic.

(** ** Plans and trigger states *)

Module RecallTriggerState.
Record RecallTriggerState := mk {
  phase_kind : PhaseKind;
  verifier_state : CheckpointVerifierState;
  attempt_ids : list AttemptId;
  worktree_snapshot_id : option WorktreeSnapshotId;
  binding_revision_id : option WorkBindingRevisionId;
  scope_effect_refs : list ScopeEffectId;
}.
#[export] Instance eq_dec : EqDecision RecallTriggerState.
Proof. solve_decision. Defined.
Definition validate (self : RecallTriggerState) : bool :=
  recall_refs (attempt_ids self) && recall_refs (scope_effect_refs self).
End RecallTriggerState.
Abbreviation RecallTriggerState := RecallTriggerState.RecallTriggerState.
Export (hints) RecallTriggerState.

Module RecallPlan.
Record RecallPlan := mk {
  reason : string;
  normative_constraint_refs : list string;
  relevant_episode_revision : option RevisionId;
  applicable_procedure_revision : option RevisionId;
  open_loops : list string;
  stale_delivered_objects : list string;
  supporting_evidence_refs : list string;
}.
#[export] Instance eq_dec : EqDecision RecallPlan.
Proof. solve_decision. Defined.
Definition validate (self : RecallPlan) : bool :=
  let lists := [normative_constraint_refs self; open_loops self;
                stale_delivered_objects self; supporting_evidence_refs self] in
  recall_text (reason self)
  && all (fun values => recall_refs values && all recall_text values) lists
  && (negb (is_empty (normative_constraint_refs self))
      || is_some (relevant_episode_revision self)
      || negb (is_empty (open_loops self))
      || negb (is_empty (stale_delivered_objects self))).
End RecallPlan.
Abbreviation RecallPlan := RecallPlan.RecallPlan.
Export (hints) RecallPlan.

Section plan_canonical.
Import RecallPlan.

Definition plan_canonical `{L : UuidLib} (plan : RecallPlan) : CanonicalValue :=
  let strings (values : list string) := texts id values in
  Sequence
    [CString (reason plan);
     strings (normative_constraint_refs plan);
     null_or rid_display (applicable_procedure_revision plan);
     null_or rid_display (relevant_episode_revision plan);
     strings (open_loops plan);
     strings (stale_delivered_objects plan);
     strings (supporting_evidence_refs plan)].

Definition plan_fingerprint `{L : UuidLib} `{SHA : Sha256} (self : RecallPlan)
  : result CanonicalError (list byte) :=
  sha256 sha256_digest "recall_plan_v1" 1 (plan_canonical self).
End plan_canonical.

Definition phase_str (phase : PhaseKind) : string :=
  match phase with
  | PhaseKind.Orient => "orient"
  | PhaseKind.Inspect => "inspect"
  | PhaseKind.Reproduce => "reproduce"
  | PhaseKind.Diagnose => "diagnose"
  | PhaseKind.Design => "design"
  | PhaseKind.Implement => "implement"
  | PhaseKind.Verify => "verify"
  | PhaseKind.Execute => "execute"
  | PhaseKind.Analyze => "analyze"
  | PhaseKind.Recover => "recover"
  | PhaseKind.Deliver => "deliver"
  | PhaseKind.Unknown => "unknown"
  end.

Definition verifier_str (verifier : CheckpointVerifierState) : string :=
  match verifier with
  | CheckpointVerifierState.Unverified => "unverified"
  | CheckpointVerifierState.Passed => "passed"
  | CheckpointVerifierState.Failed => "failed"
  | CheckpointVerifierState.Inconclusive => "inconclusive"
  end.

Definition trigger_state_canonical `{L : UuidLib} (state : RecallTriggerState) : CanonicalValue :=
  Sequence
    [CString (phase_str (RecallTriggerState.phase_kind state));
     CString (verifier_str (RecallTriggerState.verifier_state state));
     texts id_display (RecallTriggerState.attempt_ids state);
     null_or id_display (RecallTriggerState.worktree_snapshot_id state);
     null_or id_display (RecallTriggerState.binding_revision_id state);
     texts id_display (RecallTriggerState.scope_effect_refs state)].

(** ** Needs *)

Module RecallNeed.
Record RecallNeed := mk {
  recall_need_id : RecallNeedId;
  revision_id : RevisionId;
  parent_revision_id : option RevisionId;
  recall_need_hash : list byte;
  trigger_family : TriggerFamily;
  source_revision_ids : list RevisionId;
  matched_contract_ids : list (list byte);
  session_id : string;
  execution_lane_id : ExecutionLaneId;
  task_id : TaskId;
  workstream_id : WorkstreamId;
  episode_revision_id : RevisionId;
  repository_id : option RepositoryId;
  worktree_id : option WorktreeId;
  boundary_event_ref : string;
  trigger_state : RecallTriggerState;
  source_watermark : N;
  recall_plan_fingerprint : list byte;
  recall_plan : RecallPlan;
  delivery_state : RecallDeliveryState;
  agent_response : RecallAgentResponse;
  obligation_state : RecallObligationState;
  created_at_us : Z;
  presentation_expires_at_us : Z;
  obligation_expires_at_us : option Z;
  active_presentation_attempt_id : option PresentationAttemptId;
  active_retrieval_request_id : option string;
}.
#[export] Instance eq_dec : EqDecision RecallNeed.
Proof. solve_decision. Defined.
Definition set_sealed (self : RecallNeed)
    (v_recall_need_hash : list byte) (v_recall_plan_fingerprint : list byte) : RecallNeed :=
  mk
    (self.(recall_need_id)) (self.(revision_id)) (self.(parent_revision_id))
    v_recall_need_hash (self.(trigger_family)) (self.(source_revision_ids))
    (self.(matched_contract_ids)) (self.(session_id)) (self.(execution_lane_id))
    (self.(task_id)) (self.(workstream_id)) (self.(episode_revision_id))
    (self.(repository_id)) (self.(worktree_id)) (self.(boundary_event_ref))
    (self.(trigger_state)) (self.(source_watermark)) v_recall_plan_fingerprint
    (self.(recall_plan)) (self.(delivery_state)) (self.(agent_response))
    (self.(obligation_state)) (self.(created_at_us)) (self.(presentation_expires_at_us))
    (self.(obligation_expires_at_us)) (self.(active_presentation_attempt_id))
    (self.(active_retrieval_request_id)).
Definition set_delivery (self : RecallNeed)
    (v_delivery_state : RecallDeliveryState) (v_active_presentation_attempt_id : option
    PresentationAttemptId) : RecallNeed :=
  mk
    (self.(recall_need_id)) (self.(revision_id)) (self.(parent_revision_id))
    (self.(recall_need_hash)) (self.(trigger_family)) (self.(source_revision_ids))
    (self.(matched_contract_ids)) (self.(session_id)) (self.(execution_lane_id))
    (self.(task_id)) (self.(workstream_id)) (self.(episode_revision_id))
    (self.(repository_id)) (self.(worktree_id)) (self.(boundary_event_ref))
    (self.(trigger_state)) (self.(source_watermark)) (self.(recall_plan_fingerprint))
    (self.(recall_plan)) v_delivery_state (self.(agent_response)) (self.(obligation_state))
    (self.(created_at_us)) (self.(presentation_expires_at_us))
    (self.(obligation_expires_at_us)) v_active_presentation_attempt_id
    (self.(active_retrieval_request_id)).
Definition set_agent (self : RecallNeed)
    (v_agent_response : RecallAgentResponse) (v_active_retrieval_request_id : option string) : RecallNeed :=
  mk
    (self.(recall_need_id)) (self.(revision_id)) (self.(parent_revision_id))
    (self.(recall_need_hash)) (self.(trigger_family)) (self.(source_revision_ids))
    (self.(matched_contract_ids)) (self.(session_id)) (self.(execution_lane_id))
    (self.(task_id)) (self.(workstream_id)) (self.(episode_revision_id))
    (self.(repository_id)) (self.(worktree_id)) (self.(boundary_event_ref))
    (self.(trigger_state)) (self.(source_watermark)) (self.(recall_plan_fingerprint))
    (self.(recall_plan)) (self.(delivery_state)) v_agent_response (self.(obligation_state))
    (self.(created_at_us)) (self.(presentation_expires_at_us))
    (self.(obligation_expires_at_us)) (self.(active_presentation_attempt_id))
    v_active_retrieval_request_id.
Definition set_settled (self : RecallNeed)
    (v_parent_revision_id : option RevisionId) (v_revision_id : RevisionId)
    (v_obligation_state : RecallObligationState) : RecallNeed :=
  mk
    (self.(recall_need_id)) v_revision_id v_parent_revision_id (self.(recall_need_hash))
    (self.(trigger_family)) (self.(source_revision_ids)) (self.(matched_contract_ids))
    (self.(session_id)) (self.(execution_lane_id)) (self.(task_id)) (self.(workstream_id))
    (self.(episode_revision_id)) (self.(repository_id)) (self.(worktree_id))
    (self.(boundary_event_ref)) (self.(trigger_state)) (self.(source_watermark))
    (self.(recall_plan_fingerprint)) (self.(recall_plan)) (self.(delivery_state))
    (self.(agent_response)) v_obligation_state (self.(created_at_us))
    (self.(presentation_expires_at_us)) (self.(obligation_expires_at_us))
    (self.(active_presentation_attempt_id)) (self.(active_retrieval_request_id)).
Definition set_expiry (self : RecallNeed)
    (v_parent_revision_id : option RevisionId) (v_revision_id : RevisionId)
    (v_presentation_expires_at_us : Z) : RecallNeed :=
  mk
    (self.(recall_need_id)) v_revision_id v_parent_revision_id (self.(recall_need_hash))
    (self.(trigger_family)) (self.(source_revision_ids)) (self.(matched_contract_ids))
    (self.(session_id)) (self.(execution_lane_id)) (self.(task_id)) (self.(workstream_id))
    (self.(episode_revision_id)) (self.(repository_id)) (self.(worktree_id))
    (self.(boundary_event_ref)) (self.(trigger_state)) (self.(source_watermark))
    (self.(recall_plan_fingerprint)) (self.(recall_plan)) (self.(delivery_state))
    (self.(agent_response)) (self.(obligation_state)) (self.(created_at_us))
    v_presentation_expires_at_us (self.(obligation_expires_at_us))
    (self.(active_presentation_attempt_id)) (self.(active_retrieval_request_id)).
End RecallNeed.
Abbreviation RecallNeed := RecallNeed.RecallNeed.
Export (hints) RecallNeed.

Section need.
Import RecallNeed.
Context `{L : UuidLib} `{SHA : Sha256}.

(** The value the hash of a need is taken of; [fingerprint] is its plan fingerprint. *)
Definition need_canonical (need : RecallNeed) : CanonicalValue :=
  Sequence
    [CString (session_id need);
     CString (id_display (execution_lane_id need));
     CString (TriggerFamily_as_str (trigger_family need));
     texts rid_display (source_revision_ids need);
     Sequence (Bytes <$> matched_contract_ids need);
     CString (id_display (task_id need));
     CString (id_display (workstream_id need));
     CString (rid_display (episode_revision_id need));
     null_or id_display (repository_id need);
     null_or id_display (worktree_id need);
     CString (boundary_event_ref need);
     trigger_state_canonical (trigger_state need);
     Integer (Z.of_N (source_watermark need));
     Bytes (recall_plan_fingerprint need)].

Definition compute_need_hash (need : RecallNeed) : result CanonicalError (list byte) :=
  sha256 sha256_digest "recall_need_v1" 1 (need_canonical need).

Definition seal_need (self : RecallNeed) : result CanonicalError RecallNeed :=
  let? fingerprint := plan_fingerprint (recall_plan self) in
  let self := set_sealed self (recall_need_hash self) fingerprint in
  let? hash := compute_need_hash self in
  Ok (set_sealed self hash (recall_plan_fingerprint self)).

(** The delivery states in which no presentation attempt is under way. *)
Definition undelivered (state : RecallDeliveryState) : bool :=
  match state with
  | RecallDeliveryState.Detected | RecallDeliveryState.Scheduled
  | RecallDeliveryState.FailedPreEmit => true
  | _ => false
  end.

Definition validate_need (self : RecallNeed) : bool :=
  (0 <? source_watermark self)%N
  && (0 <=? created_at_us self)%Z
  && (created_at_us self <? presentation_expires_at_us self)%Z
  && is_none_or (obligation_expires_at_us self) (fun value => (created_at_us self <? value)%Z)
  && recall_bytes (session_id self)
  && recall_bytes (boundary_event_ref self)
  && RecallTriggerState.validate (trigger_state self)
  && recall_refs (source_revision_ids self)
  && negb (is_empty (source_revision_ids self))
  && recall_refs (matched_contract_ids self)
  && is_none_or (active_retrieval_request_id self) recall_text
  && Bool.eqb (is_some (active_presentation_attempt_id self)) (negb (undelivered (delivery_state self)))
  && Bool.eqb (is_some (active_retrieval_request_id self))
       (agent_response self !=? RecallAgentResponse.NotRetrieved)
  && RecallPlan.validate (recall_plan self)
  && (ok (plan_fingerprint (recall_plan self)) ==? Some (recall_plan_fingerprint self))
  && (ok (compute_need_hash self) ==? Some (recall_need_hash self))
  && (is_none (parent_revision_id self) || (parent_revision_id self !=? Some (revision_id self))).
End need.

(** ** Events of the ledger *)

Module RecallPresentationAttempt.
Record RecallPresentationAttempt := mk {
  presentation_attempt_id : PresentationAttemptId;
  recall_need_id : RecallNeedId;
  recall_need_hash : list byte;
  boundary_event_ref : string;
  state : PresentationAttemptState;
  occurred_at_us : Z;
}.
#[export] Instance eq_dec : EqDecision RecallPresentationAttempt.
Proof. solve_decision. Defined.
End RecallPresentationAttempt.
Abbreviation RecallPresentationAttempt := RecallPresentationAttempt.RecallPresentationAttempt.
Export (hints) RecallPresentationAttempt.

Module RecallRetrievalOutcome.
Record RecallRetrievalOutcome := mk {
  request_id : string;
  recall_need_id : RecallNeedId;
  recall_need_hash : list byte;
  state : RetrievalOutcomeState;
  occurred_at_us : Z;
}.
#[export] Instance eq_dec : EqDecision RecallRetrievalOutcome.
Proof. solve_decision. Defined.
End RecallRetrievalOutcome.
Abbreviation RecallRetrievalOutcome := RecallRetrievalOutcome.RecallRetrievalOutcome.
Export (hints) RecallRetrievalOutcome.

Module RecallLedgerEvent.
Inductive RecallLedgerEvent :=
| NeedRecorded (need : RecallNeed)
| PresentationAttempt (attempt : RecallPresentationAttempt)
| RetrievalOutcome (outcome : RecallRetrievalOutcome).
#[export] Instance eq_dec : EqDecision RecallLedgerEvent.
Proof. solve_decision. Defined.
End RecallLedgerEvent.
Abbreviation RecallLedgerEvent := RecallLedgerEvent.RecallLedgerEvent.
Export (hints) RecallLedgerEvent.

Definition validate_event `{L : UuidLib} `{SHA : Sha256} (self : RecallLedgerEvent) : bool :=
  match self with
  | RecallLedgerEvent.NeedRecorded need => validate_need need
  | RecallLedgerEvent.PresentationAttempt attempt =>
      recall_bytes (RecallPresentationAttempt.boundary_event_ref attempt)
      && (0 <=? RecallPresentationAttempt.occurred_at_us attempt)%Z
  | RecallLedgerEvent.RetrievalOutcome outcome =>
      recall_bytes (RecallRetrievalOutcome.request_id outcome)
      && (0 <=? RecallRetrievalOutcome.occurred_at_us outcome)%Z
  end.

(** ** Cues *)

Module RecallCueSnapshot.
Record RecallCueSnapshot := mk {
  session_id : string;
  execution_lane_id : ExecutionLaneId;
  host_lane_key : string;
  adapter_manifest_id : string;
  runtime_generation : N;
  recall_need_hash : list byte;
  presentation_attempt_id : PresentationAttemptId;
  expires_at_us : Z;
  checksum : list byte;
}.
#[export] Instance eq_dec : EqDecision RecallCueSnapshot.
Proof. solve_decision. Defined.
Definition set_checksum (self : RecallCueSnapshot)
    (v_checksum : list byte) : RecallCueSnapshot :=
  mk
    (self.(session_id)) (self.(execution_lane_id)) (self.(host_lane_key))
    (self.(adapter_manifest_id)) (self.(runtime_generation)) (self.(recall_need_hash))
    (self.(presentation_attempt_id)) (self.(expires_at_us)) v_checksum.
End RecallCueSnapshot.
Abbreviation RecallCueSnapshot := RecallCueSnapshot.RecallCueSnapshot.
Export (hints) RecallCueSnapshot.

Section cue.
Import RecallCueSnapshot.
Context `{L : UuidLib} `{SHA : Sha256}.

Definition recall_cue_checksum (snapshot : RecallCueSnapshot) : result CanonicalError (list byte) :=
  sha256 sha256_digest "recall_cue_snapshot_v2" 2
    (Sequence
      [CString (session_id snapshot);
       CString (id_display (execution_lane_id snapshot));
       CString (host_lane_key snapshot);
       CString (adapter_manifest_id snapshot);
       Integer (Z.of_N (runtime_generation snapshot));
       Bytes (recall_need_hash snapshot);
       CString (id_display (presentation_attempt_id snapshot));
       Integer (expires_at_us snapshot)]).

Definition seal_cue (self : RecallCueSnapshot) : result CanonicalError RecallCueSnapshot :=
  let? sum := recall_cue_checksum self in
  Ok (set_checksum self sum).

Definition validate_cue (self : RecallCueSnapshot) : bool :=
  recall_text (session_id self)
  && recall_text (host_lane_key self)
  && recall_text (adapter_manifest_id self)
  && (0 <? runtime_generation self)%N
  && (0 <? expires_at_us self)%Z
  && (ok (recall_cue_checksum self) ==? Some (checksum self)).
End cue.

(** ** Future cue contracts *)

Module FutureCueContract.
Record FutureCueContract := mk {
  future_cue_contract_id : list byte;
  source_revision_id : RevisionId;
  trigger_family : TriggerFamily;
  condition_ir_version : N;
  match_expr : ConstraintExpr;
  suppress_expr : ConstraintExpr;
  resolve_expr : ConstraintExpr;
  field_registry_version : N;
  global_support_dependency_generation : option N;
  compiler_version : N;
  source_watermark : N;
}.
Definition set_id (self : FutureCueContract)
    (v_future_cue_contract_id : list byte) : FutureCueContract :=
  mk
    v_future_cue_contract_id (self.(source_revision_id)) (self.(trigger_family))
    (self.(condition_ir_version)) (self.(match_expr)) (self.(suppress_expr))
    (self.(resolve_expr)) (self.(field_registry_version))
    (self.(global_support_dependency_generation)) (self.(compiler_version))
    (self.(source_watermark)).
End FutureCueContract.
Abbreviation FutureCueContract := FutureCueContract.FutureCueContract.
Export (hints) FutureCueContract.

Definition field_str (field : ConstraintField) : string :=
  match field with
  | ConstraintField.AgentKind => "agent_kind"
  | ConstraintField.TaskKind => "task_kind"
  | ConstraintField.ProjectFamily => "project_family"
  | ConstraintField.Toolchain => "toolchain"
  | ConstraintField.OperationKind => "operation_kind"
  | ConstraintField.PhaseKind => "phase_kind"
  | ConstraintField.ArtifactKind => "artifact_kind"
  | ConstraintField.EnvironmentProfile => "environment_profile"
  | ConstraintField.RevisionActive => "revision_active"
  | ConstraintField.VerifierState => "verifier_state"
  | ConstraintField.Phase => "phase"
  | ConstraintField.FailureSignature => "failure_signature"
  | ConstraintField.WorktreeLineage => "worktree_lineage"
  | ConstraintField.ArtifactVersion => "artifact_version"
  | ConstraintField.ExperimentState => "experiment_state"
  end.

Fixpoint constraint_canonical (expr : ConstraintExpr) : CanonicalValue :=
  let field field := CString (field_str field) in
  let value value := match value with
    | ConstraintValue.Text value => CString value
    | ConstraintValue.Boolean value => Bool value
    end in
  match expr with
  | ConstraintExpr.All terms => Sequence [CString "all"; Sequence (constraint_canonical <$> terms)]
  | ConstraintExpr.Any terms => Sequence [CString "any"; Sequence (constraint_canonical <$> terms)]
  | ConstraintExpr.Not term => Sequence [CString "not"; constraint_canonical term]
  | ConstraintExpr.Eq expr_field expr_value => Sequence [CString "eq"; field expr_field; value expr_value]
  | ConstraintExpr.In expr_field values => Sequence [CString "in"; field expr_field; Sequence (value <$> values)]
  | ConstraintExpr.Exists expr_field => Sequence [CString "exists"; field expr_field]
  | ConstraintExpr.Changed expr_field => Sequence [CString "changed"; field expr_field]
  | ConstraintExpr.Transitioned expr_field from to =>
      Sequence [CString "transitioned"; field expr_field; value from; value to]
  end.

Definition future_cue_field_allowed (field : ConstraintField) : bool :=
  match field with
  | ConstraintField.OperationKind | ConstraintField.PhaseKind | ConstraintField.ArtifactKind
  | ConstraintField.RevisionActive | ConstraintField.VerifierState | ConstraintField.Phase
  | ConstraintField.FailureSignature | ConstraintField.WorktreeLineage
  | ConstraintField.ArtifactVersion | ConstraintField.ExperimentState => true
  | _ => false
  end.

Fixpoint future_cue_fields_allowed (expr : ConstraintExpr) : bool :=
  match expr with
  | ConstraintExpr.All terms | ConstraintExpr.Any terms => all future_cue_fields_allowed terms
  | ConstraintExpr.Not term => future_cue_fields_allowed term
  | ConstraintExpr.Eq field _ | ConstraintExpr.In field _ | ConstraintExpr.Exists field
  | ConstraintExpr.Changed field | ConstraintExpr.Transitioned field _ _ =>
      future_cue_field_allowed field
  end.

Section contract.
Import FutureCueContract.
Context `{L : UuidLib} `{SHA : Sha256}.

Definition contract_id (contract : FutureCueContract) : result CanonicalError (list byte) :=
  sha256 sha256_digest "future_cue_contract_v1" 1
    (Sequence
      [CString (rid_display (source_revision_id contract));
       Integer (Z.of_N (condition_ir_version contract));
       constraint_canonical (match_expr contract);
       constraint_canonical (suppress_expr contract);
       constraint_canonical (resolve_expr contract);
       Integer (Z.of_N (field_registry_version contract));
       match global_support_dependency_generation contract with
       | Some value => Integer (Z.of_N value)
       | None => Null
       end;
       Integer (Z.of_N (compiler_version contract));
       Integer (Z.of_N (source_watermark contract))]).

Definition validate_contract (self : FutureCueContract) : result FutureCueDiagnostic unit :=
  do? guard
    ((trigger_family self !=? TriggerFamily.ProspectiveObligation)
     || negb (condition_ir_version self =? 1)%N
     || negb (field_registry_version self =? FUTURE_CUE_FIELD_REGISTRY_VERSION)%N
     || negb (compiler_version self =? FUTURE_CUE_COMPILER_VERSION)%N
     || (source_watermark self =? 0)%N
     || is_some (global_support_dependency_generation self)
     || is_err (ConstraintExpr.validate (match_expr self))
     || is_err (ConstraintExpr.validate (suppress_expr self))
     || is_err (ConstraintExpr.validate (resolve_expr self))
     || negb (future_cue_fields_allowed (match_expr self))
     || negb (future_cue_fields_allowed (suppress_expr self))
     || negb (future_cue_fields_allowed (resolve_expr self)))
    FutureCueDiagnostic.InvalidSource in
  let? id := map_err (fun _ => FutureCueDiagnostic.InvalidSource) (contract_id self) in
  guard (future_cue_contract_id self !=? id) FutureCueDiagnostic.InvalidSource.

Definition compile_atom_future_cue (atom : Atom) (is_current global_support_valid : bool)
    (watermark : N) : result FutureCueDiagnostic FutureCueContract :=
  do? map_err (fun _ => FutureCueDiagnostic.InvalidSource) (Atom.validate atom) in
  do? guard (negb is_current) FutureCueDiagnostic.SourceNotCurrent in
  do? guard (Atom.lifecycle_status atom !=? AtomLifecycleStatus.Active) FutureCueDiagnostic.SourceInactive in
  do? guard (negb (is_normative (Atom.kind atom))) FutureCueDiagnostic.SourceNotNormative in
  do? match Atom.authority atom with
      | AtomAuthority.UserExplicit =>
          guard (negb (is_some_and (Atom.user_authorization_provenance atom) (fun proof =>
                   UserAuthorizationProvenance.mode proof ==? UserAuthorizationMode.TuiAcceptance)))
            FutureCueDiagnostic.AuthorityUnverified
      | AtomAuthority.ProjectPolicy => Err FutureCueDiagnostic.ProjectPolicyProofUnavailable
      | _ => Err FutureCueDiagnostic.AuthorityUnverified
      end in
  do? guard (Scope.is_global (Atom.scope atom) && negb global_support_valid)
        FutureCueDiagnostic.GlobalSupportUnavailable in
  do? guard (is_some (ValidityInterval.valid_until_us (Atom.validity_interval atom)))
        FutureCueDiagnostic.FiniteValidityUnsupported in
  let? match_ := match Atom.applicability_expr atom with
                 | ApplicabilityExpr.Constraint match_expr => Ok match_expr
                 | ApplicabilityExpr.Always => Err FutureCueDiagnostic.UnstructuredCondition
                 end in
  do? guard (negb (future_cue_fields_allowed match_)) FutureCueDiagnostic.FieldNotAllowed in
  let? lifecycle := ok_or (Atom.future_cue_lifecycle_exprs atom)
                      FutureCueDiagnostic.SuppressResolveSourceUnavailable in
  do? guard (negb (future_cue_fields_allowed (FutureCueLifecycleExprs.suppress_expr lifecycle))
             || negb (future_cue_fields_allowed (FutureCueLifecycleExprs.resolve_expr lifecycle)))
        FutureCueDiagnostic.FieldNotAllowed in
  do? guard (watermark =? 0)%N FutureCueDiagnostic.InvalidSource in
  let contract := mk zero_hash (Atom.revision_id atom) TriggerFamily.ProspectiveObligation
    (Atom.condition_ir_version atom) match_ (FutureCueLifecycleExprs.suppress_expr lifecycle)
    (FutureCueLifecycleExprs.resolve_expr lifecycle) FUTURE_CUE_FIELD_REGISTRY_VERSION None
    FUTURE_CUE_COMPILER_VERSION watermark in
  let? id := map_err (fun _ => FutureCueDiagnostic.InvalidSource) (contract_id contract) in
  let contract := set_id contract id in
  do? validate_contract contract in
  Ok contract.

Definition evaluate_match (self : FutureCueContract) (current : ConstraintState)
    (previous : option ConstraintState) : ConstraintTruth :=
  ConstraintExpr.evaluate (match_expr self) current previous.

Definition evaluate_suppress (self : FutureCueContract) (current : ConstraintState)
    (previous : option ConstraintState) : ConstraintTruth :=
  ConstraintExpr.evaluate (suppress_expr self) current previous.

Definition evaluate_resolve (self : FutureCueContract) (current : ConstraintState)
    (previous : option ConstraintState) : ConstraintTruth :=
  ConstraintExpr.evaluate (resolve_expr self) current previous.
End contract.
