(* ===== verification/RecallFacts.v ===== *)
(** * What the seals of the recall layer bind

    Facts on the records of [Recall.v]: the hash of a need, the checksum of a cue
    and the identifier of a future cue contract determine every field they are
    taken of, and an atom compiles to a cue exactly when it may trigger one. *)

From S2P Require Import Prelude Order Collections Text Canonical Ids Digests Attempt Work Episode Constraint Atom Recall.

(** ** Canonical forms *)

Section canonical.
Context `{L : UuidLib, !UuidLaws L}.

(** Identifiers are sixteen bytes and integers are machine integers: the
    invariants of the Rust types. *)
Record plan_wf (p : RecallPlan) : Prop := {
  wf_episode r : RecallPlan.relevant_episode_revision p = Some r -> rid_wf r;
  wf_procedure r : RecallPlan.applicable_procedure_revision p = Some r -> rid_wf r;
}.

Record trigger_wf (s : RecallTriggerState) : Prop := {
  wf_attempts : Forall id_wf (RecallTriggerState.attempt_ids s);
  wf_snapshot i : RecallTriggerState.worktree_snapshot_id s = Some i -> id_wf i;
  wf_binding i : RecallTriggerState.binding_revision_id s = Some i -> id_wf i;
  wf_effects : Forall id_wf (RecallTriggerState.scope_effect_refs s);
}.

Lemma plan_canonical_inj p q :
  plan_wf p -> plan_wf q -> plan_canonical p = plan_canonical q -> p = q.
Proof.
  intros [Hp1 Hp2] [Hq1 Hq2] E. unfold plan_canonical in E.
  pose proof (null_or_inj rid_wf rid_display rid_display_inj) as Hrid.
  injection E as E1 E2 E3 E4 E5 E6 E7. destruct p, q; cbn in *.
  f_equal; auto; apply strings_inj; unfold texts; by f_equal.
Qed.

Lemma phase_str_inj a b : phase_str a = phase_str b -> a = b.
Proof. by destruct a, b. Qed.
Lemma verifier_str_inj a b : verifier_str a = verifier_str b -> a = b.
Proof. by destruct a, b. Qed.
Lemma family_str_inj a b : TriggerFamily_as_str a = TriggerFamily_as_str b -> a = b.
Proof. by destruct a, b. Qed.
Lemma field_str_inj a b : field_str a = field_str b -> a = b.
Proof. by destruct a, b. Qed.

Lemma trigger_canonical_inj s t :
  trigger_wf s -> trigger_wf t -> trigger_state_canonical s = trigger_state_canonical t -> s = t.
Proof.
  intros [Hs1 Hs2 Hs3 Hs4] [Ht1 Ht2 Ht3 Ht4] E. unfold trigger_state_canonical in E.
  injection E as E1 E2 E3 E4 E5 E6. destruct s, t; cbn in *. f_equal.
  - by apply phase_str_inj.
  - by apply verifier_str_inj.
  - apply (texts_inj id_wf id_display id_display_inj); [done..|]. unfold texts. by f_equal.
  - by apply (null_or_inj id_wf id_display id_display_inj).
  - by apply (null_or_inj id_wf id_display id_display_inj).
  - apply (texts_inj id_wf id_display id_display_inj); [done..|]. unfold texts. by f_equal.
Qed.

Lemma trigger_canonical_free s :
  map_free (trigger_state_canonical s) = true /\ value_ok (trigger_state_canonical s).
Proof.
  split; [|sequence_ok].
  unfold trigger_state_canonical. cbn [map_free forallb]. by rewrite !texts_map_free, !null_or_map_free.
Qed.

Lemma plan_canonical_free p : map_free (plan_canonical p) = true /\ value_ok (plan_canonical p).
Proof.
  split; [|sequence_ok].
  unfold plan_canonical. cbn [map_free forallb]. by rewrite !texts_map_free, !null_or_map_free.
Qed.

(** The canonical form of a condition determines it. *)
Lemma constraint_canonical_free e :
  map_free (constraint_canonical e) = true /\ value_ok (constraint_canonical e).
Proof.
  assert (Hv : forall v, map_free (match v with ConstraintValue.Text s => CString s
      | ConstraintValue.Boolean b => Bool b end) = true /\
    value_ok (match v with ConstraintValue.Text s => CString s | ConstraintValue.Boolean b => Bool b end))
    by (intros []; split; by try constructor).
  induction e as [ts IH|ts IH|t IH|f v|f vs|f|f|f v w] using ConstraintSpec.expr_ind;
    cbn [constraint_canonical map_free forallb].
  1-2: split; [rewrite !andb_true_r; apply map_free_fmap; eapply Forall_impl; [exact IH|]; intros t Ht; apply Ht
    |repeat constructor; apply Forall_fmap; eapply Forall_impl; [exact IH|]; intros t Ht; apply Ht].
  - destruct IH. rewrite andb_true_r. split; [done|by repeat constructor].
  - destruct (Hv v) as [V1 V2]. rewrite V1. split; [done|sequence_ok].
  - split.
    + rewrite andb_true_r. apply map_free_fmap, Forall_true. intros v. apply Hv.
    + repeat constructor. apply Forall_fmap, Forall_true. intros v. apply Hv.
  - split; [done|by repeat constructor].
  - split; [done|by repeat constructor].
  - destruct (Hv v) as [V1 V2], (Hv w) as [W1 W2]. rewrite V1, W1. split; [done|sequence_ok].
Qed.

Lemma constraint_map_free e : map_free (constraint_canonical e) = true.
Proof. apply constraint_canonical_free. Qed.

Lemma constraint_canonical_inj a : forall b, constraint_canonical a = constraint_canonical b -> a = b.
Proof.
  assert (Hv : forall v w, match v with ConstraintValue.Text s => CString s | ConstraintValue.Boolean b => Bool b end
     = match w with ConstraintValue.Text s => CString s | ConstraintValue.Boolean b => Bool b end -> v = w)
    by (intros [] [] [=]; congruence).
  assert (Hl : forall ts us, Forall (fun a => forall b, constraint_canonical a = constraint_canonical b -> a = b) ts ->
    constraint_canonical <$> ts = constraint_canonical <$> us -> ts = us).
  { intros ts us H. revert us. induction H as [|t ts Ht _ IH]; intros [|u us] E; try done.
    injection E as E1 E2. f_equal; auto. }
  induction a as [ts IH|ts IH|t IH|f v|f vs|f|f|f v w] using ConstraintSpec.expr_ind;
    intros [] E; try discriminate E; cbn in E; injection E; intros; f_equal;
    auto using field_str_inj.
  match goal with H : _ <$> vs = _ <$> _ |- _ => revert H; apply list_fmap_eq_inj end.
  intros x y. apply Hv.
Qed.
End canonical.

(** ** What a digest binds *)

Section bound.
Context `{L : UuidLib, !UuidLaws L} `{SHA : Sha256}.
Context (Hsha : forall x y, sha256_digest x = sha256_digest y -> x = y).

Record need_wf (n : RecallNeed) : Prop := {
  wf_lane : id_wf (RecallNeed.execution_lane_id n);
  wf_sources : Forall rid_wf (RecallNeed.source_revision_ids n);
  wf_task : id_wf (RecallNeed.task_id n);
  wf_workstream : id_wf (RecallNeed.workstream_id n);
  wf_need_episode : rid_wf (RecallNeed.episode_revision_id n);
  wf_repository i : RecallNeed.repository_id n = Some i -> id_wf i;
  wf_worktree i : RecallNeed.worktree_id n = Some i -> id_wf i;
  wf_trigger : trigger_wf (RecallNeed.trigger_state n);
  wf_plan : plan_wf (RecallNeed.recall_plan n);
  wf_watermark : (RecallNeed.source_watermark n <= U64_MAX)%N;
}.

(** The part of a need its hash and plan fingerprint are taken of. *)
Definition need_identity (n : RecallNeed) :=
  (RecallNeed.session_id n, RecallNeed.execution_lane_id n, RecallNeed.trigger_family n,
   RecallNeed.source_revision_ids n, RecallNeed.matched_contract_ids n, RecallNeed.task_id n,
   RecallNeed.workstream_id n, RecallNeed.episode_revision_id n, RecallNeed.repository_id n,
   RecallNeed.worktree_id n, RecallNeed.boundary_event_ref n, RecallNeed.trigger_state n,
   RecallNeed.source_watermark n, RecallNeed.recall_plan n).

Lemma fingerprint_inj p q d :
  plan_wf p -> plan_wf q -> plan_fingerprint p = Ok d -> plan_fingerprint q = Ok d -> p = q.
Proof.
  intros Hp Hq H H'. destruct (plan_canonical_free p) as [F Vp], (plan_canonical_free q) as [_ Vq].
  apply plan_canonical_inj; [done..|].
  exact (sha256_map_free _ _ _ _ _ _ Hsha Vp Vq F H H' eq_refl).
Qed.

Lemma need_canonical_free n :
  need_wf n -> map_free (need_canonical n) = true /\ value_ok (need_canonical n).
Proof.
  intros [? ? ? ? ? ? ? ? ? Hw]. destruct (trigger_canonical_free (RecallNeed.trigger_state n)) as [T1 T2].
  split; [|unfold need_canonical; sequence_ok].
  unfold need_canonical. cbn [map_free forallb].
  by rewrite texts_map_free, !null_or_map_free, T1, (map_free_fmap Bytes) by by apply Forall_true.
Qed.

Lemma need_canonical_inj a b :
  need_wf a -> need_wf b -> need_canonical a = need_canonical b ->
  RecallNeed.recall_plan a = RecallNeed.recall_plan b -> need_identity a = need_identity b.
Proof.
  intros [] [] E Ep. unfold need_canonical in E. seq_fields E.
  unfold need_identity. repeat (apply pair_equal_spec; split); try (by apply CString_inj); try done.
  - by apply id_display_inj, CString_inj.
  - by apply family_str_inj, CString_inj.
  - by apply (texts_inj rid_wf rid_display rid_display_inj).
  - by apply bytes_list_inj, Sequence_inj.
  - by apply id_display_inj, CString_inj.
  - by apply id_display_inj, CString_inj.
  - by apply rid_display_inj, CString_inj.
  - by apply (null_or_inj id_wf id_display id_display_inj).
  - by apply (null_or_inj id_wf id_display id_display_inj).
  - by apply trigger_canonical_inj.
  - by apply Integer_of_N_inj.
Qed.

Lemma validate_need_seals n :
  validate_need n = true ->
  plan_fingerprint (RecallNeed.recall_plan n) = Ok (RecallNeed.recall_plan_fingerprint n) /\
  compute_need_hash n = Ok (RecallNeed.recall_need_hash n).
Proof.
  unfold validate_need. rewrite !andb_true_iff, !bool_decide_eq_true, !ok_Some. tauto.
Qed.
End bound.

(** ** Compilation of an atom *)

Lemma valid_value_fits f v :
  ConstraintSpec.value_ok f v ->
  value_fits (match v with ConstraintValue.Text s => CString s | ConstraintValue.Boolean b => Bool b end).
Proof.
  intros [H _]. destruct v as [s|b]; [|constructor]. constructor. cbn in H. guards_in H.
  match goal with G : (_ <? _)%N = false |- _ => apply N.ltb_ge in G; unfold MAX_FIELD_VALUE_BYTES, U64_MAX in *; lia end.
Qed.

Lemma field_fits f : value_fits (CString (field_str f)).
Proof. apply string_fits. by destruct f. Qed.
Lemma terms_fit (l : list CanonicalValue) n : (length l <= n <= 64)%nat -> Forall value_fits l -> value_fits (Sequence l).
Proof. intros Hl. apply sequence_fits, Nat.leb_le. lia. Qed.

Ltac items_fit :=
  apply sequence_fits; [done|]; repeat apply Forall_cons_2; try apply Forall_nil_2;
  try apply field_fits; try (by apply string_fits).

Lemma shaped_fits e : ConstraintSpec.shaped e -> value_fits (constraint_canonical e).
Proof.
  assert (Hl : forall ts, (length ts <= 64)%nat -> Forall ConstraintSpec.shaped ts ->
    Forall (fun t => ConstraintSpec.shaped t -> value_fits (constraint_canonical t)) ts ->
    value_fits (Sequence (constraint_canonical <$> ts))).
  { intros ts Hn Hs IH. apply (terms_fit _ 64); [rewrite length_fmap; lia|]. apply Forall_fmap.
    clear Hn. induction Hs as [|t ts Ht _ IHs]; [constructor|]. apply Forall_cons in IH as [H IH].
    constructor; auto. }
  induction e as [ts IH|ts IH|t IH|f v|f vs|f|f|f v w] using ConstraintSpec.expr_ind; intros H;
    inversion H; subst; cbn [constraint_canonical]; items_fit; try (by eapply valid_value_fits); auto.
  1-2: by apply Hl; unfold MAX_BOOLEAN_TERMS in *; [lia|..].
  apply (terms_fit _ MAX_IN_VALUES); [rewrite length_fmap; unfold MAX_IN_VALUES in *; lia|].
  apply Forall_fmap. eapply Forall_impl; [eassumption|]. intros v Hv. by eapply valid_value_fits.
Qed.

Section compile.
Context `{L : UuidLib} `{SHA : Sha256}.

(** When an atom is the source of a cue: current, active, normative, accepted by
    the user, without end of validity, structured, and complete. *)
Record cue_source (atom : Atom) (current global_support : bool) (watermark : N)
    (m : ConstraintExpr) (exprs : FutureCueLifecycleExprs) : Prop := {
  source_valid : Atom.validate atom = Ok tt;
  source_current : current = true;
  source_active : Atom.lifecycle_status atom = AtomLifecycleStatus.Active;
  source_normative : is_normative (Atom.kind atom) = true;
  source_authority : Atom.authority atom = AtomAuthority.UserExplicit;
  source_accepted : is_some_and (Atom.user_authorization_provenance atom) (fun proof =>
    UserAuthorizationProvenance.mode proof ==? UserAuthorizationMode.TuiAcceptance) = true;
  source_supported : Scope.is_global (Atom.scope atom) = true -> global_support = true;
  source_open : ValidityInterval.valid_until_us (Atom.validity_interval atom) = None;
  source_match : Atom.applicability_expr atom = ApplicabilityExpr.Constraint m;
  source_exprs : Atom.future_cue_lifecycle_exprs atom = Some exprs;
  source_fields : future_cue_fields_allowed m = true /\
    future_cue_fields_allowed (FutureCueLifecycleExprs.suppress_expr exprs) = true /\
    future_cue_fields_allowed (FutureCueLifecycleExprs.resolve_expr exprs) = true;
  source_seen : watermark <> 0%N;
}.

(** The contract an atom compiles to, but for its identifier. *)
Definition contract_of (atom : Atom) (watermark : N) (m : ConstraintExpr)
    (exprs : FutureCueLifecycleExprs) : FutureCueContract :=
  FutureCueContract.mk zero_hash (Atom.revision_id atom) TriggerFamily.ProspectiveObligation 1 m
    (FutureCueLifecycleExprs.suppress_expr exprs) (FutureCueLifecycleExprs.resolve_expr exprs)
    FUTURE_CUE_FIELD_REGISTRY_VERSION None FUTURE_CUE_COMPILER_VERSION watermark.

(** The parts of a valid atom the contract is made of. *)
Lemma atom_parts_valid atom :
  Atom.validate atom = Ok tt ->
  ApplicabilityExpr.validate (Atom.applicability_expr atom) = Ok tt /\
  Atom.condition_ir_version atom = 1%N /\
  (forall exprs, Atom.future_cue_lifecycle_exprs atom = Some exprs ->
     ConstraintExpr.validate (FutureCueLifecycleExprs.suppress_expr exprs) = Ok tt /\
     ConstraintExpr.validate (FutureCueLifecycleExprs.resolve_expr exprs) = Ok tt).
Proof.
  intros H. unfold Atom.validate in H. ok_steps H. split_and!; [done| |].
  - match goal with G : (_ =? 1)%N = true |- _ => by apply N.eqb_eq in G end.
  - intros exprs E. match goal with G : validate_lifecycle _ _ = Ok tt |- _ => rewrite E in G; cbn in G; ok_steps G end.
    match goal with G : FutureCueLifecycleExprs.validate _ = Ok _ |- _ => unfold FutureCueLifecycleExprs.validate in G; ok_steps G end.
    done.
Qed.

Lemma contract_id_total atom watermark m exprs :
  (str_len (rid_display (Atom.revision_id atom)) <= U64_MAX)%N ->
  ConstraintExpr.validate m = Ok tt ->
  ConstraintExpr.validate (FutureCueLifecycleExprs.suppress_expr exprs) = Ok tt ->
  ConstraintExpr.validate (FutureCueLifecycleExprs.resolve_expr exprs) = Ok tt ->
  exists id, contract_id (contract_of atom watermark m exprs) = Ok id.
Proof.
  intros Hr Hm Hs He. apply sha256_total; [done|by vm_compute|..]; cbn [contract_of FutureCueContract.source_revision_id
    FutureCueContract.condition_ir_version FutureCueContract.match_expr FutureCueContract.suppress_expr
    FutureCueContract.resolve_expr FutureCueContract.field_registry_version
    FutureCueContract.global_support_dependency_generation FutureCueContract.compiler_version
    FutureCueContract.source_watermark].
  - apply sequence_fits; [done|]. repeat apply Forall_cons_2; try apply Forall_nil_2;
      try (by apply shaped_fits, ConstraintFacts.validate_ok); try (by constructor).
  - cbn [map_free forallb]. by rewrite !constraint_map_free.
Qed.

(** The identifier of a contract is not part of what it is taken of. *)
Lemma contract_valid atom watermark m exprs id :
  ConstraintExpr.validate m = Ok tt ->
  ConstraintExpr.validate (FutureCueLifecycleExprs.suppress_expr exprs) = Ok tt ->
  ConstraintExpr.validate (FutureCueLifecycleExprs.resolve_expr exprs) = Ok tt ->
  future_cue_fields_allowed m = true ->
  future_cue_fields_allowed (FutureCueLifecycleExprs.suppress_expr exprs) = true ->
  future_cue_fields_allowed (FutureCueLifecycleExprs.resolve_expr exprs) = true ->
  watermark <> 0%N -> contract_id (contract_of atom watermark m exprs) = Ok id ->
  validate_contract (FutureCueContract.set_id (contract_of atom watermark m exprs) id) = Ok tt.
Proof.
  intros Hm Hs He Fm Fs Fe Hw Hid. unfold validate_contract.
  change (contract_id (FutureCueContract.set_id ?c _)) with (contract_id c). rewrite Hid.
  unfold contract_of, FutureCueContract.set_id. cbn.
  rewrite Hm, Hs, He, Fm, Fs, Fe. apply N.eqb_neq in Hw. rewrite Hw. by rewrite !bool_decide_eq_true_2.
Qed.

Lemma compile_ok atom current global_support watermark c :
  (str_len (rid_display (Atom.revision_id atom)) <= U64_MAX)%N ->
  compile_atom_future_cue atom current global_support watermark = Ok c <->
  exists m exprs id, cue_source atom current global_support watermark m exprs /\
    contract_id (contract_of atom watermark m exprs) = Ok id /\
    c = FutureCueContract.set_id (contract_of atom watermark m exprs) id.
Proof.
  intros Hr. split.
  - intros H. unfold compile_atom_future_cue in H. ok_steps H.
    destruct (atom_parts_valid atom ltac:(done)) as (_ & Hv & _).
    destruct (Atom.authority atom) eqn:Ea in *; try done.
    destruct (Atom.applicability_expr atom) as [|m] eqn:Em; [done|]. simplify_eq/=.
    exists x, x0, x1. guards. split_and!; [|unfold contract_of; by rewrite <-Hv..].
    split; try done; [by intros E; rewrite E in *; destruct global_support|by apply N.eqb_neq].
  - intros (m & exprs & id & [Hv -> Hl Hn Ha Hp Hg Ho Hm He (F1 & F2 & F3) Hw] & Hid & ->).
    destruct (atom_parts_valid atom Hv) as (Vm & Hir & Ve). rewrite Hm in Vm. cbn in Vm.
    destruct (Ve _ He) as [Vs Vr].
    unfold compile_atom_future_cue. rewrite Hv, Hl, Hn, Ha, Hp, Ho, Hm, He, Hir. cbn [rbind map_err guard negb is_some ok_or].
    rewrite F1, F2, F3. apply N.eqb_neq in Hw as Hw'. rewrite Hw'.
    assert (Scope.is_global (Atom.scope atom) && negb global_support = false) as ->.
    { apply andb_false_iff. destruct (Scope.is_global _); [right; by rewrite Hg|by left]. }
    rewrite (bool_decide_eq_true_2 _ (eq_refl AtomLifecycleStatus.Active)). cbn [rbind map_err guard negb orb].
    unfold contract_of in *. rewrite Hid. cbn [rbind map_err].
    pose proof (contract_valid atom watermark m exprs id) as V. unfold contract_of in V. by rewrite V.
Qed.
End compile.
