(* ===== verification/RecallLedger.v ===== *)
(** * The recall ledger (crates/evertrace-store/src/projections/recall_ledger.rs)

    The projection that folds the events of the recall ledger into the current
    needs: the step on an event, the rows the needs are stored as, and the
    restoration of the projection from such rows.

    The step of [RecallLedger.v] as a relation, the history of a need and of its
    presentation attempts along a replay, and the comparison of a ledger restored
    from its rows with the one that was never interrupted. *)

From S2P Require Import Prelude Order Collections Text Canonical Ids Digests Journal Objects Attempt Work Episode Recall.

Definition RECALL_NEED_KIND : string := "recall_need".

(** The journal payloads as far as the ledger sees them: [serde_json] and the
    other variants of [JournalPayload] are not modelled. *)
Class PayloadJson := {
  JournalPayload : Type;
  RecallLedgerRecorded : RecallLedgerEvent -> JournalPayload;
  as_recall_ledger : JournalPayload -> option RecallLedgerEvent;
  canonical_json : JournalPayload -> result StoreError string;
  payload_from_str : string -> option JournalPayload;
}.

(** What the code relies on: a variant is told from the others, and the text of a
    payload parses back to it. *)
Class PayloadLaws (J : PayloadJson) := {
  as_recall_recorded e : as_recall_ledger (RecallLedgerRecorded e) = Some e;
  from_canonical_json p s : canonical_json p = Ok s -> payload_from_str s = Some p;
  canonical_json_text p s : canonical_json p = Ok s -> str_ok s;
}.

Module RecallLedgerState.
Record RecallLedgerState := mk {
  needs : gmap RecallNeedId (RecallNeed * N);
  presentation_attempts : gset PresentationAttemptId;
  last_presentation_attempts : gmap RecallNeedId PresentationAttemptId;
}.
Definition set_needs (self : RecallLedgerState)
    (v_needs : gmap RecallNeedId (RecallNeed * N)) : RecallLedgerState :=
  mk
    v_needs (self.(presentation_attempts)) (self.(last_presentation_attempts)).
Definition set_claim (self : RecallLedgerState)
    (v_needs : gmap RecallNeedId (RecallNeed * N)) (v_presentation_attempts : gset
    PresentationAttemptId) (v_last_presentation_attempts : gmap RecallNeedId
    PresentationAttemptId) : RecallLedgerState :=
  mk
    v_needs v_presentation_attempts v_last_presentation_attempts.
Definition default : RecallLedgerState := mk ∅ ∅ ∅.
End RecallLedgerState.
Abbreviation RecallLedgerState := RecallLedgerState.RecallLedgerState.
Export (hints) RecallLedgerState.

(** ** Successors of a recorded need *)

Section successors.
Import RecallNeed.

Definition same_need_identity (current next : RecallNeed) : bool :=
  (recall_need_id current ==? recall_need_id next)
  && (session_id current ==? session_id next)
  && (execution_lane_id current ==? execution_lane_id next)
  && (task_id current ==? task_id next)
  && (workstream_id current ==? workstream_id next)
  && (episode_revision_id current ==? episode_revision_id next)
  && (repository_id current ==? repository_id next)
  && (worktree_id current ==? worktree_id next)
  && (boundary_event_ref current ==? boundary_event_ref next)
  && (created_at_us current ==? created_at_us next)
  && (obligation_expires_at_us current ==? obligation_expires_at_us next).

Definition same_delivery_and_agent_axes (current next : RecallNeed) : bool :=
  (delivery_state current ==? delivery_state next)
  && (agent_response current ==? agent_response next)
  && (active_presentation_attempt_id current ==? active_presentation_attempt_id next)
  && (active_retrieval_request_id current ==? active_retrieval_request_id next).

(** The conjuncts [rearm] and the settling branch share. *)
Definition same_content (current next : RecallNeed) : bool :=
  (recall_need_hash current ==? recall_need_hash next)
  && (recall_plan_fingerprint current ==? recall_plan_fingerprint next)
  && (trigger_family current ==? trigger_family next)
  && (source_revision_ids current ==? source_revision_ids next)
  && (matched_contract_ids current ==? matched_contract_ids next)
  && (trigger_state current ==? trigger_state next)
  && (source_watermark current ==? source_watermark next)
  && (recall_plan current ==? recall_plan next).

Definition legal_obligation_successor (current next : RecallNeed) : bool :=
  if obligation_state current !=? RecallObligationState.Active then false
  else if obligation_state next ==? RecallObligationState.Active then
    let mutable_plan :=
      undelivered (delivery_state current)
      && ((recall_need_hash current !=? recall_need_hash next)
          || (recall_plan_fingerprint current !=? recall_plan_fingerprint next))
      && (presentation_expires_at_us current ==? presentation_expires_at_us next) in
    let rearm :=
      undelivered (delivery_state current)
      && is_none (active_presentation_attempt_id current)
      && same_content current next
      && (presentation_expires_at_us current <? presentation_expires_at_us next)%Z in
    mutable_plan || rearm
  else
    same_content current next
    && (presentation_expires_at_us current ==? presentation_expires_at_us next).
End successors.

(** ** The step *)

Section step.
Import RecallLedgerState.
Context `{L : UuidLib} `{SHA : Sha256}.

Definition record_need (self : RecallLedgerState) (need : RecallNeed) (seq : N)
  : result StoreError RecallLedgerState :=
  do? guard
    match needs self !! RecallNeed.recall_need_id need with
    | Some (current, _) =>
        (RecallNeed.parent_revision_id need !=? Some (RecallNeed.revision_id current))
        || negb (same_need_identity current need)
        || negb (same_delivery_and_agent_axes current need)
        || negb (legal_obligation_successor current need)
    | None =>
        is_some (RecallNeed.parent_revision_id need)
        || (RecallNeed.delivery_state need !=? RecallDeliveryState.Detected)
        || (RecallNeed.agent_response need !=? RecallAgentResponse.NotRetrieved)
        || (RecallNeed.obligation_state need !=? RecallObligationState.Active)
        || is_some (RecallNeed.active_presentation_attempt_id need)
        || is_some (RecallNeed.active_retrieval_request_id need)
    end StoreError.StoreCorrupt in
  Ok (set_needs self (<[RecallNeed.recall_need_id need := (need, seq)]> (needs self))).

(** The delivery state an outcome leads to; a claim has none. *)
Definition delivery_of (state : PresentationAttemptState) : RecallDeliveryState :=
  match state with
  | PresentationAttemptState.FailedPreEmit => RecallDeliveryState.FailedPreEmit
  | PresentationAttemptState.Emitted => RecallDeliveryState.Emitted
  | PresentationAttemptState.HostPresented => RecallDeliveryState.HostPresented
  | PresentationAttemptState.PresentationUnknown => RecallDeliveryState.PresentationUnknown
  | PresentationAttemptState.ClaimedForBoundary => RecallDeliveryState.ClaimedForBoundary
  end.

Definition apply_presentation (self : RecallLedgerState) (attempt : RecallPresentationAttempt) (seq : N)
  : result StoreError RecallLedgerState :=
  let id := RecallPresentationAttempt.recall_need_id attempt in
  let attempt_id := RecallPresentationAttempt.presentation_attempt_id attempt in
  let? entry := ok_or (needs self !! id) StoreError.StoreCorrupt in
  let need := entry.1 in
  do? guard
    ((RecallNeed.recall_need_hash need !=? RecallPresentationAttempt.recall_need_hash attempt)
     || (RecallNeed.boundary_event_ref need !=? RecallPresentationAttempt.boundary_event_ref attempt)
     || (RecallNeed.obligation_state need !=? RecallObligationState.Active)) StoreError.StoreCorrupt in
  match RecallPresentationAttempt.state attempt with
  | PresentationAttemptState.ClaimedForBoundary =>
      do? guard
        (bool_decide (attempt_id ∈ presentation_attempts self)
         || negb (undelivered (RecallNeed.delivery_state need))) StoreError.StoreCorrupt in
      Ok (set_claim self
            (<[id := (RecallNeed.set_delivery need RecallDeliveryState.ClaimedForBoundary (Some attempt_id), seq)]>
               (needs self))
            ({[attempt_id]} ∪ presentation_attempts self)
            (<[id := attempt_id]> (last_presentation_attempts self)))
  | state =>
      do? guard
        (negb (bool_decide (attempt_id ∈ presentation_attempts self))
         || (RecallNeed.active_presentation_attempt_id need !=? Some attempt_id)
         || (RecallNeed.delivery_state need !=? RecallDeliveryState.ClaimedForBoundary))
        StoreError.StoreCorrupt in
      let active := if state ==? PresentationAttemptState.FailedPreEmit then None
                    else RecallNeed.active_presentation_attempt_id need in
      Ok (set_needs self (<[id := (RecallNeed.set_delivery need (delivery_of state) active, seq)]> (needs self)))
  end.

Definition apply_retrieval (self : RecallLedgerState) (outcome : RecallRetrievalOutcome) (seq : N)
  : result StoreError RecallLedgerState :=
  let id := RecallRetrievalOutcome.recall_need_id outcome in
  let? entry := ok_or (needs self !! id) StoreError.StoreCorrupt in
  let need := entry.1 in
  do? guard
    ((RecallNeed.recall_need_hash need !=? RecallRetrievalOutcome.recall_need_hash outcome)
     || (RecallNeed.obligation_state need !=? RecallObligationState.Active)) StoreError.StoreCorrupt in
  match RecallRetrievalOutcome.state outcome with
  | RetrievalOutcomeState.Claimed =>
      do? guard
        ((RecallNeed.agent_response need !=? RecallAgentResponse.NotRetrieved)
         || is_some (RecallNeed.active_retrieval_request_id need)) StoreError.StoreCorrupt in
      Ok (set_needs self
            (<[id := (RecallNeed.set_agent need RecallAgentResponse.RetrievalClaimed
                        (Some (RecallRetrievalOutcome.request_id outcome)), seq)]> (needs self)))
  | state =>
      do? guard
        ((RecallNeed.agent_response need !=? RecallAgentResponse.RetrievalClaimed)
         || (RecallNeed.active_retrieval_request_id need !=? Some (RecallRetrievalOutcome.request_id outcome)))
        StoreError.StoreCorrupt in
      let response := if state ==? RetrievalOutcomeState.Returned then RecallAgentResponse.RetrievalReturned
                      else RecallAgentResponse.RetrievalUnknown in
      Ok (set_needs self
            (<[id := (RecallNeed.set_agent need response (RecallNeed.active_retrieval_request_id need), seq)]>
               (needs self)))
  end.

Definition apply (self : RecallLedgerState) (event : RecallLedgerEvent) (seq : N)
  : result StoreError RecallLedgerState :=
  do? guard (negb (validate_event event)) StoreError.StoreCorrupt in
  match event with
  | RecallLedgerEvent.NeedRecorded need => record_need self need seq
  | RecallLedgerEvent.PresentationAttempt attempt => apply_presentation self attempt seq
  | RecallLedgerEvent.RetrievalOutcome outcome => apply_retrieval self outcome seq
  end.

(** Replay of journalled events, as the projection does. *)
Fixpoint apply_all (self : RecallLedgerState) (events : list (RecallLedgerEvent * N))
  : result StoreError RecallLedgerState :=
  match events with
  | [] => Ok self
  | (event, seq) :: events => let? self := apply self event seq in apply_all self events
  end.

Definition values (self : RecallLedgerState) : list RecallNeed :=
  (fun e => e.2.1) <$> sort_by (fun a b => leb_ord a.1 b.1) (map_to_list (needs self)).

Definition last_presentation_attempt (self : RecallLedgerState) (recall_need_id : RecallNeedId)
  : option PresentationAttemptId := last_presentation_attempts self !! recall_need_id.

(** ** Rows *)

Definition row_id_of (id : RecallNeedId) : string := ("runtime:recall_need:" +:+ id_display id)%string.

Definition row_of `{J : PayloadJson} (generation : N) (entry : RecallNeed * N) : result StoreError ObjectRow :=
  let need := entry.1 in
  let? json := canonical_json (RecallLedgerRecorded (RecallLedgerEvent.NeedRecorded need)) in
  Ok (ObjectRow.mk (row_id_of (RecallNeed.recall_need_id need)) ObjectRowKind.Data
        (Some ObjectRowClass.Runtime) None (Some RECALL_NEED_KIND) None
        (Some (rid_display (RecallNeed.revision_id need)))
        (Some (if RecallNeed.obligation_state need ==? RecallObligationState.Active
               then "active" else "inactive")%string)
        (Some "runtime_ledger"%string) (Some "none"%string) None None None
        (id_display <$> RecallNeed.repository_id need) (id_display <$> RecallNeed.worktree_id need)
        (Some (id_display (RecallNeed.task_id need))) (Some (id_display (RecallNeed.workstream_id need)))
        (Some (RecallNeed.session_id need)) (Some (RowPayload.from json)) entry.2 generation).

(** [into_values] goes by increasing identifier. *)
Definition rows `{J : PayloadJson} (self : RecallLedgerState) (generation : N)
  : result StoreError (list ObjectRow) :=
  try_map (row_of generation)
    (snd <$> sort_by (fun a b => leb_ord a.1 b.1) (map_to_list (needs self))).

Definition need `{J : PayloadJson} (row : ObjectRow) : result (fault StoreError) (option RecallNeed) :=
  if ObjectRow.object_kind row !=? Some RECALL_NEED_KIND then Ok None
  else
    let? payload := ok_or (ObjectRow.payload_json row) (Raise StoreError.StoreCorrupt) in
    let? payload_json := ok_or (RowPayload.as_str payload) Panicked in
    let? payload := ok_or (payload_from_str payload_json) (Raise StoreError.StoreCorrupt) in
    let? json := map_err Raise (canonical_json payload) in
    do? guard (json !=? payload_json) (Raise StoreError.StoreCorrupt) in
    match as_recall_ledger payload with
    | Some (RecallLedgerEvent.NeedRecorded need) =>
        do? guard (negb (validate_need need)) (Raise StoreError.StoreCorrupt) in Ok (Some need)
    | _ => Err (Raise StoreError.StoreCorrupt)
    end.

Definition restore (self : RecallLedgerState) (row : ObjectRow) (need : RecallNeed)
  : result StoreError RecallLedgerState :=
  let id := RecallNeed.recall_need_id need in
  do? guard
    ((ObjectRow.row_kind row !=? ObjectRowKind.Data)
     || (ObjectRow.row_class row !=? Some ObjectRowClass.Runtime)
     || is_some (ObjectRow.object_family row)
     || (ObjectRow.object_kind row !=? Some RECALL_NEED_KIND)
     || is_some (ObjectRow.object_id row)
     || (ObjectRow.current_revision_id row !=? Some (rid_display (RecallNeed.revision_id need)))
     || (ObjectRow.row_id row !=? row_id_of id)
     || negb (validate_need need)
     || is_some (needs self !! id)) StoreError.StoreCorrupt in
  let entry := <[id := (need, ObjectRow.source_event_seq row)]> (needs self) in
  match RecallNeed.active_presentation_attempt_id need with
  | Some attempt_id =>
      do? guard (bool_decide (attempt_id ∈ presentation_attempts self)) StoreError.StoreCorrupt in
      Ok (set_claim self entry ({[attempt_id]} ∪ presentation_attempts self)
            (<[id := attempt_id]> (last_presentation_attempts self)))
  | None => Ok (set_needs self entry)
  end.

(** The rows of a projection, restored one by one ([projections.rs]). *)
Fixpoint restore_rows `{J : PayloadJson} (self : RecallLedgerState) (rows : list ObjectRow)
  : result (fault StoreError) RecallLedgerState :=
  match rows with
  | [] => Ok self
  | row :: rows =>
      let? parsed := need row in
      let? self := match parsed with
                   | Some need => map_err Raise (restore self row need)
                   | None => Ok self
                   end in
      restore_rows self rows
  end.
End step.

(** ** Lemmas *)

Import RecallLedgerState.

Lemma guard_bind_ok {E A} bad (e : E) (k : result E A) x :
  rbind (guard bad e) (fun _ => k) = Ok x <-> bad = false /\ k = Ok x.
Proof. destruct bad; cbn; naive_solver. Qed.

(** ** The ledger as a state machine *)

Section spec.
Context `{L : UuidLib} `{SHA : Sha256}.

Definition put (s : RecallLedgerState) (id : RecallNeedId) (n : RecallNeed) (seq : N) : RecallLedgerState :=
  set_needs s (<[id := (n, seq)]> (needs s)).

(** A need that has not been worked on yet. *)
Record fresh_need (n : RecallNeed) : Prop := {
  fresh_parent : RecallNeed.parent_revision_id n = None;
  fresh_delivery : RecallNeed.delivery_state n = RecallDeliveryState.Detected;
  fresh_response : RecallNeed.agent_response n = RecallAgentResponse.NotRetrieved;
  fresh_obligation : RecallNeed.obligation_state n = RecallObligationState.Active;
  fresh_attempt : RecallNeed.active_presentation_attempt_id n = None;
  fresh_request : RecallNeed.active_retrieval_request_id n = None;
}.

Record successor_need (current next : RecallNeed) : Prop := {
  successor_parent : RecallNeed.parent_revision_id next = Some (RecallNeed.revision_id current);
  successor_identity : same_need_identity current next = true;
  successor_axes : same_delivery_and_agent_axes current next = true;
  successor_legal : legal_obligation_successor current next = true;
}.

(** The need an event of another party refers to: current and active. *)
Definition refers (s : RecallLedgerState) (id : RecallNeedId) (hash : list byte) (n : RecallNeed) : Prop :=
  (exists w, needs s !! id = Some (n, w)) /\ RecallNeed.recall_need_hash n = hash /\
  RecallNeed.obligation_state n = RecallObligationState.Active.

Inductive ledger_step (s : RecallLedgerState) : RecallLedgerEvent -> N -> RecallLedgerState -> Prop :=
| step_new n seq :
    validate_need n = true -> needs s !! RecallNeed.recall_need_id n = None -> fresh_need n ->
    ledger_step s (RecallLedgerEvent.NeedRecorded n) seq (put s (RecallNeed.recall_need_id n) n seq)
| step_successor n current w seq :
    validate_need n = true -> needs s !! RecallNeed.recall_need_id n = Some (current, w) ->
    successor_need current n ->
    ledger_step s (RecallLedgerEvent.NeedRecorded n) seq (put s (RecallNeed.recall_need_id n) n seq)
| step_claim a id hash boundary t n seq :
    recall_bytes boundary = true -> (0 <= t)%Z -> refers s id hash n ->
    RecallNeed.boundary_event_ref n = boundary -> a ∉ presentation_attempts s ->
    undelivered (RecallNeed.delivery_state n) = true ->
    ledger_step s
      (RecallLedgerEvent.PresentationAttempt
         (RecallPresentationAttempt.mk a id hash boundary PresentationAttemptState.ClaimedForBoundary t)) seq
      (set_claim s (<[id := (RecallNeed.set_delivery n RecallDeliveryState.ClaimedForBoundary (Some a), seq)]> (needs s))
         ({[a]} ∪ presentation_attempts s) (<[id := a]> (last_presentation_attempts s)))
| step_outcome a id hash boundary st t n seq :
    recall_bytes boundary = true -> (0 <= t)%Z -> refers s id hash n ->
    RecallNeed.boundary_event_ref n = boundary -> st <> PresentationAttemptState.ClaimedForBoundary ->
    a ∈ presentation_attempts s -> RecallNeed.active_presentation_attempt_id n = Some a ->
    RecallNeed.delivery_state n = RecallDeliveryState.ClaimedForBoundary ->
    ledger_step s (RecallLedgerEvent.PresentationAttempt (RecallPresentationAttempt.mk a id hash boundary st t)) seq
      (put s id (RecallNeed.set_delivery n (delivery_of st)
         (if st ==? PresentationAttemptState.FailedPreEmit then None else Some a)) seq)
| step_retrieve r id hash t n seq :
    recall_bytes r = true -> (0 <= t)%Z -> refers s id hash n ->
    RecallNeed.agent_response n = RecallAgentResponse.NotRetrieved ->
    RecallNeed.active_retrieval_request_id n = None ->
    ledger_step s
      (RecallLedgerEvent.RetrievalOutcome (RecallRetrievalOutcome.mk r id hash RetrievalOutcomeState.Claimed t)) seq
      (put s id (RecallNeed.set_agent n RecallAgentResponse.RetrievalClaimed (Some r)) seq)
| step_retrieved r id hash st t n seq :
    recall_bytes r = true -> (0 <= t)%Z -> refers s id hash n ->
    st <> RetrievalOutcomeState.Claimed ->
    RecallNeed.agent_response n = RecallAgentResponse.RetrievalClaimed ->
    RecallNeed.active_retrieval_request_id n = Some r ->
    ledger_step s (RecallLedgerEvent.RetrievalOutcome (RecallRetrievalOutcome.mk r id hash st t)) seq
      (put s id (RecallNeed.set_agent n
         (if st ==? RetrievalOutcomeState.Returned then RecallAgentResponse.RetrievalReturned
          else RecallAgentResponse.RetrievalUnknown) (Some r)) seq).

Lemma record_need_ok s n seq s' :
  record_need s n seq = Ok s' <->
  s' = put s (RecallNeed.recall_need_id n) n seq /\
  match needs s !! RecallNeed.recall_need_id n with
  | None => fresh_need n
  | Some (current, _) => successor_need current n
  end.
Proof.
  unfold record_need. rewrite guard_bind_ok. fold (put s (RecallNeed.recall_need_id n) n seq).
  destruct (needs s !! _) as [[current w]|].
  - rewrite !orb_false_iff, !negb_false_iff, bool_decide_eq_true. split.
    + intros (H & [= <-]). destruct_and! H. by split; [|split].
    + by intros (-> & []).
  - rewrite !orb_false_iff, !negb_false_iff, !bool_decide_eq_true, !is_some_false. split.
    + intros (H & [= <-]). destruct_and! H. by split; [|split].
    + by intros (-> & []).
Qed.

Lemma apply_presentation_ok s a id hash boundary st t seq s' :
  apply_presentation s (RecallPresentationAttempt.mk a id hash boundary st t) seq = Ok s' <->
  exists n, refers s id hash n /\ RecallNeed.boundary_event_ref n = boundary /\
    (if decide (st = PresentationAttemptState.ClaimedForBoundary) then
      (a ∉ presentation_attempts s) /\ undelivered (RecallNeed.delivery_state n) = true /\
      s' = set_claim s (<[id := (RecallNeed.set_delivery n RecallDeliveryState.ClaimedForBoundary (Some a), seq)]> (needs s))
         ({[a]} ∪ presentation_attempts s) (<[id := a]> (last_presentation_attempts s))
    else
      a ∈ presentation_attempts s /\ RecallNeed.active_presentation_attempt_id n = Some a /\
      RecallNeed.delivery_state n = RecallDeliveryState.ClaimedForBoundary /\
      s' = put s id (RecallNeed.set_delivery n (delivery_of st)
         (if st ==? PresentationAttemptState.FailedPreEmit then None else Some a)) seq).
Proof.
  unfold apply_presentation, refers, put.
  cbn [RecallPresentationAttempt.recall_need_id RecallPresentationAttempt.presentation_attempt_id
    RecallPresentationAttempt.recall_need_hash RecallPresentationAttempt.boundary_event_ref RecallPresentationAttempt.state].
  destruct (needs s !! id) as [[n w]|] eqn:E; cbn [ok_or rbind fst].
  2:{ split; [done|]. by intros (n & ([w Hw] & _) & _). }
  rewrite guard_bind_ok, !orb_false_iff, !negb_false_iff, !bool_decide_eq_true.
  assert (Hex : forall P : RecallNeed -> Prop, (exists m, ((exists w', Some (n, w) = Some (m, w')) /\
      RecallNeed.recall_need_hash m = hash /\ RecallNeed.obligation_state m = RecallObligationState.Active) /\
      RecallNeed.boundary_event_ref m = boundary /\ P m) <->
    ((RecallNeed.recall_need_hash n = hash /\ RecallNeed.boundary_event_ref n = boundary) /\
      RecallNeed.obligation_state n = RecallObligationState.Active) /\ P n).
  { intros P. split; [intros (m & ([w' [= <- <-]] & ? & ?) & ? & ?); tauto|].
    intros (((? & ?) & ?) & ?). exists n. split_and!; eauto. }
  rewrite Hex. clear Hex.
  destruct (decide (st = PresentationAttemptState.ClaimedForBoundary)) as [->|Hst].
  - rewrite guard_bind_ok, orb_false_iff, negb_false_iff, bool_decide_eq_false.
    split; [intros (Hg & H & [= <-])|intros (Hg & H)]; destruct_and! H; by subst.
  - destruct st; try done;
      rewrite guard_bind_ok, !orb_false_iff, !negb_false_iff, !bool_decide_eq_true;
      (split; [intros (Hg & H & [= <-])|intros (Hg & H)]; destruct_and! H; subst; split_and!; try done;
       repeat match goal with E : RecallNeed.active_presentation_attempt_id n = _ |- _ => rewrite E; clear E end; tauto).
Qed.

Lemma apply_retrieval_ok s r id hash st t seq s' :
  apply_retrieval s (RecallRetrievalOutcome.mk r id hash st t) seq = Ok s' <->
  exists n, refers s id hash n /\
    (if decide (st = RetrievalOutcomeState.Claimed) then
      RecallNeed.agent_response n = RecallAgentResponse.NotRetrieved /\
      RecallNeed.active_retrieval_request_id n = None /\
      s' = put s id (RecallNeed.set_agent n RecallAgentResponse.RetrievalClaimed (Some r)) seq
    else
      RecallNeed.agent_response n = RecallAgentResponse.RetrievalClaimed /\
      RecallNeed.active_retrieval_request_id n = Some r /\
      s' = put s id (RecallNeed.set_agent n
         (if st ==? RetrievalOutcomeState.Returned then RecallAgentResponse.RetrievalReturned
          else RecallAgentResponse.RetrievalUnknown) (Some r)) seq).
Proof.
  unfold apply_retrieval, refers, put.
  cbn [RecallRetrievalOutcome.recall_need_id RecallRetrievalOutcome.request_id
    RecallRetrievalOutcome.recall_need_hash RecallRetrievalOutcome.state].
  destruct (needs s !! id) as [[n w]|] eqn:E; cbn [ok_or rbind fst].
  2:{ split; [done|]. by intros (n & ([w Hw] & _) & _). }
  rewrite guard_bind_ok, !orb_false_iff, !negb_false_iff, !bool_decide_eq_true.
  assert (Hex : forall P : RecallNeed -> Prop, (exists m, ((exists w', Some (n, w) = Some (m, w')) /\
      RecallNeed.recall_need_hash m = hash /\ RecallNeed.obligation_state m = RecallObligationState.Active) /\ P m) <->
    (RecallNeed.recall_need_hash n = hash /\ RecallNeed.obligation_state n = RecallObligationState.Active) /\ P n).
  { intros P. split; [intros (m & ([w' [= <- <-]] & ? & ?) & ?); tauto|].
    intros ((? & ?) & ?). exists n. split_and!; eauto. }
  rewrite Hex. clear Hex.
  destruct (decide (st = RetrievalOutcomeState.Claimed)) as [->|Hst].
  - rewrite guard_bind_ok, orb_false_iff, negb_false_iff, bool_decide_eq_true, is_some_false.
    split; [intros (Hg & H & [= <-])|intros (Hg & H)]; destruct_and! H; by subst.
  - destruct st; try done;
      rewrite guard_bind_ok, !orb_false_iff, !negb_false_iff, !bool_decide_eq_true;
      (split; [intros (Hg & H & [= <-])|intros (Hg & H)]; destruct_and! H; subst; split_and!; try done;
       repeat match goal with E : RecallNeed.active_retrieval_request_id n = _ |- _ => rewrite E; clear E end; tauto).
Qed.

Lemma validate_presentation a id hash boundary st t :
  validate_event (RecallLedgerEvent.PresentationAttempt (RecallPresentationAttempt.mk a id hash boundary st t)) = true <->
  recall_bytes boundary = true /\ (0 <= t)%Z.
Proof. cbn. by rewrite andb_true_iff, Z.leb_le. Qed.

Lemma validate_retrieval r id hash st t :
  validate_event (RecallLedgerEvent.RetrievalOutcome (RecallRetrievalOutcome.mk r id hash st t)) = true <->
  recall_bytes r = true /\ (0 <= t)%Z.
Proof. cbn. by rewrite andb_true_iff, Z.leb_le. Qed.

(** The executable step is the relation. *)
Lemma apply_step s e seq s' : apply s e seq = Ok s' <-> ledger_step s e seq s'.
Proof.
  unfold apply. rewrite guard_bind_ok, negb_false_iff. split.
  - intros [Hv H]. destruct e as [n|[a id hash boundary st t]|[r id hash st t]].
    + apply record_need_ok in H as [-> H]. destruct (needs s !! _) as [[current w]|] eqn:E.
      * by eapply step_successor.
      * by apply step_new.
    + apply validate_presentation in Hv as [Hb Ht]. apply apply_presentation_ok in H as (n & Hr & Hn & H).
      destruct (decide _) as [->|Hst]; destruct_and! H; subst s'; [by apply step_claim|by apply step_outcome].
    + apply validate_retrieval in Hv as [Hb Ht]. apply apply_retrieval_ok in H as (n & Hr & H).
      destruct (decide _) as [->|Hst]; destruct_and! H; subst s'; [by apply step_retrieve|by apply step_retrieved].
  - intros [n sq Hv E Hf|n current w sq Hv E Hs|a id hash boundary t n sq Hb Ht Hr Hn Ha Hu
      |a id hash boundary st t n sq Hb Ht Hr Hn Hst Ha Hact Hd|r id hash t n sq Hb Ht Hr Ha Hq
      |r id hash st t n sq Hb Ht Hr Hst Ha Hq].
    + split; [exact Hv|]. apply record_need_ok. by rewrite E.
    + split; [exact Hv|]. apply record_need_ok. by rewrite E.
    + rewrite validate_presentation. split; [done|]. apply apply_presentation_ok. exists n. by rewrite decide_True.
    + rewrite validate_presentation. split; [done|]. apply apply_presentation_ok. exists n. by rewrite decide_False.
    + rewrite validate_retrieval. split; [done|]. apply apply_retrieval_ok. exists n. by rewrite decide_True.
    + rewrite validate_retrieval. split; [done|]. apply apply_retrieval_ok. exists n. by rewrite decide_False.
Qed.
End spec.

(** ** The history of a need *)

Section history.
Context `{L : UuidLib} `{SHA : Sha256}.

Definition presented (d : RecallDeliveryState) : bool :=
  match d with
  | RecallDeliveryState.Emitted | RecallDeliveryState.HostPresented
  | RecallDeliveryState.PresentationUnknown => true
  | _ => false
  end.

Definition response_rank (r : RecallAgentResponse) : N :=
  match r with
  | RecallAgentResponse.NotRetrieved => 0
  | RecallAgentResponse.RetrievalClaimed => 1
  | _ => 2
  end.

(** The later state of a need against an earlier one. *)
Record evolves (a b : RecallNeed) : Prop := {
  ev_identity : same_need_identity a b = true;
  ev_settled : RecallNeed.obligation_state a <> RecallObligationState.Active -> b = a;
  ev_presented : presented (RecallNeed.delivery_state a) = true ->
    RecallNeed.delivery_state b = RecallNeed.delivery_state a /\
    RecallNeed.active_presentation_attempt_id b = RecallNeed.active_presentation_attempt_id a /\
    same_content a b = true;
  ev_request r : RecallNeed.active_retrieval_request_id a = Some r ->
    RecallNeed.active_retrieval_request_id b = Some r;
  ev_response :
    (response_rank (RecallNeed.agent_response a) < response_rank (RecallNeed.agent_response b))%N \/
    RecallNeed.agent_response b = RecallNeed.agent_response a;
}.

Lemma same_need_identity_eq a b :
  same_need_identity a b = true <->
  (RecallNeed.recall_need_id a = RecallNeed.recall_need_id b /\ RecallNeed.session_id a = RecallNeed.session_id b /\
   RecallNeed.execution_lane_id a = RecallNeed.execution_lane_id b /\ RecallNeed.task_id a = RecallNeed.task_id b /\
   RecallNeed.workstream_id a = RecallNeed.workstream_id b /\
   RecallNeed.episode_revision_id a = RecallNeed.episode_revision_id b /\
   RecallNeed.repository_id a = RecallNeed.repository_id b /\ RecallNeed.worktree_id a = RecallNeed.worktree_id b /\
   RecallNeed.boundary_event_ref a = RecallNeed.boundary_event_ref b /\
   RecallNeed.created_at_us a = RecallNeed.created_at_us b /\
   RecallNeed.obligation_expires_at_us a = RecallNeed.obligation_expires_at_us b).
Proof. unfold same_need_identity. rewrite !andb_true_iff, !bool_decide_eq_true. tauto. Qed.

Lemma same_content_eq a b :
  same_content a b = true <->
  (RecallNeed.recall_need_hash a = RecallNeed.recall_need_hash b /\
   RecallNeed.recall_plan_fingerprint a = RecallNeed.recall_plan_fingerprint b /\
   RecallNeed.trigger_family a = RecallNeed.trigger_family b /\
   RecallNeed.source_revision_ids a = RecallNeed.source_revision_ids b /\
   RecallNeed.matched_contract_ids a = RecallNeed.matched_contract_ids b /\
   RecallNeed.trigger_state a = RecallNeed.trigger_state b /\
   RecallNeed.source_watermark a = RecallNeed.source_watermark b /\
   RecallNeed.recall_plan a = RecallNeed.recall_plan b).
Proof. unfold same_content. rewrite !andb_true_iff, !bool_decide_eq_true. tauto. Qed.

Lemma same_axes_eq a b :
  same_delivery_and_agent_axes a b = true <->
  (RecallNeed.delivery_state a = RecallNeed.delivery_state b /\
   RecallNeed.agent_response a = RecallNeed.agent_response b /\
   RecallNeed.active_presentation_attempt_id a = RecallNeed.active_presentation_attempt_id b /\
   RecallNeed.active_retrieval_request_id a = RecallNeed.active_retrieval_request_id b).
Proof. unfold same_delivery_and_agent_axes. rewrite !andb_true_iff, !bool_decide_eq_true. tauto. Qed.

Lemma same_need_identity_refl a : same_need_identity a a = true.
Proof. apply same_need_identity_eq. tauto. Qed.
Lemma same_need_identity_trans a b c :
  same_need_identity a b = true -> same_need_identity b c = true -> same_need_identity a c = true.
Proof. rewrite !same_need_identity_eq. intuition congruence. Qed.
Lemma same_content_refl a : same_content a a = true.
Proof. apply same_content_eq. tauto. Qed.
Lemma same_content_trans a b c :
  same_content a b = true -> same_content b c = true -> same_content a c = true.
Proof. rewrite !same_content_eq. intuition congruence. Qed.

#[export] Instance evolves_preorder : PreOrder evolves.
Proof.
  split.
  - intros a. split; try done; [apply same_need_identity_refl| |by right].
    intros _. split_and!; [done..|apply same_content_refl].
  - intros a b c [I1 S1 P1 Q1 R1] [I2 S2 P2 Q2 R2]. split.
    + by eapply same_need_identity_trans.
    + intros H. pose proof (S1 H) as ->. by apply S2.
    + intros H. destruct (P1 H) as (D1 & A1 & C1). rewrite <-D1 in H.
      destruct (P2 H) as (D2 & A2 & C2). split_and!; [congruence..|]. by eapply same_content_trans.
    + auto.
    + destruct R1 as [R1|R1], R2 as [R2|R2]; rewrite ?R1, ?R2 in *; [left; lia|by left..|by right].
Qed.

(** A recorded successor is an evolution. *)
Lemma successor_evolves a b : successor_need a b -> evolves a b.
Proof.
  intros [_ Hi Ha Hl]. apply same_axes_eq in Ha as (Ad & Ar & Aa & Aq). unfold legal_obligation_successor in Hl.
  destruct (bool_decide_reflect (RecallNeed.obligation_state a = RecallObligationState.Active)) as [Hact|];
    cbn in Hl; [|done].
  split; [done|done| |congruence|by right].
  intros Hp. split_and!; [done..|].
  assert (undelivered (RecallNeed.delivery_state a) = false) as Hu
    by by destruct (RecallNeed.delivery_state a).
  rewrite Hu in Hl. cbn in Hl. destruct (bool_decide _); [done|]. by apply andb_true_iff in Hl as [? _].
Qed.

Lemma set_delivery_evolves n d a :
  RecallNeed.obligation_state n = RecallObligationState.Active ->
  presented (RecallNeed.delivery_state n) = false -> evolves n (RecallNeed.set_delivery n d a).
Proof. intros H Hp. split; try done; [apply same_need_identity_eq; cbn; tauto|congruence|by right]. Qed.

Lemma set_agent_evolves n r q :
  RecallNeed.obligation_state n = RecallObligationState.Active ->
  (response_rank (RecallNeed.agent_response n) < response_rank r)%N ->
  (forall q', RecallNeed.active_retrieval_request_id n = Some q' -> q = Some q') ->
  evolves n (RecallNeed.set_agent n r q).
Proof.
  intros H Hr Hq. split; try done; [apply same_need_identity_eq; cbn; tauto| |by left].
  intros _. split_and!; [done..|apply same_content_eq; cbn; tauto].
Qed.

Lemma undelivered_presented d : undelivered d = true -> presented d = false.
Proof. by destruct d. Qed.

Lemma successor_active a b : successor_need a b -> RecallNeed.obligation_state a = RecallObligationState.Active.
Proof.
  intros [_ _ _ Hl]. unfold legal_obligation_successor in Hl.
  by destruct (bool_decide_reflect (RecallNeed.obligation_state a = RecallObligationState.Active)).
Qed.

(** Replacing the entry of an active need by one it evolves to. *)
Lemma insert_evolves (m : gmap RecallNeedId (RecallNeed * N)) id id' n n' a w w' seq :
  m !! id' = Some (a, w') -> RecallNeed.obligation_state a = RecallObligationState.Active -> evolves a n' ->
  m !! id = Some (n, w) ->
  exists n2 w2, <[id' := (n', seq)]> m !! id = Some (n2, w2) /\ evolves n n2 /\
    (RecallNeed.obligation_state n <> RecallObligationState.Active -> w2 = w).
Proof.
  intros Ha Hact Hev Hn. destruct (decide (id = id')) as [<-|Hne].
  - rewrite lookup_insert_eq. exists n', seq. simplify_eq. split_and!; done.
  - rewrite lookup_insert_ne by done. exists n, w. split_and!; done.
Qed.

(** One step: the needs of others stay, the need of the event evolves. *)
Lemma step_evolves s e seq s' id n w :
  ledger_step s e seq s' -> needs s !! id = Some (n, w) ->
  exists n' w', needs s' !! id = Some (n', w') /\ evolves n n' /\
    (RecallNeed.obligation_state n <> RecallObligationState.Active -> w' = w).
Proof.
  intros H Hn. destruct H as [m sq Hv E Hf|m current q sq Hv E Hs|a id' hash boundary t m sq Hb Ht Hr Hm Ha Hu
      |a id' hash boundary st t m sq Hb Ht Hr Hm Hst Ha Hact Hd|r id' hash t m sq Hb Ht Hr Ha Hq
      |r id' hash st t m sq Hb Ht Hr Hst Ha Hq]; cbn [needs put set_needs set_claim];
    try (destruct Hr as ([q Hq'] & _ & Hact')).
  - rewrite lookup_insert_ne by congruence. exists n, w. by split_and!.
  - eapply insert_evolves; [exact E|by eapply successor_active|by apply successor_evolves|done].
  - eapply insert_evolves; [exact Hq'|done| |done]. by apply set_delivery_evolves, undelivered_presented.
  - eapply insert_evolves; [exact Hq'|done| |done]. apply set_delivery_evolves; [done|]. by rewrite Hd.
  - eapply insert_evolves; [exact Hq'|done| |done]. apply set_agent_evolves; [done|by rewrite Ha|congruence].
  - eapply insert_evolves; [exact Hq'|done| |done]. apply set_agent_evolves; [done| |congruence].
    rewrite Ha. by destruct st.
Qed.

Lemma ledger_replay_app s evs fvs s' :
  apply_all s (evs ++ fvs) = Ok s' <-> exists t, apply_all s evs = Ok t /\ apply_all t fvs = Ok s'.
Proof.
  revert s. induction evs as [|[e q] evs IH]; intros s; cbn; [naive_solver|].
  destruct (apply s e q); cbn; [apply IH|naive_solver].
Qed.

Lemma replay_evolves evs : forall s s' id n w,
  apply_all s evs = Ok s' -> needs s !! id = Some (n, w) ->
  exists n' w', needs s' !! id = Some (n', w') /\ evolves n n' /\
    (RecallNeed.obligation_state n <> RecallObligationState.Active -> w' = w).
Proof.
  induction evs as [|[e q] evs IH]; intros s s' id n w H Hn; cbn in H.
  - injection H as <-. exists n, w. by split_and!.
  - apply rbind_ok in H as (t & H & Ht). apply apply_step in H.
    destruct (step_evolves _ _ _ _ _ _ _ H Hn) as (n1 & w1 & H1 & E1 & W1).
    destruct (IH _ _ _ _ _ Ht H1) as (n2 & w2 & H2 & E2 & W2).
    exists n2, w2. split_and!; [done|by etransitivity|]. intros Hact.
    rewrite W2; [by apply W1|]. by rewrite (ev_settled _ _ E1 Hact).
Qed.
End history.

(** ** Presentation attempts *)

Section attempts.
Context `{L : UuidLib} `{SHA : Sha256}.

Definition claim_of (e : RecallLedgerEvent) : option PresentationAttemptId :=
  match e with
  | RecallLedgerEvent.PresentationAttempt a =>
      if RecallPresentationAttempt.state a ==? PresentationAttemptState.ClaimedForBoundary
      then Some (RecallPresentationAttempt.presentation_attempt_id a) else None
  | _ => None
  end.

Definition outcome_of (e : RecallLedgerEvent) : option PresentationAttemptId :=
  match e with
  | RecallLedgerEvent.PresentationAttempt a =>
      if RecallPresentationAttempt.state a ==? PresentationAttemptState.ClaimedForBoundary
      then None else Some (RecallPresentationAttempt.presentation_attempt_id a)
  | _ => None
  end.

(** The attempts claimed and the attempts concluded by a journal. *)
Definition claims (evs : list (RecallLedgerEvent * N)) : list PresentationAttemptId := omap (fun e => claim_of e.1) evs.
Definition outcomes (evs : list (RecallLedgerEvent * N)) : list PresentationAttemptId := omap (fun e => outcome_of e.1) evs.

(** [active s a id]: the need [id] carries the attempt [a]. *)
Definition carries (s : RecallLedgerState) (id : RecallNeedId) (a : PresentationAttemptId) : Prop :=
  exists n w, needs s !! id = Some (n, w) /\ RecallNeed.active_presentation_attempt_id n = Some a.

(** The attempts of a ledger: each is carried by at most one need, and only
    claimed ones are. *)
Record attempts_inv (s : RecallLedgerState) : Prop := {
  carried_claimed id a : carries s id a -> a ∈ presentation_attempts s;
  carried_once id id' a : carries s id a -> carries s id' a -> id = id';
}.

(** What has been claimed and concluded so far. *)
Record attempts_log (s : RecallLedgerState) (cs os : list PresentationAttemptId) : Prop := {
  log_claims a : a ∈ presentation_attempts s <-> a ∈ cs;
  log_claims_once : NoDup cs;
  log_outcomes_once : NoDup os;
  log_outcomes_claimed : os ⊆ cs;
  log_open id n w a : needs s !! id = Some (n, w) ->
    RecallNeed.active_presentation_attempt_id n = Some a ->
    RecallNeed.delivery_state n = RecallDeliveryState.ClaimedForBoundary -> a ∉ os;
}.

Lemma carries_insert s t id n seq id' a :
  carries t id' a -> needs t = <[id := (n, seq)]> (needs s) ->
  id' = id /\ RecallNeed.active_presentation_attempt_id n = Some a \/ id' <> id /\ carries s id' a.
Proof.
  intros (m & w & Hm & Ha) E. rewrite E in Hm. destruct (decide (id' = id)) as [->|Hne].
  - rewrite lookup_insert_eq in Hm. simplify_eq. by left.
  - rewrite lookup_insert_ne in Hm by done. right. split; [done|]. by exists m, w.
Qed.

(** An update that hands the need no attempt it did not carry. *)
Lemma attempts_keep s t id n seq :
  attempts_inv s -> needs t = <[id := (n, seq)]> (needs s) ->
  presentation_attempts t = presentation_attempts s ->
  (forall a, RecallNeed.active_presentation_attempt_id n = Some a -> carries s id a) -> attempts_inv t.
Proof.
  intros [H1 H2] E Ep Ha.
  assert (K : forall id' a, carries t id' a -> carries s id' a).
  { intros id' a Hc. destruct (carries_insert _ _ _ _ _ _ _ Hc E) as [[-> Hn]|[_ ?]]; auto. }
  split; intros; rewrite ?Ep; eauto.
Qed.

Lemma step_attempts_inv s e seq s' : ledger_step s e seq s' -> attempts_inv s -> attempts_inv s'.
Proof.
  intros H Hi. destruct H as [m sq Hv E Hf|m current q sq Hv E Hs|a id' hash boundary t m sq Hb Ht Hr Hm Ha Hu
      |a id' hash boundary st t m sq Hb Ht Hr Hm Hst Ha Hact Hd|r id' hash t m sq Hb Ht Hr Ha Hq
      |r id' hash st t m sq Hb Ht Hr Hst Ha Hq]; try (destruct Hr as ([q Hq'] & _ & Hact')).
  - eapply attempts_keep; [done..|]. intros a Ha. by rewrite (fresh_attempt _ Hf) in Ha.
  - eapply attempts_keep; [done..|]. intros a Ha. exists current, q. split; [done|].
    destruct (proj1 (same_axes_eq _ _) (successor_axes _ _ Hs)) as (_ & _ & -> & _). done.
  - destruct Hi as [H1 H2]. split.
    + intros i b Hc. cbn. destruct (carries_insert s _ _ _ _ _ _ Hc eq_refl) as [[-> Hn]|[_ ?]]; [set_solver|].
      apply elem_of_union_r. eauto.
    + intros i j b Hi Hj.
      destruct (carries_insert s _ _ _ _ _ _ Hi eq_refl) as [[-> Hn]|[_ Hi']],
        (carries_insert s _ _ _ _ _ _ Hj eq_refl) as [[-> Hn']|[_ Hj']]; [done| | |by eauto];
        cbn in *; simplify_eq; exfalso; eauto.
  - eapply attempts_keep; [done..|]. intros b Hb'. exists m, q. split; [done|]. cbn in Hb'.
    destruct (bool_decide _); [done|by rewrite Hact].
  - eapply attempts_keep; [done..|]. intros b Hb'. by exists m, q.
  - eapply attempts_keep; [done..|]. intros b Hb'. by exists m, q.
Qed.

(** An update of a need that opens no attempt. *)
Lemma log_keep s t cs os id n seq :
  attempts_log s cs os -> needs t = <[id := (n, seq)]> (needs s) ->
  presentation_attempts t = presentation_attempts s ->
  (forall a, RecallNeed.active_presentation_attempt_id n = Some a ->
    RecallNeed.delivery_state n = RecallDeliveryState.ClaimedForBoundary ->
    exists m w, needs s !! id = Some (m, w) /\ RecallNeed.active_presentation_attempt_id m = Some a /\
      RecallNeed.delivery_state m = RecallDeliveryState.ClaimedForBoundary) -> attempts_log t cs os.
Proof.
  intros [H1 H2 H3 H4 H5] E Ep Ha. split; try done; [by rewrite Ep|].
  intros id' m w a Hm Hact Hd. rewrite E in Hm. destruct (decide (id' = id)) as [->|Hne].
  - rewrite lookup_insert_eq in Hm. simplify_eq. destruct (Ha a Hact Hd) as (m' & w' & Hm' & ? & ?). eauto.
  - rewrite lookup_insert_ne in Hm by done. eauto.
Qed.

Lemma step_log s e seq s' cs os :
  ledger_step s e seq s' -> attempts_inv s -> attempts_log s cs os ->
  attempts_log s' (cs ++ option_list (claim_of e)) (os ++ option_list (outcome_of e)).
Proof.
  intros H Hinv Hlog. destruct H as [m sq Hv E Hf|m current q sq Hv E Hs|a id' hash boundary t m sq Hb Ht Hr Hm Ha Hu
      |a id' hash boundary st t m sq Hb Ht Hr Hm Hst Ha Hact Hd|r id' hash t m sq Hb Ht Hr Ha Hq
      |r id' hash st t m sq Hb Ht Hr Hst Ha Hq]; try (destruct Hr as ([q Hq'] & _ & Hact'));
    cbn [claim_of outcome_of option_list]; rewrite ?app_nil_r.
  - eapply log_keep; [done..|]. intros a Ha. by rewrite (fresh_attempt _ Hf) in Ha.
  - eapply log_keep; [done..|]. intros a Ha Hd. exists current, q.
    destruct (proj1 (same_axes_eq _ _) (successor_axes _ _ Hs)) as (Ed & _ & Ea & _). by rewrite Ed, Ea.
  - destruct Hlog as [H1 H2 H3 H4 H5]. cbn. rewrite ?app_nil_r. split; try done.
    + intros b. cbn. set_solver.
    + apply NoDup_app. split_and!; [done| |apply NoDup_singleton]. intros b Hb' ->%list_elem_of_singleton.
      by apply Ha, H1.
    + set_solver.
    + intros i n w b Hn Hb' Hd. cbn in Hn. destruct (decide (i = id')) as [->|Hne].
      * rewrite lookup_insert_eq in Hn. simplify_eq. cbn in Hb'. simplify_eq. intros Hin. by apply Ha, H1, H4.
      * rewrite lookup_insert_ne in Hn by done. eauto.
  - cbn [RecallPresentationAttempt.state RecallPresentationAttempt.presentation_attempt_id].
    rewrite (bool_decide_eq_false_2 _ Hst). cbn [option_list]. rewrite app_nil_r.
    destruct Hlog as [H1 H2 H3 H4 H5]. split; try done.
    + apply NoDup_app. split_and!; [done| |apply NoDup_singleton]. intros b Hb' ->%list_elem_of_singleton. by eapply H5.
    + apply H1 in Ha. set_solver.
    + intros i n w b Hn Hb' Hd'. cbn in Hn. destruct (decide (i = id')) as [->|Hne].
      * rewrite lookup_insert_eq in Hn. simplify_eq. cbn in Hd'. by destruct st.
      * rewrite lookup_insert_ne in Hn by done. rewrite not_elem_of_app. split; [by eauto|].
        intros ->%list_elem_of_singleton. apply Hne. eapply (carried_once s Hinv i id' a).
        -- by exists n, w.
        -- by exists m, q.
  - eapply log_keep; [done..|]. intros b Hb' Hd'. by exists m, q.
  - eapply log_keep; [done..|]. intros b Hb' Hd'. by exists m, q.
Qed.

Lemma no_need id n w : needs default !! id = Some (n, w) -> False.
Proof. cbn. by rewrite lookup_empty. Qed.

Lemma attempts_start : attempts_inv default /\ attempts_log default [] [].
Proof.
  split.
  - split.
    + intros id a (n & w & Hn & _). destruct (no_need _ _ _ Hn).
    + intros id id' a (n & w & Hn & _). destruct (no_need _ _ _ Hn).
  - split.
    + intros a. cbn. set_solver.
    + constructor.
    + constructor.
    + done.
    + intros id n w a Hn. destruct (no_need _ _ _ Hn).
Qed.

Lemma replay_attempts evs : forall s s' cs os,
  attempts_inv s -> attempts_log s cs os -> apply_all s evs = Ok s' ->
  attempts_inv s' /\ attempts_log s' (cs ++ claims evs) (os ++ outcomes evs).
Proof.
  induction evs as [|[e q] evs IH]; intros s s' cs os Hi Hl H; cbn [apply_all] in H.
  - injection H as <-. unfold claims, outcomes. cbn. by rewrite !app_nil_r.
  - apply rbind_ok in H as (t & H & Ht). apply apply_step in H.
    destruct (IH t s' (cs ++ option_list (claim_of e)) (os ++ option_list (outcome_of e))) as [? Hl'];
      [by eapply step_attempts_inv|by eapply step_log|done|]. split; [done|].
    rewrite <-!app_assoc in Hl'. unfold claims, outcomes in *. cbn.
    destruct (claim_of e), (outcome_of e); exact Hl'.
Qed.
End attempts.

(** ** Validity of the stored needs *)

Section validity.
Context `{L : UuidLib} `{SHA : Sha256}.

(** Request identifiers of the callers are UUIDs; the event itself is not
    checked for control characters, the need that carries it is. *)
Definition request_plain (e : RecallLedgerEvent) : Prop :=
  match e with
  | RecallLedgerEvent.RetrievalOutcome o => any is_control (chars (RecallRetrievalOutcome.request_id o)) = false
  | _ => True
  end.

Definition ledger_valid (s : RecallLedgerState) : Prop :=
  forall id n w, needs s !! id = Some (n, w) -> validate_need n = true /\ RecallNeed.recall_need_id n = id.

Lemma set_delivery_valid n d a :
  validate_need n = true -> is_some a = negb (undelivered d) ->
  validate_need (RecallNeed.set_delivery n d a) = true.
Proof.
  unfold validate_need. rewrite !andb_true_iff, !Bool.eqb_true_iff. intros H Ha.
  destruct_and! H. split_and!; assumption.
Qed.

Lemma set_agent_valid n r q :
  validate_need n = true -> is_none_or q recall_text = true ->
  is_some q = (r !=? RecallAgentResponse.NotRetrieved) ->
  validate_need (RecallNeed.set_agent n r q) = true.
Proof.
  unfold validate_need. rewrite !andb_true_iff, !Bool.eqb_true_iff. intros H Hq Hr.
  destruct_and! H. split_and!; assumption.
Qed.

Lemma recall_text_bytes r : any is_control (chars r) = false -> recall_bytes r = true -> recall_text r = true.
Proof. unfold recall_bytes, recall_text. intros -> H. by rewrite H. Qed.

Lemma valid_request n r :
  validate_need n = true -> RecallNeed.active_retrieval_request_id n = Some r -> recall_text r = true.
Proof.
  unfold validate_need. rewrite !andb_true_iff. intros H E. destruct_and! H.
  match goal with G : is_none_or _ recall_text = true |- _ => by rewrite E in G end.
Qed.

Lemma insert_valid s t id n seq :
  ledger_valid s -> needs t = <[id := (n, seq)]> (needs s) -> validate_need n = true ->
  RecallNeed.recall_need_id n = id -> ledger_valid t.
Proof.
  intros Hs E Hv Hid id' n' w H. rewrite E in H. destruct (decide (id' = id)) as [->|Hne].
  - rewrite lookup_insert_eq in H. by simplify_eq.
  - rewrite lookup_insert_ne in H by done. eauto.
Qed.

Lemma step_valid s e seq s' :
  ledger_step s e seq s' -> request_plain e -> ledger_valid s -> ledger_valid s'.
Proof.
  intros H Hp Hs. destruct H as [m sq Hv E Hf|m current q sq Hv E Hc|a id' hash boundary t m sq Hb Ht Hr Hm Ha Hu
      |a id' hash boundary st t m sq Hb Ht Hr Hm Hst Ha Hact Hd|r id' hash t m sq Hb Ht Hr Ha Hq
      |r id' hash st t m sq Hb Ht Hr Hst Ha Hq];
    try (destruct Hr as ([q Hq'] & _ & Hact'); destruct (Hs _ _ _ Hq') as [Hv Hid]);
    (eapply insert_valid; [exact Hs|reflexivity| |done]); try exact Hv.
  - by apply set_delivery_valid.
  - apply set_delivery_valid; [done|]. by destruct st.
  - apply set_agent_valid; [done| |done]. by apply recall_text_bytes.
  - apply set_agent_valid; [done|by eapply valid_request|]. by destruct st.
Qed.

Lemma replay_valid evs : forall s s',
  apply_all s evs = Ok s' -> Forall (fun e => request_plain e.1) evs -> ledger_valid s -> ledger_valid s'.
Proof.
  induction evs as [|[e q] evs IH]; intros s s' H Hp Hs; cbn [apply_all] in H; [by simplify_eq|].
  apply rbind_ok in H as (t & H & Ht). apply apply_step in H. apply Forall_cons in Hp as [Hp1 Hp2].
  eapply IH; [exact Ht|done|]. by eapply step_valid.
Qed.
End validity.

(** ** Restoration *)

Section restoration.
Context `{L : UuidLib} `{SHA : Sha256} `{J : PayloadJson, !PayloadLaws J}.

Lemma need_of_row generation n w row :
  row_of generation (n, w) = Ok row -> validate_need n = true -> need row = Ok (Some n).
Proof.
  unfold row_of. cbn [fst snd]. intros H Hv. apply rbind_ok in H as (json & Hj & [= <-]). unfold need.
  cbn [ObjectRow.object_kind ObjectRow.payload_json ok_or rbind].
  rewrite (bool_decide_eq_true_2 _ (eq_refl (Some RECALL_NEED_KIND))). cbn [negb].
  rewrite (BlockFacts.as_str_from json) by by eapply canonical_json_text. cbn [ok_or rbind].
  rewrite (from_canonical_json _ _ Hj). cbn [ok_or rbind]. rewrite Hj. cbn [map_err rbind].
  rewrite (bool_decide_eq_true_2 _ (eq_refl json)). cbn [negb guard rbind].
  rewrite as_recall_recorded, Hv. done.
Qed.

Lemma restore_row generation s n w row :
  row_of generation (n, w) = Ok row -> validate_need n = true -> needs s !! RecallNeed.recall_need_id n = None ->
  (forall a, RecallNeed.active_presentation_attempt_id n = Some a -> a ∉ presentation_attempts s) ->
  exists s', restore s row n = Ok s' /\
    needs s' = <[RecallNeed.recall_need_id n := (n, w)]> (needs s) /\
    (forall a, a ∈ presentation_attempts s' <->
       a ∈ presentation_attempts s \/ RecallNeed.active_presentation_attempt_id n = Some a).
Proof.
  unfold row_of. cbn [fst snd]. intros H Hv Hn Ha. apply rbind_ok in H as (json & Hj & [= <-]). unfold restore.
  cbn [ObjectRow.row_kind ObjectRow.row_class ObjectRow.object_family ObjectRow.object_kind ObjectRow.object_id
    ObjectRow.current_revision_id ObjectRow.row_id ObjectRow.source_event_seq].
  rewrite Hv, Hn, !bool_decide_eq_true_2 by done. cbn [negb orb is_some guard rbind].
  destruct (RecallNeed.active_presentation_attempt_id n) as [a|].
  - rewrite bool_decide_eq_false_2 by auto. cbn [guard rbind]. eexists. split; [done|]. split; [done|].
    intros b. cbn. rewrite elem_of_union, elem_of_singleton. split; [intros [->|?]; auto|intros [?|[= ->]]; auto].
  - eexists. split; [done|]. split; [done|]. intros b. cbn. split; [by left|by intros [?|?]].
Qed.

Definition entry := (RecallNeedId * (RecallNeed * N))%type.

Lemma restore_entries generation (l : list entry) : forall s rs,
  try_map (row_of generation) (snd <$> l) = Ok rs ->
  Forall (fun e : entry => validate_need e.2.1 = true /\ RecallNeed.recall_need_id e.2.1 = e.1) l ->
  NoDup l.*1 -> (forall e, e ∈ l -> needs s !! e.1 = None) ->
  (forall e a, e ∈ l -> RecallNeed.active_presentation_attempt_id e.2.1 = Some a -> a ∉ presentation_attempts s) ->
  (forall (e f : entry) a, e ∈ l -> f ∈ l -> RecallNeed.active_presentation_attempt_id e.2.1 = Some a ->
     RecallNeed.active_presentation_attempt_id f.2.1 = Some a -> e.1 = f.1) ->
  exists s', restore_rows s rs = Ok s' /\ needs s' = list_to_map l ∪ needs s /\
    (forall a, a ∈ presentation_attempts s' <-> a ∈ presentation_attempts s \/
       exists e, e ∈ l /\ RecallNeed.active_presentation_attempt_id e.2.1 = Some a).
Proof.
  induction l as [|[id [n w]] l IH]; intros s rs Hrs Hv Hnd Hf Ha Hd.
  - injection Hrs as <-. exists s. split_and!; [done|symmetry; exact (map_empty_union (needs s))|].
    intros a. split; [by left|intros [?|(e & []%elem_of_nil & _)]; done].
  - cbn [fmap list_fmap try_map] in Hrs. apply rbind_ok in Hrs as (row & Hrow & Hrs).
    apply rbind_ok in Hrs as (rows & Hrows & [= <-]).
    apply Forall_cons in Hv as [[Hvn Hid] Hv]. cbn in Hvn, Hid. subst id.
    apply NoDup_cons in Hnd as [Hnin Hnd]. cbn in Hnin.
    destruct (restore_row generation s n w row Hrow Hvn) as (t & Ht & Hneeds & Hatt).
    { apply (Hf (RecallNeed.recall_need_id n, (n, w))). by left. }
    { intros a. apply (Ha (RecallNeed.recall_need_id n, (n, w))). by left. }
    destruct (IH t rows Hrows Hv Hnd) as (s' & Hs' & Hn' & Ha').
    + intros e He. rewrite Hneeds, lookup_insert_ne; [apply Hf; by right|].
      intros E. apply Hnin. rewrite E. by apply list_elem_of_fmap_2.
    + intros e a He Hact Hin. apply Hatt in Hin as [Hin|Hin]; [by apply (Ha e a); [right|..]|].
      apply Hnin. replace (RecallNeed.recall_need_id n) with e.1; [by apply list_elem_of_fmap_2|].
      apply (Hd e (RecallNeed.recall_need_id n, (n, w)) a); [by right|by left|done|done].
    + intros e f a He Hf'. apply Hd; by right.
    + exists s'. split_and!.
      * cbn [restore_rows]. rewrite (need_of_row generation n w row Hrow Hvn). cbn [rbind]. rewrite Ht. exact Hs'.
      * rewrite Hn', Hneeds. cbn [list_to_map foldr]. unfold uncurry. cbn [fst snd].
        rewrite <-insert_union_r, insert_union_l; [done|]. by apply not_elem_of_list_to_map_1.
      * intros a. rewrite Ha', Hatt. split.
        -- intros [[?|?]|(e & He & ?)]; [by left|right; eexists; split; [by left|done]|right; exists e; split; [by right|done]].
        -- intros [?|(e & [->|He]%elem_of_cons & ?)]; [by left; left|by left; right|right; eauto].
Qed.
End restoration.

(** ** A restored ledger against an uninterrupted one *)

Section simulation.
Context `{L : UuidLib} `{SHA : Sha256}.

(** Same needs; of the attempts the restored ledger knows those a need carries. *)
Record restored (s r : RecallLedgerState) : Prop := {
  restored_needs : needs r = needs s;
  restored_fewer : presentation_attempts r ⊆ presentation_attempts s;
  restored_carried id a : carries s id a -> a ∈ presentation_attempts r;
}.

Lemma restored_put s r id n seq :
  restored s r -> (forall a, RecallNeed.active_presentation_attempt_id n = Some a -> carries s id a) ->
  restored (put s id n seq) (put r id n seq).
Proof.
  intros [H1 H2 H3] Ha. split; cbn; [by rewrite H1|done|].
  intros i a Hc. destruct (carries_insert s _ _ _ _ _ _ Hc eq_refl) as [[-> Hn]|[_ ?]]; eauto.
Qed.

Lemma restored_claim s r id n a seq ls lr :
  restored s r -> RecallNeed.active_presentation_attempt_id n = Some a ->
  restored (set_claim s (<[id := (n, seq)]> (needs s)) ({[a]} ∪ presentation_attempts s) ls)
    (set_claim r (<[id := (n, seq)]> (needs r)) ({[a]} ∪ presentation_attempts r) lr).
Proof.
  intros [H1 H2 H3] Ha. split; cbn; [by rewrite H1|set_solver|].
  intros i b Hc. destruct (carries_insert s _ _ _ _ _ _ Hc eq_refl) as [[-> Hn]|[_ ?]]; [set_solver|].
  apply elem_of_union_r. eauto.
Qed.

Lemma refers_restored s r id hash n : restored s r -> refers s id hash n <-> refers r id hash n.
Proof. intros [H _ _]. unfold refers. by rewrite H. Qed.

(** Everything the uninterrupted ledger accepts the restored one accepts. *)
Lemma restored_step s r e seq s' :
  restored s r -> ledger_step s e seq s' -> exists r', ledger_step r e seq r' /\ restored s' r'.
Proof.
  intros Hr H. pose proof (restored_needs _ _ Hr) as En.
  destruct H as [m sq Hv E Hf|m current q sq Hv E Hc|a id' hash boundary t m sq Hb Ht Href Hm Ha Hu
      |a id' hash boundary st t m sq Hb Ht Href Hm Hst Ha Hact Hd|q id' hash t m sq Hb Ht Href Ha Hq
      |q id' hash st t m sq Hb Ht Href Hst Ha Hq];
    try (apply (refers_restored s r _ _ _ Hr) in Href as Href'; destruct Href as ([q' Hq'] & _ & _)).
  - eexists. split; [apply step_new; by rewrite ?En|]. apply restored_put; [done|].
    intros a Ha. by rewrite (fresh_attempt _ Hf) in Ha.
  - eexists. split; [eapply step_successor; [done|by rewrite En|done]|]. apply restored_put; [done|].
    intros a Ha. exists current, q. split; [done|].
    destruct (proj1 (same_axes_eq _ _) (successor_axes _ _ Hc)) as (_ & _ & -> & _). done.
  - eexists. split; [apply step_claim; try done|by apply restored_claim].
    intros Hin. apply Ha. by apply (restored_fewer _ _ Hr).
  - eexists. split; [apply step_outcome; try done|].
    + apply (restored_carried _ _ Hr id'). by exists m, q'.
    + apply restored_put; [done|]. intros b Hb'. exists m, q'. split; [done|]. cbn in Hb'.
      destruct (bool_decide _); [done|by rewrite Hact].
  - eexists. split; [by apply step_retrieve|]. apply restored_put; [done|]. intros b Hb'. by exists m, q'.
  - eexists. split; [by apply step_retrieved|]. apply restored_put; [done|]. intros b Hb'. by exists m, q'.
Qed.

(** What it accepts beyond that is the claim of an attempt already used. *)
Lemma restored_extra s r e seq r' :
  restored s r -> ledger_step r e seq r' ->
  (exists s', ledger_step s e seq s' /\ restored s' r') \/
  exists a, claim_of e = Some a /\ a ∈ presentation_attempts s /\ a ∉ presentation_attempts r.
Proof.
  intros Hr H. pose proof (restored_needs _ _ Hr) as En.
  destruct H as [m sq Hv E Hf|m current q sq Hv E Hc|a id' hash boundary t m sq Hb Ht Href Hm Ha Hu
      |a id' hash boundary st t m sq Hb Ht Href Hm Hst Ha Hact Hd|q id' hash t m sq Hb Ht Href Ha Hq
      |q id' hash st t m sq Hb Ht Href Hst Ha Hq];
    try (apply (refers_restored s r _ _ _ Hr) in Href as Href'; destruct Href' as ([q' Hq'] & _ & _)).
  - left. eexists. split; [apply step_new; by rewrite <-?En|]. apply restored_put; [done|].
    intros a Ha. by rewrite (fresh_attempt _ Hf) in Ha.
  - left. eexists. split; [eapply step_successor; [done|by rewrite <-En|done]|]. apply restored_put; [done|].
    intros a Ha. exists current, q. rewrite <-En. split; [done|].
    destruct (proj1 (same_axes_eq _ _) (successor_axes _ _ Hc)) as (_ & _ & -> & _). done.
  - destruct (decide (a ∈ presentation_attempts s)) as [Hin|Hin].
    + right. exists a. cbn. by rewrite bool_decide_eq_true_2.
    + left. eexists. split; [apply step_claim; try done; by apply (refers_restored s r)|by apply restored_claim].
  - left. eexists. split; [apply step_outcome; try done|].
    + by apply (refers_restored s r).
    + by apply (restored_fewer _ _ Hr).
    + apply restored_put; [done|]. intros b Hb'. exists m, q'. split; [done|]. cbn in Hb'.
      destruct (bool_decide _); [done|by rewrite Hact].
  - left. eexists. split; [apply step_retrieve; try done; by apply (refers_restored s r)|].
    apply restored_put; [done|]. intros b Hb'. by exists m, q'.
  - left. eexists. split; [apply step_retrieved; try done; by apply (refers_restored s r)|].
    apply restored_put; [done|]. intros b Hb'. by exists m, q'.
Qed.

Lemma restored_replay evs : forall s r s',
  restored s r -> apply_all s evs = Ok s' -> exists r', apply_all r evs = Ok r' /\ restored s' r'.
Proof.
  induction evs as [|[e q] evs IH]; intros s r s' Hr H; cbn [apply_all] in *.
  - injection H as <-. eauto.
  - apply rbind_ok in H as (t & H & Ht). apply apply_step in H.
    destruct (restored_step _ _ _ _ _ Hr H) as (u & Hu & Hr'). apply apply_step in Hu. rewrite Hu. cbn [rbind].
    by eapply IH.
Qed.

Context `{J : PayloadJson, !PayloadLaws J}.

(** The rows of a sound ledger restore it. *)
Lemma restore_sound s generation rs :
  attempts_inv s -> ledger_valid s -> rows s generation = Ok rs ->
  exists r, restore_rows default rs = Ok r /\ restored s r.
Proof.
  intros [Hc Ho] Hv Hrs. unfold rows in Hrs.
  set (l := sort_by _ (map_to_list (needs s))) in Hrs.
  assert (Hp : l ≡ₚ map_to_list (needs s)) by apply sort_by_perm.
  assert (Hl : forall e : entry, e ∈ l <-> needs s !! e.1 = Some e.2).
  { intros [id [n w]]. rewrite (elem_of_Permutation_proper _ _ _ Hp). apply elem_of_map_to_list. }
  assert (Hnd : NoDup l.*1) by (rewrite Hp; apply NoDup_fst_map_to_list).
  destruct (restore_entries generation l default rs Hrs) as (r & Hr & Hn & Ha).
  - apply Forall_forall. intros [id [n w]] He%Hl. by eapply Hv.
  - exact Hnd.
  - intros e _. apply lookup_empty.
  - intros e a _ _. apply not_elem_of_empty.
  - intros [i [n w]] [j [m v]] a Hi%Hl Hj%Hl Hi' Hj'. apply (Ho i j a); [by exists n, w|by exists m, v].
  - exists r. split; [done|]. split.
    + rewrite Hn. change (needs default) with (∅ : gmap RecallNeedId (RecallNeed * N)).
      rewrite (right_id_L ∅ (∪)), (list_to_map_proper l (map_to_list (needs s))) by done.
      apply list_to_map_to_list.
    + intros a [H|([i [n w]] & He%Hl & Hact)]%Ha; [by apply elem_of_empty in H|].
      apply (Hc i). by exists n, w.
    + intros i a (n & w & Hi & Hact). apply Ha. right. exists (i, (n, w)). split; [by apply Hl|done].
Qed.
End simulation.
