(* ===== verification/RecallTheorems.v ===== *)
(** * Theorems on the recall ledger and its records

    What replay of the recall ledger guarantees, what restoration keeps, and what
    the digests of needs and contracts bind; each theorem with an instance on a
    concrete journal. *)

From S2P Require Import Prelude Order Collections Text Canonical Ids Digests Journal Objects Attempt Work Constraint Atom Episode Recall RecallFacts RecallLedger.

Import RecallLedgerState.

(** ** The ledger *)

(** What a replay never undoes.  Once recorded, a need is never dropped and
    keeps its identity (session, lane, task, workstream, episode, boundary,
    creation and obligation expiry).  A need that was resolved, superseded,
    canceled or expired is frozen, its source position included.  A need that was
    presented keeps its content, its attempt and its delivery outcome.  The
    retrieval of a need is claimed at most once, for one request, and concluded at
    most once. *)
Theorem need_history `{L : UuidLib, SHA : Sha256} evs (s s' : RecallLedgerState) id n w :
  apply_all s evs = Ok s' -> needs s !! id = Some (n, w) ->
  exists n' w', needs s' !! id = Some (n', w') /\ evolves n n' /\
    (RecallNeed.obligation_state n <> RecallObligationState.Active -> w' = w).
Proof. apply replay_evolves. Qed.

(** C34: a presentation attempt happens at most once.  In every journal the ledger
    accepts from the start, no attempt identifier is claimed twice, none is
    concluded twice, and only claimed attempts are concluded; at any time an
    attempt is carried by at most one need. *)
Theorem attempts_once `{L : UuidLib, SHA : Sha256} evs (s : RecallLedgerState) :
  apply_all default evs = Ok s ->
  NoDup (claims evs) /\ NoDup (outcomes evs) /\ outcomes evs ⊆ claims evs /\
  forall id id' a, carries s id a -> carries s id' a -> id = id' /\ a ∈ claims evs.
Proof.
  intros H. destruct attempts_start as [Hi Hl].
  destruct (replay_attempts evs _ _ _ _ Hi Hl H) as [Hi' [H1 H2 H3 H4 _]].
  split_and!; [done..|]. intros id id' a Hc Hc'.
  split; [by eapply carried_once|]. apply H1. by eapply carried_claimed.
Qed.

(** C36: restoring the ledger from its rows.  The rows of a ledger that replay
    produced always restore (given request identifiers without control
    characters, as the callers' UUIDs are); the restored ledger has the same needs
    at the same source positions, every journal the uninterrupted ledger goes on to
    accept is accepted by the restored one with the same needs, and a single event
    it accepts beyond that is the claim of an attempt that was used before. *)
Theorem restored_ledger `{L : UuidLib, SHA : Sha256, J : PayloadJson, !PayloadLaws J}
    evs (s : RecallLedgerState) generation rs :
  apply_all default evs = Ok s -> Forall (fun e => request_plain e.1) evs -> rows s generation = Ok rs ->
  exists r, restore_rows default rs = Ok r /\ needs r = needs s /\
    (forall more s', apply_all s more = Ok s' ->
       exists r', apply_all r more = Ok r' /\ needs r' = needs s') /\
    (forall e seq r', apply r e seq = Ok r' ->
       (exists s', apply s e seq = Ok s' /\ needs r' = needs s') \/
       exists a, claim_of e = Some a /\ a ∈ claims evs).
Proof.
  intros H Hp Hrs. destruct attempts_start as [Hi Hl].
  destruct (replay_attempts evs _ _ _ _ Hi Hl H) as [Hi' Hl'].
  assert (Hv : ledger_valid s).
  { eapply replay_valid; [exact H|done|]. intros id n w Hn. by destruct (no_need id n w). }
  destruct (restore_sound s generation rs Hi' Hv Hrs) as (r & Hr & Hsim).
  exists r. split_and!; [done|by apply restored_needs| |].
  - intros more s' Hs'. destruct (restored_replay _ _ _ _ Hsim Hs') as (r' & ? & [? _ _]). eauto.
  - intros e seq r' Hstep%apply_step.
    destruct (restored_extra _ _ _ _ _ Hsim Hstep) as [(s' & Hs' & [? _ _])|(a & Ha & Hin & _)].
    + left. exists s'. by rewrite apply_step.
    + right. exists a. split; [done|]. by apply (log_claims _ _ _ Hl').
Qed.

(** ** Seals *)

(** The hash of a need stands for the need.  As far as SHA-256 has no
    collision, two valid needs with the same hash agree on the session, the lane,
    the work they belong to, the sources, the matched contracts, the boundary, the
    trigger state, the watermark and the complete recall plan. *)
Theorem need_hash_binds `{L : UuidLib, !UuidLaws L, SHA : Sha256} (a b : RecallNeed) :
  (forall x y, sha256_digest x = sha256_digest y -> x = y) -> need_wf a -> need_wf b ->
  validate_need a = true -> validate_need b = true ->
  RecallNeed.recall_need_hash a = RecallNeed.recall_need_hash b -> need_identity a = need_identity b.
Proof.
  intros Hsha Wa Wb Va Vb E.
  apply validate_need_seals in Va as [Fa Ha], Vb as [Fb Hb]. rewrite E in Ha.
  destruct (need_canonical_free a Wa) as [Free Oa], (need_canonical_free b Wb) as [_ Ob].
  assert (Ec : need_canonical a = need_canonical b)
    by exact (sha256_map_free _ _ _ _ _ _ Hsha Oa Ob Free Ha Hb eq_refl).
  apply need_canonical_inj; [done..|].
  eapply (fingerprint_inj Hsha); [apply Wa|apply Wb|exact Fa|]. rewrite Fb. f_equal.
  unfold need_canonical in Ec. seq_fields Ec. congruence.
Qed.

(** Which atoms become future cues.  A contract is compiled exactly from a
    valid atom that is current, active, normative, accepted by the user in the
    TUI, supported if global, without end of validity, whose condition is
    structured, whose suppress and resolve conditions are present and all of whose
    fields are allowed; the contract then carries the conditions of the atom
    unchanged, is sealed by its identifier and validates. *)
Theorem compile_iff `{L : UuidLib, SHA : Sha256} (atom : Atom) current global_support watermark c :
  (str_len (rid_display (Atom.revision_id atom)) <= U64_MAX)%N ->
  (compile_atom_future_cue atom current global_support watermark = Ok c <->
   exists m exprs id, cue_source atom current global_support watermark m exprs /\
     contract_id (contract_of atom watermark m exprs) = Ok id /\
     c = FutureCueContract.set_id (contract_of atom watermark m exprs) id) /\
  (forall m exprs, cue_source atom current global_support watermark m exprs ->
     exists c, compile_atom_future_cue atom current global_support watermark = Ok c /\
       validate_contract c = Ok tt).
Proof.
  intros Hr. split; [by apply compile_ok|]. intros m exprs Hs.
  destruct (atom_parts_valid atom (source_valid _ _ _ _ _ _ Hs)) as (Vm & _ & Ve).
  rewrite (source_match _ _ _ _ _ _ Hs) in Vm. cbn in Vm.
  destruct (Ve _ (source_exprs _ _ _ _ _ _ Hs)) as [Vs Vr].
  destruct (contract_id_total atom watermark m exprs Hr Vm Vs Vr) as [id Hid].
  eexists. split; [apply compile_ok; [done|]; by exists m, exprs, id|].
  destruct (source_fields _ _ _ _ _ _ Hs) as (F1 & F2 & F3).
  by apply contract_valid; [..|apply (source_seen _ _ _ _ _ _ Hs)|].
Qed.

(** ** A concrete journal *)

#[local] Instance identity_sha : Sha256 := fun bytes => bytes.

Abbreviation sample_id f := (mk_id (f := f) sample_uuid).
Abbreviation other_id f := (mk_id (f := f) (mk_uuid 0x0190a3b17c2d7e4f8a9b0c1d2e3f4052)).
Abbreviation sample_rid := (mk_rid sample_uuid).
Abbreviation other_rid := (mk_rid (mk_uuid 0x0190a3b17c2d7e4f8a9b0c1d2e3f4052)).

Definition sample_trigger : RecallTriggerState :=
  RecallTriggerState.mk PhaseKind.Deliver CheckpointVerifierState.Passed [] None None [].
Definition sample_plan : RecallPlan :=
  RecallPlan.mk "explicit_or_recovery" [] (Some sample_rid) None ["loop"] [] [].
Definition sample_draft : RecallNeed :=
  RecallNeed.mk (sample_id FRecallNeed) sample_rid None zero_hash TriggerFamily.ExplicitOrRecovery
    [sample_rid] [] "session" (sample_id FExecutionLane) (sample_id FTask) (sample_id FWorkstream)
    sample_rid None None "boundary" sample_trigger 1 zero_hash sample_plan RecallDeliveryState.Detected
    RecallAgentResponse.NotRetrieved RecallObligationState.Active 1 10 None None None.
Definition sample_need : RecallNeed :=
  match seal_need sample_draft with Ok need => need | Err _ => sample_draft end.

Lemma sample_need_valid : validate_need sample_need = true.
Proof. vm_compute. reflexivity. Qed.

Definition sample_attempt (state : PresentationAttemptState) : RecallLedgerEvent :=
  RecallLedgerEvent.PresentationAttempt
    (RecallPresentationAttempt.mk (sample_id FPresentationAttempt) (sample_id FRecallNeed)
       (RecallNeed.recall_need_hash sample_need) "boundary" state 2).

Definition sample_journal : list (RecallLedgerEvent * N) :=
  [(RecallLedgerEvent.NeedRecorded sample_need, 1%N);
   (sample_attempt PresentationAttemptState.ClaimedForBoundary, 2%N);
   (sample_attempt PresentationAttemptState.FailedPreEmit, 3%N)].

Definition failed_need : RecallNeed :=
  RecallNeed.set_delivery sample_need RecallDeliveryState.FailedPreEmit None.

Definition sample_ledger : RecallLedgerState :=
  match apply_all default sample_journal with Ok s => s | Err _ => default end.

(** A serializer of the one payload the sample stores. *)
#[local] Instance sample_json : PayloadJson := {|
  JournalPayload := RecallLedgerEvent;
  RecallLedgerRecorded e := e;
  as_recall_ledger e := Some e;
  canonical_json e := if decide (e = RecallLedgerEvent.NeedRecorded failed_need)
                      then Ok "need"%string else Err StoreError.Serialization;
  payload_from_str s := if decide (s = "need"%string)
                        then Some (RecallLedgerEvent.NeedRecorded failed_need) else None;
|}.

#[local] Instance sample_json_laws : PayloadLaws sample_json.
Proof.
  split; cbn; [done| |].
  - intros p s. destruct (decide _) as [->|_]; [|done]. by intros [= <-].
  - intros p s. destruct (decide _) as [->|_]; [|done]. by intros [= <-].
Qed.

Lemma sample_journal_ran : apply_all default sample_journal = Ok sample_ledger.
Proof. vm_compute. reflexivity. Qed.

Definition sample_ledger_rows : list ObjectRow :=
  match rows sample_ledger 1 with Ok rs => rs | Err _ => [] end.

Definition sample_restored : RecallLedgerState :=
  match restore_rows default sample_ledger_rows with Ok r => r | Err _ => default end.

Lemma sample_rows_ran : rows sample_ledger 1 = Ok sample_ledger_rows.
Proof. vm_compute. reflexivity. Qed.

Lemma sample_restore_ran : restore_rows default sample_ledger_rows = Ok sample_restored.
Proof. vm_compute. reflexivity. Qed.

(** ** Instances *)

Lemma sample_journal_continues :
  apply_all (put default (sample_id FRecallNeed) sample_need 1) (drop 1 sample_journal) = Ok sample_ledger.
Proof. vm_compute. reflexivity. Qed.

Lemma sample_need_put :
  needs (put default (sample_id FRecallNeed) sample_need 1) !! sample_id FRecallNeed = Some (sample_need, 1%N).
Proof. vm_compute. reflexivity. Qed.

Lemma need_history_witness :
  exists n' w', needs sample_ledger !! sample_id FRecallNeed = Some (n', w') /\
    evolves sample_need n' /\
    (RecallNeed.obligation_state sample_need <> RecallObligationState.Active -> w' = 1%N).
Proof.
  apply (need_history (drop 1 sample_journal)
    (put default (sample_id FRecallNeed) sample_need 1) sample_ledger).
  - exact sample_journal_continues.
  - exact sample_need_put.
Defined.

Lemma attempts_once_witness :
  NoDup (claims sample_journal) /\ NoDup (outcomes sample_journal) /\
  outcomes sample_journal ⊆ claims sample_journal /\
  forall id id' a, carries sample_ledger id a -> carries sample_ledger id' a ->
    id = id' /\ a ∈ claims sample_journal.
Proof. apply attempts_once. exact sample_journal_ran. Defined.

Lemma sample_plain : Forall (fun e => request_plain e.1) sample_journal.
Proof. repeat (apply Forall_cons_2 || apply Forall_nil_2); exact I. Qed.

Lemma restored_ledger_witness :
  exists r, restore_rows default sample_ledger_rows = Ok r /\ needs r = needs sample_ledger.
Proof.
  destruct (restored_ledger sample_journal sample_ledger 1 sample_ledger_rows sample_journal_ran
    sample_plain sample_rows_ran) as (r & Hr & Hn & _).
  exists r. split; [exact Hr|exact Hn].
Defined.

(** What the restored ledger of the sample forgets: the attempt that failed
    before it was emitted.  The uninterrupted ledger refuses to claim it again. *)
Theorem restored_ledger_forgets :
  exists rs r, rows sample_ledger 1 = Ok rs /\ restore_rows default rs = Ok r /\
    apply sample_ledger (sample_attempt PresentationAttemptState.ClaimedForBoundary) 4 = Err StoreError.StoreCorrupt /\
    is_ok (apply r (sample_attempt PresentationAttemptState.ClaimedForBoundary) 4) = true.
Proof.
  exists sample_ledger_rows, sample_restored.
  split; [exact sample_rows_ran|split; [exact sample_restore_ran|]]. split; vm_compute; reflexivity.
Qed.

(** Two states of one need: its hash does not cover the delivery. *)
Lemma need_wf_identity a b : need_identity a = need_identity b -> need_wf a -> need_wf b.
Proof.
  unfold need_identity. intros [= E1 E2 E3 E4 E5 E6 E7 E8 E9 E10 E11 E12 E13 E14] [].
  destruct a, b; cbn in *; subst. split; assumption.
Qed.

Lemma sample_uuid_wf : uuid_wf sample_uuid.
Proof. by vm_compute. Qed.

Lemma sample_draft_wf : need_wf sample_draft.
Proof.
  pose proof sample_uuid_wf as W. split; try exact W; try discriminate.
  - apply Forall_singleton. exact W.
  - split; [apply Forall_nil_2|discriminate|discriminate|apply Forall_nil_2].
  - split; [|discriminate]. intros r [= <-]. exact W.
Qed.

Lemma sample_need_identity : need_identity sample_draft = need_identity sample_need.
Proof. vm_compute. reflexivity. Qed.

Lemma sample_need_wf : need_wf sample_need.
Proof. exact (need_wf_identity _ _ sample_need_identity sample_draft_wf). Qed.

Lemma failed_need_valid : validate_need failed_need = true.
Proof. vm_compute. reflexivity. Qed.

Lemma need_hash_binds_witness : need_identity sample_need = need_identity failed_need.
Proof.
  apply need_hash_binds.
  - intros x y H. exact H.
  - exact sample_need_wf.
  - exact (need_wf_identity sample_need failed_need eq_refl sample_need_wf).
  - exact sample_need_valid.
  - exact failed_need_valid.
  - vm_compute. reflexivity.
Defined.

Definition sample_value : AtomValue := AtomValue.mk "keep the release notes" "obligation" "applies" None [] [].
Definition sample_match : ConstraintExpr :=
  ConstraintExpr.Eq ConstraintField.Phase (ConstraintValue.Text "deliver").
Definition sample_exprs : FutureCueLifecycleExprs :=
  FutureCueLifecycleExprs.mk
    (ConstraintExpr.Eq ConstraintField.VerifierState (ConstraintValue.Text "blocked"))
    (ConstraintExpr.Eq ConstraintField.Phase (ConstraintValue.Text "released")).
Definition sample_hash : list byte :=
  match AtomValue.exact_hash sample_value with Ok hash => hash | Err _ => zero_hash end.
Definition sample_observation : SourceObservationId := from_digest (replicate 32 x02).
Definition sample_scope : AtomScope := AtomScope.Task (sample_id FTask).
Definition sample_atom : Atom :=
  Atom.mk (sample_id FAtom) sample_rid None AtomKind.Constraint EpistemicStatus.NotApplicable
    AtomLifecycleStatus.Active AtomAuthority.UserExplicit sample_value sample_scope 1
    (ApplicabilityExpr.Constraint sample_match) (Some sample_exprs) (ValidityInterval.mk 1 None)
    [AtomProvenance.AgentClaimed]
    (Some (UserAuthorizationProvenance.mk UserAuthorizationMode.TuiAcceptance sample_observation
       (replicate 32 x01) sample_hash sample_scope (Some "acceptance:1")))
    None [sample_observation] ["receipt:1"] [] [] [] (Some (sample_id FRevisionProposal)) (Some other_rid) 1.

Lemma sample_atom_valid : Atom.validate sample_atom = Ok tt.
Proof. vm_compute. reflexivity. Qed.

Lemma sample_source : cue_source sample_atom true false 7 sample_match sample_exprs.
Proof. split; try exact sample_atom_valid; try (vm_compute; reflexivity); try discriminate. split_and!; vm_compute; reflexivity. Qed.

Lemma compile_iff_witness :
  exists c, compile_atom_future_cue sample_atom true false 7 = Ok c /\ validate_contract c = Ok tt.
Proof.
  refine (proj2 (compile_iff sample_atom true false 7
    (FutureCueContract.mk [] sample_rid TriggerFamily.ProspectiveObligation 1 sample_match sample_match
       sample_match 1 None 1 1) _) sample_match sample_exprs sample_source).
  vm_compute. discriminate.
Defined.

(** A revision of the sample atom with more evidence. *)
Definition sample_revision : Atom :=
  Atom.mk (sample_id FAtom) other_rid (Some sample_rid) AtomKind.Constraint EpistemicStatus.NotApplicable
    AtomLifecycleStatus.Active AtomAuthority.UserExplicit sample_value sample_scope 1
    (ApplicabilityExpr.Constraint sample_match) (Some sample_exprs) (ValidityInterval.mk 1 (Some 9%Z))
    [AtomProvenance.AgentClaimed]
    (Some (UserAuthorizationProvenance.mk UserAuthorizationMode.TuiAcceptance sample_observation
       (replicate 32 x01) sample_hash sample_scope (Some "acceptance:2")))
    None [sample_observation] ["receipt:1"; "receipt:2"] [] [] [] (Some (sample_id FRevisionProposal))
    (Some other_rid) 2.

Lemma sample_revision_accepted : Atom.validate_successor sample_atom sample_revision = Ok tt.
Proof. vm_compute. reflexivity. Qed.

Lemma sample_revision_valid : Atom.validate sample_revision = Ok tt.
Proof. vm_compute. reflexivity. Qed.

Lemma atom_chain_narrows_witness :
  AtomFacts.narrows sample_atom sample_revision /\ Atom.lifecycle_status sample_atom = AtomLifecycleStatus.Active.
Proof.
  destruct (AtomTheorems.atom_chain_narrows 1 sample_atom sample_revision
    (chain_step _ _ _ _ _ (chain_refl _ _) sample_revision_accepted)) as (H & _ & K).
  split; [exact H|]. exact (proj1 (K Nat.lt_0_1)).
Defined.

Lemma authorization_exact_witness : Atom.value sample_atom = Atom.value sample_revision.
Proof.
  eapply (AtomTheorems.authorization_exact sample_atom sample_revision).
  - intros x y H. exact H.
  - apply Forall_nil_2.
  - apply Forall_nil_2.
  - exact sample_atom_valid.
  - exact sample_revision_valid.
  - reflexivity.
  - reflexivity.
  - reflexivity.
  - reflexivity.
  - reflexivity.
Defined.
