(* ===== verification/RecallContexts.v ===== *)
(** * Recall inputs (crates/evertrace-store/src/projections.rs,
    crates/evertrace-store/src/recall_projection.rs)

    What the recall worker reads from the projections: the current contexts (one
    per active lane of an open episode, with its checkpoints, its binding, the
    atoms in force and the active needs of the ledger), and the rows the compiled
    cues are published as.  The maps are the [BTreeMap]s of [ReducerState] the
    reader uses; whether the support of an atom is current is decided by the
    semantic projection, which is not modelled.

    Every eligible atom that compiles to a cue is published as one row of the
    objects table; the row is checked against its own contract when it is written
    and again when it is read. *)

From S2P Require Import Prelude Order Collections OrderedMap Text Canonical Ids Digests Lane Journal Objects Attempt Work Constraint Atom Episode Recall RecallLedger.

Module RecallCurrentAtom.
Record RecallCurrentAtom := mk {
  atom : Atom;
  source_event_seq : N;
}.
#[export] Instance eq_dec : EqDecision RecallCurrentAtom.
Proof. solve_decision. Defined.
End RecallCurrentAtom.
Abbreviation RecallCurrentAtom := RecallCurrentAtom.RecallCurrentAtom.
Export (hints) RecallCurrentAtom.

Module RecallCurrentContext.
Record RecallCurrentContext := mk {
  frontier : N;
  task : Task;
  workstream : Workstream;
  execution_lane : ExecutionLane;
  episode : WorkEpisode;
  checkpoint : WorkCheckpoint;
  previous_checkpoint : option WorkCheckpoint;
  binding : WorkBindingRevision;
  atoms : list RecallCurrentAtom;
  needs : list RecallNeed;
  last_presentation_attempts : gmap RecallNeedId PresentationAttemptId;
}.
End RecallCurrentContext.
Abbreviation RecallCurrentContext := RecallCurrentContext.RecallCurrentContext.
Export (hints) RecallCurrentContext.

(** The values of a [BTreeMap]: by increasing key. *)
Definition bvalues {K V} `{!EqDecision K, !Countable K, !Ord K} (m : gmap K V) : list V :=
  snd <$> sort_by (fun a b => leb_ord a.1 b.1) (map_to_list m).

(** The part of [ReducerState] recall reads. *)
Record RecallSources := {
  execution_lanes : gmap ExecutionLaneId (ExecutionLane * N);
  tasks : gmap TaskId (Task * N);
  workstreams : gmap WorkstreamId (Workstream * N);
  work_bindings : gmap WorkBindingRevisionId (WorkBindingRevision * N);
  episodes : gmap WorkEpisodeId (WorkEpisode * N);
  episode_revisions : gmap RevisionId (WorkEpisode * N);
  checkpoints : gmap string (WorkCheckpoint * N);
  atoms : gmap AtomId (Atom * N);
  atom_support_eligible : RevisionId -> bool;
  recall_ledger : RecallLedgerState;
}.

Definition recall_scope_matches (scope : AtomScope) (episode : WorkEpisode) : bool :=
  match scope with
  | AtomScope.Task task_id => task_id ==? WorkEpisode.task_id episode
  | AtomScope.Repository repository => Some repository ==? WorkEpisode.repository_instance_id episode
  | AtomScope.Worktree repository worktree =>
      (Some repository ==? WorkEpisode.repository_instance_id episode)
      && (Some worktree ==? WorkEpisode.worktree_instance_id episode)
  | AtomScope.Global => false
  end.

Section contexts.
Context `{L : UuidLib} `{SHA : Sha256}.

(** ** Selecting checkpoints and the binding *)

Definition checkpoint_candidate (episode_id : WorkEpisodeId) (episode_generation : N)
    (episode_revisions : gmap RevisionId (WorkEpisode * N)) (checkpoints : gmap string (WorkCheckpoint * N))
    (reference : string) : result StoreError (WorkCheckpoint * N) :=
  let? entry := ok_or (checkpoints !! reference) StoreError.StoreCorrupt in
  let? source := ok_or (episode_revisions !! WorkCheckpoint.episode_revision_id entry.1) StoreError.StoreCorrupt in
  do? guard ((WorkCheckpoint.stable_key entry.1 !=? reference)
             || (WorkCheckpoint.episode_id entry.1 !=? episode_id)
             || (WorkEpisode.episode_id source.1 !=? episode_id)
             || (episode_generation <? WorkEpisode.revision_generation source.1)%N) StoreError.StoreCorrupt in
  Ok entry.

Definition checkpoint_key (entry : WorkCheckpoint * N) : N * N := (WorkCheckpoint.source_watermark entry.1, entry.2).

Definition select_episode_checkpoints (episode_id : WorkEpisodeId) (episode_generation : N)
    (checkpoint_refs : list string) (episode_revisions : gmap RevisionId (WorkEpisode * N))
    (checkpoints : gmap string (WorkCheckpoint * N))
  : result StoreError (option (WorkCheckpoint * option WorkCheckpoint)) :=
  let? candidates := try_map
    (checkpoint_candidate episode_id episode_generation episode_revisions checkpoints) checkpoint_refs in
  let candidates := sort_by (fun a b => leb_ord (checkpoint_key a) (checkpoint_key b)) candidates in
  do? guard (windows2_any (fun a b => checkpoint_key a ==? checkpoint_key b) candidates) StoreError.StoreCorrupt in
  Ok match reverse candidates with
     | [] => None
     | latest :: before => Some (latest.1, fst <$> head before)
     end.

Definition bound_to (operation_ids : list OperationId) (task_id : TaskId) (workstream_id : WorkstreamId)
    (episode_id : WorkEpisodeId) (binding : WorkBindingRevision) : bool :=
  let primary := WorkBindingRevision.primary_binding binding in
  contains (WorkBindingRevision.operation_id binding) operation_ids
  && (WorkBindingRevision.assignment_status binding ==? AssignmentStatus.Resolved)
  && (PrimaryWorkBinding.task_id primary ==? Some task_id)
  && (PrimaryWorkBinding.workstream_id primary ==? Some workstream_id)
  && (PrimaryWorkBinding.episode_id primary ==? Some episode_id).

Fixpoint select_latest (selected : option (WorkBindingRevision * N)) (candidates : list (WorkBindingRevision * N))
  : result StoreError (option (WorkBindingRevision * N)) :=
  match candidates with
  | [] => Ok selected
  | candidate :: candidates =>
      match selected with
      | Some (_, selected_seq) =>
          do? guard (candidate.2 =? selected_seq)%N StoreError.StoreCorrupt in
          select_latest (if (candidate.2 <? selected_seq)%N then selected else Some candidate) candidates
      | None => select_latest (Some candidate) candidates
      end
  end.

Definition select_recall_binding (bindings : list (WorkBindingRevision * N)) (operation_ids : list OperationId)
    (task_id : TaskId) (workstream_id : WorkstreamId) (episode_id : WorkEpisodeId)
  : result StoreError (option WorkBindingRevision) :=
  let? selected := select_latest None
    (List.filter (fun b => bound_to operation_ids task_id workstream_id episode_id b.1) bindings) in
  Ok (fst <$> selected).

(** ** The current contexts *)

Definition is_open (episode : WorkEpisode) : bool :=
  WorkEpisode.lifecycle_status episode ==? EpisodeLifecycle.Open.

Definition open_episodes (self : RecallSources) : list WorkEpisode :=
  List.filter is_open (fst <$> bvalues (episodes self)).

(** The lane of an episode, if it is active in one of the episode's sessions. *)
Definition active_lane (self : RecallSources) (episode : WorkEpisode) (lane_id : ExecutionLaneId)
  : option ExecutionLane :=
  match execution_lanes self !! lane_id with
  | Some (lane, _) =>
      if (ExecutionLane.status lane ==? LaneStatus.Active)
         && contains (ExecutionLane.host_session_id lane) (WorkEpisode.session_ids episode)
      then Some lane else None
  | None => None
  end.

Definition active_operation_ids (self : RecallSources) : list OperationId :=
  open_episodes self ≫= fun episode =>
    omap (active_lane self episode) (WorkEpisode.execution_lane_ids episode) ≫= ExecutionLane.operation_ids.

(** The newest binding of every active operation. *)
Definition add_binding (active : list OperationId) (current : gmap OperationId (WorkBindingRevision * N))
    (entry : WorkBindingRevision * N) : result StoreError (gmap OperationId (WorkBindingRevision * N)) :=
  let operation := WorkBindingRevision.operation_id entry.1 in
  let generation := WorkBindingRevision.revision_generation entry.1 in
  if negb (contains operation active) then Ok current
  else
    match current !! operation with
    | None => Ok (<[operation := entry]> current)
    | Some (known, known_seq) =>
        do? guard (WorkBindingRevision.revision_generation known =? generation)%N StoreError.StoreCorrupt in
        Ok (if ltb_ord (WorkBindingRevision.revision_generation known, known_seq) (generation, entry.2)
            then <[operation := entry]> current else current)
    end.

Fixpoint add_bindings (active : list OperationId) (current : gmap OperationId (WorkBindingRevision * N))
    (entries : list (WorkBindingRevision * N))
  : result StoreError (gmap OperationId (WorkBindingRevision * N)) :=
  match entries with
  | [] => Ok current
  | entry :: entries => let? current := add_binding active current entry in add_bindings active current entries
  end.

Definition current_bindings (self : RecallSources) : result StoreError (list (WorkBindingRevision * N)) :=
  let? current := add_bindings (active_operation_ids self) ∅ (bvalues (work_bindings self)) in
  Ok (bvalues current).

Definition current_atoms (self : RecallSources) (episode : WorkEpisode) : list RecallCurrentAtom :=
  sort_by (fun a b => leb_ord (Atom.revision_id (RecallCurrentAtom.atom a)) (Atom.revision_id (RecallCurrentAtom.atom b)))
    (omap (fun entry : Atom * N =>
       let atom := entry.1 in
       if (Atom.lifecycle_status atom ==? AtomLifecycleStatus.Active) && is_normative (Atom.kind atom)
          && atom_support_eligible self (Atom.revision_id atom) && recall_scope_matches (Atom.scope atom) episode
       then Some (RecallCurrentAtom.mk atom entry.2) else None) (bvalues (atoms self))).

(** The active needs of a lane in an episode; [values] goes by identifier. *)
Definition current_needs (self : RecallSources) (session_id : string) (lane_id : ExecutionLaneId)
    (episode : WorkEpisode) : list RecallNeed :=
  sort_by (fun a b => leb_ord (RecallNeed.recall_need_id a) (RecallNeed.recall_need_id b))
    (List.filter (fun need =>
       (RecallNeed.session_id need ==? session_id)
       && (RecallNeed.execution_lane_id need ==? lane_id)
       && (RecallNeed.episode_revision_id need ==? WorkEpisode.revision_id episode)
       && (RecallNeed.obligation_state need ==? RecallObligationState.Active)) (values (recall_ledger self))).

Definition last_attempts (self : RecallSources) (needs : list RecallNeed)
  : gmap RecallNeedId PresentationAttemptId :=
  list_to_map (omap (fun need =>
    (fun attempt => (RecallNeed.recall_need_id need, attempt))
      <$> last_presentation_attempt (recall_ledger self) (RecallNeed.recall_need_id need)) needs).

(** The context of a lane of an open episode; [None] is a [continue]. *)
Definition lane_context (self : RecallSources) (frontier : N) (bindings : list (WorkBindingRevision * N))
    (episode : WorkEpisode) (lane_id : ExecutionLaneId) : result StoreError (option RecallCurrentContext) :=
  match active_lane self episode lane_id with
  | None => Ok None
  | Some lane =>
  match tasks self !! WorkEpisode.task_id episode with
  | None => Ok None
  | Some (task, _) =>
  if Task.lifecycle task !=? TaskLifecycle.Active then Ok None else
  match workstreams self !! WorkEpisode.workstream_id episode with
  | None => Ok None
  | Some (stream, _) =>
  if (Workstream.status stream !=? WorkstreamStatus.Active)
     || (Workstream.task_id stream !=? WorkEpisode.task_id episode)
     || negb (contains lane_id (Workstream.execution_lane_ids stream)) then Ok None
  else
    let? selected := select_episode_checkpoints (WorkEpisode.episode_id episode)
      (WorkEpisode.revision_generation episode) (WorkEpisode.checkpoint_refs episode)
      (episode_revisions self) (checkpoints self) in
    match selected with
    | None => Ok None
    | Some (checkpoint, previous_checkpoint) =>
    let? binding := select_recall_binding bindings (ExecutionLane.operation_ids lane)
      (WorkEpisode.task_id episode) (WorkEpisode.workstream_id episode) (WorkEpisode.episode_id episode) in
    match binding with
    | None => Ok None
    | Some binding =>
        let atoms := current_atoms self episode in
        do? guard (256 <? length atoms)%nat StoreError.ReconciliationDependencyOverflow in
        let needs := current_needs self (ExecutionLane.host_session_id lane) lane_id episode in
        do? guard (2 <? length needs)%nat StoreError.StoreCorrupt in
        Ok (Some (RecallCurrentContext.mk frontier task stream lane episode checkpoint previous_checkpoint
                    binding atoms needs (last_attempts self needs)))
    end
    end
  end
  end
  end.

Fixpoint collect_contexts (self : RecallSources) (frontier : N) (limit : nat)
    (bindings : list (WorkBindingRevision * N)) (contexts : list RecallCurrentContext)
    (pairs : list (WorkEpisode * ExecutionLaneId)) : result StoreError (list RecallCurrentContext) :=
  match pairs with
  | [] => Ok contexts
  | (episode, lane_id) :: pairs =>
      let? context := lane_context self frontier bindings episode lane_id in
      match context with
      | None => collect_contexts self frontier limit bindings contexts pairs
      | Some context =>
          let contexts := contexts ++ [context] in
          do? guard (limit <? length contexts)%nat StoreError.ReconciliationDependencyOverflow in
          collect_contexts self frontier limit bindings contexts pairs
      end
  end.

Definition context_key (context : RecallCurrentContext) : string * ExecutionLaneId :=
  let lane := RecallCurrentContext.execution_lane context in
  (ExecutionLane.host_session_id lane, ExecutionLane.execution_lane_id lane).

Definition recall_current_contexts (self : RecallSources) (frontier : N) (limit : nat)
  : result StoreError (list RecallCurrentContext) :=
  do? guard ((limit =? 0)%nat || (32 <? limit)%nat) StoreError.InvalidInput in
  let? bindings := current_bindings self in
  let? contexts := collect_contexts self frontier limit bindings []
    (open_episodes self ≫= fun episode => pair episode <$> WorkEpisode.execution_lane_ids episode) in
  let contexts := sort_by (fun a b => leb_ord (context_key a) (context_key b)) contexts in
  do? guard (windows2_any (fun a b => context_key a ==? context_key b) contexts) StoreError.StoreCorrupt in
  Ok contexts.
End contexts.

(** ** The projection *)

Definition RECALL_TRIGGER_INDEX_KIND : string := "recall_trigger_index".
Definition PROJECTION_GENERATION : N := 1.

(** [serde_json] on contracts. *)
Class CueJson := {
  cue_to_string : FutureCueContract -> option string;
  cue_from_str : string -> option FutureCueContract;
}.

(** What the code relies on: the text of a contract parses back to it. *)
Class CueJsonLaws (J : CueJson) := {
  cue_from_to c s : cue_to_string c = Some s -> cue_from_str s = Some c;
  cue_to_string_text c s : cue_to_string c = Some s -> str_ok s;
}.

Definition row_id (id : list byte) : string :=
  ("projection:recall_trigger:" +:+ of_bytes (id ≫= hex_byte))%string.

(** The columns that carry the scope of the atom. *)
Definition scope_columns (row : ObjectRow) : bool :=
  match ObjectRow.task_id row, ObjectRow.repository_id row, ObjectRow.worktree_id row with
  | Some _, None, None | None, Some _, None | None, Some _, Some _ => is_none (ObjectRow.support_state row)
  | None, None, None => ObjectRow.support_state row ==? Some "valid"%string
  | _, _, _ => false
  end.

Section rows.
Context `{L : UuidLib} `{SHA : Sha256} `{J : CueJson}.

Definition contract (row : ObjectRow) : result (fault StoreError) (option FutureCueContract) :=
  if ObjectRow.object_kind row !=? Some RECALL_TRIGGER_INDEX_KIND then Ok None
  else
    do? guard
      ((ObjectRow.row_kind row !=? ObjectRowKind.Data)
       || (ObjectRow.row_class row !=? Some ObjectRowClass.Projection)
       || is_some (ObjectRow.object_family row)
       || is_some (ObjectRow.object_id row)
       || (ObjectRow.lifecycle row !=? Some "active"%string)
       || (ObjectRow.authority row !=? Some "user_explicit"%string)
       || is_some (ObjectRow.epistemic row)
       || is_some (ObjectRow.publication_state row)
       || is_some (ObjectRow.project_id row)
       || is_some (ObjectRow.workstream_id row)
       || is_some (ObjectRow.session_id row)
       || (ObjectRow.source_event_seq row =? 0)%N
       || negb (ObjectRow.projection_generation row =? PROJECTION_GENERATION)%N
       || negb (scope_columns row)) (Raise StoreError.StoreCorrupt) in
    let? payload := ok_or (ObjectRow.payload_json row) (Raise StoreError.StoreCorrupt) in
    let? payload_json := ok_or (RowPayload.as_str payload) Panicked in
    let? contract := ok_or (cue_from_str payload_json) (Raise StoreError.StoreCorrupt) in
    do? map_err (fun _ => Raise StoreError.StoreCorrupt) (validate_contract contract) in
    let? text := ok_or (cue_to_string contract) (Raise StoreError.StoreCorrupt) in
    do? guard (text !=? payload_json) (Raise StoreError.StoreCorrupt) in
    do? guard
      ((ObjectRow.current_revision_id row !=? Some (rid_display (FutureCueContract.source_revision_id contract)))
       || (ObjectRow.row_id row !=? row_id (FutureCueContract.future_cue_contract_id contract)))
      (Raise StoreError.StoreCorrupt) in
    Ok (Some contract).

(** The repository, worktree and task columns of a scope. *)
Definition scope_ids (scope : AtomScope) : option string * option string * option string :=
  match scope with
  | AtomScope.Task task_id => (None, None, Some (id_display task_id))
  | AtomScope.Worktree repository worktree => (Some (id_display repository), Some (id_display worktree), None)
  | AtomScope.Repository repository => (Some (id_display repository), None, None)
  | AtomScope.Global => (None, None, None)
  end.

Definition row (atom : Atom) (cue : FutureCueContract) (source_event_seq : N)
  : result (fault StoreError) ObjectRow :=
  let ids := scope_ids (Atom.scope atom) in
  let? text := ok_or (cue_to_string cue) (Raise StoreError.Serialization) in
  let row := ObjectRow.mk (row_id (FutureCueContract.future_cue_contract_id cue)) ObjectRowKind.Data
    (Some ObjectRowClass.Projection) None (Some RECALL_TRIGGER_INDEX_KIND) None
    (Some (rid_display (FutureCueContract.source_revision_id cue))) (Some "active"%string) None
    (Some (AtomAuthority_as_str (Atom.authority atom))) None
    (if Scope.is_global (Atom.scope atom) then Some "valid"%string else None) None
    ids.1.1 ids.1.2 ids.2 None None (Some (RowPayload.from text)) source_event_seq PROJECTION_GENERATION in
  let? parsed := contract row in
  do? ok_or parsed (Raise StoreError.StoreCorrupt) in
  Ok row.

(** [atoms.values()] is the argument; atoms that are not eligible or do not compile
    have no row. *)
Fixpoint rows (atoms : list (Atom * N)) (eligible : Atom -> bool) : result (fault StoreError) (list ObjectRow) :=
  match atoms with
  | [] => Ok []
  | (atom, source_event_seq) :: atoms =>
      if negb (eligible atom) then rows atoms eligible
      else
        match compile_atom_future_cue atom true true source_event_seq with
        | Err _ => rows atoms eligible
        | Ok cue =>
            let? row := row atom cue source_event_seq in
            let? rest := rows atoms eligible in
            Ok (row :: rest)
        end
  end.
End rows.
