(* ===== verification/RecallEngine.v ===== *)
(** * Recall detection (crates/evertrace-engine/src/recall.rs, recall/detector.rs,
    recall/validation.rs, recall/cue.rs)

    The engine's side of recall: the index of compiled cues by the fields they
    mention, the detection of a need at a checkpoint, its revalidation, its
    settlement, the events a worker batch records, the cues it publishes and the
    selection of the need a host's claim refers to.  The clock, fresh identifiers
    and the contexts read from the store are arguments. *)

From S2P Require Import Prelude Order Collections OrderedMap Text Canonical Ids Digests Lane Journal Objects Attempt Work Constraint Atom Episode Recall RecallLedger RecallContexts.

Definition I64_MAX : Z := 9223372036854775807.
(** [i64::saturating_add] of a non-negative amount. *)
Definition saturating_add_i64 (a b : Z) : Z := (a + b) `min` I64_MAX.

(** ** The anchor of a detection *)

Module RecallDetectionAnchor.
Record RecallDetectionAnchor := mk {
  session_id : string;
  execution_lane_id : ExecutionLaneId;
  task_id : TaskId;
  workstream_id : WorkstreamId;
  episode_revision_id : RevisionId;
  repository_id : option RepositoryId;
  worktree_id : option WorktreeId;
}.
#[export] Instance eq_dec : EqDecision RecallDetectionAnchor.
Proof. solve_decision. Defined.
End RecallDetectionAnchor.
Abbreviation RecallDetectionAnchor := RecallDetectionAnchor.RecallDetectionAnchor.
Export (hints) RecallDetectionAnchor.

(** ** The index of compiled cues *)

Module RecallTriggerEntry.
Record RecallTriggerEntry := mk {
  contract : FutureCueContract;
  scope : AtomScope;
}.
End RecallTriggerEntry.
Abbreviation RecallTriggerEntry := RecallTriggerEntry.RecallTriggerEntry.
Export (hints) RecallTriggerEntry.

#[export] Instance FutureCueContract_eq_dec : EqDecision FutureCueContract.
Proof. solve_decision. Defined.

Module FutureCueCandidateCondition.
Record FutureCueCandidateCondition := mk {
  future_cue_contract_id : list byte;
  match_truth : ConstraintTruth;
  suppress_truth : ConstraintTruth;
  resolve_truth : ConstraintTruth;
}.
#[export] Instance eq_dec : EqDecision FutureCueCandidateCondition.
Proof. solve_decision. Defined.
End FutureCueCandidateCondition.
Abbreviation FutureCueCandidateCondition := FutureCueCandidateCondition.FutureCueCandidateCondition.
Export (hints) FutureCueCandidateCondition.

Module RecallTriggerIndex.
Record RecallTriggerIndex := mk {
  frontier : N;
  entries : list RecallTriggerEntry;
  field_entries : list (ConstraintField * list nat);
  contract_entries : list (list byte * nat);
}.
End RecallTriggerIndex.
Abbreviation RecallTriggerIndex := RecallTriggerIndex.RecallTriggerIndex.
Export (hints) RecallTriggerIndex.

#[export] Instance Ord_byte : Ord byte := Ord_by byte_N byte_N_inj.

Section index.
Context `{L : UuidLib} `{SHA : Sha256}.

(** A [gset] of fields in the order of the [BTreeSet] of the code. *)
Definition ordered_fields (fields : gset ConstraintField) : list ConstraintField := bset_of_list (elements fields).

Definition entry_fields (entry : RecallTriggerEntry) : gset ConstraintField :=
  let contract := RecallTriggerEntry.contract entry in
  ConstraintExpr.referenced_fields (FutureCueContract.match_expr contract)
  ∪ ConstraintExpr.referenced_fields (FutureCueContract.suppress_expr contract)
  ∪ ConstraintExpr.referenced_fields (FutureCueContract.resolve_expr contract).

Definition field_entries (entries : list RecallTriggerEntry) : list (ConstraintField * list nat) :=
  foldl (fun result ie =>
    foldl (fun result field => bmap_push field ie.1 result) result (ordered_fields (entry_fields ie.2)))
    [] (imap (fun index entry => (index, entry)) entries).

Definition contract_entries (entries : list RecallTriggerEntry) : list (list byte * nat) :=
  foldl (fun result ie =>
    bmap_insert (FutureCueContract.future_cue_contract_id (RecallTriggerEntry.contract ie.2)) ie.1 result)
    [] (imap (fun index entry => (index, entry)) entries).

Definition index_of (frontier : N) (entries : list RecallTriggerEntry) : RecallTriggerIndex :=
  RecallTriggerIndex.mk frontier entries (field_entries entries) (contract_entries entries).

(** One atom of [from_current_contexts]: the entries by contract, the sources seen. *)
Definition add_atom (state : list (list byte * RecallTriggerEntry) * list RevisionId) (source : RecallCurrentAtom)
  : result StoreError (list (list byte * RecallTriggerEntry) * list RevisionId) :=
  let atom := RecallCurrentAtom.atom source in
  match compile_atom_future_cue atom true true (RecallCurrentAtom.source_event_seq source) with
  | Err _ => Ok state
  | Ok contract =>
      match bmap_get (FutureCueContract.future_cue_contract_id contract) state.1 with
      | Some existing =>
          do? guard ((RecallTriggerEntry.contract existing !=? contract)
                     || (RecallTriggerEntry.scope existing !=? Atom.scope atom)) StoreError.StoreCorrupt in
          Ok state
      | None =>
          do? guard (contains (FutureCueContract.source_revision_id contract) state.2) StoreError.StoreCorrupt in
          Ok (bmap_insert (FutureCueContract.future_cue_contract_id contract)
                (RecallTriggerEntry.mk contract (Atom.scope atom)) state.1,
              FutureCueContract.source_revision_id contract :: state.2)
      end
  end.

Fixpoint add_atoms (state : list (list byte * RecallTriggerEntry) * list RevisionId)
    (sources : list RecallCurrentAtom)
  : result StoreError (list (list byte * RecallTriggerEntry) * list RevisionId) :=
  match sources with
  | [] => Ok state
  | source :: sources => let? state := add_atom state source in add_atoms state sources
  end.

Definition from_current_contexts (frontier : N) (contexts : list RecallCurrentContext)
  : result StoreError RecallTriggerIndex :=
  let? state := add_atoms ([], []) (contexts ≫= RecallCurrentContext.atoms) in
  Ok (index_of frontier state.1.*2).

Definition index_entry (self : RecallTriggerIndex) (id : list byte) : option RecallTriggerEntry :=
  match bmap_get id (RecallTriggerIndex.contract_entries self) with
  | Some position => RecallTriggerIndex.entries self !! position
  | None => None
  end.

Definition condition_of (current : ConstraintState) (previous : option ConstraintState)
    (entry : RecallTriggerEntry) : FutureCueCandidateCondition :=
  let contract := RecallTriggerEntry.contract entry in
  FutureCueCandidateCondition.mk (FutureCueContract.future_cue_contract_id contract)
    (evaluate_match contract current previous) (evaluate_suppress contract current previous)
    (evaluate_resolve contract current previous).

Definition candidate_indices (self : RecallTriggerIndex) (current : ConstraintState)
    (previous : option ConstraintState) : list nat :=
  foldl (fun indices binding =>
    match bmap_get (ConstraintBinding.field binding) (RecallTriggerIndex.field_entries self) with
    | Some found => foldl (fun indices i => if contains i indices then indices else indices ++ [i]) indices found
    | None => indices
    end) []
    (ConstraintState.bindings current
     ++ match previous with Some state => ConstraintState.bindings state | None => [] end).

(** The candidate set is a [BTreeSet]: its members by increasing index. *)
Definition evaluate_index (self : RecallTriggerIndex) (current : ConstraintState)
    (previous : option ConstraintState) : list FutureCueCandidateCondition :=
  if is_err (ConstraintState.validate current)
     || is_some_and previous (fun state => is_err (ConstraintState.validate state))
  then []
  else
    omap (fun index => condition_of current previous <$> RecallTriggerIndex.entries self !! index)
      (sort_by Nat.leb (candidate_indices self current previous)).

Definition row_scope (row : ObjectRow) : result StoreError AtomScope :=
  let corrupt {A} (m : result IdParseError A) : result StoreError A :=
    map_err (fun _ => StoreError.StoreCorrupt) m in
  match ObjectRow.task_id row, ObjectRow.repository_id row, ObjectRow.worktree_id row with
  | Some task, None, None =>
      let? task_id := corrupt (id_from_str FTask task) in Ok (AtomScope.Task task_id)
  | None, Some repository, Some worktree =>
      let? repository_id := corrupt (id_from_str FRepository repository) in
      let? worktree_id := corrupt (id_from_str FWorktree worktree) in
      Ok (AtomScope.Worktree repository_id worktree_id)
  | None, Some repository, None =>
      let? repository_id := corrupt (id_from_str FRepository repository) in
      Ok (AtomScope.Repository repository_id)
  | None, None, None =>
      if ObjectRow.support_state row ==? Some "valid"%string then Ok AtomScope.Global
      else Err StoreError.StoreCorrupt
  | _, _, _ => Err StoreError.StoreCorrupt
  end.

(** The rows of [from_snapshot]: [ids] and [sources] are those seen so far. *)
Fixpoint add_rows `{J : CueJson} (frontier : N) (ids : list (list byte)) (sources : list RevisionId)
    (rows : list ObjectRow) : result (fault StoreError) (list RecallTriggerEntry) :=
  match rows with
  | [] => Ok []
  | row :: rows =>
      do? guard ((ObjectRow.row_class row !=? Some ObjectRowClass.Projection)
                 || (frontier <? ObjectRow.source_event_seq row)%N) (Raise StoreError.StoreCorrupt) in
      let? parsed := contract row in
      let? contract := ok_or parsed (Raise StoreError.StoreCorrupt) in
      do? guard (contains (FutureCueContract.future_cue_contract_id contract) ids
                 || contains (FutureCueContract.source_revision_id contract) sources)
            (Raise StoreError.StoreCorrupt) in
      let? scope := map_err Raise (row_scope row) in
      let? entries := add_rows frontier
        (FutureCueContract.future_cue_contract_id contract :: ids)
        (FutureCueContract.source_revision_id contract :: sources) rows in
      Ok (RecallTriggerEntry.mk contract scope :: entries)
  end.

Definition by_contract_id (a b : RecallTriggerEntry) : bool :=
  leb_ord (FutureCueContract.future_cue_contract_id (RecallTriggerEntry.contract a))
    (FutureCueContract.future_cue_contract_id (RecallTriggerEntry.contract b)).

Definition from_snapshot `{J : CueJson} (frontier : N) (data_rows : list ObjectRow)
  : result (fault StoreError) RecallTriggerIndex :=
  let? entries := add_rows frontier [] []
    (List.filter (fun row => ObjectRow.object_kind row ==? Some RECALL_TRIGGER_INDEX_KIND) data_rows) in
  Ok (index_of frontier (sort_by by_contract_id entries)).
End index.

(** ** The state at a checkpoint *)

Definition checkpoint_state (checkpoint : WorkCheckpoint) : ConstraintState :=
  let contract := WorkCheckpoint.phase_contract checkpoint in
  ConstraintState.mk
    (sort_by (fun a b => leb_ord (ConstraintBinding.field a) (ConstraintBinding.field b))
      [ConstraintBinding.mk ConstraintField.PhaseKind
         (ConstraintValue.Text (phase_str (PhaseContract.phase_kind contract)));
       ConstraintBinding.mk ConstraintField.Phase (ConstraintValue.Text (PhaseContract.phase_label contract));
       ConstraintBinding.mk ConstraintField.VerifierState
         (ConstraintValue.Text (verifier_str (WorkCheckpoint.verifier_state checkpoint)))]).

Definition scope_matches (scope : AtomScope) (anchor : RecallDetectionAnchor) : bool :=
  match scope with
  | AtomScope.Task task_id => task_id ==? RecallDetectionAnchor.task_id anchor
  | AtomScope.Repository repository => Some repository ==? RecallDetectionAnchor.repository_id anchor
  | AtomScope.Worktree repository worktree =>
      (Some repository ==? RecallDetectionAnchor.repository_id anchor)
      && (Some worktree ==? RecallDetectionAnchor.worktree_id anchor)
  | AtomScope.Global => false
  end.

Definition runtime_anomaly (previous : option WorkCheckpoint) (current : WorkCheckpoint) : bool :=
  is_some_and previous (fun value =>
    (WorkCheckpoint.verifier_state value ==? CheckpointVerifierState.Passed)
    && (WorkCheckpoint.verifier_state current ==? CheckpointVerifierState.Failed)).

Definition explicit_recovery (checkpoint : WorkCheckpoint) : bool :=
  (WorkCheckpoint.created_reason checkpoint ==? CheckpointReason.Compact)
  && WorkCheckpoint.continuation_candidate checkpoint
  && (negb (is_empty (WorkCheckpoint.open_loops checkpoint))
      || negb (is_empty (WorkCheckpoint.active_attempt_ids checkpoint))).

Module RecallNeedValidity.
Inductive RecallNeedValidity :=
| Valid
| Terminal (_ : RecallObligationState)
| Unavailable.
#[export] Instance eq_dec : EqDecision RecallNeedValidity.
Proof. solve_decision. Defined.
End RecallNeedValidity.
Abbreviation RecallNeedValidity := RecallNeedValidity.RecallNeedValidity.
Export (hints) RecallNeedValidity.

Module RecallCueError.
Inductive RecallCueError :=
| InvalidInput
| Store.
#[export] Instance eq_dec : EqDecision RecallCueError.
Proof. solve_decision. Defined.
End RecallCueError.
Abbreviation RecallCueError := RecallCueError.RecallCueError.
Export (hints) RecallCueError.

Module WriterActorError.
Inductive WriterActorError :=
| InvalidInput
| Stopped
| IdempotencyConflict
| StaleFrontier
| StoreCorrupt
| Store.
#[export] Instance eq_dec : EqDecision WriterActorError.
Proof. solve_decision. Defined.
End WriterActorError.
Abbreviation WriterActorError := WriterActorError.WriterActorError.
Export (hints) WriterActorError.

Section engine.
Context `{L : UuidLib} `{SHA : Sha256}.
Import RecallCurrentContext.

Definition anchor_of (context : RecallCurrentContext) : RecallDetectionAnchor :=
  RecallDetectionAnchor.mk
    (ExecutionLane.host_session_id (execution_lane context))
    (ExecutionLane.execution_lane_id (execution_lane context))
    (Task.task_id (task context)) (Workstream.workstream_id (workstream context))
    (WorkEpisode.revision_id (episode context))
    (Workstream.repository_instance_id (workstream context))
    (Workstream.active_worktree_instance_id (workstream context)).

Definition trigger_of (context : RecallCurrentContext) : RecallTriggerState :=
  RecallTriggerState.mk
    (PhaseContract.phase_kind (WorkCheckpoint.phase_contract (checkpoint context)))
    (WorkCheckpoint.verifier_state (checkpoint context))
    (WorkCheckpoint.active_attempt_ids (checkpoint context))
    (WorkCheckpoint.current_worktree_snapshot_id (checkpoint context))
    (Some (WorkBindingRevision.work_binding_revision_id (binding context)))
    (WorkBindingRevision.scope_effect_refs (binding context)).

(** ** Settling a need *)

Definition seal_error {A} (m : result CanonicalError A) : result StoreError A :=
  map_err (fun _ => StoreError.Serialization) m.

(** [fresh] is [RevisionId::new_v7()]. *)
Definition terminal_need_event (fresh : RevisionId) (need : RecallNeed)
    (obligation_state : RecallObligationState) : result StoreError RecallLedgerEvent :=
  do? guard ((RecallNeed.obligation_state need !=? RecallObligationState.Active)
             || (obligation_state ==? RecallObligationState.Active)) StoreError.InvalidInput in
  let? successor := seal_error
    (seal_need (RecallNeed.set_settled need (Some (RecallNeed.revision_id need)) fresh obligation_state)) in
  Ok (RecallLedgerEvent.NeedRecorded successor).

(** ** Detecting a need *)

(** The contracts whose three conditions call for recall at the anchor. *)
Definition due_contracts (index : RecallTriggerIndex) (anchor : RecallDetectionAnchor)
    (conditions : list FutureCueCandidateCondition) : list FutureCueContract :=
  sort_by (fun a b => leb_ord (FutureCueContract.future_cue_contract_id a) (FutureCueContract.future_cue_contract_id b))
    (omap (fun condition : FutureCueCandidateCondition =>
       if (FutureCueCandidateCondition.match_truth condition ==? ConstraintTruth.True)
          && (FutureCueCandidateCondition.suppress_truth condition ==? ConstraintTruth.False)
          && (FutureCueCandidateCondition.resolve_truth condition ==? ConstraintTruth.False)
       then match index_entry index (FutureCueCandidateCondition.future_cue_contract_id condition) with
            | Some entry =>
                if scope_matches (RecallTriggerEntry.scope entry) anchor
                then Some (RecallTriggerEntry.contract entry) else None
            | None => None
            end
       else None) conditions).

(** How the conditions a need matched settle it; the last one decides. *)
Definition settled_by (existing : RecallNeed) (conditions : list FutureCueCandidateCondition)
  : option RecallObligationState :=
  foldl (fun terminal condition =>
    if FutureCueCandidateCondition.resolve_truth condition ==? ConstraintTruth.True
    then Some RecallObligationState.Resolved
    else if FutureCueCandidateCondition.suppress_truth condition ==? ConstraintTruth.True
    then Some RecallObligationState.Canceled
    else terminal) None
    (List.filter (fun condition =>
       contains (FutureCueCandidateCondition.future_cue_contract_id condition)
         (RecallNeed.matched_contract_ids existing)) conditions).

Definition sources_of (contracts : list FutureCueContract) (episode_revision_id : RevisionId) : list RevisionId :=
  sort_unique ((FutureCueContract.source_revision_id <$> contracts) ++ [episode_revision_id]).

Definition plan_of (family : TriggerFamily) (contracts : list FutureCueContract)
    (episode_revision_id : RevisionId) (checkpoint : WorkCheckpoint) : RecallPlan :=
  RecallPlan.mk (TriggerFamily_as_str family)
    ((fun contract => rid_display (FutureCueContract.source_revision_id contract)) <$> contracts)
    (Some episode_revision_id) None (WorkCheckpoint.open_loops checkpoint) []
    (WorkCheckpoint.verifier_refs checkpoint).

(** The identifiers [new_v7] returns. *)
Definition detect_family (contracts : list FutureCueContract) (context : RecallCurrentContext)
  : option TriggerFamily :=
  if negb (is_empty contracts) then Some TriggerFamily.ProspectiveObligation
  else if runtime_anomaly (previous_checkpoint context) (checkpoint context) then Some TriggerFamily.RuntimeAnomaly
  else if explicit_recovery (checkpoint context) then Some TriggerFamily.ExplicitOrRecovery
  else None.

(** The need recorded for a context; [current] is the one its boundary has already. *)
Definition need_of (fresh_need : RecallNeedId) (fresh_revision : RevisionId) (now_us : Z)
    (context : RecallCurrentContext) (current : option RecallNeed) (family : TriggerFamily)
    (contracts : list FutureCueContract) (plan : RecallPlan) : RecallNeed :=
  let anchor := anchor_of context in
  let from {A} (fresh : A) (field : RecallNeed -> A) : A :=
    match current with Some need => field need | None => fresh end in
  RecallNeed.mk (from fresh_need RecallNeed.recall_need_id) fresh_revision
    (RecallNeed.revision_id <$> current) zero_hash family
    (sources_of contracts (WorkEpisode.revision_id (episode context)))
    (FutureCueContract.future_cue_contract_id <$> contracts)
    (RecallDetectionAnchor.session_id anchor) (RecallDetectionAnchor.execution_lane_id anchor)
    (RecallDetectionAnchor.task_id anchor) (RecallDetectionAnchor.workstream_id anchor)
    (RecallDetectionAnchor.episode_revision_id anchor) (RecallDetectionAnchor.repository_id anchor)
    (RecallDetectionAnchor.worktree_id anchor) (WorkCheckpoint.stable_key (checkpoint context))
    (trigger_of context) (WorkCheckpoint.source_watermark (checkpoint context)) zero_hash plan
    (from RecallDeliveryState.Detected RecallNeed.delivery_state)
    (from RecallAgentResponse.NotRetrieved RecallNeed.agent_response)
    RecallObligationState.Active
    (from now_us RecallNeed.created_at_us)
    (from (saturating_add_i64 now_us 30000000) RecallNeed.presentation_expires_at_us)
    (from None RecallNeed.obligation_expires_at_us)
    (from None RecallNeed.active_presentation_attempt_id)
    (from None RecallNeed.active_retrieval_request_id).

(** The need is active and no presentation is under way. *)
Definition still_open (need : RecallNeed) : bool :=
  (RecallNeed.obligation_state need ==? RecallObligationState.Active)
  && undelivered (RecallNeed.delivery_state need).

(** From the plan on: nothing is recorded for an invalid plan, for a need that is
    settled or under way, or when nothing changed. *)
Definition record_detected (fresh_need : RecallNeedId) (fresh_revision : RevisionId) (now_us : Z)
    (context : RecallCurrentContext) (current : option RecallNeed) (family : TriggerFamily)
    (contracts : list FutureCueContract) : result StoreError (option RecallLedgerEvent) :=
  let plan := plan_of family contracts (WorkEpisode.revision_id (episode context)) (checkpoint context) in
  if negb (RecallPlan.validate plan) then Ok None
  else if is_some_and current (fun need => negb (still_open need)) then Ok None
  else
    let? need := seal_error
      (seal_need (need_of fresh_need fresh_revision now_us context current family contracts plan)) in
    if is_some_and current (fun current => RecallNeed.recall_need_hash current ==? RecallNeed.recall_need_hash need)
    then Ok None
    else Ok (Some (RecallLedgerEvent.NeedRecorded need)).

Definition detect_current_context (fresh_need : RecallNeedId) (fresh_revision : RevisionId)
    (context : RecallCurrentContext) (index : RecallTriggerIndex) (now_us : Z)
  : result StoreError (option RecallLedgerEvent) :=
  let cp := checkpoint context in
  if (now_us <? 0)%Z || is_err (WorkCheckpoint.validate cp)
     || negb (is_empty (WorkCheckpoint.capture_gap_refs cp))
     || negb (is_empty (WorkCheckpoint.capture_outage_refs cp))
     || (WorkCheckpoint.verifier_state cp ==? CheckpointVerifierState.Inconclusive)
  then Ok None
  else
    let existing := List.filter (fun need => RecallNeed.boundary_event_ref need ==? WorkCheckpoint.stable_key cp)
                      (needs context) in
    do? guard (1 <? length existing)%nat StoreError.StoreCorrupt in
    let current := head existing in
    let conditions := evaluate_index index (checkpoint_state cp) None in
    let terminal := match current with
      | Some existing =>
          if RecallNeed.trigger_family existing ==? TriggerFamily.ProspectiveObligation
          then (fun state => (existing, state)) <$> settled_by existing conditions else None
      | None => None
      end in
    match terminal with
    | Some (existing, state) =>
        let? event := terminal_need_event fresh_revision existing state in Ok (Some event)
    | None =>
        let contracts := due_contracts index (anchor_of context) conditions in
        match detect_family contracts context with
        | None => Ok None
        | Some family => record_detected fresh_need fresh_revision now_us context current family contracts
        end
    end.

(** ** Revalidating a need *)

(** The contracts a need relies on, or what became of it: [inr] is an early return. *)
Fixpoint expected_contracts (index : RecallTriggerIndex) (anchor : RecallDetectionAnchor)
    (conditions : list FutureCueCandidateCondition) (ids : list (list byte))
  : list FutureCueContract + RecallNeedValidity :=
  match ids with
  | [] => inl []
  | id :: ids =>
      match List.find (fun value => FutureCueCandidateCondition.future_cue_contract_id value ==? id) conditions with
      | None => inr (RecallNeedValidity.Terminal RecallObligationState.Superseded)
      | Some condition =>
          if FutureCueCandidateCondition.resolve_truth condition ==? ConstraintTruth.True
          then inr (RecallNeedValidity.Terminal RecallObligationState.Resolved)
          else if FutureCueCandidateCondition.suppress_truth condition ==? ConstraintTruth.True
          then inr (RecallNeedValidity.Terminal RecallObligationState.Canceled)
          else if (FutureCueCandidateCondition.match_truth condition !=? ConstraintTruth.True)
                  || (FutureCueCandidateCondition.resolve_truth condition !=? ConstraintTruth.False)
                  || (FutureCueCandidateCondition.suppress_truth condition !=? ConstraintTruth.False)
          then inr RecallNeedValidity.Unavailable
          else
            match index_entry index id with
            | Some entry =>
                if scope_matches (RecallTriggerEntry.scope entry) anchor then
                  match expected_contracts index anchor conditions ids with
                  | inl contracts => inl (RecallTriggerEntry.contract entry :: contracts)
                  | inr validity => inr validity
                  end
                else inr RecallNeedValidity.Unavailable
            | None => inr RecallNeedValidity.Unavailable
            end
      end
  end.

Definition validate_need_against_current (need : RecallNeed) (anchor : RecallDetectionAnchor)
    (cp : WorkCheckpoint) (previous : option WorkCheckpoint) (current_trigger_state : RecallTriggerState)
    (index : RecallTriggerIndex) (now_us : Z) : result StoreError RecallNeedValidity :=
  let superseded := RecallNeedValidity.Terminal RecallObligationState.Superseded in
  if negb (validate_need need) || (RecallNeed.obligation_state need !=? RecallObligationState.Active)
  then Ok RecallNeedValidity.Unavailable
  else if is_some_and (RecallNeed.obligation_expires_at_us need) (fun expiry => (expiry <=? now_us)%Z)
  then Ok (RecallNeedValidity.Terminal RecallObligationState.Expired)
  else if (RecallNeed.session_id need !=? RecallDetectionAnchor.session_id anchor)
     || (RecallNeed.execution_lane_id need !=? RecallDetectionAnchor.execution_lane_id anchor)
     || (RecallNeed.task_id need !=? RecallDetectionAnchor.task_id anchor)
     || (RecallNeed.workstream_id need !=? RecallDetectionAnchor.workstream_id anchor)
     || (RecallNeed.episode_revision_id need !=? RecallDetectionAnchor.episode_revision_id anchor)
     || (RecallNeed.repository_id need !=? RecallDetectionAnchor.repository_id anchor)
     || (RecallNeed.worktree_id need !=? RecallDetectionAnchor.worktree_id anchor)
     || (RecallNeed.source_watermark need !=? WorkCheckpoint.source_watermark cp)
     || (RecallNeed.boundary_event_ref need !=? WorkCheckpoint.stable_key cp)
     || (RecallNeed.trigger_state need !=? current_trigger_state)
  then Ok superseded
  else
    let trigger : (list FutureCueContract * bool) + RecallNeedValidity :=
      match RecallNeed.trigger_family need with
      | TriggerFamily.ExplicitOrRecovery => inl ([], explicit_recovery cp)
      | TriggerFamily.RuntimeAnomaly => inl ([], runtime_anomaly previous cp)
      | TriggerFamily.ProspectiveObligation =>
          match expected_contracts index anchor (evaluate_index index (checkpoint_state cp) None)
                  (RecallNeed.matched_contract_ids need) with
          | inl contracts => inl (contracts, negb (is_empty contracts))
          | inr validity => inr validity
          end
      end in
    match trigger with
    | inr validity => Ok validity
    | inl (_, false) => Ok superseded
    | inl (contracts, true) =>
        let expected_plan := plan_of (RecallNeed.trigger_family need) contracts
          (RecallDetectionAnchor.episode_revision_id anchor) cp in
        let? fingerprint :=
          if (RecallNeed.source_revision_ids need
              !=? sources_of contracts (RecallDetectionAnchor.episode_revision_id anchor))
             || (RecallNeed.recall_plan need !=? expected_plan)
          then Ok None else (let? value := seal_error (plan_fingerprint expected_plan) in Ok (Some value)) in
        if fingerprint ==? Some (RecallNeed.recall_plan_fingerprint need)
        then Ok RecallNeedValidity.Valid else Ok superseded
    end.

Definition current_need_validity (context : RecallCurrentContext) (need : RecallNeed)
    (index : RecallTriggerIndex) (now_us : Z) : result StoreError RecallNeedValidity :=
  validate_need_against_current need (anchor_of context) (checkpoint context) (previous_checkpoint context)
    (trigger_of context) index now_us.

(** ** The events of a worker batch *)

Definition batch_error {A} (m : result StoreError A) : result WriterActorError A :=
  map_err (fun _ => WriterActorError.StoreCorrupt) m.

(** One need of a context: the event to record, and whether the context is settled. *)
Definition need_event (fresh : RevisionId) (abandon_claims : bool) (context : RecallCurrentContext)
    (index : RecallTriggerIndex) (occurred_at_us : Z) (need : RecallNeed)
  : result WriterActorError (option RecallLedgerEvent * bool) :=
  let? validity := batch_error (current_need_validity context need index occurred_at_us) in
  match validity with
  | RecallNeedValidity.Terminal state =>
      let? event := batch_error (terminal_need_event fresh need state) in Ok (Some event, true)
  | RecallNeedValidity.Unavailable => Ok (None, false)
  | RecallNeedValidity.Valid =>
      if (RecallNeed.presentation_expires_at_us need <=? occurred_at_us)%Z
         && is_none (RecallNeed.active_presentation_attempt_id need)
         && undelivered (RecallNeed.delivery_state need)
      then
        let? successor := batch_error (seal_error (seal_need
          (RecallNeed.set_expiry need (Some (RecallNeed.revision_id need)) fresh
             (saturating_add_i64 occurred_at_us 30000000)))) in
        Ok (Some (RecallLedgerEvent.NeedRecorded successor), true)
      else
        match RecallNeed.active_presentation_attempt_id need with
        | Some presentation_attempt_id =>
            if (RecallNeed.delivery_state need ==? RecallDeliveryState.ClaimedForBoundary)
               && (abandon_claims || (RecallNeed.presentation_expires_at_us need <=? occurred_at_us)%Z)
            then Ok (Some (RecallLedgerEvent.PresentationAttempt
                   (RecallPresentationAttempt.mk presentation_attempt_id (RecallNeed.recall_need_id need)
                      (RecallNeed.recall_need_hash need) (RecallNeed.boundary_event_ref need)
                      PresentationAttemptState.PresentationUnknown occurred_at_us)), false)
            else Ok (None, false)
        | None => Ok (None, false)
        end
  end.

(** The identifiers [new_v7] returns in a batch: the revision of the successor of
    a need, and the need and revision a context's detection records. *)
Record FreshIds := {
  fresh_successor : RecallNeed -> RevisionId;
  fresh_need : RecallCurrentContext -> RecallNeedId;
  fresh_revision : RecallCurrentContext -> RevisionId;
}.

Fixpoint needs_events (ids : FreshIds) (abandon_claims : bool) (context : RecallCurrentContext)
    (index : RecallTriggerIndex) (occurred_at_us : Z) (needs : list RecallNeed)
  : result WriterActorError (list RecallLedgerEvent * bool) :=
  match needs with
  | [] => Ok ([], false)
  | need :: needs =>
      let? first := need_event (fresh_successor ids need) abandon_claims context index occurred_at_us need in
      let? rest := needs_events ids abandon_claims context index occurred_at_us needs in
      Ok (option_list first.1 ++ rest.1, first.2 || rest.2)
  end.

Definition context_events (ids : FreshIds) (abandon_claims : bool) (blocked : list RepositoryId)
    (index : RecallTriggerIndex) (occurred_at_us : Z) (context : RecallCurrentContext)
  : result WriterActorError (list RecallLedgerEvent) :=
  if is_some_and (WorkEpisode.repository_instance_id (episode context)) (fun id => contains id blocked)
  then Ok []
  else
    let? events := needs_events ids abandon_claims context index occurred_at_us (needs context) in
    if events.2 : bool then Ok events.1
    else
      let? detected := batch_error (detect_current_context (fresh_need ids context) (fresh_revision ids context)
        context index occurred_at_us) in
      Ok (events.1 ++ option_list detected).

(** The events of [process_recall_batch] from contexts of one frontier; [blocked]
    is what [blocked_repositories] reports. *)
Definition batch_events (ids : FreshIds) (abandon_claims : bool) (blocked : list RepositoryId)
    (occurred_at_us : Z) (frontier : N) (contexts : list RecallCurrentContext)
  : result WriterActorError (list RecallLedgerEvent) :=
  do? guard (negb (all (fun context => RecallCurrentContext.frontier context =? frontier)%N contexts))
        WriterActorError.StoreCorrupt in
  let? index := batch_error (from_current_contexts frontier contexts) in
  let? events := try_map (context_events ids abandon_claims blocked index occurred_at_us) contexts in
  Ok (concat events).

Definition ensure_state_advance_allowed (state_advances : N) : result WriterActorError unit :=
  guard (negb (state_advances <? 2)%N) WriterActorError.StoreCorrupt.

(** ** Claims of a host *)

Definition same_party (context : RecallCurrentContext) (claim : RecallCueSnapshot) (need : RecallNeed) : bool :=
  (ExecutionLane.host_session_id (execution_lane context) ==? RecallCueSnapshot.session_id claim)
  && (ExecutionLane.execution_lane_id (execution_lane context) ==? RecallCueSnapshot.execution_lane_id claim)
  && (ExecutionLane.host_lane_key (execution_lane context) ==? RecallCueSnapshot.host_lane_key claim)
  && (RecallNeed.recall_need_hash need ==? RecallCueSnapshot.recall_need_hash claim).

Definition select_need (contexts : list RecallCurrentContext) (claim : RecallCueSnapshot) (claimed : bool)
  : result RecallCueError (RecallCurrentContext * RecallNeed) :=
  let matches := contexts ≫= fun context =>
    (fun need => (context, need)) <$> List.filter (fun need =>
      same_party context claim need
      && (RecallNeed.obligation_state need ==? RecallObligationState.Active)
      && if claimed then
           (RecallNeed.delivery_state need ==? RecallDeliveryState.ClaimedForBoundary)
           && (RecallNeed.active_presentation_attempt_id need
               ==? Some (RecallCueSnapshot.presentation_attempt_id claim))
         else
           undelivered (RecallNeed.delivery_state need)
           && is_none (RecallNeed.active_presentation_attempt_id need)
           && (last_presentation_attempts context !! RecallNeed.recall_need_id need
               !=? Some (RecallCueSnapshot.presentation_attempt_id claim))) (needs context) in
  match matches with
  | [selected] => Ok selected
  | _ => Err RecallCueError.Store
  end.

Definition same_outcome (delivery : RecallDeliveryState) (outcome : PresentationAttemptState) : bool :=
  match delivery, outcome with
  | RecallDeliveryState.FailedPreEmit, PresentationAttemptState.FailedPreEmit
  | RecallDeliveryState.Emitted, PresentationAttemptState.Emitted
  | RecallDeliveryState.PresentationUnknown, PresentationAttemptState.PresentationUnknown => true
  | _, _ => false
  end.

(** [None]: the outcome is new; [Some b]: it was recorded before, alike or not. *)
Definition replayed_outcome (contexts : list RecallCurrentContext) (claim : RecallCueSnapshot)
    (outcome : PresentationAttemptState) : option bool :=
  let matches := contexts ≫= fun context =>
    List.filter (fun need =>
      same_party context claim need
      && (last_presentation_attempts context !! RecallNeed.recall_need_id need
          ==? Some (RecallCueSnapshot.presentation_attempt_id claim))
      && (RecallNeed.delivery_state need !=? RecallDeliveryState.ClaimedForBoundary)) (needs context) in
  match matches with
  | [] => None
  | [need] => Some (same_outcome (RecallNeed.delivery_state need) outcome)
  | _ => Some false
  end.

Definition latest_valid (context : RecallCurrentContext) (need : RecallNeed) (index : RecallTriggerIndex)
    (now : Z) (adapter_manifest_id : string) : bool :=
  if (RecallNeed.presentation_expires_at_us need <=? now)%Z
     || negb (contains adapter_manifest_id (ExecutionLane.adapter_manifest_ids (execution_lane context)))
     || (RecallNeed.boundary_event_ref need !=? WorkCheckpoint.stable_key (checkpoint context))
     || (RecallNeed.source_watermark need !=? WorkCheckpoint.source_watermark (checkpoint context))
     || (RecallNeed.task_id need !=? Task.task_id (task context))
     || (RecallNeed.workstream_id need !=? Workstream.workstream_id (workstream context))
     || (RecallNeed.episode_revision_id need !=? WorkEpisode.revision_id (episode context))
     || negb (RecallPlan.validate (RecallNeed.recall_plan need))
  then false
  else match current_need_validity context need index now with
       | Ok RecallNeedValidity.Valid => true
       | _ => false
       end.

Definition presentation_event (need : RecallNeed) (claim : RecallCueSnapshot)
    (state : PresentationAttemptState) (occurred_at_us : Z) : RecallLedgerEvent :=
  RecallLedgerEvent.PresentationAttempt
    (RecallPresentationAttempt.mk (RecallCueSnapshot.presentation_attempt_id claim)
       (RecallNeed.recall_need_id need) (RecallNeed.recall_need_hash need)
       (RecallNeed.boundary_event_ref need) state occurred_at_us).

(** The event of [authorize], once the claim is known to be published and the
    repositories are known not to be blocked. *)
Definition authorize_event (contexts : list RecallCurrentContext) (index : RecallTriggerIndex)
    (claim : RecallCueSnapshot) (now : Z) : result RecallCueError RecallLedgerEvent :=
  let? selected := select_need contexts claim false in
  do? guard (negb (latest_valid selected.1 selected.2 index now (RecallCueSnapshot.adapter_manifest_id claim)))
        RecallCueError.Store in
  Ok (presentation_event selected.2 claim PresentationAttemptState.ClaimedForBoundary now).

(** The event of [outcome]; [None] when the outcome was recorded before. *)
Definition outcome_event (contexts : list RecallCurrentContext) (claim : RecallCueSnapshot)
    (outcome : PresentationAttemptState) (now : Z) : result RecallCueError (option RecallLedgerEvent) :=
  match replayed_outcome contexts claim outcome with
  | Some replayed => do? guard (negb replayed) RecallCueError.Store in Ok None
  | None =>
      let? selected := select_need contexts claim true in
      Ok (Some (presentation_event selected.2 claim outcome now))
  end.

(** ** Publishing cues *)

Definition publishable (context : RecallCurrentContext) (occurred_at_us : Z) (need : RecallNeed) : bool :=
  (RecallNeed.obligation_state need ==? RecallObligationState.Active)
  && (occurred_at_us <? RecallNeed.presentation_expires_at_us need)%Z
  && is_none (RecallNeed.active_presentation_attempt_id need)
  && undelivered (RecallNeed.delivery_state need).

(** The cue of a publishable need: the published one if it can be reused, else a
    new one for the attempt [fresh]. *)
Definition cue_of (fresh : PresentationAttemptId) (recall_cues : list RecallCueSnapshot)
    (manifest : string) (generation : N) (context : RecallCurrentContext) (occurred_at_us : Z)
    (need : RecallNeed) : result StoreError RecallCueSnapshot :=
  let lane := execution_lane context in
  let reusable :=
    if RecallNeed.delivery_state need !=? RecallDeliveryState.FailedPreEmit then
      List.find (fun cue =>
        (RecallCueSnapshot.session_id cue ==? ExecutionLane.host_session_id lane)
        && (RecallCueSnapshot.execution_lane_id cue ==? ExecutionLane.execution_lane_id lane)
        && (RecallCueSnapshot.recall_need_hash cue ==? RecallNeed.recall_need_hash need)
        && (occurred_at_us <? RecallCueSnapshot.expires_at_us cue)%Z) recall_cues
    else None in
  match reusable with
  | Some cue => Ok cue
  | None =>
      map_err (fun _ => StoreError.StoreCorrupt)
        (seal_cue (RecallCueSnapshot.mk (ExecutionLane.host_session_id lane)
           (ExecutionLane.execution_lane_id lane) (ExecutionLane.host_lane_key lane) manifest generation
           (RecallNeed.recall_need_hash need) fresh
           (RecallNeed.presentation_expires_at_us need `min` saturating_add_i64 occurred_at_us 5000000)%Z zero_hash))
  end.
End engine.
