(* ===== verification/RecallEngineFacts.v ===== *)
(** * What recall detection relies on

    The index of cues by field finds every contract whose conditions can be
    decided, and the events the engine records are successors the recall ledger
    accepts.

    The contexts it reads are those of the ledger, and the events of a batch are
    accepted by that ledger in their order. *)

From stdpp Require Import sorting.
From S2P Require Import Prelude Order Collections OrderedMap Text Canonical Ids Digests Lane Journal Objects Attempt Work Constraint Atom Episode Recall RecallFacts RecallLedger RecallContexts RecallEngine.

(** ** Lists *)

Lemma seq_sorted k n : StronglySorted (fun i j : nat => Nat.leb i j = true) (seq k n).
Proof.
  revert k. induction n as [|n IH]; intros k; cbn; constructor; [done|].
  apply Forall_forall. intros i Hi%elem_of_seq. apply Nat.leb_le. lia.
Qed.

Lemma filter_sorted {A} (R : relation A) f l : StronglySorted R l -> StronglySorted R (List.filter f l).
Proof.
  induction 1 as [|x l Hl IH Hx]; cbn; [constructor|]. destruct (f x); [|done]. constructor; [done|].
  rewrite Forall_forall in *. intros y Hy. apply Hx. by apply elem_of_List_filter in Hy as [_ ?].
Qed.

Lemma filter_seq_NoDup f k n : NoDup (List.filter f (seq k n)).
Proof. apply NoDup_ListNoDup, List.NoDup_filter, NoDup_ListNoDup, NoDup_seq. Qed.

(** The indices of the entries that satisfy a test, in order, are what a set of
    them sorts to. *)
Lemma sort_indices (l : list nat) f k n :
  NoDup l -> (forall i, i ∈ l <-> i ∈ List.filter f (seq k n)) -> sort_by Nat.leb l = List.filter f (seq k n).
Proof.
  intros Hl H. apply (StronglySorted_unique_strong (fun i j : nat => Nat.leb i j = true)).
  - intros i j _ _. rewrite !Nat.leb_le. lia.
  - apply sort_by_sorted.
    + intros i j. rewrite !Nat.leb_le. lia.
    + intros i j m. rewrite !Nat.leb_le. lia.
  - apply filter_sorted, seq_sorted.
  - rewrite sort_by_perm. apply NoDup_Permutation; [done|apply filter_seq_NoDup|done].
Qed.

Lemma omap_indices {A B} (g : A -> B) (p : A -> bool) l :
  omap (fun i => g <$> l !! i) (List.filter (fun i => is_some_and (l !! i) p) (seq 0 (length l)))
  = g <$> List.filter p l.
Proof.
  induction l as [|x l IH] using rev_ind; [done|].
  rewrite length_app, Nat.add_comm. cbn [length Nat.add]. rewrite seq_S, !List.filter_app, omap_app, fmap_app.
  assert (Hold : forall i, i ∈ seq 0 (length l) -> (l ++ [x]) !! i = l !! i).
  { intros i Hi%elem_of_seq. apply lookup_app_l. lia. }
  f_equal.
  - rewrite <-IH.
    assert (List.filter (fun i => is_some_and ((l ++ [x]) !! i) p) (seq 0 (length l))
      = List.filter (fun i => is_some_and (l !! i) p) (seq 0 (length l))) as ->.
    { apply filter_ext_in. intros i Hi%list_elem_of_In. by rewrite Hold. }
    apply list_omap_ext, Forall2_same_length_lookup_2; [done|].
    intros k i j Hi Hj. simplify_eq. rewrite Hold; [done|].
    by apply list_elem_of_lookup_2, elem_of_List_filter in Hi as [_ ?].
  - cbn. rewrite lookup_app_r, Nat.sub_diag by lia. cbn. destruct (p x); [|done]. cbn.
    by rewrite lookup_app_r, Nat.sub_diag by lia.
Qed.

(** ** Unbound fields *)

Section unknown.
Import ConstraintExpr ConstraintSpec ConstraintFacts.

Lemma fold_and_unknown {A} (f : A -> ConstraintTruth) l t :
  t <> ConstraintTruth.False -> Forall (fun x => f x = ConstraintTruth.Unknown) l ->
  (l <> [] \/ t = ConstraintTruth.Unknown) ->
  fold_left (fun v x => truth_and v (f x)) l t = ConstraintTruth.Unknown.
Proof.
  intros Ht H. revert t Ht. induction H as [|x l Hx _ IH]; intros t Ht Hor; cbn; [by destruct Hor|].
  rewrite Hx. assert (truth_and t ConstraintTruth.Unknown = ConstraintTruth.Unknown) as -> by by destruct t.
  apply IH; [done|by right].
Qed.

Lemma fold_or_unknown {A} (f : A -> ConstraintTruth) l t :
  t <> ConstraintTruth.True -> Forall (fun x => f x = ConstraintTruth.Unknown) l ->
  (l <> [] \/ t = ConstraintTruth.Unknown) ->
  fold_left (fun v x => truth_or v (f x)) l t = ConstraintTruth.Unknown.
Proof.
  intros Ht H. revert t Ht. induction H as [|x l Hx _ IH]; intros t Ht Hor; cbn; [by destruct Hor|].
  rewrite Hx. assert (truth_or t ConstraintTruth.Unknown = ConstraintTruth.Unknown) as -> by by destruct t.
  apply IH; [done|by right].
Qed.

(** A condition none of whose fields is bound is undecided. *)
Lemma evaluate_inner_unbound e m p :
  shaped e -> (forall f, f ∈ referenced_fields e -> m !! f = None) ->
  evaluate_inner m p e = ConstraintTruth.Unknown.
Proof.
  unfold referenced_fields.
  induction e as [ts IH|ts IH|t IH|f v|f vs|f|f|f a b] using expr_ind; intros Hs Hm;
    cbn [evaluate_inner collect_referenced_fields] in *.
  1-2: inversion Hs; simplify_eq; (apply fold_and_unknown || apply fold_or_unknown);
    [done| |left; destruct ts; [cbn in *; lia|done]]; rewrite Forall_forall in *; intros t Ht;
    (apply IH; [done|auto|]); intros f Hf; apply Hm; by eapply referenced_term.
  - inversion Hs; simplify_eq. by rewrite IH.
  - by rewrite Hm by set_solver.
  - by rewrite Hm by set_solver.
  - by rewrite Hm by set_solver.
  - destruct p as [p|]; [|done]. rewrite Hm by set_solver. by destruct (p !! f).
  - destruct (_ || _); [done|]. destruct p as [p|]; [|done]. rewrite Hm by set_solver. by destruct (p !! f).
Qed.

Lemma evaluate_unbound e current previous :
  (forall b, b ∈ ConstraintState.bindings current -> ConstraintBinding.field b ∉ referenced_fields e) ->
  evaluate e current previous = ConstraintTruth.Unknown.
Proof.
  intros Hb. unfold evaluate. destruct (validate e) as [[]|] eqn:Hv; [|done]. cbn.
  apply validate_ok in Hv as (_ & _ & Hs).
  destruct (ConstraintState.values current) as [m|] eqn:Hm; [|done].
  assert (Hn : forall f, f ∈ referenced_fields e -> m !! f = None).
  { unfold ConstraintState.values in Hm. ok_steps Hm. simplify_eq. intros f Hf.
    apply not_elem_of_list_to_map_1. rewrite <-list_fmap_compose. intros (b & -> & Hin)%list_elem_of_fmap.
    by destruct (Hb b Hin). }
  destruct previous as [s|]; [destruct (ConstraintState.values s); [|done]|]; by apply evaluate_inner_unbound.
Qed.
End unknown.

(** ** The index by field *)

Section index.
Context `{L : UuidLib} `{SHA : Sha256}.

Definition posted (m : list (ConstraintField * list nat)) (f : ConstraintField) (i : nat) : Prop :=
  exists found, bmap_get f m = Some found /\ i ∈ found.

Lemma bmap_push_posted m f j g i :
  bmap_sorted m -> posted (bmap_push f j m) g i <-> posted m g i \/ g = f /\ i = j.
Proof.
  intros Hm. unfold posted, bmap_push. destruct (decide (g = f)) as [->|Hne].
  - rewrite bmap_get_alter_eq by done. split.
    + intros (found & [= <-] & [Hi|Hi%list_elem_of_singleton]%elem_of_app); [left|by right].
      destruct (bmap_get f m) as [l|] eqn:E; [by exists l|by apply not_elem_of_nil in Hi].
    + intros [(l & -> & Hi)|[_ ->]]; eexists; (split; [done|]); apply elem_of_app; [by left|right].
      by apply list_elem_of_singleton.
  - rewrite bmap_get_alter_ne by done. split; [by left|]. by intros [H|[? _]].
Qed.

Lemma push_fields fields j : forall m,
  bmap_sorted m ->
  let m' := foldl (fun result field => bmap_push field j result) m fields in
  bmap_sorted m' /\ forall g i, posted m' g i <-> posted m g i \/ g ∈ fields /\ i = j.
Proof.
  induction fields as [|f fields IH]; intros m Hm; cbn.
  - split; [done|]. intros g i. rewrite elem_of_nil. naive_solver.
  - destruct (IH (bmap_push f j m)) as [Hs H]; [by apply bmap_alter_sorted|]. split; [done|].
    intros g i. rewrite H, bmap_push_posted, elem_of_cons by done. naive_solver.
Qed.

Lemma field_entries_from l : forall m,
  bmap_sorted m ->
  let m' := foldl (fun result ie => foldl (fun result field => bmap_push field ie.1 result) result
    (ordered_fields (entry_fields ie.2))) m l in
  bmap_sorted m' /\
  forall g i, posted m' g i <-> posted m g i \/ exists e, (i, e) ∈ l /\ g ∈ entry_fields e.
Proof.
  induction l as [|[j e] l IH]; intros m Hm; cbn.
  - split; [done|]. intros g i. setoid_rewrite elem_of_nil. naive_solver.
  - destruct (push_fields (ordered_fields (entry_fields e)) j m Hm) as [Hs H].
    destruct (IH _ Hs) as [Hs' H']. split; [done|]. intros g i. rewrite H', H.
    unfold ordered_fields. setoid_rewrite elem_of_cons. setoid_rewrite elem_of_bset.
    rewrite elem_of_elements. naive_solver.
Qed.

Lemma posted_entries entries g i :
  posted (field_entries entries) g i <-> exists e, entries !! i = Some e /\ g ∈ entry_fields e.
Proof.
  destruct (field_entries_from (imap (fun index entry => (index, entry)) entries) []) as [_ H]; [constructor|].
  unfold field_entries. rewrite H. split.
  - intros [(? & [=] & _)|(e & Hin & Hg)]. exists e. split; [|done].
    apply list_elem_of_lookup in Hin as [k Hk]. rewrite list_lookup_imap in Hk.
    apply fmap_Some in Hk as (e' & He & [= -> ->]). done.
  - intros (e & He & Hg). right. exists e. split; [|done]. apply list_elem_of_lookup. exists i.
    by rewrite list_lookup_imap, He.
Qed.

(** The entries of an index that mention one of the bound fields. *)
Definition mentions (bindings : list ConstraintBinding) (entry : RecallTriggerEntry) : bool :=
  any (fun b => bool_decide (ConstraintBinding.field b ∈ entry_fields entry)) bindings.

Definition bound (current : ConstraintState) (previous : option ConstraintState) : list ConstraintBinding :=
  ConstraintState.bindings current ++ match previous with Some s => ConstraintState.bindings s | None => [] end.

Lemma insert_indices (found indices : list nat) :
  NoDup indices ->
  let all := foldl (fun indices i => if contains i indices then indices else indices ++ [i]) indices found in
  NoDup all /\ forall i, i ∈ all <-> i ∈ indices \/ i ∈ found.
Proof.
  revert indices. induction found as [|j found IH]; intros indices Hn; cbn.
  - split; [done|]. intros i. rewrite elem_of_nil. tauto.
  - destruct (contains j indices) eqn:E.
    + apply contains_true in E. destruct (IH _ Hn) as [? H]. split; [done|]. intros i.
      rewrite H, elem_of_cons. naive_solver.
    + apply contains_false in E. destruct (IH (indices ++ [j])) as [? H].
      { apply NoDup_app. split_and!; [done| |apply NoDup_singleton]. intros i Hi ->%list_elem_of_singleton. done. }
      split; [done|]. intros i. rewrite H, elem_of_app, list_elem_of_singleton, elem_of_cons. tauto.
Qed.

Lemma candidates_from m bindings : forall indices,
  NoDup indices ->
  let all := foldl (fun indices binding =>
      match bmap_get (ConstraintBinding.field binding) m with
      | Some found => foldl (fun indices i => if contains i indices then indices else indices ++ [i]) indices found
      | None => indices
      end) indices bindings in
  NoDup all /\ forall i, i ∈ all <-> i ∈ indices \/ exists b, b ∈ bindings /\ posted m (ConstraintBinding.field b) i.
Proof.
  induction bindings as [|b bindings IH]; intros indices Hn; cbn.
  - split; [done|]. intros i. setoid_rewrite elem_of_nil. naive_solver.
  - assert (Hb : let next := match bmap_get (ConstraintBinding.field b) m with
        | Some found => foldl (fun indices i => if contains i indices then indices else indices ++ [i]) indices found
        | None => indices end in
      NoDup next /\ forall i, i ∈ next <-> i ∈ indices \/ posted m (ConstraintBinding.field b) i).
    { cbn. unfold posted. destruct (bmap_get _ m) as [found|].
      - destruct (insert_indices found indices Hn) as [? H]. split; [done|]. intros i. rewrite H. naive_solver.
      - split; [done|]. naive_solver. }
    cbn in Hb. destruct Hb as [Hn' Hi]. destruct (IH _ Hn') as [? H]. split; [done|].
    intros i. rewrite H, Hi. setoid_rewrite elem_of_cons. naive_solver.
Qed.

Lemma candidate_spec frontier entries current previous :
  sort_by Nat.leb (candidate_indices (index_of frontier entries) current previous)
  = List.filter (fun i => is_some_and (entries !! i) (mentions (bound current previous))) (seq 0 (length entries)).
Proof.
  destruct (candidates_from (field_entries entries) (bound current previous) []) as [Hn H]; [constructor|].
  apply sort_indices; [exact Hn|]. intros i. unfold candidate_indices.
  cbn [RecallTriggerIndex.field_entries index_of]. fold (bound current previous). rewrite H.
  rewrite elem_of_List_filter, elem_of_seq. setoid_rewrite posted_entries.
  unfold is_some_and, mentions. split.
  - intros [[]%not_elem_of_nil|(b & Hb & e & He & Hf)]. split.
    + rewrite He. apply any_true. exists b. split; [done|]. by apply bool_decide_eq_true_2.
    + apply lookup_lt_Some in He. lia.
  - intros [Hi _]. destruct (entries !! i) as [e|]; [|done]. right.
    apply any_true in Hi as (b & Hb & Hf%bool_decide_eq_true_1). eauto.
Qed.

(** Whether any of the three conditions of a contract is decided. *)
Definition decided (c : FutureCueCandidateCondition) : bool :=
  (FutureCueCandidateCondition.match_truth c !=? ConstraintTruth.Unknown)
  || (FutureCueCandidateCondition.suppress_truth c !=? ConstraintTruth.Unknown)
  || (FutureCueCandidateCondition.resolve_truth c !=? ConstraintTruth.Unknown).

Lemma unmentioned current previous entry :
  mentions (bound current previous) entry = false -> decided (condition_of current previous entry) = false.
Proof.
  unfold mentions, bound. rewrite any_false, Forall_app. intros [H _]. rewrite Forall_forall in H.
  assert (Hb : forall b, b ∈ ConstraintState.bindings current ->
    ConstraintBinding.field b ∉ entry_fields entry) by (intros b Hb; by apply (bool_decide_eq_false_1 _), H).
  unfold entry_fields in Hb. unfold decided, condition_of, evaluate_match, evaluate_suppress, evaluate_resolve.
  cbn. rewrite !evaluate_unbound; [done|..]; intros b Hin Hf; apply (Hb b Hin); set_solver.
Qed.

(** The evaluation through the index lists exactly the entries that mention a
    bound field, in their order. *)
Lemma evaluate_index_spec frontier entries current previous :
  ConstraintState.validate current = Ok tt ->
  (forall s, previous = Some s -> ConstraintState.validate s = Ok tt) ->
  evaluate_index (index_of frontier entries) current previous
  = condition_of current previous <$> List.filter (mentions (bound current previous)) entries.
Proof.
  intros Hc Hp. unfold evaluate_index. rewrite Hc. cbn [is_err is_ok negb orb].
  assert (is_some_and previous (fun s => is_err (ConstraintState.validate s)) = false) as ->.
  { destruct previous as [s|]; [|done]. cbn. by rewrite (Hp s). }
  rewrite candidate_spec. apply omap_indices.
Qed.

Lemma filter_decided current previous entries :
  List.filter decided (condition_of current previous <$> List.filter (mentions (bound current previous)) entries)
  = List.filter decided (condition_of current previous <$> entries).
Proof.
  induction entries as [|e entries IH]; [done|]. cbn [List.filter].
  destruct (mentions _ e) eqn:Hm; rewrite !fmap_cons; cbn [List.filter]; rewrite IH; [done|].
  by rewrite (unmentioned _ _ _ Hm).
Qed.
End index.

(** ** Due contracts *)

Lemma NoDup_key {A B} (f : A -> B) l x y : NoDup (f <$> l) -> x ∈ l -> y ∈ l -> f x = f y -> x = y.
Proof.
  intros Hn [i Hi]%list_elem_of_lookup [j Hj]%list_elem_of_lookup E.
  assert (i = j) as ->; [|by simplify_eq].
  apply (NoDup_lookup _ _ _ (f x) Hn); rewrite list_lookup_fmap; [by rewrite Hi|by rewrite Hj, E].
Qed.

Section due.
Context `{L : UuidLib} `{SHA : Sha256}.
Import FutureCueContract.

Abbreviation entry_id e := (future_cue_contract_id (RecallTriggerEntry.contract e)).

Lemma positions_from (l : list (nat * RecallTriggerEntry)) : forall m k,
  bmap_sorted m -> NoDup ((fun ie => entry_id ie.2) <$> l) ->
  (forall i, bmap_get k (foldl (fun result ie => bmap_insert (entry_id ie.2) ie.1 result) m l) = Some i <->
    (exists e, (i, e) ∈ l /\ entry_id e = k) \/
    (k ∉ (fun ie => entry_id ie.2) <$> l) /\ bmap_get k m = Some i).
Proof.
  induction l as [|[j e] l IH]; intros m k Hm Hn i; cbn [foldl fst snd].
  - cbn. setoid_rewrite elem_of_nil. naive_solver.
  - apply NoDup_cons in Hn as [He Hn]. cbn in He. rewrite IH by (done || by apply bmap_alter_sorted).
    rewrite fmap_cons. setoid_rewrite elem_of_cons. unfold bmap_insert.
    destruct (decide (k = entry_id e)) as [->|Hne].
    + rewrite bmap_get_alter_eq by done. cbn. split.
      * intros [(e' & Hin & Hid)|[_ [= <-]]]; left; [by exists e'; auto|by exists e; auto].
      * intros [(e' & [[= -> ->]|Hin] & Hid)|[Hk _]]; [by right|left; eauto|]. exfalso. apply Hk. by left.
    + rewrite bmap_get_alter_ne by done. cbn. split.
      * intros [(e' & Hin & Hid)|[Hk Hg]]; [left; eauto|right]. split; [|done]. intros [?|?]; done.
      * intros [(e' & [[= -> ->]|Hin] & Hid)|[Hk Hg]]; [done|left; eauto|right]. split; [|done]. tauto.
Qed.

Lemma index_entry_spec frontier entries id e :
  NoDup ((fun e => entry_id e) <$> entries) ->
  index_entry (index_of frontier entries) id = Some e <-> e ∈ entries /\ entry_id e = id.
Proof.
  intros Hn. unfold index_entry, index_of, contract_entries. cbn.
  set (l := imap (fun index entry => (index, entry)) entries).
  assert (El : (fun ie => entry_id ie.2) <$> l = (fun e => entry_id e) <$> entries).
  { apply list_eq. intros i. unfold l. rewrite !list_lookup_fmap, list_lookup_imap. by destruct (entries !! i). }
  assert (Hl : forall i e, (i, e) ∈ l <-> entries !! i = Some e).
  { intros i e'. unfold l. rewrite list_elem_of_lookup. setoid_rewrite list_lookup_imap. split.
    - intros [k Hk]. apply fmap_Some in Hk as (e'' & He & [= -> ->]). done.
    - intros He. exists i. by rewrite He. }
  assert (Hp : forall i, bmap_get id (foldl (fun result ie => bmap_insert (entry_id ie.2) ie.1 result) [] l) = Some i <->
    exists e, (i, e) ∈ l /\ entry_id e = id).
  { intros i. rewrite positions_from; [|constructor|by rewrite El]. naive_solver. }
  split.
  - destruct (bmap_get _ _) as [i|] eqn:Hi; [|done]. intros He.
    destruct (proj1 (Hp i) eq_refl) as (e' & Hin & Hid). apply Hl in Hin. simplify_eq. split; [|done]. by eapply list_elem_of_lookup_2.
  - intros [[i He]%list_elem_of_lookup Hid]. destruct (Hp i) as [_ Hi]. rewrite Hi; [done|].
    exists e. by rewrite Hl.
Qed.

(** The conditions of an entry call for recall. *)
Definition calls (current : ConstraintState) (previous : option ConstraintState) (c : FutureCueContract) : Prop :=
  evaluate_match c current previous = ConstraintTruth.True /\
  evaluate_suppress c current previous = ConstraintTruth.False /\
  evaluate_resolve c current previous = ConstraintTruth.False.

Lemma due_spec frontier entries anchor current previous c :
  NoDup ((fun e => entry_id e) <$> entries) ->
  ConstraintState.validate current = Ok tt ->
  (forall s, previous = Some s -> ConstraintState.validate s = Ok tt) ->
  c ∈ due_contracts (index_of frontier entries) anchor (evaluate_index (index_of frontier entries) current previous) <->
  exists e, e ∈ entries /\ RecallTriggerEntry.contract e = c /\ calls current previous c /\
    scope_matches (RecallTriggerEntry.scope e) anchor = true.
Proof.
  intros Hn Hc Hp. unfold due_contracts. rewrite (elem_of_Permutation_proper _ _ _ (sort_by_perm _ _)).
  rewrite list_elem_of_omap. setoid_rewrite evaluate_index_spec; [|done..].
  setoid_rewrite list_elem_of_fmap. setoid_rewrite elem_of_List_filter. unfold calls. split.
  - intros (? & (e & -> & _ & He) & H). cbn in H.
    destruct (_ && _ && _) eqn:Ht; [|done]. rewrite !andb_true_iff, !bool_decide_eq_true in Ht.
    destruct (index_entry _ _) as [e'|] eqn:Hi; [|done]. apply index_entry_spec in Hi as [He' Hid]; [|done].
    assert (e' = e) as -> by by eapply (NoDup_key (fun e => entry_id e)).
    destruct (scope_matches _ _) eqn:Hs; [|done]. simplify_eq. exists e. tauto.
  - intros (e & He & <- & (Hm & Hs & Hr) & Hscope). exists (condition_of current previous e).
    split; [exists e; split_and!; try done|].
    + destruct (mentions _ e) eqn:Hmen; [done|]. apply unmentioned in Hmen.
      unfold decided, condition_of in Hmen. cbn in Hmen. by rewrite Hm in Hmen.
    + cbn. rewrite Hm, Hs, Hr. cbn.
      assert (index_entry (index_of frontier entries) (entry_id e) = Some e) as -> by by apply index_entry_spec.
      by rewrite Hscope.
Qed.
End due.

(** ** From atoms to due contracts *)

Section sources.
Context `{L : UuidLib} `{SHA : Sha256}.
Import FutureCueContract.

Abbreviation entry_id e := (future_cue_contract_id (RecallTriggerEntry.contract e)).

(** What an atom of a context compiles to. *)
Definition compiles (source : RecallCurrentAtom) (c : FutureCueContract) : Prop :=
  compile_atom_future_cue (RecallCurrentAtom.atom source) true true (RecallCurrentAtom.source_event_seq source) = Ok c.
Definition entry_of (source : RecallCurrentAtom) (c : FutureCueContract) : RecallTriggerEntry :=
  RecallTriggerEntry.mk c (Atom.scope (RecallCurrentAtom.atom source)).

(** The map of entries built from the sources seen so far. *)
Record indexed (m : list (list byte * RecallTriggerEntry)) (seen : list RecallCurrentAtom) : Prop := {
  indexed_sorted : bmap_sorted m;
  indexed_from k e : bmap_get k m = Some e ->
    exists source c, source ∈ seen /\ compiles source c /\ e = entry_of source c /\ k = future_cue_contract_id c;
  indexed_all source c : source ∈ seen -> compiles source c ->
    bmap_get (future_cue_contract_id c) m = Some (entry_of source c);
}.

Lemma indexed_mono m seen source :
  indexed m seen -> (forall c, compiles source c -> bmap_get (future_cue_contract_id c) m = Some (entry_of source c)) ->
  indexed m (seen ++ [source]).
Proof.
  intros [Hs Hf Ha] Hc. split; [done| |].
  - intros k e H. destruct (Hf k e H) as (s & c & Hin & ?). exists s, c. rewrite elem_of_app. tauto.
  - intros s c [Hin|Hin%list_elem_of_singleton]%elem_of_app Hcomp; [by apply Ha|]. subst s. by apply Hc.
Qed.

Lemma add_atom_indexed state source seen state' :
  indexed state.1 seen -> add_atom state source = Ok state' -> indexed state'.1 (seen ++ [source]).
Proof.
  intros Hi H. unfold add_atom in H. cbv zeta in H. change (compile_atom_future_cue _ _ _ _) with
    (compile_atom_future_cue (RecallCurrentAtom.atom source) true true (RecallCurrentAtom.source_event_seq source)) in H.
  destruct (compile_atom_future_cue _ _ _ _) as [c|err] eqn:Hc.
  2:{ simplify_eq. apply indexed_mono; [done|]. intros c Hc'. unfold compiles in Hc'. by rewrite Hc in Hc'. }
  assert (Hone : forall c', compiles source c' -> c' = c) by (unfold compiles; intros; simplify_eq; congruence).
  destruct (bmap_get _ state.1) as [e|] eqn:He.
  - ok_steps H. injection H as <-. apply indexed_mono; [done|]. intros c' ->%Hone. rewrite He. f_equal.
    unfold entry_of. by destruct e; cbn in *; subst.
  - ok_steps H. injection H as <-. destruct Hi as [Hs Hf Ha]. cbn [fst]. split.
    + by apply bmap_alter_sorted.
    + intros k e. destruct (decide (k = future_cue_contract_id c)) as [->|Hne]; unfold bmap_insert.
      * rewrite bmap_get_alter_eq by done. intros [= <-]. exists source, c.
        rewrite elem_of_app, list_elem_of_singleton. unfold entry_of. tauto.
      * rewrite bmap_get_alter_ne by done. intros (s & c' & Hin & ?)%Hf. exists s, c'. rewrite elem_of_app. tauto.
    + intros s c' Hin Hcomp. unfold bmap_insert.
      destruct (decide (future_cue_contract_id c' = future_cue_contract_id c)) as [E|Hne].
      * rewrite E, bmap_get_alter_eq by done. apply elem_of_app in Hin as [Hin|Hin%list_elem_of_singleton].
        -- pose proof (Ha _ _ Hin Hcomp) as Hg. rewrite E, He in Hg. done.
        -- subst s. by rewrite (Hone _ Hcomp).
      * rewrite bmap_get_alter_ne by done. apply elem_of_app in Hin as [Hin|Hin%list_elem_of_singleton]; [by apply Ha|].
        subst s. by rewrite (Hone _ Hcomp) in Hne.
Qed.

Lemma add_atoms_indexed sources : forall state seen state',
  indexed state.1 seen -> add_atoms state sources = Ok state' -> indexed state'.1 (seen ++ sources).
Proof.
  induction sources as [|source sources IH]; intros state seen state' Hi H; cbn [add_atoms] in H.
  - simplify_eq. by rewrite app_nil_r.
  - apply rbind_ok in H as (next & H & H'). rewrite cons_middle, app_assoc.
    eapply IH; [|exact H']. by eapply add_atom_indexed.
Qed.

Lemma entries_of_sources frontier contexts index :
  from_current_contexts frontier contexts = Ok index ->
  exists entries, index = index_of frontier entries /\ NoDup ((fun e => entry_id e) <$> entries) /\
    forall e, e ∈ entries <-> exists source c, source ∈ contexts ≫= RecallCurrentContext.atoms /\
      compiles source c /\ e = entry_of source c.
Proof.
  unfold from_current_contexts. intros ([m sources] & H & [= <-])%rbind_ok.
  apply (add_atoms_indexed _ _ []) in H as [Hs Hf Ha]; [|split; [constructor|done|]; by intros ? ? []%not_elem_of_nil].
  cbn [fst app] in *. exists m.*2. split; [done|].
  assert (Hkey : forall k e, (k, e) ∈ m -> k = entry_id e).
  { intros k e Hin. apply elem_of_bmap in Hin; [|done]. destruct (Hf _ _ Hin) as (s & c & _ & _ & -> & ->). done. }
  split.
  - assert ((fun e => entry_id e) <$> m.*2 = m.*1) as ->; [|by apply sorted_lt_NoDup].
    clear -Hkey. induction m as [|[k e] m IH]; [done|]. cbn.
    rewrite <-(Hkey k e) by apply list_elem_of_here. f_equal. apply IH. intros k' e' Hin. apply Hkey. by right.
  - intros e. split.
    + intros ([k e'] & -> & Hin)%list_elem_of_fmap. apply elem_of_bmap in Hin; [|done].
      destruct (Hf _ _ Hin) as (s & c & ? & ? & -> & _). by exists s, c.
    + intros (s & c & Hin & Hc & ->). apply list_elem_of_fmap. exists (future_cue_contract_id c, entry_of s c).
      split; [done|]. apply elem_of_bmap; [done|]. by apply Ha.
Qed.
End sources.

(** ** Batches *)

Import RecallLedgerState.

(** ** The contexts *)

Section contexts.
Context `{L : UuidLib} `{SHA : Sha256}.

(** What the worker may rely on for a context: its needs are active needs of the
    ledger, each listed once, and belong to the lane of the context. *)
Record context_ok (s : RecallLedgerState) (c : RecallCurrentContext) : Prop := {
  context_needs n : n ∈ RecallCurrentContext.needs c ->
    (exists w, needs s !! RecallNeed.recall_need_id n = Some (n, w)) /\
    RecallNeed.obligation_state n = RecallObligationState.Active /\
    (RecallNeed.session_id n, RecallNeed.execution_lane_id n) = context_key c;
  context_once : NoDup (RecallNeed.recall_need_id <$> RecallCurrentContext.needs c);
}.

(** Projections file a lane under its own identifier. *)
Definition lanes_keyed (self : RecallSources) : Prop :=
  forall id lane w, execution_lanes self !! id = Some (lane, w) -> ExecutionLane.execution_lane_id lane = id.

Lemma elem_of_sort_by {A} (le : A -> A -> bool) l x : x ∈ sort_by le l <-> x ∈ l.
Proof. by rewrite (elem_of_Permutation_proper _ _ _ (sort_by_perm _ _)). Qed.

Lemma elem_of_values s n : n ∈ values s <-> exists id w, needs s !! id = Some (n, w).
Proof.
  unfold values. rewrite list_elem_of_fmap. split.
  - intros ([id [m w]] & -> & Hin). apply elem_of_sort_by, elem_of_map_to_list in Hin. eauto.
  - intros (id & w & H). exists (id, (n, w)). split; [done|]. by apply elem_of_sort_by, elem_of_map_to_list.
Qed.

Lemma values_once s : ledger_valid s -> NoDup (RecallNeed.recall_need_id <$> values s).
Proof.
  intros Hs. unfold values. rewrite <-list_fmap_compose, sort_by_perm.
  assert ((RecallNeed.recall_need_id ∘ (fun e : RecallNeedId * (RecallNeed * N) => e.2.1)) <$> map_to_list (needs s)
    = fst <$> map_to_list (needs s)) as ->; [|apply NoDup_fst_map_to_list].
  apply list_fmap_ext. intros i [id [n w]] Hi. apply list_elem_of_lookup_2, elem_of_map_to_list in Hi.
  by destruct (Hs _ _ _ Hi).
Qed.

Lemma NoDup_filter_key {A B} (f : A -> B) (p : A -> bool) l : NoDup (f <$> l) -> NoDup (f <$> List.filter p l).
Proof.
  induction l as [|x l IH]; cbn; [done|]. intros [Hx Hl]%NoDup_cons. destruct (p x); [|by apply IH].
  apply NoDup_cons. split; [|by apply IH]. intros (y & E & Hy)%list_elem_of_fmap.
  apply Hx, list_elem_of_fmap. exists y. split; [done|]. by apply elem_of_List_filter in Hy as [_ ?].
Qed.

Lemma current_needs_ok self session lane episode n :
  n ∈ current_needs self session lane episode ->
  (exists id w, needs (recall_ledger self) !! id = Some (n, w)) /\
  RecallNeed.obligation_state n = RecallObligationState.Active /\
  RecallNeed.session_id n = session /\ RecallNeed.execution_lane_id n = lane.
Proof.
  unfold current_needs. rewrite elem_of_sort_by, elem_of_List_filter, elem_of_values.
  rewrite !andb_true_iff, !bool_decide_eq_true. tauto.
Qed.

Lemma current_needs_once self session lane episode :
  ledger_valid (recall_ledger self) ->
  NoDup (RecallNeed.recall_need_id <$> current_needs self session lane episode).
Proof.
  intros Hs. unfold current_needs. rewrite sort_by_perm. by apply NoDup_filter_key, values_once.
Qed.

Lemma lane_context_ok self frontier bindings episode lane_id c :
  ledger_valid (recall_ledger self) -> lanes_keyed self ->
  lane_context self frontier bindings episode lane_id = Ok (Some c) -> context_ok (recall_ledger self) c.
Proof.
  intros Hs Hl H. unfold lane_context in H.
  destruct (active_lane _ _ _) as [lane|] eqn:Hlane; [|done].
  destruct (tasks self !! _) as [[task wt]|]; [|done]. destruct (_ !=? _); [done|].
  destruct (workstreams self !! _) as [[stream ws]|]; [|done]. destruct (_ || _); [done|].
  apply rbind_ok in H as (sel & _ & H). destruct sel as [[cp prev]|]; [|done].
  apply rbind_ok in H as (b & _ & H). destruct b as [b|]; [|done]. cbv zeta in H. ok_steps H. injection H as <-.
  assert (Hid : ExecutionLane.execution_lane_id lane = lane_id).
  { unfold active_lane in Hlane. destruct (execution_lanes self !! lane_id) as [[lane' w]|] eqn:E; [|done].
    destruct (_ && _); [|done]. simplify_eq. by eapply Hl. }
  split; cbn; [|by apply current_needs_once]. intros n ((id & w & Hn) & Ha & Hse & Hla)%current_needs_ok.
  split_and!; [|done|].
  - exists w. by destruct (Hs _ _ _ Hn) as [_ ->].
  - unfold context_key. cbn. by rewrite Hse, Hla, Hid.
Qed.

Lemma collect_contexts_ok self frontier limit bindings pairs : forall contexts result,
  ledger_valid (recall_ledger self) -> lanes_keyed self -> Forall (context_ok (recall_ledger self)) contexts ->
  collect_contexts self frontier limit bindings contexts pairs = Ok result ->
  Forall (context_ok (recall_ledger self)) result.
Proof.
  induction pairs as [|[episode lane_id] pairs IH]; intros contexts result Hs Hl Hc H; cbn [collect_contexts] in H.
  - by simplify_eq.
  - apply rbind_ok in H as ([c|] & Hone & H); [|by eapply IH].
    apply rbind_ok in H as ([] & _ & H). eapply IH; [done..| |exact H].
    apply Forall_app. split; [done|]. apply Forall_singleton. by eapply lane_context_ok.
Qed.

(** The contexts of one read: their needs are listed once altogether. *)
Lemma contexts_of_ledger self frontier limit contexts :
  ledger_valid (recall_ledger self) -> lanes_keyed self ->
  recall_current_contexts self frontier limit = Ok contexts ->
  Forall (context_ok (recall_ledger self)) contexts /\ NoDup (context_key <$> contexts).
Proof.
  intros Hs Hl H. unfold recall_current_contexts in H. ok_steps H. injection H as <-.
  match goal with C : collect_contexts _ _ _ _ _ _ = Ok _ |- _ =>
    apply collect_contexts_ok in C; [|done|done|constructor] end.
  split.
  - rewrite Forall_forall in *. intros c Hc%elem_of_sort_by. auto.
  - apply adjacent_NoDup; [|done]. apply sort_by_sorted.
    + intros a b. apply leb_ord_total.
    + intros a b c. apply leb_ord_trans.
Qed.
End contexts.

(** ** Sealing a successor *)

Section seals.
Context `{L : UuidLib} `{SHA : Sha256}.
Import RecallNeed.

(** A need whose digests are already those of its content is sealed as it is. *)
Lemma seal_same n :
  plan_fingerprint (recall_plan n) = Ok (recall_plan_fingerprint n) ->
  compute_need_hash n = Ok (recall_need_hash n) -> seal_need n = Ok n.
Proof.
  intros Hp Hh. unfold seal_need. rewrite Hp. cbn [rbind].
  change (recall_plan_fingerprint (set_sealed n ?h ?f)) with f.
  assert (set_sealed n (recall_need_hash n) (recall_plan_fingerprint n) = n) as -> by by destruct n.
  rewrite Hh. cbn [rbind]. f_equal. by destruct n.
Qed.

Lemma seal_settled n r st :
  validate_need n = true -> seal_need (set_settled n (Some (revision_id n)) r st) = Ok (set_settled n (Some (revision_id n)) r st).
Proof. intros [Hp Hh]%validate_need_seals. by apply seal_same. Qed.

Lemma seal_rearmed n r t :
  validate_need n = true -> seal_need (set_expiry n (Some (revision_id n)) r t) = Ok (set_expiry n (Some (revision_id n)) r t).
Proof. intros [Hp Hh]%validate_need_seals. by apply seal_same. Qed.

Lemma settled_valid n r st :
  validate_need n = true -> r <> revision_id n -> validate_need (set_settled n (Some (revision_id n)) r st) = true.
Proof.
  unfold validate_need. rewrite !andb_true_iff. intros H Hr. destruct_and! H. split_and!; try assumption.
  cbn. apply negb_true_iff, bool_decide_eq_false. congruence.
Qed.

Lemma rearmed_valid n r t :
  validate_need n = true -> r <> revision_id n -> (presentation_expires_at_us n <= t)%Z ->
  validate_need (set_expiry n (Some (revision_id n)) r t) = true.
Proof.
  unfold validate_need. rewrite !andb_true_iff. intros H Hr Ht. destruct_and! H. split_and!; try assumption.
  - cbn. repeat match goal with X : (_ <? _)%Z = true |- _ => apply Z.ltb_lt in X end. apply Z.ltb_lt. lia.
  - cbn. apply negb_true_iff, bool_decide_eq_false. congruence.
Qed.
End seals.

(** ** Events the ledger accepts *)

Section accepted.
Context `{L : UuidLib} `{SHA : Sha256}.
Import RecallNeed.

Variables (s : RecallLedgerState) (n : RecallNeed) (w : N).
Hypothesis stored : needs s !! recall_need_id n = Some (n, w).
Hypothesis valid : validate_need n = true.
Hypothesis active : obligation_state n = RecallObligationState.Active.

Lemma settle_accepted r st seq :
  st <> RecallObligationState.Active -> r <> revision_id n ->
  let next := set_settled n (Some (revision_id n)) r st in
  apply s (RecallLedgerEvent.NeedRecorded next) seq = Ok (put s (recall_need_id n) next seq).
Proof.
  intros Hst Hr next. apply apply_step. apply (step_successor s next n w); [by apply settled_valid|done|].
  split; [done| | |].
  - unfold same_need_identity, next. cbn. by rewrite !bool_decide_eq_true_2.
  - unfold same_delivery_and_agent_axes, next. cbn. by rewrite !bool_decide_eq_true_2.
  - unfold legal_obligation_successor, same_content, next. cbn. rewrite active, (bool_decide_eq_false_2 (st = _)) by done.
    by rewrite !bool_decide_eq_true_2.
Qed.

Lemma rearm_accepted r t seq :
  undelivered (delivery_state n) = true -> active_presentation_attempt_id n = None ->
  (presentation_expires_at_us n < t)%Z -> r <> revision_id n ->
  let next := set_expiry n (Some (revision_id n)) r t in
  apply s (RecallLedgerEvent.NeedRecorded next) seq = Ok (put s (recall_need_id n) next seq).
Proof.
  intros Hd Ha Ht Hr next. apply apply_step. apply (step_successor s next n w); [|done|].
  { apply rearmed_valid; [done..|]. lia. }
  split; [done| | |].
  - unfold same_need_identity, next. cbn. by rewrite !bool_decide_eq_true_2.
  - unfold same_delivery_and_agent_axes, next. cbn. by rewrite !bool_decide_eq_true_2.
  - unfold legal_obligation_successor, same_content, next. cbn. rewrite active, Hd, Ha.
    apply Z.ltb_lt in Ht. rewrite !bool_decide_eq_true_2 by done. cbn. rewrite Ht.
    by rewrite !bool_decide_eq_true_2.
Qed.

Lemma valid_boundary : recall_bytes (boundary_event_ref n) = true.
Proof. revert valid. unfold validate_need. rewrite !andb_true_iff. tauto. Qed.

Lemma outcome_accepted a st t seq :
  st <> PresentationAttemptState.ClaimedForBoundary -> (0 <= t)%Z ->
  active_presentation_attempt_id n = Some a -> delivery_state n = RecallDeliveryState.ClaimedForBoundary ->
  a ∈ presentation_attempts s ->
  apply s (RecallLedgerEvent.PresentationAttempt
    (RecallPresentationAttempt.mk a (recall_need_id n) (recall_need_hash n) (boundary_event_ref n) st t)) seq
  = Ok (put s (recall_need_id n) (set_delivery n (delivery_of st)
      (if st ==? PresentationAttemptState.FailedPreEmit then None else Some a)) seq).
Proof.
  intros Hst Ht Ha Hd Hin. apply apply_step.
  apply step_outcome; try done; [apply valid_boundary|]. split; [by exists w|done].
Qed.

Lemma claim_accepted a t seq :
  (0 <= t)%Z -> a ∉ presentation_attempts s -> undelivered (delivery_state n) = true ->
  exists s', apply s (RecallLedgerEvent.PresentationAttempt
    (RecallPresentationAttempt.mk a (recall_need_id n) (recall_need_hash n) (boundary_event_ref n)
       PresentationAttemptState.ClaimedForBoundary t)) seq = Ok s'.
Proof.
  intros Ht Ha Hd. eexists. apply apply_step. apply step_claim; try done; [apply valid_boundary|].
  split; [by exists w|done].
Qed.
End accepted.

(** ** Validity against the current state *)

Section validity.
Context `{L : UuidLib} `{SHA : Sha256}.
Import RecallCurrentContext.

(** A need that is not terminal belongs to the work and boundary of its context. *)
Record same_work (c : RecallCurrentContext) (n : RecallNeed) : Prop := {
  work_session : RecallNeed.session_id n = RecallDetectionAnchor.session_id (anchor_of c);
  work_lane : RecallNeed.execution_lane_id n = RecallDetectionAnchor.execution_lane_id (anchor_of c);
  work_task : RecallNeed.task_id n = RecallDetectionAnchor.task_id (anchor_of c);
  work_workstream : RecallNeed.workstream_id n = RecallDetectionAnchor.workstream_id (anchor_of c);
  work_episode : RecallNeed.episode_revision_id n = RecallDetectionAnchor.episode_revision_id (anchor_of c);
  work_repository : RecallNeed.repository_id n = RecallDetectionAnchor.repository_id (anchor_of c);
  work_worktree : RecallNeed.worktree_id n = RecallDetectionAnchor.worktree_id (anchor_of c);
}.

Lemma expected_not_active index anchor conditions ids st :
  expected_contracts index anchor conditions ids = inr (RecallNeedValidity.Terminal st) ->
  st <> RecallObligationState.Active.
Proof.
  revert st. induction ids as [|id ids IH]; intros st; cbn [expected_contracts]; [done|].
  destruct (List.find _ _) as [c|]; [|by intros [= <-]].
  destruct (_ ==? _); [by intros [= <-]|]. destruct (_ ==? _); [by intros [= <-]|].
  destruct (_ || _); [done|]. destruct (index_entry _ _) as [e|]; [|done].
  destruct (scope_matches _ _); [|done].
  destruct (expected_contracts _ _ _ ids) as [l|v]; [done|]. intros [= ->]. by apply IH.
Qed.

(** What each answer of the validation says of a valid active need. *)
Lemma validity_cases c n index now v :
  current_need_validity c n index now = Ok v ->
  match v with
  | RecallNeedValidity.Terminal st => st <> RecallObligationState.Active
  | _ => validate_need n = true -> RecallNeed.obligation_state n = RecallObligationState.Active -> same_work c n
  end.
Proof.
  unfold current_need_validity, validate_need_against_current. intros H.
  destruct (negb (validate_need n) || _) eqn:Hv.
  { simplify_eq. intros Hn Ha. rewrite Hn, Ha in Hv. done. }
  destruct (is_some_and _ _); [by simplify_eq|].
  match type of H with (if ?b then _ else _) = _ => destruct b eqn:Hp end; [by simplify_eq|].
  assert (Hw : same_work c n).
  { rewrite !orb_false_iff, !negb_false_iff, !bool_decide_eq_true in Hp. destruct_and! Hp. by split. }
  match type of H with match ?m with _ => _ end = _ => destruct m as [[l b]|v'] eqn:Ht end.
  - destruct b; [|by simplify_eq]. apply rbind_ok in H as (f & _ & H). destruct (f ==? Some _); simplify_eq; [by intros|done].
  - simplify_eq. destruct v as [|st|]; [by intros|..|by intros].
    destruct (RecallNeed.trigger_family n); [done| |done].
    destruct (expected_contracts _ _ _ _) eqn:He; [done|]. simplify_eq. by eapply expected_not_active.
Qed.

(** [Valid] and [Terminal] are only answered for valid active needs. *)
Lemma validity_checked c n index now v :
  current_need_validity c n index now = Ok v -> v <> RecallNeedValidity.Unavailable ->
  validate_need n = true /\ RecallNeed.obligation_state n = RecallObligationState.Active.
Proof.
  unfold current_need_validity, validate_need_against_current. intros H Hv.
  destruct (negb (validate_need n) || _) eqn:E; [simplify_eq; done|].
  by rewrite orb_false_iff, !negb_false_iff, bool_decide_eq_true in E.
Qed.
End validity.

(** ** One need *)

Section one_need.
Context `{L : UuidLib} `{SHA : Sha256}.
Import RecallNeed.

(** What the worker does with one need, and whether that settles its context. *)
Inductive need_outcome (fresh : RevisionId) (t : Z) (n : RecallNeed) : option RecallLedgerEvent -> bool -> Prop :=
| outcome_settled st :
    st <> RecallObligationState.Active ->
    need_outcome fresh t n
      (Some (RecallLedgerEvent.NeedRecorded (set_settled n (Some (revision_id n)) fresh st))) true
| outcome_rearmed :
    (presentation_expires_at_us n <= t)%Z -> active_presentation_attempt_id n = None ->
    undelivered (delivery_state n) = true ->
    need_outcome fresh t n
      (Some (RecallLedgerEvent.NeedRecorded
         (set_expiry n (Some (revision_id n)) fresh (saturating_add_i64 t 30000000)))) true
| outcome_abandoned a :
    active_presentation_attempt_id n = Some a -> delivery_state n = RecallDeliveryState.ClaimedForBoundary ->
    need_outcome fresh t n
      (Some (RecallLedgerEvent.PresentationAttempt
         (RecallPresentationAttempt.mk a (recall_need_id n) (recall_need_hash n) (boundary_event_ref n)
            PresentationAttemptState.PresentationUnknown t))) false
| outcome_kept : need_outcome fresh t n None false.

Lemma terminal_event n fresh st e :
  validate_need n = true -> terminal_need_event fresh n st = Ok e ->
  obligation_state n = RecallObligationState.Active /\ st <> RecallObligationState.Active /\
  e = RecallLedgerEvent.NeedRecorded (set_settled n (Some (revision_id n)) fresh st).
Proof.
  unfold terminal_need_event, seal_error. intros Hv H. apply rbind_ok in H as ([] & Hg & H).
  rewrite guard_ok, orb_false_iff, negb_false_iff, bool_decide_eq_true, bool_decide_eq_false in Hg.
  destruct Hg as [Ha Hst]. rewrite (seal_settled n fresh st Hv) in H. cbn in H. by simplify_eq.
Qed.

Lemma need_event_cases fresh ac c index t n o b :
  need_event fresh ac c index t n = Ok (o, b) ->
  need_outcome fresh t n o b /\
  (o <> None -> validate_need n = true /\ obligation_state n = RecallObligationState.Active) /\
  (b = false -> (validate_need n = true -> obligation_state n = RecallObligationState.Active -> same_work c n) /\
     (o <> None -> current_need_validity c n index t = Ok RecallNeedValidity.Valid)).
Proof.
  unfold need_event, batch_error. intros H. apply rbind_ok in H as (v & Hv%map_err_ok & H).
  pose proof (validity_cases _ _ _ _ _ Hv) as Hcase. pose proof (validity_checked _ _ _ _ _ Hv) as Hchecked.
  destruct v as [|st|].
  - destruct Hchecked as [Hn Ha]; [done|]. destruct (_ && _ && _) eqn:Hre.
    + rewrite !andb_true_iff, Z.leb_le, is_none_true in Hre. destruct Hre as [[Ht Hat] Hd].
      unfold seal_error in H. rewrite (seal_rearmed n _ _ Hn) in H. cbn in H. simplify_eq.
      split; [by apply outcome_rearmed|done].
    + destruct (active_presentation_attempt_id n) as [a|] eqn:Hat.
      * destruct (_ && _) eqn:Hab in H; simplify_eq.
        -- apply andb_true_iff in Hab as [Hd%bool_decide_eq_true_1 _].
           split; [by apply outcome_abandoned|]. split; [done|]. split; by auto.
        -- split; [apply outcome_kept|]. split; [done|]. split; [by auto|done].
      * simplify_eq. split; [apply outcome_kept|]. split; [done|]. split; [by auto|done].
  - destruct Hchecked as [Hn Ha]; [done|].
    apply rbind_ok in H as (e & He%map_err_ok & H). simplify_eq.
    apply terminal_event in He as (_ & Hst & ->); [|done]. split; [by apply outcome_settled|done].
  - simplify_eq. split; [apply outcome_kept|]. split; [done|]. split; [by auto|done].
Qed.

(** The event of a need is accepted wherever the need is stored. *)
Lemma need_outcome_accepted s fresh t n w e b seq :
  need_outcome fresh t n (Some e) b -> needs s !! recall_need_id n = Some (n, w) -> validate_need n = true ->
  obligation_state n = RecallObligationState.Active -> fresh <> revision_id n -> (0 <= t < I64_MAX)%Z ->
  (forall a, active_presentation_attempt_id n = Some a -> a ∈ presentation_attempts s) ->
  exists next, apply s e seq = Ok (put s (recall_need_id n) next seq).
Proof.
  intros Ho Hs Hv Ha Hf Ht Hin. inversion Ho as [st Hst|Hle Hat Hd|a Hat Hd|]; subst.
  - eexists. by eapply settle_accepted.
  - eexists. eapply rearm_accepted; try done. unfold saturating_add_i64, I64_MAX in *. lia.
  - eexists. eapply (outcome_accepted s n w Hs Hv Ha); [done|lia|done|done|by apply Hin].
Qed.
End one_need.

(** ** The needs of a context *)

Section needs.
Context `{L : UuidLib} `{SHA : Sha256}.

Abbreviation nid := RecallNeed.recall_need_id.

Variables (ids : FreshIds) (ac : bool) (c : RecallCurrentContext) (index : RecallTriggerIndex) (t : Z).
Hypothesis time : (0 <= t < I64_MAX)%Z.

(** A need that got no event, or whose claim was abandoned. *)
Definition left_open (s s' : RecallLedgerState) (n : RecallNeed) : Prop :=
  (validate_need n = true -> RecallNeed.obligation_state n = RecallObligationState.Active -> same_work c n) /\
  (needs s' !! nid n = needs s !! nid n \/
   RecallNeed.delivery_state n = RecallDeliveryState.ClaimedForBoundary /\
   current_need_validity c n index t = Ok RecallNeedValidity.Valid).

Lemma needs_accepted ns : forall s evs es b,
  needs_events ids ac c index t ns = Ok (es, b) -> evs.*1 = es ->
  (forall n, n ∈ ns -> exists w, needs s !! nid n = Some (n, w)) -> NoDup (nid <$> ns) ->
  (forall n a, n ∈ ns -> RecallNeed.active_presentation_attempt_id n = Some a -> a ∈ presentation_attempts s) ->
  (forall n, n ∈ ns -> fresh_successor ids n <> RecallNeed.revision_id n) ->
  exists s', apply_all s evs = Ok s' /\ presentation_attempts s' = presentation_attempts s /\
    (forall id, id ∉ nid <$> ns -> needs s' !! id = needs s !! id) /\
    (b = false -> forall n, n ∈ ns -> left_open s s' n).
Proof.
  induction ns as [|n ns IH]; intros s evs es b H Hevs Hst Hnd Hat Hf; cbn [needs_events] in H.
  - injection H as <- <-. apply fmap_nil_inv in Hevs as ->. exists s. split_and!; [done..|].
    by intros _ n []%not_elem_of_nil.
  - apply rbind_ok in H as ([o b1] & Hone & H). apply rbind_ok in H as ([es2 b2] & Hrest & H).
    injection H as <- <-. cbn [fst snd] in *.
    apply need_event_cases in Hone as (Ho & Hchk & Hopen).
    apply NoDup_cons in Hnd as [Hn Hnd]. destruct (Hst n) as [w Hw]; [by left|].
    assert (Hstep : exists e1 e2 s1, evs = e1 ++ e2 /\ e2.*1 = es2 /\ apply_all s e1 = Ok s1 /\
      presentation_attempts s1 = presentation_attempts s /\ (forall id, id <> nid n -> needs s1 !! id = needs s !! id) /\
      (o = None -> s1 = s)).
    { destruct o as [e|]; cbn [option_list app] in Hevs.
      - destruct evs as [|[e' seq] evs]; [done|]. injection Hevs as -> Hevs.
        destruct Hchk as [Hv Ha]; [done|].
        destruct (need_outcome_accepted s _ t n w e b1 seq Ho Hw Hv Ha) as [next Hnext].
        { apply Hf. by left. } { done. } { intros a. apply Hat. by left. }
        exists [(e, seq)], evs, (put s (nid n) next seq). cbn. rewrite Hnext. split_and!; try done.
        intros id Hid. cbn. by rewrite lookup_insert_ne.
      - exists [], evs, s. by split_and!. }
    destruct Hstep as (e1 & e2 & s1 & -> & He2 & Hs1 & Hp1 & Hl1 & Hnone).
    destruct (IH s1 e2 es2 b2 Hrest He2) as (s' & Hs' & Hp' & Hl' & Ho').
    { intros m Hm. rewrite Hl1; [apply Hst; by right|]. intros E. apply Hn. rewrite <-E. by apply list_elem_of_fmap_2. }
    { done. } { intros m a Hm. rewrite Hp1. apply Hat. by right. } { intros m Hm. apply Hf. by right. }
    exists s'. split_and!.
    + apply ledger_replay_app. eauto.
    + by rewrite Hp'.
    + intros id. rewrite fmap_cons, not_elem_of_cons. intros [Hid Hin]. by rewrite Hl', Hl1.
    + intros [-> ->]%orb_false_iff m [->|Hm]%elem_of_cons.
      * destruct Hopen as [Hsw Hval]; [done|]. split; [done|]. destruct o as [e|].
        -- right. split; [by inversion Ho|by apply Hval].
        -- left. rewrite Hl' by done. by rewrite Hnone.
      * destruct (Ho' eq_refl m Hm) as [Hsw [E|Hc]]; (split; [done|]); [left|by right].
        rewrite E. apply Hl1. intros E'. apply Hn. rewrite <-E'. by apply list_elem_of_fmap_2.
Qed.
End needs.

(** ** What detection records *)

Section detected.
Context `{L : UuidLib} `{SHA : Sha256}.
Import RecallCurrentContext.

Abbreviation nid := RecallNeed.recall_need_id.
Abbreviation cond_id := FutureCueCandidateCondition.future_cue_contract_id.
Abbreviation entry_id := (fun e => FutureCueContract.future_cue_contract_id (RecallTriggerEntry.contract e)).

Lemma conditions_once frontier entries current previous :
  NoDup (entry_id <$> entries) ->
  NoDup (cond_id <$> evaluate_index (index_of frontier entries) current previous).
Proof.
  intros Hn. destruct (ConstraintState.validate current) as [[]|] eqn:Hc.
  2:{ unfold evaluate_index. rewrite Hc. constructor. }
  destruct (is_some_and previous (fun s => is_err (ConstraintState.validate s))) eqn:Hp.
  { unfold evaluate_index. rewrite Hc, Hp. constructor. }
  rewrite evaluate_index_spec; [|done|].
  - rewrite <-list_fmap_compose. by apply (NoDup_filter_key entry_id).
  - intros st ->. by apply is_err_false.
Qed.

(** A need that relies on contracts in force is not settled by their conditions. *)
Lemma expected_unsettled index anchor conditions mids l n :
  NoDup (cond_id <$> conditions) ->
  expected_contracts index anchor conditions mids = inl l -> RecallNeed.matched_contract_ids n = mids ->
  settled_by n conditions = None.
Proof.
  intros Hnd He Hm.
  assert (Hin : forall id, id ∈ mids -> exists c, c ∈ conditions /\ cond_id c = id /\
    FutureCueCandidateCondition.resolve_truth c <> ConstraintTruth.True /\
    FutureCueCandidateCondition.suppress_truth c <> ConstraintTruth.True).
  { clear Hm. revert l He. induction mids as [|i mids IH]; intros l He id Hid; [by apply not_elem_of_nil in Hid|].
    cbn [expected_contracts] in He. destruct (List.find _ _) as [c|] eqn:Hf; [|done].
    destruct (_ ==? _) eqn:Hr in He; [done|]. destruct (_ ==? _) eqn:Hs in He; [done|].
    destruct (_ || _) in He; [done|]. destruct (index_entry _ _) in He; [|done].
    destruct (scope_matches _ _) in He; [|done]. destruct (expected_contracts _ _ _ mids) as [l'|] eqn:Hl; [|done].
    apply elem_of_cons in Hid as [->|Hid]; [|by eapply IH].
    apply find_some in Hf as [Hin Hid]. apply bool_decide_eq_true_1 in Hid.
    exists c. rewrite list_elem_of_In. split_and!; [done..|by apply bool_decide_eq_false_1 in Hr|by apply bool_decide_eq_false_1 in Hs]. }
  unfold settled_by. rewrite Hm.
  assert (Hall : Forall (fun c => FutureCueCandidateCondition.resolve_truth c <> ConstraintTruth.True /\
    FutureCueCandidateCondition.suppress_truth c <> ConstraintTruth.True)
    (List.filter (fun c => contains (cond_id c) mids) conditions)).
  { apply Forall_forall. intros c [Hc Hcin]%elem_of_List_filter. apply contains_true in Hc.
    destruct (Hin _ Hc) as (c' & Hc' & E & ?). by rewrite <-(NoDup_key cond_id conditions c' c). }
  clear Hin He Hm. induction Hall as [|c cs [Hr Hs] _ IH]; cbn; [done|].
  by rewrite (bool_decide_eq_false_2 _ Hr), (bool_decide_eq_false_2 _ Hs).
Qed.

Lemma valid_unsettled c n frontier entries t :
  NoDup (entry_id <$> entries) ->
  current_need_validity c n (index_of frontier entries) t = Ok RecallNeedValidity.Valid ->
  RecallNeed.trigger_family n = TriggerFamily.ProspectiveObligation ->
  settled_by n (evaluate_index (index_of frontier entries) (checkpoint_state (checkpoint c)) None) = None.
Proof.
  intros Hn H Hf. unfold current_need_validity, validate_need_against_current in H. rewrite Hf in H.
  destruct (negb (validate_need n) || _); [done|]. destruct (is_some_and _ _); [done|].
  match type of H with (if ?b then _ else _) = _ => destruct b end; [done|].
  destruct (expected_contracts _ _ _ _) as [l|v] eqn:He.
  - eapply expected_unsettled; [by apply conditions_once|exact He|done].
  - simplify_eq. revert He. generalize (RecallNeed.matched_contract_ids n) as mids. clear. intros mids.
    induction mids as [|i mids IH]; cbn [expected_contracts]; [done|].
    destruct (List.find _ _) as [cc|]; [|done]. destruct (_ ==? _); [done|]. destruct (_ ==? _); [done|].
    destruct (_ || _); [done|]. destruct (index_entry _ _); [|done]. destruct (scope_matches _ _); [|done].
    destruct (expected_contracts _ _ _ mids); [done|]. intros [= ->]. by apply IH.
Qed.

(** The need recorded for a context continues the one its boundary has. *)
Lemma sealed_need n m :
  seal_need n = Ok m -> m = RecallNeed.set_sealed n (RecallNeed.recall_need_hash m) (RecallNeed.recall_plan_fingerprint m).
Proof.
  unfold seal_need. intros (f & _ & (h & _ & [= <-])%rbind_ok)%rbind_ok. by destruct n.
Qed.

Lemma detected_successor fid frev t c cur family contracts plan next :
  next = RecallNeed.set_sealed (need_of fid frev t c (Some cur) family contracts plan)
    (RecallNeed.recall_need_hash next) (RecallNeed.recall_plan_fingerprint next) ->
  same_work c cur -> RecallNeed.boundary_event_ref cur = WorkCheckpoint.stable_key (checkpoint c) ->
  still_open cur = true -> RecallNeed.recall_need_hash cur <> RecallNeed.recall_need_hash next ->
  successor_need cur next.
Proof.
  intros -> [] Hb [Ha%bool_decide_eq_true_1 Hu]%andb_true_iff Hh. split; [done| | |].
  - unfold same_need_identity. cbn. by rewrite !bool_decide_eq_true_2.
  - unfold same_delivery_and_agent_axes. cbn. by rewrite !bool_decide_eq_true_2.
  - unfold legal_obligation_successor. cbn [need_of RecallNeed.set_sealed RecallNeed.obligation_state
      RecallNeed.presentation_expires_at_us RecallNeed.recall_need_hash]. rewrite Ha, Hu.
    rewrite (bool_decide_eq_true_2 (RecallNeed.presentation_expires_at_us cur = _)) by done.
    rewrite (bool_decide_eq_false_2 _ Hh). done.
Qed.

Variables (s0 s : RecallLedgerState) (c : RecallCurrentContext) (frontier : N)
  (entries : list RecallTriggerEntry) (t : Z) (fid : RecallNeedId) (frev : RevisionId).
Let index := index_of frontier entries.
Hypothesis entries_once : NoDup (entry_id <$> entries).
Hypothesis stored : forall n, n ∈ RecallCurrentContext.needs c ->
  (exists w, RecallLedgerState.needs s0 !! nid n = Some (n, w)) /\ validate_need n = true /\
  RecallNeed.obligation_state n = RecallObligationState.Active.
Hypothesis opened : forall n, n ∈ RecallCurrentContext.needs c -> left_open c index t s0 s n.
Hypothesis fresh_id : RecallLedgerState.needs s !! fid = None.
Hypothesis fresh_rev : forall n, n ∈ RecallCurrentContext.needs c -> frev <> RecallNeed.revision_id n.

Lemma detected_accepted e seq :
  detect_current_context fid frev c index t = Ok (Some e) -> validate_event e = true ->
  exists id next, apply s e seq = Ok (put s id next seq) /\ (id = fid \/ id ∈ nid <$> RecallCurrentContext.needs c).
Proof.
  intros H Hev. unfold detect_current_context in H. destruct (_ || _) in H; [done|].
  apply rbind_ok in H as ([] & Hone & H).
  set (existing := List.filter _ (RecallCurrentContext.needs c)) in *.
  assert (Hcur : forall cur, head existing = Some cur -> cur ∈ RecallCurrentContext.needs c /\
    RecallNeed.boundary_event_ref cur = WorkCheckpoint.stable_key (checkpoint c)).
  { intros cur Hh. assert (cur ∈ existing) as Hin by (destruct existing; [done|]; injection Hh as ->; left).
    apply elem_of_List_filter in Hin as [Hb%bool_decide_eq_true_1 Hin]. done. }
  clearbody existing. cbv zeta in H.
  destruct (head existing) as [cur|].
  - destruct (Hcur cur eq_refl) as [Hin Hb]. destruct (stored cur Hin) as ((w & Hw) & Hv & Ha).
    destruct (opened cur Hin) as [Hsw Hstate]. specialize (Hsw Hv Ha).
    assert (Hrec : forall family contracts, record_detected fid frev t c (Some cur) family contracts = Ok (Some e) ->
      exists id next, apply s e seq = Ok (put s id next seq) /\ (id = fid \/ id ∈ nid <$> RecallCurrentContext.needs c)).
    { intros family contracts Hr. unfold record_detected in Hr. destruct (negb _) in Hr; [done|]. cbn [is_some_and] in Hr.
      destruct (still_open cur) eqn:Ho; [|done]. cbn [negb] in Hr.
      apply rbind_ok in Hr as (next & Hseal%map_err_ok & Hr). destruct (_ ==? _) eqn:Hh in Hr; [done|]. simplify_eq.
      apply bool_decide_eq_false_1 in Hh. apply sealed_need in Hseal.
      destruct Hstate as [Hst|[Hd _]].
      2:{ unfold still_open in Ho. rewrite Hd in Ho. by rewrite andb_false_r in Ho. }
      exists (RecallNeed.recall_need_id next), next. split.
      + apply apply_step. eapply step_successor; [done| |by eapply detected_successor].
        rewrite Hseal. cbn. by rewrite Hst, Hw.
      + right. rewrite Hseal. cbn. by apply list_elem_of_fmap_2. }
    destruct (RecallNeed.trigger_family cur ==? _) eqn:Hfam.
    2:{ destruct (detect_family _ _); [by eapply Hrec|done]. }
    apply bool_decide_eq_true_1 in Hfam.
    destruct (settled_by cur _) as [st|] eqn:Hset; cbn [fmap option_fmap option_map] in H.
    2:{ destruct (detect_family _ _); [by eapply Hrec|done]. }
    destruct Hstate as [Hst|[_ Hval]].
    2:{ unfold index in *. by rewrite (valid_unsettled c cur frontier entries t) in Hset. }
    apply rbind_ok in H as (ev & Hev' & [= ->]). apply terminal_event in Hev' as (_ & Hne & ->); [|done].
    eexists _, _. split; [eapply settle_accepted; [by rewrite Hst|done|done|done|by apply fresh_rev]|].
    right. by apply list_elem_of_fmap_2.
  - destruct (detect_family _ _) as [family|]; [|done]. unfold record_detected in H.
    destruct (negb _) in H; [done|]. cbn [is_some_and] in H.
    apply rbind_ok in H as (next & Hseal%map_err_ok & H). simplify_eq. apply sealed_need in Hseal.
    exists (RecallNeed.recall_need_id next), next. split; [|left; by rewrite Hseal].
    apply apply_step, step_new; [done|by rewrite Hseal|]. rewrite Hseal. by split.
Qed.
End detected.

(** ** A batch *)

Section batch.
Context `{L : UuidLib} `{SHA : Sha256}.
Import RecallCurrentContext.

Abbreviation nid := RecallNeed.recall_need_id.
Abbreviation stored s c := (forall n, n ∈ RecallCurrentContext.needs c ->
  exists w, RecallLedgerState.needs s !! nid n = Some (n, w)).

(** The identifiers minted for a batch are new. *)
Record fresh_for (ids : FreshIds) (s : RecallLedgerState) (contexts : list RecallCurrentContext) : Prop := {
  fresh_needs_once : NoDup (fresh_need ids <$> contexts);
  fresh_needs_new c : c ∈ contexts -> RecallLedgerState.needs s !! fresh_need ids c = None;
  fresh_successors c n : c ∈ contexts -> n ∈ RecallCurrentContext.needs c ->
    fresh_successor ids n <> RecallNeed.revision_id n;
  fresh_revisions c n : c ∈ contexts -> n ∈ RecallCurrentContext.needs c ->
    fresh_revision ids c <> RecallNeed.revision_id n;
}.

Variables (ids : FreshIds) (ac : bool) (blocked : list RepositoryId) (t : Z) (frontier : N)
  (entries : list RecallTriggerEntry).
Let index := index_of frontier entries.
Hypothesis time : (0 <= t < I64_MAX)%Z.
Hypothesis entries_once :
  NoDup ((fun e => FutureCueContract.future_cue_contract_id (RecallTriggerEntry.contract e)) <$> entries).

(** What holds of a context in the state its events meet. *)
Record context_ready (s : RecallLedgerState) (c : RecallCurrentContext) : Prop := {
  ready_stored n : n ∈ RecallCurrentContext.needs c ->
    (exists w, RecallLedgerState.needs s !! nid n = Some (n, w)) /\ validate_need n = true /\
    RecallNeed.obligation_state n = RecallObligationState.Active;
  ready_once : NoDup (nid <$> RecallCurrentContext.needs c);
  ready_claimed n a : n ∈ RecallCurrentContext.needs c ->
    RecallNeed.active_presentation_attempt_id n = Some a -> a ∈ presentation_attempts s;
}.

Lemma context_accepted s c evs es :
  context_events ids ac blocked index t c = Ok es -> evs.*1 = es ->
  Forall (fun e => validate_event e = true) es -> context_ready s c -> fresh_for ids s [c] ->
  exists s', apply_all s evs = Ok s' /\ presentation_attempts s' = presentation_attempts s /\
    forall id, id <> fresh_need ids c -> id ∉ nid <$> RecallCurrentContext.needs c ->
      RecallLedgerState.needs s' !! id = RecallLedgerState.needs s !! id.
Proof.
  intros H Hevs Hok [Hst Hnd Hcl] [_ Hnew Hsucc Hrev]. unfold context_events in H.
  assert (Hin : c ∈ [c]) by left.
  destruct (is_some_and _ _).
  { injection H as <-. apply fmap_nil_inv in Hevs as ->. by exists s. }
  apply rbind_ok in H as ([es1 b] & Hneeds & H). cbn [fst snd] in H.
  assert (Hpart : forall e1, e1.*1 = es1 -> exists s1, apply_all s e1 = Ok s1 /\
    presentation_attempts s1 = presentation_attempts s /\
    (forall id, id ∉ nid <$> RecallCurrentContext.needs c -> RecallLedgerState.needs s1 !! id = RecallLedgerState.needs s !! id) /\
    (b = false -> forall n, n ∈ RecallCurrentContext.needs c -> left_open c index t s s1 n)).
  { intros e1 He1. eapply needs_accepted; [done|exact Hneeds|done| |done|done|].
    - intros n Hn. by apply Hst.
    - intros n Hn. by eapply Hsucc. }
  destruct b.
  { injection H as <-. destruct (Hpart evs Hevs) as (s1 & ? & ? & Hl & _). exists s1. split_and!; auto. }
  apply rbind_ok in H as (d & Hd%map_err_ok & H). injection H as <-.
  apply fmap_app_inv in Hevs as (e1 & e2 & He1 & He2 & ->).
  destruct (Hpart e1 (eq_sym He1)) as (s1 & Hs1 & Hp1 & Hl1 & Hopen).
  destruct d as [e|]; cbn [option_list] in He2.
  2:{ symmetry in He2. apply fmap_nil_inv in He2 as ->. exists s1. rewrite app_nil_r. split_and!; auto. }
  destruct e2 as [|[e' seq] e2]; [done|]. injection He2 as <- He2. symmetry in He2. apply fmap_nil_inv in He2 as ->.
  assert (Hfresh : fresh_need ids c ∉ nid <$> RecallCurrentContext.needs c).
  { intros (n & E & Hn)%list_elem_of_fmap. destruct (Hst n Hn) as ((w & Hw) & _). rewrite <-E, Hnew in Hw by done. done. }
  destruct (detected_accepted s s1 c frontier entries t (fresh_need ids c) (fresh_revision ids c)
    entries_once Hst (Hopen eq_refl)) with e seq as (id & next & Happ & Hid).
  { rewrite Hl1 by done. by apply Hnew. } { intros n Hn. by apply Hrev. } { done. }
  { rewrite Forall_app in Hok. destruct Hok as [_ Hok]. by inversion Hok. }
  exists (put s1 id next seq). split_and!.
  - apply ledger_replay_app. exists s1. split; [done|]. cbn. by rewrite Happ.
  - done.
  - intros id' Hne Hnin. cbn. rewrite lookup_insert_ne; [by apply Hl1|]. destruct Hid as [->|Hid]; [done|].
    intros <-. done.
Qed.

Lemma contexts_accepted contexts : forall s evs es,
  try_map (context_events ids ac blocked index t) contexts = Ok es -> evs.*1 = concat es ->
  Forall (fun e => validate_event e = true) (concat es) ->
  (forall c, c ∈ contexts -> context_ready s c) -> fresh_for ids s contexts ->
  (forall i j c c', contexts !! i = Some c -> contexts !! j = Some c' -> i <> j ->
     forall n, n ∈ RecallCurrentContext.needs c -> nid n ∉ nid <$> RecallCurrentContext.needs c') ->
  exists s', apply_all s evs = Ok s'.
Proof.
  induction contexts as [|c contexts IH]; intros s evs es H Hevs Hok Hready [Hnd Hnew Hsucc Hrev] Hdisj;
    cbn [try_map] in H.
  - injection H as <-. apply fmap_nil_inv in Hevs as ->. by exists s.
  - apply rbind_ok in H as (es1 & H1 & H). apply rbind_ok in H as (es2 & H2 & [= <-]). cbn [concat] in Hevs, Hok.
    apply fmap_app_inv in Hevs as (e1 & e2 & He1 & He2 & ->). apply Forall_app in Hok as [Hok1 Hok2].
    apply NoDup_cons in Hnd as [Hcn Hnd].
    destruct (context_accepted s c e1 es1 H1 (eq_sym He1) Hok1) as (s1 & Hs1 & Hp1 & Hl1).
    { apply Hready. by left. }
    { split; [apply NoDup_singleton|..].
      - intros c' ->%list_elem_of_singleton. apply Hnew. by left.
      - intros c' n ->%list_elem_of_singleton. apply Hsucc. by left.
      - intros c' n ->%list_elem_of_singleton. apply Hrev. by left. }
    assert (Hother : forall c' n, c' ∈ contexts -> n ∈ RecallCurrentContext.needs c' ->
      RecallLedgerState.needs s1 !! nid n = RecallLedgerState.needs s !! nid n).
    { intros c' n Hc' Hn. apply Hl1.
      - intros E. destruct (ready_stored _ _ (Hready c' ltac:(by right)) n Hn) as ((w & Hw) & _).
        rewrite E, Hnew in Hw by by left. done.
      - apply list_elem_of_lookup in Hc' as [j Hj]. eapply (Hdisj (S j) 0 c' c); done. }
    destruct (IH s1 e2 es2 H2 (eq_sym He2) Hok2) as (s' & Hs').
    + intros c' Hc'. destruct (Hready c' ltac:(by right)) as [Hst Hon Hcl]. split; [|done|].
      * intros n Hn. rewrite (Hother c') by done. by apply Hst.
      * intros n a. rewrite Hp1. apply Hcl.
    + split; [done|..].
      * intros c' Hc'. rewrite Hl1; [apply Hnew; by right| |].
        -- intros E. apply Hcn. rewrite <-E. by apply list_elem_of_fmap_2.
        -- intros (n & E & Hn)%list_elem_of_fmap.
           destruct (ready_stored _ _ (Hready c ltac:(by left)) n Hn) as ((w & Hw) & _).
           rewrite <-E, Hnew in Hw by by right. done.
      * intros c' n Hc'. apply Hsucc. by right.
      * intros c' n Hc'. apply Hrev. by right.
    + intros i j a b Hi Hj Hne. apply (Hdisj (S i) (S j) a b); [done|done|lia].
    + exists s'. apply ledger_replay_app. eauto.
Qed.
End batch.
