(* ===== verification/RecallEngineTheorems.v ===== *)
(** * Theorems on recall detection and its worker

    Which cues are due at a checkpoint, what a worker batch does to the ledger it
    read, and that a need whose obligation is over gets settled; each theorem with
    an instance on a small store of two lanes. *)

From S2P Require Import Prelude Order Collections OrderedMap Text Canonical Ids Digests Lane Journal Objects Attempt Work Constraint Atom Episode Recall RecallFacts RecallLedger RecallTheorems RecallContexts RecallEngine RecallEngineFacts.

Import RecallLedgerState.

(** C37: the index of compiled cues is exact.  The contracts that are due at an
    anchor are those an atom of the contexts compiles to, whose match condition
    holds, whose suppress and resolve conditions are refuted, and whose scope
    covers the anchor: going through the fields the state binds and through the
    positions of the index neither loses a contract nor adds one. *)
Theorem due_cues_exact `{L : UuidLib, SHA : Sha256} frontier contexts index anchor current previous c :
  from_current_contexts frontier contexts = Ok index ->
  ConstraintState.validate current = Ok tt ->
  (forall s, previous = Some s -> ConstraintState.validate s = Ok tt) ->
  c ∈ due_contracts index anchor (evaluate_index index current previous) <->
  exists source, source ∈ contexts ≫= RecallCurrentContext.atoms /\
    compile_atom_future_cue (RecallCurrentAtom.atom source) true true
      (RecallCurrentAtom.source_event_seq source) = Ok c /\
    calls current previous c /\ scope_matches (Atom.scope (RecallCurrentAtom.atom source)) anchor = true.
Proof.
  intros H Hc Hp. apply entries_of_sources in H as (entries & -> & Hn & Hin).
  rewrite due_spec by done. setoid_rewrite Hin. split.
  - intros (e & (source & c' & Hs & Hcomp & ->) & <- & Hcalls & Hscope). by exists source.
  - intros (source & Hs & Hcomp & Hcalls & Hscope). exists (entry_of source c). split_and!; [|done..].
    by exists source, c.
Qed.

(** The ledger refuses an event that does not pass its own validation. *)
Lemma applied_valid `{L : UuidLib, SHA : Sha256} recorded : forall s s',
  apply_all s recorded = Ok s' -> Forall (fun e => validate_event e = true) recorded.*1.
Proof.
  induction recorded as [|[event seq] recorded IH]; intros s s' H; [constructor|]. cbn [apply_all] in H.
  apply rbind_ok in H as (s1 & H1 & H). unfold apply in H1. apply rbind_ok in H1 as ([] & H1%guard_ok%negb_false_iff & _).
  constructor; [done|by eapply IH].
Qed.

(** C9: the ledger accepts what the worker records, up to the validation of the single
    events.  Take the contexts read from a store whose lanes are keyed by their identifier
    and whose ledger replayed some journal with plain request identifiers, and a batch
    over them, at a time that is a valid one, whose minted identifiers are new: the
    events, in their order and wherever they are placed in the journal, are accepted by
    that ledger exactly when each of them passes its own validation.  No check of the
    ledger that looks at what is recorded ever refuses one. *)
Theorem batch_accepted `{L : UuidLib, SHA : Sha256} journal self limit abandon_claims blocked t frontier contexts events
    (ids : FreshIds) :
  apply_all default journal = Ok (recall_ledger self) -> Forall (fun e => request_plain e.1) journal ->
  lanes_keyed self -> recall_current_contexts self frontier limit = Ok contexts ->
  batch_events ids abandon_claims blocked t frontier contexts = Ok events ->
  (0 <= t < I64_MAX)%Z -> fresh_for ids (recall_ledger self) contexts ->
  forall recorded, recorded.*1 = events ->
    (exists s', apply_all (recall_ledger self) recorded = Ok s') <-> Forall (fun e => validate_event e = true) events.
Proof.
  intros Hj Hp Hl Hc H Ht Hf recorded Hr. split; [intros [s' Hs]; rewrite <-Hr; by eapply applied_valid|]. intros Hok.
  destruct attempts_start as [Hi Hlog]. destruct (replay_attempts journal _ _ _ _ Hi Hlog Hj) as [[Hcl _] _].
  assert (Hv : ledger_valid (recall_ledger self)).
  { eapply replay_valid; [exact Hj|done|]. intros id n w Hn. by destruct (no_need id n w). }
  destruct (contexts_of_ledger self frontier limit contexts Hv Hl Hc) as [Hcs Hkeys]. rewrite Forall_forall in Hcs.
  unfold batch_events in H. apply rbind_ok in H as ([] & _ & H).
  apply rbind_ok in H as (index & Hix%map_err_ok & H). apply rbind_ok in H as (es & Hes & [= <-]).
  apply entries_of_sources in Hix as (entries & -> & Hnd & _).
  eapply (contexts_accepted ids abandon_claims blocked t frontier entries Ht Hnd contexts); [exact Hes|done|done| |done|].
  - intros c Hin. destruct (Hcs c Hin) as [Hneeds Honce]. split; [|done|].
    + intros n Hn. destruct (Hneeds n Hn) as ((w & Hw) & Ha & _). split_and!; [by exists w| |done].
      by destruct (Hv _ _ _ Hw).
    + intros n a Hn Ha. destruct (Hneeds n Hn) as ((w & Hw) & _). eapply Hcl. by exists n, w.
  - intros i j a b Hi' Hj' Hne n Hn (m & E & Hm)%list_elem_of_fmap. apply Hne.
    destruct (context_needs _ _ (Hcs a (list_elem_of_lookup_2 _ _ _ Hi')) n Hn) as ((w & Hw) & _ & Ka).
    destruct (context_needs _ _ (Hcs b (list_elem_of_lookup_2 _ _ _ Hj')) m Hm) as ((w' & Hw') & _ & Kb).
    rewrite E, Hw' in Hw. simplify_eq. eapply (NoDup_lookup _ _ _ (context_key a) Hkeys).
    + by rewrite list_lookup_fmap, Hi'.
    + rewrite list_lookup_fmap, Hj'. cbn. by rewrite <-Ka, Kb.
Qed.

(** A need whose obligation is over gets settled.  Whenever the current state
    ends a need of the ledger (its obligation expired, its work moved on, its cue
    was resolved, suppressed or withdrawn), the worker records the settlement and
    leaves the context, the ledger accepts it, and the need then carries that end
    and stays as it is in every journal the ledger goes on to accept.  In particular
    an obligation past its expiry always ends expired. *)
Theorem ended_need_settles `{L : UuidLib, SHA : Sha256} journal (s : RecallLedgerState) id n w fresh abandon_claims
    context index t :
  apply_all default journal = Ok s -> Forall (fun e => request_plain e.1) journal ->
  needs s !! id = Some (n, w) -> fresh <> RecallNeed.revision_id n ->
  (forall st, current_need_validity context n index t = Ok (RecallNeedValidity.Terminal st) ->
     exists next, need_event fresh abandon_claims context index t n
       = Ok (Some (RecallLedgerEvent.NeedRecorded next), true) /\
     RecallNeed.obligation_state next = st /\ st <> RecallObligationState.Active /\
     forall seq, exists s', apply s (RecallLedgerEvent.NeedRecorded next) seq = Ok s' /\
     forall later s'', apply_all s' later = Ok s'' -> needs s'' !! id = Some (next, seq)) /\
  (RecallNeed.obligation_state n = RecallObligationState.Active ->
   forall expiry, RecallNeed.obligation_expires_at_us n = Some expiry -> (expiry <= t)%Z ->
     current_need_validity context n index t = Ok (RecallNeedValidity.Terminal RecallObligationState.Expired)).
Proof.
  intros Hj Hp Hn Hf.
  assert (Hv : ledger_valid s).
  { eapply replay_valid; [exact Hj|done|]. intros i m q Hm. by destruct (no_need i m q). }
  destruct (Hv _ _ _ Hn) as [Hval <-]. split.
  - intros st Hst. pose proof (validity_cases _ _ _ _ _ Hst) as Hne. cbn in Hne.
    destruct (validity_checked _ _ _ _ _ Hst) as [_ Ha]; [done|].
    set (next := RecallNeed.set_settled n (Some (RecallNeed.revision_id n)) fresh st). exists next. split_and!; [|done..|].
    + unfold need_event. rewrite Hst. cbn. unfold terminal_need_event, seal_error.
      rewrite Ha, (bool_decide_eq_false_2 (st = _)) by done. cbn. by rewrite seal_settled.
    + intros seq. eexists. split; [by eapply settle_accepted|]. intros later s'' Hl.
      eapply replay_evolves in Hl as (n' & w' & Hn' & He & Hfr); [|apply lookup_insert_eq].
      rewrite Hn', (Hfr Hne). f_equal. by rewrite (ev_settled _ _ He Hne).
  - intros Ha expiry He Ht. unfold current_need_validity, validate_need_against_current.
    rewrite Hval, Ha, He. cbn. by rewrite (proj2 (Z.leb_le _ _) Ht).
Qed.

(** Several due cues are lost when their orders differ.  Due contracts are
    taken by increasing contract identifier (a digest), but the plan of a need
    must list their revisions in increasing order: at a checkpoint without a need,
    contracts whose revisions do not happen to increase too yield no need at all,
    and no error. *)
Theorem opposed_cues_unrecorded `{L : UuidLib, SHA : Sha256} fresh_need fresh_revision context index t :
  let cp := RecallCurrentContext.checkpoint context in
  let contracts := due_contracts index (anchor_of context) (evaluate_index index (checkpoint_state cp) None) in
  Forall (fun n => RecallNeed.boundary_event_ref n <> WorkCheckpoint.stable_key cp) (RecallCurrentContext.needs context) ->
  ~ sorted_lt ((fun c => rid_display (FutureCueContract.source_revision_id c)) <$> contracts) ->
  detect_current_context fresh_need fresh_revision context index t = Ok None.
Proof.
  intros cp contracts Hn Hs. unfold detect_current_context. fold cp. destruct (_ || _); [done|].
  assert (List.filter (fun n => RecallNeed.boundary_event_ref n ==? WorkCheckpoint.stable_key cp)
    (RecallCurrentContext.needs context) = []) as ->.
  { induction Hn as [|n l H _ IH]; [done|]. cbn. by rewrite bool_decide_eq_false_2. }
  cbn. fold contracts. unfold detect_family.
  destruct (is_empty contracts) eqn:E; cbn.
  { destruct contracts; [|done]. destruct Hs. constructor. }
  unfold record_detected. cbv zeta. match goal with |- context [RecallPlan.validate ?p] => destruct (RecallPlan.validate p) eqn:Hv; [|done] end. exfalso. apply Hs, windows2_lt_sorted.
  unfold RecallPlan.validate in Hv. cbv zeta in Hv. rewrite !andb_true_iff, all_true in Hv.
  destruct Hv as [[_ [Hr _]%Forall_cons] _]. unfold recall_refs in Hr. rewrite !andb_true_iff in Hr. apply Hr.
Qed.

(** ** A store with two lanes *)

Module Store.

Definition get {E A} (d : A) (m : result E A) : A := match m with Ok a => a | Err _ => d end.

(** A digest under which later fields decide the order of identifiers. *)
#[export] Instance reversed_sha : Sha256 := @rev byte.

Definition uid {f} (n : N) : Id f := mk_id (mk_uuid (0x0190a3b17c2d7e4f8a9b0c1d2e3f4000 + n)).
Definition rid (n : N) : RevisionId := mk_rid (mk_uuid (0x0190a3b17c2d7e4f8a9b0c1d2e3f4000 + n)).

Definition phase_contract : PhaseContract :=
  PhaseContract.mk "goal" PhaseKind.Deliver "deliver" [] [] "boundary" "transition".
Definition task : Task :=
  Task.mk (uid 1) (rid 1) None ["root"%string] "goal" [] TaskIdentityConfidence.Explicit
    TaskLifecycle.Active None None [] [] None 0 None 5.
Definition stream : Workstream :=
  Workstream.mk (uid 2) (rid 2) None (uid 1) None [] None [] None [] WorkstreamStatus.Active
    "root" "goal" "family" "hypothesis" "boundary" phase_contract (Some (uid 3)) [uid 11; uid 12] 6.
Definition lane (n : N) (key : string) (op : N) : ExecutionLane :=
  ExecutionLane.mk (uid n) 1 None "session" "agent" key "incarnation" None None None None [] None [] []
    LaneStatus.Active None LivenessState.Unknown [] false 9 ["adapter"%string] (uid 20) CoverageLevel.Full
    SourceCoverage.Open PairingIntegrity.Complete PayloadIntegrity.Complete OrderingIntegrity.Complete []
    [uid op] None.
Definition binding (n op : N) : WorkBindingRevision :=
  WorkBindingRevision.mk (uid n) (uid op) 1 None
    (PrimaryWorkBinding.mk (Some (uid 1)) (Some (uid 2)) (Some (uid 3)) None None None) [] []
    AssignmentStatus.Resolved ["evidence"%string] 1.
Definition checkpoint : WorkCheckpoint :=
  WorkCheckpoint.mk (uid 3) (rid 3) 8 [] [] phase_contract [] CheckpointVerifierState.Passed [] None
    (PendingDeltaStats.mk 0 0 0) CheckpointReason.Stop false [] [] [] [] 1.
Definition episode : WorkEpisode :=
  WorkEpisode.mk (uid 3) (rid 3) None 1 (uid 1) (uid 2) None None phase_contract EpisodeLifecycle.Open
    BoundaryStatus.Provisional 8 0 0 8 None None ["session"%string] [uid 11; uid 12] [] [] [] [] [] [] [] []
    [] [] [] [] [] [] [WorkCheckpoint.stable_key checkpoint] [] [] [] (PendingDeltaStats.mk 0 0 0) None None
    (CaptureSummary.mk CoverageLevel.Full [] [] [] [] []) [] [] [] [].

(** A need of the first lane whose boundary has passed. *)
Definition draft : RecallNeed :=
  RecallNeed.mk (uid 30) (rid 30) None zero_hash TriggerFamily.ExplicitOrRecovery [rid 3] [] "session" (uid 11)
    (uid 1) (uid 2) (rid 3) None None "earlier" sample_trigger 1 zero_hash sample_plan
    RecallDeliveryState.Detected RecallAgentResponse.NotRetrieved RecallObligationState.Active 1 10 None None None.
Definition stale : RecallNeed := Eval vm_compute in get draft (seal_need draft).
Definition journal : list (RecallLedgerEvent * N) := [(RecallLedgerEvent.NeedRecorded stale, 4%N)].
Definition ledger : RecallLedgerState := get default (apply_all default journal).

(** A rule of the task to keep while delivering. *)
Definition rule (n : N) : Atom :=
  let scope := AtomScope.Task (uid 1) in
  Atom.mk (uid n) (rid n) None AtomKind.Constraint EpistemicStatus.NotApplicable
    AtomLifecycleStatus.Active AtomAuthority.UserExplicit sample_value scope 1
    (ApplicabilityExpr.Constraint sample_match) (Some sample_exprs) (ValidityInterval.mk 1 None)
    [AtomProvenance.AgentClaimed]
    (Some (UserAuthorizationProvenance.mk UserAuthorizationMode.TuiAcceptance sample_observation
       (replicate 32 x01) (get [] (AtomValue.exact_hash sample_value)) scope (Some "acceptance:1")))
    None [sample_observation] ["receipt:1"] [] [] [] (Some (uid 40)) (Some (rid 41)) 1.

Definition sources (rules : list (Atom * N)) : RecallSources := {|
  execution_lanes := {[uid 11 := (lane 11 "first" 13, 1%N); uid 12 := (lane 12 "second" 14, 2%N)]};
  tasks := {[uid 1 := (task, 1%N)]};
  workstreams := {[uid 2 := (stream, 1%N)]};
  work_bindings := {[uid 15 := (binding 15 13, 1%N); uid 16 := (binding 16 14, 2%N)]};
  episodes := {[uid 3 := (episode, 3%N)]};
  episode_revisions := {[rid 3 := (episode, 3%N)]};
  checkpoints := {[WorkCheckpoint.stable_key checkpoint := (checkpoint, 5%N)]};
  atoms := list_to_map ((fun entry => (Atom.atom_id entry.1, entry)) <$> rules);
  atom_support_eligible := fun _ => true;
  recall_ledger := ledger;
|}.

Definition contexts (rules : list (Atom * N)) : list RecallCurrentContext :=
  get [] (recall_current_contexts (sources rules) 9 2).
Definition index (rules : list (Atom * N)) : RecallTriggerIndex :=
  get (index_of 9 []) (from_current_contexts 9 (contexts rules)).
Definition minted : FreshIds :=
  Build_FreshIds (fun _ => rid 50) (fun c => uid (60 + N.of_nat (length (RecallCurrentContext.needs c)))) (fun _ => rid 70).
Definition recorded : list RecallLedgerEvent :=
  get [] (batch_events minted false [] 20 9 (contexts [(rule 81, 1%N)])).
End Store.

(** ** Instances *)

Module Instances.
Import Store.

Abbreviation one_rule := [(rule 81, 1%N)].
Definition stale_context : RecallCurrentContext :=
  match contexts one_rule with c :: _ => c | [] => RecallCurrentContext.mk 0 task stream (lane 11 "first" 13) episode
    checkpoint None (binding 15 13) [] [] ∅ end.
Definition rule_cue : FutureCueContract :=
  match compile_atom_future_cue (rule 81) true true 1 with
  | Ok c => c
  | Err _ => FutureCueContract.mk [] (rid 81) TriggerFamily.ProspectiveObligation 1 sample_match sample_match
       sample_match 1 None 1 1
  end.

Lemma journal_ran : apply_all default journal = Ok ledger.
Proof. vm_compute. reflexivity. Qed.
Lemma journal_read : apply_all default journal = Ok (recall_ledger (sources one_rule)).
Proof. exact journal_ran. Qed.
Lemma journal_plain : Forall (fun e => request_plain e.1) journal.
Proof. apply Forall_singleton. exact I. Qed.
Lemma contexts_ran : recall_current_contexts (sources one_rule) 9 2 = Ok (contexts one_rule).
Proof. vm_compute. reflexivity. Qed.
Lemma index_ran : from_current_contexts 9 (contexts one_rule) = Ok (index one_rule).
Proof. vm_compute. reflexivity. Qed.
Lemma batch_ran : batch_events minted false [] 20 9 (contexts one_rule) = Ok recorded.
Proof. vm_compute. reflexivity. Qed.
Lemma recorded_twice : length recorded = 2.
Proof. vm_compute. reflexivity. Qed.
Lemma recorded_valid : Forall (fun e => validate_event e = true) recorded.
Proof. apply all_true. vm_compute. reflexivity. Qed.
Lemma checkpoint_valid : ConstraintState.validate (checkpoint_state checkpoint) = Ok tt.
Proof. vm_compute. reflexivity. Qed.
Lemma rule_compiled : compile_atom_future_cue (rule 81) true true 1 = Ok rule_cue.
Proof. vm_compute. reflexivity. Qed.
Lemma rule_read : existsb (fun a => bool_decide (a = RecallCurrentAtom.mk (rule 81) 1))
  (contexts one_rule ≫= RecallCurrentContext.atoms) = true.
Proof. vm_compute. reflexivity. Qed.
Lemma rule_calls : calls (checkpoint_state checkpoint) None rule_cue.
Proof. split_and!; vm_compute; reflexivity. Qed.
Lemma rule_scope : scope_matches (Atom.scope (rule 81)) (anchor_of stale_context) = true.
Proof. vm_compute. reflexivity. Qed.

Lemma minted_fresh : fresh_for minted (recall_ledger (sources one_rule)) (contexts one_rule).
Proof.
  split.
  - apply (bool_decide_eq_true_1 (NoDup _)). vm_compute. reflexivity.
  - apply Forall_forall. apply (bool_decide_eq_true_1 (Forall _ _)). vm_compute. reflexivity.
  - intros c n Hc. revert n. apply Forall_forall. revert c Hc. apply Forall_forall.
    apply (bool_decide_eq_true_1 (Forall _ _)). vm_compute. reflexivity.
  - intros c n Hc. revert n. apply Forall_forall. revert c Hc. apply Forall_forall.
    apply (bool_decide_eq_true_1 (Forall _ _)). vm_compute. reflexivity.
Qed.

Lemma due_cues_exact_witness :
  rule_cue ∈ due_contracts (index one_rule) (anchor_of stale_context)
    (evaluate_index (index one_rule) (checkpoint_state checkpoint) None).
Proof.
  apply (due_cues_exact 9 (contexts one_rule) (index one_rule)).
  - exact index_ran.
  - exact checkpoint_valid.
  - discriminate.
  - exists (RecallCurrentAtom.mk (rule 81) 1). split; [|split; [exact rule_compiled|split; [exact rule_calls|exact rule_scope]]].
    destruct (proj1 (existsb_exists _ _) rule_read) as (a & Hin & ->%bool_decide_eq_true_1).
    by apply list_elem_of_In.
Defined.

Lemma batch_accepted_witness :
  exists s', apply_all (recall_ledger (sources one_rule)) (zip recorded [5%N; 6%N]) = Ok s'.
Proof.
  apply (batch_accepted journal (sources one_rule) 2 false [] 20 9 (contexts one_rule) recorded minted); [..|exact recorded_valid].
  - exact journal_read.
  - exact journal_plain.
  - intros id l w. cbn. intros [[<- [= <- _]]|[_ [<- [= <- _]]%lookup_singleton_Some]]%lookup_insert_Some; reflexivity.
  - exact contexts_ran.
  - exact batch_ran.
  - split; [discriminate|reflexivity].
  - exact minted_fresh.
  - apply fst_zip. rewrite recorded_twice. cbn. lia.
Defined.

Lemma stale_stored : needs ledger !! uid 30 = Some (stale, 4%N).
Proof. vm_compute. reflexivity. Qed.
Lemma stale_superseded :
  current_need_validity stale_context stale (index one_rule) 20
  = Ok (RecallNeedValidity.Terminal RecallObligationState.Superseded).
Proof. vm_compute. reflexivity. Qed.

Lemma ended_need_settles_witness :
  exists next, need_event (rid 50) false stale_context (index one_rule) 20 stale
    = Ok (Some (RecallLedgerEvent.NeedRecorded next), true) /\
  RecallNeed.obligation_state next = RecallObligationState.Superseded.
Proof.
  destruct (ended_need_settles journal ledger (uid 30) stale 4 (rid 50) false stale_context (index one_rule) 20) as [H _].
  - exact journal_ran.
  - exact journal_plain.
  - exact stale_stored.
  - discriminate.
  - destruct (H _ stale_superseded) as (next & Hn & Hst & _). exists next. split; [exact Hn|exact Hst].
Defined.

(** The context of the second lane, at the boundary no need was recorded for. *)
Definition second_context (rules : list (Atom * N)) : RecallCurrentContext :=
  match contexts rules with [_; c] => c | _ => stale_context end.
Definition recorded_alone (n seq : N) : bool :=
  match detect_current_context (uid 60) (rid 70) (second_context [(rule n, seq)]) (index [(rule n, seq)]) 20 with
  | Ok (Some _) => true
  | _ => false
  end.
Abbreviation two_rules := [(rule 81, 2%N); (rule 82, 1%N)].

Lemma each_recorded : recorded_alone 81 2 = true /\ recorded_alone 82 1 = true.
Proof. split; vm_compute; reflexivity. Qed.
Lemma no_needs : RecallCurrentContext.needs (second_context two_rules) = [].
Proof. vm_compute. reflexivity. Qed.
Lemma opposed :
  windows2_all ltb_ord ((fun c => rid_display (FutureCueContract.source_revision_id c)) <$> due_contracts (index two_rules)
    (anchor_of (second_context two_rules)) (evaluate_index (index two_rules)
      (checkpoint_state (RecallCurrentContext.checkpoint (second_context two_rules))) None)) <> true.
Proof. vm_compute. discriminate. Qed.

(** Each of two rules is recalled on its own; together neither is. *)
Lemma opposed_cues_unrecorded_witness :
  recorded_alone 81 2 = true /\ recorded_alone 82 1 = true /\
  detect_current_context (uid 60) (rid 70) (second_context two_rules) (index two_rules) 20 = Ok None.
Proof.
  split; [exact (proj1 each_recorded)|split; [exact (proj2 each_recorded)|]].
  apply opposed_cues_unrecorded.
  - rewrite no_needs. apply Forall_nil_2.
  - rewrite <-windows2_lt_sorted. exact opposed.
Defined.
End Instances.
