(* ===== verification/RuntimeSnapshot.v ===== *)
(** * Runtime snapshots (crates/evertrace-capture/src/runtime_snapshot.rs)

    What the daemon tells the hook: the directories, the limits of the spool, the
    recovery and recall gates and the cues to deliver, in one versioned file.  This
    file has the snapshot, its validation, its construction for a data directory and
    its binary format.  Paths are strings compared by their components, as the
    standard library compares them.  JSON of a cue is a parameter.

    What the daemon publishes is what the hook loads. *)

From S2P Require Import Prelude Order Collections Text Canonical SpoolFrame Ids Digests Attempt CaptureBody GapMarker Fs Spool Recall.

(** ** Paths *)

Module Component.
Inductive Component := RootDir | CurDir | ParentDir | Normal (name : list byte).
#[export] Instance eq_dec : EqDecision Component.
Proof. solve_decision. Defined.
End Component.
Abbreviation Component := Component.Component.
Export (hints) Component.

Fixpoint split_slash (l : list byte) : list (list byte) :=
  match l with
  | [] => [[]]
  | b :: r =>
      if b ==? x2f then [] :: split_slash r
      else match split_slash r with x :: t => (b :: x) :: t | [] => [[b]] end
  end.

Definition is_absolute (path : string) : bool := starts_with (as_bytes path) [x2f].

(** [path.components()]: repeated separators and inner dots are dropped. *)
Definition component (first : bool) (part : list byte) : list Component :=
  if is_empty part then []
  else if part ==? [x2e] then (if first then [Component.CurDir] else [])
  else if part ==? [x2e; x2e] then [Component.ParentDir]
  else [Component.Normal part].
Definition components (path : string) : list Component :=
  match split_slash (as_bytes path) with
  | [] => []
  | part :: r =>
      (if is_absolute path then [Component.RootDir] else component true part)
      ++ (r ≫= component false)
  end.

(** [path.parent()], by its components. *)
Definition parent (path : string) : option (list Component) :=
  match reverse (components path) with
  | [] | Component.RootDir :: _ => None
  | _ :: r => Some (reverse r)
  end.

(** [path.join(relative)]. *)
Definition join (path relative : string) : string :=
  match reverse (as_bytes path) with
  | [] => relative
  | b :: _ => if b ==? x2f then (path +:+ relative)%string else (path +:+ "/" +:+ relative)%string
  end.

Definition is_normal_absolute (path : list Component) : bool :=
  match path with Component.RootDir :: _ => true | _ => false end
  && all (fun c => match c with Component.RootDir | Component.Normal _ => true | _ => false end) path.

(** ** The snapshot *)

Definition RUNTIME_SNAPSHOT_VERSION : N := 4.
Definition SNAPSHOT_MAGIC : list byte := as_bytes "ETRUN001".

Module RecoveryGateMode.
Inductive RecoveryGateMode := Disabled | BestEffort | Active.
#[export] Instance eq_dec : EqDecision RecoveryGateMode.
Proof. solve_decision. Defined.
End RecoveryGateMode.
Abbreviation RecoveryGateMode := RecoveryGateMode.RecoveryGateMode.
Export (hints) RecoveryGateMode.
Module RecallCueGateMode.
Inductive RecallCueGateMode := Disabled | Active.
#[export] Instance eq_dec : EqDecision RecallCueGateMode.
Proof. solve_decision. Defined.
End RecallCueGateMode.
Abbreviation RecallCueGateMode := RecallCueGateMode.RecallCueGateMode.
Export (hints) RecallCueGateMode.
Module RuntimeSnapshotError.
Inductive RuntimeSnapshotError := Invalid | InvalidType | InvalidPermissions | Io.
#[export] Instance eq_dec : EqDecision RuntimeSnapshotError.
Proof. solve_decision. Defined.
End RuntimeSnapshotError.
Abbreviation RuntimeSnapshotError := RuntimeSnapshotError.RuntimeSnapshotError.
Export (hints) RuntimeSnapshotError.
Module RecoverySnapshotSettings.
Record RecoverySnapshotSettings := mk {
  gate : RecoveryGateMode;
  preflight_timeout_ms : N;
  effective_config_hash : list byte;
  adapter_manifest_id : option string;
  classifier_revision : N;
  max_bundle_bytes : N;
  max_untracked_file_bytes : N;
  max_untracked_total_bytes : N;
  recall_cue_gate : RecallCueGateMode;
  recall_cue_adapter_manifest_id : option string;
}.
End RecoverySnapshotSettings.
Abbreviation RecoverySnapshotSettings := RecoverySnapshotSettings.RecoverySnapshotSettings.

Module RuntimeSnapshot.
Record RuntimeSnapshot := mk {
  snapshot_version : N;
  generation : N;
  device_key_dir : string;
  cas_dir : string;
  spool_dir : string;
  main_high_watermark_bytes : N;
  main_low_watermark_bytes : N;
  max_main_files : N;
  emergency_slots : N;
  effective_config_hash : list byte;
  recovery_gate : RecoveryGateMode;
  recovery_adapter_manifest_id : option string;
  recovery_classifier_revision : N;
  recovery_socket_path : string;
  recovery_preflight_timeout_ms : N;
  recovery_max_bundle_bytes : N;
  recovery_max_untracked_file_bytes : N;
  recovery_max_untracked_total_bytes : N;
  recall_cue_gate : RecallCueGateMode;
  recall_cue_adapter_manifest_id : option string;
  recall_cues : list RecallCueSnapshot;
}.
#[export] Instance eq_dec : EqDecision RuntimeSnapshot.
Proof. solve_decision. Defined.

Definition spool_limits (self : RuntimeSnapshot) : result SpoolError SpoolLimits :=
  SpoolLimits_validate (SpoolLimits.mk (main_high_watermark_bytes self) (main_low_watermark_bytes self)
    (max_main_files self) (emergency_slots self)).

(** The data directory, by its components. *)
Definition data_dir (self : RuntimeSnapshot) : result RuntimeSnapshotError (list Component) :=
  let? data_dir := ok_or (parent (spool_dir self)) RuntimeSnapshotError.Invalid in
  do? guard (negb (is_normal_absolute data_dir)
      || (components (device_key_dir self) !=? data_dir ++ components "keys")
      || (components (cas_dir self) !=? data_dir ++ components "cas")
      || (components (spool_dir self) !=? data_dir ++ components "spool")
      || (components (recovery_socket_path self) !=? data_dir ++ components "runtime/evertraced-v1.sock"))
    RuntimeSnapshotError.Invalid in
  Ok data_dir.

Definition bad_manifest (value : option string) : bool :=
  is_some_and value (fun value =>
    str_is_empty value || (256 <? str_len value)%N || any is_control (chars value)).

(** The order of the cues: by session, lane and presentation attempt. *)
Definition cue_cmp (a b : RecallCueSnapshot) : comparison :=
  cmp_lex (cmp (RecallCueSnapshot.session_id a) (RecallCueSnapshot.session_id b))
    (cmp_lex (cmp (RecallCueSnapshot.execution_lane_id a) (RecallCueSnapshot.execution_lane_id b))
       (cmp (RecallCueSnapshot.presentation_attempt_id a) (RecallCueSnapshot.presentation_attempt_id b))).

Section snapshot.
Context `{L : UuidLib} `{SHA : Sha256}.

Definition bad_cue (self : RuntimeSnapshot) (cue : RecallCueSnapshot) : bool :=
  negb (validate_cue cue)
  || negb (RecallCueSnapshot.runtime_generation cue =? generation self)%N
  || (Some (RecallCueSnapshot.adapter_manifest_id cue) !=? recall_cue_adapter_manifest_id self).

Definition validate (self : RuntimeSnapshot) : result RuntimeSnapshotError unit :=
  do? guard (negb (snapshot_version self =? RUNTIME_SNAPSHOT_VERSION)%N
      || (generation self =? 0)%N
      || any (fun path => negb (is_absolute path)) [device_key_dir self; cas_dir self; spool_dir self]
      || negb (is_absolute (recovery_socket_path self))
      || (recovery_preflight_timeout_ms self =? 0)%N
      || (120000 <? recovery_preflight_timeout_ms self)%N
      || (recovery_classifier_revision self =? 0)%N
      || (effective_config_hash self ==? replicate 32 x00)
      || (recovery_max_bundle_bytes self =? 0)%N
      || (recovery_max_untracked_file_bytes self =? 0)%N
      || (recovery_max_untracked_total_bytes self =? 0)%N
      || (recovery_max_untracked_total_bytes self <? recovery_max_untracked_file_bytes self)%N
      || (recovery_max_bundle_bytes self <? recovery_max_untracked_total_bytes self)%N
      || negb (Bool.eqb (recovery_gate self ==? RecoveryGateMode.Active)
                 (is_some (recovery_adapter_manifest_id self)))
      || negb (Bool.eqb (recall_cue_gate self ==? RecallCueGateMode.Active)
                 (is_some (recall_cue_adapter_manifest_id self)))
      || (32 <? length (recall_cues self))%nat
      || any (bad_cue self) (recall_cues self)
      || windows2_any (fun a b => match cue_cmp a b with Lt => false | _ => true end) (recall_cues self)
      || bad_manifest (recovery_adapter_manifest_id self)
      || bad_manifest (recall_cue_adapter_manifest_id self))
    RuntimeSnapshotError.Invalid in
  do? map_err (fun _ => RuntimeSnapshotError.Invalid) (spool_limits self) in
  do? data_dir self in
  Ok tt.

Definition without_cues (self : RuntimeSnapshot) : RuntimeSnapshot :=
  mk (snapshot_version self) (generation self) (device_key_dir self) (cas_dir self) (spool_dir self)
    (main_high_watermark_bytes self) (main_low_watermark_bytes self) (max_main_files self)
    (emergency_slots self) (effective_config_hash self) (recovery_gate self)
    (recovery_adapter_manifest_id self) (recovery_classifier_revision self) (recovery_socket_path self)
    (recovery_preflight_timeout_ms self) (recovery_max_bundle_bytes self)
    (recovery_max_untracked_file_bytes self) (recovery_max_untracked_total_bytes self)
    (recall_cue_gate self) (recall_cue_adapter_manifest_id self) [].
Definition sanitized_for_backup (self : RuntimeSnapshot) : result RuntimeSnapshotError RuntimeSnapshot :=
  do? validate self in
  let snapshot := without_cues self in
  do? validate snapshot in
  Ok snapshot.

Definition for_data_dir (data_dir : string) (generation : N) (limits : SpoolLimits)
    (recovery : RecoverySnapshotSettings) : result RuntimeSnapshotError RuntimeSnapshot :=
  do? guard (negb (is_normal_absolute (components data_dir))) RuntimeSnapshotError.Invalid in
  let snapshot := mk RUNTIME_SNAPSHOT_VERSION generation (join data_dir "keys") (join data_dir "cas")
    (join data_dir "spool") (SpoolLimits.high_watermark_bytes limits) (SpoolLimits.low_watermark_bytes limits)
    (SpoolLimits.max_main_files limits) (SpoolLimits.emergency_slots limits)
    (RecoverySnapshotSettings.effective_config_hash recovery) (RecoverySnapshotSettings.gate recovery)
    (RecoverySnapshotSettings.adapter_manifest_id recovery) (RecoverySnapshotSettings.classifier_revision recovery)
    (join data_dir "runtime/evertraced-v1.sock") (RecoverySnapshotSettings.preflight_timeout_ms recovery)
    (RecoverySnapshotSettings.max_bundle_bytes recovery) (RecoverySnapshotSettings.max_untracked_file_bytes recovery)
    (RecoverySnapshotSettings.max_untracked_total_bytes recovery) (RecoverySnapshotSettings.recall_cue_gate recovery)
    (RecoverySnapshotSettings.recall_cue_adapter_manifest_id recovery) [] in
  do? validate snapshot in
  Ok snapshot.
End snapshot.
End RuntimeSnapshot.
Abbreviation RuntimeSnapshot := RuntimeSnapshot.RuntimeSnapshot.
Export (hints) RuntimeSnapshot.

(** ** The format *)

Section format.
Context `{L : UuidLib} `{SHA : Sha256}.
(** [serde_json::to_vec] and [serde_json::from_slice] on a cue. *)
Context (cue_to_vec : RecallCueSnapshot -> option (list byte)).
Context (cue_from_slice : list byte -> option RecallCueSnapshot).
Import RuntimeSnapshot.

Definition invalid {A} (o : option A) : result RuntimeSnapshotError A := ok_or o RuntimeSnapshotError.Invalid.

(** A [u16] length and the bytes. *)
Definition put_u16_bytes (l : list byte) : result RuntimeSnapshotError (list byte) :=
  do? guard (U16_MAX <? blen l)%N RuntimeSnapshotError.Invalid in
  Ok (to_be_bytes 2 (blen l) ++ l).
(** [path.to_str()] and its bytes. *)
Definition put_path (path : string) : result RuntimeSnapshotError (list byte) :=
  do? guard (negb (utf8_valid (as_bytes path))) RuntimeSnapshotError.Invalid in
  put_u16_bytes (as_bytes path).
Definition put_manifest (value : option string) : result RuntimeSnapshotError (list byte) :=
  match value with
  | None => Ok (to_be_bytes 2 0)
  | Some value => put_u16_bytes (as_bytes value)
  end.
Definition recovery_gate_byte (gate : RecoveryGateMode) : byte :=
  match gate with
  | RecoveryGateMode.Disabled => x00 | RecoveryGateMode.BestEffort => x01 | RecoveryGateMode.Active => x02
  end.
Definition cue_gate_byte (gate : RecallCueGateMode) : byte :=
  match gate with RecallCueGateMode.Disabled => x00 | RecallCueGateMode.Active => x01 end.

Definition put_cue (cue : RecallCueSnapshot) : result RuntimeSnapshotError (list byte) :=
  let? encoded := invalid (cue_to_vec cue) in
  do? guard (U32_MAX <? blen encoded)%N RuntimeSnapshotError.Invalid in
  Ok (to_be_bytes 4 (blen encoded) ++ encoded).
Fixpoint put_cues (cues : list RecallCueSnapshot) : result RuntimeSnapshotError (list byte) :=
  match cues with
  | [] => Ok []
  | cue :: r => let? bytes := put_cue cue in let? rest := put_cues r in Ok (bytes ++ rest)
  end.

Definition encode_snapshot (value : RuntimeSnapshot) : result RuntimeSnapshotError (list byte) :=
  let? keys := put_path (device_key_dir value) in
  let? cas := put_path (cas_dir value) in
  let? spool := put_path (spool_dir value) in
  let? manifest := put_manifest (recovery_adapter_manifest_id value) in
  let? socket := put_path (recovery_socket_path value) in
  let? cue_manifest := put_manifest (recall_cue_adapter_manifest_id value) in
  do? guard (U16_MAX <? N.of_nat (length (recall_cues value)))%N RuntimeSnapshotError.Invalid in
  let? cues := put_cues (recall_cues value) in
  Ok (SNAPSHOT_MAGIC ++ to_be_bytes 2 (snapshot_version value) ++ to_be_bytes 8 (generation value)
      ++ keys ++ cas ++ spool
      ++ to_be_bytes 8 (main_high_watermark_bytes value) ++ to_be_bytes 8 (main_low_watermark_bytes value)
      ++ to_be_bytes 4 (max_main_files value) ++ to_be_bytes 2 (emergency_slots value)
      ++ effective_config_hash value ++ [recovery_gate_byte (recovery_gate value)] ++ manifest
      ++ to_be_bytes 4 (recovery_classifier_revision value) ++ socket
      ++ to_be_bytes 4 (recovery_preflight_timeout_ms value)
      ++ to_be_bytes 8 (recovery_max_bundle_bytes value)
      ++ to_be_bytes 8 (recovery_max_untracked_file_bytes value)
      ++ to_be_bytes 8 (recovery_max_untracked_total_bytes value)
      ++ [cue_gate_byte (recall_cue_gate value)] ++ cue_manifest
      ++ to_be_bytes 2 (N.of_nat (length (recall_cues value))) ++ cues).

(** ** The cursor *)

Definition snapshot_take (length : N) (l : list byte) : result RuntimeSnapshotError (list byte * list byte) :=
  map_err (fun _ => RuntimeSnapshotError.Invalid) (cursor_take length l).
Definition snapshot_uint (width : N) (l : list byte) : result RuntimeSnapshotError (N * list byte) :=
  let? p := snapshot_take width l in Ok (from_be_bytes p.1, p.2).
Definition take_path (l : list byte) : result RuntimeSnapshotError (string * list byte) :=
  let? n := snapshot_uint 2 l in
  let? p := snapshot_take n.1 n.2 in
  let? s := invalid (from_utf8 p.1) in
  Ok (s, p.2).
Definition take_manifest (l : list byte) : result RuntimeSnapshotError (option string * list byte) :=
  let? n := snapshot_uint 2 l in
  if (n.1 =? 0)%N then Ok (None, n.2) else
  let? p := snapshot_take n.1 n.2 in
  let? s := invalid (from_utf8 p.1) in
  Ok (Some s, p.2).
Definition take_byte (l : list byte) : result RuntimeSnapshotError (byte * list byte) :=
  let? p := snapshot_take 1 l in
  match p.1 with b :: _ => Ok (b, p.2) | [] => Err RuntimeSnapshotError.Invalid end.
Definition recovery_gate_of (b : byte) : result RuntimeSnapshotError RecoveryGateMode :=
  if b ==? x00 then Ok RecoveryGateMode.Disabled
  else if b ==? x01 then Ok RecoveryGateMode.BestEffort
  else if b ==? x02 then Ok RecoveryGateMode.Active
  else Err RuntimeSnapshotError.Invalid.
Definition cue_gate_of (b : byte) : result RuntimeSnapshotError RecallCueGateMode :=
  if b ==? x00 then Ok RecallCueGateMode.Disabled
  else if b ==? x01 then Ok RecallCueGateMode.Active
  else Err RuntimeSnapshotError.Invalid.
Fixpoint take_cues (count : nat) (l : list byte) : result RuntimeSnapshotError (list RecallCueSnapshot * list byte) :=
  match count with
  | O => Ok ([], l)
  | S count =>
      let? n := snapshot_uint 4 l in
      let? p := snapshot_take n.1 n.2 in
      let? cue := invalid (cue_from_slice p.1) in
      let? r := take_cues count p.2 in
      Ok (cue :: r.1, r.2)
  end.

Definition decode_snapshot (bytes : list byte) : result RuntimeSnapshotError RuntimeSnapshot :=
  do? guard (negb (starts_with bytes SNAPSHOT_MAGIC)) RuntimeSnapshotError.Invalid in
  let? version := snapshot_uint 2 (drop 8 bytes) in
  let? generation := snapshot_uint 8 version.2 in
  let? keys := take_path generation.2 in
  let? cas := take_path keys.2 in
  let? spool := take_path cas.2 in
  let? high := snapshot_uint 8 spool.2 in
  let? low := snapshot_uint 8 high.2 in
  let? files := snapshot_uint 4 low.2 in
  let? slots := snapshot_uint 2 files.2 in
  let? hash := snapshot_take 32 slots.2 in
  let? g := take_byte hash.2 in
  let? gate := recovery_gate_of g.1 in
  let? manifest := take_manifest g.2 in
  let? classifier := snapshot_uint 4 manifest.2 in
  let? socket := take_path classifier.2 in
  let? timeout := snapshot_uint 4 socket.2 in
  let? bundle := snapshot_uint 8 timeout.2 in
  let? file := snapshot_uint 8 bundle.2 in
  let? total := snapshot_uint 8 file.2 in
  let? cg := take_byte total.2 in
  let? cue_gate := cue_gate_of cg.1 in
  let? cue_manifest := take_manifest cg.2 in
  let? count := snapshot_uint 2 cue_manifest.2 in
  do? guard (32 <? count.1)%N RuntimeSnapshotError.Invalid in
  let? cues := take_cues (N.to_nat count.1) count.2 in
  do? guard (negb (is_empty cues.2)) RuntimeSnapshotError.Invalid in
  Ok (RuntimeSnapshot.mk version.1 generation.1 keys.1 cas.1 spool.1 high.1 low.1 files.1 slots.1 hash.1 gate
        manifest.1 classifier.1 socket.1 timeout.1 bundle.1 file.1 total.1 cue_gate cue_manifest.1 cues.1).

Definition from_bytes (bytes : list byte) : result RuntimeSnapshotError RuntimeSnapshot :=
  let? snapshot := decode_snapshot bytes in
  do? RuntimeSnapshot.validate snapshot in
  Ok snapshot.
End format.

(** ** Theorems *)

Module RuntimeSnapshotTheorems.
Import RuntimeSnapshot.RuntimeSnapshot.

#[local] Opaque to_be_bytes from_be_bytes.

Section format.
Context `{L : UuidLib} `{SHA : Sha256}.
Context (cue_to_vec : RecallCueSnapshot -> option (list byte)).
Context (cue_from_slice : list byte -> option RecallCueSnapshot).

Lemma snapshot_take_app n a l : blen a = n -> snapshot_take n (a ++ l) = Ok (a, l).
Proof. intros H. unfold snapshot_take. by rewrite cursor_take_app. Qed.

Lemma snapshot_uint_app w n l :
  (n < 256 ^ N.of_nat w)%N -> snapshot_uint (N.of_nat w) (to_be_bytes w n ++ l) = Ok (n, l).
Proof.
  intros H. unfold snapshot_uint. rewrite snapshot_take_app by apply blen_be. cbn [rbind fst snd].
  by rewrite from_to_be_bytes.
Qed.

Lemma put_u16_bytes_ok l bs :
  put_u16_bytes l = Ok bs -> (blen l <= U16_MAX)%N /\ bs = to_be_bytes 2 (blen l) ++ l.
Proof.
  unfold put_u16_bytes. intros ([] & H%guard_ok & E)%rbind_ok. apply N.ltb_ge in H. split; [done|congruence].
Qed.

Lemma take_path_app s bs l : put_path s = Ok bs -> take_path (bs ++ l) = Ok (s, l).
Proof.
  unfold put_path. intros ([] & Hu%guard_ok%negb_false_iff & [Hb ->]%put_u16_bytes_ok)%rbind_ok.
  unfold take_path. change 2%N with (N.of_nat 2). rewrite <-app_assoc, snapshot_uint_app by width_lia.
  cbn [rbind fst snd]. rewrite snapshot_take_app by done. cbn [rbind fst snd].
  by rewrite from_utf8_as_bytes.
Qed.

Lemma take_manifest_app o bs l :
  match o with Some s => str_ok s /\ str_is_empty s = false | None => True end ->
  put_manifest o = Ok bs -> take_manifest (bs ++ l) = Ok (o, l).
Proof.
  destruct o as [s|]; unfold take_manifest; change 2%N with (N.of_nat 2); simpl put_manifest.
  - intros [Hs He] [Hb ->]%put_u16_bytes_ok. rewrite <-app_assoc, snapshot_uint_app by width_lia. cbn [rbind fst snd].
    destruct (N.eqb_spec (blen (as_bytes s)) 0) as [E|_].
    { unfold str_is_empty in He. destruct (as_bytes s); [done|]. unfold blen in E. simpl in E. lia. }
    rewrite snapshot_take_app by done. cbn [rbind fst snd]. by rewrite from_utf8_as_bytes.
  - intros _ [= <-]. by rewrite snapshot_uint_app by done.
Qed.

Lemma take_byte_app b l : take_byte (b :: l) = Ok (b, l).
Proof. unfold take_byte. change (b :: l) with ([b] ++ l). by rewrite snapshot_take_app. Qed.

Lemma recovery_gate_read g : recovery_gate_of (recovery_gate_byte g) = Ok g.
Proof. by destruct g. Qed.
Lemma cue_gate_read g : cue_gate_of (cue_gate_byte g) = Ok g.
Proof. by destruct g. Qed.

Hypothesis cue_json : forall cue json, cue_to_vec cue = Some json -> cue_from_slice json = Some cue.

Lemma take_cues_app cues bs l :
  put_cues cue_to_vec cues = Ok bs -> take_cues cue_from_slice (length cues) (bs ++ l) = Ok (cues, l).
Proof.
  revert bs. induction cues as [|cue cues IH]; intros bs; simpl; [by intros [= <-]|].
  intros (b & Hb & (rest & Hr & [= <-])%rbind_ok)%rbind_ok.
  unfold put_cue in Hb. apply rbind_ok in Hb as (json & Hj%ok_or_ok & Hb).
  apply rbind_ok in Hb as ([] & Hlen%guard_ok%N.ltb_ge & Hb).
  assert (b = to_be_bytes 4 (blen json) ++ json) as -> by congruence.
  change 4%N with (N.of_nat 4). rewrite <-!app_assoc, snapshot_uint_app by width_lia. cbn [rbind fst snd].
  rewrite snapshot_take_app by done. cbn [rbind fst snd]. rewrite (cue_json cue json Hj). cbn [invalid ok_or rbind].
  by rewrite (IH rest Hr).
Qed.

(** What the Rust types of a snapshot guarantee. *)
Definition snapshot_ok (s : RuntimeSnapshot) : Prop :=
  (snapshot_version s <= U16_MAX /\ generation s <= U64_MAX /\ main_high_watermark_bytes s <= U64_MAX /\
   main_low_watermark_bytes s <= U64_MAX /\ max_main_files s <= U32_MAX /\ emergency_slots s <= U16_MAX /\
   recovery_classifier_revision s <= U32_MAX /\ recovery_preflight_timeout_ms s <= U32_MAX /\
   recovery_max_bundle_bytes s <= U64_MAX /\ recovery_max_untracked_file_bytes s <= U64_MAX /\
   recovery_max_untracked_total_bytes s <= U64_MAX)%N /\
  length (effective_config_hash s) = 32%nat /\
  match recovery_adapter_manifest_id s with Some m => str_ok m | None => True end /\
  match recall_cue_adapter_manifest_id s with Some m => str_ok m | None => True end.

Lemma valid_manifest o : match o with Some m => str_ok m | None => True end -> bad_manifest o = false ->
  match o with Some s => str_ok s /\ str_is_empty s = false | None => True end.
Proof. destruct o as [s|]; [|done]. simpl. rewrite !orb_false_iff. tauto. Qed.

Lemma decode_encode s bytes :
  snapshot_ok s -> bad_manifest (recovery_adapter_manifest_id s) = false ->
  bad_manifest (recall_cue_adapter_manifest_id s) = false -> (length (recall_cues s) <= 32)%nat ->
  encode_snapshot cue_to_vec s = Ok bytes -> decode_snapshot cue_from_slice bytes = Ok s.
Proof.
  intros ((H1 & H2 & H3 & H4 & H5 & H6 & H7 & H8 & H9 & H10 & H11) & Hh & Hm1 & Hm2) Hv1 Hv2 Hc Henc.
  pose proof (valid_manifest _ Hm1 Hv1) as Hx1. pose proof (valid_manifest _ Hm2 Hv2) as Hx2. unfold encode_snapshot in Henc.
  apply rbind_ok in Henc as (keys & Hk & Henc). apply rbind_ok in Henc as (cas & Hcas & Henc).
  apply rbind_ok in Henc as (spool & Hsp & Henc). apply rbind_ok in Henc as (man & Hman & Henc).
  apply rbind_ok in Henc as (sock & Hsock & Henc). apply rbind_ok in Henc as (cman & Hcman & Henc).
  apply rbind_ok in Henc as ([] & _ & Henc). apply rbind_ok in Henc as (cues & Hcues & Henc).
  assert (bytes = _) as -> by (symmetry; exact (f_equal (fun r => match r with Ok b => b | Err _ => bytes end) Henc)).
  clear Henc. unfold decode_snapshot.
  rewrite (proj2 (guard_ok _ _ tt)) by (apply negb_false_iff, starts_with_true; by eexists). cbn [rbind].
  change 8%nat with (length SNAPSHOT_MAGIC). rewrite drop_app_length.
  change (snapshot_uint 2) with (snapshot_uint (N.of_nat 2)). change (snapshot_uint 8) with (snapshot_uint (N.of_nat 8)).
  change (snapshot_uint 4) with (snapshot_uint (N.of_nat 4)).
  repeat (first [rewrite snapshot_uint_app by width_lia | erewrite take_path_app by eassumption]; cbn [rbind fst snd]).
  rewrite snapshot_take_app by (unfold blen; by rewrite Hh). cbn [rbind fst snd app].
  rewrite take_byte_app. cbn [rbind fst snd]. rewrite recovery_gate_read. cbn [rbind].
  rewrite (take_manifest_app _ _ _ Hx1 Hman). cbn [rbind fst snd].
  repeat (first [rewrite snapshot_uint_app by width_lia | erewrite take_path_app by eassumption]; cbn [rbind fst snd app]).
  rewrite take_byte_app. cbn [rbind fst snd]. rewrite cue_gate_read. cbn [rbind].
  rewrite (take_manifest_app _ _ _ Hx2 Hcman). cbn [rbind fst snd].
  rewrite snapshot_uint_app by width_lia. cbn [rbind fst snd].
  rewrite (proj2 (guard_ok _ _ tt)) by (apply N.ltb_ge; lia). cbn [rbind].
  rewrite Nat2N.id. rewrite <-(app_nil_r cues), (take_cues_app _ _ _ Hcues). cbn. by destruct s.
Qed.

(** C31: the hook loads what the daemon publishes.  A snapshot that passes validation
    and is encoded is decoded to itself, passes the hook's validation, and names the
    same limits and directories; the JSON of a cue is only assumed to read back. *)
Theorem snapshot_round_trip s bytes :
  snapshot_ok s -> RuntimeSnapshot.validate s = Ok tt -> encode_snapshot cue_to_vec s = Ok bytes ->
  from_bytes cue_from_slice bytes = Ok s.
Proof.
  intros Hs Hv He. unfold from_bytes. rewrite (decode_encode s bytes Hs); [cbn [rbind]; by rewrite Hv| | | |done];
    unfold validate in Hv; apply rbind_ok in Hv as ([] & Hg%guard_ok & _); rewrite !orb_false_iff in Hg;
    destruct Hg as [[[[[_ Hlen] _] _] Hm1] Hm2]; [done|done|]. by apply Nat.ltb_ge in Hlen.
Qed.
End format.
End RuntimeSnapshotTheorems.
