(* ===== verification/Admission.v ===== *)
(** * Capture admission (crates/evertrace-capture/src/admission.rs)

    The hook's side of the spool: an input is checked, protected, stored by content,
    wrapped in a record body and appended; when that cannot be done a gap marker says
    what was lost.  The content store, the maintenance fence, the device key, the clock
    and fresh identifiers are the surroundings of a capture; the spool is that of
    [Spool], with its faults and crashes. *)

From S2P Require Import Prelude Order Collections Text Canonical Ids Lane Attempt Evidence Protect SpoolFrame CaptureBody GapMarker Fs Spool Recall RuntimeSnapshot.

Module CaptureAdmissionState.
Inductive CaptureAdmissionState := Normal | Pressure | Unavailable | Recovering.
#[export] Instance eq_dec : EqDecision CaptureAdmissionState.
Proof. solve_decision. Defined.
End CaptureAdmissionState.
Abbreviation CaptureAdmissionState := CaptureAdmissionState.CaptureAdmissionState.
Export (hints) CaptureAdmissionState.
Module CaptureError.
Inductive CaptureError :=
| InvalidInput | Snapshot | Key | Protection | Cas | Spool | Serialization | Clock | RecoveryIncomplete.
#[export] Instance eq_dec : EqDecision CaptureError.
Proof. solve_decision. Defined.
End CaptureError.
Abbreviation CaptureError := CaptureError.CaptureError.
Export (hints) CaptureError.
Module CaptureRecordInput.
Record CaptureRecordInput := mk {
  spool_record_id : option string;
  source_observation_id_hint : option string;
  source_instance_id : string;
  source_revision : string;
  source_record_identity : option string;
  identity_strength : option IdentityStrength;
  source_kind : EvidenceSourceKind;
  identity_domain : string;
  source_ref : string;
  session_ref : string;
  turn_ref : option string;
  tool_ref : option string;
  source_sequence : N;
  source_sequence_origin : option N;
  task_id : option string;
  repository_instance_id : option string;
  worktree_instance_id : option string;
  source_byte_range : option EvidenceByteRange;
  source_revision_mode : SourceRevisionMode;
  previous_source_revision : option string;
  close_watermark : option N;
  observation_role : ObservationRole;
  correlation : HostCorrelationEvidence;
  scope_effect_claims : list ScopeEffectClaim;
  source_local_evidence : option SourceLocalEvidence;
  lifecycle : option LaneLifecycleEvidence;
  unsupported_record_classification : option UnsupportedRecordClassification;
  source_role : SourceRole;
  content_trust : ContentTrust;
  capture_completeness : CaptureCompleteness;
  surface_eligible : bool;
  adapter_revision : N;
  adapter_manifest_ref : string;
  eligible_event_manifest_ref : string;
  parser_revision : N;
  canonicalization_revision : N;
  event_time_us : option Z;
  raw_payload : list byte;
}.
End CaptureRecordInput.
Abbreviation CaptureRecordInput := CaptureRecordInput.CaptureRecordInput.
Module DurableRecoveryPreflight.
Record DurableRecoveryPreflight := mk {
  request_id : RecoveryCaptureRequestId;
  pending_revision_id : RevisionId;
}.
End DurableRecoveryPreflight.
Abbreviation DurableRecoveryPreflight := DurableRecoveryPreflight.DurableRecoveryPreflight.
Module CaptureOutcome.
Inductive CaptureOutcome :=
| Durable (command_id : CommandId) (spool_record_id cas_digest : string) (end_watermark : N)
    (recovery_preflight : option DurableRecoveryPreflight)
| GapRecorded (marker_path : PathBuf)
| CompletenessLost.
End CaptureOutcome.
Abbreviation CaptureOutcome := CaptureOutcome.CaptureOutcome.

(** The content store and the fence are those of the surroundings. *)
Module CaptureRuntime.
Record CaptureRuntime := mk {
  snapshot : RuntimeSnapshot;
  spool : DurableSpool;
  state : CaptureAdmissionState;
}.
Definition set_spool (self : CaptureRuntime) (spool : DurableSpool) : CaptureRuntime :=
  mk (snapshot self) spool (state self).
Definition set_state (self : CaptureRuntime) (state : CaptureAdmissionState) : CaptureRuntime :=
  mk (snapshot self) (spool self) state.
End CaptureRuntime.
Abbreviation CaptureRuntime := CaptureRuntime.CaptureRuntime.

(** What a capture meets: the microseconds since the epoch if the clock is behind none,
    fresh identifiers, the device key, whether the shared maintenance fence and the
    content store work. *)
Record Surroundings := mkSurroundings {
  micros : option N;
  new_command_id : CommandId;
  new_record_id : string;
  device_key : option DeviceKey;
  fence_shared : bool;
  cas_put : bool;
}.

(** Whether the content store and the fence can be opened. *)
Record Openings := mkOpenings { cas_opens : bool; fence_opens : bool }.

Definition C (A : Type) : Type := IO CaptureError A.
Definition spool_error {A} (m : M A) : C A := map_io_err (fun _ => CaptureError.Spool) m.

Definition now_us (s : Surroundings) : result CaptureError Z :=
  let? value := ok_or (micros s) CaptureError.Clock in
  do? guard (2 ^ 63 - 1 <? value)%N CaptureError.Clock in
  Ok (Z.of_N value).

Definition valid_input_text (value : string) : bool := valid_text value.

Section admission.
Context `{SHA : Sha256} `{L : UuidLib}.
Context (mac : list byte -> list byte -> list byte).
Context (to_vec : CaptureRecordBody -> option (list byte)).
Import CaptureRecordInput.

Definition opt_invalid_text (o : option string) : bool := is_some_and o (fun value => negb (valid_input_text value)).

Definition validate_input (input : CaptureRecordInput) : result CaptureError unit :=
  do? guard (opt_invalid_text (spool_record_id input)
      || negb (valid_input_text (source_instance_id input))
      || negb (valid_input_text (source_revision input))
      || negb (valid_input_text (source_ref input))
      || negb (valid_input_text (identity_domain input))
      || negb (valid_input_text (session_ref input))
      || opt_invalid_text (turn_ref input)
      || opt_invalid_text (tool_ref input)
      || is_empty (raw_payload input)
      || (MAX_RECORD_BODY <? blen (raw_payload input))%N
      || (adapter_revision input =? 0)%N
      || negb (valid_input_text (adapter_manifest_ref input))
      || negb (valid_input_text (eligible_event_manifest_ref input))
      || (parser_revision input =? 0)%N
      || (canonicalization_revision input =? 0)%N
      || is_some_and (event_time_us input) (fun value => (value <? 0)%Z)
      || is_some_and (source_sequence_origin input) (fun origin => (source_sequence input <? origin)%N)
      || is_some_and (close_watermark input) (fun close => (close <? source_sequence input)%N)
      || is_some (unsupported_record_classification input) && surface_eligible input
      || is_none (source_record_identity input)
         && (capture_completeness input ==? CaptureCompleteness.Complete)
      || (source_revision_mode input ==? SourceRevisionMode.Replacement)
         && is_none (previous_source_revision input)
      || (source_revision_mode input ==? SourceRevisionMode.Append)
         && is_some (previous_source_revision input)) CaptureError.InvalidInput in
  do? map_err (fun _ => CaptureError.InvalidInput) (HostCorrelationEvidence.validate (correlation input)) in
  do? for_each (fun claim => map_err (fun _ => CaptureError.InvalidInput) (ScopeEffectClaim.validate claim))
        (scope_effect_claims input) in
  match lifecycle input with
  | None => Ok tt
  | Some lifecycle =>
      do? map_err (fun _ => CaptureError.InvalidInput) (LaneLifecycleEvidence.validate lifecycle) in
      guard (is_none (LaneLifecycleEvidence.incarnation_ref lifecycle)
             || (LaneLifecycleEvidence.host_session_id lifecycle !=? session_ref input)
             || (LaneLifecycleEvidence.adapter_manifest_ref lifecycle !=? adapter_manifest_ref input)
             || (LaneLifecycleEvidence.eligible_event_manifest_ref lifecycle !=? eligible_event_manifest_ref input))
        CaptureError.InvalidInput
  end.

(** ** Gaps *)

Definition gap_marker (self : CaptureRuntime) (input : CaptureRecordInput) (record_id fingerprint : string)
    (reason : GapReason) : CaptureGapMarker :=
  CaptureGapMarker.mk ("gap:" +:+ record_id)%string (source_ref input) (session_ref input) (turn_ref input)
    (tool_ref input) reason fingerprint (blen (raw_payload input))
    (last_watermark (CaptureRuntime.spool self)).

Definition record_gap (self : CaptureRuntime) (input : CaptureRecordInput) (record_id fingerprint : string)
    (reason : GapReason) : C CaptureOutcome :=
  let! written := attempt (write_gap_marker (CaptureRuntime.spool self)
    (gap_marker self input record_id fingerprint reason)) in
  ret (match written with
       | Ok marker_path => CaptureOutcome.GapRecorded marker_path
       | Err _ => CaptureOutcome.CompletenessLost
       end).

Definition record_recovery_unavailable (self : CaptureRuntime) (s : Surroundings) (input : CaptureRecordInput)
    : C CaptureOutcome :=
  do! lift (validate_input input) in
  record_gap self input (new_record_id s)
    (hex_digest (as_bytes "evertrace.recovery_unavailable.v1" ++ [x00] ++ as_bytes (source_ref input)
                 ++ [x00] ++ as_bytes (session_ref input)))
    GapReason.RecoveryUnavailable.

(** ** Captures *)

(** [parse] of a source identity, and [from_str] of an identifier. *)
Definition parse_identity (value : string) : result CaptureError string :=
  do? map_err (fun _ => CaptureError.InvalidInput) (validate_identifier value) in Ok value.
Definition parse_optional {E A} (parse : string -> result E A) (value : option string)
    : result CaptureError (option A) :=
  match value with
  | None => Ok None
  | Some value => let? a := map_err (fun _ => CaptureError.InvalidInput) (parse value) in Ok (Some a)
  end.

(** The identity of the source record and its strength. *)
Definition record_identity (input : CaptureRecordInput) (record_id : string)
    : result CaptureError (SourceRecordIdentity * IdentityStrength) :=
  match source_record_identity input, identity_strength input with
  | Some identity, Some ((IdentityStrength.StableNative | IdentityStrength.StableSourceSequence) as strength) =>
      let? identity := parse_identity identity in Ok (identity, strength)
  | None, (None | Some IdentityStrength.SynthesizedBestEffort) =>
      let? identity := parse_identity record_id in Ok (identity, IdentityStrength.SynthesizedBestEffort)
  | _, _ => Err CaptureError.InvalidInput
  end.

(** What a capture knows before the payload is protected. *)
Record Prepared := mkPrepared {
  recorded_at : Z;
  command : CommandId;
  record_id : string;
  instance_id : SourceInstanceId;
  revision : SourceRevision;
  identity : SourceRecordIdentity;
  strength : IdentityStrength;
  observation : SourceObservationId;
  hint : option SourceObservationId;
}.
Definition prepare (s : Surroundings) (input : CaptureRecordInput) (isolated : option (CommandId * string))
    : result CaptureError Prepared :=
  do? validate_input input in
  let? recorded_at_us := now_us s in
  let command_id := match isolated with Some (command_id, _) => command_id | None => new_command_id s end in
  let record_id := match spool_record_id input with Some id => id | None => new_record_id s end in
  let? instance := parse_identity (source_instance_id input) in
  let? revision := parse_identity (source_revision input) in
  let? identity := record_identity input record_id in
  let? observation := map_err (fun _ => CaptureError.InvalidInput)
    (Evidence.source_observation_id instance revision identity.1) in
  let? hint := parse_optional (digest_from_str DSourceObservation) (source_observation_id_hint input) in
  do? guard (is_some_and hint (fun hint => hint !=? observation)) CaptureError.InvalidInput in
  Ok (mkPrepared recorded_at_us command_id record_id instance revision identity.1 identity.2 observation hint).

(** [protect]; it never panics ([ProtectFacts.protect_ok]). *)
Definition protect_payload (s : Surroundings) (input : CaptureRecordInput) : result CaptureError ProtectedPayload :=
  let? key := ok_or (device_key s) CaptureError.Key in
  map_err (fun _ => CaptureError.Protection) (protect mac (raw_payload input) key).

Definition evidence_span (span : RedactionSpan) : EvidenceRedactionSpan :=
  EvidenceRedactionSpan.mk (N.of_nat (RedactionSpan.start span)) (N.of_nat (RedactionSpan.end_ span))
    (SecretKind.as_str (RedactionSpan.kind span)).

Definition capture_body (input : CaptureRecordInput) (p : Prepared) (protected : ProtectedPayload)
    (cas_digest : string) (pending : option RecoveryPreflightCandidate) : result CaptureError CaptureRecordBody :=
  let? task := parse_optional (id_from_str FTask) (task_id input) in
  let? repository := parse_optional (id_from_str FRepository) (repository_instance_id input) in
  let? worktree := parse_optional (id_from_str FWorktree) (worktree_instance_id input) in
  let? previous := parse_optional (fun value => parse_identity value) (previous_source_revision input) in
  Ok (CaptureRecordBody.mk CAPTURE_RECORD_BODY_VERSION (command p) (instance_id p) (revision p) (identity p)
    (strength p) (hint p) (source_kind input) (identity_domain input) (source_ref input) (session_ref input)
    (source_sequence input) (source_sequence_origin input) task repository worktree (source_byte_range input)
    (source_revision_mode input) previous (close_watermark input) (observation_role input) (correlation input)
    (scope_effect_claims input) (source_local_evidence input) (lifecycle input)
    (unsupported_record_classification input) (source_role input) (content_trust input)
    (capture_completeness input) (surface_eligible input) cas_digest
    (match ProtectedPayload.archive_mode protected with
     | ArchiveMode.Exact => SourceArchiveMode.Exact
     | ArchiveMode.Redacted => SourceArchiveMode.Redacted
     end)
    (blen (ProtectedPayload.protected_bytes protected)) (ProtectedPayload.raw_length protected)
    (option_map (fun digest => of_bytes (digest ≫= hex_byte)) (ProtectedPayload.protected_secret_digest protected))
    (evidence_span <$> ProtectedPayload.spans protected)
    (adapter_revision input) (adapter_manifest_ref input) (eligible_event_manifest_ref input)
    (parser_revision input) (canonicalization_revision input) (ProtectedPayload.detector_revision protected)
    (ProtectedPayload.redaction_revision protected) (ProtectedPayload.key_generation protected)
    (match event_time_us input with Some time => time | None => recorded_at p end) (recorded_at p) pending).

Definition capture_record (self : CaptureRuntime) (p : Prepared) (cas_digest : string) (body : list byte) : SpoolRecord :=
  mkSpoolRecord (RuntimeSnapshot.generation (CaptureRuntime.snapshot self)) (record_id p)
    (digest_display (observation p)) [cas_digest] body.

(** [Normal], unless recovery is not complete. *)
Definition settle (self : CaptureRuntime) : CaptureRuntime :=
  if CaptureRuntime.state self ==? CaptureAdmissionState.Recovering then self
  else CaptureRuntime.set_state self CaptureAdmissionState.Normal.

Definition durable_preflight (pending : option RecoveryPreflightCandidate) : option DurableRecoveryPreflight :=
  option_map (fun intent => DurableRecoveryPreflight.mk
    (RecoveryPreflightCandidate.recovery_capture_request_id intent)
    (RecoveryPreflightCandidate.pending_revision_id intent)) pending.

(** A gap, with the state the runtime is left in. *)
Definition gap_in (self : CaptureRuntime) (state : CaptureAdmissionState) (input : CaptureRecordInput)
    (record_id fingerprint : string) (reason : GapReason) : C (CaptureRuntime * CaptureOutcome) :=
  let! outcome := record_gap self input record_id fingerprint reason in
  ret (CaptureRuntime.set_state self state, outcome).

(** [capture_inner]; the second component of the result is what [isolated_segment] is set to. *)
Definition capture_inner (self : CaptureRuntime) (s : Surroundings) (input : CaptureRecordInput)
    (pending : option RecoveryPreflightCandidate) (isolated : option (CommandId * string))
    : C (CaptureRuntime * CaptureOutcome * option SealedSegment) :=
  let! p := lift (prepare s input isolated) in
  let! protected := lift (protect_payload s input) in
  let cas_digest := hex_digest (ProtectedPayload.protected_bytes protected) in
  if negb (fence_shared s) || negb (cas_put s) then
    let! gap := gap_in self CaptureAdmissionState.Unavailable input (record_id p) cas_digest GapReason.MainUnavailable in
    ret (gap, None)
  else
    let! body := lift (capture_body input p protected cas_digest pending) in
    let! bytes := lift (map_err (fun _ => CaptureError.Serialization) (encode_record_body to_vec body)) in
    let record := capture_record self p cas_digest bytes in
    let durable end_watermark :=
      CaptureOutcome.Durable (command p) (record_id p) cas_digest end_watermark (durable_preflight pending) in
    match isolated with
    | Some (_, routing_hint) =>
        let! segment := spool_error (append_isolated_sealed (CaptureRuntime.spool self) record routing_hint) in
        ret (settle self, durable (SealedSegment.length segment), Some segment)
    | None =>
        let! write := attempt (append (CaptureRuntime.spool self) record) in
        match write with
        | Ok (spool, written) =>
            ret (settle (CaptureRuntime.set_spool self spool), durable (DurableWrite.end_watermark written), None)
        | Err SpoolError.Pressure =>
            let! gap := gap_in self CaptureAdmissionState.Pressure input (record_id p) cas_digest GapReason.MainPressure in
            ret (gap, None)
        | Err _ =>
            let! gap := gap_in self CaptureAdmissionState.Unavailable input (record_id p) cas_digest GapReason.MainUnavailable in
            ret (gap, None)
        end
    end.

Definition capture (self : CaptureRuntime) (s : Surroundings) (input : CaptureRecordInput)
    : C (CaptureRuntime * CaptureOutcome) :=
  let! r := capture_inner self s input None None in ret r.1.
Definition capture_with_recovery_preflight (self : CaptureRuntime) (s : Surroundings) (input : CaptureRecordInput)
    (pending : RecoveryPreflightCandidate) : C (CaptureRuntime * CaptureOutcome) :=
  let! r := capture_inner self s input (Some pending) None in ret r.1.
Definition capture_isolated (self : CaptureRuntime) (s : Surroundings) (input : CaptureRecordInput)
    (command_id : CommandId) (routing_hint : string) : C (CaptureRuntime * CaptureOutcome * SealedSegment) :=
  let! r := capture_inner self s input None (Some (command_id, routing_hint)) in
  let! segment := lift (ok_or r.2 CaptureError.Spool) in
  ret (r.1, segment).

(** ** Opening *)

Definition snapshot_error {A} (r : result RuntimeSnapshotError A) : C A :=
  lift (map_err (fun _ => CaptureError.Snapshot) r).
Definition open_fence (o : Openings) (snapshot : RuntimeSnapshot) : C unit :=
  let! data_dir := snapshot_error (RuntimeSnapshot.data_dir snapshot) in
  lift (guard (negb (fence_opens o)) CaptureError.Cas).

Definition open_runtime (o : Openings) (snapshot : RuntimeSnapshot) : C CaptureRuntime :=
  do! snapshot_error (RuntimeSnapshot.validate snapshot) in
  do! lift (guard (negb (cas_opens o)) CaptureError.Cas) in
  do! open_fence o snapshot in
  let! l := spool_error (lift (RuntimeSnapshot.spool_limits snapshot)) in
  let! opened := spool_error (open_spool l) in
  let spool := opened.1 in
  let recovery := opened.2 in
  let! normal := (
    if is_empty (RecoveryReport.gaps recovery) && (RecoveryReport.repaired_tail_bytes recovery =? 0)%N
    then spool_error (below_low_watermark spool) else ret false) in
  ret (CaptureRuntime.mk snapshot spool
    (if normal then CaptureAdmissionState.Normal else CaptureAdmissionState.Recovering)).

(** The rest of [open_for_admission], once the root directory is there: nothing is repaired. *)
Definition open_existing (o : Openings) (snapshot : RuntimeSnapshot) : C CaptureRuntime :=
  let! l := spool_error (lift (RuntimeSnapshot.spool_limits snapshot)) in
  let! spool := spool_error (open_read_only l) in
  let! names := map_io_err (fun _ => CaptureError.Spool) (read_dir QuarantineDir) in
  let! normal := (
    if negb (is_empty names) then ret false else
    let! markers := spool_error (pending_gap_markers spool) in
    if negb (is_empty markers) then ret false else spool_error (below_low_watermark spool)) in
  do! lift (guard (negb (cas_opens o)) CaptureError.Cas) in
  do! open_fence o snapshot in
  ret (CaptureRuntime.mk snapshot spool
    (if normal then CaptureAdmissionState.Normal else CaptureAdmissionState.Recovering)).
Definition open_for_admission (o : Openings) (snapshot : RuntimeSnapshot) : C CaptureRuntime :=
  do! snapshot_error (RuntimeSnapshot.validate snapshot) in
  let! found := attempt (dir_metadata RootDir) in
  match found with
  | Err NotFound => open_runtime o snapshot
  | Err _ => raise CaptureError.Spool
  | Ok _ => open_existing o snapshot
  end.

Definition complete_recovery (self : CaptureRuntime) : C CaptureRuntime :=
  let! below := spool_error (below_low_watermark (CaptureRuntime.spool self)) in
  do! lift (guard (negb below) CaptureError.RecoveryIncomplete) in
  ret (CaptureRuntime.set_state self CaptureAdmissionState.Normal).

Definition runtime_seal_active (self : CaptureRuntime) : C (CaptureRuntime * option PathBuf) :=
  let! r := spool_error (seal_active (CaptureRuntime.spool self)
    (RuntimeSnapshot.generation (CaptureRuntime.snapshot self))) in
  ret (CaptureRuntime.set_spool self r.1, r.2).
End admission.
