(* ===== verification/AdmissionFacts.v ===== *)
(** * What a capture promises

    Whatever faults it meets, a capture loses nothing in silence: it leaves the spool as
    it was and says why, or the input's record is owed and can be read back, or a gap
    marker for the input is on the disk, or it says that completeness is lost.

    The theorems on runtime snapshots and capture admission at concrete inputs. *)

From S2P Require Import Prelude Order Collections Text Canonical Protect ProtectFacts SpoolFrame Ids Lane Attempt Evidence CaptureBody GapMarker Fs Spool SpoolFacts SpoolOpsFacts SpoolReading SpoolTheorems Recall RuntimeSnapshot Admission.

Module AdmissionTheorems.
Import SpoolTheorems.SpoolTheorems.

(** ** The protected payload *)

Lemma pieces_output_length pieces tail :
  Forall (fun p : list byte * list byte => p.2 <> []) pieces ->
  (length (pieces_output pieces tail) <= 10 * length (pieces_input pieces tail))%nat.
Proof.
  unfold pieces_output, pieces_input. intros H. rewrite !length_app.
  enough (length (pieces ≫= fun p => p.1 ++ REDACTION_TOKEN) <= 10 * length (pieces ≫= fun p => p.1 ++ p.2))%nat by lia.
  induction H as [|[gap secret] pieces Hs _ IH]; [done|]. cbn [mbind list_bind fst snd] in *. rewrite !length_app.
  change (length REDACTION_TOKEN) with 10%nat. destruct secret; [done|]. cbn [length]. lia.
Qed.

Lemma protected_length_bound mac input key p :
  (blen input <= MAX_RECORD_BODY)%N -> protect mac input key = Ok p ->
  (blen (ProtectedPayload.protected_bytes p) <= 10 * blen input)%N.
Proof.
  intros Hb Hp. assert (Hl : (Canonical.len input <= U64_MAX)%N).
  { unfold blen, Canonical.len, MAX_RECORD_BODY, U64_MAX in *. lia. }
  destruct (protect_pieces mac input key Hl) as (p' & pieces & tail & Hp' & Hi & Ho & _ & Hne & _).
  assert (p' = p) as -> by congruence. rewrite Ho, Hi. pose proof (pieces_output_length pieces tail Hne).
  unfold blen. lia.
Qed.

Lemma page_length m n : (m <= 10 * n)%N -> (n <= MAX_RECORD_BODY)%N -> (m + 4096 <= CAS_BUDGET)%N.
Proof. unfold CAS_BUDGET, MAX_RECORD_BODY. lia. Qed.

(** ** The record of a capture *)

Lemma hex_str_ok l : str_ok (of_bytes (l ≫= hex_byte)).
Proof.
  apply hex_valid. rewrite as_of_bytes. apply all_true.
  assert (H : Forall (fun b => is_hex b = true) (l ≫= hex_byte)); [|exact H].
  induction l as [|b l IH]; [done|]. cbn [mbind list_bind]. apply Forall_app. split; [|exact IH].
  apply all_true. apply (hex_byte_ok b).
Qed.

Lemma digest_display_ok (id : SourceObservationId) : str_ok (digest_display id).
Proof.
  unfold digest_display, write_digest, str_ok. rewrite !as_bytes_append, as_of_bytes.
  apply ascii_valid. repeat apply Forall_app_2; [by vm_compute; repeat constructor..|].
  induction (as_digest id) as [|b l IH]; [constructor|]. cbn [mbind list_bind]. apply Forall_app_2; [|exact IH].
  by destruct b; vm_compute; repeat constructor.
Qed.

(** What the Rust types guarantee of a capture's surroundings: strings are UTF-8, and a
    generation is a machine integer. *)
Definition caller_ok (self : CaptureRuntime) (s : Surroundings) (input : CaptureRecordInput) : Prop :=
  (RuntimeSnapshot.generation (CaptureRuntime.snapshot self) <= U64_MAX)%N /\ str_ok (new_record_id s) /\
  match CaptureRecordInput.spool_record_id input with Some id => str_ok id | None => True end.

Section captures.
Context `{SHA : Sha256} `{ShaLen : !Sha256Length} `{L : UuidLib}.
Context (mac : list byte -> list byte -> list byte).
Context (to_vec : CaptureRecordBody -> option (list byte)) (from_slice : list byte -> option CaptureRecordBody).

Lemma prepare_ok s input isolated p :
  prepare s input isolated = Ok p ->
  validate_input input = Ok tt /\
  record_id p = match CaptureRecordInput.spool_record_id input with Some id => id | None => new_record_id s end /\
  command p = match isolated with Some (c, _) => c | None => new_command_id s end /\
  map_err (fun _ => CaptureError.InvalidInput)
    (Evidence.source_observation_id (instance_id p) (revision p) (identity p)) = Ok (observation p).
Proof.
  unfold prepare. intros ([] & Hv & H)%rbind_ok. apply rbind_ok in H as (t & _ & H). cbv zeta in H.
  apply rbind_ok in H as (i & _ & H). apply rbind_ok in H as (r & _ & H).
  apply rbind_ok in H as (id & _ & H). apply rbind_ok in H as (obs & Ho & H).
  apply rbind_ok in H as (hint & _ & H). apply rbind_ok in H as ([] & _ & [= <-]). done.
Qed.

Lemma validate_input_length input : validate_input input = Ok tt ->
  (blen (CaptureRecordInput.raw_payload input) <= MAX_RECORD_BODY)%N.
Proof.
  unfold validate_input. intros ([] & H%guard_ok & _)%rbind_ok. rewrite !orb_false_iff, N.ltb_ge in H. tauto.
Qed.

(** What a body says of the capture it was made for. *)
Definition body_of (p : Prepared) (protected : ProtectedPayload) (cas : string)
    (pending : option RecoveryPreflightCandidate) (body : CaptureRecordBody) : Prop :=
  CaptureRecordBody.command_id body = command p /\ CaptureRecordBody.cas_ref body = cas /\
  CaptureRecordBody.source_instance_id body = instance_id p /\
  CaptureRecordBody.source_revision body = revision p /\
  CaptureRecordBody.source_record_identity body = identity p /\
  CaptureRecordBody.protected_length body = blen (ProtectedPayload.protected_bytes protected) /\
  CaptureRecordBody.recovery_preflight body = pending.

Lemma capture_body_ok input p protected cas pending body :
  capture_body input p protected cas pending = Ok body -> body_of p protected cas pending body.
Proof.
  unfold capture_body. intros (task & _ & H)%rbind_ok. apply rbind_ok in H as (repo & _ & H).
  apply rbind_ok in H as (wt & _ & H). apply rbind_ok in H as (prev & _ & H).
  assert (body = _) as -> by (symmetry; exact (f_equal (fun r => match r with Ok b => b | Err _ => body end) H)).
  done.
Qed.

Lemma capture_record_ok self s input isolated p cas bytes :
  caller_ok self s input -> prepare s input isolated = Ok p -> record_ok (capture_record self p cas bytes).
Proof.
  intros (Hg & Hn & Hi) (_ & Hid & _)%prepare_ok. split; [exact Hg|]. split; [|apply digest_display_ok].
  simpl. rewrite Hid. by destruct (CaptureRecordInput.spool_record_id input).
Qed.

Hypothesis serde : forall body json, to_vec body = Some json -> from_slice json = Some body.

Lemma capture_record_reads self s input isolated p protected cas pending body bytes :
  prepare s input isolated = Ok p -> capture_body input p protected cas pending = Ok body ->
  encode_record_body to_vec body = Ok bytes ->
  decode_validated_record_body to_vec from_slice (capture_record self p cas bytes) = Ok (body, observation p).
Proof.
  intros (_ & _ & _ & Hobs)%prepare_ok Hb He. destruct (capture_body_ok _ _ _ _ _ _ Hb) as (_ & Hc & H1 & H2 & H3 & _).
  unfold decode_validated_record_body. cbn [record_body capture_record].
  rewrite (decode_encode_body to_vec from_slice body bytes (serde body) He). cbn [rbind].
  unfold CaptureRecordBody.observation_id. rewrite H1, H2, H3.
  destruct (Evidence.source_observation_id _ _ _) as [obs|]; [|done]. cbn [map_err rbind] in *.
  injection Hobs as ->. rewrite Hc. cbn [SpoolFrame.source_observation_id cas_refs capture_record].
  rewrite !bool_decide_eq_true_2 by done. done.
Qed.

(** ** Every way a capture ends *)

Lemma wp_then_lift {E A B} (x : result E A) (k : A -> IO E B) (Q : result E B -> Fs -> Prop) (C : Fs -> Prop) f :
  (forall e, Q (Err e) f) -> (forall a, x = Ok a -> wp (k a) Q C f) -> wp (bind (lift x) k) Q C f.
Proof. intros He Hk. apply wp_bind, wp_lift. destruct x; [by apply Hk|apply He]. Qed.

(** The record of a durable capture: appended, readable by the daemon, and small enough
    for its pages. *)
Definition recorded (self : CaptureRuntime) (s : Surroundings) (input : CaptureRecordInput)
    (pending : option RecoveryPreflightCandidate) (f g : Fs) (c : CommandId) (id cas : string) (r : SpoolRecord) (i : N) : Prop :=
  exists frame body obs key protected,
    appended (CaptureRuntime.spool self) f g r i frame /\ spool_record_id r = id /\ cas_refs r = [cas] /\
    device_key s = Some key /\ protect mac (CaptureRecordInput.raw_payload input) key = Ok protected /\
    cas = hex_digest (ProtectedPayload.protected_bytes protected) /\
    decode_validated_record_body to_vec from_slice r = Ok (body, obs) /\ CaptureRecordBody.command_id body = c /\
    CaptureRecordBody.recovery_preflight body = pending /\ within_budget to_vec from_slice r.

(** The gap an input left, and the state it is reported with. *)
Definition gap_of (self : CaptureRuntime) (input : CaptureRecordInput) (state : CaptureAdmissionState) (g : Fs) (path : PathBuf) : Prop :=
  exists id fingerprint reason bytes,
    (state = CaptureAdmissionState.Pressure /\ reason = GapReason.MainPressure \/
     state = CaptureAdmissionState.Unavailable /\ reason = GapReason.MainUnavailable) /\
    encode_marker (gap_marker self input id fingerprint reason) = Ok bytes /\ forced g path bytes /\
    path ∈ slot_path <$> slots (CaptureRuntime.spool self).

Definition accounted (self : CaptureRuntime) (s : Surroundings) (input : CaptureRecordInput)
    (pending : option RecoveryPreflightCandidate) (f : Fs)
    (r : result CaptureError (CaptureRuntime * CaptureOutcome * option SealedSegment)) (g : Fs) : Prop :=
  match r with
  | Err _ => g = f
  | Ok (runtime, CaptureOutcome.Durable c id cas mark pre, _) =>
      exists r i, recorded self s input pending f g c id cas r i /\ pre = durable_preflight pending
  | Ok (runtime, CaptureOutcome.GapRecorded path, _) => gap_of self input (CaptureRuntime.state runtime) g path
  | Ok (runtime, CaptureOutcome.CompletenessLost, _) =>
      CaptureRuntime.state runtime ∈ [CaptureAdmissionState.Pressure; CaptureAdmissionState.Unavailable]
  end.

Lemma gap_in_spec owed f self s input pending f0 state id fingerprint reason :
  state = CaptureAdmissionState.Pressure /\ reason = GapReason.MainPressure \/
  state = CaptureAdmissionState.Unavailable /\ reason = GapReason.MainUnavailable ->
  Inv owed f ->
  wp (let! gap := gap_in self state input id fingerprint reason in ret (gap, None))
    (fun r g => Inv owed g /\ accounted self s input pending f0 r g) (Inv owed) f.
Proof.
  intros Hs H. unfold gap_in, record_gap. apply wp_bind, wp_bind, wp_bind, wp_attempt.
  eapply wp_mono; [by apply write_gap_marker_spec| |done]. intros [path|e] g [Hg Hp]; (repeat apply wp_ret; (split; [exact Hg|])).
  - destruct Hp as (bytes & He & Hf & Hin). by exists id, fingerprint, reason, bytes.
  - destruct Hs as [[-> _]|[-> _]]; cbn; set_solver.
Qed.

Lemma capture_spec owed f self s input pending :
  Inv owed f -> caller_ok self s input ->
  wp (capture_inner mac to_vec self s input pending None)
    (fun r g => Inv owed g /\ accounted self s input pending f r g) (Inv owed) f.
Proof.
  intros H Hok. unfold capture_inner.
  apply wp_then_lift; [done|intros p Hp]. apply wp_then_lift; [done|intros protected Hprot].
  cbv zeta. destruct (negb (fence_shared s) || negb (cas_put s)); [apply gap_in_spec; [by right|done]|].
  apply wp_then_lift; [done|intros body Hb]. apply wp_then_lift; [done|intros bytes He].
  set (cas := hex_digest _) in *. set (r := capture_record _ _ _ _).
  pose proof (capture_record_ok self s input None p cas bytes Hok Hp : record_ok r) as Hr.
  apply wp_bind, wp_attempt. eapply wp_mono; [by apply append_spec| |done].
  intros [[spool written]|e] g [Hg Ha].
  - apply wp_ret. split; [done|]. destruct Ha as (i & frame & Ha). cbn [accounted]. exists r, i. split; [|done].
    unfold protect_payload in Hprot. apply rbind_ok in Hprot as (key & Hk%ok_or_ok & Hprot).
    apply map_err_ok in Hprot, He. pose proof (capture_body_ok _ _ _ _ _ _ Hb) as (Hc & _ & _ & _ & _ & Hl & Hpend).
    pose proof (capture_record_reads self s input None p protected cas pending body bytes Hp Hb He) as Hread.
    exists frame, body, (observation p), key, protected. split_and!; [done..|].
    unfold within_budget. fold r in Hread. rewrite Hread, Hl.
    pose proof (prepare_ok _ _ _ _ Hp) as (Hlen%validate_input_length & _).
    exact (page_length _ _ (protected_length_bound _ _ _ _ Hlen Hprot) Hlen).
  - destruct e; apply gap_in_spec; first [exact Hg|by left|by right].
Qed.

(** C4: a durable capture is durable, unless it met a segment that an earlier crash left
    unforced.  When a capture returns [Durable], in any state the spool can be in in
    which there is no active segment or its directory entry has been forced, some record
    with the returned identifier and content reference is owed from then on; the daemon's
    decoder takes it back to a body with the returned command and the pending recovery
    preflight, small enough for a page; and it is found after any power loss. *)
Theorem capture_durable owed f self s input pending o runtime c id cas mark pre segment w :
  Inv owed f -> live f !! active_path = None \/ anchored f -> caller_ok self s input ->
  capture_inner mac to_vec self s input pending None (mkWorld f o) =
    Done (Ok (runtime, CaptureOutcome.Durable c id cas mark pre, segment)) w ->
  exists r i, recorded self s input pending f (fs w) c id cas r i /\ Inv ((i, r) :: owed) (fs w) /\
    forall g, power_loss (fs w) g -> found g i r.
Proof.
  intros H Ha Hok Hrun. pose proof (capture_spec owed f self s input pending H Hok o) as Hs. rewrite Hrun in Hs.
  destruct Hs as (Hg & r & i & Hr & _). exists r, i. split; [done|]. destruct Hr as (frame & body & obs & key & p & Hap & _).
  assert (Hi : Inv ((i, r) :: owed) (fs w)).
  { eapply inv_appended; [done|exact Hap|]. by apply (appended_anchored _ _ _ _ _ _ Hap). }
  split; [done|]. intros g Hl. eapply inv_found; [by eapply inv_power_loss|left].
Qed.


End captures.

(** ** Opening for admission *)

Section opening.
Context `{SHA : Sha256} `{ShaLen : !Sha256Length} `{L : UuidLib}.

(** No file can be opened at the slot. *)
Definition slot_free (f : Fs) (slot : N) : Prop := open_act (slot_path slot) f = Err NotFound.

Lemma reads_read_markers l ms :
  reads (read_markers l ms) (yields (fun f ms' => exists k, ms' = ms ++ k /\ (k = [] -> Forall (slot_free f) l))).
Proof.
  revert ms. induction l as [|slot l IH]; intros ms; cbn [read_markers].
  { apply reads_ret_yields. intros f. exists []. by rewrite app_nil_r. }
  eapply (reads_then _ _ (fun f r => r = Err NotFound -> slot_free f slot)).
  - eapply reads_mono; [apply reads_attempt; apply (reads_bind _ _ (fun f r => r = Err NotFound -> slot_free f slot)
      (fun f r => r = Err NotFound -> slot_free f slot))|by intros f [r|]].
    + eapply reads_mono; [apply reads_query|]. intros f r [->|[k ->]]; [done|by destruct k].
    + intros i. eapply reads_mono; [apply reads_query|]. cbv beta. intros f r [->|[k ->]] _.
      * by destruct (inodes f !! i).
      * by destruct k.
    + intros f e H [= ->]. by apply H.
  - intros r. destruct r as [bytes|[]]; try apply reads_raise_yields.
    + eapply reads_then; [by apply (reads_lift_yields _ (fun _ _ => True))|]. intros m.
      eapply reads_mono; [apply IH|]. intros f [ms'|]; cbn; [|done]. intros (k & -> & _) _ _.
      exists (m :: k). by rewrite <-app_assoc.
    + eapply reads_mono; [apply IH|]. intros f [ms'|]; cbn; [|done]. intros (k & -> & Hk) Hs. exists k. split; [done|].
      intros H. constructor; [by apply Hs|by apply Hk].
Qed.

Lemma reads_below_low_watermark self :
  reads (below_low_watermark self) (yields (fun f (b : bool) => b = true ->
    (N.min (main_bytes f) U64_MAX <= SpoolLimits.low_watermark_bytes (limits self))%N /\
    Forall (slot_free f) (slots self))).
Proof.
  unfold below_low_watermark. eapply reads_then; [apply reads_usage|]. intros usage.
  eapply reads_then; [apply reads_owned_file_exists|]. intros active.
  destruct (_ && _) eqn:Eb; cbn [negb]; [|by apply reads_ret_yields].
  apply andb_true_iff in Eb as [Hb%N.leb_le _].
  eapply reads_then; [apply reads_read_markers|]. intros ms.
  destruct ms as [|m ms]; cbn [is_empty negb]; [|by apply reads_ret_yields].
  eapply reads_then; [apply reads_quarantine_evidence|]. intros gaps. apply reads_ret_yields.
  intros f _ (k & Hk & Hs) _ [Hu _] _. rewrite <-Hu. split; [done|]. apply Hs. by destruct k.
Qed.

Lemma reads_snapshot_error {A} (r : result RuntimeSnapshotError A) :
  reads (snapshot_error r) (yields (fun _ a => r = Ok a)).
Proof. unfold snapshot_error. apply reads_lift_yields. intros _ a H. by destruct r; [injection H as ->|]. Qed.

Lemma reads_spool_error {A} (m : M A) P : reads m (yields P) -> reads (spool_error m) (yields P).
Proof. apply reads_map_io_err. Qed.

Lemma reads_open_fence o snapshot : reads (open_fence o snapshot) (yields (fun _ _ => True)).
Proof.
  unfold open_fence. eapply reads_then; [apply reads_snapshot_error|intros d].
  by apply reads_lift_yields.
Qed.

(** A runtime that is opened for admission with nothing left to recover. *)
Definition settled (f : Fs) (self : DurableSpool) : Prop :=
  names_in QuarantineDir (live f) = [] /\
  (N.min (main_bytes f) U64_MAX <= SpoolLimits.low_watermark_bytes (limits self))%N /\
  Forall (slot_free f) (slots self).

Lemma reads_open_read_only l : reads (spool_error (open_read_only l)) (yields (fun _ spool => limits spool = l)).
Proof.
  apply reads_spool_error. unfold open_read_only.
  eapply reads_then; [by apply (reads_lift_yields _ (fun _ l' => SpoolLimits_validate l = Ok l'))|intros l'].
  eapply reads_then; [apply reads_directories|intros []]. apply reads_ret_yields. intros _ _ H. cbn.
  unfold SpoolLimits_validate in H. by apply rbind_ok in H as (_ & _ & [= ->]).
Qed.

Lemma reads_quarantine_names :
  reads (map_io_err (fun _ => CaptureError.Spool) (read_dir QuarantineDir))
    (yields (fun f names => names = names_in QuarantineDir (live f))).
Proof. apply reads_map_io_err. eapply reads_mono; [apply reads_query_ok|]. intros f [ns|]; cbn; [|done]. by intros [= ->]. Qed.

Lemma reads_open_existing o snapshot :
  reads (open_existing o snapshot) (yields (fun f rt => CaptureRuntime.snapshot rt = snapshot /\
    RuntimeSnapshot.spool_limits snapshot = Ok (limits (CaptureRuntime.spool rt)) /\
    (CaptureRuntime.state rt = CaptureAdmissionState.Normal /\ settled f (CaptureRuntime.spool rt) \/
     CaptureRuntime.state rt = CaptureAdmissionState.Recovering))).
Proof.
  unfold open_existing. eapply reads_then; [apply reads_spool_error, (reads_lift_yields _ (fun _ l => RuntimeSnapshot.spool_limits snapshot = Ok l)); done|intros l].
  eapply reads_then; [apply reads_open_read_only|intros spool].
  eapply reads_then; [apply reads_quarantine_names|intros names].
  eapply (reads_then _ _ (fun f (b : bool) => names = names_in QuarantineDir (live f) -> b = true -> settled f spool)).
  { destruct names as [|x names]; cbn [is_empty negb]; [|by apply reads_ret_yields].
    eapply reads_then; [apply reads_spool_error, reads_read_markers|]. intros ms.
    destruct ms as [|m ms]; cbn [is_empty negb]; [|by apply reads_ret_yields].
    eapply reads_mono; [apply reads_spool_error, reads_below_low_watermark|]. intros f [b|]; cbn; [|done].
    intros Hb _ Hn Ht. destruct (Hb Ht). by split_and!. }
  intros normal. eapply (reads_then _ _ (fun _ _ => True)); [by apply reads_lift_yields|intros []].
  eapply reads_then; [apply reads_open_fence|intros []]. apply reads_ret_yields.
  intros f _ _ Hnormal Hnames Hl Hlim. cbn. split; [done|]. split; [by rewrite Hlim, Hl|].
  destruct normal; [left|by right]. split; [done|]. by apply Hnormal.
Qed.

(** What a hook's opening of a spool that is there may give. *)
Definition opened (snapshot : RuntimeSnapshot) (f : Fs) (r : result CaptureError CaptureRuntime) : Prop :=
  match r with
  | Ok rt => CaptureRuntime.snapshot rt = snapshot /\
      RuntimeSnapshot.spool_limits snapshot = Ok (limits (CaptureRuntime.spool rt)) /\
      (CaptureRuntime.state rt = CaptureAdmissionState.Normal /\ settled f (CaptureRuntime.spool rt) \/
       CaptureRuntime.state rt = CaptureAdmissionState.Recovering)
  | Err _ => True
  end.

(** Opening for admission repairs nothing.  Once the spool's root directory is
    there, a hook's opening leaves every file as it is, whatever faults it meets; a
    runtime it opens has the snapshot's limits and is [Normal] only when nothing is
    quarantined, no gap marker can be opened and the main directory is within its low
    watermark, and [Recovering] otherwise. *)
Theorem admission_open_reads_only o snapshot f orc :
  is_Some (dirs f !! RootDir) ->
  match open_for_admission o snapshot (mkWorld f orc) with
  | Done r w => fs w = f /\ opened snapshot f r
  | Crashed g => g = f
  end.
Proof.
  intros Hroot. enough (Hw : wp (open_for_admission o snapshot) (fun r g => g = f /\ opened snapshot f r) (fun g => g = f) f) by exact (Hw orc).
  eapply wp_then_reads; [eapply reads_any, reads_snapshot_error|done|done|intros [] _].
  apply wp_bind, wp_attempt. eapply wp_reads; [apply reads_query| |done]. intros r [->|[k ->]]; [|by destruct k; apply wp_raise].
  destruct Hroot as [n Hn]. rewrite Hn. eapply wp_reads; [apply reads_open_existing| |done]. by intros [rt|] Hr.
Qed.

Lemma never_spool_error {A} (m : M A) f : never m f -> never (spool_error m) f.
Proof.
  intros H o a w. unfold spool_error, map_io_err. specialize (H o). destruct (m _) as [[x|e] w'|g]; try done.
  by destruct (H x w').
Qed.

Lemma torn_slot_taken f slot : torn_slot f slot -> ~ slot_free f slot.
Proof. intros (i & n & m & p & q & Hl & Hn & (Ht & _) & _). unfold slot_free, open_act, resolve. by rewrite Hl, Hn, Ht. Qed.

Lemma torn_open_existing o snapshot f slot l :
  torn_slot f slot -> RuntimeSnapshot.spool_limits snapshot = Ok l -> (slot < SpoolLimits.emergency_slots l)%N ->
  names_in QuarantineDir (live f) = [] -> never (open_existing o snapshot) f.
Proof.
  intros Ht Hl Hs Hq. unfold open_existing.
  eapply never_bind; [apply reads_spool_error, (reads_lift_yields _ (fun _ l => RuntimeSnapshot.spool_limits snapshot = Ok l)); done|].
  intros l' Hl'. assert (l' = l) as -> by congruence.
  eapply never_bind; [apply reads_open_read_only|intros spool Hspool].
  eapply never_bind; [apply reads_quarantine_names|intros names ->]. rewrite Hq. cbn [is_empty negb].
  assert (Hm : never (spool_error (pending_gap_markers spool)) f).
  { apply never_spool_error, (never_read_markers f slot); [done|]. apply slots_elem. by rewrite Hspool. }
  intros orc a w Hr. unfold bind at 1 in Hr.
  destruct (bind (spool_error (pending_gap_markers spool)) _ _) as [[normal|] w'|] eqn:E; [|done..].
  unfold bind in E. destruct (spool_error (pending_gap_markers spool) _) as [[ms|] w2|] eqn:E2; [|done..]. by apply (Hm _ _ _ E2).
Qed.

(** C30: a torn gap marker stops capture.  When a crash in [write_gap_marker] has left a
    slot, one of those the configured limits allow, with a part of a marker, then, under
    any faults or none: as long as nothing is quarantined no hook opens a runtime for
    admission (with quarantined files it does not look at the markers, and opens in the
    recovering state); and, quarantine or not, no runtime with these limits completes
    its recovery, and the markers are never listed, nor one of them acknowledged. *)
Theorem torn_marker_stops_capture o snapshot f self slot l :
  torn_slot f slot -> RuntimeSnapshot.spool_limits snapshot = Ok l -> (slot < SpoolLimits.emergency_slots l)%N ->
  limits (CaptureRuntime.spool self) = l -> is_Some (dirs f !! RootDir) ->
  (names_in QuarantineDir (live f) = [] -> never (open_for_admission o snapshot) f) /\
  never (complete_recovery self) f /\ never (pending_gap_markers (CaptureRuntime.spool self)) f /\
  forall id, never (acknowledge_gap_marker (CaptureRuntime.spool self) id) f.
Proof.
  intros Ht Hl Hs Hself Hroot. split_and!.
  - intros Hq orc a w Hr. revert Hr. apply (never_bind _ _ (fun _ _ => True)); [eapply reads_any, reads_snapshot_error|intros [] _].
    intros orc' b w' Hr. unfold bind at 1, attempt, dir_metadata in Hr.
    pose proof (reads_query (fun f => match dirs f !! RootDir with Some n => Ok n | None => Err NotFound end) f orc') as Hd.
    destruct (query _ _) as [r [g o2]|]; [|done]. destruct Hd as [Hg Hd]. simpl in Hg. subst g. destruct Hroot as [n Hn]. rewrite Hn in Hd.
    destruct Hd as [->|[k ->]]; [|by destruct k]. by apply (torn_open_existing o snapshot f slot l Ht Hl Hs Hq _ _ _ Hr).
  - eapply never_bind; [apply reads_spool_error, reads_below_low_watermark|]. intros [|] Hb; [|by intros orc a w].
    destruct (Hb eq_refl) as [_ Hf]. rewrite Forall_forall in Hf. destruct (torn_slot_taken f slot Ht).
    apply Hf, slots_elem. by rewrite Hself.
  - apply (never_read_markers f slot); [done|]. apply slots_elem. by rewrite Hself.
  - intros id. apply (torn_never_acknowledged f _ slot); [done|]. by rewrite Hself.
Qed.
End opening.
End AdmissionTheorems.

(** ** Witnesses *)

Module AdmissionWitnesses.
Import SpoolTheorems.SpoolTheorems SpoolWitnesses AdmissionTheorems.
#[local] Existing Instances RefUuid digest digest_length.

Definition settings : RecoverySnapshotSettings :=
  RecoverySnapshotSettings.mk RecoveryGateMode.BestEffort 1000 (x01 :: replicate 31 x00) None 1 100 10 50
    RecallCueGateMode.Disabled None.
Definition snapshot : RuntimeSnapshot :=
  match RuntimeSnapshot.for_data_dir "/d" 1 sample_limits settings with
  | Ok s => s
  | Err _ => RuntimeSnapshot.mk 0 0 "" "" "" 0 0 0 0 [] RecoveryGateMode.Disabled None 0 "" 0 0 0 0 RecallCueGateMode.Disabled None []
  end.
Definition no_cue_vec (cue : RecallCueSnapshot) : option (list byte) := None.
Definition no_cue (bytes : list byte) : option RecallCueSnapshot := None.
Definition snapshot_bytes : list byte := match encode_snapshot no_cue_vec snapshot with Ok b => b | Err _ => [] end.

Lemma snapshot_round_trip_witness : from_bytes no_cue snapshot_bytes = Ok snapshot.
Proof.
  refine (RuntimeSnapshotTheorems.snapshot_round_trip no_cue_vec no_cue _ snapshot snapshot_bytes _ _ _).
  - discriminate.
  - split_and!; vm_compute; (exact I || reflexivity || discriminate).
  - vm_compute. reflexivity.
  - vm_compute. reflexivity.
Defined.

(** ** A capture *)

Definition correlation : HostCorrelationEvidence := {|
  HostCorrelationEvidence.occurrence_schema_version := 1;
  HostCorrelationEvidence.host_instance_id := None;
  HostCorrelationEvidence.host_trace_lineage_id := None;
  HostCorrelationEvidence.host_lane_key := None;
  HostCorrelationEvidence.canonical_event_family := None;
  HostCorrelationEvidence.native_request_id := None;
  HostCorrelationEvidence.physical_execution_ordinal := None;
  HostCorrelationEvidence.pairing_role := ObservationRole.Message;
  HostCorrelationEvidence.field_provenance := [];
  HostCorrelationEvidence.adapter_manifest_ref := "manifest";
  HostCorrelationEvidence.adapter_revision := 1;
  HostCorrelationEvidence.strong_gate_receipt_ref := None;
  HostCorrelationEvidence.admission := CorrelationAdmission.Unavailable;
  HostCorrelationEvidence.partial_correlation_ref := None;
  HostCorrelationEvidence.possible_duplicate_group_id := None |}.

Definition input : CaptureRecordInput := {|
  CaptureRecordInput.spool_record_id := None;
  CaptureRecordInput.source_observation_id_hint := None;
  CaptureRecordInput.source_instance_id := "src";
  CaptureRecordInput.source_revision := "1";
  CaptureRecordInput.source_record_identity := Some "record"%string;
  CaptureRecordInput.identity_strength := Some IdentityStrength.StableNative;
  CaptureRecordInput.source_kind := EvidenceSourceKind.CodexHook;
  CaptureRecordInput.identity_domain := "domain";
  CaptureRecordInput.source_ref := "source";
  CaptureRecordInput.session_ref := "session";
  CaptureRecordInput.turn_ref := None;
  CaptureRecordInput.tool_ref := Some "tool"%string;
  CaptureRecordInput.source_sequence := 4;
  CaptureRecordInput.source_sequence_origin := Some 1%N;
  CaptureRecordInput.task_id := None;
  CaptureRecordInput.repository_instance_id := None;
  CaptureRecordInput.worktree_instance_id := None;
  CaptureRecordInput.source_byte_range := None;
  CaptureRecordInput.source_revision_mode := SourceRevisionMode.Append;
  CaptureRecordInput.previous_source_revision := None;
  CaptureRecordInput.close_watermark := None;
  CaptureRecordInput.observation_role := ObservationRole.Message;
  CaptureRecordInput.correlation := correlation;
  CaptureRecordInput.scope_effect_claims := [];
  CaptureRecordInput.source_local_evidence := None;
  CaptureRecordInput.lifecycle := None;
  CaptureRecordInput.unsupported_record_classification := None;
  CaptureRecordInput.source_role := SourceRole.Tool;
  CaptureRecordInput.content_trust := ContentTrust.Observed;
  CaptureRecordInput.capture_completeness := CaptureCompleteness.Complete;
  CaptureRecordInput.surface_eligible := true;
  CaptureRecordInput.adapter_revision := 1;
  CaptureRecordInput.adapter_manifest_ref := "manifest";
  CaptureRecordInput.eligible_event_manifest_ref := "events";
  CaptureRecordInput.parser_revision := 1;
  CaptureRecordInput.canonicalization_revision := 1;
  CaptureRecordInput.event_time_us := Some 5%Z;
  CaptureRecordInput.raw_payload := sample_payload |}.

Definition command_id : CommandId := mk_iid (mk_uuid 9).
Definition around (cas_put : bool) : Surroundings :=
  mkSurroundings (Some 7%N) command_id "record-1" (Some sample_key) true cas_put.
Definition runtime : CaptureRuntime := CaptureRuntime.mk snapshot self CaptureAdmissionState.Normal.

Definition sample_body : option CaptureRecordBody :=
  match (let? p := prepare (around true) input None in
         let? protected := protect_payload zero_mac (around true) input in
         capture_body input p protected (hex_digest (ProtectedPayload.protected_bytes protected)) None) with
  | Ok body => Some body
  | Err _ => None
  end.
(** A serializer that knows one body. *)
Definition sample_json : list byte := as_bytes "{}".
Definition sample_vec (body : CaptureRecordBody) : option (list byte) :=
  if decide (sample_body = Some body) then Some sample_json else None.
Definition sample_slice (bytes : list byte) : option CaptureRecordBody :=
  if decide (bytes = sample_json) then sample_body else None.

Lemma sample_serde body json : sample_vec body = Some json -> sample_slice json = Some body.
Proof.
  unfold sample_vec, sample_slice. destruct (decide (sample_body = Some body)); [|done].
  intros [= <-]. by rewrite decide_True.
Qed.

Lemma runtime_ok cas_put : caller_ok runtime (around cas_put) input.
Proof. split_and!; vm_compute; (exact I || reflexivity || discriminate). Qed.

Lemma machine_inv : Inv [] machine.
Proof. by apply unused_inv. Qed.

Definition captured (cas_put : bool) : outcome CaptureError (CaptureRuntime * CaptureOutcome * option SealedSegment) :=
  capture_inner zero_mac sample_vec runtime (around cas_put) input None None (mkWorld machine []).

Definition end_state : Fs := state_of (captured true).
Definition written_runtime : CaptureRuntime :=
  CaptureRuntime.mk snapshot (mkSpool sample_limits 230) CaptureAdmissionState.Normal.
Definition zero_ref : string := hex_digest [].

Lemma captured_durable :
  captured true =
    Done (Ok (written_runtime, CaptureOutcome.Durable command_id "record-1" zero_ref 230 None, None)) (mkWorld end_state []).
Proof. vm_compute. reflexivity. Qed.

Lemma capture_durable_witness :
  exists r i, recorded zero_mac sample_vec sample_slice runtime (around true) input None machine end_state command_id "record-1" zero_ref r i /\
    Inv [(i, r)] end_state /\ forall g, power_loss end_state g -> found g i r.
Proof.
  refine (capture_durable zero_mac sample_vec sample_slice sample_serde [] machine runtime (around true) input None []
    written_runtime command_id "record-1" zero_ref 230 None None (mkWorld end_state []) machine_inv _ (runtime_ok true) captured_durable).
  left. reflexivity.
Defined.



(** ** Opening *)

Definition openings : Openings := mkOpenings true true.

Lemma admission_open_reads_only_witness :
  opened snapshot end_state (Ok (CaptureRuntime.mk snapshot self CaptureAdmissionState.Normal)).
Proof.
  pose proof (admission_open_reads_only openings snapshot end_state [] ltac:(eexists; vm_compute; reflexivity)) as H.
  assert (E : open_for_admission openings snapshot (mkWorld end_state []) =
    Done (Ok (CaptureRuntime.mk snapshot self CaptureAdmissionState.Normal)) (mkWorld end_state [])) by (vm_compute; reflexivity).
  rewrite E in H. exact (proj2 H).
Defined.

Lemma torn_marker_stops_capture_witness :
  never (open_for_admission openings snapshot) marked_state /\ never (complete_recovery runtime) marked_state /\
  never (pending_gap_markers self) marked_state /\ forall id, never (acknowledge_gap_marker self id) marked_state.
Proof.
  destruct (torn_marker_stops_capture openings snapshot marked_state runtime 0 sample_limits marked_torn) as [H1 H2];
    [vm_compute; reflexivity..|eexists; vm_compute; reflexivity|].
  split; [|exact H2]. apply H1. vm_compute. reflexivity.
Defined.
End AdmissionWitnesses.
