(* ===== verification/Autoresearch.v ===== *)
(** * Experiment runs, results and artifacts (crates/evertrace-domain/src/semantic.rs and work/autoresearch.rs)

    A run is declared, launched under a contract and completed; results of it and the
    artifacts it makes or uses are recorded beside it.  Each of the three is a chain of
    revisions: this file has the records, their validators and the successor checks.
    TOML is a parameter. *)

From S2P Require Import Prelude Order Collections Text Canonical Ids Lane Attempt Constraint Recovery.

(** ** Results *)

Definition RESULT_MAX_REFS : nat := 256.
Definition RESULT_MAX_TEXT : N := 1024.

Definition result_text (value : string) : bool :=
  negb (str_is_empty value) && (str_len value <=? RESULT_MAX_TEXT)%N && negb (any is_control (chars value)).

Definition canonical_refs {A} `{!Ord A} (limit : nat) (values : list A) : bool :=
  (length values <=? limit)%nat && windows2_all ltb_ord values.

(** *** [f64::from_str] and [f64::is_finite] *)

Definition digit_value (b : byte) : Z := Z.of_N (byte_N b) - 48.
Fixpoint take_digits (l : list byte) : list byte * list byte :=
  match l with
  | b :: r => if is_ascii_digit b then let p := take_digits r in (b :: p.1, p.2) else ([], l)
  | [] => ([], [])
  end.
Definition digits_value (l : list byte) : Z := foldl (fun acc b => acc * 10 + digit_value b)%Z 0%Z l.
Definition drop_sign (l : list byte) : bool * list byte :=
  match l with
  | b :: r => if b ==? x2d then (true, r) else if b ==? x2b then (false, r) else (false, l)
  | [] => (false, [])
  end.

(** The digits and the decimal exponent of a number; [inf] and [nan] are not finite. *)
Definition parse_exponent (l : list byte) : option Z :=
  match l with
  | [] => Some 0%Z
  | b :: r =>
      if (b ==? x65) || (b ==? x45) then
        let '(negative, r) := drop_sign r in
        let '(digits, rest) := take_digits r in
        if is_empty digits || negb (is_empty rest) then None
        else Some (if negative then - digits_value digits else digits_value digits)%Z
      else None
  end.
Definition parse_decimal (l : list byte) : option (Z * Z) :=
  let '(_, l) := drop_sign l in
  let '(whole, l) := take_digits l in
  let '(fraction, l) :=
    match l with
    | b :: r => if b ==? x2e then take_digits r else ([], l)
    | [] => ([], l)
    end in
  if is_empty whole && is_empty fraction then None else
  match parse_exponent l with
  | Some e => Some (digits_value (whole ++ fraction), (e - Z.of_nat (length fraction))%Z)
  | None => None
  end.
(** Rounded to the nearest double, [m * 10 ^ e] is finite when it is below the middle of
    the largest double and 2 ^ 1024. *)
Definition F64_LIMIT : Z := 2 ^ 1024 - 2 ^ 970.
Definition finite_decimal (m e : Z) : bool :=
  if (m =? 0)%Z then true
  else if (e >=? 0)%Z then (e <=? 309)%Z && (m * 10 ^ e <? F64_LIMIT)%Z
  else (m <? F64_LIMIT)%Z || (m <? F64_LIMIT * 10 ^ (- e))%Z.
Definition valid_decimal (value : string) : bool :=
  result_text value && match parse_decimal (as_bytes value) with Some (m, e) => finite_decimal m e | None => false end.

Module ResultScope.
Inductive ResultScope :=
| Complete
| Partial.
#[export] Instance eq_dec : EqDecision ResultScope.
Proof. solve_decision. Defined.
End ResultScope.
Abbreviation ResultScope := ResultScope.ResultScope.
Export (hints) ResultScope.
Module EvidenceCompleteness.
Inductive EvidenceCompleteness :=
| Complete
| Incomplete
| Unavailable.
#[export] Instance eq_dec : EqDecision EvidenceCompleteness.
Proof. solve_decision. Defined.
End EvidenceCompleteness.
Abbreviation EvidenceCompleteness := EvidenceCompleteness.EvidenceCompleteness.
Export (hints) EvidenceCompleteness.
Module ParserStatus.
Inductive ParserStatus :=
| Parsed
| Failed.
#[export] Instance eq_dec : EqDecision ParserStatus.
Proof. solve_decision. Defined.
End ParserStatus.
Abbreviation ParserStatus := ParserStatus.ParserStatus.
Export (hints) ParserStatus.
Module ParserFailureCode.
Inductive ParserFailureCode :=
| MetricParseFailed
| AmbiguousMetricInput.
#[export] Instance eq_dec : EqDecision ParserFailureCode.
Proof. solve_decision. Defined.
End ParserFailureCode.
Abbreviation ParserFailureCode := ParserFailureCode.ParserFailureCode.
Export (hints) ParserFailureCode.
Module VerifierStatus.
Inductive VerifierStatus :=
| Passed
| Failed.
#[export] Instance eq_dec : EqDecision VerifierStatus.
Proof. solve_decision. Defined.
End VerifierStatus.
Abbreviation VerifierStatus := VerifierStatus.VerifierStatus.
Export (hints) VerifierStatus.
Module VerifierFailureCode.
Inductive VerifierFailureCode :=
| DeterministicReparseMismatch.
#[export] Instance eq_dec : EqDecision VerifierFailureCode.
Proof. solve_decision. Defined.
End VerifierFailureCode.
Abbreviation VerifierFailureCode := VerifierFailureCode.VerifierFailureCode.
Export (hints) VerifierFailureCode.
Module ResultFailure.
Inductive ResultFailure :=
| Parser (_ : ParserFailureCode)
| Verifier (_ : VerifierFailureCode).
#[export] Instance eq_dec : EqDecision ResultFailure.
Proof. solve_decision. Defined.
End ResultFailure.
Abbreviation ResultFailure := ResultFailure.ResultFailure.
Export (hints) ResultFailure.
Module MetricValue.
Record MetricValue := mk {
  decimal : string;
  unit_ : string;
  uncertainty_decimal : option string;
}.
#[export] Instance eq_dec : EqDecision MetricValue.
Proof. solve_decision. Defined.
Definition validate (self : MetricValue) : result SemanticError unit :=
  guard (negb (valid_decimal (decimal self)) || negb (result_text (unit_ self))
         || is_some_and (uncertainty_decimal self) (fun value => negb (valid_decimal value)))
    SemanticError.InvalidResultEvidence.
End MetricValue.
Abbreviation MetricValue := MetricValue.MetricValue.
Export (hints) MetricValue.
Module ParserReceipt.
Record ParserReceipt := mk {
  parser_version : string;
  input_artifact_refs : list WorkArtifactId;
  input_cas_refs : list CasId;
  status : ParserStatus;
  failure_code : option ParserFailureCode;
}.
#[export] Instance eq_dec : EqDecision ParserReceipt.
Proof. solve_decision. Defined.
Definition validate (self : ParserReceipt) : result SemanticError unit :=
  guard (negb (result_text (parser_version self))
         || is_empty (input_artifact_refs self) && is_empty (input_cas_refs self)
         || negb (canonical_refs RESULT_MAX_REFS (input_artifact_refs self))
         || negb (canonical_refs RESULT_MAX_REFS (input_cas_refs self))
         || negb (Bool.eqb (status self ==? ParserStatus.Failed) (is_some (failure_code self))))
    SemanticError.InvalidResultEvidence.
End ParserReceipt.
Abbreviation ParserReceipt := ParserReceipt.ParserReceipt.
Export (hints) ParserReceipt.
Module VerifierReceipt.
Record VerifierReceipt := mk {
  verifier_version : string;
  status : VerifierStatus;
  failure_code : option VerifierFailureCode;
}.
#[export] Instance eq_dec : EqDecision VerifierReceipt.
Proof. solve_decision. Defined.
Definition validate (self : VerifierReceipt) : result SemanticError unit :=
  guard (negb (result_text (verifier_version self))
         || negb (Bool.eqb (status self ==? VerifierStatus.Failed) (is_some (failure_code self))))
    SemanticError.InvalidResultEvidence.
End VerifierReceipt.
Abbreviation VerifierReceipt := VerifierReceipt.VerifierReceipt.
Export (hints) VerifierReceipt.

Definition completeness_progress (current next : EvidenceCompleteness) : bool :=
  match current with
  | EvidenceCompleteness.Incomplete => true
  | EvidenceCompleteness.Complete => next ==? EvidenceCompleteness.Complete
  | EvidenceCompleteness.Unavailable => next ==? EvidenceCompleteness.Unavailable
  end.

Module ResultEvidence.
Record ResultEvidence := mk {
  result_evidence_id : ResultEvidenceId;
  revision_id : RevisionId;
  parent_revision_id : option RevisionId;
  experiment_run_id : ExperimentRunId;
  experiment_run_revision_id : RevisionId;
  result_scope : ResultScope;
  raw_artifact_refs : list WorkArtifactId;
  raw_cas_refs : list CasId;
  parsed_metric : option MetricValue;
  parser_receipt : ParserReceipt;
  verifier_receipt : option VerifierReceipt;
  completeness : EvidenceCompleteness;
  failure : option ResultFailure;
  created_at_us : Z;
}.
#[export] Instance eq_dec : EqDecision ResultEvidence.
Proof. solve_decision. Defined.
(** The failure the receipts imply. *)
Definition implied_failure (self : ResultEvidence) : option ResultFailure :=
  match ParserReceipt.failure_code (parser_receipt self), (receipt ← verifier_receipt self; VerifierReceipt.failure_code receipt) with
  | Some code, _ => Some (ResultFailure.Parser code)
  | None, Some code => Some (ResultFailure.Verifier code)
  | None, None => None
  end.

Definition validate (self : ResultEvidence) : result SemanticError unit :=
  do? ParserReceipt.validate (parser_receipt self) in
  do? (match verifier_receipt self with Some receipt => VerifierReceipt.validate receipt | None => Ok tt end) in
  do? guard ((created_at_us self <? 0)%Z
      || is_empty (raw_artifact_refs self) && is_empty (raw_cas_refs self)
      || negb (canonical_refs RESULT_MAX_REFS (raw_artifact_refs self))
      || negb (canonical_refs RESULT_MAX_REFS (raw_cas_refs self))
      || (ParserReceipt.input_artifact_refs (parser_receipt self) !=? raw_artifact_refs self)
      || (ParserReceipt.input_cas_refs (parser_receipt self) !=? raw_cas_refs self)
      || (ParserReceipt.status (parser_receipt self) ==? ParserStatus.Failed) && is_some (parsed_metric self)
      || (ParserReceipt.status (parser_receipt self) ==? ParserStatus.Parsed) && is_none (parsed_metric self)
      || (completeness self ==? EvidenceCompleteness.Complete)
         && negb ((ParserReceipt.status (parser_receipt self) ==? ParserStatus.Parsed)
                  && is_some (parsed_metric self)
                  && is_some_and (verifier_receipt self) (fun receipt => VerifierReceipt.status receipt ==? VerifierStatus.Passed))
      || (failure self !=? implied_failure self)) SemanticError.InvalidResultEvidence in
  match parsed_metric self with Some metric => MetricValue.validate metric | None => Ok tt end.

Definition validate_successor (self next : ResultEvidence) : result SemanticError unit :=
  do? validate next in
  let raw_progress := strict_superset (raw_artifact_refs self) (raw_artifact_refs next)
                      || strict_superset (raw_cas_refs self) (raw_cas_refs next) in
  let parser_compatible :=
    (ParserReceipt.parser_version (parser_receipt self) ==? ParserReceipt.parser_version (parser_receipt next))
    && contains_all (ParserReceipt.input_artifact_refs (parser_receipt next)) (ParserReceipt.input_artifact_refs (parser_receipt self))
    && contains_all (ParserReceipt.input_cas_refs (parser_receipt next)) (ParserReceipt.input_cas_refs (parser_receipt self)) in
  let parser_progress :=
    raw_progress && parser_compatible
    && ((ParserReceipt.status (parser_receipt self) ==? ParserReceipt.status (parser_receipt next))
        || (ParserReceipt.status (parser_receipt self) ==? ParserStatus.Failed)
           && (ParserReceipt.status (parser_receipt next) ==? ParserStatus.Parsed)) in
  let evidence_progress :=
    raw_progress || (verifier_receipt self !=? verifier_receipt next) || (completeness self !=? completeness next)
    || (failure self !=? failure next) in
  guard ((result_evidence_id self !=? result_evidence_id next)
      || (parent_revision_id next !=? Some (revision_id self))
      || (experiment_run_id self !=? experiment_run_id next)
      || (experiment_run_revision_id self !=? experiment_run_revision_id next)
      || (result_scope self !=? result_scope next)
      || negb (contains_all (raw_artifact_refs next) (raw_artifact_refs self))
      || negb (contains_all (raw_cas_refs next) (raw_cas_refs self))
      || is_some (parsed_metric self) && (parsed_metric self !=? parsed_metric next)
      || (parser_receipt self !=? parser_receipt next) && negb parser_progress
      || (created_at_us next <? created_at_us self)%Z
      || is_some (verifier_receipt self) && (verifier_receipt self !=? verifier_receipt next) && negb raw_progress
      || negb (completeness_progress (completeness self) (completeness next))
      || negb evidence_progress) SemanticError.InvalidResultSuccessor.
End ResultEvidence.
Abbreviation ResultEvidence := ResultEvidence.ResultEvidence.
Export (hints) ResultEvidence.

(** ** Runs *)

Definition RUN_MAX_REFS : nat := 256.
Definition RUN_MAX_FIELDS : nat := 128.
Definition RUN_MAX_TEXT : N := 1024.
Definition CONTROLLED_SOURCE_VERSION : N := 1.

Definition run_text (value : string) : bool :=
  negb (str_is_empty value) && (str_len value <=? RUN_MAX_TEXT)%N && negb (any is_control (chars value)).
Definition run_optional_text (value : option string) : bool := is_none_or value run_text.
Definition canonical_texts (values : list string) : bool :=
  (length values <=? RUN_MAX_FIELDS)%nat && all run_text values && windows2_all ltb_ord values.

(** The loop over the bytes: a dot seen, a digit other than zero seen. *)
Fixpoint decimal_scan (l : list byte) (dot nonzero : bool) : option (bool * bool) :=
  match l with
  | [] => Some (dot, nonzero)
  | b :: r =>
      if (b ==? x2e) && negb dot then decimal_scan r true nonzero
      else if b ==? x30 then decimal_scan r dot nonzero
      else if is_ascii_digit b then decimal_scan r dot true
      else None
  end.
Definition positive_decimal (value : string) : bool :=
  let l := as_bytes value in
  if str_is_empty value || (64 <? str_len value)%N || starts_with l [x2d] || starts_with l [x2b] then false else
  match decimal_scan l false false with
  | None => false
  | Some (dot, nonzero) =>
      nonzero && negb (starts_with l [x2e]) && negb (starts_with (reverse l) [x2e])
      && negb ((1 <? str_len value)%N && starts_with l [x30] && negb (starts_with l [x30; x2e]))
      && negb (dot && starts_with (reverse l) [x30])
  end.

Module RunOrigin.
Inductive RunOrigin :=
| Local
| External.
#[export] Instance eq_dec : EqDecision RunOrigin.
Proof. solve_decision. Defined.
End RunOrigin.
Abbreviation RunOrigin := RunOrigin.RunOrigin.
Export (hints) RunOrigin.
Module AttemptBindingStatus.
Inductive AttemptBindingStatus :=
| Resolved
| Provisional
| Unresolved.
#[export] Instance eq_dec : EqDecision AttemptBindingStatus.
Proof. solve_decision. Defined.
End AttemptBindingStatus.
Abbreviation AttemptBindingStatus := AttemptBindingStatus.AttemptBindingStatus.
Export (hints) AttemptBindingStatus.
Module RunObservability.
Inductive RunObservability :=
| Declared
| Partial
| Full.
#[export] Instance eq_dec : EqDecision RunObservability.
Proof. solve_decision. Defined.
Definition rank (x : RunObservability) : N :=
  match x with
  | Declared => 0
  | Partial => 1
  | Full => 2
  end.
Lemma RunObservability_rank_inj x y : rank x = rank y -> x = y.
Proof. by destruct x, y. Qed.
#[export] Instance ord : Ord RunObservability := Ord_by rank RunObservability_rank_inj.
End RunObservability.
Abbreviation RunObservability := RunObservability.RunObservability.
Export (hints) RunObservability.
Module RunExecutionStatus.
Inductive RunExecutionStatus :=
| Unknown
| Queued
| Running
| Completed
| Failed
| Interrupted.
#[export] Instance eq_dec : EqDecision RunExecutionStatus.
Proof. solve_decision. Defined.
End RunExecutionStatus.
Abbreviation RunExecutionStatus := RunExecutionStatus.RunExecutionStatus.
Export (hints) RunExecutionStatus.
Module RunContractValidity.
Inductive RunContractValidity :=
| Unknown
| Valid
| Invalid.
#[export] Instance eq_dec : EqDecision RunContractValidity.
Proof. solve_decision. Defined.
End RunContractValidity.
Abbreviation RunContractValidity := RunContractValidity.RunContractValidity.
Export (hints) RunContractValidity.
Module SeedPolicy.
Inductive SeedPolicy :=
| Fixed
| Enumerated
| Randomized
| Unspecified.
#[export] Instance eq_dec : EqDecision SeedPolicy.
Proof. solve_decision. Defined.
End SeedPolicy.
Abbreviation SeedPolicy := SeedPolicy.SeedPolicy.
Export (hints) SeedPolicy.
Module MultiCasMetricPolicy.
Inductive MultiCasMetricPolicy :=
| RejectMultipleParsed
| AllowIdenticalParsed.
#[export] Instance eq_dec : EqDecision MultiCasMetricPolicy.
Proof. solve_decision. Defined.
End MultiCasMetricPolicy.
Abbreviation MultiCasMetricPolicy := MultiCasMetricPolicy.MultiCasMetricPolicy.
Export (hints) MultiCasMetricPolicy.
Module MetricDirection.
Inductive MetricDirection :=
| HigherIsBetter
| LowerIsBetter.
#[export] Instance eq_dec : EqDecision MetricDirection.
Proof. solve_decision. Defined.
End MetricDirection.
Abbreviation MetricDirection := MetricDirection.MetricDirection.
Export (hints) MetricDirection.

Definition seed_policy_str (self : SeedPolicy) : string :=
  match self with
  | SeedPolicy.Fixed => "fixed" | SeedPolicy.Enumerated => "enumerated"
  | SeedPolicy.Randomized => "randomized" | SeedPolicy.Unspecified => "unspecified"
  end.
Definition multi_cas_str (self : MultiCasMetricPolicy) : string :=
  match self with
  | MultiCasMetricPolicy.RejectMultipleParsed => "reject_multiple_parsed"
  | MultiCasMetricPolicy.AllowIdenticalParsed => "allow_identical_parsed"
  end.

Module ComparisonExecutionBinding.
Record ComparisonExecutionBinding := mk {
  binding_version : N;
  toolchain_revision : string;
  model_revision : string;
  harness_revision : string;
  algorithm_revision : string;
  budget : N;
  procedure_exposure_revision_id : option RevisionId;
  metric_direction : MetricDirection;
  metric_unit : string;
  positive_delta_threshold : string;
  negative_delta_threshold : string;
}.
#[export] Instance eq_dec : EqDecision ComparisonExecutionBinding.
Proof. solve_decision. Defined.
Definition validate (self : ComparisonExecutionBinding) : result WorkError unit :=
  guard (negb (binding_version self =? 1)%N
      || (budget self =? 0)%N
      || any (fun value => negb (run_text value) || (value ==? "unknown"%string))
           [toolchain_revision self; model_revision self; harness_revision self; algorithm_revision self; metric_unit self]
      || negb (positive_decimal (positive_delta_threshold self))
      || negb (positive_decimal (negative_delta_threshold self)))
    WorkError.InvalidAutoresearch.

Definition canonical `{L : UuidLib} (self : ComparisonExecutionBinding) (include_exposure : bool) : CanonicalValue :=
  Map
    [("algorithm_revision", CString (algorithm_revision self));
     ("binding_version", Integer (Z.of_N (binding_version self)));
     ("budget", Integer (Z.of_N (budget self)));
     ("harness_revision", CString (harness_revision self));
     ("metric_direction", CString (match metric_direction self with
        | MetricDirection.HigherIsBetter => "higher_is_better"
        | MetricDirection.LowerIsBetter => "lower_is_better" end));
     ("metric_unit", CString (metric_unit self));
     ("model_revision", CString (model_revision self));
     ("negative_delta_threshold", CString (negative_delta_threshold self));
     ("positive_delta_threshold", CString (positive_delta_threshold self));
     ("procedure_exposure_revision_id",
        if include_exposure then
          match procedure_exposure_revision_id self with Some id => CString (rid_display id) | None => Null end
        else Null);
     ("toolchain_revision", CString (toolchain_revision self))]%string.
End ComparisonExecutionBinding.
Abbreviation ComparisonExecutionBinding := ComparisonExecutionBinding.ComparisonExecutionBinding.
Export (hints) ComparisonExecutionBinding.
Module ContractField.
Record ContractField := mk {
  name : string;
  value : string;
}.
#[export] Instance eq_dec : EqDecision ContractField.
Proof. solve_decision. Defined.
Definition valid (self : ContractField) : bool := run_text (name self) && run_text (value self).
End ContractField.
Abbreviation ContractField := ContractField.ContractField.
Export (hints) ContractField.

(** The names of a configuration are in strict order. *)
Definition config_ordered (config : list ContractField) : bool :=
  windows2_all (fun a b => ltb_ord (ContractField.name a) (ContractField.name b)) config.

Module VariableDeclaration.
Record VariableDeclaration := mk {
  varied : list string;
  fixed : list string;
  uncontrolled : list string;
}.
#[export] Instance eq_dec : EqDecision VariableDeclaration.
Proof. solve_decision. Defined.
(** The loop over the declared names: [all] is the set of those seen. *)
Fixpoint declare (names : list string) (config : list ContractField) (all : list string) : result WorkError (list string) :=
  match names with
  | [] => Ok all
  | name :: names =>
      do? guard (contains name all || negb (any (fun field => ContractField.name field ==? name) config))
            WorkError.InvalidAutoresearch in
      declare names config (bset_insert name all)
  end.
Definition validate_against (self : VariableDeclaration) (config : list ContractField) : result WorkError unit :=
  do? guard (negb (canonical_texts (varied self)) || negb (canonical_texts (fixed self))
             || negb (canonical_texts (uncontrolled self))) WorkError.InvalidAutoresearch in
  let? all := declare (varied self ++ fixed self ++ uncontrolled self) config [] in
  guard (negb (length all =? length config)%nat) WorkError.InvalidAutoresearch.
End VariableDeclaration.
Abbreviation VariableDeclaration := VariableDeclaration.VariableDeclaration.
Export (hints) VariableDeclaration.

Definition config_value (fields : list ContractField) : CanonicalValue :=
  Sequence ((fun field => Map [("name", CString (ContractField.name field)); ("value", CString (ContractField.value field))]%string) <$> fields).
Definition variables_value (value : VariableDeclaration) : CanonicalValue :=
  Map [("varied", strings (VariableDeclaration.varied value)); ("fixed", strings (VariableDeclaration.fixed value));
       ("uncontrolled", strings (VariableDeclaration.uncontrolled value))]%string.

Definition status_progress (current next : RunExecutionStatus) : bool :=
  match current with
  | RunExecutionStatus.Unknown => true
  | RunExecutionStatus.Queued =>
      contains next [RunExecutionStatus.Queued; RunExecutionStatus.Running; RunExecutionStatus.Completed;
                     RunExecutionStatus.Failed; RunExecutionStatus.Interrupted]
  | RunExecutionStatus.Running =>
      contains next [RunExecutionStatus.Running; RunExecutionStatus.Completed; RunExecutionStatus.Failed;
                     RunExecutionStatus.Interrupted]
  | RunExecutionStatus.Completed => next ==? RunExecutionStatus.Completed
  | RunExecutionStatus.Failed => next ==? RunExecutionStatus.Failed
  | RunExecutionStatus.Interrupted => next ==? RunExecutionStatus.Interrupted
  end.
Definition validity_progress (current next : RunContractValidity) : bool :=
  (current ==? RunContractValidity.Unknown) || (current ==? next).

Module ExperimentRun.
Record ExperimentRun := mk {
  run_id : ExperimentRunId;
  revision_id : RevisionId;
  parent_revision_id : option RevisionId;
  workstream_id : WorkstreamId;
  attempt_id : option AttemptId;
  attempt_binding_status : AttemptBindingStatus;
  strategy_contract_fingerprint : list byte;
  origin : RunOrigin;
  external_system_id : option string;
  external_run_key : option string;
  source_receipt_refs : list SourceReceiptId;
  observability : RunObservability;
  execution_status : RunExecutionStatus;
  contract_validity : RunContractValidity;
  experiment_contract_fingerprint : list byte;
  code_snapshot_id : WorktreeSnapshotId;
  data_fingerprint : string;
  normalized_config : list ContractField;
  variable_declaration : VariableDeclaration;
  comparison_key : list byte;
  seed_policy : SeedPolicy;
  seed_values : list string;
  nondeterministic : bool;
  metric_definition : string;
  metric_extractor_version : string;
  multi_cas_metric_policy : MultiCasMetricPolicy;
  environment_fingerprint : string;
  comparison_execution_binding : option ComparisonExecutionBinding;
  work_artifact_refs : list WorkArtifactId;
  terminal_evidence_refs : list SourceReceiptId;
  created_at_us : Z;
  started_at_us : option Z;
  ended_at_us : option Z;
}.
#[export] Instance eq_dec : EqDecision ExperimentRun.
Proof. solve_decision. Defined.
Section run.
Context `{L : UuidLib} `{SHA : Sha256}.

Definition validate_binding (self : ExperimentRun) : result WorkError unit :=
  match comparison_execution_binding self with Some binding => ComparisonExecutionBinding.validate binding | None => Ok tt end.
Definition contract_version (self : ExperimentRun) : N := if is_some (comparison_execution_binding self) then 2 else 1.
Definition binding_entry (self : ExperimentRun) (include_exposure : bool) : list (string * CanonicalValue) :=
  match comparison_execution_binding self with
  | Some binding => [("comparison_execution_binding"%string, ComparisonExecutionBinding.canonical binding include_exposure)]
  | None => []
  end.

Definition recompute_exact_contract_fingerprint (self : ExperimentRun) : result WorkError (list byte) :=
  do? validate_binding self in
  map_err (fun _ => WorkError.InvalidAutoresearch)
    (sha256 sha256_digest "evertrace.experiment_contract.exact" (contract_version self)
      (Map
        ([("strategy", Bytes (strategy_contract_fingerprint self));
          ("code_snapshot", CString (id_display (code_snapshot_id self)));
          ("data", CString (data_fingerprint self));
          ("config", config_value (normalized_config self));
          ("variables", variables_value (variable_declaration self));
          ("seed_policy", CString (seed_policy_str (seed_policy self)));
          ("seed_values", strings (seed_values self));
          ("nondeterministic", Bool (nondeterministic self));
          ("metric", CString (metric_definition self));
          ("extractor", CString (metric_extractor_version self));
          ("multi_cas", CString (multi_cas_str (multi_cas_metric_policy self)));
          ("environment", CString (environment_fingerprint self))]%string ++ binding_entry self true))).

Definition recompute_comparison_key (self : ExperimentRun) : result WorkError (list byte) :=
  map_err (fun _ => WorkError.InvalidAutoresearch)
    (sha256 sha256_digest "evertrace.experiment_contract.comparison" (contract_version self)
      (Map
        ([("code_snapshot", CString (id_display (code_snapshot_id self)));
          ("data", CString (data_fingerprint self));
          ("fixed_config", config_value (List.filter (fun field =>
             contains (ContractField.name field) (VariableDeclaration.fixed (variable_declaration self))) (normalized_config self)));
          ("variables", variables_value (variable_declaration self));
          ("seed_policy", CString (seed_policy_str (seed_policy self)));
          ("metric", CString (metric_definition self));
          ("extractor", CString (metric_extractor_version self));
          ("multi_cas", CString (multi_cas_str (multi_cas_metric_policy self)));
          ("environment", CString (environment_fingerprint self))]%string ++ binding_entry self false))).

Definition is_declaration_only (self : ExperimentRun) : bool :=
  (observability self ==? RunObservability.Declared)
  && (execution_status self ==? RunExecutionStatus.Unknown)
  && (contract_validity self ==? RunContractValidity.Unknown)
  && is_empty (terminal_evidence_refs self) && is_none (started_at_us self) && is_none (ended_at_us self).

Definition is_controlled_declaration (self : ExperimentRun) : bool :=
  is_some (comparison_execution_binding self)
  && (observability self ==? RunObservability.Declared)
  && (execution_status self ==? RunExecutionStatus.Unknown)
  && (contract_validity self ==? RunContractValidity.Unknown)
  && is_empty (terminal_evidence_refs self) && is_some (started_at_us self) && is_none (ended_at_us self).

Definition is_terminal (status : RunExecutionStatus) : bool :=
  contains status [RunExecutionStatus.Completed; RunExecutionStatus.Failed; RunExecutionStatus.Interrupted].

(** The two long disjunctions of [validate]. *)
Definition malformed (self : ExperimentRun) : bool :=
  (created_at_us self <? 0)%Z
  || is_some_and (started_at_us self) (fun value => (value <? created_at_us self)%Z)
  || is_some_and (ended_at_us self) (fun value => (value <? default (created_at_us self) (started_at_us self))%Z)
  || is_empty (source_receipt_refs self)
  || negb (canonical_refs RUN_MAX_REFS (source_receipt_refs self))
  || negb (canonical_refs RUN_MAX_REFS (work_artifact_refs self))
  || negb (canonical_refs RUN_MAX_REFS (terminal_evidence_refs self))
  || (RUN_MAX_FIELDS <? length (normalized_config self))%nat
  || negb (all ContractField.valid (normalized_config self))
  || negb (config_ordered (normalized_config self))
  || negb (canonical_texts (seed_values self))
  || negb (run_optional_text (external_system_id self))
  || negb (run_optional_text (external_run_key self))
  || negb (run_text (data_fingerprint self))
  || negb (run_text (metric_definition self))
  || negb (run_text (metric_extractor_version self))
  || negb (run_text (environment_fingerprint self)).
Definition inconsistent (self : ExperimentRun) : bool :=
  (origin self ==? RunOrigin.External) && (is_none (external_system_id self) || is_none (external_run_key self))
  || (origin self ==? RunOrigin.Local) && (is_some (external_system_id self) || is_some (external_run_key self))
  || (attempt_binding_status self ==? AttemptBindingStatus.Resolved) && is_none (attempt_id self)
  || is_none (attempt_id self) && (attempt_binding_status self !=? AttemptBindingStatus.Unresolved)
  || nondeterministic self && negb (is_empty (seed_values self))
  || (seed_policy self ==? SeedPolicy.Fixed) && negb (length (seed_values self) =? 1)%nat
  || (seed_policy self ==? SeedPolicy.Enumerated) && is_empty (seed_values self)
  || contains (seed_policy self) [SeedPolicy.Randomized; SeedPolicy.Unspecified] && negb (is_empty (seed_values self))
  || negb (Bool.eqb (is_terminal (execution_status self)) (is_some (ended_at_us self)))
  || negb (is_empty (terminal_evidence_refs self)) && is_none (ended_at_us self).

Definition validate (self : ExperimentRun) : result WorkError unit :=
  do? validate_binding self in
  let? exact := recompute_exact_contract_fingerprint self in
  do? guard (experiment_contract_fingerprint self !=? exact) WorkError.InvalidAutoresearch in
  let? key := recompute_comparison_key self in
  do? guard (comparison_key self !=? key) WorkError.InvalidAutoresearch in
  do? guard (malformed self) WorkError.InvalidAutoresearch in
  do? VariableDeclaration.validate_against (variable_declaration self) (normalized_config self) in
  guard (inconsistent self) WorkError.InvalidAutoresearch.

Definition binding_progress (current next : ExperimentRun) : bool :=
  match attempt_binding_status current with
  | AttemptBindingStatus.Resolved =>
      (attempt_binding_status next ==? AttemptBindingStatus.Resolved) && (attempt_id current ==? attempt_id next)
  | AttemptBindingStatus.Provisional =>
      (attempt_binding_status next !=? AttemptBindingStatus.Unresolved) && (attempt_id current ==? attempt_id next)
  | AttemptBindingStatus.Unresolved =>
      (attempt_binding_status next !=? AttemptBindingStatus.Provisional)
      && (is_none (attempt_id current) || (attempt_id current ==? attempt_id next))
  end.

Definition immutable_equal (self next : ExperimentRun) : bool :=
  (run_id self ==? run_id next)
  && (parent_revision_id next ==? Some (revision_id self))
  && (workstream_id self ==? workstream_id next)
  && (strategy_contract_fingerprint self ==? strategy_contract_fingerprint next)
  && (origin self ==? origin next)
  && (external_system_id self ==? external_system_id next)
  && (external_run_key self ==? external_run_key next)
  && (experiment_contract_fingerprint self ==? experiment_contract_fingerprint next)
  && (code_snapshot_id self ==? code_snapshot_id next)
  && (data_fingerprint self ==? data_fingerprint next)
  && (normalized_config self ==? normalized_config next)
  && (variable_declaration self ==? variable_declaration next)
  && (comparison_key self ==? comparison_key next)
  && (seed_policy self ==? seed_policy next)
  && (seed_values self ==? seed_values next)
  && Bool.eqb (nondeterministic self) (nondeterministic next)
  && (metric_definition self ==? metric_definition next)
  && (metric_extractor_version self ==? metric_extractor_version next)
  && (multi_cas_metric_policy self ==? multi_cas_metric_policy next)
  && (environment_fingerprint self ==? environment_fingerprint next)
  && (comparison_execution_binding self ==? comparison_execution_binding next)
  && (created_at_us self <=? created_at_us next)%Z.
Definition evidence_progress (self next : ExperimentRun) : bool :=
  strict_superset (source_receipt_refs self) (source_receipt_refs next)
  || strict_superset (work_artifact_refs self) (work_artifact_refs next)
  || strict_superset (terminal_evidence_refs self) (terminal_evidence_refs next)
  || (attempt_binding_status self !=? attempt_binding_status next)
  || (observability self !=? observability next)
  || (execution_status self !=? execution_status next)
  || (contract_validity self !=? contract_validity next)
  || (ended_at_us self !=? ended_at_us next).

Definition validate_successor (self next : ExperimentRun) : result WorkError unit :=
  do? validate next in
  guard (negb (immutable_equal self next)
      || negb (contains_all (source_receipt_refs next) (source_receipt_refs self))
      || negb (contains_all (work_artifact_refs next) (work_artifact_refs self))
      || negb (contains_all (terminal_evidence_refs next) (terminal_evidence_refs self))
      || ltb_ord (observability next) (observability self)
      || negb (binding_progress self next)
      || negb (status_progress (execution_status self) (execution_status next))
      || negb (validity_progress (contract_validity self) (contract_validity next))
      || negb (evidence_progress self next)) WorkError.InvalidAutoresearchSuccessor.
End run.
End ExperimentRun.
Abbreviation ExperimentRun := ExperimentRun.ExperimentRun.
Export (hints) ExperimentRun.

(** ** What the host wrote about a controlled run *)

Module ControlledLaunch.
Record ControlledLaunch := mk {
  version : N;
  attempt_id : AttemptId;
  procedure_revision_id : RevisionId;
  code_snapshot_id : WorktreeSnapshotId;
  data_fingerprint : string;
  normalized_config : list ContractField;
  variable_declaration : VariableDeclaration;
  seed_policy : SeedPolicy;
  seed_values : list string;
  nondeterministic : bool;
  metric_definition : string;
  metric_extractor_version : string;
  multi_cas_metric_policy : MultiCasMetricPolicy;
  environment_fingerprint : string;
  binding : ComparisonExecutionBinding;
  started_at_us : Z;
}.
#[export] Instance eq_dec : EqDecision ControlledLaunch.
Proof. solve_decision. Defined.
End ControlledLaunch.
Abbreviation ControlledLaunch := ControlledLaunch.ControlledLaunch.
Export (hints) ControlledLaunch.
Module ControlledTerminal.
Record ControlledTerminal := mk {
  version : N;
  run_id : ExperimentRunId;
  ended_at_us : Z;
  metric : MetricValue;
  artifact_refs : list WorkArtifactId;
}.
#[export] Instance eq_dec : EqDecision ControlledTerminal.
Proof. solve_decision. Defined.
End ControlledTerminal.
Abbreviation ControlledTerminal := ControlledTerminal.ControlledTerminal.
Export (hints) ControlledTerminal.

Module ControlledRunSourceEnvelope.
Inductive ControlledRunSourceEnvelope := Launch (value : ControlledLaunch) | Terminal (value : ControlledTerminal).
#[export] Instance eq_dec : EqDecision ControlledRunSourceEnvelope.
Proof. solve_decision. Defined.

Definition validate_launch (self : ControlledLaunch) : result WorkError unit :=
  do? guard (negb (ControlledLaunch.version self =? CONTROLLED_SOURCE_VERSION)%N
      || (ControlledLaunch.started_at_us self <? 0)%Z
      || negb (run_text (ControlledLaunch.data_fingerprint self))
      || negb (run_text (ControlledLaunch.metric_definition self))
      || negb (run_text (ControlledLaunch.metric_extractor_version self))
      || negb (run_text (ControlledLaunch.environment_fingerprint self))
      || (RUN_MAX_FIELDS <? length (ControlledLaunch.normalized_config self))%nat
      || negb (all ContractField.valid (ControlledLaunch.normalized_config self))
      || negb (config_ordered (ControlledLaunch.normalized_config self))
      || negb (canonical_texts (ControlledLaunch.seed_values self))) WorkError.InvalidAutoresearch in
  do? VariableDeclaration.validate_against (ControlledLaunch.variable_declaration self) (ControlledLaunch.normalized_config self) in
  ComparisonExecutionBinding.validate (ControlledLaunch.binding self).
Definition validate_terminal (self : ControlledTerminal) : result WorkError unit :=
  do? guard (negb (ControlledTerminal.version self =? CONTROLLED_SOURCE_VERSION)%N
      || (ControlledTerminal.ended_at_us self <? 0)%Z
      || negb (canonical_refs RUN_MAX_REFS (ControlledTerminal.artifact_refs self))) WorkError.InvalidAutoresearch in
  map_err (fun _ => WorkError.InvalidAutoresearch) (MetricValue.validate (ControlledTerminal.metric self)).
Definition validate (self : ControlledRunSourceEnvelope) : result WorkError unit :=
  match self with Launch value => validate_launch value | Terminal value => validate_terminal value end.

(** [toml::from_str] and [toml::to_string]. *)
Section toml.
Context (from_toml : string -> option ControlledRunSourceEnvelope) (to_toml : ControlledRunSourceEnvelope -> option string).
Definition decode_canonical (bytes : list byte) : result WorkError ControlledRunSourceEnvelope :=
  let? text := ok_or (from_utf8 bytes) WorkError.InvalidAutoresearch in
  let? value := ok_or (from_toml text) WorkError.InvalidAutoresearch in
  do? validate value in
  let? again := ok_or (to_toml value) WorkError.InvalidAutoresearch in
  do? guard (as_bytes again !=? bytes) WorkError.InvalidAutoresearch in
  Ok value.
End toml.
End ControlledRunSourceEnvelope.
Abbreviation ControlledRunSourceEnvelope := ControlledRunSourceEnvelope.ControlledRunSourceEnvelope.
Export (hints) ControlledRunSourceEnvelope.

(** ** Artifacts *)

Module WorkArtifactKind.
Inductive WorkArtifactKind :=
| File
| Log
| Checkpoint
| DatasetManifest
| ExperimentOutput
| Manuscript
| Review
| Other.
#[export] Instance eq_dec : EqDecision WorkArtifactKind.
Proof. solve_decision. Defined.
End WorkArtifactKind.
Abbreviation WorkArtifactKind := WorkArtifactKind.WorkArtifactKind.
Export (hints) WorkArtifactKind.
Module ArtifactPayloadStatus.
Inductive ArtifactPayloadStatus :=
| Available
| MetadataOnly
| Unavailable
| SourcePurged
| Degraded.
#[export] Instance eq_dec : EqDecision ArtifactPayloadStatus.
Proof. solve_decision. Defined.
End ArtifactPayloadStatus.
Abbreviation ArtifactPayloadStatus := ArtifactPayloadStatus.ArtifactPayloadStatus.
Export (hints) ArtifactPayloadStatus.
Module ArtifactDerivability.
Inductive ArtifactDerivability :=
| Original
| Reproducible
| PartiallyReproducible
| Irreplaceable.
#[export] Instance eq_dec : EqDecision ArtifactDerivability.
Proof. solve_decision. Defined.
End ArtifactDerivability.
Abbreviation ArtifactDerivability := ArtifactDerivability.ArtifactDerivability.
Export (hints) ArtifactDerivability.
Module ArtifactRetention.
Inductive ArtifactRetention :=
| Ephemeral
| Task
| Repository
| Retained.
#[export] Instance eq_dec : EqDecision ArtifactRetention.
Proof. solve_decision. Defined.
End ArtifactRetention.
Abbreviation ArtifactRetention := ArtifactRetention.ArtifactRetention.
Export (hints) ArtifactRetention.
Module ArtifactScope.
Inductive ArtifactScope :=
| Task (task_id : TaskId)
| Worktree (repository_instance_id : RepositoryId) (worktree_instance_id : WorktreeId)
| Repository (repository_instance_id : RepositoryId)
| Global.
#[export] Instance eq_dec : EqDecision ArtifactScope.
Proof. solve_decision. Defined.
End ArtifactScope.
Abbreviation ArtifactScope := ArtifactScope.ArtifactScope.
Export (hints) ArtifactScope.
Module ArtifactActor.
Inductive ArtifactActor :=
| Operation (_ : OperationId)
| ExperimentRun (_ : ExperimentRunId)
| WorkEpisode (_ : WorkEpisodeId).
#[export] Instance eq_dec : EqDecision ArtifactActor.
Proof. solve_decision. Defined.
End ArtifactActor.
Abbreviation ArtifactActor := ArtifactActor.ArtifactActor.
Export (hints) ArtifactActor.

(** The derived order: by variant, then by identifier. *)
Definition actor_key (x : ArtifactActor) : N * Uuid :=
  match x with
  | ArtifactActor.Operation id => (0%N, as_uuid id)
  | ArtifactActor.ExperimentRun id => (1%N, as_uuid id)
  | ArtifactActor.WorkEpisode id => (2%N, as_uuid id)
  end.
Lemma actor_key_inj x y : actor_key x = actor_key y -> x = y.
Proof. destruct x, y; simpl; intros [=]; f_equal; by apply as_uuid_inj. Qed.
#[export] Instance ArtifactActor_ord : Ord ArtifactActor := Ord_by actor_key actor_key_inj.

Module ArtifactRevision.
Record ArtifactRevision := mk {
  revision_id : RevisionId;
  parent_revision_id : option RevisionId;
  kind : WorkArtifactKind;
  logical_name : string;
  scope : ArtifactScope;
  media_type : string;
  content_blob_ref : option CasId;
  external_reference : option string;
  content_fingerprint : option CasId;
  payload_status : ArtifactPayloadStatus;
  produced_by_refs : list ArtifactActor;
  consumed_by_refs : list ArtifactActor;
  source_observation_refs : list SourceObservationId;
  derivability : ArtifactDerivability;
  retention : ArtifactRetention;
  created_at_us : Z;
}.
#[export] Instance eq_dec : EqDecision ArtifactRevision.
Proof. solve_decision. Defined.
End ArtifactRevision.
Abbreviation ArtifactRevision := ArtifactRevision.ArtifactRevision.
Export (hints) ArtifactRevision.
Module WorkArtifact.
Record WorkArtifact := mk {
  work_artifact_id : WorkArtifactId;
  revision : ArtifactRevision;
}.
#[export] Instance eq_dec : EqDecision WorkArtifact.
Proof. solve_decision. Defined.
Definition content_shape (value : ArtifactRevision) : bool :=
  match ArtifactRevision.payload_status value with
  | ArtifactPayloadStatus.Available =>
      is_some (ArtifactRevision.content_blob_ref value)
      && (ArtifactRevision.content_fingerprint value ==? ArtifactRevision.content_blob_ref value)
  | ArtifactPayloadStatus.Degraded => ArtifactRevision.content_fingerprint value ==? ArtifactRevision.content_blob_ref value
  | ArtifactPayloadStatus.MetadataOnly | ArtifactPayloadStatus.Unavailable | ArtifactPayloadStatus.SourcePurged =>
      is_none (ArtifactRevision.content_blob_ref value) && is_none (ArtifactRevision.content_fingerprint value)
  end.

Definition validate (self : WorkArtifact) : result WorkError unit :=
  let value := revision self in
  guard ((ArtifactRevision.created_at_us value <? 0)%Z
      || negb (run_text (ArtifactRevision.logical_name value))
      || negb (run_text (ArtifactRevision.media_type value))
      || negb (run_optional_text (ArtifactRevision.external_reference value))
      || negb (canonical_refs RUN_MAX_REFS (ArtifactRevision.produced_by_refs value))
      || negb (canonical_refs RUN_MAX_REFS (ArtifactRevision.consumed_by_refs value))
      || negb (canonical_refs RUN_MAX_REFS (ArtifactRevision.source_observation_refs value))
      || is_empty (ArtifactRevision.produced_by_refs value) && is_empty (ArtifactRevision.source_observation_refs value)
      || (ArtifactRevision.payload_status value ==? ArtifactPayloadStatus.SourcePurged)
         && (is_none (ArtifactRevision.parent_revision_id value) || is_empty (ArtifactRevision.source_observation_refs value))
      || negb (content_shape value)) WorkError.InvalidAutoresearch.

Definition progress (current successor : ArtifactRevision) : bool :=
  (ArtifactRevision.content_blob_ref current !=? ArtifactRevision.content_blob_ref successor)
  || (ArtifactRevision.external_reference current !=? ArtifactRevision.external_reference successor)
  || (ArtifactRevision.content_fingerprint current !=? ArtifactRevision.content_fingerprint successor)
  || (ArtifactRevision.payload_status current !=? ArtifactRevision.payload_status successor)
  || (ArtifactRevision.consumed_by_refs current !=? ArtifactRevision.consumed_by_refs successor)
  || (ArtifactRevision.source_observation_refs current !=? ArtifactRevision.source_observation_refs successor).

Definition validate_successor (self next : WorkArtifact) : result WorkError unit :=
  do? validate next in
  let current := revision self in
  let successor := revision next in
  guard ((work_artifact_id self !=? work_artifact_id next)
      || (ArtifactRevision.parent_revision_id successor !=? Some (ArtifactRevision.revision_id current))
      || (ArtifactRevision.kind current !=? ArtifactRevision.kind successor)
      || (ArtifactRevision.logical_name current !=? ArtifactRevision.logical_name successor)
      || (ArtifactRevision.scope current !=? ArtifactRevision.scope successor)
      || (ArtifactRevision.media_type current !=? ArtifactRevision.media_type successor)
      || (ArtifactRevision.produced_by_refs current !=? ArtifactRevision.produced_by_refs successor)
      || (ArtifactRevision.derivability current !=? ArtifactRevision.derivability successor)
      || (ArtifactRevision.retention current !=? ArtifactRevision.retention successor)
      || (ArtifactRevision.created_at_us successor <? ArtifactRevision.created_at_us current)%Z
      || negb (contains_all (ArtifactRevision.consumed_by_refs successor) (ArtifactRevision.consumed_by_refs current))
      || negb (contains_all (ArtifactRevision.source_observation_refs successor) (ArtifactRevision.source_observation_refs current))
      || (ArtifactRevision.payload_status current ==? ArtifactPayloadStatus.SourcePurged)
         && (ArtifactRevision.payload_status successor !=? ArtifactPayloadStatus.SourcePurged)
      || negb (progress current successor)) WorkError.InvalidAutoresearchSuccessor.
End WorkArtifact.
Abbreviation WorkArtifact := WorkArtifact.WorkArtifact.
Export (hints) WorkArtifact.
