(* ===== verification/Usage.v ===== *)
(** * Uses of a procedure (crates/evertrace-domain/src/procedure/usage.rs)

    A learned procedure that was offered to an agent is followed through its use: from
    being eligible to a supported outcome, revision by revision; and when the attempt
    that used it failed, the failure is classified, recorded as negative evidence and
    reviewed. *)

From S2P Require Import Prelude Order Collections Text Ids Lane Attempt Constraint Autoresearch.

Definition USAGE_MAX_REFS : nat := 64.
Definition USAGE_MAX_TEXT : N := 4096.

Definition usage_text (value : string) : bool :=
  negb (is_empty (trim value)) && (str_len value <=? USAGE_MAX_TEXT)%N && negb (any is_control (chars value)).
Definition usage_texts (values : list string) : bool :=
  (length values <=? USAGE_MAX_REFS)%nat && windows2_all ltb_ord values && all usage_text values.
Definition usage_ids {A} `{!Ord A} (values : list A) : bool :=
  (length values <=? USAGE_MAX_REFS)%nat && windows2_all ltb_ord values.

Module ProcedureCorrelationState.
Inductive ProcedureCorrelationState :=
| Resolved
| Ambiguous
| Conflicted.
#[export] Instance eq_dec : EqDecision ProcedureCorrelationState.
Proof. solve_decision. Defined.
Definition rank (x : ProcedureCorrelationState) : N :=
  match x with
  | Resolved => 0
  | Ambiguous => 1
  | Conflicted => 2
  end.
Lemma ProcedureCorrelationState_rank_inj x y : rank x = rank y -> x = y.
Proof. by destruct x, y. Qed.
#[export] Instance ord : Ord ProcedureCorrelationState := Ord_by rank ProcedureCorrelationState_rank_inj.
End ProcedureCorrelationState.
Abbreviation ProcedureCorrelationState := ProcedureCorrelationState.ProcedureCorrelationState.
Export (hints) ProcedureCorrelationState.
Module ProcedureTruth.
Inductive ProcedureTruth :=
| False_
| Unknown
| True_
| Ambiguous.
#[export] Instance eq_dec : EqDecision ProcedureTruth.
Proof. solve_decision. Defined.
Definition rank (x : ProcedureTruth) : N :=
  match x with
  | False_ => 0
  | Unknown => 1
  | True_ => 2
  | Ambiguous => 3
  end.
Lemma ProcedureTruth_rank_inj x y : rank x = rank y -> x = y.
Proof. by destruct x, y. Qed.
#[export] Instance ord : Ord ProcedureTruth := Ord_by rank ProcedureTruth_rank_inj.
End ProcedureTruth.
Abbreviation ProcedureTruth := ProcedureTruth.ProcedureTruth.
Export (hints) ProcedureTruth.
Module ProcedureUsageStage.
Inductive ProcedureUsageStage :=
| Eligible
| Routed
| Returned
| Claimed
| Adopted
| StageAligned
| Action
| Completion
| Outcome.
#[export] Instance eq_dec : EqDecision ProcedureUsageStage.
Proof. solve_decision. Defined.
Definition rank (x : ProcedureUsageStage) : N :=
  match x with
  | Eligible => 0
  | Routed => 1
  | Returned => 2
  | Claimed => 3
  | Adopted => 4
  | StageAligned => 5
  | Action => 6
  | Completion => 7
  | Outcome => 8
  end.
Lemma ProcedureUsageStage_rank_inj x y : rank x = rank y -> x = y.
Proof. by destruct x, y. Qed.
#[export] Instance ord : Ord ProcedureUsageStage := Ord_by rank ProcedureUsageStage_rank_inj.
End ProcedureUsageStage.
Abbreviation ProcedureUsageStage := ProcedureUsageStage.ProcedureUsageStage.
Export (hints) ProcedureUsageStage.
Module ProcedureUsageRouteDecision.
Inductive ProcedureUsageRouteDecision :=
| Defer
| Apply.
#[export] Instance eq_dec : EqDecision ProcedureUsageRouteDecision.
Proof. solve_decision. Defined.
Definition rank (x : ProcedureUsageRouteDecision) : N :=
  match x with
  | Defer => 0
  | Apply => 1
  end.
Lemma ProcedureUsageRouteDecision_rank_inj x y : rank x = rank y -> x = y.
Proof. by destruct x, y. Qed.
#[export] Instance ord : Ord ProcedureUsageRouteDecision := Ord_by rank ProcedureUsageRouteDecision_rank_inj.
End ProcedureUsageRouteDecision.
Abbreviation ProcedureUsageRouteDecision := ProcedureUsageRouteDecision.ProcedureUsageRouteDecision.
Export (hints) ProcedureUsageRouteDecision.
Module ProcedureUsagePhase.
Inductive ProcedureUsagePhase :=
| BeforeEntry
| AtEntry
| InProgress
| RecoverableDeviation
| AlreadyCompleted
| Incompatible.
#[export] Instance eq_dec : EqDecision ProcedureUsagePhase.
Proof. solve_decision. Defined.
Definition rank (x : ProcedureUsagePhase) : N :=
  match x with
  | BeforeEntry => 0
  | AtEntry => 1
  | InProgress => 2
  | RecoverableDeviation => 3
  | AlreadyCompleted => 4
  | Incompatible => 5
  end.
Lemma ProcedureUsagePhase_rank_inj x y : rank x = rank y -> x = y.
Proof. by destruct x, y. Qed.
#[export] Instance ord : Ord ProcedureUsagePhase := Ord_by rank ProcedureUsagePhase_rank_inj.
End ProcedureUsagePhase.
Abbreviation ProcedureUsagePhase := ProcedureUsagePhase.ProcedureUsagePhase.
Export (hints) ProcedureUsagePhase.

Definition truth_progress (current next : ProcedureTruth) : bool :=
  (current !=? ProcedureTruth.True_) || (next ==? ProcedureTruth.True_).

Module ProcedureLocalContext.
Record ProcedureLocalContext := mk {
  repository_id : option RepositoryId;
  worktree_id : option WorktreeId;
  phase : ProcedureUsagePhase;
  failure_signature : option string;
}.
#[export] Instance eq_dec : EqDecision ProcedureLocalContext.
Proof. solve_decision. Defined.
Definition validate (self : ProcedureLocalContext) : bool :=
  (is_none (worktree_id self) || is_some (repository_id self)) && is_none_or (failure_signature self) usage_text.
Definition compatible (self other : ProcedureLocalContext) : bool :=
  (repository_id self ==? repository_id other) && (worktree_id self ==? worktree_id other)
  && (phase self ==? phase other) && (failure_signature self ==? failure_signature other).
End ProcedureLocalContext.
Abbreviation ProcedureLocalContext := ProcedureLocalContext.ProcedureLocalContext.
Export (hints) ProcedureLocalContext.

(** [u32] addition as a release build does it. *)
Definition wrapping_add_u32 (a b : N) : N := (a + b) mod (U32_MAX + 1).

Module ProcedureUsageRevision.
Record ProcedureUsageRevision := mk {
  procedure_usage_id : ProcedureUsageId;
  usage_revision_id : RevisionId;
  predecessor_revision_id : option RevisionId;
  revision_generation : N;
  procedure_revision_id : RevisionId;
  task_id : TaskId;
  workstream_id : WorkstreamId;
  exposure_episode_revision_id : RevisionId;
  decision_boundary_ref : string;
  route_decision : ProcedureUsageRouteDecision;
  stage : ProcedureUsageStage;
  attempt_ids : list AttemptId;
  action_episode_revision_ids : list RevisionId;
  verification_episode_revision_ids : list RevisionId;
  action_operation_refs : list OperationId;
  verification_operation_refs : list OperationId;
  work_binding_revision_refs : list WorkBindingRevisionId;
  scope_effect_refs : list ScopeEffectId;
  correlation_state : ProcedureCorrelationState;
  eligible : ProcedureTruth;
  action_aligned : ProcedureTruth;
  verifier_aligned : ProcedureTruth;
  outcome_supported : ProcedureTruth;
  local_context : ProcedureLocalContext;
  source_watermark : N;
  evidence_refs : list string;
  created_at_us : Z;
}.
#[export] Instance eq_dec : EqDecision ProcedureUsageRevision.
Proof. solve_decision. Defined.
Definition accepts_adopted_attempt `{L : UuidLib} (self : ProcedureUsageRevision) (attempt : Attempt) : bool :=
  (Attempt.task_id attempt ==? task_id self)
  && (Attempt.workstream_id attempt ==? workstream_id self)
  && (StrategyContract.search_policy_ref (Attempt.strategy_contract attempt) ==? Some (rid_display (procedure_revision_id self)))
  && (StrategyContract.acceptance_boundary_ref (Attempt.strategy_contract attempt) ==? decision_boundary_ref self)
  && contains (Attempt.adoption_status attempt)
       [AttemptAdoptionStatus.Selected; AttemptAdoptionStatus.PartiallyIntegrated; AttemptAdoptionStatus.Integrated].

(** The stage against the route and the truths. *)
Definition staged (self : ProcedureUsageRevision) : bool :=
  ((route_decision self !=? ProcedureUsageRouteDecision.Defer) || leb_ord (stage self) ProcedureUsageStage.Returned)
  && (leb_ord ProcedureUsageStage.Action (stage self) || (action_aligned self !=? ProcedureTruth.True_))
  && (leb_ord ProcedureUsageStage.Completion (stage self) || (verifier_aligned self !=? ProcedureTruth.True_))
  && ((stage self ==? ProcedureUsageStage.Outcome) || (outcome_supported self !=? ProcedureTruth.True_))
  && ((outcome_supported self !=? ProcedureTruth.True_)
      || (action_aligned self ==? ProcedureTruth.True_) && (verifier_aligned self ==? ProcedureTruth.True_)
         && (correlation_state self ==? ProcedureCorrelationState.Resolved)).

Definition validate (self : ProcedureUsageRevision) : bool :=
  (0 <? revision_generation self)%N
  && Bool.eqb (revision_generation self =? 1)%N (is_none (predecessor_revision_id self))
  && usage_text (decision_boundary_ref self)
  && (0 <? source_watermark self)%N
  && (0 <=? created_at_us self)%Z
  && ProcedureLocalContext.validate (local_context self)
  && usage_ids (attempt_ids self)
  && usage_ids (action_episode_revision_ids self)
  && usage_ids (verification_episode_revision_ids self)
  && usage_ids (action_operation_refs self)
  && usage_ids (verification_operation_refs self)
  && usage_ids (work_binding_revision_refs self)
  && usage_ids (scope_effect_refs self)
  && negb (is_empty (evidence_refs self))
  && usage_texts (evidence_refs self)
  && staged self.

Definition validate_successor (self next : ProcedureUsageRevision) : bool :=
  validate self && validate next
  && (procedure_usage_id self ==? procedure_usage_id next)
  && (procedure_revision_id self ==? procedure_revision_id next)
  && (task_id self ==? task_id next)
  && (workstream_id self ==? workstream_id next)
  && (exposure_episode_revision_id self ==? exposure_episode_revision_id next)
  && (decision_boundary_ref self ==? decision_boundary_ref next)
  && (route_decision self ==? route_decision next)
  && (local_context self ==? local_context next)
  && (predecessor_revision_id next ==? Some (usage_revision_id self))
  && (revision_generation next =? wrapping_add_u32 (revision_generation self) 1)%N
  && leb_ord (stage self) (stage next)
  && (source_watermark self <=? source_watermark next)%N
  && (created_at_us self <=? created_at_us next)%Z
  && retains (attempt_ids self) (attempt_ids next)
  && retains (action_episode_revision_ids self) (action_episode_revision_ids next)
  && retains (verification_episode_revision_ids self) (verification_episode_revision_ids next)
  && retains (action_operation_refs self) (action_operation_refs next)
  && retains (verification_operation_refs self) (verification_operation_refs next)
  && retains (work_binding_revision_refs self) (work_binding_revision_refs next)
  && retains (scope_effect_refs self) (scope_effect_refs next)
  && retains (evidence_refs self) (evidence_refs next)
  && truth_progress (eligible self) (eligible next)
  && truth_progress (action_aligned self) (action_aligned next)
  && truth_progress (verifier_aligned self) (verifier_aligned next)
  && truth_progress (outcome_supported self) (outcome_supported next).
End ProcedureUsageRevision.
Abbreviation ProcedureUsageRevision := ProcedureUsageRevision.ProcedureUsageRevision.
Export (hints) ProcedureUsageRevision.

(** ** Negative evidence *)

Module ProcedureNegativeLevel.
Inductive ProcedureNegativeLevel :=
| Ineffective
| SuspectedHarm
| ConfirmedHarm.
#[export] Instance eq_dec : EqDecision ProcedureNegativeLevel.
Proof. solve_decision. Defined.
Definition rank (x : ProcedureNegativeLevel) : N :=
  match x with
  | Ineffective => 0
  | SuspectedHarm => 1
  | ConfirmedHarm => 2
  end.
Lemma ProcedureNegativeLevel_rank_inj x y : rank x = rank y -> x = y.
Proof. by destruct x, y. Qed.
#[export] Instance ord : Ord ProcedureNegativeLevel := Ord_by rank ProcedureNegativeLevel_rank_inj.
End ProcedureNegativeLevel.
Abbreviation ProcedureNegativeLevel := ProcedureNegativeLevel.ProcedureNegativeLevel.
Export (hints) ProcedureNegativeLevel.
Module ProcedureAttributionBasis.
Inductive ProcedureAttributionBasis :=
| NoAdditionalHarm
| ResolvedLocalized
| ContextUnbounded
| CrossContextRepeated
| ReplayInvariantViolation.
#[export] Instance eq_dec : EqDecision ProcedureAttributionBasis.
Proof. solve_decision. Defined.
Definition rank (x : ProcedureAttributionBasis) : N :=
  match x with
  | NoAdditionalHarm => 0
  | ResolvedLocalized => 1
  | ContextUnbounded => 2
  | CrossContextRepeated => 3
  | ReplayInvariantViolation => 4
  end.
Lemma ProcedureAttributionBasis_rank_inj x y : rank x = rank y -> x = y.
Proof. by destruct x, y. Qed.
#[export] Instance ord : Ord ProcedureAttributionBasis := Ord_by rank ProcedureAttributionBasis_rank_inj.
End ProcedureAttributionBasis.
Abbreviation ProcedureAttributionBasis := ProcedureAttributionBasis.ProcedureAttributionBasis.
Export (hints) ProcedureAttributionBasis.
Module ProcedureNegativeDecisionSource.
Inductive ProcedureNegativeDecisionSource :=
| AttemptNoSupportedOutcome
| AdoptedAttemptFailed
| TypedReplayInvariant.
#[export] Instance eq_dec : EqDecision ProcedureNegativeDecisionSource.
Proof. solve_decision. Defined.
Definition rank (x : ProcedureNegativeDecisionSource) : N :=
  match x with
  | AttemptNoSupportedOutcome => 0
  | AdoptedAttemptFailed => 1
  | TypedReplayInvariant => 2
  end.
Lemma ProcedureNegativeDecisionSource_rank_inj x y : rank x = rank y -> x = y.
Proof. by destruct x, y. Qed.
#[export] Instance ord : Ord ProcedureNegativeDecisionSource := Ord_by rank ProcedureNegativeDecisionSource_rank_inj.
End ProcedureNegativeDecisionSource.
Abbreviation ProcedureNegativeDecisionSource := ProcedureNegativeDecisionSource.ProcedureNegativeDecisionSource.
Export (hints) ProcedureNegativeDecisionSource.
Module ProcedureNegativeReviewStatus.
Inductive ProcedureNegativeReviewStatus :=
| Pending
| Upheld
| Dismissed
| Superseded.
#[export] Instance eq_dec : EqDecision ProcedureNegativeReviewStatus.
Proof. solve_decision. Defined.
Definition rank (x : ProcedureNegativeReviewStatus) : N :=
  match x with
  | Pending => 0
  | Upheld => 1
  | Dismissed => 2
  | Superseded => 3
  end.
Lemma ProcedureNegativeReviewStatus_rank_inj x y : rank x = rank y -> x = y.
Proof. by destruct x, y. Qed.
#[export] Instance ord : Ord ProcedureNegativeReviewStatus := Ord_by rank ProcedureNegativeReviewStatus_rank_inj.
End ProcedureNegativeReviewStatus.
Abbreviation ProcedureNegativeReviewStatus := ProcedureNegativeReviewStatus.ProcedureNegativeReviewStatus.
Export (hints) ProcedureNegativeReviewStatus.
Module ProcedureNegativeFact.
Inductive ProcedureNegativeFact :=
| Ineffective
| AdoptedAttemptFailed
| ReplayInvariantViolation.
#[export] Instance eq_dec : EqDecision ProcedureNegativeFact.
Proof. solve_decision. Defined.
End ProcedureNegativeFact.
Abbreviation ProcedureNegativeFact := ProcedureNegativeFact.ProcedureNegativeFact.
Export (hints) ProcedureNegativeFact.
Module ProcedureNegativeClassification.
Record ProcedureNegativeClassification := mk {
  level : ProcedureNegativeLevel;
  attribution_basis : ProcedureAttributionBasis;
  decision_source : ProcedureNegativeDecisionSource;
  localized : bool;
}.
#[export] Instance eq_dec : EqDecision ProcedureNegativeClassification.
Proof. solve_decision. Defined.
End ProcedureNegativeClassification.
Abbreviation ProcedureNegativeClassification := ProcedureNegativeClassification.ProcedureNegativeClassification.
Export (hints) ProcedureNegativeClassification.

Definition derive_negative_classification (fact : ProcedureNegativeFact) (localizable cross_context_repeated : bool)
    : ProcedureNegativeClassification :=
  match fact with
  | ProcedureNegativeFact.ReplayInvariantViolation =>
      ProcedureNegativeClassification.mk ProcedureNegativeLevel.ConfirmedHarm
        ProcedureAttributionBasis.ReplayInvariantViolation ProcedureNegativeDecisionSource.TypedReplayInvariant false
  | ProcedureNegativeFact.Ineffective =>
      ProcedureNegativeClassification.mk ProcedureNegativeLevel.Ineffective
        ProcedureAttributionBasis.NoAdditionalHarm ProcedureNegativeDecisionSource.AttemptNoSupportedOutcome false
  | ProcedureNegativeFact.AdoptedAttemptFailed =>
      if cross_context_repeated then
        ProcedureNegativeClassification.mk ProcedureNegativeLevel.SuspectedHarm
          ProcedureAttributionBasis.CrossContextRepeated ProcedureNegativeDecisionSource.AdoptedAttemptFailed false
      else if localizable then
        ProcedureNegativeClassification.mk ProcedureNegativeLevel.SuspectedHarm
          ProcedureAttributionBasis.ResolvedLocalized ProcedureNegativeDecisionSource.AdoptedAttemptFailed true
      else
        ProcedureNegativeClassification.mk ProcedureNegativeLevel.SuspectedHarm
          ProcedureAttributionBasis.ContextUnbounded ProcedureNegativeDecisionSource.AdoptedAttemptFailed false
  end.

(** Evidence references that are verifications or outcomes of the attempt, an outcome among them. *)
Definition evidence_tied (attempt : Attempt) (evidence_refs : list string) : bool :=
  any (fun reference => contains reference (Attempt.outcome_refs attempt)) evidence_refs
  && all (fun reference => contains reference (Attempt.parent_verification_refs attempt)
                           || contains reference (Attempt.outcome_refs attempt)) evidence_refs.
Definition verifier_passed (result : ResultEvidence) : bool :=
  is_some_and (ResultEvidence.verifier_receipt result) (fun receipt => VerifierReceipt.status receipt ==? VerifierStatus.Passed).

Definition classify_negative_fact (usage : ProcedureUsageRevision) (attempt : Attempt) (evidence_refs : list string)
    (results : list ResultEvidence) : option ProcedureNegativeFact :=
  let has_verification := any (fun reference => contains reference (Attempt.parent_verification_refs attempt)) evidence_refs in
  let tied := evidence_tied attempt evidence_refs in
  if (Attempt.verification attempt ==? AttemptVerification.Failed) && has_verification && tied
     && all (fun result => ResultEvidence.failure result
               ==? Some (ResultFailure.Verifier VerifierFailureCode.DeterministicReparseMismatch)) results
  then Some ProcedureNegativeFact.ReplayInvariantViolation
  else if (Attempt.verification attempt ==? AttemptVerification.Passed)
     && (ProcedureUsageRevision.outcome_supported usage !=? ProcedureTruth.True_) && tied
     && all (fun result => is_none (ResultEvidence.failure result) && verifier_passed result) results
  then Some ProcedureNegativeFact.Ineffective
  else if (Attempt.verification attempt ==? AttemptVerification.Failed)
     && (Attempt.execution_status attempt !=? AttemptExecutionStatus.Interrupted)
     && is_some (Attempt.failure_signature attempt) && has_verification && tied
     && all (fun result => is_none (ResultEvidence.failure result) && negb (verifier_passed result)) results
  then Some ProcedureNegativeFact.AdoptedAttemptFailed
  else None.

Module ProcedureNegativeEvidence.
Record ProcedureNegativeEvidence := mk {
  negative_evidence_id : ProcedureNegativeEvidenceId;
  level : ProcedureNegativeLevel;
  procedure_revision_id : RevisionId;
  procedure_usage_id : ProcedureUsageId;
  task_id : TaskId;
  session_id : string;
  evidence_refs : list string;
  observed_effect : string;
  expected_effect : string;
  confounders : list string;
  attribution_basis : ProcedureAttributionBasis;
  decision_source : ProcedureNegativeDecisionSource;
  local_context : option ProcedureLocalContext;
  created_at_us : Z;
}.
#[export] Instance eq_dec : EqDecision ProcedureNegativeEvidence.
Proof. solve_decision. Defined.
(** The level against its basis, source, context and confounders. *)
Definition attributed (self : ProcedureNegativeEvidence) : bool :=
  match level self with
  | ProcedureNegativeLevel.Ineffective =>
      (attribution_basis self ==? ProcedureAttributionBasis.NoAdditionalHarm)
      && (decision_source self ==? ProcedureNegativeDecisionSource.AttemptNoSupportedOutcome)
      && is_none (local_context self) && is_empty (confounders self)
  | ProcedureNegativeLevel.SuspectedHarm =>
      contains (attribution_basis self)
        [ProcedureAttributionBasis.ResolvedLocalized; ProcedureAttributionBasis.ContextUnbounded;
         ProcedureAttributionBasis.CrossContextRepeated]
      && (decision_source self ==? ProcedureNegativeDecisionSource.AdoptedAttemptFailed)
      && negb (is_empty (confounders self))
  | ProcedureNegativeLevel.ConfirmedHarm =>
      (attribution_basis self ==? ProcedureAttributionBasis.ReplayInvariantViolation)
      && (decision_source self ==? ProcedureNegativeDecisionSource.TypedReplayInvariant)
  end
  && Bool.eqb (attribution_basis self ==? ProcedureAttributionBasis.ResolvedLocalized) (is_some (local_context self)).
Definition validate (self : ProcedureNegativeEvidence) : bool :=
  usage_text (session_id self) && negb (is_empty (evidence_refs self)) && usage_texts (evidence_refs self)
  && usage_text (observed_effect self) && usage_text (expected_effect self) && usage_texts (confounders self)
  && (0 <=? created_at_us self)%Z && is_none_or (local_context self) ProcedureLocalContext.validate
  && attributed self.
End ProcedureNegativeEvidence.
Abbreviation ProcedureNegativeEvidence := ProcedureNegativeEvidence.ProcedureNegativeEvidence.
Export (hints) ProcedureNegativeEvidence.

Module ProcedureNegativeReviewEvent.
Record ProcedureNegativeReviewEvent := mk {
  review_event_id : RevisionId;
  negative_evidence_id : ProcedureNegativeEvidenceId;
  predecessor_review_event_id : option RevisionId;
  review_generation : N;
  status : ProcedureNegativeReviewStatus;
  successor_usage_revision_id : option RevisionId;
  reason : string;
  evidence_refs : list string;
  created_at_us : Z;
}.
#[export] Instance eq_dec : EqDecision ProcedureNegativeReviewEvent.
Proof. solve_decision. Defined.
Definition validate (self : ProcedureNegativeReviewEvent) : bool :=
  (0 <? review_generation self)%N
  && Bool.eqb (review_generation self =? 1)%N (is_none (predecessor_review_event_id self))
  && (negb (review_generation self =? 1)%N || (status self ==? ProcedureNegativeReviewStatus.Pending))
  && Bool.eqb (status self ==? ProcedureNegativeReviewStatus.Superseded) (is_some (successor_usage_revision_id self))
  && usage_text (reason self) && negb (is_empty (evidence_refs self)) && usage_texts (evidence_refs self)
  && (0 <=? created_at_us self)%Z.
End ProcedureNegativeReviewEvent.
Abbreviation ProcedureNegativeReviewEvent := ProcedureNegativeReviewEvent.ProcedureNegativeReviewEvent.
Export (hints) ProcedureNegativeReviewEvent.
