(* ===== verification/AutoresearchStore.v ===== *)
(** * The store's experiment records (crates/evertrace-store/src/projections/autoresearch.rs)

    Runs, results and artifacts are recorded revision by revision; the current
    revisions are rebuilt from all of them by following the chain of parents; and the
    relations between them, and to the work they belong to, are checked.  The three
    recorders and the three chains differ only in the record they are about: they are
    instances of one definition over the interface [Revisioned].

    The revisions of one object form a chain; recording keeps, for every object, its
    chain and the last of it; and rebuilding from all revisions in any order finds the
    same current revisions. *)

From S2P Require Import Prelude Order Collections OrderedMap Text Canonical Ids Lane Journal Attempt JournalRows Repository Work Constraint Evidence Recovery Episode Autoresearch.

(** ** Chains of revisions *)

(** A record kept revision by revision: [shape] is what every recorded revision must
    have, [root_shape] what the first of a rebuilt chain must have. *)
Class Revisioned (K V : Type) := {
  object_id : V -> K;
  revision_of : V -> RevisionId;
  parent_of : V -> option RevisionId;
  valid : V -> bool;
  valid_successor : V -> V -> bool;
  shape : V -> bool;
  root_shape : V -> bool;
}.

Section chains.
Context {K V : Type} `{!Ord K, !EqDecision K, !EqDecision V} {R : Revisioned K V}.

Definition Current : Type := list (K * (V * N)).
Definition Revisions : Type := list (RevisionId * (V * N)).

(** The one element a predicate holds of, and the others; nothing when there is not
    exactly one. *)
Fixpoint remove_first (p : V * N -> bool) (l : list (V * N)) : option ((V * N) * list (V * N)) :=
  match l with
  | [] => None
  | e :: r =>
      if p e then Some (e, r)
      else match remove_first p r with Some (x, rest) => Some (x, e :: rest) | None => None end
  end.
Definition remove_unique (p : V * N -> bool) (l : list (V * N)) : option ((V * N) * list (V * N)) :=
  if (length (List.filter p l) =? 1)%nat then remove_first p l else None.

(** The loop while revisions remain; each round removes one. *)
Fixpoint follow_chain (fuel : nat) (current : V * N) (values : list (V * N)) : result StoreError (V * N) :=
  match fuel, values with
  | _, [] => Ok current
  | O, _ => Ok current
  | S fuel, _ =>
      let? next := ok_or (remove_unique (fun e => parent_of e.1 ==? Some (revision_of current.1)) values)
        StoreError.StoreCorrupt in
      do? guard (negb (valid_successor current.1 next.1.1)) StoreError.StoreCorrupt in
      do? guard (negb (shape next.1.1)) StoreError.StoreCorrupt in
      follow_chain fuel next.1 next.2
  end.
Definition fold_chain (values : list (V * N)) : result StoreError (V * N) :=
  let? root := ok_or (remove_unique (fun e => is_none (parent_of e.1)) values) StoreError.StoreCorrupt in
  do? guard (negb (valid root.1.1)) StoreError.StoreCorrupt in
  do? guard (negb (root_shape root.1.1)) StoreError.StoreCorrupt in
  follow_chain (length values) root.1 root.2.

(** All revisions, by the object they are of. *)
Definition grouped (revisions : Revisions) : list (K * list (V * N)) :=
  group_by (fun e => Some (object_id e.1)) revisions.*2.
Fixpoint rebuild_groups (groups : list (K * list (V * N))) (current : Current) : result StoreError Current :=
  match groups with
  | [] => Ok current
  | (id, values) :: groups =>
      let? last := fold_chain values in rebuild_groups groups (bmap_insert id last current)
  end.
Definition rebuild (revisions : Revisions) : result StoreError Current := rebuild_groups (grouped revisions) [].

(** [revisions] are kept by the view that is rebuilt, not by the one that is only read. *)
Definition record (current : Current) (revisions : option Revisions) (value : V) (seq : N) (error : StoreError)
    : result StoreError (Current * option Revisions) :=
  do? guard (negb (shape value)) error in
  let existing := bmap_get (object_id value) current in
  if is_some_and existing (fun e => e.1 ==? value) then Ok (current, revisions) else
  do? (match existing with
       | Some (existing, _) => guard (negb (valid_successor existing value)) error
       | None => do? guard (is_some (parent_of value)) error in guard (negb (valid value)) error
       end) in
  let? revisions :=
    match revisions with
    | None => Ok None
    | Some revisions =>
        do? guard (is_some (bmap_get (revision_of value) revisions)) error in
        Ok (Some (bmap_insert (revision_of value) (value, seq) revisions))
    end in
  Ok (bmap_insert (object_id value) (value, seq) current, revisions).
End chains.

Section store.
Context `{L : UuidLib} `{SHA : Sha256}.

Definition allowed_run_shape (value : ExperimentRun) : bool :=
  ExperimentRun.is_declaration_only value
  || ExperimentRun.is_controlled_declaration value
  || is_some (ExperimentRun.comparison_execution_binding value)
     && (ExperimentRun.observability value ==? RunObservability.Full)
     && (ExperimentRun.execution_status value ==? RunExecutionStatus.Completed)
     && (ExperimentRun.contract_validity value ==? RunContractValidity.Valid).

#[export] Instance run_revisions : Revisioned ExperimentRunId ExperimentRun := {|
  object_id := ExperimentRun.run_id;
  revision_of := ExperimentRun.revision_id;
  parent_of := ExperimentRun.parent_revision_id;
  valid value := is_ok (ExperimentRun.validate value);
  valid_successor value next := is_ok (ExperimentRun.validate_successor value next);
  shape := allowed_run_shape;
  root_shape value := ExperimentRun.is_declaration_only value || ExperimentRun.is_controlled_declaration value;
|}.
#[export] Instance result_revisions : Revisioned ResultEvidenceId ResultEvidence := {|
  object_id := ResultEvidence.result_evidence_id;
  revision_of := ResultEvidence.revision_id;
  parent_of := ResultEvidence.parent_revision_id;
  valid value := is_ok (ResultEvidence.validate value);
  valid_successor value next := is_ok (ResultEvidence.validate_successor value next);
  shape _ := true;
  root_shape _ := true;
|}.
#[export] Instance artifact_revisions : Revisioned WorkArtifactId WorkArtifact := {|
  object_id := WorkArtifact.work_artifact_id;
  revision_of value := ArtifactRevision.revision_id (WorkArtifact.revision value);
  parent_of value := ArtifactRevision.parent_revision_id (WorkArtifact.revision value);
  valid value := is_ok (WorkArtifact.validate value);
  valid_successor value next := is_ok (WorkArtifact.validate_successor value next);
  shape _ := true;
  root_shape _ := true;
|}.

Definition RunMap : Type := Current (K := ExperimentRunId) (V := ExperimentRun).
Definition RunRevisions : Type := Revisions (V := ExperimentRun).
Definition ResultMap : Type := Current (K := ResultEvidenceId) (V := ResultEvidence).
Definition ArtifactMap : Type := Current (K := WorkArtifactId) (V := WorkArtifact).

Definition fold_run_chain (values : list (ExperimentRun * N)) := fold_chain values.
Definition fold_result_chain (values : list (ResultEvidence * N)) := fold_chain values.
Definition fold_artifact_chain (values : list (WorkArtifact * N)) := fold_chain values.
Definition rebuild_runs (revisions : RunRevisions) : result StoreError RunMap := rebuild revisions.
Definition rebuild_results (revisions : Revisions) : result StoreError ResultMap := rebuild revisions.
Definition rebuild_artifacts (revisions : Revisions) : result StoreError ArtifactMap := rebuild revisions.
Definition record_run (current : RunMap) (revisions : option RunRevisions) (value : ExperimentRun) (seq : N) (error : StoreError) :=
  record current revisions value seq error.
Definition record_result (current : ResultMap) (revisions : option Revisions) (value : ResultEvidence) (seq : N) (error : StoreError) :=
  record current revisions value seq error.
Definition record_artifact (current : ArtifactMap) (revisions : option Revisions) (value : WorkArtifact) (seq : N) (error : StoreError) :=
  record current revisions value seq error.
End store.

(** ** Relations *)

Module AutoresearchRelationInputs.
Record AutoresearchRelationInputs := mk {
  runs : RunMap;
  run_revisions : RunRevisions;
  results : ResultMap;
  artifacts : ArtifactMap;
  attempts : list (AttemptId * (Attempt * N));
  tasks : list (TaskId * (Task * N));
  workstreams : list (WorkstreamId * (Workstream * N));
  operations : list (OperationId * (Operation * N));
  episodes : list (WorkEpisodeId * (WorkEpisode * N));
  snapshots : list (WorktreeSnapshotId * (WorktreeSnapshot * N));
  repositories : list (RepositoryId * (RepositoryInstance * N));
  worktrees : list (WorktreeId * (WorktreeInstance * N));
  source_receipts : list (SourceReceiptId * (SourceReceipt * N));
  source_observations : list (SourceObservationId * (SourceObservation * N));
}.
End AutoresearchRelationInputs.
Abbreviation AutoresearchRelationInputs := AutoresearchRelationInputs.AutoresearchRelationInputs.

(** [map.contains_key(id)], and [map.get(id).map(|value| &value.0)]. *)
Definition holds_key {K V} `{!Ord K, !EqDecision K} (id : K) (m : list (K * V)) : bool := is_some (bmap_get id m).
Definition value_at {K V} `{!Ord K, !EqDecision K} (id : K) (m : list (K * (V * N))) : option V := fst <$> bmap_get id m.
Definition corrupt {A} (o : option A) : result StoreError A := ok_or o StoreError.StoreCorrupt.

Section relations.
Import AutoresearchRelationInputs.
Context `{SHA : Sha256}.

Definition validate_run_relations (input : AutoresearchRelationInputs) (run : ExperimentRun) : result StoreError unit :=
  let? workstream := corrupt (value_at (ExperimentRun.workstream_id run) (workstreams input)) in
  do? guard (any (fun id => negb (holds_key id (source_receipts input)))
               (ExperimentRun.source_receipt_refs run ++ ExperimentRun.terminal_evidence_refs run)
             || negb (holds_key (ExperimentRun.code_snapshot_id run) (snapshots input))) StoreError.StoreCorrupt in
  do? (if ExperimentRun.attempt_binding_status run ==? AttemptBindingStatus.Resolved then
         let? id := corrupt (ExperimentRun.attempt_id run) in
         let? attempt := corrupt (value_at id (attempts input)) in
         do? guard (Attempt.workstream_id attempt !=? Workstream.workstream_id workstream) StoreError.StoreCorrupt in
         guard (Attempt.strategy_contract_fingerprint attempt !=? ExperimentRun.strategy_contract_fingerprint run)
           StoreError.StoreCorrupt
       else Ok tt) in
  guard (any (fun id => negb (holds_key id (artifacts input))) (ExperimentRun.work_artifact_refs run)) StoreError.StoreCorrupt.

Definition result_metric_version : string := "evertrace.result_metric.v1".
Definition validate_result_relations (input : AutoresearchRelationInputs) (value : ResultEvidence) : result StoreError unit :=
  let? run := corrupt (value_at (ResultEvidence.experiment_run_revision_id value) (run_revisions input)) in
  guard ((ExperimentRun.run_id run !=? ResultEvidence.experiment_run_id value)
      || (ExperimentRun.metric_extractor_version run !=? result_metric_version)
      || (ParserReceipt.parser_version (ResultEvidence.parser_receipt value) !=? result_metric_version)
      || is_some_and (ResultEvidence.verifier_receipt value)
           (fun receipt => VerifierReceipt.verifier_version receipt !=? "evertrace.result_reparse.v1"%string)
      || any (fun id => negb (holds_key id (artifacts input)))
           (ResultEvidence.raw_artifact_refs value ++ ParserReceipt.input_artifact_refs (ResultEvidence.parser_receipt value))
      || (ResultEvidence.result_scope value ==? ResultScope.Complete)
         && negb ((ExperimentRun.observability run ==? RunObservability.Full)
                  && (ExperimentRun.execution_status run ==? RunExecutionStatus.Completed)
                  && (ExperimentRun.contract_validity run ==? RunContractValidity.Valid)))
    StoreError.StoreCorrupt.

Definition observation_receipt (input : AutoresearchRelationInputs) (id : SourceObservationId) : result StoreError SourceReceipt :=
  let? observation := corrupt (value_at id (source_observations input)) in
  let? receipt := corrupt (value_at (SourceObservation.source_receipt_ref observation) (source_receipts input)) in
  do? guard (SourceReceipt.source_observation_id receipt !=? id) StoreError.StoreCorrupt in
  Ok receipt.

Definition run_in_scope (input : AutoresearchRelationInputs) (run : ExperimentRun) (scope : ArtifactScope) : bool :=
  let snapshot := value_at (ExperimentRun.code_snapshot_id run) (snapshots input) in
  let worktree := snapshot ≫= fun value => value_at (WorktreeSnapshot.worktree_instance_id value) (worktrees input) in
  match scope with
  | ArtifactScope.Task task_id =>
      is_some_and ((if ExperimentRun.attempt_binding_status run ==? AttemptBindingStatus.Resolved
                    then ExperimentRun.attempt_id run else None) ≫= fun id => value_at id (attempts input))
        (fun attempt => Attempt.task_id attempt ==? task_id)
  | ArtifactScope.Repository repository_instance_id =>
      is_some_and worktree (fun value => WorktreeInstance.repository_instance_id value ==? repository_instance_id)
  | ArtifactScope.Worktree repository_instance_id worktree_instance_id =>
      is_some_and snapshot (fun value => WorktreeSnapshot.worktree_instance_id value ==? worktree_instance_id)
      && is_some_and worktree (fun value => WorktreeInstance.repository_instance_id value ==? repository_instance_id)
  | ArtifactScope.Global => true
  end.
Definition episode_in_scope (episode : WorkEpisode) (scope : ArtifactScope) : bool :=
  match scope with
  | ArtifactScope.Task task_id => WorkEpisode.task_id episode ==? task_id
  | ArtifactScope.Repository repository_instance_id => WorkEpisode.repository_instance_id episode ==? Some repository_instance_id
  | ArtifactScope.Worktree repository_instance_id worktree_instance_id =>
      (WorkEpisode.repository_instance_id episode ==? Some repository_instance_id)
      && (WorkEpisode.worktree_instance_id episode ==? Some worktree_instance_id)
  | ArtifactScope.Global => true
  end.
Definition receipts_in_scope (receipts : list SourceReceipt) (scope : ArtifactScope) : bool :=
  negb (is_empty receipts) &&
  match scope with
  | ArtifactScope.Task task_id => all (fun receipt => SourceReceipt.task_id receipt ==? Some task_id) receipts
  | ArtifactScope.Repository repository_instance_id =>
      all (fun receipt => SourceReceipt.repository_instance_id receipt ==? Some repository_instance_id) receipts
  | ArtifactScope.Worktree repository_instance_id worktree_instance_id =>
      all (fun receipt => (SourceReceipt.repository_instance_id receipt ==? Some repository_instance_id)
                          && (SourceReceipt.worktree_instance_id receipt ==? Some worktree_instance_id)) receipts
  | ArtifactScope.Global => true
  end.
Definition actor_matches_scope (input : AutoresearchRelationInputs) (actor : ArtifactActor) (scope : ArtifactScope)
    (artifact_id : WorkArtifactId) : bool :=
  match actor with
  | ArtifactActor.ExperimentRun id => is_some_and (value_at id (runs input)) (fun run => run_in_scope input run scope)
  | ArtifactActor.WorkEpisode id => is_some_and (value_at id (episodes input)) (fun episode => episode_in_scope episode scope)
  | ArtifactActor.Operation id =>
      is_some_and (value_at id (operations input)) (fun operation =>
        contains artifact_id (Operation.artifact_refs operation) &&
        match try_map (observation_receipt input)
                (Operation.input_source_observation_refs operation ++ Operation.result_source_observation_refs operation) with
        | Ok receipts => receipts_in_scope receipts scope
        | Err _ => false
        end)
  end.

Definition validate_artifact_scope (input : AutoresearchRelationInputs) (scope : ArtifactScope) : result StoreError unit :=
  match scope with
  | ArtifactScope.Task task_id => guard (negb (holds_key task_id (tasks input))) StoreError.StoreCorrupt
  | ArtifactScope.Repository repository_instance_id =>
      guard (negb (holds_key repository_instance_id (repositories input))) StoreError.StoreCorrupt
  | ArtifactScope.Worktree repository_instance_id worktree_instance_id =>
      let? worktree := corrupt (value_at worktree_instance_id (worktrees input)) in
      guard ((WorktreeInstance.repository_instance_id worktree !=? repository_instance_id)
             || negb (holds_key repository_instance_id (repositories input))) StoreError.StoreCorrupt
  | ArtifactScope.Global => Ok tt
  end.
Definition validate_artifact_relations (input : AutoresearchRelationInputs) (artifact : WorkArtifact) : result StoreError unit :=
  let id := WorkArtifact.work_artifact_id artifact in
  let revision := WorkArtifact.revision artifact in
  let? observations := try_map (observation_receipt input) (ArtifactRevision.source_observation_refs revision) in
  do? guard (any (fun actor => negb (actor_matches_scope input actor (ArtifactRevision.scope revision) id))
               (ArtifactRevision.produced_by_refs revision ++ ArtifactRevision.consumed_by_refs revision)
             || is_empty (ArtifactRevision.produced_by_refs revision)
                && (ArtifactRevision.payload_status revision ==? ArtifactPayloadStatus.Available)
                && negb (is_some_and (ArtifactRevision.content_blob_ref revision)
                     (fun content => any (fun receipt => SourceReceipt.cas_ref receipt ==? hex (as_digest content)) observations)))
        StoreError.StoreCorrupt in
  do? validate_artifact_scope input (ArtifactRevision.scope revision) in
  guard (any (fun run => negb (Bool.eqb (contains id (ExperimentRun.work_artifact_refs run))
                 (contains (ArtifactActor.ExperimentRun (ExperimentRun.run_id run)) (ArtifactRevision.produced_by_refs revision))))
           (fst <$> (runs input).*2)) StoreError.StoreCorrupt.

Definition validate_relations (input : AutoresearchRelationInputs) : result StoreError unit :=
  do? for_each (validate_run_relations input) (fst <$> (runs input).*2) in
  do? for_each (validate_result_relations input) (fst <$> (results input).*2) in
  for_each (validate_artifact_relations input) (fst <$> (artifacts input).*2).
End relations.

(** ** Lemmas *)

(** What the rebuild relies on: a successor names its parent and keeps the object. *)
Class RevisionLaws {K V} (R : Revisioned K V) : Prop := {
  successor_parent a b : valid_successor (Revisioned := R) a b = true -> parent_of b = Some (revision_of a);
  successor_object a b : valid_successor (Revisioned := R) a b = true -> object_id b = object_id a;
}.

Section remove.
Context {V : Type}.
Implicit Types (l : list (V * N)) (p : V * N -> bool).

Lemma filter_none p l : Forall (fun y => p y = false) l -> List.filter p l = [].
Proof. induction 1 as [|y l Hy _ IH]; simpl; [done|]. by rewrite Hy. Qed.

Lemma remove_first_some p l x : x ∈ List.filter p l -> exists y others, remove_first p l = Some (y, others).
Proof.
  induction l as [|y l IH]; simpl; [by intros ?%elem_of_nil|]. destruct (p y) eqn:E; [by eauto|].
  intros (z & others & ->)%IH. by eauto.
Qed.

Lemma remove_first_spec p l x others :
  remove_first p l = Some (x, others) -> p x = true /\ l ≡ₚ x :: others.
Proof.
  revert others. induction l as [|y l IH]; simpl; intros others; [done|]. destruct (p y) eqn:E; [by intros [= -> ->]|].
  destruct (remove_first p l) as [[z rest]|] eqn:H; [|done]. intros [= -> <-].
  destruct (IH rest eq_refl) as [Hx Hp]. split; [done|]. rewrite Hp. apply Permutation_swap.
Qed.

(** The one element is found wherever it stands. *)
Lemma remove_unique_perm p l x rest :
  l ≡ₚ x :: rest -> p x = true -> Forall (fun y => p y = false) rest ->
  exists others, remove_unique p l = Some (x, others) /\ others ≡ₚ rest.
Proof.
  intros Hl Hx Hr. assert (Hf : List.filter p l ≡ₚ [x]).
  { rewrite (filter_perm p _ _ Hl). simpl. by rewrite Hx, filter_none. }
  apply Permutation_singleton_r in Hf. unfold remove_unique. rewrite Hf. simpl.
  destruct (remove_first_some p l x) as (y & others & Hy); [rewrite Hf; left|].
  destruct (remove_first_spec _ _ _ _ Hy) as [Hpy Hp].
  assert (Hin : y ∈ List.filter p l) by (apply elem_of_List_filter; split; [done|]; rewrite Hp; left).
  rewrite Hf in Hin. apply list_elem_of_singleton in Hin as ->.
  exists others. split; [done|]. rewrite Hl in Hp. by apply Permutation_cons_inv in Hp.
Qed.
End remove.

Section chains.
Context {K V : Type} `{!Ord K, !EqDecision K, !EqDecision V} {R : Revisioned K V} {RL : RevisionLaws R}.
Implicit Types (e current root : V * N) (rest values : list (V * N)).

(** Each the valid successor of the one before. *)
Fixpoint linked current rest : Prop :=
  match rest with
  | [] => True
  | next :: rest => valid_successor current.1 next.1 = true /\ shape next.1 = true /\ linked next rest
  end.

Fixpoint chain_end current rest : V * N := match rest with [] => current | next :: rest => chain_end next rest end.

Lemma chain_end_snoc current rest next : chain_end current (rest ++ [next]) = next.
Proof. revert current. induction rest as [|e rest IH]; [done|]. intros. apply IH. Qed.

Lemma chain_end_elem current rest : chain_end current rest ∈ current :: rest.
Proof. revert current. induction rest as [|e rest IH]; intros current; [left|]. right. apply IH. Qed.

Lemma linked_snoc current rest next :
  linked current rest -> valid_successor (chain_end current rest).1 next.1 = true -> shape next.1 = true ->
  linked current (rest ++ [next]).
Proof.
  revert current. induction rest as [|e rest IH]; simpl; intros current; [by intros|].
  intros (H1 & H2 & H3) Hn Hs. split_and!; [done..|]. by apply IH.
Qed.

Lemma linked_parent current rest e :
  linked current rest -> e ∈ rest ->
  exists prev, prev ∈ current :: rest /\ valid_successor prev.1 e.1 = true.
Proof.
  revert current. induction rest as [|next rest IH]; intros current; [by intros _ ?%elem_of_nil|].
  intros (H1 & _ & H3) [-> |He]%elem_of_cons; [exists current; split; [left|done]|].
  destruct (IH _ H3 He) as (prev & Hp & Hv). exists prev. split; [by right|done].
Qed.

Definition revision_ids values : list RevisionId := (fun e => revision_of e.1) <$> values.

Lemma follow_chain_linked fuel current rest values :
  values ≡ₚ rest -> NoDup (revision_ids (current :: rest)) -> linked current rest -> (length rest <= fuel)%nat ->
  follow_chain fuel current values = Ok (chain_end current rest).
Proof.
  revert fuel current values. induction rest as [|next rest IH]; intros fuel current values Hv Hnd Hl Hf.
  - apply Permutation_nil_r in Hv as ->. by destruct fuel.
  - destruct fuel as [|fuel]; [simpl in Hf; lia|]. destruct Hl as (H1 & H2 & H3).
    pose proof (NoDup_cons_1_1 _ _ Hnd) as Hc. pose proof (NoDup_cons_1_2 _ _ Hnd) as Hnd'.
    change (revision_of current.1 ∉ revision_ids (next :: rest)) in Hc. clear Hnd. rename Hnd' into Hnd.
    destruct (remove_unique_perm (fun e => parent_of e.1 ==? Some (revision_of current.1)) values next rest Hv)
      as (others & Hr & Hp).
    + cbn beta. apply bool_decide_true. by apply successor_parent.
    + apply Forall_forall. intros e He. apply bool_decide_false. intros Hpar.
      destruct (linked_parent _ _ _ H3 He) as (prev & Hprev & Hsucc).
      apply successor_parent in Hsucc. rewrite Hpar in Hsucc. injection Hsucc as Heq.
      apply Hc. rewrite Heq. unfold revision_ids. by apply (list_elem_of_fmap_2 (fun e => revision_of e.1)).
    + destruct values as [|v values]; [by apply Permutation_nil_l in Hv|].
      cbn [follow_chain]. rewrite Hr. cbn. rewrite H1, H2. cbn. apply IH; [done..|]. simpl in Hf. lia.
Qed.

Lemma fold_chain_linked root rest values :
  values ≡ₚ root :: rest -> NoDup (revision_ids (root :: rest)) -> linked root rest ->
  parent_of root.1 = None -> valid root.1 = true -> root_shape root.1 = true ->
  fold_chain values = Ok (chain_end root rest).
Proof.
  intros Hv Hnd Hl Hp Hval Hs.
  destruct (remove_unique_perm (fun e => is_none (parent_of e.1)) values root rest Hv) as (others & Hr & Hperm).
  - by rewrite Hp.
  - apply Forall_forall. intros e He. destruct (linked_parent _ _ _ Hl He) as (prev & _ & Hsucc).
    apply successor_parent in Hsucc. by rewrite Hsucc.
  - unfold fold_chain. rewrite Hr. cbn. rewrite Hval, Hs. cbn. apply follow_chain_linked; [done..|].
    apply Permutation_length in Hv. simpl in Hv. lia.
Qed.

End chains.

(** ** Recording *)

Section recording.
Context {K V : Type} `{!Ord K, !EqDecision K, !EqDecision V} {R : Revisioned K V} {RL : RevisionLaws R}.
Implicit Types (e root last : V * N) (rest values : list (V * N)).

(** The two maps after any number of successful recordings. *)
Inductive recorded : list (K * (V * N)) -> list (RevisionId * (V * N)) -> Prop :=
| recorded_nil : recorded [] []
| recorded_step current revisions value seq error current' revisions' :
    recorded current revisions ->
    record current (Some revisions) value seq error = Ok (current', Some revisions') ->
    recorded current' revisions'.

Definition of_object (id : K) (revisions : list (RevisionId * (V * N))) : list (V * N) :=
  members_of (fun e => Some (object_id e.1)) id revisions.*2.

(** The revisions of one object, and the current one. *)
Definition chained (current : option (V * N)) values : Prop :=
  match current with
  | None => values = []
  | Some last => exists root rest, values ≡ₚ root :: rest /\ linked root rest /\ chain_end root rest = last
                 /\ parent_of root.1 = None /\ valid root.1 = true /\ shape root.1 = true
  end.

Record consistent (current : list (K * (V * N))) (revisions : list (RevisionId * (V * N))) : Prop := {
  current_sorted : bmap_sorted current;
  revisions_sorted : bmap_sorted revisions;
  revisions_keyed : Forall (fun p : RevisionId * (V * N) => revision_of p.2.1 = p.1) revisions;
  objects_chained id : chained (bmap_get id current) (of_object id revisions);
  current_keyed id (e : V * N) : bmap_get id current = Some e -> object_id e.1 = id;
}.

Lemma members_of_cons id e l :
  members_of (fun e : V * N => Some (object_id e.1)) id (e :: l)
  = if bool_decide (object_id e.1 = id) then e :: members_of (fun e => Some (object_id e.1)) id l
    else members_of (fun e => Some (object_id e.1)) id l.
Proof.
  unfold members_of. simpl. case_bool_decide as H; [by rewrite H, cmp_refl|].
  destruct (cmp (object_id e.1) id) eqn:E; [by apply cmp_eq in E|done..].
Qed.

Lemma of_object_insert id key e revisions :
  bmap_get key revisions = None ->
  of_object id (bmap_insert key e revisions)
  ≡ₚ (if bool_decide (object_id e.1 = id) then [e] else []) ++ of_object id revisions.
Proof.
  intros Hk. unfold of_object. rewrite (members_of_perm (fun e : V * N => Some (object_id e.1)) _ _ _ (bmap_insert_perm _ e _ Hk)), members_of_cons.
  by case_bool_decide.
Qed.

Lemma chained_perm current values values' : values ≡ₚ values' -> chained current values -> chained current values'.
Proof.
  intros Hp. destruct current as [last|]; simpl.
  - intros (root & rest & H & ?). exists root, rest. split; [by rewrite <-Hp|done].
  - intros ->. by apply Permutation_nil_l in Hp.
Qed.

Lemma chained_snoc last next values :
  chained (Some last) values -> valid_successor last.1 next.1 = true -> shape next.1 = true ->
  chained (Some next) (next :: values).
Proof.
  intros (root & rest & Hp & Hl & <- & Hr) Hv Hs. exists root, (rest ++ [next]).
  split_and!; [|by apply linked_snoc|by apply chain_end_snoc|apply Hr..].
  rewrite Hp. rewrite (Permutation_cons_append (root :: rest) next). done.
Qed.

(** What a successful recording did. *)
Lemma record_ok current revisions value seq error current' revisions' :
  record current (Some revisions) value seq error = Ok (current', Some revisions') ->
  shape value = true /\
  ((current' = current /\ revisions' = revisions) \/
   (current' = bmap_insert (object_id value) (value, seq) current
    /\ revisions' = bmap_insert (revision_of value) (value, seq) revisions
    /\ bmap_get (revision_of value) revisions = None
    /\ match bmap_get (object_id value) current with
       | Some (existing, _) => valid_successor existing value = true
       | None => parent_of value = None /\ valid value = true
       end)).
Proof.
  unfold record. rewrite rbind_ok. intros (u & Hs%guard_ok%negb_false_iff & H). split; [done|].
  destruct (is_some_and _ _); [injection H as <- <-; by left|]. right.
  apply rbind_ok in H as (u' & Hchain & H). apply rbind_ok in H as (r & Hr & H).
  apply rbind_ok in Hr as (u2 & Hn%guard_ok%is_some_false & Hr). injection Hr as <-. injection H as <- <-.
  split_and!; [done..|]. destruct (bmap_get (object_id value) current) as [[existing n]|].
  - by apply guard_ok, negb_false_iff in Hchain.
  - apply rbind_ok in Hchain as (u3 & Hp%guard_ok%is_some_false & Hv%guard_ok%negb_false_iff). done.
Qed.

Lemma recorded_consistent current revisions : recorded current revisions -> consistent current revisions.
Proof.
  induction 1 as [|current revisions value seq error current' revisions' _ IH Hrec].
  - split; [constructor..|by intros id|done].
  - apply record_ok in Hrec as [Hs [[-> ->]|(-> & -> & Hn & Hc)]]; [done|]. destruct IH as [I1 I2 I3 I4 I5]. split.
    + by apply bmap_alter_sorted.
    + by apply bmap_alter_sorted.
    + apply Forall_forall. intros e [-> |He]%bmap_insert_elem; [done|]. rewrite Forall_forall in I3. by apply I3.
    + intros id. eapply chained_perm; [symmetry; by apply of_object_insert|]. specialize (I4 id). unfold bmap_insert.
      case_bool_decide as Hid; simpl in Hid.
      * subst id. rewrite bmap_get_alter_eq by done.
        destruct (bmap_get (object_id value) current) as [[existing n]|].
        -- by eapply (chained_snoc (existing, n) (value, seq)).
        -- cbn in I4. rewrite I4. exists (value, seq), []. simpl. destruct Hc. by split_and!.
      * by rewrite bmap_get_alter_ne by done.
    + intros id e. unfold bmap_insert. destruct (ord_dec (object_id value) id) as [<-|Hne].
      * rewrite bmap_get_alter_eq by done. by intros [= <-].
      * rewrite bmap_get_alter_ne by done. apply I5.
Qed.

Lemma consistent_NoDup current revisions : consistent current revisions -> NoDup (revision_ids revisions.*2).
Proof.
  intros [_ Hs Hk _ _]. replace (revision_ids revisions.*2) with revisions.*1; [by apply sorted_lt_NoDup|].
  unfold revision_ids. rewrite <-list_fmap_compose. apply list_fmap_ext. intros i e He. simpl.
  rewrite Forall_forall in Hk. symmetry. apply Hk. by eapply list_elem_of_lookup_2.
Qed.

(** ** Rebuilding *)

Lemma rebuild_groups_spec (f : K -> option (V * N)) groups acc :
  bmap_sorted acc ->
  (forall id values, (id, values) ∈ groups -> exists last, fold_chain values = Ok last /\ f id = Some last) ->
  exists res, rebuild_groups groups acc = Ok res /\ bmap_sorted res /\
    forall k, bmap_get k res = if bool_decide (k ∈ groups.*1) then f k else bmap_get k acc.
Proof.
  revert acc. induction groups as [|[id values] groups IH]; intros acc Ha Hg.
  - exists acc. split_and!; [done..|]. intros k. rewrite bool_decide_eq_false_2; [done|]. apply not_elem_of_nil.
  - destruct (Hg id values) as (last & Hf & Hl); [left|]. cbn. rewrite Hf. cbn.
    destruct (IH (bmap_insert id last acc)) as (res & Hr & Hsr & Hk).
    + by apply bmap_alter_sorted.
    + intros id' values' Hin. apply Hg. by right.
    + exists res. split_and!; [done..|]. intros k. rewrite Hk. simpl. destruct (ord_dec id k) as [<-|Hne].
      * unfold bmap_insert. rewrite bmap_get_alter_eq by done. rewrite (bool_decide_eq_true_2 (id ∈ id :: _)) by left.
        by case_bool_decide.
      * unfold bmap_insert. rewrite bmap_get_alter_ne by done.
        rewrite (bool_decide_ext (k ∈ id :: groups.*1) (k ∈ groups.*1)); [done|]. rewrite elem_of_cons.
        split; [by intros [->|]|by right].
Qed.

(** Rebuilding from all the revisions finds the current ones. *)
Lemma rebuild_recorded current revisions :
  recorded current revisions ->
  (forall e, e ∈ revisions.*2 -> parent_of e.1 = None -> root_shape e.1 = true) ->
  rebuild revisions = Ok current.
Proof.
  intros Hrec%recorded_consistent Hroot. pose proof (consistent_NoDup _ _ Hrec) as Hnd.
  destruct Hrec as [I1 I2 I3 I4 I5].
  destruct (rebuild_groups_spec (fun id => bmap_get id current) (grouped revisions) []) as (res & Hr & Hs & Hk).
  - constructor.
  - intros id values [-> Hne]%elem_of_group_by. fold (of_object id revisions) in *. specialize (I4 id).
    destruct (bmap_get id current) as [last|]; [|done].
    destruct I4 as (root & rest & Hp & Hl & <- & Hpar & Hv & _). eexists. split; [|done].
    assert (Hin : root ∈ revisions.*2).
    { apply (elem_of_members (fun e => Some (object_id e.1)) id). fold (of_object id revisions). rewrite Hp. left. }
    apply fold_chain_linked; auto. unfold revision_ids. rewrite <-Hp. fold (revision_ids (of_object id revisions)).
    apply (sublist_NoDup _ (revision_ids revisions.*2)); [done|]. apply fmap_sublist.
    unfold of_object, members_of. clear. induction revisions.*2 as [|e l IH]; simpl; [done|].
    destruct (cmp _ _); by constructor.
  - unfold rebuild. rewrite Hr. f_equal. apply bmap_ext; [done..|]. intros k. rewrite Hk. case_bool_decide as Hin; [done|].
    simpl. symmetry. specialize (I4 k). destruct (bmap_get k current) as [last|] eqn:E; [|done].
    destruct I4 as (root & rest & Hp & _). exfalso. apply Hin. rewrite elem_of_bmap_keys.
    exists (of_object k revisions). apply group_by_get. split; [done|]. fold (of_object k revisions). intros H0.
    unfold grouped in *. by rewrite H0 in Hp; apply Permutation_nil_l in Hp.
Qed.
End recording.

(** ** The three records *)

Section instances.
Context `{L : UuidLib} `{SHA : Sha256}.

#[export] Instance run_laws : RevisionLaws run_revisions.
Proof.
  split; intros a b; cbn; intros H%is_ok_true; unfold ExperimentRun.validate_successor in H; ok_steps H;
    unfold ExperimentRun.immutable_equal in *; guards; congruence.
Qed.
#[export] Instance result_laws : RevisionLaws result_revisions.
Proof.
  split; intros a b; cbn; intros H%is_ok_true; unfold ResultEvidence.validate_successor in H; ok_steps H; guards; congruence.
Qed.
#[export] Instance artifact_laws : RevisionLaws artifact_revisions.
Proof.
  split; intros a b; cbn; intros H%is_ok_true; unfold WorkArtifact.validate_successor in H; ok_steps H; guards; congruence.
Qed.
End instances.
