(* ===== verification/ControlledRuns.v ===== *)
(** * Admission of controlled runs (crates/evertrace-store/src/projections/autoresearch.rs)

    A run with an execution binding is controlled: the host witnesses its launch and its
    end, and the store accepts a command about it only when the witnesses, the attempt,
    the procedure and the results agree.  [validate_controlled_command] is the check of
    one command against the current state.  The published procedures are an interface;
    of the procedure state only the usages are looked into. *)

From S2P Require Import Prelude Order Collections OrderedMap Text Canonical Ids Journal Lane Attempt Constraint Repository Evidence Work Recovery Episode JournalRows Spool Autoresearch AutoresearchStore Usage.

(** ** Work bindings *)

(** The revisions of one operation, by generation, each the successor of the one before. *)
Fixpoint binding_chain (generation : N) (previous : option WorkBindingRevision) (revisions : list WorkBindingRevision)
    : result StoreError (option WorkBindingRevision) :=
  match revisions with
  | [] => Ok previous
  | revision :: revisions =>
      do? guard (negb (WorkBindingRevision.revision_generation revision =? generation)%N
          || (WorkBindingRevision.predecessor_revision_id revision
              !=? WorkBindingRevision.work_binding_revision_id <$> previous)) StoreError.StoreCorrupt in
      do? (match previous with
           | Some previous => map_err (fun _ => StoreError.StoreCorrupt) (WorkBindingRevision.validate_successor previous revision)
           | None => Ok tt
           end) in
      binding_chain (generation + 1) (Some revision) revisions
  end.
Fixpoint latest_bindings (groups : list (OperationId * list WorkBindingRevision))
    (current : list (OperationId * WorkBindingRevision)) : result StoreError (list (OperationId * WorkBindingRevision)) :=
  match groups with
  | [] => Ok current
  | (operation_id, revisions) :: groups =>
      let? latest := binding_chain 1 None
        (sort_by (fun a b => (WorkBindingRevision.revision_generation a <=? WorkBindingRevision.revision_generation b)%N) revisions) in
      let? latest := ok_or latest StoreError.StoreCorrupt in
      latest_bindings groups (bmap_insert operation_id latest current)
  end.
Definition current_binding_lineage (bindings : list WorkBindingRevision)
    : result StoreError (list (OperationId * WorkBindingRevision)) :=
  do? for_each (fun binding => map_err (fun _ => StoreError.StoreCorrupt) (WorkBindingRevision.validate binding)) bindings in
  latest_bindings (group_by (fun binding => Some (WorkBindingRevision.operation_id binding)) bindings) [].

(** ** The view *)

(** What is read of the payloads of a command. *)
Module ControlledPayload.
Inductive ControlledPayload :=
| ExperimentRunRecorded (run : ExperimentRun)
| ResultEvidenceRecorded (value : ResultEvidence)
| WorkArtifactRecorded (artifact : WorkArtifact)
| WorkBindingRecorded (binding : WorkBindingRevision)
| Other.
End ControlledPayload.
Abbreviation ControlledPayload := ControlledPayload.ControlledPayload.

Module ControlledRunAdmissionView.
Record ControlledRunAdmissionView := mk {
  runs : RunMap;
  attempts : list (AttemptId * (Attempt * N));
  work_bindings : list (WorkBindingRevisionId * (WorkBindingRevision * N));
  operations : list (OperationId * (Operation * N));
  snapshots : list (WorktreeSnapshotId * (WorktreeSnapshot * N));
  receipts : list (SourceReceiptId * (SourceReceipt * N));
  observations : list (SourceObservationId * (SourceObservation * N));
  surfaces : list (SourceObservationId * (EvidenceSurface * N));
  artifacts : ArtifactMap;
  usages : list (ProcedureUsageId * (ProcedureUsageRevision * N));
  tasks : list (TaskId * (Task * N));
  workstreams : list (WorkstreamId * (Workstream * N));
  episodes : list (WorkEpisodeId * (WorkEpisode * N));
  episode_revisions : list (RevisionId * (WorkEpisode * N));
  worktrees : list (WorktreeId * (WorktreeInstance * N));
}.
End ControlledRunAdmissionView.
Abbreviation ControlledRunAdmissionView := ControlledRunAdmissionView.ControlledRunAdmissionView.

(** Whether a procedure revision is the current one of its procedure. *)
Class PublishedProcedures := is_current_revision_id : RevisionId -> bool.

(** [CasDigest::from_str], as an identifier. *)
Definition cas_digest_from_str (value : string) : option CasId :=
  if (str_len value =? 64)%N && all (fun byte => is_ascii_digit byte || is_hex_lower byte) (as_bytes value)
  then Some (from_digest (hex_chunks (as_bytes value))) else None.

Section admission.
Context `{L : UuidLib} `{SHA : Sha256} `{PP : PublishedProcedures}.
Context (from_toml : string -> option ControlledRunSourceEnvelope) (to_toml : ControlledRunSourceEnvelope -> option string).
Import ControlledRunAdmissionView.

(** The one usage of a procedure revision by an attempt. *)
Definition controlled_usage_anchor (usages : list (ProcedureUsageId * (ProcedureUsageRevision * N)))
    (procedure_revision_id : RevisionId) (attempt_id : AttemptId) : result StoreError (option ProcedureUsageRevision) :=
  match List.filter (fun usage => (ProcedureUsageRevision.procedure_revision_id usage ==? procedure_revision_id)
                                  && contains attempt_id (ProcedureUsageRevision.attempt_ids usage)) (fst <$> usages.*2) with
  | [] => Ok None
  | [usage] => Ok (Some usage)
  | _ => Err StoreError.StoreCorrupt
  end.

Definition launch_matches (run : ExperimentRun) (attempt : Attempt) (binding : ComparisonExecutionBinding)
    (envelope : ControlledRunSourceEnvelope) : bool :=
  match envelope with
  | ControlledRunSourceEnvelope.Terminal _ => false
  | ControlledRunSourceEnvelope.Launch launch =>
      (ControlledLaunch.attempt_id launch ==? Attempt.attempt_id attempt)
      && is_none_or (ComparisonExecutionBinding.procedure_exposure_revision_id binding)
           (fun value => value ==? ControlledLaunch.procedure_revision_id launch)
      && (StrategyContract.search_policy_ref (Attempt.strategy_contract attempt)
          ==? Some (rid_display (ControlledLaunch.procedure_revision_id launch)))
      && (ExperimentRun.code_snapshot_id run ==? ControlledLaunch.code_snapshot_id launch)
      && (ExperimentRun.data_fingerprint run ==? ControlledLaunch.data_fingerprint launch)
      && (ExperimentRun.normalized_config run ==? ControlledLaunch.normalized_config launch)
      && (ExperimentRun.variable_declaration run ==? ControlledLaunch.variable_declaration launch)
      && (ExperimentRun.seed_policy run ==? ControlledLaunch.seed_policy launch)
      && (ExperimentRun.seed_values run ==? ControlledLaunch.seed_values launch)
      && Bool.eqb (ExperimentRun.nondeterministic run) (ControlledLaunch.nondeterministic launch)
      && (ExperimentRun.metric_definition run ==? ControlledLaunch.metric_definition launch)
      && (ExperimentRun.metric_extractor_version run ==? ControlledLaunch.metric_extractor_version launch)
      && (ExperimentRun.multi_cas_metric_policy run ==? ControlledLaunch.multi_cas_metric_policy launch)
      && (ExperimentRun.environment_fingerprint run ==? ControlledLaunch.environment_fingerprint launch)
      && (binding ==? ControlledLaunch.binding launch)
      && (ExperimentRun.started_at_us run ==? Some (ControlledLaunch.started_at_us launch))
  end.

(** ** Witnesses *)

(** One receipt, its observation and its surface must agree, whole, unredacted and observed. *)
Definition witness_mismatch (receipt : SourceReceipt) (observation : SourceObservation) (surface : EvidenceSurface)
    (fingerprint : list byte) : bool :=
  (SourceReceipt.source_observation_id receipt !=? SourceObservation.source_observation_id observation)
  || (SourceObservation.source_receipt_ref observation !=? SourceReceipt.source_receipt_id receipt)
  || (SourceReceipt.capture_completeness receipt !=? CaptureCompleteness.Complete)
  || (SourceObservation.capture_completeness observation !=? CaptureCompleteness.Complete)
  || (EvidenceSurface.capture_completeness surface !=? CaptureCompleteness.Complete)
  || (SourceReceipt.archive_mode receipt !=? SourceArchiveMode.Exact)
  || is_some (SourceReceipt.unsupported_record_classification receipt)
  || is_some (SourceReceipt.protected_secret_digest receipt)
  || negb (is_empty (SourceReceipt.redaction_spans receipt))
  || negb (SourceReceipt.canonicalization_revision receipt =? EvidenceSurface.canonicalization_version surface)%N
  || negb (SourceObservation.canonicalization_revision observation =? EvidenceSurface.canonicalization_version surface)%N
  || (SourceObservation.source_role observation !=? EvidenceSurface.source_role surface)
  || (SourceObservation.content_trust observation !=? EvidenceSurface.content_trust surface)
  || negb (contains (EvidenceSurface.source_role surface) [SourceRole.Host; SourceRole.Tool])
  || (EvidenceSurface.content_trust surface !=? ContentTrust.Observed)
  || (SourceObservation.payload_fingerprint observation !=? hex fingerprint)
  || (SourceReceipt.cas_ref receipt !=? hex_digest (as_bytes (EvidenceSurface.protected_text surface))).

Definition is_launch (envelope : ControlledRunSourceEnvelope) : bool :=
  match envelope with ControlledRunSourceEnvelope.Launch _ => true | ControlledRunSourceEnvelope.Terminal _ => false end.

(** The operations that saw the observation must all be paired and bound to the run. *)
Definition bound_operations (view : ControlledRunAdmissionView) (launch : bool) (id : SourceObservationId) : list Operation :=
  List.filter (fun operation => contains id
    (if launch then Operation.input_source_observation_refs operation else Operation.result_source_observation_refs operation))
    (fst <$> (operations view).*2).
Definition binds_run (run : ExperimentRun) (attempt : Attempt) (binding : WorkBindingRevision) : bool :=
  let primary := WorkBindingRevision.primary_binding binding in
  (WorkBindingRevision.assignment_status binding ==? AssignmentStatus.Resolved)
  && (PrimaryWorkBinding.experiment_run_id primary ==? Some (ExperimentRun.run_id run))
  && (PrimaryWorkBinding.attempt_id primary ==? Some (Attempt.attempt_id attempt))
  && (PrimaryWorkBinding.workstream_id primary ==? Some (ExperimentRun.workstream_id run)).
Definition unbound (run : ExperimentRun) (attempt : Attempt) (bindings : list (OperationId * WorkBindingRevision))
    (operation : Operation) : bool :=
  (Operation.pairing_state operation !=? PairingState.Paired)
  || negb (is_some_and (bmap_get (Operation.operation_id operation) bindings) (binds_run run attempt)).

Definition witness (launch : bool) (run : ExperimentRun) (attempt : Attempt)
    (bindings : list (OperationId * WorkBindingRevision)) (view : ControlledRunAdmissionView) (error : StoreError)
    (receipt_id : SourceReceiptId) : result StoreError ControlledRunSourceEnvelope :=
  let? receipt := ok_or (value_at receipt_id (receipts view)) error in
  let? observation := ok_or (value_at (SourceReceipt.source_observation_id receipt) (observations view)) error in
  let? surface := ok_or (value_at (SourceReceipt.source_observation_id receipt) (surfaces view)) error in
  let text := as_bytes (EvidenceSurface.protected_text surface) in
  let? fingerprint := map_err (fun _ => error)
    (payload_fingerprint (EvidenceSurface.canonicalization_version surface) text None) in
  do? guard (witness_mismatch receipt observation surface fingerprint) error in
  do? map_err (fun _ => error) (EvidenceSurface.validate surface) in
  let? envelope := map_err (fun _ => error) (ControlledRunSourceEnvelope.decode_canonical from_toml to_toml text) in
  do? guard (negb (Bool.eqb launch (is_launch envelope))) error in
  let operations := bound_operations view launch (SourceObservation.source_observation_id observation) in
  do? guard (is_empty operations || any (unbound run attempt bindings) operations) error in
  Ok envelope.
(** [selected] is the envelope of the receipts so far; they must all carry the same. *)
Fixpoint select_witness (launch : bool) (run : ExperimentRun) (attempt : Attempt)
    (bindings : list (OperationId * WorkBindingRevision)) (view : ControlledRunAdmissionView) (error : StoreError)
    (receipt_ids : list SourceReceiptId) (selected : option ControlledRunSourceEnvelope)
    : result StoreError ControlledRunSourceEnvelope :=
  match receipt_ids with
  | [] => ok_or selected error
  | receipt_id :: receipt_ids =>
      let? envelope := witness launch run attempt bindings view error receipt_id in
      do? guard (is_some_and selected (fun current => current !=? envelope)) error in
      select_witness launch run attempt bindings view error receipt_ids (Some envelope)
  end.
Definition validate_witnesses (receipt_ids : list SourceReceiptId) (launch : bool) (run : ExperimentRun) (attempt : Attempt)
    (bindings : list (OperationId * WorkBindingRevision)) (view : ControlledRunAdmissionView) (error : StoreError)
    : result StoreError ControlledRunSourceEnvelope :=
  select_witness launch run attempt bindings view error receipt_ids None.

Definition validate_declaration_anchor (view : ControlledRunAdmissionView) (procedure_revision_id : RevisionId)
    (attempt : Attempt) (snapshot_id : WorktreeSnapshotId) (error : StoreError) : result StoreError unit :=
  let? usage := map_err (fun _ => error)
    (controlled_usage_anchor (usages view) procedure_revision_id (Attempt.attempt_id attempt)) in
  let? usage := ok_or usage error in
  let? episode := ok_or (value_at (ProcedureUsageRevision.exposure_episode_revision_id usage) (episode_revisions view)) error in
  let? current_episode := ok_or (value_at (WorkEpisode.episode_id episode) (episodes view)) error in
  let? task := ok_or (value_at (ProcedureUsageRevision.task_id usage) (tasks view)) error in
  let? workstream := ok_or (value_at (ProcedureUsageRevision.workstream_id usage) (workstreams view)) error in
  let? repository_id := ok_or (ProcedureLocalContext.repository_id (ProcedureUsageRevision.local_context usage)) error in
  let? worktree_id := ok_or (ProcedureLocalContext.worktree_id (ProcedureUsageRevision.local_context usage)) error in
  let? snapshot := ok_or (value_at snapshot_id (snapshots view)) error in
  let? worktree := ok_or (value_at worktree_id (worktrees view)) error in
  guard ((WorkEpisode.revision_id current_episode !=? WorkEpisode.revision_id episode)
      || (WorkEpisode.entry_worktree_snapshot_id episode !=? Some snapshot_id)
      || (WorkEpisode.task_id episode !=? Task.task_id task)
      || (WorkEpisode.workstream_id episode !=? Workstream.workstream_id workstream)
      || (WorkEpisode.repository_instance_id episode !=? Some repository_id)
      || (WorkEpisode.worktree_instance_id episode !=? Some worktree_id)
      || (Attempt.task_id attempt !=? Task.task_id task)
      || (Attempt.workstream_id attempt !=? Workstream.workstream_id workstream)
      || (Attempt.repository_instance_id attempt !=? Some repository_id)
      || negb (contains worktree_id (Attempt.worktree_instance_ids attempt))
      || (Workstream.task_id workstream !=? Task.task_id task)
      || (Workstream.repository_instance_id workstream !=? Some repository_id)
      || negb (contains worktree_id (Workstream.worktree_instance_ids workstream))
      || (WorktreeSnapshot.worktree_instance_id snapshot !=? worktree_id)
      || (WorktreeInstance.repository_instance_id worktree !=? repository_id)) error.

(** ** One run of a command *)

Definition command_runs (payloads : list ControlledPayload) : list ExperimentRun :=
  omap (fun payload => match payload with ControlledPayload.ExperimentRunRecorded run => Some run | _ => None end) payloads.
Definition command_results (payloads : list ControlledPayload) : list ResultEvidence :=
  omap (fun payload => match payload with ControlledPayload.ResultEvidenceRecorded value => Some value | _ => None end) payloads.
Definition command_artifacts (payloads : list ControlledPayload) : list WorkArtifactId :=
  bset_of_list (omap (fun payload => match payload with
    | ControlledPayload.WorkArtifactRecorded artifact => Some (WorkArtifact.work_artifact_id artifact)
    | _ => None end) payloads).
Definition command_bindings (payloads : list ControlledPayload) : list WorkBindingRevision :=
  omap (fun payload => match payload with ControlledPayload.WorkBindingRecorded binding => Some binding | _ => None end) payloads.

Definition validate_launch (view : ControlledRunAdmissionView) (bindings : list (OperationId * WorkBindingRevision))
    (run : ExperimentRun) (binding : ComparisonExecutionBinding) (attempt : Attempt) (error : StoreError)
    : result StoreError unit :=
  do? guard (is_some (ExperimentRun.parent_revision_id run) || negb (ExperimentRun.is_controlled_declaration run)) error in
  let? launch := validate_witnesses (ExperimentRun.source_receipt_refs run) true run attempt bindings view error in
  do? guard (negb (launch_matches run attempt binding launch)) error in
  match launch with
  | ControlledRunSourceEnvelope.Terminal _ => Err error
  | ControlledRunSourceEnvelope.Launch launch =>
      let procedure_revision_id := ControlledLaunch.procedure_revision_id launch in
      do? guard (negb (is_current_revision_id procedure_revision_id)
          || ((value_at (ExperimentRun.code_snapshot_id run) (snapshots view) ≫= WorktreeSnapshot.toolchain_fingerprint)
              !=? Some (ComparisonExecutionBinding.toolchain_revision binding))) error in
      validate_declaration_anchor view procedure_revision_id attempt (ExperimentRun.code_snapshot_id run) error
  end.

(** The content references the result of a run must have. *)
Definition expected_cas (view : ControlledRunAdmissionView) (run : ExperimentRun) (error : StoreError)
    : result StoreError (list CasId) :=
  try_map (fun id =>
    let? receipt := ok_or (value_at id (receipts view)) error in
    ok_or (cas_digest_from_str (SourceReceipt.cas_ref receipt)) error) (ExperimentRun.terminal_evidence_refs run).

Definition validate_completion (view : ControlledRunAdmissionView) (bindings : list (OperationId * WorkBindingRevision))
    (artifacts_of_command : list WorkArtifactId) (results : list ResultEvidence) (current run : ExperimentRun)
    (attempt : Attempt) (error : StoreError) : result StoreError unit :=
  do? guard (negb (ExperimentRun.is_controlled_declaration current)
      || (ExperimentRun.parent_revision_id run !=? Some (ExperimentRun.revision_id current))
      || (ExperimentRun.observability run !=? RunObservability.Full)
      || (ExperimentRun.execution_status run !=? RunExecutionStatus.Completed)
      || (ExperimentRun.contract_validity run !=? RunContractValidity.Valid)) error in
  do? map_err (fun _ => error) (ExperimentRun.validate_successor current run) in
  do? guard (negb (ExperimentRun.created_at_us run =? ExperimentRun.created_at_us current)%Z
      || (ExperimentRun.started_at_us run !=? ExperimentRun.started_at_us current)
      || (ExperimentRun.source_receipt_refs run !=? ExperimentRun.source_receipt_refs current)
      || (ExperimentRun.attempt_id run !=? ExperimentRun.attempt_id current)
      || (ExperimentRun.attempt_binding_status run !=? ExperimentRun.attempt_binding_status current)) error in
  let? terminal := validate_witnesses (ExperimentRun.terminal_evidence_refs run) false run attempt bindings view error in
  match terminal with
  | ControlledRunSourceEnvelope.Launch _ => Err error
  | ControlledRunSourceEnvelope.Terminal terminal =>
      let artifact_refs := ControlledTerminal.artifact_refs terminal in
      do? guard ((ExperimentRun.ended_at_us run !=? Some (ControlledTerminal.ended_at_us terminal))
          || (ExperimentRun.work_artifact_refs run !=? artifact_refs)
          || any (fun id => negb (holds_key id (artifacts view)) && negb (contains id artifacts_of_command)) artifact_refs) error in
      match List.filter (fun value => (ResultEvidence.experiment_run_id value ==? ExperimentRun.run_id run)
                          && (ResultEvidence.experiment_run_revision_id value ==? ExperimentRun.revision_id run)) results with
      | [value] =>
          do? guard ((ResultEvidence.parsed_metric value !=? Some (ControlledTerminal.metric terminal))
              || (ResultEvidence.result_scope value !=? ResultScope.Complete)
              || (ResultEvidence.completeness value !=? EvidenceCompleteness.Complete)
              || is_some (ResultEvidence.failure value)) error in
          let? expected := expected_cas view run error in
          guard ((ResultEvidence.raw_cas_refs value !=? expected)
                 || (ResultEvidence.raw_artifact_refs value !=? artifact_refs)) error
      | _ => Err error
      end
  end.

Definition validate_controlled_run (view : ControlledRunAdmissionView) (bindings : list (OperationId * WorkBindingRevision))
    (artifacts_of_command : list WorkArtifactId) (results : list ResultEvidence) (error : StoreError) (run : ExperimentRun)
    : result StoreError unit :=
  match ExperimentRun.comparison_execution_binding run with
  | None => Ok tt
  | Some binding =>
      let? attempt_id := ok_or (ExperimentRun.attempt_id run) error in
      let? attempt := ok_or (value_at attempt_id (attempts view)) error in
      do? guard ((Attempt.workstream_id attempt !=? ExperimentRun.workstream_id run)
          || (Attempt.strategy_contract_fingerprint attempt !=? ExperimentRun.strategy_contract_fingerprint run)) error in
      match value_at (ExperimentRun.run_id run) (runs view) with
      | None => validate_launch view bindings run binding attempt error
      | Some current => validate_completion view bindings artifacts_of_command results current run attempt error
      end
  end.

(** A result about a controlled run comes with the revision of the run it is about. *)
Definition orphan_result (view : ControlledRunAdmissionView) (payloads : list ControlledPayload) (value : ResultEvidence) : bool :=
  is_some_and (value_at (ResultEvidence.experiment_run_id value) (runs view))
    (fun run => is_some (ExperimentRun.comparison_execution_binding run))
  && negb (any (fun run => is_some (ExperimentRun.comparison_execution_binding run)
               && negb (ExperimentRun.is_declaration_only run)
               && (ResultEvidence.experiment_run_revision_id value ==? ExperimentRun.revision_id run)) (command_runs payloads)).

Definition validate_controlled_command (view : ControlledRunAdmissionView) (payloads : list ControlledPayload)
    (error : StoreError) : result StoreError unit :=
  let runs := command_runs payloads in
  do? guard (any (fun run => is_none (ExperimentRun.comparison_execution_binding run)
                             && negb (ExperimentRun.is_declaration_only run)) runs) error in
  if negb (any (fun run => is_some (ExperimentRun.comparison_execution_binding run)) runs) then Ok tt else
  let results := command_results payloads in
  let? bindings := map_err (fun _ => error)
    (current_binding_lineage ((fst <$> (work_bindings view).*2) ++ command_bindings payloads)) in
  do? for_each (validate_controlled_run view bindings (command_artifacts payloads) results error) runs in
  guard (any (orphan_result view payloads) results) error.
End admission.
