(* ===== verification/ControlledRunsFacts.v ===== *)
(** * Experiment runs, from declaration to completion

    What a run keeps over all its revisions, and what the admission of commands leaves
    of a controlled run: a declaration, and at most one completion of it.

    What the revisions of a run keep, what admission leaves of a controlled run, and
    that the store rebuilds what it recorded; with one run from launch to completion. *)

From stdpp Require Import relations.
From S2P Require Import Prelude Order Collections OrderedMap Text Canonical SpoolFrame Ids Lane Journal Attempt JournalRows Repository Work Constraint Evidence Recovery Spool Episode EpisodeOps Autoresearch Usage AutoresearchStore ControlledRuns.

Section history.
Context `{L : UuidLib} `{SHA : Sha256}.
Implicit Types (run : ExperimentRun).

Definition succeeds run next : Prop := ExperimentRun.validate_successor run next = Ok tt.

(** The contract of a run, which its fingerprints are computed from. *)
Definition contract_of run :=
  (ExperimentRun.run_id run, ExperimentRun.workstream_id run, ExperimentRun.strategy_contract_fingerprint run,
   (ExperimentRun.origin run, ExperimentRun.external_system_id run, ExperimentRun.external_run_key run),
   ExperimentRun.experiment_contract_fingerprint run, ExperimentRun.comparison_key run,
   (ExperimentRun.code_snapshot_id run, ExperimentRun.data_fingerprint run, ExperimentRun.normalized_config run,
    ExperimentRun.variable_declaration run, ExperimentRun.seed_policy run, ExperimentRun.seed_values run),
   (ExperimentRun.metric_definition run, ExperimentRun.metric_extractor_version run,
    ExperimentRun.multi_cas_metric_policy run, ExperimentRun.environment_fingerprint run),
   ExperimentRun.comparison_execution_binding run).

Record continues run next : Prop := {
  same_contract : contract_of run = contract_of next;
  kept_receipts : ExperimentRun.source_receipt_refs run ⊆ ExperimentRun.source_receipt_refs next;
  kept_artifacts : ExperimentRun.work_artifact_refs run ⊆ ExperimentRun.work_artifact_refs next;
  kept_evidence : ExperimentRun.terminal_evidence_refs run ⊆ ExperimentRun.terminal_evidence_refs next;
  observed_no_less : leb_ord (ExperimentRun.observability run) (ExperimentRun.observability next) = true;
  terminal_stays : ExperimentRun.is_terminal (ExperimentRun.execution_status run) = true ->
    ExperimentRun.execution_status next = ExperimentRun.execution_status run;
  verdict_stays : ExperimentRun.contract_validity run <> RunContractValidity.Unknown ->
    ExperimentRun.contract_validity next = ExperimentRun.contract_validity run;
  attempt_stays : ExperimentRun.attempt_binding_status run = AttemptBindingStatus.Resolved ->
    ExperimentRun.attempt_binding_status next = AttemptBindingStatus.Resolved
    /\ ExperimentRun.attempt_id next = ExperimentRun.attempt_id run;
}.

#[export] Instance continues_preorder : PreOrder continues.
Proof.
  split.
  - intros run. split; try done. apply leb_ord_true. by right.
  - intros a b c [A1 A2 A3 A4 A5 A6 A7 A8] [B1 B2 B3 B4 B5 B6 B7 B8]. split.
    + congruence.
    + by etrans.
    + by etrans.
    + by etrans.
    + by eapply leb_ord_trans.
    + intros H. rewrite <-(A6 H). apply B6. by rewrite (A6 H).
    + intros H. rewrite <-(A7 H). apply B7. by rewrite (A7 H).
    + intros H. destruct (A8 H) as [H1 H2]. destruct (B8 H1) as [? ?]. split; congruence.
Qed.

Lemma succeeds_continues run next : succeeds run next -> continues run next.
Proof.
  unfold succeeds, ExperimentRun.validate_successor. intros H. ok_steps H. clear G.
  unfold ExperimentRun.immutable_equal in *. guards. split.
  - unfold contract_of. congruence.
  - by apply contains_all_subset.
  - by apply contains_all_subset.
  - by apply contains_all_subset.
  - match goal with E : ltb_ord _ _ = false |- _ => revert E end.
    destruct (leb_ord (ExperimentRun.observability run) (ExperimentRun.observability next)) eqn:E; [done|].
    apply leb_ord_false, ltb_ord_true in E. by rewrite E.
  - match goal with E : status_progress _ _ = true |- _ => revert E end.
    destruct (ExperimentRun.execution_status run); simpl; intros E ?; guards; done.
  - match goal with E : validity_progress _ _ = true |- _ => revert E end. unfold validity_progress.
    intros [E|E]%orb_true_iff ?; guards; [done|congruence].
  - match goal with E : ExperimentRun.binding_progress _ _ = true |- _ => revert E end.
    unfold ExperimentRun.binding_progress. intros E H. rewrite H in E. guards. split; congruence.
Qed.

Lemma run_continues run next : rtc succeeds run next -> continues run next.
Proof. induction 1 as [|a b c H%succeeds_continues _ IH]; [reflexivity|]. by etrans. Qed.
End history.

(** ** Admitted commands *)

Section admission.
Context `{L : UuidLib} `{SHA : Sha256}.
Context (from_toml : string -> option ControlledRunSourceEnvelope) (to_toml : ControlledRunSourceEnvelope -> option string).
Implicit Types (run decl : ExperimentRun) (revisions : RunRevisions) (view : ControlledRunAdmissionView).

(** The runs of a command are recorded one by one. *)
Fixpoint record_runs (runs : RunMap) revisions (values : list ExperimentRun) (seq : N) (error : StoreError)
    : result StoreError (RunMap * option RunRevisions) :=
  match values with
  | [] => Ok (runs, Some revisions)
  | value :: values =>
      let? state := record_run runs (Some revisions) value seq error in
      let? revisions := ok_or state.2 error in
      record_runs state.1 revisions values seq error
  end.

(** Any number of commands, each checked against the state before it; which procedures
    are published may change in between. *)
Inductive admitted : RunMap -> RunRevisions -> Prop :=
| admitted_nil : admitted [] []
| admitted_step (PP : PublishedProcedures) view revisions payloads error seq runs' revisions' :
    admitted (ControlledRunAdmissionView.runs view) revisions ->
    validate_controlled_command from_toml to_toml view payloads error = Ok tt ->
    record_runs (ControlledRunAdmissionView.runs view) revisions (command_runs payloads) seq error = Ok (runs', Some revisions') ->
    admitted runs' revisions'.

(** A completion of a declaration. *)
Record completes decl run : Prop := {
  of_declaration : ExperimentRun.is_controlled_declaration decl = true;
  follows : ExperimentRun.parent_revision_id run = Some (ExperimentRun.revision_id decl);
  successor : succeeds decl run;
  observed_fully : ExperimentRun.observability run = RunObservability.Full;
  completed : ExperimentRun.execution_status run = RunExecutionStatus.Completed;
  found_valid : ExperimentRun.contract_validity run = RunContractValidity.Valid;
  same_start : ExperimentRun.started_at_us run = ExperimentRun.started_at_us decl;
  same_receipts : ExperimentRun.source_receipt_refs run = ExperimentRun.source_receipt_refs decl;
  same_attempt : ExperimentRun.attempt_id run = ExperimentRun.attempt_id decl;
}.

Definition controlled run : bool := is_some (ExperimentRun.comparison_execution_binding run).
Definition run_admissible (recorded : list (ExperimentRun * N)) run : Prop :=
  if controlled run then
    (ExperimentRun.parent_revision_id run = None /\ ExperimentRun.is_controlled_declaration run = true)
    \/ (exists decl n, (decl, n) ∈ recorded /\ completes decl run)
  else ExperimentRun.is_declaration_only run = true.

Lemma admissible_mono recorded recorded' run : recorded ⊆ recorded' -> run_admissible recorded run -> run_admissible recorded' run.
Proof.
  unfold run_admissible. intros Hs. destruct (controlled run); [|done]. intros [?|(decl & n & ? & ?)]; [by left|right].
  exists decl, n. split; [by apply Hs|done].
Qed.

Lemma launch_declares (PP : PublishedProcedures) view bindings run binding attempt error :
  validate_launch from_toml to_toml view bindings run binding attempt error = Ok tt ->
  ExperimentRun.parent_revision_id run = None /\ ExperimentRun.is_controlled_declaration run = true.
Proof.
  unfold validate_launch. intros H. apply rbind_ok in H as (u & G & _). apply guard_ok, orb_false_iff in G as [Hp Hd].
  split; [by apply is_some_false|by apply negb_false_iff].
Qed.

Lemma completion_completes view bindings artifacts results current run attempt error :
  validate_completion from_toml to_toml view bindings artifacts results current run attempt error = Ok tt ->
  completes current run.
Proof.
  unfold validate_completion. intros H. ok_step H. ok_step H. ok_step H. clear H. guards. by split.
Qed.

(** An accepted command is about run_admissible runs. *)
Lemma accepted_admissible (PP : PublishedProcedures) view payloads error recorded :
  validate_controlled_command from_toml to_toml view payloads error = Ok tt ->
  (forall id current, value_at id (ControlledRunAdmissionView.runs view) = Some current -> exists n, (current, n) ∈ recorded) ->
  Forall (run_admissible recorded) (command_runs payloads).
Proof.
  unfold validate_controlled_command. intros H Hview. apply rbind_ok in H as (u & G%guard_ok%any_false & H).
  assert (Hplain : Forall (fun run => controlled run = false -> run_admissible recorded run) (command_runs payloads)).
  { eapply Forall_impl; [exact G|]. intros run Hr Hc. unfold run_admissible. rewrite Hc. unfold controlled in Hc.
    cbn beta in Hr. apply andb_false_iff in Hr as [Hr|Hr]; [by apply is_none_false in Hr as [x Hx]; rewrite Hx in Hc|].
    by apply negb_false_iff in Hr. }
  destruct (negb (any _ _)) eqn:E.
  - apply negb_true_iff, any_false in E. rewrite Forall_forall in Hplain, E. apply Forall_forall. intros run Hin.
    apply Hplain; [done|]. by apply E.
  - apply rbind_ok in H as (bindings & _ & H). apply rbind_ok in H as (u2 & Heach & _). apply for_each_ok in Heach.
    rewrite Forall_forall in Hplain, Heach. apply Forall_forall. intros run Hin. specialize (Heach run Hin).
    specialize (Hplain run Hin). unfold controlled in Hplain. unfold run_admissible, controlled, validate_controlled_run in *.
    destruct (ExperimentRun.comparison_execution_binding run) as [binding|]; [|by apply Hplain]. simpl.
    apply rbind_ok in Heach as (attempt_id & _ & Heach). apply rbind_ok in Heach as (attempt & _ & Heach).
    apply rbind_ok in Heach as (u' & _ & Heach). destruct (value_at _ _) as [current|] eqn:Hc.
    + right. destruct (Hview _ _ Hc) as [n Hn]. exists current, n. split; [done|]. by eapply completion_completes.
    + left. by eapply launch_declares.
Qed.

Lemma record_runs_recorded runs revisions values seq error runs' revisions' :
  recorded runs revisions -> record_runs runs revisions values seq error = Ok (runs', Some revisions') ->
  recorded runs' revisions' /\ revisions.*2 ⊆ revisions'.*2
  /\ forall e, e ∈ revisions'.*2 -> e ∈ revisions.*2 \/ e.1 ∈ values.
Proof.
  revert runs revisions. induction values as [|value values IH]; intros runs revisions Hr; simpl.
  { intros [= <- <-]. split_and!; [done..|]. by left. }
  rewrite rbind_ok. intros ([runs1 revs1] & H1 & H). apply rbind_ok in H as (revisions1 & H2%ok_or_ok & H). simpl in *.
  subst revs1. destruct (IH runs1 revisions1) as (I1 & I2 & I3); [by eapply recorded_step|done|].
  apply record_ok in H1 as [_ [[-> ->]|(-> & -> & Hn & _)]].
  - split_and!; [done..|]. intros e He. destruct (I3 e He) as [?|?]; [by left|right; by right].
  - assert (Hperm := bmap_insert_perm (revision_of (Revisioned := run_revisions) value) (value, seq) revisions Hn). split_and!; [done|..].
    + intros e He. apply I2. rewrite Hperm. by right.
    + intros e He. destruct (I3 e He) as [Hin|?]; [|right; by right]. rewrite Hperm in Hin.
      apply elem_of_cons in Hin as [-> |?]; [right; left|by left].
Qed.

(** The current revision of an object is a recorded one. *)
Lemma current_recorded runs revisions id e : recorded (R := run_revisions) runs revisions -> bmap_get id runs = Some e -> e ∈ revisions.*2.
Proof.
  intros Hrec%recorded_consistent He. pose proof (objects_chained _ _ Hrec id) as Hc. rewrite He in Hc.
  destruct Hc as (root & rest & Hp & _ & <- & _).
  apply (elem_of_members (fun e => Some (object_id e.1)) id). fold (of_object id revisions). rewrite Hp. apply chain_end_elem.
Qed.

Lemma admitted_admissible runs revisions :
  admitted runs revisions -> recorded runs revisions /\ Forall (fun e => run_admissible revisions.*2 e.1) revisions.*2.
Proof.
  induction 1 as [|PP view revisions payloads error seq runs' revisions' _ [Hrec Hall] Hcheck Hruns].
  - split; constructor.
  - destruct (record_runs_recorded _ _ _ _ _ _ _ Hrec Hruns) as (Hrec' & Hsub & Hnew). split; [done|].
    apply Forall_forall. intros e He. eapply admissible_mono; [exact Hsub|].
    destruct (Hnew e He) as [Hold|Hin]; [rewrite Forall_forall in Hall; by apply Hall|].
    pose proof (accepted_admissible PP view payloads error revisions.*2 Hcheck) as Hacc. rewrite Forall_forall in Hacc.
    apply Hacc; [|done]. intros id current. unfold value_at.
    destruct (bmap_get id _) as [[c n]|] eqn:E; [|done]. intros [= ->]. exists n. by eapply current_recorded.
Qed.

Lemma admissible_root recorded run :
  run_admissible recorded run -> ExperimentRun.parent_revision_id run = None ->
  ExperimentRun.is_declaration_only run || ExperimentRun.is_controlled_declaration run = true.
Proof.
  unfold run_admissible. destruct (controlled run); [|by intros ->]. intros [[_ ->]|(decl & n & _ & Hc)] Hp; [by rewrite orb_true_r|].
  destruct Hc. congruence.
Qed.

(** What admission recorded is what a rebuild finds. *)
Lemma admitted_rebuilds runs revisions : admitted runs revisions -> rebuild_runs revisions = Ok runs.
Proof.
  intros [Hrec Hall]%admitted_admissible. apply rebuild_recorded; [done|]. intros e He Hp.
  rewrite Forall_forall in Hall. by apply (admissible_root _ _ (Hall e He)).
Qed.

Lemma revision_unique (l : list (ExperimentRun * N)) a b :
  NoDup (revision_ids (R := run_revisions) l) -> a ∈ l -> b ∈ l -> ExperimentRun.revision_id a.1 = ExperimentRun.revision_id b.1 -> a = b.
Proof.
  induction l as [|x l IH]; [by intros _ ?%elem_of_nil|]. intros Hnd Ha Hb Hab.
  pose proof (NoDup_cons_1_1 _ _ Hnd) as Hx. pose proof (NoDup_cons_1_2 _ _ Hnd) as Hnd'.
  change (ExperimentRun.revision_id x.1 ∉ (fun e : ExperimentRun * N => ExperimentRun.revision_id e.1) <$> l) in Hx.
  apply elem_of_cons in Ha as [-> |Ha], Hb as [-> |Hb]; [done|exfalso; apply Hx..|by apply IH].
  - rewrite Hab. by apply (list_elem_of_fmap_2 (fun e : ExperimentRun * N => ExperimentRun.revision_id e.1)).
  - rewrite <-Hab. by apply (list_elem_of_fmap_2 (fun e : ExperimentRun * N => ExperimentRun.revision_id e.1)).
Qed.

Lemma succeeds_controlled a b : succeeds a b -> controlled a = controlled b.
Proof. intros [E _ _ _ _ _ _ _]%succeeds_continues. apply (f_equal snd) in E. cbn in E. unfold controlled. by rewrite E. Qed.

(** The chain of a controlled run is a declaration, or a declaration and its completion. *)
Lemma admitted_chain runs revisions id run n :
  admitted runs revisions -> bmap_get id runs = Some (run, n) -> controlled run = true ->
  (of_object id revisions = [(run, n)] /\ ExperimentRun.is_controlled_declaration run = true)
  \/ (exists decl m, of_object id revisions ≡ₚ [(decl, m); (run, n)] /\ completes decl run).
Proof.
  intros [Hrec Hall]%admitted_admissible Hrun Hc. pose proof (recorded_consistent _ _ Hrec) as Hcons.
  pose proof (consistent_NoDup _ _ Hcons) as Hnd. pose proof (objects_chained _ _ Hcons id) as Hch. rewrite Hrun in Hch.
  destruct Hch as (root & rest & Hp & Hl & Hend & Hpar & _).
  assert (Hin : forall e, e ∈ root :: rest -> e ∈ revisions.*2 /\ run_admissible revisions.*2 e.1).
  { intros e He. rewrite <-Hp in He. apply elem_of_members in He as [He _]. split; [done|].
    rewrite Forall_forall in Hall. by apply Hall. }
  assert (Hdone : forall a b, a ∈ root :: rest -> b ∈ root :: rest -> controlled b.1 = true -> succeeds a.1 b.1 -> completes a.1 b.1).
  { intros a b [Ha _]%Hin [_ Hb]%Hin Hcb Hs. pose proof (is_ok_true (ExperimentRun.validate_successor a.1 b.1)) as [_ Hok].
    apply Hok, (successor_parent (R := run_revisions)) in Hs. cbn in Hs. unfold run_admissible in Hb. rewrite Hcb in Hb.
    destruct Hb as [[Hb _]|(decl & m & Hm & Hb)]; [congruence|]. pose proof (follows _ _ Hb) as Hf. rewrite Hs in Hf.
    injection Hf as Hf. by rewrite (revision_unique revisions.*2 a (decl, m) Hnd Ha Hm Hf). }
  destruct rest as [|a rest]; simpl in Hend; [subst root|].
  - left. split; [by apply Permutation_singleton_r|]. destruct (Hin (run, n)) as [_ Ha]; [left|].
    unfold run_admissible in Ha. cbn in Ha, Hpar. rewrite Hc in Ha. destruct Ha as [[_ ?]|(decl & m & _ & [])]; [done|congruence].
  - right. destruct Hl as (Hv%is_ok_true & _ & Hl).
    assert (Hkind : forall x l, linked (R := run_revisions) x l -> controlled (chain_end x l).1 = true -> controlled x.1 = true).
    { clear. intros x l. revert x. induction l as [|y l IH]; [done|]. intros x (Hx%is_ok_true & _ & Hl) He.
      rewrite (succeeds_controlled _ _ Hx). by apply IH. }
    assert (Ha : controlled a.1 = true) by (apply (Hkind a rest Hl); by rewrite Hend).
    assert (Hd : completes root.1 a.1) by (apply Hdone; [left|right; left|done|done]).
    destruct rest as [|b rest]; simpl in Hend; [subst a|].
    + exists root.1, root.2. split; [by destruct root|done].
    + exfalso. destruct Hl as (Hb%is_ok_true & _ & Hl).
      destruct (Hdone a b) as [Hdecl _ _ _ _ _ _ _ _]; [right; left|right; right; left| |done|].
      * rewrite <-(succeeds_controlled _ _ Hb). done.
      * pose proof (completed _ _ Hd) as Hcomp. unfold ExperimentRun.is_controlled_declaration in Hdecl. rewrite Hcomp in Hdecl.
        by rewrite !andb_false_r in Hdecl.
Qed.
End admission.

(** ** Theorems *)

(** Over any number of accepted successors an experiment run keeps its contract --
    everything its fingerprints are computed from -- and loses no receipt, artifact or
    terminal evidence; it is never observed less; and a terminal status, a verdict about
    the contract and a resolved attempt are final. *)
Theorem run_history `{L : UuidLib} `{SHA : Sha256} run next :
  rtc succeeds run next -> continues run next.
Proof. apply run_continues. Qed.

(** C22: whatever commands the store admitted, a current controlled run is either its own
    declaration, the only revision, or the one completion of a declaration: the two
    revisions of a chain, fully observed, completed and valid, with the start, receipts
    and attempt that were declared. *)
Theorem controlled_run_chain `{L : UuidLib} `{SHA : Sha256} from_toml to_toml runs revisions id run seq :
  admitted from_toml to_toml runs revisions -> bmap_get id runs = Some (run, seq) -> controlled run = true ->
  (of_object id revisions = [(run, seq)] /\ ExperimentRun.is_controlled_declaration run = true)
  \/ (exists decl m, of_object id revisions ≡ₚ [(decl, m); (run, seq)] /\ completes decl run).
Proof. apply admitted_chain. Qed.

(** C23: rebuilding the current runs from all admitted revisions, in the order of their
    identifiers, succeeds and gives the runs the commands left. *)
Theorem admitted_runs_rebuild `{L : UuidLib} `{SHA : Sha256} from_toml to_toml runs revisions :
  admitted from_toml to_toml runs revisions -> rebuild_runs revisions = Ok runs.
Proof. apply admitted_rebuilds. Qed.

(** And so for results and artifacts, whatever was recorded. *)
Theorem recorded_evidence_rebuilds `{SHA : Sha256} results result_log artifacts artifact_log :
  recorded (R := result_revisions) results result_log -> recorded (R := artifact_revisions) artifacts artifact_log ->
  rebuild_results result_log = Ok results /\ rebuild_artifacts artifact_log = Ok artifacts.
Proof. intros Hr Ha. split; apply rebuild_recorded; done. Qed.

Module ControlledWitnesses.
#[local] Instance zeros : Sha256 := zero_digest.

Definition uid {f} (n : N) : Id f := mk_id (mk_uuid (0x0190a3b17c2d7e4f8a9b0c1d2e3f4000 + n)).
Definition rid (n : N) : RevisionId := mk_rid (mk_uuid (0x0190a3b17c2d7e4f8a9b0c1d2e3f4000 + n)).
Definition digest {f} (b : byte) : DigestId f := from_digest (replicate 32 b).
Definition zero32 : list byte := replicate 32 Byte.x00.
Definition get {E A} (d : A) (m : result E A) : A := match m with Ok a => a | Err _ => d end.

(** ** The work: a task, a workstream, an episode that entered at the snapshot, an attempt *)

Definition procedure : RevisionId := rid 90.
Definition contract : StrategyContract :=
  StrategyContract.mk "hypothesis" "intervention" "family" (Some (rid_display procedure)) None "effect" [] "boundary".
Definition attempt : Attempt :=
  Attempt.mk (uid 40) (rid 50) None 1 (uid 41) (uid 42) None (Some (uid 10)) [uid 22] [] [] []
    AttemptExecutionStatus.Active AttemptAdoptionStatus.None AttemptVerification.Unverified AttemptLifecycleStatus.Active
    contract zero32 None [] [] None None None [] [] [] [] [] [] [] [] AttemptOutcomeState.Unknown [] None [] [] None 5.
Definition task : Task :=
  Task.mk (uid 41) (rid 43) None [] "goal" [] TaskIdentityConfidence.Explicit TaskLifecycle.Active None None [] [] None 1 None 1.
Definition phase : PhaseContract := PhaseContract.mk "goal" PhaseKind.Implement "label" [] [] "boundary" "transition".
Definition workstream : Workstream :=
  Workstream.mk (uid 42) (rid 44) None (uid 41) (Some (uid 10)) [uid 22] (Some (uid 22)) [] None [] WorkstreamStatus.Active
    "root" "goal" "family" "hypothesis" "boundary" phase None [] 6.
Definition episode : option WorkEpisode := Eval vm_compute in
  match EpisodeCommands.new_episode (uid 45) (rid 46) workstream (Some (uid 5)) 10 with Ok e => Some e | Err _ => None end.
Definition worktree : WorktreeInstance :=
  WorktreeInstance.mk (uid 22) 1 None (uid 10) WorktreeKind.Main WorktreeLifecycle.Active None [] []
    GitRegistrationState.Registered None "event" None None 15.
Definition snapshot : WorktreeSnapshot :=
  WorktreeSnapshot.mk (uid 5) (uid 22) None None None false None None None [] [] (Some "toolchain") GitOperation.None 15 []
    SnapshotCaptureStatus.Complete [].
Definition usage : ProcedureUsageRevision :=
  ProcedureUsageRevision.mk (uid 47) (rid 48) None 1 procedure (uid 41) (uid 42) (rid 46) "boundary"
    ProcedureUsageRouteDecision.Apply ProcedureUsageStage.Claimed [uid 40] [] [] [] [] [] []
    ProcedureCorrelationState.Resolved ProcedureTruth.True_ ProcedureTruth.Unknown ProcedureTruth.Unknown ProcedureTruth.Unknown
    (ProcedureLocalContext.mk (Some (uid 10)) (Some (uid 22)) ProcedureUsagePhase.AtEntry None) 1 ["evidence"%string] 1.

(** ** The run *)

Definition execution : ComparisonExecutionBinding :=
  ComparisonExecutionBinding.mk 1 "toolchain" "model" "harness" "algorithm" 100 (Some procedure) MetricDirection.HigherIsBetter
    "points" "0.5" "0.5".
Definition run_with (revision : N) (parent : option RevisionId) (observability : RunObservability) (status : RunExecutionStatus)
    (validity : RunContractValidity) (terminal : list SourceReceiptId) (ended : option Z) : ExperimentRun :=
  ExperimentRun.mk (uid 70) (rid revision) parent (uid 42) (Some (uid 40)) AttemptBindingStatus.Resolved zero32
    RunOrigin.Local None None [digest Byte.x11] observability status validity zero32 (uid 5) "data"
    [ContractField.mk "rate" "0.1"] (VariableDeclaration.mk ["rate"%string] [] []) zero32 SeedPolicy.Fixed ["7"%string] false
    "metric" result_metric_version MultiCasMetricPolicy.RejectMultipleParsed "environment" (Some execution) [] terminal 5 (Some 6%Z) ended.
Definition declared := run_with 71 None RunObservability.Declared RunExecutionStatus.Unknown RunContractValidity.Unknown [] None.
Definition finished := run_with 72 (Some (rid 71)) RunObservability.Full RunExecutionStatus.Completed RunContractValidity.Valid
  [digest Byte.x12] (Some 9%Z).
Definition metric : MetricValue := MetricValue.mk "1.5" "points" None.
Definition measured : ResultEvidence :=
  ResultEvidence.mk (uid 73) (rid 74) None (uid 70) (rid 72) ResultScope.Complete [] [digest Byte.x00] (Some metric)
    (ParserReceipt.mk result_metric_version [] [digest Byte.x00] ParserStatus.Parsed None)
    (Some (VerifierReceipt.mk "evertrace.result_reparse.v1" VerifierStatus.Passed None)) EvidenceCompleteness.Complete None 9.

(** ** What the host wrote *)

Definition launch_text : string := "launch".
Definition terminal_text : string := "terminal".
Definition launch : ControlledRunSourceEnvelope :=
  ControlledRunSourceEnvelope.Launch
    (ControlledLaunch.mk 1 (uid 40) procedure (uid 5) "data" [ContractField.mk "rate" "0.1"]
      (VariableDeclaration.mk ["rate"%string] [] []) SeedPolicy.Fixed ["7"%string] false "metric" result_metric_version
      MultiCasMetricPolicy.RejectMultipleParsed "environment" execution 6).
Definition terminal : ControlledRunSourceEnvelope :=
  ControlledRunSourceEnvelope.Terminal (ControlledTerminal.mk 1 (uid 70) 9 metric []).
Definition from_toml (text : string) : option ControlledRunSourceEnvelope :=
  if bool_decide (text = launch_text) then Some launch else if bool_decide (text = terminal_text) then Some terminal else None.
Definition to_toml (value : ControlledRunSourceEnvelope) : option string :=
  Some (match value with ControlledRunSourceEnvelope.Launch _ => launch_text | ControlledRunSourceEnvelope.Terminal _ => terminal_text end).

Definition zero_hex : string := hex zero32.
Definition correlation (role : ObservationRole) : HostCorrelationEvidence :=
  HostCorrelationEvidence.mk 1 None None None None None None role [] "manifest" 1 None CorrelationAdmission.Ambiguous None None.
Definition observation (b : byte) (role : ObservationRole) : SourceObservation :=
  SourceObservation.mk (digest b) "source" "1" "record" role Lane.IdentityStrength.StableNative zero_hex (digest b)
    SourceRole.Host ContentTrust.Observed CaptureCompleteness.Complete 1 1 1 1 1 (correlation role) [] None.
Definition receipt (b : byte) (role : ObservationRole) : SourceReceipt :=
  SourceReceipt.mk (digest b) (digest b) "source" EvidenceSourceKind.CodexHook "codex" "hook" "abc" "1" "record"
    Lane.IdentityStrength.StableNative 1 None None None None None (EvidenceByteRange.mk 0 10) SourceRevisionMode.Append None None
    role None CaptureCompleteness.Complete SourceArchiveMode.Exact zero_hex 10 None 10 None [] 1
    "adapter" "eligible" 1 1 1 1 1 40 41 None.
Definition surface (b : byte) (text : string) : EvidenceSurface :=
  EvidenceSurface.mk (digest b) SourceRole.Host ContentTrust.Observed InstructionAuthority.None None None None 40 41 1
    CaptureCompleteness.Complete 1 zero_hex 1 text.
Definition operation : Operation :=
  Operation.mk (uid 80) (digest Byte.x20) None OperationKind.Mutate [digest Byte.x11] [digest Byte.x12]
    PairingState.Paired [] [] 1 1 None None.
Definition binding : WorkBindingRevision :=
  WorkBindingRevision.mk (uid 81) (uid 80) 1 None
    (PrimaryWorkBinding.mk (Some (uid 41)) (Some (uid 42)) None (Some (uid 40)) (Some (uid 70)) None)
    [] [] AssignmentStatus.Resolved ["evidence"%string] 1.

(** ** The commands *)

Definition view (runs : RunMap) : ControlledRunAdmissionView :=
  ControlledRunAdmissionView.mk runs [(uid 40, (attempt, 3%N))] [(uid 81, (binding, 4%N))] [(uid 80, (operation, 4%N))]
    [(uid 5, (snapshot, 3%N))]
    [(digest Byte.x11, (receipt Byte.x11 ObservationRole.Intent, 4%N)); (digest Byte.x12, (receipt Byte.x12 ObservationRole.Result, 4%N))]
    [(digest Byte.x11, (observation Byte.x11 ObservationRole.Intent, 4%N));
     (digest Byte.x12, (observation Byte.x12 ObservationRole.Result, 4%N))]
    [(digest Byte.x11, (surface Byte.x11 launch_text, 4%N)); (digest Byte.x12, (surface Byte.x12 terminal_text, 4%N))]
    [] [(uid 47, (usage, 4%N))] [(uid 41, (task, 3%N))] [(uid 42, (workstream, 3%N))]
    match episode with Some e => [(uid 45, (e, 3%N))] | None => [] end
    match episode with Some e => [(rid 46, (e, 3%N))] | None => [] end
    [(uid 22, (worktree, 3%N))].
#[local] Instance published : PublishedProcedures := fun id => bool_decide (id = procedure).
Definition launched : list ControlledPayload := [ControlledPayload.ExperimentRunRecorded declared].
Definition completion : list ControlledPayload :=
  [ControlledPayload.ExperimentRunRecorded finished; ControlledPayload.ResultEvidenceRecorded measured].
Definition runs1 : RunMap := [(uid 70, (declared, 5%N))].
Definition log1 : RunRevisions := [(rid 71, (declared, 5%N))].
Definition runs2 : RunMap := [(uid 70, (finished, 6%N))].
Definition log2 : RunRevisions := [(rid 71, (declared, 5%N)); (rid 72, (finished, 6%N))].

Example launch_accepted : validate_controlled_command from_toml to_toml (view []) launched StoreError.StoreCorrupt = Ok tt.
Proof. vm_compute. reflexivity. Qed.
Example completion_accepted : validate_controlled_command from_toml to_toml (view runs1) completion StoreError.StoreCorrupt = Ok tt.
Proof. vm_compute. reflexivity. Qed.
(** The store does not compare the run that the terminal envelope names. *)
Theorem terminal_of_another_run :
  let other (text : string) :=
    if bool_decide (text = launch_text) then Some launch
    else Some (ControlledRunSourceEnvelope.Terminal (ControlledTerminal.mk 1 (uid 999) 9 metric [])) in
  uid 999 <> ExperimentRun.run_id finished
  /\ validate_controlled_command other to_toml (view runs1) completion StoreError.StoreCorrupt = Ok tt.
Proof. vm_compute. split; [discriminate|reflexivity]. Qed.
(** A result is part of a completion. *)
Example completion_needs_result :
  validate_controlled_command from_toml to_toml (view runs1) (take 1 completion) StoreError.StoreCorrupt = Err StoreError.StoreCorrupt.
Proof. vm_compute. reflexivity. Qed.
(** A completed run takes no further completion. *)
Example completion_once : is_err (validate_controlled_command from_toml to_toml (view runs2) completion StoreError.StoreCorrupt) = true.
Proof. vm_compute. reflexivity. Qed.

Lemma both_admitted : admitted from_toml to_toml runs2 log2.
Proof.
  apply (admitted_step _ _ published (view runs1) log1 completion StoreError.StoreCorrupt 6); [|vm_compute; reflexivity..].
  apply (admitted_step _ _ published (view []) [] launched StoreError.StoreCorrupt 5); [constructor|vm_compute; reflexivity..].
Qed.

Lemma controlled_run_chain_witness :
  controlled finished = true /\ exists decl m, of_object (uid 70) log2 ≡ₚ [(decl, m); (finished, 6%N)] /\ completes decl finished.
Proof.
  split; [reflexivity|].
  destruct (controlled_run_chain from_toml to_toml runs2 log2 (uid 70) finished 6 both_admitted) as [[_ H]|H];
    [vm_compute; reflexivity|reflexivity|vm_compute in H; discriminate|exact H].
Defined.

Lemma admitted_runs_rebuild_witness : rebuild_runs log2 = Ok runs2.
Proof. exact (admitted_runs_rebuild from_toml to_toml runs2 log2 both_admitted). Defined.

Lemma run_history_witness : continues declared finished.
Proof. apply run_history. apply rtc_once. vm_compute. reflexivity. Defined.

Definition results1 : ResultMap := [(uid 73, (measured, 6%N))].
Definition result_log1 : Revisions := [(rid 74, (measured, 6%N))].
Lemma recorded_evidence_rebuilds_witness : rebuild_results result_log1 = Ok results1 /\ rebuild_artifacts [] = Ok [].
Proof.
  apply recorded_evidence_rebuilds; [|constructor].
  eapply (recorded_step (R := result_revisions) [] [] measured 6 StoreError.StoreCorrupt);
    [apply (recorded_nil (R := result_revisions))|vm_compute; reflexivity].
Defined.
End ControlledWitnesses.
