(* ===== verification/Procedure.v ===== *)
(** * Procedures (crates/evertrace-domain/src/procedure.rs)

    A procedure is a learned way of working, revised revision by revision: its draft says
    when it applies, what to do and when it is done.  The publication of a revision is a
    state machine of its own, recorded as events; a draft may be published without review
    when its eligibility audit says so. *)

From S2P Require Import Prelude Order Collections Text Ids Constraint Atom.

Definition PROCEDURE_MAX_TEXT : N := 2048.
Definition PROCEDURE_MAX_ITEMS : nat := 64.
Definition PROCEDURE_MAX_REFS : nat := 256.

Definition procedure_text (value : string) : bool :=
  negb (str_is_empty value) && (str_len value <=? PROCEDURE_MAX_TEXT)%N && negb (any is_control (chars value)).
Definition ordered_text (values : list string) : bool :=
  (length values <=? PROCEDURE_MAX_ITEMS)%nat && all procedure_text values.
Definition sorted_text (values : list string) : bool :=
  negb (is_empty values) && (length values <=? PROCEDURE_MAX_REFS)%nat && ordered_text values && windows2_all ltb_ord values.

Module ProcedureKind.
Inductive ProcedureKind :=
| Workflow
| Diagnostic
| Guardrail.
#[export] Instance eq_dec : EqDecision ProcedureKind.
Proof. solve_decision. Defined.
End ProcedureKind.
Abbreviation ProcedureKind := ProcedureKind.ProcedureKind.
Export (hints) ProcedureKind.
Module ProcedureScope.
Inductive ProcedureScope :=
| Worktree (repository_id : RepositoryId) (worktree_id : WorktreeId)
| Repository (repository_id : RepositoryId)
| Global.
#[export] Instance eq_dec : EqDecision ProcedureScope.
Proof. solve_decision. Defined.
End ProcedureScope.
Abbreviation ProcedureScope := ProcedureScope.ProcedureScope.
Export (hints) ProcedureScope.

(** [contains]: the scope of a successor lies within that of the revision before. *)
Definition scope_contains (self next : ProcedureScope) : bool :=
  match self, next with
  | ProcedureScope.Global, _ => true
  | ProcedureScope.Repository repository_id, ProcedureScope.Repository next_repository
  | ProcedureScope.Repository repository_id, ProcedureScope.Worktree next_repository _ =>
      as_uuid repository_id ==? as_uuid next_repository
  | ProcedureScope.Worktree repository_id worktree_id, ProcedureScope.Worktree next_repository next_worktree =>
      (as_uuid repository_id ==? as_uuid next_repository) && (as_uuid worktree_id ==? as_uuid next_worktree)
  | _, _ => false
  end.

Module ProcedureWhen.
Record ProcedureWhen := mk {
  goals : list string;
  targets : list string;
  signals : list string;
  stage : string;
  requires : list string;
  excludes : list string;
}.
#[export] Instance eq_dec : EqDecision ProcedureWhen.
Proof. solve_decision. Defined.
End ProcedureWhen.
Abbreviation ProcedureWhen := ProcedureWhen.ProcedureWhen.
Export (hints) ProcedureWhen.
Module ProcedureBranch.
Record ProcedureBranch := mk {
  label : string;
  condition : ConstraintExpr;
  stages : list string;
}.
#[export] Instance eq_dec : EqDecision ProcedureBranch.
Proof. solve_decision. Defined.
End ProcedureBranch.
Abbreviation ProcedureBranch := ProcedureBranch.ProcedureBranch.
Export (hints) ProcedureBranch.
Module ProcedureActions.
Record ProcedureActions := mk {
  stages : list string;
  branches : list ProcedureBranch;
  avoid : list string;
}.
#[export] Instance eq_dec : EqDecision ProcedureActions.
Proof. solve_decision. Defined.
End ProcedureActions.
Abbreviation ProcedureActions := ProcedureActions.ProcedureActions.
Export (hints) ProcedureActions.
Module ProcedureDone.
Record ProcedureDone := mk {
  success : list string;
  abort : list string;
  verify : list string;
}.
#[export] Instance eq_dec : EqDecision ProcedureDone.
Proof. solve_decision. Defined.
End ProcedureDone.
Abbreviation ProcedureDone := ProcedureDone.ProcedureDone.
Export (hints) ProcedureDone.
Module ProcedureStepAlignment.
Record ProcedureStepAlignment := mk {
  entry : ConstraintExpr;
  progress : ConstraintExpr;
  completed : ConstraintExpr;
}.
#[export] Instance eq_dec : EqDecision ProcedureStepAlignment.
Proof. solve_decision. Defined.
End ProcedureStepAlignment.
Abbreviation ProcedureStepAlignment := ProcedureStepAlignment.ProcedureStepAlignment.
Export (hints) ProcedureStepAlignment.
Module ProcedureBranchAlignment.
Record ProcedureBranchAlignment := mk {
  at_main_step : N;
  steps : list ProcedureStepAlignment;
}.
#[export] Instance eq_dec : EqDecision ProcedureBranchAlignment.
Proof. solve_decision. Defined.
End ProcedureBranchAlignment.
Abbreviation ProcedureBranchAlignment := ProcedureBranchAlignment.ProcedureBranchAlignment.
Export (hints) ProcedureBranchAlignment.
Module ProcedureStageAlignment.
Record ProcedureStageAlignment := mk {
  main : list ProcedureStepAlignment;
  branches : list ProcedureBranchAlignment;
}.
#[export] Instance eq_dec : EqDecision ProcedureStageAlignment.
Proof. solve_decision. Defined.
End ProcedureStageAlignment.
Abbreviation ProcedureStageAlignment := ProcedureStageAlignment.ProcedureStageAlignment.
Export (hints) ProcedureStageAlignment.

Module ProcedureDraft.
Record ProcedureDraft := mk {
  scope : ProcedureScope;
  title : string;
  summary : string;
  kind : ProcedureKind;
  when : ProcedureWhen;
  condition_ir_version : N;
  applicability_expr : ConstraintExpr;
  avoid_expr : ConstraintExpr;
  completion_expr : ConstraintExpr;
  stage_alignment : option ProcedureStageAlignment;
  actions : ProcedureActions;
  done : ProcedureDone;
  pitfalls : list string;
  evidence_refs : list string;
  support_revision_refs : list RevisionId;
}.
#[export] Instance eq_dec : EqDecision ProcedureDraft.
Proof. solve_decision. Defined.
(** The long disjunction of [validate]. *)
Definition malformed (self : ProcedureDraft) : bool :=
  let w := when self in
  let a := actions self in
  let d := done self in
  negb (condition_ir_version self =? 1)%N
  || negb (procedure_text (title self))
  || negb (procedure_text (summary self))
  || negb (procedure_text (ProcedureWhen.stage w))
  || negb (ordered_text (ProcedureWhen.goals w))
  || negb (ordered_text (ProcedureWhen.targets w))
  || negb (ordered_text (ProcedureWhen.signals w))
  || negb (ordered_text (ProcedureWhen.requires w))
  || negb (ordered_text (ProcedureWhen.excludes w))
  || negb (ordered_text (ProcedureActions.stages a))
  || negb (ordered_text (ProcedureActions.avoid a))
  || is_empty (ProcedureActions.stages a)
  || (PROCEDURE_MAX_ITEMS <? length (ProcedureActions.branches a))%nat
  || negb (ordered_text (ProcedureDone.success d))
  || negb (ordered_text (ProcedureDone.abort d))
  || negb (ordered_text (ProcedureDone.verify d))
  || is_empty (ProcedureDone.success d)
  || is_empty (ProcedureDone.abort d)
  || is_empty (ProcedureDone.verify d)
  || negb (ordered_text (pitfalls self))
  || is_empty (evidence_refs self)
  || negb (sorted_text (evidence_refs self))
  || (PROCEDURE_MAX_REFS <? length (support_revision_refs self))%nat
  || negb (windows2_all ltb_ord (support_revision_refs self))
  || (scope self ==? ProcedureScope.Global) && is_empty (support_revision_refs self).

Definition validate_branch (branch : ProcedureBranch) : result SemanticError unit :=
  do? guard (negb (procedure_text (ProcedureBranch.label branch)) || is_empty (ProcedureBranch.stages branch)
             || negb (ordered_text (ProcedureBranch.stages branch))) SemanticError.InvalidProcedure in
  ConstraintExpr.validate (ProcedureBranch.condition branch).
Definition validate_step (step : ProcedureStepAlignment) : result SemanticError unit :=
  do? ConstraintExpr.validate (ProcedureStepAlignment.entry step) in
  do? ConstraintExpr.validate (ProcedureStepAlignment.progress step) in
  ConstraintExpr.validate (ProcedureStepAlignment.completed step).
Definition alignment_steps (alignment : ProcedureStageAlignment) : list ProcedureStepAlignment :=
  ProcedureStageAlignment.main alignment
  ++ (ProcedureStageAlignment.branches alignment ≫= ProcedureBranchAlignment.steps).
Definition validate_alignment (actions : ProcedureActions) (alignment : ProcedureStageAlignment) : result SemanticError unit :=
  let main := ProcedureStageAlignment.main alignment in
  let branches := ProcedureStageAlignment.branches alignment in
  do? guard (negb (length main =? length (ProcedureActions.stages actions))%nat
             || negb (length branches =? length (ProcedureActions.branches actions))%nat
             || (64 <? length main + sum_list ((fun branch => length (ProcedureBranchAlignment.steps branch)) <$> branches))%nat)
        SemanticError.InvalidProcedure in
  do? for_each (fun pair =>
        guard ((N.of_nat (length main) <=? ProcedureBranchAlignment.at_main_step pair.1)%N
               || negb (length (ProcedureBranchAlignment.steps pair.1) =? length (ProcedureBranch.stages pair.2))%nat)
          SemanticError.InvalidProcedure) (zip branches (ProcedureActions.branches actions)) in
  for_each validate_step (alignment_steps alignment).

Definition validate (self : ProcedureDraft) : result SemanticError unit :=
  do? guard (malformed self) SemanticError.InvalidProcedure in
  do? for_each validate_branch (ProcedureActions.branches (actions self)) in
  do? ConstraintExpr.validate (applicability_expr self) in
  do? ConstraintExpr.validate (avoid_expr self) in
  do? (match stage_alignment self with Some alignment => validate_alignment (actions self) alignment | None => Ok tt end) in
  ConstraintExpr.validate (completion_expr self).
End ProcedureDraft.
Abbreviation ProcedureDraft := ProcedureDraft.ProcedureDraft.
Export (hints) ProcedureDraft.

Module ProcedureRevision.
Record ProcedureRevision := mk {
  procedure_id : ProcedureId;
  revision_id : RevisionId;
  parent_revision_id : option RevisionId;
  revision_generation : N;
  draft : ProcedureDraft;
  source_watermark : N;
  created_at_us : Z;
}.
#[export] Instance eq_dec : EqDecision ProcedureRevision.
Proof. solve_decision. Defined.
Definition validate (self : ProcedureRevision) : result SemanticError unit :=
  do? ProcedureDraft.validate (draft self) in
  guard ((revision_generation self =? 0)%N || (source_watermark self =? 0)%N || (created_at_us self <? 0)%Z
         || negb (Bool.eqb (is_some (parent_revision_id self)) (1 <? revision_generation self)%N))
    SemanticError.InvalidProcedure.
Definition same_behavior (self next : ProcedureRevision) : bool := draft self ==? draft next.
(** [u32::saturating_add] *)
Definition saturating_add_u32 (a b : N) : N := N.min (a + b) U32_MAX.
Definition validate_successor (self next : ProcedureRevision) : result SemanticError unit :=
  do? validate next in
  guard ((procedure_id next !=? procedure_id self)
         || (parent_revision_id next !=? Some (revision_id self))
         || negb (revision_generation next =? saturating_add_u32 (revision_generation self) 1)%N
         || negb (scope_contains (ProcedureDraft.scope (draft self)) (ProcedureDraft.scope (draft next)))
         || (created_at_us next <? created_at_us self)%Z
         || same_behavior self next) SemanticError.InvalidProcedureSuccessor.

(** The texts a route is chosen by, while they fit. *)
Definition route_texts (self : ProcedureRevision) : list (string * string) :=
  let d := draft self in
  let w := ProcedureDraft.when d in
  let f := ProcedureDraft.done d in
  (([("title", [ProcedureDraft.title d]); ("summary", [ProcedureDraft.summary d]); ("stage", [ProcedureWhen.stage w]);
     ("goal", ProcedureWhen.goals w); ("target", ProcedureWhen.targets w); ("signal", ProcedureWhen.signals w);
     ("requires", ProcedureWhen.requires w); ("excludes", ProcedureWhen.excludes w); ("done", ProcedureDone.success f);
     ("abort", ProcedureDone.abort f); ("verify", ProcedureDone.verify f); ("pitfall", ProcedureDraft.pitfalls d)])%string
    : list (string * list string)) ≫= fun entry => (fun value => (entry.1, value)) <$> entry.2.
Definition saturating_add_usize (a b : N) : N := N.min (a + b) U64_MAX.
Fixpoint take_fields (texts : list (string * string)) (max_bytes used : N) : list string :=
  match texts with
  | [] => []
  | (label, value) :: texts =>
      let bytes := (str_len label + 1 + str_len value)%N in
      if (max_bytes <? saturating_add_usize (saturating_add_usize used bytes) 1)%N then []
      else (label ++ ":" ++ value)%string :: take_fields texts max_bytes (used + bytes + 1)
  end.
Definition route_text_fields (self : ProcedureRevision) (max_bytes : N) : list string :=
  take_fields (route_texts self) max_bytes 0.
End ProcedureRevision.
Abbreviation ProcedureRevision := ProcedureRevision.ProcedureRevision.
Export (hints) ProcedureRevision.

(** ** Publication *)

Module ProcedurePublicationState.
Inductive ProcedurePublicationState :=
| ActiveProbationary
| ReviewHold
| ActiveStable
| Suspended
| RolledBack
| Superseded.
#[export] Instance eq_dec : EqDecision ProcedurePublicationState.
Proof. solve_decision. Defined.
End ProcedurePublicationState.
Abbreviation ProcedurePublicationState := ProcedurePublicationState.ProcedurePublicationState.
Export (hints) ProcedurePublicationState.
Module ProcedureStateReason.
Inductive ProcedureStateReason :=
| Accepted
| SupportPending
| SupportRestored
| ObjectiveSuccesses
| IrConflict
| SuspectedHarm
| ConfirmedHarm
| EvidenceInvalidated
| ContractInvalidated
| Manual
| Replaced
| Rollback.
#[export] Instance eq_dec : EqDecision ProcedureStateReason.
Proof. solve_decision. Defined.
End ProcedureStateReason.
Abbreviation ProcedureStateReason := ProcedureStateReason.ProcedureStateReason.
Export (hints) ProcedureStateReason.

Definition publication_transition (from to : ProcedurePublicationState) : bool :=
  match from, to with
  | ProcedurePublicationState.ActiveProbationary,
      (ProcedurePublicationState.ReviewHold | ProcedurePublicationState.ActiveStable | ProcedurePublicationState.Suspended
       | ProcedurePublicationState.RolledBack | ProcedurePublicationState.Superseded)
  | ProcedurePublicationState.ActiveStable,
      (ProcedurePublicationState.ReviewHold | ProcedurePublicationState.Suspended | ProcedurePublicationState.RolledBack
       | ProcedurePublicationState.Superseded)
  | ProcedurePublicationState.ReviewHold,
      (ProcedurePublicationState.ActiveProbationary | ProcedurePublicationState.Suspended | ProcedurePublicationState.Superseded)
  | ProcedurePublicationState.Suspended,
      (ProcedurePublicationState.ActiveProbationary | ProcedurePublicationState.RolledBack | ProcedurePublicationState.Superseded)
  | ProcedurePublicationState.RolledBack, ProcedurePublicationState.Superseded
  | ProcedurePublicationState.Superseded, ProcedurePublicationState.ActiveProbationary => true
  | _, _ => false
  end.

Module ProcedureStateEvent.
Record ProcedureStateEvent := mk {
  state_event_id : RevisionId;
  procedure_revision_id : RevisionId;
  from_state : option ProcedurePublicationState;
  to_state : ProcedurePublicationState;
  reason : ProcedureStateReason;
  resume_state : option ProcedurePublicationState;
  evidence_refs : list string;
  created_at_us : Z;
}.
#[export] Instance eq_dec : EqDecision ProcedureStateEvent.
Proof. solve_decision. Defined.
Definition transition_allowed (self : ProcedureStateEvent) : bool :=
  match from_state self with
  | None => is_none (resume_state self)
  | Some from =>
      let resume_shape :=
        if to_state self ==? ProcedurePublicationState.ReviewHold then resume_state self ==? Some from
        else is_none (resume_state self) in
      let rollback_restore :=
        (from !=? ProcedurePublicationState.Superseded) || (to_state self !=? ProcedurePublicationState.ActiveProbationary)
        || (reason self ==? ProcedureStateReason.Rollback) in
      publication_transition from (to_state self) && resume_shape && rollback_restore
  end.
Definition validate (self : ProcedureStateEvent) : result SemanticError unit :=
  guard ((created_at_us self <? 0)%Z
         || is_empty (evidence_refs self)
         || negb (sorted_text (evidence_refs self))
         || is_none (from_state self) && (to_state self !=? ProcedurePublicationState.ActiveProbationary)
         || is_none (from_state self) && (reason self !=? ProcedureStateReason.Accepted)
         || negb (transition_allowed self)) SemanticError.InvalidProcedurePublication.
End ProcedureStateEvent.
Abbreviation ProcedureStateEvent := ProcedureStateEvent.ProcedureStateEvent.
Export (hints) ProcedureStateEvent.

(** ** Publication without review *)

Module PromotionLevel.
Inductive PromotionLevel :=
| Manual
| SemiAuto
| FullAuto.
#[export] Instance eq_dec : EqDecision PromotionLevel.
Proof. solve_decision. Defined.
End PromotionLevel.
Abbreviation PromotionLevel := PromotionLevel.PromotionLevel.
Export (hints) PromotionLevel.
Module ProcedureEligibilityEvidence.
Record ProcedureEligibilityEvidence := mk {
  independent_successes : N;
  retrospective_contrasts : N;
  objective_verifier_present : bool;
  evidence_complete : bool;
  non_triviality_passed : bool;
  when_done_contract_complete : bool;
  unresolved_contradictions : N;
  redundancy_check_passed : bool;
  distinct_applicability_contexts : N;
  confirmed_harm : N;
  unresolved_suspected_harm : N;
  applicability_expr_complete : bool;
  verifier_observation_ref : option SourceObservationId;
}.
#[export] Instance eq_dec : EqDecision ProcedureEligibilityEvidence.
Proof. solve_decision. Defined.
Definition auto_eligible_full (self : ProcedureEligibilityEvidence) (global global_full_auto : bool) : bool :=
  ((if global then 3 else 2) <=? independent_successes self)%N
  && (1 <=? retrospective_contrasts self)%N
  && objective_verifier_present self
  && is_some (verifier_observation_ref self)
  && evidence_complete self
  && non_triviality_passed self
  && when_done_contract_complete self
  && (unresolved_contradictions self =? 0)%N
  && redundancy_check_passed self
  && (negb global
      || global_full_auto && (2 <=? distinct_applicability_contexts self)%N && (confirmed_harm self =? 0)%N
         && (unresolved_suspected_harm self =? 0)%N && applicability_expr_complete self).
End ProcedureEligibilityEvidence.
Abbreviation ProcedureEligibilityEvidence := ProcedureEligibilityEvidence.ProcedureEligibilityEvidence.
Export (hints) ProcedureEligibilityEvidence.

Definition PROCEDURE_ELIGIBILITY_VALIDATOR_REVISION : string := "s24-procedure-eligibility-v1".

Module ProcedureAutoFullAudit.
Record ProcedureAutoFullAudit := mk {
  validator_revision : string;
  eligibility : ProcedureEligibilityEvidence;
  procedure_promotion_level : PromotionLevel;
  eligible : bool;
  capability_inventory_refs : option (list JobId);
}.
#[export] Instance eq_dec : EqDecision ProcedureAutoFullAudit.
Proof. solve_decision. Defined.
Definition validate (self : ProcedureAutoFullAudit) (global : bool) : result SemanticError unit :=
  let global_full_auto := procedure_promotion_level self ==? PromotionLevel.FullAuto in
  let expected := (negb global || global_full_auto)
                  && ProcedureEligibilityEvidence.auto_eligible_full (eligibility self) global global_full_auto in
  guard ((validator_revision self !=? PROCEDURE_ELIGIBILITY_VALIDATOR_REVISION)
         || negb (Bool.eqb (eligible self) expected)
         || negb (eligible self)
         || is_some_and (capability_inventory_refs self) (fun refs =>
              is_empty refs || (8 <? length refs)%nat || windows2_any (fun a b => leb_ord b a) refs))
    SemanticError.InvalidProposal.
End ProcedureAutoFullAudit.
Abbreviation ProcedureAutoFullAudit := ProcedureAutoFullAudit.ProcedureAutoFullAudit.
Export (hints) ProcedureAutoFullAudit.
