(* ===== verification/Effect.v ===== *)
(** * Effects of procedures (crates/evertrace-domain/src/procedure/effect.rs)

    What using a procedure did, in one context: the context with its fingerprint, the
    comparison of a metric with a control in exact decimals, and the association that the
    observed usages of a procedure show in each context. *)

From S2P Require Import Prelude Order Collections OrderedMap Text Canonical Ids Lane Attempt Constraint Autoresearch Usage.

Definition EFFECT_MAX_REFS : nat := 64.
Definition EFFECT_MAX_TEXT : N := 4096.

Definition effect_text (value : string) : bool :=
  negb (str_is_empty value) && (str_len value <=? EFFECT_MAX_TEXT)%N && negb (any is_control (chars value)).
Definition known_text (value : string) : bool := effect_text value && (value !=? "unknown"%string).
Definition effect_refs (values : list string) : bool :=
  negb (is_empty values) && (length values <=? EFFECT_MAX_REFS)%nat && windows2_all ltb_ord values && all effect_text values.

Definition phase_str (value : ProcedureUsagePhase) : string :=
  match value with
  | ProcedureUsagePhase.BeforeEntry => "before_entry"
  | ProcedureUsagePhase.AtEntry => "at_entry"
  | ProcedureUsagePhase.InProgress => "in_progress"
  | ProcedureUsagePhase.RecoverableDeviation => "recoverable_deviation"
  | ProcedureUsagePhase.AlreadyCompleted => "already_completed"
  | ProcedureUsagePhase.Incompatible => "incompatible"
  end.
Definition field_str (value : ConstraintField) : string :=
  match value with
  | ConstraintField.AgentKind => "agent_kind"
  | ConstraintField.TaskKind => "task_kind"
  | ConstraintField.ProjectFamily => "project_family"
  | ConstraintField.Toolchain => "toolchain"
  | ConstraintField.OperationKind => "operation_kind"
  | ConstraintField.PhaseKind => "phase_kind"
  | ConstraintField.ArtifactKind => "artifact_kind"
  | ConstraintField.EnvironmentProfile => "environment_profile"
  | ConstraintField.RevisionActive => "revision_active"
  | ConstraintField.VerifierState => "verifier_state"
  | ConstraintField.Phase => "phase"
  | ConstraintField.FailureSignature => "failure_signature"
  | ConstraintField.WorktreeLineage => "worktree_lineage"
  | ConstraintField.ArtifactVersion => "artifact_version"
  | ConstraintField.ExperimentState => "experiment_state"
  end.

Module ProcedureContextAnchor.
Inductive ProcedureContextAnchor :=
| Repository (repository_id : RepositoryId) (worktree_id : WorktreeId) (worktree_snapshot_id : WorktreeSnapshotId) (worktree_lineage : string)
| NonRepository (fixture_refs : list string).
#[export] Instance eq_dec : EqDecision ProcedureContextAnchor.
Proof. solve_decision. Defined.
End ProcedureContextAnchor.
Abbreviation ProcedureContextAnchor := ProcedureContextAnchor.ProcedureContextAnchor.
Export (hints) ProcedureContextAnchor.

Section values.
Context `{L : UuidLib}.

Definition anchor_value (anchor : ProcedureContextAnchor) : CanonicalValue :=
  match anchor with
  | ProcedureContextAnchor.Repository repository_id worktree_id worktree_snapshot_id worktree_lineage =>
      Map [("kind", CString "repository"); ("repository_id", CString (id_display repository_id));
           ("worktree_id", CString (id_display worktree_id)); ("worktree_lineage", CString worktree_lineage);
           ("worktree_snapshot_id", CString (id_display worktree_snapshot_id))]%string
  | ProcedureContextAnchor.NonRepository fixture_refs =>
      Map [("fixture_refs", Sequence (CString <$> fixture_refs)); ("kind", CString "non_repository")]%string
  end.
Definition binding_value (binding : ConstraintBinding) : CanonicalValue :=
  Map [("field", CString (field_str (ConstraintBinding.field binding)));
       ("value", match ConstraintBinding.value binding with
                 | ConstraintValue.Text value => Map [("kind", CString "text"); ("value", CString value)]
                 | ConstraintValue.Boolean value => Map [("kind", CString "boolean"); ("value", Bool value)]
                 end)]%string.
End values.

Module ProcedureEffectContext.
Record ProcedureEffectContext := mk {
  procedure_revision_id : RevisionId;
  task_id : TaskId;
  anchor : ProcedureContextAnchor;
  operands : list ConstraintBinding;
  phase_kind : ProcedureUsagePhase;
  failure_signature : option string;
  toolchain : string;
  model_revision : string;
  harness_revision : string;
  algorithm_revision : string;
  budget : N;
  acceptance_boundary : string;
}.
#[export] Instance eq_dec : EqDecision ProcedureEffectContext.
Proof. solve_decision. Defined.
Definition FINGERPRINT_VERSION : N := 1.

Definition validate (self : ProcedureEffectContext) : result SemanticError unit :=
  guard ((EFFECT_MAX_REFS <? length (operands self))%nat
      || negb (windows2_all (fun a b => ltb_ord (ConstraintBinding.field a) (ConstraintBinding.field b)) (operands self))
      || is_some_and (failure_signature self) (fun value => negb (effect_text value))
      || negb (effect_text (toolchain self))
      || negb (effect_text (model_revision self))
      || negb (effect_text (harness_revision self))
      || negb (effect_text (algorithm_revision self))
      || negb (effect_text (acceptance_boundary self))
      || match anchor self with
         | ProcedureContextAnchor.Repository _ _ _ worktree_lineage => negb (effect_text worktree_lineage)
         | ProcedureContextAnchor.NonRepository fixture_refs => negb (effect_refs fixture_refs)
         end) SemanticError.InvalidProcedure.

Definition compile (procedure_revision_id : RevisionId) (task_id : TaskId) (anchor : ProcedureContextAnchor)
    (applicability_fields : gset ConstraintField) (state : ConstraintState) (phase_kind : ProcedureUsagePhase)
    (failure_signature : option string) (toolchain model_revision harness_revision algorithm_revision : string) (budget : N)
    (acceptance_boundary : string) : result SemanticError ProcedureEffectContext :=
  do? ConstraintState.validate state in
  let operands := List.filter (fun binding => bool_decide (ConstraintBinding.field binding ∈ applicability_fields))
                    (ConstraintState.bindings state) in
  let value := mk procedure_revision_id task_id anchor operands phase_kind failure_signature toolchain model_revision
                 harness_revision algorithm_revision budget acceptance_boundary in
  do? validate value in
  Ok value.

Section fingerprint.
Context `{L : UuidLib} `{SHA : Sha256}.
Definition fingerprint (self : ProcedureEffectContext) : result SemanticError (list byte) :=
  do? validate self in
  map_err (fun _ => SemanticError.InvalidProcedure)
    (sha256 sha256_digest "evertrace.procedure_context_fingerprint" FINGERPRINT_VERSION
      (Map [("acceptance_boundary_ref", CString (acceptance_boundary self));
            ("algorithm_revision", CString (algorithm_revision self));
            ("anchor", anchor_value (anchor self));
            ("budget", Integer (Z.of_N (budget self)));
            ("failure_signature", match failure_signature self with Some value => CString value | None => Null end);
            ("harness_revision", CString (harness_revision self));
            ("model_revision", CString (model_revision self));
            ("operands", Sequence (binding_value <$> operands self));
            ("phase_kind", CString (phase_str (phase_kind self)));
            ("procedure_revision_id", CString (rid_display (procedure_revision_id self)));
            ("task_id", CString (id_display (task_id self)));
            ("toolchain", CString (toolchain self))]%string)).

Definition failure_exact (self : ProcedureEffectContext) (applicability_fields : gset ConstraintField) : bool :=
  if bool_decide (ConstraintField.FailureSignature ∈ applicability_fields) then
    is_some_and (failure_signature self) (fun signature =>
      any (fun binding => (ConstraintBinding.field binding ==? ConstraintField.FailureSignature)
                          && (ConstraintBinding.value binding ==? ConstraintValue.Text signature)) (operands self))
  else true.
Definition complete_for (self : ProcedureEffectContext) (applicability_fields : gset ConstraintField) : bool :=
  is_ok (validate self)
  && bool_decide (list_to_set (ConstraintBinding.field <$> operands self) = applicability_fields)
  && failure_exact self applicability_fields
  && known_text (toolchain self) && known_text (model_revision self) && known_text (harness_revision self)
  && known_text (algorithm_revision self) && (0 <? budget self)%N.
Definition fingerprint_ok (self : ProcedureEffectContext) : option (list byte) :=
  match fingerprint self with Ok value => Some value | Err _ => None end.
Definition exact_compatible (self other : ProcedureEffectContext) (applicability_fields : gset ConstraintField) : bool :=
  complete_for self applicability_fields && complete_for other applicability_fields
  && (fingerprint_ok self ==? fingerprint_ok other).
End fingerprint.
End ProcedureEffectContext.
Abbreviation ProcedureEffectContext := ProcedureEffectContext.ProcedureEffectContext.
Export (hints) ProcedureEffectContext.

Module ProcedureEffectEvidenceClass.
Inductive ProcedureEffectEvidenceClass :=
| ObservationalAssociation
| ControlledComparison.
#[export] Instance eq_dec : EqDecision ProcedureEffectEvidenceClass.
Proof. solve_decision. Defined.
Definition rank (x : ProcedureEffectEvidenceClass) : N :=
  match x with
  | ObservationalAssociation => 0
  | ControlledComparison => 1
  end.
Lemma ProcedureEffectEvidenceClass_rank_inj x y : rank x = rank y -> x = y.
Proof. by destruct x, y. Qed.
#[export] Instance ord : Ord ProcedureEffectEvidenceClass := Ord_by rank ProcedureEffectEvidenceClass_rank_inj.
End ProcedureEffectEvidenceClass.
Abbreviation ProcedureEffectEvidenceClass := ProcedureEffectEvidenceClass.ProcedureEffectEvidenceClass.
Export (hints) ProcedureEffectEvidenceClass.
Module ProcedureEffect.
Inductive ProcedureEffect :=
| Insufficient
| Positive
| Mixed
| Negative.
#[export] Instance eq_dec : EqDecision ProcedureEffect.
Proof. solve_decision. Defined.
Definition rank (x : ProcedureEffect) : N :=
  match x with
  | Insufficient => 0
  | Positive => 1
  | Mixed => 2
  | Negative => 3
  end.
Lemma ProcedureEffect_rank_inj x y : rank x = rank y -> x = y.
Proof. by destruct x, y. Qed.
#[export] Instance ord : Ord ProcedureEffect := Ord_by rank ProcedureEffect_rank_inj.
End ProcedureEffect.
Abbreviation ProcedureEffect := ProcedureEffect.ProcedureEffect.
Export (hints) ProcedureEffect.
Module MetricDeltaDirection.
Inductive MetricDeltaDirection :=
| Positive
| Negative
| Neutral.
#[export] Instance eq_dec : EqDecision MetricDeltaDirection.
Proof. solve_decision. Defined.
End MetricDeltaDirection.
Abbreviation MetricDeltaDirection := MetricDeltaDirection.MetricDeltaDirection.
Export (hints) MetricDeltaDirection.

(** ** Exact decimals *)

(** [i128] arithmetic. *)
Definition I128_MAX : Z := 2 ^ 127 - 1.
Definition I128_MIN : Z := - 2 ^ 127.
Definition checked_i128 (z : Z) : option Z := if (I128_MIN <=? z)%Z && (z <=? I128_MAX)%Z then Some z else None.

Module ExactDecimal.
Record ExactDecimal := mk { coefficient : Z; scale : N }.

Fixpoint split_dot (l : list byte) : list (list byte) :=
  match l with
  | [] => [[]]
  | b :: r =>
      if b ==? x2e then [] :: split_dot r
      else match split_dot r with p :: ps => (b :: p) :: ps | [] => [[b]] end
  end.
(** The loop over the digits. *)
Fixpoint digits (l : list byte) (coefficient : Z) : option Z :=
  match l with
  | [] => Some coefficient
  | b :: r =>
      product ← checked_i128 (coefficient * 10);
      sum ← checked_i128 (product + digit_value b);
      digits r sum
  end.
Definition parts (l : list byte) : option (list byte * list byte) :=
  match split_dot l with
  | [whole] => if is_empty whole then None else Some (whole, [])
  | [whole; fraction] => if is_empty whole || is_empty fraction then None else Some (whole, fraction)
  | _ => None
  end.
Definition parse (value : string) : option ExactDecimal :=
  let '(negative, unsigned) :=
    match as_bytes value with
    | b :: r => if b ==? x2d then (true, r) else (false, b :: r)
    | [] => (false, [])
    end in
  '(whole, fraction) ← parts unsigned;
  if negb (all is_ascii_digit (whole ++ fraction)) then None else
  coefficient ← digits (whole ++ fraction) 0;
  coefficient ← (if negative : bool then checked_i128 (- coefficient) else Some coefficient);
  if (N.of_nat (length fraction) <=? U32_MAX)%N then Some (mk coefficient (N.of_nat (length fraction))) else None.

(** [10_i128.checked_pow] *)
Definition checked_pow10 (n : N) : option Z := if (n <=? 38)%N then Some (10 ^ Z.of_N n)%Z else None.
Definition scaled (self : ExactDecimal) (target : N) : option Z :=
  if (target <? scale self)%N then None else
  power ← checked_pow10 (target - scale self);
  checked_i128 (coefficient self * power).
End ExactDecimal.
Abbreviation ExactDecimal := ExactDecimal.ExactDecimal.

Definition metric_delta (direction : MetricDirection) (procedure control : Z) : option Z :=
  match direction with
  | MetricDirection.HigherIsBetter => checked_i128 (procedure - control)
  | MetricDirection.LowerIsBetter => checked_i128 (control - procedure)
  end.
Definition classify_metric_delta (binding : ComparisonExecutionBinding) (procedure control : string)
    : option MetricDeltaDirection :=
  procedure ← ExactDecimal.parse procedure;
  control ← ExactDecimal.parse control;
  positive ← ExactDecimal.parse (ComparisonExecutionBinding.positive_delta_threshold binding);
  negative ← ExactDecimal.parse (ComparisonExecutionBinding.negative_delta_threshold binding);
  let common := N.max (N.max (N.max (ExactDecimal.scale procedure) (ExactDecimal.scale control))
                        (ExactDecimal.scale positive)) (ExactDecimal.scale negative) in
  procedure ← ExactDecimal.scaled procedure common;
  control ← ExactDecimal.scaled control common;
  positive ← ExactDecimal.scaled positive common;
  negative ← ExactDecimal.scaled negative common;
  delta ← metric_delta (ComparisonExecutionBinding.metric_direction binding) procedure control;
  if (positive <=? delta)%Z then Some MetricDeltaDirection.Positive else
  opposite ← checked_i128 (- negative);
  if (delta <=? opposite)%Z then Some MetricDeltaDirection.Negative else Some MetricDeltaDirection.Neutral.

(** ** Observed effects *)

Module ProcedureContextEffectProjection.
Record ProcedureContextEffectProjection := mk {
  procedure_revision_id : RevisionId;
  context_fingerprint_version : N;
  context_fingerprint_hash : list byte;
  context : ProcedureEffectContext;
  evidence_class : ProcedureEffectEvidenceClass;
  effect : ProcedureEffect;
  valid_usage_count : N;
  valid_pair_count : N;
  practical_threshold_revision : N;
  evidence_refs : list string;
  source_watermark : N;
}.
#[export] Instance eq_dec : EqDecision ProcedureContextEffectProjection.
Proof. solve_decision. Defined.
Section projection.
Context `{L : UuidLib} `{SHA : Sha256}.
Definition validate (self : ProcedureContextEffectProjection) : result SemanticError unit :=
  do? ProcedureEffectContext.validate (context self) in
  do? guard ((procedure_revision_id self !=? ProcedureEffectContext.procedure_revision_id (context self))
             || negb (context_fingerprint_version self =? ProcedureEffectContext.FINGERPRINT_VERSION)%N)
        SemanticError.InvalidProcedure in
  let? fingerprint := ProcedureEffectContext.fingerprint (context self) in
  guard ((context_fingerprint_hash self !=? fingerprint)
      || (practical_threshold_revision self =? 0)%N
      || negb (effect_refs (evidence_refs self))
      || (source_watermark self =? 0)%N
      || (evidence_class self ==? ProcedureEffectEvidenceClass.ObservationalAssociation) && negb (valid_pair_count self =? 0)%N
      || (evidence_class self ==? ProcedureEffectEvidenceClass.ControlledComparison) && negb (valid_usage_count self =? 0)%N
      || (evidence_class self ==? ProcedureEffectEvidenceClass.ControlledComparison)
         && (effect self ==? ProcedureEffect.Insufficient) && (2 <=? valid_pair_count self)%N)
    SemanticError.InvalidProcedure.
Definition exact_compatible (self : ProcedureContextEffectProjection) (current : ProcedureEffectContext)
    (applicability_fields : gset ConstraintField) : bool :=
  ProcedureEffectContext.exact_compatible (context self) current applicability_fields.
End projection.
End ProcedureContextEffectProjection.
Abbreviation ProcedureContextEffectProjection := ProcedureContextEffectProjection.ProcedureContextEffectProjection.
Export (hints) ProcedureContextEffectProjection.

Module ObservationalUsageInput.
Record ObservationalUsageInput := mk {
  procedure_usage_id : ProcedureUsageId;
  context : ProcedureEffectContext;
  outcome_supported : bool;
  evidence_refs : list string;
  source_watermark : N;
}.
#[export] Instance eq_dec : EqDecision ObservationalUsageInput.
Proof. solve_decision. Defined.
Definition with_evidence_refs (self : ObservationalUsageInput)
    (v_evidence_refs : list string) : ObservationalUsageInput :=
  mk
    (self.(procedure_usage_id)) (self.(context)) (self.(outcome_supported)) v_evidence_refs
    (self.(source_watermark)).
End ObservationalUsageInput.
Abbreviation ObservationalUsageInput := ObservationalUsageInput.ObservationalUsageInput.
Export (hints) ObservationalUsageInput.

Section observational.
Context `{L : UuidLib} `{SHA : Sha256}.
Import ObservationalUsageInput.

(** One input: its evidence in order, and the group it belongs to. *)
Definition keyed (input : ObservationalUsageInput) : result SemanticError ((RevisionId * list byte) * ObservationalUsageInput) :=
  let input := with_evidence_refs input (sort_unique (evidence_refs input)) in
  let? fingerprint := ProcedureEffectContext.fingerprint (context input) in
  Ok ((ProcedureEffectContext.procedure_revision_id (context input), fingerprint), input).

Definition effect_of (successes total : nat) : ProcedureEffect :=
  if (total <? 2)%nat then ProcedureEffect.Insufficient
  else if (successes =? total)%nat then ProcedureEffect.Positive
  else if (successes =? 0)%nat then ProcedureEffect.Negative
  else ProcedureEffect.Mixed.
Definition group_effect (group : (RevisionId * list byte) * list ObservationalUsageInput)
    : result SemanticError ProcedureContextEffectProjection :=
  let '((revision_id, fingerprint), values) := group in
  let values := sort_by (fun a b => leb_ord (procedure_usage_id a) (procedure_usage_id b)) values in
  let? first := ok_or (head values) SemanticError.InvalidProcedure in
  let context := ObservationalUsageInput.context first in
  do? guard (any (fun value => ObservationalUsageInput.context value !=? context) values) SemanticError.InvalidProcedure in
  let successes := length (List.filter outcome_supported values) in
  do? guard (U32_MAX <? N.of_nat (length values))%N SemanticError.InvalidProcedure in
  let projection := {|
    ProcedureContextEffectProjection.procedure_revision_id := revision_id;
    ProcedureContextEffectProjection.context_fingerprint_version := ProcedureEffectContext.FINGERPRINT_VERSION;
    ProcedureContextEffectProjection.context_fingerprint_hash := fingerprint;
    ProcedureContextEffectProjection.context := context;
    ProcedureContextEffectProjection.evidence_class := ProcedureEffectEvidenceClass.ObservationalAssociation;
    ProcedureContextEffectProjection.effect := effect_of successes (length values);
    ProcedureContextEffectProjection.valid_usage_count := N.of_nat (length values);
    ProcedureContextEffectProjection.valid_pair_count := 0;
    ProcedureContextEffectProjection.practical_threshold_revision := 1;
    ProcedureContextEffectProjection.evidence_refs := bset_of_list (values ≫= evidence_refs);
    ProcedureContextEffectProjection.source_watermark := foldr N.max 0%N (source_watermark <$> values);
  |} in
  do? ProcedureContextEffectProjection.validate projection in
  Ok projection.

Definition effect_groups (keyed : list ((RevisionId * list byte) * ObservationalUsageInput))
    : list ((RevisionId * list byte) * list ObservationalUsageInput) :=
  (fun group => (group.1, group.2.*2)) <$> group_by (fun entry => Some entry.1) keyed.
Definition compile_observational_effects (inputs : list ObservationalUsageInput)
    : result SemanticError (list ProcedureContextEffectProjection) :=
  let? keyed := try_map keyed inputs in
  try_map group_effect (effect_groups keyed).
End observational.
