(* ===== verification/EffectFacts.v ===== *)
(** * Facts about effects of procedures

    The comparison of metrics agrees with the rational numbers the texts denote; the
    effects that are compiled from observed usages do not depend on the order in which
    the usages are given; and a context whose usages have more than 64 pieces of evidence
    between them stops the compilation of every effect.

    The usages are collected by context; what is compiled from a group depends only on
    which usages it has. *)

From Stdlib Require Import QArith.
From S2P Require Import Prelude Order Collections OrderedMap Text Canonical Ids Lane Attempt Constraint Autoresearch Usage Effect.

#[local] Close Scope Q_scope.

(** ** Exact decimals *)

Definition pow10 (n : N) : positive := Z.to_pos (10 ^ Z.of_N n).
Definition decimal_value (d : ExactDecimal) : Q := ExactDecimal.coefficient d # pow10 (ExactDecimal.scale d).

Lemma pow10_pos n : Z.pos (pow10 n) = (10 ^ Z.of_N n)%Z.
Proof. unfold pow10. apply Z2Pos.id. apply Z.pow_pos_nonneg; lia. Qed.

Lemma checked_i128_Some z z' : checked_i128 z = Some z' -> z' = z.
Proof. unfold checked_i128. destruct (_ && _); congruence. Qed.

(** Brought to a common scale, the value is unchanged. *)
Lemma scaled_value d target z :
  ExactDecimal.scaled d target = Some z -> (decimal_value d == z # pow10 target)%Q.
Proof.
  unfold ExactDecimal.scaled. destruct (N.ltb_spec target (ExactDecimal.scale d)) as [|Hle]; [done|].
  unfold ExactDecimal.checked_pow10. destruct (_ <=? 38)%N; [|done]. simpl. intros ->%checked_i128_Some.
  unfold decimal_value, Qeq. simpl. rewrite !pow10_pos, <-Z.mul_assoc, <-Z.pow_add_r by lia.
  do 2 f_equal. lia.
Qed.

Lemma common_le a b n : (a # pow10 n <= b # pow10 n)%Q <-> (a <= b)%Z.
Proof. unfold Qle. simpl. pose proof (pow10_pos n) as H. assert (0 < 10 ^ Z.of_N n)%Z by (apply Z.pow_pos_nonneg; lia). nia. Qed.
Lemma common_minus a b n : ((a # pow10 n) - (b # pow10 n) == (a - b) # pow10 n)%Q.
Proof. unfold Qminus, Qplus, Qopp, Qeq. simpl. rewrite Pos2Z.inj_mul. ring. Qed.
Lemma common_opp a n : (- (a # pow10 n) == (- a) # pow10 n)%Q.
Proof. reflexivity. Qed.

(** What the procedure gained over the control. *)
Definition gain (direction : MetricDirection) (procedure control : Q) : Q :=
  match direction with
  | MetricDirection.HigherIsBetter => procedure - control
  | MetricDirection.LowerIsBetter => control - procedure
  end%Q.

Lemma metric_delta_gain direction p c n z qp qc :
  metric_delta direction p c = Some z -> (qp == p # pow10 n)%Q -> (qc == c # pow10 n)%Q ->
  (gain direction qp qc == z # pow10 n)%Q.
Proof.
  intros H Hp Hc. destruct direction; simpl in *; apply checked_i128_Some in H as ->; rewrite Hp, Hc; apply common_minus.
Qed.

Lemma classify_exact binding procedure control d :
  classify_metric_delta binding procedure control = Some d ->
  exists p c pos neg,
    ExactDecimal.parse procedure = Some p /\ ExactDecimal.parse control = Some c
    /\ ExactDecimal.parse (ComparisonExecutionBinding.positive_delta_threshold binding) = Some pos
    /\ ExactDecimal.parse (ComparisonExecutionBinding.negative_delta_threshold binding) = Some neg
    /\ let delta := gain (ComparisonExecutionBinding.metric_direction binding) (decimal_value p) (decimal_value c) in
       match d with
       | MetricDeltaDirection.Positive => (decimal_value pos <= delta)%Q
       | MetricDeltaDirection.Negative => (delta < decimal_value pos /\ delta <= - decimal_value neg)%Q
       | MetricDeltaDirection.Neutral => (delta < decimal_value pos /\ - decimal_value neg < delta)%Q
       end.
Proof.
  unfold classify_metric_delta. intros H.
  apply bind_Some in H as (p & Hp & H). apply bind_Some in H as (c & Hc & H).
  apply bind_Some in H as (pos & Hpos & H). apply bind_Some in H as (neg & Hneg & H). cbv zeta in H.
  set (n := N.max _ _) in H.
  apply bind_Some in H as (zp & Hzp & H). apply bind_Some in H as (zc & Hzc & H).
  apply bind_Some in H as (zpos & Hzpos & H). apply bind_Some in H as (zneg & Hzneg & H).
  apply bind_Some in H as (delta & Hdelta & H).
  exists p, c, pos, neg. split_and!; [done..|]. cbv zeta.
  apply scaled_value in Hzp, Hzc, Hzpos, Hzneg.
  pose proof (metric_delta_gain _ _ _ _ _ _ _ Hdelta Hzp Hzc) as Hgain.
  destruct (Z.leb_spec zpos delta) as [Hle|Hlt].
  - injection H as <-. rewrite Hgain, Hzpos. by apply common_le.
  - apply bind_Some in H as (opp & ->%checked_i128_Some & H).
    assert (Hlt' : (gain (ComparisonExecutionBinding.metric_direction binding) (decimal_value p) (decimal_value c) < decimal_value pos)%Q).
    { apply Qnot_le_lt. rewrite Hgain, Hzpos, common_le. lia. }
    destruct (Z.leb_spec delta (- zneg)) as [Hn|Hn]; injection H as <-; (split; [exact Hlt'|]).
    + rewrite Hgain, Hzneg, common_opp. by apply common_le.
    + apply Qnot_le_lt. rewrite Hgain, Hzneg, common_opp, common_le. lia.
Qed.

(** *** Reading a decimal *)

(** The text of a decimal: an optional sign, digits, and digits behind a point. *)
Definition decimal_text (negative : bool) (whole fraction : list byte) : list byte :=
  (if negative then [x2d] else []) ++ whole ++ (if is_empty fraction then [] else x2e :: fraction).

Lemma digit_range b : is_ascii_digit b = true -> (0 <= digit_value b <= 9)%Z.
Proof. unfold is_ascii_digit, digit_value. destruct b; vm_compute; intros; split; congruence. Qed.

Lemma digits_value_from l acc : foldl (fun acc b => acc * 10 + digit_value b)%Z acc l = (acc * 10 ^ Z.of_nat (length l) + digits_value l)%Z.
Proof.
  unfold digits_value. revert acc. induction l as [|b l IH]; intros acc; [simpl; lia|].
  cbn [foldl length]. rewrite (IH (acc * 10 + digit_value b)%Z), (IH (0 * 10 + digit_value b)%Z), Nat2Z.inj_succ, Z.pow_succ_r by lia. ring.
Qed.
Lemma digits_value_nonneg l : all is_ascii_digit l = true -> (0 <= digits_value l)%Z.
Proof.
  induction l as [|b l IH] using rev_ind; [done|]. unfold all. rewrite forallb_app. intros [Hl Hb]%andb_true_iff.
  simpl in Hb. rewrite andb_true_r in Hb. unfold digits_value. rewrite foldl_app. simpl. fold (digits_value l).
  pose proof (digit_range b Hb). specialize (IH Hl). lia.
Qed.

Lemma digits_cons b l acc :
  ExactDecimal.digits (b :: l) acc
  = (product ← checked_i128 (acc * 10); sum ← checked_i128 (product + digit_value b); ExactDecimal.digits l sum).
Proof. reflexivity. Qed.
Lemma checked_i128_fits z : (I128_MIN <= z)%Z -> (z <= I128_MAX)%Z -> checked_i128 z = Some z.
Proof. intros H1 H2. unfold checked_i128. by rewrite (proj2 (Z.leb_le _ _) H1), (proj2 (Z.leb_le _ _) H2). Qed.

(** The checked loop is the value, when that fits. *)
Lemma digits_exact l acc :
  all is_ascii_digit l = true -> (0 <= acc)%Z ->
  ExactDecimal.digits l acc
  = let value := (acc * 10 ^ Z.of_nat (length l) + digits_value l)%Z in
    if is_empty l then Some acc else if (value <=? I128_MAX)%Z then Some value else None.
Proof.
  revert acc. induction l as [|b l IH]; intros acc; [done|]. cbn [all forallb]. intros [Hb Hl]%andb_true_iff Hacc. cbv zeta.
  pose proof (digit_range b Hb) as Hr. pose proof (digits_value_nonneg l Hl) as Hd.
  assert (Hpow : (0 < 10 ^ Z.of_nat (length l))%Z) by (apply Z.pow_pos_nonneg; lia).
  assert (Hval : digits_value (b :: l) = (digit_value b * 10 ^ Z.of_nat (length l) + digits_value l)%Z).
  { unfold digits_value at 1. cbn [foldl]. rewrite digits_value_from. lia. }
  rewrite digits_cons, Hval. cbn [is_empty length]. rewrite Nat2Z.inj_succ, Z.pow_succ_r by lia.
  set (value := (acc * (10 * 10 ^ Z.of_nat (length l)) + (digit_value b * 10 ^ Z.of_nat (length l) + digits_value l))%Z).
  assert (Hmin : (I128_MIN <= 0)%Z) by (unfold I128_MIN; lia).
  assert (Hge : (acc * 10 + digit_value b <= value)%Z) by (unfold value; nia).
  destruct (Z.leb_spec value I128_MAX) as [Hv|Hv].
  - rewrite checked_i128_fits by lia. cbn [mbind option_bind]. rewrite checked_i128_fits by lia. cbn [mbind option_bind].
    rewrite IH by (done || lia). cbv zeta.
    replace ((acc * 10 + digit_value b) * 10 ^ Z.of_nat (length l) + digits_value l)%Z with value by (unfold value; ring).
    rewrite (proj2 (Z.leb_le _ _)) by lia. destruct l; [|done]. simpl. f_equal. unfold value. cbn. lia.
  - destruct (checked_i128 (acc * 10)) as [product|] eqn:E1; [|done]. apply checked_i128_Some in E1 as ->. cbn [mbind option_bind].
    destruct (checked_i128 (acc * 10 + digit_value b)) as [sum|] eqn:E2; [|done]. cbn [mbind option_bind].
    assert (Hs : (acc * 10 + digit_value b <= I128_MAX)%Z).
    { unfold checked_i128 in E2. destruct (_ && _) eqn:E; [|done]. apply andb_true_iff in E as [_ E%Z.leb_le]. done. }
    apply checked_i128_Some in E2 as ->. rewrite IH by (done || lia). cbv zeta.
    replace ((acc * 10 + digit_value b) * 10 ^ Z.of_nat (length l) + digits_value l)%Z with value by (unfold value; ring).
    rewrite (proj2 (Z.leb_gt _ _)) by lia. destruct l; [|done]. exfalso. unfold value in Hv. cbn in Hv. lia.
Qed.

Lemma split_dot_plain l : (forall b, b ∈ l -> b <> x2e) -> ExactDecimal.split_dot l = [l].
Proof.
  induction l as [|b l IH]; intros H; [done|]. simpl. rewrite bool_decide_eq_false_2 by (apply H; left).
  rewrite IH; [done|]. intros b' Hb'. apply H. by right.
Qed.
Lemma split_dot_cons l r : (forall b, b ∈ l -> b <> x2e) -> ExactDecimal.split_dot (l ++ x2e :: r) = l :: ExactDecimal.split_dot r.
Proof.
  induction l as [|b l IH]; intros H; [done|]. simpl. rewrite bool_decide_eq_false_2 by (apply H; left).
  rewrite IH; [done|]. intros b' Hb'. apply H. by right.
Qed.
Lemma split_dot_nonempty l : ExactDecimal.split_dot l <> [].
Proof. destruct l as [|b l]; simpl; [done|]. case_bool_decide; [done|]. by destruct (ExactDecimal.split_dot l). Qed.
Lemma split_dot_join l p ps :
  ExactDecimal.split_dot l = p :: ps -> l = p ++ (ps ≫= fun q => x2e :: q).
Proof.
  revert p ps. induction l as [|b l IH]; simpl; intros p ps; [by intros [= <- <-]|]. case_bool_decide as Hb.
  - intros [= <- <-]. subst b. destruct (ExactDecimal.split_dot l) as [|p ps] eqn:E; [by apply split_dot_nonempty in E|].
    simpl. f_equal. by apply IH.
  - destruct (ExactDecimal.split_dot l) as [|p' ps'] eqn:E; [by apply split_dot_nonempty in E|]. intros [= <- <-].
    simpl. f_equal. by apply IH.
Qed.

Lemma digit_not_dot b : is_ascii_digit b = true -> b <> x2e.
Proof. by intros H ->. Qed.
Lemma digits_no_dot l : all is_ascii_digit l = true -> forall b, b ∈ l -> b <> x2e.
Proof. intros H b Hb. apply digit_not_dot. apply all_true in H. rewrite Forall_forall in H. by apply H. Qed.

Lemma parts_text l whole fraction :
  ExactDecimal.parts l = Some (whole, fraction) ->
  l = whole ++ (if is_empty fraction then [] else x2e :: fraction) /\ whole <> [].
Proof.
  unfold ExactDecimal.parts. destruct (ExactDecimal.split_dot l) as [|w [|f [|]]] eqn:E; [done|..|done].
  - apply split_dot_join in E as ->. destruct (is_empty w) eqn:Ew; [done|]. intros [= <- <-]. by apply is_empty_false in Ew.
  - apply split_dot_join in E as ->. destruct (is_empty w) eqn:Ew; [done|]. simpl. destruct (is_empty f) eqn:Ef; [done|].
    intros [= <- <-]. rewrite Ef. simpl. rewrite app_nil_r. by apply is_empty_false in Ew.
Qed.
Lemma parts_of whole fraction :
  whole <> [] -> all is_ascii_digit (whole ++ fraction) = true ->
  ExactDecimal.parts (whole ++ (if is_empty fraction then [] else x2e :: fraction)) = Some (whole, fraction).
Proof.
  intros Hw Hd. unfold all in Hd. rewrite forallb_app in Hd. apply andb_true_iff in Hd as [Hdw Hdf].
  unfold ExactDecimal.parts. apply is_empty_false in Hw. destruct (is_empty fraction) eqn:Ef.
  - rewrite app_nil_r, split_dot_plain by by apply digits_no_dot. rewrite Hw. by apply is_empty_true in Ef as ->.
  - rewrite split_dot_cons, split_dot_plain by by apply digits_no_dot. by rewrite Hw, Ef.
Qed.

(** Reading is exactly the inverse of writing, on what fits into [i128]. *)
Lemma parse_iff s d :
  ExactDecimal.parse s = Some d <->
  exists negative whole fraction,
    as_bytes s = decimal_text negative whole fraction /\ whole <> [] /\ all is_ascii_digit (whole ++ fraction) = true
    /\ (digits_value (whole ++ fraction) <= I128_MAX)%Z /\ (N.of_nat (length fraction) <= U32_MAX)%N
    /\ d = ExactDecimal.mk (if negative then - digits_value (whole ++ fraction) else digits_value (whole ++ fraction))%Z
             (N.of_nat (length fraction)).
Proof.
  unfold ExactDecimal.parse. set (sign := match as_bytes s with [] => _ | b :: r => _ end).
  assert (Hsign : exists negative unsigned, sign = (negative, unsigned)
            /\ as_bytes s = (if negative : bool then [x2d] else []) ++ unsigned /\ (negative = false -> head unsigned <> Some x2d)).
  { unfold sign. destruct (as_bytes s) as [|b r]; [by exists false, []|]. case_bool_decide as Hb; [subst b; by exists true, r|].
    exists false, (b :: r). split_and!; [done..|]. simpl. congruence. }
  destruct Hsign as (negative & unsigned & -> & Hs & Hh). split.
  - intros H. apply bind_Some in H as ([whole fraction] & Hp & H). apply parts_text in Hp as [-> Hw].
    destruct (all is_ascii_digit (whole ++ fraction)) eqn:Hd; [|done]. cbn [negb] in H.
    apply bind_Some in H as (c & Hc & H). rewrite digits_exact in Hc by done. cbv zeta in Hc.
    rewrite (proj2 (is_empty_false _)) in Hc by (intros [-> _]%app_eq_nil; done). rewrite Z.mul_0_l, Z.add_0_l in Hc.
    destruct (Z.leb_spec (digits_value (whole ++ fraction)) I128_MAX) as [Hm|]; [|done]. injection Hc as <-.
    apply bind_Some in H as (c & Hc & H). destruct (N.leb_spec (N.of_nat (length fraction)) U32_MAX) as [Hf|]; [|done].
    injection H as <-. exists negative, whole, fraction. split_and!; [done..|]. f_equal. destruct negative.
    + by apply checked_i128_Some in Hc.
    + by injection Hc.
  - intros (negative' & whole & fraction & Ht & Hw & Hd & Hm & Hf & ->). unfold decimal_text in Ht. rewrite Hs in Ht.
    assert (Hhead : head (whole ++ (if is_empty fraction then [] else x2e :: fraction)) <> Some x2d).
    { destruct whole as [|b whole]; [done|]. simpl. intros [= ->]. cbn in Hd. done. }
    assert (negative = negative' /\ unsigned = whole ++ (if is_empty fraction then [] else x2e :: fraction)) as [-> ->].
    { destruct negative, negative'; simpl in Ht.
      - by injection Ht as ->.
      - exfalso. apply Hhead. by rewrite <-Ht.
      - exfalso. apply Hh; [done|]. by rewrite Ht.
      - done. }
    rewrite parts_of by done. cbn [mbind option_bind]. rewrite Hd. cbn [negb].
    rewrite digits_exact by done. cbv zeta. rewrite (proj2 (is_empty_false _)) by (intros [-> _]%app_eq_nil; done).
    rewrite Z.mul_0_l, Z.add_0_l, (proj2 (Z.leb_le _ _)) by done. cbn [mbind option_bind].
    pose proof (digits_value_nonneg _ Hd) as Hn. destruct negative'.
    + rewrite checked_i128_fits by (unfold I128_MIN, I128_MAX in *; lia). cbn [mbind option_bind]. by rewrite (proj2 (N.leb_le _ _)).
    + cbn [mbind option_bind]. by rewrite (proj2 (N.leb_le _ _)).
Qed.

(** The rational number a text denotes, read off the text alone. *)
Definition denotes (s : string) (q : Q) : Prop :=
  exists negative whole fraction,
    as_bytes s = decimal_text negative whole fraction /\ whole <> [] /\ all is_ascii_digit (whole ++ fraction) = true
    /\ q = Qmake (if negative then - digits_value (whole ++ fraction) else digits_value (whole ++ fraction))%Z
              (pow10 (N.of_nat (length fraction))).

Lemma parse_denotes s d : ExactDecimal.parse s = Some d -> denotes s (decimal_value d).
Proof.
  intros (negative & whole & fraction & Ht & Hw & Hd & _ & _ & ->)%parse_iff.
  exists negative, whole, fraction. by split_and!.
Qed.

(** The class is the one the numbers denoted have. *)
Lemma classify_denoted binding procedure control d :
  classify_metric_delta binding procedure control = Some d ->
  exists p c pos neg,
    denotes procedure p /\ denotes control c
    /\ denotes (ComparisonExecutionBinding.positive_delta_threshold binding) pos
    /\ denotes (ComparisonExecutionBinding.negative_delta_threshold binding) neg
    /\ let delta := gain (ComparisonExecutionBinding.metric_direction binding) p c in
       match d with
       | MetricDeltaDirection.Positive => (pos <= delta)%Q
       | MetricDeltaDirection.Negative => (delta < pos /\ delta <= - neg)%Q
       | MetricDeltaDirection.Neutral => (delta < pos /\ - neg < delta)%Q
       end.
Proof.
  intros (p & c & pos & neg & Hp & Hc & Hpos & Hneg & H)%classify_exact.
  exists (decimal_value p), (decimal_value c), (decimal_value pos), (decimal_value neg).
  split_and!; try by apply parse_denotes. exact H.
Qed.

(** ** The effects *)

(** Loops whose only error is [e]. *)
Section one_error.
Context {E A B : Type} (e : E) (f : A -> result E B) (Hf : forall x e', f x = Err e' -> e' = e).

Lemma try_map_outcome l :
  match try_map f l with
  | Ok ys => Forall2 (fun x y => f x = Ok y) l ys
  | Err e' => e' = e /\ exists x, x ∈ l /\ is_err (f x) = true
  end.
Proof using Hf.
  induction l as [|x l IH]; simpl; [constructor|]. destruct (f x) as [y|e'] eqn:Hx; cbn [rbind].
  - destruct (try_map f l) as [ys|e']; cbn [rbind]; [by constructor|].
    destruct IH as [-> (x' & Hin & Hx')]. split; [done|]. exists x'. split; [by right|done].
  - split; [by eapply Hf|]. exists x. split; [left|]. by rewrite Hx.
Qed.

Lemma try_map_err l x : x ∈ l -> is_err (f x) = true -> try_map f l = Err e.
Proof using Hf.
  intros Hin Hx. pose proof (try_map_outcome l) as H. destruct (try_map f l) as [ys|e']; [|by destruct H as [-> _]].
  exfalso. apply list_elem_of_lookup_1 in Hin as [i Hi]. destruct (Forall2_lookup_l _ _ _ _ _ H Hi) as (y & _ & Hy).
  by rewrite Hy in Hx.
Qed.

(** Permuted inputs have permuted results, or the one error. *)
Lemma try_map_perm l l' :
  l ≡ₚ l' ->
  (exists ys ys', try_map f l = Ok ys /\ try_map f l' = Ok ys' /\ ys ≡ₚ ys') \/ (try_map f l = Err e /\ try_map f l' = Err e).
Proof using Hf.
  intros Hp. pose proof (try_map_outcome l) as H. pose proof (try_map_outcome l') as H'.
  destruct (try_map f l) as [ys|e1] eqn:E1, (try_map f l') as [ys'|e2] eqn:E2.
  - left. exists ys, ys'. split_and!; [done..|].
    assert (Hmap : forall k zs, Forall2 (fun x y => f x = Ok y) k zs -> zs = omap (fun x => match f x with Ok y => Some y | Err _ => None end) k).
    { induction 1 as [|x y k zs Hy _ IH]; [done|]. simpl. rewrite Hy. by f_equal. }
    rewrite (Hmap _ _ H), (Hmap _ _ H').
    clear -Hp. induction Hp as [|x l l' _ IH|x y l|l1 l2 l3 _ IH1 _ IH2]; simpl; [done|..].
    + destruct (f x); by rewrite ?IH.
    + destruct (f x), (f y); done || constructor.
    + by rewrite IH1.
  - exfalso. destruct H' as [_ (x & Hin & Hx)]. rewrite <-Hp in Hin. rewrite (try_map_err _ _ Hin Hx) in E1. done.
  - exfalso. destruct H as [_ (x & Hin & Hx)]. rewrite Hp in Hin. rewrite (try_map_err _ _ Hin Hx) in E2. done.
  - right. destruct H as [-> _], H' as [-> _]. done.
Qed.

Lemma try_map_ext2 l l' : Forall2 (fun x y => f x = f y) l l' -> try_map f l = try_map f l'.
Proof using. clear Hf. induction 1 as [|x y l l' Hxy _ IH]; [done|]. simpl. by rewrite Hxy, IH. Qed.
End one_error.

(** Ordered maps with the same keys, entry by entry. *)
Lemma bmap_Forall2 {K V} `{!Ord K} (R : V -> V -> Prop) (m n : list (K * V)) :
  bmap_sorted m -> bmap_sorted n -> (forall k, option_Forall2 R (bmap_get k m) (bmap_get k n)) ->
  Forall2 (fun a b => a.1 = b.1 /\ R a.2 b.2) m n.
Proof.
  intros Hm Hn Hget.
  assert (Hk : m.*1 = n.*1).
  { apply sorted_lt_ext; [done..|]. intros k. rewrite !elem_of_bmap_keys. specialize (Hget k).
    destruct Hget as [v w _|]; naive_solver. }
  revert n Hm Hn Hget Hk. induction m as [|[k v] m IH]; intros [|[k' w] n] Hm Hn Hget Hk; try done.
  apply cons_inv in Hk as [Hk1 Hk2]. simpl in Hk1, Hk2. subst k'. constructor.
  - split; [done|]. specialize (Hget k). simpl in Hget. rewrite !cmp_refl in Hget. by inversion Hget.
  - apply IH; [by eapply sorted_lt_tail..| |done]. intros k'. pose proof (Hget k') as H. simpl in H.
    destruct (cmp k' k) eqn:E; [|done..]. apply cmp_eq in E as ->.
    pose proof (sorted_lt_NoDup _ Hm) as Nm. pose proof (sorted_lt_NoDup _ Hn) as Nn.
    apply NoDup_cons in Nm as [Nm _]. apply NoDup_cons in Nn as [Nn _].
    rewrite (proj2 (bmap_get_None m k)), (proj2 (bmap_get_None n k)) by done. constructor.
Qed.

Section effects.
Context `{L : UuidLib} `{SHA : Sha256}.
Import ObservationalUsageInput.
#[local] Abbreviation InvalidProcedure := SemanticError.InvalidProcedure.

Lemma fingerprint_err context e : ProcedureEffectContext.fingerprint context = Err e -> e = InvalidProcedure.
Proof.
  unfold ProcedureEffectContext.fingerprint, ProcedureEffectContext.validate, guard, map_err.
  destruct (_ || _); cbn [rbind]; [congruence|]. destruct (sha256 _ _ _ _); congruence.
Qed.
Lemma keyed_err input e : keyed input = Err e -> e = InvalidProcedure.
Proof.
  unfold keyed. cbv zeta. destruct (ProcedureEffectContext.fingerprint _) as [x|e'] eqn:E; cbn [rbind]; [done|].
  intros [= <-]. by eapply fingerprint_err.
Qed.
Lemma projection_err p e : ProcedureContextEffectProjection.validate p = Err e -> e = InvalidProcedure.
Proof.
  unfold ProcedureContextEffectProjection.validate, ProcedureEffectContext.validate, guard.
  destruct (_ || _); cbn [rbind]; [congruence|]. destruct (_ || _); cbn [rbind]; [congruence|].
  destruct (ProcedureEffectContext.fingerprint _) as [x|e'] eqn:E; cbn [rbind].
  - destruct (_ || _); congruence.
  - intros [= <-]. by eapply fingerprint_err.
Qed.

Lemma group_effect_err group e : group_effect group = Err e -> e = InvalidProcedure.
Proof.
  destruct group as [[revision fp] values]. unfold group_effect. cbv zeta.
  destruct (head _) as [first|]; cbn [ok_or rbind]; [|congruence]. unfold guard at 1.
  destruct (any _ _); cbn [rbind]; [congruence|]. unfold guard. destruct (U32_MAX <? _)%N; cbn [rbind]; [congruence|].
  destruct (ProcedureContextEffectProjection.validate _) as [x|e'] eqn:E; cbn [rbind]; [done|].
  intros [= <-]. by eapply projection_err.
Qed.

Lemma max_perm (l l' : list N) : l ≡ₚ l' -> foldr N.max 0%N l = foldr N.max 0%N l'.
Proof. induction 1; simpl; lia. Qed.

(** What is made of one group, given any one of its usages. *)
Definition group_outcome (revision_id : RevisionId) (fingerprint : list byte) (values : list ObservationalUsageInput)
    (first : ObservationalUsageInput) : result SemanticError ProcedureContextEffectProjection :=
  do? guard (any (fun value => context value !=? context first) values) InvalidProcedure in
  do? guard (U32_MAX <? N.of_nat (length values))%N InvalidProcedure in
  let projection := ProcedureContextEffectProjection.mk revision_id ProcedureEffectContext.FINGERPRINT_VERSION fingerprint
    (context first) ProcedureEffectEvidenceClass.ObservationalAssociation
    (effect_of (length (List.filter outcome_supported values)) (length values)) (N.of_nat (length values)) 0 1
    (bset_of_list (values ≫= evidence_refs)) (foldr N.max 0%N (source_watermark <$> values)) in
  do? ProcedureContextEffectProjection.validate projection in
  Ok projection.

Lemma group_outcome_perm revision_id fingerprint values values' first first' :
  values ≡ₚ values' -> first ∈ values -> first' ∈ values ->
  group_outcome revision_id fingerprint values first = group_outcome revision_id fingerprint values' first'.
Proof.
  intros Hp H1 H2. unfold group_outcome. rewrite !(any_perm _ values values' Hp).
  assert (Hany : any (fun value => context value !=? context first) values'
                 = any (fun value => context value !=? context first') values').
  { apply eq_true_iff_eq. rewrite !any_true. setoid_rewrite <-Hp. split; intros (x & Hx & Hne%negb_true_iff%bool_decide_eq_false).
    - destruct (decide (context x = context first')) as [Heq|Hd]; [|exists x; split; [done|]; by rewrite bool_decide_eq_false_2].
      exists first. split; [done|]. rewrite bool_decide_eq_false_2; [done|]. congruence.
    - destruct (decide (context x = context first)) as [Heq|Hd]; [|exists x; split; [done|]; by rewrite bool_decide_eq_false_2].
      exists first'. split; [done|]. rewrite bool_decide_eq_false_2; [done|]. congruence. }
  rewrite Hany. destruct (any (fun value => context value !=? context first') values') eqn:E; [done|]. cbn [guard rbind].
  assert (Hctx : context first = context first').
  { apply any_false in E. rewrite <-Hp in E. rewrite Forall_forall in E. specialize (E _ H1).
    by apply negb_false_iff, bool_decide_eq_true in E. }
  rewrite Hctx, (Permutation_length Hp), (Permutation_length (filter_perm outcome_supported _ _ Hp)).
  rewrite (max_perm (source_watermark <$> values) (source_watermark <$> values')) by by rewrite Hp.
  replace (bset_of_list (values ≫= evidence_refs)) with (bset_of_list (values' ≫= evidence_refs)); [done|].
  apply sorted_lt_ext; [apply bset_sorted..|]. intros x. rewrite !elem_of_bset. by rewrite Hp.
Qed.

Lemma group_effect_outcome revision_id fingerprint values :
  match group_effect ((revision_id, fingerprint), values) with
  | r => values = [] \/ exists first, first ∈ values /\ r = group_outcome revision_id fingerprint values first
  end.
Proof.
  cbv zeta. destruct values as [|v values]; [by left|right].
  unfold group_effect. cbv zeta. pose proof (sort_by_perm (fun a b => leb_ord (procedure_usage_id a) (procedure_usage_id b)) (v :: values)) as Hp.
  set (sorted := sort_by _ _) in *. destruct sorted as [|first rest]; [by apply Permutation_nil_l in Hp|].
  exists first. split; [rewrite <-Hp; left|]. cbn [head ok_or rbind].
  rewrite <-(group_outcome_perm revision_id fingerprint (first :: rest) (v :: values) first first Hp) by left. reflexivity.
Qed.

Lemma group_effect_perm key values values' :
  values ≡ₚ values' -> group_effect (key, values) = group_effect (key, values').
Proof.
  destruct key as [revision_id fingerprint]. intros Hp.
  destruct (group_effect_outcome revision_id fingerprint values) as [-> |(first & H1 & ->)];
    [by apply Permutation_nil_l in Hp as ->|].
  destruct (group_effect_outcome revision_id fingerprint values') as [-> |(first' & H2 & ->)].
  - apply Permutation_nil_r in Hp as ->. by apply elem_of_nil in H1.
  - apply group_outcome_perm; [done..|]. by rewrite Hp.
Qed.

Lemma effect_groups_perm ks ks' :
  ks ≡ₚ ks' -> Forall2 (fun a b => a.1 = b.1 /\ a.2 ≡ₚ b.2) (effect_groups ks) (effect_groups ks').
Proof.
  intros Hp. unfold effect_groups. apply Forall2_fmap.
  eapply Forall2_impl; [apply (bmap_Forall2 (≡ₚ)); [apply group_by_sorted..|]|].
  - intros k. set (key := fun entry : (RevisionId * list byte) * ObservationalUsageInput => Some entry.1).
    pose proof (group_by_get key ks k) as H. pose proof (group_by_get key ks' k) as H'.
    assert (Hm : members_of key k ks ≡ₚ members_of key k ks') by by apply filter_perm.
    destruct (bmap_get k (group_by key ks)) as [v|], (bmap_get k (group_by key ks')) as [v'|].
    + constructor. destruct (proj1 (H v) eq_refl) as [-> _], (proj1 (H' v') eq_refl) as [-> _]. done.
    + destruct (proj1 (H v) eq_refl) as [-> Hne]. exfalso.
      assert (members_of key k ks' <> []) as Hne' by (intros E; rewrite E in Hm; by apply Permutation_nil_r in Hm).
      by specialize (proj2 (H' _) (conj eq_refl Hne')).
    + destruct (proj1 (H' v') eq_refl) as [-> Hne]. exfalso.
      assert (members_of key k ks <> []) as Hne' by (intros E; rewrite E in Hm; by apply Permutation_nil_l in Hm).
      by specialize (proj2 (H _) (conj eq_refl Hne')).
    + constructor.
  - intros [k v] [k' v'] [-> Hv]. simpl in *. split; [done|]. by rewrite Hv.
Qed.

(** The compiled effects are the same for every order of the usages. *)
Lemma effects_perm inputs inputs' :
  inputs ≡ₚ inputs' -> compile_observational_effects inputs = compile_observational_effects inputs'.
Proof.
  intros Hp. unfold compile_observational_effects.
  destruct (try_map_perm InvalidProcedure keyed keyed_err inputs inputs' Hp) as [(ks & ks' & -> & -> & Hks)|[-> ->]]; [|done].
  cbn [rbind]. apply try_map_ext2. eapply Forall2_impl; [by apply effect_groups_perm|].
  intros [k v] [k' v'] [Hk Hv]. simpl in *. subst k'. by apply group_effect_perm.
Qed.

Lemma count_supported members :
  (length (List.filter outcome_supported members) <= length members)%nat
  /\ (length (List.filter outcome_supported members) = length members <-> Forall (fun input => outcome_supported input = true) members)
  /\ (length (List.filter outcome_supported members) = 0%nat <-> Forall (fun input => outcome_supported input = false) members).
Proof.
  induction members as [|m members (IH1 & IH2 & IH3)]; [by repeat split|]. rewrite !Forall_cons. cbn [List.filter].
  destruct (outcome_supported m); simpl; (split; [lia|]); split.
  - rewrite <-IH2. intuition lia.
  - split; [lia|by intros [? _]].
  - split; [lia|by intros [? _]].
  - rewrite <-IH3. intuition lia.
Qed.
Lemma not_all_supported (b : bool) members :
  ~ Forall (fun input => outcome_supported input = b) members -> Exists (fun input => outcome_supported input = negb b) members.
Proof.
  induction members as [|m members IH]; [by intros []|]. rewrite Forall_cons, Exists_cons. intros H.
  destruct (decide (outcome_supported m = b)) as [e|n]; [right; apply IH; tauto|left]. by destruct (outcome_supported m), b.
Qed.

Lemma effect_judged members :
  match effect_of (length (List.filter outcome_supported members)) (length members) with
  | ProcedureEffect.Insufficient => (length members < 2)%nat
  | ProcedureEffect.Positive => (2 <= length members)%nat /\ Forall (fun input => outcome_supported input = true) members
  | ProcedureEffect.Negative => (2 <= length members)%nat /\ Forall (fun input => outcome_supported input = false) members
  | ProcedureEffect.Mixed => Exists (fun input => outcome_supported input = true) members
                             /\ Exists (fun input => outcome_supported input = false) members
  end.
Proof.
  destruct (count_supported members) as (_ & Ha & Hn). unfold effect_of.
  destruct (Nat.ltb_spec (length members) 2) as [|Hl]; [done|].
  destruct (Nat.eqb_spec (length (List.filter outcome_supported members)) (length members)); [tauto|].
  destruct (Nat.eqb_spec (length (List.filter outcome_supported members)) 0); [tauto|].
  split; [apply (not_all_supported false)|apply (not_all_supported true)]; tauto.
Qed.

(** What one compiled effect says of the usages it was made from. *)
Record describes (members : list ObservationalUsageInput) (p : ProcedureContextEffectProjection) : Prop := {
  same_context : Forall (fun input => context input = ProcedureContextEffectProjection.context p) members;
  counted : ProcedureContextEffectProjection.valid_usage_count p = N.of_nat (length members);
  judged : match ProcedureContextEffectProjection.effect p with
           | ProcedureEffect.Insufficient => (length members < 2)%nat
           | ProcedureEffect.Positive => (2 <= length members)%nat /\ Forall (fun input => outcome_supported input = true) members
           | ProcedureEffect.Negative => (2 <= length members)%nat /\ Forall (fun input => outcome_supported input = false) members
           | ProcedureEffect.Mixed => Exists (fun input => outcome_supported input = true) members
                                      /\ Exists (fun input => outcome_supported input = false) members
           end;
  evidenced reference : reference ∈ ProcedureContextEffectProjection.evidence_refs p
    <-> exists input, input ∈ members /\ reference ∈ evidence_refs input;
  evidence_bounded : (length (ProcedureContextEffectProjection.evidence_refs p) <= EFFECT_MAX_REFS)%nat;
}.

Lemma group_effect_describes key values p :
  group_effect (key, values) = Ok p ->
  describes values p /\ ProcedureContextEffectProjection.procedure_revision_id p = key.1
  /\ ProcedureContextEffectProjection.context_fingerprint_hash p = key.2.
Proof.
  destruct key as [revision_id fingerprint]. intros H.
  destruct (group_effect_outcome revision_id fingerprint values) as [-> |(first & Hin & E)]; [done|].
  rewrite E in H. unfold group_outcome in H. apply rbind_ok in H as (u1 & Hany%guard_ok%any_false & H).
  apply rbind_ok in H as (u2 & _ & H). cbv zeta in H. apply rbind_ok in H as (u3 & Hv & H). injection H as <-. simpl.
  split; [|done]. split; simpl.
  - eapply Forall_impl; [exact Hany|]. intros x Hx. by apply negb_false_iff, bool_decide_eq_true in Hx.
  - done.
  - apply effect_judged.
  - intros reference. rewrite elem_of_bset, list_elem_of_bind. naive_solver.
  - unfold ProcedureContextEffectProjection.validate in Hv. apply rbind_ok in Hv as (u4 & _ & Hv).
    apply rbind_ok in Hv as (u5 & _ & Hv). apply rbind_ok in Hv as (fp & _ & Hv). apply guard_ok in Hv.
    repeat (apply orb_false_iff in Hv as [Hv ?]). simpl in *.
    repeat match goal with E : negb (effect_refs _) = false |- _ => apply negb_false_iff in E; unfold effect_refs in E;
      repeat (apply andb_true_iff in E as [E ?]) end.
    by match goal with E : (_ <=? EFFECT_MAX_REFS)%nat = true |- _ => apply Nat.leb_le in E end.
Qed.

(** The usages of one context, their evidence put in order. *)
Definition usages_of (revision_id : RevisionId) (fingerprint : list byte) (inputs : list ObservationalUsageInput)
    : list ObservationalUsageInput :=
  omap (fun input => match keyed input with
    | Ok (key, input) => if decide (key = (revision_id, fingerprint)) then Some input else None
    | Err _ => None end) inputs.

Lemma members_cons {K A} `{!Ord K} (key : A -> option K) `{!EqDecision K} k x l :
  members_of key k (x :: l) = if decide (key x = Some k) then x :: members_of key k l else members_of key k l.
Proof.
  unfold members_of. cbn [List.filter]. destruct (key x) as [k'|]; [|by rewrite decide_False].
  destruct (cmp k' k) eqn:E; [apply cmp_eq in E as ->; by rewrite decide_True|..];
    (rewrite decide_False; [done|]; intros [= ->]; by rewrite cmp_refl in E).
Qed.

Lemma members_usages_of inputs ks key :
  try_map keyed inputs = Ok ks ->
  (members_of (fun entry => Some entry.1) key ks).*2 = usages_of key.1 key.2 inputs.
Proof.
  revert ks. induction inputs as [|input inputs IH]; simpl; intros ks; [by intros [= <-]|].
  destruct (keyed input) as [[k v]|]; cbn [rbind]; [|done]. destruct (try_map keyed inputs) as [ks'|]; cbn [rbind]; [|done].
  intros [= <-]. rewrite (members_cons (fun entry : (RevisionId * list byte) * ObservationalUsageInput => Some entry.1)). destruct key as [r f]. cbn [fst snd] in *. specialize (IH ks' eq_refl).
  destruct (decide (Some k = Some (r, f))) as [[= ->]|Hne].
  - rewrite decide_True by done. rewrite fmap_cons. f_equal. exact IH.
  - rewrite decide_False by congruence. exact IH.
Qed.

Lemma effects_describe inputs ps p :
  compile_observational_effects inputs = Ok ps -> p ∈ ps ->
  describes (usages_of (ProcedureContextEffectProjection.procedure_revision_id p)
               (ProcedureContextEffectProjection.context_fingerprint_hash p) inputs) p.
Proof.
  unfold compile_observational_effects. rewrite rbind_ok. intros (ks & Hks & Hps) Hp.
  pose proof (try_map_outcome _ _ group_effect_err (effect_groups ks)) as H. rewrite Hps in H.
  apply list_elem_of_lookup_1 in Hp as [i Hi]. destruct (Forall2_lookup_r _ _ _ _ _ H Hi) as ([key values] & Hg & Heff).
  destruct (group_effect_describes _ _ _ Heff) as (Hd & -> & ->).
  unfold effect_groups in Hg. apply list_elem_of_lookup_2, list_elem_of_fmap in Hg as ([k entries] & [= -> ->] & Hg).
  apply elem_of_group_by in Hg as [-> _]. by rewrite <-(members_usages_of _ _ _ Hks).
Qed.

(** Every usage is described by one of the effects. *)
Lemma effects_cover inputs ps input key value :
  compile_observational_effects inputs = Ok ps -> input ∈ inputs -> keyed input = Ok (key, value) ->
  exists p, p ∈ ps /\ ProcedureContextEffectProjection.procedure_revision_id p = key.1
            /\ ProcedureContextEffectProjection.context_fingerprint_hash p = key.2.
Proof.
  unfold compile_observational_effects. rewrite rbind_ok. intros (ks & Hks & Hps) Hin Hk.
  pose proof (try_map_outcome _ _ group_effect_err (effect_groups ks)) as H. rewrite Hps in H.
  pose proof (try_map_outcome _ _ keyed_err inputs) as H0. rewrite Hks in H0.
  apply list_elem_of_lookup_1 in Hin as [j Hj]. destruct (Forall2_lookup_l _ _ _ _ _ H0 Hj) as (e & He & Hke).
  rewrite Hk in Hke. injection Hke as <-. apply list_elem_of_lookup_2 in He.
  assert (Hg : (key, members_of (fun entry => Some entry.1) key ks) ∈ group_by (fun entry => Some entry.1) ks).
  { apply elem_of_group_by. split; [done|]. intros E.
    assert ((key, value) ∈ members_of (fun entry : _ * ObservationalUsageInput => Some entry.1) key ks) as Hm by by apply elem_of_members.
    rewrite E in Hm. by apply elem_of_nil in Hm. }
  apply (list_elem_of_fmap_2 (fun group => (group.1, group.2.*2))) in Hg. fold (effect_groups ks) in Hg.
  apply list_elem_of_lookup_1 in Hg as [i Hi]. destruct (Forall2_lookup_l _ _ _ _ _ H Hi) as (p & Hp & Heff).
  exists p. split; [by eapply list_elem_of_lookup_2|]. by destruct (group_effect_describes _ _ _ Heff) as (_ & ? & ?).
Qed.

Lemma compiled_keyed inputs ps input :
  compile_observational_effects inputs = Ok ps -> input ∈ inputs -> exists entry, keyed input = Ok entry.
Proof.
  unfold compile_observational_effects. rewrite rbind_ok. intros (ks & Hks & _) Hin.
  pose proof (try_map_outcome _ _ keyed_err inputs) as H. rewrite Hks in H.
  apply list_elem_of_lookup_1 in Hin as [j Hj]. destruct (Forall2_lookup_l _ _ _ _ _ H Hj) as (e & _ & He). by exists e.
Qed.
End effects.
