(* ===== verification/ProcedureFacts.v ===== *)
(** * Procedures: theorems

    What the revisions of a procedure and of its usages keep, that a hold of a stable
    publication cannot be lifted, the comparison of metrics, and the effects compiled
    from the observed usages; with a use followed to its outcome and the effects of a few
    usages. *)

From Stdlib Require Import QArith.
From stdpp Require Import relations.
From S2P Require Import Prelude Order Collections OrderedMap Text Canonical Ids Lane Attempt Constraint Atom Autoresearch Usage Procedure Effect EffectFacts.

#[local] Close Scope Q_scope.

(** ** Revisions of a procedure *)

Definition revises (a b : ProcedureRevision) : Prop := ProcedureRevision.validate_successor a b = Ok tt.

Lemma scope_contains_refl s : scope_contains s s = true.
Proof. destruct s; simpl; rewrite ?bool_decide_eq_true_2 by done; done. Qed.
Lemma scope_contains_trans a b c : scope_contains a b = true -> scope_contains b c = true -> scope_contains a c = true.
Proof.
  destruct a, b, c; simpl; try done; rewrite ?andb_true_iff, ?bool_decide_eq_true; intuition congruence.
Qed.

Record within (n : nat) (a b : ProcedureRevision) : Prop := {
  same_procedure : ProcedureRevision.procedure_id b = ProcedureRevision.procedure_id a;
  narrower : scope_contains (ProcedureDraft.scope (ProcedureRevision.draft a)) (ProcedureDraft.scope (ProcedureRevision.draft b)) = true;
  later : (ProcedureRevision.created_at_us a <= ProcedureRevision.created_at_us b)%Z;
  counted_on : (0 < n)%nat ->
    ProcedureRevision.revision_generation b = N.min (ProcedureRevision.revision_generation a + N.of_nat n) U32_MAX;
}.

Lemma revises_within n a b : nsteps revises n a b -> within n a b.
Proof.
  intros H. induction H as [a|n a b c Hab Hbc IH].
  - split; [done|apply scope_contains_refl|lia|lia].
  - unfold revises, ProcedureRevision.validate_successor in Hab. apply rbind_ok in Hab as (u & _ & G%guard_ok).
    repeat (apply orb_false_iff in G as [G ?]). guards. destruct IH as [I1 I2 I3 I4]. split.
    + congruence.
    + by eapply scope_contains_trans.
    + lia.
    + intros _. match goal with E : (_ =? _)%N = true |- _ => apply N.eqb_eq in E; unfold ProcedureRevision.saturating_add_u32 in E end.
      destruct n as [|n]; [|specialize (I4 ltac:(lia)); lia].
      inversion Hbc; subst. lia.
Qed.

(** ** Uses of a procedure *)

Lemma usage_ids_sorted {A} `{!Ord A} (l : list A) : usage_ids l = true -> sorted_lt l.
Proof. unfold usage_ids. intros [_ H]%andb_true_iff. by apply windows2_lt_sorted. Qed.
Lemma usage_texts_sorted l : usage_texts l = true -> sorted_lt l.
Proof. unfold usage_texts. rewrite !andb_true_iff. intros [[_ H] _]. by apply windows2_lt_sorted. Qed.

Section usage.
Import ProcedureUsageRevision.

Definition follows (a b : ProcedureUsageRevision) : Prop := validate_successor a b = true.

(** What the later revisions of a use keep of the earlier ones. *)
Record carries (n : nat) (a b : ProcedureUsageRevision) : Prop := {
  same_use : procedure_usage_id b = procedure_usage_id a /\ procedure_revision_id b = procedure_revision_id a
    /\ task_id b = task_id a /\ workstream_id b = workstream_id a
    /\ exposure_episode_revision_id b = exposure_episode_revision_id a
    /\ decision_boundary_ref b = decision_boundary_ref a /\ route_decision b = route_decision a
    /\ local_context b = local_context a;
  counted : revision_generation b = (revision_generation a + N.of_nat n)%N;
  onward : leb_ord (stage a) (stage b) = true;
  observed_on : (source_watermark a <= source_watermark b)%N /\ (created_at_us a <= created_at_us b)%Z;
  retained : attempt_ids a ⊆ attempt_ids b /\ action_episode_revision_ids a ⊆ action_episode_revision_ids b
    /\ verification_episode_revision_ids a ⊆ verification_episode_revision_ids b
    /\ action_operation_refs a ⊆ action_operation_refs b
    /\ verification_operation_refs a ⊆ verification_operation_refs b
    /\ work_binding_revision_refs a ⊆ work_binding_revision_refs b
    /\ scope_effect_refs a ⊆ scope_effect_refs b /\ evidence_refs a ⊆ evidence_refs b;
  held_true : (eligible a = ProcedureTruth.True_ -> eligible b = ProcedureTruth.True_)
    /\ (action_aligned a = ProcedureTruth.True_ -> action_aligned b = ProcedureTruth.True_)
    /\ (verifier_aligned a = ProcedureTruth.True_ -> verifier_aligned b = ProcedureTruth.True_)
    /\ (outcome_supported a = ProcedureTruth.True_ -> outcome_supported b = ProcedureTruth.True_);
}.

Lemma truth_progress_true x y : truth_progress x y = true -> x = ProcedureTruth.True_ -> y = ProcedureTruth.True_.
Proof. unfold truth_progress. destruct x, y; done. Qed.
Lemma stage_le_trans (x y z : ProcedureUsageStage) : leb_ord x y = true -> leb_ord y z = true -> leb_ord x z = true.
Proof. by destruct x, y, z. Qed.

Lemma carries_refl a : carries 0 a a.
Proof. split; split_and?; try done; try lia; by destruct (stage a). Qed.
Lemma carries_trans n m a b c : carries n a b -> carries m b c -> carries (n + m) a c.
Proof.
  intros [A1 A2 A3 A4 A5 A6] [B1 B2 B3 B4 B5 B6]. split.
  - destruct_and! A1. destruct_and! B1. split_and!; congruence.
  - lia.
  - by eapply stage_le_trans.
  - lia.
  - destruct_and! A5. destruct_and! B5. split_and!; by etrans.
  - destruct_and! A6. destruct_and! B6. split_and!; tauto.
Qed.

Lemma follows_carries a b :
  (revision_generation a <= U32_MAX)%N -> follows a b ->
  validate b = true /\ carries 1 a b /\ (revision_generation b <= U32_MAX)%N.
Proof.
  unfold follows, validate_successor. intros Ha H. repeat (apply andb_true_iff in H as [H ?]).
  match goal with V : validate b = true |- _ => rename V into Vb end. split; [done|].
  pose proof Vb as V. unfold validate in V. repeat (apply andb_true_iff in V as [V ?]).
  apply N.ltb_lt in V.
  assert (Hg : revision_generation b = (revision_generation a + 1)%N /\ (revision_generation b <= U32_MAX)%N).
  { match goal with E : (revision_generation b =? wrapping_add_u32 _ _)%N = true |- _ => apply N.eqb_eq in E; rewrite E in *;
      unfold wrapping_add_u32, U32_MAX in * end.
    destruct (decide (revision_generation a = 4294967295)%N) as [e|]; [rewrite e in V; vm_compute in V; done|].
    rewrite N.mod_small by lia. lia. }
  split; [|tauto]. split.
  - repeat match goal with E : (_ ==? _) = true |- _ => apply bool_decide_eq_true in E end. split_and!; congruence.
  - lia.
  - done.
  - repeat match goal with E : (_ <=? _)%N = true |- _ => apply N.leb_le in E
      | E : (_ <=? _)%Z = true |- _ => apply Z.leb_le in E end. done.
  - split_and!; (eapply retains_true; [|eassumption]); (by apply usage_ids_sorted) || by apply usage_texts_sorted.
  - split_and!; apply truth_progress_true; done.
Qed.

Lemma use_carries n a b :
  (revision_generation a <= U32_MAX)%N -> nsteps follows n a b ->
  carries n a b /\ (revision_generation b <= U32_MAX)%N /\ (validate a = true -> validate b = true).
Proof.
  intros Ha H. induction H as [a|n a b c Hab _ IH]; [split_and!; [apply carries_refl|done|done]|].
  destruct (follows_carries a b Ha Hab) as (Vb & Cab & Hb). destruct (IH Hb) as (Cbc & Hc & V).
  split_and!; [exact (carries_trans 1 n a b c Cab Cbc)|done|by intros _; apply V].
Qed.

(** What a valid revision says of its stage. *)
Lemma staged_at a : validate a = true ->
  (route_decision a = ProcedureUsageRouteDecision.Defer -> leb_ord (stage a) ProcedureUsageStage.Returned = true)
  /\ (outcome_supported a = ProcedureTruth.True_ ->
      stage a = ProcedureUsageStage.Outcome /\ action_aligned a = ProcedureTruth.True_
      /\ verifier_aligned a = ProcedureTruth.True_ /\ correlation_state a = ProcedureCorrelationState.Resolved).
Proof.
  unfold validate. intros [_ H]%andb_true_iff. unfold staged in H.
  destruct (route_decision a), (stage a), (action_aligned a), (verifier_aligned a), (outcome_supported a), (correlation_state a);
    vm_compute in H; first [discriminate H | split; [intros H1; first [discriminate H1 | reflexivity] | intros H1; first [discriminate H1 | by split_and!]]].
Qed.
End usage.

(** ** Publication *)

Section publication.
Import ProcedureStateEvent.

(** An event that lifts a hold, giving back the state the hold took. *)
Definition lifts (hold e : ProcedureStateEvent) : Prop :=
  validate e = Ok tt /\ procedure_revision_id e = procedure_revision_id hold
  /\ from_state e = Some ProcedurePublicationState.ReviewHold /\ resume_state hold = Some (to_state e).

Lemma hold_lifted hold :
  validate hold = Ok tt -> to_state hold = ProcedurePublicationState.ReviewHold ->
  (exists e, lifts hold e) <-> from_state hold = Some ProcedurePublicationState.ActiveProbationary.
Proof.
  intros V To. pose proof V as V0. unfold validate in V. guards. split.
  - intros (e & Ve & _ & Hf & Hr). unfold validate in Ve. guards.
    unfold transition_allowed in *. rewrite To, Hf in *. simpl in *.
    destruct (from_state hold) as [f|]; [|destruct (resume_state hold); done].
    guards. rewrite Hr in *. simplify_eq. destruct (to_state e); done.
  - intros Hf. exists (mk (state_event_id hold) (procedure_revision_id hold) (Some ProcedurePublicationState.ReviewHold)
      ProcedurePublicationState.ActiveProbationary (reason hold) None (evidence_refs hold) (created_at_us hold)).
    unfold lifts. simpl. split_and!; try done.
    + unfold validate in *. rewrite guard_ok, !orb_false_iff in *. destruct_and! V0. simpl. split_and!; done.
    + unfold transition_allowed in *. rewrite To, Hf in *. simpl in *. guards.
      by match goal with E : resume_state hold = _ |- _ => rewrite E end.
Qed.
End publication.

(** ** Theorems *)

#[local] Close Scope Q_scope.

(** C25: however many revisions follow a valid use of a procedure, the use keeps its
    identity, its exposure, its route and its context; its generation counts the revisions
    and stays within its width; its stage and watermark never go back; it loses no
    attempt, episode, operation, binding, effect or evidence, and nothing found true is
    taken back.  A deferred use is never past being returned, and a supported outcome
    needs both alignments and a resolved correlation. *)
Theorem use_history n a b :
  ProcedureUsageRevision.validate a = true -> (ProcedureUsageRevision.revision_generation a <= U32_MAX)%N ->
  nsteps follows n a b ->
  carries n a b /\ (ProcedureUsageRevision.revision_generation b <= U32_MAX)%N
  /\ (ProcedureUsageRevision.route_decision b = ProcedureUsageRouteDecision.Defer ->
      leb_ord (ProcedureUsageRevision.stage b) ProcedureUsageStage.Returned = true)
  /\ (ProcedureUsageRevision.outcome_supported b = ProcedureTruth.True_ ->
      ProcedureUsageRevision.stage b = ProcedureUsageStage.Outcome
      /\ ProcedureUsageRevision.action_aligned b = ProcedureTruth.True_
      /\ ProcedureUsageRevision.verifier_aligned b = ProcedureTruth.True_
      /\ ProcedureUsageRevision.correlation_state b = ProcedureCorrelationState.Resolved).
Proof.
  intros V Ha Hs. destruct (use_carries n a b Ha Hs) as (Hc & Hb & Vb).
  split; [exact Hc|]. split; [exact Hb|]. apply staged_at. by apply Vb.
Qed.

(** The revisions of a procedure stay with the procedure, only ever narrow its scope,
    never go back in time, and are counted by a generation that saturates at its width. *)
Theorem procedure_history n a b : nsteps revises n a b -> within n a b.
Proof. apply revises_within. Qed.

(** C26: a review hold can be lifted, that is, some valid event gives back the state the
    hold says to resume, exactly when the hold was put on a probationary publication: the
    hold of a stable publication is never lifted. *)
Theorem hold_lifted_iff hold :
  ProcedureStateEvent.validate hold = Ok tt -> ProcedureStateEvent.to_state hold = ProcedurePublicationState.ReviewHold ->
  (exists e, lifts hold e) <-> ProcedureStateEvent.from_state hold = Some ProcedurePublicationState.ActiveProbationary.
Proof. apply hold_lifted. Qed.

(** C27: when a metric is classified against its control, the two texts and the two
    thresholds of the binding are decimals -- an optional minus sign, digits, and digits
    behind a point -- and the class is the one the rational numbers denoted by the texts
    have: the gain reaches the positive threshold, or does not and reaches minus the
    negative one, or neither. *)
Theorem metric_delta_exact binding procedure control d :
  classify_metric_delta binding procedure control = Some d ->
  exists p c pos neg,
    denotes procedure p /\ denotes control c
    /\ denotes (ComparisonExecutionBinding.positive_delta_threshold binding) pos
    /\ denotes (ComparisonExecutionBinding.negative_delta_threshold binding) neg
    /\ let delta := gain (ComparisonExecutionBinding.metric_direction binding) p c in
       match d with
       | MetricDeltaDirection.Positive => (pos <= delta)%Q
       | MetricDeltaDirection.Negative => (delta < pos /\ delta <= - neg)%Q
       | MetricDeltaDirection.Neutral => (delta < pos /\ - neg < delta)%Q
       end.
Proof. apply classify_denoted. Qed.

(** The texts read as a decimal are an optional minus sign, digits, and digits behind
    a point, whose value fits the width; the decimal read has that value. *)
Theorem decimal_parse_iff s d :
  ExactDecimal.parse s = Some d <->
  exists negative whole fraction,
    as_bytes s = decimal_text negative whole fraction /\ whole <> [] /\ all is_ascii_digit (whole ++ fraction) = true
    /\ (digits_value (whole ++ fraction) <= I128_MAX)%Z /\ (N.of_nat (length fraction) <= U32_MAX)%N
    /\ d = ExactDecimal.mk (if negative then - digits_value (whole ++ fraction) else digits_value (whole ++ fraction))%Z
             (N.of_nat (length fraction)).
Proof. apply parse_iff. Qed.

(** C24: the effects compiled from the observed usages do not depend on the order of the
    usages; each effect describes exactly the usages of its procedure revision and
    context -- their number, their successes, their evidence -- and every usage is
    described by one of them. *)
Theorem effects_exact `{L : UuidLib} `{SHA : Sha256} inputs ps :
  compile_observational_effects inputs = Ok ps ->
  (forall inputs', inputs ≡ₚ inputs' -> compile_observational_effects inputs' = Ok ps)
  /\ Forall (fun p => describes (usages_of (ProcedureContextEffectProjection.procedure_revision_id p)
                        (ProcedureContextEffectProjection.context_fingerprint_hash p) inputs) p) ps
  /\ Forall (fun input => exists p key value, p ∈ ps /\ keyed input = Ok (key, value)
       /\ ProcedureContextEffectProjection.procedure_revision_id p = key.1
       /\ ProcedureContextEffectProjection.context_fingerprint_hash p = key.2) inputs.
Proof.
  intros H. split_and!.
  - intros inputs' Hp. rewrite <-H. symmetry. by apply effects_perm.
  - apply Forall_forall. intros p Hp. by eapply effects_describe.
  - apply Forall_forall. intros input Hi. destruct (compiled_keyed inputs ps input H Hi) as ([key value] & Hk).
    destruct (effects_cover inputs ps input key value H Hi Hk) as (p & Hp & H1 & H2). by exists p, key, value.
Qed.

Module ProcedureWitnesses.
#[local] Instance zeros : Sha256 := fun _ => replicate 32 Byte.x00.

Definition uid {f} (n : N) : Id f := mk_id (mk_uuid (0x0190a3b17c2d7e4f8a9b0c1d2e3f4000 + n)).
Definition rid (n : N) : RevisionId := mk_rid (mk_uuid (0x0190a3b17c2d7e4f8a9b0c1d2e3f4000 + n)).

(** ** A use, from its claim to its supported outcome *)

Definition use_with (revision : N) (parent : option RevisionId) (generation : N) (stage : ProcedureUsageStage)
    (operations : list OperationId) (aligned : ProcedureTruth) : ProcedureUsageRevision :=
  ProcedureUsageRevision.mk (uid 47) (rid revision) parent generation (rid 90) (uid 41) (uid 42) (rid 46) "boundary"
    ProcedureUsageRouteDecision.Apply stage [uid 40] [] [] operations [] [] []
    ProcedureCorrelationState.Resolved ProcedureTruth.True_ aligned aligned aligned
    (ProcedureLocalContext.mk (Some (uid 10)) (Some (uid 22)) ProcedureUsagePhase.AtEntry None) generation ["evidence"%string] 1.
Definition claimed := use_with 48 None 1 ProcedureUsageStage.Claimed [] ProcedureTruth.Unknown.
Definition acted := use_with 49 (Some (rid 48)) 2 ProcedureUsageStage.Action [uid 80] ProcedureTruth.Unknown.
Definition supported := use_with 50 (Some (rid 49)) 3 ProcedureUsageStage.Outcome [uid 80] ProcedureTruth.True_.

Lemma use_history_witness : carries 2 claimed supported /\ ProcedureUsageRevision.stage supported = ProcedureUsageStage.Outcome.
Proof.
  destruct (use_history 2 claimed supported) as (Hc & _ & _ & Ho).
  - vm_compute. reflexivity.
  - vm_compute. discriminate.
  - apply (nsteps_l follows 1 claimed acted); [vm_compute; reflexivity|]. apply nsteps_once. vm_compute. reflexivity.
  - split; [exact Hc|]. apply Ho. reflexivity.
Defined.
(** A deferred use goes no further than its return, an outcome needs a resolved correlation. *)
Example use_skips_nothing_back : ProcedureUsageRevision.validate_successor supported claimed = false.
Proof. vm_compute. reflexivity. Qed.

(** ** Revisions of a procedure *)


Definition agent_text (text : string) : ConstraintExpr := ConstraintExpr.Eq ConstraintField.AgentKind (ConstraintValue.Text text).
Definition draft_with (scope : ProcedureScope) (title : string) : ProcedureDraft :=
  ProcedureDraft.mk scope title "summary" ProcedureKind.Workflow (ProcedureWhen.mk [] [] [] "stage" [] [])
    1 (agent_text "agent") (agent_text "other") (agent_text "agent") None
    (ProcedureActions.mk ["do"%string] [] []) (ProcedureDone.mk ["done"%string] ["abort"%string] ["verify"%string])
    [] ["evidence"%string] [rid 5].
Definition global_revision : ProcedureRevision :=
  ProcedureRevision.mk (uid 60) (rid 61) None 1 (draft_with ProcedureScope.Global "title") 1 1.
Definition repository_revision : ProcedureRevision :=
  ProcedureRevision.mk (uid 60) (rid 62) (Some (rid 61)) 2 (draft_with (ProcedureScope.Repository (uid 10)) "title") 1 1.
Lemma procedure_history_witness : within 1 global_revision repository_revision.
Proof. apply procedure_history. apply nsteps_once. vm_compute. reflexivity. Defined.
(** The scope never widens. *)
Example scope_never_widens :
  ProcedureRevision.validate_successor repository_revision
    (ProcedureRevision.mk (uid 60) (rid 63) (Some (rid 62)) 3 (draft_with ProcedureScope.Global "title") 1 1)
  = Err SemanticError.InvalidProcedureSuccessor.
Proof. vm_compute. reflexivity. Qed.

(** ** A hold of a probationary and one of a stable publication *)

Definition event (from : option ProcedurePublicationState) (to : ProcedurePublicationState) (reason : ProcedureStateReason)
    (resume : option ProcedurePublicationState) : ProcedureStateEvent :=
  ProcedureStateEvent.mk (rid 100) (rid 61) from to reason resume ["evidence"%string] 1.
Definition stable_hold := event (Some ProcedurePublicationState.ActiveStable) ProcedurePublicationState.ReviewHold
  ProcedureStateReason.SuspectedHarm (Some ProcedurePublicationState.ActiveStable).
Lemma hold_lifted_iff_witness : ~ exists e, lifts stable_hold e.
Proof.
  intros H. apply (hold_lifted_iff stable_hold) in H; [discriminate H|vm_compute; reflexivity|reflexivity].
Defined.
(** The event that would lift it is refused. *)
Example stable_hold_not_lifted :
  ProcedureStateEvent.validate (event (Some ProcedurePublicationState.ReviewHold) ProcedurePublicationState.ActiveStable
    ProcedureStateReason.SuspectedHarm None) = Err SemanticError.InvalidProcedurePublication.
Proof. vm_compute. reflexivity. Qed.

(** ** A metric against its control *)

Definition execution (direction : MetricDirection) (threshold : string) : ComparisonExecutionBinding :=
  ComparisonExecutionBinding.mk 1 "toolchain" "model" "harness" "algorithm" 100 (Some (rid 61)) direction "points" threshold threshold.
Example gained : classify_metric_delta (execution MetricDirection.HigherIsBetter "0.1") "0.30" "0.2" = Some MetricDeltaDirection.Positive.
Proof. vm_compute. reflexivity. Qed.
Example lost : classify_metric_delta (execution MetricDirection.LowerIsBetter "0.1") "1.5" "0.2" = Some MetricDeltaDirection.Negative.
Proof. vm_compute. reflexivity. Qed.
Lemma metric_delta_exact_witness :
  exists p c pos neg, denotes "-0.2" p /\ denotes "0.30" c /\ denotes "0.1" pos /\ denotes "0.1" neg
    /\ (p - c < pos /\ p - c <= - neg)%Q.
Proof.
  exact (metric_delta_exact (execution MetricDirection.HigherIsBetter "0.1") "-0.2" "0.30" MetricDeltaDirection.Negative
    ltac:(vm_compute; reflexivity)).
Defined.

(** ** The effects of observed usages *)

Definition context : ProcedureEffectContext :=
  ProcedureEffectContext.mk (rid 61) (uid 41) (ProcedureContextAnchor.NonRepository ["fixture"%string]) []
    ProcedureUsagePhase.AtEntry None "toolchain" "model" "harness" "algorithm" 100 "boundary".
Definition observed (n : N) (supported : bool) (references : list string) : ObservationalUsageInput :=
  ObservationalUsageInput.mk (uid n) context supported references n.
Definition observations : list ObservationalUsageInput :=
  [observed 3 true ["c"; "a"]; observed 1 true ["b"]; observed 2 false ["a"]]%string.
Definition effects : list ProcedureContextEffectProjection :=
  match compile_observational_effects observations with Ok ps => ps | Err _ => [] end.
Lemma effects_exact_witness :
  compile_observational_effects (rev observations) = Ok effects
  /\ ProcedureContextEffectProjection.effect <$> effects = [ProcedureEffect.Mixed].
Proof.
  split; [|vm_compute; reflexivity].
  apply (effects_exact observations effects); [vm_compute; reflexivity|]. apply Permutation_rev.
Defined.

(** Each usage may have 64 references, and so may all the usages of a context together:
    two usages with 33 references each are compiled alone, but not together. *)
Definition references (from : N) : list string :=
  (fun n => rid_display (rid (from + N.of_nat n))) <$> seq 0 33.
Theorem effects_evidence_overflow :
  is_ok (rbind (compile_observational_effects [observed 1 true (references 100)]) (fun _ => Ok tt)) = true
  /\ is_ok (rbind (compile_observational_effects [observed 2 true (references 200)]) (fun _ => Ok tt)) = true
  /\ compile_observational_effects [observed 1 true (references 100); observed 2 true (references 200)]
     = Err SemanticError.InvalidProcedure.
Proof. vm_compute. done. Qed.
End ProcedureWitnesses.
